(* ===== verification/_CoqProject ===== *)
-Q . S2P
Prelude.v
RBTree.v
RBZip.v
RBInsert.v
RBDelete.v
RBIter.v
RBSpec.v
DList.v
DListSpec.v
Queue.v
KeyTable.v
Hash.v
HashMap.v
HashSpec.v
Pool.v
PoolSpec.v
Timer.v
TimerSpec.v
Tlv.v
TlvSpec.v
XactBase.v
Octets.v
Words.v
Aes.v
AesRef.v
AesRounds.v
AesSpec.v
AesModes.v
AesModesSpec.v
Milenage.v
MilenageSpec.v
AkaSpec.v
Zuc.v
ZucSpec.v
EeaSpec.v
Snow.v
SnowSpec.v
Sha2.v
Sha2Spec.v
Base64.v
Base64Spec.v
Kdf.v
KdfSpec.v
Pkbuf.v
NasSecurity.v
NasSecuritySpec.v
NasExchange.v
NasCounts.v
OctetSpec.v
PfcpTypes.v
PfcpTypesSpec.v
Rates.v
RatesSpec.v
Gtp2Types.v
TftSpec.v
Gtp2Ies.v
Gtp2IesSpec.v
Routes.v
RouteTrie.v
RoutesSpec.v
UeIp.v
UeIpSpec.v
RuleMatch.v
RuleMatchSpec.v
GtpU.v
GtpUSpec.v
XactInv.v
PfcpXact.v
PfcpInv.v
PfcpOps.v
PfcpSpec.v
PfcpExpiry.v
PfcpNet.v
PfcpNetInv.v
PfcpNetSpec.v
GtpTypes.v
GtpXact.v
GtpInv.v
GtpOps.v
GtpSpec.v
