(* ===== verification/Prelude.v ===== *)
(** * The core of Open5GS, verified

    Open5GS is a 4G/5G core network in C: one process per network function,
    all of them built on the library in src/lib.  This development models the
    parts of that library that carry its logic - the containers and timers of
    lib/core, the wire codecs, cryptography and key derivation, and the
    transaction layers of PFCP and GTP -
    as executable functions, statement by statement, and proves what they
    promise to their callers; and the security of the signalling, from the
    ciphers of lib/crypt up to the protection of NAS messages in the MME and
    the AMF, against the standards written as definitions of their own.

    ** How the program fits together

    A network function runs one event loop.  The loop takes events from a
    queue (ogs-queue.c) that other threads fill, sleeps until the next timer
    (ogs-timer.c, running timers being nodes of a red-black tree,
    ogs-rbtree.c), and fires the due ones.  Contexts come from fixed pools
    (ogs-pool.h) and are found by pool id or by key through hash tables
    (ogs-hash.c).  Requests to peers go through a transaction layer
    (pfcp/xact.c, gtp/xact.c), which numbers them, sends them again until
    they are answered, and answers duplicated requests from a stored reply;
    its transactions live in a pool, are linked in lists of the peer, and own
    timers.  Messages are blocks of type-length-value elements (ogs-tlv.c)
    whose values are built and parsed by pfcp/types.c, gtp/v2/types.c.

    The UPF takes user packets out of GTP-U tunnels and puts them into some
    (gtp/util.c, gtp/v2/build.c); it classifies them by the rules that the
    SMF has sent (pfcp/rule-match.c) and finds the session of a packet to a
    UE, or to a network behind one, by its address (src/upf/context.c), which
    SMF or UPF took from the pool of a subnet (pfcp/context.c).

    A UE and its home network share a key.  They authenticate each other with
    Milenage (milenage.c), derive a tree of keys from the result (ogs-kdf.c over
    HMAC-SHA-256), and the MME or the AMF and the UE protect each NAS message with
    two of these keys, a count and one of three pairs of algorithms over SNOW 3G,
    AES and ZUC (nas/common/security.c, src/mme/nas-security.c,
    src/amf/nas-security.c), in the buffer that carries the message
    (ogs-pkbuf.c).

    ** Files and the code they model

    - Prelude.v: the state monad [M] with failure, weakest preconditions,
      lists of distinct names, ring buffers, machine integers.
    - RBTree.v: core/ogs-rbtree.c and .h over a store of nodes with parent,
      left and right pointers.  RBZip.v views the store as a tree with a
      zipper, RBInsert.v, RBDelete.v, RBIter.v prove the operations, RBSpec.v
      holds the theorems.
    - DList.v, DListSpec.v: core/ogs-list.h over a memory of nodes.
    - Queue.v: core/ogs-queue.c; threads as a step relation whose steps are
      the code between two operations on the mutex or a condition variable.
    - KeyTable.v: the interface of a table keyed by memory (a type class).
      Hash.v: core/ogs-hash.c; HashMap.v proves that it is an instance,
      HashSpec.v holds the theorems.
    - Pool.v, PoolSpec.v: core/ogs-pool.h, against the interface.
    - Timer.v, TimerSpec.v: core/ogs-timer.c over RBTree.v and
      Pool.v, as a schedule of time-outs.
    - Tlv.v, TlvSpec.v: core/ogs-tlv.c.
    - Octets.v: integers in memory and in octets and, in Module Conv, texts in
      octets (core/ogs-conv.c), and the two little languages of the element
      codecs: [put] for builds, the monad [P] for parses; OctetSpec.v has their
      lemmas.
      PfcpTypes.v, PfcpTypesSpec.v: pfcp/types.c.
    - Words.v: words of 32 bits, their exclusive or and shifts, tables, and a
      way to check a statement on every byte by evaluation.
    - Aes.v: both key schedules and both directions of ogs-aes.c, with its ten
      tables.  AesRef.v is FIPS 197 (the field, SubBytes, ShiftRows,
      MixColumns, the schedule); AesRounds.v proves a round of tables equal to a
      round of it, AesSpec.v the cipher.  AesModes.v, AesModesSpec.v: CBC, counter
      mode and CMAC (ogs-aes.c, ogs-aes-cmac.c).
    - Milenage.v: milenage.c and [ogs_auc_sqn]; MilenageSpec.v has TS 35.206,
      AkaSpec.v the exchange of a challenge between the two sides.
    - Zuc.v: zuc.c, its registers a value that the functions pass on.  ZucSpec.v
      has the specification over the integers mod 2^31 - 1, EeaSpec.v the
      two algorithms over bits.
    - Snow.v: SNOW 3G twice, in Module Snow3g snow-3g.c and in Module SnowCore
      openssl/snow_core.c; SnowSpec.v proves them equal.
    - Sha2.v: ogs-sha2.c and ogs-sha2-hmac.c, one model for the four algorithms;
      Sha2Spec.v has FIPS 180 (Module Fips180) and RFC 2104.
    - Base64.v, Base64Spec.v: ogs-base64.c and keys in PEM files.
    - Kdf.v: ogs-kdf.c; KdfSpec.v has the derivations as TS 33.220, TS 33.401
      and TS 33.501 write them.
    - Pkbuf.v: core/ogs-pkbuf.h as three pieces of memory: before, in and after
      the window.
    - NasSecurity.v: nas/common/security.c, the encoders and decoders of MME
      and AMF, the reception of a message in [s1ap_send_to_nas], and the
      other side from tests/common/nas-security.c.  NasSecuritySpec.v: ciphering
      and codes; NasExchange.v: what is accepted; NasCounts.v: sessions.
    - Rates.v, RatesSpec.v: the coded bit rates of nas/common/types.c, and
      their decoder in gtp/v2/types.c.
    - Gtp2Types.v, TftSpec.v: traffic flow templates, from the packet filters
      of a bearer (encode_traffic_flow_template of src/smf/binding.c over
      ogs_pf_content_from_ipfw_rule of ipfw/ogs-ipfw.c) to octets and back
      (gtp/v2/types.c).  Gtp2Ies.v, Gtp2IesSpec.v: the other elements of
      gtp/v2/types.c.
    - Routes.v: the tries of framed routes in src/upf/context.c, from prefixes
      to sessions, over a memory of nodes, the look-up of a session by an
      address, and how the text of a prefix is read
      (ogs_ipsubnet of core/ogs-sockaddr.c over the C library's inet_pton).  RouteTrie.v has them as trees and
      proves the functions equal to those of the trees, RoutesSpec.v relates
      prefixes in bits to masks of words and proves what sessions rely on.
    - UeIp.v: the subnets of SMF and UPF and the addresses of UEs
      (pfcp/context.c) over the pool of Pool.v; UeIpSpec.v has the addresses
      that a configuration means, and the states that sessions reach.
    - RuleMatch.v, RuleMatchSpec.v: pfcp/rule-match.c, the headers of an IP
      packet and the rules of a PDR; GtpU.v, GtpUSpec.v: the header of GTP-U
      (gtp/util.c, gtp/v2/build.c) in a packet buffer.
    - XactBase.v, XactInv.v: what the two transaction layers share: pool,
      lists of the peers, timers, the log of what was sent, freed or called.
      PfcpXact.v, PfcpInv.v, PfcpOps.v, PfcpSpec.v: pfcp/xact.c; PfcpExpiry.v
      has the termination of its time-outs.
      PfcpNet.v, PfcpNetInv.v, PfcpNetSpec.v: the senders and the receiver of
      pfcp/path.c, the admission of messages in pfcp_recv_cb (src/upf/pfcp-path.c)
      with ogs_pfcp_parse_msg and ogs_pfcp_extract_node_id, and two endpoints - the layers of a control plane and a
      user plane with their owners - over a network that loses, repeats and
      reorders datagrams; the automaton of one exchange; a simulation.
      GtpTypes.v, GtpXact.v, GtpInv.v, GtpOps.v, GtpSpec.v: gtp/xact.c.
    A definition has the name of the C function it translates; a helper that
    stands for a part of a function is a definition beside it.

    ** How state and control are rendered

    C code that dereferences pointers or asserts is a computation of
    [M S A = S -> option (A * S)] over the state [S] of its component:
    [None] is an abort - a failed [ogs_assert], a NULL or dangling pointer,
    an access out of bounds.  Every safety theorem says that this does not
    happen.  Out-parameters and assigned fields are components of [S]; early
    returns are the branches of the definition.  Unsigned arithmetic is
    reduced explicitly where it can wrap ([u8], [u16], [u32]).  A pointer to a
    node is a name in a store, NULL is [None].  Memory that keys point to is
    part of the state of the hash table, because the table reads keys through
    pointers it does not own.  The host is little-endian: integers copied to
    and from buffers show in that byte order, and the [htobe] and [betoh]
    functions reverse it.

    Timer callbacks are events: [response_timeout], [holding_timeout],
    [delayed_commit_timeout] and [peer_timeout] are operations that the
    environment may run when the timer is armed.  The callback of a
    transaction's owner is an entry of the log; what the owner does in it are
    the operations that follow.  A packet is the list of its bytes.

    ** Loops and fuel

    Loops whose bound is not structural take fuel and abort without it, so
    that every theorem about them says that the fuel is enough.  The loops of
    the red-black tree get two turns more than there are nodes in the
    store ([rb_fuel]), more than the height of the tree; the descent is also proved logarithmic.
    The iteration of the hash table gets one turn per entry ([iter_fuel]) and
    the search for the next bucket one per bucket.  The TLV parser gets one
    turn per byte of the block and one more, since every element consumes at
    least one byte.  The loops over the packet filters of a template and over
    their components are structural in what the arrays leave.  The modes of AES
    get one turn per byte and one more, the decoder of base64 one per
    character and one more; the loops over the headers and options of an IPv6
    packet one per octet and one more; filling a pool of addresses gets one per
    place and three, since an excluded address is met once; the loops over rounds, words and bits are folds over
    their indices.

    ** What the theorems show

    - C1 to C3: two PFCP endpoints over UDP.  A reply is handed to the request
      it was given to, and once; a request is handed over again only after its
      transaction was dropped; the system refines the automaton of an exchange
      and never aborts; and a waiting request is completed by three given
      steps at most, if neither side refuses the messages when it parses them.
    - C4 to C8: NAS messages.  Whatever arrives, the counts of the messages
      that the decoder accepts increase strictly; what the other side protects is accepted as it was
      sent while the counts are close; each branch of the decoders; the
      messages that abort the MME, exactly; and the context stays well-formed
      over any session, in which the downlink count is the number of messages
      sent.
    - C9: time-outs alone bring the PFCP layer to rest, in a bounded number of
      expiries.
    - C10, C11, C15, C17: AES, Milenage, 128-EIA3, SHA-2 are what
      their standards define, whatever the splitting into calls; C16: the two
      implementations of SNOW 3G agree, and how much of a buffer the first one
      changes.
    - C12, C13: a challenge is accepted exactly when the network made it with a
      greater sequence number, and an old one makes both sides agree again.
    - C14: sessions hold different addresses of the ranges of their subnets, if
      no address is in the ranges of two, and are refused exactly when none is
      left.
    - C18, C19: every derived key is the one of its standard, except for the
      order of octets in four of them.
    - C20: whatever a user packet is, every read is inside it, and the UPF finds
      the first rule for its flow; of a later fragment, that for the flow which
      its data would have as a header.
    - C21, C22: the red-black tree keeps its order, its colours and every
      other node.
    - C23: the queue is a bounded first-in first-out buffer under any
      interleaving, and counts its waiters exactly.
    - C24: a linked list is the sequence of its nodes, under every operation
      and the loops that remove and free nodes on the way.
    - C25: the hash table is a finite map whatever happens to memory it
      does not use.
    - C26: pools neither lose nor share nodes.
    - C27, C28: the timer manager is a schedule; what fires, and in which order.
    - C29 to C31: TLV rendering is exact and inverse to parsing; parsing any
      bytes is safe, and its elements tile the block.
    - C32, C34: the PFCP transaction layer is safe in every reachable state;
      reception on every branch.
    - C33: the UPF finds the session whose UE has an address, or else that of
      the longest framed route, as long as no prefix is given twice; and lets a
      session send from the networks that it has.
    - C35, C36: safety and reception of GTP with its two versions, three-step
      transactions and associations.
    - C37: parsing the header of GTP-U, on any octets, and what its extension
      headers say.
    - C38 to C40: the filters of a bearer arrive at the peer as they are, or
      the SMF aborts, exactly when they do not fit; the same for the other elements
      of GTPv2, but for rates, which are rounded down; and parsing any octets
      is safe.
    Further theorems of the Spec files have no number: iteration over trees and
    tables, re-keying, ids of pools, the exchanges of a PFCP client and server
    and their retransmissions, local creation in GTP and its sequence
    numbers, the PFCP elements, the coded qualities of service (coding a rate
    rounds down by a bounded amount), what is base64, that different parameters
    of a key derivation give different inputs of the hash, the key stream of
    ZUC, ranges of addresses that carry over an octet, what a prefix in the
    configuration means, identities, keys and numbers in texts, headers of GTP-U
    that are built and parsed, the inverses
    of the ciphers and their modes, CMAC and HMAC, keys in PEM files.

    ** Contracts used and not proved

    The transaction layers use the pool, the timers and the lists of a peer
    through the contracts that PoolSpec.v, TimerSpec.v and DListSpec.v prove: a
    list is the sequence of its nodes, a pool gives a free slot under an id
    that is not in use (a pool has fewer slots than ids, so that the counter
    wraps around only after 2^31 - 1 allocations), a timer is idle or armed.
    The mutex and the condition variables are those of POSIX: exclusive, and
    waking possibly without a signal.  malloc succeeds.  In the system of two
    endpoints each has one peer, requests are fewer than the 2^23 ids, so that
    no id comes back, and the messages fit the receive buffer; what the
    generated tables make of a payload is a parameter of the system (an error,
    or the Node ID in it), and each side writes its own Node ID, by which
    its peer finds the node.  [data_len] arguments
    are not negative.

    ** Not modelled

    Sockets, polling, threads and logging (I/O); the pools behind packet buffers
    (their windows are modelled); the generated codecs of lib/asn1c, lib/nas,
    lib/sbi/openapi and the message.c files; elliptic curves, SHA-1 and
    Kasumi; the configuration; the glue to freeDiameter, MongoDB, nghttp2 and
    curl; the rule compiler of the vendored ipfw: a packet filter starts as
    a compiled rule.  Of the network functions in src/src, only NAS security,
    the packet filters of an SMF bearer and the framed routes of the UPF are
    modelled, not their contexts
    and state machines, which call generated codecs at every step; the same
    holds of lib/pfcp/handler.c, and of context.c but for the addresses of
    UEs. *)

From stdpp Require Export base tactics numbers option list gmap sorting.
From Stdlib Require Export ZArith Lia ZifyBool.

(** ** A state monad with failure

    C code that follows pointers and calls [ogs_assert] is written in the
    monad [M S]: a computation takes the state [S] and yields a value and the
    next state, or [None] when a NULL or dangling pointer is dereferenced or
    an [ogs_assert] fails (the process aborts). *)
Definition M (S A : Type) : Type := S → option (A * S).

#[export] Instance M_ret {S} : MRet (M S) := λ A a s, Some (a, s).
#[export] Instance M_bind {S} : MBind (M S) :=
  λ A B f m s, match m s with Some (a, s') => f a s' | None => None end.

Definition m_fail {S A} : M S A := λ _, None.
Definition m_get {S} : M S S := λ s, Some (s, s).
Definition m_gets {S A} (f : S → A) : M S A := λ s, Some (f s, s).
Definition m_modify {S} (f : S → S) : M S unit := λ s, Some (tt, f s).
(** [ogs_assert(b)]. *)
Definition m_assert {S} (b : bool) : M S unit :=
  λ s, if b then Some (tt, s) else None.
(** Use of a pointer that must not be NULL. *)
Definition m_some {S A} (o : option A) : M S A :=
  λ s, match o with Some a => Some (a, s) | None => None end.
Definition m_when {S} (b : bool) (m : M S unit) : M S unit :=
  if b then m else mret tt.
(** [if (p) use(p);] for a pointer [p]. *)
Definition m_if_some {S A} (o : option A) (f : A → M S unit) : M S unit :=
  match o with Some a => f a | None => mret tt end.

Section monad_lemmas.
Context {S A B : Type}.
Implicit Types (m : M S A) (f : A → M S B).

Lemma bind_step m f s a s' :
  m s = Some (a, s') → (m ≫= f) s = f a s'.
Proof. intros H. unfold mbind, M_bind. by rewrite H. Qed.

Lemma bind_inv m f s r :
  (m ≫= f) s = Some r → ∃ a s', m s = Some (a, s') ∧ f a s' = Some r.
Proof. unfold mbind, M_bind. destruct (m s) as [[a s']|]; eauto. done. Qed.
End monad_lemmas.

(** [mstep H] runs the first command of the goal with the equation [H]. *)
Ltac mstep H := erewrite bind_step; [|solve [apply H]].
(** [msimp] runs commands that evaluate by conversion. *)
Ltac msimp := repeat (rewrite (bind_step (mret _)); [|reflexivity]); cbn beta iota.

(** Return values of ogs-errno.h. *)
Inductive ogs_rv := OGS_OK | OGS_ERROR | OGS_RETRY | OGS_TIMEUP | OGS_DONE.
#[export] Instance ogs_rv_eq_dec : EqDecision ogs_rv.
Proof. solve_decision. Defined.

(** ** Weakest preconditions: total correctness of a computation

    [wp m Q s] holds when [m] run in [s] succeeds (no abort, no NULL
    dereference, no exhausted loop bound) in a state that satisfies [Q]. *)
Definition wp {S A} (m : M S A) (Q : A → S → Prop) (s : S) : Prop :=
  match m s with Some (a, s') => Q a s' | None => False end.

Section wp_lemmas.
Context {S A B : Type}.
Implicit Types (s : S).

Lemma wp_bind (m : M S A) (f : A → M S B) Q s :
  wp m (λ a s', wp (f a) Q s') s → wp (m ≫= f) Q s.
Proof. unfold wp, mbind, M_bind. by destruct (m s) as [[??]|]. Qed.

Lemma wp_ret (a : A) Q s : Q a s → wp (mret a) Q s.
Proof. done. Qed.

Lemma wp_gets (f : S → A) Q s : Q (f s) s → wp (m_gets f) Q s.
Proof. done. Qed.

Lemma wp_some (a : A) Q s : Q a s → wp (m_some (Some a)) Q s.
Proof. done. Qed.

Lemma wp_eq (m : M S A) (Q : A → S → Prop) s a s' : m s = Some (a, s') → Q a s' → wp m Q s.
Proof. intros H. unfold wp. by rewrite H. Qed.

Lemma wp_modify (f : S → S) (Q : unit → S → Prop) s : Q tt (f s) → wp (m_modify f) Q s.
Proof. done. Qed.

Lemma wp_assert (b : bool) (Q : unit → S → Prop) s : b = true → Q tt s → wp (m_assert b) Q s.
Proof. by intros ->. Qed.

Lemma wp_mono (m : M S A) (Q Q' : A → S → Prop) s :
  wp m Q s → (∀ a s', Q a s' → Q' a s') → wp m Q' s.
Proof. unfold wp. destruct (m s) as [[??]|]; naive_solver. Qed.

Lemma wp_run (m : M S A) Q s :
  wp m Q s ↔ ∃ a s', m s = Some (a, s') ∧ Q a s'.
Proof. unfold wp. destruct (m s) as [[??]|]; naive_solver. Qed.
End wp_lemmas.

(** A computation run [n] times. *)
Fixpoint m_repeat {S A} (n : nat) (m : M S A) : M S unit :=
  match n with O => mret tt | Datatypes.S n => m;; m_repeat n m end.

Lemma wp_repeat {S A} (m : M S A) n (I : nat → S → Prop) s :
  I n s → (∀ i s, i < n → I (Datatypes.S i) s → wp m (λ _ s', I i s') s) →
  wp (m_repeat n m) (λ _ s', I 0 s') s.
Proof.
  revert s. induction n as [|n IH]; intros s H0 Hstep; cbn; [by apply wp_ret|].
  apply wp_bind. eapply wp_mono; [by apply (Hstep n); [lia|]|]. intros ? s' H. apply IH; [done|].
  intros i s'' Hi. apply Hstep. lia.
Qed.

(** Steps through binds, returns and reads whose result is known. *)
Ltac wp_step :=
  lazymatch goal with
  | |- wp (mbind _ _) _ _ => apply wp_bind
  | |- wp (mret _) _ _ => apply wp_ret
  | |- wp (m_gets _) _ _ => apply wp_gets
  | |- wp (m_some ?o) _ _ =>
      let o' := eval hnf in o in
      lazymatch o' with Some ?a => apply (wp_some a) end
  end; cbn beta iota.
Ltac wp_pure := cbn beta iota; repeat wp_step.

(** ** Lists of distinct names

    [names_in H] turns a fact [NoDup (l1 ++ x :: l2 ++ ..)] into elementary
    facts about the parts; [names] decides the (in)equalities and the
    (non-)memberships that follow from such facts. *)
Definition disj {A} (l k : list A) : Prop := ∀ x, x ∈ l → x ∉ k.

Section disj.
Context {A : Type}.
Implicit Types l k : list A.

Lemma NoDup_app_disj l k : NoDup (l ++ k) ↔ NoDup l ∧ disj l k ∧ NoDup k.
Proof. apply NoDup_app. Qed.
Lemma disj_nil_l k : disj [] k ↔ True.
Proof. unfold disj. split; [done|]. intros _ x Hx. by apply elem_of_nil in Hx. Qed.
Lemma disj_nil_r l : disj l [] ↔ True.
Proof. unfold disj. split; [done|]. intros _ x _ Hx. by apply elem_of_nil in Hx. Qed.
Lemma disj_cons_l n l k : disj (n :: l) k ↔ (n ∉ k) ∧ disj l k.
Proof.
  unfold disj. split.
  - intros H. split; [apply H; by left|]. intros x Hx. apply H. by right.
  - intros [H1 H2] x [->|Hx]%elem_of_cons; auto.
Qed.
Lemma disj_app_l l1 l2 k : disj (l1 ++ l2) k ↔ disj l1 k ∧ disj l2 k.
Proof.
  unfold disj. split.
  - intros H; split; intros x Hx; apply H, elem_of_app; auto.
  - intros [H1 H2] x [Hx|Hx]%elem_of_app; auto.
Qed.
Lemma disj_sym l k : disj l k ↔ disj k l.
Proof. unfold disj; split; intros H x Hx Hx'; by eapply H. Qed.
Lemma disj_cons_r n l k : disj l (n :: k) ↔ (n ∉ l) ∧ disj l k.
Proof. by rewrite disj_sym, disj_cons_l, (disj_sym k). Qed.
Lemma disj_app_r l1 l2 k : disj k (l1 ++ l2) ↔ disj k l1 ∧ disj k l2.
Proof. by rewrite disj_sym, disj_app_l, (disj_sym l1), (disj_sym l2). Qed.
Lemma NoDup_nil_iff : NoDup (@nil A) ↔ True.
Proof. split; [done|]. intros _. constructor. Qed.
Lemma not_elem_of_nil_iff (n : A) : n ∉ [] ↔ True.
Proof. split; [done|]. intros _. apply not_elem_of_nil. Qed.
End disj.

Ltac names_in H :=
  cbn in H;
  do 4 rewrite ?NoDup_app_disj, ?NoDup_cons, ?disj_app_l, ?disj_app_r, ?disj_cons_l,
    ?disj_cons_r, ?disj_nil_l, ?disj_nil_r, ?not_elem_of_app, ?not_elem_of_cons,
    ?not_elem_of_nil_iff, ?NoDup_nil_iff in H;
  destruct_and? H.

Ltac names_step :=
  match goal with
  | H : _ ∈ _ ++ _ |- _ => apply elem_of_app in H; destruct H as [H|H]
  | H : _ ∈ _ :: _ |- _ => apply elem_of_cons in H; destruct H as [H|H]; [subst|]
  | H : _ ∈ [] |- _ => by apply elem_of_nil in H
  | H : _ ∉ _ ++ _ |- _ => apply not_elem_of_app in H; destruct H as [? ?]
  | H : _ ∉ _ :: _ |- _ => apply not_elem_of_cons in H; destruct H as [? ?]
  | H : ?x ∉ ?l, H' : ?x ∈ ?l |- _ => by destruct (H H')
  | D : disj ?l ?k, H : ?x ∈ ?l, H' : ?x ∈ ?k |- _ => by destruct (D _ H H')
  | H : ?x ≠ ?x |- _ => by destruct (H eq_refl)
  | |- _ ∉ _ => intro
  | |- _ ≠ _ => let E := fresh in intro E; first [discriminate E|injection E as E|idtac]; subst
  end.
Ltac in_list :=
  match goal with
  | |- _ ∈ _ ++ _ => apply elem_of_app; first [left; in_list|right; in_list]
  | |- _ ∈ _ :: _ => apply elem_of_cons; first [left; reflexivity|right; in_list]
  | |- _ => assumption
  end.
Ltac names := intros; repeat names_step; try in_list; try tauto; try congruence.
(** The same for a goal [NoDup _]. *)
Ltac nodup :=
  cbn;
  do 4 rewrite ?NoDup_app_disj, ?NoDup_cons, ?disj_app_l, ?disj_app_r, ?disj_cons_l,
    ?disj_cons_r, ?disj_nil_l, ?disj_nil_r, ?not_elem_of_app, ?not_elem_of_cons,
    ?not_elem_of_nil_iff, ?NoDup_nil_iff;
  split_and?; names.

(** ** Ring buffers

    [ring d out n] is the content of a ring buffer stored in the array [d]
    whose first element is at index [out] and which holds [n] elements. *)
Definition ring {A} (d : list A) (out n : nat) : list A := take n (drop out d ++ take out d).

(** [i + 1] with the wrap-around at [size]. *)
Definition ring_succ (size i : nat) : nat := (i + 1) mod size.

Lemma mod_once a n : n ≤ a < 2 * n → a mod n = a - n.
Proof.
  intros H. replace a with ((a - n) + 1 * n) at 1 by lia.
  rewrite Nat.Div0.mod_add. apply Nat.mod_small. lia.
Qed.

Section ring.
Context {A : Type}.
Implicit Types (d : list A) (x : A).

Lemma ring_length d out n : out ≤ length d → n ≤ length d → length (ring d out n) = n.
Proof. intros. unfold ring. rewrite length_take, length_app, length_drop, length_take. lia. Qed.

Lemma ring_lookup d out n i :
  out < length d → n ≤ length d → i < n → ring d out n !! i = d !! ((out + i) mod length d).
Proof.
  intros Ho Hn Hi. unfold ring. rewrite lookup_take_lt by done.
  destruct (decide (i < length d - out)).
  - rewrite lookup_app_l by (rewrite length_drop; lia).
    rewrite lookup_drop, Nat.mod_small by lia. done.
  - rewrite lookup_app_r by (rewrite length_drop; lia).
    rewrite length_drop, lookup_take_lt by lia. rewrite mod_once by lia. f_equal. lia.
Qed.

Lemma ring_snoc d out n x :
  out < length d → n < length d →
  ring (<[(out + n) mod length d := x]> d) out (S n) = ring d out n ++ [x].
Proof.
  intros Ho Hn. set (d' := <[_:=_]> d).
  assert (Hd' : length d' = length d) by apply length_insert.
  apply (list_eq_same_length _ _ (S n)).
  - rewrite length_app, ring_length; cbn; lia.
  - apply ring_length; lia.
  - intros i y z Hi. rewrite ring_lookup, Hd' by lia.
    destruct (decide (i = n)) as [->|Hne].
    + unfold d'. rewrite list_lookup_insert_eq by (apply Nat.mod_upper_bound; lia).
      rewrite lookup_app_r, ring_length, Nat.sub_diag by (rewrite ?ring_length; lia).
      cbn. congruence.
    + rewrite lookup_app_l by (rewrite ring_length; lia). rewrite ring_lookup by lia.
      unfold d'. rewrite list_lookup_insert_ne; [congruence|].
      destruct (decide (out + n < length d)), (decide (out + i < length d));
        repeat first [rewrite (Nat.mod_small (out + n)) by lia
                     |rewrite (Nat.mod_small (out + i)) by lia
                     |rewrite (mod_once (out + n)) by lia
                     |rewrite (mod_once (out + i)) by lia]; lia.
Qed.

Lemma ring_cons d out n x :
  out < length d → n < length d → d !! out = Some x →
  ring d out (S n) = x :: ring d (ring_succ (length d) out) n.
Proof.
  intros Ho Hn Hx. unfold ring_succ.
  assert (Hs : (out + 1) mod length d < length d) by (apply Nat.mod_upper_bound; lia).
  apply (list_eq_same_length _ _ (S n)).
  - cbn. rewrite ring_length; lia.
  - apply ring_length; lia.
  - intros [|i] y z Hi; rewrite ring_lookup by lia; cbn.
    + rewrite Nat.add_0_r, Nat.mod_small by lia. congruence.
    + rewrite ring_lookup by lia. rewrite Nat.Div0.add_mod_idemp_l.
      replace (out + 1 + i) with (out + S i) by lia. congruence.
Qed.

(** Writing outside of the occupied part does not change the content. *)
Lemma ring_insert_out d out n j x :
  out < length d → n ≤ length d → (∀ i, i < n → (out + i) mod length d ≠ j) →
  ring (<[j := x]> d) out n = ring d out n.
Proof.
  intros Ho Hn Hj. assert (Hd' : length (<[j := x]> d) = length d) by apply length_insert.
  apply (list_eq_same_length _ _ n); [by apply ring_length; lia|apply ring_length; lia|].
  intros i y z Hi. rewrite !ring_lookup, Hd' by lia.
  rewrite list_lookup_insert_ne by (apply not_eq_sym; auto). congruence.
Qed.
End ring.

(** The C idiom [i++; if (i >= size) i -= size;]. *)
Lemma ring_succ_wrap size i :
  i < size → (if decide (size ≤ i + 1) then i + 1 - size else i + 1) = ring_succ size i.
Proof.
  intros H. unfold ring_succ. case_decide.
  - replace (i + 1) with size by lia. rewrite Nat.Div0.mod_same. lia.
  - rewrite Nat.mod_small; lia.
Qed.

(** ** Machine integers and bytes *)

#[local] Open Scope Z_scope.

(** Unsigned arithmetic of 8, 16 and 32 bits. *)
Definition u8 (x : Z) : Z := x mod 2 ^ 8.
Definition u16 (x : Z) : Z := x mod 2 ^ 16.
Definition u32 (x : Z) : Z := x mod 2 ^ 32.

Lemma u8_small x : 0 ≤ x < 2 ^ 8 → u8 x = x.
Proof. apply Z.mod_small. Qed.
Lemma u16_small x : 0 ≤ x < 2 ^ 16 → u16 x = x.
Proof. apply Z.mod_small. Qed.
Lemma u32_small x : 0 ≤ x < 2 ^ 32 → u32 x = x.
Proof. apply Z.mod_small. Qed.

(** [x & mask] for a mask of low bits, and disjoint [|], as arithmetic. *)
Lemma land_mask x n : 0 ≤ n → Z.land x (2 ^ n - 1) = x mod 2 ^ n.
Proof. intros. by rewrite <- Z.land_ones, Z.ones_equiv. Qed.

(** Length of a buffer as an integer. *)
Definition zlen {A} (l : list A) : Z := Z.of_nat (length l).

Lemma zlen_app {A} (l k : list A) : zlen (l ++ k) = zlen l + zlen k.
Proof. unfold zlen. rewrite length_app. lia. Qed.
Lemma zlen_cons {A} (a : A) l : zlen (a :: l) = 1 + zlen l.
Proof. unfold zlen. cbn [length]. lia. Qed.
Lemma zlen_nonneg {A} (l : list A) : 0 ≤ zlen l.
Proof. unfold zlen. lia. Qed.

(** Bytes of memory. *)
Definition is_byte (b : Z) : Prop := 0 ≤ b < 256.
Definition bytes (l : list Z) : Prop := Forall is_byte l.

Lemma u8_byte x : is_byte (u8 x).
Proof. apply Z.mod_pos_bound. lia. Qed.

(** The first [n] bytes of an object. *)
Definition read_bytes (obj : list Z) (n : Z) : option (list Z) :=
  if (0 <=? n) && (n <=? Z.of_nat (length obj)) then Some (take (Z.to_nat n) obj) else None.



Lemma read_bytes_length obj n bs : read_bytes obj n = Some bs → Z.of_nat (length bs) = n.
Proof.
  unfold read_bytes. destruct ((0 <=? n) && _) eqn:E; intros [= <-].
  rewrite length_take. lia.
Qed.

Lemma read_bytes_app l k : read_bytes (l ++ k) (zlen l) = Some l.
Proof.
  unfold read_bytes, zlen. rewrite length_app.
  replace ((0 <=? _) && _) with true by (symmetry; lia).
  by rewrite Nat2Z.id, take_app_length.
Qed.

(** ** Notations and hints of the library *)

Declare Scope c_scope.
Delimit Scope c_scope with C.
Notation "x .& y" := (Z.land x y) (at level 41, left associativity) : c_scope.
Notation "x .| y" := (Z.lor x y) (at level 42, left associativity) : c_scope.
Notation "x << n" := (Z.shiftl x n) (at level 40, left associativity) : c_scope.
Notation "x >> n" := (Z.shiftr x n) (at level 40, left associativity) : c_scope.

(** [auto with machine] settles ranges and bytes. *)
Create HintDb machine.
#[export] Hint Resolve zlen_nonneg u8_small u16_small u32_small : machine.
#[export] Hint Extern 1 (_ ≤ _) => lia : machine.
#[export] Hint Extern 1 (_ < _) => lia : machine.
#[export] Hint Extern 1 (_ ≤ _ < _) => lia : machine.
