(* ===== verification/RBTree.v ===== *)
(** * Red-black tree: lib/core/ogs-rbtree.c, lib/core/ogs-rbtree.h

    The tree is modelled with its parent, left and right pointers in a store
    of nodes, the way the C code updates them.  The proofs view the store
    through a tree of node names and a zipper. *)
From S2P Require Import Prelude.

Inductive rbcolor := OGS_RBTREE_BLACK | OGS_RBTREE_RED.
#[export] Instance rbcolor_eq_dec : EqDecision rbcolor.
Proof. solve_decision. Defined.

(** A pointer: [None] is NULL, [Some n] the address of node [n]. *)
Abbreviation ptr := (option positive).

(** struct ogs_rbnode_s *)
Record rbnode := RBNode {
  parent : ptr; left : ptr; right : ptr; color : rbcolor }.

(** struct ogs_rbtree_s with the memory that holds the nodes. *)
Record rbtree := RBTree { root : ptr; nodes : gmap positive rbnode }.

Definition set_parent (p : ptr) (r : rbnode) : rbnode := RBNode p (left r) (right r) (color r).
Definition set_left (p : ptr) (r : rbnode) : rbnode := RBNode (parent r) p (right r) (color r).
Definition set_right (p : ptr) (r : rbnode) : rbnode := RBNode (parent r) (left r) p (color r).
Definition set_color (c : rbcolor) (r : rbnode) : rbnode := RBNode (parent r) (left r) (right r) c.

(** [*n] and an assignment to a field of [*n]. *)
Definition node_get (n : positive) : M rbtree rbnode :=
  λ st, match nodes st !! n with Some r => Some (r, st) | None => None end.
Definition node_upd (n : positive) (f : rbnode → rbnode) : M rbtree unit :=
  λ st, match nodes st !! n with
        | Some r => Some (tt, RBTree (root st) (<[n := f r]> (nodes st)))
        | None => None
        end.
Definition set_root (p : ptr) : M rbtree unit := m_modify (λ st, RBTree p (nodes st)).

Definition rb_change_child (old : positive) (new parent : ptr) : M rbtree unit :=
  match parent with
  | Some p =>
      rp ← node_get p;
      if decide (Some old = left rp)
      then node_upd p (set_left new)
      else node_upd p (set_right new)
  | None => set_root new
  end.

Definition rb_replace_node (old : positive) (new parent : ptr) : M rbtree unit :=
  rb_change_child old new parent;;
  m_if_some new (λ n, node_upd n (set_parent parent)).

Definition rb_rotate_left (node : positive) : M rbtree unit :=
  rn ← node_get node;
  right ← m_some (right rn);
  rr ← node_get right;
  node_upd node (set_right (left rr));;
  m_if_some (left rr) (λ c, node_upd c (set_parent (Some node)));;
  rn ← node_get node;
  rb_replace_node node (Some right) (parent rn);;
  node_upd right (set_left (Some node));;
  node_upd node (set_parent (Some right)).

Definition rb_rotate_right (node : positive) : M rbtree unit :=
  rn ← node_get node;
  left ← m_some (left rn);
  rl ← node_get left;
  node_upd node (set_left (right rl));;
  m_if_some (RBTree.right rl) (λ c, node_upd c (set_parent (Some node)));;
  rn ← node_get node;
  rb_replace_node node (Some left) (parent rn);;
  node_upd left (set_right (Some node));;
  node_upd node (set_parent (Some left)).

(** The place an [ogs_rbnode_t **] points to: the root or a child field. *)
Inductive rb_link := LinkRoot | LinkLeft (p : positive) | LinkRight (p : positive).

Definition ogs_rbtree_link_node (node : positive) (par : ptr) (rb_link : rb_link) :
    M rbtree unit :=
  node_upd node (λ _, RBNode par None None OGS_RBTREE_RED);;
  match rb_link with
  | LinkRoot => set_root (Some node)
  | LinkLeft p => node_upd p (set_left (Some node))
  | LinkRight p => node_upd p (set_right (Some node))
  end.

Definition color_red (c : rbcolor) : bool :=
  match c with OGS_RBTREE_RED => true | OGS_RBTREE_BLACK => false end.

(** [p && p->color == OGS_RBTREE_RED]. *)
Definition is_red (p : ptr) : M rbtree bool :=
  match p with
  | None => mret false
  | Some n => rn ← node_get n; mret (color_red (color rn))
  end.

(** The macro [rb_is_black]. *)
Definition rb_is_black (p : ptr) : M rbtree bool :=
  match p with
  | None => mret true
  | Some n => rn ← node_get n; mret (negb (color_red (color rn)))
  end.

Definition paint (c : rbcolor) (n : positive) : M rbtree unit := node_upd n (set_color c).

(** [n->parent], [n->left], [n->right]. *)
Definition get_parent (n : positive) : M rbtree ptr := rn ← node_get n; mret (parent rn).
Definition get_left (n : positive) : M rbtree ptr := rn ← node_get n; mret (left rn).
Definition get_right (n : positive) : M rbtree ptr := rn ← node_get n; mret (right rn).

(** The while loop of [ogs_rbtree_insert_color]. *)
Fixpoint insert_color_loop (fuel : nat) (node : positive) : M rbtree unit :=
  match fuel with
  | O => m_fail
  | S fuel =>
    par ← get_parent node;
    red ← is_red par;
    match par with
    | Some parent =>
      if red : bool then
        gparent ← get_parent parent;
        gparent ← m_some gparent;
        gleft ← get_left gparent;
        if decide (Some parent = gleft) then
          uncle ← get_right gparent;
          ured ← is_red uncle;
          if ured : bool then
            m_if_some uncle (paint OGS_RBTREE_BLACK);;
            paint OGS_RBTREE_BLACK parent;;
            paint OGS_RBTREE_RED gparent;;
            insert_color_loop fuel gparent
          else
            pright ← get_right parent;
            node ← (if decide (Some node = pright)
                    then rb_rotate_left parent;; mret parent
                    else mret node);
            np ← get_parent node;
            np ← m_some np;
            paint OGS_RBTREE_BLACK np;;
            paint OGS_RBTREE_RED gparent;;
            rb_rotate_right gparent;;
            insert_color_loop fuel node
        else
          uncle ← get_left gparent;
          ured ← is_red uncle;
          if ured : bool then
            m_if_some uncle (paint OGS_RBTREE_BLACK);;
            paint OGS_RBTREE_BLACK parent;;
            paint OGS_RBTREE_RED gparent;;
            insert_color_loop fuel gparent
          else
            pleft ← get_left parent;
            node ← (if decide (Some node = pleft)
                    then rb_rotate_right parent;; mret parent
                    else mret node);
            np ← get_parent node;
            np ← m_some np;
            paint OGS_RBTREE_BLACK np;;
            paint OGS_RBTREE_RED gparent;;
            rb_rotate_left gparent;;
            insert_color_loop fuel node
      else mret tt
    | None => mret tt
    end
  end.

(** Loop bound: two more than the number of nodes in memory.  A loop climbs or
    descends one level per turn, so this is never reached on a well-formed
    tree (theorems below). *)
Definition rb_fuel : M rbtree nat := m_gets (λ st, S (S (size (nodes st)))).

Definition ogs_rbtree_insert_color (node : positive) : M rbtree unit :=
  fuel ← rb_fuel;
  insert_color_loop fuel node;;
  root ← m_gets root;
  root ← m_some root;
  paint OGS_RBTREE_BLACK root.

(** Cases 2 to 4 of [rb_delete_color] for a left child, once the sibling is
    black; [continue] is the next turn of the loop, with the values of [node]
    and [parent] it starts from. *)
Definition delete_left_tail (continue : ptr → ptr → M rbtree ptr) (parent sibling : positive) :
    M rbtree ptr :=
  sl ← get_left sibling;
  slb ← rb_is_black sl;
  sr ← get_right sibling;
  srb ← rb_is_black sr;
  if (slb : bool) && (srb : bool) then
    paint OGS_RBTREE_RED sibling;;
    pp ← get_parent parent;
    continue (Some parent) pp
  else
    sibling ← (if srb : bool then
                 sl ← m_some sl;
                 paint OGS_RBTREE_BLACK sl;;
                 paint OGS_RBTREE_RED sibling;;
                 rb_rotate_right sibling;;
                 sib ← get_right parent; m_some sib
               else mret sibling);
    rp ← node_get parent;
    paint (color rp) sibling;;
    paint OGS_RBTREE_BLACK parent;;
    sr ← get_right sibling;
    sr ← m_some sr;
    paint OGS_RBTREE_BLACK sr;;
    rb_rotate_left parent;;
    rt ← m_gets root;
    continue rt (Some parent).

(** The same for a right child. *)
Definition delete_right_tail (continue : ptr → ptr → M rbtree ptr) (parent sibling : positive) :
    M rbtree ptr :=
  sl ← get_left sibling;
  slb ← rb_is_black sl;
  sr ← get_right sibling;
  srb ← rb_is_black sr;
  if (slb : bool) && (srb : bool) then
    paint OGS_RBTREE_RED sibling;;
    pp ← get_parent parent;
    continue (Some parent) pp
  else
    sibling ← (if slb : bool then
                 sr ← m_some sr;
                 paint OGS_RBTREE_BLACK sr;;
                 paint OGS_RBTREE_RED sibling;;
                 rb_rotate_left sibling;;
                 sib ← get_left parent; m_some sib
               else mret sibling);
    rp ← node_get parent;
    paint (color rp) sibling;;
    paint OGS_RBTREE_BLACK parent;;
    sl ← get_left sibling;
    sl ← m_some sl;
    paint OGS_RBTREE_BLACK sl;;
    rb_rotate_right parent;;
    rt ← m_gets root;
    continue rt (Some parent).

(** The while loop of [rb_delete_color]; yields the last value of [node]. *)
Fixpoint delete_color_loop (fuel : nat) (node par : ptr) : M rbtree ptr :=
  match fuel with
  | O => m_fail
  | S fuel =>
    rt ← m_gets root;
    black ← (if decide (node = rt) then mret false else rb_is_black node);
    if black : bool then
      parent ← m_some par;
      pleft ← get_left parent;
      if decide (node = pleft) then
        sib ← get_right parent;
        sibling ← m_some sib;
        sred ← is_red (Some sibling);
        sibling ← (if sred : bool then
                     paint OGS_RBTREE_BLACK sibling;;
                     paint OGS_RBTREE_RED parent;;
                     rb_rotate_left parent;;
                     sib ← get_right parent; m_some sib
                   else mret sibling);
        delete_left_tail (delete_color_loop fuel) parent sibling
      else
        sib ← get_left parent;
        sibling ← m_some sib;
        sred ← is_red (Some sibling);
        sibling ← (if sred : bool then
                     paint OGS_RBTREE_BLACK sibling;;
                     paint OGS_RBTREE_RED parent;;
                     rb_rotate_right parent;;
                     sib ← get_left parent; m_some sib
                   else mret sibling);
        delete_right_tail (delete_color_loop fuel) parent sibling
    else mret node
  end.

Definition rb_delete_color (node par : ptr) : M rbtree unit :=
  fuel ← rb_fuel;
  node ← delete_color_loop fuel node par;
  m_if_some node (paint OGS_RBTREE_BLACK).

Fixpoint min_loop (fuel : nat) (node : positive) : M rbtree positive :=
  match fuel with
  | O => m_fail
  | S fuel =>
    l ← get_left node;
    match l with Some l => min_loop fuel l | None => mret node end
  end.

Fixpoint max_loop (fuel : nat) (node : positive) : M rbtree positive :=
  match fuel with
  | O => m_fail
  | S fuel =>
    r ← get_right node;
    match r with Some r => max_loop fuel r | None => mret node end
  end.

Definition ogs_rbtree_min (rb_node : ptr) : M rbtree positive :=
  node ← m_some rb_node; fuel ← rb_fuel; min_loop fuel node.

Definition ogs_rbtree_max (rb_node : ptr) : M rbtree positive :=
  node ← m_some rb_node; fuel ← rb_fuel; max_loop fuel node.

(** First half of [ogs_rbtree_delete]: takes [node] out of the tree, and
    yields the variables [child], [parent] and [color] of the C function. *)
Definition rb_unlink (node : positive) : M rbtree (ptr * ptr * rbcolor) :=
  rn ← node_get node;
  match left rn, right rn with
  | None, _ =>
      rb_replace_node node (right rn) (parent rn);;
      mret (right rn, parent rn, color rn)
  | Some _, None =>
      rb_replace_node node (left rn) (parent rn);;
      mret (left rn, parent rn, color rn)
  | Some nleft, Some _ =>
      new ← ogs_rbtree_min (right rn);
      rnew ← node_get new;
      let child := right rnew in
      let par := parent rnew in
      node_upd new (set_left (left rn));;
      node_upd nleft (set_parent (Some new));;
      par ← (if decide (par = Some node) then mret (Some new)
             else
               m_if_some child (λ c, node_upd c (set_parent par));;
               p ← m_some par;
               node_upd p (set_left child);;
               rn ← node_get node;
               node_upd new (set_right (right rn));;
               nright ← m_some (right rn);
               node_upd nright (set_parent (Some new));;
               mret par);
      rn ← node_get node;
      node_upd new (set_color (color rn));;
      rb_replace_node node (Some new) (parent rn);;
      mret (child, par, color rnew)
  end.

Definition ogs_rbtree_delete (node : positive) : M rbtree unit :=
  '(child, par, col) ← rb_unlink node;
  if decide (col = OGS_RBTREE_BLACK) then rb_delete_color child par else mret tt.

Definition ogs_rbtree_first : M rbtree ptr :=
  node ← m_gets root;
  match node with
  | None => mret None
  | Some _ => m ← ogs_rbtree_min node; mret (Some m)
  end.

Definition ogs_rbtree_last : M rbtree ptr :=
  node ← m_gets root;
  match node with
  | None => mret None
  | Some _ => m ← ogs_rbtree_max node; mret (Some m)
  end.

Fixpoint next_loop (fuel : nat) (node : positive) : M rbtree ptr :=
  match fuel with
  | O => m_fail
  | S fuel =>
    par ← get_parent node;
    match par with
    | None => mret None
    | Some p =>
        pr ← get_right p;
        if decide (Some node = pr) then next_loop fuel p else mret (Some p)
    end
  end.

Fixpoint prev_loop (fuel : nat) (node : positive) : M rbtree ptr :=
  match fuel with
  | O => m_fail
  | S fuel =>
    par ← get_parent node;
    match par with
    | None => mret None
    | Some p =>
        pl ← get_left p;
        if decide (Some node = pl) then prev_loop fuel p else mret (Some p)
    end
  end.

Definition rb_empty_node (node : positive) : M rbtree bool :=
  par ← get_parent node; mret (bool_decide (par = Some node)).

Definition ogs_rbtree_next (node : positive) : M rbtree ptr :=
  empty ← rb_empty_node node;
  if empty : bool then mret None
  else
    r ← get_right node;
    match r with
    | Some _ => m ← ogs_rbtree_min r; mret (Some m)
    | None => fuel ← rb_fuel; next_loop fuel node
    end.

Definition ogs_rbtree_prev (node : positive) : M rbtree ptr :=
  empty ← rb_empty_node node;
  if empty : bool then mret None
  else
    l ← get_left node;
    match l with
    | Some _ => m ← ogs_rbtree_max l; mret (Some m)
    | None => fuel ← rb_fuel; prev_loop fuel node
    end.

(** [ogs_rbtree_for_each]: the nodes a loop visits, in order. *)
Fixpoint for_each_loop (fuel : nat) (node : ptr) : M rbtree (list positive) :=
  match fuel with
  | O => m_fail
  | S fuel =>
    match node with
    | None => mret []
    | Some n => next ← ogs_rbtree_next n; rest ← for_each_loop fuel next; mret (n :: rest)
    end
  end.

Definition ogs_rbtree_for_each : M rbtree (list positive) :=
  node ← ogs_rbtree_first; fuel ← rb_fuel; for_each_loop fuel node.

Definition ogs_rbtree_empty : M rbtree bool := m_gets (λ st, bool_decide (root st = None)).

Definition ogs_rbtree_count : M rbtree nat := l ← ogs_rbtree_for_each; mret (length l).
