(* ===== verification/RBZip.v ===== *)
(** * The node store of the red-black tree seen as a tree

    [tree] is the shape of a red-black tree with the names of its nodes,
    [ctx] the path from a subtree up to the root (a zipper).  [rep F st t]
    says that the pointers of the store [st] form the tree [t], and that the
    nodes outside of it hold what [F] says.  The primitive updates of
    RBTree.v are proved once here, as rewritings of that tree. *)
From S2P Require Import Prelude RBTree.

Abbreviation RED := OGS_RBTREE_RED.
Abbreviation BLACK := OGS_RBTREE_BLACK.

Inductive tree := E | T (l : tree) (n : positive) (c : rbcolor) (r : tree).

Inductive ctx :=
  | Top
  | CtxL (k : ctx) (n : positive) (c : rbcolor) (r : tree)
  | CtxR (l : tree) (n : positive) (c : rbcolor) (k : ctx).

Fixpoint plug (k : ctx) (t : tree) : tree :=
  match k with
  | Top => t
  | CtxL k n c r => plug k (T t n c r)
  | CtxR l n c k => plug k (T l n c t)
  end.

Definition root_ptr (t : tree) : ptr :=
  match t with E => None | T _ n _ _ => Some n end.

Definition parent_of (k : ctx) : ptr :=
  match k with Top => None | CtxL _ n _ _ => Some n | CtxR _ n _ _ => Some n end.

Fixpoint inorder (t : tree) : list positive :=
  match t with E => [] | T l n _ r => inorder l ++ n :: inorder r end.

Fixpoint before (k : ctx) : list positive :=
  match k with
  | Top => [] | CtxL k _ _ _ => before k | CtxR l n _ k => before k ++ inorder l ++ [n]
  end.

Fixpoint after (k : ctx) : list positive :=
  match k with
  | Top => [] | CtxL k n _ r => n :: inorder r ++ after k | CtxR _ _ _ k => after k
  end.

(** The cells of subtree [t] hanging below parent pointer [p]. *)
Fixpoint owns (h : gmap positive rbnode) (p : ptr) (t : tree) : Prop :=
  match t with
  | E => True
  | T l n c r =>
      h !! n = Some (RBNode p (root_ptr l) (root_ptr r) c) ∧
      owns h (Some n) l ∧ owns h (Some n) r
  end.

(** The cells of a context whose hole holds the pointer [q]. *)
Fixpoint owns_ctx (h : gmap positive rbnode) (q : ptr) (k : ctx) : Prop :=
  match k with
  | Top => True
  | CtxL k n c r =>
      h !! n = Some (RBNode (parent_of k) q (root_ptr r) c) ∧
      owns h (Some n) r ∧ owns_ctx h (Some n) k
  | CtxR l n c k =>
      h !! n = Some (RBNode (parent_of k) (root_ptr l) q c) ∧
      owns h (Some n) l ∧ owns_ctx h (Some n) k
  end.

Record rep (F : gmap positive rbnode) (st : rbtree) (t : tree) : Prop := {
  rep_root : root st = root_ptr t;
  rep_owns : owns (nodes st) None t;
  rep_nodup : NoDup (inorder t);
  rep_frame : ∀ n, n ∉ inorder t → nodes st !! n = F !! n }.

Lemma inorder_plug k t : inorder (plug k t) = before k ++ inorder t ++ after k.
Proof.
  revert t. induction k as [|k IH n c r|l n c k IH]; intros t; cbn.
  - by rewrite app_nil_r.
  - rewrite IH. cbn. by rewrite <- app_assoc.
  - rewrite IH. cbn. by rewrite <- !app_assoc.
Qed.

(** The root pointer of the tree when the hole of [k] holds [q]. *)
Fixpoint ctx_root (q : ptr) (k : ctx) : ptr :=
  match k with
  | Top => q | CtxL k n _ _ => ctx_root (Some n) k | CtxR _ n _ k => ctx_root (Some n) k
  end.

Lemma root_ptr_plug k t : root_ptr (plug k t) = ctx_root (root_ptr t) k.
Proof. revert t. induction k; intros; cbn; rewrite ?IHk; done. Qed.

Lemma owns_plug h k t :
  owns h None (plug k t) ↔ owns h (parent_of k) t ∧ owns_ctx h (root_ptr t) k.
Proof.
  revert t. induction k as [|k IH n c r|l n c k IH]; intros t; cbn.
  - tauto.
  - rewrite IH. cbn. tauto.
  - rewrite IH. cbn. tauto.
Qed.

Lemma owns_ext h h' p t :
  (∀ n, n ∈ inorder t → h' !! n = h !! n) → owns h p t → owns h' p t.
Proof.
  revert p. induction t as [|l IHl m c rr IHr]; intros p Hn; cbn in *; [done|].
  intros (? & ? & ?). rewrite Hn by names.
  split_and!; [done|apply IHl|apply IHr]; try done; intros; apply Hn; names.
Qed.

Lemma owns_ctx_ext h h' q k :
  (∀ n, n ∈ before k ++ after k → h' !! n = h !! n) → owns_ctx h q k → owns_ctx h' q k.
Proof.
  revert q. induction k as [|k IH m c t|t m c k IH]; intros q Hn; cbn in *; [done| |];
    intros (? & Ho & ?); rewrite Hn by names;
    (split_and!; [done|eapply owns_ext; [|exact Ho]|apply IH; [|done]];
     intros; apply Hn; names).
Qed.

Lemma owns_elem h p t n : owns h p t → n ∈ inorder t → is_Some (h !! n).
Proof.
  revert p. induction t as [|l IHl m c r IHr]; intros p; cbn; [names|].
  intros (Hm & Hl & Hr) Hn. apply elem_of_app in Hn as [Hn|Hn]; [eauto|].
  apply elem_of_cons in Hn as [->|Hn]; eauto.
Qed.

(** A well-formed tree is no larger than the store. *)
Lemma rep_size F st t : rep F st t → length (inorder t) ≤ size (nodes st).
Proof.
  intros H. rewrite <- size_dom, <- (size_list_to_set (C:=gset positive) (inorder t)) by apply H.
  apply subseteq_size. intros n Hn%elem_of_list_to_set.
  apply elem_of_dom. eapply owns_elem; [apply H|done].
Qed.


Lemma rep_view F st k t :
  rep F st (plug k t) →
  root st = ctx_root (root_ptr t) k ∧ owns (nodes st) (parent_of k) t ∧
  owns_ctx (nodes st) (root_ptr t) k ∧ NoDup (before k ++ inorder t ++ after k).
Proof.
  intros [Hr Ho Hd _]. rewrite root_ptr_plug in Hr. rewrite owns_plug in Ho.
  rewrite inorder_plug in Hd. naive_solver.
Qed.

(** To re-establish [rep] after updates inside the tree. *)
Lemma rep_update F st st' k t t' :
  rep F st (plug k t) → inorder t' = inorder t →
  root st' = ctx_root (root_ptr t') k →
  owns (nodes st') (parent_of k) t' → owns_ctx (nodes st') (root_ptr t') k →
  (∀ n, n ∉ before k ++ inorder t ++ after k → nodes st' !! n = nodes st !! n) →
  rep F st' (plug k t').
Proof.
  intros [_ _ Hd Hf] Hi Hr Ho Hc He. split.
  - by rewrite root_ptr_plug.
  - by rewrite owns_plug.
  - by rewrite inorder_plug, Hi, <- inorder_plug.
  - intros n Hn. rewrite inorder_plug, Hi in Hn. rewrite He by done.
    apply Hf. by rewrite inorder_plug.
Qed.

Lemma rep_lookup F st k l n c r :
  rep F st (plug k (T l n c r)) →
  nodes st !! n = Some (RBNode (parent_of k) (root_ptr l) (root_ptr r) c).
Proof. intros H%rep_view. cbn in H. naive_solver. Qed.

Lemma wp_node_get n r Q st : nodes st !! n = Some r → Q r st → wp (node_get n) Q st.
Proof. unfold wp, node_get. by intros ->. Qed.

Lemma wp_node_upd n f r Q st :
  nodes st !! n = Some r → Q tt (RBTree (root st) (<[n:=f r]> (nodes st))) →
  wp (node_upd n f) Q st.
Proof. unfold wp, node_upd. by intros ->. Qed.

Lemma wp_paint F st k l n c c' r (Q : unit → rbtree → Prop) :
  rep F st (plug k (T l n c r)) →
  (∀ st', rep F st' (plug k (T l n c' r)) → Q tt st') →
  wp (paint c' n) Q st.
Proof.
  intros Hrep HQ. eapply wp_node_upd; [by eapply rep_lookup|]. apply HQ.
  pose proof (rep_view _ _ _ _ Hrep) as (Hr & Ho & Hc & Hd). cbn in Ho.
  destruct Ho as (Hn & Hl & Hrr). names_in Hd.
  apply (rep_update F st) with (T l n c r); cbn; [done..| | |].
  - rewrite lookup_insert_eq.
    split_and!; [done|eapply owns_ext; [|done]; intros; apply lookup_insert_ne; names..].
  - eapply owns_ctx_ext; [|done]. intros. apply lookup_insert_ne. names.
  - intros. apply lookup_insert_ne. names.
Qed.

(** Redirecting the pointer in the hole of [k] from node [x] to [q]. *)
Lemma wp_change_child st k x q (Q : unit → rbtree → Prop) :
  root st = ctx_root (Some x) k → owns_ctx (nodes st) (Some x) k →
  NoDup (before k ++ x :: after k) →
  (∀ st', root st' = ctx_root q k → owns_ctx (nodes st') q k →
     (∀ n, n ∉ before k ++ after k → nodes st' !! n = nodes st !! n) → Q tt st') →
  wp (rb_change_child x q (parent_of k)) Q st.
Proof.
  intros Hr Hc Hd HQ. destruct k as [|k n c r|l n c k]; cbn in *.
  - apply HQ; cbn; naive_solver.
  - destruct Hc as (Hn & Ho & Hk). names_in Hd.
    unfold rb_change_child. apply wp_bind. eapply wp_node_get; [done|]. cbn.
    rewrite decide_True by done. eapply wp_node_upd; [done|]. apply HQ; cbn; [done| |].
    + rewrite lookup_insert_eq. split_and!; [done| |].
      * eapply owns_ext; [|done]. intros. apply lookup_insert_ne. names.
      * eapply owns_ctx_ext; [|done]. intros. apply lookup_insert_ne. names.
    + intros. apply lookup_insert_ne. names.
  - destruct Hc as (Hn & Ho & Hk). names_in Hd.
    unfold rb_change_child. apply wp_bind. eapply wp_node_get; [done|]. cbn.
    rewrite decide_False.
    2:{ intros Heq. destruct l; cbn in *; [done|]. simplify_eq. names. }
    eapply wp_node_upd; [done|]. apply HQ; cbn; [done| |].
    + rewrite lookup_insert_eq. split_and!; [done| |].
      * eapply owns_ext; [|done]. intros. apply lookup_insert_ne. names.
      * eapply owns_ctx_ext; [|done]. intros. apply lookup_insert_ne. names.
    + intros. apply lookup_insert_ne. names.
Qed.

(** Redirecting the parent pointer of the root of a subtree, if it has one. *)
Lemma wp_set_parent st t p p' (Q : unit → rbtree → Prop) :
  owns (nodes st) p t → NoDup (inorder t) →
  (∀ st', root st' = root st → owns (nodes st') p' t →
     (∀ n, n ∉ inorder t → nodes st' !! n = nodes st !! n) → Q tt st') →
  wp (m_if_some (root_ptr t) (λ n, node_upd n (set_parent p'))) Q st.
Proof.
  intros Ho Hd HQ. destruct t as [|l n c r]; cbn.
  - by apply HQ.
  - destruct Ho as (Hn & Hl & Hr). names_in Hd. eapply wp_node_upd; [done|].
    apply HQ; cbn; [done| |].
    + rewrite lookup_insert_eq.
      split_and!; [done|eapply owns_ext; [|done]; intros; apply lookup_insert_ne; names..].
    + intros. apply lookup_insert_ne. names.
Qed.

Lemma wp_set_parent_some st t x p p' (Q : unit → rbtree → Prop) :
  root_ptr t = Some x → owns (nodes st) p t → NoDup (inorder t) →
  (∀ st', root st' = root st → owns (nodes st') p' t →
     (∀ n, n ∉ inorder t → nodes st' !! n = nodes st !! n) → Q tt st') →
  wp (node_upd x (set_parent p')) Q st.
Proof.
  intros Hx Ho Hd HQ. pose proof (wp_set_parent st t p p' Q Ho Hd HQ) as H.
  by rewrite Hx in H.
Qed.

(** Replacing the subtree in the hole of [k], whose root is [x], by [t']. *)
Lemma wp_replace_node st k x t p (Q : unit → rbtree → Prop) :
  root st = ctx_root (Some x) k → owns_ctx (nodes st) (Some x) k →
  owns (nodes st) p t → NoDup (before k ++ x :: after k) →
  NoDup (before k ++ inorder t ++ after k) →
  (∀ st', root st' = ctx_root (root_ptr t) k → owns_ctx (nodes st') (root_ptr t) k →
     owns (nodes st') (parent_of k) t →
     (∀ n, n ∉ before k ++ inorder t ++ after k → nodes st' !! n = nodes st !! n) →
     Q tt st') →
  wp (rb_replace_node x (root_ptr t) (parent_of k)) Q st.
Proof.
  intros Hr Hc Ho Hd1 Hd2 HQ. unfold rb_replace_node. apply wp_bind.
  eapply wp_change_child; [done..|]. intros st1 Hr1 Hc1 He1. names_in Hd2.
  eapply wp_set_parent with (p := p); [|done|].
  { eapply owns_ext; [|done]. intros. apply He1. names. }
  intros st2 Hr2 Ho2 He2. apply HQ; [congruence| |done|].
  - eapply owns_ctx_ext; [|done]. intros. apply He2. names.
  - intros n Hn. rewrite He2 by names. apply He1. names.
Qed.

(** Goals left by a rotation: cells of untouched subtrees. *)
Ltac frame := eapply owns_ext; [|eassumption]; intros.

Lemma wp_rotate_left F st k a x cx b y cy c (Q : unit → rbtree → Prop) :
  rep F st (plug k (T a x cx (T b y cy c))) →
  (∀ st', rep F st' (plug k (T (T a x cx b) y cy c)) → Q tt st') →
  wp (rb_rotate_left x) Q st.
Proof.
  intros Hrep HQ. pose proof (rep_view _ _ _ _ Hrep) as (Hr & Ho & Hc & Hd).
  cbn in Ho, Hr, Hc. destruct Ho as (Hx & Ha & Hy & Hb & Hcc). 
  names_in Hd. unfold rb_rotate_left. wp_pure. eapply wp_node_get; [done|]. wp_pure.
  eapply wp_node_get; [done|]. wp_pure. eapply wp_node_upd; [done|]. wp_pure. cbn.
  set (st1 := RBTree _ _).
  assert (Hx1 : nodes st1 !! x = Some (RBNode (parent_of k) (root_ptr a) (root_ptr b) cx)).
  { apply lookup_insert_eq. }
  assert (He1 : ∀ n, n ≠ x → nodes st1 !! n = nodes st !! n).
  { intros. by apply lookup_insert_ne. }
  eapply (wp_set_parent st1 b (Some y)); [|done|].
  { frame. apply He1. names. }
  intros st2 Hr2 Hb2 He2. wp_pure.
  eapply wp_node_get; [by rewrite He2 by names|]. wp_pure. cbn.
  assert (Hy2 : nodes st2 !! y = Some (RBNode (Some x) (root_ptr b) (root_ptr c) cy)).
  { by rewrite He2, He1 by names. }
  unfold rb_replace_node. wp_pure. eapply (wp_change_child st2 k x).
  { by rewrite Hr2. }
  { eapply owns_ctx_ext; [|done]. intros. rewrite He2, He1 by names. done. }
  { nodup. }
  intros st3 Hr3 Hc3 He3. wp_pure. cbn.
  eapply wp_node_upd; [by rewrite He3 by names|]. wp_pure. cbn.
  eapply wp_node_upd; [cbn; rewrite lookup_insert_eq; done|]. wp_pure. cbn.
  eapply wp_node_upd; [cbn; rewrite !lookup_insert_ne by names; rewrite He3, He2 by names; done|].
  apply HQ.
  set (st4 := RBTree _ _).
  assert (He4 : ∀ n, n ≠ x → n ≠ y → nodes st4 !! n = nodes st3 !! n).
  { intros. cbn. by rewrite !lookup_insert_ne by names. }
  eapply (rep_update F st); [exact Hrep|cbn; by rewrite <- app_assoc|done| | |].
  - cbn. rewrite lookup_insert_ne, lookup_insert_eq by names.
    rewrite lookup_insert_eq. split_and!; [done|done| | |].
    + frame. rewrite He4, He3, He2, He1 by names. done.
    + frame. rewrite He4, He3 by names. done.
    + frame. rewrite He4, He3, He2, He1 by names. done.
  - eapply owns_ctx_ext; [|done]. intros. by rewrite He4 by names.
  - intros n Hn. cbn in Hn. names_in Hn. rewrite He4, He3, He2, He1 by names. done.
Qed.

Lemma wp_rotate_right F st k a x cx b y cy c (Q : unit → rbtree → Prop) :
  rep F st (plug k (T (T a x cx b) y cy c)) →
  (∀ st', rep F st' (plug k (T a x cx (T b y cy c))) → Q tt st') →
  wp (rb_rotate_right y) Q st.
Proof.
  intros Hrep HQ. pose proof (rep_view _ _ _ _ Hrep) as (Hr & Ho & Hc & Hd).
  cbn in Ho, Hr, Hc. destruct Ho as (Hy & (Hx & Ha & Hb) & Hcc).
  names_in Hd. unfold rb_rotate_right. wp_pure. eapply wp_node_get; [done|]. wp_pure.
  eapply wp_node_get; [done|]. wp_pure. eapply wp_node_upd; [done|]. wp_pure. cbn.
  set (st1 := RBTree _ _).
  assert (Hy1 : nodes st1 !! y = Some (RBNode (parent_of k) (root_ptr b) (root_ptr c) cy)).
  { apply lookup_insert_eq. }
  assert (He1 : ∀ n, n ≠ y → nodes st1 !! n = nodes st !! n).
  { intros. by apply lookup_insert_ne. }
  eapply (wp_set_parent st1 b (Some x)); [|done|].
  { frame. apply He1. names. }
  intros st2 Hr2 Hb2 He2. wp_pure.
  eapply wp_node_get; [by rewrite He2 by names|]. wp_pure. cbn.
  assert (Hx2 : nodes st2 !! x = Some (RBNode (Some y) (root_ptr a) (root_ptr b) cx)).
  { by rewrite He2, He1 by names. }
  unfold rb_replace_node. wp_pure. eapply (wp_change_child st2 k y).
  { by rewrite Hr2. }
  { eapply owns_ctx_ext; [|done]. intros. rewrite He2, He1 by names. done. }
  { nodup. }
  intros st3 Hr3 Hc3 He3. wp_pure. cbn.
  eapply wp_node_upd; [by rewrite He3 by names|]. wp_pure. cbn.
  eapply wp_node_upd; [cbn; rewrite lookup_insert_eq; done|]. wp_pure. cbn.
  eapply wp_node_upd; [cbn; rewrite !lookup_insert_ne by names; rewrite He3, He2 by names; done|].
  apply HQ.
  set (st4 := RBTree _ _).
  assert (He4 : ∀ n, n ≠ x → n ≠ y → nodes st4 !! n = nodes st3 !! n).
  { intros. cbn. by rewrite !lookup_insert_ne by names. }
  eapply (rep_update F st); [exact Hrep|cbn; by rewrite <- app_assoc|done| | |].
  - cbn. rewrite lookup_insert_ne, lookup_insert_eq by names.
    rewrite lookup_insert_eq. split_and!; [done| |done| |].
    + frame. rewrite He4, He3, He2, He1 by names. done.
    + frame. rewrite He4, He3 by names. done.
    + frame. rewrite He4, He3, He2, He1 by names. done.
  - eapply owns_ctx_ext; [|done]. intros. by rewrite He4 by names.
  - intros n Hn. cbn in Hn. names_in Hn. rewrite He4, He3, He2, He1 by names. done.
Qed.

(** ** Reads *)

Definition tcolor (t : tree) : rbcolor :=
  match t with E => OGS_RBTREE_BLACK | T _ _ c _ => c end.

Lemma wp_is_red st p t Q :
  owns (nodes st) p t → Q (color_red (tcolor t)) st →
  wp (is_red (root_ptr t)) Q st.
Proof.
  destruct t as [|l n c r]; cbn; [done|]. intros [Hn _] HQ. wp_pure.
  by eapply wp_node_get.
Qed.

Lemma wp_is_black st p t Q :
  owns (nodes st) p t → Q (negb (color_red (tcolor t))) st →
  wp (rb_is_black (root_ptr t)) Q st.
Proof.
  destruct t as [|l n c r]; cbn; [done|]. intros [Hn _] HQ. wp_pure.
  by eapply wp_node_get.
Qed.

Section reads.
Context (F : gmap positive rbnode) (st : rbtree) (k : ctx).
Context (l : tree) (n : positive) (c : rbcolor) (r : tree).
Context (Hrep : rep F st (plug k (T l n c r))).

Lemma wp_get_parent Q : Q (parent_of k) st → wp (get_parent n) Q st.
Proof. intros. unfold get_parent. wp_pure. eapply wp_node_get; [by eapply rep_lookup|done]. Qed.
Lemma wp_get_left Q : Q (root_ptr l) st → wp (get_left n) Q st.
Proof. intros. unfold get_left. wp_pure. eapply wp_node_get; [by eapply rep_lookup|done]. Qed.
Lemma wp_get_right Q : Q (root_ptr r) st → wp (get_right n) Q st.
Proof. intros. unfold get_right. wp_pure. eapply wp_node_get; [by eapply rep_lookup|done]. Qed.
Lemma wp_node_red Q :
  Q (color_red (c)) st → wp (is_red (Some n)) Q st.
Proof. intros. cbn. wp_pure. eapply wp_node_get; [by eapply rep_lookup|done]. Qed.
Lemma wp_tree_red Q :
  Q (color_red (tcolor r)) st → wp (is_red (root_ptr r)) Q st.
Proof. intros. eapply wp_is_red; [|done]. apply rep_view in Hrep. cbn in Hrep. naive_solver. Qed.
Lemma wp_tree_red_l Q :
  Q (color_red (tcolor l)) st → wp (is_red (root_ptr l)) Q st.
Proof. intros. eapply wp_is_red; [|done]. apply rep_view in Hrep. cbn in Hrep. naive_solver. Qed.
Lemma wp_tree_black Q :
  Q (negb (color_red (tcolor r))) st → wp (rb_is_black (root_ptr r)) Q st.
Proof. intros. eapply wp_is_black; [|done]. apply rep_view in Hrep. cbn in Hrep. naive_solver. Qed.
Lemma wp_tree_black_l Q :
  Q (negb (color_red (tcolor l))) st → wp (rb_is_black (root_ptr l)) Q st.
Proof. intros. eapply wp_is_black; [|done]. apply rep_view in Hrep. cbn in Hrep. naive_solver. Qed.

(** No node of a subtree is one of its siblings' nodes. *)
Lemma rep_siblings_ne : l ≠ E ∨ r ≠ E → root_ptr l ≠ root_ptr r.
Proof.
  pose proof (rep_view _ _ _ _ Hrep) as (_ & _ & _ & Hd). names_in Hd.
  destruct l as [|ll x cx lr], r as [|rl y cy rr]; cbn in *; try naive_solver.
  intros _ [= ->]. match goal with H : disj _ (_ ++ _) |- _ => names_in H end.
  names.
Qed.
End reads.

Lemma rep_ne F st k l n c r :
  rep F st (plug k (T l n c r)) → root_ptr l ≠ Some n ∧ root_ptr r ≠ Some n.
Proof.
  intros (_ & _ & _ & Hd)%rep_view. names_in Hd.
  split; intros He; [destruct l|destruct r]; cbn in *; simplify_eq; names.
Qed.

(** A child of [n] is not the root of the other subtree of [n]. *)
Lemma rep_other_ne_r F st k l n c r q :
  rep F st (plug k (T l n c r)) → root_ptr l = Some q → Some q ≠ root_ptr r.
Proof.
  intros Hrep Hq. destruct l as [|ll x cx lr]; [done|]. rewrite <- Hq.
  eapply rep_siblings_ne; [exact Hrep|]. by left.
Qed.

Lemma rep_other_ne_l F st k l n c r q :
  rep F st (plug k (T l n c r)) → root_ptr r = Some q → Some q ≠ root_ptr l.
Proof.
  intros Hrep Hq. destruct r as [|rl x cx rr]; [done|]. rewrite <- Hq.
  apply not_eq_sym. eapply rep_siblings_ne; [exact Hrep|]. by right.
Qed.

(** ** The red-black invariant *)

(** Every path of [t] to a leaf crosses [h] black nodes. *)
Fixpoint bal (h : nat) (t : tree) : Prop :=
  match t with
  | E => h = 0
  | T l _ OGS_RBTREE_BLACK r => ∃ h', h = S h' ∧ bal h' l ∧ bal h' r
  | T l _ OGS_RBTREE_RED r => bal h l ∧ bal h r
  end.

(** No red node has a red child. *)
Fixpoint redok (t : tree) : Prop :=
  match t with
  | E => True
  | T l _ c r =>
      (c = OGS_RBTREE_RED → tcolor l = OGS_RBTREE_BLACK ∧ tcolor r = OGS_RBTREE_BLACK) ∧
      redok l ∧ redok r
  end.

(** What the invariant of a whole tree says of a context whose hole has height
    [h] and a root of colour [c]. *)
Definition up (c : rbcolor) (h : nat) : nat :=
  match c with OGS_RBTREE_BLACK => S h | OGS_RBTREE_RED => h end.

Fixpoint cbal (h : nat) (k : ctx) : Prop :=
  match k with
  | Top => True
  | CtxL k _ c t | CtxR t _ c k => bal h t ∧ cbal (up c h) k
  end.

Fixpoint cred (c : rbcolor) (k : ctx) : Prop :=
  match k with
  | Top => True
  | CtxL k _ c' t | CtxR t _ c' k =>
      redok t ∧
      (c' = OGS_RBTREE_RED → c = OGS_RBTREE_BLACK ∧ tcolor t = OGS_RBTREE_BLACK) ∧
      cred c' k
  end.

Lemma bal_node h l n c r : bal h l → bal h r → bal (up c h) (T l n c r).
Proof. destruct c; cbn; eauto. Qed.

Lemma bal_node_inv h l n c r :
  bal h (T l n c r) → ∃ h', h = up c h' ∧ bal h' l ∧ bal h' r.
Proof. destruct c; cbn; naive_solver. Qed.

Lemma bal_plug k t : (∃ H, bal H (plug k t)) ↔ ∃ h, bal h t ∧ cbal h k.
Proof.
  revert t. induction k as [|k IH n c r|l n c k IH]; intros t; cbn.
  - naive_solver.
  - rewrite IH. split.
    + intros (h & (h' & -> & Hl & Hr)%bal_node_inv & Hk). eauto.
    + intros (h & Ht & Hr & Hk). eauto using bal_node.
  - rewrite IH. split.
    + intros (h & (h' & -> & Hl & Hr)%bal_node_inv & Hk). eauto.
    + intros (h & Ht & Hr & Hk). eauto using bal_node.
Qed.

Lemma redok_plug k t : redok (plug k t) ↔ redok t ∧ cred (tcolor t) k.
Proof.
  revert t. induction k as [|k IH n c r|l n c k IH]; intros t; cbn; [tauto| |];
    rewrite IH; cbn; tauto.
Qed.

(** A black root is accepted wherever some root is. *)
Lemma cred_black c k : cred c k → cred BLACK k.
Proof. destruct c; [done|]. destruct k; cbn; naive_solver. Qed.

Fixpoint depth (k : ctx) : nat :=
  match k with Top => 0 | CtxL k _ _ _ | CtxR _ _ _ k => S (depth k) end.

(** A red-black tree: equal black heights, no two reds in a row, black root. *)
Definition rb_ok (t : tree) : Prop :=
  (∃ h, bal h t) ∧ redok t ∧ tcolor t = OGS_RBTREE_BLACK.

Lemma depth_le k t : depth k + length (inorder t) ≤ length (inorder (plug k t)).
Proof.
  rewrite inorder_plug, !length_app.
  induction k as [|k IH n c r|l n c k IH]; cbn; rewrite ?length_app; cbn; lia.
Qed.

Lemma rep_depth F st k t : rep F st (plug k t) → depth k + length (inorder t) ≤ size (nodes st).
Proof. intros H%rep_size. pose proof (depth_le k t). lia. Qed.

(** The context's root is black: it is painted black after each insertion. *)
Fixpoint ctx_black (k : ctx) : Prop :=
  match k with
  | Top => True
  | CtxL Top _ c _ | CtxR _ _ c Top => c = BLACK
  | CtxL k _ _ _ | CtxR _ _ _ k => ctx_black k
  end.

(** Reads and paints at a given place of the tree. *)
Ltac rd lem K := eapply (lem _ _ K); [eassumption|]; cbn [color_red tcolor negb andb parent_of root_ptr m_if_some]; wp_pure.
Ltac pt K := eapply (wp_paint _ _ K); [eassumption|]; intros; wp_pure.

(** The order of the nodes does not depend on colours and rotations. *)
Ltac same_order Hi :=
  rewrite <- Hi, !inorder_plug; cbn; repeat (rewrite <- app_assoc; cbn); done.

Lemma ctx_black_up k n c t :
  (ctx_black (CtxL k n c t) → ctx_black k) ∧ (ctx_black (CtxR t n c k) → ctx_black k).
Proof. by destruct k. Qed.

Lemma tcolor_plug_black k t : tcolor (plug k t) = BLACK → ctx_black k.
Proof.
  revert t. induction k as [|k IH n c r|l n c k IH]; intros t; cbn; [done| |];
    intros H; pose proof (IH _ H); destruct k; done.
Qed.

(** The root of a tree with a non-empty path to its hole is on that path. *)
Lemma ctx_root_in q k : k ≠ Top → ∃ n, ctx_root q k = Some n ∧ n ∈ before k ++ after k.
Proof.
  destruct k as [|k n c r|l n c k]; [done| |]; intros _; cbn.
  - assert (H : ctx_root (Some n) k = Some n ∨ ∃ m, ctx_root (Some n) k = Some m ∧ m ∈ before k ++ after k).
    { generalize n. clear. induction k as [|k IH m c r|l m c k IH]; intros n; [by left| |];
        right; cbn; destruct (IH m) as [->|(m' & -> & Hm)]; eexists; split; try done; names. }
    destruct H as [->|(m & -> & Hm)]; eexists; split; try done; names.
  - assert (H : ctx_root (Some n) k = Some n ∨ ∃ m, ctx_root (Some n) k = Some m ∧ m ∈ before k ++ after k).
    { generalize n. clear. induction k as [|k IH m c r|l' m c k IH]; intros n; [by left| |];
        right; cbn; destruct (IH m) as [->|(m' & -> & Hm)]; eexists; split; try done; names. }
    destruct H as [->|(m & -> & Hm)]; eexists; split; try done; names.
Qed.

Lemma rep_not_root F st k t :
  rep F st (plug k t) → k ≠ Top → root_ptr t ≠ root st.
Proof.
  intros (Hr & _ & _ & Hd)%rep_view Hk. rewrite Hr.
  destruct (ctx_root_in (root_ptr t) k Hk) as (n & -> & Hn).
  destruct t as [|l m c r]; cbn; [done|]. intros [= ->]. names_in Hd. names.
Qed.

(** ** Paths inside a subtree *)

(** [comp k2 k]: the path [k2] inside a subtree that sits in the hole of [k]. *)
Fixpoint comp (k2 k : ctx) : ctx :=
  match k2 with
  | Top => k
  | CtxL k2 n c t => CtxL (comp k2 k) n c t
  | CtxR t n c k2 => CtxR t n c (comp k2 k)
  end.

Lemma plug_comp k2 k t : plug (comp k2 k) t = plug k (plug k2 t).
Proof. revert t. induction k2; cbn; intros; auto. Qed.

(** The path only goes left (right). *)
Fixpoint left_path (k : ctx) : Prop :=
  match k with Top => True | CtxL k _ _ _ => left_path k | CtxR _ _ _ _ => False end.
Fixpoint right_path (k : ctx) : Prop :=
  match k with Top => True | CtxR _ _ _ k => right_path k | CtxL _ _ _ _ => False end.

Lemma left_path_before k : left_path k → before k = [].
Proof. induction k; cbn; auto; tauto. Qed.
Lemma right_path_after k : right_path k → after k = [].
Proof. induction k; cbn; auto; tauto. Qed.

Lemma left_path_comp k2 n c r : left_path k2 → left_path (comp k2 (CtxL Top n c r)).
Proof. induction k2; cbn; auto. Qed.
Lemma right_path_comp k2 l n c : right_path k2 → right_path (comp k2 (CtxR l n c Top)).
Proof. induction k2; cbn; auto. Qed.

(** [min_loop] stops at the leftmost node of the subtree it starts from. *)
Lemma wp_min_loop F st fuel : ∀ k l n c r (Q : positive → rbtree → Prop),
  rep F st (plug k (T l n c r)) → length (inorder l) < fuel →
  (∀ k2 m cm mr, left_path k2 → T l n c r = plug k2 (T E m cm mr) → Q m st) →
  wp (min_loop fuel n) Q st.
Proof.
  induction fuel as [|fuel IH]; intros k l n c r Q Hrep Hf HQ; [lia|]. cbn [min_loop]. wp_pure.
  rd wp_get_left k. destruct l as [|ll x cx lr]; cbn [root_ptr]; wp_pure.
  - by apply (HQ Top n c r).
  - eapply (IH (CtxL k n c r)); [exact Hrep|cbn in Hf; rewrite length_app in Hf; cbn in Hf; lia|].
    intros k2 m cm mr Hp Heq. apply (HQ (comp k2 (CtxL Top n c r)) m cm mr).
    + by apply left_path_comp.
    + rewrite plug_comp. cbn. by rewrite <- Heq.
Qed.

Lemma wp_max_loop F st fuel : ∀ k l n c r (Q : positive → rbtree → Prop),
  rep F st (plug k (T l n c r)) → length (inorder r) < fuel →
  (∀ k2 m cm ml, right_path k2 → T l n c r = plug k2 (T ml m cm E) → Q m st) →
  wp (max_loop fuel n) Q st.
Proof.
  induction fuel as [|fuel IH]; intros k l n c r Q Hrep Hf HQ; [lia|]. cbn [max_loop]. wp_pure.
  rd wp_get_right k. destruct r as [|rl x cx rr]; cbn [root_ptr]; wp_pure.
  - by apply (HQ Top n c l).
  - eapply (IH (CtxR l n c k)); [exact Hrep|cbn in Hf; rewrite length_app in Hf; cbn in Hf; lia|].
    intros k2 m cm ml Hp Heq. apply (HQ (comp k2 (CtxR l n c Top)) m cm ml).
    + by apply right_path_comp.
    + rewrite plug_comp. cbn. by rewrite <- Heq.
Qed.

Lemma rep_fuel F st k t : rep F st (plug k t) → length (inorder t) < S (S (size (nodes st))).
Proof. intros H%rep_depth. lia. Qed.

Lemma wp_rb_fuel st Q : Q (S (S (size (nodes st)))) st → wp rb_fuel Q st.
Proof. done. Qed.

Lemma wp_min F st k l n c r (Q : positive → rbtree → Prop) :
  rep F st (plug k (T l n c r)) →
  (∀ k2 m cm mr, left_path k2 → T l n c r = plug k2 (T E m cm mr) → Q m st) →
  wp (ogs_rbtree_min (Some n)) Q st.
Proof.
  intros Hrep HQ. unfold ogs_rbtree_min. wp_pure. apply wp_rb_fuel.
  eapply wp_min_loop; [done| |done].
  apply rep_fuel in Hrep. cbn in Hrep. rewrite length_app in Hrep. lia.
Qed.

Lemma wp_max F st k l n c r (Q : positive → rbtree → Prop) :
  rep F st (plug k (T l n c r)) →
  (∀ k2 m cm ml, right_path k2 → T l n c r = plug k2 (T ml m cm E) → Q m st) →
  wp (ogs_rbtree_max (Some n)) Q st.
Proof.
  intros Hrep HQ. unfold ogs_rbtree_max. wp_pure. apply wp_rb_fuel.
  eapply wp_max_loop; [done| |done].
  apply rep_fuel in Hrep. cbn in Hrep. rewrite length_app in Hrep. cbn in Hrep. lia.
Qed.

(** The cells of a path inside a subtree that hangs below [p]. *)
Definition parent_in (p : ptr) (k : ctx) : ptr :=
  match k with Top => p | CtxL _ n _ _ | CtxR _ n _ _ => Some n end.

Fixpoint owns_seg (h : gmap positive rbnode) (p q : ptr) (k : ctx) : Prop :=
  match k with
  | Top => True
  | CtxL k n c r =>
      h !! n = Some (RBNode (parent_in p k) q (root_ptr r) c) ∧
      owns h (Some n) r ∧ owns_seg h p (Some n) k
  | CtxR l n c k =>
      h !! n = Some (RBNode (parent_in p k) (root_ptr l) q c) ∧
      owns h (Some n) l ∧ owns_seg h p (Some n) k
  end.

Lemma owns_seg_plug h p k t :
  owns h p (plug k t) ↔ owns h (parent_in p k) t ∧ owns_seg h p (root_ptr t) k.
Proof.
  revert t. induction k as [|k IH n c r|l n c k IH]; intros t; cbn; [tauto|..];
    rewrite IH; cbn; tauto.
Qed.

Lemma owns_seg_ext h h' p q k :
  (∀ n, n ∈ before k ++ after k → h' !! n = h !! n) → owns_seg h p q k → owns_seg h' p q k.
Proof.
  revert q. induction k as [|k IH m c t|t m c k IH]; intros q Hn; cbn in *; [done| |];
    intros (? & Ho & ?); rewrite Hn by names;
    (split_and!; [done|eapply owns_ext; [|exact Ho]|apply IH; [|done]];
     intros; apply Hn; names).
Qed.
