(* ===== verification/RBInsert.v ===== *)
(** * Insertion in the red-black tree

    [ogs_rbtree_link_node] and [ogs_rbtree_insert_color]: insertion at a leaf
    position keeps the order of the other nodes and the red-black invariant,
    and never dereferences NULL. *)
From S2P Require Import Prelude RBTree RBZip.

(** The link field that corresponds to the hole of [k]. *)
Definition link_of (k : ctx) : rb_link :=
  match k with
  | Top => LinkRoot | CtxL _ p _ _ => LinkLeft p | CtxR _ p _ _ => LinkRight p
  end.

Lemma wp_link F st k n old (Q : unit → rbtree → Prop) :
  rep F st (plug k E) → n ∉ inorder (plug k E) → nodes st !! n = Some old →
  (∀ st', rep F st' (plug k (T E n RED E)) → Q tt st') →
  wp (ogs_rbtree_link_node n (parent_of k) (link_of k)) Q st.
Proof.
  intros Hrep Hn Hold HQ. pose proof (rep_view _ _ _ _ Hrep) as (Hr & _ & Hc & Hd).
  pose proof (rep_frame _ _ _ Hrep) as Hf. rewrite inorder_plug in Hn.
  names_in Hd. cbn in Hn. names_in Hn.
  assert (Hd' : NoDup (before k ++ [n] ++ after k)) by nodup.
  unfold ogs_rbtree_link_node. wp_pure. eapply wp_node_upd; [done|]. wp_pure.
  set (h := <[n:=_]> (nodes st)).
  assert (He : ∀ m, m ≠ n → h !! m = nodes st !! m).
  { intros. by apply lookup_insert_ne. }
  assert (Hh : h !! n = Some (RBNode (parent_of k) None None RED)) by apply lookup_insert_eq.
  assert (Hfin : ∀ st', root st' = ctx_root (Some n) k →
            owns_ctx (nodes st') (Some n) k → nodes st' !! n = h !! n →
            (∀ m, m ∉ before k ++ [n] ++ after k → nodes st' !! m = nodes st !! m) → Q tt st').
  { intros st' Hr' Hc' Hn' Hm. apply HQ. split.
    - by rewrite root_ptr_plug.
    - rewrite owns_plug. cbn. by rewrite Hn'.
    - by rewrite inorder_plug.
    - intros m Hmi. rewrite inorder_plug in Hmi. rewrite Hm by done. apply Hf.
      rewrite inorder_plug. cbn in *. names. }
  clear HQ Hf Hrep. clearbody h. destruct k as [|k p c r|l p c k]; cbn in *.
  - apply Hfin; cbn; [done|done|done|]. intros. apply He. names.
  - names_in Hd'. destruct Hc as (Hp & Ho & Hk). eapply wp_node_upd; [cbn; by rewrite He by names|].
    apply Hfin; cbn; [done| | |].
    + rewrite lookup_insert_eq. split_and!; [done| |].
      * frame. rewrite lookup_insert_ne by names. apply He. names.
      * eapply owns_ctx_ext; [|done]. intros. rewrite lookup_insert_ne by names. apply He. names.
    + by rewrite lookup_insert_ne by names.
    + intros. rewrite lookup_insert_ne by names. apply He. names.
  - names_in Hd'. destruct Hc as (Hp & Ho & Hk). eapply wp_node_upd; [cbn; by rewrite He by names|].
    apply Hfin; cbn; [done| | |].
    + rewrite lookup_insert_eq. split_and!; [done| |].
      * frame. rewrite lookup_insert_ne by names. apply He. names.
      * eapply owns_ctx_ext; [|done]. intros. rewrite lookup_insert_ne by names. apply He. names.
    + by rewrite lookup_insert_ne by names.
    + intros. rewrite lookup_insert_ne by names. apply He. names.
Qed.

(** The loop stops at a node whose parent is missing or black. *)
Lemma insert_color_stop F st k l n c r fuel (Q : unit → rbtree → Prop) :
  rep F st (plug k (T l n c r)) →
  match k with Top => True | CtxL _ _ c' _ | CtxR _ _ c' _ => c' = BLACK end →
  Q tt st → wp (insert_color_loop (S fuel) n) Q st.
Proof.
  intros Hrep Hk HQ. cbn [insert_color_loop]. wp_pure.
  eapply wp_get_parent; [exact Hrep|]. wp_pure.
  destruct k as [|k p c' s|s p c' k]; cbn in *; subst.
  - by wp_pure.
  - wp_pure. eapply wp_node_get; [by eapply (rep_lookup F st k)|]. by wp_pure.
  - wp_pure. eapply wp_node_get; [by eapply (rep_lookup F st k)|]. by wp_pure.
Qed.

(** What the loop establishes: the same nodes in the same order, black
    heights restored and no two reds in a row (the root may be red). *)
Definition insert_post (F : gmap positive rbnode) (t0 : tree) (st : rbtree) : Prop :=
  ∃ t, rep F st t ∧ inorder t = inorder t0 ∧ (∃ h, bal h t) ∧ redok t ∧ t ≠ E.

Lemma insert_post_intro F st t0 k t h :
  rep F st (plug k t) → inorder (plug k t) = inorder t0 → bal h t → cbal h k →
  redok t → cred (tcolor t) k → t ≠ E → insert_post F t0 st.
Proof.
  intros Hrep Hi Hb Hcb Hro Hc Hne. exists (plug k t). split_and!; [done|done| | |].
  - apply bal_plug. eauto.
  - by apply redok_plug.
  - intros HE. apply (f_equal inorder) in HE. rewrite inorder_plug in HE.
    apply app_eq_nil in HE as [_ HE]. apply app_eq_nil in HE as [HE _].
    destruct t; [done|]. cbn in HE. by apply app_eq_nil in HE as [_ ?].
Qed.

Section loop.
Context (F : gmap positive rbnode) (t0 : tree).

(** The claim of the loop at a given fuel. *)
Definition loop_ok (fuel : nat) : Prop := ∀ st k l n r h,
  S (depth k) ≤ fuel →
  rep F st (plug k (T l n RED r)) → inorder (plug k (T l n RED r)) = inorder t0 →
  bal h (T l n RED r) → cbal h k → redok (T l n RED r) →
  cred BLACK k → ctx_black k →
  wp (insert_color_loop fuel n) (λ _ st', insert_post F t0 st') st.

Lemma case_left_left fuel st kk g u p s l n r h :
  (∀ fuel', fuel' ≤ fuel → loop_ok fuel') →
  S (depth kk) ≤ fuel →
  rep F st (plug (CtxL (CtxL kk g BLACK u) p RED s) (T l n RED r)) →
  inorder (plug (CtxL (CtxL kk g BLACK u) p RED s) (T l n RED r)) = inorder t0 →
  bal h (T l n RED r) → bal h s → bal h u → cbal (S h) kk →
  redok (T l n RED r) → redok s → redok u → tcolor s = BLACK →
  cred BLACK kk → ctx_black kk →
  wp (insert_color_loop (S fuel) n) (λ _ st', insert_post F t0 st') st.
Proof.
  intros IH Hf Hrep Hi Hb Hs Hu Hk Hr Hrs Hru Hcs Hc Hbl. cbn [insert_color_loop]. wp_pure.
  rd wp_get_parent (CtxL (CtxL kk g BLACK u) p RED s).
  rd wp_node_red (CtxL kk g BLACK u).
  rd wp_get_parent (CtxL kk g BLACK u).
  rd wp_get_left kk. rewrite decide_True by done. wp_pure.
  rd wp_get_right kk. rd wp_tree_red kk.
  destruct (tcolor u) eqn:Hcu; cbn; wp_pure.
  - rd wp_get_right (CtxL kk g BLACK u).
    rewrite decide_False by (eapply (rep_other_ne_r _ _ (CtxL kk g BLACK u)); [eassumption|done]).
    wp_pure. rd wp_get_parent (CtxL (CtxL kk g BLACK u) p RED s).
    pt (CtxL kk g BLACK u). pt kk.
    eapply (wp_rotate_right _ _ kk); [eassumption|]. intros st1 Hrep'.
    destruct fuel as [|fuel]; [lia|].
    eapply (insert_color_stop _ _ (CtxL kk p BLACK (T s g RED u))); [eassumption|done|].
    eapply insert_post_intro; [exact Hrep'| |eapply (bal_node h _ _ BLACK)|done| | |done].
    + same_order Hi.
    + done.
    + done.
    + cbn in *. naive_solver.
    + done.
  - destruct u as [|ul un [] ur]; cbn in Hcu; try discriminate.
    pt (CtxR (T (T l n RED r) p RED s) g BLACK kk).
    pt (CtxL kk g BLACK (T ul un BLACK ur)).
    pt kk.
    refine (IH fuel (le_n _) _ kk _ _ _ (S h) _ _ _ _ _ _ _ _); try done.
    + same_order Hi.
    + cbn in *. naive_solver.
    + cbn in *. naive_solver.
Qed.

Lemma case_left_right fuel st kk g u p s l n r h :
  (∀ fuel', fuel' ≤ fuel → loop_ok fuel') →
  S (depth kk) ≤ fuel →
  rep F st (plug (CtxR s p RED (CtxL kk g BLACK u)) (T l n RED r)) →
  inorder (plug (CtxR s p RED (CtxL kk g BLACK u)) (T l n RED r)) = inorder t0 →
  bal h (T l n RED r) → bal h s → bal h u → cbal (S h) kk →
  redok (T l n RED r) → redok s → redok u → tcolor s = BLACK →
  cred BLACK kk → ctx_black kk →
  wp (insert_color_loop (S fuel) n) (λ _ st', insert_post F t0 st') st.
Proof.
  intros IH Hf Hrep Hi Hb Hs Hu Hk Hr Hrs Hru Hcs Hc Hbl. cbn [insert_color_loop]. wp_pure.
  rd wp_get_parent (CtxR s p RED (CtxL kk g BLACK u)).
  rd wp_node_red (CtxL kk g BLACK u).
  rd wp_get_parent (CtxL kk g BLACK u).
  rd wp_get_left kk. rewrite decide_True by done. wp_pure.
  rd wp_get_right kk. rd wp_tree_red kk.
  destruct (tcolor u) eqn:Hcu; cbn; wp_pure.
  - rd wp_get_right (CtxL kk g BLACK u). rewrite decide_True by done. wp_pure.
    eapply (wp_rotate_left _ _ (CtxL kk g BLACK u)); [eassumption|]. intros st1 Hrep1. wp_pure.
    rd wp_get_parent (CtxL (CtxL kk g BLACK u) n RED r).
    pt (CtxL kk g BLACK u). pt kk.
    eapply (wp_rotate_right _ _ kk); [eassumption|]. intros st2 Hrep2.
    destruct fuel as [|fuel]; [lia|].
    eapply (insert_color_stop _ _ (CtxL kk n BLACK (T r g RED u))); [eassumption|done|].
    eapply insert_post_intro; [exact Hrep2| |eapply (bal_node h _ _ BLACK)|done| | |done].
    + same_order Hi.
    + cbn in *. naive_solver.
    + cbn in *. naive_solver.
    + cbn in *. naive_solver.
    + done.
  - destruct u as [|ul un [] ur]; cbn in Hcu; try discriminate.
    pt (CtxR (T s p RED (T l n RED r)) g BLACK kk).
    pt (CtxL kk g BLACK (T ul un BLACK ur)).
    pt kk.
    refine (IH fuel (le_n _) _ kk _ _ _ (S h) _ _ _ _ _ _ _ _); try done.
    + same_order Hi.
    + cbn in *. naive_solver.
    + cbn in *. naive_solver.
Qed.

Lemma case_right_left fuel st kk g u p s l n r h :
  (∀ fuel', fuel' ≤ fuel → loop_ok fuel') →
  S (depth kk) ≤ fuel →
  rep F st (plug (CtxL (CtxR u g BLACK kk) p RED s) (T l n RED r)) →
  inorder (plug (CtxL (CtxR u g BLACK kk) p RED s) (T l n RED r)) = inorder t0 →
  bal h (T l n RED r) → bal h s → bal h u → cbal (S h) kk →
  redok (T l n RED r) → redok s → redok u → tcolor s = BLACK →
  cred BLACK kk → ctx_black kk →
  wp (insert_color_loop (S fuel) n) (λ _ st', insert_post F t0 st') st.
Proof.
  intros IH Hf Hrep Hi Hb Hs Hu Hk Hr Hrs Hru Hcs Hc Hbl. cbn [insert_color_loop]. wp_pure.
  rd wp_get_parent (CtxL (CtxR u g BLACK kk) p RED s).
  rd wp_node_red (CtxR u g BLACK kk).
  rd wp_get_parent (CtxR u g BLACK kk).
  rd wp_get_left kk.
  rewrite decide_False by (eapply (rep_other_ne_l _ _ kk); [exact Hrep|done]). wp_pure.
  rd wp_get_left kk. rd wp_tree_red_l kk.
  destruct (tcolor u) eqn:Hcu; cbn; wp_pure.
  - rd wp_get_left (CtxR u g BLACK kk). rewrite decide_True by done. wp_pure.
    eapply (wp_rotate_right _ _ (CtxR u g BLACK kk)); [eassumption|]. intros st1 Hrep1. wp_pure.
    rd wp_get_parent (CtxR l n RED (CtxR u g BLACK kk)).
    pt (CtxR u g BLACK kk). pt kk.
    eapply (wp_rotate_left _ _ kk); [eassumption|]. intros st2 Hrep2.
    destruct fuel as [|fuel]; [lia|].
    eapply (insert_color_stop _ _ (CtxR (T u g RED l) n BLACK kk)); [eassumption|done|].
    eapply insert_post_intro; [exact Hrep2| |eapply (bal_node h _ _ BLACK)|done| | |done].
    + same_order Hi.
    + cbn in *. naive_solver.
    + cbn in *. naive_solver.
    + cbn in *. naive_solver.
    + done.
  - destruct u as [|ul un [] ur]; cbn in Hcu; try discriminate.
    pt (CtxL kk g BLACK (T (T l n RED r) p RED s)).
    pt (CtxR (T ul un BLACK ur) g BLACK kk).
    pt kk.
    refine (IH fuel (le_n _) _ kk _ _ _ (S h) _ _ _ _ _ _ _ _); try done.
    + same_order Hi.
    + cbn in *. naive_solver.
    + cbn in *. naive_solver.
Qed.

Lemma case_right_right fuel st kk g u p s l n r h :
  (∀ fuel', fuel' ≤ fuel → loop_ok fuel') →
  S (depth kk) ≤ fuel →
  rep F st (plug (CtxR s p RED (CtxR u g BLACK kk)) (T l n RED r)) →
  inorder (plug (CtxR s p RED (CtxR u g BLACK kk)) (T l n RED r)) = inorder t0 →
  bal h (T l n RED r) → bal h s → bal h u → cbal (S h) kk →
  redok (T l n RED r) → redok s → redok u → tcolor s = BLACK →
  cred BLACK kk → ctx_black kk →
  wp (insert_color_loop (S fuel) n) (λ _ st', insert_post F t0 st') st.
Proof.
  intros IH Hf Hrep Hi Hb Hs Hu Hk Hr Hrs Hru Hcs Hc Hbl. cbn [insert_color_loop]. wp_pure.
  rd wp_get_parent (CtxR s p RED (CtxR u g BLACK kk)).
  rd wp_node_red (CtxR u g BLACK kk).
  rd wp_get_parent (CtxR u g BLACK kk).
  rd wp_get_left kk.
  rewrite decide_False by (eapply (rep_other_ne_l _ _ kk); [exact Hrep|done]). wp_pure.
  rd wp_get_left kk. rd wp_tree_red_l kk.
  destruct (tcolor u) eqn:Hcu; cbn; wp_pure.
  - rd wp_get_left (CtxR u g BLACK kk).
    rewrite decide_False by (eapply (rep_other_ne_l _ _ (CtxR u g BLACK kk)); [eassumption|done]).
    wp_pure. rd wp_get_parent (CtxR s p RED (CtxR u g BLACK kk)).
    pt (CtxR u g BLACK kk). pt kk.
    eapply (wp_rotate_left _ _ kk); [eassumption|]. intros st1 Hrep1.
    destruct fuel as [|fuel]; [lia|].
    eapply (insert_color_stop _ _ (CtxR (T u g RED s) p BLACK kk)); [eassumption|done|].
    eapply insert_post_intro; [exact Hrep1| |eapply (bal_node h _ _ BLACK)|done| | |done].
    + same_order Hi.
    + done.
    + done.
    + cbn in *. naive_solver.
    + done.
  - destruct u as [|ul un [] ur]; cbn in Hcu; try discriminate.
    pt (CtxL kk g BLACK (T s p RED (T l n RED r))).
    pt (CtxR (T ul un BLACK ur) g BLACK kk).
    pt kk.
    refine (IH fuel (le_n _) _ kk _ _ _ (S h) _ _ _ _ _ _ _ _); try done.
    + same_order Hi.
    + cbn in *. naive_solver.
    + cbn in *. naive_solver.
Qed.

Lemma insert_color_loop_ok fuel : loop_ok fuel.
Proof.
  induction fuel as [fuel IH] using lt_wf_ind. intros st k l n r h Hf Hrep Hi Hb Hcb Hr Hc Hbl.
  destruct fuel as [|fuel]; [lia|].
  (* the cases where the loop stops *)
  assert (Hstop : match k with Top => True | CtxL _ _ c' _ | CtxR _ _ c' _ => c' = BLACK end →
    wp (insert_color_loop (S fuel) n) (λ _ st', insert_post F t0 st') st).
  { intros Hk. eapply insert_color_stop; [done|done|].
    eapply insert_post_intro; [done|done|done|done|done| |done].
    destruct k as [|k p c s|s p c k]; cbn in *; subst; naive_solver. }
  assert (IH' : ∀ fuel', fuel' ≤ fuel → loop_ok fuel') by (intros; apply IH; lia).
  destruct k as [|[|k g cg u|u g cg k] p c s|s p c [|k g cg u|u g cg k]];
    try (by apply Hstop); (destruct c; [by apply Hstop|]); clear Hstop;
    try (cbn in Hbl; discriminate Hbl); cbn in Hc, Hcb, Hf;
    destruct Hc as (Hrs & Hs & Hru & Hg & Hck); destruct Hcb as (Hbs & Hbu & Hbk);
    destruct (Hs eq_refl) as [_ Hcs];
    (destruct cg; [|by destruct (Hg eq_refl)]);
    (assert (Hbl' : ctx_black k) by (destruct k; done)).
  - eapply case_left_left with (kk := k); eauto; lia.
  - eapply case_right_left with (kk := k); eauto; lia.
  - eapply case_left_right with (kk := k); eauto; lia.
  - eapply case_right_right with (kk := k); eauto; lia.
Qed.
End loop.

Lemma rb_insert_ok st k n old :
  rep (nodes st) st (plug k E) → rb_ok (plug k E) → n ∉ inorder (plug k E) →
  nodes st !! n = Some old →
  wp (ogs_rbtree_link_node n (parent_of k) (link_of k);; ogs_rbtree_insert_color n)
    (λ _ st', ∃ t', rep (nodes st') st' t' ∧ inorder t' = before k ++ n :: after k ∧
       rb_ok t' ∧
       ∀ x, x ≠ n → x ∉ inorder (plug k E) → nodes st' !! x = nodes st !! x) st.
Proof.
  intros Hrep ((H & HH) & Hred & Hroot) Hn Hold.
  destruct (proj1 (bal_plug k E)) as (h & Hb & Hcb); [eauto|]. cbn in Hb. subst h.
  apply redok_plug in Hred as [_ Hc]. apply tcolor_plug_black in Hroot.
  wp_pure. eapply wp_link; [done..|]. intros st1 Hrep1.
  unfold ogs_rbtree_insert_color. wp_pure. apply wp_rb_fuel. wp_pure.
  eapply wp_mono.
  { apply (insert_color_loop_ok (nodes st) (plug k (T E n RED E)) _ st1 k E n E 0); try done.
    pose proof (rep_depth _ _ _ _ Hrep1). lia. }
  intros _ st2 (t & Hrep2 & Hord & (hb & Hbal) & Hr2 & Hne). cbn beta.
  pose proof (rep_root _ _ _ Hrep2) as Hrt. destruct t as [|l m c r]; [done|].
  wp_pure. rewrite Hrt. wp_pure. eapply (wp_paint _ _ Top); [exact Hrep2|]. intros st3 Hrep3. cbn in Hrep3.
  exists (T l m BLACK r). split_and!.
  - destruct Hrep3. by split.
  - rewrite inorder_plug in Hord. exact Hord.
  - split_and!; [|cbn in *; naive_solver|done].
    apply bal_node_inv in Hbal as (h' & -> & ? & ?). exists (S h'). by apply (bal_node h' _ _ BLACK).
  - intros x Hx Hx'. rewrite (rep_frame _ _ _ Hrep3); [done|]. change (inorder (T l m BLACK r)) with (inorder (T l m c r)).
    rewrite Hord. rewrite inorder_plug in Hx' |- *. cbn in *. names_in Hx'. names.
Qed.
