(* ===== verification/RBDelete.v ===== *)
(** * Deletion from the red-black tree

    [ogs_rbtree_delete] and its rebalancing loop [rb_delete_color]: the node
    is taken out, the order of the others and the red-black invariant are
    kept, and NULL is never dereferenced. *)
From S2P Require Import Prelude RBTree RBZip.

(** The invariant of a subtree whose root colour is not constrained. *)
Definition redok_below (t : tree) : Prop :=
  match t with E => True | T l _ _ r => redok l ∧ redok r end.

Lemma redok_below_black t : redok_below t → tcolor t = BLACK → redok t.
Proof. destruct t; cbn; [done|]. intros ? ->. naive_solver. Qed.

Lemma redok_below_weaken t : redok t → redok_below t.
Proof. destruct t; cbn; tauto. Qed.

(** State of the loop: the subtree [t] in the hole of [k] is one black node
    short. *)
Record short (F : gmap positive rbnode) (t0 : tree) (st : rbtree) (k : ctx) (t : tree)
    (h : nat) : Prop := {
  sh_rep : rep F st (plug k t);
  sh_order : inorder (plug k t) = inorder t0;
  sh_bal : bal h t;
  sh_ctx : cbal (S h) k;
  sh_red : redok_below t;
  sh_cred : cred BLACK k;
  sh_root : ctx_black k }.

(** End of the loop: painting the final node black repairs the tree. *)
Definition del_post (F : gmap positive rbnode) (t0 : tree) (q : ptr) (st : rbtree) : Prop :=
  ∃ k t h, q = root_ptr t ∧ rep F st (plug k t) ∧ inorder (plug k t) = inorder t0 ∧
    bal h t ∧ redok_below t ∧
    (k = Top ∨ (tcolor t = RED ∧ cbal (S h) k ∧ cred BLACK k ∧ ctx_black k)).

Section loop.
Context (F : gmap positive rbnode) (t0 : tree).

(** Turns the loop needs from a given state. *)
Definition turns (k : ctx) (t : tree) : nat :=
  match tcolor t with RED => 1 | BLACK => S (depth k) end.

Definition loop_ok (fuel : nat) : Prop := ∀ st k t h,
  turns k t ≤ fuel → short F t0 st k t h →
  wp (delete_color_loop fuel (root_ptr t) (parent_of k)) (del_post F t0) st.

(** After the last rotation the loop restarts at the root and stops. *)
Lemma delete_loop_root st k t h fuel par :
  rep F st (plug k t) → inorder (plug k t) = inorder t0 → bal h t → cbal h k →
  redok t → cred (tcolor t) k →
  wp (delete_color_loop (S fuel) (root st) par) (del_post F t0) st.
Proof.
  intros Hrep Hi Hb Hk Hr Hc. cbn [delete_color_loop]. wp_pure.
  rewrite decide_True by done. wp_pure.
  destruct (proj2 (bal_plug k t)) as [H HH]; [eauto|].
  exists Top, (plug k t), H. split_and!; [apply Hrep|done|done|done| |by left].
  apply redok_below_weaken, redok_plug. done.
Qed.

Lemma left_tail st kk p c sl m sr t h fuel :
  loop_ok fuel → turns kk (T E p c E) ≤ fuel →
  rep F st (plug (CtxL kk p c (T sl m BLACK sr)) t) →
  inorder (plug (CtxL kk p c (T sl m BLACK sr)) t) = inorder t0 →
  bal h t → redok t → bal h sl → bal h sr → redok sl → redok sr →
  tcolor t = BLACK → cbal (S (up c h)) kk → cred c kk → ctx_black kk →
  wp (delete_left_tail (delete_color_loop fuel) p m) (del_post F t0) st.
Proof.
  intros IH Hf Hrep Hi Hb Hr Hbl Hbr Hrl Hrr Ht Hk Hc Hbk. unfold delete_left_tail. wp_pure.
  rd wp_get_left (CtxR t p c kk). rd wp_tree_black_l (CtxR t p c kk).
  rd wp_get_right (CtxR t p c kk). rd wp_tree_black (CtxR t p c kk).
  destruct fuel as [|fuel]; [unfold turns in Hf; destruct (tcolor _); lia|].
  destruct (tcolor sr) eqn:Hsr; cbn [color_red negb andb].
  - destruct (tcolor sl) eqn:Hsl; cbn [color_red negb andb]; wp_pure.
    + (* case 2 *)
      pt (CtxR t p c kk). rd wp_get_parent kk.
      refine (IH _ kk (T t p c (T sl m RED sr)) (up c h) _ _); [by destruct c|].
      split; [done|same_order Hi|by apply bal_node|done|cbn; tauto|by eapply cred_black|done].
    + (* case 3, then 4 *)
      destruct sl as [|a x [] b]; cbn in Hsl; try discriminate. wp_pure.
      pt (CtxL (CtxR t p c kk) m BLACK sr). pt (CtxR t p c kk).
      eapply (wp_rotate_right _ _ (CtxR t p c kk)); [eassumption|]. intros st1 Hrep1. wp_pure.
      rd wp_get_right kk.
      eapply wp_node_get; [by eapply (rep_lookup _ _ kk)|]. wp_pure. cbn [color].
      pt (CtxR t p c kk). pt kk.
      rd wp_get_right (CtxR t p BLACK kk). pt (CtxR a x c (CtxR t p BLACK kk)).
      eapply (wp_rotate_left _ _ kk); [eassumption|]. intros st2 Hrep2. wp_pure.
      cbn in Hbl, Hrl. destruct_and? Hbl. destruct_and? Hrl.
      eapply (delete_loop_root _ kk _ (up c (S h))); [exact Hrep2|same_order Hi| | | |done].
      * apply bal_node; apply (bal_node h _ _ BLACK); done.
      * by destruct c.
      * cbn. naive_solver.
  - (* case 4 *)
    destruct sr as [|a x [] b]; cbn in Hsr; try discriminate.
    rewrite andb_false_r. wp_pure.
    eapply wp_node_get; [by eapply (rep_lookup _ _ kk)|]. wp_pure. cbn [color].
    pt (CtxR t p c kk). pt kk.
    rd wp_get_right (CtxR t p BLACK kk). pt (CtxR sl m c (CtxR t p BLACK kk)).
    eapply (wp_rotate_left _ _ kk); [eassumption|]. intros st2 Hrep2. wp_pure.
    cbn in Hbr, Hrr. destruct_and? Hbr. destruct_and? Hrr.
    eapply (delete_loop_root _ kk _ (up c (S h))); [exact Hrep2|same_order Hi| | | |done].
    * apply bal_node; apply (bal_node h _ _ BLACK); done.
    * by destruct c.
    * cbn. naive_solver.
Qed.

Lemma right_tail st kk p c sl m sr t h fuel :
  loop_ok fuel → turns kk (T E p c E) ≤ fuel →
  rep F st (plug (CtxR (T sl m BLACK sr) p c kk) t) →
  inorder (plug (CtxR (T sl m BLACK sr) p c kk) t) = inorder t0 →
  bal h t → redok t → bal h sl → bal h sr → redok sl → redok sr →
  tcolor t = BLACK → cbal (S (up c h)) kk → cred c kk → ctx_black kk →
  wp (delete_right_tail (delete_color_loop fuel) p m) (del_post F t0) st.
Proof.
  intros IH Hf Hrep Hi Hb Hr Hbl Hbr Hrl Hrr Ht Hk Hc Hbk. unfold delete_right_tail. wp_pure.
  rd wp_get_left (CtxL kk p c t). rd wp_tree_black_l (CtxL kk p c t).
  rd wp_get_right (CtxL kk p c t). rd wp_tree_black (CtxL kk p c t).
  destruct fuel as [|fuel]; [unfold turns in Hf; destruct (tcolor _); lia|].
  destruct (tcolor sl) eqn:Hsl; cbn [color_red negb andb].
  - destruct (tcolor sr) eqn:Hsr; cbn [color_red negb andb]; wp_pure.
    + (* case 2 *)
      pt (CtxL kk p c t). rd wp_get_parent kk.
      refine (IH _ kk (T (T sl m RED sr) p c t) (up c h) _ _); [by destruct c|].
      split; [done|same_order Hi|by apply bal_node|done|cbn; tauto|by eapply cred_black|done].
    + (* case 3, then 4 *)
      destruct sr as [|a x [] b]; cbn in Hsr; try discriminate. wp_pure.
      pt (CtxR sl m BLACK (CtxL kk p c t)). pt (CtxL kk p c t).
      eapply (wp_rotate_left _ _ (CtxL kk p c t)); [eassumption|]. intros st1 Hrep1. wp_pure.
      rd wp_get_left kk.
      eapply wp_node_get; [by eapply (rep_lookup _ _ kk)|]. wp_pure. cbn [color].
      pt (CtxL kk p c t). pt kk.
      rd wp_get_left (CtxL kk p BLACK t). pt (CtxL (CtxL kk p BLACK t) x c b).
      eapply (wp_rotate_right _ _ kk); [eassumption|]. intros st2 Hrep2. wp_pure.
      cbn in Hbr, Hrr. destruct_and? Hbr. destruct_and? Hrr.
      eapply (delete_loop_root _ kk _ (up c (S h))); [exact Hrep2|same_order Hi| | | |done].
      * apply bal_node; apply (bal_node h _ _ BLACK); done.
      * by destruct c.
      * cbn. naive_solver.
  - (* case 4 *)
    destruct sl as [|a x [] b]; cbn in Hsl; try discriminate. wp_pure.
    eapply wp_node_get; [by eapply (rep_lookup _ _ kk)|]. wp_pure. cbn [color].
    pt (CtxL kk p c t). pt kk.
    rd wp_get_left (CtxL kk p BLACK t). pt (CtxL (CtxL kk p BLACK t) m c sr).
    eapply (wp_rotate_right _ _ kk); [eassumption|]. intros st2 Hrep2. wp_pure.
    cbn in Hbl, Hrl. destruct_and? Hbl. destruct_and? Hrl.
    eapply (delete_loop_root _ kk _ (up c (S h))); [exact Hrep2|same_order Hi| | | |done].
    * apply bal_node; apply (bal_node h _ _ BLACK); done.
    * by destruct c.
    * cbn. naive_solver.
Qed.

(** A red sibling (case 1) is rotated above the parent first. *)
Lemma left_case st kk p c s t h fuel :
  loop_ok fuel → S (depth kk) ≤ fuel →
  rep F st (plug (CtxL kk p c s) t) → inorder (plug (CtxL kk p c s) t) = inorder t0 →
  bal h t → redok t → bal (S h) s → redok s →
  (c = RED → tcolor s = BLACK) →
  tcolor t = BLACK → cbal (S (up c h)) kk → cred c kk → ctx_black (CtxL kk p c s) →
  wp (sib ← get_right p;
      sibling ← m_some sib;
      sred ← is_red (Some sibling);
      sibling ← (if sred : bool then
                   paint OGS_RBTREE_BLACK sibling;;
                   paint OGS_RBTREE_RED p;;
                   rb_rotate_left p;;
                   sib ← get_right p; m_some sib
                 else mret sibling);
      delete_left_tail (delete_color_loop fuel) p sibling) (del_post F t0) st.
Proof.
  intros IH Hf Hrep Hi Hb Hr Hbs Hrs Hcs Ht Hk Hc Hbk. wp_pure. rd wp_get_right kk.
  destruct s as [|sl m cs sr]; [done|]. wp_pure. rd wp_node_red (CtxR t p c kk).
  destruct cs; cbn in Hbs, Hrs; destruct_and? Hrs; cbn [color_red]; wp_pure.
  - destruct Hbs as (h' & [= <-] & ? & ?).
    eapply (left_tail _ kk p c sl m sr t h); try done;
      [destruct c; cbn; lia|exact (proj1 (ctx_black_up _ _ _ _) Hbk)].
  - destruct Hbs as [Hsl Hsr]. destruct c; [|by specialize (Hcs eq_refl)].
    destruct (H eq_refl) as [Hcl Hcr]. destruct sl as [|sll m' cl slr]; [done|].
    cbn in Hcl. subst cl. destruct Hsl as (h' & [= <-] & ? & ?).
    pt (CtxR t p BLACK kk). pt kk.
    eapply (wp_rotate_left _ _ kk); [eassumption|]. intros st1 Hrep1. wp_pure.
    rd wp_get_right (CtxL kk m BLACK sr). cbn in *. destruct_and!.
    eapply (left_tail _ (CtxL kk m BLACK sr) p RED sll m' slr t h); try done.
    + cbn. lia.
    + same_order Hi.
Qed.

Lemma right_case st kk p c s t h fuel :
  loop_ok fuel → S (depth kk) ≤ fuel →
  rep F st (plug (CtxR s p c kk) t) → inorder (plug (CtxR s p c kk) t) = inorder t0 →
  bal h t → redok t → bal (S h) s → redok s →
  (c = RED → tcolor s = BLACK) →
  tcolor t = BLACK → cbal (S (up c h)) kk → cred c kk → ctx_black (CtxR s p c kk) →
  wp (sib ← get_left p;
      sibling ← m_some sib;
      sred ← is_red (Some sibling);
      sibling ← (if sred : bool then
                   paint OGS_RBTREE_BLACK sibling;;
                   paint OGS_RBTREE_RED p;;
                   rb_rotate_right p;;
                   sib ← get_left p; m_some sib
                 else mret sibling);
      delete_right_tail (delete_color_loop fuel) p sibling) (del_post F t0) st.
Proof.
  intros IH Hf Hrep Hi Hb Hr Hbs Hrs Hcs Ht Hk Hc Hbk. wp_pure. rd wp_get_left kk.
  destruct s as [|sl m cs sr]; [done|]. wp_pure. rd wp_node_red (CtxL kk p c t).
  destruct cs; cbn in Hbs, Hrs; destruct_and? Hrs; cbn [color_red]; wp_pure.
  - destruct Hbs as (h' & [= <-] & ? & ?).
    eapply (right_tail _ kk p c sl m sr t h); try done;
      [destruct c; cbn; lia|exact (proj2 (ctx_black_up _ _ _ _) Hbk)].
  - destruct Hbs as [Hsl Hsr]. destruct c; [|by specialize (Hcs eq_refl)].
    destruct (H eq_refl) as [Hcl Hcr]. destruct sr as [|srl m' cr srr]; [done|].
    cbn in Hcr. subst cr. destruct Hsr as (h' & [= <-] & ? & ?).
    pt (CtxL kk p BLACK t). pt kk.
    eapply (wp_rotate_right _ _ kk); [eassumption|]. intros st1 Hrep1. wp_pure.
    rd wp_get_left (CtxR sl m BLACK kk). cbn in *. destruct_and!.
    eapply (right_tail _ (CtxR sl m BLACK kk) p RED srl m' srr t h); try done.
    + cbn. lia.
    + same_order Hi.
Qed.

Lemma delete_color_loop_ok fuel : loop_ok fuel.
Proof.
  induction fuel as [|fuel IH]; intros st k t h Hf Hs.
  { unfold turns in Hf. destruct (tcolor t); lia. }
  destruct Hs as [Hrep Hi Hb Hk Hr Hc Hbk]. cbn [delete_color_loop]. wp_pure.
  destruct (rep_view _ _ _ _ Hrep) as (_ & Ho & _ & _).
  assert (k = Top ∨ k ≠ Top) as [->|HkT] by (destruct k; auto).
  { rewrite decide_True by (symmetry; apply Hrep). wp_pure.
    exists Top, t, h. split_and!; auto. }
  rewrite decide_False by (eapply rep_not_root; done).
  eapply wp_is_black; [exact Ho|]. destruct (tcolor t) eqn:Ht; cbn [color_red negb]; wp_pure.
  - unfold turns in Hf. rewrite Ht in Hf. apply redok_below_black in Hr; [|done].
    destruct k as [|kk p c s|s p c kk]; [done|..]; cbn in Hf, Hk, Hc; destruct_and! Hk;
      destruct_and! Hc; cbn [parent_of]; wp_pure; rd wp_get_left kk.
    + rewrite decide_True by done. eapply left_case; try done; [lia|naive_solver|by destruct c].
    + rewrite decide_False.
      2:{ apply not_eq_sym. eapply (rep_siblings_ne _ _ kk); [exact Hrep|left].
          by destruct s. }
      eapply right_case; try done; [lia|naive_solver|by destruct c].
  - exists k, t, h. split_and!; try done. right. split_and!; try done.
Qed.
End loop.

(** ** Taking the node out *)

(** The tree [plug k t], with the other cells unchanged since [st0]. *)
Definition unlinked (st0 : rbtree) (old : list positive) (n : positive) (k : ctx) (t : tree)
    (st : rbtree) : Prop :=
  rep (nodes st) st (plug k t) ∧ is_Some (nodes st !! n) ∧
  (∀ x, x ∉ old → nodes st !! x = nodes st0 !! x).

(** The replacement of node [n] in the hole of [k] by the subtree [t]. *)
Lemma wp_unlink_replace st0 st k n t p old (Q : unit → rbtree → Prop) :
  root st = ctx_root (Some n) k → owns_ctx (nodes st) (Some n) k → owns (nodes st) p t →
  NoDup (before k ++ n :: after k) → NoDup (before k ++ inorder t ++ after k) →
  n ∉ inorder t → is_Some (nodes st !! n) →
  (∀ x, x ∈ before k ++ inorder t ++ after k → x ∈ old) →
  (∀ x, x ∉ old → nodes st !! x = nodes st0 !! x) →
  (∀ st', unlinked st0 old n k t st' → Q tt st') →
  wp (rb_replace_node n (root_ptr t) (parent_of k)) Q st.
Proof.
  intros Hr Hc Ho Hd1 Hd2 Hn Hs Hold He HQ. eapply wp_replace_node; [done..|].
  intros st' Hr' Hc' Ho' He'. apply HQ. split_and!.
  - split; [by rewrite root_ptr_plug|by rewrite owns_plug|by rewrite inorder_plug|done].
  - rewrite He'; [done|]. names_in Hd1. names.
  - intros x Hx. rewrite He', He; [done|done|]. intros Hx'. by apply Hx, Hold.
Qed.

Lemma wp_unlink_one st k l n c r (Q : ptr * ptr * rbcolor → rbtree → Prop) :
  l = E ∨ r = E →
  rep (nodes st) st (plug k (T l n c r)) →
  (∀ t st', (l = E ∧ t = r ∨ r = E ∧ t = l) →
     unlinked st (inorder (plug k (T l n c r))) n k t st' →
     Q (root_ptr t, parent_of k, c) st') →
  wp (rb_unlink n) Q st.
Proof.
  intros Hlr Hrep HQ. pose proof (rep_view _ _ _ _ Hrep) as (Hr & (Hn & Hl & Hrr) & Hc & Hd).
  names_in Hd. unfold rb_unlink. wp_pure. eapply wp_node_get; [done|].
  destruct l as [|ll x cx lr] eqn:Hleq; cbn [left right root_ptr].
  - wp_pure. eapply wp_unlink_replace with (old := inorder (plug k (T E n c r)));
      try done; try (by nodup);
      [rewrite inorder_plug; cbn; intros; names|].
    intros st' Hu. wp_pure. apply HQ; [by left|done].
  - destruct Hlr as [?|Hre]; [done|subst r]. cbn [root_ptr].
    rewrite <- Hleq in *. replace (Some x) with (root_ptr l) by (by rewrite Hleq). wp_pure.
    eapply wp_unlink_replace with (old := inorder (plug k (T l n c E)));
      try done; try (by nodup);
      [rewrite inorder_plug; cbn; intros; names|].
    intros st' Hu. wp_pure. apply HQ; [by right|done].
Qed.

Lemma ctx_root_some m k : ∃ r, ctx_root (Some m) k = Some r.
Proof. revert m. induction k; cbn; eauto. Qed.

(** The end of the two-children case: the successor [m] already has its new
    subtrees [l] and [R], and takes the place of [n]. *)
Lemma unlink_two_end {A} st st2 k l n c m cm R pq old (v : A) (Q : A → rbtree → Prop) :
  root st = ctx_root (Some n) k → owns_ctx (nodes st) (Some n) k →
  nodes st !! n = Some (RBNode (parent_of k) (root_ptr l) (Some m) c) ∨
    (∃ q, nodes st !! n = Some (RBNode (parent_of k) (root_ptr l) q c)) →
  NoDup (before k ++ (inorder l ++ n :: m :: inorder R) ++ after k) →
  (∀ x, x ∈ before k ++ (inorder l ++ n :: m :: inorder R) ++ after k ↔ x ∈ old) →
  root st2 = root st → owns (nodes st2) (Some m) l → owns (nodes st2) (Some m) R →
  nodes st2 !! m = Some (RBNode pq (root_ptr l) (root_ptr R) cm) →
  (∀ x, x ≠ m → x ∉ inorder l → x ∉ inorder R → nodes st2 !! x = nodes st !! x) →
  (∀ st', unlinked st old n k (T l m c R) st' → Q v st') →
  wp (rn ← node_get n;
      node_upd m (set_color (color rn));;
      rb_replace_node n (Some m) (parent rn);;
      mret v) Q st2.
Proof.
  intros Hr Hc Hn Hd Hold Hr2 Hl2 HR2 Hm2 He2 HQ. names_in Hd. wp_pure.
  assert (Hn2 : ∃ q, nodes st2 !! n = Some (RBNode (parent_of k) (root_ptr l) q c)).
  { rewrite He2 by names. destruct Hn as [?|?]; eauto. }
  destruct Hn2 as [rq Hn2]. eapply wp_node_get; [done|]. wp_pure.
  eapply wp_node_upd; [done|]. wp_pure. cbn [color parent]. set (st3 := RBTree _ _).
  assert (He3 : ∀ x, x ≠ m → nodes st3 !! x = nodes st2 !! x).
  { intros. cbn. by rewrite lookup_insert_ne by names. }
  change (Some m) with (root_ptr (T l m c R)) at 1.
  eapply (wp_unlink_replace st st3 k n _ pq old); try (by nodup);
    [..|intros; wp_pure; by apply HQ].
  - eapply owns_ctx_ext; [|exact Hc]. intros. by rewrite He3, He2 by names.
  - cbn. rewrite lookup_insert_eq. split_and!; [done|frame; by rewrite He3 by names..].
  - rewrite He3 by names. by eexists.
  - intros x Hx. apply Hold. cbn in Hx. names.
  - intros x Hx. rewrite <- Hold in Hx. names_in Hx. by rewrite He3, He2 by names.
Qed.

(** The successor of [n] is deeper: it is first taken out of its place. *)
Lemma unlink_two_far st st2 k l n c m cm mr k3 q cq tq (Q : ptr * ptr * rbcolor → rbtree → Prop) :
  let k2 := CtxL k3 q cq tq in
  let old := inorder (plug k (T l n c (plug k2 (T E m cm mr)))) in
  rep (nodes st) st (plug k (T l n c (plug k2 (T E m cm mr)))) →
  root st2 = root st → owns (nodes st2) (Some m) l →
  nodes st2 !! m = Some (RBNode (Some q) (root_ptr l) (root_ptr mr) cm) →
  (∀ x, x ≠ m → x ∉ inorder l → nodes st2 !! x = nodes st !! x) →
  (∀ st', unlinked st old n k (T l m c (plug k2 mr)) st' → Q (root_ptr mr, Some q, cm) st') →
  wp (par ← (m_if_some (root_ptr mr) (λ c, node_upd c (set_parent (Some q)));;
             p ← m_some (Some q);
             node_upd p (set_left (root_ptr mr));;
             rn ← node_get n;
             node_upd m (set_right (right rn));;
             nright ← m_some (right rn);
             node_upd nright (set_parent (Some m));;
             mret (Some q));
      rn ← node_get n;
      node_upd m (set_color (color rn));;
      rb_replace_node n (Some m) (parent rn);;
      mret (root_ptr mr, par, cm)) Q st2.
Proof.
  intros k2 old Hrep Hr2 Hl2 Hm2 He2 HQ.
  pose proof (rep_view _ _ _ _ Hrep) as (Hr & (Hn & _ & Hor) & Hc & Hd).
  rewrite owns_seg_plug in Hor. destruct Hor as ((_ & _ & Hmr) & Hq & Htq & Hk3).
  cbn in Hd. unfold k2 in Hd. rewrite inorder_plug in Hd. names_in Hd.
  destruct (ctx_root_some q k3) as [r0 Hr0].
  assert (HR : ∀ t, root_ptr (plug k2 t) = Some r0) by (intros; by rewrite root_ptr_plug).
  wp_pure. eapply (wp_set_parent st2 mr (Some m)); [|done|].
  { frame. by rewrite He2 by names. }
  intros st3 Hr3 Hmr3 He3. wp_pure.
  eapply wp_node_upd; [by rewrite He3, He2 by names|]. wp_pure. cbn [set_left parent right color].
  set (st4 := RBTree _ _).
  assert (He4 : ∀ x, x ≠ q → nodes st4 !! x = nodes st3 !! x).
  { intros. cbn. by rewrite lookup_insert_ne by names. }
  eapply wp_node_get; [by rewrite He4, He3, He2 by names|]. wp_pure. cbn [right].
  eapply wp_node_upd; [by rewrite He4, He3 by names|]. wp_pure.
  cbn [set_right parent left color]. set (st5 := RBTree _ _).
  assert (He5 : ∀ x, x ≠ m → nodes st5 !! x = nodes st4 !! x).
  { intros. cbn. by rewrite lookup_insert_ne by names. }
  rewrite HR. wp_pure.
  (* the right subtree, without its leftmost node, now hangs below [m] *)
  assert (Hin : ∀ x, x ∈ inorder (plug k2 mr) ↔ x ∈ before k3 ++ inorder mr ++ q :: inorder tq ++ after k3).
  { intros x. by rewrite inorder_plug. }
  assert (Hd' : NoDup (before k ++ (inorder l ++ n :: m :: inorder (plug k2 mr)) ++ after k)).
  { rewrite inorder_plug. unfold k2. nodup. }
  assert (Hdr : NoDup (inorder (plug k2 mr))) by (names_in Hd'; done).
  eapply (wp_set_parent_some st5 (plug k2 mr) r0 (Some n)); [done| |done|].
  { rewrite owns_seg_plug. unfold k2. cbn. split.
    - frame. by rewrite He5, He4 by names.
    - rewrite lookup_insert_ne, lookup_insert_eq by names. split_and!; [done| |].
      + frame. by rewrite He5, He4, He3, He2 by names.
      + eapply owns_seg_ext; [|exact Hk3]. intros. by rewrite He5, He4, He3, He2 by names. }
  intros st6 Hr6 Hor6 He6. wp_step.
  eapply (unlink_two_end st st6 k l n c m cm (plug k2 mr) (Some q) old); try done.
  - right. by eexists.
  - intros x. unfold old. rewrite !inorder_plug. cbn. rewrite ?inorder_plug. cbn.
    split; intros; names.
  - rewrite Hr6. cbn. by rewrite Hr3, Hr2.
  - eapply owns_ext; [|exact Hl2]. intros x Hx.
    assert (x ∉ inorder (plug k2 mr)) by (names_in Hd'; names).
    by rewrite He6, He5, He4, He3 by names.
  - rewrite He6 by (names_in Hd'; names). rewrite HR, <- (HR (T E m cm mr)).
    apply lookup_insert_eq.
  - intros x ? ? Hx. pose proof Hx as Hx'. rewrite Hin in Hx'. names_in Hx'.
    by rewrite He6, He5, He4, He3, He2 by names.
Qed.

Lemma wp_unlink_two st k l n c m cm mr k2 (Q : ptr * ptr * rbcolor → rbtree → Prop) :
  l ≠ E → left_path k2 →
  rep (nodes st) st (plug k (T l n c (plug k2 (T E m cm mr)))) →
  wp (ogs_rbtree_min (root_ptr (plug k2 (T E m cm mr)))) (λ m' st', m' = m ∧ st' = st) st →
  (∀ st', unlinked st (inorder (plug k (T l n c (plug k2 (T E m cm mr))))) n
            k (T l m c (plug k2 mr)) st' →
     Q (root_ptr mr, parent_in (Some m) k2, cm) st') →
  wp (rb_unlink n) Q st.
Proof.
  intros Hl Hp Hrep Hmin HQ.
  pose proof (rep_view _ _ _ _ Hrep) as (Hr & (Hn & Hol & Hor) & Hc & Hd).
  pose proof Hd as Hd'. cbn in Hd'. rewrite inorder_plug in Hd'. names_in Hd'.
  rewrite owns_seg_plug in Hor. destruct Hor as ((Hm & _ & Hmr) & Hseg).
  unfold rb_unlink. apply wp_bind. eapply wp_node_get; [done|].
  assert (∃ x, root_ptr l = Some x) as [x Hx] by (destruct l; [done|]; by eexists).
  destruct (ctx_root_some m k2) as [r0 Hr0].
  assert (HR : root_ptr (plug k2 (T E m cm mr)) = Some r0) by (by rewrite root_ptr_plug).
  cbn [left right]. rewrite HR in Hmin |- *. rewrite Hx.
  wp_step. eapply wp_mono; [exact Hmin|]. intros m' st' [-> ->]. wp_pure.
  eapply wp_node_get; [done|]. wp_step. eapply wp_node_upd; [done|]. wp_step.
  cbn [set_left parent left right color]. set (st1 := RBTree _ _).
  assert (He1 : ∀ y, y ≠ m → nodes st1 !! y = nodes st !! y).
  { intros. cbn. by rewrite lookup_insert_ne by names. }
  eapply (wp_set_parent_some st1 l x (Some n)); [done| |done|].
  { frame. by rewrite He1 by names. }
  intros st2 Hr2 Hl2 He2.
  assert (Hm2 : nodes st2 !! m = Some (RBNode (parent_in (Some n) k2) (root_ptr l) (root_ptr mr) cm)).
  { rewrite He2, Hx by names. apply lookup_insert_eq. }
  assert (He : ∀ y, y ≠ m → y ∉ inorder l → nodes st2 !! y = nodes st !! y).
  { intros. by rewrite He2, He1 by names. }
  destruct k2 as [|k3 q cq tq|]; [| |done]; cbn [parent_in] in *.
  - rewrite decide_True by done. wp_step. wp_step.
    eapply (unlink_two_end st st2 k l n c m cm mr (Some n)
      (inorder (plug k (T l n c (T E m cm mr))))); [done|done|by left|done| |done|done| |done| |].
    + intros. by rewrite inorder_plug.
    + frame. by rewrite He by names.
    + intros. apply He; names.
    + intros. by apply HQ.
  - rewrite decide_False by (intros [= ->]; cbn in *; names).
    eapply unlink_two_far; try done. 
Qed.

(** What taking a node of colour [col] out of a red-black tree leaves: the
    subtree [t] in the hole of [k] is one black node short when [col] is
    black, and the tree is a red-black tree otherwise. *)
Record one_out (st0 : rbtree) (t0 : tree) (n : positive) (order : list positive)
    (col : rbcolor) (k : ctx) (t : tree) (st : rbtree) : Prop := {
  oo_unlinked : unlinked st0 (inorder t0) n k t st;
  oo_order : inorder (plug k t) = order;
  oo_bal : ∃ h, bal h t ∧ cbal (up col h) k;
  oo_red : redok t;
  oo_cred : cred BLACK k;
  oo_black : col = RED → tcolor t = BLACK;
  oo_root : ctx_black k;
  oo_top : k = Top → col = BLACK }.

(** The invariant of a context does not depend on the names of its nodes. *)
Lemma cbal_rename k2 l n m c k h : cbal h (comp k2 (CtxR l n c k)) = cbal h (comp k2 (CtxR l m c k)).
Proof. revert h. induction k2; intros; cbn; rewrite ?IHk2; done. Qed.
Lemma cred_rename k2 l n m c k c' :
  cred c' (comp k2 (CtxR l n c k)) = cred c' (comp k2 (CtxR l m c k)).
Proof. revert c'. induction k2; intros; cbn; rewrite ?IHk2; done. Qed.
Lemma ctx_black_rename k2 l n m c k :
  ctx_black (comp k2 (CtxR l n c k)) = ctx_black (comp k2 (CtxR l m c k)).
Proof. induction k2 as [|[] IH|? ? ? [] IH]; cbn in *; auto; by destruct k. Qed.
Lemma parent_of_comp k2 l m c k : parent_of (comp k2 (CtxR l m c k)) = parent_in (Some m) k2.
Proof. by destruct k2. Qed.

Lemma unlink_two_ok st k l n c r (Q : ptr * ptr * rbcolor → rbtree → Prop) :
  l ≠ E → r ≠ E →
  rep (nodes st) st (plug k (T l n c r)) → rb_ok (plug k (T l n c r)) →
  (∀ k' t' col st',
     one_out st (plug k (T l n c r)) n (before k ++ inorder l ++ inorder r ++ after k)
       col k' t' st' → Q (root_ptr t', parent_of k', col) st') →
  wp (rb_unlink n) Q st.
Proof.
  intros Hl Hr Hrep ((H & HH) & Hred & Hroot) HQ.
  assert (Hmin : wp (ogs_rbtree_min (root_ptr r))
    (λ m st', st' = st ∧ ∃ k2 cm mr, left_path k2 ∧ r = plug k2 (T E m cm mr)) st).
  { destruct r as [|rl x cx rr]; [done|].
    eapply (wp_min _ _ (CtxR l n c k)); [exact Hrep|]. intros k2 m cm mr ? ?. eauto 6. }
  apply wp_run in Hmin as (m & st' & Hrun & -> & k2 & cm & mr & Hlp & ->).
  eapply wp_unlink_two; [exact Hl|exact Hlp|exact Hrep|by unfold wp; rewrite Hrun|].
  intros st' (Hrep' & Hn' & He'). rewrite <- (parent_of_comp k2 l m c k). apply HQ.
  change (plug k (T l n c ?r)) with (plug (CtxR l n c k) r) in HH, Hred, Hroot.
  rewrite <- plug_comp in HH, Hred, Hroot.
  destruct (proj1 (bal_plug (comp k2 (CtxR l n c k)) (T E m cm mr))) as (h & Hb & Hcb); [eauto|].
  apply redok_plug in Hred as [(Hch & _ & Hrr) Hcr]. apply tcolor_plug_black in Hroot.
  apply bal_node_inv in Hb as (h' & -> & _ & Hbr).
  rewrite (cbal_rename _ _ _ m) in Hcb. rewrite (cred_rename _ _ _ m) in Hcr.
  rewrite (ctx_black_rename _ _ _ m) in Hroot.
  split; [|..].
  - split_and!; [by rewrite plug_comp|done|done].
  - rewrite plug_comp. rewrite !inorder_plug. cbn. rewrite ?inorder_plug, (left_path_before k2) by done.
    cbn. repeat (rewrite <- app_assoc; cbn). done.
  - eauto.
  - done.
  - by eapply cred_black.
  - intros ->. by apply Hch.
  - done.
  - by destruct k2.
Qed.

Lemma rb_unlink_ok st k l n c r (Q : ptr * ptr * rbcolor → rbtree → Prop) :
  rep (nodes st) st (plug k (T l n c r)) → rb_ok (plug k (T l n c r)) →
  (∀ k' t' col st',
     one_out st (plug k (T l n c r)) n (before k ++ inorder l ++ inorder r ++ after k)
       col k' t' st' → Q (root_ptr t', parent_of k', col) st') →
  wp (rb_unlink n) Q st.
Proof.
  intros Hrep Hok HQ. pose proof Hok as ((H & HH) & Hred & Hroot).
  destruct (proj1 (bal_plug k (T l n c r))) as (h & Hb & Hcb); [eauto|].
  apply bal_node_inv in Hb as (h' & -> & Hbl & Hbr).
  apply redok_plug in Hred as [(Hch & Hrl & Hrr) Hcr].
  assert (Htop : k = Top → c = BLACK) by (intros ->; done).
  apply tcolor_plug_black in Hroot. pose proof (cred_black _ _ Hcr) as Hcr'.
  assert (l = E ∨ r = E ∨ (l ≠ E ∧ r ≠ E)) as Hcases.
  { destruct l; [auto|]. destruct r; [auto|]. right; right. done. }
  assert (Hone : l = E ∨ r = E → wp (rb_unlink n) Q st).
  { intros Hlr. eapply wp_unlink_one; [exact Hlr|done|]. intros t st' Ht Hu. apply HQ.
    destruct Ht as [[-> ->]|[-> ->]]; split; try done; eauto; try naive_solver;
      by rewrite inorder_plug. }
  destruct Hcases as [?|[?|[Hl Hr]]]; [by apply Hone; left|by apply Hone; right|].
  by apply (unlink_two_ok st k l n c r).
Qed.

(** ** The whole operation *)

Lemma ctx_black_plug k t : k ≠ Top → ctx_black k → tcolor (plug k t) = BLACK.
Proof.
  revert t. induction k as [|k IH n c r|l n c k IH]; intros t; cbn; [done|..];
    intros _ Hb; destruct k; try (by apply IH); done.
Qed.

Lemma rb_delete_ok st k l n c r :
  rep (nodes st) st (plug k (T l n c r)) → rb_ok (plug k (T l n c r)) →
  wp (ogs_rbtree_delete n) (λ _ st', ∃ t',
    rep (nodes st') st' t' ∧ inorder t' = before k ++ inorder l ++ inorder r ++ after k ∧
    rb_ok t' ∧ is_Some (nodes st' !! n) ∧
    ∀ x, x ∉ inorder (plug k (T l n c r)) → nodes st' !! x = nodes st !! x) st.
Proof.
  intros Hrep Hok. unfold ogs_rbtree_delete. wp_pure. eapply rb_unlink_ok; [done|done|].
  intros k' t' col st1 [(Hrep1 & Hn1 & He1) Hord (h & Hb & Hcb) Hr Hc Hblk Hrt Htop]. cbn.
  assert (Hnot : ∀ x, x ∉ inorder (plug k (T l n c r)) → x ∉ inorder (plug k' t')).
  { intros x. rewrite Hord, inorder_plug. cbn. intros Hx. names_in Hx. names. }
  assert (Hnn : n ∉ inorder (plug k' t')).
  { pose proof (rep_view _ _ _ _ Hrep) as (_ & _ & _ & Hd). names_in Hd. rewrite Hord. names. }
  destruct col; [rewrite decide_True by done|rewrite decide_False by done].
  - unfold rb_delete_color. wp_pure. apply wp_rb_fuel. wp_pure.
    eapply wp_mono.
    + apply (delete_color_loop_ok (nodes st1) (plug k' t') _ _ k' t' h).
      * pose proof (rep_depth _ _ _ _ Hrep1). unfold turns. destruct (tcolor t'); lia.
      * split; try done. by apply redok_below_weaken.
    + intros q st2 (k2 & t2 & h2 & -> & Hrep2 & Hord2 & Hb2 & Hr2 & Hend).
      assert (Hfin : ∀ st3 t3, rep (nodes st1) st3 (plug k2 t3) → inorder t3 = inorder t2 →
        (∃ h3, bal h3 t3 ∧ cbal h3 k2) → redok t3 → tcolor t3 = BLACK →
        ∃ t', rep (nodes st3) st3 t' ∧ inorder t' = before k ++ inorder l ++ inorder r ++ after k ∧
          rb_ok t' ∧ is_Some (nodes st3 !! n) ∧
          ∀ x, x ∉ inorder (plug k (T l n c r)) → nodes st3 !! x = nodes st !! x).
      { intros st3 t3 Hrep3 Hi3 Hb3 Hr3 Hc3. 
        assert (Hord3 : inorder (plug k2 t3) = inorder (plug k' t')).
        { rewrite <- Hord2, !inorder_plug. by rewrite Hi3. }
        pose proof (rep_frame _ _ _ Hrep3) as Hf. rewrite Hord3 in Hf.
        exists (plug k2 t3). split_and!.
        - destruct Hrep3. by split.
        - congruence.
        - split_and!.
          + by apply bal_plug.
          + apply redok_plug. rewrite Hc3. split; [done|]. destruct Hend as [->|?]; [done|naive_solver].
          + destruct Hend as [->|(_ & _ & _ & ?)]; [done|].
            destruct k2; [done|by apply ctx_black_plug..].
        - by rewrite Hf.
        - intros x Hx. rewrite Hf by auto. by apply He1. }
      destruct t2 as [|l2 n2 c2 r2]; cbn [root_ptr m_if_some].
      * wp_pure. apply (Hfin _ E); try done. destruct Hend as [->|[? _]]; [|done]. by exists 0.
      * eapply wp_paint; [exact Hrep2|]. intros st3 Hrep3. eapply Hfin; [exact Hrep3|done| | |done].
        -- apply bal_node_inv in Hb2 as (h3 & -> & ? & ?). exists (S h3).
           split; [by apply (bal_node h3 _ _ BLACK)|]. destruct Hend as [->|(Hc2 & ? & _)]; [done|].
           cbn in Hc2. by subst c2.
        -- by split.
  - wp_pure. exists (plug k' t'). split_and!; [done|done| |done|done].
    split_and!.
    + apply bal_plug. eauto.
    + apply redok_plug. by rewrite Hblk.
    + destruct k'; [by discriminate Htop|by apply ctx_black_plug..].
Qed.
