(* ===== verification/RBIter.v ===== *)
(** * Iteration over the red-black tree

    [ogs_rbtree_first], [ogs_rbtree_next], [ogs_rbtree_last],
    [ogs_rbtree_prev] and the loops built from them visit the nodes in order. *)
From S2P Require Import Prelude RBTree RBZip.

(** Every node of a tree sits in a context. *)
Lemma focus t n : n ∈ inorder t → ∃ k l c r, t = plug k (T l n c r).
Proof.
  induction t as [|l IHl m c r IHr]; cbn; intros Hn; [by apply elem_of_nil in Hn|].
  apply elem_of_app in Hn as [Hn|[->|Hn]%elem_of_cons].
  - destruct (IHl Hn) as (k & l' & c' & r' & ->). exists (comp k (CtxL Top m c r)), l', c', r'.
    by rewrite plug_comp.
  - by exists Top, l, c, r.
  - destruct (IHr Hn) as (k & l' & c' & r' & ->). exists (comp k (CtxR l m c Top)), l', c', r'.
    by rewrite plug_comp.
Qed.

(** The part of a duplicate-free list after one of its elements is unique. *)
Lemma NoDup_split_eq {A} (l1 l2 k1 k2 : list A) x :
  NoDup (l1 ++ x :: k1) → l1 ++ x :: k1 = l2 ++ x :: k2 → l1 = l2 ∧ k1 = k2.
Proof.
  revert l2. induction l1 as [|y l1 IH]; intros [|z l2] Hd Heq; cbn in *; simplify_eq; [done|..].
  - apply NoDup_cons in Hd as [Hd _]. destruct Hd. apply elem_of_app. right. by left.
  - apply NoDup_cons in Hd as [Hd _]. destruct Hd. apply elem_of_app. right. by left.
  - apply NoDup_cons in Hd as [_ Hd].
    match goal with H : _ ++ _ = _ ++ _ |- _ => by destruct (IH _ Hd H) as [-> ->] end.
Qed.

Lemma wp_next_loop F st fuel : ∀ k l n c r (Q : ptr → rbtree → Prop),
  rep F st (plug k (T l n c r)) → depth k < fuel → Q (head (after k)) st →
  wp (next_loop fuel n) Q st.
Proof.
  induction fuel as [|fuel IH]; intros k l n c r Q Hrep Hf HQ; [lia|]. cbn [next_loop]. wp_pure.
  rd wp_get_parent k. destruct k as [|k p c' t|t p c' k]; cbn [parent_of]; wp_pure; [done|..].
  - rd wp_get_right k. rewrite decide_False; [by wp_pure|].
    eapply (rep_other_ne_r _ _ k); [exact Hrep|done].
  - rd wp_get_right k. rewrite decide_True by done.
    eapply (IH k); [exact Hrep|cbn in Hf; lia|done].
Qed.

Lemma wp_prev_loop F st fuel : ∀ k l n c r (Q : ptr → rbtree → Prop),
  rep F st (plug k (T l n c r)) → depth k < fuel → Q (last (before k)) st →
  wp (prev_loop fuel n) Q st.
Proof.
  induction fuel as [|fuel IH]; intros k l n c r Q Hrep Hf HQ; [lia|]. cbn [prev_loop]. wp_pure.
  rd wp_get_parent k. destruct k as [|k p c' t|t p c' k]; cbn [parent_of]; wp_pure; [done|..].
  - rd wp_get_left k. rewrite decide_True by done.
    eapply (IH k); [exact Hrep|cbn in Hf; lia|done].
  - rd wp_get_left k. rewrite decide_False.
    + wp_pure. cbn in HQ. by rewrite app_assoc, last_snoc in HQ.
    + eapply (rep_other_ne_l _ _ k); [exact Hrep|done].
Qed.

Lemma wp_not_empty_node F st k l n c r (Q : bool → rbtree → Prop) :
  rep F st (plug k (T l n c r)) → Q false st → wp (rb_empty_node n) Q st.
Proof.
  intros Hrep HQ. unfold rb_empty_node. wp_pure. rd wp_get_parent k.
  rewrite bool_decide_false; [done|]. intros Heq.
  pose proof (rep_view _ _ _ _ Hrep) as (_ & _ & _ & Hd). destruct k; cbn in Heq; simplify_eq; names_in Hd; names.
Qed.

Lemma rb_next_ok F st k l n c r (Q : ptr → rbtree → Prop) :
  rep F st (plug k (T l n c r)) → Q (head (inorder r ++ after k)) st →
  wp (ogs_rbtree_next n) Q st.
Proof.
  intros Hrep HQ. unfold ogs_rbtree_next. wp_pure. eapply wp_not_empty_node; [exact Hrep|].
  wp_pure. rd wp_get_right k. destruct r as [|rl x cx rr]; cbn [root_ptr]; wp_pure.
  - apply wp_rb_fuel. eapply wp_next_loop; [exact Hrep| |done].
    apply rep_depth in Hrep. lia.
  - eapply (wp_min _ _ (CtxR l n c k)); [exact Hrep|]. intros k2 m cm mr Hp Heq. wp_pure.
    rewrite Heq, inorder_plug, left_path_before in HQ by done. exact HQ.
Qed.

Lemma rb_prev_ok F st k l n c r (Q : ptr → rbtree → Prop) :
  rep F st (plug k (T l n c r)) → Q (last (before k ++ inorder l)) st →
  wp (ogs_rbtree_prev n) Q st.
Proof.
  intros Hrep HQ. unfold ogs_rbtree_prev. wp_pure. eapply wp_not_empty_node; [exact Hrep|].
  wp_pure. rd wp_get_left k. destruct l as [|ll x cx lr]; cbn [root_ptr]; wp_pure.
  - apply wp_rb_fuel. eapply wp_prev_loop; [exact Hrep| |by rewrite app_nil_r in HQ].
    apply rep_depth in Hrep. lia.
  - eapply (wp_max _ _ (CtxL k n c r)); [exact Hrep|]. intros k2 m cm ml Hp Heq. wp_pure.
    rewrite Heq, inorder_plug, right_path_after, app_nil_r in HQ by done. cbn in HQ.
    by rewrite !app_assoc, last_snoc in HQ.
Qed.

Lemma rb_first_ok F st t (Q : ptr → rbtree → Prop) :
  rep F st t → Q (head (inorder t)) st → wp ogs_rbtree_first Q st.
Proof.
  intros Hrep HQ. unfold ogs_rbtree_first. wp_pure. rewrite (rep_root _ _ _ Hrep).
  destruct t as [|l n c r]; cbn [root_ptr]; wp_pure; [done|].
  eapply (wp_min _ _ Top); [exact Hrep|]. intros k2 m cm mr Hp Heq. wp_pure.
  by rewrite Heq, inorder_plug, left_path_before in HQ.
Qed.

Lemma rb_last_ok F st t (Q : ptr → rbtree → Prop) :
  rep F st t → Q (last (inorder t)) st → wp ogs_rbtree_last Q st.
Proof.
  intros Hrep HQ. unfold ogs_rbtree_last. wp_pure. rewrite (rep_root _ _ _ Hrep).
  destruct t as [|l n c r]; cbn [root_ptr]; wp_pure; [done|].
  eapply (wp_max _ _ Top); [exact Hrep|]. intros k2 m cm ml Hp Heq. wp_pure.
  rewrite Heq, inorder_plug, right_path_after, app_nil_r in HQ by done. cbn in HQ.
  by rewrite app_assoc, last_snoc in HQ.
Qed.

(** From any place of the order on, the loop yields the rest of it. *)
Lemma wp_for_each_loop F st t fuel : ∀ pre rest (Q : list positive → rbtree → Prop),
  rep F st t → inorder t = pre ++ rest → length rest < fuel → Q rest st →
  wp (for_each_loop fuel (head rest)) Q st.
Proof.
  induction fuel as [|fuel IH]; intros pre rest Q Hrep Ht Hf HQ; [lia|].
  destruct rest as [|n rest]; cbn [for_each_loop head]; [by wp_pure|]. wp_pure.
  destruct (focus t n) as (k & l & c & r & ->); [rewrite Ht; apply elem_of_app; right; by left|].
  assert (rest = inorder r ++ after k) as Hrest.
  { pose proof (rep_nodup _ _ _ Hrep) as Hd. rewrite Ht in Hd.
    rewrite inorder_plug in Ht. cbn in Ht. rewrite <- app_assoc, app_assoc in Ht. cbn in Ht.
    by destruct (NoDup_split_eq _ _ _ _ _ Hd (eq_sym Ht)). }
  eapply rb_next_ok; [exact Hrep|]. rewrite <- Hrest. wp_pure.
  eapply (IH (pre ++ [n])); [exact Hrep|by rewrite <- app_assoc|cbn in Hf; lia|]. by wp_pure.
Qed.

Lemma rb_for_each_ok F st t (Q : list positive → rbtree → Prop) :
  rep F st t → Q (inorder t) st → wp ogs_rbtree_for_each Q st.
Proof.
  intros Hrep HQ. unfold ogs_rbtree_for_each. wp_pure. eapply rb_first_ok; [exact Hrep|].
  wp_pure. apply wp_rb_fuel. wp_pure. apply (wp_for_each_loop F st t _ []); [exact Hrep|done| |by wp_pure].
  by apply (rep_fuel F st Top).
Qed.

(** The height of a red-black tree is logarithmic: a path to a leaf crosses
    at most twice as many nodes as black ones. *)
Fixpoint height (t : tree) : nat :=
  match t with E => 0 | T l _ _ r => S (Nat.max (height l) (height r)) end.

Lemma height_bal h t : bal h t → redok t →
  height t ≤ 2 * h + match tcolor t with RED => 1 | BLACK => 0 end.
Proof.
  revert h. induction t as [|l IHl n c r IHr]; intros h Hb Hr; cbn in *; [lia|].
  destruct Hr as (Hc & Hl & Hrr). destruct c.
  - destruct Hb as (h' & -> & Hbl & Hbr). specialize (IHl _ Hbl Hl). specialize (IHr _ Hbr Hrr).
    destruct (tcolor l), (tcolor r); lia.
  - destruct Hb as [Hbl Hbr]. specialize (IHl _ Hbl Hl). specialize (IHr _ Hbr Hrr).
    destruct (Hc eq_refl) as [Hcl Hcr]. rewrite Hcl in IHl. rewrite Hcr in IHr. lia.
Qed.

Lemma size_bal h t : bal h t → 2 ^ h ≤ length (inorder t) + 1.
Proof.
  revert h. induction t as [|l IHl n c r IHr]; intros h Hb; cbn in *; [by subst|].
  rewrite length_app. cbn. destruct c.
  - destruct Hb as (h' & -> & Hbl & Hbr). specialize (IHl _ Hbl). specialize (IHr _ Hbr).
    cbn. lia.
  - destruct Hb as [Hbl Hbr]. specialize (IHl _ Hbl). specialize (IHr _ Hbr). lia.
Qed.
