(* ===== verification/RBSpec.v ===== *)
(** * What the red-black tree guarantees

    The contract of lib/core/ogs-rbtree.c over its pointer store: insertion,
    deletion and iteration, with concrete instances. *)
From S2P Require Import Prelude RBTree RBZip RBInsert RBDelete RBIter.

Lemma rep_self F st t : rep F st t → rep (nodes st) st t.
Proof. intros []; by split. Qed.

(** A tree of three nodes, and a fourth node that is allocated but not linked. *)
Definition store3 : rbtree := RBTree (Some 2%positive)
  {[ 1%positive := RBNode (Some 2%positive) None None RED;
     2%positive := RBNode None (Some 1%positive) (Some 3%positive) BLACK;
     3%positive := RBNode (Some 2%positive) None None RED;
     4%positive := RBNode None None None BLACK ]}.
Definition tree3 : tree := T (T E 1 RED E) 2 BLACK (T E 3 RED E).

Lemma store3_rep : rep (nodes store3) store3 tree3.
Proof.
  split; [done| |by apply (bool_decide_unpack _); vm_compute|done].
  cbn. split_and!; reflexivity.
Qed.
Lemma tree3_ok : rb_ok tree3.
Proof. split; [|split]; [exists 1, 0; done|cbn; naive_solver|done]. Qed.

(** C21: Insertion: linking a fresh node at any leaf position of a red-black
    tree and calling [ogs_rbtree_insert_color] terminates without a NULL
    dereference or failed assertion; the result is a red-black tree whose
    in-order sequence has the new node at that position, and memory outside
    the tree is unchanged. *)
Theorem ogs_rbtree_insert_correct (st : rbtree) (k : ctx) (n : positive) (old : rbnode) :
  rep (nodes st) st (plug k E) → rb_ok (plug k E) →
  n ∉ inorder (plug k E) → nodes st !! n = Some old →
  ∃ st' t,
    (ogs_rbtree_link_node n (parent_of k) (link_of k);; ogs_rbtree_insert_color n) st
      = Some (tt, st') ∧
    rep (nodes st') st' t ∧ rb_ok t ∧ inorder t = before k ++ n :: after k ∧
    (∀ x, x ≠ n → x ∉ inorder (plug k E) → nodes st' !! x = nodes st !! x).
Proof.
  intros Hrep Hok Hn Hold.
  pose proof (rb_insert_ok st k n old Hrep Hok Hn Hold) as H.
  apply wp_run in H as ([] & st' & Hrun & t & ? & ? & ? & ?). eauto 8.
Qed.

Lemma ogs_rbtree_insert_correct_witness :
  ∃ st' t,
    (ogs_rbtree_link_node 4 (Some 3%positive) (LinkRight 3);; ogs_rbtree_insert_color 4) store3
      = Some (tt, st') ∧
    rep (nodes st') st' t ∧ rb_ok t ∧ inorder t = [1; 2; 3; 4]%positive ∧
    (∀ x, x ≠ 4%positive → x ∉ [1; 2; 3]%positive → nodes st' !! x = nodes store3 !! x).
Proof.
  apply (ogs_rbtree_insert_correct store3
    (CtxR E 3 RED (CtxR (T E 1 RED E) 2 BLACK Top)) 4 (RBNode None None None BLACK)).
  - exact store3_rep.
  - exact tree3_ok.
  - cbn. names_step. names.
  - reflexivity.
Defined.

(** C22: Deletion: [ogs_rbtree_delete] of any node of a red-black tree
    terminates without a NULL dereference; the other nodes keep their order,
    the result is again a red-black tree, and memory outside the tree is
    unchanged. *)
Theorem ogs_rbtree_delete_correct (st : rbtree) (t : tree) (n : positive) (l1 l2 : list positive) :
  rep (nodes st) st t → rb_ok t → inorder t = l1 ++ n :: l2 →
  ∃ st' t',
    ogs_rbtree_delete n st = Some (tt, st') ∧
    rep (nodes st') st' t' ∧ rb_ok t' ∧ inorder t' = l1 ++ l2 ∧
    (∀ x, x ∉ inorder t → nodes st' !! x = nodes st !! x).
Proof.
  intros Hrep Hok Hi.
  destruct (focus t n) as (k & l & c & r & ->); [rewrite Hi; apply elem_of_app; right; by left|].
  pose proof (rb_delete_ok st k l n c r Hrep Hok) as H.
  apply wp_run in H as ([] & st' & Hrun & t' & Hrep' & Ho & Hok' & _ & Hf).
  exists st', t'. split_and!; try done. rewrite Ho.
  pose proof (rep_nodup _ _ _ Hrep) as Hd. rewrite Hi in Hd.
  rewrite inorder_plug in Hi. cbn in Hi. rewrite <- app_assoc, app_assoc in Hi. cbn in Hi.
  destruct (NoDup_split_eq _ _ _ _ _ Hd (eq_sym Hi)) as [-> ->]. by rewrite <- app_assoc.
Qed.

Lemma ogs_rbtree_delete_correct_witness :
  ∃ st' t',
    ogs_rbtree_delete 2 store3 = Some (tt, st') ∧
    rep (nodes st') st' t' ∧ rb_ok t' ∧ inorder t' = [1; 3]%positive ∧
    (∀ x, x ∉ inorder tree3 → nodes st' !! x = nodes store3 !! x).
Proof.
  apply (ogs_rbtree_delete_correct store3 tree3 2 [1%positive] [3%positive]).
  - exact store3_rep.
  - exact tree3_ok.
  - reflexivity.
Defined.

(** Iteration: [ogs_rbtree_for_each] visits every node once and in order
    (so [ogs_rbtree_count] is their number), and from the node at any
    position [ogs_rbtree_next] and [ogs_rbtree_prev] lead to its neighbours
    (NULL at the ends). *)
Theorem ogs_rbtree_iteration (F : gmap positive rbnode) (st : rbtree) (t : tree) :
  rep F st t →
  ogs_rbtree_for_each st = Some (inorder t, st) ∧
  ogs_rbtree_count st = Some (length (inorder t), st) ∧
  ogs_rbtree_first st = Some (head (inorder t), st) ∧
  ogs_rbtree_last st = Some (last (inorder t), st) ∧
  ∀ l1 n l2, inorder t = l1 ++ n :: l2 →
    ogs_rbtree_next n st = Some (head l2, st) ∧ ogs_rbtree_prev n st = Some (last l1, st).
Proof.
  intros Hrep.
  assert (Hall : wp ogs_rbtree_for_each (λ l s, l = inorder t ∧ s = st) st)
    by (by eapply rb_for_each_ok).
  apply wp_run in Hall as (? & ? & Hall & -> & ->).
  assert (Hfirst : wp ogs_rbtree_first (λ q s, q = head (inorder t) ∧ s = st) st)
    by (by eapply rb_first_ok).
  apply wp_run in Hfirst as (? & ? & Hfirst & -> & ->).
  assert (Hlast : wp ogs_rbtree_last (λ q s, q = last (inorder t) ∧ s = st) st)
    by (by eapply rb_last_ok).
  apply wp_run in Hlast as (? & ? & Hlast & -> & ->).
  split_and!; [done| |done|done|].
  { unfold ogs_rbtree_count. by rewrite (bind_step _ _ _ _ _ Hall). }
  intros l1 n l2 Hi.
  destruct (focus t n) as (k & l & c & r & ->); [rewrite Hi; apply elem_of_app; right; by left|].
  pose proof (rep_nodup _ _ _ Hrep) as Hd. rewrite Hi in Hd.
  rewrite inorder_plug in Hi. cbn in Hi. rewrite <- app_assoc, app_assoc in Hi. cbn in Hi.
  destruct (NoDup_split_eq _ _ _ _ _ Hd (eq_sym Hi)) as [-> ->].
  assert (Hn : wp (ogs_rbtree_next n) (λ q s, q = head (inorder r ++ after k) ∧ s = st) st)
    by (by eapply rb_next_ok).
  apply wp_run in Hn as (? & ? & Hn & -> & ->).
  assert (Hp : wp (ogs_rbtree_prev n) (λ q s, q = last (before k ++ inorder l) ∧ s = st) st)
    by (by eapply rb_prev_ok).
  apply wp_run in Hp as (? & ? & Hp & -> & ->). done.
Qed.

Lemma ogs_rbtree_iteration_witness :
  ogs_rbtree_for_each store3 = Some ([1; 2; 3]%positive, store3) ∧
  ogs_rbtree_next 2 store3 = Some (Some 3%positive, store3).
Proof.
  destruct (ogs_rbtree_iteration (nodes store3) store3 tree3 store3_rep) as (H & _ & _ & _ & Hn).
  split; [exact H|]. exact (proj1 (Hn [1%positive] 2%positive [3%positive] eq_refl)).
Defined.

(** Logarithmic descent: in a red-black tree of [N] nodes, the descent of
    [ogs_rbtree_min] takes at most [2 * log2 (N + 1) + 1] turns of its loop. *)
Lemma ogs_rbtree_min_logarithmic (F : gmap positive rbnode) (st : rbtree) (l : tree)
    (n : positive) (c : rbcolor) (r : tree) (fuel : nat) :
  let t := T l n c r in
  rep F st t → rb_ok t → 2 * Nat.log2 (length (inorder t) + 1) < fuel →
  ∃ m, min_loop fuel n st = Some (m, st) ∧ head (inorder t) = Some m.
Proof.
  intros t Hrep ((h & Hb) & Hr & Hc) Hf.
  assert (Hh : height t < fuel).
  { pose proof (height_bal h t Hb Hr) as H1. rewrite Hc in H1.
    pose proof (size_bal h t Hb) as H2. apply Nat.log2_le_mono in H2.
    rewrite Nat.log2_pow2 in H2 by lia. lia. }
  clear Hf Hb Hr Hc. assert (Hrep' : rep F st (plug Top t)) by exact Hrep.
  assert (H : wp (min_loop fuel n) (λ m s, s = st ∧ head (inorder t) = Some m) st).
  { clear Hrep. subst t. revert Hh Hrep'. generalize Top as k. revert n c r.
    induction l as [|ll IHl x cx lr _] in fuel |- *; intros n c r k Hh Hrep; cbn in Hh;
      (destruct fuel as [|fuel]; [lia|]); cbn [min_loop]; wp_pure; rd wp_get_left k;
      cbn [root_ptr]; wp_pure; [done|].
    eapply wp_mono; [eapply (IHl fuel x cx lr (CtxL k n c r)); [cbn; lia|exact Hrep]|].
    intros m s [-> Hm]. split; [done|]. cbn in *. by destruct (inorder ll ++ x :: inorder lr). }
  apply wp_run in H as (m & s & Hrun & -> & Hm). eauto.
Qed.

Example ogs_rbtree_min_logarithmic_run :
  ∃ m, min_loop 5 2 store3 = Some (m, store3) ∧ head (inorder tree3) = Some m.
Proof.
  apply (ogs_rbtree_min_logarithmic (nodes store3) store3 (T E 1 RED E) 2 BLACK (T E 3 RED E)).
  - exact store3_rep.
  - exact tree3_ok.
  - vm_compute. lia.
Defined.
