(* ===== verification/DList.v ===== *)
(** * Doubly linked lists: lib/core/ogs-list.h

    Intrusive lists: a node is a structure with a [prev] and a [next] pointer
    inside the element, the list itself such a pair, [next] being its first
    and [prev] its last node.  Every list of peers, sessions, transactions
    and rules of the program is one. *)
From S2P Require Import Prelude.
#[local] Open Scope Z_scope.

(** struct ogs_list_s *)
Record lnode := Lnode { lprev : option positive; lnext : option positive }.

(** A list and the memory of the nodes, by address; a node that is not in
    memory was freed. *)
Record list_mem := ListMem { lhead : lnode; lmem : gmap positive lnode }.

(** ** Accesses *)

Definition lnode_get (p : positive) : M list_mem lnode := λ s,
  match lmem s !! p with Some n => Some (n, s) | None => None end.
Definition lnode_set (p : positive) (f : lnode → lnode) : M list_mem unit :=
  n ← lnode_get p; m_modify (λ s, ListMem (lhead s) (<[p := f n]> (lmem s))).
Definition set_prev (p : positive) (v : option positive) : M list_mem unit := lnode_set p (λ n, Lnode v (lnext n)).
Definition set_next (p : positive) (v : option positive) : M list_mem unit := lnode_set p (λ n, Lnode (lprev n) v).
Definition list_set_prev (v : option positive) : M list_mem unit :=
  m_modify (λ s, ListMem (Lnode v (lnext (lhead s))) (lmem s)).
Definition list_set_next (v : option positive) : M list_mem unit :=
  m_modify (λ s, ListMem (Lnode (lprev (lhead s)) v) (lmem s)).

(** [if (p) p->next = v; else list->next = v;] and the same for [prev]. *)
Definition next_or_list (p v : option positive) : M list_mem unit :=
  match p with Some p => set_next p v | None => list_set_next v end.
Definition prev_or_list (p v : option positive) : M list_mem unit :=
  match p with Some p => set_prev p v | None => list_set_prev v end.

(** ** Operations *)

Definition ogs_list_init : M list_mem unit := list_set_prev None;; list_set_next None.
(** The copy shares the nodes. *)
Definition ogs_list_copy (src : lnode) : M list_mem unit := list_set_prev (lprev src);; list_set_next (lnext src).
Definition ogs_list_first : M list_mem (option positive) := m_gets (λ s, lnext (lhead s)).
Definition ogs_list_last : M list_mem (option positive) := m_gets (λ s, lprev (lhead s)).
Definition ogs_list_next (p : positive) : M list_mem (option positive) := n ← lnode_get p; mret (lnext n).
Definition ogs_list_prev (p : positive) : M list_mem (option positive) := n ← lnode_get p; mret (lprev n).

Definition ogs_list_prepend (node : positive) : M list_mem unit :=
  set_prev node None;;
  first ← ogs_list_first;
  set_next node first;;
  prev_or_list first (Some node);;
  list_set_next (Some node).

Definition ogs_list_add (node : positive) : M list_mem unit :=
  last ← ogs_list_last;
  set_prev node last;;
  set_next node None;;
  next_or_list last (Some node);;
  list_set_prev (Some node).

Definition ogs_list_remove (node : positive) : M list_mem unit :=
  prev ← ogs_list_prev node;
  next ← ogs_list_next node;
  next_or_list prev next;;
  prev_or_list next prev.

Definition ogs_list_insert_prev (next node : positive) : M list_mem unit :=
  prev ← ogs_list_prev next;
  set_prev node prev;;
  set_next node (Some next);;
  prev ← ogs_list_prev next;
  next_or_list prev (Some node);;
  set_prev next (Some node).

Definition ogs_list_insert_next (prev node : positive) : M list_mem unit :=
  set_prev node (Some prev);;
  next ← ogs_list_next prev;
  set_next node next;;
  next ← ogs_list_next prev;
  prev_or_list next (Some node);;
  set_next prev (Some node).

(** ** Iteration

    The body of a loop gets the node and the variables [a] it assigns, and
    says whether it breaks; the loop ends with them and with the iterator,
    NULL when it ran to the end. *)
Section iteration.
Context {A : Type}.
Variable body : positive → A → M list_mem (A * bool).

Fixpoint for_each_from (fuel : nat) (node : option positive) (a : A) : M list_mem (A * option positive) :=
  match node, fuel with
  | None, _ => mret (a, None)
  | Some _, O => m_fail
  | Some p, S fuel =>
      r ← body p a;
      if (snd r : bool) then mret (fst r, Some p)
      else next ← ogs_list_next p; for_each_from fuel next (fst r)
  end.
(** The turns that a well-formed list can need. *)
Definition list_fuel (s : list_mem) : nat := S (size (lmem s)).
Definition ogs_list_for_each (a : A) : M list_mem (A * option positive) :=
  s ← m_get; first ← ogs_list_first; for_each_from (list_fuel s) first a.

Fixpoint reverse_for_each_from (fuel : nat) (node : option positive) (a : A) : M list_mem (A * option positive) :=
  match node, fuel with
  | None, _ => mret (a, None)
  | Some _, O => m_fail
  | Some p, S fuel =>
      r ← body p a;
      if (snd r : bool) then mret (fst r, Some p)
      else prev ← ogs_list_prev p; reverse_for_each_from fuel prev (fst r)
  end.
Definition ogs_list_reverse_for_each (a : A) : M list_mem (A * option positive) :=
  s ← m_get; last ← ogs_list_last; reverse_for_each_from (list_fuel s) last a.

(** The next node is read before the body runs, which may remove and free
    the current one. *)
Fixpoint for_each_safe_from (fuel : nat) (node : option positive) (a : A) : M list_mem (A * option positive) :=
  match node, fuel with
  | None, _ => mret (a, None)
  | Some _, O => m_fail
  | Some p, S fuel =>
      n ← ogs_list_next p;
      r ← body p a;
      if (snd r : bool) then mret (fst r, Some p) else for_each_safe_from fuel n (fst r)
  end.
Definition ogs_list_for_each_safe (a : A) : M list_mem (A * option positive) :=
  s ← m_get; first ← ogs_list_first; for_each_safe_from (list_fuel s) first a.
End iteration.

(** ** What is built on iteration *)

Definition ogs_list_insert_sorted (compare : positive → positive → Z) (node : positive) : M list_mem unit :=
  r ← ogs_list_for_each (λ iter _,
    if compare node iter <? 0 then ogs_list_insert_prev iter node;; mret (tt, true) else mret (tt, false)) tt;
  match snd r with None => ogs_list_add node | Some _ => mret tt end.

Definition ogs_list_empty : M list_mem bool :=
  first ← ogs_list_first; mret (match first with None => true | Some _ => false end).
Definition ogs_list_count : M list_mem Z :=
  r ← ogs_list_for_each (λ _ i, mret (i + 1, false)) 0; mret (fst r).
Definition ogs_list_exists (node : positive) : M list_mem bool :=
  r ← ogs_list_for_each (λ iter _, mret (if (node =? iter)%positive then (true, true) else (false, false))) false;
  mret (fst r).

(** The way the contexts of the program empty a list. *)
Definition remove_all (free : bool) : M list_mem unit :=
  ogs_list_for_each_safe (λ p _,
    ogs_list_remove p;;
    m_when free (m_modify (λ s, ListMem (lhead s) (delete p (lmem s))));;
    mret (tt, false)) tt;;
  mret tt.
