(* ===== verification/DListSpec.v ===== *)
(** * Doubly linked lists: sequences

    The list is a sequence of nodes: a predicate on memory, what every
    operation does to it, and that the rest of memory stays as it is. *)
From S2P Require Import Prelude DList.
#[local] Open Scope Z_scope.

Implicit Types (m : gmap positive lnode) (s : list_mem) (l : list positive) (p n : option positive).

(** The first node of a segment that is followed by [n], the last one of a
    segment that follows [p]. *)
Definition first_or n l : option positive := match l with [] => n | x :: _ => Some x end.
Fixpoint last_or p l : option positive := match l with [] => p | x :: l => last_or (Some x) l end.

(** The nodes [l] are linked to each other, after [p] and before [n]. *)
Fixpoint seg m p l n : Prop :=
  match l with
  | [] => True
  | x :: l => m !! x = Some (Lnode p (first_or n l)) ∧ seg m (Some x) l n
  end.

(** [s] holds the list [l]. *)
Definition holds s l : Prop :=
  seg (lmem s) None l None ∧ lnext (lhead s) = first_or None l ∧ lprev (lhead s) = last_or None l ∧ NoDup l.

Lemma first_or_app n l1 l2 : first_or n (l1 ++ l2) = first_or (first_or n l2) l1.
Proof. by destruct l1. Qed.
Lemma last_or_app p l1 l2 : last_or p (l1 ++ l2) = last_or (last_or p l1) l2.
Proof. revert p. induction l1; cbn; auto. Qed.
Lemma last_or_snoc p l x : last_or p (l ++ [x]) = Some x.
Proof. by rewrite last_or_app. Qed.

Lemma seg_app m p l1 l2 n : seg m p (l1 ++ l2) n ↔ seg m p l1 (first_or n l2) ∧ seg m (last_or p l1) l2 n.
Proof.
  revert p. induction l1 as [|x l1 IH]; intros p; cbn [app seg last_or]; [tauto|].
  rewrite IH, first_or_app. tauto.
Qed.
Lemma seg_frame m m' p l n : (∀ x, x ∈ l → m' !! x = m !! x) → seg m p l n → seg m' p l n.
Proof.
  revert p. induction l as [|x l IH]; intros p Hm; [done|]. cbn [seg]. rewrite Hm by (by left).
  intros [H1 H2]. split; [done|]. apply IH; [|done]. intros. apply Hm. by right.
Qed.
Lemma seg_insert m p l n x v : x ∉ l → seg m p l n → seg (<[x := v]> m) p l n.
Proof. intros Hx. apply seg_frame. intros y Hy. apply lookup_insert_ne. by intros ->. Qed.
Lemma seg_delete m p l n x : x ∉ l → seg m p l n → seg (delete x m) p l n.
Proof. intros Hx. apply seg_frame. intros y Hy. apply lookup_delete_ne. by intros ->. Qed.
Lemma seg_in m p l n x : seg m p l n → x ∈ l → is_Some (m !! x).
Proof.
  revert p. induction l as [|y l IH]; intros p; [by intros _ ?%elem_of_nil|]. intros [H1 H2] [->|Hx]%elem_of_cons; [by eexists|eauto].
Qed.

(** ** A list with a gap

    Between [l1] and [l2], the node after [l1] (or the first of the list) is
    [n] and the node before [l2] (or the last of the list) is [p]. *)
Definition gap s l1 l2 n p : Prop :=
  seg (lmem s) None l1 n ∧ lnext (lhead s) = first_or n l1 ∧
  seg (lmem s) p l2 None ∧ lprev (lhead s) = last_or p l2 ∧ NoDup (l1 ++ l2).

Lemma holds_gap s l1 l2 : holds s (l1 ++ l2) ↔ gap s l1 l2 (first_or None l2) (last_or None l1).
Proof. unfold holds, gap. rewrite seg_app, first_or_app, last_or_app. tauto. Qed.

(** A node in the gap. *)
Lemma holds_mid s l1 x l2 :
  holds s (l1 ++ x :: l2) ↔
  gap s l1 l2 (Some x) (Some x) ∧ lmem s !! x = Some (Lnode (last_or None l1) (first_or None l2)) ∧ x ∉ l1 ++ l2.
Proof.
  unfold holds, gap. rewrite seg_app, first_or_app, last_or_app. cbn [first_or seg last_or].
  rewrite !NoDup_app, NoDup_cons, not_elem_of_app. set_solver.
Qed.

(** ** Steps *)

(** Only the nodes [l] of the memory of [s] may differ in [s']. *)
Definition only l s s' : Prop := ∀ y, y ∉ l → lmem s' !! y = lmem s !! y.

Lemma only_trans l s s1 s2 : only l s s1 → only l s1 s2 → only l s s2.
Proof. intros H1 H2 y Hy. by rewrite H2, H1. Qed.
Lemma only_mono l l' s s' : (∀ x, x ∈ l → x ∈ l') → only l s s' → only l' s s'.
Proof. intros H Ho y Hy. apply Ho. auto. Qed.

Lemma wp_lnode_get {A} x v (f : lnode → M list_mem A) Q s :
  lmem s !! x = Some v → wp (f v) Q s → wp (n ← lnode_get x; f n) Q s.
Proof. intros Hx HQ. apply wp_bind. unfold wp at 1, lnode_get. by rewrite Hx. Qed.
Lemma wp_lnode_set x v g (Q : unit → list_mem → Prop) s :
  lmem s !! x = Some v → Q tt (ListMem (lhead s) (<[x := g v]> (lmem s))) → wp (lnode_set x g) Q s.
Proof. intros Hx HQ. unfold lnode_set. by eapply wp_lnode_get, wp_modify. Qed.
Lemma wp_next x v (Q : option positive → list_mem → Prop) s :
  lmem s !! x = Some v → Q (lnext v) s → wp (ogs_list_next x) Q s.
Proof. intros Hx HQ. unfold ogs_list_next. by eapply wp_lnode_get, wp_ret. Qed.
Lemma wp_prev x v (Q : option positive → list_mem → Prop) s :
  lmem s !! x = Some v → Q (lprev v) s → wp (ogs_list_prev x) Q s.
Proof. intros Hx HQ. unfold ogs_list_prev. by eapply wp_lnode_get, wp_ret. Qed.

Lemma NoDup_snoc_notin l1 y l2 : NoDup ((l1 ++ [y]) ++ l2) → (y ∉ l1) ∧ y ∉ l2.
Proof. rewrite <- app_assoc, !NoDup_app. cbn. rewrite NoDup_cons. set_solver. Qed.

(** [next_or_list] on the node before a gap, [prev_or_list] on the node after. *)
Lemma wp_next_or_list l1 l2 n p v (Q : unit → list_mem → Prop) s :
  gap s l1 l2 n p →
  (∀ s', gap s' l1 l2 v p → only l1 s s' → Q tt s') →
  wp (next_or_list (last_or None l1) v) Q s.
Proof.
  intros (H1 & H2 & H3 & H4 & H5) HQ. destruct l1 as [|y l1 _] using rev_ind.
  - cbn [last_or next_or_list]. apply wp_modify, HQ; [|done]. by split.
  - rewrite last_or_snoc. cbn [next_or_list]. apply seg_app in H1 as [H1 [Hy _]]. cbn in H1, Hy.
    destruct (NoDup_snoc_notin _ _ _ H5) as [Hn1 Hn2].
    eapply wp_lnode_set; [exact Hy|]. apply HQ.
    + split; [|split; [|split; [|by split]]]; cbn.
      * apply seg_app. split; [by apply seg_insert|]. cbn. by rewrite lookup_insert_eq.
      * rewrite H2. by rewrite !first_or_app.
      * by apply seg_insert.
    + intros z Hz. cbn. apply lookup_insert_ne. intros ->. apply Hz. in_list.
Qed.
Lemma wp_prev_or_list l1 l2 n p v (Q : unit → list_mem → Prop) s :
  gap s l1 l2 n p →
  (∀ s', gap s' l1 l2 n v → only l2 s s' → Q tt s') →
  wp (prev_or_list (first_or None l2) v) Q s.
Proof.
  intros (H1 & H2 & H3 & H4 & H5) HQ. destruct l2 as [|y l2].
  - cbn [first_or prev_or_list]. apply wp_modify, HQ; [|done]. by split.
  - cbn [first_or prev_or_list]. destruct H3 as [Hy H3]. apply NoDup_app in H5 as H5'. destruct H5' as (_ & Hd & [Hn2 _]%NoDup_cons).
    assert (Hn1 : y ∉ l1) by (intros ?; apply (Hd y); [done|by left]).
    eapply wp_lnode_set; [exact Hy|]. apply HQ.
    + split; [by apply seg_insert|]. split; [done|]. split; [|by split]. cbn.
      rewrite lookup_insert_eq. split; [done|]. by apply seg_insert.
    + intros z Hz. cbn. apply lookup_insert_ne. intros ->. apply Hz. by left.
Qed.

(** A node outside of the list is written. *)
Lemma gap_outside s l1 l2 n p x v :
  gap s l1 l2 n p → x ∉ l1 ++ l2 → gap (ListMem (lhead s) (<[x := v]> (lmem s))) l1 l2 n p.
Proof.
  rewrite not_elem_of_app. intros (H1 & H2 & H3 & H4 & H5) [Hx1 Hx2].
  split; [by apply seg_insert|]. split; [done|]. split; [by apply seg_insert|done].
Qed.

(** ** Insertion and removal *)

(** What an insertion needs: a node in memory that is not in the list. *)
Definition new_node s l (x : positive) : Prop := (x ∉ l) ∧ is_Some (lmem s !! x).

(** The end of an insertion: the node carries its links, the gap leads to it. *)
Lemma inserted s l1 l2 x s0 :
  gap s l1 l2 (Some x) (Some x) → lmem s !! x = Some (Lnode (last_or None l1) (first_or None l2)) → x ∉ l1 ++ l2 →
  only (x :: l1 ++ l2) s0 s → holds s (l1 ++ x :: l2) ∧ only (x :: l1 ++ l2) s0 s.
Proof. intros. split; [by apply holds_mid|done]. Qed.

(** The two writes to the new node. *)
Lemma wp_set_links x a b (m : M list_mem unit) (Q : unit → list_mem → Prop) s l1 l2 n p :
  gap s l1 l2 n p → new_node s (l1 ++ l2) x →
  (∀ s', gap s' l1 l2 n p → lmem s' !! x = Some (Lnode a b) → only [x] s s' → wp m Q s') →
  wp (set_prev x a;; set_next x b;; m) Q s.
Proof.
  intros Hg [Hx [v Hv]] HQ. apply wp_bind. eapply wp_lnode_set; [exact Hv|]. apply wp_bind.
  eapply wp_lnode_set; [apply lookup_insert_eq|]. cbn. rewrite insert_insert_eq. apply HQ.
  - by apply gap_outside.
  - apply lookup_insert_eq.
  - intros y Hy. cbn. apply lookup_insert_ne. intros ->. apply Hy. by left.
Qed.

Lemma only_in l l' s s' : only l s s' → (∀ x, x ∈ l → x ∈ l') → only l' s s'.
Proof. intros H Hl. by eapply only_mono. Qed.

Lemma ogs_list_add_ok s l x :
  holds s l → new_node s l x →
  wp (ogs_list_add x) (λ _ s', holds s' (l ++ [x]) ∧ only (x :: l) s s') s.
Proof.
  intros Hh Hx. rewrite <- (app_nil_r l) in Hh, Hx. pose proof (proj1 (holds_gap _ _ _) Hh) as Hg. unfold ogs_list_add, ogs_list_last.
  apply wp_bind, wp_gets. replace (lprev (lhead s)) with (last_or None l) by by rewrite (proj1 (proj2 (proj2 (proj2 Hg)))).
  eapply wp_set_links; [done|done|]. intros s1 Hg1 Hx1 Ho1. apply wp_bind.
  eapply wp_next_or_list; [done|]. intros s2 Hg2 Ho2.
  change (list_set_prev (Some x)) with (prev_or_list (first_or None []) (Some x)).
  eapply wp_prev_or_list; [done|]. intros s3 Hg3 Ho3. rewrite <- (app_nil_r l) at 2. destruct Hx as [Hx _].
  apply inserted; [done| |done|].
  - rewrite Ho3, Ho2; [done| |]; set_solver.
  - eapply only_trans; [eapply only_in; [done|set_solver]|]. eapply only_trans; eapply only_in; try done; set_solver.
Qed.

Lemma ogs_list_prepend_ok s l x :
  holds s l → new_node s l x →
  wp (ogs_list_prepend x) (λ _ s', holds s' (x :: l) ∧ only (x :: l) s s') s.
Proof.
  intros Hh Hx. pose proof (proj1 (holds_gap s [] l) Hh) as Hg. unfold ogs_list_prepend, ogs_list_first.
  destruct Hx as [Hx [v Hv]]. apply wp_bind. eapply wp_lnode_set; [exact Hv|]. apply wp_bind, wp_gets. cbn [lhead].
  replace (lnext (lhead s)) with (first_or None l) by by rewrite (proj1 (proj2 Hg)).
  apply wp_bind. eapply wp_lnode_set; [apply lookup_insert_eq|]. cbn [lprev lnext lmem lhead]. rewrite insert_insert_eq.
  apply (gap_outside _ _ _ _ _ x (Lnode None (first_or None l))) in Hg; [|done]. apply wp_bind.
  eapply (wp_prev_or_list []); [done|]. intros s2 Hg2 Ho2.
  change (list_set_next (Some x)) with (next_or_list (last_or None []) (Some x)).
  eapply wp_next_or_list; [done|]. intros s3 Hg3 Ho3. apply (inserted s3 [] l x); [done| |done|].
  - rewrite Ho3, Ho2 by set_solver. apply lookup_insert_eq.
  - eapply only_trans; [|eapply only_in; [exact Ho3|set_solver]].
    eapply only_trans; [|eapply only_in; [exact Ho2|set_solver]].
    intros y Hy. cbn. apply lookup_insert_ne. intros ->. apply Hy. by left.
Qed.

Lemma ogs_list_remove_ok s l1 x l2 :
  holds s (l1 ++ x :: l2) →
  wp (ogs_list_remove x) (λ _ s', holds s' (l1 ++ l2) ∧ only (l1 ++ l2) s s') s.
Proof.
  intros (Hg & Hx & Hn)%holds_mid. unfold ogs_list_remove.
  apply wp_bind. eapply wp_prev; [done|]. apply wp_bind. eapply wp_next; [done|]. cbn [lprev lnext].
  apply wp_bind. eapply wp_next_or_list; [done|]. intros s1 Hg1 Ho1.
  eapply wp_prev_or_list; [done|]. intros s2 Hg2 Ho2. split; [by apply holds_gap|].
  eapply only_trans; eapply only_in; try done; set_solver.
Qed.

Lemma ogs_list_insert_prev_ok s l1 y l2 x :
  holds s (l1 ++ y :: l2) → new_node s (l1 ++ y :: l2) x →
  wp (ogs_list_insert_prev y x) (λ _ s', holds s' (l1 ++ x :: y :: l2) ∧ only (x :: l1 ++ y :: l2) s s') s.
Proof.
  intros Hh Hx. pose proof (proj1 (holds_mid _ _ _ _) Hh) as (_ & Hy & _). unfold ogs_list_insert_prev.
  pose proof (proj1 (holds_gap _ _ _) Hh) as Hg.
  apply wp_bind. eapply wp_prev; [done|]. cbn [lprev]. eapply wp_set_links; [done|done|]. intros s1 Hg1 Hx1 Ho1.
  destruct Hx as [Hx _]. assert (Hne : y ≠ x) by set_solver.
  apply wp_bind. eapply wp_prev; [rewrite Ho1 by set_solver; done|]. cbn [lprev].
  apply wp_bind. eapply wp_next_or_list; [done|]. intros s2 Hg2 Ho2.
  change (set_prev y (Some x)) with (prev_or_list (first_or None (y :: l2)) (Some x)).
  eapply wp_prev_or_list; [done|]. intros s3 Hg3 Ho3. apply inserted; [done| |done|].
  - rewrite Ho3, Ho2 by set_solver. done.
  - eapply only_trans; [eapply only_in; [done|set_solver]|]. eapply only_trans; eapply only_in; try done; set_solver.
Qed.

Lemma ogs_list_insert_next_ok s l1 y l2 x :
  holds s (l1 ++ y :: l2) → new_node s (l1 ++ y :: l2) x →
  wp (ogs_list_insert_next y x) (λ _ s', holds s' (l1 ++ y :: x :: l2) ∧ only (x :: l1 ++ y :: l2) s s') s.
Proof.
  intros Hh Hx. pose proof (proj1 (holds_mid _ _ _ _) Hh) as (_ & Hy & _). unfold ogs_list_insert_next.
  replace (l1 ++ y :: l2) with ((l1 ++ [y]) ++ l2) in * by by rewrite <- app_assoc.
  replace (l1 ++ y :: x :: l2) with ((l1 ++ [y]) ++ x :: l2) by by rewrite <- app_assoc.
  pose proof (proj1 (holds_gap _ _ _) Hh) as Hg. rewrite last_or_snoc in Hg.
  destruct Hx as [Hx [v Hv]]. assert (Hne : y ≠ x) by set_solver.
  apply wp_bind. eapply wp_lnode_set; [exact Hv|]. apply wp_bind. eapply wp_next; [cbn; by rewrite lookup_insert_ne|]. cbn [lnext].
  apply wp_bind. eapply wp_lnode_set; [apply lookup_insert_eq|]. cbn [lprev lnext lmem lhead]. rewrite insert_insert_eq.
  apply (gap_outside _ _ _ _ _ x (Lnode (Some y) (first_or None l2))) in Hg; [|done].
  apply wp_bind. eapply wp_next; [cbn; by rewrite lookup_insert_ne|]. cbn [lnext].
  apply wp_bind. eapply wp_prev_or_list; [done|]. intros s2 Hg2 Ho2.
  replace (set_next y (Some x)) with (next_or_list (last_or None (l1 ++ [y])) (Some x)) by by rewrite last_or_snoc.
  eapply wp_next_or_list; [done|]. intros s3 Hg3 Ho3. apply inserted; [done| |done|].
  - rewrite Ho3, Ho2, last_or_snoc by set_solver. apply lookup_insert_eq.
  - eapply only_trans; [|eapply only_in; [exact Ho3|set_solver]].
    eapply only_trans; [|eapply only_in; [exact Ho2|set_solver]].
    intros z Hz. cbn. apply lookup_insert_ne. intros ->. apply Hz. by left.
Qed.

(** ** Iteration *)

Lemma holds_fuel s l : holds s l → (length l ≤ size (lmem s))%nat.
Proof.
  intros (Hs & _ & _ & Hn). rewrite <- (size_list_to_set (C := gset positive) l Hn), <- size_dom.
  apply subseteq_size. intros x Hx%elem_of_list_to_set. apply elem_of_dom. by eapply seg_in.
Qed.

Section iteration.
Context {A : Type} (body : positive → A → M list_mem (A * bool)).

(** A loop whose body leaves the list as it is, unless it breaks. *)
Lemma wp_for_each l s a (I : list positive → A → Prop) (Q : A * option positive → list_mem → Prop) :
  holds s l → I [] a →
  (∀ l1 x l2 a, l = l1 ++ x :: l2 → I l1 a →
    wp (body x a) (λ r s', if snd r then Q (fst r, Some x) s' else s' = s ∧ I (l1 ++ [x]) (fst r)) s) →
  (∀ a, I l a → Q (a, None) s) →
  wp (ogs_list_for_each body a) Q s.
Proof.
  intros Hh Ha Hb HQ. unfold ogs_list_for_each, ogs_list_first. apply wp_bind. unfold m_get. eapply wp_eq; [done|].
  apply wp_bind, wp_gets. rewrite (proj1 (proj2 Hh)).
  assert (Hgen : ∀ l2 l1 a fuel, l = l1 ++ l2 → I l1 a → (length l2 < fuel)%nat →
    wp (for_each_from body fuel (first_or None l2) a) Q s).
  { induction l2 as [|x l2 IH]; intros l1 b fuel E Hb' Hf.
    - rewrite app_nil_r in E. subst l1. destruct fuel; apply wp_ret, HQ, Hb'.
    - destruct fuel as [|fuel]; [cbn in Hf; lia|]. cbn [first_or for_each_from]. apply wp_bind.
      eapply wp_mono; [by eapply Hb|]. cbn beta. intros [b' brk] s' H. cbn [fst snd] in *. destruct brk; [by apply wp_ret|].
      destruct H as [-> H]. rewrite E in Hh. apply holds_mid in Hh as (_ & Hx & _).
      apply wp_bind. eapply wp_next; [done|]. cbn [lnext]. eapply (IH (l1 ++ [x])); [by rewrite <- app_assoc|done|cbn in Hf; lia]. }
  apply (Hgen l []); [done|done|]. unfold list_fuel. pose proof (holds_fuel _ _ Hh). lia.
Qed.

Lemma wp_reverse_for_each l s a (I : list positive → A → Prop) (Q : A * option positive → list_mem → Prop) :
  holds s l → I [] a →
  (∀ l1 x l2 a, l = l1 ++ x :: l2 → I l2 a →
    wp (body x a) (λ r s', if snd r then Q (fst r, Some x) s' else s' = s ∧ I (x :: l2) (fst r)) s) →
  (∀ a, I l a → Q (a, None) s) →
  wp (ogs_list_reverse_for_each body a) Q s.
Proof.
  intros Hh Ha Hb HQ. unfold ogs_list_reverse_for_each, ogs_list_last. apply wp_bind. unfold m_get. eapply wp_eq; [done|].
  apply wp_bind, wp_gets. rewrite (proj1 (proj2 (proj2 Hh))).
  assert (Hgen : ∀ l1 l2 a fuel, l = l1 ++ l2 → I l2 a → (length l1 < fuel)%nat →
    wp (reverse_for_each_from body fuel (last_or None l1) a) Q s).
  { induction l1 as [|x l1 IH] using rev_ind; intros l2 b fuel E Hb' Hf.
    - cbn in E; subst l2. destruct fuel; apply wp_ret, HQ, Hb'.
    - rewrite length_app in Hf. destruct fuel as [|fuel]; [cbn in Hf; lia|]. rewrite last_or_snoc. cbn [reverse_for_each_from].
      rewrite <- app_assoc in E. apply wp_bind.
      eapply wp_mono; [by eapply Hb|]. cbn beta. intros [b' brk] s' H. cbn [fst snd] in *. destruct brk; [by apply wp_ret|].
      destruct H as [-> H]. rewrite E in Hh. apply holds_mid in Hh as (_ & Hx & _).
      apply wp_bind. eapply wp_prev; [done|]. cbn [lprev]. eapply (IH (x :: l2)); [done|done|cbn in Hf; lia]. }
  eapply (Hgen l []); [by rewrite app_nil_r|done|]. unfold list_fuel. pose proof (holds_fuel _ _ Hh). lia.
Qed.

(** A loop whose body may remove the current node: [J] holds of the nodes that
    are left. *)
Lemma wp_for_each_safe l s a (J : list positive → A → list_mem → Prop) (Q : A * option positive → list_mem → Prop) :
  holds s l → J l a s →
  (∀ x l2 a s, J (x :: l2) a s → ∃ v, lmem s !! x = Some v ∧ lnext v = first_or None l2 ∧
    wp (body x a) (λ r s', if snd r then Q (fst r, Some x) s' else J l2 (fst r) s') s) →
  (∀ a s, J [] a s → Q (a, None) s) →
  wp (ogs_list_for_each_safe body a) Q s.
Proof.
  intros Hh Ha Hb HQ. unfold ogs_list_for_each_safe, ogs_list_first. apply wp_bind. unfold m_get. eapply wp_eq; [done|].
  apply wp_bind, wp_gets. rewrite (proj1 (proj2 Hh)). pose proof (holds_fuel _ _ Hh) as Hf. unfold list_fuel.
  assert (Hf' : (length l < S (size (lmem s)))%nat) by lia. clear Hf Hh. revert Hf'. generalize (S (size (lmem s))) as fuel.
  revert a s Ha. induction l as [|x l IH]; intros a s Ha fuel Hf.
  - destruct fuel; apply wp_ret, HQ, Ha.
  - destruct fuel as [|fuel]; [cbn in Hf; lia|]. cbn [first_or for_each_safe_from].
    destruct (Hb x l a s Ha) as (v & Hv & Hn & Hwp). apply wp_bind. eapply wp_next; [done|]. rewrite Hn.
    apply wp_bind. eapply wp_mono; [exact Hwp|]. cbn beta. intros [b brk] s' H. cbn [fst snd] in *.
    destruct brk; [by apply wp_ret|]. apply IH; [done|]. cbn in Hf. lia.
Qed.
End iteration.

(** ** What is built on iteration *)

Fixpoint sorted_insert (compare : positive → positive → Z) (x : positive) l : list positive :=
  match l with
  | [] => [x]
  | y :: l => if compare x y <? 0 then x :: y :: l else y :: sorted_insert compare x l
  end.

Lemma sorted_insert_skip compare x l1 l2 :
  (∀ y, y ∈ l1 → (compare x y <? 0) = false) → sorted_insert compare x (l1 ++ l2) = l1 ++ sorted_insert compare x l2.
Proof.
  induction l1 as [|y l1 IH]; intros H; [done|]. cbn. rewrite H by (by left). f_equal. apply IH. intros. apply H. by right.
Qed.

(** Insertion keeps a sorted list sorted, for a comparison that is total and
    transitive; equal elements stay in the order of their insertion. *)
Lemma sorted_insert_sorted compare x l :
  (∀ a b, compare a b < 0 → 0 ≤ compare b a) →
  (∀ a b c, compare a b < 0 → 0 ≤ compare c b → compare a c < 0) →
  StronglySorted (λ a b, 0 ≤ compare b a) l → StronglySorted (λ a b, 0 ≤ compare b a) (sorted_insert compare x l).
Proof.
  intros Hanti Htr Hs. induction Hs as [|y l Hs IH Hy]; cbn; [repeat constructor|].
  destruct (compare x y <? 0) eqn:E.
  - constructor; [by constructor|]. constructor; [apply Hanti; lia|].
    eapply Forall_impl; [exact Hy|]. cbn. intros z Hz. apply Hanti. eapply Htr; [|exact Hz]. lia.
  - constructor; [done|]. clear IH Hs. induction l as [|z l IH]; cbn; [repeat constructor; lia|].
    apply Forall_cons in Hy as [Hz Hy]. destruct (compare x z <? 0); repeat constructor; try done; [lia|auto].
Qed.

Lemma ogs_list_insert_sorted_ok compare s l x :
  holds s l → new_node s l x →
  wp (ogs_list_insert_sorted compare x) (λ _ s', holds s' (sorted_insert compare x l) ∧ only (x :: l) s s') s.
Proof.
  intros Hh Hx. unfold ogs_list_insert_sorted. apply wp_bind.
  eapply (wp_for_each _ l s tt (λ l1 _, ∀ y, y ∈ l1 → (compare x y <? 0) = false)); [done|by intros ? ?%elem_of_nil| |].
  - intros l1 y l2 [] E H1. destruct (compare x y <? 0) eqn:Ec.
    + apply wp_bind. rewrite E in Hh, Hx. eapply wp_mono; [by apply ogs_list_insert_prev_ok|]. cbn beta. intros _ s' [Hh' Ho].
      apply wp_ret, wp_ret. rewrite E, sorted_insert_skip by done. cbn. by rewrite Ec.
    + apply wp_ret. split; [done|]. cbn [fst]. intros z [Hz|Hz%list_elem_of_singleton]%elem_of_app; [auto|by subst].
  - intros [] H1. cbn [snd]. rewrite <- (app_nil_r l), sorted_insert_skip, app_nil_r by done. cbn. by apply ogs_list_add_ok.
Qed.

Lemma ogs_list_count_ok s l : holds s l → wp ogs_list_count (λ r s', r = zlen l ∧ (s' = s)) s.
Proof.
  intros Hh. unfold ogs_list_count. apply wp_bind.
  eapply (wp_for_each _ l s 0 (λ l1 i, i = zlen l1)); [done|done| |].
  - intros l1 x l2 i E ->. apply wp_ret. split; [done|]. cbn. rewrite zlen_app. done.
  - intros i ->. by apply wp_ret.
Qed.

Lemma ogs_list_exists_ok s l x : holds s l → wp (ogs_list_exists x) (λ r s', r = bool_decide (x ∈ l) ∧ s' = s) s.
Proof.
  intros Hh. unfold ogs_list_exists. apply wp_bind.
  eapply (wp_for_each _ l s false (λ l1 b, b = false ∧ (x ∉ l1))); [done|split; [done|apply not_elem_of_nil]| |].
  - intros l1 y l2 b E [-> Hx]. destruct (Pos.eqb_spec x y) as [->|Hne]; apply wp_ret; cbn.
    + apply wp_ret. split; [|done]. rewrite E. symmetry. apply bool_decide_eq_true. in_list.
    + split; [done|]. split; [done|]. apply not_elem_of_app. split; [done|]. by rewrite list_elem_of_singleton.
  - intros b [-> Hx]. apply wp_ret. split; [|done]. symmetry. by apply bool_decide_eq_false.
Qed.

Lemma only_dom l s s' :
  only l s s' → (∀ x, x ∈ l → is_Some (lmem s !! x) ∧ is_Some (lmem s' !! x)) → dom (lmem s') = dom (lmem s).
Proof.
  intros Ho Hl. apply set_eq. intros y. rewrite !elem_of_dom. destruct (decide (y ∈ l)) as [Hy|Hy].
  - split; intros _; by apply Hl.
  - by rewrite Ho.
Qed.

Lemma holds_alloc s l x : holds s l → x ∈ l → is_Some (lmem s !! x).
Proof. intros [Hs _]. by eapply seg_in. Qed.

Lemma remove_all_ok free s l :
  holds s l →
  wp (remove_all free) (λ _ s', holds s' [] ∧ only l s s' ∧
    dom (lmem s') = if free then dom (lmem s) ∖ list_to_set l else dom (lmem s)) s.
Proof.
  intros Hh. unfold remove_all. apply wp_bind.
  eapply (wp_for_each_safe _ l s tt (λ rest _ s', ∃ l1, l = l1 ++ rest ∧ holds s' rest ∧ only l s s' ∧
    dom (lmem s') = if free then dom (lmem s) ∖ list_to_set l1 else dom (lmem s))); [done| | |].
  - exists []. split_and!; [done|done|done|]. destruct free; [set_solver|done].
  - intros x l2 [] s1 (l1 & E & Hh1 & Ho1 & Hd1). pose proof (proj1 (holds_mid s1 [] x l2) Hh1) as (_ & Hx & Hn).
    exists (Lnode None (first_or None l2)). split; [exact Hx|]. split; [done|].
    apply wp_bind. eapply wp_mono; [by apply (ogs_list_remove_ok s1 [] x l2)|]. cbn beta. intros _ s2 [Hh2 Ho2]. cbn [app] in *.
    assert (Hd2 : dom (lmem s2) = dom (lmem s1)).
    { eapply only_dom; [done|]. intros y Hy. split; [eapply holds_alloc; [exact Hh1|by right]|by eapply holds_alloc]. }
    assert (Ho : only l s s2) by (eapply only_trans; [done|eapply only_in; [done|]]; set_solver).
    destruct free; cbn [m_when].
    + apply wp_bind, wp_modify, wp_ret. exists (l1 ++ [x]). rewrite <- app_assoc. split; [done|]. cbn [lmem lhead].
      destruct Hh2 as (H1 & H2 & H3 & H4). split; [split; [by apply seg_delete|done]|]. split.
      * intros y Hy. cbn. rewrite lookup_delete_ne by set_solver. by apply Ho.
      * rewrite dom_delete_L, Hd2, Hd1, list_to_set_app_L. set_solver.
    + apply wp_bind, wp_ret, wp_ret. exists (l1 ++ [x]). rewrite <- app_assoc. split_and!; try done. by rewrite Hd2.
  - intros [] s' (l1 & E & Hh' & Ho & Hd). apply wp_ret. rewrite app_nil_r in E. by subst l1.
Qed.

(** ** Sequences of operations *)

Inductive list_op :=
  | Init | Forward | Backward | First | Last | Next (x : positive) | Prev (x : positive) | Empty | Count | Exists (x : positive)
  | Prepend (x : positive) | Add (x : positive) | Remove (x : positive)
  | InsertPrev (y x : positive) | InsertNext (y x : positive) | InsertSorted (x : positive) | RemoveAll (free : bool).
Inductive list_val := Unit | Ptr (p : option positive) | Truth (b : bool) | Number (i : Z) | Nodes (l : list positive).

Section ops.
Variable compare : positive → positive → Z.

Definition run_list_op (o : list_op) : M list_mem list_val :=
  match o with
  | Init => ogs_list_init;; mret Unit
  | Forward => r ← ogs_list_for_each (λ x a, mret (a ++ [x], false)) []; mret (Nodes (fst r))
  | Backward => r ← ogs_list_reverse_for_each (λ x a, mret (a ++ [x], false)) []; mret (Nodes (fst r))
  | First => p ← ogs_list_first; mret (Ptr p)
  | Last => p ← ogs_list_last; mret (Ptr p)
  | Next x => p ← ogs_list_next x; mret (Ptr p)
  | Prev x => p ← ogs_list_prev x; mret (Ptr p)
  | Empty => b ← ogs_list_empty; mret (Truth b)
  | Count => i ← ogs_list_count; mret (Number i)
  | Exists x => b ← ogs_list_exists x; mret (Truth b)
  | Prepend x => ogs_list_prepend x;; mret Unit
  | Add x => ogs_list_add x;; mret Unit
  | Remove x => ogs_list_remove x;; mret Unit
  | InsertPrev y x => ogs_list_insert_prev y x;; mret Unit
  | InsertNext y x => ogs_list_insert_next y x;; mret Unit
  | InsertSorted x => ogs_list_insert_sorted compare x;; mret Unit
  | RemoveAll free => remove_all free;; mret Unit
  end.

(** The same on sequences. *)
Fixpoint insert_before (y x : positive) l : list positive :=
  match l with [] => [] | z :: l => if decide (z = y) then x :: z :: l else z :: insert_before y x l end.
Fixpoint insert_after (y x : positive) l : list positive :=
  match l with [] => [] | z :: l => if decide (z = y) then z :: x :: l else z :: insert_after y x l end.
Fixpoint next_of (x : positive) l : option positive :=
  match l with [] => None | z :: l => if decide (z = x) then head l else next_of x l end.

Definition spec_list_op (o : list_op) l : list_val * list positive :=
  match o with
  | Init => (Unit, [])
  | Forward => (Nodes l, l)
  | Backward => (Nodes (rev l), l)
  | First => (Ptr (head l), l)
  | Last => (Ptr (last l), l)
  | Next x => (Ptr (next_of x l), l)
  | Prev x => (Ptr (next_of x (rev l)), l)
  | Empty => (Truth (bool_decide (l = [])), l)
  | Count => (Number (zlen l), l)
  | Exists x => (Truth (bool_decide (x ∈ l)), l)
  | Prepend x => (Unit, x :: l)
  | Add x => (Unit, l ++ [x])
  | Remove x => (Unit, filter (.≠ x) l)
  | InsertPrev y x => (Unit, insert_before y x l)
  | InsertNext y x => (Unit, insert_after y x l)
  | InsertSorted x => (Unit, sorted_insert compare x l)
  | RemoveAll _ => (Unit, [])
  end.

(** What callers owe, [D] being the nodes they may use: a node is inserted
    once, and only nodes of the list are named as such. *)
Definition allowed_op (o : list_op) (D : gset positive) l : Prop :=
  match o with
  | Prepend x | Add x | InsertSorted x => x ∈ D ∧ (x ∉ l)
  | InsertPrev y x | InsertNext y x => x ∈ D ∧ (x ∉ l) ∧ y ∈ l
  | Remove x | Next x | Prev x => x ∈ l
  | _ => True
  end.
Definition usable (o : list_op) (D : gset positive) l : gset positive :=
  match o with RemoveAll true => D ∖ list_to_set l | _ => D end.

Lemma first_or_head l : first_or None l = head l.
Proof. by destruct l. Qed.
Lemma last_or_last l : last_or None l = last l.
Proof. induction l as [|x l _] using rev_ind; [done|]. by rewrite last_or_snoc, last_snoc. Qed.
Lemma split_at x l : x ∈ l → NoDup l → ∃ l1 l2, l = l1 ++ x :: l2 ∧ (x ∉ l1) ∧ (x ∉ l2).
Proof.
  intros (l1 & l2 & ->)%list_elem_of_split Hn. exists l1, l2. apply NoDup_app in Hn as (_ & Hd & [? _]%NoDup_cons).
  split_and!; [done| |done]. intros Hx. apply (Hd x Hx). by left.
Qed.
Lemma insert_before_split y x l1 l2 : y ∉ l1 → insert_before y x (l1 ++ y :: l2) = l1 ++ x :: y :: l2.
Proof.
  induction l1 as [|z l1 IH]; cbn; [by rewrite decide_True|]. intros [? ?]%not_elem_of_cons.
  rewrite decide_False by congruence. by rewrite IH.
Qed.
Lemma insert_after_split y x l1 l2 : y ∉ l1 → insert_after y x (l1 ++ y :: l2) = l1 ++ y :: x :: l2.
Proof.
  induction l1 as [|z l1 IH]; cbn; [by rewrite decide_True|]. intros [? ?]%not_elem_of_cons.
  rewrite decide_False by congruence. by rewrite IH.
Qed.
Lemma next_of_split x l1 l2 : x ∉ l1 → next_of x (l1 ++ x :: l2) = head l2.
Proof.
  induction l1 as [|z l1 IH]; cbn; [by rewrite decide_True|]. intros [? ?]%not_elem_of_cons.
  rewrite decide_False by congruence. by rewrite IH.
Qed.
Lemma filter_split x l1 l2 : x ∉ l1 → x ∉ l2 → filter (.≠ x) (l1 ++ x :: l2) = l1 ++ l2.
Proof.
  intros H1 H2. rewrite filter_app, filter_cons_False by naive_solver.
  assert (Hf : ∀ k : list positive, x ∉ k → filter (.≠ x) k = k).
  { induction k as [|z k IH]; [done|]. intros [? ?]%not_elem_of_cons. rewrite filter_cons_True by congruence. by rewrite IH. }
  by rewrite !Hf.
Qed.

(** What one operation does. *)
Definition op_done (o : list_op) (D : gset positive) l s (v : list_val) s' : Prop :=
  let l' := (spec_list_op o l).2 in
  v = (spec_list_op o l).1 ∧ holds s' l' ∧ only (l ++ elements D) s s' ∧ usable o D l ⊆ dom (lmem s') ∧
  (∀ x, x ∈ l' → x ∈ l ∨ x ∈ D).

Lemma op_read o D l s v : D ⊆ dom (lmem s) → holds s l → spec_list_op o l = (v, l) → usable o D l = D → op_done o D l s v s.
Proof. intros HD Hh E Eu. unfold op_done. rewrite E, Eu. split_and!; try done. auto. Qed.

Lemma op_insert o D l s l' x (m : M list_mem unit) :
  D ⊆ dom (lmem s) → holds s l → x ∈ D → usable o D l = D → spec_list_op o l = (Unit, l') → (∀ y, y ∈ l' ↔ y ∈ x :: l) →
  wp m (λ _ s', holds s' l' ∧ only (x :: l) s s') s → wp (m;; mret Unit) (op_done o D l s) s.
Proof.
  intros HD Hh Hx Hu Hs Hin Hwp. apply wp_bind. eapply wp_mono; [exact Hwp|]. cbn beta. intros _ s' [Hh' Ho]. apply wp_ret.
  unfold op_done. rewrite Hs, Hu. cbn [fst snd]. split_and!; [done|done| | |].
  - eapply only_in; [done|]. set_solver.
  - rewrite (only_dom (x :: l) s s'); [done|done|]. intros y Hy. split; [|eapply holds_alloc; [exact Hh'|by apply Hin]].
    apply elem_of_cons in Hy as [->|Hy]; [apply elem_of_dom; set_solver|by eapply holds_alloc].
  - intros y Hy%Hin. set_solver.
Qed.

Lemma new_in_D (D : gset positive) s l x : D ⊆ dom (lmem s) → x ∈ D → x ∉ l → new_node s l x.
Proof. intros HD Hx Hn. split; [done|]. apply elem_of_dom. set_solver. Qed.

Lemma sorted_insert_elem x l y : y ∈ sorted_insert compare x l ↔ y ∈ x :: l.
Proof. induction l as [|z l IH]; cbn; [done|]. case_match; [done|]. rewrite !elem_of_cons, IH, elem_of_cons. tauto. Qed.

Lemma run_list_op_ok o D s l :
  holds s l → D ⊆ dom (lmem s) → allowed_op o D l → wp (run_list_op o) (op_done o D l s) s.
Proof.
  intros Hh HD Ha. pose proof Hh as (_ & Hfirst & Hlast & Hnd). rewrite first_or_head in Hfirst. rewrite last_or_last in Hlast.
  destruct o; cbn [run_list_op allowed_op] in *.
  - apply wp_bind. apply wp_bind, wp_modify, wp_modify, wp_ret. unfold op_done. cbn. split_and!; try done; [split_and!; [done|done|done|constructor]|]. by intros ? ?%elem_of_nil.
  - apply wp_bind. eapply (wp_for_each _ l s [] (λ l1 a, a = l1)); [done|done|intros l1 x l2 a _ ->; by apply wp_ret|].
    intros a ->. apply wp_ret. by apply op_read.
  - apply wp_bind. eapply (wp_reverse_for_each _ l s [] (λ l2 a, a = rev l2)); [done|done|intros l1 x l2 a _ ->; by apply wp_ret|].
    intros a ->. apply wp_ret. by apply op_read.
  - apply wp_bind, wp_gets, wp_ret. rewrite Hfirst. by apply op_read.
  - apply wp_bind, wp_gets, wp_ret. rewrite Hlast. by apply op_read.
  - destruct (split_at _ _ Ha Hnd) as (l1 & l2 & -> & H1 & H2). pose proof (proj1 (holds_mid _ _ _ _) Hh) as (_ & Hx & _).
    apply wp_bind. eapply wp_next; [done|]. apply wp_ret. apply op_read; [done..| |done]. cbn. by rewrite next_of_split, first_or_head.
  - destruct (split_at _ _ Ha Hnd) as (l1 & l2 & -> & H1 & H2). pose proof (proj1 (holds_mid _ _ _ _) Hh) as (_ & Hx & _).
    apply wp_bind. eapply wp_prev; [done|]. apply wp_ret. apply op_read; [done..| |done]. cbn.
    rewrite rev_app_distr. cbn [rev]. rewrite <- app_assoc. cbn [app].
    rewrite next_of_split by (by rewrite list_elem_of_In, <- in_rev, <- list_elem_of_In).
    cbn. f_equal. f_equal. rewrite last_or_last, <- head_reverse. unfold reverse. by rewrite rev_append_rev, app_nil_r.
  - apply wp_bind, wp_bind, wp_gets, wp_ret, wp_ret. rewrite Hfirst. apply op_read; [done..| |done]. cbn. by destruct l.
  - apply wp_bind. eapply wp_mono; [by apply ogs_list_count_ok|]. cbn beta. intros r s' [-> ->]. apply wp_ret. by apply op_read.
  - apply wp_bind. eapply wp_mono; [by apply ogs_list_exists_ok|]. cbn beta. intros r s' [-> ->]. apply wp_ret. by apply op_read.
  - destruct Ha as [Hx Hn]. eapply op_insert; [done..| |apply ogs_list_prepend_ok; [done|by eapply new_in_D]]. done.
  - destruct Ha as [Hx Hn]. eapply op_insert; [done..| |apply ogs_list_add_ok; [done|by eapply new_in_D]]. set_solver.
  - destruct (split_at _ _ Ha Hnd) as (l1 & l2 & -> & H1 & H2). apply wp_bind.
    eapply wp_mono; [by apply ogs_list_remove_ok|]. cbn beta. intros _ s' [Hh' Ho]. apply wp_ret.
    unfold op_done. cbn. rewrite filter_split by done. split_and!; [done|done|eapply only_in; [done|]; set_solver| |set_solver].
    rewrite (only_dom (l1 ++ l2) s s'); [done|done|]. intros y Hy. split; eapply holds_alloc; try done. set_solver.
  - destruct Ha as (Hx & Hn & Hy). destruct (split_at _ _ Hy Hnd) as (l1 & l2 & -> & H1 & H2).
    eapply (op_insert _ _ _ _ (l1 ++ x :: y :: l2) x); [done..| | |apply ogs_list_insert_prev_ok; [done|by eapply new_in_D]].
    + cbn. by rewrite insert_before_split.
    + set_solver.
  - destruct Ha as (Hx & Hn & Hy). destruct (split_at _ _ Hy Hnd) as (l1 & l2 & -> & H1 & H2).
    eapply (op_insert _ _ _ _ (l1 ++ y :: x :: l2) x); [done..| | |apply ogs_list_insert_next_ok; [done|by eapply new_in_D]].
    + cbn. by rewrite insert_after_split.
    + set_solver.
  - destruct Ha as [Hx Hn]. eapply op_insert; [done..|apply sorted_insert_elem|apply ogs_list_insert_sorted_ok; [done|by eapply new_in_D]].
  - apply wp_bind. eapply wp_mono; [by apply remove_all_ok|]. cbn beta. intros _ s' (Hh' & Ho & Hd). apply wp_ret.
    unfold op_done. cbn. split_and!; [done|done|eapply only_in; [done|]; set_solver| |by intros ? ?%elem_of_nil].
    rewrite Hd. destruct free; set_solver.
Qed.

Fixpoint run_list_ops (os : list list_op) : M list_mem (list list_val) :=
  match os with [] => mret [] | o :: os => v ← run_list_op o; vs ← run_list_ops os; mret (v :: vs) end.
Fixpoint spec_list_ops (os : list list_op) l : list list_val * list positive :=
  match os with
  | [] => ([], l)
  | o :: os => let r := spec_list_op o l in let rs := spec_list_ops os r.2 in (r.1 :: rs.1, rs.2)
  end.
Fixpoint allowed_ops (os : list list_op) (D : gset positive) l : Prop :=
  match os with
  | [] => True
  | o :: os => allowed_op o D l ∧ allowed_ops os (usable o D l) (spec_list_op o l).2
  end.

(** C24: a list behaves as a sequence of its nodes: any sequence of the
    operations of ogs-list.h, with nodes used as they must be, returns what
    the sequence returns and leaves a well-linked list that holds it - sorted
    insertion, the counting loops and the loop that removes, and frees, every
    node included; no NULL or freed node is dereferenced; and another list in
    the same memory is not disturbed. *)
Theorem ogs_list_refines_sequence os D s l h k :
  holds s l → D ⊆ dom (lmem s) → allowed_ops os D l →
  holds (ListMem h (lmem s)) k → disj k l → (∀ x, x ∈ k → x ∉ D) →
  ∃ s', run_list_ops os s = Some ((spec_list_ops os l).1, s') ∧ holds s' (spec_list_ops os l).2 ∧
    holds (ListMem h (lmem s')) k.
Proof.
  revert D s l. induction os as [|o os IH]; intros D s l Hh HD Ha Hk Hkl HkD; [by exists s|]. destruct Ha as [Ha Has].
  destruct (proj1 (wp_run _ _ _) (run_list_op_ok o D s l Hh HD Ha)) as (v & s1 & E & -> & Hh1 & Ho & HD1 & Hin).
  destruct (IH _ s1 _ Hh1 HD1 Has) as (s' & E' & Hh' & Hk').
  - destruct Hk as (H1 & H2). split; [|done]. eapply seg_frame; [|exact H1]. intros x Hx. apply Ho.
    apply not_elem_of_app. split; [by apply Hkl|]. rewrite elem_of_elements. auto.
  - intros x Hx Hx'. destruct (Hin x Hx'); [by apply (Hkl x)|by apply (HkD x)].
  - intros x Hx Hx'. apply (HkD x Hx). destruct o; cbn in Hx'; try done. destruct free; [|done]. set_solver.
  - exists s'. split; [|done]. cbn [run_list_ops]. unfold mbind, M_bind. by rewrite E, E'.
Qed.
End ops.

(** Two lists in one memory. *)
Definition demo_list : list_mem :=
  ListMem (Lnode (Some 1%positive) (Some 1%positive))
    (list_to_map [(1, Lnode None None); (2, Lnode None None); (3, Lnode (Some 1) None); (4, Lnode None None)])%positive.

Lemma ogs_list_refines_sequence_witness :
  ∃ s', run_list_ops (λ a b, Z.pos a - Z.pos b) [Add 3; InsertSorted 2; Remove 1; Count; Backward; RemoveAll true; Empty]%positive demo_list =
      Some ([Unit; Unit; Unit; Number 2; Nodes [3; 2]%positive; Unit; Truth true], s') ∧
    holds s' [] ∧ holds (ListMem (Lnode (Some 4%positive) (Some 4%positive)) (lmem s')) [4]%positive.
Proof.
  apply (ogs_list_refines_sequence (λ a b, Z.pos a - Z.pos b)
    [Add 3; InsertSorted 2; Remove 1; Count; Backward; RemoveAll true; Empty]%positive {[1; 2; 3]}%positive demo_list [1]%positive
    (Lnode (Some 4%positive) (Some 4%positive)) [4]%positive).
  - split_and!; try done. repeat constructor. by intros ?%elem_of_nil.
  - apply (bool_decide_unpack _). by vm_compute.
  - repeat split; cbn; try (by apply (bool_decide_unpack _); vm_compute).
  - split_and!; try done. repeat constructor. by intros ?%elem_of_nil.
  - intros x ->%list_elem_of_singleton ?%list_elem_of_singleton. done.
  - intros x ->%list_elem_of_singleton. apply (bool_decide_unpack _). by vm_compute.
Defined.
