(* ===== verification/Queue.v ===== *)
(** * Event queue: lib/core/ogs-queue.c

    The bounded FIFO shared by the threads of a network function.  The ring
    buffer is the C structure; threads are interleaved at the granularity of
    the mutex: a step runs a whole critical section, up to its
    [ogs_thread_mutex_unlock] or its [ogs_thread_cond_wait]. *)
From S2P Require Import Prelude.

Section queue.
Context {A : Type}.

(** struct ogs_queue_s; [data] slots hold NULL until first written.  The
    unsigned counters are bounded by the capacity and the number of
    threads, so they do not wrap. *)
Record ogs_queue_t := Queue {
  data : list (option A);
  nelts : nat; in_ : nat; out : nat; bounds : nat;
  full_waiters : nat; empty_waiters : nat;
  terminated : bool }.

Definition ogs_queue_full (q : ogs_queue_t) : bool := nelts q =? bounds q.
Definition ogs_queue_empty (q : ogs_queue_t) : bool := nelts q =? 0.

Definition ogs_queue_create (capacity : nat) : ogs_queue_t :=
  Queue (replicate capacity None) 0 0 0 capacity 0 0 false.

Definition set_full_waiters (f : nat → nat) (q : ogs_queue_t) : ogs_queue_t :=
  Queue (data q) (nelts q) (in_ q) (out q) (bounds q) (f (full_waiters q))
    (empty_waiters q) (terminated q).
Definition set_empty_waiters (f : nat → nat) (q : ogs_queue_t) : ogs_queue_t :=
  Queue (data q) (nelts q) (in_ q) (out q) (bounds q) (full_waiters q)
    (f (empty_waiters q)) (terminated q).

(** [queue->in++; if (queue->in >= queue->bounds) queue->in -= queue->bounds;] *)
Definition advance (bounds i : nat) : nat :=
  if decide (bounds ≤ i + 1) then i + 1 - bounds else i + 1.

(** The end of [queue_push]: store the element; a waiting popper is
    signalled when there is one (a wake-up is a step of the waiter). *)
Definition queue_put (q : ogs_queue_t) (x : A) : ogs_queue_t :=
  Queue (<[in_ q := Some x]> (data q)) (nelts q + 1) (advance (bounds q) (in_ q)) (out q)
    (bounds q) (full_waiters q) (empty_waiters q) (terminated q).

(** The end of [queue_pop]. *)
Definition queue_take (q : ogs_queue_t) : option A * ogs_queue_t :=
  (default None (data q !! out q),
   Queue (data q) (nelts q - 1) (in_ q) (advance (bounds q) (out q))
     (bounds q) (full_waiters q) (empty_waiters q) (terminated q)).

(** Outcome of a critical section: the call returns, or the thread waits on
    the condition variable. *)
Inductive outcome :=
  | Return (rv : ogs_rv) (x : option A) (q : ogs_queue_t)
  | Wait (q : ogs_queue_t).

(** [queue_push] from the mutex to its return or to the wait. *)
Definition push_locked (q : ogs_queue_t) (x : A) (timeout : Z) : outcome :=
  if ogs_queue_full q then
    if (timeout =? 0)%Z then Return OGS_RETRY None q
    else if negb (terminated q) then Wait (set_full_waiters S q)
    else Return OGS_DONE None q
  else Return OGS_OK None (queue_put q x).

(** [queue_push] from the return [rv] of the wait on. *)
Definition push_resumed (q : ogs_queue_t) (x : A) (rv : ogs_rv) : outcome :=
  let q := set_full_waiters pred q in
  if decide (rv = OGS_OK) then
    if ogs_queue_full q then
      if terminated q then Return OGS_DONE None q else Return OGS_ERROR None q
    else Return OGS_OK None (queue_put q x)
  else Return rv None q.

Definition pop_locked (q : ogs_queue_t) (timeout : Z) : outcome :=
  if ogs_queue_empty q then
    if (timeout =? 0)%Z then Return OGS_RETRY None q
    else if negb (terminated q) then Wait (set_empty_waiters S q)
    else Return OGS_DONE None q
  else let '(x, q) := queue_take q in Return OGS_OK x q.

Definition pop_resumed (q : ogs_queue_t) (rv : ogs_rv) : outcome :=
  let q := set_empty_waiters pred q in
  if decide (rv = OGS_OK) then
    if ogs_queue_empty q then
      if terminated q then Return OGS_DONE None q else Return OGS_ERROR None q
    else let '(x, q) := queue_take q in Return OGS_OK x q
  else Return rv None q.

Definition ogs_queue_size (q : ogs_queue_t) : nat := nelts q.

Definition ogs_queue_term (q : ogs_queue_t) : ogs_queue_t :=
  Queue (data q) (nelts q) (in_ q) (out q) (bounds q) (full_waiters q)
    (empty_waiters q) true.

(** ** Threads *)

(** [timeout]: -1 for [ogs_queue_push]/[_pop] (OGS_INFINITE_TIME), 0 for
    the try variants, a duration for the timed ones. *)
Inductive op := Push (x : A) (timeout : Z) | Pop (timeout : Z).

Inductive pc :=
  | Start (o : op)      (** before the unlocked test of [terminated] *)
  | Lock (o : op)       (** about to take the mutex *)
  | Waiting (o : op)    (** in [ogs_thread_cond_wait] *)
  | Done (rv : ogs_rv) (x : option A).

Definition enter (o : op) (q : ogs_queue_t) : outcome :=
  match o with Push x t => push_locked q x t | Pop t => pop_locked q t end.
Definition resume (o : op) (q : ogs_queue_t) (rv : ogs_rv) : outcome :=
  match o with Push x _ => push_resumed q x rv | Pop _ => pop_resumed q rv end.

Definition after_outcome (o : op) (r : outcome) : pc * ogs_queue_t :=
  match r with Return rv x q => (Done rv x, q) | Wait q => (Waiting o, q) end.

(** What a step did to the content: the observable event. *)
Inductive event := Pushed (x : A) | Popped (x : option A) | Silent.

Definition event_of (o : op) (r : outcome) : event :=
  match o, r with
  | Push x _, Return OGS_OK _ _ => Pushed x
  | Pop _, Return OGS_OK x _ => Popped x
  | _, _ => Silent
  end.

Abbreviation config := (ogs_queue_t * list pc)%type.

(** One step of one thread.  Wake-ups may be spurious, by a signal, by a
    broadcast of [ogs_queue_interrupt_all] or by a time-out. *)
Inductive step : config → event → config → Prop :=
  | step_done q ts t o :
      ts !! t = Some (Start o) → terminated q = true →
      step (q, ts) Silent (q, <[t := Done OGS_DONE None]> ts)
  | step_start q ts t o :
      ts !! t = Some (Start o) → terminated q = false →
      step (q, ts) Silent (q, <[t := Lock o]> ts)
  | step_enter q ts t o :
      ts !! t = Some (Lock o) →
      step (q, ts) (event_of o (enter o q))
        (snd (after_outcome o (enter o q)), <[t := fst (after_outcome o (enter o q))]> ts)
  | step_wake q ts t o rv :
      ts !! t = Some (Waiting o) → rv = OGS_OK ∨ rv = OGS_TIMEUP ∨ rv = OGS_ERROR →
      step (q, ts) (event_of o (resume o q rv))
        (snd (after_outcome o (resume o q rv)), <[t := fst (after_outcome o (resume o q rv))]> ts)
  | step_call q ts o : step (q, ts) Silent (q, ts ++ [Start o])
  | step_term q ts : step (q, ts) Silent (ogs_queue_term q, ts).

Inductive steps : config → list event → config → Prop :=
  | steps_nil c : steps c [] c
  | steps_snoc c c1 c2 tr e : steps c tr c1 → step c1 e c2 → steps c (tr ++ [e]) c2.

(** ** The content and the invariant *)

Definition content (q : ogs_queue_t) : list (option A) := ring (data q) (out q) (nelts q).

Record queue_ok (q : ogs_queue_t) : Prop := {
  qo_len : length (data q) = bounds q;
  qo_pos : 0 < bounds q;
  qo_out : out q < bounds q;
  qo_n : nelts q ≤ bounds q;
  qo_in : in_ q = (out q + nelts q) mod bounds q }.

Lemma queue_create_ok capacity : 0 < capacity → queue_ok (ogs_queue_create capacity).
Proof. intros. split; cbn; rewrite ?length_replicate; try lia. by rewrite Nat.Div0.mod_0_l. Qed.

Lemma in_lt q : queue_ok q → in_ q < bounds q.
Proof. intros []. rewrite qo_in0. apply Nat.mod_upper_bound. lia. Qed.

Lemma advance_ring_succ n i : i < n → advance n i = ring_succ n i.
Proof. apply ring_succ_wrap. Qed.

Lemma queue_put_ok q x :
  queue_ok q → ogs_queue_full q = false →
  queue_ok (queue_put q x) ∧ content (queue_put q x) = content q ++ [Some x].
Proof.
  intros Hq Hf. pose proof (in_lt q Hq) as Hin. destruct Hq as [Hl Hp Ho Hn Hi].
  unfold ogs_queue_full in Hf. apply Nat.eqb_neq in Hf. split.
  - split; cbn; rewrite ?length_insert; try lia.
    rewrite advance_ring_succ, Hi by done. unfold ring_succ.
    rewrite Nat.Div0.add_mod_idemp_l. f_equal. lia.
  - unfold content. cbn. rewrite Hi, <- Hl, Nat.add_1_r. apply ring_snoc; lia.
Qed.

Lemma take_ok q :
  queue_ok q → ogs_queue_empty q = false →
  queue_ok (snd (queue_take q)) ∧
  content q = fst (queue_take q) :: content (snd (queue_take q)).
Proof.
  intros [Hl Hp Ho Hn Hi] Hf. unfold ogs_queue_empty in Hf. apply Nat.eqb_neq in Hf. split.
  - split; cbn; try lia; rewrite advance_ring_succ by done; unfold ring_succ.
    + apply Nat.mod_upper_bound. lia.
    + rewrite Hi, Nat.Div0.add_mod_idemp_l. f_equal. lia.
  - unfold content. cbn. destruct (nelts q) as [|n] eqn:En; [done|].
    rewrite advance_ring_succ, <- Hl by done. replace (S n - 1) with n by lia.
    destruct (lookup_lt_is_Some_2 (data q) (out q)) as [x Hx]; [lia|].
    rewrite Hx. apply ring_cons; [lia..|done].
Qed.

(** The elements of a trace that entered and that left. *)
Definition pushed_in (tr : list event) : list (option A) :=
  omap (λ e, match e with Pushed x => Some (Some x) | _ => None end) tr.
Definition popped_in (tr : list event) : list (option A) :=
  omap (λ e, match e with Popped x => Some x | _ => None end) tr.

(** Threads that wait to push, to pop. *)
Definition waits_push (p : pc) : bool := match p with Waiting (Push _ _) => true | _ => false end.
Definition waits_pop (p : pc) : bool := match p with Waiting (Pop _) => true | _ => false end.
Definition count (f : pc → bool) (ts : list pc) : nat := length (filter (λ p, f p = true) ts).

Definition b2n (b : bool) : nat := if b then 1 else 0.

Lemma count_insert f ts t p p' :
  ts !! t = Some p → count f (<[t := p']> ts) + b2n (f p) = count f ts + b2n (f p').
Proof.
  intros Ht. unfold count. rewrite (insert_take_drop _ _ _ (lookup_lt_Some _ _ _ Ht)).
  rewrite <- (take_drop_middle _ _ _ Ht) at 3. rewrite !filter_app, !filter_cons, !length_app.
  destruct (f p) eqn:E1, (f p') eqn:E2; repeat case_decide; cbn in *; simplify_eq; cbn; lia.
Qed.

Lemma count_snoc f ts p : count f (ts ++ [p]) = count f ts + b2n (f p).
Proof.
  unfold count. rewrite filter_app, filter_cons, filter_nil, length_app.
  case_decide; destruct (f p); simplify_eq; done.
Qed.

(** The invariant of the machine, with the history of the content. *)
Record inv (tr : list event) (c : config) : Prop := {
  inv_ok : queue_ok (fst c);
  inv_fifo : pushed_in tr = popped_in tr ++ content (fst c);
  inv_full : full_waiters (fst c) = count waits_push (snd c);
  inv_empty : empty_waiters (fst c) = count waits_pop (snd c) }.

(** The content after an event. *)
Definition effect (e : event) (q q' : ogs_queue_t) : Prop :=
  match e with
  | Pushed x => content q' = content q ++ [Some x]
  | Popped x => content q = x :: content q'
  | Silent => content q' = content q
  end.

Lemma enter_effect q o :
  queue_ok q →
  let r := enter o q in
  let q' := snd (after_outcome o r) in let p' := fst (after_outcome o r) in
  queue_ok q' ∧ effect (event_of o r) q q' ∧
  full_waiters q' = full_waiters q + b2n (waits_push p') ∧
  empty_waiters q' = empty_waiters q + b2n (waits_pop p').
Proof.
  intros Hq. destruct o as [x t|t]; cbn.
  - unfold push_locked. destruct (ogs_queue_full q) eqn:Hf.
    + destruct (t =? 0)%Z; cbn; [split_and!; try done; lia|].
      destruct (terminated q); cbn; split_and!; try done; try lia.
      by destruct Hq; split.
    + destruct (queue_put_ok q x Hq Hf) as [Hok Hc]. cbn. split_and!; try done; lia.
  - unfold pop_locked. destruct (ogs_queue_empty q) eqn:Hf.
    + destruct (t =? 0)%Z; cbn; [split_and!; try done; lia|].
      destruct (terminated q); cbn; split_and!; try done; try lia.
      by destruct Hq; split.
    + destruct (take_ok q Hq Hf) as [Hok Hc]. cbn in *. split_and!; try done; lia.
Qed.

Lemma resume_effect q o rv :
  queue_ok q →
  b2n (waits_push (Waiting o)) ≤ full_waiters q → b2n (waits_pop (Waiting o)) ≤ empty_waiters q →
  let r := resume o q rv in
  let q' := snd (after_outcome o r) in let p' := fst (after_outcome o r) in
  queue_ok q' ∧ effect (event_of o r) q q' ∧ waits_push p' = false ∧ waits_pop p' = false ∧
  full_waiters q' + b2n (waits_push (Waiting o)) = full_waiters q ∧
  empty_waiters q' + b2n (waits_pop (Waiting o)) = empty_waiters q.
Proof.
  intros Hq Hw1 Hw2. destruct o as [x t|t]; cbn in *.
  - assert (Hq' : queue_ok (set_full_waiters pred q)) by (by destruct Hq; split).
    unfold push_resumed. case_decide.
    + destruct (ogs_queue_full _) eqn:Hf.
      * destruct (terminated _); cbn; split_and!; try done; lia.
      * destruct (queue_put_ok _ x Hq' Hf) as [Hok Hc]. cbn. split_and!; try done; lia.
    + destruct rv; cbn; split_and!; try done; lia.
  - assert (Hq' : queue_ok (set_empty_waiters pred q)) by (by destruct Hq; split).
    unfold pop_resumed. case_decide.
    + destruct (ogs_queue_empty _) eqn:Hf.
      * destruct (terminated _); cbn; split_and!; try done; lia.
      * destruct (take_ok _ Hq' Hf) as [Hok Hc]. cbn in *. split_and!; try done; lia.
    + destruct rv; cbn; split_and!; try done; lia.
Qed.

Lemma effect_fifo tr e q q' :
  pushed_in tr = popped_in tr ++ content q → effect e q q' →
  pushed_in (tr ++ [e]) = popped_in (tr ++ [e]) ++ content q'.
Proof.
  intros Ht He. unfold pushed_in, popped_in in *. rewrite !omap_app. cbn.
  destruct e; cbn in *; rewrite ?app_nil_r, Ht, ?He, <- ?app_assoc; done.
Qed.

Lemma step_inv tr c e c' : inv tr c → step c e c' → inv (tr ++ [e]) c'.
Proof.
  intros [Hok Hf Hw He] Hs. destruct Hs as
    [q ts t o Ht _|q ts t o Ht _|q ts t o Ht|q ts t o rv Ht _|q ts o|q ts]; cbn [fst snd] in *.
  - split; cbn [fst snd]; [done|by eapply effect_fifo| |].
    + pose proof (count_insert waits_push _ _ _ (Done OGS_DONE None) Ht). cbn [waits_push waits_pop b2n fst snd] in *. lia.
    + pose proof (count_insert waits_pop _ _ _ (Done OGS_DONE None) Ht). cbn [waits_push waits_pop b2n fst snd] in *. lia.
  - split; cbn [fst snd]; [done|by eapply effect_fifo| |].
    + pose proof (count_insert waits_push _ _ _ (Lock o) Ht). cbn [waits_push waits_pop b2n fst snd] in *. lia.
    + pose proof (count_insert waits_pop _ _ _ (Lock o) Ht). cbn [waits_push waits_pop b2n fst snd] in *. lia.
  - destruct (enter_effect q o Hok) as (Hok' & Heff & H1 & H2).
    split; cbn [fst snd]; [done|by eapply effect_fifo| |].
    + pose proof (count_insert waits_push _ _ _ (fst (after_outcome o (enter o q))) Ht).
      cbn [waits_push waits_pop b2n fst snd] in *. lia.
    + pose proof (count_insert waits_pop _ _ _ (fst (after_outcome o (enter o q))) Ht).
      cbn [waits_push waits_pop b2n fst snd] in *. lia.
  - pose proof (λ p', count_insert waits_push _ _ _ p' Ht) as C1.
    pose proof (λ p', count_insert waits_pop _ _ _ p' Ht) as C2.
    destruct (resume_effect q o rv Hok) as (Hok' & Heff & E1 & E2 & H1 & H2).
    { specialize (C1 (Lock o)). unfold b2n in *. cbn [waits_push waits_pop] in *. lia. }
    { specialize (C2 (Lock o)). unfold b2n in *. cbn [waits_push waits_pop] in *. lia. }
    split; cbn [fst snd]; [done|by eapply effect_fifo| |].
    + specialize (C1 (fst (after_outcome o (resume o q rv)))). rewrite E1 in C1. cbn [b2n] in C1; cbn [fst snd] in *. lia.
    + specialize (C2 (fst (after_outcome o (resume o q rv)))). rewrite E2 in C2. cbn [b2n] in C2; cbn [fst snd] in *. lia.
  - split; cbn [fst snd]; [done|by eapply effect_fifo| |].
    + rewrite count_snoc. cbn [waits_push waits_pop b2n]. lia.
    + rewrite count_snoc. cbn [waits_push waits_pop b2n]. lia.
  - split; cbn; [by destruct Hok; split|by eapply effect_fifo|done|done].
Qed.

Lemma step_bounds c e c' : step c e c' → bounds (fst c') = bounds (fst c).
Proof.
  destruct 1; cbn; try done; destruct o; cbn;
    unfold push_locked, pop_locked, push_resumed, pop_resumed;
    repeat match goal with |- context [if ?b then _ else _] => destruct b; cbn end; done.
Qed.

Lemma steps_bounds c tr c' : steps c tr c' → bounds (fst c') = bounds (fst c).
Proof. induction 1 as [|c c1 c2 tr e Hs IH Hstep%step_bounds]; congruence. Qed.

Lemma steps_inv capacity tr c :
  0 < capacity → steps (ogs_queue_create capacity, []) tr c → inv tr c.
Proof.
  intros Hc Hs. remember (ogs_queue_create capacity, []) as c0 eqn:E.
  induction Hs as [c|c c1 c2 tr e Hs IH Hstep]; subst; [|by eapply step_inv; eauto].
  split; cbn; [by apply queue_create_ok|done|done|done].
Qed.

(** C23: For any number of threads that push, pop and terminate the queue in
    any interleaving, with any spurious wake-ups: what was pushed is what was
    popped followed by what is still in the queue, in the same order; the
    queue never holds more than its capacity; and the two waiter counters
    count exactly the threads blocked on each condition. *)
Theorem ogs_queue_fifo (capacity : nat) (tr : list event) (q : ogs_queue_t) (ts : list pc) :
  0 < capacity → steps (ogs_queue_create capacity, []) tr (q, ts) →
  pushed_in tr = popped_in tr ++ content q ∧
  length (content q) = ogs_queue_size q ∧ ogs_queue_size q ≤ capacity ∧
  full_waiters q = count waits_push ts ∧ empty_waiters q = count waits_pop ts.
Proof.
  intros Hc Hs. pose proof (steps_inv _ _ _ Hc Hs) as [Hok Hf Hw He]. cbn in *.
  pose proof (steps_bounds _ _ _ Hs) as Hb. cbn in Hb.
  destruct Hok as [Hl Hp Ho Hn Hi]. split_and!; try done.
  - unfold content. rewrite ring_length; [done|lia|lia].
  - unfold ogs_queue_size. lia.
Qed.
End queue.

Lemma ogs_queue_fifo_witness :
  pushed_in [Silent; Silent; Pushed 7; Silent; Silent; Popped (Some 7)] =
    popped_in [Silent; Silent; Pushed 7; Silent; Silent; Popped (Some 7)] ++ [] .
Proof.
  pose (q1 := queue_put (ogs_queue_create 2) 7).
  assert (Hs : steps (ogs_queue_create 2, [])
    [Silent; Silent; Pushed 7; Silent; Silent; Popped (Some 7)]
    (snd (queue_take q1), [Done OGS_OK None; Done OGS_OK (Some 7)])).
  { apply (steps_snoc _ (q1, [Done OGS_OK None; Lock (Pop 0)]) _ [_; _; _; _; _]).
    2:{ exact (step_enter q1 [Done OGS_OK None; Lock (Pop 0)] 1 (Pop 0) eq_refl). }
    apply (steps_snoc _ (q1, [Done OGS_OK None; Start (Pop 0)]) _ [_; _; _; _]).
    2:{ exact (step_start q1 [Done OGS_OK None; Start (Pop 0)] 1 (Pop 0) eq_refl eq_refl). }
    apply (steps_snoc _ (q1, [Done OGS_OK None]) _ [_; _; _]).
    2:{ exact (step_call q1 [Done OGS_OK None] (Pop 0)). }
    apply (steps_snoc _ (ogs_queue_create 2, [Lock (Push 7 (-1))]) _ [_; _]).
    2:{ exact (step_enter (ogs_queue_create 2) [Lock (Push 7 (-1))] 0 (Push 7 (-1)) eq_refl). }
    apply (steps_snoc _ (ogs_queue_create 2, [Start (Push 7 (-1))]) _ [_]).
    2:{ exact (step_start (ogs_queue_create 2) [Start (Push 7 (-1))] 0 (Push 7 (-1)) eq_refl eq_refl). }
    apply (steps_snoc _ (ogs_queue_create 2, []) _ []).
    2:{ exact (step_call (ogs_queue_create 2) [] (Push 7 (-1))). }
    constructor. }
  exact (proj1 (ogs_queue_fifo 2 _ _ _ ltac:(lia) Hs)).
Defined.
