(* ===== verification/KeyTable.v ===== *)
(** * Tables keyed by memory: the interface of lib/core/ogs-hash.h

    What the other components rely on: a table maps key bytes to a value and
    to the key pointer it keeps.  The pool and the contexts are verified
    against this interface; HashMap.v shows that ogs-hash.c implements it. *)
From S2P Require Import Prelude.
#[local] Open Scope Z_scope.

(** Key storage: the objects that key pointers point to, as bytes.  A pointer
    that is not in the map is dangling. *)
Abbreviation kptr := positive.
Abbreviation memory := (gmap kptr (list Z)).

Definition OGS_HASH_KEY_STRING : Z := -1.

(** The bytes of a NUL-terminated string. *)
Fixpoint cstring (obj : list Z) : option (list Z) :=
  match obj with
  | [] => None
  | b :: obj => if b =? 0 then Some [] else cons b <$> cstring obj
  end.

(** The key that a pointer and a length denote. *)
Definition resolve (obj : list Z) (klen : Z) : option (list Z) :=
  if klen =? OGS_HASH_KEY_STRING then cstring obj else read_bytes obj klen.
Definition key_bytes (mem : memory) (key : kptr) (klen : Z) : option (list Z) :=
  obj ← mem !! key; resolve obj klen.

(** The documented effect of [ogs_hash_set]: an existing entry keeps its key
    pointer; a NULL value removes the entry. *)
Definition map_set {V} (bs : list Z) (key : kptr) (val : option V)
    (m : gmap (list Z) (kptr * V)) : gmap (list Z) (kptr * V) :=
  partial_alter (λ old, (λ v, (from_option fst key old, v)) <$> val) bs m.

(** Capacity that the 32-bit counters of the table support. *)
Definition table_room {V} (m : gmap (list Z) (kptr * V)) : Prop := Z.of_nat (size m) < 2 ^ 31 - 1.

Class KeyTable (T V : Type) := {
  kt_ok : memory → T → gmap (list Z) (kptr * V) → Prop;
  kt_get : memory → kptr → Z → M T (option V);
  kt_set : memory → kptr → Z → option V → M T unit;
  kt_get_spec mem t m key klen bs :
    kt_ok mem t m → klen ≠ 0 → key_bytes mem key klen = Some bs →
    kt_get mem key klen t = Some (snd <$> m !! bs, t);
  kt_set_spec mem t m key klen bs val :
    kt_ok mem t m → klen ≠ 0 → key_bytes mem key klen = Some bs → table_room m →
    wp (kt_set mem key klen val) (λ _ t', kt_ok mem t' (map_set bs key val m)) t;
  kt_frame mem mem' t m :
    kt_ok mem t m → (∀ bs p v, m !! bs = Some (p, v) → mem' !! p = mem !! p) →
    kt_ok mem' t m }.

Lemma map_set_lookup {V} bs key (val : option V) m :
  snd <$> map_set bs key val m !! bs = val.
Proof. unfold map_set. rewrite lookup_partial_alter_eq. by destruct val. Qed.
Lemma map_set_lookup_ne {V} bs bs' key (val : option V) m :
  bs ≠ bs' → map_set bs key val m !! bs' = m !! bs'.
Proof. intros. unfold map_set. by rewrite lookup_partial_alter_ne. Qed.

Lemma map_set_None {V} (bs : list Z) (key : kptr) (m : gmap (list Z) (kptr * V)) : map_set bs key None m = delete bs m.
Proof. done. Qed.
Lemma table_room_delete {V} (bs : list Z) (key : kptr) (m : gmap (list Z) (kptr * V)) :
  table_room m → table_room (map_set bs key None m).
Proof.
  rewrite map_set_None. unfold table_room. intros Hm. rewrite map_size_delete.
  destruct (m !! bs); [|done]. pose proof (Nat.le_pred_l (size m)). lia.
Qed.

Lemma cstring_read obj bs :
  cstring obj = Some bs → read_bytes obj (Z.of_nat (length bs)) = Some bs.
Proof.
  revert bs. induction obj as [|b obj IH]; intros bs; cbn; [done|].
  destruct (b =? 0); [intros [= <-]; done|].
  destruct (cstring obj) as [bs'|]; intros [= <-].
  specialize (IH _ eq_refl). unfold read_bytes in *.
  destruct ((0 <=? _) && _) eqn:E in IH; [|done]. injection IH as IH.
  rewrite Nat2Z.id in IH.
  replace ((0 <=? _) && _) with true by (symmetry; cbn [length]; lia).
  rewrite Nat2Z.id. cbn. by rewrite IH.
Qed.

Lemma resolve_read obj klen bs :
  resolve obj klen = Some bs → read_bytes obj (Z.of_nat (length bs)) = Some bs.
Proof.
  unfold resolve. destruct (klen =? OGS_HASH_KEY_STRING); [apply cstring_read|].
  intros H. by rewrite (read_bytes_length _ _ _ H).
Qed.
