(* ===== verification/Hash.v ===== *)
(** * Hash table: lib/core/ogs-hash.c

    The table that indexes contexts by identity.  Keys are not copied: an
    entry keeps the pointer it was given, and [find_entry] reads the key bytes
    through it, so the memory the pointers point to is part of the model.  The
    refinement theorems relate a table to a finite map from key bytes to
    values. *)
From S2P Require Import Prelude KeyTable.
#[local] Open Scope Z_scope.

Definition INITIAL_MAX : Z := 15.

(** The loops of [hashfunc_default]: hash = hash * 33 + byte. *)
Definition hash_bytes (bs : list Z) (hash : Z) : Z :=
  fold_left (λ hash b, u32 (hash * 33 + b)) bs hash.

(** [hashfunc_default]: the hash, and the length stored through [klen]. *)
Definition hashfunc_default (key : list Z) (klen hash : Z) : option (Z * Z) :=
  if klen =? OGS_HASH_KEY_STRING then
    bs ← cstring key; Some (hash_bytes bs hash, Z.of_nat (length bs))
  else
    bs ← read_bytes key klen; Some (hash_bytes bs hash, klen).

Definition ogs_hashfunc_default (key : list Z) (klen : Z) : option (Z * Z) :=
  hashfunc_default key klen 0.

Section hash.
Context {V : Type} `{EqDecision V}.

(** struct ogs_hash_entry_t; [V] are the non-NULL value pointers.  The [next]
    chains are lists. *)
Record entry := Entry { e_hash : Z; e_key : kptr; e_klen : Z; e_val : V }.

(** ogs_hashfunc_t: from the key object and [klen] to the hash and the length
    stored through [klen]. *)
Abbreviation ogs_hashfunc_t := (list Z → Z → option (Z * Z)).

(** struct ogs_hash_t *)
Record ogs_hash_t := HashTable {
  array : list (list entry);
  ht_count : Z; ht_max : Z; ht_seed : Z;
  hash_func : option ogs_hashfunc_t;
  ht_free : list entry }.

Definition alloc_array (max : Z) : list (list entry) := replicate (Z.to_nat (u32 (max + 1))) [].

(** [seed] stands for the mix of the clock and of addresses. *)
Definition ogs_hash_make (seed : Z) : ogs_hash_t :=
  HashTable (alloc_array INITIAL_MAX) 0 INITIAL_MAX (u32 seed) None [].

Definition ogs_hash_make_custom (func : ogs_hashfunc_t) (seed : Z) : ogs_hash_t :=
  let ht := ogs_hash_make seed in
  HashTable (array ht) (ht_count ht) (ht_max ht) (ht_seed ht) (Some func) (ht_free ht).

(** ** Iteration *)

(** struct ogs_hash_index_t: [this] and the saved chain [next]. *)
Record ogs_hash_index_t := HashIndex { hi_this : option entry; hi_next : list entry; hi_index : nat }.

(** The [while (!hi->this)] loop; the fuel bounds the buckets left. *)
Fixpoint next_loop (fuel : nat) (ht : ogs_hash_t) (this : list entry) (index : nat)
    : option (option ogs_hash_index_t) :=
  match this with
  | e :: next => Some (Some (HashIndex (Some e) next index))
  | [] =>
      if ht_max ht <? Z.of_nat index then Some None
      else match fuel with
           | O => None
           | S fuel => b ← array ht !! index; next_loop fuel ht b (S index)
           end
  end.

Definition ogs_hash_next (ht : ogs_hash_t) (hi : ogs_hash_index_t)
    : option (option ogs_hash_index_t) :=
  next_loop (S (length (array ht))) ht (hi_next hi) (hi_index hi).

Definition ogs_hash_first (ht : ogs_hash_t) : option (option ogs_hash_index_t) :=
  ogs_hash_next ht (HashIndex None [] 0).

(** [for (hi = ogs_hash_first(ht); hi; hi = ogs_hash_next(hi)) body], and the
    loop of [ogs_hash_do]: the body says whether to go on. *)
Fixpoint hash_iter {R} (fuel : nat) (ht : ogs_hash_t) (body : entry → R → option (R * bool))
    (hi : option ogs_hash_index_t) (r : R) : option R :=
  match hi with
  | None => Some r
  | Some hi =>
      match fuel with
      | O => None
      | S fuel =>
          this ← hi_this hi;
          '(r, go) ← body this r;
          if go : bool then hi ← ogs_hash_next ht hi; hash_iter fuel ht body hi r else Some r
      end
  end.

Definition iter_fuel (ht : ogs_hash_t) : nat := S (length (concat (array ht))).

(** [ogs_hash_do]: stops at the first callback that returns 0. *)
Definition ogs_hash_do {R} (comp : R → kptr → Z → V → R * Z) (rec : R) (ht : ogs_hash_t)
    : option (R * Z) :=
  hi ← ogs_hash_next ht (HashIndex None [] 0);
  hash_iter (iter_fuel ht) ht
    (λ e r, let '(r, rv) := comp (fst r) (e_key e) (e_klen e) (e_val e) in
            Some ((r, if rv =? 0 then 0 else 1), negb (rv =? 0)))
    hi (rec, 1).

Definition expand_array (ht : ogs_hash_t) : option ogs_hash_t :=
  let new_max := u32 (ht_max ht * 2 + 1) in
  let new_array := alloc_array new_max in
  hi ← ogs_hash_first ht;
  new_array ← hash_iter (iter_fuel ht) ht
    (λ this new_array,
       let i := Z.to_nat (Z.land (e_hash this) new_max) in
       b ← new_array !! i; Some (<[i := this :: b]> new_array, true))
    hi new_array;
  Some (HashTable new_array (ht_count ht) new_max (ht_seed ht) (hash_func ht) (ht_free ht)).

(** ** Lookup and update *)

Section with_memory.
Variable mem : memory.

(** [memcmp(he->key, key, klen) == 0]. *)
Definition memcmp_eq (p q : kptr) (n : Z) : option bool :=
  o1 ← mem !! p; o2 ← mem !! q; b1 ← read_bytes o1 n; b2 ← read_bytes o2 n;
  Some (bool_decide (b1 = b2)).

(** The scan of a chain: the position of the match, or the end. *)
Fixpoint scan (key : kptr) (hash klen : Z) (chain : list entry) : option nat :=
  match chain with
  | [] => Some O
  | he :: chain =>
      if (e_hash he =? hash) && (e_klen he =? klen) then
        eq ← memcmp_eq (e_key he) key klen;
        if eq : bool then Some O else S <$> scan key hash klen chain
      else S <$> scan key hash klen chain
  end.

(** [hep] is the bucket and the position in its chain; [*hep] is NULL at the
    end of the chain. *)
Definition find_entry (key : kptr) (klen : Z) (val : option V) : M ogs_hash_t (nat * nat) :=
  ht ← m_get;
  obj ← m_some (mem !! key);
  '(hash, klen) ← m_some
    match hash_func ht with
    | Some func => func obj klen
    | None => hashfunc_default obj klen (ht_seed ht)
    end;
  let i := Z.to_nat (Z.land hash (ht_max ht)) in
  chain ← m_some (array ht !! i);
  p ← m_some (scan key hash klen chain);
  match val with
  | Some val =>
      if (p <? length chain)%nat then mret (i, p)
      else
        m_modify (λ ht, HashTable (<[i := chain ++ [Entry hash key klen val]]> (array ht))
          (u32 (ht_count ht + 1)) (ht_max ht) (ht_seed ht) (hash_func ht) (tail (ht_free ht)));;
        mret (i, p)
  | None => mret (i, p)
  end.

(** [*hep]. *)
Definition deref (hep : nat * nat) : M ogs_hash_t (option entry) :=
  m_gets (λ ht, b ← array ht !! fst hep; b !! snd hep).

Definition ogs_hash_get (key : kptr) (klen : Z) : M ogs_hash_t (option V) :=
  m_assert (negb (klen =? 0));;
  hep ← find_entry key klen None;
  he ← deref hep;
  mret (e_val <$> he).

Definition unlink (hep : nat * nat) (old : entry) (ht : ogs_hash_t) : ogs_hash_t :=
  HashTable (alter (delete (snd hep)) (fst hep) (array ht)) (u32 (ht_count ht - 1))
    (ht_max ht) (ht_seed ht) (hash_func ht) (old :: ht_free ht).

Definition set_val (hep : nat * nat) (val : V) (ht : ogs_hash_t) : ogs_hash_t :=
  HashTable (alter (alter (λ e, Entry (e_hash e) (e_key e) (e_klen e) val) (snd hep))
    (fst hep) (array ht)) (ht_count ht) (ht_max ht) (ht_seed ht) (hash_func ht) (ht_free ht).

(** [if (ht->count > ht->max) expand_array(ht);] *)
Definition maybe_expand : M ogs_hash_t unit :=
  ht ← m_get;
  if ht_max ht <? ht_count ht then
    ht' ← m_some (expand_array ht); m_modify (λ _, ht')
  else mret tt.

Definition ogs_hash_set (key : kptr) (klen : Z) (val : option V) : M ogs_hash_t unit :=
  m_assert (negb (klen =? 0));;
  hep ← find_entry key klen val;
  he ← deref hep;
  match he, val with
  | Some old, None => m_modify (unlink hep old)
  | Some _, Some val => m_modify (set_val hep val);; maybe_expand
  | None, _ => mret tt
  end.

Definition ogs_hash_get_or_set (key : kptr) (klen : Z) (val : option V)
    : M ogs_hash_t (option V) :=
  m_assert (negb (klen =? 0));;
  hep ← find_entry key klen val;
  he ← deref hep;
  match he with
  | Some he => maybe_expand;; mret (Some (e_val he))
  | None => mret None
  end.

Definition ogs_hash_set_rekey (key : kptr) (klen : Z) (val : option V) : M ogs_hash_t unit :=
  m_assert (negb (klen =? 0));;
  m_assert (bool_decide (is_Some val));;
  ogs_hash_set key klen None;;
  ogs_hash_set key klen val.

Definition ogs_hash_unset_if_owner (key : kptr) (klen : Z) (owner : V) : M ogs_hash_t bool :=
  m_assert (negb (klen =? 0));;
  indexed ← ogs_hash_get key klen;
  if decide (indexed = Some owner) then
    ogs_hash_set key klen None;; mret true
  else mret false.
End with_memory.

Definition ogs_hash_count (ht : ogs_hash_t) : Z := ht_count ht.

(** The inner loop of [ogs_hash_clear]: pushes a chain on the free list. *)
Fixpoint recycle (he free : list entry) : list entry :=
  match he with [] => free | e :: he => recycle he (e :: free) end.

Definition ogs_hash_clear (ht : ogs_hash_t) : ogs_hash_t :=
  HashTable ((λ _, []) <$> array ht) 0 (ht_max ht) (ht_seed ht) (hash_func ht)
    (fold_left (λ free b, recycle b free) (array ht) (ht_free ht)).

(** [ogs_hash_destroy]: the entries that it frees; the table goes too. *)
Definition ogs_hash_destroy (ht : ogs_hash_t) : list entry := ht_free (ogs_hash_clear ht).
End hash.
Arguments ogs_hash_t : clear implicits.
Arguments entry : clear implicits.
