(* ===== verification/HashMap.v ===== *)
(** * The hash table refines a finite map

    [hash_ok mem h ht m]: the table [ht], over the key storage [mem], holds
    the map [m] from key bytes to key pointer and value.  Every operation of
    Hash.v is shown to act on [m] as documented in ogs-hash.h, and the table
    is an instance of the interface [KeyTable]. *)
From S2P Require Import Prelude KeyTable Hash.
#[local] Open Scope Z_scope.

Section refinement.
Context {V : Type} `{EqDecision V}.
#[local] Arguments ogs_hash_next : simpl never.
Implicit Types (e : entry V) (es : list (entry V)) (ht : ogs_hash_t V)
  (m : gmap (list Z) (kptr * V)).

Definition entry_bytes (mem : memory) e : list Z :=
  default [] (obj ← mem !! e_key e; read_bytes obj (e_klen e)).

(** The hash that a table computes, and the pure function behind it. *)
Definition hash_of ht (obj : list Z) (klen : Z) : option (Z * Z) :=
  match hash_func ht with
  | Some func => func obj klen
  | None => hashfunc_default obj klen (ht_seed ht)
  end.
Definition lawful (h : list Z → Z) ht : Prop :=
  ∀ obj klen, hash_of ht obj klen = (λ bs, (h bs, Z.of_nat (length bs))) <$> resolve obj klen.

Definition good_entry (mem : memory) (h : list Z → Z) e : Prop :=
  ∃ obj bs, mem !! e_key e = Some obj ∧ read_bytes obj (e_klen e) = Some bs ∧ e_hash e = h bs.

Definition binding (mem : memory) e : list Z * (kptr * V) :=
  (entry_bytes mem e, (e_key e, e_val e)).

(** The entries [es], in any order, are the map [m]. *)
Record content (mem : memory) (h : list Z → Z) es m : Prop := {
  c_good : Forall (good_entry mem h) es;
  c_nodup : NoDup (entry_bytes mem <$> es);
  c_map : m = list_to_map (binding mem <$> es) }.

(** [slack] is 1 between the insertion of an entry and the expansion. *)
Record hash_inv (mem : memory) (h : list Z → Z) (slack : Z) ht m : Prop := {
  ho_len : Z.of_nat (length (array ht)) = ht_max ht + 1;
  ho_max : ∃ k, 0 ≤ k ≤ 31 ∧ ht_max ht = 2 ^ k - 1;
  ho_at : ∀ i b e, array ht !! i = Some b → e ∈ b → i = Z.to_nat (Z.land (e_hash e) (ht_max ht));
  ho_content : content mem h (concat (array ht)) m;
  ho_count : ht_count ht = Z.of_nat (length (concat (array ht)));
  ho_load : ht_count ht ≤ ht_max ht + slack;
  ho_lawful : lawful h ht }.
Definition hash_ok (mem : memory) (h : list Z → Z) ht m : Prop := hash_inv mem h 0 ht m.

Lemma default_lawful ht : hash_func ht = None → lawful (λ bs, hash_bytes bs (ht_seed ht)) ht.
Proof.
  intros Hf obj klen. unfold hash_of, hashfunc_default, resolve. rewrite Hf.
  destruct (klen =? OGS_HASH_KEY_STRING); [by destruct (cstring obj)|].
  destruct (read_bytes obj klen) eqn:E; [|done]. cbn. by rewrite (read_bytes_length _ _ _ E).
Qed.

(** ** The content as a multiset of entries *)

Lemma keys_binding mem es : (binding mem <$> es).*1 = entry_bytes mem <$> es.
Proof. rewrite <- list_fmap_compose. by apply list_fmap_ext. Qed.

#[export] Instance content_proper mem h :
  Proper ((≡ₚ) ==> (=) ==> iff) (content mem h).
Proof.
  assert (∀ es es' m, es ≡ₚ es' → content mem h es m → content mem h es' m) as Hp.
  { intros es es' m HP [Hg Hn Hm]. split.
    - by rewrite <- HP.
    - by rewrite <- HP.
    - rewrite Hm. apply list_to_map_proper; [by rewrite keys_binding|by rewrite HP]. }
  intros es es' HP m m' <-. split; apply Hp; by rewrite ?HP.
Qed.

Lemma content_insert mem h es m e :
  content mem h es m → good_entry mem h e → m !! entry_bytes mem e = None →
  content mem h (e :: es) (<[entry_bytes mem e := (e_key e, e_val e)]> m).
Proof.
  intros [Hg Hn ->] He Hm. split; [by constructor| |done].
  cbn. constructor; [|done]. rewrite <- keys_binding. by apply not_elem_of_list_to_map.
Qed.

Lemma content_delete mem h es m e :
  content mem h (e :: es) m → content mem h es (delete (entry_bytes mem e) m).
Proof.
  intros [Hg Hn ->]. inversion Hg; subst. cbn in Hn. apply NoDup_cons in Hn as [Hn1 Hn2].
  split; [done|done|]. cbn. apply delete_insert_id.
  apply not_elem_of_list_to_map. by rewrite keys_binding.
Qed.

Lemma content_lookup_elem mem h es m e :
  content mem h es m → e ∈ es → m !! entry_bytes mem e = Some (e_key e, e_val e).
Proof.
  intros [Hg Hn ->] He. apply elem_of_list_to_map_1; [by rewrite keys_binding|].
  apply list_elem_of_fmap. by exists e.
Qed.

Lemma content_lookup_none mem h es m bs :
  content mem h es m → (∀ e, e ∈ es → entry_bytes mem e ≠ bs) → m !! bs = None.
Proof.
  intros [Hg Hn ->] He. apply not_elem_of_list_to_map. rewrite keys_binding.
  intros (e & -> & Hin)%list_elem_of_fmap. by apply (He e).
Qed.

Lemma content_size mem h es m : content mem h es m → size m = length es.
Proof.
  intros [Hg Hn ->]. rewrite map_size_list_to_map by (by rewrite keys_binding).
  by rewrite length_fmap.
Qed.

(** Writing the value of an entry. *)
Lemma content_set_val mem h es m e v :
  content mem h (e :: es) m →
  content mem h (Entry (e_hash e) (e_key e) (e_klen e) v :: es)
    (<[entry_bytes mem e := (e_key e, v)]> m).
Proof.
  intros Hc. assert (Hg : good_entry mem h e) by (by destruct Hc as [Hg _ _]; inversion Hg).
  pose proof (content_insert _ _ _ _ (Entry (e_hash e) (e_key e) (e_klen e) v)
    (content_delete _ _ _ _ _ Hc) Hg) as Hi. cbn in Hi.
  change (entry_bytes mem (Entry _ _ _ v)) with (entry_bytes mem e) in Hi.
  rewrite insert_delete_eq in Hi. apply Hi, lookup_delete_eq.
Qed.

(** ** Buckets *)

Definition rest (arr : list (list (entry V))) (i : nat) : list (entry V) :=
  concat (take i arr) ++ concat (drop (S i) arr).

Lemma concat_at arr i b : arr !! i = Some b → concat arr ≡ₚ b ++ rest arr i.
Proof.
  intros Hi. rewrite <- (take_drop_middle _ _ _ Hi) at 1. unfold rest.
  rewrite concat_app. cbn. solve_Permutation.
Qed.

Lemma concat_insert arr i b b' :
  arr !! i = Some b → concat (<[i := b']> arr) ≡ₚ b' ++ rest arr i.
Proof.
  intros Hi. rewrite insert_take_drop by (by eapply lookup_lt_Some). unfold rest.
  rewrite concat_app. cbn. solve_Permutation.
Qed.

Lemma elem_of_concat (arr : list (list (entry V))) e :
  e ∈ concat arr ↔ ∃ i b, arr !! i = Some b ∧ e ∈ b.
Proof.
  split.
  - induction arr as [|b arr IH]; cbn; [by intros ?%elem_of_nil|].
    intros [He|He]%elem_of_app; [by exists O, b|].
    destruct (IH He) as (i & b' & Hi & Hb'). by exists (S i), b'.
  - intros (i & b & Hi & He). rewrite (concat_at _ _ _ Hi). apply elem_of_app. by left.
Qed.

(** Updating bucket [i] keeps every entry in its bucket. *)
Lemma insert_at (arr : list (list (entry V))) max i b' :
  (∀ j b e, arr !! j = Some b → e ∈ b → j = Z.to_nat (Z.land (e_hash e) max)) →
  (∀ e, e ∈ b' → i = Z.to_nat (Z.land (e_hash e) max)) →
  ∀ j b e, <[i := b']> arr !! j = Some b → e ∈ b → j = Z.to_nat (Z.land (e_hash e) max).
Proof.
  intros Ha Hb j b e [(-> & <- & _)|[Hne Hj]]%list_lookup_insert_Some He; eauto.
Qed.

Lemma bucket_range hash k :
  0 ≤ k → 0 ≤ Z.land hash (2 ^ k - 1) < 2 ^ k.
Proof.
  intros Hk. rewrite <- (Z.sub_1_r (2 ^ k)) || idtac. replace (2 ^ k - 1) with (Z.ones k).
  - rewrite Z.land_ones by done. apply Z.mod_pos_bound. apply Z.pow_pos_nonneg; lia.
  - rewrite Z.ones_equiv. lia.
Qed.

Lemma bucket_exists mem h ht m hash :
  hash_ok mem h ht m → is_Some (array ht !! Z.to_nat (Z.land hash (ht_max ht))).
Proof.
  intros []. apply lookup_lt_is_Some_2. destruct ho_max0 as (k & Hk & E).
  pose proof (bucket_range hash k ltac:(lia)). rewrite E in *. lia.
Qed.

(** ** The scan of a chain *)

Lemma scan_ok mem h key klen obj bs chain :
  Forall (good_entry mem h) chain →
  mem !! key = Some obj → read_bytes obj klen = Some bs →
  ∃ p, scan mem key (h bs) klen chain = Some p ∧ (p ≤ length chain)%nat ∧
    (∀ e, chain !! p = Some e → entry_bytes mem e = bs) ∧
    (p = length chain → ∀ e, e ∈ chain → entry_bytes mem e ≠ bs).
Proof.
  intros Hg Hk Hr. induction Hg as [|e chain He Hg IH]; cbn.
  { exists O. split_and!; try done. intros _ e He. by apply elem_of_nil in He. }
  destruct IH as (p & Hs & Hp & H1 & H2).
  assert (Hskip : entry_bytes mem e ≠ bs →
    ∃ q, S <$> scan mem key (h bs) klen chain = Some q ∧ (q ≤ S (length chain))%nat ∧
    (∀ e0, (e :: chain) !! q = Some e0 → entry_bytes mem e0 = bs) ∧
    (q = S (length chain) → ∀ e0, e0 ∈ e :: chain → entry_bytes mem e0 ≠ bs)).
  { intros Hne. exists (S p). rewrite Hs. split_and!; [done|lia|done|].
    intros ? e0 [->|]%elem_of_cons; [done|]. apply H2; [lia|done]. }
  destruct He as (obj' & bs' & Ho & Hr' & Hh).
  assert (Hb : entry_bytes mem e = bs') by (unfold entry_bytes; rewrite Ho; cbn; by rewrite Hr').
  destruct (e_hash e =? h bs) eqn:E1; [destruct (e_klen e =? klen) eqn:E2|]; cbn.
  - unfold memcmp_eq. rewrite Ho, Hk. cbn. replace klen with (e_klen e) by lia.
    rewrite Hr'. replace (e_klen e) with klen by lia. rewrite Hr. cbn.
    case_bool_decide as Heq; [|apply Hskip; congruence].
    exists O. split_and!; try done; [lia|]. intros e0 [= <-]. congruence.
  - apply Hskip. rewrite Hb. intros ->. apply read_bytes_length in Hr, Hr'. lia.
  - apply Hskip. rewrite Hb. intros ->. lia.
Qed.

(** What [find_entry] finds. *)
Lemma find_ok mem h ht m key klen bs :
  hash_ok mem h ht m → key_bytes mem key klen = Some bs →
  let i := Z.to_nat (Z.land (h bs) (ht_max ht)) in
  ∃ chain p,
    array ht !! i = Some chain ∧ (p ≤ length chain)%nat ∧
    match chain !! p with
    | Some e => entry_bytes mem e = bs ∧ m !! bs = Some (e_key e, e_val e)
    | None => p = length chain ∧ m !! bs = None
    end ∧
    ∀ val, find_entry mem key klen val ht = Some ((i, p),
      match val with
      | Some val =>
          if (p <? length chain)%nat then ht
          else HashTable
            (<[i := chain ++ [Entry (h bs) key (Z.of_nat (length bs)) val]]> (array ht))
            (u32 (ht_count ht + 1)) (ht_max ht) (ht_seed ht) (hash_func ht) (tail (ht_free ht))
      | None => ht
      end).
Proof.
  intros Hok Hkey i. destruct (bucket_exists _ _ _ _ (h bs) Hok) as [chain Hi]. fold i in Hi.
  destruct Hok as [Hl Hm Hat Hc Hcnt Hld Hlaw].
  unfold key_bytes in Hkey. destruct (mem !! key) as [obj|] eqn:Ek; [cbn in Hkey|done].
  pose proof (resolve_read _ _ _ Hkey) as Hread.
  assert (Hgc : Forall (good_entry mem h) chain).
  { destruct Hc as [Hg _ _]. rewrite (concat_at _ _ _ Hi) in Hg. by apply Forall_app in Hg as [? _]. }
  destruct (scan_ok _ _ _ _ _ _ chain Hgc Ek Hread) as (p & Hs & Hp & H1 & H2).
  exists chain, p. split_and!; [done|done| |].
  - destruct (chain !! p) as [e|] eqn:Ep.
    + specialize (H1 _ eq_refl). split; [done|]. rewrite <- H1.
      eapply content_lookup_elem; [done|]. rewrite (concat_at _ _ _ Hi).
      apply elem_of_app. left. by eapply list_elem_of_lookup_2.
    + apply lookup_ge_None in Ep. assert (p = length chain) as -> by lia. split; [done|].
      eapply content_lookup_none; [done|]. intros e He Hb.
      pose proof He as (j & b & Hj & Hej)%elem_of_concat. pose proof (Hat _ _ _ Hj Hej) as Hji.
      assert (Hge : good_entry mem h e).
      { destruct Hc as [Hg _ _]. eapply Forall_forall; [exact Hg|done]. }
      destruct Hge as (o & bs' & Ho & Hr & Hh).
      assert (bs' = bs) as ->.
      { unfold entry_bytes in Hb. rewrite Ho in Hb. cbn in Hb. rewrite Hr in Hb. done. }
      rewrite Hh in Hji. change (j = i) in Hji. subst j. simplify_eq.
      by apply (H2 eq_refl e Hej).
  - intros val. unfold find_entry, mbind, M_bind, m_get, m_some, mret, M_ret, m_modify. cbn.
    rewrite Ek. specialize (Hlaw obj klen). rewrite Hkey in Hlaw. unfold hash_of in Hlaw.
    cbn in Hlaw. rewrite Hlaw. fold i. rewrite Hi, Hs.
    destruct val; [|done]. match goal with |- context [if ?b then ht else _] => by destruct b end.
Qed.

(** ** Iteration *)

(** The entries that an iterator has still to visit. *)
Definition remaining ht (hi : ogs_hash_index_t (V:=V)) : list (entry V) :=
  hi_next hi ++ concat (drop (hi_index hi) (array ht)).

(** The iterator [o] is about to visit the entries [es]. *)
Definition at_entries ht (o : option ogs_hash_index_t) es : Prop :=
  match o, es with
  | None, [] => True
  | Some hi, e :: es =>
      hi_this hi = Some e ∧ remaining ht hi = es ∧ (hi_index hi ≤ length (array ht))%nat
  | _, _ => False
  end.

Lemma next_loop_ok ht fuel this index :
  Z.of_nat (length (array ht)) = ht_max ht + 1 →
  (index ≤ length (array ht))%nat → (length (array ht) < fuel + index)%nat →
  ∃ o, next_loop fuel ht this index = Some o ∧
    at_entries ht o (this ++ concat (drop index (array ht))).
Proof.
  intros Hl. revert this index. induction fuel as [|fuel IH]; intros this index Hi Hf; [lia|].
  destruct this as [|e this]; cbn [next_loop]; [|by eexists].
  destruct (ht_max ht <? Z.of_nat index) eqn:E.
  - exists None. split; [done|]. rewrite drop_ge by lia. done.
  - destruct (lookup_lt_is_Some_2 (array ht) index) as [b Hb]; [lia|]. rewrite Hb. cbn [mbind option_bind].
    destruct (IH b (S index)) as (o & Ho & Ha); [lia..|]. exists o. split; [done|].
    by rewrite (drop_S _ _ _ Hb).
Qed.

Lemma hash_next_ok ht hi :
  Z.of_nat (length (array ht)) = ht_max ht + 1 → (hi_index hi ≤ length (array ht))%nat →
  ∃ o, ogs_hash_next ht hi = Some o ∧ at_entries ht o (remaining ht hi).
Proof. intros Hl Hi. apply next_loop_ok; [done|done|lia]. Qed.

Lemma first_ok ht :
  Z.of_nat (length (array ht)) = ht_max ht + 1 →
  ∃ o, ogs_hash_next ht (HashIndex None [] 0) = Some o ∧ at_entries ht o (concat (array ht)).
Proof. intros Hl. apply (hash_next_ok ht (HashIndex None [] 0)); cbn; [done|lia]. Qed.

(** The loop over a list of entries. *)
Fixpoint iter_list {R} (body : entry V → R → option (R * bool)) es (r : R) : option R :=
  match es with
  | [] => Some r
  | e :: es => '(r, go) ← body e r; if go : bool then iter_list body es r else Some r
  end.

Lemma hash_iter_ok {R} ht (body : entry V → R → option (R * bool)) fuel o es r :
  Z.of_nat (length (array ht)) = ht_max ht + 1 →
  at_entries ht o es → (length es < fuel)%nat →
  hash_iter fuel ht body o r = iter_list body es r.
Proof.
  intros Hl. revert o es r. induction fuel as [|fuel IH]; intros o es r Ha Hf; [lia|].
  destruct o as [hi|], es as [|e es]; try done.
  destruct Ha as (Ht & Hr & Hi). cbn. rewrite Ht. cbn.
  destruct (body e r) as [[r' []]|]; cbn; [|done..].
  destruct (hash_next_ok ht hi Hl Hi) as (o & Ho & Ha). rewrite Ho. cbn.
  apply IH; [by rewrite <- Hr|]. cbn in Hf. lia.
Qed.

Lemma hash_for_ok {R} ht (body : entry V → R → option (R * bool)) r :
  Z.of_nat (length (array ht)) = ht_max ht + 1 →
  (hi ← ogs_hash_next ht (HashIndex None [] 0); hash_iter (iter_fuel ht) ht body hi r) =
  iter_list body (concat (array ht)) r.
Proof.
  intros Hl. destruct (first_ok ht Hl) as (o & Ho & Ha). rewrite Ho. cbn [mbind option_bind].
  apply hash_iter_ok; [done|done|]. unfold iter_fuel. lia.
Qed.

(** ** Expansion *)

Definition rehash (max : Z) (this : entry V) (arr : list (list (entry V)))
    : option (list (list (entry V)) * bool) :=
  let i := Z.to_nat (Z.land (e_hash this) max) in
  b ← arr !! i; Some (<[i := this :: b]> arr, true).

Lemma rehash_ok k es arr :
  0 ≤ k → Z.of_nat (length arr) = 2 ^ k →
  (∀ j b e, arr !! j = Some b → e ∈ b → j = Z.to_nat (Z.land (e_hash e) (2 ^ k - 1))) →
  ∃ arr', iter_list (rehash (2 ^ k - 1)) es arr = Some arr' ∧
    length arr' = length arr ∧ concat arr' ≡ₚ es ++ concat arr ∧
    (∀ j b e, arr' !! j = Some b → e ∈ b → j = Z.to_nat (Z.land (e_hash e) (2 ^ k - 1))).
Proof.
  intros Hk. revert arr. induction es as [|e es IH]; intros arr Hl Ha; [by exists arr|].
  cbn [iter_list]. set (i := Z.to_nat (Z.land (e_hash e) (2 ^ k - 1))).
  assert (Hi : (i < length arr)%nat).
  { pose proof (bucket_range (e_hash e) k Hk). unfold i. lia. }
  destruct (lookup_lt_is_Some_2 _ _ Hi) as [b Hb].
  assert (Hstep : rehash (2 ^ k - 1) e arr = Some (<[i := e :: b]> arr, true))
    by (unfold rehash; fold i; by rewrite Hb).
  rewrite Hstep. cbn [mbind option_bind].
  destruct (IH (<[i := e :: b]> arr)) as (arr' & H1 & H2 & H3 & H4).
  - by rewrite length_insert.
  - apply insert_at; [done|]. intros e' [->|He']%elem_of_cons; [done|by eapply Ha].
  - exists arr'. split_and!; [done|by rewrite H2, length_insert| |done].
    rewrite H3, (concat_insert _ _ _ _ Hb), (concat_at _ _ _ Hb). solve_Permutation.
Qed.

Lemma concat_replicate_nil n : concat (replicate n (@nil (entry V))) = [].
Proof. by induction n. Qed.


Lemma expand_iter ht :
  Z.of_nat (length (array ht)) = ht_max ht + 1 →
  let new_max := u32 (ht_max ht * 2 + 1) in
  expand_array ht =
    (λ arr, HashTable arr (ht_count ht) new_max (ht_seed ht) (hash_func ht) (ht_free ht)) <$>
    iter_list (rehash new_max) (concat (array ht)) (alloc_array new_max).
Proof.
  intros Hl new_max. rewrite <- (hash_for_ok ht (rehash new_max)) by done.
  unfold expand_array, ogs_hash_first. fold new_max.
  destruct (ogs_hash_next _ _) as [o|]; [|done]. cbn [mbind option_bind].
  fold (rehash new_max). by destruct (hash_iter _ _ _ _ _).
Qed.

Lemma maybe_expand_ok mem h ht m :
  hash_inv mem h 1 ht m → ht_count ht < 2 ^ 31 → wp maybe_expand (λ _ ht', hash_ok mem h ht' m) ht.
Proof.
  intros [Hl (k & Hk & Hm) Hat Hc Hcnt Hld Hlaw] Hroom. unfold maybe_expand.
  unfold wp, mbind, M_bind, m_get. destruct (ht_max ht <? ht_count ht) eqn:E; cbn.
  2:{ split; try done; [by exists k|lia]. }
  assert (Hk' : k < 31).
  { destruct (decide (k = 31)) as [->|]; [|lia]. lia. }
  assert (Hpow : 2 ^ (k + 1) = 2 * 2 ^ k) by (rewrite Z.pow_add_r; lia).
  assert (Hle : 2 ^ k ≤ 2 ^ 30) by (apply Z.pow_le_mono_r; lia).
  assert (Hpos : 0 < 2 ^ k) by (apply Z.pow_pos_nonneg; lia).
  unfold m_some. rewrite (expand_iter ht Hl), Hm.
  replace (u32 ((2 ^ k - 1) * 2 + 1)) with (2 ^ (k + 1) - 1) by (rewrite u32_small; lia).
  destruct (rehash_ok (k + 1) (concat (array ht)) (alloc_array (2 ^ (k + 1) - 1)))
    as (arr & H1 & H2 & H3 & H4).
  { lia. }
  { unfold alloc_array. rewrite length_replicate, u32_small; lia. }
  { unfold alloc_array. intros j b e [-> _]%lookup_replicate He. by apply elem_of_nil in He. }
  rewrite H1. cbn [fmap option_fmap option_map].
  unfold alloc_array in H2, H3. rewrite length_replicate, u32_small in H2 by lia.
  rewrite concat_replicate_nil, app_nil_r in H3.
  split; cbn; try done.
  - lia.
  - exists (k + 1). lia.
  - by rewrite H3.
  - by rewrite H3.
  - lia.
Qed.

(** ** Updates in place *)

Lemma alter_at {A} (f : A → A) (l : list A) i x : l !! i = Some x → alter f i l = <[i := f x]> l.
Proof.
  revert i. induction l as [|y l IH]; intros [|i] H; cbn in *; simplify_eq; [done|].
  change (y :: alter f i l = y :: <[i := f x]> l). by rewrite IH.
Qed.

Lemma insert_Permutation {A} (l : list A) i x y :
  l !! i = Some x → <[i := y]> l ≡ₚ y :: delete i l.
Proof.
  intros H. rewrite insert_take_drop by (by eapply lookup_lt_Some).
  rewrite delete_take_drop. solve_Permutation.
Qed.

Lemma set_val_ok mem h s ht m i p chain e v :
  hash_inv mem h s ht m → array ht !! i = Some chain → chain !! p = Some e →
  hash_inv mem h s (set_val (i, p) v ht) (<[entry_bytes mem e := (e_key e, v)]> m).
Proof.
  intros [Hl Hm Hat Hc Hcnt Hld Hlaw] Hi Hp. unfold set_val. cbn [fst snd].
  rewrite (alter_at _ _ _ _ Hi), (alter_at _ _ _ _ Hp).
  set (e' := Entry _ _ _ v).
  assert (HP : concat (<[i := <[p := e']> chain]> (array ht)) ≡ₚ
    e' :: delete p chain ++ rest (array ht) i).
  { by rewrite (concat_insert _ _ _ _ Hi), (insert_Permutation _ _ _ _ Hp). }
  assert (HP0 : concat (array ht) ≡ₚ e :: delete p chain ++ rest (array ht) i).
  { by rewrite (concat_at _ _ _ Hi), (delete_Permutation _ _ _ Hp) at 1. }
  split; cbn; try done.
  - by rewrite length_insert.
  - apply insert_at; [done|]. intros e1 He1. rewrite (insert_Permutation _ _ _ _ Hp) in He1.
    apply elem_of_cons in He1 as [->|He1].
    + apply (Hat _ _ e Hi). by eapply list_elem_of_lookup_2.
    + eapply Hat; [done|]. rewrite (delete_Permutation _ _ _ Hp). by right.
  - rewrite HP. rewrite HP0 in Hc. by apply content_set_val.
  - rewrite Hcnt, HP, HP0. done.
Qed.

Lemma unlink_ok mem h ht m i p chain e :
  hash_ok mem h ht m → array ht !! i = Some chain → chain !! p = Some e →
  Z.of_nat (size m) < 2 ^ 32 →
  hash_ok mem h (unlink (i, p) e ht) (delete (entry_bytes mem e) m).
Proof.
  intros [Hl Hm Hat Hc Hcnt Hld Hlaw] Hi Hp Hsz. unfold unlink. cbn [fst snd].
  rewrite (alter_at _ _ _ _ Hi).
  assert (HP : concat (<[i := delete p chain]> (array ht)) ≡ₚ delete p chain ++ rest (array ht) i)
    by (by rewrite (concat_insert _ _ _ _ Hi)).
  assert (HP0 : concat (array ht) ≡ₚ e :: delete p chain ++ rest (array ht) i).
  { by rewrite (concat_at _ _ _ Hi), (delete_Permutation _ _ _ Hp) at 1. }
  pose proof (content_size _ _ _ _ Hc) as Hs. rewrite HP0 in Hs. cbn in Hs.
  rewrite HP0 in Hcnt. cbn in Hcnt. rewrite u32_small by lia.
  split; cbn; try done; try lia.
  - by rewrite length_insert.
  - apply insert_at; [done|]. intros e1 He1. eapply Hat; [done|].
    rewrite (delete_Permutation _ _ _ Hp). by right.
  - rewrite HP. rewrite HP0 in Hc. by apply content_delete.
  - rewrite HP. lia.
Qed.

(** ** The operations *)

Lemma find_none_ok mem h ht m key klen bs :
  hash_ok mem h ht m → key_bytes mem key klen = Some bs →
  ∃ hep, find_entry mem key klen None ht = Some (hep, ht) ∧
    match deref hep ht with
    | Some (Some e, ht') => ht' = ht ∧ m !! bs = Some (e_key e, e_val e) ∧ entry_bytes mem e = bs ∧
        ∃ chain, array ht !! fst hep = Some chain ∧ chain !! snd hep = Some e
    | Some (None, ht') => ht' = ht ∧ m !! bs = None
    | None => False
    end.
Proof.
  intros Hok Hk. destruct (find_ok _ _ _ _ _ _ _ Hok Hk) as (chain & p & Hi & Hp & He & Hf).
  eexists. split; [apply (Hf None)|]. unfold deref, m_gets. cbn [fst snd]. rewrite Hi.
  cbn [mbind option_bind]. destruct (chain !! p) as [e|] eqn:Ep; [|naive_solver].
  split_and!; try naive_solver. 
Qed.

(** With a value, [find_entry] inserts what is missing. *)
Lemma find_some_ok mem h ht m key klen bs v :
  hash_ok mem h ht m → key_bytes mem key klen = Some bs → table_room m →
  ∃ hep ht1 e chain,
    find_entry mem key klen (Some v) ht = Some (hep, ht1) ∧
    array ht1 !! fst hep = Some chain ∧ chain !! snd hep = Some e ∧
    entry_bytes mem e = bs ∧ ht_count ht1 < 2 ^ 31 ∧
    hash_inv mem h 1 ht1 (<[bs := (e_key e, e_val e)]> m) ∧
    (e_key e, e_val e) = default (key, v) (m !! bs).
Proof.
  intros Hok Hk Hroom. pose proof Hk as Hk'.
  destruct (find_ok _ _ _ _ _ _ _ Hok Hk) as (chain & p & Hi & Hp & He & Hf).
  specialize (Hf (Some v)). destruct Hok as [Hl Hm Hat Hc Hcnt Hld Hlaw].
  pose proof (content_size _ _ _ _ Hc) as Hs. unfold table_room in Hroom.
  destruct (chain !! p) as [e|] eqn:Ep.
  - destruct He as [Hb Hmb]. pose proof (lookup_lt_Some _ _ _ Ep).
    replace (p <? length chain)%nat with true in Hf by (symmetry; by apply Nat.ltb_lt).
    eexists _, ht, e, chain. split_and!; [apply Hf|done|done|done|lia| |by rewrite Hmb].
    rewrite insert_id by done. split; try done. lia.
  - destruct He as [-> Hmb]. rewrite Nat.ltb_irrefl in Hf.
    set (e := Entry (h bs) key (Z.of_nat (length bs)) v) in Hf.
    set (i := Z.to_nat _) in *.
    assert (Hbe : entry_bytes mem e = bs ∧ good_entry mem h e).
    { unfold key_bytes in Hk'. destruct (mem !! key) as [obj|] eqn:Ek; [cbn in Hk'|done].
      apply resolve_read in Hk'. split.
      - unfold entry_bytes. cbn. rewrite Ek. cbn. by rewrite Hk'.
      - by exists obj, bs. }
    destruct Hbe as [Hbe Hge].
    assert (HP : concat (<[i := chain ++ [e]]> (array ht)) ≡ₚ e :: concat (array ht)).
    { rewrite (concat_insert _ _ _ _ Hi), (concat_at _ _ _ Hi). solve_Permutation. }
    eexists _, _, e, (chain ++ [e]). split_and!; [apply Hf|..]; cbn.
    + apply list_lookup_insert_eq. by eapply lookup_lt_Some.
    + by rewrite lookup_app_r, Nat.sub_diag by lia.
    + done.
    + rewrite u32_small; lia.
    + split; cbn; try done.
      * by rewrite length_insert.
      * apply insert_at; [done|]. intros e1 [He1| ->%list_elem_of_singleton]%elem_of_app;
          [by eapply Hat|done].
      * rewrite HP. rewrite <- Hbe. apply (content_insert _ _ _ _ e); [done|done|by rewrite Hbe].
      * rewrite HP. cbn. rewrite u32_small by lia. lia.
      * rewrite u32_small by lia. lia.
    + by rewrite Hmb.
Qed.

(** [find_entry] followed by the test of [*hep]. *)
Lemma set_ok mem h ht m key klen bs val :
  hash_ok mem h ht m → klen ≠ 0 → key_bytes mem key klen = Some bs → table_room m →
  wp (ogs_hash_set mem key klen val) (λ _ ht', hash_ok mem h ht' (map_set bs key val m)) ht.
Proof.
  intros Hok Hn Hk Hroom. unfold ogs_hash_set.
  apply wp_bind, wp_assert; [lia|].
  destruct val as [v|].
  - destruct (find_some_ok _ _ _ _ _ _ _ v Hok Hk Hroom)
      as (hep & ht1 & e & chain & Hf & Hi & Hp & Hb & Hcnt & Hinv & Hm).
    apply wp_bind, (wp_eq _ _ _ _ _ Hf), wp_bind, wp_gets.
    rewrite Hi. cbn [mbind option_bind]. rewrite Hp. apply wp_bind. apply wp_modify.
    destruct hep as [i p]. cbn [fst snd] in *.
    replace (map_set bs key (Some v) m) with (<[bs := (e_key e, v)]> m).
    + apply maybe_expand_ok; [|done]. rewrite <- Hb at 1.
      pose proof (set_val_ok _ _ _ _ _ _ _ _ _ v Hinv Hi Hp) as Hs. by rewrite Hb, insert_insert_eq in Hs; rewrite Hb.
    + unfold map_set. apply map_eq. intros bs'. destruct (decide (bs = bs')) as [<-|Hne].
      * rewrite lookup_insert_eq, lookup_partial_alter_eq. cbn. f_equal. f_equal.
        destruct (m !! bs) as [[p' v']|]; cbn in *; congruence.
      * by rewrite lookup_insert_ne, lookup_partial_alter_ne by done.
  - destruct (find_none_ok _ _ _ _ _ _ _ Hok Hk) as ([i p] & Hf & Hd).
    apply wp_bind, (wp_eq _ _ _ _ _ Hf), wp_bind. unfold wp at 1.
    destruct (deref (i, p) ht) as [[[e|] ht']|]; [|destruct Hd as [-> Hm]|done].
    + destruct Hd as (-> & Hm & Hb & chain & Hi & Hp). apply wp_modify.
      unfold map_set. cbn. change (partial_alter (λ _, None) bs m) with (delete bs m).
      rewrite <- Hb. eapply unlink_ok; try done. unfold table_room in Hroom. lia.
    + apply wp_ret. replace (map_set bs key None m) with m; [done|].
      unfold map_set. cbn. change (m = delete bs m). by rewrite delete_id.
Qed.

Lemma get_ok mem h ht m key klen bs :
  hash_ok mem h ht m → klen ≠ 0 → key_bytes mem key klen = Some bs →
  ogs_hash_get mem key klen ht = Some (snd <$> m !! bs, ht).
Proof.
  intros Hok Hn Hk. unfold ogs_hash_get, m_assert. replace (negb (klen =? 0)) with true by lia.
  destruct (find_none_ok _ _ _ _ _ _ _ Hok Hk) as (hep & Hf & Hd).
  rewrite (bind_step _ _ _ tt ht eq_refl), (bind_step _ _ _ _ _ Hf).
  unfold mbind, M_bind. destruct (deref hep ht) as [[[e|] ht']|]; [| |done].
  - destruct Hd as (-> & -> & _). done.
  - destruct Hd as [-> ->]. done.
Qed.

Lemma get_or_set_ok mem h ht m key klen bs val :
  hash_ok mem h ht m → klen ≠ 0 → key_bytes mem key klen = Some bs → table_room m →
  wp (ogs_hash_get_or_set mem key klen val)
    (λ r ht', r = (match m !! bs with Some (_, v) => Some v | None => val end) ∧
      hash_ok mem h ht' (if m !! bs is Some _ then m else map_set bs key val m)) ht.
Proof.
  intros Hok Hn Hk Hroom. unfold ogs_hash_get_or_set.
  apply wp_bind, wp_assert; [lia|].
  destruct val as [v|].
  - destruct (find_some_ok _ _ _ _ _ _ _ v Hok Hk Hroom)
      as (hep & ht1 & e & chain & Hf & Hi & Hp & Hb & Hcnt & Hinv & Hm).
    apply wp_bind, (wp_eq _ _ _ _ _ Hf), wp_bind, wp_gets.
    rewrite Hi. cbn [mbind option_bind]. rewrite Hp. apply wp_bind.
    eapply wp_mono; [by apply maybe_expand_ok|]. intros ? ht' Hht'. apply wp_ret.
    rewrite Hm in Hht'. unfold map_set.
    destruct (m !! bs) as [[p' v']|] eqn:Em; cbn in Hm, Hht'; injection Hm as E1 E2.
    + split; [congruence|]. by rewrite insert_id in Hht'.
    + split; [congruence|]. cbn. replace (partial_alter _ bs m) with (<[bs := (key, v)]> m); [done|].
      apply map_eq. intros bs'. destruct (decide (bs = bs')) as [<-|Hne].
      * by rewrite lookup_insert_eq, lookup_partial_alter_eq, Em.
      * by rewrite lookup_insert_ne, lookup_partial_alter_ne by done.
  - destruct (find_none_ok _ _ _ _ _ _ _ Hok Hk) as (hep & Hf & Hd).
    apply wp_bind, (wp_eq _ _ _ _ _ Hf), wp_bind. unfold wp at 1.
    destruct (deref hep ht) as [[[e|] ht']|]; [|destruct Hd as [-> Hm]|done].
    + destruct Hd as (-> & Hm & Hb & _). rewrite Hm. apply wp_bind.
      eapply wp_mono; [apply (maybe_expand_ok mem h ht m)|intros ? ht' Hht'; apply wp_ret; split; [done|exact Hht']].
      * destruct Hok; split; try done. lia.
      * destruct Hok. pose proof (content_size _ _ _ _ ho_content0). unfold table_room in *. lia.
    + apply wp_ret. rewrite Hm. split; [done|]. unfold map_set. cbn.
      change (hash_ok mem h ht (delete bs m)). by rewrite delete_id.
Qed.

Lemma rekey_ok mem h ht m key klen bs v :
  hash_ok mem h ht m → klen ≠ 0 → key_bytes mem key klen = Some bs → table_room m →
  wp (ogs_hash_set_rekey mem key klen (Some v))
    (λ _ ht', hash_ok mem h ht' (<[bs := (key, v)]> m)) ht.
Proof.
  intros Hok Hn Hk Hroom. unfold ogs_hash_set_rekey.
  apply wp_bind, wp_assert; [lia|]. apply wp_bind, wp_assert; [done|].
  apply wp_bind. eapply wp_mono; [by apply set_ok|]. cbn beta. intros _ ht1 Hok1.
  eapply wp_mono; [apply set_ok; try done|].
  - by apply table_room_delete.
  - cbn beta. intros _ ht2 Hok2.
    replace (<[bs := (key, v)]> m) with (map_set bs key (Some v) (map_set bs key None m)); [done|].
    rewrite map_set_None. unfold map_set. apply map_eq. intros bs'.
    destruct (decide (bs = bs')) as [<-|Hne].
    + by rewrite lookup_insert_eq, lookup_partial_alter_eq, lookup_delete_eq.
    + by rewrite lookup_insert_ne, lookup_partial_alter_ne, lookup_delete_ne by done.
Qed.

Lemma unset_if_owner_ok mem h ht m key klen bs owner :
  hash_ok mem h ht m → klen ≠ 0 → key_bytes mem key klen = Some bs → table_room m →
  wp (ogs_hash_unset_if_owner mem key klen owner)
    (λ b ht', b = bool_decide (snd <$> m !! bs = Some owner) ∧
       hash_ok mem h ht' (if b then delete bs m else m)) ht.
Proof.
  intros Hok Hn Hk Hroom. unfold ogs_hash_unset_if_owner.
  apply wp_bind, wp_assert; [lia|].
  apply wp_bind, (wp_eq _ _ _ _ _ (get_ok _ _ _ _ _ _ _ Hok Hn Hk)).
  destruct (decide (snd <$> m !! bs = Some owner)) as [E|E].
  - apply wp_bind. eapply wp_mono; [by apply set_ok|]. cbn beta. intros _ ht' Hht'.
    apply wp_ret. by rewrite bool_decide_eq_true_2.
  - apply wp_ret. by rewrite bool_decide_eq_false_2.
Qed.

Lemma recycle_perm (he free : list (entry V)) : recycle he free ≡ₚ he ++ free.
Proof.
  revert free. induction he as [|e he IH]; intros free; cbn; [done|]. rewrite IH. solve_Permutation.
Qed.

Lemma clear_free ht : ht_free (ogs_hash_clear ht) ≡ₚ concat (array ht) ++ ht_free ht.
Proof.
  unfold ogs_hash_clear. cbn. generalize (ht_free ht). induction (array ht) as [|b arr IH];
    intros free; cbn; [done|]. rewrite IH, recycle_perm. solve_Permutation.
Qed.

Lemma concat_fmap_nil (arr : list (list (entry V))) : concat ((λ _, @nil (entry V)) <$> arr) = [].
Proof. by induction arr. Qed.

Lemma content_nil mem h : content mem h [] ∅.
Proof. split; [constructor|constructor|done]. Qed.

(** Clearing a table does not depend on the key storage: [mem'] is arbitrary. *)
Lemma clear_ok mem mem' h ht m : hash_ok mem h ht m → hash_ok mem' h (ogs_hash_clear ht) ∅.
Proof.
  intros [Hl Hm Hat Hc Hcnt Hld Hlaw]. split; cbn; try done.
  - by rewrite length_fmap.
  - intros i b e Hb He. rewrite list_lookup_fmap in Hb.
    destruct (array ht !! i); cbn in Hb; simplify_eq. by apply elem_of_nil in He.
  - rewrite concat_fmap_nil. apply content_nil.
  - by rewrite concat_fmap_nil.
  - lia.
Qed.

Lemma make_ok mem h seed : lawful h (ogs_hash_make seed) → hash_ok mem h (ogs_hash_make seed) ∅.
Proof.
  intros Hlaw. split; try done.
  - by exists 4.
  - intros i b e Hb He. apply lookup_replicate in Hb as [-> _]. by apply elem_of_nil in He.
  - unfold ogs_hash_make, array, alloc_array. rewrite concat_replicate_nil. apply content_nil.
Qed.

(** A table only depends on the storage of the key pointers it keeps. *)
Lemma frame_ok mem mem' h ht m :
  hash_ok mem h ht m → (∀ bs p v, m !! bs = Some (p, v) → mem' !! p = mem !! p) →
  hash_ok mem' h ht m.
Proof.
  intros [Hl Hm Hat Hc Hcnt Hld Hlaw] Hf. split; try done.
  assert (He : ∀ e, e ∈ concat (array ht) → mem' !! e_key e = mem !! e_key e).
  { intros e He. eapply Hf. by eapply content_lookup_elem. }
  assert (Hb : ∀ e, e ∈ concat (array ht) → entry_bytes mem' e = entry_bytes mem e).
  { intros e Hin. unfold entry_bytes. by rewrite He. }
  destruct Hc as [Hg Hn Hmap]. rewrite Forall_forall in Hg. split.
  - apply Forall_forall. intros e Hin. destruct (Hg _ Hin) as (o & bs & H1 & H2 & H3).
    exists o, bs. by rewrite He.
  - rewrite (list_fmap_ext (entry_bytes mem') (entry_bytes mem)); [done|].
    intros i e Hi. apply Hb. by eapply list_elem_of_lookup_2.
  - rewrite Hmap. f_equal. apply list_fmap_ext. intros i e Hi. unfold binding.
    rewrite Hb; [done|]. by eapply list_elem_of_lookup_2.
Qed.

Lemma do_ok {R} (comp : R → kptr → Z → V → R * Z) (rec : R) mem h ht m :
  hash_ok mem h ht m →
  ogs_hash_do comp rec ht = iter_list
    (λ e r, let '(r, rv) := comp (fst r) (e_key e) (e_klen e) (e_val e) in
            Some ((r, if rv =? 0 then 0 else 1), negb (rv =? 0))) (concat (array ht)) (rec, 1).
Proof. intros [Hl _ _ _ _ _ _]. unfold ogs_hash_do. by rewrite hash_for_ok. Qed.

#[export, refine] Instance ogs_hash_table : KeyTable (ogs_hash_t V) V := {
  kt_ok mem ht m := ∃ h, hash_ok mem h ht m;
  kt_get := ogs_hash_get;
  kt_set := ogs_hash_set;
  kt_get_spec := _; kt_set_spec := _; kt_frame := _ }.
Proof.
  - intros mem t m key klen bs [h Hok]. by eapply get_ok.
  - intros mem t m key klen bs val [h Hok] Hn Hk Hr. eapply wp_mono; [by eapply set_ok|].
    cbn beta. intros _ t' Hok'. by exists h.
  - intros mem mem' t m [h Hok] Hf. exists h. by eapply frame_ok.
Defined.
End refinement.
