(* ===== verification/HashSpec.v ===== *)
(** * Hash table: the properties

    Any sequence of calls on a table, interleaved with changes of the memory
    it does not use, behaves as the finite map documented in ogs-hash.h. *)
From S2P Require Import Prelude KeyTable Hash HashMap.
#[local] Open Scope Z_scope.

Section spec.
Context {V : Type} `{EqDecision V}.
Abbreviation map := (gmap (list Z) (kptr * V)).

(** A call; [Store] is any change of the memory around the table. *)
Inductive call :=
  | Get (key : kptr) (klen : Z)
  | Set_ (key : kptr) (klen : Z) (val : option V)
  | GetOrSet (key : kptr) (klen : Z) (val : option V)
  | SetRekey (key : kptr) (klen : Z) (val : V)
  | UnsetIfOwner (key : kptr) (klen : Z) (owner : V)
  | Count
  | Clear
  | Store (mem : memory).

Inductive result := RNone | RVal (v : option V) | RBool (b : bool) | RCount (n : Z).

(** A call on the table. *)
Definition run_call (c : call) (mem : memory) (ht : ogs_hash_t V)
    : option (result * (memory * ogs_hash_t V)) :=
  match c with
  | Get k n => '(v, ht) ← ogs_hash_get mem k n ht; Some (RVal v, (mem, ht))
  | Set_ k n v => '(_, ht) ← ogs_hash_set mem k n v ht; Some (RNone, (mem, ht))
  | GetOrSet k n v => '(r, ht) ← ogs_hash_get_or_set mem k n v ht; Some (RVal r, (mem, ht))
  | SetRekey k n v => '(_, ht) ← ogs_hash_set_rekey mem k n (Some v) ht; Some (RNone, (mem, ht))
  | UnsetIfOwner k n o => '(b, ht) ← ogs_hash_unset_if_owner mem k n o ht; Some (RBool b, (mem, ht))
  | Count => Some (RCount (ogs_hash_count ht), (mem, ht))
  | Clear => Some (RNone, (mem, ogs_hash_clear ht))
  | Store mem' => Some (RNone, (mem', ht))
  end.

Fixpoint run_calls (cs : list call) (mem : memory) (ht : ogs_hash_t V)
    : option (list result * (memory * ogs_hash_t V)) :=
  match cs with
  | [] => Some ([], (mem, ht))
  | c :: cs =>
      '(r, (mem, ht)) ← run_call c mem ht;
      '(rs, st) ← run_calls cs mem ht;
      Some (r :: rs, st)
  end.

(** The documented effect of a call, on the map. *)
Definition spec_call (c : call) (mem : memory) (m : map) : result * (memory * map) :=
  let bytes k n := default [] (key_bytes mem k n) in
  match c with
  | Get k n => (RVal (snd <$> m !! bytes k n), (mem, m))
  | Set_ k n v => (RNone, (mem, map_set (bytes k n) k v m))
  | GetOrSet k n v =>
      match m !! bytes k n with
      | Some (_, v') => (RVal (Some v'), (mem, m))
      | None => (RVal v, (mem, map_set (bytes k n) k v m))
      end
  | SetRekey k n v => (RNone, (mem, <[bytes k n := (k, v)]> m))
  | UnsetIfOwner k n o =>
      if decide (snd <$> m !! bytes k n = Some o) then (RBool true, (mem, delete (bytes k n) m))
      else (RBool false, (mem, m))
  | Count => (RCount (Z.of_nat (size m)), (mem, m))
  | Clear => (RNone, (mem, ∅))
  | Store mem' => (RNone, (mem', m))
  end.

(** What a caller must respect: readable keys of non-zero length, and the
    storage of the keys in the table stays as it is. *)
Definition call_ok (c : call) (mem : memory) (m : map) : Prop :=
  match c with
  | Get k n | Set_ k n _ | GetOrSet k n _ | SetRekey k n _ | UnsetIfOwner k n _ =>
      n ≠ 0 ∧ is_Some (key_bytes mem k n) ∧ table_room m
  | Count | Clear => True
  | Store mem' => ∀ bs p v, m !! bs = Some (p, v) → mem' !! p = mem !! p
  end.

Fixpoint calls_ok (cs : list call) (mem : memory) (m : map) : Prop :=
  match cs with
  | [] => True
  | c :: cs =>
      call_ok c mem m ∧ calls_ok cs (fst (snd (spec_call c mem m))) (snd (snd (spec_call c mem m)))
  end.

Fixpoint spec_calls (cs : list call) (mem : memory) (m : map) : list result :=
  match cs with
  | [] => []
  | c :: cs =>
      fst (spec_call c mem m) ::
      spec_calls cs (fst (snd (spec_call c mem m))) (snd (snd (spec_call c mem m)))
  end.

Lemma run_call_ok c mem h ht m :
  hash_ok mem h ht m → call_ok c mem m →
  ∃ ht', run_call c mem ht =
    Some (fst (spec_call c mem m), (fst (snd (spec_call c mem m)), ht')) ∧
    hash_ok (fst (snd (spec_call c mem m))) h ht' (snd (snd (spec_call c mem m))).
Proof.
  intros Hok Hc. destruct c as [k n|k n v|k n v|k n v|k n o| | |mem']; cbn in Hc |- *.
  1-5: destruct Hc as (Hn & [bs Hk] & Hr); rewrite Hk; cbn.
  - exists ht. rewrite (get_ok _ _ _ _ _ _ _ Hok Hn Hk). done.
  - destruct (proj1 (wp_run _ _ _) (set_ok _ _ _ _ _ _ _ v Hok Hn Hk Hr)) as (? & ht' & E & H).
    exists ht'. by rewrite E.
  - destruct (proj1 (wp_run _ _ _) (get_or_set_ok _ _ _ _ _ _ _ v Hok Hn Hk Hr))
      as (r & ht' & E & -> & H). exists ht'. rewrite E. by destruct (m !! bs) as [[??]|].
  - destruct (proj1 (wp_run _ _ _) (rekey_ok _ _ _ _ _ _ _ v Hok Hn Hk Hr)) as (? & ht' & E & H).
    exists ht'. by rewrite E.
  - destruct (proj1 (wp_run _ _ _) (unset_if_owner_ok _ _ _ _ _ _ _ o Hok Hn Hk Hr))
      as (b & ht' & E & -> & H). exists ht'. rewrite E. cbn. by destruct (decide _) as [D|D];
      [rewrite bool_decide_eq_true_2 in * by done|rewrite bool_decide_eq_false_2 in * by done].
  - exists ht. split; [|done]. destruct Hok as [_ _ _ Hc' Hcnt _ _]. unfold ogs_hash_count.
    by rewrite Hcnt, (content_size _ _ _ _ Hc').
  - eexists. split; [done|]. by eapply clear_ok.
  - exists ht. split; [done|]. by eapply frame_ok.
Qed.

Lemma run_calls_ok cs mem h ht m :
  hash_ok mem h ht m → calls_ok cs mem m →
  ∃ st, run_calls cs mem ht = Some (spec_calls cs mem m, st).
Proof.
  revert mem ht m. induction cs as [|c cs IH]; intros mem ht m Hok Hcs; cbn; [by eexists|].
  destruct Hcs as [Hc Hcs]. destruct (run_call_ok _ _ _ _ _ Hok Hc) as (ht' & E & Hok').
  destruct (IH _ _ _ Hok' Hcs) as (st & E'). exists st. rewrite E. cbn. by rewrite E'.
Qed.

(** C25: Refinement: on a table made by [ogs_hash_make], any sequence of
    get, set, get_or_set, set_rekey, unset_if_owner, count and clear calls with
    readable keys (while the memory outside the keys in use changes freely)
    returns what the finite map from key bytes returns; no call aborts, reads
    a dangling key or loops, across any number of expansions. *)
Theorem ogs_hash_refines_map (seed : Z) (cs : list call) (mem : memory) :
  calls_ok cs mem ∅ →
  ∃ st, run_calls cs mem (ogs_hash_make seed) = Some (spec_calls cs mem ∅, st).
Proof.
  intros Hcs. eapply run_calls_ok; [|done]. eapply make_ok, default_lawful. done.
Qed.

(** [ogs_hash_set_rekey] releases the displaced key storage: when an
    identity is re-claimed by a new context with its own copy [key] of the
    key, the old copy [old] may be freed or reused, in any way that leaves the
    keys of the other entries, and the table still maps the key to the new
    value and every other key as before.  [ogs_hash_set] instead keeps the old
    key pointer. *)
Theorem ogs_hash_set_rekey_releases (mem mem' : memory) (ht : ogs_hash_t V) (m : map)
    (key old : kptr) (klen : Z) (bs : list Z) (v w : V) :
  kt_ok mem ht m → klen ≠ 0 → key_bytes mem key klen = Some bs → table_room m →
  m !! bs = Some (old, w) → mem' !! key = mem !! key →
  (∀ bs' p u, bs' ≠ bs → m !! bs' = Some (p, u) → mem' !! p = mem !! p) →
  wp (ogs_hash_set_rekey mem key klen (Some v))
    (λ _ ht', kt_ok mem' ht' (<[bs := (key, v)]> m)) ht ∧
  wp (ogs_hash_set mem key klen (Some v))
    (λ _ ht', kt_ok mem ht' (<[bs := (old, v)]> m)) ht.
Proof.
  intros [h Hok] Hn Hk Hr Hm Hkey Hf. split.
  - eapply wp_mono; [by eapply rekey_ok|]. cbn beta. intros _ ht' Hok'. exists h.
    eapply frame_ok; [done|]. intros bs' p u [[<- [= <- <-]]|[Hne Hb]]%lookup_insert_Some; [done|].
    by eapply Hf.
  - eapply wp_mono; [by eapply set_ok|]. cbn beta. intros _ ht' Hok'. exists h.
    replace (<[bs := (old, v)]> m) with (map_set bs key (Some v) m); [done|].
    apply map_eq. intros bs'. unfold map_set. destruct (decide (bs = bs')) as [<-|Hne].
    + by rewrite lookup_insert_eq, lookup_partial_alter_eq, Hm.
    + by rewrite lookup_insert_ne, lookup_partial_alter_ne by done.
Qed.

(** [ogs_hash_clear] never reads a key: from a table that was built with
    valid keys, whatever became of the key storage since ([mem'] may have freed
    all of it), it yields the empty table, and recycles every entry exactly
    once; [ogs_hash_destroy] frees all of them. *)
Theorem ogs_hash_clear_without_keys (mem mem' : memory) (ht : ogs_hash_t V) (m : map) :
  kt_ok mem ht m →
  kt_ok mem' (ogs_hash_clear ht) ∅ ∧ ogs_hash_count (ogs_hash_clear ht) = 0 ∧
  ogs_hash_destroy ht ≡ₚ concat (array ht) ++ ht_free ht ∧
  Z.of_nat (length (concat (array ht))) = ogs_hash_count ht.
Proof.
  intros [h Hok]. split_and!; [|done|apply clear_free|by destruct Hok].
  exists h. by eapply clear_ok.
Qed.

(** The callback of [ogs_hash_do] over a list of bindings. *)
Fixpoint do_spec {R} (comp : R → kptr → Z → V → R * Z) (kvs : list (list Z * (kptr * V))) (rec : R)
    : R * Z :=
  match kvs with
  | [] => (rec, 1)
  | (bs, (k, v)) :: kvs =>
      let '(rec, rv) := comp rec k (Z.of_nat (length bs)) v in
      if rv =? 0 then (rec, 0) else do_spec comp kvs rec
  end.

(** Iteration: [ogs_hash_do] calls the callback on every binding of the
    map exactly once, in some order, stops at the first callback that returns
    0, and returns 0 exactly in that case. *)
Theorem ogs_hash_do_visits_all {R} (comp : R → kptr → Z → V → R * Z) (rec : R)
    (mem : memory) (ht : ogs_hash_t V) (m : map) :
  kt_ok mem ht m →
  ∃ kvs, kvs ≡ₚ map_to_list m ∧ ogs_hash_do comp rec ht = Some (do_spec comp kvs rec).
Proof.
  intros [h Hok]. exists (binding mem <$> concat (array ht)).
  rewrite (do_ok comp rec _ _ _ _ Hok). destruct Hok as [_ _ _ [Hg Hn ->] _ _ _]. split.
  - symmetry. apply map_to_list_to_map. by rewrite keys_binding.
  - revert rec. induction Hg as [|e es He Hg IH]; intros rec; [done|]. cbn.
    destruct He as (obj & bs & Ho & Hr & _).
    assert (Z.of_nat (length (entry_bytes mem e)) = e_klen e) as ->.
    { unfold entry_bytes. rewrite Ho. cbn. rewrite Hr. cbn. by eapply read_bytes_length. }
    destruct (comp rec _ _ _) as [rec' rv]. destruct (rv =? 0); cbn; [done|].
    apply IH. by apply NoDup_cons in Hn as [_ Hn].
Qed.
End spec.

(** ** Witnesses *)

(** Two copies of the key "ab" and one of the key "c". *)
Definition demo_mem : memory := list_to_map [(1%positive, [97; 98; 0]); (2%positive, [97; 98; 0; 1]);
  (3%positive, [99; 0])].
Definition demo_calls : list (call (V:=nat)) :=
  [Set_ 1 (-1) (Some 7%nat); Get 2 2; GetOrSet 3 1 (Some 8%nat); GetOrSet 3 (-1) (Some 9%nat);
   Count; UnsetIfOwner 2 (-1) 5%nat; SetRekey 2 (-1) 5%nat; UnsetIfOwner 1 2 5%nat; Get 1 2; Clear; Count].

Lemma ogs_hash_refines_map_witness :
  ∃ st, run_calls demo_calls demo_mem (ogs_hash_make 12345) =
    Some ([RNone; RVal (Some 7%nat); RVal (Some 8%nat); RVal (Some 8%nat); RCount 2; RBool false;
           RNone; RBool true; RVal None; RNone; RCount 0], st).
Proof.
  destruct (ogs_hash_refines_map 12345 demo_calls demo_mem) as [st H].
  - repeat split; first [done|eexists; vm_compute; reflexivity].
  - exists st. rewrite H. vm_compute. reflexivity.
Defined.

(** A table that holds "ab". *)
Lemma demo_table : ∃ ht : ogs_hash_t nat, kt_ok demo_mem ht {[ [97; 98] := (1%positive, 7%nat) ]}.
Proof.
  assert (H0 : kt_ok demo_mem (ogs_hash_make (V:=nat) 0) ∅).
  { eexists. apply make_ok, default_lawful. done. }
  pose proof (kt_set_spec demo_mem _ _ 1 (-1) [97; 98] (Some 7%nat) H0
    ltac:(done) ltac:(done) ltac:(done)) as H.
  apply wp_run in H as (_ & ht & _ & Hok). by exists ht.
Qed.

Lemma ogs_hash_set_rekey_releases_witness :
  ∃ ht : ogs_hash_t nat, kt_ok (delete 1%positive demo_mem) ht {[ [97; 98] := (2%positive, 9%nat) ]}.
Proof.
  destruct demo_table as [ht Hok].
  destruct (ogs_hash_set_rekey_releases demo_mem (delete 1%positive demo_mem) ht _ 2 1 (-1) [97; 98]
    9%nat 7%nat Hok) as [H _]; try done.
  { intros bs' p u Hne [E _]%lookup_singleton_Some. congruence. }
  apply wp_run in H as (_ & ht' & _ & H). exists ht'. by rewrite insert_singleton_eq in H.
Defined.

Lemma ogs_hash_clear_without_keys_witness :
  ∃ ht : ogs_hash_t nat, ogs_hash_count ht = 1 ∧ kt_ok ∅ (ogs_hash_clear ht) ∅.
Proof.
  destruct demo_table as [ht Hok]. exists ht.
  split; [|exact (proj1 (ogs_hash_clear_without_keys demo_mem ∅ ht _ Hok))].
  destruct Hok as [h [_ _ _ Hc Hcnt _ _]]. unfold ogs_hash_count.
  by rewrite Hcnt, <- (content_size _ _ _ _ Hc).
Defined.

Lemma ogs_hash_do_visits_all_witness :
  ∃ ht : ogs_hash_t nat,
    ogs_hash_do (λ n _ klen v, (n + klen + Z.of_nat v, 1)) 0 ht = Some (9, 1).
Proof.
  destruct demo_table as [ht Hok]. exists ht.
  destruct (ogs_hash_do_visits_all (λ n _ klen v, (n + klen + Z.of_nat v, 1)) 0 _ _ _ Hok)
    as (kvs & Hp & ->). rewrite map_to_list_singleton in Hp.
  by apply Permutation_singleton_r in Hp as ->.
Defined.
