(* ===== verification/Pool.v ===== *)
(** * Object pools: lib/core/ogs-pool.h

    The macros that hand out the contexts of a network function from a fixed
    array: the ring of free nodes, the table of node indices, and the table
    from node ids to nodes, which is verified against the interface
    [KeyTable]. *)
From S2P Require Import Prelude KeyTable.

Definition OGS_INVALID_POOL_ID : Z := 0.
Definition OGS_MIN_POOL_ID : Z := 1.
Definition OGS_MAX_POOL_ID : Z := 0x7fffffff.

(** OGS_NEXT_ID of lib/proto/types.h. *)
Definition OGS_NEXT_ID (id min max : Z) : Z := if (id =? max)%Z then min else (id + 1)%Z.

(** An ogs_pool_id_t in memory (little endian). *)
Definition id_bytes (id : Z) : list Z :=
  [id mod 256; id / 256 mod 256; id / 65536 mod 256; id / 16777216 mod 256]%Z.

(** Addresses of the id that a caller passes, and of the id of a node. *)
Definition arg_ptr : kptr := 1.
Definition id_ptr (n : nat) : kptr := Pos.of_succ_nat (S n).

(** ** Pools of ids: arrays of ogs_pool_id_t *)

(** The loop [array[i] = i+1]. *)
Definition ogs_pool_sequence_id_generate (size : nat) : list Z :=
  (λ i, Z.of_nat i + 1)%Z <$> seq 0 size.

(** The exchange of [array[i]] and [array[j]]. *)
Definition swap (a : list Z) (i j : nat) : option (list Z) :=
  x ← a !! i; y ← a !! j; Some (<[j := x]> (<[i := y]> a)).

(** The loop [for (i = size - 1; i > 0; i--)]; [random k] is the value of the
    [k]-th call of [ogs_random32]. *)
Fixpoint shuffle (random : nat → Z) (i : nat) (a : list Z) : option (list Z) :=
  match i with
  | O => Some a
  | S i' =>
      let j := Z.to_nat (random i mod Z.of_nat (i + 1)) in
      a ← swap a i j; shuffle random i' a
  end.

Definition ogs_pool_random_id_generate (random : nat → Z) (size : nat) : option (list Z) :=
  shuffle random (size - 1) (ogs_pool_sequence_id_generate size).

(** [ogs_pool_assert_if_has_duplicate]: aborts (None) on a duplicate. *)
Fixpoint ogs_pool_assert_if_has_duplicate (a : list Z) : option unit :=
  match a with
  | [] => Some tt
  | x :: a => if existsb (Z.eqb x) a then None else ogs_pool_assert_if_has_duplicate a
  end.

Lemma swap_ok a i j : i < length a → j < length a → ∃ a', swap a i j = Some a' ∧ a' ≡ₚ a.
Proof.
  intros Hi Hj. destruct (lookup_lt_is_Some_2 _ _ Hi) as [x Hx], (lookup_lt_is_Some_2 _ _ Hj) as [y Hy].
  unfold swap. rewrite Hx, Hy. eexists. split; [done|].
  by apply Permutation_insert_swap.
Qed.

Lemma shuffle_ok random i a :
  i < length a → ∃ a', shuffle random i a = Some a' ∧ a' ≡ₚ a.
Proof.
  revert a. induction i as [|i IH]; intros a Hi; [by exists a|]. cbn [shuffle].
  set (j := Z.to_nat _).
  assert (Hj : j < length a).
  { unfold j. pose proof (Z.mod_pos_bound (random (S i)) (Z.of_nat (S i + 1)) ltac:(lia)). lia. }
  destruct (swap_ok a (S i) j Hi Hj) as (a1 & E & HP). rewrite E. cbn.
  destruct (IH a1) as (a2 & E2 & HP2); [rewrite HP; lia|]. exists a2. split; [done|by rewrite HP2].
Qed.

Lemma no_duplicate_ok a : NoDup a → ogs_pool_assert_if_has_duplicate a = Some tt.
Proof.
  induction 1 as [|x a Hx Hn IH]; [done|]. cbn.
  destruct (existsb (Z.eqb x) a) eqn:E; [|done].
  apply existsb_exists in E as (y & Hy & ->%Z.eqb_eq). by apply list_elem_of_In in Hy.
Qed.

Section pool.
Context {T : Type} `{KeyTable T nat}.

(** OGS_POOL: nodes are indices of [array]; [ids] are the [id] fields of the
    nodes; NULL in [free] and [index] is None. *)
Record ogs_pool := Pool {
  head : nat; tail : nat; size_ : nat; avail : nat;
  free : list (option nat); ids : list Z; index : list (option nat);
  id_hash : T; id : Z }.

Definition ogs_pool_init (size : nat) (hash : T) : ogs_pool :=
  Pool 0 0 size size (Some <$> seq 0 size) (replicate size 0%Z) (replicate size None) hash 0.

(** The [index] slot of a node: [index[ogs_pool_index(pool, node) - 1] = v]. *)
Definition ogs_pool_index (node : nat) : nat := node + 1.
Definition set_index (node : nat) (v : option nat) (index : list (option nat)) : list (option nat) :=
  <[ogs_pool_index node - 1 := v]> index.

Definition ogs_pool_alloc : M ogs_pool (option nat) :=
  p ← m_get;
  if decide (0 < avail p) then
    node ← m_some (free p !! head p);
    n ← m_some node;
    m_modify (λ p, Pool ((head p + 1) mod size_ p) (tail p) (size_ p) (avail p - 1)
      (<[head p := None]> (free p)) (ids p) (set_index n (Some n) (index p)) (id_hash p) (id p));;
    mret (Some n)
  else mret None.

Definition ogs_pool_free (node : nat) : M ogs_pool unit :=
  m_modify (λ p,
    if decide (avail p < size_ p) then
      Pool (head p) ((tail p + 1) mod size_ p) (size_ p) (avail p + 1)
        (<[tail p := Some node]> (free p)) (ids p) (set_index node None (index p)) (id_hash p) (id p)
    else p).

Definition ogs_pool_find (p : ogs_pool) (i : Z) : option nat :=
  if decide (0 < i ≤ Z.of_nat (size_ p))%Z then default None (index p !! Z.to_nat (i - 1)) else None.

(** The memory that the keys of [id_hash] point to, and the variable [id] of
    the caller. *)
Definition pool_mem (p : ogs_pool) (id : Z) : memory :=
  <[arg_ptr := id_bytes id]> (list_to_map (imap (λ n id, (id_ptr n, id_bytes id)) (ids p))).

Definition set_hash (key : kptr) (val : option nat) : M ogs_pool unit :=
  p ← m_get;
  '(_, h) ← m_some (kt_set (pool_mem p 0) key 4 val (id_hash p));
  m_modify (λ p, Pool (head p) (tail p) (size_ p) (avail p) (free p) (ids p) (index p) h (id p)).

(** The node is cleared, gets the next id and is entered in [id_hash]. *)
Definition ogs_pool_id_calloc : M ogs_pool (option nat) :=
  node ← ogs_pool_alloc;
  match node with
  | Some n =>
      m_modify (λ p,
        let id := OGS_NEXT_ID (id p) 1 OGS_MAX_POOL_ID in
        Pool (head p) (tail p) (size_ p) (avail p) (free p) (<[n := id]> (ids p)) (index p)
          (id_hash p) id);;
      set_hash (id_ptr n) (Some n);;
      mret (Some n)
  | None => mret None
  end.

Definition ogs_pool_id_free (node : nat) : M ogs_pool unit :=
  p ← m_get;
  nid ← m_some (ids p !! node);
  m_assert ((OGS_MIN_POOL_ID <=? nid) && (nid <=? OGS_MAX_POOL_ID))%Z;;
  set_hash (id_ptr node) None;;
  ogs_pool_free node.

Definition ogs_pool_find_by_id (p : ogs_pool) (id : Z) : option (option nat) :=
  fst <$> kt_get (pool_mem p id) arg_ptr 4 (id_hash p).

(** ** The ring of free nodes *)

(** [fs] are the free nodes in the order in which they will be handed out,
    [used] the nodes handed out. *)
Record pool_ok (p : ogs_pool) (fs used : list nat) : Prop := {
  po_free : length (free p) = size_ p;
  po_index : length (index p) = size_ p;
  po_ids : length (ids p) = size_ p;
  po_head : head p < size_ p;
  po_avail : avail p = length fs;
  po_tail : tail p = (head p + avail p) mod size_ p;
  po_ring : ring (free p) (head p) (avail p) = Some <$> fs;
  po_nodes : fs ++ used ≡ₚ seq 0 (size_ p);
  po_lookup : ∀ n, n < size_ p → index p !! n = Some (if decide (n ∈ used) then Some n else None) }.

Lemma pool_nodup p fs used : pool_ok p fs used → NoDup (fs ++ used).
Proof. intros []. rewrite po_nodes0. apply NoDup_seq. Qed.

Lemma pool_node_lt p fs used n : pool_ok p fs used → n ∈ fs ++ used → n < size_ p.
Proof. intros [] Hn. rewrite po_nodes0 in Hn. apply elem_of_seq in Hn. lia. Qed.

Lemma pool_length p fs used : pool_ok p fs used → length fs + length used = size_ p.
Proof.
  intros []. rewrite <- length_app, po_nodes0. apply length_seq.
Qed.

Lemma init_ok size hash : 0 < size → pool_ok (ogs_pool_init size hash) (seq 0 size) [].
Proof.
  intros Hs. split; cbn; rewrite ?length_fmap, ?length_seq, ?length_replicate; try done.
  - by rewrite Nat.Div0.mod_same.
  - unfold ring. rewrite drop_0, take_0, app_nil_r. apply take_ge.
    by rewrite length_fmap, length_seq.
  - by rewrite app_nil_r.
  - intros n Hn. rewrite lookup_replicate_2 by done. rewrite decide_False; [done|apply not_elem_of_nil].
Qed.

Lemma alloc_ok p n fs used :
  pool_ok p (n :: fs) used →
  ∃ p', ogs_pool_alloc p = Some (Some n, p') ∧ pool_ok p' fs (n :: used) ∧
    ids p' = ids p ∧ id_hash p' = id_hash p ∧ id p' = id p ∧ size_ p' = size_ p.
Proof.
  intros Hok. pose proof (pool_length _ _ _ Hok) as Hlen.
  pose proof (pool_node_lt _ _ _ n Hok ltac:(by left)) as Hn.
  pose proof (pool_nodup _ _ _ Hok) as Hnd.
  destruct Hok as [Hf Hi Hd Hh Ha Ht Hr Hp Hl]. cbn in Hlen, Ha.
  assert (Hhd : free p !! head p = Some (Some n)).
  { assert (Hx : ring (free p) (head p) (avail p) !! 0 = Some (Some n)) by by rewrite Hr.
    rewrite ring_lookup in Hx by lia. rewrite Nat.add_0_r, Nat.mod_small in Hx by lia. done. }
  eexists. split.
  { unfold ogs_pool_alloc, mbind, M_bind, m_get, m_some, m_modify, mret, M_ret.
    rewrite decide_True by lia. by rewrite Hhd. }
  split; [|done]. split; cbn; unfold set_index; rewrite ?length_insert; try done.
  - apply Nat.mod_upper_bound. lia.
  - lia.
  - rewrite Ht, Nat.Div0.add_mod_idemp_l. f_equal. lia.
  - rewrite Ha in Hr |- *. cbn. rewrite Nat.sub_0_r.
    rewrite (ring_cons _ _ _ (Some n)) in Hr by (try done; lia).
    cbn in Hr. injection Hr as Hr. rewrite <- Hr. unfold ring_succ. rewrite Hf.
    apply ring_insert_out; [rewrite Hf; apply Nat.mod_upper_bound; lia|lia|].
    intros i Hlt. rewrite Hf, Nat.Div0.add_mod_idemp_l. intros Heq.
    destruct (decide (head p + 1 + i < size_ p));
      [rewrite Nat.mod_small in Heq by lia|rewrite mod_once in Heq by lia]; lia.
  - rewrite <- Hp. solve_Permutation.
  - intros k Hk. unfold ogs_pool_index. replace (n + 1 - 1) with n by lia.
    destruct (decide (k = n)) as [->|Hne].
    + rewrite list_lookup_insert_eq by lia. rewrite decide_True; [done|by left].
    + rewrite list_lookup_insert_ne by done. rewrite Hl by done. f_equal.
      apply decide_ext. rewrite elem_of_cons. tauto.
Qed.

Lemma alloc_none p used : pool_ok p [] used → ogs_pool_alloc p = Some (None, p).
Proof.
  intros [Hf Hi Hd Hh Ha Ht Hr Hp Hl]. unfold ogs_pool_alloc, mbind, M_bind, m_get.
  rewrite decide_False by (cbn in Ha; lia). done.
Qed.

Lemma free_ok p fs l1 n l2 :
  pool_ok p fs (l1 ++ n :: l2) →
  ∃ p', ogs_pool_free n p = Some (tt, p') ∧ pool_ok p' (fs ++ [n]) (l1 ++ l2) ∧
    ids p' = ids p ∧ id_hash p' = id_hash p ∧ id p' = id p ∧ size_ p' = size_ p.
Proof.
  intros Hok. pose proof (pool_length _ _ _ Hok) as Hlen. rewrite length_app in Hlen. cbn in Hlen.
  pose proof (pool_node_lt _ _ _ n Hok ltac:(in_list)) as Hn.
  pose proof (pool_nodup _ _ _ Hok) as Hnd. names_in Hnd.
  destruct Hok as [Hf Hi Hd Hh Ha Ht Hr Hp Hl].
  eexists. split; [done|]. rewrite decide_True by lia. split; [|done].
  split; cbn; unfold set_index; rewrite ?length_insert, ?length_app; try done.
  - cbn. lia.
  - rewrite Ht, Nat.Div0.add_mod_idemp_l. f_equal. lia.
  - rewrite fmap_app, <- Hr, Ht. cbn. rewrite <- Hf, Nat.add_1_r. apply ring_snoc; lia.
  - rewrite <- Hp. solve_Permutation.
  - intros k Hk. unfold ogs_pool_index. replace (n + 1 - 1) with n by lia.
    destruct (decide (k = n)) as [->|Hne].
    + rewrite list_lookup_insert_eq by lia. rewrite decide_False; [done|]. names.
    + rewrite list_lookup_insert_ne by done. rewrite Hl by done. f_equal.
      apply decide_ext. rewrite !elem_of_app, elem_of_cons. tauto.
Qed.

(** ** Nodes with ids *)

Lemma id_bytes_inj i j :
  (0 ≤ i < 2 ^ 32)%Z → (0 ≤ j < 2 ^ 32)%Z → id_bytes i = id_bytes j → i = j.
Proof. unfold id_bytes. intros ?? [=]. Z.to_euclidean_division_equations. lia. Qed.

Lemma id_ptr_inj n k : id_ptr n = id_ptr k → n = k.
Proof. unfold id_ptr. lia. Qed.

Lemma pool_mem_arg p i : pool_mem p i !! arg_ptr = Some (id_bytes i).
Proof. apply lookup_insert_eq. Qed.

Lemma pool_mem_node p i n j : ids p !! n = Some j → pool_mem p i !! id_ptr n = Some (id_bytes j).
Proof.
  intros Hn. unfold pool_mem. rewrite lookup_insert_ne by (unfold arg_ptr, id_ptr; lia).
  apply elem_of_list_to_map_1'.
  - intros y Hy. apply elem_of_lookup_imap in Hy as (k & x & [= E ->] & Hx).
    apply id_ptr_inj in E. subst. congruence.
  - apply elem_of_lookup_imap. by exists n, j.
Qed.

Lemma key_bytes_id mem key i : mem !! key = Some (id_bytes i) → key_bytes mem key 4 = Some (id_bytes i).
Proof. intros Hk. unfold key_bytes. by rewrite Hk. Qed.

(** The map of [id_hash] for the nodes [live] by id. *)
Definition id_map (live : gmap Z nat) (m : gmap (list Z) (kptr * nat)) : Prop :=
  ∀ bs a n, m !! bs = Some (a, n) ↔ ∃ i, live !! i = Some n ∧ bs = id_bytes i ∧ a = id_ptr n.

(** [live]: the nodes handed out by [ogs_pool_id_calloc], by id. *)
Record pool_ids (p : ogs_pool) (fs used : list nat) (live : gmap Z nat) : Prop := {
  pi_ok : pool_ok p fs used;
  pi_live : ∀ i n, live !! i = Some n ↔ n ∈ used ∧ ids p !! n = Some i;
  pi_range : ∀ i n, live !! i = Some n → (OGS_MIN_POOL_ID ≤ i ≤ OGS_MAX_POOL_ID)%Z;
  pi_next : (0 ≤ id p ≤ OGS_MAX_POOL_ID)%Z;
  pi_hash : ∃ m, kt_ok (pool_mem p 0) (id_hash p) m ∧ id_map live m }.
Definition pool_ids_ok (p : ogs_pool) (fs : list nat) (live : gmap Z nat) : Prop :=
  ∃ used, pool_ids p fs used live.

Lemma live_lookup live m p fs used i :
  pool_ids p fs used live → id_map live m → (0 ≤ i < 2 ^ 32)%Z → snd <$> m !! id_bytes i = live !! i.
Proof.
  intros [] Hm Hi. destruct (live !! i) as [n|] eqn:El.
  - assert (m !! id_bytes i = Some (id_ptr n, n)) as ->; [|done]. apply Hm. by exists i.
  - destruct (m !! id_bytes i) as [[a n]|] eqn:Em; [|done].
    apply Hm in Em as (j & Hj & E & _). pose proof (pi_range0 _ _ Hj) as Hr.
    unfold OGS_MIN_POOL_ID, OGS_MAX_POOL_ID in Hr.
    apply id_bytes_inj in E; [congruence|lia..].
Qed.

Lemma find_by_id_ok p fs live i :
  pool_ids_ok p fs live → (0 ≤ i < 2 ^ 32)%Z → ogs_pool_find_by_id p i = Some (live !! i).
Proof.
  intros [used Hp] Hi. pose proof Hp as Hp'. destruct Hp as [_ Hl _ _ (m & Hk & Hm)].
  assert (Hk' : kt_ok (pool_mem p i) (id_hash p) m).
  { eapply kt_frame; [done|]. intros bs a n (j & Hj & _ & ->)%Hm. apply Hl in Hj as [_ Hj].
    by rewrite (pool_mem_node p i n j), (pool_mem_node p 0 n j). }
  unfold ogs_pool_find_by_id.
  rewrite (kt_get_spec _ _ _ _ 4%Z _ Hk' ltac:(done) (key_bytes_id _ _ _ (pool_mem_arg p i))).
  cbn. by erewrite live_lookup.
Qed.

(** The table has room: its entries are distinct nodes. *)
Lemma id_map_room p fs used live m :
  pool_ids p fs used live → id_map live m → (Z.of_nat (size_ p) < 2 ^ 31 - 1)%Z → table_room m.
Proof.
  intros [Hok Hl _ _ _] Hm Hs. unfold table_room.
  assert (Hlen : size m ≤ length used).
  { rewrite <- length_map_to_list, <- (length_fmap (λ x, snd (snd x))). apply submseteq_length, NoDup_submseteq.
    - apply NoDup_fmap_2_strong; [|apply NoDup_map_to_list].
      intros [bs1 [a1 n1]] [bs2 [a2 n2]] H1%elem_of_map_to_list H2%elem_of_map_to_list E.
      cbn in E. subst n2. apply Hm in H1 as (i1 & L1 & -> & ->), H2 as (i2 & L2 & -> & ->).
      apply Hl in L1 as [_ L1], L2 as [_ L2]. congruence.
    - intros n ([bs [a k]] & -> & Hk%elem_of_map_to_list)%list_elem_of_fmap. cbn.
      apply Hm in Hk as (i & Hi & _). by apply Hl in Hi as [? _]. }
  pose proof (pool_length _ _ _ Hok). lia.
Qed.

(** Writing the id of a node that is not in the table. *)
Lemma pool_mem_insert p fs used live m n x h y :
  pool_ids p fs used live → id_map live m → n ∉ used →
  kt_ok (pool_mem p 0) (id_hash p) m →
  kt_ok (pool_mem (Pool (head p) (tail p) (size_ p) (avail p) (free p) (<[n := x]> (ids p))
    (index p) h y) 0) (id_hash p) m.
Proof.
  intros [Hok Hl _ _ _] Hm Hn Hk. eapply kt_frame; [done|].
  intros bs a k (j & Hj & _ & ->)%Hm. apply Hl in Hj as [Hu Hj].
  rewrite (pool_mem_node p 0 k j) by done. apply pool_mem_node. cbn.
  by rewrite list_lookup_insert_ne by (intros ->; done).
Qed.

Lemma id_range i : (OGS_MIN_POOL_ID ≤ i ≤ OGS_MAX_POOL_ID)%Z → (0 ≤ i < 2 ^ 32)%Z.
Proof. unfold OGS_MIN_POOL_ID, OGS_MAX_POOL_ID. lia. Qed.

Lemma next_id_range i :
  (0 ≤ i ≤ OGS_MAX_POOL_ID)%Z →
  (OGS_MIN_POOL_ID ≤ OGS_NEXT_ID i 1 OGS_MAX_POOL_ID ≤ OGS_MAX_POOL_ID)%Z.
Proof. unfold OGS_NEXT_ID, OGS_MIN_POOL_ID, OGS_MAX_POOL_ID. intros. case_match; lia. Qed.

Lemma id_map_insert live m i n :
  id_map live m → (0 ≤ i < 2 ^ 32)%Z → (∀ j k, live !! j = Some k → (0 ≤ j < 2 ^ 32)%Z) →
  live !! i = None → id_map (<[i := n]> live) (map_set (id_bytes i) (id_ptr n) (Some n) m).
Proof.
  intros Hm Hi Hr Hn.
  assert (Hnone : m !! id_bytes i = None).
  { destruct (m !! id_bytes i) as [[a k]|] eqn:E; [|done].
    apply Hm in E as (j & Hj & E & _). apply id_bytes_inj in E; [congruence|done|by eapply Hr]. }
  intros bs a k. unfold map_set. destruct (decide (id_bytes i = bs)) as [<-|Hne].
  - rewrite lookup_partial_alter_eq, Hnone. cbn. split.
    + intros [= <- <-]. exists i. by rewrite lookup_insert_eq.
    + intros (j & Hj & E & ->). apply lookup_insert_Some in Hj as [[<- <-]|[Hne Hj]]; [done|].
      apply id_bytes_inj in E; [done|done|by eapply Hr].
  - rewrite lookup_partial_alter_ne by done. rewrite (Hm bs a k). split.
    + intros (j & Hj & -> & ->). exists j. rewrite lookup_insert_ne by congruence. done.
    + intros (j & Hj & -> & ->). exists j. by rewrite lookup_insert_ne in Hj by congruence.
Qed.

Lemma id_map_delete live m i n :
  id_map live m → (0 ≤ i < 2 ^ 32)%Z → (∀ j k, live !! j = Some k → (0 ≤ j < 2 ^ 32)%Z) →
  id_map (delete i live) (map_set (id_bytes i) (id_ptr n) None m).
Proof.
  intros Hm Hi Hr bs a k. rewrite map_set_None.
  destruct (decide (id_bytes i = bs)) as [<-|Hne].
  - rewrite lookup_delete_eq. split; [done|]. intros (j & Hj & E & _).
    apply lookup_delete_Some in Hj as [Hne Hj]. apply id_bytes_inj in E; [done|done|by eapply Hr].
  - rewrite lookup_delete_ne by done. rewrite (Hm bs a k). split.
    + intros (j & Hj & -> & ->). exists j. rewrite lookup_delete_ne by congruence. done.
    + intros (j & Hj & -> & ->). exists j. by rewrite lookup_delete_ne in Hj by congruence.
Qed.

Lemma set_hash_ok p n nid m val :
  kt_ok (pool_mem p 0) (id_hash p) m → ids p !! n = Some nid → table_room m →
  ∃ h, set_hash (id_ptr n) val p = Some (tt, Pool (head p) (tail p) (size_ p) (avail p) (free p)
    (ids p) (index p) h (id p)) ∧ kt_ok (pool_mem p 0) h (map_set (id_bytes nid) (id_ptr n) val m).
Proof.
  intros Hk Hn Hr.
  pose proof (kt_set_spec _ _ _ _ 4%Z _ val Hk ltac:(done)
    (key_bytes_id _ _ _ (pool_mem_node p 0 n nid Hn)) Hr) as Hs.
  apply wp_run in Hs as (u & h & E & Hs). exists h. split; [|done].
  unfold set_hash, mbind, M_bind, m_get, m_some, m_modify. by rewrite E.
Qed.

Lemma id_calloc_ok p n fs live :
  pool_ids_ok p (n :: fs) live → (Z.of_nat (size_ p) < 2 ^ 31 - 1)%Z →
  let nid := OGS_NEXT_ID (id p) 1 OGS_MAX_POOL_ID in
  live !! nid = None →
  ∃ p', ogs_pool_id_calloc p = Some (Some n, p') ∧ pool_ids_ok p' fs (<[nid := n]> live) ∧
    id p' = nid ∧ ids p' !! n = Some nid.
Proof.
  intros [used Hp] Hs nid Hfresh. pose proof Hp as [Hok Hl Hr Hx (m & Hk & Hm)].
  pose proof (pool_nodup _ _ _ Hok) as Hnd. names_in Hnd.
  pose proof (next_id_range _ Hx) as Hid. fold nid in Hid.
  pose proof (id_map_room _ _ _ _ _ Hp Hm Hs) as Hroom.
  destruct (alloc_ok _ _ _ _ Hok) as (p1 & E1 & Hok1 & Hi1 & Hh1 & Hx1 & Hs1).
  set (p2 := Pool (head p1) (tail p1) (size_ p1) (avail p1) (free p1) (<[n := nid]> (ids p1))
    (index p1) (id_hash p1) nid).
  assert (Hlt : n < length (ids p1)).
  { destruct Hok1. rewrite po_ids0. eapply pool_node_lt; [by eauto using Build_pool_ok|]. in_list. }
  assert (Hk2 : kt_ok (pool_mem p2 0) (id_hash p2) m).
  { subst p2. cbn. unfold pool_mem. cbn. rewrite Hi1, Hh1.
    apply (pool_mem_insert p _ _ _ _ n nid (id_hash p) nid Hp Hm); [names|done]. }
  assert (Hn2 : ids p2 !! n = Some nid) by by apply list_lookup_insert_eq.
  destruct (set_hash_ok p2 n nid m (Some n) Hk2 Hn2 Hroom) as (h & E3 & Hk3).
  set (p3 := Pool _ _ _ _ _ _ _ h _) in E3.
  exists p3. split; [|split; [|split; [done|exact Hn2]]].
  - unfold ogs_pool_id_calloc. rewrite (bind_step _ _ _ _ _ E1). cbn [mbind].
    rewrite (bind_step _ _ _ tt p2) by (unfold m_modify; subst p2 nid; by rewrite Hx1).
    by rewrite (bind_step _ _ _ _ _ E3).
  - exists (n :: used). split.
    + destruct Hok1; split; cbn; rewrite ?length_insert; done.
    + intros i k. cbn. rewrite Hi1, elem_of_cons. destruct (decide (k = n)) as [->|Hne].
      * rewrite list_lookup_insert_eq by congruence. split.
        -- intros [[-> _]|[_ Hk']]%lookup_insert_Some; [by auto|].
           apply Hl in Hk' as [? _]. names.
        -- intros [_ [= ->]]. apply lookup_insert_eq.
      * rewrite list_lookup_insert_ne by done. rewrite lookup_insert_Some, Hl. naive_solver.
    + intros i k [[<- _]|[_ Hk']]%lookup_insert_Some; [done|by eapply Hr].
    + cbn. unfold OGS_MIN_POOL_ID in Hid. lia.
    + exists (map_set (id_bytes nid) (id_ptr n) (Some n) m). split; [exact Hk3|].
      apply id_map_insert; [done|by apply id_range| |done]. intros j k Hj. by eapply id_range, Hr.
Qed.

Lemma id_free_ok p fs live i n :
  pool_ids_ok p fs live → (Z.of_nat (size_ p) < 2 ^ 31 - 1)%Z → live !! i = Some n →
  ∃ p', ogs_pool_id_free n p = Some (tt, p') ∧ pool_ids_ok p' (fs ++ [n]) (delete i live).
Proof.
  intros [used Hp] Hs Hi. pose proof Hp as [Hok Hl Hr Hx (m & Hk & Hm)].
  pose proof (id_map_room _ _ _ _ _ Hp Hm Hs) as Hroom.
  pose proof (Hr _ _ Hi) as Hid. pose proof Hi as [Hu Hn]%Hl.
  apply list_elem_of_split in Hu as (l1 & l2 & ->).
  pose proof (pool_nodup _ _ _ Hok) as Hnd. names_in Hnd.
  destruct (set_hash_ok p n i m None Hk Hn Hroom) as (h & E1 & Hk1).
  set (p1 := Pool _ _ _ _ _ _ _ h _) in E1.
  assert (Hok1 : pool_ok p1 fs (l1 ++ n :: l2)) by (by destruct Hok; split).
  destruct (free_ok _ _ _ _ _ Hok1) as (p2 & E2 & Hok2 & Hi2 & Hh2 & Hx2 & Hs2).
  exists p2. split.
  - unfold ogs_pool_id_free. rewrite (bind_step _ _ _ _ _ (eq_refl : m_get p = Some (p, p))).
    rewrite (bind_step _ _ p i p) by (by rewrite Hn).
    rewrite (bind_step _ _ p tt p).
    2:{ unfold m_assert. unfold OGS_MIN_POOL_ID, OGS_MAX_POOL_ID in *.
        by replace (_ && _) with true by (symmetry; lia). }
    by rewrite (bind_step _ _ _ _ _ E1).
  - exists (l1 ++ l2). split; [done| | | |].
    + intros j k. rewrite Hi2. cbn. rewrite lookup_delete_Some, Hl, !elem_of_app, elem_of_cons.
      split.
      * intros (Hne & Hin & Hj). split; [|done]. destruct Hin as [?|[->|?]]; [by left| |by right].
        congruence.
      * intros [Hin Hj]. split; [|split; [tauto|done]]. intros <-.
        assert (k = n) as ->; [|by destruct Hin; names].
        assert (Hk' : live !! i = Some k) by (apply Hl; rewrite elem_of_app, elem_of_cons; tauto).
        congruence.
    + intros j k [_ Hj]%lookup_delete_Some. by eapply Hr.
    + by rewrite Hx2.
    + exists (map_set (id_bytes i) (id_ptr n) None m). split.
      * rewrite Hh2. unfold pool_mem. rewrite Hi2. exact Hk1.
      * apply id_map_delete; [done|by apply id_range|]. intros j k Hj. by eapply id_range, Hr.
Qed.
End pool.
Arguments ogs_pool : clear implicits.
