(* ===== verification/PoolSpec.v ===== *)
(** * Object pools: the properties

    The pool as a queue of free nodes, and the ids of [ogs_pool_id_calloc] as
    a finite map; both hold for any implementation of [KeyTable], and the
    witnesses use the hash table. *)
From S2P Require Import Prelude KeyTable Pool Hash HashMap.

Section spec.
Context {T : Type} `{KeyTable T nat}.

Inductive pool_op := Alloc | Free (n : nat) | Find (i : Z).

Definition run_op (o : pool_op) (p : ogs_pool T) : option (option nat * ogs_pool T) :=
  match o with
  | Alloc => ogs_pool_alloc p
  | Free n => '(_, p) ← ogs_pool_free n p; Some (None, p)
  | Find i => Some (ogs_pool_find p i, p)
  end.

Fixpoint run_ops (os : list pool_op) (p : ogs_pool T) : option (list (option nat) * ogs_pool T) :=
  match os with
  | [] => Some ([], p)
  | o :: os => '(r, p) ← run_op o p; '(rs, p) ← run_ops os p; Some (r :: rs, p)
  end.

(** The contract: a FIFO of free nodes and the set of nodes handed out. *)
Abbreviation pool_state := (list nat * list nat)%type.
Definition spec_op (o : pool_op) (st : pool_state) : option nat * pool_state :=
  match o, st with
  | Alloc, ([], used) => (None, ([], used))
  | Alloc, (n :: fs, used) => (Some n, (fs, n :: used))
  | Free n, (fs, used) => (None, (fs ++ [n], filter (.≠ n) used))
  | Find i, (fs, used) =>
      (if decide (0 < i ∧ Z.to_nat (i - 1) ∈ used)%Z then Some (Z.to_nat (i - 1)) else None, st)
  end.
Fixpoint spec_ops (os : list pool_op) (st : pool_state) : list (option nat) * pool_state :=
  match os with
  | [] => ([], st)
  | o :: os =>
      let '(r, st) := spec_op o st in let '(rs, st) := spec_ops os st in (r :: rs, st)
  end.
(** Only nodes in use are freed. *)
Fixpoint ops_ok (os : list pool_op) (st : pool_state) : Prop :=
  match os with
  | [] => True
  | o :: os =>
      match o with Free n => n ∈ snd st | _ => True end ∧ ops_ok os (snd (spec_op o st))
  end.

Lemma filter_out (l1 l2 : list nat) n : n ∉ l1 → n ∉ l2 → filter (.≠ n) (l1 ++ n :: l2) = l1 ++ l2.
Proof.
  intros H1 H2. rewrite filter_app, filter_cons, decide_False by auto.
  assert (Hid : ∀ l : list nat, n ∉ l → filter (.≠ n) l = l).
  { intros l Hl. induction l as [|x l IH]; [done|]. rewrite filter_cons.
    apply not_elem_of_cons in Hl as [Hx Hl]. rewrite decide_True by auto. by rewrite IH. }
  by rewrite !Hid.
Qed.

Lemma run_op_ok o p fs used :
  pool_ok p fs used → match o with Free n => n ∈ used | _ => True end →
  ∃ p', run_op o p = Some (fst (spec_op o (fs, used)), p') ∧ size_ p' = size_ p ∧
    pool_ok p' (fst (snd (spec_op o (fs, used)))) (snd (snd (spec_op o (fs, used)))).
Proof.
  intros Hok Ho. destruct o as [|n|i]; cbn [run_op spec_op fst snd].
  - destruct fs as [|n fs].
    + exists p. by rewrite (alloc_none _ _ Hok).
    + destruct (alloc_ok _ _ _ _ Hok) as (p' & -> & Hok' & _ & _ & _ & Hs). by exists p'.
  - apply list_elem_of_split in Ho as (l1 & l2 & ->).
    pose proof (pool_nodup _ _ _ Hok) as Hnd. names_in Hnd.
    destruct (free_ok _ _ _ _ _ Hok) as (p' & -> & Hok' & _ & _ & _ & Hs). exists p'.
    cbn. by rewrite filter_out.
  - exists p. split_and!; try done. do 2 f_equal. unfold ogs_pool_find.
    pose proof Hok as [_ _ _ _ _ _ _ _ Hl].
    destruct (decide (0 < i ≤ Z.of_nat (size_ p))%Z).
    + rewrite Hl by lia. cbn. repeat case_decide; naive_solver.
    + rewrite decide_False; [done|]. intros [Hi Hin].
      pose proof (pool_node_lt _ _ _ (Z.to_nat (i - 1)) Hok ltac:(apply elem_of_app; by right)). lia.
Qed.

Lemma run_ops_ok os p fs used :
  pool_ok p fs used → ops_ok os (fs, used) →
  ∃ p', run_ops os p = Some (fst (spec_ops os (fs, used)), p') ∧ size_ p' = size_ p ∧
    pool_ok p' (fst (snd (spec_ops os (fs, used)))) (snd (snd (spec_ops os (fs, used)))).
Proof.
  revert p fs used. induction os as [|o os IH]; intros p fs used Hok Hos; [by exists p|].
  destruct Hos as [Ho Hos]. destruct (run_op_ok o p fs used Hok Ho) as (p1 & E & Hs & Hok1).
  cbn. rewrite E. cbn. destruct (spec_op o (fs, used)) as [r [fs1 used1]]. cbn in *.
  destruct (IH p1 fs1 used1 Hok1 Hos) as (p2 & E2 & Hs2 & Hok2). rewrite E2. exists p2. cbn.
  destruct (spec_ops os (fs1, used1)) as [rs [fs2 used2]]. cbn in *. by rewrite Hs2.
Qed.

(** C26: A pool of [size] nodes behaves as a FIFO of free nodes: for any
    sequence of [ogs_pool_alloc], [ogs_pool_free] (of nodes in use) and
    [ogs_pool_find], every result is that of the contract; no node is handed
    out twice without being freed in between, none is lost, [ogs_pool_avail]
    counts the free ones, and no NULL slot is ever dereferenced. *)
Theorem ogs_pool_refines_fifo (size : nat) (hash : T) (os : list pool_op) :
  0 < size → ops_ok os (seq 0 size, []) →
  let '(rs, (fs, used)) := spec_ops os (seq 0 size, []) in
  ∃ p, run_ops os (ogs_pool_init size hash) = Some (rs, p) ∧
    fs ++ used ≡ₚ seq 0 size ∧ NoDup (fs ++ used) ∧
    avail p = length fs ∧ avail p + length used = size_ p.
Proof.
  intros Hs Hos. destruct (run_ops_ok os _ _ _ (init_ok size hash Hs) Hos) as (p & E & Hsz & Hok).
  destruct (spec_ops os _) as [rs [fs used]]. cbn in *. exists p.
  pose proof (pool_nodup _ _ _ Hok). pose proof (pool_length _ _ _ Hok).
  destruct Hok as [_ _ _ _ Ha _ _ Hp _]. rewrite Hsz in Hp. rewrite Ha. done.
Qed.

(** Ids: [live] maps the ids in use to their nodes.  Provided that the
    next id of the 31-bit counter is not still in use, [ogs_pool_id_calloc]
    enters the head of the free ring under an id in 1 .. OGS_MAX_POOL_ID (the
    counter wraps around to 1, never to OGS_INVALID_POOL_ID); it returns NULL
    exactly when the pool is exhausted; [ogs_pool_id_free] withdraws exactly
    the id of its node; and [ogs_pool_find_by_id] finds exactly the live ids. *)
Theorem ogs_pool_ids_correct (p : ogs_pool T) (fs : list nat) (live : gmap Z nat) :
  pool_ids_ok p fs live → (Z.of_nat (size_ p) < 2 ^ 31 - 1)%Z →
  let nid := OGS_NEXT_ID (id p) 1 OGS_MAX_POOL_ID in
  (OGS_MIN_POOL_ID ≤ nid ≤ OGS_MAX_POOL_ID)%Z ∧
  (live !! nid = None →
    match fs with
    | n :: fs => ∃ p', ogs_pool_id_calloc p = Some (Some n, p') ∧
        pool_ids_ok p' fs (<[nid := n]> live) ∧ id p' = nid
    | [] => ogs_pool_id_calloc p = Some (None, p)
    end) ∧
  (∀ i n, live !! i = Some n →
    ∃ p', ogs_pool_id_free n p = Some (tt, p') ∧ pool_ids_ok p' (fs ++ [n]) (delete i live)) ∧
  (∀ i, (0 ≤ i < 2 ^ 32)%Z → ogs_pool_find_by_id p i = Some (live !! i)).
Proof.
  intros Hp Hs nid. split_and!.
  1-2: destruct Hp as [used [_ _ _ Hn _]]; by apply next_id_range.
  - intros Hn. destruct fs as [|n fs].
    + destruct Hp as [used [Hok _ _ _ _]]. unfold ogs_pool_id_calloc.
      by rewrite (bind_step _ _ _ _ _ (alloc_none _ _ Hok)).
    + destruct (id_calloc_ok _ _ _ _ Hp Hs Hn) as (p' & H1 & H2 & H3 & _). by exists p'.
  - intros i n Hi. by eapply id_free_ok.
  - intros i Hi. by eapply find_by_id_ok.
Qed.
End spec.

(** The pools of ids (TEIDs and the like): whatever the random source
    returns, [ogs_pool_random_id_generate] stays within the array and leaves a
    permutation of the ids 1 .. size, so the check for duplicates passes and
    no id is 0. *)
Theorem ogs_pool_random_ids_distinct (random : nat → Z) (size : nat) :
  ∃ a, ogs_pool_random_id_generate random size = Some a ∧
    a ≡ₚ ogs_pool_sequence_id_generate size ∧
    ogs_pool_assert_if_has_duplicate a = Some tt ∧ (OGS_INVALID_POOL_ID ∉ a) ∧
    (∀ i : Z, i ∈ a ↔ (1 ≤ i ≤ Z.of_nat size)%Z).
Proof.
  unfold ogs_pool_random_id_generate. set (s := ogs_pool_sequence_id_generate size).
  assert (Hin : ∀ i : Z, i ∈ s ↔ (1 ≤ i ≤ Z.of_nat size)%Z).
  { intros i. unfold s, ogs_pool_sequence_id_generate. rewrite list_elem_of_fmap. split.
    - intros (k & -> & Hk%elem_of_seq). lia.
    - intros Hi. exists (Z.to_nat (i - 1)). rewrite elem_of_seq. lia. }
  assert (Hsh : ∃ a, shuffle random (size - 1) s = Some a ∧ a ≡ₚ s).
  { destruct size as [|size]; [by exists s|]. apply shuffle_ok.
    unfold s, ogs_pool_sequence_id_generate. rewrite length_fmap, length_seq. lia. }
  destruct Hsh as (a & E & HP). exists a. split_and!; [done|done| | |].
  - apply no_duplicate_ok. rewrite HP. apply NoDup_fmap_2_strong; [intros; lia|apply NoDup_seq].
  - rewrite HP, Hin. unfold OGS_INVALID_POOL_ID. lia.
  - intros i. by rewrite HP.
Qed.

Lemma ogs_pool_refines_fifo_witness :
  ∃ p, run_ops [Alloc; Alloc; Alloc; Find 2; Free 0; Find 1; Alloc]
         (ogs_pool_init 2 (ogs_hash_make (V:=nat) 0)) =
    Some ([Some 0; Some 1; None; Some 1; None; None; Some 0], p).
Proof.
  destruct (ogs_pool_refines_fifo 2 (ogs_hash_make (V:=nat) 0)
    [Alloc; Alloc; Alloc; Find 2; Free 0; Find 1; Alloc]) as (p & E & _); [lia| |by exists p].
  repeat split. vm_compute. right. left. 
Defined.

Lemma ogs_pool_ids_correct_witness :
  ∃ p', ogs_pool_id_calloc (ogs_pool_init 3 (ogs_hash_make (V:=nat) 0)) = Some (Some 0, p') ∧
    id p' = 1%Z.
Proof.
  assert (H0 : pool_ids_ok (ogs_pool_init 3 (ogs_hash_make (V:=nat) 0)) (seq 0 3) ∅).
  { exists []. split.
    - apply init_ok. lia.
    - intros i n. split; [done|]. intros [Hn _]. by apply elem_of_nil in Hn.
    - done.
    - done.
    - exists ∅. split; [|intros bs a n; split; [done|by intros (i & ? & _)]].
      eexists. apply make_ok, default_lawful. done. }
  destruct (ogs_pool_ids_correct _ _ _ H0 ltac:(done)) as (_ & Hc & _).
  destruct (Hc eq_refl) as (p' & E & _ & Hid). by exists p'.
Defined.
