(* ===== verification/Timer.v ===== *)
(** * Timers: lib/core/ogs-timer.c

    The timer manager: timers come from a pool and the running ones are the
    nodes of a red-black tree ordered by time-out.  The state is the pool, the
    tree store and the fields of the timers; the clock is an argument [now] of
    the functions that read it (times are 64-bit microseconds, which do not
    overflow in the life of a process). *)
From S2P Require Import Prelude KeyTable Pool RBTree.

Definition OGS_INFINITE_TIME : Z := -1.
Definition OGS_NO_WAIT_TIME : Z := 0.

Section timer.
(** [C]: a callback function with its argument. *)
Context {T C : Type} `{KeyTable T nat}.

(** struct ogs_timer_s; [rbnode] is in the store of the tree. *)
Record ogs_timer := Timer { running : bool; timeout : Z; cb : option C }.

(** struct ogs_timer_mgr_s and the memory of the timers. *)
Record timer_mgr := Mgr {
  pool : ogs_pool T; tree : rbtree; timers : gmap positive ogs_timer }.

(** The address of a timer and of its [rbnode]: slot [i] of the pool. *)
Definition timer_at (i : nat) : positive := Pos.of_succ_nat i.
Definition slot_of (timer : positive) : nat := Nat.pred (Pos.to_nat timer).

Definition on_tree {A} (m : M rbtree A) : M timer_mgr A := λ s,
  match m (tree s) with Some (a, t) => Some (a, Mgr (pool s) t (timers s)) | None => None end.
Definition on_pool {A} (m : M (ogs_pool T) A) : M timer_mgr A := λ s,
  match m (pool s) with Some (a, p) => Some (a, Mgr p (tree s) (timers s)) | None => None end.
Definition timer_get (timer : positive) : M timer_mgr ogs_timer := λ s,
  match timers s !! timer with Some tm => Some (tm, s) | None => None end.
Definition timer_upd (timer : positive) (f : ogs_timer → ogs_timer) : M timer_mgr unit := λ s,
  match timers s !! timer with
  | Some tm => Some (tt, Mgr (pool s) (tree s) (<[timer := f tm]> (timers s)))
  | None => None
  end.

Definition set_running (b : bool) (tm : ogs_timer) : ogs_timer := Timer b (timeout tm) (cb tm).
Definition set_timeout (t : Z) (tm : ogs_timer) : ogs_timer := Timer (running tm) t (cb tm).

(** [*new]. *)
Definition deref_link (new : rb_link) : M timer_mgr ptr :=
  match new with
  | LinkRoot => on_tree (m_gets root)
  | LinkLeft p => on_tree (get_left p)
  | LinkRight p => on_tree (get_right p)
  end.

(** The [while ( *new)] loop of [add_timer_node]. *)
Fixpoint descend (fuel : nat) (t : Z) (new : rb_link) (parent : ptr) : M timer_mgr (rb_link * ptr) :=
  match fuel with
  | O => m_fail
  | S fuel =>
    node ← deref_link new;
    match node with
    | None => mret (new, parent)
    | Some n =>
        this ← timer_get n;
        descend fuel t (if (t <? timeout this)%Z then LinkLeft n else LinkRight n) (Some n)
    end
  end.

Definition add_timer_node (timer : positive) (now duration : Z) : M timer_mgr unit :=
  timer_upd timer (set_timeout (now + duration));;
  tm ← timer_get timer;
  fuel ← on_tree rb_fuel;
  '(new, parent) ← descend fuel (timeout tm) LinkRoot None;
  on_tree (ogs_rbtree_link_node timer parent new;; ogs_rbtree_insert_color timer).

Definition ogs_timer_mgr_create (capacity : nat) (hash : T) : timer_mgr :=
  Mgr (ogs_pool_init capacity hash) (RBTree None ∅) ∅.

(** [memset(timer, 0, sizeof *timer)] also clears [rbnode]. *)
Definition ogs_timer_add (cb : option C) : M timer_mgr (option positive) :=
  node ← on_pool ogs_pool_alloc;
  match node with
  | None => mret None
  | Some i =>
      let timer := timer_at i in
      m_modify (λ s, Mgr (pool s)
        (RBTree (root (tree s)) (<[timer := RBNode None None None OGS_RBTREE_BLACK]> (nodes (tree s))))
        (<[timer := Timer false 0 cb]> (timers s)));;
      mret (Some timer)
  end.

Definition ogs_timer_stop (timer : positive) : M timer_mgr unit :=
  tm ← timer_get timer;
  if negb (running tm) then mret tt
  else
    timer_upd timer (set_running false);;
    on_tree (ogs_rbtree_delete timer).

(** The freed slot is not a timer any more: a later use of the pointer fails. *)
Definition ogs_timer_delete (timer : positive) : M timer_mgr unit :=
  ogs_timer_stop timer;;
  on_pool (ogs_pool_free (slot_of timer));;
  m_modify (λ s, Mgr (pool s) (tree s) (delete timer (timers s))).

Definition ogs_timer_start (timer : positive) (now duration : Z) : M timer_mgr unit :=
  m_assert (negb (duration =? 0)%Z);;
  tm ← timer_get timer;
  m_when (running tm) (on_tree (ogs_rbtree_delete timer));;
  timer_upd timer (set_running true);;
  add_timer_node timer now duration.

Definition ogs_timer_mgr_next (now : Z) : M timer_mgr Z :=
  rbnode ← on_tree ogs_rbtree_first;
  match rbnode with
  | Some n =>
      this ← timer_get n;
      if (now <? timeout this)%Z then mret (timeout this - now)%Z else mret OGS_NO_WAIT_TIME
  | None => mret OGS_INFINITE_TIME
  end.

(** First loop of [ogs_timer_mgr_expire]: collects the timers that are due. *)
Fixpoint collect (fuel : nat) (now : Z) (rbnode : ptr) : M timer_mgr (list positive) :=
  match fuel with
  | O => m_fail
  | S fuel =>
    match rbnode with
    | None => mret []
    | Some n =>
        this ← timer_get n;
        if (now <? timeout this)%Z then mret []
        else
          next ← on_tree (ogs_rbtree_next n);
          rest ← collect fuel now next;
          mret (n :: rest)
    end
  end.

Section with_callbacks.
(** [call c]: runs the callback [c]; it may start, stop and add timers. *)
Variable call : C → M timer_mgr unit.

(** Second loop: stops and runs each of them.  The value is the trace of the
    callbacks that were run. *)
Fixpoint run_due (due : list positive) : M timer_mgr (list C) :=
  match due with
  | [] => mret []
  | n :: due =>
      ogs_timer_stop n;;
      this ← timer_get n;
      m_if_some (cb this) call;;
      ran ← run_due due;
      mret (option_list (cb this) ++ ran)
  end.

Definition ogs_timer_mgr_expire (now : Z) : M timer_mgr (list C) :=
  first ← on_tree ogs_rbtree_first;
  fuel ← on_tree rb_fuel;
  due ← collect fuel now first;
  run_due due.
End with_callbacks.
End timer.
Arguments ogs_timer : clear implicits.
Arguments timer_mgr : clear implicits.
