(* ===== verification/TimerSpec.v ===== *)
(** * Timers: the properties

    The timer manager refines a schedule: it lists the running timers with
    their time-outs, in the order in which they will expire: by time-out, and
    first started first among equal time-outs.  The operations of
    lib/core/ogs-timer.c act on the schedule as their names say, and expiry
    runs the callbacks of the due timers in order. *)
From S2P Require Import Prelude KeyTable Pool RBTree RBZip RBInsert RBDelete RBIter Timer Hash HashMap.
#[local] Open Scope Z_scope.

Abbreviation schedule := (list (positive * Z)).

Definition sched_remove (n : positive) (s : schedule) : schedule := filter (λ x, fst x ≠ n) s.
Definition sched_insert (n : positive) (t : Z) (s : schedule) : schedule :=
  filter (λ x, snd x ≤ t) s ++ (n, t) :: filter (λ x, t < snd x) s.
Definition sched_start (n : positive) (t : Z) (s : schedule) : schedule :=
  sched_insert n t (sched_remove n s).
Definition sched_due (now : Z) (s : schedule) : list positive := (filter (λ x, snd x ≤ now) s).*1.
Definition sched_next (now : Z) (s : schedule) : Z :=
  match s with
  | [] => OGS_INFINITE_TIME
  | (_, t) :: _ => if now <? t then t - now else OGS_NO_WAIT_TIME
  end.

Definition by_timeout (x y : positive * Z) : Prop := snd x ≤ snd y.

(** ** The tree as a sequence of nodes *)

Definition tree_ok (st : rbtree) (l : list positive) : Prop :=
  ∃ t, rep (nodes st) st t ∧ rb_ok t ∧ inorder t = l.
Definition keeps (st st' : rbtree) : Prop :=
  ∀ x, is_Some (nodes st !! x) → is_Some (nodes st' !! x).

Lemma tree_ok_nodup st l : tree_ok st l → NoDup l.
Proof. intros (t & Hr & _ & <-). by destruct Hr. Qed.

Lemma tree_ok_alloc st l n : tree_ok st l → n ∈ l → is_Some (nodes st !! n).
Proof. intros (t & Hr & _ & <-) Hn. eapply owns_elem; [|done]. apply Hr. Qed.

Lemma focus_at t l1 n l2 :
  NoDup (inorder t) → inorder t = l1 ++ n :: l2 →
  ∃ k l c r, t = plug k (T l n c r) ∧ l1 = before k ++ inorder l ∧ l2 = inorder r ++ after k.
Proof.
  intros Hd Hi.
  destruct (focus t n) as (k & l & c & r & ->); [rewrite Hi; apply elem_of_app; right; by left|].
  rewrite Hi in Hd. rewrite inorder_plug in Hi. cbn in Hi.
  rewrite <- app_assoc, app_assoc in Hi. cbn in Hi.
  destruct (NoDup_split_eq _ _ _ _ _ Hd (eq_sym Hi)) as [-> ->]. by exists k, l, c, r.
Qed.

Lemma tree_delete st l1 n l2 :
  tree_ok st (l1 ++ n :: l2) →
  wp (ogs_rbtree_delete n) (λ _ st', tree_ok st' (l1 ++ l2) ∧ keeps st st') st.
Proof.
  intros Ht. pose proof Ht as (t & Hr & Hok & Hi).
  destruct (focus_at t l1 n l2) as (k & l & c & r & -> & -> & ->); [by destruct Hr|done|].
  eapply wp_mono; [by apply rb_delete_ok|]. cbn beta.
  intros _ st' (t' & Hr' & Ho & Hok' & Hn & Hf).
  assert (Ht' : tree_ok st' ((before k ++ inorder l) ++ inorder r ++ after k)).
  { exists t'. by rewrite Ho, <- app_assoc. }
  split; [done|]. intros x Hx. destruct (decide (x ∈ inorder (plug k (T l n c r)))) as [Hin|Hnin].
  - destruct (decide (x = n)) as [->|Hne]; [done|]. eapply tree_ok_alloc; [done|].
    rewrite inorder_plug in Hin. cbn in Hin. rewrite !elem_of_app, elem_of_cons in Hin.
    rewrite !elem_of_app. naive_solver.
  - by rewrite Hf.
Qed.

(** Linking at a leaf and recolouring. *)
Lemma tree_insert st k n :
  rep (nodes st) st (plug k E) → rb_ok (plug k E) → n ∉ inorder (plug k E) →
  is_Some (nodes st !! n) →
  wp (ogs_rbtree_link_node n (parent_of k) (link_of k);; ogs_rbtree_insert_color n)
    (λ _ st', tree_ok st' (before k ++ n :: after k) ∧ keeps st st') st.
Proof.
  intros Hr Hok Hn [old Hold].
  eapply wp_mono; [by eapply rb_insert_ok|]. cbn beta. intros _ st' (t & Hr' & Ho & Hok' & Hf).
  assert (Ht' : tree_ok st' (before k ++ n :: after k)) by (by exists t).
  split; [done|]. intros x Hx.
  destruct (decide (x ∈ before k ++ n :: after k)) as [Hin|Hnin]; [by eapply tree_ok_alloc|].
  rewrite Hf; [done|by intros ->; apply Hnin; in_list|]. rewrite inorder_plug. cbn. names.
Qed.

Lemma tree_first st l (Q : ptr → rbtree → Prop) :
  tree_ok st l → Q (hd_error l) st → wp ogs_rbtree_first Q st.
Proof. intros (t & Hr & _ & <-). by apply (rb_first_ok (nodes st)). Qed.

Lemma tree_next st l1 n l2 (Q : ptr → rbtree → Prop) :
  tree_ok st (l1 ++ n :: l2) → Q (hd_error l2) st → wp (ogs_rbtree_next n) Q st.
Proof.
  intros (t & Hr & _ & Hi) HQ.
  destruct (focus_at t l1 n l2) as (k & l & c & r & -> & -> & ->); [by destruct Hr|done|].
  by eapply (rb_next_ok (nodes st)).
Qed.

Lemma tree_fuel st l (Q : nat → rbtree → Prop) :
  tree_ok st l → (∀ f, (length l < f)%nat → Q f st) → wp rb_fuel Q st.
Proof.
  intros (t & Hr & _ & <-) HQ. apply wp_rb_fuel, HQ. by apply (rep_fuel (nodes st) st Top).
Qed.

(** ** Schedules *)

Lemma filter_app_split {A} (P : A → Prop) `{∀ x, Decision (P x)} (s1 s2 : list A) :
  Forall P s1 → Forall (λ x, ¬ P x) s2 → filter P (s1 ++ s2) = s1.
Proof.
  intros H1 H2. rewrite filter_app.
  assert (filter P s1 = s1) as ->.
  { induction H1 as [|x s1 Hx H1 IH]; [done|]. by rewrite filter_cons_True, IH. }
  assert (filter P s2 = []) as ->.
  { induction H2 as [|x s2 Hx H2 IH]; [done|]. by rewrite filter_cons_False. }
  apply app_nil_r.
Qed.

Lemma filter_app_split_r {A} (P : A → Prop) `{∀ x, Decision (P x)} (s1 s2 : list A) :
  Forall (λ x, ¬ P x) s1 → Forall P s2 → filter P (s1 ++ s2) = s2.
Proof.
  intros H1 H2. rewrite filter_app.
  assert (filter P s2 = s2) as ->.
  { induction H2 as [|x s2 Hx H2 IH]; [done|]. by rewrite filter_cons_True, IH. }
  assert (filter P s1 = []) as ->; [|done].
  induction H1 as [|x s1 Hx H1 IH]; [done|]. by rewrite filter_cons_False.
Qed.

Lemma sched_insert_split n t (s1 s2 : schedule) :
  Forall (λ x, snd x ≤ t) s1 → Forall (λ x, t < snd x) s2 →
  sched_insert n t (s1 ++ s2) = s1 ++ (n, t) :: s2.
Proof.
  intros H1 H2. unfold sched_insert. rewrite filter_app_split, filter_app_split_r; try done.
  - eapply Forall_impl; [done|]. cbn. lia.
  - eapply Forall_impl; [done|]. cbn. lia.
Qed.

Lemma sched_remove_split n t (s1 s2 : schedule) :
  NoDup (s1 ++ (n, t) :: s2).*1 → sched_remove n (s1 ++ (n, t) :: s2) = s1 ++ s2.
Proof.
  intros Hd. rewrite fmap_app in Hd. cbn in Hd. names_in Hd.
  unfold sched_remove. rewrite filter_app, filter_cons_False by auto.
  assert (Hid : ∀ s : schedule, n ∉ s.*1 → filter (λ x, fst x ≠ n) s = s).
  { intros s. induction s as [|[x u] s IH]; [done|]. rewrite fmap_cons. intros [Hx Hs]%not_elem_of_cons.
    rewrite filter_cons_True by auto. by rewrite IH. }
  by rewrite !Hid.
Qed.

Lemma sched_remove_absent n (s : schedule) : n ∉ s.*1 → sched_remove n s = s.
Proof.
  induction s as [|[x u] s IH]; [done|]. rewrite fmap_cons. intros [Hx Hs]%not_elem_of_cons.
  unfold sched_remove in *. rewrite filter_cons_True by auto. by rewrite IH.
Qed.

Lemma elem_of_sched_remove n x t (s : schedule) : (x, t) ∈ sched_remove n s ↔ x ≠ n ∧ (x, t) ∈ s.
Proof. unfold sched_remove. by rewrite list_elem_of_filter. Qed.

Lemma sorted_filter P `{∀ x, Decision (P x)} (s : schedule) :
  StronglySorted by_timeout s → StronglySorted by_timeout (filter P s).
Proof.
  induction 1 as [|x s Hs IH Hx]; [constructor|].
  destruct (decide (P x)); [rewrite filter_cons_True by done|by rewrite filter_cons_False].
  constructor; [done|]. rewrite Forall_forall in *. intros y [_ Hy]%list_elem_of_filter. by apply Hx.
Qed.

Lemma sorted_remove n (s : schedule) : StronglySorted by_timeout s → StronglySorted by_timeout (sched_remove n s).
Proof. apply sorted_filter. Qed.

Lemma sorted_insert n t (s : schedule) : StronglySorted by_timeout s → StronglySorted by_timeout (sched_insert n t s).
Proof.
  intros Hs. unfold sched_insert.
  apply StronglySorted_app_2; [|by apply sorted_filter|].
  - intros x y Hx Hy. apply list_elem_of_filter in Hx as [Hx _]. unfold by_timeout.
    apply elem_of_cons in Hy as [->|Hy]; [done|]. apply list_elem_of_filter in Hy as [Hy _]. lia.
  - constructor; [by apply sorted_filter|]. apply Forall_forall. intros y [Hy _]%list_elem_of_filter. unfold by_timeout. cbn. lia.
Qed.

(** ** The manager *)

Section manager.
Context {H C : Type} `{KeyTable H nat}.
Implicit Types (m : timer_mgr H C) (s : schedule).

Record sched_ok m s : Prop := {
  so_tree : tree_ok (tree m) s.*1;
  so_sorted : StronglySorted by_timeout s;
  so_timers : ∀ n t, (n, t) ∈ s ↔
    ∃ tm, timers m !! n = Some tm ∧ running tm = true ∧ timeout tm = t;
  so_alloc : ∀ n, is_Some (timers m !! n) → is_Some (nodes (tree m) !! n);
  so_pool : ∃ fs used, pool_ok (pool m) fs used ∧
    ∀ n, is_Some (timers m !! n) ↔ ∃ i, i ∈ used ∧ n = timer_at i }.

(** The timers that stay allocated keep their callback. *)
Definition same_cbs m m' : Prop :=
  ∀ n tm, timers m !! n = Some tm → ∃ tm', timers m' !! n = Some tm' ∧ cb tm' = cb tm.

#[export] Instance same_cbs_preorder : PreOrder same_cbs.
Proof.
  split; [by intros m n tm ?; exists tm|]. intros m1 m2 m3 H1 H2 n tm Hn.
  destruct (H1 _ _ Hn) as (tm2 & Hn2 & <-), (H2 _ _ Hn2) as (tm3 & Hn3 & <-). by exists tm3.
Qed.

Lemma wp_on_tree {A} (x : M rbtree A) (Q : A → timer_mgr H C → Prop) m :
  wp x (λ a t, Q a (Mgr (pool m) t (timers m))) (tree m) → wp (on_tree x) Q m.
Proof. unfold wp, on_tree. by destruct (x (tree m)) as [[a t]|]. Qed.

Lemma wp_on_tree_read {A} (x : M rbtree A) (Q : A → timer_mgr H C → Prop) m :
  wp x (λ a t, t = tree m ∧ Q a m) (tree m) → wp (on_tree x) Q m.
Proof.
  intros Hx. apply wp_on_tree. eapply wp_mono; [done|]. cbn beta. intros a t [-> HQ].
  by destruct m.
Qed.

Lemma wp_timer_get n tm (Q : ogs_timer C → timer_mgr H C → Prop) m :
  timers m !! n = Some tm → Q tm m → wp (timer_get n) Q m.
Proof. intros Hn HQ. unfold wp, timer_get. by rewrite Hn. Qed.

Lemma wp_timer_upd n f tm (Q : unit → timer_mgr H C → Prop) m :
  timers m !! n = Some tm → Q tt (Mgr (pool m) (tree m) (<[n := f tm]> (timers m))) →
  wp (timer_upd n f) Q m.
Proof. intros Hn HQ. unfold wp, timer_upd. by rewrite Hn. Qed.

(** The link that a place of the tree reads. *)
Lemma wp_deref_link k u (Q : ptr → timer_mgr H C → Prop) m :
  rep (nodes (tree m)) (tree m) (plug k u) → Q (root_ptr u) m → wp (deref_link (link_of k)) Q m.
Proof.
  intros Hr HQ. destruct k as [|k p c r|l p c k]; cbn [link_of deref_link]; apply wp_on_tree_read.
  - apply wp_gets. split; [done|]. by rewrite (rep_root _ _ _ Hr).
  - by eapply wp_get_left.
  - by eapply wp_get_right.
Qed.

Fixpoint tree_depth (t : RBZip.tree) : nat :=
  match t with E => 0 | T l _ _ r => S (Nat.max (tree_depth l) (tree_depth r)) end.
Lemma tree_depth_le t : (tree_depth t ≤ length (inorder t))%nat.
Proof. induction t; cbn; rewrite ?length_app; cbn; lia. Qed.

(** The descent finds the leaf after all time-outs [≤ t]; [su] is the part of
    the schedule below the current place. *)
Lemma descend_ok t fuel : ∀ m k u (su : schedule),
  rep (nodes (tree m)) (tree m) (plug k u) → inorder u = su.*1 → StronglySorted by_timeout su →
  (∀ n x, (n, x) ∈ su → ∃ tm, timers m !! n = Some tm ∧ timeout tm = x) →
  (tree_depth u < fuel)%nat →
  wp (descend fuel t (link_of k) (parent_of k))
    (λ p m', m' = m ∧ ∃ k' s1 s2, p = (link_of k', parent_of k') ∧ plug k' E = plug k u ∧
       su = s1 ++ s2 ∧ before k' = before k ++ s1.*1 ∧ after k' = s2.*1 ++ after k ∧
       Forall (λ x, snd x ≤ t) s1 ∧ Forall (λ x, t < snd x) s2) m.
Proof.
  induction fuel as [|fuel IH]; intros m k u su Hr Hi Hs Ht Hf; [lia|].
  cbn [descend]. apply wp_bind. eapply wp_deref_link; [done|].
  destruct u as [|l n c r]; cbn [root_ptr].
  { destruct su; [|done]. apply wp_ret. split; [done|]. exists k, [], []. cbn.
    rewrite app_nil_r. split_and!; done. }
  cbn [inorder] in Hi. symmetry in Hi. apply fmap_app_inv in Hi as (sl & sr' & Hl & Hr' & ->).
  symmetry in Hr'. apply fmap_cons_inv in Hr' as ([n' x] & sr & E1 & E2 & ->). cbn in E1. subst n'.
  destruct (Ht n x) as (tm & Htm & Hx); [in_list|].
  apply wp_bind. eapply wp_timer_get; [done|]. rewrite Hx. cbn in Hf.
  apply StronglySorted_app in Hs as (Hcross & Hsl & Hsr0).
  apply StronglySorted_inv in Hsr0 as [Hsr Hhd]. rewrite Forall_forall in Hhd.
  destruct (t <? x) eqn:Ecmp.
  - eapply wp_mono; [apply (IH m (CtxL k n c r) l sl); try done; [|lia]|].
    { intros n0 x0 Hin. apply Ht. in_list. }
    cbn beta. intros p m' (-> & k' & s1 & s2 & -> & Hplug & -> & Hb & Ha & F1 & F2). split; [done|].
    exists k', s1, (s2 ++ (n, x) :: sr). cbn in Hb, Ha. rewrite <- app_assoc. split_and!; try done.
    + rewrite Ha, fmap_app, <- app_assoc. cbn. by rewrite E2.
    + apply Forall_app. split; [done|]. constructor; [cbn; lia|].
      apply Forall_forall. intros y Hy. specialize (Hhd y Hy). unfold by_timeout in Hhd. cbn in Hhd. lia.
  - eapply wp_mono; [apply (IH m (CtxR l n c k) r sr); try done; [|lia]|].
    { intros n0 x0 Hin. apply Ht. apply elem_of_app. right. by right. }
    cbn beta. intros p m' (-> & k' & s1 & s2 & -> & Hplug & -> & Hb & Ha & F1 & F2). split; [done|].
    exists k', (sl ++ (n, x) :: s1), s2. cbn in Hb, Ha. rewrite <- app_assoc. split_and!; try done.
    + rewrite Hb, fmap_app, fmap_cons, Hl, <- !app_assoc. done.
    + apply Forall_app. split; [|constructor; [cbn; lia|done]].
      apply Forall_forall. intros y Hy. assert (Hyx : by_timeout y (n, x)) by (apply Hcross; in_list).
      unfold by_timeout in Hyx. cbn in Hyx. lia.
Qed.

Lemma sched_nodup m s : sched_ok m s → NoDup s.*1.
Proof. intros []. by eapply tree_ok_nodup. Qed.

(** A timer is scheduled when it is running. *)
Lemma sched_in m s n tm :
  sched_ok m s → timers m !! n = Some tm → n ∈ s.*1 ↔ running tm = true.
Proof.
  intros Hok Hn. rewrite list_elem_of_fmap. split.
  - intros ([n' t] & E & Hin). cbn in E. subst n'. apply (so_timers _ _ Hok) in Hin. naive_solver.
  - intros Hr. exists (n, timeout tm). split; [done|]. apply (so_timers _ _ Hok). naive_solver.
Qed.

Lemma same_cbs_insert m n tm tm' p tr :
  timers m !! n = Some tm → cb tm' = cb tm → same_cbs m (Mgr p tr (<[n := tm']> (timers m))).
Proof.
  intros Hn Hc x tmx Hx. cbn. destruct (decide (x = n)) as [->|Hne].
  - exists tm'. rewrite lookup_insert_eq. simplify_eq. done.
  - exists tmx. by rewrite lookup_insert_ne.
Qed.

Lemma is_some_insert (ts : gmap positive (ogs_timer C)) n tm x :
  is_Some (ts !! n) → is_Some (<[n := tm]> ts !! x) ↔ is_Some (ts !! x).
Proof.
  intros Hn. destruct (decide (x = n)) as [->|Hne]; [|by rewrite lookup_insert_ne].
  rewrite lookup_insert_eq. naive_solver.
Qed.

(** Taking a running timer out of the tree. *)
Lemma remove_ok m s n tm :
  sched_ok m s → timers m !! n = Some tm → running tm = true →
  wp (ogs_rbtree_delete n)
    (λ _ tr, tree_ok tr (sched_remove n s).*1 ∧ keeps (tree m) tr) (tree m).
Proof.
  intros Hok Hn Hr. pose proof (proj2 (sched_in _ _ _ _ Hok Hn) Hr) as Hin.
  apply list_elem_of_fmap in Hin as ([n' t] & E & Hin). cbn in E. subst n'.
  apply list_elem_of_split in Hin as (s1 & s2 & ->).
  pose proof (sched_nodup _ _ Hok) as Hd. rewrite (sched_remove_split _ _ _ _ Hd).
  pose proof (so_tree _ _ Hok) as Ht. rewrite fmap_app in Ht |- *. by apply tree_delete.
Qed.

Lemma stop_ok m s n :
  sched_ok m s → is_Some (timers m !! n) →
  wp (ogs_timer_stop n) (λ _ m', sched_ok m' (sched_remove n s) ∧ same_cbs m m' ∧
    pool m' = pool m) m.
Proof.
  intros Hok [tm Hn]. unfold ogs_timer_stop. apply wp_bind. eapply wp_timer_get; [done|].
  pose proof (sched_in _ _ _ _ Hok Hn) as Hin. destruct (running tm) eqn:Er; cbn [negb].
  2:{ apply wp_ret. rewrite sched_remove_absent by (intros Hx%Hin; done). done. }
  apply wp_bind. eapply wp_timer_upd; [done|].
  apply wp_on_tree. eapply wp_mono; [cbn [tree]; by eapply remove_ok|]. cbn beta. intros _ tr [Htr Hk].
  split_and!; [|cbn; by eapply same_cbs_insert|done].
  destruct Hok as [_ Hs Hti Ha (fs & used & Hp & Hu)]. split; cbn; try done.
  - by apply sorted_remove.
  - intros x t. rewrite elem_of_sched_remove, Hti. destruct (decide (x = n)) as [->|Hne].
    + rewrite lookup_insert_eq. naive_solver.
    + rewrite lookup_insert_ne by done. naive_solver.
  - intros x Hx. apply Hk, Ha. by rewrite is_some_insert in Hx.
  - exists fs, used. split; [done|]. intros x. by rewrite is_some_insert.
Qed.

(** [add_timer_node] on a timer that is not in the tree. *)
Lemma add_timer_node_ok m s n tm now d :
  tree_ok (tree m) s.*1 → StronglySorted by_timeout s → n ∉ s.*1 →
  (∀ x t, x ≠ n → (x, t) ∈ s ↔ ∃ tm, timers m !! x = Some tm ∧ running tm = true ∧ timeout tm = t) →
  (∀ x, is_Some (timers m !! x) → is_Some (nodes (tree m) !! x)) →
  (∃ fs used, pool_ok (pool m) fs used ∧ ∀ x, is_Some (timers m !! x) ↔ ∃ i, i ∈ used ∧ x = timer_at i) →
  timers m !! n = Some tm → running tm = true →
  wp (add_timer_node n now d) (λ _ m', sched_ok m' (sched_insert n (now + d) s) ∧ same_cbs m m' ∧
    pool m' = pool m) m.
Proof.
  intros Ht Hs Hns Hti Ha Hp Hn Hr. unfold add_timer_node.
  apply wp_bind. eapply wp_timer_upd; [done|]. set (tm' := set_timeout (now + d) tm).
  set (m1 := Mgr _ _ _). assert (Hn1 : timers m1 !! n = Some tm') by apply lookup_insert_eq.
  apply wp_bind. eapply wp_timer_get; [done|]. cbn [timeout tm' set_timeout].
  apply wp_bind, wp_on_tree_read. eapply tree_fuel; [exact Ht|]. intros f Hf. split; [done|].
  destruct Ht as (t & Hrep & Hrb & Hi).
  apply wp_bind. eapply wp_mono.
  { apply (descend_ok (now + d) f m1 Top t s); try done.
    - intros x u Hx. assert (Hxn : x ≠ n).
      { intros ->. apply Hns. apply list_elem_of_fmap. by exists (n, u). }
      apply Hti in Hx as (tmx & Hx & _ & Hu); [|done]. exists tmx. subst m1. cbn.
      by rewrite lookup_insert_ne.
    - pose proof (tree_depth_le t). rewrite Hi in *. lia. }
  cbn beta. intros p m' (-> & k' & s1 & s2 & -> & Hplug & -> & Hb & Haf & F1 & F2).
  cbn in Hb, Haf, Hplug. rewrite app_nil_r in Haf. rewrite <- Hplug in Hrep, Hrb, Hi.
  apply wp_on_tree. eapply wp_mono; [apply tree_insert; [exact Hrep|done| |]|].
  - rewrite Hi. exact Hns.
  - apply Ha. by exists tm.
  - cbn beta. intros _ tr [Htr Hk]. rewrite sched_insert_split by done. split_and!; [|by eapply same_cbs_insert|done].
    assert (Hsi : StronglySorted by_timeout (s1 ++ (n, now + d) :: s2)).
    { rewrite <- sched_insert_split by done. by apply sorted_insert. }
    split; cbn; try done.
    + rewrite Hb, Haf in Htr. by rewrite fmap_app.
    + intros x u. destruct (decide (x = n)) as [->|Hne].
      * rewrite lookup_insert_eq. split.
        -- intros [Hx|[[= ->]|Hx]%elem_of_cons]%elem_of_app; [|by exists tm'|];
             destruct Hns; apply list_elem_of_fmap; exists (n, u); rewrite elem_of_app; auto.
        -- intros (tm2 & [= <-] & _ & <-). in_list.
      * rewrite lookup_insert_ne by done. rewrite <- (Hti x u Hne).
        rewrite !elem_of_app, elem_of_cons. split; [|naive_solver].
        intros [?|[[= -> ->]|?]]; naive_solver.
    + intros x Hx. apply Hk, Ha. by rewrite is_some_insert in Hx.
    + destruct Hp as (fs & used & Hp & Hu). exists fs, used. split; [done|].
      intros x. by rewrite is_some_insert.
Qed.

Lemma start_ok m s n now d :
  sched_ok m s → is_Some (timers m !! n) → d ≠ 0 →
  wp (ogs_timer_start n now d) (λ _ m', sched_ok m' (sched_start n (now + d) s) ∧ same_cbs m m' ∧
    pool m' = pool m) m.
Proof.
  intros Hok [tm Hn] Hd. unfold ogs_timer_start. apply wp_bind, wp_assert; [lia|].
  apply wp_bind. eapply wp_timer_get; [done|]. apply wp_bind.
  assert (Hw : wp (m_when (running tm) (on_tree (ogs_rbtree_delete n)))
    (λ _ m1, pool m1 = pool m ∧ timers m1 = timers m ∧ tree_ok (tree m1) (sched_remove n s).*1 ∧
       keeps (tree m) (tree m1)) m).
  { pose proof (sched_in _ _ _ _ Hok Hn) as Hin. destruct (running tm) eqn:Er; cbn [m_when].
    - apply wp_on_tree. eapply wp_mono; [by eapply remove_ok|]. cbn beta. by intros _ tr [??].
    - apply wp_ret. rewrite sched_remove_absent by (intros Hx%Hin; done).
      pose proof (so_tree _ _ Hok). by unfold keeps. }
  eapply wp_mono; [exact Hw|]. cbn beta. intros _ m1 (Hp1 & Ht1 & Htr1 & Hk1).
  apply wp_bind. eapply wp_timer_upd; [by rewrite Ht1|].
  destruct Hok as [_ Hs Hti Ha (fs & used & Hp & Hu)].
  assert (Hsome : ∀ x, is_Some (<[n := set_running true tm]> (timers m) !! x) ↔ is_Some (timers m !! x))
    by (intros x; by rewrite is_some_insert).
  eapply wp_mono; [eapply (add_timer_node_ok _ (sched_remove n s) n (set_running true tm)); cbn; try done|].
  - by apply sorted_remove.
  - intros ([n' t] & E & Hx)%list_elem_of_fmap. cbn in E. subst n'.
    by apply elem_of_sched_remove in Hx as [? _].
  - intros x t Hne. rewrite elem_of_sched_remove, Hti, Ht1, lookup_insert_ne by done. naive_solver.
  - intros x Hx. apply Hk1, Ha. rewrite Ht1 in Hx. by apply Hsome.
  - exists fs, used. rewrite Hp1, Ht1. split; [done|]. intros x. by rewrite Hsome.
  - rewrite Ht1. by rewrite lookup_insert_eq.
  - cbn beta. intros _ m' (H1 & H2 & H3). split_and!; [done| |by rewrite H3].
    etransitivity; [|exact H2]. rewrite Ht1. by eapply same_cbs_insert.
Qed.

Lemma slot_of_at i : slot_of (timer_at i) = i.
Proof. unfold slot_of, timer_at. lia. Qed.
Lemma timer_at_inj i j : timer_at i = timer_at j → i = j.
Proof. unfold timer_at. lia. Qed.

Lemma timer_create_ok capacity hash : (0 < capacity)%nat → sched_ok (ogs_timer_mgr_create capacity hash) [].
Proof.
  intros Hc. split; cbn; try done.
  - exists E. split_and!; [|by split_and!; [exists 0%nat|..]|done]. split; try done. constructor.
  - constructor.
  - intros n t. split; [by intros ?%elem_of_nil|by intros (? & ? & _)].
  - intros n [? ?]. done.
  - exists (seq 0 capacity), []. split; [by apply init_ok|]. intros n. split; [by intros [? ?]|].
    intros (i & ?%elem_of_nil & _). done.
Qed.

Lemma add_ok m s c :
  sched_ok m s →
  wp (ogs_timer_add c) (λ r m',
    match r with
    | Some n => timers m !! n = None ∧ timers m' = <[n := Timer false 0 c]> (timers m) ∧ sched_ok m' s
    | None => m' = m ∧ avail (pool m) = 0%nat
    end) m.
Proof.
  intros [Ht Hs Hti Ha (fs & used & Hp & Hu)]. unfold ogs_timer_add. apply wp_bind.
  destruct fs as [|i fs].
  { unfold wp, on_pool. rewrite (alloc_none _ _ Hp). cbn. destruct m. cbn. split; [done|].
    by destruct Hp. }
  pose proof (pool_nodup _ _ _ Hp) as Hnd. names_in Hnd.
  destruct (alloc_ok _ _ _ _ Hp) as (p' & E & Hp' & _). unfold wp at 1, on_pool. rewrite E.
  assert (Hnone : timers m !! timer_at i = None).
  { apply eq_None_not_Some. intros (j & Hj & ->%timer_at_inj)%Hu. names. }
  assert (Hns : timer_at i ∉ s.*1).
  { intros ([n t] & E1 & Hin)%list_elem_of_fmap. cbn in E1. apply Hti in Hin as (? & Hin & _).
    congruence. }
  apply wp_bind, wp_modify, wp_ret. cbn. split_and!; [done|done|].
  split; cbn; try done.
  - destruct Ht as (t & Hr & Hok & Hi). exists t. split_and!; try done.
    destruct Hr as [Hr1 Hr2 Hr3 _]. split; cbn; try done.
    eapply owns_ext; [|exact Hr2]. intros x Hx. rewrite lookup_insert_ne; [done|].
    intros <-. rewrite Hi in Hx. done.
  - intros x t. rewrite Hti. destruct (decide (x = timer_at i)) as [->|Hne].
    + rewrite lookup_insert_eq. naive_solver.
    + by rewrite lookup_insert_ne.
  - intros x Hx. destruct (decide (x = timer_at i)) as [->|Hne].
    + by rewrite lookup_insert_eq.
    + rewrite lookup_insert_ne in Hx by done. rewrite lookup_insert_ne by done. by apply Ha.
  - exists fs, (i :: used). split; [done|]. intros x. destruct (decide (x = timer_at i)) as [->|Hne].
    + rewrite lookup_insert_eq. split; [|done]. intros _. exists i. split; [by left|done].
    + rewrite lookup_insert_ne, Hu by done. split.
      * intros (j & Hj & ->). exists j. split; [by right|done].
      * intros (j & [->|Hj]%elem_of_cons & ->); [done|]. by exists j.
Qed.

Lemma delete_ok m s n :
  sched_ok m s → is_Some (timers m !! n) →
  wp (ogs_timer_delete n) (λ _ m', sched_ok m' (sched_remove n s) ∧ timers m' !! n = None ∧
    avail (pool m') = (avail (pool m) + 1)%nat) m.
Proof.
  intros Hok Hn. unfold ogs_timer_delete. apply wp_bind.
  eapply wp_mono; [by apply stop_ok|]. cbn beta. intros _ m1 ([Ht Hs Hti Ha (fs & used & Hp & Hu)] & Hc & Hpm).
  assert (Hn1 : is_Some (timers m1 !! n)).
  { destruct Hn as [tm Hn]. destruct (Hc _ _ Hn) as (tm' & Hn' & _). by exists tm'. }
  destruct (proj1 (Hu n) Hn1) as (i & Hi & ->). rewrite slot_of_at.
  apply list_elem_of_split in Hi as (l1 & l2 & ->).
  pose proof (pool_nodup _ _ _ Hp) as Hnd. names_in Hnd.
  destruct (free_ok _ _ _ _ _ Hp) as (p' & E & Hp' & _).
  apply wp_bind. unfold wp at 1, on_pool. rewrite E. apply wp_modify. cbn.
  split_and!; [|apply lookup_delete_eq|].
  2:{ rewrite <- Hpm. destruct Hp, Hp'. rewrite po_avail0, po_avail, length_app. cbn. lia. }
  split; cbn; try done.
  - intros x t. rewrite Hti. split.
    + intros (tm & Hx & ?). assert (x ≠ timer_at i).
      { intros ->. assert (Hin : (timer_at i, t) ∈ sched_remove (timer_at i) s) by (apply Hti; by exists tm).
        by apply elem_of_sched_remove in Hin as [? _]. }
      rewrite lookup_delete_ne by done. by exists tm.
    + intros (tm & [_ Hx]%lookup_delete_Some & ?). by exists tm.
  - intros x [tm [_ Hx]%lookup_delete_Some]. apply Ha. by exists tm.
  - exists (fs ++ [i]), (l1 ++ l2). split; [done|]. intros x. split.
    + intros [tm [Hne Hx]%lookup_delete_Some].
      destruct (proj1 (Hu x) (mk_is_Some _ _ Hx)) as (j & Hj & ->). exists j. split; [|done].
      rewrite elem_of_app, elem_of_cons in Hj. rewrite elem_of_app. naive_solver.
    + intros (j & Hj & ->). assert (j ≠ i) by (intros ->; apply elem_of_app in Hj as []; names).
      rewrite lookup_delete_ne by (by intros ->%timer_at_inj). apply Hu. exists j. split; [|done].
      rewrite elem_of_app, elem_of_cons. apply elem_of_app in Hj. tauto.
Qed.

Lemma timer_next_ok m s now :
  sched_ok m s → wp (ogs_timer_mgr_next now) (λ r m', m' = m ∧ r = sched_next now s) m.
Proof.
  intros Hok. unfold ogs_timer_mgr_next. apply wp_bind, wp_on_tree_read.
  eapply tree_first; [apply Hok|]. split; [done|]. destruct s as [|[n t] s]; cbn; [by apply wp_ret|].
  destruct (proj1 (so_timers _ _ Hok n t)) as (tm & Hn & _ & Ht); [by left|].
  apply wp_bind. eapply wp_timer_get; [done|]. rewrite Ht. by destruct (now <? t); apply wp_ret.
Qed.

(** ** Expiry *)

Lemma due_none now s n t : StronglySorted by_timeout ((n, t) :: s) → now < t → sched_due now ((n, t) :: s) = [].
Proof.
  intros [Hs Hx]%StronglySorted_inv Ht. unfold sched_due. rewrite filter_cons_False by (cbn; lia).
  assert (filter (λ x : positive * Z, snd x ≤ now) s = []) as ->; [|done].
  induction Hx as [|y s Hy Hx IH]; [done|]. apply StronglySorted_inv in Hs as [Hs _].
  unfold by_timeout in Hy. cbn in Hy. rewrite filter_cons_False by lia. by apply IH.
Qed.

Lemma collect_ok now m s fuel : ∀ pre rest,
  sched_ok m s → s = pre ++ rest → (length rest < fuel)%nat →
  wp (collect fuel now (hd_error rest.*1)) (λ due m', m' = m ∧ due = sched_due now rest) m.
Proof.
  induction fuel as [|fuel IH]; intros pre rest Hok Hs Hf; [lia|].
  destruct rest as [|[n t] rest]; cbn [collect fmap list_fmap hd_error fst]; [by apply wp_ret|].
  destruct (proj1 (so_timers _ _ Hok n t)) as (tm & Hn & _ & Ht).
  { rewrite Hs. in_list. }
  apply wp_bind. eapply wp_timer_get; [done|]. rewrite Ht.
  pose proof (so_sorted _ _ Hok) as Hso. rewrite Hs in Hso. apply StronglySorted_app in Hso as (_ & _ & Hso).
  destruct (now <? t) eqn:Ec.
  - apply wp_ret. by rewrite due_none by (done || lia).
  - apply wp_bind, wp_on_tree_read. pose proof (so_tree _ _ Hok) as Htr. rewrite Hs, fmap_app in Htr.
    eapply tree_next; [exact Htr|]. split; [done|]. apply wp_bind.
    eapply wp_mono; [apply (IH (pre ++ [(n, t)]) rest); [done|by rewrite <- app_assoc|cbn in Hf; lia]|].
    cbn beta. intros due m' [-> ->]. apply wp_ret. split; [done|].
    unfold sched_due. by rewrite filter_cons_True by (cbn; lia).
Qed.

(** [eff c]: what the callback [c] does to the schedule. *)
Fixpoint sched_run (eff : C → schedule → schedule) (cbs : positive → option C)
    (due : list positive) (s : schedule) : schedule :=
  match due with
  | [] => s
  | n :: due =>
      let s := sched_remove n s in
      sched_run eff cbs due (match cbs n with Some c => eff c s | None => s end)
  end.

Definition cb_of m (n : positive) : option C := timers m !! n ≫= cb.

Definition call_ok (call : C → M (timer_mgr H C) unit) (eff : C → schedule → schedule) : Prop :=
  ∀ c m s, sched_ok m s → wp (call c) (λ _ m', sched_ok m' (eff c s) ∧ same_cbs m m') m.

Lemma same_cbs_cb_of m m' n : same_cbs m m' → is_Some (timers m !! n) → cb_of m' n = cb_of m n.
Proof.
  intros Hc [tm Hn]. destruct (Hc _ _ Hn) as (tm' & Hn' & E). unfold cb_of. by rewrite Hn, Hn'.
Qed.

Lemma run_due_ok call eff due : ∀ m s,
  call_ok call eff → sched_ok m s → (∀ n, n ∈ due → is_Some (timers m !! n)) →
  wp (run_due call due) (λ ran m', sched_ok m' (sched_run eff (cb_of m) due s) ∧
    ran = omap (cb_of m) due) m.
Proof.
  induction due as [|n due IH]; intros m s Hcall Hok Hdue; cbn [run_due]; [by apply wp_ret|].
  assert (Hn : is_Some (timers m !! n)) by (apply Hdue; by left).
  apply wp_bind. eapply wp_mono; [by apply stop_ok|]. cbn beta. intros _ m1 (Hok1 & Hc1 & _).
  destruct Hn as [tm Hn]. destruct (Hc1 _ _ Hn) as (tm1 & Hn1 & Hcb).
  apply wp_bind. eapply wp_timer_get; [done|]. rewrite Hcb.
  assert (Hcn : cb_of m n = cb tm) by (unfold cb_of; by rewrite Hn).
  apply wp_bind. eapply (wp_mono _ (λ _ m2, sched_ok m2 (match cb tm with
      Some c => eff c (sched_remove n s) | None => sched_remove n s end) ∧ same_cbs m1 m2)).
  { destruct (cb tm) as [c|]; cbn; [by apply Hcall|by apply wp_ret]. }
  cbn beta. intros _ m2 [Hok2 Hc2]. assert (Hc : same_cbs m m2) by (by etransitivity).
  apply wp_bind. eapply wp_mono.
  { apply (IH m2 _ Hcall Hok2). intros x Hx. destruct (Hdue x) as [tmx Hx1]; [by right|].
    destruct (Hc _ _ Hx1) as (tmx' & Hx2 & _). by exists tmx'. }
  cbn beta. intros ran m3 [Hok3 ->]. apply wp_ret.
  assert (Hext : ∀ x, x ∈ due → cb_of m2 x = cb_of m x).
  { intros x Hx. apply same_cbs_cb_of; [done|]. apply Hdue. by right. }
  cbn [sched_run]. rewrite Hcn. split.
  - revert Hok3. generalize (match cb tm with Some c => eff c (sched_remove n s) | None => sched_remove n s end).
    clear -Hext. induction due as [|x due IH]; intros s0; cbn; [done|].
    rewrite Hext by (by left). apply IH. intros y Hy. apply Hext. by right.
  - cbn. rewrite Hcn. assert (omap (cb_of m2) due = omap (cb_of m) due) as ->; [|by destruct (cb tm)].
    clear -Hext. induction due as [|x due IH]; [done|]. cbn. rewrite Hext by (by left).
    rewrite IH; [done|]. intros y Hy. apply Hext. by right.
Qed.

Lemma expire_ok call eff m s now :
  call_ok call eff → sched_ok m s →
  wp (ogs_timer_mgr_expire call now) (λ ran m',
    sched_ok m' (sched_run eff (cb_of m) (sched_due now s) s) ∧
    ran = omap (cb_of m) (sched_due now s)) m.
Proof.
  intros Hcall Hok. unfold ogs_timer_mgr_expire. apply wp_bind, wp_on_tree_read.
  eapply tree_first; [apply Hok|]. split; [done|].
  apply wp_bind, wp_on_tree_read. eapply tree_fuel; [apply Hok|]. intros f Hf. split; [done|].
  apply wp_bind. eapply wp_mono; [apply (collect_ok now m s f [] s); [done|done|by rewrite length_fmap in Hf]|].
  cbn beta. intros due m' [-> ->]. apply run_due_ok; [done|done|].
  intros n ([n' t] & E & Hin)%list_elem_of_fmap. cbn in E. subst n'.
  apply list_elem_of_filter in Hin as [_ Hin]. apply (so_timers _ _ Hok) in Hin as (tm & Hn & _).
  by exists tm.
Qed.
End manager.

(** ** The properties *)

Section spec.
Context {H C : Type} `{KeyTable H nat}.

(** C27: Every operation of the timer manager keeps the tree, the [running]
    flags, the time-outs and the pool consistent with the schedule, and never
    aborts: a new timer is idle and distinct from all others (NULL only when
    the pool is exhausted); starting a timer, running or not, (re)schedules it
    at [now + duration] after every timer with the same or an earlier
    time-out; stopping and deleting take exactly that timer out; and
    [ogs_timer_mgr_next] is the time left until the first time-out. *)
Theorem ogs_timer_refines_schedule (m : timer_mgr H C) (s : schedule) :
  sched_ok m s →
  (∀ c, wp (ogs_timer_add c) (λ r m',
     match r with
     | Some n => timers m !! n = None ∧ timers m' = <[n := Timer false 0 c]> (timers m) ∧ sched_ok m' s
     | None => m' = m ∧ avail (pool m) = 0%nat
     end) m) ∧
  (∀ n, is_Some (timers m !! n) →
    (∀ now duration, duration ≠ 0 →
      wp (ogs_timer_start n now duration)
        (λ _ m', sched_ok m' (sched_start n (now + duration) s)) m) ∧
    wp (ogs_timer_stop n) (λ _ m', sched_ok m' (sched_remove n s)) m ∧
    wp (ogs_timer_delete n) (λ _ m', sched_ok m' (sched_remove n s) ∧ timers m' !! n = None ∧
      avail (pool m') = (avail (pool m) + 1)%nat) m) ∧
  (∀ now, ogs_timer_mgr_next now m = Some (sched_next now s, m)).
Proof.
  intros Hok. split_and!.
  - intros c. by apply add_ok.
  - intros n Hn. split_and!.
    + intros now d Hd. eapply wp_mono; [by apply start_ok|]. cbn beta. by intros _ m' (? & _).
    + eapply wp_mono; [by apply stop_ok|]. cbn beta. by intros _ m' (? & _).
    + by apply delete_ok.
  - intros now. pose proof (timer_next_ok m s now Hok) as Hn.
    by apply wp_run in Hn as (r & m' & -> & -> & ->).
Qed.

(** C28: Expiry: [ogs_timer_mgr_expire] takes the timers due at [now], in the
    order of the schedule, and stops and runs the callback of each exactly
    once, whatever the callbacks do to the schedule in between ([eff c]), as
    long as they delete no timer.  In particular a timer that an earlier
    callback of the same pass stopped or restarted still fires in the pass. *)
Theorem ogs_timer_mgr_expire_correct (call : C → M (timer_mgr H C) unit)
    (eff : C → schedule → schedule) (m : timer_mgr H C) (s : schedule) (now : Z) :
  call_ok call eff → sched_ok m s →
  ∃ m', ogs_timer_mgr_expire call now m = Some (omap (cb_of m) (sched_due now s), m') ∧
    sched_ok m' (sched_run eff (cb_of m) (sched_due now s) s).
Proof.
  intros Hcall Hok. pose proof (expire_ok call eff m s now Hcall Hok) as Hw.
  apply wp_run in Hw as (ran & m' & E & Hok' & ->). by exists m'.
Qed.
End spec.

(** ** Witnesses *)

(** Runs one operation of a concrete manager. *)
Ltac run_step Hw m Hok :=
  apply wp_run in Hw; let r := fresh in let E := fresh in
  destruct Hw as (r & m & E & Hok); vm_compute in E; injection E as <- <-.

(** Two timers with callbacks 10 and 20, at 5 and 7. *)
Lemma demo_mgr : ∃ m : timer_mgr (ogs_hash_t nat) nat,
  sched_ok m [(1%positive, 5); (2%positive, 7)] ∧ cb_of m 1 = Some 10%nat ∧ cb_of m 2 = Some 20%nat.
Proof.
  pose proof (timer_create_ok (C:=nat) 3 (ogs_hash_make (V:=nat) 0) ltac:(lia)) as H0.
  pose proof (add_ok _ _ (Some 10%nat) H0) as Hw. run_step Hw m1 H1. destruct H1 as (_ & _ & H1).
  pose proof (add_ok _ _ (Some 20%nat) H1) as Hw. run_step Hw m2 H2. destruct H2 as (_ & _ & H2).
  pose proof (start_ok _ _ 2 0 7 H2 ltac:(vm_compute; by eexists) ltac:(done)) as Hw.
  run_step Hw m3 H3. destruct H3 as (H3 & _ & _).
  pose proof (start_ok _ _ 1 0 5 H3 ltac:(vm_compute; by eexists) ltac:(done)) as Hw.
  run_step Hw m4 H4. destruct H4 as (H4 & _ & _).
  eexists. split; [exact H4|]. split; vm_compute; reflexivity.
Qed.

Lemma ogs_timer_refines_schedule_witness :
  ∃ m : timer_mgr (ogs_hash_t nat) nat, ogs_timer_mgr_next 1 m = Some (4, m) ∧
    wp (ogs_timer_start 1 3 4) (λ _ m', sched_ok m' [(2%positive, 7); (1%positive, 7)]) m.
Proof.
  destruct demo_mgr as (m & Hok & Hc & _). exists m.
  destruct (ogs_timer_refines_schedule m _ Hok) as (_ & Hops & Hnext). split; [exact (Hnext 1)|].
  apply (proj1 (Hops 1%positive ltac:(unfold cb_of in Hc; by destruct (timers m !! 1%positive)))). done.
Defined.

(** The first callback stops the second timer, which fires all the same. *)
Definition stop_second (c : nat) : M (timer_mgr (ogs_hash_t nat) nat) unit := λ m,
  if timers m !! 2%positive is Some _ then ogs_timer_stop 2 m else Some (tt, m).

Lemma stop_second_ok : call_ok stop_second (λ _, sched_remove 2).
Proof.
  intros c m s Hok. unfold stop_second, wp.
  destruct (timers m !! 2%positive) as [tm|] eqn:E.
  - pose proof (stop_ok m s 2 Hok (mk_is_Some _ _ E)) as Hw. unfold wp in Hw.
    destruct (ogs_timer_stop 2 m) as [[[] m']|]; [|done]. by destruct Hw as (? & ? & _).
  - split; [|done]. rewrite sched_remove_absent; [done|].
    intros ([n t] & E1 & Hin)%list_elem_of_fmap. cbn in E1. subst n.
    apply (so_timers _ _ Hok) in Hin as (? & Hn & _). congruence.
Qed.

Lemma ogs_timer_mgr_expire_correct_witness :
  ∃ m m' : timer_mgr (ogs_hash_t nat) nat,
    ogs_timer_mgr_expire stop_second 8 m = Some ([10; 20]%nat, m') ∧ sched_ok m' [].
Proof.
  destruct demo_mgr as (m & Hok & H1 & H2). exists m.
  destruct (ogs_timer_mgr_expire_correct stop_second _ m _ 8 stop_second_ok Hok) as (m' & E & Hok').
  exists m'. replace (sched_due 8 _) with [1; 2]%positive in * by reflexivity.
  cbn [omap list_omap sched_run] in E, Hok'. rewrite H1, H2 in E, Hok'. split; [exact E|exact Hok'].
Defined.
