(* ===== verification/Tlv.v ===== *)
(** * TLV coding: lib/core/ogs-tlv.c

    Rendering and parsing of blocks of type-length-value elements, the wire
    format of GTP and PFCP.  An element is a tree: its embedded elements are a
    list, empty for NULL.  Bytes are integers; [uint32_t] sums wrap around. *)
From S2P Require Import Prelude.
#[local] Open Scope Z_scope.

(** OGS_TLV_MODE_* *)
Inductive tlv_mode := T1_L1 | T1_L2 | T1_L2_I1 | T2_L2 | T1.

#[local] Set Warnings "-register-all".

(** struct ogs_tlv_s, without the links. *)
Inductive tlv := Tlv {
  tlv_mode_ : tlv_mode; tlv_type : Z; tlv_length : Z; tlv_instance : Z;
  tlv_value : list Z; tlv_embedded : list tlv }.

(** Length of the type, length and instance fields. *)
Definition tlv_header (m : tlv_mode) : Z :=
  match m with T1_L1 => 2 | T1_L2 => 3 | T1_L2_I1 | T2_L2 => 4 | T1 => 1 end.

(** One turn of the loop of [ogs_tlv_calc_length]: what it adds to [length],
    and the node, whose [length] is set when it has embedded elements. *)
Fixpoint calc_node (t : tlv) : Z * tlv :=
  let '(Tlv m ty len i v e) := t in
  let '(len, e) :=
    match e with
    | [] => (len, [])
    | _ => (fold_left (λ length t, u32 (length + fst (calc_node t))) e 0,
            map (λ t, snd (calc_node t)) e)
    end in
  (u32 (tlv_header m + len), Tlv m ty len i v e).

Definition ogs_tlv_calc_length (l : list tlv) : Z :=
  fold_left (λ length t, u32 (length + fst (calc_node t))) l 0.
(** The nodes after [ogs_tlv_calc_length]. *)
Definition tlv_set_lengths (l : list tlv) : list tlv := map (λ t, snd (calc_node t)) l.

Fixpoint count_node (t : tlv) : Z :=
  match tlv_embedded t with
  | [] => 1
  | e => fold_left (λ count t, u32 (count + count_node t)) e 0
  end.
Definition ogs_tlv_calc_count (l : list tlv) : Z :=
  fold_left (λ count t, u32 (count + count_node t)) l 0.

(** [x & 0xff] and [(x >> 8) & 0xff]. *)
Definition byte0 (x : Z) : Z := Z.land x 0xff.
Definition byte1 (x : Z) : Z := Z.land (Z.shiftr x 8) 0xff.

Definition tlv_put_type (type : Z) (m : tlv_mode) : list Z :=
  match m with T2_L2 => [byte1 type; byte0 type] | _ => [byte0 type] end.

Definition tlv_put_length (length : Z) (m : tlv_mode) : list Z :=
  match m with
  | T1_L1 => [byte0 length]
  | T1_L2 | T1_L2_I1 | T2_L2 => [byte1 length; byte0 length]
  | T1 => []
  end.

Definition tlv_put_instance (instance : Z) (m : tlv_mode) : list Z :=
  match m with T1_L2_I1 => [byte0 instance] | _ => [] end.

Definition put_header (m : tlv_mode) (type length instance : Z) : list Z :=
  tlv_put_type type m ++ tlv_put_length length m ++ tlv_put_instance instance m.

(** One turn of the loop of [ogs_tlv_render] at offset [pos] of a buffer of
    [size] bytes: the bytes it writes; None when an assertion fails or a read
    runs past the value.  [pos] is advanced by the computed length of the
    embedded block, which is its rendered length below 2^32 bytes. *)
Fixpoint render_node (t : tlv) (pos size : Z) : option (list Z) :=
  let '(Tlv m ty len i v e) := t in
  match e with
  | [] =>
      let hdr := put_header m ty len i in
      if size <? pos + zlen hdr + len then None
      else body ← read_bytes v len; Some (hdr ++ body)
  | _ =>
      let embedded_len := ogs_tlv_calc_length e in
      let hdr := put_header m ty embedded_len i in
      body ←
        (fix render_list (l : list tlv) (pos size : Z) : option (list Z) :=
           match l with
           | [] => Some []
           | t :: l =>
               b ← render_node t pos size; r ← render_list l (pos + zlen b) size; Some (b ++ r)
           end) e 0 (u32 (size - (pos + zlen hdr)));
      if zlen body =? embedded_len then Some (hdr ++ body) else None
  end.

Fixpoint render_list (l : list tlv) (pos size : Z) : option (list Z) :=
  match l with
  | [] => Some []
  | t :: l => b ← render_node t pos size; r ← render_list l (pos + zlen b) size; Some (b ++ r)
  end.

Definition ogs_tlv_render (root : list tlv) (length : Z) : option (list Z) :=
  render_list root 0 length.

(** ** Parsing

    [tlv_get_element] yields None when it reads outside of the memory [blk],
    Some None for NULL, and otherwise the element and the bytes consumed. *)
Definition get_length2 (b1 b0 : Z) : Z := Z.shiftl b1 8 + b0.

Definition element (m : tlv_mode) (type length instance : Z) (header : Z) (size : Z) (pos : list Z)
    : option (option (tlv * Z)) :=
  if size - header <? length then Some None
  else value ← read_bytes pos length; Some (Some (Tlv m type length instance value [], header + length)).

Definition tlv_get_element (blk : list Z) (size : Z) (m : tlv_mode) : option (option (tlv * Z)) :=
  if size <? tlv_header m then Some None
  else
    match m, blk with
    | T1_L1, t :: l :: pos => element m t l 0 2 size pos
    | T1_L2, t :: l1 :: l0 :: pos => element m t (get_length2 l1 l0) 0 3 size pos
    | T1_L2_I1, t :: l1 :: l0 :: i :: pos =>
        element m t (get_length2 l1 l0) (Z.land i 15) 4 size pos
    | T2_L2, t1 :: t0 :: l1 :: l0 :: pos =>
        element m (get_length2 t1 t0) (get_length2 l1 l0) 0 4 size pos
    | T1, t :: pos => element m t 0 0 1 size pos
    | _, _ => None
    end.

(** The value of fixed length of a type-only element. *)
Definition tlv_get_element_fixed (blk : list Z) (size fixed_length : Z) : option (option (tlv * Z)) :=
  if (size <? 1) || (u32 (size - 1) <? fixed_length) then Some None
  else
    match blk with
    | t :: pos =>
        value ← read_bytes pos fixed_length;
        Some (Some (Tlv T1 t fixed_length 0 value [], 1 + fixed_length))
    | [] => None
    end.

(** Nodes of the pool that [ogs_tlv_free_all] gives back. *)
Fixpoint free_node (t : tlv) : nat := S (fold_left (λ n t, n + free_node t) (tlv_embedded t) 0)%nat.
Definition ogs_tlv_free_all (root : list tlv) : nat := fold_left (λ n t, n + free_node t)%nat root 0%nat.

(** The loop of [ogs_tlv_parse_block]: [tlvs] are the elements linked so far,
    [avail] the nodes left in the pool; the result is the list of elements, or
    None for NULL, and the nodes left.  [fuel] bounds the number of turns. *)
Fixpoint parse_loop (fuel : nat) (length : Z) (blk : list Z) (m : tlv_mode) (off : Z)
    (tlvs : list tlv) (avail : nat) : option (option (list tlv) * nat) :=
  match fuel with
  | O => None
  | S fuel =>
      if off <? length then
        match avail with
        | O => Some (None, (avail + ogs_tlv_free_all tlvs)%nat)
        | S avail =>
            r ← tlv_get_element (drop (Z.to_nat off) blk) (u32 (length - off)) m;
            match r with
            | None => Some (None, (avail + 1 + ogs_tlv_free_all tlvs)%nat)
            | Some (t, n) => parse_loop fuel length blk m (off + n) (tlvs ++ [t]) avail
            end
        end
      else if off =? length then Some (Some tlvs, avail)
      else Some (None, (avail + ogs_tlv_free_all tlvs)%nat)
  end.

Definition ogs_tlv_parse_block (length : Z) (data : list Z) (m : tlv_mode) (avail : nat)
    : option (option (list tlv) * nat) :=
  match avail with
  | O => Some (None, avail)
  | S avail =>
      r ← tlv_get_element data length m;
      match r with
      | None => Some (None, (avail + 1)%nat)
      | Some (t, n) => parse_loop (S (Z.to_nat length)) length data m n [t] avail
      end
  end.

(** [tlv->embedded = ogs_tlv_parse_block(tlv->length, tlv->value, mode)] *)
Definition ogs_tlv_parse_embedded_block (t : tlv) (m : tlv_mode) (avail : nat)
    : option (tlv * nat) :=
  '(e, avail) ← ogs_tlv_parse_block (tlv_length t) (tlv_value t) m avail;
  Some (Tlv (tlv_mode_ t) (tlv_type t) (tlv_length t) (tlv_instance t) (tlv_value t) (default [] e),
        avail).

Fixpoint find_node (type : Z) (t : tlv) : option tlv :=
  if tlv_type t =? type then Some t
  else (fix find (l : list tlv) := match l with
        | [] => None
        | t :: l => match find_node type t with Some r => Some r | None => find l end
        end) (tlv_embedded t).
Fixpoint ogs_tlv_find (root : list tlv) (type : Z) : option tlv :=
  match root with
  | [] => None
  | t :: l => match find_node type t with Some r => Some r | None => ogs_tlv_find l type end
  end.

(** Readers of big-endian values; None when the value is too short. *)
Definition ogs_tlv_value_8 (t : tlv) : option Z := tlv_value t !! 0%nat.
Definition ogs_tlv_value_16 (t : tlv) : option Z :=
  match tlv_value t with
  | v0 :: v1 :: _ => Some (Z.lor (Z.land (Z.shiftl v0 8) 0xff00) (Z.land v1 0x00ff))
  | _ => None
  end.
Definition ogs_tlv_value_32 (t : tlv) : option Z :=
  match tlv_value t with
  | v0 :: v1 :: v2 :: v3 :: _ =>
      Some (Z.lor (Z.lor (Z.lor (Z.land (Z.shiftl v0 24) 0xff000000)
        (Z.land (Z.shiftl v1 16) 0x00ff0000)) (Z.land (Z.shiftl v2 8) 0x0000ff00))
        (Z.land v3 0x000000ff))
  | _ => None
  end.
