(* ===== verification/TlvSpec.v ===== *)
(** * TLV coding: the properties

    Rendering fits the computed length, parsing is safe on any input, and the
    two are inverse to each other. *)
From S2P Require Import Prelude Tlv.
#[local] Open Scope Z_scope.

(** ** Well-formed elements *)

(** Bounds of the type and length fields of a mode. *)
Definition type_bound (m : tlv_mode) : Z := match m with T2_L2 => 65536 | _ => 256 end.
Definition length_bound (m : tlv_mode) : Z :=
  match m with T1_L1 => 256 | T1 => 1 | _ => 65536 end.
Definition instance_bound (m : tlv_mode) : Z := match m with T1_L2_I1 => 16 | _ => 1 end.

(** Length of the value field, once the embedded lengths are computed. *)
Definition value_length (t : tlv) : Z :=
  match tlv_embedded t with [] => tlv_length t | e => ogs_tlv_calc_length e end.

(** Every field fits its place in the encoding. *)
Fixpoint tlv_wf (t : tlv) : Prop :=
  let '(Tlv m ty len i v e) := t in
  0 ≤ ty < type_bound m ∧ 0 ≤ i < instance_bound m ∧
  match e with
  | [] => len = zlen v ∧ zlen v < length_bound m
  | _ => foldr (λ t P, tlv_wf t ∧ P) True e ∧
         foldr (λ t n, zlen (put_header (tlv_mode_ t) 0 0 0) + value_length t + n) 0 e < length_bound m
  end.
Definition tlvs_wf (l : list tlv) : Prop := foldr (λ t P, tlv_wf t ∧ P) True l.

(** Encoded size of a list, without wrap-around. *)
Definition tlv_size (t : tlv) : Z := tlv_header (tlv_mode_ t) + value_length t.
Definition tlvs_size (l : list tlv) : Z := foldr (λ t n, tlv_size t + n) 0 l.

Lemma header_length m ty len i : zlen (put_header m ty len i) = tlv_header m.
Proof. by destruct m. Qed.

(** Induction over an element and its embedded elements. *)
Lemma tlv_induction (P : tlv → Prop) :
  (∀ m ty len i v e, Forall P e → P (Tlv m ty len i v e)) → ∀ t, P t.
Proof.
  intros HP. fix IH 1. intros [m ty len i v e]. apply HP.
  induction e as [|t e IHe]; constructor; [apply IH|apply IHe].
Qed.

Lemma tlvs_wf_Forall l : tlvs_wf l ↔ Forall tlv_wf l.
Proof.
  induction l as [|t l IH]; cbn; [split; [constructor|done]|].
  rewrite Forall_cons. unfold tlvs_wf in IH. tauto.
Qed.

Lemma length_bound_max m : 1 ≤ length_bound m ≤ 65536.
Proof. destruct m; cbn; lia. Qed.
Lemma header_bound m : 1 ≤ tlv_header m ≤ 4.
Proof. destruct m; cbn; lia. Qed.

(** ** Computed lengths *)

Lemma fold_u32_sum {A} (f : A → Z) (l : list A) a :
  0 ≤ a < 2 ^ 32 → fold_left (λ n x, u32 (n + f x)) l a = u32 (a + foldr (λ x n, f x + n) 0 l).
Proof.
  revert a. induction l as [|x l IH]; intros a Ha; cbn [fold_left foldr].
  - by rewrite Z.add_0_r, u32_small.
  - rewrite IH by (apply Z.mod_pos_bound; lia). unfold u32.
    rewrite Zplus_mod_idemp_l. f_equal. lia.
Qed.

Lemma value_length_node m ty len i v e :
  value_length (Tlv m ty len i v e) = match e with [] => len | _ => ogs_tlv_calc_length e end.
Proof. by destruct e. Qed.

Lemma calc_node_raw t : fst (calc_node t) = u32 (tlv_size t).
Proof.
  destruct t as [m ty len i v [|t e]]; [done|]. unfold tlv_size. rewrite value_length_node. done.
Qed.

Lemma calc_length_raw l :
  ogs_tlv_calc_length l = u32 (foldr (λ t n, u32 (tlv_size t) + n) 0 l).
Proof.
  unfold ogs_tlv_calc_length. rewrite (fold_u32_sum (λ t, fst (calc_node t))) by lia. f_equal.
  induction l as [|t l IH]; cbn; [done|]. rewrite <- IH. by rewrite calc_node_raw.
Qed.

(** The bounds make every sum exact. *)
Lemma tlv_wf_node m ty len i v e :
  tlv_wf (Tlv m ty len i v e) →
  0 ≤ ty < type_bound m ∧ 0 ≤ i < instance_bound m ∧
  match e with
  | [] => len = zlen v ∧ zlen v < length_bound m
  | _ => tlvs_wf e ∧ tlvs_size e < length_bound m
  end.
Proof.
  cbn. intros (H1 & H2 & H3). split_and!; try lia. destruct e as [|t e]; [done|].
  destruct H3 as [H3 H4]. split; [done|]. clear -H4. revert H4.
  generalize (t :: e) as l. intros l.
  assert (foldr (λ t n, zlen (put_header (tlv_mode_ t) 0 0 0) + value_length t + n) 0 l = tlvs_size l)
    as ->; [|done].
  induction l as [|x l IH]; [done|]. cbn. rewrite IH. unfold tlv_size.
  rewrite header_length. done.
Qed.

Lemma calc_length_wf l :
  Forall (λ t, 0 ≤ value_length t < 65536) l → tlvs_size l < 2 ^ 32 →
  ogs_tlv_calc_length l = tlvs_size l ∧ 0 ≤ tlvs_size l.
Proof.
  intros Hl Hs. rewrite calc_length_raw.
  assert (foldr (λ t n, u32 (tlv_size t) + n) 0 l = tlvs_size l ∧ 0 ≤ tlvs_size l) as [-> ?].
  { clear Hs. induction Hl as [|t l Ht Hl IH]; [done|]. cbn [foldr].
    change (tlvs_size (t :: l)) with (tlv_size t + tlvs_size l). destruct IH as [-> IH].
    pose proof (header_bound (tlv_mode_ t)).
    assert (0 ≤ tlv_size t < 2 ^ 32) by (unfold tlv_size; lia). rewrite u32_small by done. lia. }
  split; [|done]. by apply u32_small.
Qed.

Lemma value_length_wf t : tlv_wf t → 0 ≤ value_length t < length_bound (tlv_mode_ t).
Proof.
  induction t as [m ty len i v e IH] using tlv_induction. intros Hw.
  apply tlv_wf_node in Hw as (_ & _ & Hv). rewrite value_length_node. cbn [tlv_mode_].
  destruct e as [|t e]; [destruct Hv as [-> ?]; pose proof (zlen_nonneg v); lia|].
  destruct Hv as [Hw Hs]. apply tlvs_wf_Forall in Hw. pose proof (length_bound_max m).
  destruct (calc_length_wf (t :: e)) as [-> ?]; [|lia|lia].
  rewrite Forall_forall in *. intros x Hx. specialize (IH x Hx (Hw x Hx)).
  pose proof (length_bound_max (tlv_mode_ x)). lia.
Qed.

Lemma tlvs_wf_lengths l : tlvs_wf l → Forall (λ t, 0 ≤ value_length t < 65536) l.
Proof.
  rewrite tlvs_wf_Forall. intros Hl. eapply Forall_impl; [exact Hl|]. intros t Ht%value_length_wf.
  pose proof (length_bound_max (tlv_mode_ t)). lia.
Qed.

Lemma calc_length_exact l :
  tlvs_wf l → tlvs_size l < 2 ^ 32 → ogs_tlv_calc_length l = tlvs_size l ∧ 0 ≤ tlvs_size l.
Proof. intros Hl. apply calc_length_wf. by apply tlvs_wf_lengths. Qed.

(** ** The encoding *)

Fixpoint enc (t : tlv) : list Z :=
  let '(Tlv m ty len i v e) := t in
  match e with
  | [] => put_header m ty len i ++ v
  | _ => put_header m ty (ogs_tlv_calc_length e) i ++ foldr (λ t l, enc t ++ l) [] e
  end.
Definition encs (l : list tlv) : list Z := foldr (λ t l, enc t ++ l) [] l.

Lemma enc_length t : tlv_wf t → zlen (enc t) = tlv_size t.
Proof.
  induction t as [m ty len i v e IH] using tlv_induction. intros Hw.
  apply tlv_wf_node in Hw as (_ & _ & Hv). unfold tlv_size. rewrite value_length_node.
  destruct e as [|t e]; cbn [enc tlv_mode_]; rewrite zlen_app, header_length; [destruct Hv; lia|].
  destruct Hv as [Hw Hs]. pose proof (length_bound_max m).
  destruct (calc_length_exact (t :: e) Hw) as [-> _]; [lia|]. f_equal.
  apply tlvs_wf_Forall in Hw. clear -IH Hw. revert IH Hw. generalize (t :: e) as l.
  intros l IH Hw. induction l as [|x l IHl]; [done|]. inversion IH; inversion Hw; subst.
  cbn. rewrite zlen_app, IHl by done. f_equal. auto.
Qed.

Lemma encs_length l : tlvs_wf l → zlen (encs l) = tlvs_size l.
Proof.
  rewrite tlvs_wf_Forall. induction 1 as [|t l Ht Hl IH]; [done|].
  change (encs (t :: l)) with (enc t ++ encs l). by rewrite zlen_app, IH, enc_length.
Qed.

Lemma render_node_list m ty len i v t e pos size :
  render_node (Tlv m ty len i v (t :: e)) pos size =
    (let embedded_len := ogs_tlv_calc_length (t :: e) in
     let hdr := put_header m ty embedded_len i in
     body ← render_list (t :: e) 0 (u32 (size - (pos + zlen hdr)));
     if zlen body =? embedded_len then Some (hdr ++ body) else None).
Proof. done. Qed.

(** Rendering of a node into a buffer whose remaining part, as computed in 32
    bits, is large enough for each embedded block. *)
Definition room (t : tlv) (pos size : Z) : Prop :=
  match tlv_embedded t with
  | [] => pos + tlv_size t ≤ size
  | _ => value_length t ≤ u32 (size - (pos + tlv_header (tlv_mode_ t)))
  end.

Lemma render_list_ok l : 
  Forall (λ t, ∀ pos size, 0 ≤ pos → size < 2 ^ 32 → tlv_wf t → room t pos size →
    render_node t pos size = Some (enc t)) l →
  ∀ pos size, 0 ≤ pos → pos + tlvs_size l ≤ size < 2 ^ 32 → tlvs_wf l →
  render_list l pos size = Some (encs l).
Proof.
  induction 1 as [|t l Ht Hl IH]; intros pos size Hp Hs Hw; [done|].
  destruct Hw as [Hwt Hwl]. fold (tlvs_wf l) in Hwl.
  change (tlvs_size (t :: l)) with (tlv_size t + tlvs_size l) in Hs.
  pose proof (encs_length l Hwl) as Hlen. pose proof (zlen_nonneg (encs l)).
  pose proof (value_length_wf t Hwt) as Hv. pose proof (header_bound (tlv_mode_ t)).
  cbn [render_list]. rewrite Ht; [|done|lia|done|].
  - cbn [mbind option_bind]. rewrite IH; [done| | |done]; rewrite enc_length by done;
      unfold tlv_size in *; lia.
  - unfold room, tlv_size in *. destruct (tlv_embedded t); [lia|]. rewrite u32_small; lia.
Qed.

Lemma render_node_ok t : ∀ pos size,
  0 ≤ pos → size < 2 ^ 32 → tlv_wf t → room t pos size → render_node t pos size = Some (enc t).
Proof.
  induction t as [m ty len i v e IH] using tlv_induction. intros pos size Hp Hs Hw Hr.
  apply tlv_wf_node in Hw as (_ & _ & Hv). destruct e as [|t e].
  - destruct Hv as [-> Hv]. cbn [render_node enc]. unfold room, tlv_size, value_length in Hr. cbn in Hr.
    rewrite header_length. replace (size <? pos + tlv_header m + zlen v) with false by lia.
    by rewrite <- (app_nil_r v) at 1; rewrite read_bytes_app.
  - destruct Hv as [Hw Hb]. pose proof (length_bound_max m).
    destruct (calc_length_exact (t :: e) Hw) as [Hc Hc0]; [lia|].
    rewrite render_node_list. cbv zeta. unfold room in Hr. cbn [tlv_embedded tlv_mode_] in Hr.
    rewrite value_length_node in Hr. rewrite header_length.
    pose proof (Z.mod_pos_bound (size - (pos + tlv_header m)) (2 ^ 32) ltac:(lia)) as Hu.
    fold (u32 (size - (pos + tlv_header m))) in Hu.
    rewrite (render_list_ok (t :: e) IH); [|lia|lia|done].
    cbn [mbind option_bind]. rewrite (encs_length _ Hw), Hc, Z.eqb_refl. cbn [enc].
    by rewrite Hc.
Qed.

Lemma render_ok l size :
  tlvs_wf l → tlvs_size l ≤ size < 2 ^ 32 → ogs_tlv_render l size = Some (encs l).
Proof.
  intros Hw Hs. apply render_list_ok; [|lia|lia|done].
  apply Forall_forall. intros t _ pos sz. apply render_node_ok.
Qed.

(** ** Parsing what was rendered *)

Lemma byte0_mod x : byte0 x = x mod 256.
Proof. apply (land_mask x 8). lia. Qed.
Lemma byte1_mod x : byte1 x = x / 256 mod 256.
Proof. unfold byte1. rewrite Z.shiftr_div_pow2 by lia. apply (land_mask _ 8). lia. Qed.
Lemma get_length2_bytes x : 0 ≤ x < 65536 → get_length2 (byte1 x) (byte0 x) = x.
Proof.
  intros Hx. unfold get_length2. rewrite Z.shiftl_mul_pow2, byte0_mod, byte1_mod by lia.
  Z.to_euclidean_division_equations. lia.
Qed.
Lemma byte0_small x : 0 ≤ x < 256 → byte0 x = x.
Proof. intros. rewrite byte0_mod. by apply Z.mod_small. Qed.
Lemma instance_small i : 0 ≤ i < 16 → Z.land (byte0 i) 15 = i.
Proof. intros. rewrite byte0_small by lia.
  etransitivity; [apply (land_mask i 4); lia|]. apply Z.mod_small. lia.
Qed.

(** What the parser sees of an element: the embedded block is the value. *)
Definition view (t : tlv) : tlv :=
  Tlv (tlv_mode_ t) (tlv_type t) (value_length t) (tlv_instance t)
    (match tlv_embedded t with [] => tlv_value t | e => encs e end) [].

Lemma enc_view t : enc t = put_header (tlv_mode_ t) (tlv_type t) (value_length t) (tlv_instance t) ++ tlv_value (view t).
Proof. destruct t as [m ty len i v [|t e]]; done. Qed.

Lemma view_length t : tlv_wf t → zlen (tlv_value (view t)) = value_length t.
Proof.
  intros Hw. pose proof (enc_length t Hw) as H. rewrite enc_view, zlen_app, header_length in H.
  unfold tlv_size in H. lia.
Qed.

Lemma get_element_ok t rest size :
  tlv_wf t → zlen (enc t) ≤ size →
  tlv_get_element (enc t ++ rest) size (tlv_mode_ t) = Some (Some (view t, zlen (enc t))).
Proof.
  intros Hw Hs. pose proof (value_length_wf t Hw) as Hv. pose proof (view_length t Hw) as Hl.
  pose proof (enc_length t Hw) as Hz. rewrite Hz in Hs |- *. rewrite enc_view, <- app_assoc.
  unfold tlv_size in *. unfold view in *. cbn [tlv_value] in *.
  revert Hl. generalize (match tlv_embedded t with [] => tlv_value t | e => encs e end). intros v Hl.
  destruct t as [m ty len i vv e]. cbn [tlv_mode_ tlv_type tlv_instance] in *.
  apply tlv_wf_node in Hw as (Hty & Hi & _).
  set (vl := value_length _) in *. clearbody vl.
  unfold tlv_get_element. replace (size <? tlv_header m) with false by lia.
  assert (Hel : ∀ hd, hd = tlv_header m →
    element m ty vl i hd size (v ++ rest) = Some (Some (Tlv m ty vl i v [], tlv_header m + vl))).
  { intros hd ->. unfold element. replace (size - tlv_header m <? vl) with false by lia.
    rewrite <- Hl at 1. by rewrite read_bytes_app. }
  destruct m; cbn in Hty, Hi, Hv; cbn [put_header tlv_put_type tlv_put_length tlv_put_instance app];
    rewrite ?get_length2_bytes, ?(byte0_small ty), ?instance_small by lia.
  - rewrite byte0_small by lia. assert (i = 0) as -> by lia. by apply Hel.
  - assert (i = 0) as -> by lia. by apply Hel.
  - by apply Hel.
  - assert (i = 0) as -> by lia. by apply Hel.
  - assert (i = 0) as -> by lia. assert (vl = 0) as -> by lia. by apply Hel.
Qed.

Lemma parse_loop_ok m l : ∀ fuel off pre tl avail,
  tlvs_wf l → Forall (λ t, tlv_mode_ t = m) l → off = zlen pre → zlen (pre ++ encs l) < 2 ^ 32 →
  (length l ≤ avail)%nat → zlen (encs l) < Z.of_nat fuel →
  parse_loop fuel (zlen (pre ++ encs l)) (pre ++ encs l) m off tl avail =
    Some (Some (tl ++ map view l), (avail - length l)%nat).
Proof.
  induction l as [|t l IH]; intros fuel off pre tl avail Hw Hm -> Hlt Hav Hf;
    (destruct fuel as [|fuel]; [pose proof (zlen_nonneg (encs [])); lia || (pose proof (zlen_nonneg (encs (t :: l))); lia)|]);
    cbn [parse_loop].
  - cbn [encs foldr]. rewrite app_nil_r, Z.ltb_irrefl, Z.eqb_refl, app_nil_r, Nat.sub_0_r. done.
  - apply tlvs_wf_Forall in Hw. inversion Hw as [|?? Hwt Hwl]; subst. inversion Hm as [|?? Hmt Hml]; subst.
    change (encs (t :: l)) with (enc t ++ encs l) in *. rewrite !zlen_app in *.
    pose proof (enc_length t Hwt) as Hz. pose proof (value_length_wf t Hwt).
    pose proof (header_bound (tlv_mode_ t)). unfold tlv_size in Hz.
    pose proof (zlen_nonneg (encs l)). pose proof (zlen_nonneg pre).
    replace (zlen pre <? zlen pre + (zlen (enc t) + zlen (encs l))) with true by lia.
    destruct avail as [|avail]; [cbn in Hav; lia|].
    assert (Hd : drop (Z.to_nat (zlen pre)) (pre ++ (enc t ++ encs l)) = enc t ++ encs l)
      by (unfold zlen; by rewrite Nat2Z.id, drop_app_length).
    rewrite Hd.
    rewrite u32_small by lia. rewrite get_element_ok by (done || lia). cbn [mbind option_bind].
    assert (Hw' : tlvs_wf l) by (by apply tlvs_wf_Forall).
    pose proof (IH fuel (zlen (pre ++ enc t)) (pre ++ enc t) (tl ++ [view t]) avail Hw' Hml eq_refl) as IH'.
    rewrite <- !app_assoc, !zlen_app in IH'. rewrite IH' by (cbn in Hav; lia).
    done.
Qed.

Lemma parse_ok m l avail :
  l ≠ [] → tlvs_wf l → Forall (λ t, tlv_mode_ t = m) l → tlvs_size l < 2 ^ 32 →
  (length l ≤ avail)%nat →
  ogs_tlv_parse_block (zlen (encs l)) (encs l) m avail = Some (Some (map view l), (avail - length l)%nat).
Proof.
  intros Hne Hw Hm Hlt Hav. destruct l as [|t l]; [done|].
  pose proof (encs_length _ Hw) as Hz. apply tlvs_wf_Forall in Hw.
  inversion Hw as [|?? Hwt Hwl]; subst. inversion Hm as [|?? Hmt Hml]; subst.
  assert (Hw' : tlvs_wf l) by (by apply tlvs_wf_Forall).
  destruct avail as [|avail]; [cbn in Hav; lia|]. unfold ogs_tlv_parse_block.
  change (encs (t :: l)) with (enc t ++ encs l) in *. pose proof (zlen_nonneg (encs l)).
  rewrite get_element_ok by (done || (rewrite zlen_app; lia)). cbn [mbind option_bind].
  rewrite (parse_loop_ok (tlv_mode_ t) l _ (zlen (enc t)) (enc t) [view t] avail); try done.
  - by rewrite Hz.
  - cbn in Hav. lia.
  - pose proof (zlen_nonneg (enc t)). rewrite zlen_app. lia.
Qed.

(** ** Parsing arbitrary bytes *)

(** The elements that parsing yields. *)
Definition parsed (m : tlv_mode) (t : tlv) : Prop :=
  tlv_wf t ∧ tlv_mode_ t = m ∧ tlv_embedded t = [].

(** The octets of an element without embedded ones: type, length, instance and
    value, with the number [spare] in the four spare bits of the octet of the
    instance (TS 29.274, 8.2.1). *)
Definition layout (spare : Z) (t : tlv) : list Z :=
  match tlv_mode_ t with
  | T1_L1 => [tlv_type t; tlv_length t]
  | T1_L2 => [tlv_type t; tlv_length t / 256; tlv_length t mod 256]
  | T1_L2_I1 => [tlv_type t; tlv_length t / 256; tlv_length t mod 256; 16 * spare + tlv_instance t]
  | T2_L2 => [tlv_type t / 256; tlv_type t mod 256; tlv_length t / 256; tlv_length t mod 256]
  | T1 => [tlv_type t]
  end ++ tlv_value t.
Fixpoint layouts (spares : list Z) (l : list tlv) : list Z :=
  match l, spares with t :: l, s :: spares => layout s t ++ layouts spares l | _, _ => [] end.

Lemma enc_layout m t : parsed m t → enc t = layout 0 t.
Proof.
  intros (Hw & Hm & He). destruct t as [m' ty len i v e]. cbn in Hm, He. subst.
  apply tlv_wf_node in Hw as (Ht & Hi & Hl & Hb). pose proof (zlen_nonneg v). unfold layout.
  destruct m; cbn in *; rewrite ?byte0_mod, ?byte1_mod; repeat f_equal; Z.to_euclidean_division_equations; lia.
Qed.
Lemma encs_layouts m l : Forall (parsed m) l → encs l = layouts (replicate (length l) 0) l.
Proof.
  induction 1 as [|t l Ht _ IH]; [done|]. cbn [layouts length replicate]. rewrite <- IH, <- (enc_layout m t Ht). done.
Qed.
Lemma layout_length m t s : parsed m t → zlen (layout s t) = tlv_size t.
Proof.
  intros Hp. pose proof Hp as (Hw & _ & _). rewrite <- (enc_length t Hw), (enc_layout m t Hp).
  unfold layout. destruct (tlv_mode_ t); done.
Qed.

Lemma layouts_length m l spares : Forall (parsed m) l → length spares = length l → zlen (layouts spares l) = tlvs_size l.
Proof.
  intros Hl. revert spares. induction Hl as [|t l Ht _ IH]; intros [|s spares] E; try done. cbn [layouts].
  rewrite zlen_app, (layout_length m t s Ht), IH by (cbn in E; lia). done.
Qed.

Lemma land15 i : 0 ≤ Z.land i 15 < 16.
Proof. pose proof (land_mask i 4 ltac:(lia)) as E. change (2 ^ 4 - 1) with 15 in E. rewrite E. by apply Z.mod_pos_bound. Qed.

Lemma get_length2_range b1 b0 : is_byte b1 → is_byte b0 → 0 ≤ get_length2 b1 b0 < 65536.
Proof. unfold is_byte, get_length2. rewrite Z.shiftl_mul_pow2 by lia. lia. Qed.

Lemma bytes_length2 b1 b0 : is_byte b1 → is_byte b0 →
  get_length2 b1 b0 / 256 = b1 ∧ get_length2 b1 b0 mod 256 = b0.
Proof.
  unfold is_byte, get_length2. intros. rewrite Z.shiftl_mul_pow2 by lia.
  split; Z.to_euclidean_division_equations; lia.
Qed.
Lemma instance_octet i : is_byte i → 0 ≤ i / 16 < 16 ∧ 16 * (i / 16) + Z.land i 15 = i.
Proof.
  unfold is_byte. intros. change 15 with (2 ^ 4 - 1). rewrite land_mask by lia. change (2 ^ 4) with 16.
  split; Z.to_euclidean_division_equations; lia.
Qed.

Lemma read_bytes_ok l n : 0 ≤ n ≤ zlen l → ∃ v, read_bytes l n = Some v ∧ zlen v = n ∧ l = v ++ drop (Z.to_nat n) l.
Proof.
  intros Hn. unfold read_bytes, zlen in *. replace ((0 <=? n) && _) with true by (symmetry; lia).
  eexists. split; [done|]. rewrite length_take, take_drop. split; [lia|done].
Qed.

(** The common end of the cases of [tlv_get_element]. *)
Lemma element_any m ty len i hdr size pos :
  0 ≤ ty < type_bound m → 0 ≤ i < instance_bound m → 0 ≤ len < length_bound m →
  hdr = tlv_header m → hdr ≤ size → size - hdr ≤ zlen pos →
  ∃ r, element m ty len i hdr size pos = Some r ∧
    match r with
    | None => True
    | Some (t, n) => parsed m t ∧ n = tlv_size t ∧ n ≤ size ∧ tlv_type t = ty ∧
        tlv_length t = len ∧ tlv_instance t = i ∧ ∃ rest, pos = tlv_value t ++ rest
    end.
Proof.
  intros Ht Hi Hl -> Hs Hp. unfold element. destruct (size - tlv_header m <? len) eqn:E; [by exists None|].
  destruct (read_bytes_ok pos len) as (v & Hr & Hv & Hpos); [lia|]. rewrite Hr. cbn.
  eexists. split; [done|]. split_and!; try done; cbn; [|lia|by eexists].
  split_and!; try done; cbn; lia.
Qed.

(** One mode of [tlv_get_element]: the header bytes are there, and the common
    end applies. *)
Ltac element_case size Hs E :=
  cbn in E;
  repeat match goal with
  | |- context [match ?b with [] => _ | _ :: _ => _ end] =>
      is_var b; destruct b; [unfold zlen in Hs; cbn in Hs; lia|]
  end;
  repeat match goal with H : Forall is_byte (_ :: _) |- _ => apply Forall_cons in H as [? H] end;
  unfold zlen in Hs; cbn [length] in Hs;
  repeat match goal with
  | H1 : is_byte ?b1, H0 : is_byte ?b0 |- context [get_length2 ?b1 ?b0] =>
      lazymatch goal with
      | _ : 0 ≤ get_length2 b1 b0 < 65536 |- _ => fail
      | _ => pose proof (get_length2_range b1 b0 H1 H0); pose proof (bytes_length2 b1 b0 H1 H0)
      end
  end;
  try match goal with |- context [Z.land ?i 15] => pose proof (land15 i) end;
  let r := fresh "r" in let Hr := fresh "Hr" in
  lazymatch goal with |- context [element ?m ?ty ?len ?i ?hdr size ?pos] =>
    destruct (element_any m ty len i hdr size pos) as (r & -> & Hr);
      [unfold is_byte in *; cbn; lia..|done|cbn; lia|unfold zlen; lia|]
  end;
  exists r; split; [done|]; destruct r as [[[m' ty' len' i' v' e'] n]|]; [|done];
  destruct Hr as (Hp & Hn & Hle & Ety & Elen & Ei & rest & ->);
  split; [done|]; split; [done|]; split; [done|];
  destruct Hp as (_ & Em & Ee); cbn in Ety, Elen, Ei, Em, Ee; subst;
  lazymatch goal with
  | H : is_byte ?i |- context [Z.land ?i 15] =>
      let Hs16 := fresh in let Ei16 := fresh in destruct (instance_octet i H) as [Hs16 Ei16]; exists (i / 16), rest; split; [exact Hs16|]
  | |- _ => exists 0, rest; split; [lia|]
  end;
  unfold layout; cbn -[Z.mul Z.add Z.div Z.modulo Z.land get_length2];
  repeat match goal with H : 16 * _ + _ = _ |- _ => rewrite H; clear H end;
  repeat match goal with H : ?x / 256 = _ ∧ ?x mod 256 = _ |- _ => destruct H as [-> ->] end; done.

Lemma get_element_any blk size m :
  bytes blk → 0 ≤ size ≤ zlen blk →
  ∃ r, tlv_get_element blk size m = Some r ∧
    match r with
    | None => True
    | Some (t, n) => parsed m t ∧ n = tlv_size t ∧ n ≤ size ∧
        ∃ spare rest, 0 ≤ spare < 16 ∧ blk = layout spare t ++ rest
    end.
Proof.
  unfold bytes. intros Hb Hs. unfold tlv_get_element.
  destruct (size <? tlv_header m) eqn:E; [by exists None|].
  destruct m; element_case size Hs E.
Qed.

Lemma free_all_leaves l : Forall (λ t, tlv_embedded t = []) l → ogs_tlv_free_all l = length l.
Proof.
  intros Hl. unfold ogs_tlv_free_all. assert (H : ∀ n, fold_left (λ n t, n + free_node t)%nat l n = (n + length l)%nat).
  { induction Hl as [|t l Ht Hl IH]; intros n; cbn; [lia|]. rewrite IH. destruct t; cbn in *. subst. cbn. lia. }
  by rewrite H.
Qed.

Lemma parsed_leaves m l : Forall (parsed m) l → Forall (λ t, tlv_embedded t = []) l.
Proof. intros H. eapply Forall_impl; [exact H|]. by intros t (_ & _ & ?). Qed.

Lemma parse_loop_any m len blk : bytes blk → len ≤ zlen blk → len < 2 ^ 32 → ∀ fuel off tl avail,
  0 ≤ off ≤ len → Forall (λ t, tlv_embedded t = []) tl → len - off < Z.of_nat fuel →
  ∃ r avail', parse_loop fuel len blk m off tl avail = Some (r, avail') ∧
    match r with
    | None => avail' = (avail + length tl)%nat
    | Some l => ∃ l', l = tl ++ l' ∧ Forall (parsed m) l' ∧ off + tlvs_size l' = len ∧
        (avail' + length l' = avail)%nat ∧
        ∃ spares rest, length spares = length l' ∧ Forall (λ s, 0 ≤ s < 16) spares ∧
          drop (Z.to_nat off) blk = layouts spares l' ++ rest
    end.
Proof.
  intros Hb Hlen Hlt fuel. induction fuel as [|fuel IH]; intros off tl avail Ho Hl Hf; [lia|].
  cbn [parse_loop]. destruct (off <? len) eqn:E.
  2:{ replace (off =? len) with true by lia. exists (Some tl), avail. split; [done|]. exists [].
      rewrite app_nil_r. split_and!; try done; [cbn; lia|]. exists []. by eexists. }
  destruct avail as [|avail].
  { exists None, (0 + ogs_tlv_free_all tl)%nat. by rewrite free_all_leaves. }
  rewrite u32_small by lia.
  destruct (get_element_any (drop (Z.to_nat off) blk) (len - off) m) as (r & -> & Hr).
  { by apply Forall_drop. }
  { unfold zlen in *. rewrite length_drop. lia. }
  cbn [mbind option_bind]. destruct r as [[t n]|].
  2:{ eexists _, _. split; [done|]. cbn. rewrite free_all_leaves by done. lia. }
  destruct Hr as (Hp & -> & Hle & Hcan). pose proof Hp as (Hw & Hm & He).
  pose proof (value_length_wf t Hw). pose proof (header_bound (tlv_mode_ t)).
  assert (Hpos : 1 ≤ tlv_size t) by (unfold tlv_size; lia).
  destruct (IH (off + tlv_size t) (tl ++ [t]) avail) as (r & avail' & -> & Hr); [lia| |lia|].
  { apply Forall_app. split; [done|]. by repeat constructor. }
  exists r, avail'. split; [done|]. destruct r as [l|]; [|rewrite Hr, length_app; cbn; lia].
  destruct Hr as (l' & -> & Hl' & Hsz & Hav & Hrest). exists (t :: l').
  rewrite <- app_assoc. split_and!; [done|by constructor| |cbn; lia|].
  - change (tlvs_size (t :: l')) with (tlv_size t + tlvs_size l'). lia.
  - destruct Hcan as (s & rest & Hs & Hrest1). destruct Hrest as (spares & rest2 & Hls & Hss & Hrest2).
    exists (s :: spares), rest2. split; [cbn; lia|]. split; [by constructor|]. cbn [layouts].
    assert (Hd : drop (Z.to_nat (off + tlv_size t)) blk = rest).
    { replace (Z.to_nat (off + tlv_size t)) with (Z.to_nat off + length (layout s t))%nat.
      - by rewrite <- drop_drop, Hrest1, drop_app_length.
      - pose proof (layout_length m t s Hp) as Hz. unfold zlen in Hz. lia. }
    rewrite Hd in Hrest2. by rewrite Hrest1, Hrest2, app_assoc.
Qed.

Lemma parse_any m len blk avail :
  bytes blk → 0 ≤ len ≤ zlen blk → len < 2 ^ 32 →
  ∃ r avail', ogs_tlv_parse_block len blk m avail = Some (r, avail') ∧
    match r with
    | None => avail' = avail
    | Some l => l ≠ [] ∧ Forall (parsed m) l ∧ tlvs_size l = len ∧ (avail' + length l = avail)%nat ∧
        ∃ spares, length spares = length l ∧ Forall (λ s, 0 ≤ s < 16) spares ∧
          take (Z.to_nat len) blk = layouts spares l
    end.
Proof.
  intros Hb Hlen Hlt. unfold ogs_tlv_parse_block. destruct avail as [|avail]; [by exists None, 0%nat|].
  destruct (get_element_any blk len m Hb Hlen) as (r & -> & Hr). cbn [mbind option_bind].
  destruct r as [[t n]|]; [|exists None, (avail + 1)%nat; split; [done|lia]].
  destruct Hr as (Hp & -> & Hle & Hcan). pose proof Hp as (Hw & Hm & He).
  pose proof (value_length_wf t Hw). pose proof (header_bound (tlv_mode_ t)).
  assert (Hpos : 1 ≤ tlv_size t) by (unfold tlv_size; lia).
  destruct (parse_loop_any m len blk Hb ltac:(lia) Hlt (S (Z.to_nat len)) (tlv_size t) [t] avail)
    as (r & avail' & -> & Hr); [lia|by repeat constructor|lia|].
  exists r, avail'. split; [done|]. destruct r as [l|]; [|cbn in Hr; lia].
  destruct Hr as (l' & -> & Hl' & Hsz & Hav & Hrest).
  assert (Hall : Forall (parsed m) ([t] ++ l')) by (by constructor).
  assert (Htot : tlvs_size ([t] ++ l') = len).
  { change (tlvs_size ([t] ++ l')) with (tlv_size t + tlvs_size l'). lia. }
  split_and!; [done|done|done|cbn; lia|].
  destruct Hcan as (s & rest & Hs & Hrest1). destruct Hrest as (spares & rest2 & Hls & Hss & Hrest2).
  exists (s :: spares). split; [cbn; lia|]. split; [by constructor|].
  assert (Hd : drop (Z.to_nat (tlv_size t)) blk = rest).
  { pose proof (layout_length m t s Hp) as Hzt. replace (Z.to_nat (tlv_size t)) with (length (layout s t)) by (unfold zlen in Hzt; lia).
    by rewrite Hrest1, drop_app_length. }
  rewrite Hd in Hrest2. cbn [layouts app]. rewrite Hrest1, Hrest2, app_assoc.
  assert (Hz : zlen (layout s t ++ layouts spares l') = len).
  { rewrite zlen_app, (layout_length m t s Hp), (layouts_length m l' spares Hl' Hls). exact Htot. }
  replace (Z.to_nat len) with (length (layout s t ++ layouts spares l')) by (unfold zlen in Hz; lia).
  by rewrite take_app_length.
Qed.

(** ** Search *)

(** The elements in the order of a document: an element before its embedded
    ones. *)
Fixpoint preorder (t : tlv) : list tlv :=
  t :: foldr (λ t l, preorder t ++ l) [] (tlv_embedded t).
Definition preorders (l : list tlv) : list tlv := foldr (λ t l, preorder t ++ l) [] l.

Lemma head_filter_app {A} (P : A → Prop) `{∀ x, Decision (P x)} (l k : list A) :
  head (filter P (l ++ k)) = match head (filter P l) with Some x => Some x | None => head (filter P k) end.
Proof. rewrite filter_app. by destruct (filter P l). Qed.

Lemma find_list_ok type l :
  Forall (λ t, find_node type t = head (filter (λ t, tlv_type t = type) (preorder t))) l →
  ogs_tlv_find l type = head (filter (λ t, tlv_type t = type) (preorders l)).
Proof.
  induction 1 as [|t l Ht Hl IH]; [done|].
  change (preorders (t :: l)) with (preorder t ++ preorders l). rewrite head_filter_app, <- Ht, <- IH. done.
Qed.

Lemma find_node_ok type t :
  find_node type t = head (filter (λ t, tlv_type t = type) (preorder t)).
Proof.
  induction t as [m ty len i v e IH] using tlv_induction.
  pose proof (find_list_ok type e IH) as He. cbn [preorder tlv_embedded]. rewrite filter_cons.
  change (foldr (λ (t : tlv) (l : list tlv), preorder t ++ l) [] e) with (preorders e).
  cbn [find_node tlv_type tlv_embedded] in *. case_decide as Hd; cbn in Hd |- *.
  { by rewrite Hd, Z.eqb_refl. }
  rewrite <- He. replace (ty =? type) with false by (symmetry; by apply Z.eqb_neq).
  clear. induction e as [|t e IH]; [done|]. cbn. by destruct (find_node type t).
Qed.

(** ** Properties *)

(** C29: Rendering: for well-formed elements (every field fits its place) and
    a buffer of at least [ogs_tlv_calc_length] bytes, [ogs_tlv_render]
    succeeds and writes exactly [ogs_tlv_calc_length] bytes, for all five
    modes and any depth of embedding. *)
Theorem ogs_tlv_render_exact (l : list tlv) (size : Z) :
  tlvs_wf l → tlvs_size l < 2 ^ 32 → ogs_tlv_calc_length l ≤ size < 2 ^ 32 →
  ∃ bs, ogs_tlv_render l size = Some bs ∧ zlen bs = ogs_tlv_calc_length l.
Proof.
  intros Hw Hlt Hs. destruct (calc_length_exact l Hw Hlt) as [Hc _]. rewrite Hc in *.
  exists (encs l). by rewrite render_ok, encs_length.
Qed.

(** C30: Round trip: parsing the rendered block, with enough nodes in the
    pool, yields the elements with their types, lengths, instances and values;
    the value of an element with embedded elements is their rendering, and
    [ogs_tlv_parse_embedded_block] on it yields them back. *)
Theorem ogs_tlv_parse_render (m : tlv_mode) (l : list tlv) (size : Z) (avail : nat) :
  l ≠ [] → tlvs_wf l → Forall (λ t, tlv_mode_ t = m) l → ogs_tlv_calc_length l ≤ size < 2 ^ 32 →
  tlvs_size l < 2 ^ 32 → (length l ≤ avail)%nat →
  ∃ bs, ogs_tlv_render l size = Some bs ∧
    ogs_tlv_parse_block (zlen bs) bs m avail = Some (Some (map view l), (avail - length l)%nat) ∧
    ∀ t m', t ∈ l → tlv_embedded t ≠ [] → Forall (λ t, tlv_mode_ t = m') (tlv_embedded t) →
      (length (tlv_embedded t) ≤ avail)%nat →
      ∃ t' avail', ogs_tlv_parse_embedded_block (view t) m' avail = Some (t', avail') ∧
        tlv_embedded t' = map view (tlv_embedded t).
Proof.
  intros Hne Hw Hm Hs Hlt Hav. destruct (calc_length_exact l Hw Hlt) as [Hc _]. rewrite Hc in *.
  exists (encs l). split; [by apply render_ok|]. split; [by apply parse_ok|].
  intros t m' Ht He Hm' Hav'. apply tlvs_wf_Forall in Hw. rewrite Forall_forall in Hw.
  pose proof (view_length t (Hw t Ht)) as Hvl. specialize (Hw t Ht). destruct t as [mt ty len i v [|x e]]; [done|].
  apply tlv_wf_node in Hw as (_ & _ & Hwe & Hse). pose proof (length_bound_max mt).
  unfold ogs_tlv_parse_embedded_block. cbn [view tlv_length tlv_value tlv_embedded] in *. rewrite <- Hvl.
  rewrite (parse_ok m' (x :: e) avail); [|done|done|done|lia|done].
  eexists _, _. split; [done|]. done.
Qed.

(** C31: Parsing untrusted bytes: whatever the [len] bytes are, parsing
    terminates, never reads outside of them, and either returns NULL with
    every node given back to the pool, or a non-empty list of elements of the
    given mode, without embedded ones, that tile the block exactly: the block is
    the headers and values of the elements one after the other, in any mode and
    byte for byte, but that the four spare bits of the octet of an instance may
    be any; rendering the elements gives the same bytes with these bits zero. *)
Theorem ogs_tlv_parse_safe (m : tlv_mode) (len : Z) (blk : list Z) (avail : nat) :
  bytes blk → 0 ≤ len ≤ zlen blk → len < 2 ^ 32 →
  ∃ r avail', ogs_tlv_parse_block len blk m avail = Some (r, avail') ∧
    match r with
    | None => avail' = avail
    | Some l => l ≠ [] ∧ (avail' + ogs_tlv_free_all l)%nat = avail ∧
        Forall (λ t, tlv_mode_ t = m ∧ tlv_embedded t = [] ∧ tlv_length t = zlen (tlv_value t) ∧
          0 ≤ tlv_instance t < match m with T1_L2_I1 => 16 | _ => 1 end) l ∧
        ogs_tlv_calc_length l = len ∧
        (∃ spares, length spares = length l ∧ Forall (λ s, 0 ≤ s < 16) spares ∧
          take (Z.to_nat len) blk = layouts spares l) ∧
        ogs_tlv_render l len = Some (layouts (replicate (length l) 0) l)
    end.
Proof.
  intros Hb Hlen Hlt. destruct (parse_any m len blk avail Hb Hlen Hlt) as (r & avail' & E & Hr).
  exists r, avail'. split; [done|]. destruct r as [l|]; [|done].
  destruct Hr as (Hne & Hp & Hs & Hav & Hcan).
  assert (Hw : tlvs_wf l).
  { apply tlvs_wf_Forall. eapply Forall_impl; [exact Hp|]. by intros t (? & _). }
  destruct (calc_length_exact l Hw) as [Hc _]; [lia|]. split_and!; [done| | |lia|done|].
  - rewrite free_all_leaves; [lia|by eapply parsed_leaves].
  - eapply Forall_impl; [exact Hp|]. intros [m' ty le i v e] (Hwt & Hm & He).
    cbn in Hm, He. subst. apply tlv_wf_node in Hwt as (_ & Hi & -> & _). split_and!; try done; cbn in *; destruct m; cbn in Hi |- *; lia.
  - rewrite render_ok by (done || lia). by rewrite (encs_layouts m).
Qed.

(** Search: [ogs_tlv_find] returns the first element of the type in
    document order, at any depth of embedding, and NULL when there is none. *)
Theorem ogs_tlv_find_first (root : list tlv) (type : Z) :
  ogs_tlv_find root type = head (filter (λ t, tlv_type t = type) (preorders root)).
Proof. apply find_list_ok, Forall_forall. intros t _. apply find_node_ok. Qed.

(** The bound that [ogs_tlv_render] checks does not protect the buffer of
    an element with embedded elements: when its own header passes the end of
    the buffer, the remaining size wraps around 2^32, no assertion fails, and
    the whole element is written beyond [size].  The callers in the repository
    pass buffers of [ogs_tlv_calc_length] bytes. *)
Theorem ogs_tlv_render_overflow (t : tlv) (size : Z) :
  tlv_wf t → tlv_embedded t ≠ [] → 0 ≤ size < tlv_header (tlv_mode_ t) →
  ∃ bs, ogs_tlv_render [t] size = Some bs ∧ zlen bs = tlv_size t ∧ size < zlen bs.
Proof.
  intros Hw He Hs. pose proof (value_length_wf t Hw) as Hv. pose proof (header_bound (tlv_mode_ t)).
  pose proof (length_bound_max (tlv_mode_ t)).
  exists (enc t). unfold ogs_tlv_render. cbn [render_list].
  rewrite (render_node_ok t 0 size); [|lia|lia|done|].
  - cbn [mbind option_bind]. rewrite app_nil_r, enc_length by done. unfold tlv_size. split_and!; [done|lia|lia].
  - unfold room. destruct (tlv_embedded t); [done|].
    assert (E : u32 (size - (0 + tlv_header (tlv_mode_ t))) = size - tlv_header (tlv_mode_ t) + 2 ^ 32).
    { unfold u32. rewrite Z.add_0_l, <- (Z.mod_add _ 1) by lia. apply Z.mod_small. lia. }
    rewrite E. lia.
Qed.

(** ** Witnesses *)

(** A bearer context of two elements. *)
Definition demo_tlv : tlv :=
  Tlv T1_L2_I1 93 0 1 [] [Tlv T1_L2_I1 73 1 0 [5] []; Tlv T1_L2_I1 2 2 0 [16; 0] []].

Lemma ogs_tlv_render_exact_witness :
  ∃ bs, ogs_tlv_render [demo_tlv] 15 = Some bs ∧ zlen bs = 15.
Proof.
  apply (ogs_tlv_render_exact [demo_tlv] 15); [|done|done].
  cbn. unfold zlen. cbn. lia.
Defined.

Lemma ogs_tlv_parse_render_witness :
  ∃ bs, ogs_tlv_parse_block (zlen bs) bs T1_L2_I1 4 =
    Some (Some [Tlv T1_L2_I1 93 11 1 [73; 0; 1; 0; 5; 2; 0; 2; 0; 16; 0] []], 3%nat).
Proof.
  destruct (ogs_tlv_parse_render T1_L2_I1 [demo_tlv] 100 4) as (bs & _ & Hp & _).
  - done.
  - cbn. unfold zlen. cbn. lia.
  - by repeat constructor.
  - done.
  - done.
  - cbn. lia.
  - exists bs. exact Hp.
Defined.

Lemma ogs_tlv_parse_safe_witness :
  (∃ r avail', ogs_tlv_parse_block 5 [93; 0; 9; 1; 0] T1_L2_I1 4 = Some (r, avail') ∧
    match r with None => avail' = 4%nat | Some _ => False end) ∧
  ogs_tlv_render [Tlv T1_L2_I1 93 1 1 [7] []] 5 = Some [93; 0; 1; 1; 7] ∧
  ∃ spares, length spares = 1%nat ∧ [93; 0; 1; 0xa1; 7] = layouts spares [Tlv T1_L2_I1 93 1 1 [7] []].
Proof.
  split.
  - destruct (ogs_tlv_parse_safe T1_L2_I1 5 [93; 0; 9; 1; 0] 4) as (r & avail' & E & Hr).
    + repeat constructor; cbn; lia.
    + done.
    + done.
    + exists r, avail'. split; [exact E|]. vm_compute in E. injection E as <- <-. done.
  - destruct (ogs_tlv_parse_safe T1_L2_I1 5 [93; 0; 1; 0xa1; 7] 4) as (r & avail' & E & Hr).
    + repeat constructor; cbn; lia.
    + done.
    + done.
    + vm_compute in E. injection E as <- <-. destruct Hr as (_ & _ & _ & _ & (spares & Hl & _ & Hs) & Hr).
      split; [exact Hr|]. by exists spares.
Defined.

Lemma ogs_tlv_render_overflow_witness :
  ∃ bs, ogs_tlv_render [demo_tlv] 3 = Some bs ∧ zlen bs = 15.
Proof.
  destruct (ogs_tlv_render_overflow demo_tlv 3) as (bs & E & Hl & _).
  - cbn. unfold zlen. cbn. lia.
  - done.
  - done.
  - exists bs. split; [exact E|exact Hl].
Defined.
