(* ===== verification/XactBase.v ===== *)
(** * Transactions: what the PFCP and the GTP layer share

    The state of a transaction layer - its pool of transactions, the lists of
    the peers, the timers and what it did to the outside - with the primitive
    accesses of lib/pfcp/xact.c and lib/gtp/xact.c, and big-endian integers.
    The pool and the timer manager are used through their contracts
    (PoolSpec.v, TimerSpec.v): a map from ids to transactions with a count of
    free slots, and timers that are idle or armed. *)
From S2P Require Import Prelude Pool.
#[local] Open Scope Z_scope.

(** ogs_pfcp_xact_stage_t, ogs_gtp_xact_stage_t *)
Inductive stage_t := UNKNOWN_STAGE | INITIAL_STAGE | INTERMEDIATE_STAGE | FINAL_STAGE.
#[export] Instance stage_eq_dec : EqDecision stage_t.
Proof. solve_decision. Defined.

Inductive originator := LOCAL_ORIGINATOR | REMOTE_ORIGINATOR.
#[export] Instance originator_eq_dec : EqDecision originator.
Proof. solve_decision. Defined.

(** A timer: idle, or armed for a duration. *)
Inductive tm := Idle | Armed (duration : Z).

(** The transaction lists of a peer, as pool ids. *)
Record node_t := Node { local_list : list Z; remote_list : list Z }.

(** The list of an originator. *)
Definition list_of (o : originator) (n : node_t) : list Z :=
  match o with LOCAL_ORIGINATOR => local_list n | REMOTE_ORIGINATOR => remote_list n end.
Definition list_upd (o : originator) (f : list Z → list Z) (n : node_t) : node_t :=
  match o with
  | LOCAL_ORIGINATOR => Node (f (local_list n)) (remote_list n)
  | REMOTE_ORIGINATOR => Node (local_list n) (f (remote_list n))
  end.

(** ** Big-endian integers *)

(** The bytes of an integer of [n] bytes: [htobe16], [htobe32], ... *)
Fixpoint be_bytes (n : nat) (x : Z) : list Z :=
  match n with O => [] | S n => (x / 2 ^ (8 * Z.of_nat n)) mod 256 :: be_bytes n x end.
Definition be_value (bs : list Z) : Z := fold_left (λ x b, x * 256 + b) bs 0.

Lemma be_bytes_length n y : length (be_bytes n y) = n.
Proof. induction n; cbn; auto. Qed.
Lemma be_value_bytes n y : be_value (be_bytes n y) = y mod 2 ^ (8 * Z.of_nat n).
Proof.
  unfold be_value. assert (H : ∀ acc, fold_left (λ x b, x * 256 + b) (be_bytes n y) acc =
    acc * 2 ^ (8 * Z.of_nat n) + y mod 2 ^ (8 * Z.of_nat n)).
  { induction n as [|n IH]; intros acc; [cbn; rewrite Z.mod_1_r; lia|].
    cbn [be_bytes fold_left]. rewrite IH. replace (8 * Z.of_nat (S n)) with (8 * Z.of_nat n + 8) by lia.
    rewrite Z.pow_add_r by lia. change (2 ^ 8) with 256.
    rewrite (Z.rem_mul_r y (2 ^ (8 * Z.of_nat n)) 256) by lia. ring. }
  by rewrite H, Z.mul_0_l.
Qed.

(** ** The state of a layer *)

Section world.
(** [X]: transactions; [C]: callbacks with their data. *)
Context {X C : Type}.

(** What the layer does to the outside. *)
Inductive event :=
  | Sent (node : nat) (pkt : list Z)      (** ogs_pfcp_sendto, ogs_gtp_sendto *)
  | Freed (pkt : list Z)                  (** ogs_pkbuf_free *)
  | Called (id : Z) (c : C).              (** xact->cb(xact, xact->data) *)

(** [pool], [g_xact_id], the peers, the free timers and the log of events. *)
Record world := World {
  xacts : gmap Z X; pool_id : Z; pool_avail : nat; g_xact_id : Z;
  nodes : gmap nat node_t; timers_avail : nat; log : list event }.

Definition set_xacts (f : gmap Z X → gmap Z X) (w : world) : world :=
  World (f (xacts w)) (pool_id w) (pool_avail w) (g_xact_id w) (nodes w) (timers_avail w) (log w).
Definition set_nodes (f : gmap nat node_t → gmap nat node_t) (w : world) : world :=
  World (xacts w) (pool_id w) (pool_avail w) (g_xact_id w) (f (nodes w)) (timers_avail w) (log w).
Definition set_timers (f : nat → nat) (w : world) : world :=
  World (xacts w) (pool_id w) (pool_avail w) (g_xact_id w) (nodes w) (f (timers_avail w)) (log w).
Definition set_counter (g : Z) (w : world) : world :=
  World (xacts w) (pool_id w) (pool_avail w) g (nodes w) (timers_avail w) (log w).
Definition emit (es : list event) : M world unit := m_modify (λ w,
  World (xacts w) (pool_id w) (pool_avail w) (g_xact_id w) (nodes w) (timers_avail w) (log w ++ es)).

(** [*xact] and an assignment to one of its fields. *)
Definition xact_get (id : Z) : M world X := λ w,
  match xacts w !! id with Some x => Some (x, w) | None => None end.
Definition xact_upd (id : Z) (f : X → X) : M world unit := λ w,
  match xacts w !! id with Some x => Some (tt, set_xacts (insert id (f x)) w) | None => None end.

(** A change of one of the lists of a peer. *)
Definition ogs_list_of (o : originator) (node : nat) (f : list Z → list Z) : M world unit := λ w,
  match nodes w !! node with
  | Some n => Some (tt, set_nodes (insert node (list_upd o f n)) w)
  | None => None
  end.

(** [ogs_timer_add]: an idle timer, or NULL when none is left. *)
Definition timer_add : M world (option tm) := λ w,
  match timers_avail w with
  | O => Some (None, w)
  | S n => Some (Some Idle, set_timers (λ _, n) w)
  end.

(** [ogs_pool_id_calloc] of a transaction with the given fields; a fresh id is
    required by the contract of the pool. *)
Definition pool_alloc (x : X) : M world (option Z) := λ w,
  match pool_avail w with
  | O => Some (None, w)
  | S n =>
      let id := OGS_NEXT_ID (pool_id w) 1 OGS_MAX_POOL_ID in
      match xacts w !! id with
      | Some _ => None
      | None => Some (Some id, World (<[id := x]> (xacts w)) id n (g_xact_id w) (nodes w)
                  (timers_avail w) (log w))
      end
  end.
(** [ogs_pool_id_free]. *)
Definition pool_free (id : Z) : M world unit := m_modify (λ w,
  World (delete id (xacts w)) (pool_id w) (S (pool_avail w)) (g_xact_id w) (nodes w) (timers_avail w) (log w)).
End world.
Arguments world : clear implicits.
Arguments event : clear implicits.

(** The packets of a history: [xact->seq[i].pkbuf]. *)
Definition option_pkts (s : list (Z * option (list Z))) : list (list Z) := omap snd s.
Definition some_timers (ts : list (option tm)) : nat := length (omap (λ t, t) ts).
