(* ===== verification/Octets.v ===== *)
(** * Information elements as octets

    What the build and parse functions of lib/pfcp/types.c and
    lib/gtp/v2/types.c share: a build appends fields to a buffer of [data_len]
    bytes after asserting that they fit; a parse checks the length of the
    element before each field, and either goes on, returns early, or - if it
    ever read outside of the element - faults.  Integers are copied between
    buffer and memory with [memcpy], so that their bytes are those of a
    little-endian host; [htobe16] and its kin reverse them.  Module Conv has the
    conversions between octets and texts of lib/core/ogs-conv.c. *)
From S2P Require Import Prelude XactBase.
#[local] Open Scope Z_scope.

(** ** Integers in memory *)

(** The bytes of an integer of [n] bytes on the host. *)
Fixpoint le_bytes (n : nat) (x : Z) : list Z :=
  match n with O => [] | S n => x mod 256 :: le_bytes n (x / 256) end.
Fixpoint le_value (bs : list Z) : Z :=
  match bs with [] => 0 | b :: bs => b + 256 * le_value bs end.

(** [htobe16], [be16toh] (2), [htobe32], [be32toh] (4), [htobe64], [be64toh]
    (8): the bytes of the integer, in the opposite order. *)
Definition bswap (n : nat) (x : Z) : Z := be_value (le_bytes n x).

Lemma le_bytes_length n x : length (le_bytes n x) = n.
Proof. revert x. induction n; intros x; cbn; auto. Qed.

Lemma be_value_app bs b : be_value (bs ++ [b]) = be_value bs * 256 + b.
Proof. unfold be_value. by rewrite fold_left_app. Qed.
Lemma be_bytes_snoc n x : be_bytes (S n) x = be_bytes n (x / 256) ++ [x mod 256].
Proof.
  revert x. induction n as [|n IH]; intros x; [cbn; by rewrite Z.div_1_r|].
  change (be_bytes (S (S n)) x) with ((x / 2 ^ (8 * Z.of_nat (S n))) mod 256 :: be_bytes (S n) x).
  rewrite IH. cbn [be_bytes app]. f_equal. rewrite Z.div_div by lia.
  replace (8 * Z.of_nat (S n)) with (8 + 8 * Z.of_nat n) by lia. by rewrite Z.pow_add_r by lia.
Qed.
Lemma be_bytes_le n x : be_bytes n x = rev (le_bytes n x).
Proof.
  revert x. induction n as [|n IH]; intros x; [done|].
  rewrite be_bytes_snoc. cbn [le_bytes rev]. by rewrite IH.
Qed.
Lemma le_bytes_bytes n x : bytes (le_bytes n x).
Proof.
  revert x. induction n as [|n IH]; intros x; constructor; [|apply IH].
  unfold is_byte. pose proof (Z.mod_pos_bound x 256). lia.
Qed.
Lemma be_bytes_bytes n x : bytes (be_bytes n x).
Proof. rewrite be_bytes_le. apply Forall_rev, le_bytes_bytes. Qed.

Lemma be_bytes_value bs : bytes bs → be_bytes (length bs) (be_value bs) = bs.
Proof.
  induction bs as [|b bs IH] using rev_ind; intros Hb; [done|].
  apply Forall_app in Hb as [Hbs Hb]. apply Forall_cons in Hb as [Hb _]. unfold is_byte in Hb.
  rewrite be_value_app, length_app, Nat.add_1_r, be_bytes_snoc.
  rewrite Z.div_add_l by lia. rewrite (Z.div_small b 256), Z.add_0_r by lia.
  rewrite (Z.add_comm _ b), Z.mod_add by lia. rewrite (Z.mod_small b) by lia. by rewrite IH.
Qed.
Lemma le_bytes_value bs : bytes bs → le_bytes (length bs) (le_value bs) = bs.
Proof.
  induction 1 as [|b bs Hb Hbs IH]; cbn; [done|]. unfold is_byte in Hb.
  rewrite (Z.mul_comm 256), Z.mod_add, Z.div_add by lia. rewrite (Z.mod_small b), (Z.div_small b) by lia.
  by rewrite Z.add_0_l, IH.
Qed.

(** What [memcpy] of a swapped integer writes, and what swapping a copied
    integer reads. *)
Lemma le_bytes_bswap n x : le_bytes n (bswap n x) = be_bytes n x.
Proof.
  unfold bswap. pose proof (be_bytes_value (le_bytes n x) (le_bytes_bytes n x)) as E.
  rewrite le_bytes_length, be_bytes_le in E. rewrite be_bytes_le, <- E. by rewrite rev_involutive, E.
Qed.
Lemma bswap_le_value bs n : length bs = n → bytes bs → bswap n (le_value bs) = be_value bs.
Proof. intros <- Hb. unfold bswap. by rewrite le_bytes_value. Qed.
Lemma bswap_roundtrip n x : 0 ≤ x < 2 ^ (8 * Z.of_nat n) → bswap n (le_value (be_bytes n x)) = x.
Proof.
  intros Hx. rewrite bswap_le_value; [|apply be_bytes_length|apply be_bytes_bytes].
  rewrite be_value_bytes. by apply Z.mod_small.
Qed.

(** ** lib/core/ogs-conv.c: integers of [size] bytes *)

Definition ogs_uint64_to_buffer (num : Z) (size : nat) : list Z :=
  (λ i, Z.land (Z.shiftr num (8 * Z.of_nat (size - 1 - i))) 0xff) <$> seq 0 size.
(** The bytes that are left determine the shift [(size-1-i) * 8]. *)
Fixpoint ogs_buffer_to_uint64 (num : Z) (buffer : list Z) : Z :=
  match buffer with
  | [] => num
  | b :: buffer =>
      ogs_buffer_to_uint64 (Z.lor num (Z.shiftl b (8 * Z.of_nat (length buffer)) mod 2 ^ 64)) buffer
  end.

Lemma uint64_to_buffer num n : ogs_uint64_to_buffer num n = be_bytes n num.
Proof.
  unfold ogs_uint64_to_buffer. induction n as [|n IH]; [done|].
  cbn [seq be_bytes fmap list_fmap]. f_equal.
  - rewrite Nat.sub_0_r. replace (S n - 1)%nat with n by lia.
    change 0xff with (2 ^ 8 - 1). by rewrite land_mask, Z.shiftr_div_pow2 by lia.
  - rewrite <- fmap_S_seq, <- list_fmap_compose, <- IH. apply list_fmap_ext. intros i x Hi. cbn.
    cbn [compose]. do 4 f_equal. lia.
Qed.

Lemma lor_disjoint a b n : 0 ≤ n → 0 ≤ b < 2 ^ n → Z.lor (a * 2 ^ n) b = a * 2 ^ n + b.
Proof.
  intros Hn Hb. assert (Hland : Z.land (a * 2 ^ n) b = 0).
  { apply Z.bits_inj'. intros i Hi. rewrite Z.land_spec, Z.bits_0.
    destruct (Z.lt_ge_cases i n); [by rewrite Z.mul_pow2_bits_low|].
    rewrite <- (Z.mod_small b (2 ^ n)) by done. by rewrite Z.mod_pow2_bits_high, andb_false_r by lia. }
  by rewrite <- Z.lxor_lor, Z.add_nocarry_lxor.
Qed.

Lemma be_value_cons b bs : be_value (b :: bs) = b * 2 ^ (8 * Z.of_nat (length bs)) + be_value bs.
Proof.
  induction bs as [|c bs IH] using rev_ind; [cbn; lia|].
  rewrite app_comm_cons, !be_value_app, IH, length_app. cbn [length].
  replace (8 * Z.of_nat (length bs + 1)) with (8 * Z.of_nat (length bs) + 8) by lia.
  rewrite Z.pow_add_r by lia. ring.
Qed.
Lemma be_value_range bs : bytes bs → 0 ≤ be_value bs < 2 ^ (8 * Z.of_nat (length bs)).
Proof.
  induction 1 as [|b bs Hb _ IH]; [done|]. rewrite be_value_cons. unfold is_byte in Hb. cbn [length].
  replace (8 * Z.of_nat (S (length bs))) with (8 * Z.of_nat (length bs) + 8) by lia.
  rewrite Z.pow_add_r by lia. change (2 ^ 8) with 256. nia.
Qed.
Lemma bswap_inj x y : 0 ≤ x < 2 ^ 32 → 0 ≤ y < 2 ^ 32 → bswap 4 x = bswap 4 y → x = y.
Proof.
  intros Hx Hy E. apply (f_equal (le_bytes 4)) in E. rewrite !le_bytes_bswap in E. apply (f_equal be_value) in E.
  rewrite !be_value_bytes in E. by rewrite !Z.mod_small in E.
Qed.
Lemma bswap_range x : 0 ≤ bswap 4 x < 2 ^ 32.
Proof. unfold bswap. pose proof (be_value_range (le_bytes 4 x) (le_bytes_bytes 4 x)) as H. by rewrite le_bytes_length in H. Qed.

Lemma buffer_to_uint64 bs : bytes bs → (length bs ≤ 8)%nat → ogs_buffer_to_uint64 0 bs = be_value bs.
Proof.
  intros Hb Hl. assert (H : ∀ a, 0 ≤ a → ogs_buffer_to_uint64 (a * 2 ^ (8 * Z.of_nat (length bs))) bs =
    a * 2 ^ (8 * Z.of_nat (length bs)) + be_value bs); [|by apply (H 0)].
  induction bs as [|b bs IH]; intros a Ha; [cbn; lia|]. apply Forall_cons in Hb as [Hb Hbs].
  unfold is_byte in Hb. cbn [ogs_buffer_to_uint64]. rewrite be_value_cons. cbn [length] in *.
  set (k := 8 * Z.of_nat (length bs)). replace (8 * Z.of_nat (S (length bs))) with (8 + k) by lia.
  rewrite Z.pow_add_r, Z.shiftl_mul_pow2 by lia. change (2 ^ 8) with 256.
  assert (Hk : 0 < 2 ^ k) by (apply Z.pow_pos_nonneg; lia).
  assert (Hk' : 256 * 2 ^ k ≤ 2 ^ 64).
  { change 256 with (2 ^ 8). rewrite <- Z.pow_add_r by lia. apply Z.pow_le_mono_r; lia. }
  rewrite (Z.mod_small (b * 2 ^ k)) by nia. rewrite Z.mul_assoc.
  replace (Z.lor (a * 256 * 2 ^ k) (b * 2 ^ k)) with ((a * 256 + b) * 2 ^ k).
  - unfold k. rewrite IH by (done || lia || nia). fold k. ring.
  - rewrite <- !Z.shiftl_mul_pow2 by lia. rewrite <- Z.shiftl_lor. f_equal.
    change 256 with (2 ^ 8). symmetry. apply lor_disjoint; lia.
Qed.

(** A field of the element that is present when its flag is set. *)
Definition opt (b : bool) (bs : list Z) : list Z := if b then bs else [].

(** ** Building *)

(** A return value or length of type int16_t. *)
Definition s16 (x : Z) : Z := (x + 2 ^ 15) mod 2 ^ 16 - 2 ^ 15.
Lemma s16_small x : 0 ≤ x < 2 ^ 15 → s16 x = x.
Proof. intros. unfold s16. rewrite Z.mod_small; lia. Qed.

(** [ogs_assert(size + sizeof(x) <= data_len); memcpy(octet->data + size, &x,
    sizeof(x)); size += sizeof(x);] with [size] of type int16_t, the length of
    what was written. *)
Definition put (data_len : Z) (bs buf : list Z) : option (list Z) :=
  if (zlen buf <? 2 ^ 15) && (zlen buf + zlen bs <=? data_len) then Some (buf ++ bs) else None.
Definition put_when (b : bool) (data_len : Z) (bs buf : list Z) : option (list Z) :=
  if b then put data_len bs buf else Some buf.
(** [octet->len = size; return octet->len;] *)
Definition built (buf : list Z) : option (Z * list Z) := Some (s16 (zlen buf), buf).

Lemma put_ok data_len bs buf :
  zlen buf < 2 ^ 15 → zlen buf + zlen bs ≤ data_len → put data_len bs buf = Some (buf ++ bs).
Proof. intros H1 H2. unfold put. by replace (_ && _) with true by (symmetry; lia). Qed.
Lemma put_when_ok b data_len bs buf :
  zlen buf < 2 ^ 15 → zlen buf + zlen (opt b bs) ≤ data_len →
  put_when b data_len bs buf = Some (buf ++ opt b bs).
Proof. destruct b; cbn [opt put_when]; [apply put_ok|]. by rewrite app_nil_r. Qed.

(** A field that does not fit ends the building: what was put fits. *)
Lemma put_inv data_len bs buf buf' : put data_len bs buf = Some buf' → buf' = buf ++ bs ∧ zlen buf' ≤ data_len.
Proof.
  unfold put. destruct (_ && _) eqn:E; [|done]. intros [= <-]. split; [done|]. unfold zlen in *. rewrite length_app.
  apply andb_prop in E as [_ E]. lia.
Qed.
Lemma put_when_inv b data_len bs buf buf' : zlen buf ≤ data_len →
  put_when b data_len bs buf = Some buf' → buf' = buf ++ opt b bs ∧ zlen buf' ≤ data_len.
Proof. destruct b; cbn [opt put_when]; [by intros _ ?%put_inv|]. intros ? [= <-]. by rewrite app_nil_r. Qed.

(** ** Parsing *)

(** [F]: the structure that is filled; [f] and [size] are the state. *)
Inductive outcome (F A : Type) := Go (a : A) (f : F) (size : Z) | Return (rv : Z) (f : F) | Fault.
Arguments Go {F A}.
Arguments Return {F A}.
Arguments Fault {F A}.
Definition P (F A : Type) : Type := F → Z → outcome F A.

#[export] Instance P_ret {F} : MRet (P F) := λ A a f s, Go a f s.
#[export] Instance P_bind {F} : MBind (P F) := λ A B k m f s,
  match m f s with Go a f' s' => k a f' s' | Return rv f' => Return rv f' | Fault => Fault end.

Section parse.
Context {F : Type}.
Variable octet : list Z.

(** Errors of a parse: [return 0;] and [return size;]. *)
Definition return_0 (s : Z) : Z := 0.
Definition return_size (s : Z) : Z := s.
(** [if (size + n > octet->len) return e;], the value of [e] from [size]. *)
Definition check (e : Z → Z) (n : Z) : P F unit := λ f s,
  if zlen octet <? s + n then Return (e s) f else Go tt f s.
(** [memcpy(&x, octet->data + size, n)]. *)
Definition memcpy (n : Z) : P F (list Z) := λ f s,
  if s <? 0 then Fault
  else match read_bytes (drop (Z.to_nat s) octet) n with Some bs => Go bs f s | None => Fault end.
Definition advance (n : Z) : P F unit := λ f s, Go tt f (s + n).
Definition assign (g : F → F) : P F unit := λ f s, Go tt (g f) s.
Definition get_struct : P F F := λ f s, Go f f s.
Definition get_size : P F Z := λ f s, Go s f s.
Definition p_return {A} (rv : Z) : P F A := λ f s, Return rv f.
Definition p_when (b : bool) (m : P F unit) : P F unit := if b then m else mret tt.
(** The usual field: check, copy, advance. *)
Definition field (e : Z → Z) (n : Z) : P F (list Z) :=
  check e n;; bs ← memcpy n; advance n;; mret bs.

(** A field of [n] bytes copied into an integer, then converted. *)
Definition int_field (e : Z → Z) (n : Z) (conv : Z → Z) (set : Z → F → F) : P F unit :=
  bs ← field e n; assign (set (conv (le_value bs))).

(** [ogs_buffer_to_uint64(octet->data + size, 5) * 1000] in 64 bits; [size += 5;]. *)
Definition parse_rate : P F Z :=
  bs ← memcpy 5; advance 5;; mret (ogs_buffer_to_uint64 0 bs * 1000 mod 2 ^ 64).

Definition run_parse (m : P F Z) (f : F) : option (Z * F) :=
  match m f 0 with Go rv f' _ | Return rv f' => Some (rv, f') | Fault => None end.

(** ** Weakest preconditions: [Q] after the parse went on, [R] after an early
    return; a fault is excluded. *)
Definition pwp {A} (m : P F A) (Q : A → F → Z → Prop) (R : Z → F → Prop) (f : F) (s : Z) : Prop :=
  match m f s with Go a f' s' => Q a f' s' | Return rv f' => R rv f' | Fault => False end.

Lemma pwp_bind {A B} (m : P F A) (k : A → P F B) Q R f s :
  pwp m (λ a f' s', pwp (k a) Q R f' s') R f s → pwp (m ≫= k) Q R f s.
Proof. unfold pwp, mbind, P_bind. by destruct (m f s). Qed.
Lemma pwp_mono {A} (m : P F A) Q (Q' : A → F → Z → Prop) R f s :
  pwp m Q R f s → (∀ a f' s', Q a f' s' → Q' a f' s') → pwp m Q' R f s.
Proof. unfold pwp. destruct (m f s); auto. Qed.
Lemma pwp_run (m : P F Z) (Q : Z → F → Prop) f :
  pwp m (λ rv f' _, Q rv f') Q f 0 → ∃ rv f', run_parse m f = Some (rv, f') ∧ Q rv f'.
Proof. unfold pwp, run_parse. destruct (m f 0); naive_solver. Qed.

Lemma run_parse_eq (m : P F Z) rv g f :
  pwp m (λ r f' _, r = rv ∧ f' = g) (λ _ _, False) f 0 → run_parse m f = Some (rv, g).
Proof. unfold pwp, run_parse. destruct (m f 0); naive_solver. Qed.

(** The rest of the element at offset [s]. *)
Definition at_rest (s : Z) (rest : list Z) : Prop := 0 ≤ s ∧ s + zlen rest = zlen octet ∧ drop (Z.to_nat s) octet = rest.
Lemma at_start : at_rest 0 octet.
Proof. by split. Qed.
Lemma at_next s seg rest : at_rest s (seg ++ rest) → at_rest (s + zlen seg) rest.
Proof.
  intros (H1 & H2 & H3). rewrite zlen_app in H2. pose proof (zlen_nonneg seg). split; [lia|]. split; [lia|].
  rewrite Z2Nat.inj_add by lia. rewrite <- drop_drop, H3. unfold zlen. rewrite Nat2Z.id. by rewrite drop_app_length.
Qed.

(** A field that is there is read. *)
Lemma pwp_memcpy_at s seg rest n Q R f :
  at_rest s (seg ++ rest) → zlen seg = n → Q seg f s → pwp (memcpy n) Q R f s.
Proof.
  intros (H1 & H2 & H3) <- HQ. unfold pwp, memcpy. replace (s <? 0) with false by (symmetry; lia).
  by rewrite H3, read_bytes_app.
Qed.
Lemma pwp_field_at e s seg rest n (Q : list Z → F → Z → Prop) R f :
  at_rest s (seg ++ rest) → zlen seg = n → (at_rest (s + n) rest → Q seg f (s + n)) → pwp (field e n) Q R f s.
Proof.
  intros Hat Hn HQ. pose proof (at_next _ _ _ Hat) as Hnext. rewrite Hn in Hnext.
  unfold field. apply pwp_bind. unfold pwp at 1, check.
  replace (zlen octet <? s + n) with false.
  2: { destruct Hat as (_ & H2 & _). rewrite zlen_app in H2. pose proof (zlen_nonneg rest). lia. }
  apply pwp_bind. eapply pwp_memcpy_at; [done|done|]. by apply HQ.
Qed.

Lemma pwp_int_field_at e n conv set s seg rest R f :
  at_rest s (seg ++ rest) → zlen seg = n →
  pwp (int_field e n conv set) (λ _ f' s', f' = set (conv (le_value seg)) f ∧ s' = s + zlen seg) R f s.
Proof. intros Hat <-. unfold int_field. apply pwp_bind. by eapply pwp_field_at. Qed.

(** A field that is present when its flag [b] is set. *)
Lemma pwp_opt_at b (m : P F unit) (g : F → F) s seg rest (Q : unit → F → Z → Prop) R f :
  at_rest s (opt b seg ++ rest) →
  (at_rest s (seg ++ rest) → pwp m (λ _ f' s', f' = g f ∧ s' = s + zlen seg) R f s) →
  (at_rest (s + zlen (opt b seg)) rest → Q tt (if b then g f else f) (s + zlen (opt b seg))) →
  pwp (p_when b m) Q R f s.
Proof.
  intros Hat Hm HQ. apply at_next in Hat as Hnext. specialize (HQ Hnext).
  destruct b; cbn [opt p_when] in *.
  - eapply pwp_mono; [by apply Hm|]. by intros [] f' s' [-> ->].
  - unfold pwp. cbn. by rewrite Z.add_0_r in HQ.
Qed.

(** Whatever the element holds, a checked field does not fault, and is the
    next part of it. *)
Lemma pwp_field_split e n (Q : list Z → F → Z → Prop) R f s :
  bytes octet → 0 ≤ s → 0 ≤ n → R (e s) f →
  (∀ bs rest, at_rest s (bs ++ rest) → zlen bs = n → bytes bs → s + n ≤ zlen octet → Q bs f (s + n)) →
  pwp (field e n) Q R f s.
Proof.
  intros Hb Hs Hn HR HQ. unfold field. apply pwp_bind. unfold pwp at 1, check.
  destruct (Z.ltb_spec (zlen octet) (s + n)); [done|]. apply pwp_bind.
  unfold pwp at 1, memcpy. replace (s <? 0) with false by (symmetry; lia).
  set (rest := drop (Z.to_nat s) octet).
  assert (Hlen : zlen rest = zlen octet - s) by (unfold rest, zlen in *; rewrite length_drop; lia).
  unfold read_bytes. fold (zlen rest). replace ((0 <=? n) && _) with true by (symmetry; lia).
  apply (HQ _ (drop (Z.to_nat n) rest)).
  - rewrite take_drop. split; [done|]. split; [lia|done].
  - unfold zlen in *. rewrite length_take. lia.
  - by apply Forall_take, Forall_drop.
  - lia.
Qed.

Lemma pwp_field e n (Q : list Z → F → Z → Prop) R f s :
  bytes octet → 0 ≤ s → 0 ≤ n → R (e s) f →
  (∀ bs, zlen bs = n → bytes bs → s + n ≤ zlen octet → Q bs f (s + n)) → pwp (field e n) Q R f s.
Proof. intros Hb Hs Hn HR HQ. eapply pwp_field_split; [done..|]. intros bs rest _. apply HQ. Qed.

Lemma pwp_int_field e n conv set (Q : unit → F → Z → Prop) R f s :
  bytes octet → 0 ≤ s → 0 ≤ n → R (e s) f →
  (∀ v, s + n ≤ zlen octet → Q tt (set v f) (s + n)) → pwp (int_field e n conv set) Q R f s.
Proof.
  intros Hb Hs Hn HR HQ. unfold int_field. apply pwp_bind, pwp_field; [done..|].
  intros bs _ _ Hle. by apply HQ.
Qed.
Lemma pwp_when b (m : P F unit) (Q : unit → F → Z → Prop) R f s :
  (b = true → pwp m Q R f s) → Q tt f s → pwp (p_when b m) Q R f s.
Proof. destruct b; cbn; auto. Qed.
End parse.

(** ** lib/core/ogs-conv.c: octets and texts

    A text is the list of its characters, each an octet, without the
    terminating zero; [in] and [out] are the objects from the pointers on.  An
    access beyond them is a fault.  Whether a char is signed does not matter:
    only the low octet of what is computed from it is kept. *)
Module Conv.

Definition OGS_OK : Z := 0.
Definition OGS_ERROR : Z := -1.
Definition INT_MAX : Z := 2 ^ 31 - 1.

(** The classes of ctype.h, in the C locale. *)
Definition isspace (c : Z) : bool := (c =? 0x20) || (0x9 <=? c) && (c <=? 0xd).
Definition isdigit (c : Z) : bool := (0x30 <=? c) && (c <=? 0x39).
Definition islower (c : Z) : bool := (0x61 <=? c) && (c <=? 0x7a).
Definition tolower (c : Z) : Z := if (0x41 <=? c) && (c <=? 0x5a) then c + 0x20 else c.

(** [out_p[i] = x] for a [uint8_t] array. *)
Definition poke (out : list Z) (i : nat) (x : Z) : option (list Z) :=
  if (i <? length out)%nat then Some (<[i := x mod 256]> out) else None.

Definition hex_of (c : Z) : Z :=
  if isdigit c then c - 0x30 else if islower c then c - 0x61 + 10 else c - 0x41 + 10.
(** [n]: [in_len - i]; [odd]: [k & 0x1]. *)
Fixpoint ascii_to_hex_loop (n : nat) (in_ : list Z) (out_len : Z) (j : nat) (odd : bool) (out : list Z) :
    option (nat * list Z) :=
  match n with
  | O => Some (j, out)
  | S n =>
      if Z.of_nat j <? out_len then
        match in_ with
        | [] => None
        | c :: in_ =>
            if isspace c then ascii_to_hex_loop n in_ out_len j odd out
            else if odd then
              x ← out !! j; out ← poke out j (Z.lor x (hex_of c));
              ascii_to_hex_loop n in_ out_len (S j) false out
            else
              out ← poke out j (Z.shiftl (hex_of c) 4);
              ascii_to_hex_loop n in_ out_len j true out
        end
      else Some (j, out)
  end.
Definition ogs_ascii_to_hex (in_ : list Z) (in_len : Z) (out : list Z) (out_len : Z) : option (nat * list Z) :=
  ascii_to_hex_loop (Z.to_nat in_len) in_ out_len 0 false out.

Definition is_hex (c : Z) : bool :=
  (0x30 <=? c) && (c <=? 0x39) || (0x61 <=? c) && (c <=? 0x66) || (0x41 <=? c) && (c <=? 0x46).
(** [for (i = 0; i < in_len; i++) if (!...) return OGS_ERROR;] *)
Fixpoint all_hex (n : nat) (in_ : list Z) : option bool :=
  match n, in_ with
  | O, _ => Some true
  | S n, c :: in_ => if is_hex c then all_hex n in_ else Some false
  | S n, [] => None
  end.
(** A NULL is None. *)
Definition ogs_ascii_to_hex_checked (in_ : option (list Z)) (in_len : Z) (out : option (list Z)) (out_len : Z) :
    option (Z * option (list Z)) :=
  match in_, out with
  | Some i, Some o =>
      if (in_len <? 0) || (out_len <? 0) || (INT_MAX / 2 <? out_len) || negb (in_len =? out_len * 2) then Some (OGS_ERROR, out)
      else
        ok ← all_hex (Z.to_nat in_len) i;
        if negb ok then Some (OGS_ERROR, out)
        else '(_, o) ← ogs_ascii_to_hex i in_len o out_len; Some (OGS_OK, Some o)
  | _, _ => Some (OGS_ERROR, out)
  end.

(** Of lib/core/ogs-conv.h. *)
Definition ogs_hex_from_string (str out : list Z) (out_len : Z) : option (list Z) :=
  snd <$> ogs_ascii_to_hex str (zlen str) out out_len.
Definition ogs_hex_from_string_checked (str out : option (list Z)) (out_len : Z) : option (Z * option (list Z)) :=
  match str with
  | None => Some (OGS_ERROR, out)
  | Some s => ogs_ascii_to_hex_checked str (zlen s) out out_len
  end.

(** The digits of a number, as printf writes them for [%x]: [n] of them. *)
Definition hex_char (d : Z) : Z := if d <? 10 then 0x30 + d else 0x61 + (d - 10).
Fixpoint hex_digits (n : nat) (x : Z) : list Z :=
  match n with O => [] | S n => hex_digits n (x / 16) ++ [hex_char (x mod 16)] end.

(** [snprintf(str, last - str, ...)] of [text], as [ogs_slprintf] calls it: it
    writes what fits, with a zero; the result is the next position, even
    beyond [last].  Positions are indices. *)
Definition write_at (out : list Z) (p : nat) (text : list Z) : option (list Z) :=
  if (p + length text <=? length out)%nat then Some (take p out ++ text ++ drop (p + length text) out) else None.
Definition ogs_slprintf (out : list Z) (p last : Z) (text : list Z) : option (Z * list Z) :=
  if p <? last then
    out ← write_at out (Z.to_nat p) (take (Z.to_nat (last - p - 1)) text ++ [0]);
    Some (p + zlen text, out)
  else Some (p - 1, out).
(** The rest of [for (i = 0; i < l; i++)]. *)
Fixpoint hex_to_ascii_loop (l : nat) (in_ : list Z) (p last : Z) (out : list Z) : option (list Z) :=
  match l, in_ with
  | O, _ => Some out
  | S l, c :: in_ => '(p, out) ← ogs_slprintf out p last (hex_digits 2 c); hex_to_ascii_loop l in_ p last out
  | S _, [] => None
  end.
Definition ogs_hex_to_ascii (in_ : list Z) (in_len : Z) (out : list Z) (out_len : Z) : option (list Z) :=
  out ← poke out 0 0;
  hex_to_ascii_loop (Z.to_nat (if out_len <? in_len then out_len else in_len)) in_ 0 out_len out.

(** The digits from [i] on. *)
Fixpoint bcd_loop (first second : Z → Z) (in_ : list Z) (i : nat) (out : list Z) : option (list Z) :=
  match in_ with
  | [] => Some out
  | c :: in_ =>
      out ← (if Nat.odd i then x ← out !! (i / 2)%nat; poke out (i / 2) (Z.lor x (second (c - 0x30)))
             else poke out (i / 2) (first (c - 0x30)));
      bcd_loop first second in_ (S i) out
  end.
Definition low_nibble (d : Z) : Z := Z.land d 0x0f.
Definition high_nibble (d : Z) : Z := Z.land (Z.shiftl d 4) 0xf0.
(** The result is [out] and [*out_len]. *)
Definition bcd_to (first second : Z → Z) (in_ out : list Z) : option (list Z * nat) :=
  out ← bcd_loop first second in_ 0 out;
  let out_len := ((length in_ + 1) / 2)%nat in
  if Nat.odd (length in_) then
    x ← out !! (out_len - 1)%nat; out ← poke out (out_len - 1) (Z.lor x 0xf0); Some (out, out_len)
  else Some (out, out_len).
Definition ogs_bcd_to_buffer : list Z → list Z → option (list Z * nat) := bcd_to low_nibble high_nibble.
Definition ogs_bcd_to_buffer_reverse_order : list Z → list Z → option (list Z * nat) := bcd_to high_nibble low_nibble.

Fixpoint to_bcd_loop (n : nat) (in_ : list Z) (i : nat) (out : list Z) : option (list Z) :=
  match n, in_ with
  | O, _ => Some out
  | S n, b :: in_ =>
      out ← poke out (i * 2) (0x30 + Z.land b 0x0f);
      out ← poke out (i * 2 + 1) (0x30 + Z.shiftr (Z.land b 0xf0) 4);
      to_bcd_loop n in_ (S i) out
  | S _, [] => None
  end.
(** [out], and whether the result is not NULL. *)
Definition ogs_buffer_to_bcd (in_ : list Z) (in_len : Z) (out : list Z) (out_len : Z) : option (bool * list Z) :=
  if (in_len <? 0) || (INT_MAX / 2 <? in_len) then Some (false, out)
  else
    filler ← (if 0 <? in_len then b ← in_ !! Z.to_nat (in_len - 1); Some (Z.land b 0xf0 =? 0xf0) else Some false);
    let num_of_digit := if (filler : bool) then in_len * 2 - 1 else in_len * 2 in
    if out_len <? num_of_digit + 1 then Some (false, out)
    else
      out ← to_bcd_loop (Z.to_nat in_len) in_ 0 out;
      out ← poke out (Z.to_nat num_of_digit) 0;
      Some (true, out).

Definition ogs_from_hex (ch : Z) : Z := (if isdigit ch then ch - 0x30 else tolower ch - 0x61 + 10) mod 256.
Definition ogs_to_hex (ch : Z) : Z := let d := Z.land ch 15 in if d <? 10 then 0x30 + d else 0x41 + (d - 10).

(** [ogs_msprintf("%0<w>x", x)]: memory is there. *)
Definition num_digits (x : Z) : nat := if x =? 0 then 1 else Z.to_nat (Z.log2 x / 4 + 1).
Definition print_hex (w : nat) (x : Z) : list Z := hex_digits (Nat.max w (num_digits x)) x.
Definition ogs_uint24_to_0string (x : Z) : list Z := print_hex 6 x.
Definition ogs_uint28_to_0string (x : Z) : list Z := print_hex 7 x.
Definition ogs_uint32_to_0string (x : Z) : list Z := print_hex 8 x.
Definition ogs_uint36_to_0string (x : Z) : list Z := print_hex 9 x.
Definition ogs_uint64_to_0string (x : Z) : list Z := print_hex 16 x.
Fixpoint ogs_left_trimcharacter (str : list Z) (to_remove : Z) : list Z :=
  match str with
  | c :: rest => if c =? to_remove then ogs_left_trimcharacter rest to_remove else str
  | [] => []
  end.
Definition ogs_uint64_to_string (x : Z) : list Z := ogs_left_trimcharacter (ogs_uint64_to_0string x) 0x30.

(** [strtoull] of the C library: white space, a sign, a prefix [0x] before a
    hexadecimal digit, digits; the value is negated in 64 bits after a minus
    sign.  The results are the value, the rest of the text from [*end] on (None
    when there was no digit and [*end] is the text), and whether it was out of
    range.  A base is 0 or 2 to 36. *)
Definition digit_of (c : Z) : Z :=
  if isdigit c then c - 0x30
  else if islower (tolower c) then tolower c - 0x61 + 10 else 36.
Fixpoint skip_space (str : list Z) : list Z :=
  match str with c :: rest => if isspace c then skip_space rest else str | [] => [] end.
Fixpoint digits_value (base acc : Z) (str : list Z) : Z * list Z :=
  match str with
  | c :: rest => if digit_of c <? base then digits_value base (acc * base + digit_of c) rest else (acc, str)
  | [] => (acc, [])
  end.
Definition hex_prefix (str : list Z) : option (list Z) :=
  match str with
  | 0x30 :: x :: d :: rest => if (tolower x =? 0x78) && (digit_of d <? 16) then Some (d :: rest) else None
  | _ => None
  end.
Definition strtoull (str : list Z) (base : Z) : Z * option (list Z) * bool :=
  let s := skip_space str in
  let '(neg, s) := match s with c :: r => if c =? 0x2d then (true, r) else if c =? 0x2b then (false, r) else (false, s) | [] => (false, s) end in
  let '(base, s) :=
    match hex_prefix s with
    | Some s' => if (base =? 0) || (base =? 16) then (16, s') else (base, s)
    | None => (if base =? 0 then match s with 0x30 :: _ => 8 | _ => 10 end else base, s)
    end in
  match s with
  | c :: _ =>
      if digit_of c <? base then
        let '(v, rest) := digits_value base 0 s in
        if 2 ^ 64 <=? v then (2 ^ 64 - 1, Some rest, true)
        else ((if (neg : bool) then - v else v) mod 2 ^ 64, Some rest, false)
      else (0, None, false)
  | [] => (0, None, false)
  end.

(** The value and [errno]. *)
Inductive errno := NO_ERROR | EINVAL | ERANGE.
Definition ogs_uint64_from_string (str : list Z) (base : Z) : Z * errno :=
  match str with
  | [] => (0, NO_ERROR)
  | c :: _ =>
      if c =? 0x2d then (0, EINVAL)
      else match strtoull str base with
        | (_, None, _) => (0, EINVAL)
        | (_, Some (_ :: _), _) => (0, EINVAL)
        | (_, Some [], true) => (0, ERANGE)
        | (v, Some [], false) => (v, NO_ERROR)
        end
  end.
(** [x.v] has 24 bits. *)
Definition ogs_uint24_from_string (str : list Z) (base : Z) : Z := fst (ogs_uint64_from_string str base) mod 2 ^ 24.
End Conv.
