(* ===== verification/Words.v ===== *)
(** * Machine words as bytes

    The ciphers of lib/crypt work on 32-bit words that they take apart into
    bytes, look up in tables and put together again.  A word is here the
    big-endian value of its four bytes, and the bitwise operations on words
    are those on their bytes. *)
From S2P Require Import Prelude XactBase Octets.
#[local] Open Scope Z_scope.
#[local] Open Scope c_scope.
#[local] Ltac Zify.zify_post_hook ::= Z.to_euclidean_division_equations.

Notation "x .^ y" := (Z.lxor x y) (at level 42, left associativity) : c_scope.

(** ** Operations of the language on words *)

(** [x << n] on a [uint32_t]. *)
Definition shl32 (x n : Z) : Z := u32 (x << n).
(** [x + y] on [uint32_t]. *)
Definition add32 (x y : Z) : Z := u32 (x + y).
(** An element of a table. *)
Definition tbl (t : list Z) (i : Z) : Z := nth (Z.to_nat i) t 0.
(** [x[i] ^ y[i]] for the bytes of two buffers, as long as both last. *)
Definition xor_bytes (xs ys : list Z) : list Z := zip_with Z.lxor xs ys.

(** The 32-bit word with the given bytes. *)
Definition word (a b c d : Z) : Z := be_value [a; b; c; d].
Definition is_word (w : Z) : Prop := 0 ≤ w < 2 ^ 32.
Definition words (l : list Z) : Prop := Forall is_word l.

(** ** Ranges *)

Section ranges.
Context (n : Z) (Hn : 0 ≤ n).

Lemma pow2_range_bits x : 0 ≤ x < 2 ^ n ↔ 0 ≤ x ∧ ∀ i, n ≤ i → Z.testbit x i = false.
Proof.
  split.
  - intros [Hx Hlt]. split; [done|]. by apply Z.bounded_iff_bits_nonneg.
  - intros [Hx Hb]. split; [done|]. by apply Z.bounded_iff_bits_nonneg.
Qed.

Lemma lxor_range x y : 0 ≤ x < 2 ^ n → 0 ≤ y < 2 ^ n → 0 ≤ x .^ y < 2 ^ n.
Proof.
  rewrite !pow2_range_bits. intros [Hx Hxb] [Hy Hyb]. split; [by apply Z.lxor_nonneg|].
  intros i Hi. by rewrite Z.lxor_spec, Hxb, Hyb.
Qed.
Lemma land_range x y : 0 ≤ x < 2 ^ n → 0 ≤ x .& y < 2 ^ n.
Proof.
  rewrite !pow2_range_bits. intros [Hx Hxb]. split; [rewrite Z.land_nonneg; by left|].
  intros i Hi. by rewrite Z.land_spec, Hxb.
Qed.
Lemma lor_range x y : 0 ≤ x < 2 ^ n → 0 ≤ y < 2 ^ n → 0 ≤ x .| y < 2 ^ n.
Proof.
  rewrite !pow2_range_bits. intros [Hx Hxb] [Hy Hyb]. split; [by apply Z.lor_nonneg|].
  intros i Hi. by rewrite Z.lor_spec, Hxb, Hyb.
Qed.
Lemma shiftr_range x m : 0 ≤ m → 0 ≤ x < 2 ^ n → 0 ≤ x >> m < 2 ^ n.
Proof.
  intros Hm. rewrite !pow2_range_bits. intros [Hx Hxb]. split; [by apply Z.shiftr_nonneg|].
  intros i Hi. rewrite Z.shiftr_spec by lia. apply Hxb. lia.
Qed.
End ranges.

Lemma lxor_byte x y : is_byte x → is_byte y → is_byte (x .^ y).
Proof. apply (lxor_range 8). lia. Qed.
Lemma lxor_word x y : is_word x → is_word y → is_word (x .^ y).
Proof. apply (lxor_range 32). lia. Qed.
Lemma u32_word x : is_word (u32 x).
Proof. apply Z.mod_pos_bound. lia. Qed.
Lemma add32_word x y : is_word (add32 x y).
Proof. apply u32_word. Qed.
Lemma is_byte_0 : is_byte 0.
Proof. done. Qed.
#[export] Hint Resolve lxor_byte lxor_word u8_byte u32_word add32_word is_byte_0 : machine.

(** Elements of tables and buffers. *)
Lemma bytes_nth st i : bytes st → is_byte (nth i st 0).
Proof.
  intros H. destruct (decide (i < length st)%nat); [|by rewrite nth_overflow by lia].
  apply (Forall_nth is_byte); [done|lia].
Qed.
Lemma tbl_byte l i : bytes l → is_byte (tbl l i).
Proof. apply bytes_nth. Qed.
#[export] Hint Resolve bytes_nth tbl_byte : machine.
Lemma bytes_by_check (l : list Z) : forallb (λ x, (0 <=? x) && (x <? 256)) l = true → bytes l.
Proof.
  intros H. apply Forall_forall. intros x Hx%list_elem_of_In. rewrite forallb_forall in H. specialize (H x Hx).
  unfold is_byte. lia.
Qed.

(** A property of every byte, by evaluation. *)
Definition all_bytes (P : Z → bool) : bool := forallb P (seqZ 0 256).
Lemma all_bytes_spec (P : Z → bool) : all_bytes P = true → ∀ x, is_byte x → P x = true.
Proof.
  unfold all_bytes. rewrite forallb_forall. intros H x Hx. apply H.
  apply list_elem_of_In, elem_of_seqZ. unfold is_byte in Hx. lia.
Qed.
Definition all_byte_pairs (P : Z → Z → bool) : bool := all_bytes (λ x, all_bytes (P x)).
Lemma all_byte_pairs_spec (P : Z → Z → bool) :
  all_byte_pairs P = true → ∀ x y, is_byte x → is_byte y → P x y = true.
Proof.
  intros H x y Hx Hy. apply (all_bytes_spec (P x)); [|done].
  by apply (all_bytes_spec (λ x, all_bytes (P x))).
Qed.
(** [by_bytes] proves an equation about all bytes that is decided by evaluation. *)
Ltac by_bytes x Hx :=
  revert x Hx;
  match goal with |- ∀ x, is_byte x → ?f = ?g =>
    let H := fresh in
    assert (H : all_bytes (λ x, Z.eqb f g) = true) by (vm_compute; reflexivity);
    intros x Hx; apply Z.eqb_eq; exact (all_bytes_spec _ H x Hx)
  end.

(** ** Words and their bytes *)

(** An operation that acts on every bit acts on the halves of an integer. *)
Lemma bits_split (op : Z → Z → Z) (f : bool → bool → bool)
    (Hop : ∀ x y i, Z.testbit (op x y) i = f (Z.testbit x i) (Z.testbit y i))
    (Hrange : ∀ n x y, 0 ≤ n → 0 ≤ x < 2 ^ n → 0 ≤ y < 2 ^ n → 0 ≤ op x y < 2 ^ n)
    n x y b c :
  0 ≤ n → 0 ≤ b < 2 ^ n → 0 ≤ c < 2 ^ n →
  op (x * 2 ^ n + b) (y * 2 ^ n + c) = op x y * 2 ^ n + op b c.
Proof.
  intros Hn Hb Hc. assert (Hlow : ∀ x b i, 0 ≤ b < 2 ^ n → 0 ≤ i →
    Z.testbit (x * 2 ^ n + b) i = if decide (i < n) then Z.testbit b i else Z.testbit x (i - n)).
  { intros x' b' i Hb' Hi. rewrite <- lor_disjoint, Z.lor_spec by done. case_decide.
    - by rewrite Z.mul_pow2_bits_low.
    - rewrite Z.mul_pow2_bits by lia.
      rewrite (proj2 (proj1 (pow2_range_bits n Hn b') Hb')) by lia. by rewrite orb_false_r. }
  apply Z.bits_inj'. intros i Hi. rewrite Hop, !Hlow by (done || apply Hrange; done).
  case_decide; by rewrite Hop.
Qed.

Lemma lxor_split n x y b c : 0 ≤ n → 0 ≤ b < 2 ^ n → 0 ≤ c < 2 ^ n →
  (x * 2 ^ n + b) .^ (y * 2 ^ n + c) = (x .^ y) * 2 ^ n + (b .^ c).
Proof. apply (bits_split Z.lxor xorb); auto using Z.lxor_spec, lxor_range. Qed.
Lemma land_split n x y b c : 0 ≤ n → 0 ≤ b < 2 ^ n → 0 ≤ c < 2 ^ n →
  (x * 2 ^ n + b) .& (y * 2 ^ n + c) = (x .& y) * 2 ^ n + (b .& c).
Proof. apply (bits_split Z.land andb); auto using Z.land_spec, land_range. Qed.
Lemma lor_split n x y b c : 0 ≤ n → 0 ≤ b < 2 ^ n → 0 ≤ c < 2 ^ n →
  (x * 2 ^ n + b) .| (y * 2 ^ n + c) = (x .| y) * 2 ^ n + (b .| c).
Proof. apply (bits_split Z.lor orb); auto using Z.lor_spec, lor_range. Qed.

Lemma word_eq a b c d : word a b c d = ((a * 256 + b) * 256 + c) * 256 + d.
Proof. unfold word, be_value. cbn. ring. Qed.
Lemma word_0 : word 0 0 0 0 = 0.
Proof. done. Qed.

(** Every word has four bytes. *)
Lemma word_cases w : is_word w → ∃ a b c d, w = word a b c d ∧ is_byte a ∧ is_byte b ∧ is_byte c ∧ is_byte d.
Proof.
  intros Hw. unfold is_word in Hw.
  exists (w / 256 / 256 / 256), (w / 256 / 256 mod 256), (w / 256 mod 256), (w mod 256).
  rewrite word_eq. unfold is_byte. repeat split; lia.
Qed.

Section word.
Context {a b c d : Z} (Ha : is_byte a) (Hb : is_byte b) (Hc : is_byte c) (Hd : is_byte d).

Lemma word_range : is_word (word a b c d).
Proof using All. rewrite word_eq. unfold is_word, is_byte in *. lia. Qed.
Lemma word_byte0 : word a b c d >> 24 = a.
Proof using All. rewrite word_eq, Z.shiftr_div_pow2 by lia. unfold is_byte in *. lia. Qed.
Lemma word_byte1 : (word a b c d >> 16) .& 0xff = b.
Proof using All.
  rewrite word_eq, Z.shiftr_div_pow2 by lia. change 0xff with (2 ^ 8 - 1). rewrite land_mask by lia.
  unfold is_byte in *. lia.
Qed.
Lemma word_byte2 : (word a b c d >> 8) .& 0xff = c.
Proof using All.
  rewrite word_eq, Z.shiftr_div_pow2 by lia. change 0xff with (2 ^ 8 - 1). rewrite land_mask by lia.
  unfold is_byte in *. lia.
Qed.
Lemma word_byte3 : word a b c d .& 0xff = d.
Proof using All.
  rewrite word_eq. change 0xff with (2 ^ 8 - 1). rewrite land_mask by lia. unfold is_byte in *. lia.
Qed.
Lemma byte_mask x : is_byte x → x .& 0xff = x.
Proof using. intros Hx. change 0xff with (2 ^ 8 - 1). rewrite land_mask by lia. by apply Z.mod_small. Qed.
Lemma word_byte0_mask : (word a b c d >> 24) .& 0xff = a.
Proof using All. rewrite word_byte0. by apply byte_mask. Qed.

(** The bytes as [PUTU32] and [be_bytes] give them. *)
Lemma word_u8s : u8 (word a b c d >> 24) = a ∧ u8 (word a b c d >> 16) = b ∧ u8 (word a b c d >> 8) = c ∧ u8 (word a b c d) = d.
Proof using All.
  unfold u8. rewrite <- !land_mask by lia. change (2 ^ 8 - 1) with 0xff.
  by rewrite word_byte0_mask, word_byte1, word_byte2, word_byte3.
Qed.
Lemma be_bytes_word : be_bytes 4 (word a b c d) = [a; b; c; d].
Proof using All. apply (be_bytes_value [a; b; c; d]). repeat constructor; apply Ha || apply Hb || apply Hc || apply Hd. Qed.
Lemma word_add0 : a * 2 ^ 24 + b * 2 ^ 16 + c * 2 ^ 8 + d = word a b c d.
Proof using. rewrite word_eq. ring. Qed.

(** A word put together with shifts, as the C code does. *)
Lemma word_lors : (a << 24) .| (b << 16) .| (c << 8) .| d = word a b c d.
Proof using All.
  rewrite !Z.shiftl_mul_pow2 by lia. unfold is_byte in *.
  rewrite (lor_disjoint a (b * 2 ^ 16) 24), <- word_add0 by lia.
  replace (a * 2 ^ 24 + b * 2 ^ 16) with ((a * 2 ^ 8 + b) * 2 ^ 16) by lia.
  rewrite (lor_disjoint _ (c * 2 ^ 8) 16) by lia.
  replace ((a * 2 ^ 8 + b) * 2 ^ 16 + c * 2 ^ 8) with (((a * 2 ^ 8 + b) * 2 ^ 8 + c) * 2 ^ 8) by lia.
  rewrite (lor_disjoint _ d 8) by lia. lia.
Qed.
Lemma lxor_disjoint x y n : 0 ≤ n → 0 ≤ y < 2 ^ n → Z.lxor (x * 2 ^ n) y = x * 2 ^ n + y.
Proof using.
  intros Hn Hy. pose proof (lxor_split n x 0 0 y Hn ltac:(lia) Hy) as E.
  by rewrite Z.mul_0_l, Z.add_0_l, Z.add_0_r, Z.lxor_0_r, Z.lxor_0_l in E.
Qed.
Lemma word_lxors : (a << 24) .^ (b << 16) .^ (c << 8) .^ d = word a b c d.
Proof using All.
  rewrite !Z.shiftl_mul_pow2 by lia. unfold is_byte in *.
  rewrite (lxor_disjoint a (b * 2 ^ 16) 24), <- word_add0 by lia.
  replace (a * 2 ^ 24 + b * 2 ^ 16) with ((a * 2 ^ 8 + b) * 2 ^ 16) by lia.
  rewrite (lxor_disjoint _ (c * 2 ^ 8) 16) by lia.
  replace ((a * 2 ^ 8 + b) * 2 ^ 16 + c * 2 ^ 8) with (((a * 2 ^ 8 + b) * 2 ^ 8 + c) * 2 ^ 8) by lia.
  rewrite (lxor_disjoint _ d 8) by lia. lia.
Qed.
End word.

Section two_words.
Context {a b c d a' b' c' d' : Z}.
Context (Hb : is_byte b) (Hc : is_byte c) (Hd : is_byte d) (Hb' : is_byte b') (Hc' : is_byte c') (Hd' : is_byte d').

Lemma word_lxor : word a b c d .^ word a' b' c' d' = word (a .^ a') (b .^ b') (c .^ c') (d .^ d').
Proof using All. rewrite !word_eq. change 256 with (2 ^ 8). by rewrite !lxor_split by (done || lia). Qed.
Lemma word_land : word a b c d .& word a' b' c' d' = word (a .& a') (b .& b') (c .& c') (d .& d').
Proof using All. rewrite !word_eq. change 256 with (2 ^ 8). by rewrite !land_split by (done || lia). Qed.
End two_words.

(** The masks of single bytes. *)
Lemma word_mask a b c d : is_byte a → is_byte b → is_byte c → is_byte d →
  word a b c d .& 0xff000000 = word a 0 0 0 ∧ word a b c d .& 0x00ff0000 = word 0 b 0 0 ∧
  word a b c d .& 0x0000ff00 = word 0 0 c 0 ∧ word a b c d .& 0x000000ff = word 0 0 0 d.
Proof.
  intros Ha Hb Hc Hd. change 0xff000000 with (word 0xff 0 0 0). change 0x00ff0000 with (word 0 0xff 0 0).
  change 0x0000ff00 with (word 0 0 0xff 0). change 0x000000ff with (word 0 0 0 0xff).
  rewrite !word_land by done. by rewrite !byte_mask, !Z.land_0_r.
Qed.

Lemma word_inj a b c d a' b' c' d' :
  is_byte a → is_byte b → is_byte c → is_byte d → is_byte a' → is_byte b' → is_byte c' → is_byte d' →
  word a b c d = word a' b' c' d' → a = a' ∧ b = b' ∧ c = c' ∧ d = d'.
Proof. intros. rewrite !word_eq in *. unfold is_byte in *. lia. Qed.
#[export] Hint Resolve word_range : machine.

(** ** Buffers *)

Lemma be_value_concat a b : be_value (a ++ b) = be_value a * 2 ^ (8 * Z.of_nat (length b)) + be_value b.
Proof.
  induction a as [|x a IH]; [done|]. rewrite <- app_comm_cons, !be_value_cons, IH, length_app.
  replace (8 * Z.of_nat (length a + length b)) with (8 * Z.of_nat (length a) + 8 * Z.of_nat (length b)) by lia.
  rewrite Z.pow_add_r by lia. ring.
Qed.
Lemma xor_bytes_length xs ys : length (xor_bytes xs ys) = min (length xs) (length ys).
Proof. apply length_zip_with. Qed.
Lemma xor_bytes_bytes xs ys : bytes xs → bytes ys → bytes (xor_bytes xs ys).
Proof.
  intros Hxs. revert ys. induction Hxs as [|x xs Hx Hxs IH]; intros ys Hys; [constructor|].
  destruct Hys as [|y ys Hy Hys]; cbn; constructor; [by apply lxor_byte|by apply IH].
Qed.
Lemma xor_bytes_comm xs ys : xor_bytes xs ys = xor_bytes ys xs.
Proof. revert ys. induction xs as [|x xs IH]; intros [|y ys]; cbn; [done..|]. by rewrite Z.lxor_comm, IH. Qed.
Lemma xor_bytes_assoc xs ys zs : xor_bytes xs (xor_bytes ys zs) = xor_bytes (xor_bytes xs ys) zs.
Proof.
  revert ys zs. induction xs as [|x xs IH]; intros [|y ys] [|z zs]; cbn; [done..|]. by rewrite Z.lxor_assoc, IH.
Qed.
(** The same stream twice cancels. *)
Lemma xor_bytes_twice xs ys : (length xs ≤ length ys)%nat → xor_bytes (xor_bytes xs ys) ys = xs.
Proof.
  revert ys. induction xs as [|x xs IH]; intros [|y ys] H; cbn in *; [done..|lia|].
  rewrite Z.lxor_assoc, Z.lxor_nilpotent, Z.lxor_0_r. f_equal. apply IH. lia.
Qed.
