(* ===== verification/AesRef.v ===== *)
(** * FIPS 197, the reference for the block cipher

    AES on bytes: the field with 256 elements, the S-box as inversion and an
    affine map, the four steps of a round, the key expansion; and that the
    tables of the code are the products and S-boxes that they should be. *)
From S2P Require Import Prelude XactBase Octets Words Aes.
#[local] Open Scope Z_scope.
#[local] Open Scope c_scope.
#[local] Ltac Zify.zify_post_hook ::= Z.to_euclidean_division_equations.

(** ** The reference *)

(** Multiplication by x and multiplication, modulo x^8 + x^4 + x^3 + x + 1. *)
Definition xtime (b : Z) : Z := u8 (b << 1) .^ (if Z.testbit b 7 then 0x1b else 0).
Fixpoint gmul_pos (p : positive) (b : Z) : Z :=
  match p with
  | xH => b
  | xO p => gmul_pos p (xtime b)
  | xI p => b .^ gmul_pos p (xtime b)
  end.
Definition gmul (a b : Z) : Z := match a with Z.pos p => gmul_pos p b | _ => 0 end.
Fixpoint gpow (b : Z) (p : positive) : Z :=
  match p with xH => b | xO p => gpow (gmul b b) p | xI p => gmul b (gpow (gmul b b) p) end.
(** The multiplicative inverse, and 0 for 0. *)
Definition ginv (b : Z) : Z := gpow b 254.
Definition rotl8 (b n : Z) : Z := u8 (b << n) .| (b >> (8 - n)).
Definition sbox (b : Z) : Z :=
  let b := ginv b in b .^ rotl8 b 1 .^ rotl8 b 2 .^ rotl8 b 3 .^ rotl8 b 4 .^ 0x63.
Definition inv_sbox (b : Z) : Z := ginv (rotl8 b 1 .^ rotl8 b 3 .^ rotl8 b 6 .^ 0x05).

(** A state is 16 bytes, column by column. *)
Definition sub_bytes (st : list Z) : list Z := map sbox st.
Definition inv_sub_bytes (st : list Z) : list Z := map inv_sbox st.
Definition permute (ix : list nat) (st : list Z) : list Z := map (λ i, nth i st 0) ix.
Definition shift_rows : list Z → list Z := permute [0; 5; 10; 15; 4; 9; 14; 3; 8; 13; 2; 7; 12; 1; 6; 11]%nat.
Definition inv_shift_rows : list Z → list Z := permute [0; 13; 10; 7; 4; 1; 14; 11; 8; 5; 2; 15; 12; 9; 6; 3]%nat.
Definition add_round_key (st k : list Z) : list Z := xor_bytes st k.

(** A column times the circulant matrix with the given first column. *)
Definition mul_column (m0 m1 m2 m3 : Z) (col : list Z) : list Z :=
  let x i := nth i col 0 in
  [ gmul m0 (x 0%nat) .^ gmul m3 (x 1%nat) .^ gmul m2 (x 2%nat) .^ gmul m1 (x 3%nat);
    gmul m1 (x 0%nat) .^ gmul m0 (x 1%nat) .^ gmul m3 (x 2%nat) .^ gmul m2 (x 3%nat);
    gmul m2 (x 0%nat) .^ gmul m1 (x 1%nat) .^ gmul m0 (x 2%nat) .^ gmul m3 (x 3%nat);
    gmul m3 (x 0%nat) .^ gmul m2 (x 1%nat) .^ gmul m1 (x 2%nat) .^ gmul m0 (x 3%nat)].
Definition columns (f : list Z → list Z) (st : list Z) : list Z :=
  f (take 4 st) ++ f (take 4 (drop 4 st)) ++ f (take 4 (drop 8 st)) ++ f (take 4 (drop 12 st)).
Definition mix_column : list Z → list Z := mul_column 2 1 1 3.
Definition inv_mix_column : list Z → list Z := mul_column 14 9 13 11.
Definition mix_columns : list Z → list Z := columns mix_column.
Definition inv_mix_columns : list Z → list Z := columns inv_mix_column.

(** The round keys are given by their number. *)
Section cipher.
Context (nr : nat) (key : nat → list Z).

Definition round (st : list Z) (r : nat) : list Z :=
  add_round_key (mix_columns (shift_rows (sub_bytes st))) (key r).
Definition cipher (block : list Z) : list Z :=
  let st := foldl round (add_round_key block (key 0)) (seq 1 (nr - 1)) in
  add_round_key (shift_rows (sub_bytes st)) (key nr).

Definition inv_round (st : list Z) (r : nat) : list Z :=
  inv_mix_columns (add_round_key (inv_sub_bytes (inv_shift_rows st)) (key r)).
Definition inv_cipher (block : list Z) : list Z :=
  let st := foldl inv_round (add_round_key block (key nr)) (rev (seq 1 (nr - 1))) in
  add_round_key (inv_sub_bytes (inv_shift_rows st)) (key 0).
End cipher.

(** The key expansion, on words of four bytes. *)
Definition rot_word (w : list Z) : list Z := drop 1 w ++ take 1 w.
Definition rcon_word (i : nat) : list Z := [Nat.iter (i - 1) xtime 1; 0; 0; 0].
Definition next_word (nk : nat) (ws : list (list Z)) : list Z :=
  let i := length ws in
  let temp := nth (i - 1) ws [] in
  let temp :=
    if (i mod nk =? 0)%nat then xor_bytes (sub_bytes (rot_word temp)) (rcon_word (i / nk))
    else if (6 <? nk)%nat && (i mod nk =? 4)%nat then sub_bytes temp
    else temp in
  xor_bytes (nth (i - nk) ws []) temp.
Definition expand (nk n : nat) (ws : list (list Z)) : list (list Z) :=
  Nat.iter n (λ ws, ws ++ [next_word nk ws]) ws.
Fixpoint chunks {A} (n k : nat) (l : list A) : list (list A) :=
  match n with O => [] | S n => take k l :: chunks n k (drop k l) end.
Definition key_expansion (nk : nat) (key : list Z) : list (list Z) :=
  expand nk (4 * (nk + 7) - nk) (chunks nk 4 key).
Definition round_key (nk : nat) (key : list Z) (r : nat) : list Z :=
  concat (take 4 (drop (4 * r) (key_expansion nk key))).

(** AES with keys of [nk] words. *)
Definition aes_encrypt (nk : nat) (key block : list Z) : list Z :=
  cipher (nk + 6) (round_key nk key) block.
Definition aes_decrypt (nk : nat) (key block : list Z) : list Z :=
  inv_cipher (nk + 6) (round_key nk key) block.

(** ** The field *)

Lemma xtime_byte b : is_byte (xtime b).
Proof. unfold xtime. destruct (Z.testbit _ _); auto with machine. by apply lxor_byte; [apply u8_byte|]. Qed.
Lemma xtime_lxor a b : is_byte a → is_byte b → xtime (a .^ b) = xtime a .^ xtime b.
Proof.
  intros Ha Hb. apply Z.eqb_eq.
  apply (all_byte_pairs_spec (λ a b, xtime (a .^ b) =? (xtime a .^ xtime b))); [|done..].
  vm_compute. reflexivity.
Qed.
Lemma gmul_pos_byte p b : is_byte b → is_byte (gmul_pos p b).
Proof. revert b. induction p; intros b Hb; cbn; auto using xtime_byte with machine. Qed.
Lemma gmul_byte a b : is_byte b → is_byte (gmul a b).
Proof. destruct a; cbn; auto using gmul_pos_byte with machine. Qed.

(** Equations between sums of the same terms, bit by bit. *)
Ltac xor_ac :=
  apply Z.bits_inj'; intros; rewrite ?Z.lxor_spec, ?Z.bits_0;
  repeat match goal with |- context [Z.testbit ?x ?i] => generalize (Z.testbit x i); intros [] end; reflexivity.

Lemma gmul_pos_lxor p a b : is_byte a → is_byte b → gmul_pos p (a .^ b) = gmul_pos p a .^ gmul_pos p b.
Proof.
  revert a b. induction p as [p IH|p IH|]; intros a b Ha Hb; cbn; [|by rewrite xtime_lxor, IH by auto using xtime_byte|done].
  rewrite xtime_lxor, IH by auto using xtime_byte. xor_ac.
Qed.
Lemma gmul_lxor m a b : is_byte a → is_byte b → gmul m (a .^ b) = gmul m a .^ gmul m b.
Proof. destruct m; cbn; auto using gmul_pos_lxor. Qed.

Lemma sbox_byte b : is_byte b → is_byte (sbox b).
Proof.
  intros Hb. assert (H : ((0 <=? sbox b) && (sbox b <? 256)) = true); [|unfold is_byte; lia].
  apply (all_bytes_spec (λ b, (0 <=? sbox b) && (sbox b <? 256))); [vm_compute; reflexivity|done].
Qed.
Lemma inv_sbox_byte b : is_byte b → is_byte (inv_sbox b).
Proof.
  intros Hb. assert (H : ((0 <=? inv_sbox b) && (inv_sbox b <? 256)) = true); [|unfold is_byte; lia].
  apply (all_bytes_spec (λ b, (0 <=? inv_sbox b) && (inv_sbox b <? 256))); [vm_compute; reflexivity|done].
Qed.
Lemma inv_sbox_sbox b : is_byte b → inv_sbox (sbox b) = b.
Proof. intros Hb. by_bytes b Hb. Qed.
Lemma sbox_inv_sbox b : is_byte b → sbox (inv_sbox b) = b.
Proof. intros Hb. by_bytes b Hb. Qed.
#[export] Hint Resolve gmul_byte sbox_byte inv_sbox_byte xtime_byte : machine.

(** ** The tables *)

(** The tables of the rounds hold the products of the S-box with a column of
    the matrix; the others repeat the S-box. *)
Definition table_of (f0 f1 f2 f3 : Z → Z) (t : list Z) : Prop :=
  ∀ x, is_byte x → tbl t x = word (f0 x) (f1 x) (f2 x) (f3 x).
Ltac check_table := intros x Hx; by_bytes x Hx.

Section tables.
Let m k x := gmul k (sbox x).
Let n k x := gmul k (inv_sbox x).
Lemma Te0_spec : table_of (m 2) (m 1) (m 1) (m 3) Te0. Proof. check_table. Qed.
Lemma Te1_spec : table_of (m 3) (m 2) (m 1) (m 1) Te1. Proof. check_table. Qed.
Lemma Te2_spec : table_of (m 1) (m 3) (m 2) (m 1) Te2. Proof. check_table. Qed.
Lemma Te3_spec : table_of (m 1) (m 1) (m 3) (m 2) Te3. Proof. check_table. Qed.
Lemma Te4_spec : table_of sbox sbox sbox sbox Te4. Proof. check_table. Qed.
Lemma Td0_spec : table_of (n 14) (n 9) (n 13) (n 11) Td0. Proof. check_table. Qed.
Lemma Td1_spec : table_of (n 11) (n 14) (n 9) (n 13) Td1. Proof. check_table. Qed.
Lemma Td2_spec : table_of (n 13) (n 11) (n 14) (n 9) Td2. Proof. check_table. Qed.
Lemma Td3_spec : table_of (n 9) (n 13) (n 11) (n 14) Td3. Proof. check_table. Qed.
Lemma Td4_spec : table_of inv_sbox inv_sbox inv_sbox inv_sbox Td4. Proof. check_table. Qed.
End tables.
