(* ===== verification/AesRounds.v ===== *)
(** * The rounds of the block cipher against FIPS 197

    With any round keys, encryption with its tables is the reference cipher of
    AesRef.v, and decryption its equivalent inverse. *)
From S2P Require Import Prelude XactBase Octets Words Aes AesRef.
#[local] Open Scope Z_scope.
#[local] Open Scope c_scope.
#[local] Ltac Zify.zify_post_hook ::= Z.to_euclidean_division_equations.

(** ** Rounds *)

Definition words4 (s : state4) : Prop := let '(s0, s1, s2, s3) := s in is_word s0 ∧ is_word s1 ∧ is_word s2 ∧ is_word s3.
Definition state_bytes (s : state4) : list Z :=
  let '(s0, s1, s2, s3) := s in be_bytes 4 s0 ++ be_bytes 4 s1 ++ be_bytes 4 s2 ++ be_bytes 4 s3.
(** Four words of an array of round keys. *)
Definition key_words (rk : list Z) (k : nat) : state4 :=
  (nth k rk 0, nth (k + 1) rk 0, nth (k + 2) rk 0, nth (k + 3) rk 0).
Definition key_bytes (rk : list Z) (k : nat) : list Z := state_bytes (key_words rk k).

Lemma words_nth rk k : words rk → is_word (nth k rk 0).
Proof.
  intros H. destruct (decide (k < length rk)%nat); [|by rewrite nth_overflow by lia].
  apply (Forall_nth is_word); [done|lia].
Qed.
#[export] Hint Resolve words_nth : machine.

(** The bytes of a word in the goal. *)
Ltac word_bytes w Hw :=
  let H := fresh in
  pose proof (word_cases w Hw) as H;
  let a := fresh "a" in let b := fresh "b" in let c := fresh "c" in let d := fresh "d" in
  let E := fresh in
  destruct H as (a & b & c & d & E & ? & ? & ? & ?); clear Hw; (subst w || (rewrite E in *; clear E)).

Section column.
Context (f0 f1 f2 f3 : Z → Z) (T0 T1 T2 T3 : list Z).
Context (Hf0 : ∀ x, is_byte x → is_byte (f0 x)) (Hf1 : ∀ x, is_byte x → is_byte (f1 x)).
Context (Hf2 : ∀ x, is_byte x → is_byte (f2 x)) (Hf3 : ∀ x, is_byte x → is_byte (f3 x)).
Context (HT0 : table_of f0 f1 f2 f3 T0) (HT1 : table_of f3 f0 f1 f2 T1).
Context (HT2 : table_of f2 f3 f0 f1 T2) (HT3 : table_of f1 f2 f3 f0 T3).

Lemma table_sum a b c d : is_byte a → is_byte b → is_byte c → is_byte d →
  tbl T0 a .^ tbl T1 b .^ tbl T2 c .^ tbl T3 d =
  word (f0 a .^ f3 b .^ f2 c .^ f1 d) (f1 a .^ f0 b .^ f3 c .^ f2 d)
       (f2 a .^ f1 b .^ f0 c .^ f3 d) (f3 a .^ f2 b .^ f1 c .^ f0 d).
Proof using All.
  intros. rewrite HT0, HT1, HT2, HT3 by done. by rewrite !word_lxor by auto 10 with machine.
Qed.
End column.

Lemma te_sum a b c d : is_byte a → is_byte b → is_byte c → is_byte d →
  tbl Te0 a .^ tbl Te1 b .^ tbl Te2 c .^ tbl Te3 d = be_value (mix_column (sub_bytes [a; b; c; d])).
Proof.
  intros. pose proof (λ k x (Hx : is_byte x), gmul_byte k (sbox x) (sbox_byte x Hx)) as G.
  rewrite (table_sum (λ x, gmul 2 (sbox x)) (λ x, gmul 1 (sbox x)) (λ x, gmul 1 (sbox x)) (λ x, gmul 3 (sbox x))
    Te0 Te1 Te2 Te3 (G 2) (G 1) (G 1) (G 3) Te0_spec Te1_spec Te2_spec Te3_spec) by done.
  reflexivity.
Qed.
Lemma td_sum a b c d : is_byte a → is_byte b → is_byte c → is_byte d →
  tbl Td0 a .^ tbl Td1 b .^ tbl Td2 c .^ tbl Td3 d = be_value (inv_mix_column (inv_sub_bytes [a; b; c; d])).
Proof.
  intros. pose proof (λ k x (Hx : is_byte x), gmul_byte k (inv_sbox x) (inv_sbox_byte x Hx)) as G.
  rewrite (table_sum (λ x, gmul 14 (inv_sbox x)) (λ x, gmul 9 (inv_sbox x)) (λ x, gmul 13 (inv_sbox x)) (λ x, gmul 11 (inv_sbox x))
    Td0 Td1 Td2 Td3 (G 14) (G 9) (G 13) (G 11) Td0_spec Td1_spec Td2_spec Td3_spec) by done.
  reflexivity.
Qed.

Lemma repeat_sum f T (Hf : ∀ x, is_byte x → is_byte (f x)) (HT : table_of f f f f T) a b c d :
  is_byte a → is_byte b → is_byte c → is_byte d →
  (tbl T a .& 0xff000000) .^ (tbl T b .& 0x00ff0000) .^ (tbl T c .& 0x0000ff00) .^ (tbl T d .& 0x000000ff) =
  word (f a) (f b) (f c) (f d).
Proof.
  intros Ha Hb Hc Hd. rewrite !HT by done.
  pose proof (λ x Hx, word_mask (f x) (f x) (f x) (f x) (Hf x Hx) (Hf x Hx) (Hf x Hx) (Hf x Hx)) as M.
  rewrite (proj1 (M a Ha)), (proj1 (proj2 (M b Hb))), (proj1 (proj2 (proj2 (M c Hc)))), (proj2 (proj2 (proj2 (M d Hd)))).
  rewrite !word_lxor by auto 10 with machine. by rewrite ?Z.lxor_0_l, ?Z.lxor_0_r.
Qed.

Lemma bytes4 a b c d : is_byte a → is_byte b → is_byte c → is_byte d → bytes [a; b; c; d].
Proof. intros. unfold bytes. by rewrite !Forall_cons. Qed.
Lemma sub_bytes_bytes st : bytes st → bytes (sub_bytes st).
Proof. induction 1; constructor; auto with machine. Qed.
Lemma inv_sub_bytes_bytes st : bytes st → bytes (inv_sub_bytes st).
Proof. induction 1; constructor; auto with machine. Qed.
#[export] Hint Resolve sub_bytes_bytes inv_sub_bytes_bytes bytes4 : machine.
Lemma mul_column_bytes m0 m1 m2 m3 col : bytes col → bytes (mul_column m0 m1 m2 m3 col).
Proof. intros. unfold mul_column. apply bytes4; auto 10 with machine. Qed.
Lemma mix_column_bytes col : bytes col → bytes (mix_column col).
Proof. apply mul_column_bytes. Qed.
Lemma inv_mix_column_bytes col : bytes col → bytes (inv_mix_column col).
Proof. apply mul_column_bytes. Qed.
#[export] Hint Resolve mul_column_bytes mix_column_bytes inv_mix_column_bytes : machine.

Lemma be_value_xor4 xs ys : length xs = 4%nat → length ys = 4%nat → bytes xs → bytes ys →
  be_value xs .^ be_value ys = be_value (xor_bytes xs ys).
Proof.
  intros Hx Hy Bx By.
  destruct xs as [|x0 [|x1 [|x2 [|x3 []]]]]; [done..| |done].
  destruct ys as [|y0 [|y1 [|y2 [|y3 []]]]]; [done..| |done].
  unfold bytes in *. rewrite !Forall_cons in *. destruct_and?. by apply word_lxor.
Qed.
Lemma be_bytes_value4 xs : length xs = 4%nat → bytes xs → be_bytes 4 (be_value xs) = xs.
Proof. intros <- Hb. by apply be_bytes_value. Qed.

(** A column of a round is four bytes of the reference, after the rotation of
    the rows. *)
Lemma column_bytes (sum : Z) (col : list Z) k : sum = be_value col → length col = 4%nat → bytes col → is_word k →
  be_bytes 4 (sum .^ k) = xor_bytes col (be_bytes 4 k).
Proof.
  intros -> Hl Hb Hk. word_bytes k Hk. rewrite be_bytes_word by done.
  rewrite <- (be_bytes_value4 (xor_bytes col _)).
  - f_equal. rewrite <- be_value_xor4; auto with machine.
  - by rewrite xor_bytes_length, Hl.
  - apply xor_bytes_bytes; auto with machine.
Qed.
Lemma column_word (sum : Z) (col : list Z) k : sum = be_value col → length col = 4%nat → bytes col → is_word k →
  is_word (sum .^ k).
Proof.
  intros -> Hl Hb Hk. apply lxor_word; [|done]. unfold is_word. pose proof (be_value_range col Hb) as R.
  by rewrite Hl in R.
Qed.

Lemma te_sum_bytes a b c d k : is_byte a → is_byte b → is_byte c → is_byte d → is_word k →
  be_bytes 4 (tbl Te0 a .^ tbl Te1 b .^ tbl Te2 c .^ tbl Te3 d .^ k) =
  xor_bytes (mix_column (sub_bytes [a; b; c; d])) (be_bytes 4 k).
Proof. intros. apply column_bytes; auto using te_sum with machine. Qed.
Lemma td_sum_bytes a b c d k : is_byte a → is_byte b → is_byte c → is_byte d → is_word k →
  be_bytes 4 (tbl Td0 a .^ tbl Td1 b .^ tbl Td2 c .^ tbl Td3 d .^ k) =
  xor_bytes (inv_mix_column (inv_sub_bytes [a; b; c; d])) (be_bytes 4 k).
Proof. intros. apply column_bytes; auto using td_sum with machine. Qed.
Lemma PUTU32_bytes w : is_word w → PUTU32 w = be_bytes 4 w.
Proof.
  intros Hw. word_bytes w Hw. unfold PUTU32. rewrite be_bytes_word by done.
  pose proof (word_u8s (a := a) (b := b) (c := c) (d := d)) as E. by destruct E as (-> & -> & -> & ->).
Qed.
(** The last round, written to the block. *)
Lemma last_sum_bytes f T a b c d k : (∀ x, is_byte x → is_byte (f x)) → table_of f f f f T →
  is_byte a → is_byte b → is_byte c → is_byte d → is_word k →
  PUTU32 ((tbl T a .& 0xff000000) .^ (tbl T b .& 0x00ff0000) .^ (tbl T c .& 0x0000ff00) .^ (tbl T d .& 0x000000ff) .^ k) =
  xor_bytes (map f [a; b; c; d]) (be_bytes 4 k).
Proof.
  intros Hf HT Ha Hb Hc Hd Hk. rewrite (repeat_sum f) by done. rewrite PUTU32_bytes.
  - apply column_bytes; [done..| |done]. apply bytes4; auto.
  - apply lxor_word; [|done]. apply word_range; auto.
Qed.

(** A state of four words, as its sixteen bytes. *)
Ltac state_cases s Hs :=
  let H0 := fresh in let H1 := fresh in let H2 := fresh in let H3 := fresh in
  destruct s as [[[?s0 ?s1] ?s2] ?s3]; destruct Hs as (H0 & H1 & H2 & H3);
  match type of H0 with is_word ?w => word_bytes w H0 end; match type of H1 with is_word ?w => word_bytes w H1 end;
  match type of H2 with is_word ?w => word_bytes w H2 end; match type of H3 with is_word ?w => word_bytes w H3 end.

Lemma xor_bytes_app a b k l : length a = length k → xor_bytes (a ++ b) (k ++ l) = xor_bytes a k ++ xor_bytes b l.
Proof. apply zip_with_app. Qed.

Lemma columns_key (f : list Z → list Z) a0 a1 a2 a3 b0 b1 b2 b3 c0 c1 c2 c3 d0 d1 d2 d3 ks :
  (∀ col, length (f col) = 4%nat) →
  add_round_key (columns f [a0; a1; a2; a3; b0; b1; b2; b3; c0; c1; c2; c3; d0; d1; d2; d3]) (state_bytes ks) =
  let '(k0, k1, k2, k3) := ks in
  xor_bytes (f [a0; a1; a2; a3]) (be_bytes 4 k0) ++ xor_bytes (f [b0; b1; b2; b3]) (be_bytes 4 k1) ++
  xor_bytes (f [c0; c1; c2; c3]) (be_bytes 4 k2) ++ xor_bytes (f [d0; d1; d2; d3]) (be_bytes 4 k3).
Proof.
  intros Hf. destruct ks as [[[k0 k1] k2] k3]. unfold add_round_key, columns, state_bytes. cbn [take drop].
  by rewrite !xor_bytes_app by (rewrite Hf; by rewrite be_bytes_length || done).
Qed.

Section rounds.
Context (rk : list Z) (Hrk : words rk).

Lemma te_round_words k s : words4 s → words4 (te_round rk k s).
Proof using Hrk.
  intros Hs. state_cases s Hs. cbn [te_round words4]. unfold te_column.
  rewrite ?word_byte0, ?word_byte1, ?word_byte2, ?word_byte3 by done.
  rewrite !te_sum by done. split_and!; (eapply column_word; [reflexivity|done|auto 10 with machine|auto with machine]).
Qed.
Lemma te_round_bytes k s : words4 s →
  state_bytes (te_round rk k s) =
  add_round_key (mix_columns (shift_rows (sub_bytes (state_bytes s)))) (key_bytes rk k).
Proof using Hrk.
  intros Hs. state_cases s Hs. cbn [te_round state_bytes]. unfold te_column.
  rewrite ?word_byte0, ?word_byte1, ?word_byte2, ?word_byte3 by done. rewrite !be_bytes_word by done.
  rewrite !te_sum_bytes by auto with machine.
  unfold key_bytes, key_words, mix_columns, shift_rows, permute, sub_bytes. cbn [map app nth].
  by rewrite columns_key.
Qed.

Lemma td_round_words k s : words4 s → words4 (td_round rk k s).
Proof using Hrk.
  intros Hs. state_cases s Hs. cbn [td_round words4]. unfold td_column.
  rewrite ?word_byte0, ?word_byte1, ?word_byte2, ?word_byte3 by done.
  rewrite !td_sum by done. split_and!; (eapply column_word; [reflexivity|done|auto 10 with machine|auto with machine]).
Qed.
Lemma td_round_bytes k s : words4 s →
  state_bytes (td_round rk k s) =
  add_round_key (inv_mix_columns (inv_sub_bytes (inv_shift_rows (state_bytes s)))) (key_bytes rk k).
Proof using Hrk.
  intros Hs. state_cases s Hs. cbn [td_round state_bytes]. unfold td_column.
  rewrite ?word_byte0, ?word_byte1, ?word_byte2, ?word_byte3 by done. rewrite !be_bytes_word by done.
  rewrite !td_sum_bytes by auto with machine.
  unfold key_bytes, key_words, inv_mix_columns, inv_shift_rows, permute, inv_sub_bytes. cbn [map app nth].
  by rewrite columns_key.
Qed.

End rounds.

(** ** Blocks *)

Definition block (b : list Z) : Prop := length b = 16%nat ∧ bytes b.
Definition rounds_ok (nr : nat) : Prop := nr = 10%nat ∨ nr = 12%nat ∨ nr = 14%nat.

(** A block, as its sixteen bytes. *)
Ltac block_cases b Hb :=
  let L := fresh in destruct Hb as [L Hb];
  do 16 (destruct b as [|? b]; [done|]); destruct b; [|done]; clear L; unfold bytes in Hb;
  rewrite !Forall_cons in Hb; destruct_and! Hb.

Lemma GETU32_word a b c d l : is_byte a → is_byte b → is_byte c → is_byte d → GETU32 (a :: b :: c :: d :: l) = word a b c d.
Proof. apply (word_lxors (a := a) (b := b)). Qed.

Lemma nth_drop_0 n k rk : nth k (drop n rk) 0 = nth (n + k) rk 0.
Proof. revert rk. induction n as [|n IH]; intros [|x rk]; cbn; auto; by destruct k. Qed.

Section blocks.
Context (rk : list Z) (Hrk : words rk).

Lemma map_block_words b : block b → words4 (map_block rk b).
Proof using Hrk.
  intros Hb. block_cases b Hb. unfold map_block. cbn [drop words4]. rewrite !GETU32_word by done.
  split_and!; auto with machine.
Qed.
Lemma map_block_bytes b : block b → state_bytes (map_block rk b) = add_round_key b (key_bytes rk 0).
Proof using Hrk.
  intros Hb. block_cases b Hb. unfold map_block. cbn [drop]. rewrite !GETU32_word by done.
  cbn [state_bytes]. unfold key_bytes, key_words. cbn [Nat.add state_bytes].
  assert (E : ∀ a b c d k, is_byte a → is_byte b → is_byte c → is_byte d → is_word k →
    be_bytes 4 (word a b c d .^ k) = xor_bytes [a; b; c; d] (be_bytes 4 k)) by (intros; apply column_bytes; auto with machine).
  rewrite !E by auto with machine. unfold add_round_key.
  rewrite <- !xor_bytes_app by (by rewrite be_bytes_length). done.
Qed.

Lemma te4_block t k : words4 t →
  (let '(t0, t1, t2, t3) := t in
   PUTU32 (te4_column t0 t1 t2 t3 (nth k rk 0)) ++ PUTU32 (te4_column t1 t2 t3 t0 (nth (k + 1) rk 0)) ++
   PUTU32 (te4_column t2 t3 t0 t1 (nth (k + 2) rk 0)) ++ PUTU32 (te4_column t3 t0 t1 t2 (nth (k + 3) rk 0))) =
  add_round_key (shift_rows (sub_bytes (state_bytes t))) (key_bytes rk k).
Proof using Hrk.
  intros Ht. state_cases t Ht. unfold te4_column, state_bytes.
  rewrite ?word_byte0, ?word_byte1, ?word_byte2, ?word_byte3, !be_bytes_word by done.
  rewrite !(last_sum_bytes sbox) by auto using Te4_spec with machine.
  rewrite <- !xor_bytes_app by (by rewrite be_bytes_length). done.
Qed.
Lemma td4_block t k : words4 t →
  (let '(t0, t1, t2, t3) := t in
   PUTU32 (td4_column t0 t3 t2 t1 (nth k rk 0)) ++ PUTU32 (td4_column t1 t0 t3 t2 (nth (k + 1) rk 0)) ++
   PUTU32 (td4_column t2 t1 t0 t3 (nth (k + 2) rk 0)) ++ PUTU32 (td4_column t3 t2 t1 t0 (nth (k + 3) rk 0))) =
  add_round_key (inv_sub_bytes (inv_shift_rows (state_bytes t))) (key_bytes rk k).
Proof using Hrk.
  intros Ht. state_cases t Ht. unfold td4_column, state_bytes.
  rewrite ?word_byte0, ?word_byte1, ?word_byte2, ?word_byte3, !be_bytes_word by done.
  rewrite !(last_sum_bytes inv_sbox) by auto using Td4_spec with machine.
  rewrite <- !xor_bytes_app by (by rewrite be_bytes_length). done.
Qed.

#[local] Hint Resolve te_round_words td_round_words map_block_words : machine.

Theorem ogs_aes_encrypt_cipher nr b : rounds_ok nr → block b →
  ogs_aes_encrypt rk nr b = cipher nr (λ r, key_bytes rk (4 * r)) b.
Proof using Hrk.
  intros Hnr Hb. unfold ogs_aes_encrypt, cipher. rewrite !nth_drop_0, Nat.add_0_r.
  rewrite <- map_block_bytes by done. pose proof (map_block_words b Hb) as W. revert W.
  generalize (map_block rk b). intros s W.
  destruct Hnr as [-> | [-> | ->]]; cbn [Nat.ltb Nat.leb Nat.sub seq foldl]; unfold round;
    rewrite te4_block by auto 20 with machine; rewrite !te_round_bytes by auto 20 with machine; reflexivity.
Qed.

(** The rounds of the decryption, with keys that are already transformed. *)
Definition eq_inv_round (st : list Z) (k : list Z) : list Z :=
  add_round_key (inv_mix_columns (inv_sub_bytes (inv_shift_rows st))) k.
Theorem ogs_aes_decrypt_rounds nr b : rounds_ok nr → block b →
  ogs_aes_decrypt rk nr b =
  add_round_key (inv_sub_bytes (inv_shift_rows
    (foldl eq_inv_round (add_round_key b (key_bytes rk 0)) (map (λ r, key_bytes rk (4 * r)) (seq 1 (nr - 1))))))
    (key_bytes rk (4 * nr)).
Proof using Hrk.
  intros Hnr Hb. unfold ogs_aes_decrypt. rewrite !nth_drop_0, Nat.add_0_r.
  rewrite <- map_block_bytes by done. pose proof (map_block_words b Hb) as W. revert W.
  generalize (map_block rk b). intros s W.
  destruct Hnr as [-> | [-> | ->]]; cbn [Nat.ltb Nat.leb Nat.sub seq foldl map]; unfold eq_inv_round;
    rewrite td4_block by auto 20 with machine; rewrite !td_round_bytes by auto 20 with machine; reflexivity.
Qed.
End blocks.
