(* ===== verification/AesSpec.v ===== *)
(** * The block cipher against FIPS 197

    The key schedules, and the theorems: the code computes AES for the three
    key lengths, and decryption inverts encryption. *)
From S2P Require Import Prelude XactBase Octets Words Aes AesRef AesRounds.
#[local] Open Scope Z_scope.
#[local] Open Scope c_scope.

(** ** Key expansion *)

#[local] Abbreviation B := (map (be_bytes 4)).

Lemma be_bytes_xor a b : is_word a → is_word b → be_bytes 4 (a .^ b) = xor_bytes (be_bytes 4 a) (be_bytes 4 b).
Proof.
  intros Ha Hb. word_bytes a Ha. rewrite (be_bytes_word (a := a0)) by done. apply column_bytes; auto with machine.
Qed.

Lemma te4_word_bytes w : is_word w → is_word (te4_word w) ∧ be_bytes 4 (te4_word w) = sub_bytes (be_bytes 4 w).
Proof.
  intros Hw. word_bytes w Hw. unfold te4_word. rewrite word_byte0, word_byte1, word_byte2, word_byte3 by done.
  rewrite (repeat_sum sbox) by auto using Te4_spec with machine. rewrite !be_bytes_word by auto with machine.
  split; [auto with machine|done].
Qed.
Lemma rcon_bytes i : (i < 10)%nat → is_word (nth i rcon 0) ∧ be_bytes 4 (nth i rcon 0) = rcon_word (i + 1).
Proof. intros Hi. do 10 (destruct i as [|i]; [by vm_compute|]). lia. Qed.
Lemma te4_rot_word_bytes w i : is_word w → (i < 10)%nat →
  is_word (te4_rot_word w i) ∧
  be_bytes 4 (te4_rot_word w i) = xor_bytes (sub_bytes (rot_word (be_bytes 4 w))) (rcon_word (i + 1)).
Proof.
  intros Hw Hi. destruct (rcon_bytes i Hi) as [Hr <-].
  word_bytes w Hw. unfold te4_rot_word. rewrite word_byte0, word_byte1, word_byte2, word_byte3 by done.
  rewrite (repeat_sum sbox) by auto using Te4_spec with machine.
  rewrite be_bytes_xor by auto with machine. rewrite !be_bytes_word by auto with machine.
  split; [auto with machine|done].
Qed.

(** A step of the reference on the last [nk] words. *)
Definition temp_word (nk i j : nat) (temp : list Z) : list Z :=
  if (j =? 0)%nat then xor_bytes (sub_bytes (rot_word temp)) (rcon_word (i + 1))
  else if (6 <? nk)%nat && (j =? 4)%nat then sub_bytes temp
  else temp.

Lemma expand_step nk n i j pre w0 win :
  length (w0 :: win) = nk → length pre = (nk * i + j)%nat → (j < nk)%nat →
  expand nk (S n) (pre ++ w0 :: win) =
  expand nk n ((pre ++ [w0]) ++ (win ++ [xor_bytes w0 (temp_word nk i j (nth (nk - 1) (w0 :: win) []))])).
Proof.
  intros Hwin Hpre Hj. unfold expand at 1. rewrite Nat.iter_succ_r. unfold expand. f_equal.
  rewrite <- !app_assoc. cbn [app]. do 2 f_equal. f_equal. unfold next_word. rewrite length_app, Hwin, Hpre.
  assert (Hmod : ((nk * i + j + nk) mod nk = j)%nat).
  { symmetry. apply (Nat.mod_unique _ _ (i + 1)); lia. }
  assert (Hdiv : ((nk * i + j + nk) / nk = i + 1)%nat).
  { symmetry. apply (Nat.div_unique _ _ _ j); lia. }
  rewrite Hmod, Hdiv. rewrite !app_nth2 by lia. rewrite Hpre.
  replace (nk * i + j + nk - nk - (nk * i + j))%nat with 0%nat by lia.
  replace (nk * i + j + nk - 1 - (nk * i + j))%nat with (nk - 1)%nat by lia. done.
Qed.
Lemma expand_add nk n m ws : expand nk (n + m) ws = expand nk m (expand nk n ws).
Proof. unfold expand. rewrite Nat.add_comm. apply Nat.iter_add. Qed.

(** What a turn that appends [m] round keys does. *)
Definition turn_ok (nk m : nat) (turn : list Z → nat → list Z) (i : nat) : Prop :=
  ∀ rk, words rk → length rk = (nk * (i + 1))%nat →
  words (turn rk i) ∧ length (turn rk i) = (length rk + m)%nat ∧ B (turn rk i) = expand nk m (B rk).

(** The last [nk] words of an array. *)
Lemma last_words (rk : list Z) nk i : length rk = (nk * (i + 1))%nat → ∃ pre win : list Z, rk = pre ++ win ∧ length pre = (nk * i)%nat ∧ length win = nk.
Proof.
  intros H. exists (take (nk * i) rk), (drop (nk * i) rk). rewrite take_drop, length_take, length_drop. split_and!; [done|lia..].
Qed.
Lemma nth_window (pre win : list Z) n k : length pre = n → nth (n + k) (pre ++ win) 0 = nth k win 0.
Proof. intros <-. rewrite app_nth2 by lia. f_equal. lia. Qed.

Ltac expand_step_at i j :=
  rewrite (expand_step _ _ i j);
    [cbn [app nth Nat.sub]|reflexivity|rewrite ?length_app, ?length_map; cbn [length]; lia|lia].
Ltac expand_steps i :=
  expand_step_at i 0%nat; expand_step_at i 1%nat; expand_step_at i 2%nat; expand_step_at i 3%nat;
  try (expand_step_at i 4%nat; expand_step_at i 5%nat);
  try (expand_step_at i 6%nat; expand_step_at i 7%nat);
  unfold expand; cbn [Nat.iter nat_rect]; unfold temp_word; cbn [Nat.eqb Nat.ltb Nat.leb andb].

(** The proof of a turn: [open_turn] names the words it reads, [close_turn]
    compares the words it appends with those of the reference. *)
Tactic Notation "open_turn" integer(n) hyp(Hi) :=
  match goal with |- turn_ok ?nk _ _ ?i =>
    let rk := fresh "rk" in let Hrk := fresh "Hrk" in let Hl := fresh "Hl" in
    intros rk Hrk Hl; destruct (last_words rk nk i Hl) as (pre & win & -> & Hpre & Hwin);
    do n (destruct win as [|? win]; [done|]); destruct win; [|done];
    unfold words in Hrk; rewrite Forall_app, !Forall_cons in Hrk; destruct_and! Hrk;
    rewrite ?(nth_window pre _ _ _ Hpre)
  end.
Ltac close_turn i :=
  split_and!;
  [ unfold words; rewrite !Forall_app, !Forall_cons; split_and!; auto 20 with machine
  | by rewrite length_app
  | rewrite !map_app; cbn [map]; expand_steps i; rewrite !be_bytes_xor by auto 20 with machine ].

Lemma turn_128_ok i : (i < 10)%nat → turn_ok 4 4 setup_turn_128 i.
Proof.
  intros Hi. open_turn 4 Hi. unfold setup_turn_128. rewrite !(nth_window pre _ _ _ Hpre). cbn [nth].
  destruct (te4_rot_word_bytes z2 i ltac:(done) Hi) as [Ht Et].
  close_turn i. rewrite Et. by rewrite <- !app_assoc.
Qed.
Lemma turn_192_ok i : (i < 7)%nat → turn_ok 6 6 setup_turn_192 i.
Proof.
  intros Hi. open_turn 6 Hi. unfold setup_turn_192. rewrite !(nth_window pre _ _ _ Hpre). cbn [nth].
  destruct (Nat.eqb_spec (S i) 8) as [|_]; [lia|].
  destruct (te4_rot_word_bytes z4 i ltac:(done) ltac:(lia)) as [Ht Et].
  close_turn i. rewrite Et. by rewrite <- !app_assoc.
Qed.
Lemma turn_192_last : turn_ok 6 4 setup_turn_192 7.
Proof.
  assert (Hi : (7 < 10)%nat) by lia. open_turn 6 Hi. unfold setup_turn_192. rewrite !(nth_window pre _ _ _ Hpre). cbn [nth Nat.eqb].
  destruct (te4_rot_word_bytes z4 7 ltac:(done) Hi) as [Ht Et].
  close_turn 7%nat. rewrite Et. by rewrite <- !app_assoc.
Qed.
Lemma turn_256_ok i : (i < 6)%nat → turn_ok 8 8 setup_turn_256 i.
Proof.
  intros Hi. open_turn 8 Hi. unfold setup_turn_256. rewrite !(nth_window pre _ _ _ Hpre). cbn [nth].
  destruct (Nat.eqb_spec (S i) 7) as [|_]; [lia|].
  destruct (te4_rot_word_bytes z6 i ltac:(done) ltac:(lia)) as [Ht Et].
  destruct (te4_word_bytes (z2 .^ (z1 .^ (z0 .^ (z .^ te4_rot_word z6 i))))) as [Hu Eu]; [by auto 10 with machine|].
  close_turn i. rewrite Eu, !be_bytes_xor, Et by auto 10 with machine. by rewrite <- !app_assoc.
Qed.
Lemma turn_256_last : turn_ok 8 4 setup_turn_256 6.
Proof.
  assert (Hi : (6 < 10)%nat) by lia. open_turn 8 Hi. unfold setup_turn_256. rewrite !(nth_window pre _ _ _ Hpre). cbn [nth Nat.eqb].
  destruct (te4_rot_word_bytes z6 6 ltac:(done) Hi) as [Ht Et].
  close_turn 6%nat. rewrite Et. by rewrite <- !app_assoc.
Qed.

Lemma fold_turns nk turn n rk : (∀ i, (i < n)%nat → turn_ok nk nk turn i) → words rk → length rk = nk →
  let r := foldl turn rk (seq 0 n) in
  words r ∧ length r = (nk * (n + 1))%nat ∧ B r = expand nk (nk * n) (B rk).
Proof.
  intros Hturn Hrk Hl. induction n as [|n IH]; cbn zeta; [by rewrite Nat.mul_0_r; split_and!; [|cbn; lia|]|].
  rewrite seq_S, foldl_app. cbn [foldl Nat.add].
  destruct IH as (Hw & Hlen & HB); [intros; apply Hturn; lia|].
  destruct (Hturn n ltac:(lia) _ Hw Hlen) as (Hw' & Hlen' & HB').
  split_and!; [done|rewrite Hlen', Hlen; lia|].
  by rewrite HB', HB, <- expand_add, <- Nat.mul_succ_r.
Qed.
(** The turns of a loop whose last one leaves early. *)
Lemma fold_turns_last nk m turn n rk : (∀ i, (i < n)%nat → turn_ok nk nk turn i) → turn_ok nk m turn n →
  words rk → length rk = nk →
  let r := foldl turn rk (seq 0 (S n)) in
  words r ∧ length r = (nk * (n + 1) + m)%nat ∧ B r = expand nk (nk * n + m) (B rk).
Proof.
  intros Hturn Hlast Hrk Hl. cbn zeta. rewrite seq_S, foldl_app. cbn [foldl Nat.add].
  destruct (fold_turns nk turn n rk) as (Hw & Hlen & HB); [done..|].
  destruct (Hlast _ Hw Hlen) as (Hw' & Hlen' & HB'). split_and!; [done|by rewrite Hlen', Hlen|].
  by rewrite HB', HB, <- expand_add.
Qed.

Lemma GETU32_bytes key : bytes key → (4 ≤ length key)%nat → is_word (GETU32 key) ∧ be_bytes 4 (GETU32 key) = take 4 key.
Proof.
  intros Hb Hl. do 4 (destruct key as [|? key]; [cbn in Hl; lia|]). unfold bytes in Hb. rewrite !Forall_cons in Hb.
  destruct_and! Hb. rewrite GETU32_word by done. split; [auto with machine|]. by apply be_bytes_word.
Qed.
Lemma key_window key k : bytes key → (k + 4 ≤ length key)%nat →
  is_word (GETU32 (drop k key)) ∧ be_bytes 4 (GETU32 (drop k key)) = take 4 (drop k key).
Proof. intros Hb Hl. apply GETU32_bytes; [by apply Forall_drop|rewrite length_drop; lia]. Qed.

Definition key_size (nk : nat) : Prop := nk = 4%nat ∨ nk = 6%nat ∨ nk = 8%nat.
Definition key_ok (nk : nat) (key : list Z) : Prop := key_size nk ∧ length key = (4 * nk)%nat ∧ bytes key.

(** The words of the key itself. *)
Fixpoint key_start (nk : nat) (key : list Z) : list Z :=
  match nk with O => [] | S nk => GETU32 key :: key_start nk (drop 4 key) end.
Lemma key_start_ok nk key : bytes key → length key = (4 * nk)%nat →
  words (key_start nk key) ∧ length (key_start nk key) = nk ∧ B (key_start nk key) = chunks nk 4 key.
Proof.
  revert key. induction nk as [|nk IH]; intros key Hb Hl; [by split_and!; [constructor| |]|]; cbn [key_start chunks map length].
  destruct (GETU32_bytes key Hb ltac:(lia)) as [Hw ->].
  destruct (IH (drop 4 key)) as (Hws & -> & ->); [by apply Forall_drop|rewrite length_drop; lia|].
  split_and!; [by constructor|done..].
Qed.
Lemma setup_enc_128 key : ogs_aes_setup_enc key 128 = (10%nat, foldl setup_turn_128 (key_start 4 key) (seq 0 10)).
Proof. unfold ogs_aes_setup_enc, key_start. by rewrite !drop_drop. Qed.
Lemma setup_enc_192 key : ogs_aes_setup_enc key 192 = (12%nat, foldl setup_turn_192 (key_start 6 key) (seq 0 8)).
Proof. unfold ogs_aes_setup_enc, key_start. by rewrite !drop_drop. Qed.
Lemma setup_enc_256 key : ogs_aes_setup_enc key 256 = (14%nat, foldl setup_turn_256 (key_start 8 key) (seq 0 7)).
Proof. unfold ogs_aes_setup_enc, key_start. by rewrite !drop_drop. Qed.

(** [ogs_aes_setup_enc] writes the key expansion. *)
Lemma setup_enc_keys nk key : key_ok nk key → ∃ rk,
  ogs_aes_setup_enc key (32 * Z.of_nat nk) = ((nk + 6)%nat, rk) ∧
  words rk ∧ length rk = (4 * (nk + 7))%nat ∧ B rk = key_expansion nk key.
Proof.
  intros (Hnk & Hl & Hb). destruct (key_start_ok nk key Hb Hl) as (Hw & Hn & HB). unfold key_expansion. rewrite <- HB.
  clear HB. destruct Hnk as [-> | [-> | ->]].
  - change (32 * Z.of_nat 4) with 128. rewrite setup_enc_128. eexists. split; [done|].
    apply (fold_turns 4 setup_turn_128 10); [apply turn_128_ok|done..].
  - change (32 * Z.of_nat 6) with 192. rewrite setup_enc_192. eexists. split; [done|].
    apply (fold_turns_last 6 4 setup_turn_192 7); [apply turn_192_ok|apply turn_192_last|done..].
  - change (32 * Z.of_nat 8) with 256. rewrite setup_enc_256. eexists. split; [done|].
    apply (fold_turns_last 8 4 setup_turn_256 6); [apply turn_256_ok|apply turn_256_last|done..].
Qed.

Lemma key_bytes_concat rk k : (k + 4 ≤ length rk)%nat → key_bytes rk k = concat (take 4 (drop k (B rk))).
Proof.
  intros H. unfold key_bytes, key_words.
  assert (E : ∀ j, nth (k + j) rk 0 = nth j (drop k rk) 0) by (intros; by rewrite nth_drop_0).
  rewrite <- (Nat.add_0_r k) at 1. rewrite !E. rewrite skipn_map.
  assert (Hl : (4 ≤ length (drop k rk))%nat) by (rewrite length_drop; lia). revert Hl. generalize (drop k rk). clear.
  intros l Hl. do 4 (destruct l as [|? l]; [cbn in Hl; lia|]). cbn [nth]. unfold state_bytes. cbn [map take concat].
  by rewrite app_nil_r.
Qed.
Lemma foldl_round_ext nr key key' st : (∀ r, (r ≤ nr)%nat → key r = key' r) →
  foldl (round key) st (seq 1 (nr - 1)) = foldl (round key') st (seq 1 (nr - 1)).
Proof.
  intros H. assert (Hs : ∀ r, r ∈ seq 1 (nr - 1) → (r ≤ nr)%nat) by (intros r Hr; apply elem_of_seq in Hr; lia).
  revert st Hs. generalize (seq 1 (nr - 1)). intros l. induction l as [|r l IH]; intros st Hs; cbn [foldl]; [done|].
  assert (round key st r = round key' st r) as ->; [unfold round; rewrite H by (apply Hs; by left); done|].
  apply IH. intros. apply Hs. by right.
Qed.
Lemma cipher_ext nr key key' b : (∀ r, (r ≤ nr)%nat → key r = key' r) → cipher nr key b = cipher nr key' b.
Proof. intros H. unfold cipher. by rewrite !H, (foldl_round_ext nr key key') by (done || lia). Qed.

Lemma key_size_rounds nk : key_size nk → rounds_ok (nk + 6).
Proof. unfold key_size, rounds_ok. lia. Qed.
Lemma key_bytes_round nk key rk r : length rk = (4 * (nk + 7))%nat → B rk = key_expansion nk key →
  (r ≤ nk + 6)%nat → key_bytes rk (4 * r) = round_key nk key r.
Proof. intros Hl HB Hr. unfold round_key. by rewrite key_bytes_concat, HB by lia. Qed.

(** ** Encryption *)

Theorem aes_encrypt_reference nk key b : key_ok nk key → block b →
  let '(nrounds, rk) := ogs_aes_setup_enc key (32 * Z.of_nat nk) in
  ogs_aes_encrypt rk nrounds b = aes_encrypt nk key b.
Proof.
  intros Hk Hb. destruct (setup_enc_keys nk key Hk) as (rk & -> & Hw & Hl & HB).
  rewrite ogs_aes_encrypt_cipher by (done || apply key_size_rounds, Hk).
  apply cipher_ext. intros r Hr. by apply key_bytes_round.
Qed.

(** ** Decryption *)

(** The schedule for decryption: the order inverted, and the inverse
    MixColumn transform applied to all round keys but the first and the last. *)
Definition dec_words (f : Z → Z) (n : nat) (rk : list Z) : list Z :=
  let dk := swap_loop n 0 (4 * n) rk in
  foldl (λ rk i, let p := (4 * i)%nat in
    alter f (p + 3)%nat (alter f (p + 2)%nat (alter f (p + 1)%nat (alter f p rk)))) dk (seq 1 (n - 1)).
Lemma setup_dec_eq key bits : ogs_aes_setup_dec key bits =
  let '(n, rk) := ogs_aes_setup_enc key bits in (n, dec_words inv_mix_word n rk).
Proof. done. Qed.

Lemma dec_words_key f n rk r : rounds_ok n → length rk = (4 * (n + 1))%nat → (r ≤ n)%nat →
  key_words (dec_words f n rk) (4 * r) =
  let '(w0, w1, w2, w3) := key_words rk (4 * (n - r)) in
  if (r =? 0)%nat || (r =? n)%nat then (w0, w1, w2, w3) else (f w0, f w1, f w2, f w3).
Proof.
  intros Hn Hl Hr. destruct Hn as [-> | [-> | ->]].
  - do 44 (destruct rk as [|? rk]; [done|]). destruct rk; [|done]. clear Hl.
    do 11 (destruct r as [|r]; [reflexivity|]). lia.
  - do 52 (destruct rk as [|? rk]; [done|]). destruct rk; [|done]. clear Hl.
    do 13 (destruct r as [|r]; [reflexivity|]). lia.
  - do 60 (destruct rk as [|? rk]; [done|]). destruct rk; [|done]. clear Hl.
    do 15 (destruct r as [|r]; [reflexivity|]). lia.
Qed.

(** The steps on blocks. *)
Lemma block_length b : block b → length b = 16%nat.
Proof. by intros []. Qed.
Lemma sub_bytes_block b : block b → block (sub_bytes b).
Proof. intros [Hl Hb]. split; [unfold sub_bytes, inv_sub_bytes; by rewrite length_map|auto with machine]. Qed.
Lemma inv_sub_bytes_block b : block b → block (inv_sub_bytes b).
Proof. intros [Hl Hb]. split; [unfold sub_bytes, inv_sub_bytes; by rewrite length_map|auto with machine]. Qed.
Lemma permute_block ix b : length ix = 16%nat → block b → block (permute ix b).
Proof.
  intros Hix [Hl Hb]. split; [unfold permute; by rewrite length_map|]. unfold permute. clear Hix.
  induction ix; constructor; auto with machine.
Qed.
Lemma add_round_key_block b k : block b → block k → block (add_round_key b k).
Proof.
  intros [Hl Hb] [Hl' Hb']. split; [unfold add_round_key; rewrite xor_bytes_length; lia|by apply xor_bytes_bytes].
Qed.
Lemma columns_block f b : (∀ col, length (f col) = 4%nat) → (∀ col, bytes col → bytes (f col)) → block b → block (columns f b).
Proof.
  intros Hl Hf [_ Hb]. split; [unfold columns; by rewrite !length_app, !Hl|].
  unfold columns, bytes in *. rewrite !Forall_app. split_and!; apply Hf; auto using Forall_take, Forall_drop.
Qed.
Lemma mix_columns_block b : block b → block (mix_columns b).
Proof. apply columns_block; [done|auto with machine]. Qed.
Lemma inv_mix_columns_block b : block b → block (inv_mix_columns b).
Proof. apply columns_block; [done|auto with machine]. Qed.
Lemma shift_rows_block b : block b → block (shift_rows b).
Proof. by apply permute_block. Qed.
Lemma inv_shift_rows_block b : block b → block (inv_shift_rows b).
Proof. by apply permute_block. Qed.
Create HintDb aes.
#[local] Hint Resolve sub_bytes_block inv_sub_bytes_block add_round_key_block mix_columns_block inv_mix_columns_block
  shift_rows_block inv_shift_rows_block : aes.

Lemma inv_sub_sub b : block b → inv_sub_bytes (sub_bytes b) = b.
Proof.
  intros [_ Hb]. unfold inv_sub_bytes, sub_bytes. rewrite map_map. rewrite <- (map_id b) at 2. apply map_ext_in.
  intros x Hx. apply inv_sbox_sbox. unfold bytes in Hb. rewrite List.Forall_forall in Hb. by apply Hb.
Qed.
Lemma sub_inv_sub b : block b → sub_bytes (inv_sub_bytes b) = b.
Proof.
  intros [_ Hb]. unfold inv_sub_bytes, sub_bytes. rewrite map_map. rewrite <- (map_id b) at 2. apply map_ext_in.
  intros x Hx. apply sbox_inv_sbox. unfold bytes in Hb. rewrite List.Forall_forall in Hb. by apply Hb.
Qed.
Lemma inv_shift_shift b : block b → inv_shift_rows (shift_rows b) = b.
Proof. intros Hb. by block_cases b Hb. Qed.
Lemma shift_inv_shift b : block b → shift_rows (inv_shift_rows b) = b.
Proof. intros Hb. by block_cases b Hb. Qed.
Lemma inv_sub_shift b : block b → inv_sub_bytes (inv_shift_rows (shift_rows (sub_bytes b))) = b.
Proof. intros. rewrite inv_shift_shift by auto with aes. by apply inv_sub_sub. Qed.
Lemma shift_sub_inv b : block b → shift_rows (sub_bytes (inv_sub_bytes (inv_shift_rows b))) = b.
Proof. intros. rewrite sub_inv_sub by auto with aes. by apply shift_inv_shift. Qed.
Lemma add_round_key_twice b k : block b → block k → add_round_key (add_round_key b k) k = b.
Proof. intros [Hl _] [Hl' _]. apply xor_bytes_twice. lia. Qed.

(** The columns are linear, and so their inverse is checked on single bytes. *)
Lemma mul_column_lxor m0 m1 m2 m3 x y : length x = 4%nat → length y = 4%nat → bytes x → bytes y →
  mul_column m0 m1 m2 m3 (xor_bytes x y) = xor_bytes (mul_column m0 m1 m2 m3 x) (mul_column m0 m1 m2 m3 y).
Proof.
  intros Hx Hy Bx By.
  destruct x as [|x0 [|x1 [|x2 [|x3 []]]]]; [done..| |done].
  destruct y as [|y0 [|y1 [|y2 [|y3 []]]]]; [done..| |done].
  unfold bytes in *. rewrite !Forall_cons in *. destruct_and!. unfold mul_column, xor_bytes. cbn [zip_with nth].
  rewrite !gmul_lxor by done.
  repeat match goal with |- context [gmul ?m ?z] => generalize (gmul m z); intros end.
  repeat (apply (f_equal2 cons); [xor_ac|]). done.
Qed.
Definition unit_columns (f : list Z → list Z) : bool :=
  all_bytes (λ x, bool_decide (f [x; 0; 0; 0] = [x; 0; 0; 0] ∧ f [0; x; 0; 0] = [0; x; 0; 0] ∧
                               f [0; 0; x; 0] = [0; 0; x; 0] ∧ f [0; 0; 0; x] = [0; 0; 0; x])).
Lemma units_id (f : list Z → list Z) a b c d :
  (∀ x y, length x = 4%nat → length y = 4%nat → bytes x → bytes y → f (xor_bytes x y) = xor_bytes (f x) (f y)) →
  unit_columns f = true → is_byte a → is_byte b → is_byte c → is_byte d → f [a; b; c; d] = [a; b; c; d].
Proof.
  intros Hf Hu Ha Hb Hc Hd. pose proof (λ x Hx, bool_decide_eq_true_1 _ (all_bytes_spec _ Hu x Hx)) as U.
  transitivity (f (xor_bytes (xor_bytes (xor_bytes [a; 0; 0; 0] [0; b; 0; 0]) [0; 0; c; 0]) [0; 0; 0; d])).
  - f_equal. cbn. by rewrite !Z.lxor_0_l, !Z.lxor_0_r.
  - rewrite !Hf by (done || apply bytes4; auto with machine).
    rewrite (proj1 (U a Ha)), (proj1 (proj2 (U b Hb))), (proj1 (proj2 (proj2 (U c Hc)))), (proj2 (proj2 (proj2 (U d Hd)))).
    cbn. by rewrite !Z.lxor_0_l, !Z.lxor_0_r.
Qed.
Lemma column_mix_inverse (f g : list Z → list Z) :
  (∀ x y, length x = 4%nat → length y = 4%nat → bytes x → bytes y → f (xor_bytes x y) = xor_bytes (f x) (f y)) →
  (∀ x y, length x = 4%nat → length y = 4%nat → bytes x → bytes y → g (xor_bytes x y) = xor_bytes (g x) (g y)) →
  (∀ x, length (f x) = 4%nat) → (∀ x, bytes x → bytes (f x)) → unit_columns (λ x, g (f x)) = true →
  ∀ b, block b → columns g (columns f b) = b.
Proof.
  intros Hf Hg Hlen Hb Hu b Bb. block_cases b Bb. unfold columns. cbn [take drop].
  assert (E : ∀ a b c d, is_byte a → is_byte b → is_byte c → is_byte d → ∃ p q r s,
    f [a; b; c; d] = [p; q; r; s] ∧ g [p; q; r; s] = [a; b; c; d]).
  { intros a b' c d Ha Hb' Hc Hd. pose proof (Hlen [a; b'; c; d]) as L.
    destruct (f [a; b'; c; d]) as [|p [|q [|r [|s []]]]] eqn:E; try done. exists p, q, r, s. split; [done|].
    rewrite <- E. apply (units_id (λ x, g (f x))); [|done..].
    intros x y Hx Hy Bx By. rewrite Hf by done. by apply Hg; auto. }
  repeat match goal with |- context [f [?x; ?y; ?z; ?w]] =>
    destruct (E x y z w) as (? & ? & ? & ? & -> & ?); [done..|] end.
  cbn [take drop app]. by repeat match goal with H : g _ = _ |- _ => rewrite H; clear H end.
Qed.
Lemma inv_mix_mix b : block b → inv_mix_columns (mix_columns b) = b.
Proof.
  apply (column_mix_inverse mix_column inv_mix_column); [apply mul_column_lxor..|done|auto with machine|vm_compute; reflexivity].
Qed.
Lemma mix_inv_mix b : block b → mix_columns (inv_mix_columns b) = b.
Proof.
  apply (column_mix_inverse inv_mix_column mix_column); [apply mul_column_lxor..|done|auto with machine|vm_compute; reflexivity].
Qed.
Lemma inv_mix_columns_key b k : block b → block k →
  inv_mix_columns (add_round_key b k) = add_round_key (inv_mix_columns b) (inv_mix_columns k).
Proof.
  intros Bb Bk. block_cases b Bb. block_cases k Bk. unfold inv_mix_columns, columns, add_round_key.
  rewrite !xor_bytes_app by done. cbn [take drop].
  by rewrite <- !(mul_column_lxor 14 9 13 11) by (done || by apply bytes4).
Qed.

(** The inverse cipher inverts the cipher, whatever the round keys are. *)
Section inverse.
Context (nr : nat) (key : nat → list Z) (Hkey : ∀ r, (r ≤ nr)%nat → block (key r)).

Lemma inv_rounds l b : (∀ r, r ∈ l → (r ≤ nr)%nat) → block b →
  foldl (inv_round key) (shift_rows (sub_bytes (foldl (round key) b l))) (rev l) = shift_rows (sub_bytes b) ∧
  block (foldl (round key) b l).
Proof using Hkey.
  intros Hl. induction l as [|r l IH] using rev_ind; intros Bb; [by cbn|].
  destruct IH as [IH Bl]; [intros; apply Hl; apply elem_of_app; by left|done|].
  assert (Br : block (key r)) by (apply Hkey, Hl, elem_of_app; right; by left).
  rewrite foldl_app, rev_unit. cbn [foldl]. split; [|unfold round; auto with aes].
  rewrite <- IH. f_equal. unfold inv_round. rewrite inv_sub_shift by (unfold round; auto with aes).
  unfold round. rewrite add_round_key_twice by auto with aes. by rewrite inv_mix_mix by auto with aes.
Qed.
Lemma inv_cipher_cipher b : block b → inv_cipher nr key (cipher nr key b) = b.
Proof using Hkey.
  intros Bb. unfold inv_cipher, cipher.
  assert (Hl : ∀ r, r ∈ seq 1 (nr - 1) → (r ≤ nr)%nat) by (intros r Hr; apply elem_of_seq in Hr; lia).
  assert (B0 : block (add_round_key b (key 0))) by (apply add_round_key_block; [done|apply Hkey; lia]).
  destruct (inv_rounds _ _ Hl B0) as [E Bl]. pose proof (Hkey nr (le_n _)).
  rewrite add_round_key_twice by auto with aes. rewrite E, inv_sub_shift by done.
  apply add_round_key_twice; [done|apply Hkey; lia].
Qed.
Lemma rounds_inv l b : (∀ r, r ∈ l → (r ≤ nr)%nat) → block b →
  foldl (round key) (inv_sub_bytes (inv_shift_rows (foldl (inv_round key) b (rev l)))) l = inv_sub_bytes (inv_shift_rows b) ∧
  block (foldl (inv_round key) b (rev l)).
Proof using Hkey.
  revert b. induction l as [|r l IH] using rev_ind; intros b Hl Bb; [by cbn|]. rewrite rev_unit. cbn [foldl].
  assert (Br : block (key r)) by (apply Hkey, Hl, elem_of_app; right; by left).
  destruct (IH (inv_round key b r)) as [E Bl]; [intros; apply Hl; apply elem_of_app; by left|unfold inv_round; auto with aes|].
  rewrite foldl_app. cbn [foldl]. rewrite E. split; [|done]. unfold round, inv_round.
  rewrite shift_sub_inv by auto with aes. rewrite mix_inv_mix by auto with aes. by rewrite add_round_key_twice by auto with aes.
Qed.
Lemma cipher_inv_cipher b : block b → cipher nr key (inv_cipher nr key b) = b.
Proof using Hkey.
  intros Bb. unfold inv_cipher, cipher.
  assert (Hl : ∀ r, r ∈ seq 1 (nr - 1) → (r ≤ nr)%nat) by (intros r Hr; apply elem_of_seq in Hr; lia).
  pose proof (Hkey nr (le_n _)). pose proof (Hkey 0%nat ltac:(lia)).
  destruct (rounds_inv _ (add_round_key b (key nr)) Hl) as [E Bl]; [auto with aes|].
  rewrite add_round_key_twice by auto with aes. rewrite E, shift_sub_inv by auto with aes. by apply add_round_key_twice.
Qed.
End inverse.

(** ** The decryption schedule *)

Lemma inv_mix_word_bytes w : is_word w →
  is_word (inv_mix_word w) ∧ be_bytes 4 (inv_mix_word w) = inv_mix_column (be_bytes 4 w).
Proof.
  intros Hw. word_bytes w Hw. unfold inv_mix_word. rewrite word_byte0, word_byte1, word_byte2, word_byte3 by done.
  rewrite !Te4_spec by done. rewrite !word_byte3 by auto with machine.
  rewrite td_sum by auto with machine. unfold inv_sub_bytes. cbn [map]. rewrite !inv_sbox_sbox by done.
  rewrite be_bytes_word by done. split; [|apply be_bytes_value4; auto with machine].
  rewrite <- (Z.lxor_0_r (be_value _)). eapply column_word; auto with machine. done.
Qed.
Lemma swap_words_words rk i j : words rk → words (swap_words rk i j).
Proof. intros H. unfold swap_words, words. apply Forall_insert; [apply Forall_insert; [done|]|]; by apply words_nth. Qed.
Lemma dec_words_words n rk : words rk → words (dec_words inv_mix_word n rk).
Proof.
  intros Hrk. unfold dec_words.
  assert (Hs : ∀ fuel i j rk, words rk → words (swap_loop fuel i j rk)).
  { induction fuel as [|fuel IH]; intros i j rk' H; cbn [swap_loop]; [done|]. destruct (i <? j)%nat; [|done]. apply IH.
    unfold swap_round_keys. by repeat apply swap_words_words. }
  apply (Hs n 0%nat (4 * n)%nat) in Hrk. revert Hrk. generalize (swap_loop n 0 (4 * n) rk).
  assert (Ha : ∀ p rk, words rk → words (alter inv_mix_word p rk)).
  { intros p rk' H. apply Forall_alter; [done|]. intros x _ Hx. by apply inv_mix_word_bytes. }
  induction (seq 1 (n - 1)) as [|i l IH]; intros dk Hdk; cbn [foldl]; [done|]. apply IH. by repeat apply Ha.
Qed.
Lemma inv_mix_state s : words4 s →
  state_bytes (let '(w0, w1, w2, w3) := s in (inv_mix_word w0, inv_mix_word w1, inv_mix_word w2, inv_mix_word w3)) =
  inv_mix_columns (state_bytes s).
Proof.
  destruct s as [[[w0 w1] w2] w3]. intros (H0 & H1 & H2 & H3). unfold state_bytes.
  rewrite !(λ w H, proj2 (inv_mix_word_bytes w H)) by done.
  word_bytes w0 H0. word_bytes w1 H1. word_bytes w2 H2. word_bytes w3 H3. by rewrite !be_bytes_word by done.
Qed.
Lemma key_words_words rk k : words rk → words4 (key_words rk k).
Proof. intros H. unfold key_words, words4. auto with machine. Qed.
Lemma state_bytes_block s : words4 s → block (state_bytes s).
Proof.
  destruct s as [[[w0 w1] w2] w3]. intros _. unfold state_bytes. split; [by rewrite !length_app, !be_bytes_length|].
  unfold bytes. rewrite !Forall_app. split_and!; apply be_bytes_bytes.
Qed.

Lemma dec_key_bytes n rk r : rounds_ok n → words rk → length rk = (4 * (n + 1))%nat → (r ≤ n)%nat →
  key_bytes (dec_words inv_mix_word n rk) (4 * r) =
  if (r =? 0)%nat || (r =? n)%nat then key_bytes rk (4 * (n - r)) else inv_mix_columns (key_bytes rk (4 * (n - r))).
Proof.
  intros Hn Hrk Hl Hr. unfold key_bytes at 1. rewrite dec_words_key by done.
  pose proof (key_words_words rk (4 * (n - r)) Hrk) as Hw. unfold key_bytes. rewrite <- inv_mix_state by done.
  destruct (key_words rk (4 * (n - r))) as [[[w0 w1] w2] w3]. by destruct (_ || _).
Qed.

Lemma inv_cipher_ext nr key key' b : (∀ r, (r ≤ nr)%nat → key r = key' r) → inv_cipher nr key b = inv_cipher nr key' b.
Proof.
  intros H. unfold inv_cipher. rewrite !H by lia.
  apply (f_equal (λ st, add_round_key (inv_sub_bytes (inv_shift_rows st)) (key' 0%nat))).
  assert (Hs : ∀ r, r ∈ rev (seq 1 (nr - 1)) → (r ≤ nr)%nat).
  { intros r Hr. rewrite list_elem_of_In, <- in_rev, <- list_elem_of_In in Hr. apply elem_of_seq in Hr. lia. }
  revert Hs. generalize (add_round_key b (key' nr)), (rev (seq 1 (nr - 1))). intros st l. revert st.
  induction l as [|r l IH]; intros st Hs; cbn [foldl]; [done|].
  assert (inv_round key st r = inv_round key' st r) as ->; [unfold inv_round; rewrite H by (apply Hs; by left); done|].
  apply IH. intros. apply Hs. by right.
Qed.

(** The equivalent inverse cipher of FIPS 197, 5.3.5. *)
Lemma eq_inv_rounds nr key l b : (∀ r, r ∈ l → (r ≤ nr)%nat) → (∀ r, (r ≤ nr)%nat → block (key r)) → block b →
  foldl eq_inv_round b (map (λ r, inv_mix_columns (key r)) l) = foldl (inv_round key) b l.
Proof.
  intros Hl Hk. revert b. induction l as [|r l IH]; intros b Bb; cbn [foldl map]; [done|].
  assert (Br : block (key r)) by (apply Hk, Hl; by left).
  assert (eq_inv_round b (inv_mix_columns (key r)) = inv_round key b r) as ->.
  { unfold eq_inv_round, inv_round. rewrite inv_mix_columns_key by auto with aes. done. }
  apply IH; [intros; apply Hl; by right|unfold inv_round; auto with aes].
Qed.

Lemma rev_rounds n : rounds_ok n → rev (seq 1 (n - 1)) = map (λ r, n - r)%nat (seq 1 (n - 1)).
Proof. by intros [-> | [-> | ->]]. Qed.

Lemma ogs_aes_decrypt_inv_cipher n rk b : rounds_ok n → words rk → length rk = (4 * (n + 1))%nat → block b →
  ogs_aes_decrypt (dec_words inv_mix_word n rk) n b = inv_cipher n (λ r, key_bytes rk (4 * r)) b.
Proof.
  intros Hn Hrk Hl Bb.
  rewrite ogs_aes_decrypt_rounds by (done || by apply dec_words_words).
  assert (HK : ∀ r, (r ≤ n)%nat → block (key_bytes rk (4 * r))) by (intros; apply state_bytes_block, key_words_words, Hrk).
  assert (H1 : (1 ≤ n)%nat) by (unfold rounds_ok in Hn; lia).
  unfold inv_cipher. rewrite (rev_rounds n Hn).
  rewrite <- (eq_inv_rounds n); [|intros r Hr; rewrite list_elem_of_In, in_map_iff in Hr; destruct Hr as (? & <- & ?); lia|done|].
  2: { apply add_round_key_block; [done|by apply HK]. }
  rewrite map_map. change 0%nat with (4 * 0)%nat at 1. rewrite !dec_key_bytes by (done || lia).
  rewrite Nat.sub_0_r, Nat.sub_diag. cbn [Nat.eqb orb]. rewrite Nat.eqb_refl, orb_true_r.
  apply (f_equal (λ ks, add_round_key (inv_sub_bytes (inv_shift_rows (foldl eq_inv_round _ ks))) _)).
  apply map_ext_in. intros r Hr. apply in_seq in Hr. rewrite dec_key_bytes by (done || lia).
  destruct (Nat.eqb_spec r 0); [lia|]. destruct (Nat.eqb_spec r n); [lia|]. done.
Qed.

(** Decryption computes the inverse cipher. *)
Lemma aes_decrypt_reference nk key b : key_ok nk key → block b →
  let '(nrounds, rk) := ogs_aes_setup_dec key (32 * Z.of_nat nk) in
  ogs_aes_decrypt rk nrounds b = aes_decrypt nk key b.
Proof.
  intros Hk Hb. rewrite setup_dec_eq. destruct (setup_enc_keys nk key Hk) as (rk & -> & Hw & Hl & HB).
  rewrite ogs_aes_decrypt_inv_cipher by (done || (apply key_size_rounds, Hk) || lia).
  apply inv_cipher_ext. intros r Hr. by apply key_bytes_round.
Qed.

Lemma round_key_block nk key r : key_ok nk key → (r ≤ nk + 6)%nat → block (round_key nk key r).
Proof.
  intros Hk Hr. destruct (setup_enc_keys nk key Hk) as (rk & _ & Hw & Hl & HB).
  rewrite <- (key_bytes_round nk key rk r) by done. apply state_bytes_block, key_words_words, Hw.
Qed.
Lemma seq_rounds nr r : r ∈ seq 1 (nr - 1) → (r ≤ nr)%nat.
Proof. intros Hr. apply elem_of_seq in Hr. lia. Qed.
Lemma aes_encrypt_block nk key b : key_ok nk key → block b → block (aes_encrypt nk key b).
Proof.
  intros Hk Hb. pose proof (λ r, round_key_block nk key r Hk) as HK. unfold aes_encrypt, cipher.
  apply add_round_key_block; [|by apply HK]. apply shift_rows_block, sub_bytes_block.
  apply (inv_rounds (nk + 6) (round_key nk key) HK); [intros; by apply seq_rounds|].
  apply add_round_key_block; [done|]. apply HK. lia.
Qed.
Lemma aes_decrypt_block nk key b : key_ok nk key → block b → block (aes_decrypt nk key b).
Proof.
  intros Hk Hb. pose proof (λ r, round_key_block nk key r Hk) as HK. unfold aes_decrypt, inv_cipher.
  apply add_round_key_block; [|apply HK; lia]. apply inv_sub_bytes_block, inv_shift_rows_block.
  apply (rounds_inv (nk + 6) (round_key nk key) HK); [intros; by apply seq_rounds|].
  apply add_round_key_block; [done|]. by apply HK.
Qed.

Lemma aes_decrypt_encrypt nk key b : key_ok nk key → block b → aes_decrypt nk key (aes_encrypt nk key b) = b.
Proof. intros Hk Hb. apply inv_cipher_cipher; [|done]. intros r. by apply round_key_block. Qed.
Lemma aes_encrypt_decrypt nk key b : key_ok nk key → block b → aes_encrypt nk key (aes_decrypt nk key b) = b.
Proof. intros Hk Hb. apply cipher_inv_cipher; [|done]. intros r. by apply round_key_block. Qed.

(** ** The theorems *)

(** C10: For keys of 128, 192 and 256 bits, [ogs_aes_setup_enc] with
    [ogs_aes_encrypt] - ten tables, unrolled rounds, a schedule written by
    three loops - is the cipher of FIPS 197 on every block, and
    [ogs_aes_setup_dec] with [ogs_aes_decrypt] is its inverse cipher. *)
Theorem ogs_aes_is_fips197 nk key b : key_ok nk key → block b →
  (let '(nrounds, rk) := ogs_aes_setup_enc key (32 * Z.of_nat nk) in
   nrounds = (nk + 6)%nat ∧ ogs_aes_encrypt rk nrounds b = aes_encrypt nk key b) ∧
  (let '(nrounds, rk) := ogs_aes_setup_dec key (32 * Z.of_nat nk) in
   nrounds = (nk + 6)%nat ∧ ogs_aes_decrypt rk nrounds b = aes_decrypt nk key b).
Proof.
  intros Hk Hb. pose proof (aes_encrypt_reference nk key b Hk Hb) as E. pose proof (aes_decrypt_reference nk key b Hk Hb) as D.
  rewrite setup_dec_eq in D |- *. destruct (setup_enc_keys nk key Hk) as (rk & EQ & _). rewrite EQ in *. done.
Qed.
Lemma ogs_aes_is_fips197_witness :
  (let '(nrounds, rk) := ogs_aes_setup_enc (seqZ 0 32) (32 * Z.of_nat 8) in
   nrounds = (8 + 6)%nat ∧ ogs_aes_encrypt rk nrounds (seqZ 100 16) = aes_encrypt 8 (seqZ 0 32) (seqZ 100 16)) ∧
  (let '(nrounds, rk) := ogs_aes_setup_dec (seqZ 0 32) (32 * Z.of_nat 8) in
   nrounds = (8 + 6)%nat ∧ ogs_aes_decrypt rk nrounds (seqZ 100 16) = aes_decrypt 8 (seqZ 0 32) (seqZ 100 16)).
Proof.
  apply ogs_aes_is_fips197.
  - split; [by right; right|]. split; [done|]. by apply (bool_decide_unpack _).
  - split; [done|]. by apply (bool_decide_unpack _).
Defined.

(** Decryption under the schedule for decryption inverts encryption under
    the schedule for encryption, and the other way round, for every key and
    every block. *)
Theorem ogs_aes_roundtrip nk key b : key_ok nk key → block b →
  let '(n, ek) := ogs_aes_setup_enc key (32 * Z.of_nat nk) in
  let '(n', dk) := ogs_aes_setup_dec key (32 * Z.of_nat nk) in
  ogs_aes_decrypt dk n' (ogs_aes_encrypt ek n b) = b ∧ ogs_aes_encrypt ek n (ogs_aes_decrypt dk n' b) = b.
Proof.
  intros Hk Hb. pose proof (λ b, aes_encrypt_reference nk key b Hk) as E. pose proof (λ b, aes_decrypt_reference nk key b Hk) as D.
  destruct (ogs_aes_setup_enc key _) as [n ek]. destruct (ogs_aes_setup_dec key _) as [n' dk].
  rewrite (E b), (D b), D, E by auto using aes_encrypt_block, aes_decrypt_block.
  by rewrite aes_decrypt_encrypt, aes_encrypt_decrypt.
Qed.
Lemma ogs_aes_roundtrip_witness :
  let '(n, ek) := ogs_aes_setup_enc (seqZ 7 24) (32 * Z.of_nat 6) in
  let '(n', dk) := ogs_aes_setup_dec (seqZ 7 24) (32 * Z.of_nat 6) in
  ogs_aes_decrypt dk n' (ogs_aes_encrypt ek n (seqZ 100 16)) = seqZ 100 16 ∧
  ogs_aes_encrypt ek n (ogs_aes_decrypt dk n' (seqZ 100 16)) = seqZ 100 16.
Proof.
  apply ogs_aes_roundtrip.
  - split; [by right; left|]. split; [done|]. by apply (bool_decide_unpack _).
  - split; [done|]. by apply (bool_decide_unpack _).
Defined.
