(* ===== verification/AesModes.v ===== *)
(** * The modes of AES: CBC, counter mode, CMAC

    [ogs_aes_cbc_encrypt], [ogs_aes_cbc_decrypt] and [ogs_aes_ctr128_encrypt]
    of lib/crypt/ogs-aes.c, and lib/crypt/ogs-aes-cmac.c.  A function returns
    [None] when an assertion fails or it reads outside of its input.  The
    buffers do not overlap, except that input and output may be the same
    where a flag says so. *)
From S2P Require Import Prelude XactBase Octets Words Aes.
#[local] Open Scope Z_scope.
#[local] Open Scope c_scope.

(** ** CBC *)

(** The loop over the blocks of the input, and the last block that is not
    full: what is written, and the last block written as the next vector. *)
Fixpoint cbc_encrypt_blocks (fuel : nat) (rk : list Z) (nrounds : nat) (iv inp : list Z) : list Z * list Z :=
  match fuel with
  | O => ([], iv)
  | S fuel =>
      if (OGS_AES_BLOCK_SIZE <=? length inp)%nat then
        let out := ogs_aes_encrypt rk nrounds (xor_bytes (take 16 inp) iv) in
        let '(rest, iv) := cbc_encrypt_blocks fuel rk nrounds out (drop 16 inp) in
        (out ++ rest, iv)
      else if (0 <? length inp)%nat then
        let out := ogs_aes_encrypt rk nrounds (xor_bytes inp iv ++ drop (length inp) iv) in
        (out, out)
      else ([], iv)
  end.

(** The return value, the vector, the output and its length. *)
Definition ogs_aes_cbc_encrypt (key : list Z) (keybits : Z) (ivec inp : list Z) (outlen : Z) :
    option (ogs_rv * list Z * list Z * Z) :=
  let inlen := zlen inp in
  if (keybits <? 128) || (inlen =? 0) then None
  else
    let len := u32 (((inlen - 1) / 16 + 1) * 16) in
    if outlen <? len then Some (OGS_ERROR, ivec, [], outlen)
    else
      let '(nrounds, rk) := ogs_aes_setup_enc key keybits in
      let '(out, iv) := cbc_encrypt_blocks (S (length inp)) rk nrounds ivec inp in
      Some (OGS_OK, iv, out, len).

(** Decryption into another buffer.  A last block that is not full would be
    read beyond the end of the input. *)
Fixpoint cbc_decrypt_blocks (fuel : nat) (rk : list Z) (nrounds : nat) (iv inp : list Z) : option (list Z * list Z) :=
  match fuel with
  | O => None
  | S fuel =>
      if (OGS_AES_BLOCK_SIZE <=? length inp)%nat then
        let out := xor_bytes (ogs_aes_decrypt rk nrounds (take 16 inp)) iv in
        match cbc_decrypt_blocks fuel rk nrounds (take 16 inp) (drop 16 inp) with
        | Some (rest, iv) => Some (out ++ rest, iv)
        | None => None
        end
      else if (0 <? length inp)%nat then None
      else Some ([], iv)
  end.
(** Decryption in place: [i] bytes of the buffer are decrypted; each block is
    saved in [tmp] before it is overwritten, and becomes the vector. *)
Fixpoint cbc_decrypt_in_place (fuel : nat) (rk : list Z) (nrounds : nat) (ivec buf : list Z) (i : nat) : option (list Z * list Z) :=
  match fuel with
  | O => None
  | S fuel =>
      let len := (length buf - i)%nat in
      if (OGS_AES_BLOCK_SIZE <=? len)%nat then
        let tmp := take 16 (drop i buf) in
        let out := xor_bytes (ogs_aes_decrypt rk nrounds tmp) ivec in
        cbc_decrypt_in_place fuel rk nrounds tmp (take i buf ++ out ++ drop (i + 16) buf) (i + 16)
      else if (0 <? len)%nat then None
      else Some (buf, ivec)
  end.

Definition ogs_aes_cbc_decrypt (in_place : bool) (key : list Z) (keybits : Z) (ivec inp : list Z) (outlen : Z) :
    option (ogs_rv * list Z * list Z * Z) :=
  let inlen := zlen inp in
  if (keybits <? 128) || (inlen =? 0) then None
  else if negb (inlen mod 16 =? 0) then Some (OGS_ERROR, ivec, [], outlen)
  else
    let '(nrounds, rk) := ogs_aes_setup_dec key keybits in
    match
      (if in_place then cbc_decrypt_in_place (S (length inp)) rk nrounds ivec inp 0
       else cbc_decrypt_blocks (S (length inp)) rk nrounds ivec inp)
    with
    | Some (out, iv) => Some (OGS_OK, iv, out, inlen)
    | None => None
    end.

(** ** Counter mode *)

(** The counter in big-endian order, from its last byte: [c] carries. *)
Fixpoint ctr128_inc_from (c : Z) (counter : list Z) : list Z * Z :=
  match counter with
  | [] => ([], c)
  | b :: counter =>
      let '(counter, c) := ctr128_inc_from c counter in
      let c := c + b in
      (u8 c :: counter, c >> 8)
  end.
Definition ctr128_inc (counter : list Z) : list Z := fst (ctr128_inc_from 1 counter).
(** On a little-endian host the increment of aligned words is not taken. *)
Definition ctr128_inc_aligned (counter : list Z) : list Z := ctr128_inc counter.

(** The loop over full blocks and the rest; the vector and the output. *)
Fixpoint ctr128_blocks (fuel : nat) (rk : list Z) (nrounds : nat) (ivec inp : list Z) : list Z * list Z :=
  match fuel with
  | O => (ivec, [])
  | S fuel =>
      if (16 <=? length inp)%nat then
        let ecount_buf := ogs_aes_encrypt rk nrounds ivec in
        let out := xor_bytes (take 16 inp) ecount_buf in
        let '(iv, rest) := ctr128_blocks fuel rk nrounds (ctr128_inc_aligned ivec) (drop 16 inp) in
        (iv, out ++ rest)
      else if (0 <? length inp)%nat then
        let ecount_buf := ogs_aes_encrypt rk nrounds ivec in
        (ctr128_inc_aligned ivec, xor_bytes inp ecount_buf)
      else (ivec, [])
  end.
Definition ogs_aes_ctr128_encrypt (key ivec inp : list Z) : option (ogs_rv * list Z * list Z) :=
  if (length inp =? 0)%nat then None
  else
    let '(nrounds, rk) := ogs_aes_setup_enc key 128 in
    let '(iv, out) := ctr128_blocks (S (length inp)) rk nrounds ivec inp in
    Some (OGS_OK, iv, out).

(** ** CMAC (RFC 4493) *)

Definition rb : list Z := replicate 15 0 ++ [0x87].
(** [x << 1] on 16 bytes. *)
Definition shift_left_1 (x : list Z) : list Z :=
  map (λ i, ((u8 (nth i x 0 << 1)) .& 0xfe) .| (if (nth (i + 1) x 0 .& 0x80) =? 0 then 0 else 1)) (seq 0 15) ++
  [(u8 (nth 15 x 0 << 1)) .& 0xfe].
Definition next_subkey (x : list Z) : list Z :=
  if (nth 0 x 0 .& 0x80) =? 0 then shift_left_1 x else xor_bytes (shift_left_1 x) rb.
Definition _generate_subkey (key : list Z) : list Z * list Z :=
  let '(nrounds, rk) := ogs_aes_setup_enc key 128 in
  let L := ogs_aes_encrypt rk nrounds (replicate 16 0) in
  let k1 := next_subkey L in
  let k2 := next_subkey k1 in
  (k1, k2).

(** The steps of the comment, with [n] and [bs] as the code computes them. *)
Definition ogs_aes_cmac_calculate (key msg : list Z) : list Z :=
  let len := zlen msg in
  let '(k1, k2) := _generate_subkey key in
  let n := u32 (len + 15) / 16 in
  let '(n, flag) := if n =? 0 then (1, false) else (n, len mod 16 =? 0) in
  let bs := (Z.to_nat (n - 1) * 16)%nat in
  let m_last :=
    if (flag : bool) then xor_bytes (take 16 (drop bs msg)) k1
    else
      let r := Z.to_nat (len mod 16) in
      xor_bytes (take r (drop bs msg) ++ [0x80] ++ replicate (15 - r) 0) k2 in
  let '(nrounds, rk) := ogs_aes_setup_enc key 128 in
  let x := foldl (λ x i, ogs_aes_encrypt rk nrounds (xor_bytes x (take 16 (drop (i * 16) msg))))
             (replicate 16 0) (seq 0 (Z.to_nat (n - 1))) in
  ogs_aes_encrypt rk nrounds (xor_bytes m_last x).

(** [OGS_OK] is 0. *)
Definition OGS_ERR_INVALID_CMAC : Z := -2.
Definition ogs_aes_cmac_verify (cmac key msg : list Z) : Z :=
  if bool_decide (ogs_aes_cmac_calculate key msg = cmac) then 0 else OGS_ERR_INVALID_CMAC.

(** The vectors of RFC 4493. *)
Example cmac_vectors :
  let key := be_bytes 16 0x2b7e151628aed2a6abf7158809cf4f3c in
  let msg := be_bytes 40 0x6bc1bee22e409f96e93d7e117393172aae2d8a571e03ac9c9eb76fac45af8e5130c81c46a35ce411 in
  ogs_aes_cmac_calculate key [] = be_bytes 16 0xbb1d6929e95937287fa37d129b756746 ∧
  ogs_aes_cmac_calculate key (take 16 msg) = be_bytes 16 0x070a16b46b4d4144f79bdd9dd04a287c ∧
  ogs_aes_cmac_calculate key msg = be_bytes 16 0xdfa66747de9ae63030ca32611497c827.
Proof. by vm_compute. Qed.
