(* ===== verification/AesModesSpec.v ===== *)
(** * The modes of AES, proved

    CBC decryption, into another buffer or in place, recovers what CBC
    encryption was given, up to the zeros that fill its last block; counter
    mode adds the stream of encrypted counters; CMAC is that of RFC 4493. *)
From S2P Require Import Prelude XactBase Octets Words Aes AesRef AesRounds AesSpec AesModes.
From Stdlib Require Import ZifyNat.
#[local] Open Scope Z_scope.
#[local] Open Scope c_scope.
#[local] Ltac Zify.zify_post_hook ::= Z.to_euclidean_division_equations.

(** The length in bytes of the blocks that [n] bytes take. *)
Definition ceil16 (n : nat) : nat := ((n + 15) / 16 * 16)%nat.
Definition padded (inp : list Z) : list Z := inp ++ replicate (ceil16 (length inp) - length inp) 0.

Lemma xor_bytes_block x y : block x → block y → block (xor_bytes x y).
Proof. apply add_round_key_block. Qed.
Lemma block_take l : bytes l → (16 ≤ length l)%nat → block (take 16 l).
Proof. intros Hb Hl. split; [rewrite length_take; lia|by apply Forall_take]. Qed.
Lemma xor_bytes_self_r x y : block x → block y → xor_bytes (xor_bytes x y) y = x.
Proof. apply add_round_key_twice. Qed.
#[local] Hint Resolve xor_bytes_block block_take : aes.

Lemma padded_full inp : (16 ≤ length inp)%nat → padded inp = take 16 inp ++ padded (drop 16 inp).
Proof.
  intros H. unfold padded. rewrite app_assoc, take_drop. do 2 f_equal. rewrite length_drop. unfold ceil16. lia.
Qed.
Lemma padded_nil : padded [] = [].
Proof. done. Qed.
Lemma padded_short inp : (0 < length inp < 16)%nat → bytes inp → block (padded inp).
Proof.
  intros H Hb. assert (E : ceil16 (length inp) = 16%nat) by (unfold ceil16; lia).
  split; unfold padded; rewrite E; [rewrite length_app, length_replicate; lia|].
  apply Forall_app. split; [done|]. by apply Forall_replicate.
Qed.
Lemma xor_bytes_zeros l : xor_bytes (replicate (length l) 0) l = l.
Proof. induction l as [|x l IH]; [done|]. cbn. f_equal. apply IH. Qed.
Lemma xor_padded inp iv : (0 < length inp < 16)%nat → length iv = 16%nat →
  xor_bytes (padded inp) iv = xor_bytes inp iv ++ drop (length inp) iv.
Proof.
  intros H Hiv. assert (E : ceil16 (length inp) = 16%nat) by (unfold ceil16; lia). unfold padded. rewrite E.
  rewrite <- (take_drop (length inp) iv) at 1. rewrite xor_bytes_app by (rewrite length_take; lia). f_equal.
  - unfold xor_bytes. rewrite <- (take_drop (length inp) iv) at 2. rewrite <- (app_nil_r inp) at 3.
    rewrite zip_with_app by (rewrite length_take; lia). by rewrite app_nil_r.
  - rewrite <- (xor_bytes_zeros (drop (length inp) iv)) at 2. by rewrite length_drop, Hiv.
Qed.

Section keyed.
(** A key of 128, 192 or 256 bits and its schedules. *)
Context (nk : nat) (key : list Z) (Hk : key_ok nk key).
#[local] Abbreviation E := (aes_encrypt nk key).
#[local] Abbreviation D := (aes_decrypt nk key).

Lemma E_block b : block b → block (E b).
Proof using Hk. by apply aes_encrypt_block. Qed.
#[local] Hint Resolve E_block : aes.

(** ** CBC *)

Context (n : nat) (ek dk : list Z).
Context (HE : ∀ b, block b → ogs_aes_encrypt ek n b = E b) (HD : ∀ b, block b → ogs_aes_decrypt dk n b = D b).

Lemma cbc_blocks_ok fuel iv inp : (length inp < fuel)%nat → block iv → bytes inp →
  let '(out, iv') := cbc_encrypt_blocks fuel ek n iv inp in
  length out = ceil16 (length inp) ∧ bytes out ∧ block iv' ∧
  ∀ fuel', (length out < fuel')%nat → cbc_decrypt_blocks fuel' dk n iv out = Some (padded inp, iv').
Proof using All.
  revert iv inp. induction fuel as [|fuel IH]; intros iv inp Hf Hiv Hb; [lia|]. cbn [cbc_encrypt_blocks].
  unfold OGS_AES_BLOCK_SIZE. destruct (Nat.leb_spec 16 (length inp)) as [Hl|Hl].
  - assert (Hblk : block (xor_bytes (take 16 inp) iv)) by auto with aes. rewrite HE by done.
    specialize (IH (E (xor_bytes (take 16 inp) iv)) (drop 16 inp) ltac:(rewrite length_drop; lia) ltac:(auto with aes)
      ltac:(by apply Forall_drop)).
    destruct (cbc_encrypt_blocks fuel _ _ _ _) as [rest iv']. destruct IH as (Hlen & Bout & Biv & IH).
    destruct (E_block _ Hblk) as [HlE BE].
    rewrite length_drop in Hlen.
    assert (Hlen' : length (E (xor_bytes (take 16 inp) iv) ++ rest) = ceil16 (length inp)).
    { rewrite length_app, HlE, Hlen. unfold ceil16. lia. }
    split_and!; [done|by apply Forall_app|done|].
    intros fuel' Hf'. destruct fuel' as [|fuel']; [lia|]. cbn [cbc_decrypt_blocks]. unfold OGS_AES_BLOCK_SIZE.
    rewrite (proj2 (Nat.leb_le _ _)) by (rewrite length_app; lia).
    rewrite take_app_length', drop_app_length' by done. rewrite HD by done.
    rewrite IH by (rewrite length_app in Hf'; lia).
    rewrite aes_decrypt_encrypt, xor_bytes_self_r by auto with aes. by rewrite (padded_full inp).
  - destruct (Nat.ltb_spec 0 (length inp)) as [Hp|Hp].
    + rewrite <- xor_padded by (by destruct Hiv). pose proof (padded_short inp ltac:(lia) Hb) as Hpad.
      assert (Hblk : block (xor_bytes (padded inp) iv)) by auto with aes. rewrite HE by done.
      destruct (E_block _ Hblk) as [HlE BE].
      split_and!; [rewrite HlE; unfold ceil16; lia|done|done|].
      intros fuel' Hf'. destruct fuel' as [|[|fuel']]; [lia..|]. cbn [cbc_decrypt_blocks]. unfold OGS_AES_BLOCK_SIZE.
      rewrite (proj2 (Nat.leb_le _ _)) by lia. rewrite (take_ge (E _)), (drop_ge (E _)), (HD (E _)) by (lia || by split). cbn [length Nat.leb Nat.ltb].
      by rewrite aes_decrypt_encrypt, xor_bytes_self_r, app_nil_r by auto with aes.
    + destruct inp; [|cbn in Hp; lia]. split_and!; [done|by constructor|done|].
      intros [|fuel'] Hf'; [cbn in Hf'; lia|done].
Qed.

(** In place, the buffer before [i] is decrypted. *)
Lemma cbc_in_place fuel iv buf i out iv' : (i ≤ length buf)%nat → (∀ b, length (ogs_aes_decrypt dk n b) = 16%nat) → length iv = 16%nat →
  cbc_decrypt_blocks fuel dk n iv (drop i buf) = Some (out, iv') →
  cbc_decrypt_in_place fuel dk n iv buf i = Some (take i buf ++ out, iv').
Proof using.
  intros Hi HlD. revert iv buf i out Hi. induction fuel as [|fuel IH]; intros iv buf i out Hi Hiv; [done|].
  cbn [cbc_decrypt_blocks cbc_decrypt_in_place]. rewrite length_drop.
  destruct (Nat.leb_spec OGS_AES_BLOCK_SIZE (length buf - i)) as [Hl|Hl]; unfold OGS_AES_BLOCK_SIZE in Hl.
  - destruct (cbc_decrypt_blocks _ _ _ _ _) as [[rest iv'']|] eqn:EQ; [|done]. intros [= <- <-].
    set (blk := xor_bytes _ iv). assert (Hblk : length blk = 16%nat) by (unfold blk; rewrite xor_bytes_length, HlD; lia).
    rewrite drop_drop in EQ.
    rewrite (IH _ _ (i + 16)%nat rest).
    + do 2 f_equal. rewrite app_assoc, take_app_le by (rewrite length_app, length_take; lia).
      rewrite take_ge by (rewrite length_app, length_take; lia). by rewrite <- app_assoc.
    + rewrite !length_app, length_take, length_drop. lia.
    + rewrite length_take, length_drop. lia.
    + rewrite app_assoc, drop_app_length' by (rewrite length_app, length_take; lia). done.
  - destruct (0 <? _)%nat eqn:Ez; [done|]. intros [= <- <-]. rewrite take_ge by lia. by rewrite app_nil_r.
Qed.
End keyed.

Lemma ogs_aes_decrypt_length rk n b : length (ogs_aes_decrypt rk n b) = 16%nat.
Proof. unfold ogs_aes_decrypt. by destruct (if (10 <? n)%nat then _ else _) as [[[t0 t1] t2] t3]. Qed.

(** CBC round trip: a non-empty message encrypted under any key and vector,
    into a buffer that is large enough, fills whole blocks; decrypting these
    under the same vector, into another buffer or in place, gives the message
    and the zeros that filled its last block.  Both leave the same vector, the
    last block of the cipher text, so that streams can be continued. *)
Theorem ogs_aes_cbc_roundtrip in_place nk key iv inp outlen outlen' :
  key_ok nk key → block iv → bytes inp → (0 < length inp)%nat → zlen inp < 2 ^ 32 - 16 →
  Z.of_nat (ceil16 (length inp)) ≤ outlen →
  ∃ out iv', ogs_aes_cbc_encrypt key (32 * Z.of_nat nk) iv inp outlen = Some (OGS_OK, iv', out, zlen out) ∧
    length out = ceil16 (length inp) ∧ bytes out ∧ block iv' ∧
    ogs_aes_cbc_decrypt in_place key (32 * Z.of_nat nk) iv out outlen' = Some (OGS_OK, iv', padded inp, zlen out).
Proof.
  intros Hk Hiv Hb Hp Hmax Hout.
  pose proof (λ b, aes_encrypt_reference nk key b Hk) as HE. pose proof (λ b, aes_decrypt_reference nk key b Hk) as HD.
  rewrite setup_dec_eq in HD. unfold ogs_aes_cbc_encrypt, ogs_aes_cbc_decrypt. rewrite setup_dec_eq.
  destruct (ogs_aes_setup_enc key _) as [n ek].
  pose proof (cbc_blocks_ok nk key Hk n ek (dec_words inv_mix_word n ek) HE HD (S (length inp)) iv inp ltac:(lia) Hiv Hb) as H.
  destruct (cbc_encrypt_blocks _ _ _ _ _) as [out iv']. destruct H as (Hl & Bout & Biv & Hdec).
  assert (Hnk : (32 * Z.of_nat nk <? 128) = false) by (destruct Hk as [Hk _]; unfold key_size in Hk; lia).
  assert (Hlen : u32 (((zlen inp - 1) / 16 + 1) * 16) = zlen out).
  { unfold u32, zlen. rewrite Hl. unfold zlen in Hmax. rewrite Z.mod_small; unfold ceil16; lia. }
  exists out, iv'. rewrite Hnk, Hlen.
  assert (Hi : (zlen inp =? 0) = false) by (unfold zlen; lia). rewrite Hi. cbn [orb].
  assert (Ho : (outlen <? zlen out) = false) by (unfold zlen; rewrite Hl; lia). rewrite Ho.
  split_and!; [done..|].
  assert (Ho' : (zlen out =? 0) = false) by (unfold zlen; rewrite Hl; unfold ceil16; lia). rewrite Ho'.
  assert (Hm : (zlen out mod 16 =? 0) = true) by (unfold zlen; rewrite Hl; unfold ceil16; lia). rewrite Hm. cbn [orb negb].
  specialize (Hdec (S (length out)) ltac:(lia)).
  destruct in_place; [|by rewrite Hdec].
  by rewrite (cbc_in_place _ _ _ _ _ 0 (padded inp) iv') by (lia || apply ogs_aes_decrypt_length || by destruct Hiv || done).
Qed.
Lemma ogs_aes_cbc_roundtrip_witness :
  ∃ out iv', ogs_aes_cbc_encrypt (seqZ 0 16) (32 * Z.of_nat 4) (seqZ 50 16) (seqZ 1 20) 32 = Some (OGS_OK, iv', out, zlen out) ∧
    length out = ceil16 20 ∧ bytes out ∧ block iv' ∧
    ogs_aes_cbc_decrypt true (seqZ 0 16) (32 * Z.of_nat 4) (seqZ 50 16) out 0 = Some (OGS_OK, iv', padded (seqZ 1 20), zlen out).
Proof.
  apply (ogs_aes_cbc_roundtrip true 4 (seqZ 0 16) (seqZ 50 16) (seqZ 1 20) 32 0).
  - split; [by left|]. split; [done|]. by apply (bool_decide_unpack _).
  - split; [done|]. by apply (bool_decide_unpack _).
  - by apply (bool_decide_unpack _).
  - vm_compute. lia.
  - by vm_compute.
  - by vm_compute.
Defined.

(** ** Counter mode *)

(** The stream of encrypted counters, [n] of them from [ctr]. *)
Definition ctr_stream (nk : nat) (key : list Z) (ctr : Z) (n : nat) : list Z :=
  concat (map (λ j, aes_encrypt nk key (be_bytes 16 (ctr + Z.of_nat j))) (seq 0 n)).

Lemma be_bytes_mod n x : be_bytes n (x mod 2 ^ (8 * Z.of_nat n)) = be_bytes n x.
Proof.
  rewrite <- be_value_bytes. pose proof (be_bytes_value (be_bytes n x) (be_bytes_bytes n x)) as H.
  by rewrite be_bytes_length in H.
Qed.
Lemma be_bytes_add n x k : be_bytes n (k * 2 ^ (8 * Z.of_nat n) + x) = be_bytes n x.
Proof. rewrite <- be_bytes_mod, Z.add_comm, Z_mod_plus_full. apply be_bytes_mod. Qed.

(** The increment of the counter. *)
Lemma ctr128_inc_from_ok c l : bytes l →
  ctr128_inc_from c l = (be_bytes (length l) (be_value l + c), (be_value l + c) / 2 ^ (8 * Z.of_nat (length l))).
Proof.
  induction 1 as [|b l Hb Hl IH]; cbn [ctr128_inc_from length]; [cbn; by rewrite Z.div_1_r|].
  rewrite IH, be_value_cons. cbn [be_bytes]. rewrite <- Z.add_assoc, be_bytes_add.
  assert (Hp : 0 < 2 ^ (8 * Z.of_nat (length l))) by (apply Z.pow_pos_nonneg; lia).
  rewrite Z.div_add_l by lia. unfold u8. change (2 ^ 8) with 256. rewrite (Z.add_comm b). f_equal.
  rewrite Z.shiftr_div_pow2 by lia. replace (8 * Z.of_nat (S (length l))) with (8 * Z.of_nat (length l) + 8) by lia.
  rewrite Z.pow_add_r, <- Z.div_div, Z.div_add_l by lia. f_equal. lia.
Qed.
Lemma ctr128_inc_ok c : ctr128_inc (be_bytes 16 c) = be_bytes 16 (c + 1).
Proof.
  unfold ctr128_inc. rewrite ctr128_inc_from_ok by apply be_bytes_bytes. cbn [fst]. rewrite be_bytes_length, be_value_bytes.
  rewrite <- be_bytes_mod, Zplus_mod_idemp_l. apply be_bytes_mod.
Qed.
Lemma be_bytes_block c : block (be_bytes 16 c).
Proof. split; [apply be_bytes_length|apply be_bytes_bytes]. Qed.

Lemma ctr_stream_S nk key ctr n :
  ctr_stream nk key ctr (S n) = aes_encrypt nk key (be_bytes 16 ctr) ++ ctr_stream nk key (ctr + 1) n.
Proof.
  unfold ctr_stream. cbn [seq map concat]. rewrite Z.add_0_r. f_equal. f_equal. rewrite <- seq_shift, map_map.
  apply map_ext. intros j. do 2 f_equal. lia.
Qed.
Lemma ctr_stream_length nk key ctr n : key_ok nk key → length (ctr_stream nk key ctr n) = (16 * n)%nat.
Proof.
  intros Hk. revert ctr. induction n as [|n IH]; intros ctr; [done|].
  rewrite ctr_stream_S, length_app, IH. destruct (aes_encrypt_block nk key _ Hk (be_bytes_block ctr)) as [-> _]. lia.
Qed.
Lemma xor_bytes_app_l a k l : (length a ≤ length k)%nat → xor_bytes a (k ++ l) = xor_bytes a k.
Proof.
  intros H. unfold xor_bytes. revert k H. induction a as [|x a IH]; intros [|y k] H; cbn in *; [done..|lia|].
  f_equal. apply IH. lia.
Qed.

Lemma ctr128_blocks_ok nk key n ek fuel c inp : key_ok nk key →
  (∀ b, block b → ogs_aes_encrypt ek n b = aes_encrypt nk key b) → (length inp < fuel)%nat →
  let blocks := ((length inp + 15) / 16)%nat in
  ctr128_blocks fuel ek n (be_bytes 16 c) inp =
  (be_bytes 16 (c + Z.of_nat blocks), xor_bytes inp (ctr_stream nk key c blocks)).
Proof.
  intros Hk HE. revert c inp. induction fuel as [|fuel IH]; intros c inp Hf; [lia|]. cbn zeta.
  cbn [ctr128_blocks]. unfold ctr128_inc_aligned. rewrite ctr128_inc_ok, HE by apply be_bytes_block.
  destruct (aes_encrypt_block nk key _ Hk (be_bytes_block c)) as [HlE _].
  destruct (Nat.leb_spec 16 (length inp)) as [Hl|Hl].
  - rewrite (IH (c + 1) (drop 16 inp)) by (rewrite length_drop; lia). rewrite length_drop.
    set (m := ((length inp - 16 + 15) / 16)%nat). replace ((length inp + 15) / 16)%nat with (S m) by (unfold m; lia).
    rewrite ctr_stream_S. f_equal; [f_equal; lia|].
    rewrite <- (take_drop 16 inp) at 3. rewrite xor_bytes_app; [done|]. rewrite length_take. lia.
  - destruct (Nat.ltb_spec 0 (length inp)) as [Hp|Hp].
    + replace ((length inp + 15) / 16)%nat with 1%nat by lia. rewrite ctr_stream_S, xor_bytes_app_l by lia. done.
    + destruct inp; [|cbn in Hp; lia]. cbn [length]. change ((0 + 15) / 16)%nat with 0%nat. by rewrite Z.add_0_r.
Qed.

(** [ogs_aes_ctr128_encrypt] under a 128-bit key. *)
Lemma ogs_aes_ctr128_stream key iv inp : key_ok 4 key → block iv → (0 < length inp)%nat →
  let blocks := ((length inp + 15) / 16)%nat in
  ogs_aes_ctr128_encrypt key iv inp =
  Some (OGS_OK, be_bytes 16 (be_value iv + Z.of_nat blocks), xor_bytes inp (ctr_stream 4 key (be_value iv) blocks)).
Proof.
  intros Hk [Hiv Biv] Hp. cbn zeta. unfold ogs_aes_ctr128_encrypt. destruct (Nat.eqb_spec (length inp) 0); [lia|].
  pose proof (λ b, aes_encrypt_reference 4 key b Hk) as HE. change (32 * Z.of_nat 4) with 128 in HE.
  destruct (ogs_aes_setup_enc key 128) as [nr ek].
  assert (iv = be_bytes 16 (be_value iv)) as Eiv by (rewrite <- Hiv; symmetry; by apply be_bytes_value).
  rewrite Eiv at 1. by rewrite (ctr128_blocks_ok 4 key) by (done || lia).
Qed.

(** ** CMAC *)

(** RFC 4493: doubling in the field of 2^128 elements, the two subkeys, and
    the chain over the message. *)
Definition dbl (x : Z) : Z := (2 * x) mod 2 ^ 128 .^ (if Z.testbit x 127 then 0x87 else 0).
Section reference.
Context (E : list Z → list Z).
Definition cmac_last (msg : list Z) : list Z :=
  let L := be_value (E (replicate 16 0)) in
  if (length msg =? 16)%nat then xor_bytes msg (be_bytes 16 (dbl L))
  else xor_bytes (msg ++ [0x80] ++ replicate (15 - length msg) 0) (be_bytes 16 (dbl (dbl L))).
Fixpoint cmac_chain (fuel : nat) (x msg : list Z) : list Z :=
  match fuel with
  | O => []
  | S fuel =>
      if (length msg <=? 16)%nat then E (xor_bytes (cmac_last msg) x)
      else cmac_chain fuel (E (xor_bytes x (take 16 msg))) (drop 16 msg)
  end.
Definition cmac (msg : list Z) : list Z := cmac_chain (S (length msg)) (replicate 16 0) msg.
End reference.

Fixpoint shl1 (l : list Z) : list Z :=
  match l with
  | [] => []
  | b :: l => (((u8 (b << 1)) .& 0xfe) .| (if (nth 0 l 0 .& 0x80) =? 0 then 0 else 1)) :: shl1 l
  end.
Lemma shl1_ok l : bytes l → shl1 l = be_bytes (length l) (2 * be_value l).
Proof.
  induction 1 as [|b l Hb Hl IH]; [done|]. cbn [shl1 length be_bytes]. rewrite IH, be_value_cons.
  set (P := 2 ^ (8 * Z.of_nat (length l))). assert (HP : 0 < P) by (apply Z.pow_pos_nonneg; lia).
  replace (2 * (b * P + be_value l)) with (2 * b * P + 2 * be_value l) by lia.
  unfold P at 2. rewrite be_bytes_add, Z.div_add_l by lia. f_equal. fold P.
  assert (Hc : (2 * be_value l) / P = if (nth 0 l 0 .& 0x80) =? 0 then 0 else 1).
  { destruct l as [|c l]; [done|]. cbn [nth]. inversion_clear Hl as [|? ? Hcb Hcl].
    pose proof (be_value_range l Hcl) as R. unfold P. rewrite be_value_cons. cbn [length].
    replace (8 * Z.of_nat (S (length l))) with (8 * Z.of_nat (length l) + 8) by lia. rewrite Z.pow_add_r by lia.
    set (Q := 2 ^ (8 * Z.of_nat (length l))) in *. rewrite <- Z.div_div by (try apply Z.pow_nonzero; lia).
    replace (2 * (c * Q + be_value l)) with (2 * c * Q + 2 * be_value l) by lia. rewrite Z.div_add_l by lia.
    assert (H2 : 0 ≤ 2 * be_value l / Q ≤ 1) by (split; [apply Z.div_pos; lia|apply Z.lt_succ_r, Z.div_lt_upper_bound; lia]).
    assert (Hm : (if (c .& 128) =? 0 then 0 else 1) = c / 128) by (clear -Hcb; by_bytes c Hcb).
    rewrite Hm. unfold is_byte in Hcb. change (2 ^ 8) with 256. lia. }
  rewrite Hc. assert (Hz : (if (nth 0 l 0 .& 128) =? 0 then 0 else 1) = 0 ∨ (if (nth 0 l 0 .& 128) =? 0 then 0 else 1) = 1)
    by (destruct (_ =? 0); auto).
  clear -Hb Hz. destruct Hz as [-> | ->]; by_bytes b Hb.
Qed.
Lemma shift_left_1_ok x : block x → shift_left_1 x = be_bytes 16 (2 * be_value x).
Proof.
  intros [Hl Hb]. rewrite <- Hl, <- shl1_ok by done. clear Hb.
  do 16 (destruct x as [|? x]; [done|]). destruct x; [|done]. unfold shift_left_1. cbn [map seq nth Nat.add app shl1].
  change (0 .& 128 =? 0) with true. cbn iota. by rewrite Z.lor_0_r.
Qed.
Lemma be_value_xor xs ys : length xs = length ys → bytes xs → bytes ys →
  be_value (xor_bytes xs ys) = be_value xs .^ be_value ys.
Proof.
  revert ys. induction xs as [|x xs IH]; intros [|y ys] Hl Hx Hy; try done.
  apply Forall_cons in Hx as [Hx Hxs]. apply Forall_cons in Hy as [Hy Hys]. cbn in Hl. cbn [xor_bytes zip_with].
  change (zip_with Z.lxor xs ys) with (xor_bytes xs ys). rewrite !be_value_cons, IH by (done || lia).
  rewrite xor_bytes_length. replace (min (length xs) (length ys)) with (length xs) by lia.
  replace (length ys) with (length xs) by lia. pose proof (be_value_range xs Hxs). pose proof (be_value_range ys Hys) as R.
  replace (length ys) with (length xs) in R by lia. by rewrite lxor_split by (done || lia).
Qed.
Lemma next_subkey_ok x : block x → next_subkey x = be_bytes 16 (dbl (be_value x)).
Proof.
  intros Hx. unfold next_subkey, dbl. rewrite shift_left_1_ok by done.
  assert (Hbit : ((nth 0 x 0 .& 0x80) =? 0) = negb (Z.testbit (be_value x) 127)).
  { destruct Hx as [Hl Hb]. destruct x as [|c x]; [done|]. apply Forall_cons in Hb as [Hc Hx]. cbn [nth] in *.
    rewrite be_value_cons. pose proof (be_value_range x Hx) as R. cbn in Hl. replace (length x) with 15%nat in * by lia.
    change (8 * Z.of_nat 15) with 120 in *.
    assert (HH : Z.testbit (c * 2 ^ 120 + be_value x) 127 = Z.testbit c 7).
    { change 127 with (7 + 120). rewrite <- Z.div_pow2_bits by lia. rewrite Z.div_add_l by lia.
      by rewrite Z.div_small, Z.add_0_r by lia. }
    rewrite HH. clear -Hc. assert (Hz : Z.b2z ((c .& 128) =? 0) = Z.b2z (negb (Z.testbit c 7))) by by_bytes c Hc.
    by apply Z.b2z_inj. }
  rewrite Hbit. destruct (Z.testbit _ 127); cbn [negb].
  - assert (Hr : block rb) by (split; [done|]; by apply (bool_decide_unpack _)).
    rewrite <- (be_bytes_value (xor_bytes _ rb)); [|apply xor_bytes_bytes; [apply be_bytes_bytes|apply Hr]].
    rewrite xor_bytes_length, be_bytes_length. rewrite be_value_xor; [|by rewrite be_bytes_length|apply be_bytes_bytes|apply Hr].
    rewrite be_value_bytes. done.
  - by rewrite Z.lxor_0_r, (be_bytes_mod 16).
Qed.

Lemma zeros_block : block (replicate 16 0).
Proof. split; [done|]. by apply (bool_decide_unpack _). Qed.

Section chain.
Context (E : list Z → list Z) (HE : ∀ b, block b → block (E b)).
Lemma cmac_chain_steps m : ∀ x msg, block x → bytes msg → (16 * m < length msg)%nat → (length msg ≤ 16 * (m + 1))%nat →
  ∀ fuel, (length msg < fuel)%nat →
  cmac_chain E fuel x msg =
  E (xor_bytes (cmac_last E (drop (16 * m) msg))
       (foldl (λ x i, E (xor_bytes x (take 16 (drop (i * 16) msg)))) x (seq 0 m))).
Proof using HE.
  induction m as [|m IH]; intros x msg Bx Hb Hl Hu [|fuel] Hf; try lia; cbn [cmac_chain].
  - rewrite (proj2 (Nat.leb_le _ _)) by lia. cbn [seq foldl]. by rewrite Nat.mul_0_r, drop_0.
  - rewrite (proj2 (Nat.leb_gt _ _)) by lia. cbn [seq foldl]. rewrite Nat.mul_0_l, drop_0.
    assert (Bx' : block (E (xor_bytes x (take 16 msg)))) by (apply HE, xor_bytes_block; [done|apply block_take; [done|lia]]).
    rewrite IH; try (rewrite length_drop; lia); [|done|by apply Forall_drop].
    rewrite drop_drop. replace (16 + 16 * m)%nat with (16 * S m)%nat by lia. do 2 f_equal.
    rewrite <- seq_shift.
    generalize (E (xor_bytes x (take 16 msg))). generalize (seq 0 m). clear.
    induction l as [|i l IH]; intros x; cbn [foldl map]; [done|]. rewrite drop_drop.
    replace (16 + i * 16)%nat with (S i * 16)%nat by lia. apply IH.
Qed.
Lemma cmac_loop_ok (F : list Z → list Z) (HF : ∀ b, block b → F b = E b) msg l x :
  block x → bytes msg → (∀ i, In i l → (i * 16 + 16 ≤ length msg)%nat) →
  let f (g : list Z → list Z) := foldl (λ x i, g (xor_bytes x (take 16 (drop (i * 16) msg)))) x l in
  f F = f E ∧ block (f E).
Proof using HE.
  intros Bx Hb. revert x Bx. induction l as [|i l IH]; intros x Bx Hi; cbn [foldl]; [done|].
  assert (Bi : block (xor_bytes x (take 16 (drop (i * 16) msg)))).
  { apply xor_bytes_block; [done|]. apply block_take; [by apply Forall_drop|]. rewrite length_drop.
    specialize (Hi i (or_introl eq_refl)). lia. }
  rewrite HF by done. apply IH; [by apply HE|]. intros j Hj. apply Hi. by right.
Qed.
End chain.

Section cmac_proof.
Context (key : list Z) (Hk : key_ok 4 key).
#[local] Abbreviation E := (aes_encrypt 4 key).

Lemma generate_subkey_ok :
  let L := be_value (E (replicate 16 0)) in _generate_subkey key = (be_bytes 16 (dbl L), be_bytes 16 (dbl (dbl L))).
Proof using Hk.
  unfold _generate_subkey. pose proof (aes_encrypt_reference 4 key (replicate 16 0) Hk zeros_block) as HE.
  change (32 * Z.of_nat 4) with 128 in HE. destruct (ogs_aes_setup_enc key 128) as [n ek]. cbn zeta. rewrite HE.
  rewrite next_subkey_ok by (apply aes_encrypt_block; [done|apply zeros_block]). f_equal.
  rewrite next_subkey_ok by apply be_bytes_block. rewrite be_value_bytes. do 2 f_equal.
  apply Z.mod_small. change (8 * Z.of_nat 16) with 128. unfold dbl. apply lxor_range; [lia|apply Z.mod_pos_bound; lia|].
  by destruct (Z.testbit _ _).
Qed.

(** The code indexes the message, RFC 4493 walks along it. *)
Lemma cmac_calculate_ok msg : bytes msg → zlen msg < 2 ^ 31 → ogs_aes_cmac_calculate key msg = cmac E msg.
Proof using Hk.
  intros Hb Hmax. unfold ogs_aes_cmac_calculate. rewrite generate_subkey_ok.
  pose proof (λ b, aes_encrypt_reference 4 key b Hk) as HE. change (32 * Z.of_nat 4) with 128 in HE.
  destruct (ogs_aes_setup_enc key 128) as [nr ek]. set (L := be_value (E (replicate 16 0))).
  set (m := ((length msg - 1) / 16)%nat).
  assert (Hn : u32 (zlen msg + 15) / 16 = if (length msg =? 0)%nat then 0 else Z.of_nat m + 1).
  { unfold u32, zlen in *. rewrite Z.mod_small by lia. unfold m. destruct (Nat.eqb_spec (length msg) 0); lia. }
  assert (HE' : ∀ b, block b → block (E b)) by (intros; by apply aes_encrypt_block).
  destruct (cmac_loop_ok E HE' (ogs_aes_encrypt ek nr) HE msg (seq 0 m) (replicate 16 0) zeros_block Hb) as [Hloop Bloop].
  { intros i Hi. apply in_seq in Hi. unfold m in Hi. lia. }
  assert (Hflag : (if (if (length msg =? 0)%nat then 0 else Z.of_nat m + 1) =? 0 then (1, false)
      else (if (length msg =? 0)%nat then 0 else Z.of_nat m + 1, zlen msg mod 16 =? 0)) =
      (Z.of_nat m + 1, (length (drop (16 * m) msg) =? 16)%nat)).
  { rewrite length_drop. unfold m, zlen in *. destruct (Nat.eqb_spec (length msg) 0) as [H0|H0].
    - rewrite H0. done.
    - destruct (Z.eqb_spec (Z.of_nat ((length msg - 1) / 16) + 1) 0); [lia|]. f_equal.
      destruct (Z.eqb_spec (Z.of_nat (length msg) mod 16) 0), (Nat.eqb_spec (length msg - 16 * ((length msg - 1) / 16)) 16); lia. }
  rewrite Hn, Hflag. replace (Z.to_nat (Z.of_nat m + 1 - 1)) with m by lia. rewrite Hloop.
  assert (Hmsg : (16 * m < length msg)%nat ∧ (length msg ≤ 16 * (m + 1))%nat ∨ msg = []).
  { destruct msg as [|? msg]; [by right|left]. unfold m. cbn [length]. lia. }
  assert (Hc : cmac E msg = E (xor_bytes (cmac_last E (drop (16 * m) msg))
      (foldl (λ x i, E (xor_bytes x (take 16 (drop (i * 16) msg)))) (replicate 16 0) (seq 0 m)))).
  { destruct Hmsg as [[H1 H2] | ->]; [|reflexivity]. unfold cmac.
    apply (cmac_chain_steps E HE' m); [apply zeros_block|done..|lia]. }
  rewrite Hc. replace (m * 16)%nat with (16 * m)%nat by lia.
  assert (Hlen : (length (drop (16 * m) msg) ≤ 16)%nat) by (rewrite length_drop; unfold m; lia).
  assert (Hr : (length (drop (16 * m) msg) ≠ 16)%nat → Z.to_nat (zlen msg mod 16) = length (drop (16 * m) msg)).
  { rewrite length_drop. unfold m, zlen. lia. }
  assert (Blast : block (cmac_last E (drop (16 * m) msg))).
  { unfold cmac_last. destruct (Nat.eqb_spec (length (drop (16 * m) msg)) 16) as [He|He].
    - apply xor_bytes_block; [split; [done|by apply Forall_drop]|apply be_bytes_block].
    - apply xor_bytes_block; [split|apply be_bytes_block]; [rewrite !length_app, length_replicate; cbn [length]; lia|].
      repeat (apply Forall_app; split); [by apply Forall_drop|by repeat constructor|by apply Forall_replicate]. }
  rewrite HE.
  - f_equal. f_equal. unfold cmac_last. fold L. destruct (Nat.eqb_spec (length (drop (16 * m) msg)) 16) as [He|He].
    + by rewrite take_ge by lia.
    + rewrite (Hr He). rewrite take_ge by lia. done.
  - apply xor_bytes_block; [|done]. revert Blast. unfold cmac_last. fold L.
    destruct (Nat.eqb_spec (length (drop (16 * m) msg)) 16) as [He|He]; [by rewrite take_ge by lia|].
    rewrite (Hr He). by rewrite take_ge by lia.
Qed.
End cmac_proof.

(** [ogs_aes_cmac_calculate] - subkeys shifted byte by byte, the message
    indexed by block numbers - is AES-CMAC as RFC 4493 defines it, with AES of
    FIPS 197, for every 128-bit key and every message; [ogs_aes_cmac_verify]
    accepts exactly the code that it calculates. *)
Theorem ogs_aes_cmac_is_rfc4493 key msg code : key_ok 4 key → bytes msg → zlen msg < 2 ^ 31 →
  ogs_aes_cmac_calculate key msg = cmac (aes_encrypt 4 key) msg ∧
  (ogs_aes_cmac_verify code key msg = 0 ↔ code = cmac (aes_encrypt 4 key) msg).
Proof.
  intros Hk Hb Hl. rewrite cmac_calculate_ok by done. split; [done|]. unfold ogs_aes_cmac_verify.
  rewrite cmac_calculate_ok by done. case_bool_decide as Hd; [by rewrite Hd|].
  split; [done|]. intros ->. done.
Qed.
Lemma ogs_aes_cmac_is_rfc4493_witness :
  ogs_aes_cmac_calculate (seqZ 0 16) (seqZ 1 40) = cmac (aes_encrypt 4 (seqZ 0 16)) (seqZ 1 40) ∧
  (ogs_aes_cmac_verify [] (seqZ 0 16) (seqZ 1 40) = 0 ↔ [] = cmac (aes_encrypt 4 (seqZ 0 16)) (seqZ 1 40)).
Proof.
  apply ogs_aes_cmac_is_rfc4493.
  - split; [by left|]. split; [done|]. by apply (bool_decide_unpack _).
  - by apply (bool_decide_unpack _).
  - by vm_compute.
Defined.
