(* ===== verification/Milenage.v ===== *)
(** * Authentication and key agreement: Milenage (lib/crypt/milenage.c)

    The functions f1 to f5 of 3GPP TS 35.206 over AES-128, what the network
    makes of them for a challenge, and what the other side does with it.
    Outputs whose pointer may be NULL are always returned here; a caller that
    passes NULL takes no notice of them.  The block cipher never fails. *)
From S2P Require Import Prelude XactBase Octets Words Aes.
#[local] Open Scope Z_scope.
#[local] Open Scope c_scope.

Definition aes_128_encrypt_block (key inp : list Z) : list Z :=
  let '(nrounds, rk) := ogs_aes_setup_enc key 128 in
  ogs_aes_encrypt rk nrounds inp.

(** ** Rotation *)

(** [bits_shift]: the bytes [dst] of [src] moved by [8 - bit_valid] bits; the
    bytes of [dst] that are not written keep their values.  Its results (a
    pointer and a number of bits) are not used. *)
Definition bits_shift (bit_valid : Z) (dst src : list Z) (numBits : Z) : list Z :=
  let bit_used := bit_valid in
  let bit_empty := u32 (8 - bit_used) in
  let numBytes := Z.to_nat (numBits >> 3) in
  let leftBits := numBits .& 0x7 in
  let s i := nth i src 0 in
  let dst := foldl (λ dst i, <[i := u8 ((s i << bit_empty) .| (s (i + 1)%nat >> bit_used))]> dst) dst (seq 0 numBytes) in
  if leftBits =? 0 then dst
  else if leftBits =? bit_used then <[numBytes := u8 (s numBytes << bit_empty)]> dst
  else if leftBits <? bit_used then <[numBytes := u8 (s numBytes << bit_empty)]> dst
  else <[numBytes := u8 ((s numBytes << bit_empty) .| (s (numBytes + 1)%nat >> bit_used))]> dst.

(** [rijndaelInput[(i+deltlen) % 16] = temp[i] ^ opc[i]] for all [i]. *)
Definition rotate_bytes (deltlen : Z) (temp opc dst : list Z) : list Z :=
  foldl (λ dst i, <[Z.to_nat (u32 (Z.of_nat i + deltlen) mod 16) := nth i temp 0 .^ nth i opc 0]> dst) dst (seq 0 16).

(** The output before the call plays no role. *)
Definition ShiftBits (r : Z) (rijndaelInput temp opc : list Z) : list Z :=
  let deltlen := u32 (16 - r / 8) in
  let leftout := r mod 8 in
  if leftout =? 0 then rotate_bytes deltlen temp opc rijndaelInput
  else
    let temp1 := rotate_bytes deltlen temp opc (replicate 16 0) in
    let dst := <[15%nat := 0]> rijndaelInput in
    let move_bits := u32 (8 - leftout) in
    let dst := bits_shift move_bits dst temp1 (u32 (128 - leftout)) in
    let temp2 := nth 0 temp1 0 >> (8 - leftout) in
    <[15%nat := nth 15 dst 0 .| temp2]> dst.

(** [tmp1[15] ^= c]. *)
Definition xor_last (c : Z) (tmp : list Z) : list Z := alter (λ b, b .^ c) 15%nat tmp.

(** ** The functions *)

Definition milenage_f1 (opc k _rand sqn amf : list Z) : list Z * list Z :=
  let tmp1 := aes_128_encrypt_block k (xor_bytes _rand opc) in
  let tmp2 := take 6 sqn ++ take 2 amf in
  let tmp2 := tmp2 ++ tmp2 in
  let tmp3 := ShiftBits 64 (replicate 16 0) tmp2 opc in
  let tmp3 := xor_bytes tmp3 tmp1 in
  let tmp1 := xor_bytes (aes_128_encrypt_block k tmp3) opc in
  (take 8 tmp1, take 8 (drop 8 tmp1)).

(** The outputs of [milenage_f2345]. *)
Record f2345 := F2345 { f_res : list Z; f_ck : list Z; f_ik : list Z; f_ak : list Z; f_akstar : list Z }.

Definition milenage_f2345 (opc k _rand : list Z) : f2345 :=
  let tmp2 := aes_128_encrypt_block k (xor_bytes _rand opc) in
  let tmp1 := xor_last 1 (ShiftBits 0 (replicate 16 0) tmp2 opc) in
  let tmp3 := xor_bytes (aes_128_encrypt_block k tmp1) opc in
  let res := take 8 (drop 8 tmp3) in
  let ak := take 6 tmp3 in
  let tmp1 := xor_last 2 (ShiftBits 32 tmp1 tmp2 opc) in
  let ck := xor_bytes (aes_128_encrypt_block k tmp1) opc in
  let tmp1 := xor_last 4 (ShiftBits 64 tmp1 tmp2 opc) in
  let ik := xor_bytes (aes_128_encrypt_block k tmp1) opc in
  let tmp1 := xor_last 8 (ShiftBits 96 tmp1 tmp2 opc) in
  let tmp1 := aes_128_encrypt_block k tmp1 in
  let akstar := xor_bytes (take 6 tmp1) opc in
  F2345 res ck ik ak akstar.

(** ** The network *)

(** The vector for a challenge: [autn], [ik], [ck], [ak], [res] and its
    length; nothing but a length of 0 when the buffer for [res] is short. *)
Definition milenage_generate (opc amf k sqn _rand : list Z) (res_len : Z) :
    option (list Z * list Z * list Z * list Z * list Z) * Z :=
  if res_len <? 8 then (None, 0)
  else
    let '(mac_a, _) := milenage_f1 opc k _rand sqn amf in
    let f := milenage_f2345 opc k _rand in
    let autn := xor_bytes (take 6 sqn) (f_ak f) ++ take 2 amf ++ mac_a in
    (Some (autn, f_ik f, f_ck f, f_ak f, f_res f), 8).

(** The sequence number of a resynchronisation token, and the return value. *)
Definition milenage_auts (opc k _rand auts : list Z) : Z * list Z :=
  let amf := [0; 0] in
  let ak := f_akstar (milenage_f2345 opc k _rand) in
  let sqn := xor_bytes (take 6 auts) ak in
  let '(_, mac_s) := milenage_f1 opc k _rand sqn amf in
  if bool_decide (mac_s = take 8 (drop 6 auts)) then (0, sqn) else (-1, sqn).

(** [ogs_auc_sqn] (lib/crypt/ogs-kdf.c): the sequence number and the code that
    the caller compares with the received one. *)
Definition ogs_auc_sqn (opc k rand conc_sqn_ms : list Z) : list Z * list Z :=
  let ak := f_akstar (milenage_f2345 opc k rand) in
  let sqn_ms := xor_bytes ak (take 6 conc_sqn_ms) in
  let '(_, mac_s) := milenage_f1 opc k rand sqn_ms [0; 0] in
  (sqn_ms, mac_s).

Definition gsm_milenage (opc k _rand : list Z) : list Z * list Z :=
  let f := milenage_f2345 opc k _rand in
  let kc := map (λ i, nth i (f_ck f) 0 .^ nth (i + 8) (f_ck f) 0 .^ nth i (f_ik f) 0 .^ nth (i + 8) (f_ik f) 0) (seq 0 8) in
  let sres := map (λ i, nth i (f_res f) 0 .^ nth (i + 4) (f_res f) 0) (seq 0 4) in
  (sres, kc).

Definition milenage_opc (k op : list Z) : list Z := xor_bytes (aes_128_encrypt_block k op) op.

(** ** The other side *)

(** [memcmp(a, b, n) <= 0] on [n] bytes. *)
Fixpoint memcmp_le (a b : list Z) : bool :=
  match a, b with
  | x :: a, y :: b => if x <? y then true else if y <? x then false else memcmp_le a b
  | _, _ => true
  end.

(** What the holder of the key answers to a challenge. *)
Inductive check_result :=
  | CHECK_OK (ik ck res : list Z)     (* 0 *)
  | CHECK_MAC                         (* -1 *)
  | CHECK_SYNC (auts : list Z).       (* -2 *)

Definition milenage_check (opc k sqn _rand autn : list Z) : check_result :=
  let f := milenage_f2345 opc k _rand in
  let rx_sqn := xor_bytes (take 6 autn) (f_ak f) in
  if memcmp_le rx_sqn (take 6 sqn) then
    let ak := f_akstar (milenage_f2345 opc k _rand) in
    let '(_, mac_s) := milenage_f1 opc k _rand sqn [0; 0] in
    CHECK_SYNC (xor_bytes (take 6 sqn) ak ++ mac_s)
  else
    let amf := take 2 (drop 6 autn) in
    let '(mac_a, _) := milenage_f1 opc k _rand rx_sqn amf in
    if bool_decide (mac_a = take 8 (drop 8 autn)) then CHECK_OK (f_ik f) (f_ck f) (f_res f) else CHECK_MAC.

(** Test set 1 of TS 35.208. *)
Example milenage_set_1 :
  let k := be_bytes 16 0x465b5ce8b199b49faa5f0a2ee238a6bc in
  let rand := be_bytes 16 0x23553cbe9637a89d218ae64dae47bf35 in
  let opc := be_bytes 16 0xcd63cb71954a9f4e48a5994e37a02baf in
  milenage_opc k (be_bytes 16 0xcdc202d5123e20f62b6d676ac72cb318) = opc ∧
  milenage_f1 opc k rand (be_bytes 6 0xff9bb4d0b607) (be_bytes 2 0xb9b9) =
    (be_bytes 8 0x4a9ffac354dfafb3, be_bytes 8 0x01cfaf9ec4e871e9) ∧
  milenage_f2345 opc k rand =
    F2345 (be_bytes 8 0xa54211d5e3ba50bf) (be_bytes 16 0xb40ba9a3c58b2a05bbf0d987b21bf8cb)
      (be_bytes 16 0xf769bcd751044604127672711c6d3441) (be_bytes 6 0xaa689c648370) (be_bytes 6 0x451e8beca43b).
Proof. by vm_compute. Qed.
