(* ===== verification/MilenageSpec.v ===== *)
(** * Milenage against TS 35.206

    The functions are those of the standard over AES of FIPS 197. *)
From S2P Require Import Prelude XactBase Octets Words Aes AesRef AesRounds AesSpec AesModes AesModesSpec Milenage.
From Stdlib Require Import ZifyNat.
#[local] Open Scope Z_scope.
#[local] Open Scope c_scope.
#[local] Ltac Zify.zify_post_hook ::= Z.to_euclidean_division_equations.

(** ** Rotation *)

(** Rotation of 128 bits by [r] towards the most significant bit. *)
Definition rot128 (x r : Z) : Z := (x * 2 ^ r) mod 2 ^ 128 + x / 2 ^ (128 - r).
Definition rot (l : list Z) (r : Z) : list Z := be_bytes 16 (rot128 (be_value l) r).

Lemma rot128_split x y r : 0 ≤ r < 128 → 0 ≤ x < 2 ^ r → 0 ≤ y < 2 ^ (128 - r) →
  rot128 (x * 2 ^ (128 - r) + y) r = y * 2 ^ r + x.
Proof.
  intros Hr Hx Hy. unfold rot128. assert (HP : 0 < 2 ^ (128 - r)) by lia. rewrite Z.div_add_l, (Z.div_small y) by lia.
  rewrite Z.mul_add_distr_r, <- Z.mul_assoc, <- Z.pow_add_r by lia. replace (128 - r + r) with 128 by lia.
  rewrite (Z.add_comm (x * _)), Z_mod_plus_full. rewrite Z.mod_small; [lia|].
  split; [apply Z.mul_nonneg_nonneg; lia|]. replace 128 with (128 - r + r) by lia. rewrite Z.pow_add_r by lia.
  apply Z.mul_lt_mono_pos_r; lia.
Qed.
Lemma rot128_compose v s l : 0 ≤ v < 2 ^ 128 → 0 ≤ s → 0 ≤ l → s + l < 128 → rot128 (rot128 v s) l = rot128 v (s + l).
Proof.
  intros Hv Hs Hl Hsl.
  set (m := 128 - (s + l)). assert (Hm : 0 < m) by lia.
  set (b2 := v mod 2 ^ m). set (ab := v / 2 ^ m). set (b1 := ab mod 2 ^ l). set (a := ab / 2 ^ l).
  assert (H2l : 0 < 2 ^ l) by lia. assert (H2m : 0 < 2 ^ m) by lia. assert (H2s : 0 < 2 ^ s) by lia.
  assert (Hab : ab = a * 2 ^ l + b1) by (unfold a, b1; rewrite Z.mul_comm; apply Z.div_mod; lia).
  assert (Hvab : v = ab * 2 ^ m + b2) by (unfold ab, b2; rewrite Z.mul_comm; apply Z.div_mod; lia).
  assert (Bb2 : 0 ≤ b2 < 2 ^ m) by (apply Z.mod_pos_bound; lia).
  assert (Bb1 : 0 ≤ b1 < 2 ^ l) by (apply Z.mod_pos_bound; lia).
  assert (Bab : 0 ≤ ab < 2 ^ (s + l)).
  { unfold ab. split; [apply Z.div_pos; lia|]. apply Z.div_lt_upper_bound; [lia|]. rewrite <- Z.pow_add_r by lia.
    replace (m + (s + l)) with 128 by lia. lia. }
  assert (Ba : 0 ≤ a < 2 ^ s).
  { unfold a. split; [apply Z.div_pos; lia|]. apply Z.div_lt_upper_bound; [lia|]. rewrite <- Z.pow_add_r by lia.
    rewrite (Z.add_comm l). lia. }
  rewrite Hvab at 2. replace m with (128 - (s + l)) by lia. rewrite rot128_split by (fold m; lia).
  assert (E1 : rot128 v s = (b1 * 2 ^ m + b2) * 2 ^ s + a).
  { rewrite Hvab, Hab. replace ((a * 2 ^ l + b1) * 2 ^ m + b2) with (a * 2 ^ (128 - s) + (b1 * 2 ^ m + b2)).
    - apply rot128_split; [lia|done|]. replace (128 - s) with (l + m) by lia. rewrite Z.pow_add_r by lia. nia.
    - replace (128 - s) with (l + m) by lia. rewrite Z.pow_add_r by lia. ring. }
  rewrite E1. replace ((b1 * 2 ^ m + b2) * 2 ^ s + a) with (b1 * 2 ^ (128 - l) + (b2 * 2 ^ s + a)).
  - rewrite rot128_split; [|lia|done|].
    + rewrite Hab, Z.pow_add_r by lia. ring.
    + replace (128 - l) with (m + s) by lia. rewrite Z.pow_add_r by lia. nia.
  - replace (128 - l) with (m + s) by lia. rewrite Z.pow_add_r by lia. ring.
Qed.

Lemma be_value_block x : block x → 0 ≤ be_value x < 2 ^ 128.
Proof. intros [Hl Hb]. pose proof (be_value_range x Hb) as H. by rewrite Hl in H. Qed.
Lemma be_bytes_of_block x : block x → be_bytes 16 (be_value x) = x.
Proof. intros [Hl Hb]. rewrite <- Hl. by apply be_bytes_value. Qed.

(** Whole bytes. *)
Lemma rot_bytes x q : block x → (q < 16)%nat → drop q x ++ take q x = rot x (8 * Z.of_nat q).
Proof.
  intros [Hl Hb] Hq. unfold rot. rewrite <- (be_bytes_of_block (drop q x ++ take q x)).
  - f_equal. rewrite <- (take_drop q x) at 3. rewrite !be_value_concat, length_drop, length_take, Hl.
    replace (8 * Z.of_nat (16 - q)) with (128 - 8 * Z.of_nat q) by lia.
    replace (8 * Z.of_nat (min q 16)) with (8 * Z.of_nat q) by lia. symmetry. apply rot128_split; [lia|..].
    + pose proof (be_value_range (take q x) (Forall_take _ _ _ Hb)) as H. by rewrite length_take, Hl, Nat.min_l in H by lia.
    + pose proof (be_value_range (drop q x) (Forall_drop _ _ _ Hb)) as H. rewrite length_drop, Hl in H.
      by replace (8 * Z.of_nat (16 - q)) with (128 - 8 * Z.of_nat q) in H by lia.
  - split; [rewrite length_app, length_drop, length_take; lia|]. apply Forall_app. split; [by apply Forall_drop|by apply Forall_take].
Qed.

Lemma rotate_bytes_ok q temp opc dst : (q < 32)%nat → length temp = 16%nat → length opc = 16%nat → length dst = 16%nat →
  rotate_bytes (u32 (16 - Z.of_nat q)) temp opc dst =
  drop (q mod 16) (xor_bytes temp opc) ++ take (q mod 16) (xor_bytes temp opc).
Proof.
  intros Hq Ht Ho Hd. do 16 (destruct temp as [|? temp]; [done|]). destruct temp; [|done].
  do 16 (destruct opc as [|? opc]; [done|]). destruct opc; [|done].
  do 16 (destruct dst as [|? dst]; [done|]). destruct dst; [|done]. clear Ht Ho Hd.
  do 32 (destruct q as [|q]; [lazy -[Z.lxor]; reflexivity|]). lia.
Qed.

(** A shift to the left by [l] bits through bytes, [z] being the next byte. *)
Fixpoint shlb (l : Z) (ys : list Z) (z : Z) : list Z :=
  match ys with
  | [] => []
  | y :: ys => u8 ((y << l) .| (hd z ys >> (8 - l))) :: shlb l ys z
  end.
Lemma shlb_ok l ys z : 0 ≤ l < 8 → bytes ys → is_byte z →
  shlb l ys z = be_bytes (length ys) (be_value ys * 2 ^ l + (z >> (8 - l))).
Proof.
  intros Hl Hys Hz.
  assert (H2l : 0 < 2 ^ l) by lia. assert (H2m : 0 < 2 ^ (8 - l)) by lia.
  assert (H256 : 2 ^ l * 2 ^ (8 - l) = 256) by (rewrite <- Z.pow_add_r by lia; by replace (l + (8 - l)) with 8 by lia).
  assert (Hs : ∀ h, is_byte h → 0 ≤ h >> (8 - l) < 2 ^ l).
  { intros h Hh. unfold is_byte in Hh. rewrite Z.shiftr_div_pow2 by lia.
    split; [apply Z.div_pos; lia|]. apply Z.div_lt_upper_bound; lia. }
  induction Hys as [|y ys Hy Hys IH]; [done|]. cbn [shlb length be_bytes]. rewrite IH, be_value_cons.
  set (P := 2 ^ (8 * Z.of_nat (length ys))). assert (HP : 0 < P) by lia.
  set (c := z >> (8 - l)). pose proof (Hs z Hz) as Hc. fold c in Hc.
  replace ((y * P + be_value ys) * 2 ^ l + c) with (y * 2 ^ l * P + (be_value ys * 2 ^ l + c)) by ring.
  unfold P at 3. rewrite be_bytes_add, Z.div_add_l by lia. f_equal.
  assert (Ht : (be_value ys * 2 ^ l + c) / P = hd z ys >> (8 - l)).
  { destruct ys as [|h ys]; [cbn [be_value fold_left hd]; unfold P; cbn; by rewrite Z.div_1_r|].
    apply Forall_cons in Hys as [Hh Hys]. cbn [hd]. pose proof (be_value_range ys Hys) as R. unfold P. rewrite be_value_cons. cbn [length].
    replace (8 * Z.of_nat (S (length ys))) with (8 * Z.of_nat (length ys) + 8) by lia. rewrite Z.pow_add_r by lia.
    set (Q := 2 ^ (8 * Z.of_nat (length ys))) in *. assert (HQ : 0 < Q) by lia. change (2 ^ 8) with 256.
    rewrite <- Z.div_div by lia.
    replace ((h * Q + be_value ys) * 2 ^ l + c) with (h * 2 ^ l * Q + (be_value ys * 2 ^ l + c)) by ring.
    rewrite Z.div_add_l by lia. assert (Hd : 0 ≤ (be_value ys * 2 ^ l + c) / Q < 2 ^ l).
    { split; [apply Z.div_pos; nia|]. apply Z.div_lt_upper_bound; [lia|]. nia. }
    rewrite Z.shiftr_div_pow2, <- H256, <- Z.div_div, Z.div_add_l by lia.
    rewrite (Z.div_small _ (2 ^ l)) by lia. by rewrite Z.add_0_r. }
  rewrite Ht. assert (Hh : is_byte (hd z ys)) by (destruct Hys; done). pose proof (Hs _ Hh) as Hr.
  unfold u8. change (2 ^ 8) with 256. by rewrite Z.shiftl_mul_pow2, lor_disjoint by lia.
Qed.

(** The rotation of a block by less than a byte. *)
Lemma shlb_rot x l : block x → 0 ≤ l < 8 → shlb l x (nth 0 x 0) = rot x l.
Proof.
  intros Hx Hl. pose proof (be_value_block x Hx) as R. destruct Hx as [Hlen Hb]. rewrite shlb_ok by auto with machine.
  rewrite Hlen. unfold rot, rot128. rewrite <- (be_bytes_mod 16 (be_value x * 2 ^ l + _)), <- (be_bytes_mod 16 (_ + _ / _)).
  change (8 * Z.of_nat 16) with 128. rewrite Zplus_mod_idemp_l. do 3 f_equal.
  destruct x as [|h x]; [done|]. apply Forall_cons in Hb as [Hh Hb]. cbn [nth]. pose proof (be_value_range x Hb) as R'.
  rewrite be_value_cons in *. cbn in Hlen. replace (length x) with 15%nat in * by lia. change (8 * Z.of_nat 15) with 120 in *.
  rewrite Z.shiftr_div_pow2 by lia. replace (128 - l) with (120 + (8 - l)) by lia.
  rewrite Z.pow_add_r, <- Z.div_div, Z.div_add_l, (Z.div_small (be_value x)), Z.add_0_r by lia. done.
Qed.

Lemma rot128_range v s : 0 ≤ v < 2 ^ 128 → 0 ≤ s < 128 → 0 ≤ rot128 v s < 2 ^ 128.
Proof.
  intros Hv Hs. assert (H2 : 0 < 2 ^ (128 - s)) by lia. assert (H2s : 0 < 2 ^ s) by lia.
  pose proof (Z.div_mod v (2 ^ (128 - s)) ltac:(lia)) as E. rewrite Z.mul_comm in E.
  pose proof (Z.mod_pos_bound v (2 ^ (128 - s)) ltac:(lia)) as Hy.
  assert (Hx : 0 ≤ v / 2 ^ (128 - s) < 2 ^ s).
  { split; [apply Z.div_pos; lia|]. apply Z.div_lt_upper_bound; [lia|]. rewrite <- Z.pow_add_r by lia.
    replace (128 - s + s) with 128 by lia. lia. }
  revert E Hx Hy. generalize (v / 2 ^ (128 - s)), (v mod 2 ^ (128 - s)). intros x y -> Hx Hy.
  rewrite rot128_split by done. replace (2 ^ 128) with (2 ^ (128 - s) * 2 ^ s) by (rewrite <- Z.pow_add_r by lia; f_equal; lia). nia.
Qed.
Lemma u8_lor a b : is_byte b → u8 (a .| b) = u8 a .| b.
Proof.
  intros Hb. unfold u8. rewrite <- !land_mask by lia. rewrite Z.land_lor_distr_l. f_equal. by apply byte_mask.
Qed.
Lemma shiftr_byte y n : is_byte y → 0 ≤ n → is_byte (y >> n).
Proof. intros Hy Hn. by apply (shiftr_range 8). Qed.
(** The bytes of [bits_shift], and the last one that is put together apart. *)
Lemma bits_shift_ok l dst y : 1 ≤ l < 8 → length dst = 16%nat → block y →
  (let d := bits_shift (u32 (8 - l)) (<[15%nat := 0]> dst) y (u32 (128 - l)) in
   <[15%nat := nth 15 d 0 .| (nth 0 y 0 >> (8 - l))]> d) = shlb l y (nth 0 y 0).
Proof.
  intros Hl Hd Hy. block_cases y Hy. do 16 (destruct dst as [|? dst]; [done|]). destruct dst; [|done]. clear Hd.
  assert (Hcase : l = 1 ∨ l = 2 ∨ l = 3 ∨ l = 4 ∨ l = 5 ∨ l = 6 ∨ l = 7) by lia. clear Hl.
  unfold bits_shift.
  destruct_or! Hcase; subst l;
    match goal with |- context [Z.to_nat (?n >> 3)] => change (Z.to_nat (n >> 3)) with 15%nat end;
    lazy -[Z.shiftl Z.shiftr Z.lor u8]; do 15 (f_equal; []); f_equal;
    symmetry; apply u8_lor; apply shiftr_byte; done || lia.
Qed.

(** [ShiftBits] rotates the sum of its inputs, for every distance. *)
Lemma ShiftBits_ok r dst temp opc : 0 ≤ r < 256 → length dst = 16%nat → block temp → block opc →
  ShiftBits r dst temp opc = rot (xor_bytes temp opc) (r mod 128).
Proof.
  intros Hr Hd Ht Ho. pose proof (xor_bytes_block _ _ Ht Ho) as Hx.
  set (q := Z.to_nat (r / 8)). assert (Hq : (q < 32)%nat) by (unfold q; lia).
  unfold ShiftBits. replace (r / 8) with (Z.of_nat q) by (unfold q; lia).
  rewrite !rotate_bytes_ok by (done || (by destruct Ht) || by destruct Ho).
  rewrite rot_bytes by (done || lia). set (y := rot (xor_bytes temp opc) (8 * Z.of_nat (q mod 16))).
  assert (Hy : block y) by apply be_bytes_block.
  destruct (Z.eqb_spec (r mod 8) 0) as [H0|H0].
  { unfold y. do 2 f_equal. unfold q. lia. }
  assert (El : r mod 128 = 8 * Z.of_nat (q mod 16) + r mod 8) by (unfold q; lia).
  assert (E : rot (xor_bytes temp opc) (r mod 128) = rot y (r mod 8)).
  { unfold y, rot. rewrite be_value_bytes. change (8 * Z.of_nat 16) with 128.
    rewrite El, <- rot128_compose; [|by apply be_value_block|lia..]. do 2 f_equal. symmetry. apply Z.mod_small.
    apply rot128_range; [by apply be_value_block|lia]. }
  rewrite E, <- shlb_rot by (done || lia). clearbody y. clear -H0 Hd Hy. pose proof (Z.mod_pos_bound r 8 ltac:(lia)) as Hl.
  revert Hl H0. generalize (r mod 8). intros l Hl H0. apply bits_shift_ok; [lia|done..].
Qed.

(** ** The functions of the standard *)

Section reference.
Context (E : list Z → list Z) (opc rand : list Z).
#[local] Notation "x ⊕ y" := (xor_bytes x y) (at level 50, left associativity).
(** The constants c1 to c5 and r1 to r5 of TS 35.206, 4.1. *)
Definition TEMP : list Z := E (rand ⊕ opc).
Definition OUT1 (sqn amf : list Z) : list Z :=
  E (TEMP ⊕ rot ((sqn ++ amf ++ sqn ++ amf) ⊕ opc) 64 ⊕ be_bytes 16 0) ⊕ opc.
Definition OUT (r c : Z) : list Z := E (rot (TEMP ⊕ opc) r ⊕ be_bytes 16 c) ⊕ opc.
Definition f1 (sqn amf : list Z) : list Z := take 8 (OUT1 sqn amf).
Definition f1_star (sqn amf : list Z) : list Z := drop 8 (OUT1 sqn amf).
Definition f2 : list Z := drop 8 (OUT 0 1).
Definition f3 : list Z := OUT 32 2.
Definition f4 : list Z := OUT 64 4.
Definition f5 : list Z := take 6 (OUT 0 1).
Definition f5_star : list Z := take 6 (OUT 96 8).
End reference.

Lemma xor_bytes_take n xs ys : xor_bytes (take n xs) ys = take n (xor_bytes xs ys).
Proof.
  revert xs ys. induction n as [|n IH]; intros [|x xs] [|y ys]; cbn; [done..|]. by rewrite IH.
Qed.
Lemma xor_last_ok c x : 0 ≤ c < 256 → block x → xor_last c x = xor_bytes x (be_bytes 16 c).
Proof.
  intros Hc Hx. assert (be_bytes 16 c = replicate 15 0 ++ [c]) as ->.
  { assert (c = be_value (replicate 15 0 ++ [c])) as Ec by (unfold be_value; cbn; lia).
    rewrite Ec at 1. apply (be_bytes_value (replicate 15 0 ++ [c])). apply Forall_app.
    split; [by apply Forall_replicate|by apply Forall_singleton]. }
  block_cases x Hx. cbn. by rewrite !Z.lxor_0_r.
Qed.
Lemma rot_block x r : block (rot x r).
Proof. apply be_bytes_block. Qed.

#[local] Opaque aes_128_encrypt_block ShiftBits aes_encrypt rot.
Section keyed.
Context (k opc rand : list Z) (Hk : key_ok 4 k) (Hopc : block opc) (Hrand : block rand).
#[local] Abbreviation E := (aes_encrypt 4 k).
#[local] Hint Resolve xor_bytes_block rot_block be_bytes_block : aes.

Lemma encrypt_block_ok b : block b → aes_128_encrypt_block k b = E b.
Proof using Hk.
  intros Hb. pose proof (aes_encrypt_reference 4 k b Hk Hb) as H. change (32 * Z.of_nat 4) with 128 in H.
  Transparent aes_128_encrypt_block. unfold aes_128_encrypt_block. by destruct (ogs_aes_setup_enc k 128).
Qed.
Lemma E_is_block b : block b → block (E b).
Proof using Hk. by apply aes_encrypt_block. Qed.
#[local] Hint Resolve E_is_block : aes.
Lemma TEMP_block : block (TEMP E opc rand).
Proof using All. unfold TEMP. auto with aes. Qed.
#[local] Hint Resolve TEMP_block : aes.
Lemma TEMP_ok : aes_128_encrypt_block k (xor_bytes rand opc) = TEMP E opc rand.
Proof using All. apply encrypt_block_ok. auto with aes. Qed.
Lemma OUT_block r c : block (OUT E opc rand r c).
Proof using All. unfold OUT. auto 10 with aes. Qed.
Lemma in1_block (sqn amf : list Z) : length sqn = 6%nat → length amf = 2%nat → bytes sqn → bytes amf → block (sqn ++ amf ++ sqn ++ amf).
Proof using.
  intros Hs Ha Bs Ba. split; [rewrite !length_app; lia|]. unfold bytes. by rewrite !Forall_app.
Qed.
Lemma OUT1_block sqn amf : length sqn = 6%nat → length amf = 2%nat → bytes sqn → bytes amf → block (OUT1 E opc rand sqn amf).
Proof using All. intros. unfold OUT1. auto 10 using in1_block with aes. Qed.

Lemma milenage_f1_ok sqn amf : length sqn = 6%nat → length amf = 2%nat → bytes sqn → bytes amf →
  milenage_f1 opc k rand sqn amf = (f1 E opc rand sqn amf, f1_star E opc rand sqn amf).
Proof using All.
  intros Hs Ha Bs Ba. pose proof (in1_block sqn amf Hs Ha Bs Ba) as Hin. unfold milenage_f1.
  rewrite (take_ge sqn), (take_ge amf) by lia. rewrite <- app_assoc. rewrite TEMP_ok.
  rewrite ShiftBits_ok by (done || lia). rewrite encrypt_block_ok by auto with aes.
  pose proof (OUT1_block sqn amf Hs Ha Bs Ba) as Hout. unfold f1, f1_star.
  assert (EQ : xor_bytes (E (xor_bytes (rot (xor_bytes (sqn ++ amf ++ sqn ++ amf) opc) (64 mod 128)) (TEMP E opc rand))) opc =
    OUT1 E opc rand sqn amf).
  { unfold OUT1. do 2 f_equal. rewrite (xor_bytes_comm (TEMP E opc rand)). change (be_bytes 16 0) with (replicate 16 0).
    rewrite (xor_bytes_comm _ (replicate 16 0)).
    set (x := xor_bytes (rot _ _) _). assert (Hx : length x = 16%nat) by (apply block_length; unfold x; auto with aes).
    rewrite <- (xor_bytes_zeros x) at 1. by rewrite Hx. }
  rewrite EQ. f_equal. apply take_ge. rewrite length_drop. destruct Hout as [-> _]. lia.
Qed.

Lemma milenage_f2345_ok : milenage_f2345 opc k rand =
  F2345 (f2 E opc rand) (f3 E opc rand) (f4 E opc rand) (f5 E opc rand) (f5_star E opc rand).
Proof using All.
  unfold milenage_f2345. rewrite TEMP_ok.
  assert (Hrot : ∀ r c dst, 0 ≤ r < 128 → 0 ≤ c < 256 → length dst = 16%nat →
    let t := xor_last c (ShiftBits r dst (TEMP E opc rand) opc) in
    length t = 16%nat ∧ aes_128_encrypt_block k t = E (xor_bytes (rot (xor_bytes (TEMP E opc rand) opc) r) (be_bytes 16 c)) ∧
    block (aes_128_encrypt_block k t)).
  { intros r c dst Hr Hc Hd. cbn zeta. rewrite ShiftBits_ok, Z.mod_small, xor_last_ok by (auto with aes || lia).
    rewrite encrypt_block_ok by auto with aes. split_and!; [apply block_length; auto with aes|done|auto with aes]. }
  destruct (Hrot 0 1 (replicate 16 0)) as (L1 & E1 & B1); [lia..|done|].
  destruct (Hrot 32 2 _ ltac:(lia) ltac:(lia) L1) as (L2 & E2 & B2).
  destruct (Hrot 64 4 _ ltac:(lia) ltac:(lia) L2) as (L3 & E3 & B3).
  destruct (Hrot 96 8 _ ltac:(lia) ltac:(lia) L3) as (L4 & E4 & B4).
  rewrite E1, E2, E3, E4. unfold f2, f3, f4, f5, f5_star, OUT. f_equal.
  - apply take_ge. rewrite length_drop, xor_bytes_length. destruct Hopc as [-> _]. lia.
  - apply xor_bytes_take.
Qed.
End keyed.

(** C11: f1, f1*, f2, f3, f4, f5, f5* and OPc are the functions of TS 35.206 over
    the AES of FIPS 197, for every key, OPc, challenge, sequence number and AMF:
    the byte and bit shuffling of [ShiftBits] is a rotation of 128 bits. *)
Theorem milenage_is_ts35206 k opc rand sqn amf op :
  key_ok 4 k → block opc → block rand → length sqn = 6%nat → bytes sqn → length amf = 2%nat → bytes amf → block op →
  let E := aes_encrypt 4 k in
  milenage_f1 opc k rand sqn amf = (f1 E opc rand sqn amf, f1_star E opc rand sqn amf) ∧
  milenage_f2345 opc k rand = F2345 (f2 E opc rand) (f3 E opc rand) (f4 E opc rand) (f5 E opc rand) (f5_star E opc rand) ∧
  milenage_opc k op = xor_bytes (E op) op.
Proof.
  intros Hk Ho Hr Hs Bs Ha Ba Hop. cbn zeta. split_and!; [by apply milenage_f1_ok|by apply milenage_f2345_ok|].
  unfold milenage_opc. by rewrite encrypt_block_ok.
Qed.

Lemma milenage_is_ts35206_witness :
  let E := aes_encrypt 4 (be_bytes 16 7) in
  (milenage_f1 (be_bytes 16 9) (be_bytes 16 7) (be_bytes 16 5) (be_bytes 6 3) (be_bytes 2 1)).1 =
    f1 E (be_bytes 16 9) (be_bytes 16 5) (be_bytes 6 3) (be_bytes 2 1).
Proof.
  assert (key_ok 4 (be_bytes 16 7)) as Hk by (split; [by left|by apply be_bytes_block]).
  pose proof (milenage_is_ts35206 (be_bytes 16 7) (be_bytes 16 9) (be_bytes 16 5) (be_bytes 6 3) (be_bytes 2 1) (be_bytes 16 2)
    Hk (be_bytes_block _) (be_bytes_block _) eq_refl (be_bytes_bytes _ _) eq_refl (be_bytes_bytes _ _) (be_bytes_block _)) as [H _].
  cbn zeta in *. by rewrite H.
Defined.
