(* ===== verification/AkaSpec.v ===== *)
(** * The agreement of the network and the holder of the key

    What the network makes for a challenge (lib/crypt/milenage.c,
    [milenage_generate]) is accepted by the other side ([milenage_check])
    exactly when its sequence number is newer, and both then have the same keys;
    otherwise the network learns the sequence number of the other side. *)
From S2P Require Import Prelude XactBase Octets Words Aes AesRef AesRounds AesSpec AesModes AesModesSpec Milenage MilenageSpec.
#[local] Open Scope Z_scope.
#[local] Open Scope c_scope.

(** ** Challenges and answers *)

Lemma memcmp_le_ok a b : length a = length b → bytes a → bytes b → memcmp_le a b = (be_value a <=? be_value b).
Proof.
  revert b. induction a as [|x a IH]; intros [|y b] Hl Ha Hb; [done..|]. cbn in Hl.
  apply Forall_cons in Ha as [Hx Ha]. apply Forall_cons in Hb as [Hy Hb]. cbn [memcmp_le].
  pose proof (be_value_range a Ha) as Ra. pose proof (be_value_range b Hb) as Rb.
  rewrite IH, !be_value_cons by (done || lia). replace (length a) with (length b) in * by lia.
  set (P := 2 ^ (8 * Z.of_nat (length b))) in *.
  destruct (Z.ltb_spec x y); [symmetry; apply Z.leb_le; nia|]. destruct (Z.ltb_spec y x); [symmetry; apply Z.leb_gt; nia|].
  assert (x = y) as -> by lia. destruct (Z.leb_spec (be_value a) (be_value b)); symmetry; [apply Z.leb_le|apply Z.leb_gt]; lia.
Qed.

(** A buffer of [n] bytes. *)
Definition buf (n : nat) (l : list Z) : Prop := length l = n ∧ bytes l.
Lemma buf_xor n x y : buf n x → buf n y → buf n (xor_bytes x y).
Proof. intros [Lx Bx] [Ly By]. split; [rewrite xor_bytes_length; lia|by apply xor_bytes_bytes]. Qed.
Lemma buf_take n m l : buf m l → (n ≤ m)%nat → buf n (take n l).
Proof. intros [L B] H. split; [rewrite length_take; lia|by apply Forall_take]. Qed.
Lemma buf_drop n m l : buf m l → buf (m - n) (drop n l).
Proof. intros [L B]. split; [rewrite length_drop; lia|by apply Forall_drop]. Qed.
Lemma buf_app n m x y : buf n x → buf m y → buf (n + m) (x ++ y).
Proof. intros [Lx Bx] [Ly By]. split; [rewrite length_app; lia|by apply Forall_app]. Qed.
Lemma buf_take_app n x y : buf n x → take n (x ++ y) = x ∧ drop n (x ++ y) = y.
Proof. intros [L _]. rewrite <- L, take_app_length, drop_app_length. done. Qed.
Lemma buf_twice n x y : buf n x → buf n y → xor_bytes (xor_bytes x y) y = x.
Proof. intros [Lx _] [Ly _]. apply xor_bytes_twice. lia. Qed.
#[local] Hint Resolve buf_xor : aes.

#[local] Opaque milenage_f1 milenage_f2345.
Section agreement.
Context (k opc rand : list Z) (Hk : key_ok 4 k) (Hopc : block opc) (Hrand : block rand).

Lemma f1_buf sqn amf : buf 6 sqn → buf 2 amf →
  buf 8 (milenage_f1 opc k rand sqn amf).1 ∧ buf 8 (milenage_f1 opc k rand sqn amf).2.
Proof using All.
  intros [] []. rewrite milenage_f1_ok by done. pose proof (OUT1_block k opc rand Hk Hopc Hrand sqn amf) as Ho.
  split; [apply (buf_take 8 16)|apply (buf_drop 8 16)]; lia || by apply Ho.
Qed.
Lemma f2345_buf : let f := milenage_f2345 opc k rand in
  buf 8 (f_res f) ∧ block (f_ck f) ∧ block (f_ik f) ∧ buf 6 (f_ak f) ∧ buf 6 (f_akstar f).
Proof using All.
  cbn zeta. rewrite milenage_f2345_ok by done. cbn [f_res f_ck f_ik f_ak f_akstar].
  pose proof (OUT_block k opc rand Hk Hopc Hrand) as Ho.
  split_and!; [apply (buf_drop 8 16)|apply Ho..|apply (buf_take 6 16)|apply (buf_take 6 16)]; lia || by apply Ho.
Qed.
End agreement.

(** ** The theorems *)

Section exchange.
Context (k opc rand : list Z) (Hk : key_ok 4 k) (Hopc : block opc) (Hrand : block rand).

(** The token of a challenge, for its sequence number and AMF. *)
Definition autn_of (sqn amf : list Z) : list Z :=
  xor_bytes sqn (f_ak (milenage_f2345 opc k rand)) ++ amf ++ (milenage_f1 opc k rand sqn amf).1.

Lemma generate_eq sqn amf : buf 6 sqn → buf 2 amf →
  milenage_generate opc amf k sqn rand 8 =
  (let f := milenage_f2345 opc k rand in Some (autn_of sqn amf, f_ik f, f_ck f, f_ak f, f_res f), 8).
Proof using.
  intros [Ls _] [La _]. unfold milenage_generate, autn_of. change (8 <? 8) with false. cbn iota.
  destruct (milenage_f1 opc k rand sqn amf). by rewrite !take_ge by lia.
Qed.
Lemma CHECK_OK_inj a b c a' b' c' : CHECK_OK a b c = CHECK_OK a' b' c' → a' = a ∧ b' = b ∧ c' = c.
Proof using. by intros [=]. Qed.
Lemma generate_inv sqn amf autn ik ck ak res : buf 6 sqn → buf 2 amf →
  milenage_generate opc amf k sqn rand 8 = (Some (autn, ik, ck, ak, res), 8) →
  let f := milenage_f2345 opc k rand in autn = autn_of sqn amf ∧ ik = f_ik f ∧ ck = f_ck f ∧ res = f_res f.
Proof using.
  intros Hs Ha. rewrite generate_eq by done. cbv zeta. generalize (autn_of sqn amf), (milenage_f2345 opc k rand).
  intros a f E. injection E. auto.
Qed.
Lemma autn_parts sqn amf : buf 6 sqn → buf 2 amf →
  let autn := autn_of sqn amf in
  buf 16 autn ∧ xor_bytes (take 6 autn) (f_ak (milenage_f2345 opc k rand)) = sqn ∧ take 2 (drop 6 autn) = amf ∧
  take 8 (drop 8 autn) = (milenage_f1 opc k rand sqn amf).1.
Proof using All.
  intros Hs Ha. destruct (f2345_buf k opc rand Hk Hopc Hrand) as (_ & _ & _ & Hak & _).
  destruct (f1_buf k opc rand Hk Hopc Hrand sqn amf Hs Ha) as [Hm _]. unfold autn_of. cbn zeta.
  assert (Hx : buf 6 (xor_bytes sqn (f_ak (milenage_f2345 opc k rand)))) by auto with aes.
  destruct (buf_take_app 6 _ (amf ++ (milenage_f1 opc k rand sqn amf).1) Hx) as [-> ->].
  destruct (buf_take_app 2 _ (milenage_f1 opc k rand sqn amf).1 Ha) as [-> _].
  split_and!; [apply (buf_app 6 10), (buf_app 2 8); done|by apply (buf_twice 6)|done|].
  rewrite app_assoc. destruct (buf_take_app 8 _ (milenage_f1 opc k rand sqn amf).1 (buf_app _ _ _ _ Hx Ha)) as [_ ->].
  apply take_ge. destruct Hm. lia.
Qed.
(** Every token is that of its own sequence number and AMF, but for the code. *)
Lemma autn_cases autn : buf 16 autn → ∃ sqn amf mac, buf 6 sqn ∧ buf 2 amf ∧ buf 8 mac ∧
  autn = xor_bytes sqn (f_ak (milenage_f2345 opc k rand)) ++ amf ++ mac ∧
  xor_bytes (take 6 autn) (f_ak (milenage_f2345 opc k rand)) = sqn ∧ take 2 (drop 6 autn) = amf ∧ take 8 (drop 8 autn) = mac.
Proof using All.
  intros H. destruct (f2345_buf k opc rand Hk Hopc Hrand) as (_ & _ & _ & Hak & _). set (ak := f_ak _) in *.
  assert (H6 : buf 6 (take 6 autn)) by (apply (buf_take 6 16); done || lia).
  exists (xor_bytes (take 6 autn) ak), (take 2 (drop 6 autn)), (take 8 (drop 8 autn)).
  assert (H2 : buf 2 (take 2 (drop 6 autn))) by (apply (buf_take 2 10); [by apply (buf_drop 6 16)|lia]).
  assert (H8 : buf 8 (take 8 (drop 8 autn))) by (apply (buf_take 8 8); [by apply (buf_drop 8 16)|lia]).
  split_and!; try done; [auto with aes|]. rewrite (buf_twice 6) by done.
  rewrite (take_ge (drop 8 autn)) by (rewrite length_drop; destruct H; lia).
  rewrite <- (take_drop 6 autn) at 1. f_equal. rewrite <- (take_drop 2 (drop 6 autn)) at 1. by rewrite drop_drop.
Qed.
Lemma check_eq sqn sqn_ms amf mac autn : buf 6 sqn → buf 6 sqn_ms → buf 8 mac →
  xor_bytes (take 6 autn) (f_ak (milenage_f2345 opc k rand)) = sqn → take 2 (drop 6 autn) = amf → take 8 (drop 8 autn) = mac →
  milenage_check opc k sqn_ms rand autn =
  if be_value sqn <=? be_value sqn_ms
  then CHECK_SYNC (xor_bytes sqn_ms (f_akstar (milenage_f2345 opc k rand)) ++ (milenage_f1 opc k rand sqn_ms [0; 0]).2)
  else if bool_decide ((milenage_f1 opc k rand sqn amf).1 = mac)
       then let f := milenage_f2345 opc k rand in CHECK_OK (f_ik f) (f_ck f) (f_res f) else CHECK_MAC.
Proof using.
  intros Hs Hm _ E1 E2 E3. unfold milenage_check. cbv zeta. rewrite E1, E2, E3, (take_ge sqn_ms) by (destruct Hm; lia).
  rewrite memcmp_le_ok by (destruct Hs, Hm; done || lia).
  destruct (milenage_f1 opc k rand sqn amf), (milenage_f1 opc k rand sqn_ms [0; 0]). done.
Qed.
(** The answer to a challenge of the network. *)
Lemma check_autn sqn sqn_ms amf : buf 6 sqn → buf 6 sqn_ms → buf 2 amf →
  milenage_check opc k sqn_ms rand (autn_of sqn amf) =
  if be_value sqn <=? be_value sqn_ms
  then CHECK_SYNC (xor_bytes sqn_ms (f_akstar (milenage_f2345 opc k rand)) ++ (milenage_f1 opc k rand sqn_ms [0; 0]).2)
  else let f := milenage_f2345 opc k rand in CHECK_OK (f_ik f) (f_ck f) (f_res f).
Proof using All.
  intros Hs Hms Ha. destruct (autn_parts sqn amf Hs Ha) as (_ & E1 & E2 & E3).
  rewrite (check_eq sqn sqn_ms amf _ _ Hs Hms (proj1 (f1_buf k opc rand Hk Hopc Hrand sqn amf Hs Ha)) E1 E2 E3).
  by rewrite bool_decide_eq_true_2.
Qed.
End exchange.

(** C12: the challenges that are accepted are exactly those that the network
    makes with the same key and challenge for a sequence number that is greater
    than the last one, and then both sides have the same [ik], [ck] and [res]. *)
Theorem aka_check_exact k opc rand sqn_ms autn ik ck res :
  key_ok 4 k → block opc → block rand → buf 6 sqn_ms → buf 16 autn →
  milenage_check opc k sqn_ms rand autn = CHECK_OK ik ck res ↔
  ∃ sqn amf ak, buf 6 sqn ∧ buf 2 amf ∧ be_value sqn_ms < be_value sqn ∧
    milenage_generate opc amf k sqn rand 8 = (Some (autn, ik, ck, ak, res), 8).
Proof.
  intros Hk Ho Hr Hms Ha. split.
  - destruct (autn_cases k opc rand Hk Ho Hr autn Ha) as (sqn & amf & mac & Hs & Hamf & Hmac & E & E1 & E2 & E3).
    rewrite (check_eq k opc rand sqn sqn_ms amf mac) by done. destruct (Z.leb_spec (be_value sqn) (be_value sqn_ms)); [done|].
    case_bool_decide as Em; [|done]. cbn zeta. intros (-> & -> & ->)%CHECK_OK_inj. exists sqn, amf. eexists. split_and!; [done..|].
    rewrite generate_eq by done. unfold autn_of. by rewrite Em, E.
  - intros (sqn & amf & ak & Hs & Hamf & Hlt & E). apply generate_inv in E as (-> & -> & -> & ->); [|done..].
    rewrite (check_autn k opc rand Hk Ho Hr sqn sqn_ms amf Hs Hms Hamf). by rewrite (proj2 (Z.leb_gt _ _) Hlt).
Qed.

(** C13: a challenge whose sequence number is not greater is answered by a token
    of 14 bytes, from which the network has the sequence number of the other
    side: [milenage_auts] accepts it, and [ogs_auc_sqn] gives the number and
    exactly the code that the token carries. *)
Theorem aka_resynchronisation k opc rand sqn amf sqn_ms autn ik ck ak res :
  key_ok 4 k → block opc → block rand → buf 6 sqn → buf 2 amf → buf 6 sqn_ms →
  milenage_generate opc amf k sqn rand 8 = (Some (autn, ik, ck, ak, res), 8) →
  be_value sqn ≤ be_value sqn_ms →
  ∃ auts, milenage_check opc k sqn_ms rand autn = CHECK_SYNC auts ∧ buf 14 auts ∧
    milenage_auts opc k rand auts = (0, sqn_ms) ∧
    ogs_auc_sqn opc k rand (take 6 auts) = (sqn_ms, drop 6 auts).
Proof.
  intros Hk Ho Hr Hs Hamf Hms E Hle. apply generate_inv in E as (-> & _); [|done..].
  rewrite (check_autn k opc rand Hk Ho Hr sqn sqn_ms amf Hs Hms Hamf), (proj2 (Z.leb_le _ _) Hle).
  destruct (f2345_buf k opc rand Hk Ho Hr) as (_ & _ & _ & _ & Hak).
  assert (H0 : buf 2 [0; 0]) by (split; [done|by repeat constructor]).
  destruct (f1_buf k opc rand Hk Ho Hr sqn_ms [0; 0] Hms H0) as [_ Hmac].
  eexists. split; [reflexivity|].
  assert (Hx : buf 6 (xor_bytes sqn_ms (f_akstar (milenage_f2345 opc k rand)))) by auto with aes.
  split; [by apply (buf_app 6 8)|]. unfold milenage_auts, ogs_auc_sqn. cbv zeta.
  destruct (buf_take_app 6 _ (milenage_f1 opc k rand sqn_ms [0; 0]).2 Hx) as [-> ->].
  rewrite (take_ge (xor_bytes sqn_ms _)) by (destruct Hx; lia).
  rewrite (xor_bytes_comm (f_akstar _)), (buf_twice 6) by done.
  rewrite take_ge by (destruct Hmac; lia). destruct (milenage_f1 opc k rand sqn_ms [0; 0]). by rewrite bool_decide_eq_true_2.
Qed.

(** Test set 1 of TS 35.208. *)
Definition test_k : list Z := be_bytes 16 0x465b5ce8b199b49faa5f0a2ee238a6bc.
Definition test_rand : list Z := be_bytes 16 0x23553cbe9637a89d218ae64dae47bf35.
Definition test_opc : list Z := be_bytes 16 0xcd63cb71954a9f4e48a5994e37a02baf.
Lemma test_key_ok : key_ok 4 test_k.
Proof. split; [by left|by apply be_bytes_block]. Qed.
Lemma buf_be_bytes n x : buf n (be_bytes n x).
Proof. split; [apply be_bytes_length|apply be_bytes_bytes]. Qed.

Lemma aka_check_exact_witness :
  let autn := autn_of test_k test_opc test_rand (be_bytes 6 0xff9bb4d0b607) (be_bytes 2 0xb9b9) in
  let f := milenage_f2345 test_opc test_k test_rand in
  milenage_check test_opc test_k (be_bytes 6 0xff9bb4d0b606) test_rand autn = CHECK_OK (f_ik f) (f_ck f) (f_res f).
Proof.
  cbv zeta. apply (aka_check_exact test_k test_opc test_rand (be_bytes 6 0xff9bb4d0b606));
    [exact test_key_ok|apply be_bytes_block|apply be_bytes_block|apply buf_be_bytes| |].
  { apply (autn_parts _ _ _ test_key_ok (be_bytes_block _) (be_bytes_block _)); apply buf_be_bytes. }
  eexists (be_bytes 6 0xff9bb4d0b607), (be_bytes 2 0xb9b9), _. split; [apply buf_be_bytes|]. split; [apply buf_be_bytes|].
  split; [reflexivity|]. apply generate_eq; apply buf_be_bytes.
Defined.

Lemma aka_resynchronisation_witness :
  let autn := autn_of test_k test_opc test_rand (be_bytes 6 0xff9bb4d0b607) (be_bytes 2 0xb9b9) in
  ∃ auts, milenage_check test_opc test_k (be_bytes 6 0xff9bb4d0b608) test_rand autn = CHECK_SYNC auts ∧
    milenage_auts test_opc test_k test_rand auts = (0, be_bytes 6 0xff9bb4d0b608).
Proof.
  cbv zeta. destruct (aka_resynchronisation test_k test_opc test_rand (be_bytes 6 0xff9bb4d0b607) (be_bytes 2 0xb9b9)
    (be_bytes 6 0xff9bb4d0b608) _ _ _ _ _ test_key_ok (be_bytes_block _) (be_bytes_block _)
    (buf_be_bytes _ _) (buf_be_bytes _ _) (buf_be_bytes _ _)
    (generate_eq _ _ _ _ _ (buf_be_bytes _ _) (buf_be_bytes _ _)) ltac:(by vm_compute)) as (auts & H1 & _ & H2 & _).
  exists auts. split; [exact H1|exact H2].
Defined.
