(* ===== verification/Zuc.v ===== *)
(** * The ZUC stream cipher, EEA3 and EIA3 (lib/crypt/zuc.c)

    The registers of the shift register and of [F], which the code keeps in
    static variables, are a record; a fresh run starts from [zuc_initialize],
    which writes all of them.  Arrays that the code allocates are the lists of
    the words written to them. *)
From S2P Require Import Prelude XactBase Octets Words.
#[local] Open Scope Z_scope.
#[local] Open Scope c_scope.

Module Zuc.

(** [LFSR_S0] to [LFSR_S15], [F_R1], [F_R2], and [BRC_X0] to [BRC_X3]. *)
Record state := State {
  LFSR : list Z;
  F_R1 : Z; F_R2 : Z;
  BRC_X0 : Z; BRC_X1 : Z; BRC_X2 : Z; BRC_X3 : Z
}.
Definition set_LFSR (l : list Z) (s : state) : state :=
  State l (F_R1 s) (F_R2 s) (BRC_X0 s) (BRC_X1 s) (BRC_X2 s) (BRC_X3 s).
Definition LFSR_S (s : state) (i : nat) : Z := nth i (LFSR s) 0.

(** The s-boxes. *)
Definition S0 : list Z := [
  0x3e; 0x72; 0x5b; 0x47; 0xca; 0xe0; 0x00; 0x33; 0x04; 0xd1; 0x54; 0x98; 0x09; 0xb9; 0x6d; 0xcb;
  0x7b; 0x1b; 0xf9; 0x32; 0xaf; 0x9d; 0x6a; 0xa5; 0xb8; 0x2d; 0xfc; 0x1d; 0x08; 0x53; 0x03; 0x90;
  0x4d; 0x4e; 0x84; 0x99; 0xe4; 0xce; 0xd9; 0x91; 0xdd; 0xb6; 0x85; 0x48; 0x8b; 0x29; 0x6e; 0xac;
  0xcd; 0xc1; 0xf8; 0x1e; 0x73; 0x43; 0x69; 0xc6; 0xb5; 0xbd; 0xfd; 0x39; 0x63; 0x20; 0xd4; 0x38;
  0x76; 0x7d; 0xb2; 0xa7; 0xcf; 0xed; 0x57; 0xc5; 0xf3; 0x2c; 0xbb; 0x14; 0x21; 0x06; 0x55; 0x9b;
  0xe3; 0xef; 0x5e; 0x31; 0x4f; 0x7f; 0x5a; 0xa4; 0x0d; 0x82; 0x51; 0x49; 0x5f; 0xba; 0x58; 0x1c;
  0x4a; 0x16; 0xd5; 0x17; 0xa8; 0x92; 0x24; 0x1f; 0x8c; 0xff; 0xd8; 0xae; 0x2e; 0x01; 0xd3; 0xad;
  0x3b; 0x4b; 0xda; 0x46; 0xeb; 0xc9; 0xde; 0x9a; 0x8f; 0x87; 0xd7; 0x3a; 0x80; 0x6f; 0x2f; 0xc8;
  0xb1; 0xb4; 0x37; 0xf7; 0x0a; 0x22; 0x13; 0x28; 0x7c; 0xcc; 0x3c; 0x89; 0xc7; 0xc3; 0x96; 0x56;
  0x07; 0xbf; 0x7e; 0xf0; 0x0b; 0x2b; 0x97; 0x52; 0x35; 0x41; 0x79; 0x61; 0xa6; 0x4c; 0x10; 0xfe;
  0xbc; 0x26; 0x95; 0x88; 0x8a; 0xb0; 0xa3; 0xfb; 0xc0; 0x18; 0x94; 0xf2; 0xe1; 0xe5; 0xe9; 0x5d;
  0xd0; 0xdc; 0x11; 0x66; 0x64; 0x5c; 0xec; 0x59; 0x42; 0x75; 0x12; 0xf5; 0x74; 0x9c; 0xaa; 0x23;
  0x0e; 0x86; 0xab; 0xbe; 0x2a; 0x02; 0xe7; 0x67; 0xe6; 0x44; 0xa2; 0x6c; 0xc2; 0x93; 0x9f; 0xf1;
  0xf6; 0xfa; 0x36; 0xd2; 0x50; 0x68; 0x9e; 0x62; 0x71; 0x15; 0x3d; 0xd6; 0x40; 0xc4; 0xe2; 0x0f;
  0x8e; 0x83; 0x77; 0x6b; 0x25; 0x05; 0x3f; 0x0c; 0x30; 0xea; 0x70; 0xb7; 0xa1; 0xe8; 0xa9; 0x65;
  0x8d; 0x27; 0x1a; 0xdb; 0x81; 0xb3; 0xa0; 0xf4; 0x45; 0x7a; 0x19; 0xdf; 0xee; 0x78; 0x34; 0x60].
Definition S1 : list Z := [
  0x55; 0xc2; 0x63; 0x71; 0x3b; 0xc8; 0x47; 0x86; 0x9f; 0x3c; 0xda; 0x5b; 0x29; 0xaa; 0xfd; 0x77;
  0x8c; 0xc5; 0x94; 0x0c; 0xa6; 0x1a; 0x13; 0x00; 0xe3; 0xa8; 0x16; 0x72; 0x40; 0xf9; 0xf8; 0x42;
  0x44; 0x26; 0x68; 0x96; 0x81; 0xd9; 0x45; 0x3e; 0x10; 0x76; 0xc6; 0xa7; 0x8b; 0x39; 0x43; 0xe1;
  0x3a; 0xb5; 0x56; 0x2a; 0xc0; 0x6d; 0xb3; 0x05; 0x22; 0x66; 0xbf; 0xdc; 0x0b; 0xfa; 0x62; 0x48;
  0xdd; 0x20; 0x11; 0x06; 0x36; 0xc9; 0xc1; 0xcf; 0xf6; 0x27; 0x52; 0xbb; 0x69; 0xf5; 0xd4; 0x87;
  0x7f; 0x84; 0x4c; 0xd2; 0x9c; 0x57; 0xa4; 0xbc; 0x4f; 0x9a; 0xdf; 0xfe; 0xd6; 0x8d; 0x7a; 0xeb;
  0x2b; 0x53; 0xd8; 0x5c; 0xa1; 0x14; 0x17; 0xfb; 0x23; 0xd5; 0x7d; 0x30; 0x67; 0x73; 0x08; 0x09;
  0xee; 0xb7; 0x70; 0x3f; 0x61; 0xb2; 0x19; 0x8e; 0x4e; 0xe5; 0x4b; 0x93; 0x8f; 0x5d; 0xdb; 0xa9;
  0xad; 0xf1; 0xae; 0x2e; 0xcb; 0x0d; 0xfc; 0xf4; 0x2d; 0x46; 0x6e; 0x1d; 0x97; 0xe8; 0xd1; 0xe9;
  0x4d; 0x37; 0xa5; 0x75; 0x5e; 0x83; 0x9e; 0xab; 0x82; 0x9d; 0xb9; 0x1c; 0xe0; 0xcd; 0x49; 0x89;
  0x01; 0xb6; 0xbd; 0x58; 0x24; 0xa2; 0x5f; 0x38; 0x78; 0x99; 0x15; 0x90; 0x50; 0xb8; 0x95; 0xe4;
  0xd0; 0x91; 0xc7; 0xce; 0xed; 0x0f; 0xb4; 0x6f; 0xa0; 0xcc; 0xf0; 0x02; 0x4a; 0x79; 0xc3; 0xde;
  0xa3; 0xef; 0xea; 0x51; 0xe6; 0x6b; 0x18; 0xec; 0x1b; 0x2c; 0x80; 0xf7; 0x74; 0xe7; 0xff; 0x21;
  0x5a; 0x6a; 0x54; 0x1e; 0x41; 0x31; 0x92; 0x35; 0xc4; 0x33; 0x07; 0x0a; 0xba; 0x7e; 0x0e; 0x34;
  0x88; 0xb1; 0x98; 0x7c; 0xf3; 0x3d; 0x60; 0x6c; 0x7b; 0xca; 0xd3; 0x1f; 0x32; 0x65; 0x04; 0x28;
  0x64; 0xbe; 0x85; 0x9b; 0x2f; 0x59; 0x8a; 0xd7; 0xb0; 0x25; 0xac; 0xaf; 0x12; 0x03; 0xe2; 0xf2].
Definition EK_d : list Z := [
  0x44D7; 0x26BC; 0x626B; 0x135E; 0x5789; 0x35E2; 0x7135; 0x09AF;
  0x4D78; 0x2F13; 0x6BC4; 0x1AF1; 0x5E26; 0x3C4D; 0x789A; 0x47AC].

(** ** The shift register *)

(** [a + b] mod 2^31 - 1. *)
Definition AddM (a b : Z) : Z :=
  let c := add32 a b in
  add32 (c .& 0x7FFFFFFF) (c >> 31).
Definition MulByPow2 (x k : Z) : Z := (shl32 x k .| (x >> (31 - k))) .& 0x7FFFFFFF.

(** The sum that both modes share. *)
Definition LFSR_sum (s : state) : Z :=
  let f := LFSR_S s 0 in
  let v := MulByPow2 (LFSR_S s 0) 8 in
  let f := AddM f v in
  let v := MulByPow2 (LFSR_S s 4) 20 in
  let f := AddM f v in
  let v := MulByPow2 (LFSR_S s 10) 21 in
  let f := AddM f v in
  let v := MulByPow2 (LFSR_S s 13) 17 in
  let f := AddM f v in
  let v := MulByPow2 (LFSR_S s 15) 15 in
  AddM f v.
(** [LFSR_S0 = LFSR_S1; ...; LFSR_S15 = f]. *)
Definition LFSR_shift (f : Z) (s : state) : state := set_LFSR (map (LFSR_S s) (seq 1 15) ++ [f]) s.
Definition LFSRWithInitialisationMode (u : Z) (s : state) : state := LFSR_shift (AddM (LFSR_sum s) u) s.
Definition LFSRWithWorkMode (s : state) : state := LFSR_shift (LFSR_sum s) s.

Definition BitReorganization (s : state) : state :=
  State (LFSR s) (F_R1 s) (F_R2 s)
    (shl32 (LFSR_S s 15 .& 0x7FFF8000) 1 .| (LFSR_S s 14 .& 0xFFFF))
    (shl32 (LFSR_S s 11 .& 0xFFFF) 16 .| (LFSR_S s 9 >> 15))
    (shl32 (LFSR_S s 7 .& 0xFFFF) 16 .| (LFSR_S s 5 >> 15))
    (shl32 (LFSR_S s 2 .& 0xFFFF) 16 .| (LFSR_S s 0 >> 15)).

(** ** The function F *)

Definition ROT (a k : Z) : Z := shl32 a k .| (a >> (32 - k)).
Definition L1 (X : Z) : Z := X .^ ROT X 2 .^ ROT X 10 .^ ROT X 18 .^ ROT X 24.
Definition L2 (X : Z) : Z := X .^ ROT X 8 .^ ROT X 14 .^ ROT X 22 .^ ROT X 30.
Definition MAKEU32 (a b c d : Z) : Z := shl32 a 24 .| shl32 b 16 .| shl32 c 8 .| d.
Definition sbox_word (u : Z) : Z :=
  MAKEU32 (tbl S0 (u >> 24)) (tbl S1 ((u >> 16) .& 0xFF)) (tbl S0 ((u >> 8) .& 0xFF)) (tbl S1 (u .& 0xFF)).

Definition F (s : state) : Z * state :=
  let W := add32 (BRC_X0 s .^ F_R1 s) (F_R2 s) in
  let W1 := add32 (F_R1 s) (BRC_X1 s) in
  let W2 := F_R2 s .^ BRC_X2 s in
  let u := L1 (shl32 W1 16 .| (W2 >> 16)) in
  let v := L2 (shl32 W2 16 .| (W1 >> 16)) in
  (W, State (LFSR s) (sbox_word u) (sbox_word v) (BRC_X0 s) (BRC_X1 s) (BRC_X2 s) (BRC_X3 s)).

(** ** The key stream *)

Definition MAKEU31 (a b c : Z) : Z := shl32 a 23 .| shl32 b 8 .| c.
Definition init_round (s : state) : state :=
  let s := BitReorganization s in
  let '(w, s) := F s in
  LFSRWithInitialisationMode (w >> 1) s.
(** The registers [BRC_X0] to [BRC_X3] keep old values until [BitReorganization]. *)
Definition zuc_initialize (k iv : list Z) (s : state) : state :=
  Nat.iter 32 init_round
    (State (map (λ i, MAKEU31 (nth i k 0) (nth i EK_d 0) (nth i iv 0)) (seq 0 16)) 0 0
       (BRC_X0 s) (BRC_X1 s) (BRC_X2 s) (BRC_X3 s)).

Fixpoint key_stream_words (n : nat) (s : state) : list Z * state :=
  match n with
  | 0%nat => ([], s)
  | S n =>
      let s := BitReorganization s in
      let '(w, s) := F s in
      let k := w .^ BRC_X3 s in
      let s := LFSRWithWorkMode s in
      let '(ks, s) := key_stream_words n s in
      (k :: ks, s)
  end.
Definition zuc_generate_key_stream (n : nat) (s : state) : list Z * state :=
  let s := BitReorganization s in
  let '(_, s) := F s in
  let s := LFSRWithWorkMode s in
  key_stream_words n s.

Definition zuc_registers : state := State [] 0 0 0 0 0 0.
Definition ZUC (k iv : list Z) (len : nat) (s : state) : list Z * state :=
  zuc_generate_key_stream len (zuc_initialize k iv s).

(** ** Encryption and integrity *)

(** The first bytes of the vector. *)
Definition count_bytes (COUNT : Z) : list Z :=
  [(COUNT >> 24) .& 0xFF; (COUNT >> 16) .& 0xFF; (COUNT >> 8) .& 0xFF; COUNT .& 0xFF].
Definition eea3_iv (COUNT BEARER DIRECTION : Z) : list Z :=
  let iv := count_bytes COUNT ++ [(shl32 BEARER 3 .| shl32 (DIRECTION .& 1) 2) .& 0xFC; 0; 0; 0] in
  iv ++ iv.

(** The new contents of [C], of which the old contents are [C]; [M] may be
    [C].  [LENGTH] is in bits, and the sums wrap as the code computes them. *)
Definition zuc_eea3 (CK : list Z) (COUNT BEARER DIRECTION LENGTH : Z) (M C : list Z) (s : state) : list Z * state :=
  let lastbits := (8 - LENGTH mod 8) mod 8 in
  let L := u32 (LENGTH + 31) / 32 in
  let L8 := Z.to_nat (u32 (LENGTH + 7) / 8) in
  let '(z, s) := ZUC CK (eea3_iv COUNT BEARER DIRECTION) (Z.to_nat L) s in
  let out := map (λ i, nth i M 0 .^ ((nth (i / 4) z 0 >> ((3 - Z.of_nat (i mod 4)) * 8)) .& 0xff)) (seq 0 L8) in
  let out := if lastbits =? 0 then out
             else alter (λ b, b .& (0x100 - (1 << lastbits))) (L8 - 1)%nat out in
  (out ++ drop L8 C, s).

Definition GET_WORD (DATA : list Z) (i : Z) : Z :=
  let ti := i mod 32 in
  if ti =? 0 then tbl DATA (i / 32)
  else shl32 (tbl DATA (i / 32)) ti .| (tbl DATA (i / 32 + 1) >> (32 - ti)).
Definition GET_BIT (DATA : list Z) (i : Z) : bool := negb (tbl DATA (i / 8) .& (1 << (7 - i mod 8)) =? 0).

Definition eia3_iv (COUNT BEARER DIRECTION : Z) : list Z :=
  let iv := count_bytes COUNT ++ [shl32 BEARER 3 .& 0xF8; 0; 0; 0] in
  iv ++ alter (Z.lxor (shl32 (DIRECTION .& 1) 7)) 0%nat (alter (Z.lxor (shl32 (DIRECTION .& 1) 7)) 6%nat iv).

Definition zuc_eia3 (IK : list Z) (COUNT BEARER DIRECTION LENGTH : Z) (M : list Z) (s : state) : Z * state :=
  let N := u32 (LENGTH + 64) in
  let L := u32 (N + 31) / 32 in
  let '(z, s) := ZUC IK (eia3_iv COUNT BEARER DIRECTION) (Z.to_nat L) s in
  let T := foldl (λ T i, if GET_BIT M i then T .^ GET_WORD z i else T) 0 (seqZ 0 LENGTH) in
  let T := T .^ GET_WORD z LENGTH in
  (T .^ tbl z (L - 1), s).

(** Test vectors of the algorithm's specification. *)
Example zuc_vectors :
  fst (ZUC (replicate 16 0) (replicate 16 0) 2 zuc_registers) = [0x27bede74; 0x018082da] ∧
  fst (ZUC (replicate 16 255) (replicate 16 255) 2 zuc_registers) = [0x0657cfa0; 0x7096398b] ∧
  fst (zuc_eea3 (be_bytes 16 0x173d14ba5003731d7a60049470f00a29) 0x66035492 0xf 0 193
    (be_bytes 28 0x6cf65340735552ab0c9752fa6f9025fe0bd675d9005875b200000000) (replicate 28 0) zuc_registers) =
    be_bytes 28 0xa6c85fc66afb8533aafc2518dfe784940ee1e4b030238cc800000000 ∧
  fst (zuc_eia3 (replicate 16 0) 0 0 0 1 [0; 0; 0; 0] zuc_registers) = 0xc8a9595e.
Proof. by vm_compute. Qed.

End Zuc.
