(* ===== verification/ZucSpec.v ===== *)
(** * ZUC against its specification

    The shift register is a linear recurrence over the integers modulo the
    prime 2^31 - 1, with the values 1 to 2^31 - 1 for its elements; the additions with end-around
    carry and the rotations of the code compute in that field. *)
From S2P Require Import Prelude XactBase Octets Words Zuc.
#[local] Open Scope Z_scope.
#[local] Open Scope c_scope.
#[local] Ltac Zify.zify_post_hook ::= Z.to_euclidean_division_equations.
Import Zuc.

Definition p31 : Z := 2 ^ 31 - 1.
(** The elements as the register keeps them: 2^31 - 1 is zero. *)
Definition is_cell (x : Z) : Prop := 1 ≤ x ≤ p31.
Definition rep (x : Z) : Z := 1 + (x - 1) mod p31.

Lemma rep_cell x : is_cell (rep x).
Proof. unfold is_cell, rep, p31. lia. Qed.
Lemma rep_of_cell x : is_cell x → rep x = x.
Proof. unfold is_cell, rep, p31. lia. Qed.
Lemma rep_unique x y : is_cell x → x mod p31 = y mod p31 → x = rep y.
Proof. unfold is_cell, rep, p31. lia. Qed.
Lemma rep_mod x : rep x mod p31 = x mod p31.
Proof. unfold rep, p31. lia. Qed.
Lemma rep_add x y : rep (rep x + rep y) = rep (x + y).
Proof.
  symmetry. symmetry. apply rep_unique; [apply rep_cell|]. rewrite rep_mod, Zplus_mod, !rep_mod. symmetry. apply Zplus_mod.
Qed.
Lemma rep_add_l x y : rep (rep x + y) = rep (x + y).
Proof. apply rep_unique; [apply rep_cell|]. by rewrite rep_mod, Zplus_mod, rep_mod, <- Zplus_mod. Qed.

Lemma AddM_ok a b : 0 ≤ a ≤ p31 → 0 ≤ b ≤ p31 → 0 < a + b → AddM a b = rep (a + b).
Proof.
  intros Ha Hb Hab. unfold AddM, add32. change 0x7FFFFFFF with (2 ^ 31 - 1). rewrite land_mask, Z.shiftr_div_pow2 by lia.
  unfold rep, u32, p31 in *. lia.
Qed.
Lemma MulByPow2_ok x k : is_cell x → 0 < k < 31 → MulByPow2 x k = rep (2 ^ k * x).
Proof.
  intros Hx Hk. unfold MulByPow2, shl32. change 0x7FFFFFFF with (2 ^ 31 - 1).
  rewrite land_mask, Z.shiftl_mul_pow2, Z.shiftr_div_pow2 by lia.
  assert (H2 : 0 < 2 ^ k) by lia. assert (H2' : 0 < 2 ^ (31 - k)) by lia.
  assert (E31 : 2 ^ (31 - k) * 2 ^ k = 2 ^ 31) by (rewrite <- Z.pow_add_r by lia; f_equal; lia).
  pose proof (Z.div_mod x (2 ^ (31 - k)) ltac:(lia)) as E. pose proof (Z.mod_pos_bound x (2 ^ (31 - k)) ltac:(lia)) as Hl.
  unfold is_cell, p31 in Hx.
  assert (Hh : 0 ≤ x / 2 ^ (31 - k) < 2 ^ k) by (split; [apply Z.div_pos; lia|apply Z.div_lt_upper_bound; lia]).
  revert E Hl Hh. generalize (x / 2 ^ (31 - k)), (x mod 2 ^ (31 - k)). intros h l E Hl Hh.
  assert (Hl' : 0 ≤ l * 2 ^ k ≤ 2 ^ 31 - 2 ^ k) by nia.
  rewrite <- land_mask, Z.land_lor_distr_l, !land_mask by lia.
  assert (u32 (x * 2 ^ k) mod 2 ^ 31 = l * 2 ^ k) as ->.
  { assert (∀ v, u32 v mod 2 ^ 31 = v mod 2 ^ 31) as -> by (intros v; unfold u32; lia).
    replace (x * 2 ^ k) with (l * 2 ^ k + h * 2 ^ 31) by nia. rewrite Z_mod_plus_full. apply Z.mod_small. lia. }
  rewrite (Z.mod_small h) by lia. rewrite lor_disjoint by lia.
  apply rep_unique.
  - unfold is_cell, p31. split; [|lia]. destruct (Z.eq_dec h 0) as [->|]; [|lia]. assert (l = x) as -> by lia. nia.
  - rewrite E. replace (2 ^ k * (2 ^ (31 - k) * h + l)) with (l * 2 ^ k + h + h * p31) by (unfold p31; nia).
    by rewrite Z_mod_plus_full.
Qed.

(** ** The specification *)

Module Spec.
(** The high and the low half of an element of 31 bits, and two halves together. *)
Definition hi (x : Z) : Z := x / 2 ^ 15.
Definition lo (x : Z) : Z := x mod 2 ^ 16.
Definition cat (h l : Z) : Z := h * 2 ^ 16 + l.
Definition rotl (x k : Z) : Z := (x * 2 ^ k) mod 2 ^ 32 + x / 2 ^ (32 - k).
Definition L1 (x : Z) : Z := x .^ rotl x 2 .^ rotl x 10 .^ rotl x 18 .^ rotl x 24.
Definition L2 (x : Z) : Z := x .^ rotl x 8 .^ rotl x 14 .^ rotl x 22 .^ rotl x 30.
Definition sbox (x : Z) : Z :=
  match be_bytes 4 x with
  | [a; b; c; d] => be_value [tbl S0 a; tbl S1 b; tbl S0 c; tbl S1 d]
  | _ => 0
  end.

Record state := State { s_cells : list Z; s_R1 : Z; s_R2 : Z }.
Definition cell (s : state) (i : nat) : Z := nth i (s_cells s) 0.
(** A step of the register, with the input [u] that it has at the start. *)
Definition clock (u : Z) (s : state) : state :=
  State (drop 1 (s_cells s) ++
    [rep (2 ^ 15 * cell s 15 + 2 ^ 17 * cell s 13 + 2 ^ 21 * cell s 10 + 2 ^ 20 * cell s 4 + (1 + 2 ^ 8) * cell s 0 + u)])
    (s_R1 s) (s_R2 s).
Definition X0 (s : state) : Z := cat (hi (cell s 15)) (lo (cell s 14)).
Definition X1 (s : state) : Z := cat (lo (cell s 11)) (hi (cell s 9)).
Definition X2 (s : state) : Z := cat (lo (cell s 7)) (hi (cell s 5)).
Definition X3 (s : state) : Z := cat (lo (cell s 2)) (hi (cell s 0)).
Definition W (s : state) : Z := ((X0 s .^ s_R1 s) + s_R2 s) mod 2 ^ 32.
Definition step_F (s : state) : state :=
  let W1 := (s_R1 s + X1 s) mod 2 ^ 32 in
  let W2 := s_R2 s .^ X2 s in
  State (s_cells s) (sbox (L1 (cat (W1 mod 2 ^ 16) (W2 / 2 ^ 16)))) (sbox (L2 (cat (W2 mod 2 ^ 16) (W1 / 2 ^ 16)))).

Definition load (k iv : list Z) : state :=
  State (zip_with (λ '(k, d) v, k * 2 ^ 23 + d * 2 ^ 8 + v) (zip k EK_d) iv) 0 0.
Definition init_step (s : state) : state := clock (W s / 2) (step_F s).
Definition work_step (s : state) : state := clock 0 (step_F s).
Definition start (k iv : list Z) : state := work_step (Nat.iter 32 init_step (load k iv)).
Fixpoint stream (n : nat) (s : state) : list Z :=
  match n with
  | 0%nat => []
  | S n => (W s .^ X3 s) :: stream n (work_step s)
  end.
Definition keystream (k iv : list Z) (n : nat) : list Z := stream n (start k iv).
End Spec.

(** ** The steps of the code *)

(** The registers are those of the specification; the outputs of
    [BitReorganization] are between two steps of no importance. *)
Definition agrees (s : state) (r : Spec.state) : Prop :=
  LFSR s = Spec.s_cells r ∧ F_R1 s = Spec.s_R1 r ∧ F_R2 s = Spec.s_R2 r ∧
  length (Spec.s_cells r) = 16%nat ∧ Forall is_cell (Spec.s_cells r) ∧ is_word (Spec.s_R1 r) ∧ is_word (Spec.s_R2 r).

Lemma cell_ok r i : Forall is_cell (Spec.s_cells r) → length (Spec.s_cells r) = 16%nat → (i < 16)%nat → is_cell (Spec.cell r i).
Proof. intros H Hl Hi. unfold Spec.cell. rewrite Forall_nth in H. apply H. lia. Qed.

Lemma LFSR_sum_ok s r : agrees s r → LFSR_sum s =
  rep (2 ^ 15 * Spec.cell r 15 + 2 ^ 17 * Spec.cell r 13 + 2 ^ 21 * Spec.cell r 10 + 2 ^ 20 * Spec.cell r 4 + (1 + 2 ^ 8) * Spec.cell r 0).
Proof.
  intros (El & _ & _ & Hl & Hc & _). unfold LFSR_sum, LFSR_S. rewrite El. fold (Spec.cell r).
  pose proof (λ i, cell_ok r i Hc Hl) as C. change (λ i, nth i (Spec.s_cells r) 0) with (Spec.cell r).
  assert (A : ∀ x y, AddM (rep x) (rep y) = rep (x + y)).
  { intros x y. rewrite AddM_ok, rep_add; [done|..]; pose proof (rep_cell x); pose proof (rep_cell y); unfold is_cell in *; lia. }
  change (nth ?i (Spec.s_cells r) 0) with (Spec.cell r i).
  rewrite !MulByPow2_ok by (lia || (apply C; lia)).
  rewrite <- (rep_of_cell (Spec.cell r 0)) at 1 by (apply C; lia).
  rewrite !A. f_equal. lia.
Qed.

Ltac sixteen l :=
  do 16 (destruct l as [|? l]; [done|]); destruct l; [|done].
Lemma shift_ok s r : LFSR s = Spec.s_cells r → length (Spec.s_cells r) = 16%nat →
  map (LFSR_S s) (seq 1 15) = drop 1 (Spec.s_cells r).
Proof. intros El. unfold LFSR_S. rewrite El. generalize (Spec.s_cells r). intros l Hl. by sixteen l. Qed.

Lemma clock_agrees u f s r : agrees s r →
  f = rep (2 ^ 15 * Spec.cell r 15 + 2 ^ 17 * Spec.cell r 13 + 2 ^ 21 * Spec.cell r 10 + 2 ^ 20 * Spec.cell r 4 + (1 + 2 ^ 8) * Spec.cell r 0 + u) →
  agrees (LFSR_shift f s) (Spec.clock u r).
Proof.
  intros (El & E1 & E2 & Hl & Hc & W1 & W2) ->. unfold agrees, Spec.clock, LFSR_shift. cbn [LFSR set_LFSR F_R1 F_R2 Spec.s_cells Spec.s_R1 Spec.s_R2].
  split_and!; try done.
  - f_equal. by apply shift_ok.
  - rewrite length_app, length_drop, Hl. done.
  - apply Forall_app. split; [by apply Forall_drop|]. apply Forall_singleton, rep_cell.
Qed.
Lemma work_agrees s r : agrees s r → agrees (LFSRWithWorkMode s) (Spec.clock 0 r).
Proof. intros H. apply clock_agrees; [done|]. rewrite Z.add_0_r. by apply LFSR_sum_ok. Qed.
Lemma init_agrees u s r : agrees s r → 0 ≤ u < 2 ^ 31 → agrees (LFSRWithInitialisationMode u s) (Spec.clock u r).
Proof.
  intros H Hu. apply clock_agrees; [done|]. rewrite (LFSR_sum_ok s r H).
  rewrite AddM_ok, rep_add_l; [done|..]; pose proof (rep_cell (2 ^ 15 * Spec.cell r 15 + 2 ^ 17 * Spec.cell r 13 + 2 ^ 21 * Spec.cell r 10 +
    2 ^ 20 * Spec.cell r 4 + (1 + 2 ^ 8) * Spec.cell r 0)); unfold is_cell, p31 in *; lia.
Qed.

(** *** Halves and rotations *)

Lemma cat_ok h l : 0 ≤ h → 0 ≤ l < 2 ^ 16 → (h * 2 ^ 16) .| l = Spec.cat h l.
Proof. intros. by apply lor_disjoint. Qed.
Lemma cat_word h l : 0 ≤ h < 2 ^ 16 → 0 ≤ l < 2 ^ 16 → is_word (Spec.cat h l).
Proof. unfold is_word, Spec.cat. lia. Qed.
Lemma hi_range x : is_cell x → 0 ≤ Spec.hi x < 2 ^ 16.
Proof. unfold is_cell, p31, Spec.hi. lia. Qed.
Lemma lo_range x : 0 ≤ Spec.lo x < 2 ^ 16.
Proof. unfold Spec.lo. lia. Qed.
#[local] Hint Resolve hi_range lo_range cat_word : machine.

Lemma brc_hi_lo a b : is_cell a → shl32 (a .& 0x7FFF8000) 1 .| (b .& 0xFFFF) = Spec.cat (Spec.hi a) (Spec.lo b).
Proof.
  intros Ha. change 0xFFFF with (2 ^ 16 - 1). change 0x7FFF8000 with ((2 ^ 16 - 1) << 15). rewrite land_mask by lia.
  assert (a .& ((2 ^ 16 - 1) << 15) = (a >> 15) << 15) as ->.
  { apply Z.bits_inj'. intros i Hi. rewrite Z.land_spec. destruct (Z.ltb_spec i 15).
    - rewrite !Z.shiftl_spec_low by lia. by rewrite andb_false_r.
    - rewrite !Z.shiftl_spec_high, Z.shiftr_spec by lia. replace (i - 15 + 15) with i by lia.
      replace (2 ^ 16 - 1) with (Z.ones 16) by done. destruct (Z.ltb_spec (i - 15) 16).
      + rewrite Z.ones_spec_low by lia. by rewrite andb_true_r.
      + rewrite Z.ones_spec_high by lia. unfold is_cell, p31 in Ha. rewrite andb_false_r. symmetry.
        by apply (proj2 (proj1 (pow2_range_bits 31 ltac:(lia) a) ltac:(lia))); lia. }
  rewrite <- cat_ok by (try apply hi_range; try apply lo_range; done). unfold Spec.hi, Spec.lo, shl32, u32.
  rewrite Z.shiftr_div_pow2, !Z.shiftl_mul_pow2 by lia. f_equal. unfold is_cell, p31 in Ha. lia.
Qed.
Lemma brc_lo_hi a b : is_cell b → shl32 (a .& 0xFFFF) 16 .| (b >> 15) = Spec.cat (Spec.lo a) (Spec.hi b).
Proof.
  intros Hb. change 0xFFFF with (2 ^ 16 - 1). rewrite land_mask by lia.
  rewrite <- cat_ok by (try apply hi_range; try apply lo_range; done). unfold Spec.hi, Spec.lo, shl32, u32.
  rewrite Z.shiftr_div_pow2, !Z.shiftl_mul_pow2 by lia. f_equal. apply Z.mod_small. lia.
Qed.
Lemma halves_ok a b : is_word a → is_word b → shl32 a 16 .| (b >> 16) = Spec.cat (a mod 2 ^ 16) (b / 2 ^ 16).
Proof.
  unfold is_word. intros Ha Hb. rewrite <- cat_ok by lia. unfold shl32, u32.
  rewrite Z.shiftr_div_pow2, !Z.shiftl_mul_pow2 by lia. f_equal. lia.
Qed.
Lemma ROT_ok x k : is_word x → 0 < k < 32 → ROT x k = Spec.rotl x k.
Proof.
  intros Hx Hk. unfold ROT, Spec.rotl, shl32, u32, is_word in *. rewrite Z.shiftr_div_pow2, Z.shiftl_mul_pow2 by lia.
  assert (H2 : 0 < 2 ^ k) by lia. assert (H2' : 0 < 2 ^ (32 - k)) by lia.
  assert (E : 2 ^ 32 = 2 ^ (32 - k) * 2 ^ k) by (rewrite <- Z.pow_add_r by lia; f_equal; lia).
  rewrite E at 1 2. rewrite Z.mul_mod_distr_r by lia. rewrite lor_disjoint; [done|lia|].
  split; [apply Z.div_pos; lia|]. apply Z.div_lt_upper_bound; lia.
Qed.
Lemma rotl_word x k : is_word x → 0 < k < 32 → is_word (Spec.rotl x k).
Proof.
  intros Hx Hk. rewrite <- ROT_ok by done. unfold ROT. apply (lor_range 32); [lia|apply u32_word|]. apply shiftr_range; done || lia.
Qed.
Lemma L1_ok x : is_word x → L1 x = Spec.L1 x ∧ is_word (Spec.L1 x).
Proof.
  intros Hx. unfold L1, Spec.L1. rewrite !ROT_ok by (done || lia). split; [done|].
  repeat apply lxor_word; done || (apply rotl_word; done || lia).
Qed.
Lemma L2_ok x : is_word x → L2 x = Spec.L2 x ∧ is_word (Spec.L2 x).
Proof.
  intros Hx. unfold L2, Spec.L2. rewrite !ROT_ok by (done || lia). split; [done|].
  repeat apply lxor_word; done || (apply rotl_word; done || lia).
Qed.

(** *** The function F *)

Lemma S0_bytes : bytes S0.
Proof. by apply bytes_by_check. Qed.
Lemma S1_bytes : bytes S1.
Proof. by apply bytes_by_check. Qed.

Lemma MAKEU32_ok a b c d : is_byte a → is_byte b → is_byte c → is_byte d → MAKEU32 a b c d = word a b c d.
Proof.
  intros Ha Hb Hc Hd. rewrite <- word_lors by done. unfold MAKEU32, shl32, u32.
  unfold is_byte in *. rewrite !Z.mod_small; [done|rewrite Z.shiftl_mul_pow2 by lia; lia..].
Qed.
Lemma sbox_ok u : is_word u → sbox_word u = Spec.sbox u ∧ is_word (Spec.sbox u).
Proof.
  intros (a & b & c & d & -> & Ha & Hb & Hc & Hd)%word_cases. unfold Spec.sbox, sbox_word.
  rewrite be_bytes_word, word_byte0, word_byte1, word_byte2, word_byte3 by done.
  pose proof (λ x, tbl_byte S0 x S0_bytes) as B0. pose proof (λ x, tbl_byte S1 x S1_bytes) as B1.
  split; [by apply MAKEU32_ok|by apply word_range].
Qed.

Lemma F_agrees s r : agrees s r →
  agrees (BitReorganization s) r ∧ (F (BitReorganization s)).1 = Spec.W r ∧ agrees (F (BitReorganization s)).2 (Spec.step_F r) ∧
  BRC_X3 (F (BitReorganization s)).2 = Spec.X3 r.
Proof.
  intros (El & E1 & E2 & Hl & Hc & W1 & W2).
  assert (C : ∀ i, (i < 16)%nat → is_cell (Spec.cell r i)) by (intros; by apply cell_ok).
  assert (B : BitReorganization s = State (Spec.s_cells r) (Spec.s_R1 r) (Spec.s_R2 r) (Spec.X0 r) (Spec.X1 r) (Spec.X2 r) (Spec.X3 r)).
  { unfold BitReorganization, LFSR_S. rewrite El, E1, E2. change (nth ?i (Spec.s_cells r) 0) with (Spec.cell r i).
    f_equal; (apply brc_hi_lo || apply brc_lo_hi); apply C; lia. }
  rewrite B. split; [done|]. unfold F. cbn [fst snd LFSR F_R1 F_R2 BRC_X0 BRC_X1 BRC_X2 BRC_X3]. split; [done|]. split; [|done].
  assert (X2w : is_word (Spec.X2 r)) by (apply cat_word; [apply lo_range|apply hi_range, C; lia]).
  unfold agrees, Spec.step_F. cbn [LFSR F_R1 F_R2 Spec.s_cells Spec.s_R1 Spec.s_R2]. unfold add32, u32.
  set (A1 := (_ + _) mod 2 ^ 32). assert (HA1 : is_word A1) by (apply Z.mod_pos_bound; lia).
  set (A2 := Spec.s_R2 r .^ Spec.X2 r). assert (HA2 : is_word A2) by (by apply lxor_word).
  rewrite !halves_ok by done.
  assert (Hcat : ∀ a b, is_word b → is_word (Spec.cat (a mod 2 ^ 16) (b / 2 ^ 16))) by
    (intros a b Hb; unfold is_word in *; apply cat_word; lia).
  destruct (L1_ok _ (Hcat A1 A2 HA2)) as [-> HL1]. destruct (L2_ok _ (Hcat A2 A1 HA1)) as [-> HL2].
  destruct (sbox_ok _ HL1) as [-> ?]. destruct (sbox_ok _ HL2) as [-> ?]. done.
Qed.

(** *** Runs *)

Lemma work_step_agrees s r : agrees s r →
  let '(w, s') := F (BitReorganization s) in
  w .^ BRC_X3 s' = Spec.W r .^ Spec.X3 r ∧ agrees (LFSRWithWorkMode s') (Spec.work_step r).
Proof.
  intros H. destruct (F_agrees s r H) as (_ & Ew & Ha & Ex). destruct (F (BitReorganization s)) as [w s'].
  cbn in Ew, Ha, Ex. rewrite Ew, Ex. split; [done|]. by apply work_agrees.
Qed.
Lemma init_round_agrees s r : agrees s r → agrees (init_round s) (Spec.init_step r).
Proof.
  intros H. destruct (F_agrees s r H) as (_ & Ew & Ha & _). unfold init_round. destruct (F (BitReorganization s)) as [w s'].
  cbn in Ew, Ha. subst w. unfold Spec.init_step. rewrite Z.shiftr_div_pow2 by lia. apply init_agrees; [done|].
  unfold Spec.W. lia.
Qed.
Lemma init_rounds_agree n s r : agrees s r → agrees (Nat.iter n init_round s) (Nat.iter n Spec.init_step r).
Proof. intros H. induction n as [|n IH]; [done|]. by apply init_round_agrees. Qed.
Lemma key_stream_agrees n s r : agrees s r → (key_stream_words n s).1 = Spec.stream n r.
Proof.
  revert s r. induction n as [|n IH]; intros s r H; [done|]. cbn [key_stream_words Spec.stream].
  pose proof (work_step_agrees s r H) as Hw. destruct (F (BitReorganization s)) as [w s']. destruct Hw as [-> Hw].
  rewrite <- (IH _ _ Hw). by destruct (key_stream_words n (LFSRWithWorkMode s')).
Qed.

Lemma MAKEU31_ok a b c : is_byte a → 0 < b < 2 ^ 15 → is_byte c →
  MAKEU31 a b c = a * 2 ^ 23 + b * 2 ^ 8 + c ∧ is_cell (MAKEU31 a b c).
Proof.
  unfold is_byte. intros Ha Hb Hc. assert (E : MAKEU31 a b c = a * 2 ^ 23 + b * 2 ^ 8 + c).
  { unfold MAKEU31, shl32, u32. rewrite !Z.shiftl_mul_pow2, !Z.mod_small by lia.
    rewrite (lor_disjoint a _ 23) by lia. replace (a * 2 ^ 23 + b * 2 ^ 8) with ((a * 2 ^ 15 + b) * 2 ^ 8) by lia.
    apply lor_disjoint; lia. }
  rewrite E. split; [done|]. unfold is_cell, p31. lia.
Qed.
Lemma load_agrees k iv s : length k = 16%nat → bytes k → length iv = 16%nat → bytes iv →
  agrees (State (map (λ i, MAKEU31 (nth i k 0) (nth i EK_d 0) (nth i iv 0)) (seq 0 16)) 0 0
       (BRC_X0 s) (BRC_X1 s) (BRC_X2 s) (BRC_X3 s)) (Spec.load k iv).
Proof.
  intros Hk Bk Hi Bi. unfold agrees, Spec.load. cbn [LFSR F_R1 F_R2 Spec.s_cells Spec.s_R1 Spec.s_R2].
  assert (E : map (λ i, MAKEU31 (nth i k 0) (nth i EK_d 0) (nth i iv 0)) (seq 0 16) =
    zip_with (λ '(k, d) v, k * 2 ^ 23 + d * 2 ^ 8 + v) (zip k EK_d) iv).
  { sixteen k. sixteen iv. repeat (apply Forall_cons in Bk as [? Bk]). repeat (apply Forall_cons in Bi as [? Bi]).
    cbn [map seq nth EK_d zip zip_with]. by repeat (rewrite (λ a b c A B C, proj1 (MAKEU31_ok a b c A B C)) by (done || lia)). }
  rewrite <- E. split_and!; try done. apply Forall_forall. intros x Hx. apply list_elem_of_In, in_map_iff in Hx as (i & <- & Hi').
  apply in_seq in Hi'. apply MAKEU31_ok.
  - by apply bytes_nth.
  - do 16 (destruct i as [|i]; [cbn; lia|]). lia.
  - by apply bytes_nth.
Qed.

Lemma ZUC_agrees k iv s : length k = 16%nat → bytes k → length iv = 16%nat → bytes iv →
  ∃ s', agrees s' (Spec.start k iv) ∧ ∀ n, ZUC k iv n s = key_stream_words n s'.
Proof.
  intros Hk Bk Hi Bi. unfold ZUC, zuc_generate_key_stream, Spec.start, zuc_initialize.
  pose proof (init_rounds_agree 32 _ _ (load_agrees k iv s Hk Bk Hi Bi)) as H.
  set (s0 := Nat.iter 32 init_round _) in *. set (r0 := Nat.iter 32 Spec.init_step _) in *. clearbody s0 r0.
  pose proof (work_step_agrees s0 r0 H) as Hw. destruct (F (BitReorganization s0)) as [w s']. destruct Hw as [_ Hw].
  by eexists.
Qed.
Lemma zuc_keystream k iv n s : length k = 16%nat → bytes k → length iv = 16%nat → bytes iv →
  (ZUC k iv n s).1 = Spec.keystream k iv n.
Proof. intros Hk Bk Hi Bi. destruct (ZUC_agrees k iv s Hk Bk Hi Bi) as (s' & H & ->). by apply key_stream_agrees. Qed.

(** Every word of the stream is one. *)
Lemma key_stream_word s r n : agrees s r → words (Spec.stream n r).
Proof.
  revert s r. induction n as [|n IH]; intros s r H; [constructor|]. cbn [Spec.stream]. constructor.
  - destruct H as (_ & _ & _ & Hl & Hc & _). apply lxor_word; [apply Z.mod_pos_bound; lia|].
    apply cat_word; [apply lo_range|apply hi_range, cell_ok; done || lia].
  - pose proof (work_step_agrees s r H) as Hw. destruct (F (BitReorganization s)) as [w s']. destruct Hw as [_ Hw].
    by apply (IH _ _ Hw).
Qed.
Lemma keystream_words k iv n : length k = 16%nat → bytes k → length iv = 16%nat → bytes iv → words (Spec.keystream k iv n).
Proof. intros Hk Bk Hi Bi. destruct (ZUC_agrees k iv zuc_registers Hk Bk Hi Bi) as (s' & H & _). by apply (key_stream_word s'). Qed.

(** The key stream is that of the specification, for every key and vector,
    whatever the registers hold from an earlier run; in particular the elements
    of the register remain in 1 to 2^31 - 1 and every step is the linear
    recurrence of the specification modulo 2^31 - 1. *)
Theorem zuc_is_specification k iv n s :
  length k = 16%nat → bytes k → length iv = 16%nat → bytes iv →
  (ZUC k iv n s).1 = Spec.keystream k iv n.
Proof. apply zuc_keystream. Qed.

Lemma zuc_is_specification_witness :
  (ZUC (replicate 16 0) (replicate 16 0) 2 zuc_registers).1 = Spec.keystream (replicate 16 0) (replicate 16 0) 2.
Proof. apply zuc_is_specification; [reflexivity|by apply bytes_by_check|reflexivity|by apply bytes_by_check]. Defined.
