(* ===== verification/EeaSpec.v ===== *)
(** * 128-EEA3 and 128-EIA3

    What [zuc_eea3] and [zuc_eia3] (lib/crypt/zuc.c) compute on a message that
    is any number of bits long. *)
From S2P Require Import Prelude XactBase Octets Words AesModesSpec Zuc ZucSpec.
#[local] Open Scope Z_scope.
#[local] Open Scope c_scope.
#[local] Ltac Zify.zify_post_hook ::= Z.to_euclidean_division_equations.
Import Zuc.

(** ** Messages as bits *)

(** The bytes that hold [n] bits, with zeros after them. *)
Definition keep_bits (n : Z) (l : list Z) : list Z :=
  let t := 8 * Z.of_nat (length l) - n in
  be_bytes (length l) (be_value l / 2 ^ t * 2 ^ t).
(** Bit [i] of a message, the first one being the most significant. *)
Definition msg_bit (l : list Z) (i : Z) : bool := Z.testbit (be_value l) (8 * Z.of_nat (length l) - 1 - i).
Definition bytes_of (z : list Z) : list Z := mbind (be_bytes 4) z.

Definition clear_last (t : Z) (l : list Z) : list Z :=
  if t =? 0 then l else alter (λ b, b .& (0x100 - (1 << t))) (length l - 1)%nat l.

Lemma byte_clear b t : is_byte b → 0 ≤ t < 8 → b .& (0x100 - (1 << t)) = b / 2 ^ t * 2 ^ t.
Proof.
  intros Hb Ht. assert (t = 0 ∨ t = 1 ∨ t = 2 ∨ t = 3 ∨ t = 4 ∨ t = 5 ∨ t = 6 ∨ t = 7) as Hc by lia. clear Ht.
  destruct_or! Hc; subst t; by_bytes b Hb; reflexivity.
Qed.
Lemma alter_snoc (f : Z → Z) l b : alter f (length l) (l ++ [b]) = l ++ [f b].
Proof. induction l as [|x l IH]; [done|]. cbn. f_equal. exact IH. Qed.
Lemma clear_last_snoc t l b : is_byte b → 0 ≤ t < 8 → clear_last t (l ++ [b]) = l ++ [b / 2 ^ t * 2 ^ t].
Proof.
  intros Hb Ht. unfold clear_last. destruct (Z.eqb_spec t 0) as [->|].
  { by rewrite Z.div_1_r, Z.mul_1_r. }
  rewrite length_app. cbn [length]. replace (length l + 1 - 1)%nat with (length l) by lia.
  rewrite alter_snoc. by rewrite byte_clear.
Qed.
Lemma clear_last_ok n l : bytes l → (length l = Z.to_nat ((n + 7) / 8))%nat → 0 ≤ n →
  clear_last ((8 - n mod 8) mod 8) l = keep_bits n l.
Proof.
  intros Hl Hlen Hn. destruct l as [|b l _] using rev_ind.
  { assert (n = 0) as -> by (cbn in Hlen; lia). done. }
  apply Forall_app in Hl as [Hl [Hb _]%Forall_cons]. rewrite length_app in Hlen. cbn in Hlen.
  set (t := (8 - n mod 8) mod 8). assert (Ht : 0 ≤ t < 8) by (unfold t; lia).
  rewrite clear_last_snoc by done. unfold keep_bits. rewrite length_app. cbn [length].
  replace (8 * Z.of_nat (length l + 1) - n) with t by (unfold t; lia).
  assert (E : be_value (l ++ [b]) = be_value l * 256 + b) by apply be_value_app.
  rewrite E. assert (H2 : 0 < 2 ^ t) by lia. assert (H8 : 2 ^ t * 2 ^ (8 - t) = 256) by (rewrite <- Z.pow_add_r by lia; by replace (t + (8 - t)) with 8 by lia).
  assert (Hb' : is_byte (b / 2 ^ t * 2 ^ t)).
  { unfold is_byte in *. pose proof (Z.div_mod b (2 ^ t) ltac:(lia)). pose proof (Z.mod_pos_bound b (2 ^ t) ltac:(lia)).
    pose proof (Z.div_pos b (2 ^ t) ltac:(lia) ltac:(lia)). nia. }
  rewrite <- H8 at 1. replace (be_value l * (2 ^ t * 2 ^ (8 - t)) + b) with (be_value l * 2 ^ (8 - t) * 2 ^ t + b) by ring.
  rewrite Z.div_add_l by lia. replace ((be_value l * 2 ^ (8 - t) + b / 2 ^ t) * 2 ^ t) with (be_value (l ++ [b / 2 ^ t * 2 ^ t])).
  - rewrite <- (be_bytes_value (l ++ [_])) at 1; [by rewrite length_app|]. apply Forall_app. split; [done|by apply Forall_singleton].
  - rewrite be_value_app, <- H8. ring.
Qed.

(** ** The key stream as bytes *)

Lemma bytes_of_length z : length (bytes_of z) = (4 * length z)%nat.
Proof.
  induction z as [|w z IH]; [done|]. change (bytes_of (w :: z)) with (be_bytes 4 w ++ bytes_of z).
  rewrite length_app, be_bytes_length, IH. cbn [length]. lia.
Qed.
Lemma bytes_of_bytes z : bytes (bytes_of z).
Proof.
  induction z as [|w z IH]; [constructor|]. change (bytes_of (w :: z)) with (be_bytes 4 w ++ bytes_of z).
  apply Forall_app. split; [apply be_bytes_bytes|done].
Qed.
Lemma be_bytes4 w : be_bytes 4 w = [u8 (w >> 24); u8 (w >> 16); u8 (w >> 8); u8 w].
Proof.
  unfold u8. rewrite !Z.shiftr_div_pow2 by lia. cbn [be_bytes]. by rewrite Z.div_1_r.
Qed.
Lemma nth_bytes_of z i : nth i (bytes_of z) 0 = (nth (i / 4) z 0 >> ((3 - Z.of_nat (i mod 4)) * 8)) .& 0xff.
Proof.
  revert i. induction z as [|w z IH]; intros i.
  { destruct i; cbn [nth bytes_of mbind list_bind]; destruct (_ / 4)%nat; by rewrite Z.shiftr_0_l. }
  assert (Eb : bytes_of (w :: z) = be_bytes 4 w ++ bytes_of z) by done. rewrite Eb, be_bytes4.
  change 0xff with (2 ^ 8 - 1). rewrite land_mask by lia.
  do 4 (destruct i as [|i]; [done|]). replace (S (S (S (S i)))) with (i + 1 * 4)%nat by lia.
  rewrite Nat.div_add, Nat.Div0.mod_add by lia. rewrite Nat.add_1_r. replace (i + 1 * 4)%nat with (S (S (S (S i)))) by lia.
  cbn [nth app]. rewrite IH. change 0xff with (2 ^ 8 - 1). by rewrite land_mask by lia.
Qed.
Lemma eea3_bytes M z n : (n ≤ length M)%nat → (n ≤ 4 * length z)%nat →
  map (λ i, nth i M 0 .^ ((nth (i / 4) z 0 >> ((3 - Z.of_nat (i mod 4)) * 8)) .& 0xff)) (seq 0 n) =
  xor_bytes (take n M) (bytes_of z).
Proof.
  intros HM Hz. apply (nth_ext _ _ 0 0).
  { rewrite length_map, length_seq, xor_bytes_length, length_take, bytes_of_length. lia. }
  rewrite length_map, length_seq. intros i Hi.
  rewrite (nth_indep _ 0 (nth 0 M 0 .^ ((nth (0 / 4) z 0 >> ((3 - Z.of_nat (0 mod 4)) * 8)) .& 0xff))) by (by rewrite length_map, length_seq).
  rewrite (map_nth (λ i, nth i M 0 .^ ((nth (i / 4) z 0 >> ((3 - Z.of_nat (i mod 4)) * 8)) .& 0xff))), seq_nth, Nat.add_0_l, <- nth_bytes_of by done.
  unfold xor_bytes. rewrite !nth_lookup, lookup_zip_with, lookup_take_lt by done.
  destruct (lookup_lt_is_Some_2 M i ltac:(lia)) as [m ->].
  destruct (lookup_lt_is_Some_2 (bytes_of z) i ltac:(rewrite bytes_of_length; lia)) as [k ->]. done.
Qed.

(** The vectors of the specification: of 128-EEA3, COUNT, five bits of BEARER,
    DIRECTION and 26 zeros, twice; of 128-EIA3, COUNT, BEARER and 27 zeros,
    twice, and DIRECTION is added to the bits 0 and 48 of the second half. *)
Definition eea3_vector (COUNT BEARER DIRECTION : Z) : list Z :=
  let half := be_bytes 4 COUNT ++ be_bytes 4 (BEARER mod 2 ^ 5 * 2 ^ 27 + DIRECTION mod 2 * 2 ^ 26) in half ++ half.
Definition eia3_vector (COUNT BEARER DIRECTION : Z) : list Z :=
  be_bytes 8 (COUNT mod 2 ^ 32 * 2 ^ 32 + BEARER mod 2 ^ 5 * 2 ^ 27) ++
  be_bytes 8 ((COUNT mod 2 ^ 32 * 2 ^ 32 + BEARER mod 2 ^ 5 * 2 ^ 27) + DIRECTION mod 2 * 2 ^ 63 + DIRECTION mod 2 * 2 ^ 15).

Lemma count_bytes_ok c : count_bytes c = be_bytes 4 c.
Proof.
  rewrite be_bytes4. unfold count_bytes, u8. change 0xFF with (2 ^ 8 - 1). by rewrite !land_mask by lia.
Qed.
Lemma bearer_octet b : shl32 b 3 .& 0xF8 = 8 * (b mod 2 ^ 5).
Proof.
  unfold shl32, u32. rewrite Z.shiftl_mul_pow2 by lia. change 0xF8 with (Z.shiftl (2 ^ 5 - 1) 3).
  change (2 ^ 32) with (2 ^ 29 * 2 ^ 3). rewrite Z.mul_mod_distr_r by lia. rewrite <- Z.shiftl_mul_pow2 by lia.
  rewrite <- Z.shiftl_land, land_mask, Z.shiftl_mul_pow2 by lia. change (2 ^ 29) with (2 ^ 5 * 2 ^ 24).
  rewrite Z.rem_mul_r by lia. lia.
Qed.
Lemma be_bytes8 a b : 0 ≤ b < 2 ^ 32 → be_bytes 8 (a * 2 ^ 32 + b) = be_bytes 4 a ++ be_bytes 4 b.
Proof.
  intros Hb. assert (E : be_value (be_bytes 4 a ++ be_bytes 4 b) = (a * 2 ^ 32 + b) mod 2 ^ 64).
  { rewrite be_value_concat, !be_value_bytes, be_bytes_length. change (8 * Z.of_nat 4) with 32. lia. }
  rewrite <- be_bytes_mod. change (8 * Z.of_nat 8) with 64. rewrite <- E.
  apply (be_bytes_value (be_bytes 4 a ++ be_bytes 4 b)). apply Forall_app. split; apply be_bytes_bytes.
Qed.
Lemma lxor_top y : is_byte y → y .^ 128 = (y + 128) mod 256.
Proof. intros Hy. by_bytes y Hy. Qed.
(** The first bit of a word. *)
Lemma be_bytes_top c : be_bytes 4 (c + 2 ^ 31) = alter (λ x, 128 .^ x) 0%nat (be_bytes 4 c).
Proof.
  rewrite <- be_bytes_mod, <- (be_bytes_mod 4 c). change (8 * Z.of_nat 4) with 32.
  destruct (word_cases (c mod 2 ^ 32)) as (p & q & r & s & E & Hp & Hq & Hr & Hs); [unfold is_word; lia|].
  assert (Ep : (c + 2 ^ 31) mod 2 ^ 32 = word ((p + 128) mod 256) q r s).
  { rewrite word_eq in *. unfold is_byte in *. lia. }
  rewrite Ep, E, !be_bytes_word by (done || unfold is_byte; lia). cbn. by rewrite Z.lxor_comm, lxor_top.
Qed.
Lemma bearer_octets b e : 0 ≤ b < 32 → (e = 0 ∨ e = 2 ^ 15 ∨ e = 2 ^ 26) →
  be_bytes 4 (b * 2 ^ 27 + e) = [8 * b + e / 2 ^ 24; 0; e / 2 ^ 8 mod 2 ^ 8; 0].
Proof.
  intros Hb He. assert (H : forallb (λ b, forallb (λ e, bool_decide (be_bytes 4 (b * 2 ^ 27 + e) = [8 * b + e / 2 ^ 24; 0; e / 2 ^ 8 mod 2 ^ 8; 0]))
    [0; 2 ^ 15; 2 ^ 26]) (seqZ 0 32) = true) by (vm_compute; reflexivity).
  rewrite forallb_forall in H. specialize (H b). rewrite <- list_elem_of_In, elem_of_seqZ in H. specialize (H ltac:(lia)).
  rewrite forallb_forall in H. specialize (H e). eapply bool_decide_eq_true_1, H. cbn -[Z.pow]. naive_solver.
Qed.
Lemma direction_bit d : d .& 1 = d mod 2.
Proof. change 1 with (2 ^ 1 - 1). by rewrite land_mask by lia. Qed.
Lemma eia3_iv_spec c b d : eia3_iv c b d = eia3_vector c b d.
Proof.
  unfold eia3_iv, eia3_vector. cbv zeta. rewrite count_bytes_ok, bearer_octet, direction_bit.
  assert (Hb : 0 ≤ b mod 2 ^ 5 < 32) by lia. revert Hb. generalize (b mod 2 ^ 5). clear b. intros b Hb.
  rewrite be_bytes8, <- (be_bytes_mod 4 c) by lia. change (8 * Z.of_nat 4) with 32. generalize (c mod 2 ^ 32). clear c. intros c.
  pose proof (bearer_octets b 0 Hb ltac:(auto)) as E0. pose proof (bearer_octets b (2 ^ 15) Hb ltac:(auto)) as E1.
  rewrite !Z.add_0_r in E0. change (8 * b + 0 / 2 ^ 24) with (8 * b + 0) in E0.
  change ((0 / 2 ^ 8) mod 2 ^ 8) with 0 in E0. change (2 ^ 15 / 2 ^ 24) with 0 in E1. change ((2 ^ 15 / 2 ^ 8) mod 2 ^ 8) with 128 in E1.
  rewrite Z.add_0_r in E1.
  assert (Hd : d mod 2 = 0 ∨ d mod 2 = 1) by lia. destruct Hd as [-> | ->].
  - rewrite Z.mul_0_l, !Z.add_0_r, be_bytes8, E0 by lia. change (shl32 0 7) with 0. reflexivity.
  - replace (c * 2 ^ 32 + b * 2 ^ 27 + 1 * 2 ^ 63 + 1 * 2 ^ 15) with ((c + 2 ^ 31) * 2 ^ 32 + (b * 2 ^ 27 + 2 ^ 15)) by lia.
    rewrite be_bytes8, E1, be_bytes_top, E0 by lia. change (shl32 1 7) with 128. reflexivity.
Qed.
Lemma eea3_iv_spec c b d : eea3_iv c b d = eea3_vector c b d.
Proof.
  unfold eea3_iv, eea3_vector. cbv zeta. rewrite count_bytes_ok, direction_bit.
  assert (Hb : 0 ≤ b mod 2 ^ 5 < 32) by lia.
  assert (Hd : d mod 2 = 0 ∨ d mod 2 = 1) by lia.
  assert (E : (shl32 b 3 .| shl32 (d mod 2) 2) .& 0xFC = 8 * (b mod 2 ^ 5) + 4 * (d mod 2)).
  { assert (Ex : (shl32 b 3 .| shl32 (d mod 2) 2) .& 0xFC = (8 * (b mod 2 ^ 5) .| 4 * (d mod 2)) .& 0xFC).
    { change 0xFC with (0xFF .& 0xFC). rewrite !Z.land_assoc. f_equal. rewrite !Z.land_lor_distr_l. change 0xFF with (2 ^ 8 - 1).
      rewrite !land_mask by lia. unfold shl32, u32. rewrite !Z.shiftl_mul_pow2 by lia. f_equal; lia. }
    rewrite Ex. revert Hb. generalize (b mod 2 ^ 5). intros x Hx.
    assert (H : forallb (λ x, forallb (λ y, (8 * x .| 4 * y) .& 0xFC =? 8 * x + 4 * y) [0; 1]) (seqZ 0 32) = true) by (vm_compute; reflexivity).
    rewrite forallb_forall in H. specialize (H x). rewrite <- list_elem_of_In, elem_of_seqZ in H. specialize (H ltac:(lia)).
    rewrite forallb_forall in H. apply Z.eqb_eq, H. cbn. naive_solver. }
  rewrite E. destruct Hd as [-> | ->].
  - rewrite Z.mul_0_l, (bearer_octets _ 0 Hb) by auto. rewrite Z.mul_0_r. reflexivity.
  - rewrite Z.mul_1_l, (bearer_octets _ (2 ^ 26) Hb) by auto. reflexivity.
Qed.

Lemma eea3_iv_ok c b d : length (eea3_vector c b d) = 16%nat ∧ bytes (eea3_vector c b d).
Proof. split; [done|]. repeat (apply Forall_app; split); apply be_bytes_bytes. Qed.

Lemma key_stream_words_length n s : length (key_stream_words n s).1 = n.
Proof.
  revert s. induction n as [|n IH]; intros s; [done|]. cbn [key_stream_words]. destruct (F (BitReorganization s)) as [w s'].
  pose proof (IH (LFSRWithWorkMode s')) as H. destruct (key_stream_words n _). cbn in *. lia.
Qed.
Lemma ZUC_length k iv n s : length (ZUC k iv n s).1 = n.
Proof.
  unfold ZUC, zuc_generate_key_stream. destruct (F _) as [w s']. apply key_stream_words_length.
Qed.

(** ** Encryption *)

Section eea3.
Context (CK : list Z) (COUNT BEARER DIRECTION LENGTH : Z) (Hk : length CK = 16%nat) (Bk : bytes CK).
Context (HL : 0 ≤ LENGTH < 2 ^ 32 - 31).
(** The octets that hold the message, and the stream for it. *)
Definition octets : nat := Z.to_nat ((LENGTH + 7) / 8).
Definition eea3_stream : list Z :=
  bytes_of (Spec.keystream CK (eea3_vector COUNT BEARER DIRECTION) (Z.to_nat ((LENGTH + 31) / 32))).

Lemma zuc_eea3_eq M C s : bytes M → (octets ≤ length M)%nat →
  (zuc_eea3 CK COUNT BEARER DIRECTION LENGTH M C s).1 = keep_bits LENGTH (xor_bytes (take octets M) eea3_stream) ++ drop octets C.
Proof using Hk Bk HL.
  intros BM HM. unfold zuc_eea3. rewrite eea3_iv_spec. destruct (eea3_iv_ok COUNT BEARER DIRECTION) as [Hi Bi].
  pose proof (ZucSpec.zuc_keystream CK (eea3_vector COUNT BEARER DIRECTION) (Z.to_nat (u32 (LENGTH + 31) / 32)) s Hk Bk Hi Bi) as Ez.
  pose proof (ZUC_length CK (eea3_vector COUNT BEARER DIRECTION) (Z.to_nat (u32 (LENGTH + 31) / 32)) s) as Lz.
  destruct (ZUC _ _ _ s) as [z s']. cbn [fst] in *. cbv zeta.
  assert (E31 : u32 (LENGTH + 31) = LENGTH + 31) by (apply Z.mod_small; lia).
  assert (E7 : u32 (LENGTH + 7) = LENGTH + 7) by (apply Z.mod_small; lia).
  rewrite E31 in *. rewrite E7. fold octets. f_equal. unfold eea3_stream. rewrite <- Ez.
  rewrite eea3_bytes by (done || (unfold octets; lia)).
  set (x := xor_bytes _ _). assert (Lx : length x = octets).
  { unfold x. rewrite xor_bytes_length, length_take, bytes_of_length. unfold octets in *. lia. }
  rewrite <- clear_last_ok; [unfold clear_last; by rewrite Lx| |done|lia].
  unfold x. apply xor_bytes_bytes; [by apply Forall_take|]. apply bytes_of_bytes.
Qed.
End eea3.

(** Bits that are dropped do not come back. *)
Lemma keep_bits_xor n x k : bytes x → bytes k → length x = length k → (length x = Z.to_nat ((n + 7) / 8))%nat → 0 ≤ n →
  keep_bits n (xor_bytes (keep_bits n (xor_bytes x k)) k) = keep_bits n x.
Proof.
  intros Bx Bk Hl Hlen Hn.
  assert (H0 : ∀ l, length l = length x → bytes l → keep_bits n l = clear_last ((8 - n mod 8) mod 8) l).
  { intros l Ll Bl. symmetry. apply clear_last_ok; [done|lia..]. }
  assert (Lxk : length (xor_bytes x k) = length x) by (rewrite xor_bytes_length; lia).
  assert (Bxk : bytes (xor_bytes x k)) by (by apply xor_bytes_bytes).
  rewrite (H0 (xor_bytes x k)), (H0 x) by done.
  set (t := (8 - n mod 8) mod 8). assert (Ht : 0 ≤ t < 8) by (unfold t; lia).
  destruct x as [|b x _] using rev_ind.
  { destruct k; [|done]. assert (n = 0) as -> by (cbn in Hlen; lia). done. }
  destruct k as [|c k _] using rev_ind; [rewrite length_app in Hl; cbn in Hl; lia|].
  rewrite !length_app in Hl. cbn in Hl. assert (Hl' : length x = length k) by lia.
  apply Forall_app in Bx as [Bx [Hb _]%Forall_cons]. apply Forall_app in Bk as [Bk [Hc _]%Forall_cons].
  assert (Ex : ∀ b c, xor_bytes (x ++ [b]) (k ++ [c]) = xor_bytes x k ++ [b .^ c]).
  { intros b' c'. unfold xor_bytes. by rewrite zip_with_app. }
  rewrite Ex, clear_last_snoc by auto with machine. unfold xor_bytes at 1. rewrite zip_with_app by (rewrite xor_bytes_length; lia).
  fold (xor_bytes (xor_bytes x k) k). rewrite xor_bytes_twice by lia. cbn [zip_with].
  assert (Hq : ∀ y, is_byte y → is_byte (y / 2 ^ t * 2 ^ t)).
  { intros y Hy. rewrite <- byte_clear by done. by apply (land_range 8). }
  rewrite H0; [|rewrite !length_app; cbn; lia|apply Forall_app; split; [done|apply Forall_singleton; auto 10 with machine]].
  fold t. rewrite !clear_last_snoc by auto 10 with machine. do 2 f_equal.
  rewrite <- !byte_clear by auto 10 with machine. set (m := 0x100 - (1 << t)).
  apply Z.bits_inj'. intros i Hi. rewrite !Z.land_spec, !Z.lxor_spec, !Z.land_spec, Z.lxor_spec.
  destruct (Z.testbit b i), (Z.testbit c i), (Z.testbit m i); reflexivity.
Qed.

(** Encryption exclusive-ors the bits of the message with the key stream of
    the specification, clears the rest of the last octet and writes no other;
    the same function with the same parameters recovers the message from what it
    wrote, in place or not, whatever the registers hold before. *)
Theorem zuc_eea3_roundtrip CK COUNT BEARER DIRECTION LENGTH M C D s s' :
  length CK = 16%nat → bytes CK → 0 ≤ LENGTH < 2 ^ 32 - 31 →
  bytes M → (octets LENGTH ≤ length M)%nat → bytes C →
  let enc := zuc_eea3 CK COUNT BEARER DIRECTION LENGTH in
  let n := octets LENGTH in
  (enc M C s).1 = keep_bits LENGTH (xor_bytes (take n M) (eea3_stream CK COUNT BEARER DIRECTION LENGTH)) ++ drop n C ∧
  (enc (enc M C s).1 D s').1 = keep_bits LENGTH (take n M) ++ drop n D.
Proof.
  intros Hk Bk HL BM HM BC. cbv zeta. rewrite (zuc_eea3_eq _ _ _ _ _ Hk Bk HL M) by done. split; [done|].
  set (n := octets LENGTH) in *. set (k := eea3_stream _ _ _ _ _).
  assert (Lk : (n ≤ length k)%nat) by (unfold k, eea3_stream, n, octets; rewrite bytes_of_length, <- (zuc_keystream _ _ _ zuc_registers), ZUC_length;
    [lia|done|done|apply eea3_iv_ok..]).
  assert (Bk' : bytes k) by apply bytes_of_bytes.
  set (c := keep_bits LENGTH (xor_bytes (take n M) k)).
  assert (Lx : length (xor_bytes (take n M) k) = n) by (rewrite xor_bytes_length, length_take; lia).
  assert (Lc : length c = n) by (unfold c, keep_bits; by rewrite be_bytes_length).
  rewrite (zuc_eea3_eq _ _ _ _ _ Hk Bk HL) by
    (solve [apply Forall_app; split; [apply be_bytes_bytes|by apply Forall_drop]] || rewrite length_app, length_drop; fold n; lia).
  f_equal. fold n k. rewrite (take_app_length' c) by done. unfold c.
  assert (Et : xor_bytes (take n M) k = xor_bytes (take n M) (take n k)).
  { rewrite <- (take_drop n k) at 1. rewrite (AesModesSpec.xor_bytes_app_l (take n M)); [done|]. rewrite !length_take. lia. }
  assert (Et' : ∀ y, length y = n → xor_bytes y k = xor_bytes y (take n k)).
  { intros y Ly. rewrite <- (take_drop n k) at 1. rewrite (AesModesSpec.xor_bytes_app_l y); [done|]. rewrite length_take. lia. }
  rewrite (Et' (keep_bits _ _)) by done. rewrite Et. fold n.
  apply keep_bits_xor; [by apply Forall_take|by apply Forall_take|rewrite !length_take; lia| |lia].
  rewrite length_take, Nat.min_l by done. done.
Qed.

Lemma zuc_eea3_roundtrip_witness :
  let enc := zuc_eea3 (be_bytes 16 5) 7 1 0 13 in
  (enc (enc [1; 2; 3] [9; 9; 9] zuc_registers).1 [4; 4; 4] zuc_registers).1 = keep_bits 13 [1; 2] ++ [4].
Proof.
  cbv zeta. apply (zuc_eea3_roundtrip (be_bytes 16 5) 7 1 0 13 [1; 2; 3] [9; 9; 9]);
    [reflexivity|apply be_bytes_bytes|lia|by apply bytes_by_check|vm_compute; lia|by apply bytes_by_check].
Defined.

(** ** Integrity *)

(** The 32 bits of the key stream that start at bit [i]. *)
Definition stream_word (z : list Z) (i : Z) : Z := (be_value (bytes_of z) / 2 ^ (32 * Z.of_nat (length z) - 32 - i)) mod 2 ^ 32.
(** 128-EIA3: the sum of the words at the bits of the message that are set, of
    the word after the message, and of the last word. *)
Definition eia3_mac (z M : list Z) (LENGTH : Z) : Z :=
  foldl (λ T i, if msg_bit M i then T .^ stream_word z i else T) 0 (seqZ 0 LENGTH)
  .^ stream_word z LENGTH .^ stream_word z (32 * Z.of_nat (length z) - 32).

Lemma be_value_words z w : words (z ++ [w]) → be_value (bytes_of (z ++ [w])) = be_value (bytes_of z) * 2 ^ 32 + w.
Proof.
  intros [_ [Hw _]%Forall_cons]%Forall_app. unfold bytes_of. rewrite bind_app. cbn [mbind list_bind]. rewrite app_nil_r.
  rewrite be_value_concat, be_bytes_length, be_value_bytes. change (8 * Z.of_nat 4) with 32. by rewrite (Z.mod_small w).
Qed.
Lemma stream_word_tbl z q : words z → 0 ≤ q < Z.of_nat (length z) →
  tbl z q = (be_value (bytes_of z) / 2 ^ (32 * (Z.of_nat (length z) - 1 - q))) mod 2 ^ 32.
Proof.
  intros Hz. induction z as [|w z IH] using rev_ind; intros Hq; [cbn in Hq; lia|].
  rewrite be_value_words by done. apply Forall_app in Hz as [Hz [Hw _]%Forall_cons]. rewrite length_app in *. cbn [length] in *.
  unfold tbl in *. destruct (Z.eq_dec q (Z.of_nat (length z))) as [->|Hne].
  - rewrite Nat2Z.id, app_nth2, Nat.sub_diag by lia. replace (_ - 1 - _) with 0 by lia. rewrite Z.mul_0_r, Z.div_1_r.
    rewrite (Z.add_comm (_ * _)), Z_mod_plus_full. symmetry. by apply Z.mod_small.
  - rewrite app_nth1 by lia. rewrite IH by (done || lia).
    replace (32 * (Z.of_nat (length z + 1) - 1 - q)) with (32 + 32 * (Z.of_nat (length z) - 1 - q)) by lia.
    rewrite Z.pow_add_r, <- Z.div_div, Z.div_add_l, (Z.div_small w) by (unfold is_word in Hw; lia). by rewrite Z.add_0_r.
Qed.
Lemma GET_WORD_ok z i : words z → 0 ≤ i → i + 32 ≤ 32 * Z.of_nat (length z) → GET_WORD z i = stream_word z i.
Proof.
  intros Hz Hi Hn. unfold GET_WORD, stream_word. set (V := be_value _). set (n := Z.of_nat (length z)).
  destruct (Z.eqb_spec (i mod 32) 0) as [E|E].
  { rewrite stream_word_tbl by (done || lia). fold V n. do 3 f_equal. unfold n in *. lia. }
  rewrite !stream_word_tbl by (done || lia). fold V n. set (t := i mod 32) in *. assert (Ht : 0 < t < 32) by (unfold t in *; lia).
  set (e := 32 * (n - 1 - (i / 32 + 1))). assert (He : 0 ≤ e) by (unfold e, n in *; lia).
  replace (32 * (n - 1 - i / 32)) with (e + 32) by (unfold e; lia).
  replace (32 * n - 32 - i) with (e + (32 - t)) by (unfold e, t; lia).
  rewrite !Z.pow_add_r, <- !Z.div_div by lia. set (U := V / 2 ^ e).
  unfold shl32, u32. rewrite Z.shiftl_mul_pow2, Z.shiftr_div_pow2 by lia.
  assert (H2 : 0 < 2 ^ t) by lia. assert (H2' : 0 < 2 ^ (32 - t)) by lia.
  assert (E32 : 2 ^ (32 - t) * 2 ^ t = 2 ^ 32) by (rewrite <- Z.pow_add_r by lia; f_equal; lia).
  set (W := U / 2 ^ (32 - t)).
  assert (Hhigh : U / 2 ^ 32 = W / 2 ^ t) by (unfold W; by rewrite Z.div_div, E32 by lia).
  assert (Hlow : (U mod 2 ^ 32) / 2 ^ (32 - t) = W mod 2 ^ t).
  { rewrite <- E32, Z.rem_mul_r by lia. fold W. rewrite Z.add_comm, Z.mul_comm, Z.div_add_l by lia.
    rewrite (Z.div_small (U mod _)) by (apply Z.mod_pos_bound; lia). lia. }
  rewrite Hlow, Hhigh, Zmult_mod_idemp_l, <- E32, Z.mul_mod_distr_r by lia.
  rewrite lor_disjoint by (lia || apply Z.mod_pos_bound; lia).
  rewrite (Z.mul_comm (2 ^ (32 - t))), Z.rem_mul_r by lia. lia.
Qed.

Lemma nth_be_value M i : bytes M → (i < length M)%nat →
  nth i M 0 = (be_value M / 2 ^ (8 * Z.of_nat (length M - 1 - i))) mod 2 ^ 8.
Proof.
  intros HM. revert i. induction M as [|b M IH] using rev_ind; intros i Hi; [cbn in Hi; lia|].
  apply Forall_app in HM as [HM [Hb _]%Forall_cons]. rewrite length_app in *. cbn [length] in *. rewrite be_value_app.
  unfold is_byte in Hb. destruct (decide (i = length M)) as [->|Hne].
  - rewrite app_nth2, Nat.sub_diag by lia. replace (length M + 1 - 1 - length M)%nat with 0%nat by lia.
    cbn. rewrite Z.div_1_r. lia.
  - rewrite app_nth1, IH by (done || lia).
    replace (8 * Z.of_nat (length M + 1 - 1 - i)) with (8 + 8 * Z.of_nat (length M - 1 - i)) by lia.
    rewrite Z.pow_add_r, <- Z.div_div by lia. do 2 f_equal. lia.
Qed.
Lemma GET_BIT_ok M i : bytes M → 0 ≤ i < 8 * Z.of_nat (length M) → GET_BIT M i = msg_bit M i.
Proof.
  intros HM Hi. unfold GET_BIT, msg_bit, tbl. rewrite nth_be_value by (done || lia).
  set (m := Z.of_nat (length M)) in *. set (B := be_value M).
  replace (Z.of_nat (length M - 1 - Z.to_nat (i / 8))) with (m - 1 - i / 8) by lia.
  set (t := 7 - i mod 8). assert (Ht : 0 ≤ t < 8) by (unfold t; lia).
  replace (8 * m - 1 - i) with (t + 8 * (m - 1 - i / 8)) by (unfold t; lia).
  assert (Eb : ∀ x, negb (x .& (1 << t) =? 0) = Z.testbit x t).
  { intros x. rewrite Z.shiftl_1_l. destruct (Z.testbit x t) eqn:Ex.
    - apply negb_true_iff, Z.eqb_neq. intros E0. assert (Z.testbit (x .& 2 ^ t) t = false) as E1 by (rewrite E0; apply Z.bits_0).
      rewrite Z.land_spec, Ex, Z.pow2_bits_true in E1 by lia. done.
    - apply negb_false_iff, Z.eqb_eq. apply Z.bits_inj'. intros j Hj. rewrite Z.land_spec, Z.bits_0.
      destruct (Z.eq_dec j t) as [->|]; [by rewrite Ex|]. rewrite Z.pow2_bits_false by done. apply andb_false_r. }
  rewrite Eb, Z.mod_pow2_bits_low by lia. by rewrite Z.div_pow2_bits by lia.
Qed.

Lemma eia3_iv_ok c b d : length (eia3_vector c b d) = 16%nat ∧ bytes (eia3_vector c b d).
Proof. split; [done|]. apply Forall_app; split; apply be_bytes_bytes. Qed.

Lemma foldl_ext_in {A B} (f g : A → B → A) a l : (∀ a b, b ∈ l → f a b = g a b) → foldl f a l = foldl g a l.
Proof.
  revert a. induction l as [|b l IH]; intros a H; [done|]. cbn. rewrite H by (by left). apply IH.
  intros a' b' Hb'. apply H. by right.
Qed.

(** C15: the code is that of 128-EIA3: with the key stream for the vector of
    the specification, the sum of its words at the bits of the message that are
    set, of the word after the message and of the last word, for every length in
    bits; no word of the key stream beyond those that are made is used. *)
Theorem zuc_eia3_is_eia3 IK COUNT BEARER DIRECTION LENGTH M s :
  length IK = 16%nat → bytes IK → bytes M → 0 ≤ LENGTH ≤ 8 * Z.of_nat (length M) → LENGTH < 2 ^ 32 - 95 →
  (zuc_eia3 IK COUNT BEARER DIRECTION LENGTH M s).1 =
  eia3_mac (Spec.keystream IK (eia3_vector COUNT BEARER DIRECTION) (Z.to_nat ((LENGTH + 95) / 32))) M LENGTH.
Proof.
  intros Hk Bk BM HL Hlt. unfold zuc_eia3. rewrite eia3_iv_spec. assert (E1 : u32 (LENGTH + 64) = LENGTH + 64) by (apply Z.mod_small; lia).
  assert (E2 : u32 (LENGTH + 64 + 31) = LENGTH + 95) by (unfold u32; rewrite Z.mod_small; lia). rewrite E1, E2.
  destruct (eia3_iv_ok COUNT BEARER DIRECTION) as [Hi Bi].
  pose proof (zuc_keystream IK (eia3_vector COUNT BEARER DIRECTION) (Z.to_nat ((LENGTH + 95) / 32)) s Hk Bk Hi Bi) as Ez.
  pose proof (ZUC_length IK (eia3_vector COUNT BEARER DIRECTION) (Z.to_nat ((LENGTH + 95) / 32)) s) as Lz.
  pose proof (keystream_words IK (eia3_vector COUNT BEARER DIRECTION) (Z.to_nat ((LENGTH + 95) / 32)) Hk Bk Hi Bi) as Wz.
  rewrite <- Ez in *. destruct (ZUC _ _ _ s) as [z s']. cbn [fst] in *. cbv zeta. unfold eia3_mac.
  rewrite <- !GET_WORD_ok by (done || lia). f_equal.
  - f_equal. apply foldl_ext_in. intros T i Hin%elem_of_seqZ. rewrite GET_BIT_ok by (done || lia).
    destruct (msg_bit M i); [|done]. by rewrite GET_WORD_ok by (done || lia).
  - unfold GET_WORD. replace (32 * Z.of_nat (length z) - 32) with ((Z.of_nat (length z) - 1) * 32) by lia.
    rewrite Z.mod_mul, Z.div_mul by lia. cbn. f_equal. lia.
Qed.

Lemma zuc_eia3_is_eia3_witness :
  (zuc_eia3 (be_bytes 16 5) 7 1 1 13 [1; 2] zuc_registers).1 =
  eia3_mac (Spec.keystream (be_bytes 16 5) (eia3_vector 7 1 1) 3) [1; 2] 13.
Proof.
  apply (zuc_eia3_is_eia3 (be_bytes 16 5) 7 1 1 13 [1; 2] zuc_registers);
    [reflexivity|apply be_bytes_bytes|by apply bytes_by_check|cbn; lia|lia].
Defined.
