(* ===== verification/Snow.v ===== *)
(** * The SNOW 3G stream cipher, f8 and f9 (lib/crypt/snow-3g.c) and the
    cipher with tables (lib/crypt/openssl/snow_core.c)

    The first computes the products in the field of the shift register when it
    needs them and keeps its registers in static variables; the second looks
    the products up and keeps the registers in a context.  Both sets of
    registers have the same form here. *)
From S2P Require Import Prelude XactBase Octets Words.
#[local] Open Scope Z_scope.
#[local] Open Scope c_scope.

(** [LFSR_S0] to [LFSR_S15], [FSM_R1] to [FSM_R3], or [lfsr] and [fsm] of a
    [SNOW_CTX]. *)
Record snow_state := Snow { lfsr : list Z; fsm_r1 : Z; fsm_r2 : Z; fsm_r3 : Z }.
Definition reg (s : snow_state) (i : nat) : Z := nth i (lfsr s) 0.
(** All elements move by one place, and [v] comes to the end. *)
Definition lfsr_shift (v : Z) (s : snow_state) : snow_state :=
  Snow (map (reg s) (seq 1 15) ++ [v]) (fsm_r1 s) (fsm_r2 s) (fsm_r3 s).

(** ** lib/crypt/snow-3g.c *)

Module Snow3g.

Definition SR : list Z := [
  0x63; 0x7C; 0x77; 0x7B; 0xF2; 0x6B; 0x6F; 0xC5; 0x30; 0x01; 0x67; 0x2B; 0xFE; 0xD7; 0xAB; 0x76;
  0xCA; 0x82; 0xC9; 0x7D; 0xFA; 0x59; 0x47; 0xF0; 0xAD; 0xD4; 0xA2; 0xAF; 0x9C; 0xA4; 0x72; 0xC0;
  0xB7; 0xFD; 0x93; 0x26; 0x36; 0x3F; 0xF7; 0xCC; 0x34; 0xA5; 0xE5; 0xF1; 0x71; 0xD8; 0x31; 0x15;
  0x04; 0xC7; 0x23; 0xC3; 0x18; 0x96; 0x05; 0x9A; 0x07; 0x12; 0x80; 0xE2; 0xEB; 0x27; 0xB2; 0x75;
  0x09; 0x83; 0x2C; 0x1A; 0x1B; 0x6E; 0x5A; 0xA0; 0x52; 0x3B; 0xD6; 0xB3; 0x29; 0xE3; 0x2F; 0x84;
  0x53; 0xD1; 0x00; 0xED; 0x20; 0xFC; 0xB1; 0x5B; 0x6A; 0xCB; 0xBE; 0x39; 0x4A; 0x4C; 0x58; 0xCF;
  0xD0; 0xEF; 0xAA; 0xFB; 0x43; 0x4D; 0x33; 0x85; 0x45; 0xF9; 0x02; 0x7F; 0x50; 0x3C; 0x9F; 0xA8;
  0x51; 0xA3; 0x40; 0x8F; 0x92; 0x9D; 0x38; 0xF5; 0xBC; 0xB6; 0xDA; 0x21; 0x10; 0xFF; 0xF3; 0xD2;
  0xCD; 0x0C; 0x13; 0xEC; 0x5F; 0x97; 0x44; 0x17; 0xC4; 0xA7; 0x7E; 0x3D; 0x64; 0x5D; 0x19; 0x73;
  0x60; 0x81; 0x4F; 0xDC; 0x22; 0x2A; 0x90; 0x88; 0x46; 0xEE; 0xB8; 0x14; 0xDE; 0x5E; 0x0B; 0xDB;
  0xE0; 0x32; 0x3A; 0x0A; 0x49; 0x06; 0x24; 0x5C; 0xC2; 0xD3; 0xAC; 0x62; 0x91; 0x95; 0xE4; 0x79;
  0xE7; 0xC8; 0x37; 0x6D; 0x8D; 0xD5; 0x4E; 0xA9; 0x6C; 0x56; 0xF4; 0xEA; 0x65; 0x7A; 0xAE; 0x08;
  0xBA; 0x78; 0x25; 0x2E; 0x1C; 0xA6; 0xB4; 0xC6; 0xE8; 0xDD; 0x74; 0x1F; 0x4B; 0xBD; 0x8B; 0x8A;
  0x70; 0x3E; 0xB5; 0x66; 0x48; 0x03; 0xF6; 0x0E; 0x61; 0x35; 0x57; 0xB9; 0x86; 0xC1; 0x1D; 0x9E;
  0xE1; 0xF8; 0x98; 0x11; 0x69; 0xD9; 0x8E; 0x94; 0x9B; 0x1E; 0x87; 0xE9; 0xCE; 0x55; 0x28; 0xDF;
  0x8C; 0xA1; 0x89; 0x0D; 0xBF; 0xE6; 0x42; 0x68; 0x41; 0x99; 0x2D; 0x0F; 0xB0; 0x54; 0xBB; 0x16].
Definition SQ : list Z := [
  0x25; 0x24; 0x73; 0x67; 0xD7; 0xAE; 0x5C; 0x30; 0xA4; 0xEE; 0x6E; 0xCB; 0x7D; 0xB5; 0x82; 0xDB;
  0xE4; 0x8E; 0x48; 0x49; 0x4F; 0x5D; 0x6A; 0x78; 0x70; 0x88; 0xE8; 0x5F; 0x5E; 0x84; 0x65; 0xE2;
  0xD8; 0xE9; 0xCC; 0xED; 0x40; 0x2F; 0x11; 0x28; 0x57; 0xD2; 0xAC; 0xE3; 0x4A; 0x15; 0x1B; 0xB9;
  0xB2; 0x80; 0x85; 0xA6; 0x2E; 0x02; 0x47; 0x29; 0x07; 0x4B; 0x0E; 0xC1; 0x51; 0xAA; 0x89; 0xD4;
  0xCA; 0x01; 0x46; 0xB3; 0xEF; 0xDD; 0x44; 0x7B; 0xC2; 0x7F; 0xBE; 0xC3; 0x9F; 0x20; 0x4C; 0x64;
  0x83; 0xA2; 0x68; 0x42; 0x13; 0xB4; 0x41; 0xCD; 0xBA; 0xC6; 0xBB; 0x6D; 0x4D; 0x71; 0x21; 0xF4;
  0x8D; 0xB0; 0xE5; 0x93; 0xFE; 0x8F; 0xE6; 0xCF; 0x43; 0x45; 0x31; 0x22; 0x37; 0x36; 0x96; 0xFA;
  0xBC; 0x0F; 0x08; 0x52; 0x1D; 0x55; 0x1A; 0xC5; 0x4E; 0x23; 0x69; 0x7A; 0x92; 0xFF; 0x5B; 0x5A;
  0xEB; 0x9A; 0x1C; 0xA9; 0xD1; 0x7E; 0x0D; 0xFC; 0x50; 0x8A; 0xB6; 0x62; 0xF5; 0x0A; 0xF8; 0xDC;
  0x03; 0x3C; 0x0C; 0x39; 0xF1; 0xB8; 0xF3; 0x3D; 0xF2; 0xD5; 0x97; 0x66; 0x81; 0x32; 0xA0; 0x00;
  0x06; 0xCE; 0xF6; 0xEA; 0xB7; 0x17; 0xF7; 0x8C; 0x79; 0xD6; 0xA7; 0xBF; 0x8B; 0x3F; 0x1F; 0x53;
  0x63; 0x75; 0x35; 0x2C; 0x60; 0xFD; 0x27; 0xD3; 0x94; 0xA5; 0x7C; 0xA1; 0x05; 0x58; 0x2D; 0xBD;
  0xD9; 0xC7; 0xAF; 0x6B; 0x54; 0x0B; 0xE0; 0x38; 0x04; 0xC8; 0x9D; 0xE7; 0x14; 0xB1; 0x87; 0x9C;
  0xDF; 0x6F; 0xF9; 0xDA; 0x2A; 0xC4; 0x59; 0x16; 0x74; 0x91; 0xAB; 0x26; 0x61; 0x76; 0x34; 0x2B;
  0xAD; 0x99; 0xFB; 0x72; 0xEC; 0x33; 0x12; 0xDE; 0x98; 0x3B; 0xC0; 0x9B; 0x3E; 0x18; 0x10; 0x3A;
  0x56; 0xE1; 0x77; 0xC9; 0x1E; 0x9E; 0x95; 0xA3; 0x90; 0x19; 0xA8; 0x6C; 0x09; 0xD0; 0xF0; 0x86].

Definition MULx (V c : Z) : Z := if negb (V .& 0x80 =? 0) then u8 ((V << 1) .^ c) else u8 (V << 1).
Fixpoint MULxPOW (V : Z) (i : nat) (c : Z) : Z :=
  match i with
  | 0%nat => V
  | S i => MULx (MULxPOW V i c) c
  end.
Definition MULalpha (c : Z) : Z :=
  shl32 (MULxPOW c 23 0xa9) 24 .| shl32 (MULxPOW c 245 0xa9) 16 .| shl32 (MULxPOW c 48 0xa9) 8 .| MULxPOW c 239 0xa9.
Definition DIValpha (c : Z) : Z :=
  shl32 (MULxPOW c 16 0xa9) 24 .| shl32 (MULxPOW c 39 0xa9) 16 .| shl32 (MULxPOW c 6 0xa9) 8 .| MULxPOW c 64 0xa9.

(** The body of [S1] and of [S2], which differ in the table and the constant. *)
Definition sbox_mix (T : list Z) (c w : Z) : Z :=
  let s0 := tbl T (u8 ((w >> 24) .& 0xff)) in
  let s1 := tbl T (u8 ((w >> 16) .& 0xff)) in
  let s2 := tbl T (u8 ((w >> 8) .& 0xff)) in
  let s3 := tbl T (u8 (w .& 0xff)) in
  let r0 := MULx s0 c .^ s1 .^ s2 .^ (MULx s3 c .^ s3) in
  let r1 := (MULx s0 c .^ s0) .^ MULx s1 c .^ s2 .^ s3 in
  let r2 := s0 .^ (MULx s1 c .^ s1) .^ MULx s2 c .^ s3 in
  let r3 := s0 .^ s1 .^ (MULx s2 c .^ s2) .^ MULx s3 c in
  shl32 r0 24 .| shl32 r1 16 .| shl32 r2 8 .| r3.
Definition S1 : Z → Z := sbox_mix SR 0x1b.
Definition S2 : Z → Z := sbox_mix SQ 0x69.

Definition ClockLFSRInitializationMode (F : Z) (s : snow_state) : snow_state :=
  lfsr_shift ((shl32 (reg s 0) 8 .& 0xffffff00) .^ MULalpha (u8 ((reg s 0 >> 24) .& 0xff)) .^ reg s 2 .^
    ((reg s 11 >> 8) .& 0x00ffffff) .^ DIValpha (u8 (reg s 11 .& 0xff)) .^ F) s.
Definition ClockLFSRKeyStreamMode (s : snow_state) : snow_state :=
  lfsr_shift ((shl32 (reg s 0) 8 .& 0xffffff00) .^ MULalpha (u8 ((reg s 0 >> 24) .& 0xff)) .^ reg s 2 .^
    ((reg s 11 >> 8) .& 0x00ffffff) .^ DIValpha (u8 (reg s 11 .& 0xff))) s.
Definition ClockFSM (s : snow_state) : Z * snow_state :=
  let F := (add32 (reg s 15) (fsm_r1 s) .& 0xffffffff) .^ fsm_r2 s in
  let r := add32 (fsm_r2 s) (fsm_r3 s .^ reg s 5) .& 0xffffffff in
  (F, Snow (lfsr s) r (S1 (fsm_r1 s)) (S2 (fsm_r2 s))).

(** The registers after loading the key and the vector. *)
Definition snow_load (k IV : list Z) : snow_state :=
  let k i := nth i k 0 in
  let v i := nth i IV 0 in
  Snow [k 0%nat .^ 0xffffffff; k 1%nat .^ 0xffffffff; k 2%nat .^ 0xffffffff; k 3%nat .^ 0xffffffff;
        k 0%nat; k 1%nat; k 2%nat; k 3%nat;
        k 0%nat .^ 0xffffffff; k 1%nat .^ 0xffffffff .^ v 3%nat; k 2%nat .^ 0xffffffff .^ v 2%nat; k 3%nat .^ 0xffffffff;
        k 0%nat .^ v 1%nat; k 1%nat; k 2%nat; k 3%nat .^ v 0%nat] 0 0 0.
Definition snow_3g_initialize (k IV : list Z) : snow_state :=
  Nat.iter 32 (λ s, let '(F, s) := ClockFSM s in ClockLFSRInitializationMode F s) (snow_load k IV).
Fixpoint key_stream_words (n : nat) (s : snow_state) : list Z * snow_state :=
  match n with
  | 0%nat => ([], s)
  | S n =>
      let '(F, s) := ClockFSM s in
      let w := F .^ reg s 0 in
      let s := ClockLFSRKeyStreamMode s in
      let '(ks, s) := key_stream_words n s in
      (w :: ks, s)
  end.
Definition snow_3g_generate_key_stream (n : nat) (s : snow_state) : list Z * snow_state :=
  let '(_, s) := ClockFSM s in
  let s := ClockLFSRKeyStreamMode s in
  key_stream_words n s.

(** [K[3-i]] is word [i] of the key, as f8 and f9 put it together. *)
Definition key_words (key : list Z) : list Z :=
  let w i := (nth (4 * i) key 0 << 24) .^ (nth (4 * i + 1) key 0 << 16) .^ (nth (4 * i + 2) key 0 << 8) .^ nth (4 * i + 3) key 0 in
  [w 3%nat; w 2%nat; w 1%nat; w 0%nat].

(** The four bytes of a word of the stream. *)
Definition be4 (w : Z) : list Z := [(u8 (w >> 24)) .& 0xff; (u8 (w >> 16)) .& 0xff; (u8 (w >> 8)) .& 0xff; (u8 w) .& 0xff].
(** The new contents of [data]; [None] when words are written beyond its end.
    [length] is in bits. *)
Definition snow_3g_f8 (key : list Z) (count bearer dir : Z) (data : list Z) (length : Z) : option (list Z) :=
  let n := Z.to_nat (u32 (length + 31) / 32) in
  let lastbits := (8 - length mod 8) mod 8 in
  let iv2 := shl32 bearer 27 .| shl32 (dir .& 0x1) 26 in
  let '(KS, _) := snow_3g_generate_key_stream n (snow_3g_initialize (key_words key) [iv2; count; iv2; count]) in
  if (List.length data <? 4 * n)%nat then None
  else
    let data := xor_bytes data (mbind be4 KS ++ replicate (List.length data - 4 * n) 0) in
    Some (if lastbits =? 0 then data
          else alter (λ b, b .& (256 - (1 << lastbits))) (Z.to_nat (length / 8)) data).

(** *** f9 *)

Definition u64 (x : Z) : Z := x mod 2 ^ 64.
Definition MUL64x (V c : Z) : Z :=
  if negb (V .& 0x8000000000000000 =? 0) then u64 (V << 1) .^ c else u64 (V << 1).
Fixpoint MUL64xPOW (V : Z) (i : nat) (c : Z) : Z :=
  match i with
  | 0%nat => V
  | S i => MUL64x (MUL64xPOW V i c) c
  end.
Definition MUL64 (V P c : Z) : Z :=
  foldl (λ result i, if negb ((P >> Z.of_nat i) .& 0x1 =? 0) then result .^ MUL64xPOW V i c else result) 0 (seq 0 64).
Definition mask8bit (n : Z) : Z := u8 (0xFF .^ ((1 << (8 - n)) - 1)).

(** The bytes [data[8*i]] to [data[8*i+7]] as a word. *)
Definition block64 (data : list Z) (i : nat) : Z :=
  foldl (λ V j, V .| (nth (8 * i + j) data 0 << (56 - 8 * Z.of_nat j))) 0 (seq 0 8).
(** The last block: [n] whole bytes and some bits of the next. *)
Definition last_block64 (data : list Z) (i : nat) (rem_bits : Z) : Z :=
  let n := Z.to_nat (rem_bits / 8) in
  let M := foldl (λ V j, V .| (nth (8 * i + j) data 0 << (8 * (7 - Z.of_nat j)))) 0 (seq 0 n) in
  if 0 <? rem_bits mod 8
  then M .| ((nth (8 * i + n) data 0 .& mask8bit (rem_bits mod 8)) << (8 * (7 - Z.of_nat n)))
  else M.

Definition snow_3g_f9 (key : list Z) (count fresh dir : Z) (data : list Z) (length : Z) : list Z :=
  let IV := [fresh .^ shl32 dir 15; count .^ shl32 dir 31; fresh; count] in
  let '(z, _) := snow_3g_generate_key_stream 5 (snow_3g_initialize (key_words key) IV) in
  let P := (nth 0 z 0 << 32) .| nth 1 z 0 in
  let Q := (nth 2 z 0 << 32) .| nth 3 z 0 in
  let D := u32 (if length mod 64 =? 0 then (length >> 6) + 1 else (length >> 6) + 2) in
  let c := 0x1b in
  let last := Z.to_nat (u32 (D - 2)) in
  let EVAL := foldl (λ EVAL i, MUL64 (EVAL .^ block64 data i) P c) 0 (seq 0 last) in
  let rem_bits := if length mod 64 =? 0 then 64 else length mod 64 in
  let EVAL := MUL64 (EVAL .^ last_block64 data last rem_bits) P c in
  let EVAL := EVAL .^ length in
  let EVAL := MUL64 EVAL Q c in
  map (λ i, ((EVAL >> (56 - i * 8)) .^ (nth 4 z 0 >> (24 - i * 8))) .& 0xff) [0; 1; 2; 3].

(** Tests of tests/unit/security-test.c. *)
Example f9_vector :
  snow_3g_f9 (be_bytes 16 0x2bd6459f82c5b300952c49104881ff48) 0x38a6f056 (0x1f << 27) 0
    (be_bytes 11 0x3332346263393861373479) 88 = be_bytes 4 0x731f1165.
Proof. by vm_compute. Qed.

End Snow3g.

(** ** lib/crypt/openssl/snow_core.c *)

Module SnowCore.

Definition S1_T0 : list Z := [
  0xa56363c6; 0x847c7cf8; 0x997777ee; 0x8d7b7bf6; 0x0df2f2ff; 0xbd6b6bd6; 0xb16f6fde; 0x54c5c591;
  0x50303060; 0x03010102; 0xa96767ce; 0x7d2b2b56; 0x19fefee7; 0x62d7d7b5; 0xe6abab4d; 0x9a7676ec;
  0x45caca8f; 0x9d82821f; 0x40c9c989; 0x877d7dfa; 0x15fafaef; 0xeb5959b2; 0xc947478e; 0x0bf0f0fb;
  0xecadad41; 0x67d4d4b3; 0xfda2a25f; 0xeaafaf45; 0xbf9c9c23; 0xf7a4a453; 0x967272e4; 0x5bc0c09b;
  0xc2b7b775; 0x1cfdfde1; 0xae93933d; 0x6a26264c; 0x5a36366c; 0x413f3f7e; 0x02f7f7f5; 0x4fcccc83;
  0x5c343468; 0xf4a5a551; 0x34e5e5d1; 0x08f1f1f9; 0x937171e2; 0x73d8d8ab; 0x53313162; 0x3f15152a;
  0x0c040408; 0x52c7c795; 0x65232346; 0x5ec3c39d; 0x28181830; 0xa1969637; 0x0f05050a; 0xb59a9a2f;
  0x0907070e; 0x36121224; 0x9b80801b; 0x3de2e2df; 0x26ebebcd; 0x6927274e; 0xcdb2b27f; 0x9f7575ea;
  0x1b090912; 0x9e83831d; 0x742c2c58; 0x2e1a1a34; 0x2d1b1b36; 0xb26e6edc; 0xee5a5ab4; 0xfba0a05b;
  0xf65252a4; 0x4d3b3b76; 0x61d6d6b7; 0xceb3b37d; 0x7b292952; 0x3ee3e3dd; 0x712f2f5e; 0x97848413;
  0xf55353a6; 0x68d1d1b9; 0x00000000; 0x2cededc1; 0x60202040; 0x1ffcfce3; 0xc8b1b179; 0xed5b5bb6;
  0xbe6a6ad4; 0x46cbcb8d; 0xd9bebe67; 0x4b393972; 0xde4a4a94; 0xd44c4c98; 0xe85858b0; 0x4acfcf85;
  0x6bd0d0bb; 0x2aefefc5; 0xe5aaaa4f; 0x16fbfbed; 0xc5434386; 0xd74d4d9a; 0x55333366; 0x94858511;
  0xcf45458a; 0x10f9f9e9; 0x06020204; 0x817f7ffe; 0xf05050a0; 0x443c3c78; 0xba9f9f25; 0xe3a8a84b;
  0xf35151a2; 0xfea3a35d; 0xc0404080; 0x8a8f8f05; 0xad92923f; 0xbc9d9d21; 0x48383870; 0x04f5f5f1;
  0xdfbcbc63; 0xc1b6b677; 0x75dadaaf; 0x63212142; 0x30101020; 0x1affffe5; 0x0ef3f3fd; 0x6dd2d2bf;
  0x4ccdcd81; 0x140c0c18; 0x35131326; 0x2fececc3; 0xe15f5fbe; 0xa2979735; 0xcc444488; 0x3917172e;
  0x57c4c493; 0xf2a7a755; 0x827e7efc; 0x473d3d7a; 0xac6464c8; 0xe75d5dba; 0x2b191932; 0x957373e6;
  0xa06060c0; 0x98818119; 0xd14f4f9e; 0x7fdcdca3; 0x66222244; 0x7e2a2a54; 0xab90903b; 0x8388880b;
  0xca46468c; 0x29eeeec7; 0xd3b8b86b; 0x3c141428; 0x79dedea7; 0xe25e5ebc; 0x1d0b0b16; 0x76dbdbad;
  0x3be0e0db; 0x56323264; 0x4e3a3a74; 0x1e0a0a14; 0xdb494992; 0x0a06060c; 0x6c242448; 0xe45c5cb8;
  0x5dc2c29f; 0x6ed3d3bd; 0xefacac43; 0xa66262c4; 0xa8919139; 0xa4959531; 0x37e4e4d3; 0x8b7979f2;
  0x32e7e7d5; 0x43c8c88b; 0x5937376e; 0xb76d6dda; 0x8c8d8d01; 0x64d5d5b1; 0xd24e4e9c; 0xe0a9a949;
  0xb46c6cd8; 0xfa5656ac; 0x07f4f4f3; 0x25eaeacf; 0xaf6565ca; 0x8e7a7af4; 0xe9aeae47; 0x18080810;
  0xd5baba6f; 0x887878f0; 0x6f25254a; 0x722e2e5c; 0x241c1c38; 0xf1a6a657; 0xc7b4b473; 0x51c6c697;
  0x23e8e8cb; 0x7cdddda1; 0x9c7474e8; 0x211f1f3e; 0xdd4b4b96; 0xdcbdbd61; 0x868b8b0d; 0x858a8a0f;
  0x907070e0; 0x423e3e7c; 0xc4b5b571; 0xaa6666cc; 0xd8484890; 0x05030306; 0x01f6f6f7; 0x120e0e1c;
  0xa36161c2; 0x5f35356a; 0xf95757ae; 0xd0b9b969; 0x91868617; 0x58c1c199; 0x271d1d3a; 0xb99e9e27;
  0x38e1e1d9; 0x13f8f8eb; 0xb398982b; 0x33111122; 0xbb6969d2; 0x70d9d9a9; 0x898e8e07; 0xa7949433;
  0xb69b9b2d; 0x221e1e3c; 0x92878715; 0x20e9e9c9; 0x49cece87; 0xff5555aa; 0x78282850; 0x7adfdfa5;
  0x8f8c8c03; 0xf8a1a159; 0x80898909; 0x170d0d1a; 0xdabfbf65; 0x31e6e6d7; 0xc6424284; 0xb86868d0;
  0xc3414182; 0xb0999929; 0x772d2d5a; 0x110f0f1e; 0xcbb0b07b; 0xfc5454a8; 0xd6bbbb6d; 0x3a16162c].
Definition S1_T1 : list Z := [
  0x6363c6a5; 0x7c7cf884; 0x7777ee99; 0x7b7bf68d; 0xf2f2ff0d; 0x6b6bd6bd; 0x6f6fdeb1; 0xc5c59154;
  0x30306050; 0x01010203; 0x6767cea9; 0x2b2b567d; 0xfefee719; 0xd7d7b562; 0xabab4de6; 0x7676ec9a;
  0xcaca8f45; 0x82821f9d; 0xc9c98940; 0x7d7dfa87; 0xfafaef15; 0x5959b2eb; 0x47478ec9; 0xf0f0fb0b;
  0xadad41ec; 0xd4d4b367; 0xa2a25ffd; 0xafaf45ea; 0x9c9c23bf; 0xa4a453f7; 0x7272e496; 0xc0c09b5b;
  0xb7b775c2; 0xfdfde11c; 0x93933dae; 0x26264c6a; 0x36366c5a; 0x3f3f7e41; 0xf7f7f502; 0xcccc834f;
  0x3434685c; 0xa5a551f4; 0xe5e5d134; 0xf1f1f908; 0x7171e293; 0xd8d8ab73; 0x31316253; 0x15152a3f;
  0x0404080c; 0xc7c79552; 0x23234665; 0xc3c39d5e; 0x18183028; 0x969637a1; 0x05050a0f; 0x9a9a2fb5;
  0x07070e09; 0x12122436; 0x80801b9b; 0xe2e2df3d; 0xebebcd26; 0x27274e69; 0xb2b27fcd; 0x7575ea9f;
  0x0909121b; 0x83831d9e; 0x2c2c5874; 0x1a1a342e; 0x1b1b362d; 0x6e6edcb2; 0x5a5ab4ee; 0xa0a05bfb;
  0x5252a4f6; 0x3b3b764d; 0xd6d6b761; 0xb3b37dce; 0x2929527b; 0xe3e3dd3e; 0x2f2f5e71; 0x84841397;
  0x5353a6f5; 0xd1d1b968; 0x00000000; 0xededc12c; 0x20204060; 0xfcfce31f; 0xb1b179c8; 0x5b5bb6ed;
  0x6a6ad4be; 0xcbcb8d46; 0xbebe67d9; 0x3939724b; 0x4a4a94de; 0x4c4c98d4; 0x5858b0e8; 0xcfcf854a;
  0xd0d0bb6b; 0xefefc52a; 0xaaaa4fe5; 0xfbfbed16; 0x434386c5; 0x4d4d9ad7; 0x33336655; 0x85851194;
  0x45458acf; 0xf9f9e910; 0x02020406; 0x7f7ffe81; 0x5050a0f0; 0x3c3c7844; 0x9f9f25ba; 0xa8a84be3;
  0x5151a2f3; 0xa3a35dfe; 0x404080c0; 0x8f8f058a; 0x92923fad; 0x9d9d21bc; 0x38387048; 0xf5f5f104;
  0xbcbc63df; 0xb6b677c1; 0xdadaaf75; 0x21214263; 0x10102030; 0xffffe51a; 0xf3f3fd0e; 0xd2d2bf6d;
  0xcdcd814c; 0x0c0c1814; 0x13132635; 0xececc32f; 0x5f5fbee1; 0x979735a2; 0x444488cc; 0x17172e39;
  0xc4c49357; 0xa7a755f2; 0x7e7efc82; 0x3d3d7a47; 0x6464c8ac; 0x5d5dbae7; 0x1919322b; 0x7373e695;
  0x6060c0a0; 0x81811998; 0x4f4f9ed1; 0xdcdca37f; 0x22224466; 0x2a2a547e; 0x90903bab; 0x88880b83;
  0x46468cca; 0xeeeec729; 0xb8b86bd3; 0x1414283c; 0xdedea779; 0x5e5ebce2; 0x0b0b161d; 0xdbdbad76;
  0xe0e0db3b; 0x32326456; 0x3a3a744e; 0x0a0a141e; 0x494992db; 0x06060c0a; 0x2424486c; 0x5c5cb8e4;
  0xc2c29f5d; 0xd3d3bd6e; 0xacac43ef; 0x6262c4a6; 0x919139a8; 0x959531a4; 0xe4e4d337; 0x7979f28b;
  0xe7e7d532; 0xc8c88b43; 0x37376e59; 0x6d6ddab7; 0x8d8d018c; 0xd5d5b164; 0x4e4e9cd2; 0xa9a949e0;
  0x6c6cd8b4; 0x5656acfa; 0xf4f4f307; 0xeaeacf25; 0x6565caaf; 0x7a7af48e; 0xaeae47e9; 0x08081018;
  0xbaba6fd5; 0x7878f088; 0x25254a6f; 0x2e2e5c72; 0x1c1c3824; 0xa6a657f1; 0xb4b473c7; 0xc6c69751;
  0xe8e8cb23; 0xdddda17c; 0x7474e89c; 0x1f1f3e21; 0x4b4b96dd; 0xbdbd61dc; 0x8b8b0d86; 0x8a8a0f85;
  0x7070e090; 0x3e3e7c42; 0xb5b571c4; 0x6666ccaa; 0x484890d8; 0x03030605; 0xf6f6f701; 0x0e0e1c12;
  0x6161c2a3; 0x35356a5f; 0x5757aef9; 0xb9b969d0; 0x86861791; 0xc1c19958; 0x1d1d3a27; 0x9e9e27b9;
  0xe1e1d938; 0xf8f8eb13; 0x98982bb3; 0x11112233; 0x6969d2bb; 0xd9d9a970; 0x8e8e0789; 0x949433a7;
  0x9b9b2db6; 0x1e1e3c22; 0x87871592; 0xe9e9c920; 0xcece8749; 0x5555aaff; 0x28285078; 0xdfdfa57a;
  0x8c8c038f; 0xa1a159f8; 0x89890980; 0x0d0d1a17; 0xbfbf65da; 0xe6e6d731; 0x424284c6; 0x6868d0b8;
  0x414182c3; 0x999929b0; 0x2d2d5a77; 0x0f0f1e11; 0xb0b07bcb; 0x5454a8fc; 0xbbbb6dd6; 0x16162c3a].
Definition S1_T2 : list Z := [
  0x63c6a563; 0x7cf8847c; 0x77ee9977; 0x7bf68d7b; 0xf2ff0df2; 0x6bd6bd6b; 0x6fdeb16f; 0xc59154c5;
  0x30605030; 0x01020301; 0x67cea967; 0x2b567d2b; 0xfee719fe; 0xd7b562d7; 0xab4de6ab; 0x76ec9a76;
  0xca8f45ca; 0x821f9d82; 0xc98940c9; 0x7dfa877d; 0xfaef15fa; 0x59b2eb59; 0x478ec947; 0xf0fb0bf0;
  0xad41ecad; 0xd4b367d4; 0xa25ffda2; 0xaf45eaaf; 0x9c23bf9c; 0xa453f7a4; 0x72e49672; 0xc09b5bc0;
  0xb775c2b7; 0xfde11cfd; 0x933dae93; 0x264c6a26; 0x366c5a36; 0x3f7e413f; 0xf7f502f7; 0xcc834fcc;
  0x34685c34; 0xa551f4a5; 0xe5d134e5; 0xf1f908f1; 0x71e29371; 0xd8ab73d8; 0x31625331; 0x152a3f15;
  0x04080c04; 0xc79552c7; 0x23466523; 0xc39d5ec3; 0x18302818; 0x9637a196; 0x050a0f05; 0x9a2fb59a;
  0x070e0907; 0x12243612; 0x801b9b80; 0xe2df3de2; 0xebcd26eb; 0x274e6927; 0xb27fcdb2; 0x75ea9f75;
  0x09121b09; 0x831d9e83; 0x2c58742c; 0x1a342e1a; 0x1b362d1b; 0x6edcb26e; 0x5ab4ee5a; 0xa05bfba0;
  0x52a4f652; 0x3b764d3b; 0xd6b761d6; 0xb37dceb3; 0x29527b29; 0xe3dd3ee3; 0x2f5e712f; 0x84139784;
  0x53a6f553; 0xd1b968d1; 0x00000000; 0xedc12ced; 0x20406020; 0xfce31ffc; 0xb179c8b1; 0x5bb6ed5b;
  0x6ad4be6a; 0xcb8d46cb; 0xbe67d9be; 0x39724b39; 0x4a94de4a; 0x4c98d44c; 0x58b0e858; 0xcf854acf;
  0xd0bb6bd0; 0xefc52aef; 0xaa4fe5aa; 0xfbed16fb; 0x4386c543; 0x4d9ad74d; 0x33665533; 0x85119485;
  0x458acf45; 0xf9e910f9; 0x02040602; 0x7ffe817f; 0x50a0f050; 0x3c78443c; 0x9f25ba9f; 0xa84be3a8;
  0x51a2f351; 0xa35dfea3; 0x4080c040; 0x8f058a8f; 0x923fad92; 0x9d21bc9d; 0x38704838; 0xf5f104f5;
  0xbc63dfbc; 0xb677c1b6; 0xdaaf75da; 0x21426321; 0x10203010; 0xffe51aff; 0xf3fd0ef3; 0xd2bf6dd2;
  0xcd814ccd; 0x0c18140c; 0x13263513; 0xecc32fec; 0x5fbee15f; 0x9735a297; 0x4488cc44; 0x172e3917;
  0xc49357c4; 0xa755f2a7; 0x7efc827e; 0x3d7a473d; 0x64c8ac64; 0x5dbae75d; 0x19322b19; 0x73e69573;
  0x60c0a060; 0x81199881; 0x4f9ed14f; 0xdca37fdc; 0x22446622; 0x2a547e2a; 0x903bab90; 0x880b8388;
  0x468cca46; 0xeec729ee; 0xb86bd3b8; 0x14283c14; 0xdea779de; 0x5ebce25e; 0x0b161d0b; 0xdbad76db;
  0xe0db3be0; 0x32645632; 0x3a744e3a; 0x0a141e0a; 0x4992db49; 0x060c0a06; 0x24486c24; 0x5cb8e45c;
  0xc29f5dc2; 0xd3bd6ed3; 0xac43efac; 0x62c4a662; 0x9139a891; 0x9531a495; 0xe4d337e4; 0x79f28b79;
  0xe7d532e7; 0xc88b43c8; 0x376e5937; 0x6ddab76d; 0x8d018c8d; 0xd5b164d5; 0x4e9cd24e; 0xa949e0a9;
  0x6cd8b46c; 0x56acfa56; 0xf4f307f4; 0xeacf25ea; 0x65caaf65; 0x7af48e7a; 0xae47e9ae; 0x08101808;
  0xba6fd5ba; 0x78f08878; 0x254a6f25; 0x2e5c722e; 0x1c38241c; 0xa657f1a6; 0xb473c7b4; 0xc69751c6;
  0xe8cb23e8; 0xdda17cdd; 0x74e89c74; 0x1f3e211f; 0x4b96dd4b; 0xbd61dcbd; 0x8b0d868b; 0x8a0f858a;
  0x70e09070; 0x3e7c423e; 0xb571c4b5; 0x66ccaa66; 0x4890d848; 0x03060503; 0xf6f701f6; 0x0e1c120e;
  0x61c2a361; 0x356a5f35; 0x57aef957; 0xb969d0b9; 0x86179186; 0xc19958c1; 0x1d3a271d; 0x9e27b99e;
  0xe1d938e1; 0xf8eb13f8; 0x982bb398; 0x11223311; 0x69d2bb69; 0xd9a970d9; 0x8e07898e; 0x9433a794;
  0x9b2db69b; 0x1e3c221e; 0x87159287; 0xe9c920e9; 0xce8749ce; 0x55aaff55; 0x28507828; 0xdfa57adf;
  0x8c038f8c; 0xa159f8a1; 0x89098089; 0x0d1a170d; 0xbf65dabf; 0xe6d731e6; 0x4284c642; 0x68d0b868;
  0x4182c341; 0x9929b099; 0x2d5a772d; 0x0f1e110f; 0xb07bcbb0; 0x54a8fc54; 0xbb6dd6bb; 0x162c3a16].
Definition S1_T3 : list Z := [
  0xc6a56363; 0xf8847c7c; 0xee997777; 0xf68d7b7b; 0xff0df2f2; 0xd6bd6b6b; 0xdeb16f6f; 0x9154c5c5;
  0x60503030; 0x02030101; 0xcea96767; 0x567d2b2b; 0xe719fefe; 0xb562d7d7; 0x4de6abab; 0xec9a7676;
  0x8f45caca; 0x1f9d8282; 0x8940c9c9; 0xfa877d7d; 0xef15fafa; 0xb2eb5959; 0x8ec94747; 0xfb0bf0f0;
  0x41ecadad; 0xb367d4d4; 0x5ffda2a2; 0x45eaafaf; 0x23bf9c9c; 0x53f7a4a4; 0xe4967272; 0x9b5bc0c0;
  0x75c2b7b7; 0xe11cfdfd; 0x3dae9393; 0x4c6a2626; 0x6c5a3636; 0x7e413f3f; 0xf502f7f7; 0x834fcccc;
  0x685c3434; 0x51f4a5a5; 0xd134e5e5; 0xf908f1f1; 0xe2937171; 0xab73d8d8; 0x62533131; 0x2a3f1515;
  0x080c0404; 0x9552c7c7; 0x46652323; 0x9d5ec3c3; 0x30281818; 0x37a19696; 0x0a0f0505; 0x2fb59a9a;
  0x0e090707; 0x24361212; 0x1b9b8080; 0xdf3de2e2; 0xcd26ebeb; 0x4e692727; 0x7fcdb2b2; 0xea9f7575;
  0x121b0909; 0x1d9e8383; 0x58742c2c; 0x342e1a1a; 0x362d1b1b; 0xdcb26e6e; 0xb4ee5a5a; 0x5bfba0a0;
  0xa4f65252; 0x764d3b3b; 0xb761d6d6; 0x7dceb3b3; 0x527b2929; 0xdd3ee3e3; 0x5e712f2f; 0x13978484;
  0xa6f55353; 0xb968d1d1; 0x00000000; 0xc12ceded; 0x40602020; 0xe31ffcfc; 0x79c8b1b1; 0xb6ed5b5b;
  0xd4be6a6a; 0x8d46cbcb; 0x67d9bebe; 0x724b3939; 0x94de4a4a; 0x98d44c4c; 0xb0e85858; 0x854acfcf;
  0xbb6bd0d0; 0xc52aefef; 0x4fe5aaaa; 0xed16fbfb; 0x86c54343; 0x9ad74d4d; 0x66553333; 0x11948585;
  0x8acf4545; 0xe910f9f9; 0x04060202; 0xfe817f7f; 0xa0f05050; 0x78443c3c; 0x25ba9f9f; 0x4be3a8a8;
  0xa2f35151; 0x5dfea3a3; 0x80c04040; 0x058a8f8f; 0x3fad9292; 0x21bc9d9d; 0x70483838; 0xf104f5f5;
  0x63dfbcbc; 0x77c1b6b6; 0xaf75dada; 0x42632121; 0x20301010; 0xe51affff; 0xfd0ef3f3; 0xbf6dd2d2;
  0x814ccdcd; 0x18140c0c; 0x26351313; 0xc32fecec; 0xbee15f5f; 0x35a29797; 0x88cc4444; 0x2e391717;
  0x9357c4c4; 0x55f2a7a7; 0xfc827e7e; 0x7a473d3d; 0xc8ac6464; 0xbae75d5d; 0x322b1919; 0xe6957373;
  0xc0a06060; 0x19988181; 0x9ed14f4f; 0xa37fdcdc; 0x44662222; 0x547e2a2a; 0x3bab9090; 0x0b838888;
  0x8cca4646; 0xc729eeee; 0x6bd3b8b8; 0x283c1414; 0xa779dede; 0xbce25e5e; 0x161d0b0b; 0xad76dbdb;
  0xdb3be0e0; 0x64563232; 0x744e3a3a; 0x141e0a0a; 0x92db4949; 0x0c0a0606; 0x486c2424; 0xb8e45c5c;
  0x9f5dc2c2; 0xbd6ed3d3; 0x43efacac; 0xc4a66262; 0x39a89191; 0x31a49595; 0xd337e4e4; 0xf28b7979;
  0xd532e7e7; 0x8b43c8c8; 0x6e593737; 0xdab76d6d; 0x018c8d8d; 0xb164d5d5; 0x9cd24e4e; 0x49e0a9a9;
  0xd8b46c6c; 0xacfa5656; 0xf307f4f4; 0xcf25eaea; 0xcaaf6565; 0xf48e7a7a; 0x47e9aeae; 0x10180808;
  0x6fd5baba; 0xf0887878; 0x4a6f2525; 0x5c722e2e; 0x38241c1c; 0x57f1a6a6; 0x73c7b4b4; 0x9751c6c6;
  0xcb23e8e8; 0xa17cdddd; 0xe89c7474; 0x3e211f1f; 0x96dd4b4b; 0x61dcbdbd; 0x0d868b8b; 0x0f858a8a;
  0xe0907070; 0x7c423e3e; 0x71c4b5b5; 0xccaa6666; 0x90d84848; 0x06050303; 0xf701f6f6; 0x1c120e0e;
  0xc2a36161; 0x6a5f3535; 0xaef95757; 0x69d0b9b9; 0x17918686; 0x9958c1c1; 0x3a271d1d; 0x27b99e9e;
  0xd938e1e1; 0xeb13f8f8; 0x2bb39898; 0x22331111; 0xd2bb6969; 0xa970d9d9; 0x07898e8e; 0x33a79494;
  0x2db69b9b; 0x3c221e1e; 0x15928787; 0xc920e9e9; 0x8749cece; 0xaaff5555; 0x50782828; 0xa57adfdf;
  0x038f8c8c; 0x59f8a1a1; 0x09808989; 0x1a170d0d; 0x65dabfbf; 0xd731e6e6; 0x84c64242; 0xd0b86868;
  0x82c34141; 0x29b09999; 0x5a772d2d; 0x1e110f0f; 0x7bcbb0b0; 0xa8fc5454; 0x6dd6bbbb; 0x2c3a1616].
Definition S2_T0 : list Z := [
  0x6f25254a; 0x6c242448; 0x957373e6; 0xa96767ce; 0x10d7d7c7; 0x9baeae35; 0xe45c5cb8; 0x50303060;
  0x85a4a421; 0x5beeeeb5; 0xb26e6edc; 0x34cbcbff; 0x877d7dfa; 0xb6b5b503; 0xef82826d; 0x04dbdbdf;
  0x45e4e4a1; 0xfb8e8e75; 0xd8484890; 0xdb494992; 0xd14f4f9e; 0xe75d5dba; 0xbe6a6ad4; 0x887878f0;
  0x907070e0; 0xf1888879; 0x51e8e8b9; 0xe15f5fbe; 0xe25e5ebc; 0xe5848461; 0xaf6565ca; 0x4fe2e2ad;
  0x01d8d8d9; 0x52e9e9bb; 0x3dccccf1; 0x5eededb3; 0xc0404080; 0x712f2f5e; 0x33111122; 0x78282850;
  0xf95757ae; 0x1fd2d2cd; 0x9dacac31; 0x4ce3e3af; 0xde4a4a94; 0x3f15152a; 0x2d1b1b36; 0xa2b9b91b;
  0xbfb2b20d; 0xe9808069; 0xe6858563; 0x83a6a625; 0x722e2e5c; 0x06020204; 0xc947478e; 0x7b292952;
  0x0907070e; 0xdd4b4b96; 0x120e0e1c; 0x2ac1c1eb; 0xf35151a2; 0x97aaaa3d; 0xf289897b; 0x15d4d4c1;
  0x37cacafd; 0x03010102; 0xca46468c; 0xbcb3b30f; 0x58efefb7; 0x0eddddd3; 0xcc444488; 0x8d7b7bf6;
  0x2fc2c2ed; 0x817f7ffe; 0xabbebe15; 0x2cc3c3ef; 0xc89f9f57; 0x60202040; 0xd44c4c98; 0xac6464c8;
  0xec83836f; 0x8fa2a22d; 0xb86868d0; 0xc6424284; 0x35131326; 0xb5b4b401; 0xc3414182; 0x3ecdcdf3;
  0xa7baba1d; 0x23c6c6e5; 0xa4bbbb1f; 0xb76d6dda; 0xd74d4d9a; 0x937171e2; 0x63212142; 0x75f4f481;
  0xfe8d8d73; 0xb9b0b009; 0x46e5e5a3; 0xdc93934f; 0x6bfefe95; 0xf88f8f77; 0x43e6e6a5; 0x38cfcff7;
  0xc5434386; 0xcf45458a; 0x53313162; 0x66222244; 0x5937376e; 0x5a36366c; 0xd3969645; 0x67fafa9d;
  0xadbcbc11; 0x110f0f1e; 0x18080810; 0xf65252a4; 0x271d1d3a; 0xff5555aa; 0x2e1a1a34; 0x26c5c5e3;
  0xd24e4e9c; 0x65232346; 0xbb6969d2; 0x8e7a7af4; 0xdf92924d; 0x68ffff97; 0xed5b5bb6; 0xee5a5ab4;
  0x54ebebbf; 0xc79a9a5d; 0x241c1c38; 0x92a9a93b; 0x1ad1d1cb; 0x827e7efc; 0x170d0d1a; 0x6dfcfc91;
  0xf05050a0; 0xf78a8a7d; 0xb3b6b605; 0xa66262c4; 0x76f5f583; 0x1e0a0a14; 0x61f8f899; 0x0ddcdcd1;
  0x05030306; 0x443c3c78; 0x140c0c18; 0x4b393972; 0x7af1f18b; 0xa1b8b819; 0x7cf3f38f; 0x473d3d7a;
  0x7ff2f28d; 0x16d5d5c3; 0xd0979747; 0xaa6666cc; 0xea81816b; 0x56323264; 0x89a0a029; 0x00000000;
  0x0a06060c; 0x3bcecef5; 0x73f6f685; 0x57eaeabd; 0xb0b7b707; 0x3917172e; 0x70f7f787; 0xfd8c8c71;
  0x8b7979f2; 0x13d6d6c5; 0x80a7a727; 0xa8bfbf17; 0xf48b8b7f; 0x413f3f7e; 0x211f1f3e; 0xf55353a6;
  0xa56363c6; 0x9f7575ea; 0x5f35356a; 0x742c2c58; 0xa06060c0; 0x6efdfd93; 0x6927274e; 0x1cd3d3cf;
  0xd5949441; 0x86a5a523; 0x847c7cf8; 0x8aa1a12b; 0x0f05050a; 0xe85858b0; 0x772d2d5a; 0xaebdbd13;
  0x02d9d9db; 0x20c7c7e7; 0x98afaf37; 0xbd6b6bd6; 0xfc5454a8; 0x1d0b0b16; 0x49e0e0a9; 0x48383870;
  0x0c040408; 0x31c8c8f9; 0xce9d9d53; 0x40e7e7a7; 0x3c141428; 0xbab1b10b; 0xe0878767; 0xcd9c9c51;
  0x08dfdfd7; 0xb16f6fde; 0x62f9f99b; 0x07dadadd; 0x7e2a2a54; 0x25c4c4e1; 0xeb5959b2; 0x3a16162c;
  0x9c7474e8; 0xda91914b; 0x94abab3f; 0x6a26264c; 0xa36161c2; 0x9a7676ec; 0x5c343468; 0x7d2b2b56;
  0x9eadad33; 0xc299995b; 0x64fbfb9f; 0x967272e4; 0x5dececb1; 0x55333366; 0x36121224; 0x0bdeded5;
  0xc1989859; 0x4d3b3b76; 0x29c0c0e9; 0xc49b9b5f; 0x423e3e7c; 0x28181830; 0x30101020; 0x4e3a3a74;
  0xfa5656ac; 0x4ae1e1ab; 0x997777ee; 0x32c9c9fb; 0x221e1e3c; 0xcb9e9e55; 0xd6959543; 0x8ca3a32f;
  0xd9909049; 0x2b191932; 0x91a8a839; 0xb46c6cd8; 0x1b090912; 0x19d0d0c9; 0x79f0f089; 0xe3868665].
Definition S2_T1 : list Z := [
  0x25254a6f; 0x2424486c; 0x7373e695; 0x6767cea9; 0xd7d7c710; 0xaeae359b; 0x5c5cb8e4; 0x30306050;
  0xa4a42185; 0xeeeeb55b; 0x6e6edcb2; 0xcbcbff34; 0x7d7dfa87; 0xb5b503b6; 0x82826def; 0xdbdbdf04;
  0xe4e4a145; 0x8e8e75fb; 0x484890d8; 0x494992db; 0x4f4f9ed1; 0x5d5dbae7; 0x6a6ad4be; 0x7878f088;
  0x7070e090; 0x888879f1; 0xe8e8b951; 0x5f5fbee1; 0x5e5ebce2; 0x848461e5; 0x6565caaf; 0xe2e2ad4f;
  0xd8d8d901; 0xe9e9bb52; 0xccccf13d; 0xededb35e; 0x404080c0; 0x2f2f5e71; 0x11112233; 0x28285078;
  0x5757aef9; 0xd2d2cd1f; 0xacac319d; 0xe3e3af4c; 0x4a4a94de; 0x15152a3f; 0x1b1b362d; 0xb9b91ba2;
  0xb2b20dbf; 0x808069e9; 0x858563e6; 0xa6a62583; 0x2e2e5c72; 0x02020406; 0x47478ec9; 0x2929527b;
  0x07070e09; 0x4b4b96dd; 0x0e0e1c12; 0xc1c1eb2a; 0x5151a2f3; 0xaaaa3d97; 0x89897bf2; 0xd4d4c115;
  0xcacafd37; 0x01010203; 0x46468cca; 0xb3b30fbc; 0xefefb758; 0xddddd30e; 0x444488cc; 0x7b7bf68d;
  0xc2c2ed2f; 0x7f7ffe81; 0xbebe15ab; 0xc3c3ef2c; 0x9f9f57c8; 0x20204060; 0x4c4c98d4; 0x6464c8ac;
  0x83836fec; 0xa2a22d8f; 0x6868d0b8; 0x424284c6; 0x13132635; 0xb4b401b5; 0x414182c3; 0xcdcdf33e;
  0xbaba1da7; 0xc6c6e523; 0xbbbb1fa4; 0x6d6ddab7; 0x4d4d9ad7; 0x7171e293; 0x21214263; 0xf4f48175;
  0x8d8d73fe; 0xb0b009b9; 0xe5e5a346; 0x93934fdc; 0xfefe956b; 0x8f8f77f8; 0xe6e6a543; 0xcfcff738;
  0x434386c5; 0x45458acf; 0x31316253; 0x22224466; 0x37376e59; 0x36366c5a; 0x969645d3; 0xfafa9d67;
  0xbcbc11ad; 0x0f0f1e11; 0x08081018; 0x5252a4f6; 0x1d1d3a27; 0x5555aaff; 0x1a1a342e; 0xc5c5e326;
  0x4e4e9cd2; 0x23234665; 0x6969d2bb; 0x7a7af48e; 0x92924ddf; 0xffff9768; 0x5b5bb6ed; 0x5a5ab4ee;
  0xebebbf54; 0x9a9a5dc7; 0x1c1c3824; 0xa9a93b92; 0xd1d1cb1a; 0x7e7efc82; 0x0d0d1a17; 0xfcfc916d;
  0x5050a0f0; 0x8a8a7df7; 0xb6b605b3; 0x6262c4a6; 0xf5f58376; 0x0a0a141e; 0xf8f89961; 0xdcdcd10d;
  0x03030605; 0x3c3c7844; 0x0c0c1814; 0x3939724b; 0xf1f18b7a; 0xb8b819a1; 0xf3f38f7c; 0x3d3d7a47;
  0xf2f28d7f; 0xd5d5c316; 0x979747d0; 0x6666ccaa; 0x81816bea; 0x32326456; 0xa0a02989; 0x00000000;
  0x06060c0a; 0xcecef53b; 0xf6f68573; 0xeaeabd57; 0xb7b707b0; 0x17172e39; 0xf7f78770; 0x8c8c71fd;
  0x7979f28b; 0xd6d6c513; 0xa7a72780; 0xbfbf17a8; 0x8b8b7ff4; 0x3f3f7e41; 0x1f1f3e21; 0x5353a6f5;
  0x6363c6a5; 0x7575ea9f; 0x35356a5f; 0x2c2c5874; 0x6060c0a0; 0xfdfd936e; 0x27274e69; 0xd3d3cf1c;
  0x949441d5; 0xa5a52386; 0x7c7cf884; 0xa1a12b8a; 0x05050a0f; 0x5858b0e8; 0x2d2d5a77; 0xbdbd13ae;
  0xd9d9db02; 0xc7c7e720; 0xafaf3798; 0x6b6bd6bd; 0x5454a8fc; 0x0b0b161d; 0xe0e0a949; 0x38387048;
  0x0404080c; 0xc8c8f931; 0x9d9d53ce; 0xe7e7a740; 0x1414283c; 0xb1b10bba; 0x878767e0; 0x9c9c51cd;
  0xdfdfd708; 0x6f6fdeb1; 0xf9f99b62; 0xdadadd07; 0x2a2a547e; 0xc4c4e125; 0x5959b2eb; 0x16162c3a;
  0x7474e89c; 0x91914bda; 0xabab3f94; 0x26264c6a; 0x6161c2a3; 0x7676ec9a; 0x3434685c; 0x2b2b567d;
  0xadad339e; 0x99995bc2; 0xfbfb9f64; 0x7272e496; 0xececb15d; 0x33336655; 0x12122436; 0xdeded50b;
  0x989859c1; 0x3b3b764d; 0xc0c0e929; 0x9b9b5fc4; 0x3e3e7c42; 0x18183028; 0x10102030; 0x3a3a744e;
  0x5656acfa; 0xe1e1ab4a; 0x7777ee99; 0xc9c9fb32; 0x1e1e3c22; 0x9e9e55cb; 0x959543d6; 0xa3a32f8c;
  0x909049d9; 0x1919322b; 0xa8a83991; 0x6c6cd8b4; 0x0909121b; 0xd0d0c919; 0xf0f08979; 0x868665e3].
Definition S2_T2 : list Z := [
  0x254a6f25; 0x24486c24; 0x73e69573; 0x67cea967; 0xd7c710d7; 0xae359bae; 0x5cb8e45c; 0x30605030;
  0xa42185a4; 0xeeb55bee; 0x6edcb26e; 0xcbff34cb; 0x7dfa877d; 0xb503b6b5; 0x826def82; 0xdbdf04db;
  0xe4a145e4; 0x8e75fb8e; 0x4890d848; 0x4992db49; 0x4f9ed14f; 0x5dbae75d; 0x6ad4be6a; 0x78f08878;
  0x70e09070; 0x8879f188; 0xe8b951e8; 0x5fbee15f; 0x5ebce25e; 0x8461e584; 0x65caaf65; 0xe2ad4fe2;
  0xd8d901d8; 0xe9bb52e9; 0xccf13dcc; 0xedb35eed; 0x4080c040; 0x2f5e712f; 0x11223311; 0x28507828;
  0x57aef957; 0xd2cd1fd2; 0xac319dac; 0xe3af4ce3; 0x4a94de4a; 0x152a3f15; 0x1b362d1b; 0xb91ba2b9;
  0xb20dbfb2; 0x8069e980; 0x8563e685; 0xa62583a6; 0x2e5c722e; 0x02040602; 0x478ec947; 0x29527b29;
  0x070e0907; 0x4b96dd4b; 0x0e1c120e; 0xc1eb2ac1; 0x51a2f351; 0xaa3d97aa; 0x897bf289; 0xd4c115d4;
  0xcafd37ca; 0x01020301; 0x468cca46; 0xb30fbcb3; 0xefb758ef; 0xddd30edd; 0x4488cc44; 0x7bf68d7b;
  0xc2ed2fc2; 0x7ffe817f; 0xbe15abbe; 0xc3ef2cc3; 0x9f57c89f; 0x20406020; 0x4c98d44c; 0x64c8ac64;
  0x836fec83; 0xa22d8fa2; 0x68d0b868; 0x4284c642; 0x13263513; 0xb401b5b4; 0x4182c341; 0xcdf33ecd;
  0xba1da7ba; 0xc6e523c6; 0xbb1fa4bb; 0x6ddab76d; 0x4d9ad74d; 0x71e29371; 0x21426321; 0xf48175f4;
  0x8d73fe8d; 0xb009b9b0; 0xe5a346e5; 0x934fdc93; 0xfe956bfe; 0x8f77f88f; 0xe6a543e6; 0xcff738cf;
  0x4386c543; 0x458acf45; 0x31625331; 0x22446622; 0x376e5937; 0x366c5a36; 0x9645d396; 0xfa9d67fa;
  0xbc11adbc; 0x0f1e110f; 0x08101808; 0x52a4f652; 0x1d3a271d; 0x55aaff55; 0x1a342e1a; 0xc5e326c5;
  0x4e9cd24e; 0x23466523; 0x69d2bb69; 0x7af48e7a; 0x924ddf92; 0xff9768ff; 0x5bb6ed5b; 0x5ab4ee5a;
  0xebbf54eb; 0x9a5dc79a; 0x1c38241c; 0xa93b92a9; 0xd1cb1ad1; 0x7efc827e; 0x0d1a170d; 0xfc916dfc;
  0x50a0f050; 0x8a7df78a; 0xb605b3b6; 0x62c4a662; 0xf58376f5; 0x0a141e0a; 0xf89961f8; 0xdcd10ddc;
  0x03060503; 0x3c78443c; 0x0c18140c; 0x39724b39; 0xf18b7af1; 0xb819a1b8; 0xf38f7cf3; 0x3d7a473d;
  0xf28d7ff2; 0xd5c316d5; 0x9747d097; 0x66ccaa66; 0x816bea81; 0x32645632; 0xa02989a0; 0x00000000;
  0x060c0a06; 0xcef53bce; 0xf68573f6; 0xeabd57ea; 0xb707b0b7; 0x172e3917; 0xf78770f7; 0x8c71fd8c;
  0x79f28b79; 0xd6c513d6; 0xa72780a7; 0xbf17a8bf; 0x8b7ff48b; 0x3f7e413f; 0x1f3e211f; 0x53a6f553;
  0x63c6a563; 0x75ea9f75; 0x356a5f35; 0x2c58742c; 0x60c0a060; 0xfd936efd; 0x274e6927; 0xd3cf1cd3;
  0x9441d594; 0xa52386a5; 0x7cf8847c; 0xa12b8aa1; 0x050a0f05; 0x58b0e858; 0x2d5a772d; 0xbd13aebd;
  0xd9db02d9; 0xc7e720c7; 0xaf3798af; 0x6bd6bd6b; 0x54a8fc54; 0x0b161d0b; 0xe0a949e0; 0x38704838;
  0x04080c04; 0xc8f931c8; 0x9d53ce9d; 0xe7a740e7; 0x14283c14; 0xb10bbab1; 0x8767e087; 0x9c51cd9c;
  0xdfd708df; 0x6fdeb16f; 0xf99b62f9; 0xdadd07da; 0x2a547e2a; 0xc4e125c4; 0x59b2eb59; 0x162c3a16;
  0x74e89c74; 0x914bda91; 0xab3f94ab; 0x264c6a26; 0x61c2a361; 0x76ec9a76; 0x34685c34; 0x2b567d2b;
  0xad339ead; 0x995bc299; 0xfb9f64fb; 0x72e49672; 0xecb15dec; 0x33665533; 0x12243612; 0xded50bde;
  0x9859c198; 0x3b764d3b; 0xc0e929c0; 0x9b5fc49b; 0x3e7c423e; 0x18302818; 0x10203010; 0x3a744e3a;
  0x56acfa56; 0xe1ab4ae1; 0x77ee9977; 0xc9fb32c9; 0x1e3c221e; 0x9e55cb9e; 0x9543d695; 0xa32f8ca3;
  0x9049d990; 0x19322b19; 0xa83991a8; 0x6cd8b46c; 0x09121b09; 0xd0c919d0; 0xf08979f0; 0x8665e386].
Definition S2_T3 : list Z := [
  0x4a6f2525; 0x486c2424; 0xe6957373; 0xcea96767; 0xc710d7d7; 0x359baeae; 0xb8e45c5c; 0x60503030;
  0x2185a4a4; 0xb55beeee; 0xdcb26e6e; 0xff34cbcb; 0xfa877d7d; 0x03b6b5b5; 0x6def8282; 0xdf04dbdb;
  0xa145e4e4; 0x75fb8e8e; 0x90d84848; 0x92db4949; 0x9ed14f4f; 0xbae75d5d; 0xd4be6a6a; 0xf0887878;
  0xe0907070; 0x79f18888; 0xb951e8e8; 0xbee15f5f; 0xbce25e5e; 0x61e58484; 0xcaaf6565; 0xad4fe2e2;
  0xd901d8d8; 0xbb52e9e9; 0xf13dcccc; 0xb35eeded; 0x80c04040; 0x5e712f2f; 0x22331111; 0x50782828;
  0xaef95757; 0xcd1fd2d2; 0x319dacac; 0xaf4ce3e3; 0x94de4a4a; 0x2a3f1515; 0x362d1b1b; 0x1ba2b9b9;
  0x0dbfb2b2; 0x69e98080; 0x63e68585; 0x2583a6a6; 0x5c722e2e; 0x04060202; 0x8ec94747; 0x527b2929;
  0x0e090707; 0x96dd4b4b; 0x1c120e0e; 0xeb2ac1c1; 0xa2f35151; 0x3d97aaaa; 0x7bf28989; 0xc115d4d4;
  0xfd37caca; 0x02030101; 0x8cca4646; 0x0fbcb3b3; 0xb758efef; 0xd30edddd; 0x88cc4444; 0xf68d7b7b;
  0xed2fc2c2; 0xfe817f7f; 0x15abbebe; 0xef2cc3c3; 0x57c89f9f; 0x40602020; 0x98d44c4c; 0xc8ac6464;
  0x6fec8383; 0x2d8fa2a2; 0xd0b86868; 0x84c64242; 0x26351313; 0x01b5b4b4; 0x82c34141; 0xf33ecdcd;
  0x1da7baba; 0xe523c6c6; 0x1fa4bbbb; 0xdab76d6d; 0x9ad74d4d; 0xe2937171; 0x42632121; 0x8175f4f4;
  0x73fe8d8d; 0x09b9b0b0; 0xa346e5e5; 0x4fdc9393; 0x956bfefe; 0x77f88f8f; 0xa543e6e6; 0xf738cfcf;
  0x86c54343; 0x8acf4545; 0x62533131; 0x44662222; 0x6e593737; 0x6c5a3636; 0x45d39696; 0x9d67fafa;
  0x11adbcbc; 0x1e110f0f; 0x10180808; 0xa4f65252; 0x3a271d1d; 0xaaff5555; 0x342e1a1a; 0xe326c5c5;
  0x9cd24e4e; 0x46652323; 0xd2bb6969; 0xf48e7a7a; 0x4ddf9292; 0x9768ffff; 0xb6ed5b5b; 0xb4ee5a5a;
  0xbf54ebeb; 0x5dc79a9a; 0x38241c1c; 0x3b92a9a9; 0xcb1ad1d1; 0xfc827e7e; 0x1a170d0d; 0x916dfcfc;
  0xa0f05050; 0x7df78a8a; 0x05b3b6b6; 0xc4a66262; 0x8376f5f5; 0x141e0a0a; 0x9961f8f8; 0xd10ddcdc;
  0x06050303; 0x78443c3c; 0x18140c0c; 0x724b3939; 0x8b7af1f1; 0x19a1b8b8; 0x8f7cf3f3; 0x7a473d3d;
  0x8d7ff2f2; 0xc316d5d5; 0x47d09797; 0xccaa6666; 0x6bea8181; 0x64563232; 0x2989a0a0; 0x00000000;
  0x0c0a0606; 0xf53bcece; 0x8573f6f6; 0xbd57eaea; 0x07b0b7b7; 0x2e391717; 0x8770f7f7; 0x71fd8c8c;
  0xf28b7979; 0xc513d6d6; 0x2780a7a7; 0x17a8bfbf; 0x7ff48b8b; 0x7e413f3f; 0x3e211f1f; 0xa6f55353;
  0xc6a56363; 0xea9f7575; 0x6a5f3535; 0x58742c2c; 0xc0a06060; 0x936efdfd; 0x4e692727; 0xcf1cd3d3;
  0x41d59494; 0x2386a5a5; 0xf8847c7c; 0x2b8aa1a1; 0x0a0f0505; 0xb0e85858; 0x5a772d2d; 0x13aebdbd;
  0xdb02d9d9; 0xe720c7c7; 0x3798afaf; 0xd6bd6b6b; 0xa8fc5454; 0x161d0b0b; 0xa949e0e0; 0x70483838;
  0x080c0404; 0xf931c8c8; 0x53ce9d9d; 0xa740e7e7; 0x283c1414; 0x0bbab1b1; 0x67e08787; 0x51cd9c9c;
  0xd708dfdf; 0xdeb16f6f; 0x9b62f9f9; 0xdd07dada; 0x547e2a2a; 0xe125c4c4; 0xb2eb5959; 0x2c3a1616;
  0xe89c7474; 0x4bda9191; 0x3f94abab; 0x4c6a2626; 0xc2a36161; 0xec9a7676; 0x685c3434; 0x567d2b2b;
  0x339eadad; 0x5bc29999; 0x9f64fbfb; 0xe4967272; 0xb15decec; 0x66553333; 0x24361212; 0xd50bdede;
  0x59c19898; 0x764d3b3b; 0xe929c0c0; 0x5fc49b9b; 0x7c423e3e; 0x30281818; 0x20301010; 0x744e3a3a;
  0xacfa5656; 0xab4ae1e1; 0xee997777; 0xfb32c9c9; 0x3c221e1e; 0x55cb9e9e; 0x43d69595; 0x2f8ca3a3;
  0x49d99090; 0x322b1919; 0x3991a8a8; 0xd8b46c6c; 0x121b0909; 0xc919d0d0; 0x8979f0f0; 0x65e38686].
Definition MULalpha_table : list Z := [
  0x00000000; 0xE19FCF13; 0x6B973726; 0x8A08F835; 0xD6876E4C; 0x3718A15F; 0xBD10596A; 0x5C8F9679;
  0x05A7DC98; 0xE438138B; 0x6E30EBBE; 0x8FAF24AD; 0xD320B2D4; 0x32BF7DC7; 0xB8B785F2; 0x59284AE1;
  0x0AE71199; 0xEB78DE8A; 0x617026BF; 0x80EFE9AC; 0xDC607FD5; 0x3DFFB0C6; 0xB7F748F3; 0x566887E0;
  0x0F40CD01; 0xEEDF0212; 0x64D7FA27; 0x85483534; 0xD9C7A34D; 0x38586C5E; 0xB250946B; 0x53CF5B78;
  0x1467229B; 0xF5F8ED88; 0x7FF015BD; 0x9E6FDAAE; 0xC2E04CD7; 0x237F83C4; 0xA9777BF1; 0x48E8B4E2;
  0x11C0FE03; 0xF05F3110; 0x7A57C925; 0x9BC80636; 0xC747904F; 0x26D85F5C; 0xACD0A769; 0x4D4F687A;
  0x1E803302; 0xFF1FFC11; 0x75170424; 0x9488CB37; 0xC8075D4E; 0x2998925D; 0xA3906A68; 0x420FA57B;
  0x1B27EF9A; 0xFAB82089; 0x70B0D8BC; 0x912F17AF; 0xCDA081D6; 0x2C3F4EC5; 0xA637B6F0; 0x47A879E3;
  0x28CE449F; 0xC9518B8C; 0x435973B9; 0xA2C6BCAA; 0xFE492AD3; 0x1FD6E5C0; 0x95DE1DF5; 0x7441D2E6;
  0x2D699807; 0xCCF65714; 0x46FEAF21; 0xA7616032; 0xFBEEF64B; 0x1A713958; 0x9079C16D; 0x71E60E7E;
  0x22295506; 0xC3B69A15; 0x49BE6220; 0xA821AD33; 0xF4AE3B4A; 0x1531F459; 0x9F390C6C; 0x7EA6C37F;
  0x278E899E; 0xC611468D; 0x4C19BEB8; 0xAD8671AB; 0xF109E7D2; 0x109628C1; 0x9A9ED0F4; 0x7B011FE7;
  0x3CA96604; 0xDD36A917; 0x573E5122; 0xB6A19E31; 0xEA2E0848; 0x0BB1C75B; 0x81B93F6E; 0x6026F07D;
  0x390EBA9C; 0xD891758F; 0x52998DBA; 0xB30642A9; 0xEF89D4D0; 0x0E161BC3; 0x841EE3F6; 0x65812CE5;
  0x364E779D; 0xD7D1B88E; 0x5DD940BB; 0xBC468FA8; 0xE0C919D1; 0x0156D6C2; 0x8B5E2EF7; 0x6AC1E1E4;
  0x33E9AB05; 0xD2766416; 0x587E9C23; 0xB9E15330; 0xE56EC549; 0x04F10A5A; 0x8EF9F26F; 0x6F663D7C;
  0x50358897; 0xB1AA4784; 0x3BA2BFB1; 0xDA3D70A2; 0x86B2E6DB; 0x672D29C8; 0xED25D1FD; 0x0CBA1EEE;
  0x5592540F; 0xB40D9B1C; 0x3E056329; 0xDF9AAC3A; 0x83153A43; 0x628AF550; 0xE8820D65; 0x091DC276;
  0x5AD2990E; 0xBB4D561D; 0x3145AE28; 0xD0DA613B; 0x8C55F742; 0x6DCA3851; 0xE7C2C064; 0x065D0F77;
  0x5F754596; 0xBEEA8A85; 0x34E272B0; 0xD57DBDA3; 0x89F22BDA; 0x686DE4C9; 0xE2651CFC; 0x03FAD3EF;
  0x4452AA0C; 0xA5CD651F; 0x2FC59D2A; 0xCE5A5239; 0x92D5C440; 0x734A0B53; 0xF942F366; 0x18DD3C75;
  0x41F57694; 0xA06AB987; 0x2A6241B2; 0xCBFD8EA1; 0x977218D8; 0x76EDD7CB; 0xFCE52FFE; 0x1D7AE0ED;
  0x4EB5BB95; 0xAF2A7486; 0x25228CB3; 0xC4BD43A0; 0x9832D5D9; 0x79AD1ACA; 0xF3A5E2FF; 0x123A2DEC;
  0x4B12670D; 0xAA8DA81E; 0x2085502B; 0xC11A9F38; 0x9D950941; 0x7C0AC652; 0xF6023E67; 0x179DF174;
  0x78FBCC08; 0x9964031B; 0x136CFB2E; 0xF2F3343D; 0xAE7CA244; 0x4FE36D57; 0xC5EB9562; 0x24745A71;
  0x7D5C1090; 0x9CC3DF83; 0x16CB27B6; 0xF754E8A5; 0xABDB7EDC; 0x4A44B1CF; 0xC04C49FA; 0x21D386E9;
  0x721CDD91; 0x93831282; 0x198BEAB7; 0xF81425A4; 0xA49BB3DD; 0x45047CCE; 0xCF0C84FB; 0x2E934BE8;
  0x77BB0109; 0x9624CE1A; 0x1C2C362F; 0xFDB3F93C; 0xA13C6F45; 0x40A3A056; 0xCAAB5863; 0x2B349770;
  0x6C9CEE93; 0x8D032180; 0x070BD9B5; 0xE69416A6; 0xBA1B80DF; 0x5B844FCC; 0xD18CB7F9; 0x301378EA;
  0x693B320B; 0x88A4FD18; 0x02AC052D; 0xE333CA3E; 0xBFBC5C47; 0x5E239354; 0xD42B6B61; 0x35B4A472;
  0x667BFF0A; 0x87E43019; 0x0DECC82C; 0xEC73073F; 0xB0FC9146; 0x51635E55; 0xDB6BA660; 0x3AF46973;
  0x63DC2392; 0x8243EC81; 0x084B14B4; 0xE9D4DBA7; 0xB55B4DDE; 0x54C482CD; 0xDECC7AF8; 0x3F53B5EB].
Definition DIValpha_table : list Z := [
  0x00000000; 0x180F40CD; 0x301E8033; 0x2811C0FE; 0x603CA966; 0x7833E9AB; 0x50222955; 0x482D6998;
  0xC078FBCC; 0xD877BB01; 0xF0667BFF; 0xE8693B32; 0xA04452AA; 0xB84B1267; 0x905AD299; 0x88559254;
  0x29F05F31; 0x31FF1FFC; 0x19EEDF02; 0x01E19FCF; 0x49CCF657; 0x51C3B69A; 0x79D27664; 0x61DD36A9;
  0xE988A4FD; 0xF187E430; 0xD99624CE; 0xC1996403; 0x89B40D9B; 0x91BB4D56; 0xB9AA8DA8; 0xA1A5CD65;
  0x5249BE62; 0x4A46FEAF; 0x62573E51; 0x7A587E9C; 0x32751704; 0x2A7A57C9; 0x026B9737; 0x1A64D7FA;
  0x923145AE; 0x8A3E0563; 0xA22FC59D; 0xBA208550; 0xF20DECC8; 0xEA02AC05; 0xC2136CFB; 0xDA1C2C36;
  0x7BB9E153; 0x63B6A19E; 0x4BA76160; 0x53A821AD; 0x1B854835; 0x038A08F8; 0x2B9BC806; 0x339488CB;
  0xBBC11A9F; 0xA3CE5A52; 0x8BDF9AAC; 0x93D0DA61; 0xDBFDB3F9; 0xC3F2F334; 0xEBE333CA; 0xF3EC7307;
  0xA492D5C4; 0xBC9D9509; 0x948C55F7; 0x8C83153A; 0xC4AE7CA2; 0xDCA13C6F; 0xF4B0FC91; 0xECBFBC5C;
  0x64EA2E08; 0x7CE56EC5; 0x54F4AE3B; 0x4CFBEEF6; 0x04D6876E; 0x1CD9C7A3; 0x34C8075D; 0x2CC74790;
  0x8D628AF5; 0x956DCA38; 0xBD7C0AC6; 0xA5734A0B; 0xED5E2393; 0xF551635E; 0xDD40A3A0; 0xC54FE36D;
  0x4D1A7139; 0x551531F4; 0x7D04F10A; 0x650BB1C7; 0x2D26D85F; 0x35299892; 0x1D38586C; 0x053718A1;
  0xF6DB6BA6; 0xEED42B6B; 0xC6C5EB95; 0xDECAAB58; 0x96E7C2C0; 0x8EE8820D; 0xA6F942F3; 0xBEF6023E;
  0x36A3906A; 0x2EACD0A7; 0x06BD1059; 0x1EB25094; 0x569F390C; 0x4E9079C1; 0x6681B93F; 0x7E8EF9F2;
  0xDF2B3497; 0xC724745A; 0xEF35B4A4; 0xF73AF469; 0xBF179DF1; 0xA718DD3C; 0x8F091DC2; 0x97065D0F;
  0x1F53CF5B; 0x075C8F96; 0x2F4D4F68; 0x37420FA5; 0x7F6F663D; 0x676026F0; 0x4F71E60E; 0x577EA6C3;
  0xE18D0321; 0xF98243EC; 0xD1938312; 0xC99CC3DF; 0x81B1AA47; 0x99BEEA8A; 0xB1AF2A74; 0xA9A06AB9;
  0x21F5F8ED; 0x39FAB820; 0x11EB78DE; 0x09E43813; 0x41C9518B; 0x59C61146; 0x71D7D1B8; 0x69D89175;
  0xC87D5C10; 0xD0721CDD; 0xF863DC23; 0xE06C9CEE; 0xA841F576; 0xB04EB5BB; 0x985F7545; 0x80503588;
  0x0805A7DC; 0x100AE711; 0x381B27EF; 0x20146722; 0x68390EBA; 0x70364E77; 0x58278E89; 0x4028CE44;
  0xB3C4BD43; 0xABCBFD8E; 0x83DA3D70; 0x9BD57DBD; 0xD3F81425; 0xCBF754E8; 0xE3E69416; 0xFBE9D4DB;
  0x73BC468F; 0x6BB30642; 0x43A2C6BC; 0x5BAD8671; 0x1380EFE9; 0x0B8FAF24; 0x239E6FDA; 0x3B912F17;
  0x9A34E272; 0x823BA2BF; 0xAA2A6241; 0xB225228C; 0xFA084B14; 0xE2070BD9; 0xCA16CB27; 0xD2198BEA;
  0x5A4C19BE; 0x42435973; 0x6A52998D; 0x725DD940; 0x3A70B0D8; 0x227FF015; 0x0A6E30EB; 0x12617026;
  0x451FD6E5; 0x5D109628; 0x750156D6; 0x6D0E161B; 0x25237F83; 0x3D2C3F4E; 0x153DFFB0; 0x0D32BF7D;
  0x85672D29; 0x9D686DE4; 0xB579AD1A; 0xAD76EDD7; 0xE55B844F; 0xFD54C482; 0xD545047C; 0xCD4A44B1;
  0x6CEF89D4; 0x74E0C919; 0x5CF109E7; 0x44FE492A; 0x0CD320B2; 0x14DC607F; 0x3CCDA081; 0x24C2E04C;
  0xAC977218; 0xB49832D5; 0x9C89F22B; 0x8486B2E6; 0xCCABDB7E; 0xD4A49BB3; 0xFCB55B4D; 0xE4BA1B80;
  0x17566887; 0x0F59284A; 0x2748E8B4; 0x3F47A879; 0x776AC1E1; 0x6F65812C; 0x477441D2; 0x5F7B011F;
  0xD72E934B; 0xCF21D386; 0xE7301378; 0xFF3F53B5; 0xB7123A2D; 0xAF1D7AE0; 0x870CBA1E; 0x9F03FAD3;
  0x3EA637B6; 0x26A9777B; 0x0EB8B785; 0x16B7F748; 0x5E9A9ED0; 0x4695DE1D; 0x6E841EE3; 0x768B5E2E;
  0xFEDECC7A; 0xE6D18CB7; 0xCEC04C49; 0xD6CF0C84; 0x9EE2651C; 0x86ED25D1; 0xAEFCE52F; 0xB6F3A5E2].

Definition BYTE32 (word i : Z) : Z := u8 ((word >> (8 * (3 - i))) .& 0xff).
Definition snow_S1 (w : Z) : Z :=
  tbl S1_T0 (BYTE32 w 3) .^ tbl S1_T1 (BYTE32 w 2) .^ tbl S1_T2 (BYTE32 w 1) .^ tbl S1_T3 (BYTE32 w 0).
Definition snow_S2 (w : Z) : Z :=
  tbl S2_T0 (BYTE32 w 3) .^ tbl S2_T1 (BYTE32 w 2) .^ tbl S2_T2 (BYTE32 w 1) .^ tbl S2_T3 (BYTE32 w 0).

Definition lfsr_init (f : Z) (ctx : snow_state) : snow_state :=
  lfsr_shift ((shl32 (reg ctx 0) 8 .& 0xffffff00) .^ tbl MULalpha_table (BYTE32 (reg ctx 0) 0) .^ reg ctx 2 .^
    ((reg ctx 11 >> 8) .& 0x00ffffff) .^ tbl DIValpha_table (BYTE32 (reg ctx 11) 3) .^ f) ctx.
Definition lfsr_keystream (ctx : snow_state) : snow_state :=
  let s0 := reg ctx 0 in
  let s2 := reg ctx 2 in
  let s11 := reg ctx 11 in
  lfsr_shift ((shl32 s0 8 .& 0xffffff00) .^ tbl MULalpha_table (BYTE32 s0 0) .^ s2 .^
    ((s11 >> 8) .& 0x00ffffff) .^ tbl DIValpha_table (BYTE32 s11 3)) ctx.
Definition clock_fsm (ctx : snow_state) : Z * snow_state :=
  let f := add32 (reg ctx 15) (fsm_r1 ctx) .^ fsm_r2 ctx in
  let r := add32 (fsm_r2 ctx) (fsm_r3 ctx .^ reg ctx 5) in
  (f, Snow (lfsr ctx) r (snow_S1 (fsm_r1 ctx)) (snow_S2 (fsm_r2 ctx))).

(** [be32toh] of word [i] of an array. *)
Definition WORD_128 (array : list Z) (i : nat) : Z := bswap 4 (le_value (take 4 (drop (4 * i) array))).
Definition ONE : Z := 0xffffffff.
Record snow_key_st := SnowKey { snow_key : list Z; snow_iv : list Z }.
Definition snow_array_to_key (key iv : list Z) : snow_key_st :=
  SnowKey (map (WORD_128 key) (seq 0 4)) (map (WORD_128 iv) (seq 0 4)).

Definition snow_init_lfsr_fsm (key : snow_key_st) : snow_state :=
  let k i := nth i (snow_key key) 0 in
  let v i := nth i (snow_iv key) 0 in
  Snow [k 0%nat .^ ONE; k 1%nat .^ ONE; k 2%nat .^ ONE; k 3%nat .^ ONE;
        k 0%nat; k 1%nat; k 2%nat; k 3%nat;
        k 0%nat .^ ONE; k 1%nat .^ ONE .^ v 3%nat; k 2%nat .^ ONE .^ v 2%nat; k 3%nat .^ ONE;
        k 0%nat .^ v 1%nat; k 1%nat; k 2%nat; k 3%nat .^ v 0%nat] 0 0 0.
Definition SNOW_set_key (key : snow_key_st) : snow_state :=
  Nat.iter 32 (λ ctx, let '(f, ctx) := clock_fsm ctx in lfsr_init f ctx) (snow_init_lfsr_fsm key).
Definition SNOW_init (countc bearer direction : Z) (confidentiality_key : list Z) : snow_state :=
  let key := [WORD_128 confidentiality_key 3; WORD_128 confidentiality_key 2;
              WORD_128 confidentiality_key 1; WORD_128 confidentiality_key 0] in
  let iv2 := shl32 (bearer .& 0x1F) 27 .| shl32 (direction .& 0x01) 26 in
  SNOW_set_key (SnowKey key [iv2; countc; iv2; countc]).

Fixpoint stream_words (n : nat) (ctx : snow_state) : list Z * snow_state :=
  match n with
  | 0%nat => ([], ctx)
  | S n =>
      let '(f, ctx) := clock_fsm ctx in
      let w := f .^ reg ctx 0 in
      let ctx := lfsr_keystream ctx in
      let '(ws, ctx) := stream_words n ctx in
      (w :: ws, ctx)
  end.
Definition SNOW_gen_keystream (nb_word : nat) (ctx : snow_state) : list Z * snow_state :=
  let '(_, ctx) := clock_fsm ctx in
  let ctx := lfsr_keystream ctx in
  stream_words nb_word ctx.

(** Words of the input and of the output are in the order of the host; [out]
    may be the input. *)
Fixpoint snow_words (n : nat) (inp : list Z) (ctx : snow_state) : list Z * snow_state :=
  match n with
  | 0%nat => ([], ctx)
  | S n =>
      let '(f, ctx) := clock_fsm ctx in
      let f := f .^ reg ctx 0 in
      let out := le_bytes 4 (le_value (take 4 inp) .^ bswap 4 f) in
      let ctx := lfsr_keystream ctx in
      let '(rest, ctx) := snow_words n (drop 4 inp) ctx in
      (out ++ rest, ctx)
  end.
Definition SNOW (nb_byte : nat) (inp : list Z) (ctx : snow_state) : list Z * snow_state :=
  let nb_word := (nb_byte / 4)%nat in
  let r := (nb_byte mod 4)%nat in
  let '(_, ctx) := clock_fsm ctx in
  let ctx := lfsr_keystream ctx in
  let '(out, ctx) := snow_words nb_word inp ctx in
  match r with
  | 0%nat => (out, ctx)
  | _ =>
      let '(f, ctx) := clock_fsm ctx in
      let f := f .^ reg ctx 0 in
      let last_in := le_value (take r (drop (nb_word * 4) inp) ++ replicate (4 - r) 0) in
      let last_out := last_in .^ bswap 4 f in
      (out ++ take r (le_bytes 4 last_out), lfsr_keystream ctx)
  end.

Example SNOW_vector :
  fst (SNOW 15 (be_bytes 15 0x7ec61272743bf1614726446a6c38ce)
    (SNOW_init 0x72a4f20f 0x0c 1 (be_bytes 16 0x2bd6459f82c5b300952c49104881ff48))) =
  be_bytes 15 0x8ceba62943dced3a0990b06ea1b0a2.
Proof. by vm_compute. Qed.

End SnowCore.
