(* ===== verification/SnowSpec.v ===== *)
(** * The two implementations of SNOW 3G agree

    The look-up tables of lib/crypt/openssl/snow_core.c hold what
    lib/crypt/snow-3g.c computes, so that both make the same key stream, and
    [SNOW] does to a message what [snow_3g_f8] does. *)
From S2P Require Import Prelude XactBase Octets Words AesModesSpec EeaSpec Snow.
#[local] Open Scope Z_scope.
#[local] Open Scope c_scope.
#[local] Ltac Zify.zify_post_hook ::= Z.to_euclidean_division_equations.
Import Snow3g SnowCore.

(** ** The tables *)

Lemma MULx_byte V c : is_byte (MULx V c).
Proof. unfold MULx. destruct (negb _); apply u8_byte. Qed.
Lemma MULxPOW_byte V i c : is_byte V → is_byte (MULxPOW V i c).
Proof. intros HV. destruct i; [done|apply MULx_byte]. Qed.
#[local] Hint Resolve MULx_byte MULxPOW_byte : machine.

Lemma MULalpha_ok x : is_byte x → tbl MULalpha_table x = MULalpha x.
Proof. intros Hx. by_bytes x Hx. Qed.
Lemma DIValpha_ok x : is_byte x → tbl DIValpha_table x = DIValpha x.
Proof. intros Hx. by_bytes x Hx. Qed.

(** The table for each byte of a word, of the columns of [sbox_mix]. *)
Definition column_tables (T : list Z) (c : Z) (T0 T1 T2 T3 : list Z) : Prop := ∀ x, is_byte x →
  let s := tbl T x in
  tbl T3 x = word (MULx s c) (MULx s c .^ s) s s ∧ tbl T2 x = word s (MULx s c) (MULx s c .^ s) s ∧
  tbl T1 x = word s s (MULx s c) (MULx s c .^ s) ∧ tbl T0 x = word (MULx s c .^ s) s s (MULx s c).
Lemma S1_tables : column_tables SR 0x1b S1_T0 S1_T1 S1_T2 S1_T3.
Proof. intros x Hx. cbv zeta. split_and!; revert x Hx; intros x Hx; by_bytes x Hx. Qed.
Lemma S2_tables : column_tables SQ 0x69 S2_T0 S2_T1 S2_T2 S2_T3.
Proof. intros x Hx. cbv zeta. split_and!; revert x Hx; intros x Hx; by_bytes x Hx. Qed.

Lemma shl32_word_lors a b c d : is_byte a → is_byte b → is_byte c → is_byte d →
  shl32 a 24 .| shl32 b 16 .| shl32 c 8 .| d = word a b c d.
Proof.
  intros Ha Hb Hc Hd. rewrite <- word_lors by done. unfold shl32, u32, is_byte in *.
  rewrite !Z.mod_small; [done|rewrite Z.shiftl_mul_pow2 by lia; lia..].
Qed.
Lemma u8_of_byte x : is_byte x → u8 x = x.
Proof. intros Hx. apply Z.mod_small. exact Hx. Qed.
Lemma sbox_mix_tables T c T0 T1 T2 T3 w : bytes T → column_tables T c T0 T1 T2 T3 → is_word w →
  tbl T0 (BYTE32 w 3) .^ tbl T1 (BYTE32 w 2) .^ tbl T2 (BYTE32 w 1) .^ tbl T3 (BYTE32 w 0) = sbox_mix T c w ∧
  is_word (sbox_mix T c w).
Proof.
  intros HT H (a & b & e & d & -> & Ha & Hb & He & Hd)%word_cases. unfold sbox_mix, BYTE32. cbv zeta.
  change (8 * (3 - 3)) with 0. change (8 * (3 - 2)) with 8. change (8 * (3 - 1)) with 16. change (8 * (3 - 0)) with 24.
  rewrite Z.shiftr_0_r. rewrite word_byte0_mask, word_byte1, word_byte2, word_byte3, !u8_of_byte by done.
  destruct (H a Ha) as (-> & _). destruct (H b Hb) as (_ & -> & _). destruct (H e He) as (_ & _ & -> & _).
  destruct (H d Hd) as (_ & _ & _ & ->).
  assert (B : ∀ x, is_byte (tbl T x)) by auto with machine.
  rewrite !word_lxor, shl32_word_lors by auto 10 with machine. split; [|auto 10 with machine].
  f_equal; apply Z.bits_inj'; intros i Hi; rewrite !Z.lxor_spec;
    repeat match goal with |- context [Z.testbit ?x i] => destruct (Z.testbit x i) end; reflexivity.
Qed.
Lemma S1_ok w : is_word w → snow_S1 w = S1 w ∧ is_word (S1 w).
Proof. intros Hw. apply (sbox_mix_tables SR 0x1b); [by apply bytes_by_check|apply S1_tables|done]. Qed.
Lemma S2_ok w : is_word w → snow_S2 w = S2 w ∧ is_word (S2 w).
Proof. intros Hw. apply (sbox_mix_tables SQ 0x69); [by apply bytes_by_check|apply S2_tables|done]. Qed.

(** ** Steps *)

(** Sixteen elements of 32 bits, and the registers of 32 bits. *)
Definition regs_ok (s : snow_state) : Prop :=
  length (lfsr s) = 16%nat ∧ words (lfsr s) ∧ is_word (fsm_r1 s) ∧ is_word (fsm_r2 s) ∧ is_word (fsm_r3 s).
Lemma reg_word s i : regs_ok s → is_word (reg s i).
Proof.
  intros (_ & H & _). unfold reg. destruct (nth_in_or_default i (lfsr s) 0) as [Hin| ->]; [|done].
  unfold words in H. rewrite List.Forall_forall in H. by apply H.
Qed.
Lemma shift_regs v s : regs_ok s → is_word v → regs_ok (lfsr_shift v s).
Proof.
  intros H Hv. pose proof (reg_word s) as Hr. destruct H as (Hl & Hw & H1 & H2 & H3). unfold regs_ok, lfsr_shift. cbn [lfsr fsm_r1 fsm_r2 fsm_r3].
  split; [done|]. split; [|done]. apply Forall_app. split; [|by apply Forall_singleton].
  apply List.Forall_forall. intros x (i & <- & _)%in_map_iff. by apply Hr.
Qed.

Lemma clock_ok s : regs_ok s →
  clock_fsm s = ClockFSM s ∧ is_word (ClockFSM s).1 ∧ regs_ok (ClockFSM s).2.
Proof.
  intros H. pose proof (reg_word s 15 H) as H15. pose proof (reg_word s 5 H) as H5. destruct H as (Hl & Hw & H1 & H2 & H3).
  unfold clock_fsm, ClockFSM. change 0xffffffff with (2 ^ 32 - 1). rewrite !land_mask by lia.
  assert (E : ∀ a b, add32 a b mod 2 ^ 32 = add32 a b) by (intros; apply Z.mod_small, add32_word). rewrite !E.
  destruct (S1_ok _ H1) as [-> ?]. destruct (S2_ok _ H2) as [-> ?]. split; [done|]. cbn [fst snd].
  split; [auto with machine|]. unfold regs_ok. cbn. auto with machine.
Qed.
(** The sum that both modes of the register share. *)
Lemma feedback_ok s : regs_ok s →
  let v := (shl32 (reg s 0) 8 .& 0xffffff00) .^ MULalpha (u8 ((reg s 0 >> 24) .& 0xff)) .^ reg s 2 .^
    ((reg s 11 >> 8) .& 0x00ffffff) .^ DIValpha (u8 (reg s 11 .& 0xff)) in
  (shl32 (reg s 0) 8 .& 0xffffff00) .^ tbl MULalpha_table (BYTE32 (reg s 0) 0) .^ reg s 2 .^
    ((reg s 11 >> 8) .& 0x00ffffff) .^ tbl DIValpha_table (BYTE32 (reg s 11) 3) = v ∧ is_word v.
Proof.
  intros H. pose proof (λ i, reg_word s i H) as Hr. cbv zeta. unfold BYTE32.
  change (8 * (3 - 3)) with 0. change (8 * (3 - 0)) with 24. rewrite Z.shiftr_0_r.
  rewrite MULalpha_ok, DIValpha_ok by apply u8_byte. split; [done|].
  assert (W : ∀ n x, is_byte x → is_word (MULxPOW x n 0xa9)) by (intros n x Hx; pose proof (MULxPOW_byte x n 0xa9 Hx); unfold is_byte, is_word in *; lia).
  assert (WA : ∀ x, is_byte x → is_word (MULalpha x) ∧ is_word (DIValpha x)).
  { intros x Hx. unfold MULalpha, DIValpha. rewrite !shl32_word_lors by auto with machine. auto with machine. }
  repeat apply lxor_word; try apply Hr; try apply WA; try apply u8_byte.
  - apply (land_range 32); [lia|apply u32_word].
  - apply (land_range 32); [lia|]. apply (shiftr_range 32); [lia..|apply Hr].
Qed.
Lemma snow_init_ok f s : regs_ok s → is_word f →
  lfsr_init f s = ClockLFSRInitializationMode f s ∧ regs_ok (ClockLFSRInitializationMode f s).
Proof.
  intros H Hf. destruct (feedback_ok s H) as [E W]. cbv zeta in *. unfold lfsr_init, ClockLFSRInitializationMode.
  rewrite E. split; [done|]. apply shift_regs; auto with machine.
Qed.
Lemma keystream_ok s : regs_ok s → lfsr_keystream s = ClockLFSRKeyStreamMode s ∧ regs_ok (ClockLFSRKeyStreamMode s).
Proof.
  intros H. destruct (feedback_ok s H) as [E W]. cbv zeta in *. unfold lfsr_keystream, ClockLFSRKeyStreamMode. cbv zeta.
  rewrite E. split; [done|]. by apply shift_regs.
Qed.

(** ** Streams *)

Lemma init_rounds_ok n s : regs_ok s →
  Nat.iter n (λ ctx, let '(f, ctx) := clock_fsm ctx in lfsr_init f ctx) s =
  Nat.iter n (λ s, let '(F, s) := ClockFSM s in ClockLFSRInitializationMode F s) s ∧
  regs_ok (Nat.iter n (λ s, let '(F, s) := ClockFSM s in ClockLFSRInitializationMode F s) s).
Proof.
  intros H. induction n as [|n [IH1 IH2]]; [done|]. rewrite !Nat.iter_succ, IH1. revert IH2.
  generalize (Nat.iter n (λ s, let '(F, s) := ClockFSM s in ClockLFSRInitializationMode F s) s). intros s0 IH2.
  destruct (clock_ok s0 IH2) as (-> & HF & Hs). destruct (ClockFSM s0) as [F s']. by apply snow_init_ok.
Qed.
Lemma set_key_ok k IV : words k → words IV →
  SNOW_set_key (SnowKey k IV) = snow_3g_initialize k IV ∧ regs_ok (snow_3g_initialize k IV).
Proof.
  intros Hk HIV. unfold SNOW_set_key, snow_3g_initialize.
  assert (N : ∀ l i, words l → is_word (nth i l 0)).
  { intros l i Hl. destruct (nth_in_or_default i l 0) as [Hin| ->]; [|done]. unfold words in Hl.
    rewrite List.Forall_forall in Hl. by apply Hl. }
  assert (H0 : regs_ok (snow_load k IV)).
  { unfold regs_ok, snow_load. cbn [lfsr fsm_r1 fsm_r2 fsm_r3 length]. split; [done|]. split; [|done].
    assert (is_word 0xffffffff) by done. unfold words. rewrite !Forall_cons. auto 30 with machine. }
  change (snow_init_lfsr_fsm (SnowKey k IV)) with (snow_load k IV).
  by apply init_rounds_ok.
Qed.

(** The stream from any state, and the two functions that make it. *)
Lemma stream_words_ok n s : regs_ok s → stream_words n s = key_stream_words n s ∧ words (key_stream_words n s).1.
Proof.
  revert s. induction n as [|n IH]; intros s H; [by split; [|constructor]|]. cbn [stream_words key_stream_words].
  destruct (clock_ok s H) as (-> & HF & Hs). destruct (ClockFSM s) as [F s']. cbn [fst snd] in *.
  destruct (keystream_ok s' Hs) as [-> Hk]. destruct (IH _ Hk) as [-> Hw].
  destruct (key_stream_words n (ClockLFSRKeyStreamMode s')) as [ks s'']. split; [done|]. constructor; [|done].
  apply lxor_word; [done|by apply reg_word].
Qed.
Lemma key_stream_length n s : length (key_stream_words n s).1 = n.
Proof.
  revert s. induction n as [|n IH]; intros s; [done|]. cbn [key_stream_words]. destruct (ClockFSM s) as [F s'].
  specialize (IH (ClockLFSRKeyStreamMode s')). destruct (key_stream_words n _). cbn in *. lia.
Qed.

(** A word of the message with a word of the stream, on a little-endian host. *)
Lemma snow_word_ok inp f : length inp = 4%nat → bytes inp → is_word f →
  le_bytes 4 (le_value inp .^ bswap 4 f) = xor_bytes inp (be_bytes 4 f).
Proof.
  intros Hl Hb (p & q & r & s & -> & Hp & Hq & Hr & Hs)%word_cases.
  destruct inp as [|a [|b [|c [|d []]]]]; try done. repeat (apply Forall_cons in Hb as [? Hb]).
  assert (E : ∀ a b c d, le_value [a; b; c; d] = word d c b a) by (intros; rewrite word_eq; cbn; ring).
  assert (B : ∀ a b c d, is_byte a → is_byte b → is_byte c → is_byte d → le_bytes 4 (word d c b a) = [a; b; c; d]).
  { intros a' b' c' d' ????. rewrite <- E. apply (le_bytes_value [a'; b'; c'; d']). unfold bytes. by rewrite !Forall_cons. }
  rewrite E, be_bytes_word by done. unfold bswap. rewrite B by done.
  change (be_value [s; r; q; p]) with (word s r q p). rewrite word_lxor by done. by rewrite B by auto with machine.
Qed.
Lemma snow_words_ok n inp s : regs_ok s → bytes inp → (4 * n ≤ length inp)%nat →
  snow_words n inp s = (xor_bytes (take (4 * n) inp) (bytes_of (key_stream_words n s).1), (key_stream_words n s).2).
Proof.
  revert inp s. induction n as [|n IH]; intros inp s H Hb Hl; [done|]. cbn [snow_words key_stream_words].
  destruct (clock_ok s H) as (-> & HF & Hs). destruct (ClockFSM s) as [F s']. cbn [fst snd] in *.
  destruct (keystream_ok s' Hs) as [-> Hk]. rewrite IH; [|done|by apply Forall_drop|rewrite length_drop; lia].
  assert (Hw : is_word (F .^ reg s' 0)) by (apply lxor_word; [done|by apply reg_word]).
  rewrite snow_word_ok; [|rewrite length_take; lia|by apply Forall_take|done].
  destruct (key_stream_words n (ClockLFSRKeyStreamMode s')) as [ks s'']. cbn [fst snd]. f_equal.
  change (bytes_of (F .^ reg s' 0 :: ks)) with (be_bytes 4 (F .^ reg s' 0) ++ bytes_of ks).
  replace (take (4 * S n) inp) with (take 4 inp ++ take (4 * n) (drop 4 inp)).
  - unfold xor_bytes. rewrite zip_with_app; [done|]. rewrite length_take, be_bytes_length. lia.
  - rewrite take_drop_commute. replace (4 + 4 * n)%nat with (4 * S n)%nat by lia.
    transitivity (take 4 (take (4 * S n) inp) ++ drop 4 (take (4 * S n) inp)); [|apply take_drop].
    rewrite take_take, Nat.min_l by lia. done.
Qed.

Lemma key_stream_regs n s : regs_ok s → regs_ok (key_stream_words n s).2.
Proof.
  revert s. induction n as [|n IH]; intros s H; [done|]. cbn [key_stream_words].
  destruct (clock_ok s H) as (_ & HF & Hs). destruct (ClockFSM s) as [F s']. cbn [fst snd] in *.
  destruct (keystream_ok s' Hs) as [_ Hk]. specialize (IH _ Hk). by destruct (key_stream_words n (ClockLFSRKeyStreamMode s')).
Qed.
Lemma key_stream_snoc n s : key_stream_words (S n) s =
  let '(ks, s) := key_stream_words n s in
  let '(F, s) := ClockFSM s in (ks ++ [F .^ reg s 0], ClockLFSRKeyStreamMode s).
Proof.
  revert s. induction n as [|n IH]; intros s; [cbn; by destruct (ClockFSM s)|].
  cbn [key_stream_words] in *. destruct (ClockFSM s) as [F s']. rewrite IH.
  destruct (key_stream_words n (ClockLFSRKeyStreamMode s')) as [ks s'']. by destruct (ClockFSM s'').
Qed.

(** The words that a message of [n] bytes needs. *)
Definition words_for (n : nat) : nat := ((n + 3) / 4)%nat.
Lemma SNOW_ok n inp s : regs_ok s → bytes inp → (n ≤ length inp)%nat →
  (SNOW n inp s).1 = xor_bytes (take n inp) (bytes_of (snow_3g_generate_key_stream (words_for n) s).1).
Proof.
  intros H Hb Hl. unfold SNOW, snow_3g_generate_key_stream. cbv zeta.
  destruct (clock_ok s H) as (-> & _ & Hs). destruct (ClockFSM s) as [F s0]. cbn [snd] in Hs.
  destruct (keystream_ok s0 Hs) as [-> Hk]. revert Hk. generalize (ClockLFSRKeyStreamMode s0). clear F s0 H Hs s. intros s H.
  set (m := (n / 4)%nat). assert (Hn : n = (4 * m + n mod 4)%nat) by (unfold m; lia).
  rewrite snow_words_ok by (done || lia).
  destruct (n mod 4)%nat as [|r] eqn:Er.
  { unfold words_for. replace ((n + 3) / 4)%nat with m by lia. cbn [fst]. do 2 f_equal. lia. }
  replace (words_for n) with (S m) by (unfold words_for; lia). rewrite key_stream_snoc.
  pose proof (key_stream_regs m s H) as H1. pose proof (key_stream_length m s) as Lk.
  destruct (key_stream_words m s) as [ks s1]. cbn [fst snd] in *.
  destruct (clock_ok s1 H1) as (-> & HF & Hs2). destruct (ClockFSM s1) as [F s2]. cbn [fst snd] in *.
  assert (Hw : is_word (F .^ reg s2 0)) by (apply lxor_word; [done|by apply reg_word]).
  set (x := take (S r) (drop (m * 4) inp)). assert (Lx : length x = S r) by (unfold x; rewrite length_take, length_drop; lia).
  rewrite snow_word_ok; [|rewrite length_app, length_replicate; lia| |done].
  2: { apply Forall_app. split; [by apply Forall_take, Forall_drop|]. apply Forall_replicate. done. }
  unfold bytes_of. rewrite bind_app. fold (bytes_of ks). cbn [mbind list_bind]. rewrite app_nil_r.
  replace (take n inp) with (take (4 * m) inp ++ x).
  - unfold xor_bytes at 3. rewrite zip_with_app by (rewrite length_take, bytes_of_length; lia).
    fold (xor_bytes (take (4 * m) inp) (bytes_of ks)). f_equal. fold (xor_bytes x (be_bytes 4 (F .^ reg s2 0))).
    set (k := be_bytes 4 _). assert (Lk' : length k = 4%nat) by apply be_bytes_length. clearbody k x.
    rewrite <- (take_drop (S r) k). unfold xor_bytes. rewrite zip_with_app by (rewrite length_take; lia).
    fold (xor_bytes x (take (S r) k)). rewrite take_app_length' by (rewrite xor_bytes_length, length_take; lia).
    symmetry. fold (xor_bytes x (take (S r) k ++ drop (S r) k)). apply xor_bytes_app_l. rewrite length_take. lia.
  - unfold x. rewrite take_drop_commute. replace (m * 4 + S r)%nat with n by lia.
    transitivity (take (4 * m) (take n inp) ++ drop (4 * m) (take n inp)); [|apply take_drop].
    rewrite take_take, Nat.min_l by lia. do 2 f_equal. lia.
Qed.

(** ** The keys *)

Lemma WORD_128_ok key i : bytes key → (4 * i + 4 ≤ length key)%nat → WORD_128 key i =
  word (nth (4 * i) key 0) (nth (4 * i + 1) key 0) (nth (4 * i + 2) key 0) (nth (4 * i + 3) key 0).
Proof.
  intros Hb Hl. unfold WORD_128. rewrite bswap_le_value; [|rewrite length_take, length_drop; lia|by apply Forall_take, Forall_drop].
  unfold word. f_equal. rewrite <- (take_drop (4 * i) key) at 2 3 4 5.
  assert (Lt : length (take (4 * i) key) = (4 * i)%nat) by (rewrite length_take; lia).
  rewrite !app_nth2 by lia. rewrite Lt, Nat.sub_diag. replace (4 * i + 1 - 4 * i)%nat with 1%nat by lia.
  replace (4 * i + 2 - 4 * i)%nat with 2%nat by lia. replace (4 * i + 3 - 4 * i)%nat with 3%nat by lia.
  pose proof (length_drop key (4 * i)) as Ld. destruct (drop (4 * i) key) as [|a [|b [|c [|d l]]]]; cbn in Ld; try lia. done.
Qed.
Lemma key_words_ok key : length key = 16%nat → bytes key →
  [WORD_128 key 3; WORD_128 key 2; WORD_128 key 1; WORD_128 key 0] = key_words key ∧ words (key_words key).
Proof.
  intros Hl Hb. assert (B : ∀ i, is_byte (nth i key 0)) by auto with machine.
  rewrite !WORD_128_ok by (done || lia). unfold key_words. rewrite !word_lxors by done. split; [done|].
  unfold words. rewrite !Forall_cons. auto 10 with machine.
Qed.
Lemma mask_shift_27 b : shl32 (b .& 0x1F) 27 = shl32 b 27.
Proof.
  change 0x1F with (2 ^ 5 - 1). rewrite land_mask by lia. unfold shl32, u32. rewrite !Z.shiftl_mul_pow2 by lia.
  change (2 ^ 32) with (2 ^ 5 * 2 ^ 27). rewrite !Z.mul_mod_distr_r by lia. rewrite Zmod_mod. done.
Qed.
Lemma SNOW_init_ok count bearer dir key : length key = 16%nat → bytes key → is_word count →
  let iv2 := shl32 bearer 27 .| shl32 (dir .& 0x1) 26 in
  SNOW_init count bearer dir key = snow_3g_initialize (key_words key) [iv2; count; iv2; count] ∧
  regs_ok (SNOW_init count bearer dir key).
Proof.
  intros Hl Hb Hc. cbv zeta. unfold SNOW_init. cbv zeta. destruct (key_words_ok key Hl Hb) as [-> Hk]. rewrite mask_shift_27.
  assert (is_word (shl32 bearer 27 .| shl32 (dir .& 0x1) 26)) as Hv by (apply (lor_range 32); [lia|apply u32_word..]).
  assert (Hw : words [shl32 bearer 27 .| shl32 (dir .& 0x1) 26; count; shl32 bearer 27 .| shl32 (dir .& 0x1) 26; count]).
  { unfold words. by rewrite !Forall_cons. }
  destruct (set_key_ok _ _ Hk Hw) as [E R]. rewrite E. done.
Qed.

(** ** The theorem *)

Lemma be4_ok w : be4 w = be_bytes 4 w.
Proof.
  unfold be4. rewrite be_bytes4. change 0xff with (2 ^ 8 - 1). rewrite !land_mask by lia.
  assert (E : ∀ x, u8 x mod 2 ^ 8 = u8 x) by (intros; apply Z.mod_small, u8_byte). by rewrite !E.
Qed.
Lemma be4_stream ks : mbind be4 ks = bytes_of ks.
Proof. unfold bytes_of. induction ks as [|w ks IH]; [done|]. cbn [mbind list_bind] in *. by rewrite be4_ok, IH. Qed.
Lemma generate_length n s : length (snow_3g_generate_key_stream n s).1 = n.
Proof. unfold snow_3g_generate_key_stream. destruct (ClockFSM s). apply key_stream_length. Qed.
Lemma take_xor_bytes n xs ys : take n (xor_bytes xs ys) = xor_bytes (take n xs) ys.
Proof. revert xs ys. induction n as [|n IH]; intros [|x xs] [|y ys]; cbn; [done..|]. by rewrite IH. Qed.
Lemma xor_bytes_zeros_r xs n : (length xs ≤ n)%nat → xor_bytes xs (replicate n 0) = xs.
Proof. revert n. induction xs as [|x xs IH]; intros [|n] H; cbn in *; [done|done|lia|]. by rewrite Z.lxor_0_r, IH by lia. Qed.

(** C16: for a message of [n] bytes the two implementations give the same bytes.
    [snow_3g_f8] works on whole words: it needs room for them - without it, it
    writes past the end of the buffer - and does to all their bytes what [SNOW]
    does to a message of that length; the other bytes of the buffer remain.
    [SNOW] is its own inverse. *)
Theorem snow_implementations_agree key count bearer dir data n :
  length key = 16%nat → bytes key → is_word count → bytes data → (n ≤ length data)%nat → 8 * Z.of_nat n < 2 ^ 32 - 31 →
  let ctx := SNOW_init count bearer dir key in
  let room := (4 * ((n + 3) / 4))%nat in
  snow_3g_f8 key count bearer dir data (8 * Z.of_nat n) =
    (if (length data <? room)%nat then None else Some ((SNOW room data ctx).1 ++ drop room data)) ∧
  ((room ≤ length data)%nat → take n (SNOW room data ctx).1 = (SNOW n data ctx).1) ∧
  (SNOW n (SNOW n data ctx).1 ctx).1 = take n data.
Proof.
  intros Hl Hb Hc Hd Hn Hlt. cbv zeta. change ((n + 3) / 4)%nat with (words_for n).
  destruct (SNOW_init_ok count bearer dir key Hl Hb Hc) as [E R]. cbv zeta in E.
  rewrite (SNOW_ok n data) by done.
  assert (Lx : length (xor_bytes (take n data) (bytes_of (snow_3g_generate_key_stream (words_for n) (SNOW_init count bearer dir key)).1)) = n).
  { rewrite xor_bytes_length, length_take, bytes_of_length, generate_length. unfold words_for. lia. }
  assert (Hroom : (4 * words_for n ≤ length data)%nat →
    (SNOW (4 * words_for n) data (SNOW_init count bearer dir key)).1 =
    xor_bytes (take (4 * words_for n) data) (bytes_of (snow_3g_generate_key_stream (words_for n) (SNOW_init count bearer dir key)).1)).
  { intros Hr. rewrite SNOW_ok by done. do 4 f_equal. unfold words_for. lia. }
  split; [|split].
  - unfold snow_3g_f8. cbv zeta. rewrite <- E. clear E.
    assert (u32 (8 * Z.of_nat n + 31) = 8 * Z.of_nat n + 31) as -> by (apply Z.mod_small; lia).
    replace (Z.to_nat ((8 * Z.of_nat n + 31) / 32)) with (words_for n) by (unfold words_for; lia).
    pose proof (generate_length (words_for n) (SNOW_init count bearer dir key)) as Lk.
    destruct (snow_3g_generate_key_stream _ _) as [KS s']. cbn [fst] in *.
    destruct (Nat.ltb_spec (length data) (4 * words_for n)); [done|]. rewrite Hroom by lia.
    replace ((8 - (8 * Z.of_nat n) mod 8) mod 8) with 0 by lia. cbn [Z.eqb]. rewrite be4_stream. f_equal.
    rewrite <- (take_drop (4 * words_for n) data) at 1. unfold xor_bytes.
    rewrite zip_with_app by (rewrite length_take, bytes_of_length, Lk; lia).
    f_equal. apply xor_bytes_zeros_r. rewrite length_drop. lia.
  - intros Hr. rewrite Hroom by done. rewrite take_xor_bytes, take_take. do 2 f_equal. unfold words_for. lia.
  - rewrite SNOW_ok; [|done| |lia].
    + rewrite take_ge by lia. apply xor_bytes_twice. rewrite length_take, bytes_of_length, generate_length. unfold words_for. lia.
    + apply xor_bytes_bytes; [by apply Forall_take|apply bytes_of_bytes].
Qed.

Lemma snow_implementations_agree_witness :
  let key := be_bytes 16 0x2bd6459f82c5b300952c49104881ff48 in
  let data := be_bytes 9 0x7ec61272743b000011 in
  let ctx := SNOW_init 7 1 1 key in
  snow_3g_f8 key 7 1 1 data 48 = Some ((SNOW 8 data ctx).1 ++ [0x11]) ∧
  take 6 (SNOW 8 data ctx).1 = (SNOW 6 data ctx).1.
Proof.
  cbv zeta. destruct (snow_implementations_agree (be_bytes 16 0x2bd6459f82c5b300952c49104881ff48) 7 1 1 (be_bytes 9 0x7ec61272743b000011) 6)
    as (H1 & H2 & _); [reflexivity|apply be_bytes_bytes|by split|apply be_bytes_bytes|vm_compute; lia|by vm_compute|].
  split; [exact H1|apply H2; vm_compute; lia].
Defined.
