(* ===== verification/Sha2.v ===== *)
(** * SHA-2, HMAC and the derivation of keys (lib/crypt/ogs-sha2.c,
      lib/crypt/ogs-sha2-hmac.c, lib/crypt/ogs-kdf.c)

    The four functions of SHA-2 are two pieces of code that differ in the size
    of words and blocks, each with two sets of initial values.  What they share
    is written once over the parameters of a function.  The loops are those
    compiled without [UNROLL_LOOPS], which nothing defines. *)
From S2P Require Import Prelude XactBase Octets Words.
#[local] Open Scope Z_scope.
#[local] Open Scope c_scope.

(** ** The parameters *)

Definition sha224_h0 : list Z := [
  3238371032; 914150663; 812702999; 4144912697;
  4290775857; 1750603025; 1694076839; 3204075428].
Definition sha256_h0 : list Z := [
  1779033703; 3144134277; 1013904242; 2773480762;
  1359893119; 2600822924; 528734635; 1541459225].
Definition sha384_h0 : list Z := [
  14680500436340154072; 7105036623409894663; 10473403895298186519;
  1526699215303891257; 7436329637833083697; 10282925794625328401;
  15784041429090275239; 5167115440072839076].
Definition sha512_h0 : list Z := [
  7640891576956012808; 13503953896175478587; 4354685564936845355;
  11912009170470909681; 5840696475078001361; 11170449401992604703;
  2270897969802886507; 6620516959819538809].
Definition sha256_k : list Z := [
  1116352408; 1899447441; 3049323471; 3921009573; 961987163; 1508970993;
  2453635748; 2870763221; 3624381080; 310598401; 607225278; 1426881987;
  1925078388; 2162078206; 2614888103; 3248222580; 3835390401; 4022224774;
  264347078; 604807628; 770255983; 1249150122; 1555081692; 1996064986;
  2554220882; 2821834349; 2952996808; 3210313671; 3336571891; 3584528711;
  113926993; 338241895; 666307205; 773529912; 1294757372; 1396182291;
  1695183700; 1986661051; 2177026350; 2456956037; 2730485921; 2820302411;
  3259730800; 3345764771; 3516065817; 3600352804; 4094571909; 275423344;
  430227734; 506948616; 659060556; 883997877; 958139571; 1322822218;
  1537002063; 1747873779; 1955562222; 2024104815; 2227730452; 2361852424;
  2428436474; 2756734187; 3204031479; 3329325298].
Definition sha512_k : list Z := [
  4794697086780616226; 8158064640168781261; 13096744586834688815;
  16840607885511220156; 4131703408338449720; 6480981068601479193;
  10538285296894168987; 12329834152419229976; 15566598209576043074;
  1334009975649890238; 2608012711638119052; 6128411473006802146;
  8268148722764581231; 9286055187155687089; 11230858885718282805;
  13951009754708518548; 16472876342353939154; 17275323862435702243;
  1135362057144423861; 2597628984639134821; 3308224258029322869;
  5365058923640841347; 6679025012923562964; 8573033837759648693;
  10970295158949994411; 12119686244451234320; 12683024718118986047;
  13788192230050041572; 14330467153632333762; 15395433587784984357;
  489312712824947311; 1452737877330783856; 2861767655752347644;
  3322285676063803686; 5560940570517711597; 5996557281743188959;
  7280758554555802590; 8532644243296465576; 9350256976987008742;
  10552545826968843579; 11727347734174303076; 12113106623233404929;
  14000437183269869457; 14369950271660146224; 15101387698204529176;
  15463397548674623760; 17586052441742319658; 1182934255886127544;
  1847814050463011016; 2177327727835720531; 2830643537854262169;
  3796741975233480872; 4115178125766777443; 5681478168544905931;
  6601373596472566643; 7507060721942968483; 8399075790359081724;
  8693463985226723168; 9568029438360202098; 10144078919501101548;
  10430055236837252648; 11840083180663258601; 13761210420658862357;
  14299343276471374635; 14566680578165727644; 15097957966210449927;
  16922976911328602910; 17689382322260857208; 500013540394364858;
  748580250866718886; 1242879168328830382; 1977374033974150939;
  2944078676154940804; 3659926193048069267; 4368137639120453308;
  4836135668995329356; 5532061633213252278; 6448918945643986474;
  6902733635092675308; 7801388544844847127].

(** Words of [w] bits. *)
Definition wrap (w x : Z) : Z := x mod 2 ^ w.
Definition SHFR (x n : Z) : Z := x >> n.
Definition ROTR (w x n : Z) : Z := (x >> n) .| wrap w (x << (w - n)).
Definition CH (w x y z : Z) : Z := (x .& y) .^ (wrap w (Z.lnot x) .& z).
Definition MAJ (x y z : Z) : Z := (x .& y) .^ (x .& z) .^ (y .& z).

Definition SHA256_F1 (x : Z) : Z := ROTR 32 x 2 .^ ROTR 32 x 13 .^ ROTR 32 x 22.
Definition SHA256_F2 (x : Z) : Z := ROTR 32 x 6 .^ ROTR 32 x 11 .^ ROTR 32 x 25.
Definition SHA256_F3 (x : Z) : Z := ROTR 32 x 7 .^ ROTR 32 x 18 .^ SHFR x 3.
Definition SHA256_F4 (x : Z) : Z := ROTR 32 x 17 .^ ROTR 32 x 19 .^ SHFR x 10.
Definition SHA512_F1 (x : Z) : Z := ROTR 64 x 28 .^ ROTR 64 x 34 .^ ROTR 64 x 39.
Definition SHA512_F2 (x : Z) : Z := ROTR 64 x 14 .^ ROTR 64 x 18 .^ ROTR 64 x 41.
Definition SHA512_F3 (x : Z) : Z := ROTR 64 x 1 .^ ROTR 64 x 8 .^ SHFR x 7.
Definition SHA512_F4 (x : Z) : Z := ROTR 64 x 19 .^ ROTR 64 x 61 .^ SHFR x 6.

(** The bytes of a word, the constants, the functions F1 to F4, the initial
    values and the number of words of the digest. *)
Record sha_alg := ShaAlg {
  word_bytes : nat;
  sha_k : list Z;
  sha_f1 : Z → Z; sha_f2 : Z → Z; sha_f3 : Z → Z; sha_f4 : Z → Z;
  sha_h0 : list Z;
  digest_words : nat
}.
Definition SHA224 : sha_alg := ShaAlg 4 sha256_k SHA256_F1 SHA256_F2 SHA256_F3 SHA256_F4 sha224_h0 7.
Definition SHA256 : sha_alg := ShaAlg 4 sha256_k SHA256_F1 SHA256_F2 SHA256_F3 SHA256_F4 sha256_h0 8.
Definition SHA384 : sha_alg := ShaAlg 8 sha512_k SHA512_F1 SHA512_F2 SHA512_F3 SHA512_F4 sha384_h0 6.
Definition SHA512 : sha_alg := ShaAlg 8 sha512_k SHA512_F1 SHA512_F2 SHA512_F3 SHA512_F4 sha512_h0 8.

Section sha.
Context (A : sha_alg).
#[local] Abbreviation w := (8 * Z.of_nat (word_bytes A)).
(** [OGS_SHA*_BLOCK_SIZE] and [OGS_SHA*_DIGEST_SIZE]. *)
Definition block_size : nat := 16 * word_bytes A.
Definition digest_size : nat := digest_words A * word_bytes A.

(** [PACK32], [PACK64]: word [j] of a block. *)
Definition PACK (str : list Z) (j : nat) : Z :=
  let n := word_bytes A in
  foldl (λ x i, x .| (nth (j * n + i) str 0 << (8 * Z.of_nat (n - 1 - i)))) 0 (seq 0 n).
(** [UNPACK32], [UNPACK64]. *)
Definition UNPACK (x : Z) : list Z := map (λ i, u8 (x >> (8 * Z.of_nat (word_bytes A - 1 - i)))) (seq 0 (word_bytes A)).

(** [SHA256_SCR], [SHA512_SCR]: the next word of [ws], which has all before it. *)
Definition SCR (ws : list Z) : list Z :=
  let j := length ws in
  let at_ k := nth (j - k) ws 0 in
  ws ++ [wrap w (sha_f4 A (at_ 2%nat) + at_ 7%nat + sha_f3 A (at_ 15%nat) + at_ 16%nat)].
(** A pass of the loop over the constants. *)
Definition sha_round (wv : list Z) (kw : Z * Z) : list Z :=
  let v i := nth i wv 0 in
  let t1 := wrap w (v 7%nat + sha_f2 A (v 4%nat) + CH w (v 4%nat) (v 5%nat) (v 6%nat) + fst kw + snd kw) in
  let t2 := wrap w (sha_f1 A (v 0%nat) + MAJ (v 0%nat) (v 1%nat) (v 2%nat)) in
  [wrap w (t1 + t2); v 0%nat; v 1%nat; v 2%nat; wrap w (v 3%nat + t1); v 4%nat; v 5%nat; v 6%nat].
(** The body of the outer loop of [sha256_transf] and [sha512_transf]. *)
Definition sha_block (h sub_block : list Z) : list Z :=
  let ws := Nat.iter (length (sha_k A) - 16) SCR (map (PACK sub_block) (seq 0 16)) in
  let wv := foldl sha_round h (zip (sha_k A) ws) in
  zip_with (λ a b, wrap w (a + b)) h wv.
Definition sha_transf (h message : list Z) (block_nb : nat) : list Z :=
  foldl (λ h i, sha_block h (take block_size (drop (i * block_size) message))) h (seq 0 block_nb).

(** ** Contexts *)

Record sha_ctx := ShaCtx { tot_len : Z; ctx_len : Z; ctx_block : list Z; ctx_h : list Z }.
(** [memcpy(&block[off], d, length of d)]. *)
Definition copy_at (off : nat) (d block : list Z) : list Z := take off block ++ d ++ drop (off + length d) block.

(** The block keeps what it held. *)
Definition sha_init (c : sha_ctx) : sha_ctx := ShaCtx 0 0 (ctx_block c) (sha_h0 A).
Definition sha_update (c : sha_ctx) (message : list Z) : sha_ctx :=
  let B := Z.of_nat block_size in
  let len := zlen message in
  let tmp_len := u32 (B - ctx_len c) in
  let rem_len := if len <? tmp_len then len else tmp_len in
  let block := copy_at (Z.to_nat (ctx_len c)) (take (Z.to_nat rem_len) message) (ctx_block c) in
  if u32 (ctx_len c + len) <? B then ShaCtx (tot_len c) (u32 (ctx_len c + len)) block (ctx_h c)
  else
    let new_len := u32 (len - rem_len) in
    let block_nb := new_len / B in
    let shifted_message := drop (Z.to_nat rem_len) message in
    let h := sha_transf (ctx_h c) block 1 in
    let h := sha_transf h shifted_message (Z.to_nat block_nb) in
    let rem_len := new_len mod B in
    let block := copy_at 0 (take (Z.to_nat rem_len) (drop (Z.to_nat (block_nb * B)) shifted_message)) block in
    ShaCtx (u32 (tot_len c + (block_nb + 1) * B)) rem_len block h.
(** The digest and the context; the length is written to the last four bytes. *)
Definition sha_final (c : sha_ctx) : list Z * sha_ctx :=
  let B := Z.of_nat block_size in
  let tail := 1 + 2 * Z.of_nat (word_bytes A) in
  let block_nb := 1 + (if B - tail <? ctx_len c mod B then 1 else 0) in
  let len_b := u32 (u32 (tot_len c + ctx_len c) << 3) in
  let pm_len := Z.to_nat (block_nb * B) in
  let len := Z.to_nat (ctx_len c) in
  let block := copy_at len (replicate (pm_len - len) 0) (ctx_block c) in
  let block := <[len := 0x80]> block in
  let block := copy_at (pm_len - 4) [u8 (len_b >> 24); u8 (len_b >> 16); u8 (len_b >> 8); u8 len_b] block in
  let h := sha_transf (ctx_h c) block (Z.to_nat block_nb) in
  (mbind UNPACK (take (digest_words A) h), ShaCtx (tot_len c) (ctx_len c) block h).
(** A context that nothing was written to. *)
Definition sha_fresh : sha_ctx := ShaCtx 0 0 (replicate (2 * block_size) 0) (replicate 8 0).
Definition sha (message : list Z) : list Z := fst (sha_final (sha_update (sha_init sha_fresh) message)).

(** ** HMAC *)

Record hmac_ctx := HmacCtx { ctx_inside : sha_ctx; ctx_outside : sha_ctx; ctx_inside_reinit : sha_ctx; ctx_outside_reinit : sha_ctx }.

Definition hmac_init (key : list Z) : hmac_ctx :=
  let key_temp := if (block_size <? length key)%nat then sha key else key in
  let fill := (block_size - length key_temp)%nat in
  let block_ipad := map (λ k, k .^ 0x36) key_temp ++ replicate fill 0x36 in
  let block_opad := map (λ k, k .^ 0x5c) key_temp ++ replicate fill 0x5c in
  let inside := sha_update (sha_init sha_fresh) block_ipad in
  let outside := sha_update (sha_init sha_fresh) block_opad in
  HmacCtx inside outside inside outside.
Definition hmac_reinit (c : hmac_ctx) : hmac_ctx :=
  HmacCtx (ctx_inside_reinit c) (ctx_outside_reinit c) (ctx_inside_reinit c) (ctx_outside_reinit c).
Definition hmac_update (c : hmac_ctx) (message : list Z) : hmac_ctx :=
  HmacCtx (sha_update (ctx_inside c) message) (ctx_outside c) (ctx_inside_reinit c) (ctx_outside_reinit c).
(** [None] when the code that is asked for is longer than the digest. *)
Definition hmac_final (c : hmac_ctx) (mac_size : nat) : option (list Z * hmac_ctx) :=
  let '(digest_inside, inside) := sha_final (ctx_inside c) in
  let outside := sha_update (ctx_outside c) digest_inside in
  let '(mac_temp, outside) := sha_final outside in
  if (digest_size <? mac_size)%nat then None
  else Some (take mac_size mac_temp, HmacCtx inside outside (ctx_inside_reinit c) (ctx_outside_reinit c)).
Definition hmac (key message : list Z) (mac_size : nat) : option (list Z) :=
  fst <$> hmac_final (hmac_update (hmac_init key) message) mac_size.
End sha.

(** The functions by their names. *)
Definition sha256_transf : list Z → list Z → nat → list Z := sha_transf SHA256.
Definition sha512_transf : list Z → list Z → nat → list Z := sha_transf SHA512.
Definition ogs_sha224_init : sha_ctx → sha_ctx := sha_init SHA224.
Definition ogs_sha224_update : sha_ctx → list Z → sha_ctx := sha_update SHA224.
Definition ogs_sha224_final : sha_ctx → list Z * sha_ctx := sha_final SHA224.
Definition ogs_hmac_sha224_init : list Z → hmac_ctx := hmac_init SHA224.
Definition ogs_hmac_sha224_update : hmac_ctx → list Z → hmac_ctx := hmac_update SHA224.
Definition ogs_hmac_sha224_final : hmac_ctx → nat → option (list Z * hmac_ctx) := hmac_final SHA224.
Definition ogs_hmac_sha224_reinit : hmac_ctx → hmac_ctx := hmac_reinit.
Definition ogs_sha256_init : sha_ctx → sha_ctx := sha_init SHA256.
Definition ogs_sha256_update : sha_ctx → list Z → sha_ctx := sha_update SHA256.
Definition ogs_sha256_final : sha_ctx → list Z * sha_ctx := sha_final SHA256.
Definition ogs_hmac_sha256_init : list Z → hmac_ctx := hmac_init SHA256.
Definition ogs_hmac_sha256_update : hmac_ctx → list Z → hmac_ctx := hmac_update SHA256.
Definition ogs_hmac_sha256_final : hmac_ctx → nat → option (list Z * hmac_ctx) := hmac_final SHA256.
Definition ogs_hmac_sha256_reinit : hmac_ctx → hmac_ctx := hmac_reinit.
Definition ogs_sha384_init : sha_ctx → sha_ctx := sha_init SHA384.
Definition ogs_sha384_update : sha_ctx → list Z → sha_ctx := sha_update SHA384.
Definition ogs_sha384_final : sha_ctx → list Z * sha_ctx := sha_final SHA384.
Definition ogs_hmac_sha384_init : list Z → hmac_ctx := hmac_init SHA384.
Definition ogs_hmac_sha384_update : hmac_ctx → list Z → hmac_ctx := hmac_update SHA384.
Definition ogs_hmac_sha384_final : hmac_ctx → nat → option (list Z * hmac_ctx) := hmac_final SHA384.
Definition ogs_hmac_sha384_reinit : hmac_ctx → hmac_ctx := hmac_reinit.
Definition ogs_sha512_init : sha_ctx → sha_ctx := sha_init SHA512.
Definition ogs_sha512_update : sha_ctx → list Z → sha_ctx := sha_update SHA512.
Definition ogs_sha512_final : sha_ctx → list Z * sha_ctx := sha_final SHA512.
Definition ogs_hmac_sha512_init : list Z → hmac_ctx := hmac_init SHA512.
Definition ogs_hmac_sha512_update : hmac_ctx → list Z → hmac_ctx := hmac_update SHA512.
Definition ogs_hmac_sha512_final : hmac_ctx → nat → option (list Z * hmac_ctx) := hmac_final SHA512.
Definition ogs_hmac_sha512_reinit : hmac_ctx → hmac_ctx := hmac_reinit.
Definition ogs_sha224 : list Z → list Z := sha SHA224.
Definition ogs_sha256 : list Z → list Z := sha SHA256.
Definition ogs_sha384 : list Z → list Z := sha SHA384.
Definition ogs_sha512 : list Z → list Z := sha SHA512.
Definition ogs_hmac_sha224 : list Z → list Z → nat → option (list Z) := hmac SHA224.
Definition ogs_hmac_sha256 : list Z → list Z → nat → option (list Z) := hmac SHA256.
Definition ogs_hmac_sha384 : list Z → list Z → nat → option (list Z) := hmac SHA384.
Definition ogs_hmac_sha512 : list Z → list Z → nat → option (list Z) := hmac SHA512.

(** The test of tests/crypt/sha-test.c with the message "abc". *)
Example sha2_abc :
  ogs_sha224 [97; 98; 99] = be_bytes 28 0x23097d223405d8228642a477bda255b32aadbce4bda0b3f7e36c9da7 ∧
  ogs_sha256 [97; 98; 99] = be_bytes 32 0xba7816bf8f01cfea414140de5dae2223b00361a396177a9cb410ff61f20015ad ∧
  take 16 (ogs_sha384 [97; 98; 99]) = be_bytes 16 0xcb00753f45a35e8bb5a03d699ac65007 ∧
  take 16 (ogs_sha512 [97; 98; 99]) = be_bytes 16 0xddaf35a193617abacc417349ae204131.
Proof. by vm_compute. Qed.
