(* ===== verification/Sha2Spec.v ===== *)
(** * SHA-2 and HMAC against FIPS 180-4 and RFC 2104

    The standard defines the hash of a message that is there as a whole:
    padding, blocks, the schedule and the rounds, with constants that are bits
    of the roots of the first primes.  The code hashes what it is given piece by
    piece in a context.  That a context that was given any pieces yields the
    hash of their concatenation is shown with an invariant of the context. *)
From S2P Require Import Prelude XactBase Octets Words Sha2.
#[local] Open Scope Z_scope.
#[local] Open Scope c_scope.

(** ** The standards *)

Module Fips180.
(** The bits of the fractional parts of roots of primes. *)
Definition is_prime (p : Z) : bool := forallb (λ d, negb (p mod d =? 0)) (seqZ 2 (Z.sqrt p - 1)).
Definition primes : list Z := base.filter (λ p, is_prime p = true) (seqZ 2 408).
Definition cube_root (y : Z) : Z :=
  foldr (λ i r, if (r + 2 ^ i) ^ 3 <=? y then r + 2 ^ i else r) 0 (seqZ 0 80).
Definition square_bits (n p : Z) : Z := Z.sqrt (p * 2 ^ (2 * n)) mod 2 ^ n.
Definition cube_bits (n p : Z) : Z := cube_root (p * 2 ^ (3 * n)) mod 2 ^ n.

Inductive variant := SHA_224 | SHA_256 | SHA_384 | SHA_512.

Section hash.
Context (v : variant).
(** The bits of a word, the bytes of a block and the words of a digest. *)
Definition w : Z := match v with SHA_224 | SHA_256 => 32 | _ => 64 end.
Definition block_bytes : Z := 2 * w.
Definition digest_words : nat := match v with SHA_224 => 7 | SHA_384 => 6 | _ => 8 end.
(** Section 5.3: the initial value; that of SHA-224 is the second half of the bits of SHA-384's. *)
Definition H0 : list Z :=
  match v with
  | SHA_224 => map (λ p, square_bits 64 p mod 2 ^ 32) (take 8 (drop 8 primes))
  | SHA_256 => map (square_bits 32) (take 8 primes)
  | SHA_384 => map (square_bits 64) (take 8 (drop 8 primes))
  | SHA_512 => map (square_bits 64) (take 8 primes)
  end.
(** Section 4.2. *)
Definition K : list Z := match v with SHA_224 | SHA_256 => map (cube_bits 32) (take 64 primes) | _ => map (cube_bits 64) primes end.
(** Section 4.1. *)
Definition rotr (n x : Z) : Z := x / 2 ^ n + (x mod 2 ^ n) * 2 ^ (w - n).
Definition Ch (x y z : Z) : Z := (x .& y) .^ (Z.lnot x .& z).
Definition Maj (x y z : Z) : Z := (x .& y) .^ (x .& z) .^ (y .& z).
Definition three (f g h : Z → Z) (x : Z) : Z := f x .^ g x .^ h x.
Definition shr (n x : Z) : Z := x / 2 ^ n.
Definition Sigma0 : Z → Z :=
  if w =? 32 then three (rotr 2) (rotr 13) (rotr 22) else three (rotr 28) (rotr 34) (rotr 39).
Definition Sigma1 : Z → Z :=
  if w =? 32 then three (rotr 6) (rotr 11) (rotr 25) else three (rotr 14) (rotr 18) (rotr 41).
Definition sigma0 : Z → Z :=
  if w =? 32 then three (rotr 7) (rotr 18) (shr 3) else three (rotr 1) (rotr 8) (shr 7).
Definition sigma1 : Z → Z :=
  if w =? 32 then three (rotr 17) (rotr 19) (shr 10) else three (rotr 19) (rotr 61) (shr 6).

(** Section 5.1: a one bit, as few zeros as make whole blocks, the length in bits. *)
Definition pad (m : list Z) : list Z :=
  let len := zlen m in
  let l_bytes := w / 4 in
  m ++ [0x80] ++ replicate (Z.to_nat (- (len + 1 + l_bytes) mod block_bytes)) 0
    ++ be_bytes (Z.to_nat l_bytes) (8 * len).
Definition chunks (n : nat) (count : nat) (l : list Z) : list (list Z) := map (λ i, take n (drop (i * n) l)) (seq 0 count).
(** Section 5.2. *)
Definition blocks (l : list Z) : list (list Z) := chunks (Z.to_nat block_bytes) (Z.to_nat (zlen l / block_bytes)) l.
(** Section 6: the words of the schedule, the last first. *)
Fixpoint schedule (M : list Z) (t : nat) : list Z :=
  match t with
  | O => rev M
  | S t =>
      let W := schedule M t in
      let back i := nth (i - 1) W 0 in
      (sigma1 (back 2%nat) + back 7%nat + sigma0 (back 15%nat) + back 16%nat) mod 2 ^ w :: W
  end.
Definition round (s : list Z) (kw : Z * Z) : list Z :=
  match s with
  | [a; b; c; d; e; f; g; h] =>
      let T1 := h + Sigma1 e + Ch e f g + kw.1 + kw.2 in
      let T2 := Sigma0 a + Maj a b c in
      [(T1 + T2) mod 2 ^ w; a; b; c; (d + T1) mod 2 ^ w; e; f; g]
  | _ => s
  end.
Definition compress (H block : list Z) : list Z :=
  let M := map be_value (chunks (Z.to_nat (w / 8)) 16 block) in
  let W := rev (schedule M (length K - 16)) in
  zip_with (λ x y, (x + y) mod 2 ^ w) H (foldl round H (zip K W)).
Definition hash (m : list Z) : list Z :=
  mbind (be_bytes (Z.to_nat (w / 8))) (take digest_words (foldl compress H0 (blocks (pad m)))).
End hash.

(** RFC 2104. *)
Definition hmac (v : variant) (key text : list Z) : list Z :=
  let B := block_bytes v in
  let key := if B <? zlen key then hash v key else key in
  let key := key ++ replicate (Z.to_nat (B - zlen key)) 0 in
  let xor_with c := map (λ k, k .^ c) key in
  hash v (xor_with 0x5c ++ hash v (xor_with 0x36 ++ text)).
End Fips180.
Import Fips180 (variant, SHA_224, SHA_256, SHA_384, SHA_512).

(** The code of a variant. *)
Definition code_of (v : variant) : sha_alg :=
  match v with SHA_224 => SHA224 | SHA_256 => SHA256 | SHA_384 => SHA384 | SHA_512 => SHA512 end.

Lemma constants v : sha_k (code_of v) = Fips180.K v ∧ sha_h0 (code_of v) = Fips180.H0 v.
Proof. destruct v; vm_compute; done. Qed.

(** ** Words *)

Lemma word_bits v : 8 * Z.of_nat (word_bytes (code_of v)) = Fips180.w v.
Proof. by destruct v. Qed.
Lemma word_bytes_eq v : Z.to_nat (Fips180.w v / 8) = word_bytes (code_of v).
Proof. by destruct v. Qed.
Lemma block_size_eq v : Z.of_nat (block_size (code_of v)) = Fips180.block_bytes v.
Proof. by destruct v. Qed.
Lemma w_cases v : Fips180.w v = 32 ∨ Fips180.w v = 64.
Proof. destruct v; cbn; auto. Qed.

Definition fits (v : variant) (x : Z) : Prop := 0 ≤ x < 2 ^ Fips180.w v.
Lemma wrap_fits v x : fits v (x mod 2 ^ Fips180.w v).
Proof. apply Z.mod_pos_bound. destruct (w_cases v) as [-> | ->]; lia. Qed.

(** Shifts and masks put together the halves of a rotated word. *)
Lemma ROTR_rotr v x n : 0 < n < Fips180.w v → fits v x → ROTR (Fips180.w v) x n = Fips180.rotr v n x.
Proof.
  unfold ROTR, Fips180.rotr, wrap, fits. set (w := Fips180.w v). intros Hn Hx.
  rewrite Z.shiftl_mul_pow2, Z.shiftr_div_pow2 by lia.
  replace (2 ^ w) with (2 ^ n * 2 ^ (w - n)) in * by (rewrite <- Z.pow_add_r by lia; f_equal; lia).
  rewrite Z.mul_mod_distr_r by lia. rewrite Z.lor_comm, lor_disjoint; [lia|lia|].
  split; [apply Z.div_pos; lia|]. apply Z.div_lt_upper_bound; lia.
Qed.
Lemma SHFR_shr x n : 0 ≤ n → SHFR x n = Fips180.shr n x.
Proof. intros. apply Z.shiftr_div_pow2. done. Qed.

Lemma functions v x : fits v x →
  sha_f1 (code_of v) x = Fips180.Sigma0 v x ∧ sha_f2 (code_of v) x = Fips180.Sigma1 v x ∧
  sha_f3 (code_of v) x = Fips180.sigma0 v x ∧ sha_f4 (code_of v) x = Fips180.sigma1 v x.
Proof.
  intros Hx. assert (HR : ∀ n, 0 < n < Fips180.w v → ROTR (Fips180.w v) x n = Fips180.rotr v n x) by auto using ROTR_rotr.
  destruct v; cbv [code_of SHA224 SHA256 SHA384 SHA512 sha_f1 sha_f2 sha_f3 sha_f4 Fips180.w
    Fips180.Sigma0 Fips180.Sigma1 Fips180.sigma0 Fips180.sigma1 Z.eqb Pos.eqb Fips180.three
    SHA256_F1 SHA256_F2 SHA256_F3 SHA256_F4 SHA512_F1 SHA512_F2 SHA512_F3 SHA512_F4] in *;
    repeat split; by rewrite !HR, ?SHFR_shr by lia.
Qed.

Lemma CH_Ch v x y z : fits v z → CH (Fips180.w v) x y z = Fips180.Ch x y z.
Proof.
  intros Hz. unfold CH, Fips180.Ch. f_equal. unfold wrap, fits in *. pose proof (w_cases v).
  rewrite <- Z.land_ones, <- Z.land_assoc, (Z.land_comm _ z), Z.land_ones by lia. by rewrite Z.mod_small.
Qed.

(** Bytes of words. *)
Lemma foldl_lor_be l k n :
  bytes l → length l = n → (k ≤ n)%nat →
  foldl (λ x i, x .| (nth i l 0 << (8 * Z.of_nat (n - 1 - i)))) 0 (seq 0 k)
  = be_value (take k l) * 2 ^ (8 * Z.of_nat (n - k)).
Proof.
  intros Hl Hn. induction k as [|k IH]; intros Hk; [done|].
  rewrite seq_S, foldl_app, IH by lia. cbn [foldl Nat.add].
  assert (Hb : is_byte (nth k l 0)) by (by apply bytes_nth).
  rewrite (take_S_r l k (nth k l 0)), be_value_app.
  2: { destruct (nth_lookup_or_length l k 0) as [E|E]; [done|lia]. }
  replace (8 * Z.of_nat (n - k)) with (8 + 8 * Z.of_nat (n - S k)) by lia.
  replace (n - 1 - k)%nat with (n - S k)%nat by lia. set (m := 8 * Z.of_nat (n - S k)).
  assert (0 < 2 ^ m) by (apply Z.pow_pos_nonneg; lia).
  rewrite Z.shiftl_mul_pow2 by lia.
  rewrite lor_disjoint; [|lia|rewrite Z.pow_add_r by lia; unfold is_byte in *; nia].
  rewrite Z.pow_add_r by lia. ring.
Qed.
Lemma PACK_be v block j :
  bytes block → (S j * word_bytes (code_of v) ≤ length block)%nat →
  PACK (code_of v) block j = be_value (take (word_bytes (code_of v)) (drop (j * word_bytes (code_of v)) block)).
Proof.
  set (n := word_bytes (code_of v)). intros Hb Hlen. unfold PACK. fold n.
  transitivity (foldl (λ x i, x .| (nth i (take n (drop (j * n) block)) 0 << (8 * Z.of_nat (n - 1 - i)))) 0 (seq 0 n)).
  - assert (Heq : ∀ js a, Forall (λ i, i < n)%nat js →
      foldl (λ x i, x .| (nth (j * n + i) block 0 << (8 * Z.of_nat (n - 1 - i)))) a js
      = foldl (λ x i, x .| (nth i (take n (drop (j * n) block)) 0 << (8 * Z.of_nat (n - 1 - i)))) a js).
    { intros js. induction js as [|i js IH]; intros a H; [done|]. apply Forall_cons in H as [Hi H]. cbn [foldl].
      rewrite IH by done. do 3 f_equal. by rewrite !nth_lookup, lookup_take_lt, lookup_drop by lia. }
    apply Heq, Forall_seq. lia.
  - rewrite (foldl_lor_be _ n n), take_take, Nat.min_id, Nat.sub_diag; [apply Z.mul_1_r|..|lia].
    + by apply Forall_take, Forall_drop.
    + rewrite length_take, length_drop. lia.
Qed.
Lemma UNPACK_be v x : UNPACK (code_of v) x = be_bytes (word_bytes (code_of v)) x.
Proof.
  rewrite <- uint64_to_buffer. unfold UNPACK, ogs_uint64_to_buffer. apply list_fmap_ext. intros i j _.
  change 0xff with (2 ^ 8 - 1). by rewrite land_mask.
Qed.

(** ** The schedule and the rounds *)

Definition all_fit (v : variant) (n : nat) (l : list Z) : Prop := length l = n ∧ Forall (fits v) l.

Lemma all_fit_nth v n l i : all_fit v n l → fits v (nth i l 0).
Proof.
  intros [Hn Hl]. rewrite nth_lookup. destruct (l !! i) as [x|] eqn:E; [by eapply Forall_lookup_1|].
  split; [done|]. by destruct v.
Qed.

Lemma schedule_eq v M t :
  all_fit v 16 M →
  Nat.iter t (SCR (code_of v)) M = rev (Fips180.schedule v M t) ∧ all_fit v (t + 16) (Fips180.schedule v M t).
Proof.
  intros [HM HF]. induction t as [|t [IH [Hlen Hfit]]].
  - cbn. rewrite rev_involutive. split; [done|]. split; [by rewrite length_rev|by apply Forall_rev].
  - rewrite Nat.iter_succ, IH. cbn [Fips180.schedule rev]. unfold SCR at 1. rewrite length_rev, Hlen, word_bits.
    set (W := Fips180.schedule v M t) in *. assert (Hn : ∀ i, fits v (nth i W 0)) by (intros; by apply (all_fit_nth v (t + 16))).
    assert (Hat : ∀ k, (0 < k ≤ 16)%nat → nth (t + 16 - k) (rev W) 0 = nth (k - 1) W 0).
    { intros k Hk. rewrite rev_nth by lia. f_equal. lia. }
    rewrite !Hat by lia. destruct (functions v _ (Hn (15 - 1)%nat)) as (_ & _ & -> & _).
    destruct (functions v _ (Hn (2 - 1)%nat)) as (_ & _ & _ & ->). split; [done|].
    split; [cbn [length]; lia|]. constructor; [apply wrap_fits|done].
Qed.

Lemma round_eq v s kw : all_fit v 8 s → sha_round (code_of v) s kw = Fips180.round v s kw ∧ all_fit v 8 (Fips180.round v s kw).
Proof.
  intros [Hlen Hs]. destruct s as [|a [|b [|c [|d [|e [|f [|g [|h [|]]]]]]]]]; try discriminate Hlen.
  rewrite !Forall_cons in Hs. destruct Hs as (Ha & Hb & Hc & Hd & He & Hf & Hg & Hh & _).
  unfold sha_round, Fips180.round, wrap. cbn [nth]. rewrite word_bits.
  destruct (functions v a Ha) as (-> & _). destruct (functions v e He) as (_ & -> & _). rewrite CH_Ch by done.
  rewrite <- Zplus_mod, Zplus_mod_idemp_r. split; [done|].
  split; [done|]. repeat (apply Forall_cons; split; [done || apply wrap_fits|]). constructor.
Qed.

Lemma rounds_eq v kws s : all_fit v 8 s →
  foldl (sha_round (code_of v)) s kws = foldl (Fips180.round v) s kws ∧ all_fit v 8 (foldl (Fips180.round v) s kws).
Proof.
  revert s. induction kws as [|kw kws IH]; intros s Hs; [done|]. cbn [foldl].
  destruct (round_eq v s kw Hs) as [-> H]. by apply IH.
Qed.

Lemma compress_eq v h block :
  all_fit v 8 h → bytes block → length block = block_size (code_of v) →
  sha_block (code_of v) h block = Fips180.compress v h block ∧ all_fit v 8 (Fips180.compress v h block).
Proof.
  intros Hh Hb Hlen. unfold sha_block, Fips180.compress. destruct (constants v) as [-> _].
  assert (HM : map (PACK (code_of v) block) (seq 0 16) = map be_value (Fips180.chunks (Z.to_nat (Fips180.w v / 8)) 16 block)).
  { unfold Fips180.chunks. rewrite map_map, word_bytes_eq. apply map_ext_in. intros j Hj%in_seq.
    apply PACK_be; [done|]. rewrite Hlen. unfold block_size. nia. }
  rewrite HM. set (M := map be_value _) in *.
  assert (HMf : all_fit v 16 M).
  { split; [done|]. apply Forall_forall. intros x Hx. apply list_elem_of_fmap in Hx as (bs & -> & Hbs).
    apply list_elem_of_fmap in Hbs as (i & -> & Hi%elem_of_seq). set (bs := take _ _).
    assert (Hbs : bytes bs) by (by apply Forall_take, Forall_drop).
    pose proof (be_value_range bs Hbs) as [H0 H1]. split; [done|]. eapply Z.lt_le_trans; [done|].
    apply Z.pow_le_mono_r; [lia|]. rewrite <- word_bits. subst bs. rewrite length_take, word_bytes_eq. lia. }
  destruct (schedule_eq v M (length (Fips180.K v) - 16) HMf) as [-> _]. unfold wrap. rewrite word_bits.
  destruct (rounds_eq v (zip (Fips180.K v) (rev (Fips180.schedule v M (length (Fips180.K v) - 16)))) h Hh) as [-> [Hl _]].
  split; [done|]. split; [rewrite length_zip_with, Hl; destruct Hh; lia|].
  apply Forall_lookup_2. intros i x (y & z & -> & _)%lookup_zip_with_Some. apply wrap_fits.
Qed.

(** ** Pieces of a message *)

Section chunks.
Context (B : nat).
Lemma chunks_app k n (a b : list Z) :
  length a = (k * B)%nat → Fips180.chunks B (k + n) (a ++ b) = Fips180.chunks B k a ++ Fips180.chunks B n b.
Proof.
  intros Ha. unfold Fips180.chunks. rewrite seq_app, map_app. f_equal.
  - apply map_ext_in. intros i Hi%in_seq. rewrite drop_app_le, take_app_le; [done|rewrite ?length_drop; nia..].
  - rewrite Nat.add_0_l, <- (Nat.add_0_r k) at 1. rewrite <- fmap_add_seq. change fmap with (@map nat nat).
    rewrite map_map. apply map_ext. intros i. f_equal.
    rewrite drop_app_ge by nia. f_equal. nia.
Qed.
(** Only whole blocks count. *)
Lemma chunks_prefix n (a b : list Z) : (n * B ≤ length a)%nat → Fips180.chunks B n (a ++ b) = Fips180.chunks B n a.
Proof.
  intros Ha. apply map_ext_in. intros i Hi%in_seq. rewrite drop_app_le, take_app_le; [done|rewrite ?length_drop; nia..].
Qed.
Lemma chunks_one (a : list Z) : length a = B → Fips180.chunks B 1 a = [a].
Proof. intros <-. cbn. by rewrite drop_0, firstn_all. Qed.
End chunks.

Lemma copy_at_app a d r : copy_at (length a) d (a ++ r) = a ++ d ++ drop (length d) r.
Proof. unfold copy_at. by rewrite take_app_length, drop_app_ge, Nat.add_comm, Nat.add_sub by lia. Qed.

Section streams.
Context (v : variant).
#[local] Abbreviation A := (code_of v).
#[local] Abbreviation B := (block_size (code_of v)).
#[local] Abbreviation absorb := (foldl (Fips180.compress v)).

Lemma B_pos : (0 < B)%nat.
Proof. destruct v; cbn; lia. Qed.
Lemma H0_fit : all_fit v 8 (Fips180.H0 v).
Proof. destruct (constants v) as [_ <-]. destruct v; (split; [done|]); repeat (constructor; [by cbv|]); constructor. Qed.

Lemma transf_eq h m n :
  all_fit v 8 h → bytes m → (n * B ≤ length m)%nat →
  sha_transf A h m n = absorb h (Fips180.chunks B n m) ∧ all_fit v 8 (absorb h (Fips180.chunks B n m)).
Proof.
  intros Hh Hm. unfold sha_transf, Fips180.chunks. revert Hh. generalize h. induction n as [|n IH]; intros h0 Hh Hn; [done|].
  rewrite !seq_S, map_app, !foldl_app. destruct (IH h0 Hh ltac:(lia)) as [-> H]. cbn [foldl map Nat.add].
  apply compress_eq; [done|by apply Forall_take, Forall_drop|]. rewrite length_take, length_drop. lia.
Qed.

(** The context after the bytes [m]. *)
Record hashed (m : list Z) (c : sha_ctx) : Prop := Hashed {
  hashed_bytes : bytes m;
  hashed_parts : ∃ k a rest spare,
    m = a ++ rest ∧ length a = (k * B)%nat ∧ (length rest < B)%nat ∧
    ctx_block c = rest ++ spare ∧ (length rest + length spare)%nat = (2 * B)%nat ∧ bytes spare ∧
    tot_len c = Z.of_nat (k * B) ∧ ctx_len c = zlen rest ∧
    ctx_h c = absorb (Fips180.H0 v) (Fips180.chunks B k a)
}.

Lemma hashed_init c : length (ctx_block c) = (2 * B)%nat → bytes (ctx_block c) → hashed [] (sha_init A c).
Proof.
  intros Hc Hb. split; [constructor|]. exists 0%nat, [], [], (ctx_block c). pose proof B_pos.
  repeat split; try done. cbn. by destruct (constants v) as [_ ->].
Qed.

(** The two ways through the update, with the lengths as natural numbers. *)
Section update.
Context (c : sha_ctx) (rest spare msg : list Z) (t : nat).
Context (Hblk : ctx_block c = rest ++ spare) (Hlen : ctx_len c = zlen rest) (Htot : tot_len c = Z.of_nat t).
Context (Hr : (length rest < B)%nat) (Hmsg : Z.of_nat t + zlen rest + zlen msg < 2 ^ 31).
#[local] Abbreviation missing := (B - length rest)%nat.
#[local] Abbreviation more := (drop missing msg).
#[local] Abbreviation n := (length more / B)%nat.

Lemma update_part : (length rest + length msg < B)%nat →
  sha_update A c msg = ShaCtx (tot_len c) (zlen (rest ++ msg)) (rest ++ msg ++ drop (length msg) spare) (ctx_h c).
Proof using All.
  intros Hlt. pose proof B_pos. assert (Z.of_nat B ≤ 128) by (destruct v; cbn; lia).
  unfold sha_update. rewrite Hblk, Hlen. unfold zlen in *. rewrite Nat2Z.id, !u32_small by lia.
  rewrite !(proj2 (Z.ltb_lt _ _)) by lia. by rewrite Nat2Z.id, firstn_all, copy_at_app, length_app, Nat2Z.inj_add.
Qed.
Lemma update_full : (B ≤ length rest + length msg)%nat →
  sha_update A c msg =
    let block := rest ++ take missing msg ++ drop missing spare in
    ShaCtx (Z.of_nat (t + (n + 1) * B)) (zlen (drop (n * B) more)) (drop (n * B) more ++ drop (length more - n * B) block)
      (sha_transf A (sha_transf A (ctx_h c) block 1) more n).
Proof using All.
  intros Hge. pose proof B_pos. assert (Z.of_nat B ≤ 128) by (destruct v; cbn; lia).
  assert (Hd : length more = (length msg - missing)%nat) by apply length_drop.
  pose proof (Nat.div_mod_eq (length more) B) as Hdm. pose proof (Nat.mod_upper_bound (length more) B ltac:(lia)) as Hmod.
  assert (Hrest : length (drop (n * B) more) = (length more mod B)%nat) by (rewrite (length_drop more); lia).
  unfold sha_update. rewrite Hblk, Hlen, Htot. unfold zlen in *.
  rewrite (u32_small (Z.of_nat (length rest) + _)), (u32_small (Z.of_nat B - _)), Nat2Z.id by lia.
  rewrite (proj2 (Z.ltb_ge (_ + _) _)) by lia.
  replace (if _ <? _ then _ else _) with (Z.of_nat missing) by (case_match; lia).
  rewrite (u32_small (Z.of_nat (length msg) - _)) by lia. replace (_ - Z.of_nat missing) with (Z.of_nat (length more)) by lia.
  rewrite <- Nat2Z.inj_div, <- Nat2Z.inj_mod, <- Nat2Z.inj_mul, !Nat2Z.id.
  rewrite copy_at_app, length_take, Nat.min_l, u32_small by nia. cbn zeta. f_equal.
  - nia.
  - by rewrite Hrest.
  - rewrite take_ge by lia. unfold copy_at. rewrite take_0, app_nil_l, Nat.add_0_l. do 2 f_equal. lia.
Qed.
End update.

Lemma hashed_update m c msg :
  hashed m c → bytes msg → zlen (m ++ msg) < 2 ^ 31 → hashed (m ++ msg) (sha_update A c msg).
Proof.
  intros [Hm (k & a & rest & spare & -> & Ha & Hr & Hblk & Hsz & Hsp & Htot & Hlen & Hh)] Hmsg Htotal.
  pose proof B_pos as HB. split; [by apply Forall_app|]. apply Forall_app in Hm as [Hba Hbr].
  rewrite !zlen_app in Htotal. assert (Z.of_nat (k * B) + zlen rest + zlen msg < 2 ^ 31) by (unfold zlen in *; lia).
  destruct (decide (length rest + length msg < B)%nat) as [Hlt|Hge].
  - erewrite update_part by done. exists k, a, (rest ++ msg), (drop (length msg) spare). cbn [ctx_block tot_len ctx_len ctx_h].
    rewrite !length_app, length_drop, <- !app_assoc. split_and!; try done; try lia. by apply Forall_drop.
  - erewrite update_full by (done || lia). cbn zeta. set (r := (B - length rest)%nat). set (d := drop r msg).
    set (n := (length d / B)%nat). assert (Hd : length d = (length msg - r)%nat) by apply length_drop.
    pose proof (Nat.div_mod_eq (length d) B) as Hdm. fold n in Hdm. pose proof (Nat.mod_upper_bound (length d) B ltac:(lia)).
    set (blk := rest ++ take r msg). rewrite app_assoc. fold blk.
    assert (Hl : length blk = B) by (subst blk; rewrite length_app, length_take; lia).
    assert (Hb : bytes (blk ++ drop r spare)).
    { repeat apply Forall_app_2; [done|by apply Forall_take|by apply Forall_drop]. }
    assert (Hdb : bytes d) by by apply Forall_drop.
    assert (Hw : length (blk ++ drop r spare) = (2 * B)%nat) by (rewrite length_app, length_drop; lia).
    destruct (transf_eq (ctx_h c) (blk ++ drop r spare) 1) as [E1 F1]; [|done|lia|].
    { rewrite Hh. apply transf_eq; [apply H0_fit|done|lia]. }
    destruct (transf_eq _ d n F1 Hdb ltac:(lia)) as [E2 _]. rewrite E1, E2, Hh. clear E1 E2 F1.
    exists (k + (1 + n))%nat, (a ++ blk ++ take (n * B) d), (drop (n * B) d), (drop (length d - n * B) (blk ++ drop r spare)).
    cbn [ctx_block tot_len ctx_len ctx_h]. assert (length (take (n * B) d) = (n * B)%nat) by (rewrite length_take; lia).
    rewrite !chunks_app, !foldl_app, chunks_prefix, !chunks_one by lia.
    split_and!; try done; rewrite ?length_app, ?length_drop; try lia.
    + rewrite <- !app_assoc. subst blk. rewrite <- app_assoc. do 2 f_equal. rewrite take_drop. symmetry. apply take_drop.
    + by apply Forall_drop.
    + by rewrite <- (take_drop (n * B) d) at 1; rewrite chunks_prefix by lia.
Qed.

(** *** The padding *)

Lemma be_bytes_small n k x : 0 ≤ x < 2 ^ (8 * Z.of_nat k) → be_bytes (n + k) x = replicate n 0 ++ be_bytes k x.
Proof.
  intros Hx. induction n as [|n IH]; [done|]. cbn [Nat.add be_bytes replicate app]. rewrite IH. f_equal.
  rewrite Z.div_small; [done|]. split; [lia|]. eapply Z.lt_le_trans; [apply Hx|]. apply Z.pow_le_mono_r; lia.
Qed.

(** The zeros between the one bit and the length, and the blocks that the tail takes. *)
Definition tail_blocks (r : nat) : nat := if (B <? r + 1 + 2 * word_bytes A)%nat then 2 else 1.
Definition zeros (r : nat) : nat := (tail_blocks r * B - r - 1 - 2 * word_bytes A)%nat.
Definition tail (r : nat) (len : Z) : list Z := [0x80] ++ replicate (zeros r) 0 ++ be_bytes (2 * word_bytes A) (8 * len).

Lemma zeros_fit r : (r < B)%nat → (r + 1 + zeros r + 2 * word_bytes A = tail_blocks r * B)%nat.
Proof.
  assert ((B = 64 ∧ word_bytes A = 4)%nat ∨ (B = 128 ∧ word_bytes A = 8)%nat) by (destruct v; cbn; auto).
  intros Hr. unfold zeros, tail_blocks. destruct (Nat.ltb_spec B (r + 1 + 2 * word_bytes A)); lia.
Qed.
Lemma tail_length r len : (r < B)%nat → (r + length (tail r len) = tail_blocks r * B)%nat.
Proof. intros Hr. unfold tail. rewrite !length_app, length_replicate, be_bytes_length. cbn [length]. pose proof (zeros_fit r Hr). lia. Qed.
Lemma tail_bytes r len : bytes (tail r len).
Proof. repeat apply Forall_app_2; [by repeat constructor|by apply Forall_replicate|apply be_bytes_bytes]. Qed.

Lemma pad_tail a rest k : length a = (k * B)%nat → (length rest < B)%nat →
  Fips180.pad v (a ++ rest) = a ++ rest ++ tail (length rest) (zlen (a ++ rest)).
Proof.
  intros Ha Hr. unfold Fips180.pad, tail. rewrite <- !app_assoc, <- word_bits.
  replace (8 * _ / 4) with (Z.of_nat (2 * word_bytes A)) by (by destruct v). rewrite Nat2Z.id.
  do 3 f_equal. f_equal. f_equal. rewrite <- block_size_eq, zlen_app. unfold zlen. rewrite Ha.
  pose proof (zeros_fit (length rest) Hr) as Hz. pose proof B_pos. apply Nat2Z.inj. rewrite Z2Nat.id by (apply Z.mod_pos_bound; lia).
  symmetry. apply (Z.mod_unique_pos _ _ (- Z.of_nat (k + tail_blocks (length rest)))); [|lia].
  unfold zeros, tail_blocks in *. case_match eqn:E; lia.
Qed.

(** The block that the code hashes last begins with the tail. *)
Lemma final_block a rest spare c :
  ctx_block c = rest ++ spare → (length rest + length spare)%nat = (2 * B)%nat → (length rest < B)%nat →
  tot_len c = zlen a → ctx_len c = zlen rest → 8 * zlen (a ++ rest) < 2 ^ 32 →
  let nb := tail_blocks (length rest) in
  let block := rest ++ tail (length rest) (zlen (a ++ rest)) ++ drop (nb * B - length rest) spare in
  let h := sha_transf A (ctx_h c) block nb in
  sha_final A c = (mbind (UNPACK A) (take (digest_words A) h), ShaCtx (tot_len c) (ctx_len c) block h).
Proof.
  intros Hblk Hsz Hr Htot Hlen Htotal nb. pose proof B_pos. pose proof (zlen_nonneg a). pose proof (zlen_nonneg rest).
  assert (Hs : (B = 64 ∧ word_bytes A = 4)%nat ∨ (B = 128 ∧ word_bytes A = 8)%nat) by (destruct v; cbn; auto).
  unfold sha_final. rewrite Hblk, Hlen, Htot, Z.mod_small by (unfold zlen; lia). rewrite zlen_app in *.
  replace (1 + (if _ <? _ then _ else _)) with (Z.of_nat nb).
  2: { unfold nb, tail_blocks, zlen. destruct (Nat.ltb_spec B (length rest + 1 + 2 * word_bytes A)); case_match; lia. }
  pose proof (zeros_fit (length rest) Hr) as Hz. fold nb in Hz. assert (Hn : Z.to_nat (zlen rest) = length rest) by apply Nat2Z.id.
  rewrite Hn, <- Nat2Z.inj_mul, !Nat2Z.id.
  replace (nb * B - length rest)%nat with (S (zeros (length rest) + (2 * word_bytes A - 4) + 4)) by lia.
  rewrite copy_at_app, length_replicate. cbn [replicate app].
  rewrite insert_app_r_alt, Nat.sub_diag by lia. cbn [insert list_insert].
  rewrite !replicate_add, <- !app_assoc.
  set (z := replicate (zeros _) 0). set (z' := replicate (2 * word_bytes A - 4) 0).
  replace (rest ++ 0x80 :: z ++ z' ++ _) with ((rest ++ 0x80 :: z ++ z') ++ replicate 4 0 ++ drop (S (zeros (length rest) + (2 * word_bytes A - 4) + 4)) spare).
  2: { rewrite <- app_assoc. cbn [app]. by rewrite <- app_assoc. }
  replace (nb * B - 4)%nat with (length (rest ++ 0x80 :: z ++ z')).
  2: { subst z z'. rewrite length_app. cbn [length]. rewrite length_app, !length_replicate. lia. }
  rewrite copy_at_app. set (L := 8 * (zlen a + zlen rest)).
  assert (HL : 0 ≤ L < 2 ^ 32) by lia.
  rewrite (u32_small (zlen a + zlen rest)), Z.shiftl_mul_pow2 by lia. replace (_ * 2 ^ 3) with L by lia. rewrite u32_small by lia.
  assert (Hbe : be_bytes (2 * word_bytes A) L = z' ++ [u8 (L >> 24); u8 (L >> 16); u8 (L >> 8); u8 L]).
  { replace (2 * word_bytes A)%nat with (2 * word_bytes A - 4 + 4)%nat by lia. rewrite be_bytes_small by done. f_equal.
    cbn [be_bytes]. rewrite !Z.shiftr_div_pow2 by lia. by rewrite Z.div_1_r. }
  unfold tail. fold z L. rewrite Hbe. cbn [length drop replicate app].
  repeat (rewrite <- app_assoc; cbn [app]). done.
Qed.

Lemma hashed_final m c : hashed m c → 8 * zlen m < 2 ^ 32 → fst (sha_final A c) = Fips180.hash v m.
Proof.
  intros [Hm (k & a & rest & spare & -> & Ha & Hr & Hblk & Hsz & Hsp & Htot & Hlen & Hh)] Htotal.
  pose proof B_pos as HB. apply Forall_app in Hm as [Hba Hbr].
  set (T := tail (length rest) (zlen (a ++ rest))). pose proof (tail_length _ (zlen (a ++ rest)) Hr) as HT. fold T in HT.
  set (nb := tail_blocks (length rest)) in *.
  rewrite (final_block a rest spare c) by (done || unfold zlen in *; lia). fold T nb. cbn zeta.
  set (spare' := drop _ spare). assert (Hs' : bytes spare') by by apply Forall_drop.
  cbn [fst].
  destruct (transf_eq (ctx_h c) (rest ++ T ++ spare') nb) as [-> _].
  { rewrite Hh. apply transf_eq; [apply H0_fit|done|lia]. }
  { apply Forall_app_2; [done|]. apply Forall_app_2; [apply tail_bytes|done]. }
  { rewrite !length_app. lia. }
  rewrite app_assoc, chunks_prefix by (rewrite length_app; lia).
  unfold Fips180.hash, Fips180.blocks. erewrite pad_tail by done. fold T.
  rewrite Hh, <- foldl_app, <- chunks_app by done.
  rewrite <- block_size_eq, Nat2Z.id, word_bytes_eq. unfold zlen at 1.
  rewrite !length_app, HT, Ha, <- Nat.mul_add_distr_r, <- Nat2Z.inj_div, Nat2Z.id, Nat.div_mul by lia.
  replace (digest_words A) with (Fips180.digest_words v) by (by destruct v).
  apply list_bind_ext; [|done]. intros x. apply UNPACK_be.
Qed.

Lemma hashed_updates m c msgs :
  hashed m c → Forall bytes msgs → zlen (m ++ concat msgs) < 2 ^ 31 →
  hashed (m ++ concat msgs) (foldl (sha_update A) c msgs).
Proof.
  intros Hc Hmsgs. revert m c Hc. induction Hmsgs as [|msg msgs Hmsg _ IH]; intros m c Hc Hlen.
  - by rewrite app_nil_r.
  - cbn [concat foldl] in *. rewrite app_assoc in *. apply IH; [|done]. apply hashed_update; try done.
    rewrite zlen_app in Hlen. pose proof (zlen_nonneg (concat msgs)). lia.
Qed.
Lemma fresh_block : length (ctx_block (sha_fresh A)) = (2 * B)%nat ∧ bytes (ctx_block (sha_fresh A)).
Proof. cbn [sha_fresh ctx_block]. rewrite length_replicate. split; [done|by apply Forall_replicate]. Qed.
Lemma hashed_start m : bytes m → zlen m < 2 ^ 31 → hashed m (sha_update A (sha_init A (sha_fresh A)) m).
Proof. intros. apply (hashed_update [] _ m); try done. apply hashed_init; apply fresh_block. Qed.
Lemma sha_hash m : bytes m → 8 * zlen m < 2 ^ 32 → sha A m = Fips180.hash v m.
Proof. intros. apply hashed_final; [|done]. apply hashed_start; [done|lia]. Qed.

Lemma compress_length h block : length h = 8%nat → length (Fips180.compress v h block) = 8%nat.
Proof.
  intros Hh. unfold Fips180.compress. rewrite length_zip_with. assert (Hr : ∀ kws s, length (foldl (Fips180.round v) s kws) = length s).
  { induction kws as [|kw kws IH]; intros s; [done|]. cbn [foldl]. rewrite IH. unfold Fips180.round. by repeat case_match. }
  rewrite Hr. lia.
Qed.
Lemma hash_size m : length (Fips180.hash v m) = digest_size A ∧ bytes (Fips180.hash v m).
Proof.
  assert (H8 : ∀ bs h, length h = 8%nat → length (absorb h bs) = 8%nat).
  { induction bs as [|b bs IH]; intros h Hh; [done|]. apply IH. by apply compress_length. }
  unfold Fips180.hash. rewrite word_bytes_eq. split.
  - set (h := absorb _ _). assert (Hh : length h = 8%nat) by (apply H8; apply H0_fit).
    assert (Hd : length (take (Fips180.digest_words v) h) = digest_words A) by (rewrite length_take, Hh; by destruct v).
    unfold digest_size. rewrite <- Hd. generalize (take (Fips180.digest_words v) h). intros ws.
    induction ws as [|x ws IH]; [done|]. cbn [mbind list_bind]. rewrite length_app, be_bytes_length, IH. cbn [length]. lia.
  - generalize (take (Fips180.digest_words v) (absorb (Fips180.H0 v) (Fips180.blocks v (Fips180.pad v m)))). intros ws.
    induction ws as [|x ws IH]; [constructor|]. cbn [mbind list_bind]. apply Forall_app_2; [apply be_bytes_bytes|done].
Qed.
End streams.

(** ** HMAC *)

Section hmac.
Context (v : variant) (key : list Z) (Hkey : bytes key) (Hlen : 8 * zlen key < 2 ^ 32).
#[local] Abbreviation A := (code_of v).

Definition padded_key : list Z :=
  let k := if Fips180.block_bytes v <? zlen key then Fips180.hash v key else key in
  k ++ replicate (Z.to_nat (Fips180.block_bytes v - zlen k)) 0.
Definition keyed (c : Z) : list Z := map (λ k, k .^ c) padded_key.

Lemma keyed_length c : zlen (keyed c) = Fips180.block_bytes v.
Proof using All.
  unfold keyed, padded_key. cbn zeta. set (k := if _ <? _ then _ else _).
  assert (zlen k ≤ Fips180.block_bytes v).
  { subst k. destruct (Z.ltb_spec (Fips180.block_bytes v) (zlen key)); [|done].
    unfold zlen. rewrite (proj1 (hash_size v key)). by destruct v. }
  unfold zlen in *. rewrite length_map, length_app, length_replicate. lia.
Qed.
Lemma keyed_bytes c : is_byte c → bytes (keyed c).
Proof using All.
  intros Hc. unfold keyed, padded_key. apply Forall_map, Forall_app_2.
  - case_match; [eapply Forall_impl; [apply hash_size|]|eapply Forall_impl; [apply Hkey|]]; intros; by apply lxor_byte.
  - apply Forall_replicate. by apply lxor_byte.
Qed.
Lemma keyed_hashed c m : is_byte c → bytes m → 8 * (Fips180.block_bytes v + zlen m) < 2 ^ 32 → 8 * zlen (keyed c ++ m) < 2 ^ 32.
Proof using All. intros. by rewrite zlen_app, keyed_length. Qed.

(** A context of HMAC after [text] and a context that is ready to start again. *)
Definition hmac_ready (c : hmac_ctx) : Prop :=
  hashed v (keyed 0x36) (ctx_inside_reinit c) ∧ hashed v (keyed 0x5c) (ctx_outside_reinit c).
Definition hmac_after (text : list Z) (c : hmac_ctx) : Prop :=
  hmac_ready c ∧ hashed v (keyed 0x36 ++ text) (ctx_inside c) ∧ hashed v (keyed 0x5c) (ctx_outside c).

Lemma hmac_init_after : hmac_after [] (hmac_init A key).
Proof using All.
  unfold hmac_init. set (kt := if (_ <? _)%nat then _ else _).
  assert (Hkt : kt = if Fips180.block_bytes v <? zlen key then Fips180.hash v key else key).
  { subst kt. rewrite <- block_size_eq, <- (sha_hash v key) by done. unfold zlen.
    destruct (Nat.ltb_spec (block_size A) (length key)); case_match; lia || done. }
  assert (Hk : ∀ c, is_byte c → hashed v (keyed c)
    (sha_update A (sha_init A (sha_fresh A)) (map (λ k, k .^ c) kt ++ replicate (block_size A - length kt) c))).
  { intros c Hc. replace (_ ++ replicate _ c) with (keyed c).
    - apply hashed_start; [by apply keyed_bytes|]. rewrite keyed_length. by destruct v.
    - unfold keyed, padded_key. rewrite <- Hkt, map_app. f_equal.
      change (map ?f ?l) with (f <$> l). rewrite fmap_replicate, Z.lxor_0_l. f_equal. rewrite <- block_size_eq. unfold zlen. lia. }
  unfold hmac_after, hmac_ready. rewrite app_nil_r. by repeat split; apply Hk.
Qed.
Lemma hmac_reinit_after c : hmac_ready c → hmac_after [] (hmac_reinit c).
Proof using All. intros [? ?]. unfold hmac_after, hmac_ready. by rewrite app_nil_r. Qed.
Lemma hmac_updates text c msgs :
  hmac_after text c → Forall bytes msgs → zlen (keyed 0x36 ++ text ++ concat msgs) < 2 ^ 31 →
  hmac_after (text ++ concat msgs) (foldl (hmac_update A) c msgs).
Proof using All.
  intros Hc Hmsgs. revert text c Hc. induction Hmsgs as [|msg msgs Hmsg _ IH]; intros text c (Hr & Hi & Ho) Hl.
  - by rewrite app_nil_r.
  - cbn [concat foldl] in *. rewrite (app_assoc text) in *. apply IH; [|done]. split; [done|]. split; [|done].
    rewrite app_assoc. apply hashed_update; try done. rewrite !zlen_app in *. pose proof (zlen_nonneg (concat msgs)). lia.
Qed.
Lemma hmac_final_after text c n :
  hmac_after text c → 8 * (Fips180.block_bytes v + zlen text) < 2 ^ 32 → (n ≤ digest_size A)%nat →
  ∃ c', hmac_final A c n = Some (take n (Fips180.hmac v key text), c') ∧ hmac_ready c'.
Proof using All.
  intros (Hr & Hi & Ho) Hl Hn. unfold hmac_final.
  pose proof (hashed_final v _ _ Hi) as Ei. rewrite zlen_app, keyed_length in Ei. specialize (Ei Hl).
  destruct (sha_final A (ctx_inside c)) as [d inside]. cbn [fst] in Ei. subst d.
  destruct (hash_size v (keyed 0x36 ++ text)) as [Hds Hdb]. set (d := Fips180.hash v (keyed 0x36 ++ text)) in *.
  assert (Hd : 8 * (Fips180.block_bytes v + zlen d) < 2 ^ 32) by (unfold zlen; rewrite Hds; by destruct v).
  assert (Hl' : 8 * zlen (keyed 0x5c ++ d) < 2 ^ 32) by (by rewrite zlen_app, keyed_length).
  pose proof (hashed_final v _ _ (hashed_update v _ _ d Ho Hdb ltac:(lia)) Hl') as Eo.
  destruct (sha_final A (sha_update A (ctx_outside c) d)) as [mac outside]. cbn [fst] in Eo. subst mac.
  rewrite (proj2 (Nat.ltb_ge _ _)) by done. eexists. split; [reflexivity|]. done.
Qed.
End hmac.

(** ** The properties *)

(** C17: a context of SHA-224, SHA-256, SHA-384 or SHA-512, whatever its block
    held before it was initialised, that is given the pieces of a message of
    less than 2^29 bytes one after the other, cut in any way (empty pieces
    included), yields the digest that FIPS 180-4 defines for the message: its
    padding, the schedule and rounds on its blocks, and the constants that are
    the bits of the square and cube roots of the first primes. *)
Theorem ogs_sha2_is_fips180 v c msgs :
  length (ctx_block c) = (2 * block_size (code_of v))%nat → bytes (ctx_block c) →
  Forall bytes msgs → 8 * zlen (concat msgs) < 2 ^ 32 →
  fst (sha_final (code_of v) (foldl (sha_update (code_of v)) (sha_init (code_of v) c) msgs)) = Fips180.hash v (concat msgs).
Proof.
  intros Hc Hb Hmsgs Hlen. apply hashed_final; [|done].
  apply (hashed_updates v []); [by apply hashed_init|done|cbn [app]; lia].
Qed.
Example ogs_sha2_is_fips180_witness :
  fst (sha_final SHA256 (foldl (sha_update SHA256) (sha_init SHA256 (sha_fresh SHA256)) [[97]; []; [98; 99]]))
  = Fips180.hash SHA_256 [97; 98; 99].
Proof.
  apply (ogs_sha2_is_fips180 SHA_256 _ [[97]; []; [98; 99]]); [done|by apply (fresh_block SHA_256)|by repeat constructor|done].
Defined.

(** The code of HMAC over each of the four functions is RFC 2104's for
    every key and every way to cut the text into pieces, and after it a context
    that is initialised again computes the code of the next text under the same
    key. *)
Theorem ogs_hmac_is_rfc2104 v key msgs msgs' n n' :
  bytes key → 8 * zlen key < 2 ^ 32 → Forall bytes msgs → Forall bytes msgs' →
  8 * (Fips180.block_bytes v + zlen (concat msgs)) < 2 ^ 32 → 8 * (Fips180.block_bytes v + zlen (concat msgs')) < 2 ^ 32 →
  (n ≤ digest_size (code_of v))%nat → (n' ≤ digest_size (code_of v))%nat →
  ∃ c c',
    hmac_final (code_of v) (foldl (hmac_update (code_of v)) (hmac_init (code_of v) key) msgs) n
    = Some (take n (Fips180.hmac v key (concat msgs)), c) ∧
    hmac_final (code_of v) (foldl (hmac_update (code_of v)) (hmac_reinit c) msgs') n'
    = Some (take n' (Fips180.hmac v key (concat msgs')), c').
Proof.
  intros Hk Hkl Hm Hm' Hl Hl' Hn Hn'.
  assert (Hup : ∀ c ms, hmac_after v key [] c → Forall bytes ms → 8 * (Fips180.block_bytes v + zlen (concat ms)) < 2 ^ 32 →
    hmac_after v key (concat ms) (foldl (hmac_update (code_of v)) c ms)).
  { intros c ms Hc Hms Hlm. apply (hmac_updates v key Hk Hkl []); [done..|].
    cbn [app]. rewrite zlen_app, keyed_length by done. lia. }
  destruct (hmac_final_after v key Hk Hkl _ _ n (Hup _ _ (hmac_init_after v key Hk Hkl) Hm Hl) Hl Hn) as (c & E & Hc).
  destruct (hmac_final_after v key Hk Hkl _ _ n' (Hup _ _ (hmac_reinit_after v key Hk Hkl c Hc) Hm' Hl') Hl' Hn') as (c' & E' & _).
  by exists c, c'.
Qed.
Example ogs_hmac_is_rfc2104_witness :
  ∃ c c',
    hmac_final SHA256 (foldl (hmac_update SHA256) (hmac_init SHA256 [1; 2]) [[97]; [98]]) 8
    = Some (take 8 (Fips180.hmac SHA_256 [1; 2] [97; 98]), c) ∧
    hmac_final SHA256 (foldl (hmac_update SHA256) (hmac_reinit c) [[5]]) 32
    = Some (take 32 (Fips180.hmac SHA_256 [1; 2] [5]), c').
Proof.
  apply (ogs_hmac_is_rfc2104 SHA_256 [1; 2] [[97]; [98]] [[5]] 8 32); try done; try (by repeat constructor); cbn; lia.
Defined.
