(* ===== verification/Base64.v ===== *)
(** * Base64 and keys in PEM files (lib/crypt/ogs-base64.c)

    Strings are lists of the bytes before the terminating zero.  A buffer that
    is written is the list of the bytes that are written to its start, and
    [None] is [OGS_ERROR]. *)
From stdpp Require Import strings.
From S2P Require Import Prelude Octets XactBase Words.
#[local] Open Scope Z_scope.
#[local] Open Scope c_scope.

Definition pr2six : list Z := [
  64; 64; 64; 64; 64; 64; 64; 64; 64; 64; 64; 64; 64; 64; 64; 64; 64; 64; 64; 64; 64; 64; 64; 64;
  64; 64; 64; 64; 64; 64; 64; 64; 64; 64; 64; 64; 64; 64; 64; 64; 64; 64; 64; 62; 64; 64; 64; 63;
  52; 53; 54; 55; 56; 57; 58; 59; 60; 61; 64; 64; 64; 64; 64; 64; 64; 0; 1; 2; 3; 4; 5; 6;
  7; 8; 9; 10; 11; 12; 13; 14; 15; 16; 17; 18; 19; 20; 21; 22; 23; 24; 25; 64; 64; 64; 64; 64;
  64; 26; 27; 28; 29; 30; 31; 32; 33; 34; 35; 36; 37; 38; 39; 40; 41; 42; 43; 44; 45; 46; 47; 48;
  49; 50; 51; 64; 64; 64; 64; 64; 64; 64; 64; 64; 64; 64; 64; 64; 64; 64; 64; 64; 64; 64; 64; 64;
  64; 64; 64; 64; 64; 64; 64; 64; 64; 64; 64; 64; 64; 64; 64; 64; 64; 64; 64; 64; 64; 64; 64; 64;
  64; 64; 64; 64; 64; 64; 64; 64; 64; 64; 64; 64; 64; 64; 64; 64; 64; 64; 64; 64; 64; 64; 64; 64;
  64; 64; 64; 64; 64; 64; 64; 64; 64; 64; 64; 64; 64; 64; 64; 64; 64; 64; 64; 64; 64; 64; 64; 64;
  64; 64; 64; 64; 64; 64; 64; 64; 64; 64; 64; 64; 64; 64; 64; 64; 64; 64; 64; 64; 64; 64; 64; 64;
  64; 64; 64; 64; 64; 64; 64; 64; 64; 64; 64; 64; 64; 64; 64; 64].

(** The characters of a literal. *)
Definition chars (s : String.string) : list Z := map (λ a, Z.of_N (Ascii.N_of_ascii a)) (String.list_ascii_of_string s).
(** The string that begins at a buffer. *)
Definition c_string (buf : list Z) : list Z :=
  match list_find (λ c, c = 0) buf with Some (n, _) => take n buf | None => buf end.

(** ** Decoding *)

(** The loop over the characters: those that carry bits and those that pad. *)
Fixpoint scan_loop (p : list Z) (nprbytes padding : Z) : option (Z * Z) :=
  match p with
  | [] => Some (nprbytes, padding)
  | c :: p =>
      if tbl pr2six c <=? 63 then
        if padding =? 0 then scan_loop p (nprbytes + 1) padding else None
      else if c =? 61 then
        let padding := padding + 1 in
        if 2 <? padding then None else scan_loop p nprbytes padding
      else None
  end.
(** The characters that carry bits and the bytes that they make. *)
Definition ogs_base64_scan (text : list Z) : option (Z * Z) :=
  '(nprbytes, padding) ← scan_loop text 0 0;
  if nprbytes =? 0 then None
  else if nprbytes mod 4 =? 1 then None
  else if negb (padding =? 0) && negb ((nprbytes + padding) mod 4 =? 0) then None
  else
    let decoded_size := (nprbytes + 3) / 4 * 3 - ((4 - nprbytes) .& 3) in
    if decoded_size =? 0 then None else Some (nprbytes, decoded_size).
(** The conversion of a [size_t] to an [int]. *)
Definition to_int (x : Z) : Z := (x + 2 ^ 31) mod 2 ^ 32 - 2 ^ 31.
Definition ogs_base64_decoded_size (text : list Z) : option Z := (λ r, to_int (snd r)) <$> ogs_base64_scan text.

(** The three bytes of four characters. *)
Definition byte_0 (c : Z → Z) : Z := u8 ((c 0 << 2) .| (c 1 >> 4)).
Definition byte_1 (c : Z → Z) : Z := u8 ((c 1 << 4) .| (c 2 >> 2)).
Definition byte_2 (c : Z → Z) : Z := u8 ((c 2 << 6) .| c 3).
(** What is written for [nprbytes] characters of [bufin]; there are as many
    passes as groups of four but for the last. *)
Fixpoint decode_loop (passes : nat) (bufin : list Z) (nprbytes : Z) : list Z :=
  let c i := tbl pr2six (nth (Z.to_nat i) bufin 0) in
  match passes with
  | S passes =>
      if 4 <? nprbytes then byte_0 c :: byte_1 c :: byte_2 c :: decode_loop passes (drop 4 bufin) (nprbytes - 4)
      else
        opt (1 <? nprbytes) [byte_0 c] ++ opt (2 <? nprbytes) [byte_1 c] ++ opt (3 <? nprbytes) [byte_2 c]
  | O => []
  end.
(** The bytes that are written; their number is returned. *)
Definition ogs_base64_decode_to_buffer (out_size : Z) (text : list Z) : option (list Z * Z) :=
  if out_size =? 0 then None
  else
    '(nprbytes, decoded_size) ← ogs_base64_scan text;
    if out_size <? decoded_size then None
    else Some (decode_loop (S (length text)) text nprbytes, to_int decoded_size).
Definition ogs_base64_decode_to_string (out_size : Z) (text : list Z) : option (list Z * Z) :=
  if out_size <=? 1 then None
  else
    '(out, len) ← ogs_base64_decode_to_buffer (out_size - 1) text;
    if len <=? 0 then None else Some (<[Z.to_nat len := 0]> (out ++ [0]), len).

(** ** Encoding *)

Definition basis_64 : list Z := Eval compute in chars "ABCDEFGHIJKLMNOPQRSTUVWXYZabcdefghijklmnopqrstuvwxyz0123456789+/"%string.
Definition ogs_base64_encoded_size (in_size : Z) : option Z :=
  if (2 ^ 64 - 1 - 1) / 4 * 3 <? in_size then None else Some (to_int ((in_size + 2) / 3 * 4 + 1)).

Definition sextet (i : Z) : Z := tbl basis_64 i.
Fixpoint encode_loop (bs : list Z) : list Z :=
  match bs with
  | a :: b :: c :: bs =>
      sextet ((a >> 2) .& 0x3F) :: sextet (((a .& 0x3) << 4) .| ((b .& 0xF0) >> 4)) ::
      sextet (((b .& 0xF) << 2) .| ((c .& 0xC0) >> 6)) :: sextet (c .& 0x3F) :: encode_loop bs
  | [a] => [sextet ((a >> 2) .& 0x3F); sextet ((a .& 0x3) << 4); 61; 61]
  | [a; b] =>
      [sextet ((a >> 2) .& 0x3F); sextet (((a .& 0x3) << 4) .| ((b .& 0xF0) >> 4)); sextet ((b .& 0xF) << 2); 61]
  | [] => []
  end.
(** The bytes that are written, with the zero, and their number. *)
Definition ogs_base64_encode_from_buffer (out_size : Z) (bs : list Z) : option (list Z * Z) :=
  if out_size =? 0 then None
  else
    needed ← ogs_base64_encoded_size (zlen bs);
    if (needed <=? 0) || (out_size <? needed) then None
    else let out := encode_loop bs ++ [0] in Some (out, to_int (zlen out)).
Definition ogs_base64_encode_from_string (out_size : Z) (text : list Z) : option (list Z * Z) :=
  ogs_base64_encode_from_buffer out_size text.

(** ** Keys in PEM files *)

(** [memmem]: where [needle] first is in [hay]. *)
Fixpoint memmem (hay needle : list Z) : option nat :=
  if bool_decide (take (length needle) hay = needle) then Some 0%nat
  else match hay with [] => None | _ :: hay => S <$> memmem hay needle end.

Definition is_space (c : Z) : bool := (c =? 10) || (c =? 13) || (c =? 32) || (c =? 9).
(** What the loop copies. *)
Fixpoint copy_loop (data : list Z) : list Z :=
  match data with
  | [] => []
  | c :: data => if is_space c then copy_loop data else if c =? 45 then [] else c :: copy_loop data
  end.
Definition cpydata (data : list Z) : option (list Z) :=
  match copy_loop data with [] => None | result => Some result end.

Definition pem_top : list Z := Eval compute in chars "-----BEGIN "%string.
Definition pem_bottom : list Z := Eval compute in chars "-----END "%string.
Definition ENDSTR : list Z := Eval compute in chars "-----"%string.
(** [ogs_slprintf] writes at most 127 characters. *)
Definition pem_header (header : list Z) : list Z := take 127 (pem_top ++ header).

Definition ogs_fbase64_decode (header data : list Z) : option (list Z) :=
  i ← memmem data (pem_header header);
  let rdata := drop i data in
  if (length rdata <? 4 + length pem_bottom)%nat then None
  else
    j ← memmem (drop 1 rdata) ENDSTR;
    let rdata := drop (1 + j + length ENDSTR) rdata in
    k ← memmem rdata pem_bottom;
    if (k <? 4)%nat then None
    else
      bufcoded ← cpydata (take k rdata);
      let bufcoded := c_string bufcoded in
      decoded_size ← ogs_base64_decoded_size bufcoded;
      if decoded_size <=? 0 then None
      else
        '(data, size) ← ogs_base64_decode_to_buffer decoded_size bufcoded;
        if size <=? 0 then None else Some data.

(** The keys of 32 octets; [file] is what [ogs_file_read_full] read. *)
Definition ogs_pem_decode_key (name header : list Z) (size : nat) (file : option (list Z)) : option (list Z) :=
  buf ← file;
  data ← ogs_fbase64_decode name buf;
  if negb (length data =? size)%nat then None
  else if negb (bool_decide (take (length header) data = header)) then None
  else Some (take 32 (drop (length header) data)).
Definition ogs_pem_decode_curve25519_key : option (list Z) → option (list Z) :=
  ogs_pem_decode_key (chars "PRIVATE KEY"%string)
    [0x30; 0x2e; 0x02; 0x01; 0x00; 0x30; 0x05; 0x06; 0x03; 0x2b; 0x65; 0x6e; 0x04; 0x22; 0x04; 0x20] 48.
Definition ogs_pem_decode_secp256r1_key : option (list Z) → option (list Z) :=
  ogs_pem_decode_key (chars "EC PRIVATE KEY"%string) [0x30; 0x77; 0x02; 0x01; 0x01; 0x04; 0x20] 121.

Example base64_hello :
  (λ r, fst r) <$> ogs_base64_encode_from_buffer 100 (chars "hello"%string) = Some (chars "aGVsbG8="%string ++ [0]) ∧
  fst <$> ogs_base64_decode_to_buffer 100 (chars "aGVsbG8="%string) = Some (chars "hello"%string) ∧
  ogs_base64_decode_to_buffer 100 (chars "aGVsbG8=="%string) = None.
Proof. by vm_compute. Qed.
