(* ===== verification/Base64Spec.v ===== *)
(** * Base64: what is accepted, and that encoding and decoding are inverse *)
From S2P Require Import Prelude Octets XactBase Words Base64.
#[local] Open Scope Z_scope.
#[local] Open Scope c_scope.
#[local] Ltac Zify.zify_post_hook ::= Z.to_euclidean_division_equations.

Lemma to_int_small x : 0 ≤ x < 2 ^ 31 → to_int x = x.
Proof. intros. unfold to_int. lia. Qed.

(** ** Sextets *)

Definition is_sextet (i : Z) : Prop := 0 ≤ i < 64.
(** A character that carries bits. *)
Definition carries (c : Z) : Prop := tbl pr2six c ≤ 63.

Lemma sextet_spec i : is_sextet i → tbl pr2six (sextet i) = i ∧ sextet i ≠ 61 ∧ sextet i ≠ 0 ∧ sextet i ≠ 45 ∧ is_space (sextet i) = false.
Proof.
  intros Hi. assert (H : forallb (λ i, (tbl pr2six (sextet i) =? i) && negb (sextet i =? 61) && negb (sextet i =? 0)
    && negb (sextet i =? 45) && negb (is_space (sextet i))) (seqZ 0 64) = true) by by vm_compute.
  rewrite forallb_forall in H. specialize (H i). rewrite <- list_elem_of_In, elem_of_seqZ in H.
  unfold is_sextet in Hi. specialize (H ltac:(lia)). rewrite !andb_true_iff, !negb_true_iff in H.
  by destruct H as [[[[?%Z.eqb_eq ?%Z.eqb_neq] ?%Z.eqb_neq] ?%Z.eqb_neq] ?].
Qed.
Lemma pad_does_not_carry : tbl pr2six 61 = 64.
Proof. done. Qed.

(** The sextets of three bytes. *)
Definition sextets (a b c : Z) : list Z := [a / 4; a mod 4 * 16 + b / 16; b mod 16 * 4 + c / 64; c mod 64].

Lemma six_0 a : is_byte a → (a >> 2) .& 0x3F = a / 4.
Proof. intros. change 0x3F with (2 ^ 6 - 1). rewrite land_mask, Z.shiftr_div_pow2 by lia. unfold is_byte in *. lia. Qed.
Lemma six_1 a b : is_byte b → ((a .& 0x3) << 4) .| ((b .& 0xF0) >> 4) = a mod 4 * 16 + b / 16.
Proof.
  intros Hb. assert (E : (b .& 0xF0) >> 4 = b / 16) by by_bytes b Hb. rewrite E. clear E.
  change 0x3 with (2 ^ 2 - 1). rewrite land_mask, Z.shiftl_mul_pow2, lor_disjoint by (unfold is_byte in *; lia). lia.
Qed.
Lemma six_1_last a : (a .& 0x3) << 4 = a mod 4 * 16 + 0 / 16.
Proof. change 0x3 with (2 ^ 2 - 1). rewrite land_mask, Z.shiftl_mul_pow2 by lia. lia. Qed.
Lemma six_2 b c : is_byte c → ((b .& 0xF) << 2) .| ((c .& 0xC0) >> 6) = b mod 16 * 4 + c / 64.
Proof.
  intros Hc. assert (E : (c .& 0xC0) >> 6 = c / 64) by by_bytes c Hc. rewrite E. clear E.
  change 0xF with (2 ^ 4 - 1). rewrite land_mask, Z.shiftl_mul_pow2, lor_disjoint by (unfold is_byte in *; lia). lia.
Qed.
Lemma six_2_last b : (b .& 0xF) << 2 = b mod 16 * 4 + 0 / 64.
Proof. change 0xF with (2 ^ 4 - 1). rewrite land_mask, Z.shiftl_mul_pow2 by lia. lia. Qed.
Lemma six_3 c : c .& 0x3F = c mod 64.
Proof. change 0x3F with (2 ^ 6 - 1). by rewrite land_mask. Qed.

Section group.
Context (a b c : Z) (Ha : is_byte a) (Hb : is_byte b) (Hc : is_byte c).
Lemma sextets_fit : Forall is_sextet (sextets a b c).
Proof using All. unfold sextets, is_sextet, is_byte in *. repeat constructor; lia. Qed.

(** Decoding is the inverse on the values of the characters. *)
Lemma bytes_of_sextets (v : Z → Z) :
  (v 0 = a / 4 → v 1 = a mod 4 * 16 + b / 16 → byte_0 v = a) ∧
  (v 1 = a mod 4 * 16 + b / 16 → v 2 = b mod 16 * 4 + c / 64 → byte_1 v = b) ∧
  (v 2 = b mod 16 * 4 + c / 64 → v 3 = c mod 64 → byte_2 v = c).
Proof using All.
  unfold byte_0, byte_1, byte_2, u8, is_byte in *.
  split_and!; intros E0 E1; rewrite E0, E1, ?Z.shiftr_div_pow2, Z.shiftl_mul_pow2, lor_disjoint by lia; lia.
Qed.
End group.

(** ** Encoding as RFC 4648 defines it *)

Fixpoint sextets_of (bs : list Z) : list Z :=
  match bs with
  | a :: b :: c :: bs => sextets a b c ++ sextets_of bs
  | [a; b] => take 3 (sextets a b 0)
  | [a] => take 2 (sextets a 0 0)
  | [] => []
  end.
Definition pads (bs : list Z) : nat := Z.to_nat (- zlen bs mod 3).
Definition base64 (bs : list Z) : list Z := map sextet (sextets_of bs) ++ replicate (pads bs) 61.

Lemma triples_ind (P : list Z → Prop) :
  P [] → (∀ a, P [a]) → (∀ a b, P [a; b]) → (∀ a b c bs, P bs → P (a :: b :: c :: bs)) → ∀ bs, P bs.
Proof. intros H0 H1 H2 H3. fix IH 1. intros [|a [|b [|c bs]]]; [apply H0|apply H1|apply H2|apply H3, IH]. Qed.

Lemma pads_cons a b c bs : pads (a :: b :: c :: bs) = pads bs.
Proof. unfold pads. rewrite !zlen_cons. f_equal. lia. Qed.
Lemma sextets_of_fit bs : bytes bs → Forall is_sextet (sextets_of bs).
Proof.
  induction bs as [|a|a b|a b c bs IH] using triples_ind; intros Hbs; [constructor|..]; unfold bytes in Hbs; rewrite ?Forall_cons in Hbs.
  - apply (Forall_take _ 2), sextets_fit; done || apply Hbs.
  - apply (Forall_take _ 3), sextets_fit; done || apply Hbs.
  - apply Forall_app_2; [apply sextets_fit|apply IH]; apply Hbs.
Qed.
Lemma sextets_of_length bs : zlen (sextets_of bs) = (4 * zlen bs + 2) / 3.
Proof.
  induction bs as [|a|a b|a b c bs IH] using triples_ind; [done..|].
  cbn [sextets_of]. rewrite zlen_app, IH, !zlen_cons. change (zlen (sextets a b c)) with 4. lia.
Qed.
Lemma encode_loop_base64 bs : bytes bs → encode_loop bs = base64 bs.
Proof.
  unfold base64. induction bs as [|a|a b|a b c bs IH] using triples_ind; intros Hbs; unfold bytes in Hbs; rewrite ?Forall_cons in Hbs; [done|..].
  - cbn [encode_loop sextets_of map sextets take app]. by rewrite six_0, six_1_last by apply Hbs.
  - cbn [encode_loop sextets_of map sextets take app]. by rewrite six_0, six_1, six_2_last by apply Hbs.
  - destruct Hbs as (Ha & Hb & Hc & Hbs). rewrite pads_cons. cbn [encode_loop sextets_of map sextets app].
    by rewrite six_0, six_1, six_2, six_3, IH by done.
Qed.

(** The values of the characters of a group. *)
Lemma group_values a b c k rest i :
  is_byte a → is_byte b → is_byte c → (i < k)%nat → (k ≤ 4)%nat →
  tbl pr2six (nth (Z.to_nat (Z.of_nat i)) (map sextet (take k (sextets a b c)) ++ rest) 0) = nth i (sextets a b c) 0.
Proof.
  intros Ha Hb Hc Hi Hk. pose proof (sextets_fit a b c Ha Hb Hc) as Hs. rewrite Nat2Z.id.
  assert (Hl : length (sextets a b c) = 4%nat) by done. set (l := sextets a b c) in *. clearbody l.
  rewrite app_nth1 by (rewrite length_map, length_take; lia).
  destruct (nth_lookup_or_length l i 0) as [E|]; [|lia].
  assert (E' : map sextet (take k l) !! i = Some (sextet (nth i l 0))).
  { change (map ?f ?x) with (f <$> x). by rewrite list_lookup_fmap, lookup_take_lt, E by lia. }
  rewrite (nth_lookup_Some _ _ _ _ E'). apply sextet_spec. by apply (Forall_lookup_1 _ _ _ _ Hs E).
Qed.

Lemma decode_loop_base64 bs rest passes :
  bytes bs → bs ≠ [] → (length bs < passes)%nat →
  decode_loop passes (map sextet (sextets_of bs) ++ rest) (zlen (sextets_of bs)) = bs.
Proof.
  revert passes. induction bs as [|a|a b|a b c bs IH] using triples_ind; intros passes Hbs Hne Hp;
    [done|..]; unfold bytes in Hbs; rewrite ?Forall_cons in Hbs; (destruct passes as [|passes]; [cbn in Hp; lia|]).
  - destruct Hbs as [Ha _]. pose proof is_byte_0 as H0. pose proof (group_values a 0 0 2 rest) as G.
    cbn [decode_loop sextets_of]. set (v := λ i, tbl pr2six _) in *. change (zlen _) with 2. cbn [opt app Z.ltb Z.compare Pos.compare Pos.compare_cont].
    destruct (bytes_of_sextets a 0 0 Ha H0 H0 v) as [-> _]; [done|by apply (G 0%nat); try lia|by apply (G 1%nat); try lia].
  - destruct Hbs as (Ha & Hb & _). pose proof is_byte_0 as H0. pose proof (group_values a b 0 3 rest) as G.
    cbn [decode_loop sextets_of]. set (v := λ i, tbl pr2six _) in *. change (zlen _) with 3. cbn [opt app Z.ltb Z.compare Pos.compare Pos.compare_cont].
    assert (G0 := G 0%nat Ha Hb H0 ltac:(lia) ltac:(lia)). assert (G1 := G 1%nat Ha Hb H0 ltac:(lia) ltac:(lia)).
    assert (G2 := G 2%nat Ha Hb H0 ltac:(lia) ltac:(lia)).
    destruct (bytes_of_sextets a b 0 Ha Hb H0 v) as (-> & -> & _); done.
  - destruct Hbs as (Ha & Hb & Hc & Hbs). cbn [sextets_of]. rewrite map_app, <- app_assoc, zlen_app.
    pose proof (group_values a b c 4 (map sextet (sextets_of bs) ++ rest)) as G.
    change (take 4 (sextets a b c)) with (sextets a b c) in G. change (zlen (sextets a b c)) with 4.
    cbn [decode_loop]. set (v := λ i, tbl pr2six _) in *.
    assert (G0 := G 0%nat Ha Hb Hc ltac:(lia) ltac:(lia)). assert (G1 := G 1%nat Ha Hb Hc ltac:(lia) ltac:(lia)).
    assert (G2 := G 2%nat Ha Hb Hc ltac:(lia) ltac:(lia)). assert (G3 := G 3%nat Ha Hb Hc ltac:(lia) ltac:(lia)).
    destruct (bytes_of_sextets a b c Ha Hb Hc v) as (-> & -> & ->); try done. clear G G0 G1 G2 G3.
    destruct bs as [|d bs]; [done|]. pose proof (sextets_of_length (d :: bs)) as Hl. rewrite zlen_cons in Hl.
    pose proof (zlen_nonneg bs). rewrite (proj2 (Z.ltb_lt _ _)) by lia. do 3 f_equal.
    replace (4 + _ - 4) with (zlen (sextets_of (d :: bs))) by lia. apply IH; [done|done|cbn [length] in *; lia].
Qed.

(** ** What is accepted *)

(** A text: characters that carry bits, not one alone in the last group, and no
    padding or the padding that completes the last group. *)
Definition base64_text (cs : list Z) (k : nat) : Prop :=
  Forall carries cs ∧ cs ≠ [] ∧ zlen cs mod 4 ≠ 1 ∧ (k = 0%nat ∨ (k ≤ 2)%nat ∧ (zlen cs + Z.of_nat k) mod 4 = 0).

Lemma scan_pads k n p : 0 ≤ p → p + Z.of_nat k ≤ 2 → scan_loop (replicate k 61) n p = Some (n, p + Z.of_nat k).
Proof.
  revert p. induction k as [|k IH]; intros p Hp Hk; [cbn; f_equal; f_equal; lia|].
  cbn [replicate scan_loop]. rewrite pad_does_not_carry. cbn [Z.leb Z.compare Pos.compare Pos.compare_cont Z.eqb Pos.eqb].
  rewrite (proj2 (Z.ltb_ge _ _)), IH by lia. f_equal. f_equal. lia.
Qed.
Lemma scan_loop_text cs k n : Forall carries cs → (k ≤ 2)%nat →
  scan_loop (cs ++ replicate k 61) n 0 = Some (n + zlen cs, Z.of_nat k).
Proof.
  intros Hcs Hk. revert n. induction Hcs as [|c cs Hc _ IH]; intros n.
  - cbn [app]. rewrite scan_pads by lia. unfold zlen. cbn. f_equal. f_equal; lia.
  - cbn [app scan_loop]. rewrite (proj2 (Z.leb_le _ _)) by done. cbn [Z.eqb]. rewrite IH, zlen_cons. f_equal. f_equal. lia.
Qed.
Lemma scan_loop_inv text n p n' p' : 0 ≤ p ≤ 2 → scan_loop text n p = Some (n', p') →
  ∃ cs k, text = cs ++ replicate k 61 ∧ Forall carries cs ∧ n' = n + zlen cs ∧ p' = p + Z.of_nat k ∧ p' ≤ 2 ∧ (0 < p → cs = []).
Proof.
  revert n p. induction text as [|c text IH]; intros n p Hp E; cbn [scan_loop] in E.
  - injection E as <- <-. exists [], 0%nat. repeat split; try done; unfold zlen; cbn; lia.
  - destruct (Z.leb_spec (tbl pr2six c) 63) as [Hc|Hc].
    + destruct (Z.eqb_spec p 0) as [->|]; [|done]. destruct (IH _ _ Hp E) as (cs & k & -> & Hcs & -> & -> & ? & _).
      exists (c :: cs), k. rewrite zlen_cons. repeat split; [by constructor|lia..].
    + destruct (Z.eqb_spec c 61) as [->|]; [|done]. destruct (Z.ltb_spec 2 (p + 1)); [done|].
      destruct (IH n (p + 1) ltac:(lia) E) as (cs & k & -> & _ & -> & -> & ? & Hnil). rewrite Hnil by lia.
      exists [], (S k). repeat split; try done; unfold zlen; cbn; lia.
Qed.

(** The number of bytes of [n] characters. *)
Lemma decoded_size_eq n : 0 ≤ n → n mod 4 ≠ 1 → (n + 3) / 4 * 3 - ((4 - n) .& 3) = n * 3 / 4.
Proof. intros. change 3 with (2 ^ 2 - 1) at 3. rewrite land_mask by lia. lia. Qed.

Lemma scan_text cs k : base64_text cs k → ogs_base64_scan (cs ++ replicate k 61) = Some (zlen cs, zlen cs * 3 / 4).
Proof.
  intros (Hcs & Hne & Hmod & Hk). unfold ogs_base64_scan. rewrite scan_loop_text by (done || lia). cbn [mbind option_bind].
  assert (0 < zlen cs) by (destruct cs; [done|unfold zlen; cbn; lia]). rewrite !Z.add_0_l, decoded_size_eq by lia.
  destruct (Z.eqb_spec (zlen cs) 0); [lia|]. destruct (Z.eqb_spec (zlen cs mod 4) 1); [lia|].
  replace (_ && _) with false by (destruct (Z.eqb_spec (Z.of_nat k) 0); cbn; lia).
  by destruct (Z.eqb_spec (zlen cs * 3 / 4) 0); [lia|].
Qed.
Lemma scan_inv text n d : ogs_base64_scan text = Some (n, d) →
  ∃ cs k, text = cs ++ replicate k 61 ∧ base64_text cs k ∧ n = zlen cs ∧ d = zlen cs * 3 / 4.
Proof.
  unfold ogs_base64_scan. destruct (scan_loop text 0 0) as [[n' p]|] eqn:E; [|done]. cbn [mbind option_bind].
  destruct (scan_loop_inv text 0 0 n' p ltac:(lia) E) as (cs & k & -> & Hcs & -> & -> & Hk & _). rewrite !Z.add_0_l in *.
  destruct (Z.eqb_spec (zlen cs) 0) as [|Hne]; [done|]. destruct (Z.eqb_spec (zlen cs mod 4) 1) as [|Hmod]; [done|].
  destruct (negb _ && _) eqn:Hp; [done|]. pose proof (zlen_nonneg cs). rewrite decoded_size_eq by lia.
  case_match; [done|]. intros [= <- <-]. exists cs, k. split; [done|]. split; [|done].
  split; [done|]. split; [by intros ->|]. split; [done|]. apply andb_false_iff in Hp. rewrite !negb_false_iff in Hp. lia.
Qed.

(** What is decoded fills exactly the size that is announced. *)
Lemma decode_loop_length passes text n :
  0 < n → n mod 4 ≠ 1 → n ≤ 4 * Z.of_nat passes → zlen (decode_loop passes text n) = n * 3 / 4.
Proof.
  revert text n. induction passes as [|passes IH]; intros text n Hn Hmod Hp; [lia|]. cbn [decode_loop].
  destruct (Z.ltb_spec 4 n) as [H4|H4].
  - rewrite !zlen_cons, IH by lia. lia.
  - rewrite !zlen_app. assert (n = 2 ∨ n = 3 ∨ n = 4) as [-> | [-> | ->]] by lia; done.
Qed.
Lemma decode_loop_bytes passes text n : bytes (decode_loop passes text n).
Proof.
  revert text n. induction passes as [|passes IH]; intros text n; [constructor|]. cbn [decode_loop].
  unfold byte_0, byte_1, byte_2, opt. case_match; [repeat constructor; try apply u8_byte; apply IH|].
  repeat apply Forall_app_2; (case_match; [repeat constructor; apply u8_byte|constructor]).
Qed.

Lemma base64_is_text bs : bytes bs → bs ≠ [] → base64_text (map sextet (sextets_of bs)) (pads bs).
Proof.
  intros Hbs Hne. assert (0 < zlen bs) by (destruct bs; [done|unfold zlen; cbn; lia]).
  assert (Hl : zlen (map sextet (sextets_of bs)) = (4 * zlen bs + 2) / 3).
  { rewrite <- sextets_of_length. unfold zlen. by rewrite length_map. }
  unfold base64_text, pads. rewrite Hl. split_and!; [|intros E; rewrite E in Hl; unfold zlen at 1 in Hl; cbn in Hl; lia|lia|lia].
  apply Forall_map. eapply Forall_impl; [by apply sextets_of_fit|]. intros i Hi. unfold carries.
  rewrite (proj1 (sextet_spec i Hi)). unfold is_sextet in Hi. lia.
Qed.
Lemma base64_length bs : zlen (base64 bs) = (zlen bs + 2) / 3 * 4.
Proof.
  unfold base64, pads. rewrite zlen_app. unfold zlen at 1 2. rewrite length_map, length_replicate.
  pose proof (sextets_of_length bs) as H. unfold zlen in *. lia.
Qed.
Lemma base64_decoded_size bs : bytes bs → bs ≠ [] → ogs_base64_scan (base64 bs) = Some (zlen (sextets_of bs), zlen bs).
Proof.
  intros Hbs Hne. unfold base64. rewrite scan_text by by apply base64_is_text. pose proof (sextets_of_length bs).
  unfold zlen in *. rewrite length_map. do 2 f_equal. lia.
Qed.
Lemma base64_decode bs n :
  bytes bs → bs ≠ [] → zlen bs ≤ n → zlen bs < 2 ^ 31 → ogs_base64_decode_to_buffer n (base64 bs) = Some (bs, zlen bs).
Proof.
  intros Hbs Hne Hn Hmax. assert (0 < zlen bs) by (destruct bs; [done|unfold zlen; cbn; lia]).
  unfold ogs_base64_decode_to_buffer. rewrite (proj2 (Z.eqb_neq _ _)) by lia.
  rewrite base64_decoded_size by done. cbn [mbind option_bind]. rewrite (proj2 (Z.ltb_ge _ _)) by lia.
  rewrite to_int_small by lia. do 2 f_equal. apply decode_loop_base64; [done|done|]. pose proof (base64_length bs). unfold zlen in *. lia.
Qed.

(** ** PEM *)

(** A needle that begins with a hyphen is found behind a text without hyphens. *)
Lemma memmem_skip pre needle rest : 45 ∉ pre → memmem (pre ++ (45 :: needle) ++ rest) (45 :: needle) = Some (length pre).
Proof.
  intros Hpre. induction pre as [|c pre IH].
  - cbn [app]. destruct rest; cbn [memmem app]; rewrite ?take_app_length; by rewrite bool_decide_eq_true_2 by (cbn; by rewrite ?take_app_length).
  - apply not_elem_of_cons in Hpre as [Hc Hpre]. cbn [app memmem length].
    rewrite bool_decide_eq_false_2 by (cbn; congruence). cbn [app] in IH. by rewrite IH.
Qed.
Lemma copy_loop_no_space text : Forall (λ c, is_space c = false ∧ c ≠ 45) text → copy_loop text = text.
Proof.
  induction 1 as [|c text [Hs Hc] _ IH]; [done|]. cbn [copy_loop]. rewrite Hs, (proj2 (Z.eqb_neq _ _)), IH by done. done.
Qed.
Lemma copy_loop_length l : (length (copy_loop l) ≤ length l)%nat.
Proof. induction l as [|c l IH]; [done|]. cbn [copy_loop length]. repeat case_match; cbn [length]; lia. Qed.
Lemma c_string_nonzero l : Forall (λ c, c ≠ 0) l → c_string l = l.
Proof.
  intros Hl. unfold c_string. destruct (list_find _ l) as [[n c]|] eqn:E; [|done].
  apply list_find_Some in E as (Hn & -> & _). by apply (Forall_lookup_1 _ _ _ _ Hl) in Hn.
Qed.
Lemma base64_nonzero bs : bytes bs → Forall (λ c, c ≠ 0) (base64 bs).
Proof.
  intros Hbs. apply Forall_app_2; [|by apply Forall_replicate]. apply Forall_map.
  eapply Forall_impl; [by apply sextets_of_fit|]. intros i Hi. by apply sextet_spec.
Qed.
(** The hyphens behind the name. *)
Lemma find_end header rest : 45 ∉ header →
  memmem (drop 1 (pem_top ++ header) ++ ENDSTR ++ rest) ENDSTR = Some (10 + length header)%nat.
Proof.
  intros Hh. unfold pem_top, ENDSTR. cbn [app drop].
  cbn [memmem length]. rewrite !bool_decide_eq_false_2 by (cbn; congruence).
  pose proof (memmem_skip header [45; 45; 45; 45] rest Hh) as E. cbn [app] in E. rewrite E. done.
Qed.

(** A key that is stored as PEM is read back: behind any text without hyphens,
    between the lines that name it, the octets are found whatever white space
    breaks their base64 into lines, and whatever follows. *)
Theorem ogs_fbase64_decode_pem pre header body bs post :
  45 ∉ pre → 45 ∉ header → (length header ≤ 116)%nat → 45 ∉ body → copy_loop body = base64 bs →
  bytes bs → bs ≠ [] → zlen bs < 2 ^ 31 →
  ogs_fbase64_decode header (pre ++ pem_top ++ header ++ ENDSTR ++ body ++ pem_bottom ++ post) = Some bs.
Proof.
  intros Hpre Hheader Hlen Hbody Hcopy Hbs Hne Hmax.
  assert (Hb4 : (4 ≤ length body)%nat).
  { pose proof (copy_loop_length body) as H. rewrite Hcopy in H. pose proof (base64_length bs) as E.
    assert (0 < zlen bs) by (destruct bs; [done|unfold zlen; cbn; lia]). unfold zlen in *. lia. }
  unfold ogs_fbase64_decode, pem_header. rewrite take_ge by (rewrite length_app; cbn; lia).
  set (tail := header ++ ENDSTR ++ body ++ pem_bottom ++ post).
  assert (E : memmem (pre ++ pem_top ++ tail) (pem_top ++ header) = Some (length pre)).
  { pose proof (memmem_skip pre (drop 1 (pem_top ++ header)) (ENDSTR ++ body ++ pem_bottom ++ post) Hpre) as E.
    subst tail. rewrite (app_assoc pem_top). exact E. }
  rewrite E. cbn [mbind option_bind]. rewrite drop_app_length.
  rewrite (proj2 (Nat.ltb_ge _ _)) by (subst tail; rewrite !length_app; cbn; lia).
  replace (drop 1 (pem_top ++ tail)) with (drop 1 (pem_top ++ header) ++ ENDSTR ++ body ++ pem_bottom ++ post).
  2: { subst tail. cbn [pem_top app drop]. done. }
  rewrite find_end by done. cbn [mbind option_bind].
  replace (drop _ (pem_top ++ tail)) with (body ++ pem_bottom ++ post).
  2: { subst tail. rewrite (app_assoc pem_top), (app_assoc (pem_top ++ header)), drop_app_length'; [done|].
       rewrite !length_app. cbn. lia. }
  pose proof (memmem_skip body (drop 1 pem_bottom) post Hbody) as Ek.
  change (45 :: drop 1 pem_bottom) with pem_bottom in Ek. rewrite Ek. cbn [mbind option_bind].
  rewrite (proj2 (Nat.ltb_ge _ _)), take_app_length by lia. unfold cpydata. rewrite Hcopy.
  assert (Hn : base64 bs ≠ []) by (intros Hnil; pose proof (base64_length bs) as H; rewrite Hnil in H; destruct bs; [done|]; rewrite zlen_cons in H; pose proof (zlen_nonneg bs); unfold zlen at 1 in H; cbn [length] in H; lia).
  destruct (base64 bs) as [|c l] eqn:Eb; [done|]. rewrite <- Eb. cbn [mbind option_bind].
  rewrite c_string_nonzero by by apply base64_nonzero.
  unfold ogs_base64_decoded_size. rewrite base64_decoded_size by done. cbn [fmap option_fmap option_map snd mbind option_bind].
  assert (0 < zlen bs) by (destruct bs; [done|unfold zlen; cbn; lia]).
  rewrite to_int_small, (proj2 (Z.leb_gt _ _)), base64_decode by (done || lia). cbn [mbind option_bind].
  by rewrite (proj2 (Z.leb_gt _ _)) by lia.
Qed.
Example ogs_fbase64_decode_pem_witness :
  ogs_fbase64_decode [75] ([65] ++ pem_top ++ [75] ++ ENDSTR ++ [10; 89; 87; 10; 74; 106; 10] ++ pem_bottom ++ []) = Some [97; 98; 99].
Proof.
  apply ogs_fbase64_decode_pem; try (by apply bool_decide_unpack); try (by apply bytes_by_check); try (by apply Nat.leb_le); try done; set_solver.
Defined.

(** The base64 of any data of less than a gigabyte fits exactly in the size
    that is announced for it, is the one of RFC 4648, and is decoded to the data
    again in a buffer of the size that is announced for the text. *)
Theorem ogs_base64_roundtrip bs :
  bytes bs → bs ≠ [] → zlen bs < 2 ^ 30 →
  ∃ size, ogs_base64_encoded_size (zlen bs) = Some size ∧ zlen (base64 bs) + 1 = size ∧
    (∀ out_size, ogs_base64_encode_from_buffer out_size bs = if out_size <? size then None else Some (base64 bs ++ [0], size)) ∧
    ogs_base64_decoded_size (base64 bs) = Some (zlen bs) ∧
    ogs_base64_decode_to_buffer (zlen bs) (base64 bs) = Some (bs, zlen bs).
Proof.
  intros Hbs Hne Hlen. assert (Hpos : 0 < zlen bs) by (destruct bs; [done|unfold zlen; cbn; lia]).
  pose proof (base64_length bs) as Hl. exists ((zlen bs + 2) / 3 * 4 + 1).
  assert (Hsize : ogs_base64_encoded_size (zlen bs) = Some ((zlen bs + 2) / 3 * 4 + 1)).
  { unfold ogs_base64_encoded_size. rewrite (proj2 (Z.ltb_ge _ _)) by lia. by rewrite to_int_small by lia. }
  split; [done|]. split; [lia|]. split; [|split].
  - intros out_size. unfold ogs_base64_encode_from_buffer. rewrite Hsize. cbn [mbind option_bind].
    rewrite encode_loop_base64, zlen_app, Hl by done. change (zlen [0]) with 1.
    destruct (Z.eqb_spec out_size 0); [by rewrite (proj2 (Z.ltb_lt _ _)) by lia|].
    rewrite (proj2 (Z.leb_gt _ _)) by lia. cbn [orb]. by rewrite to_int_small by lia.
  - unfold ogs_base64_decoded_size. rewrite base64_decoded_size by done. cbn. by rewrite to_int_small by lia.
  - apply base64_decode; done || lia.
Qed.
Example ogs_base64_roundtrip_witness :
  ogs_base64_decode_to_buffer 5 (base64 [104; 101; 108; 108; 111]) = Some ([104; 101; 108; 108; 111], 5).
Proof.
  destruct (ogs_base64_roundtrip [104; 101; 108; 108; 111]) as (size & _ & _ & _ & _ & H); [by apply bytes_by_check|done|done|exact H].
Defined.

(** A text is decoded exactly when it is base64: at least two characters of
    the alphabet, not one alone in the last group, then nothing or the one or two
    [=] that complete the group; and when the buffer holds what it stands for.
    What is written is never more than the buffer holds and is as many octets
    as are announced for the text. *)
Theorem ogs_base64_decode_exact out_size text :
  0 ≤ out_size → zlen text < 2 ^ 31 →
  (is_Some (ogs_base64_decode_to_buffer out_size text) ↔
   ∃ cs k, text = cs ++ replicate k 61 ∧ base64_text cs k ∧ zlen cs * 3 / 4 ≤ out_size) ∧
  (∀ out n, ogs_base64_decode_to_buffer out_size text = Some (out, n) →
   bytes out ∧ zlen out = n ∧ 0 < n ≤ out_size ∧ ogs_base64_decoded_size text = Some n).
Proof.
  intros Hout Htext.
  assert (Hsize : ∀ cs k, text = cs ++ replicate k 61 → base64_text cs k → 0 < zlen cs * 3 / 4 < 2 ^ 31).
  { intros cs k -> (_ & Hne & Hmod & _). rewrite zlen_app in Htext. pose proof (zlen_nonneg (replicate k 61)).
    assert (0 < zlen cs) by (destruct cs; [done|unfold zlen; cbn; lia]). lia. }
  unfold ogs_base64_decode_to_buffer. split.
  - split.
    + destruct (Z.eqb_spec out_size 0); [by intros [? ?]|]. destruct (ogs_base64_scan text) as [[m d]|] eqn:E; [|by intros [? ?]].
      cbn [mbind option_bind]. destruct (Z.ltb_spec out_size d); [by intros [? ?]|]. intros _.
      destruct (scan_inv _ _ _ E) as (cs & k & -> & Ht & -> & ->). by exists cs, k.
    + intros (cs & k & -> & Ht & Hle). specialize (Hsize cs k eq_refl Ht). rewrite (proj2 (Z.eqb_neq _ _)) by lia.
      rewrite scan_text by done. cbn [mbind option_bind]. rewrite (proj2 (Z.ltb_ge _ _)) by lia. done.
  - intros out sz. destruct (Z.eqb_spec out_size 0); [done|]. destruct (ogs_base64_scan text) as [[m d]|] eqn:E; [|done].
    cbn [mbind option_bind]. destruct (Z.ltb_spec out_size d); [done|]. intros [= <- <-].
    destruct (scan_inv _ _ _ E) as (cs & k & -> & Ht & -> & ->). specialize (Hsize cs k eq_refl Ht).
    unfold ogs_base64_decoded_size. rewrite E. cbn [fmap option_fmap option_map snd]. rewrite to_int_small by lia.
    split; [exact (decode_loop_bytes (S _) _ _)|]. split; [|split; [lia|done]].
    refine (decode_loop_length (S _) _ _ _ _ _); [lia|by destruct Ht as (_ & _ & ? & _)|]. rewrite length_app. unfold zlen in *. lia.
Qed.
Example ogs_base64_decode_exact_witness :
  is_Some (ogs_base64_decode_to_buffer 3 [89; 81; 61; 61]) ↔
   ∃ cs k, [89; 81; 61; 61] = cs ++ replicate k 61 ∧ base64_text cs k ∧ zlen cs * 3 / 4 ≤ 3.
Proof. apply (ogs_base64_decode_exact 3 [89; 81; 61; 61]); done. Defined.
