(* ===== verification/Kdf.v ===== *)
(** * The derivation of keys (lib/crypt/ogs-kdf.c)

    Each derivation puts a function code and some parameters, each with its
    length behind it, into a string, and takes the code of HMAC-SHA-256 of the
    string under a key.  Buffers are lists of bytes; a pointer to an octet
    string of a fixed length is read for that length. *)
From S2P Require Import Prelude XactBase Octets Words Sha2.
#[local] Open Scope Z_scope.
#[local] Open Scope c_scope.

Definition MAX_NUM_OF_KDF_PARAM : nat := 16.
Definition OGS_KEY_LEN : nat := 16.
Definition OGS_SHA256_DIGEST_SIZE : nat := 32.
Definition FC_FOR_5GS_ALGORITHM_KEY_DERIVATION : Z := 0x69.
Definition FC_FOR_KAUSF_DERIVATION : Z := 0x6A.
Definition FC_FOR_RES_STAR_XRES_STAR_DERIVATION : Z := 0x6B.
Definition FC_FOR_KSEAF_DERIVATION : Z := 0x6C.
Definition FC_FOR_KAMF_DERIVATION : Z := 0x6D.
Definition FC_FOR_KGNB_KN3IWF_DERIVATION : Z := 0x6E.
Definition FC_FOR_NH_GNB_DERIVATION : Z := 0x6F.
Definition FC_FOR_KASME : Z := 0x10.
Definition FC_FOR_KENB_DERIVATION : Z := 0x11.
Definition FC_FOR_NH_ENB_DERIVATION : Z := 0x12.
Definition FC_FOR_EPS_ALGORITHM_KEY_DERIVATION : Z := 0x15.
Definition FC_FOR_CK_IK_DERIVATION_HANDOVER : Z := 0x16.
Definition FC_FOR_NAS_TOKEN_DERIVATION : Z := 0x17.
Definition FC_FOR_KASME_DERIVATION_IDLE_MOBILITY : Z := 0x19.
Definition FC_FOR_CK_IK_DERIVATION_IDLE_MOBILITY : Z := 0x1B.

(** An element of the array of parameters: the buffer, [None] for [NULL], and
    its length in 16 bits. *)
Definition kdf_param : Type := option (list Z) * Z.
(** [param[i].buf = buf; param[i].len = n]. *)
Definition param_of (buf : list Z) (n : Z) : kdf_param := (Some buf, u16 n).

(** The parameters that the loops copy: up to the first without a buffer or a length. *)
Fixpoint kdf_params (params : list kdf_param) : list (list Z) :=
  match params with
  | (Some buf, len) :: params => if len =? 0 then [] else take (Z.to_nat len) buf :: kdf_params params
  | _ => []
  end.
(** What the second loop writes. *)
Definition kdf_string (fc : Z) (ps : list (list Z)) : list Z := fc :: mbind (λ p, p ++ be_bytes 2 (zlen p)) ps.

(** [None] stands for a failed assertion.  The array ends in elements that are zero. *)
Definition ogs_kdf_common (key : list Z) (fc : Z) (param : list kdf_param) : option (list Z) :=
  if (length key =? 0)%nat || (fc =? 0) then None
  else
    match kdf_params (take MAX_NUM_OF_KDF_PARAM param) with
    | [] => None
    | ps => ogs_hmac_sha256 key (kdf_string fc ps) OGS_SHA256_DIGEST_SIZE
    end.

(** [memcpy(key, ck, OGS_KEY_LEN); memcpy(key+OGS_KEY_LEN, ik, OGS_KEY_LEN)]. *)
Definition ck_ik (ck ik : list Z) : list Z := take OGS_KEY_LEN ck ++ take OGS_KEY_LEN ik.

(** ** TS 33.501 *)

Definition ogs_kdf_kausf (ck ik serving_network_name autn : list Z) : option (list Z) :=
  ogs_kdf_common (ck_ik ck ik) FC_FOR_KAUSF_DERIVATION
    [param_of serving_network_name (zlen serving_network_name); param_of autn 6].
Definition ogs_kdf_xres_star (ck ik serving_network_name rand xres : list Z) : option (list Z) :=
  guard (length xres ≠ 0)%nat;;
  output ← ogs_kdf_common (ck_ik ck ik) FC_FOR_RES_STAR_XRES_STAR_DERIVATION
    [param_of serving_network_name (zlen serving_network_name); param_of rand 16; param_of xres (zlen xres)];
  Some (take OGS_KEY_LEN (drop OGS_KEY_LEN output)).
Definition ogs_kdf_hxres_star (rand xres_star : list Z) : list Z :=
  take OGS_KEY_LEN (drop OGS_KEY_LEN (ogs_sha256 (take 16 rand ++ take OGS_KEY_LEN xres_star))).
Definition ogs_kdf_kseaf (serving_network_name kausf : list Z) : option (list Z) :=
  ogs_kdf_common (take OGS_SHA256_DIGEST_SIZE kausf) FC_FOR_KSEAF_DERIVATION
    [param_of serving_network_name (zlen serving_network_name)].

(** [strsep(&p, "-")]: the token, and what is left unless the string ended. *)
Definition strsep (p : list Z) : list Z * option (list Z) :=
  match list_find (λ c, c = 45) p with
  | Some (i, _) => (take i p, Some (drop (S i) p))
  | None => (p, None)
  end.
(** lib/proto/types.c: what is between the first two hyphens. *)
Definition ogs_id_get_type (str : list Z) : list Z := fst (strsep str).
Definition ogs_id_get_value (str : list Z) : option (list Z) :=
  p ← snd (strsep str);
  Some (fst (strsep p)).

Definition ogs_kdf_kamf (supi abba kseaf : list Z) : option (list Z) :=
  guard (length abba ≠ 0)%nat;;
  val ← ogs_id_get_value supi;
  ogs_kdf_common (take OGS_SHA256_DIGEST_SIZE kseaf) FC_FOR_KAMF_DERIVATION
    [param_of val (zlen val); param_of abba (zlen abba)].
Definition ogs_kdf_nas_5gs (algorithm_type_distinguishers algorithm_identity : Z) (kamf : list Z) : option (list Z) :=
  output ← ogs_kdf_common (take OGS_SHA256_DIGEST_SIZE kamf) FC_FOR_5GS_ALGORITHM_KEY_DERIVATION
    [param_of [algorithm_type_distinguishers] 1; param_of [algorithm_identity] 1];
  Some (take 16 (drop 16 output)).
Definition ogs_kdf_kgnb_and_kn3iwf (kamf : list Z) (ul_count access_type_distinguisher : Z) : option (list Z) :=
  ogs_kdf_common (take OGS_SHA256_DIGEST_SIZE kamf) FC_FOR_KGNB_KN3IWF_DERIVATION
    [param_of (le_bytes 4 (bswap 4 ul_count)) 4; param_of [access_type_distinguisher] 1].
Definition ogs_kdf_nh_gnb (kamf sync_input : list Z) : option (list Z) :=
  ogs_kdf_common (take OGS_SHA256_DIGEST_SIZE kamf) FC_FOR_NH_GNB_DERIVATION
    [param_of sync_input (Z.of_nat OGS_SHA256_DIGEST_SIZE)].
(** The keys EK, ICB and MK; [ECC_BYTES] is 32. *)
Definition ogs_kdf_ansi_x963 (z info : list Z) : option (list Z * list Z * list Z) :=
  if (32 + 4 + 32 + 1 <? length z + 4 + length info)%nat then None
  else
    let output := ogs_sha256 (z ++ le_bytes 4 (bswap 4 1) ++ info) in
    Some (take OGS_KEY_LEN output, take 16 (drop OGS_KEY_LEN output), ogs_sha256 (z ++ le_bytes 4 (bswap 4 2) ++ info)).

(** ** TS 33.401 *)

Definition ogs_auc_kasme (ck ik plmn_id sqn ak : list Z) : option (list Z) :=
  ogs_kdf_common (ck_ik ck ik) FC_FOR_KASME
    [param_of plmn_id 3; param_of (xor_bytes (take 6 sqn) (take 6 ak)) 6].
Definition ogs_kdf_kenb (kasme : list Z) (ul_count : Z) : option (list Z) :=
  ogs_kdf_common (take OGS_SHA256_DIGEST_SIZE kasme) FC_FOR_KENB_DERIVATION
    [param_of (le_bytes 4 (bswap 4 ul_count)) 4].
Definition ogs_kdf_nh_enb (kasme sync_input : list Z) : option (list Z) :=
  ogs_kdf_common (take OGS_SHA256_DIGEST_SIZE kasme) FC_FOR_NH_ENB_DERIVATION
    [param_of sync_input (Z.of_nat OGS_SHA256_DIGEST_SIZE)].
Definition ogs_kdf_nas_eps (algorithm_type_distinguishers algorithm_identity : Z) (kasme : list Z) : option (list Z) :=
  output ← ogs_kdf_common (take OGS_SHA256_DIGEST_SIZE kasme) FC_FOR_EPS_ALGORITHM_KEY_DERIVATION
    [param_of [algorithm_type_distinguishers] 1; param_of [algorithm_identity] 1];
  Some (take 16 (drop 16 output)).
(** The counts and nonces of the next four are copied as they are in the memory
    of the machine, here one of the little-endian order. *)
Definition ogs_kdf_ck_ik_handover (dl_count : Z) (kasme : list Z) : option (list Z * list Z) :=
  output ← ogs_kdf_common (take OGS_SHA256_DIGEST_SIZE kasme) FC_FOR_CK_IK_DERIVATION_HANDOVER
    [param_of (le_bytes 4 dl_count) 4];
  Some (take 16 output, take 16 (drop 16 output)).
Definition ogs_kdf_nas_token (ul_count : Z) (kasme : list Z) : option (list Z) :=
  output ← ogs_kdf_common (take OGS_SHA256_DIGEST_SIZE kasme) FC_FOR_NAS_TOKEN_DERIVATION
    [param_of (le_bytes 4 ul_count) 4];
  Some (take 2 output).
Definition ogs_kdf_kasme_idle_mobility (ck ik : list Z) (nonce_ue nonce_mme : Z) : option (list Z) :=
  ogs_kdf_common (ck_ik ck ik) FC_FOR_KASME_DERIVATION_IDLE_MOBILITY
    [param_of (le_bytes 4 nonce_ue) 4; param_of (le_bytes 4 nonce_mme) 4].
Definition ogs_kdf_ck_ik_idle_mobility (ul_count : Z) (kasme : list Z) : option (list Z * list Z) :=
  output ← ogs_kdf_common (take OGS_SHA256_DIGEST_SIZE kasme) FC_FOR_CK_IK_DERIVATION_IDLE_MOBILITY
    [param_of (le_bytes 4 ul_count) 4];
  Some (take 16 output, take 16 (drop 16 output)).
Definition ogs_kdf_hash_mme (message : list Z) : option (list Z) :=
  if (length message =? 0)%nat then None
  else
    output ← ogs_hmac_sha256 (replicate 32 0) message OGS_SHA256_DIGEST_SIZE;
    Some (take 8 (drop 24 output)).
