(* ===== verification/KdfSpec.v ===== *)
(** * The derivations of keys against TS 33.220, TS 33.401 and TS 33.501 *)
From S2P Require Import Prelude XactBase Octets Words Sha2 Sha2Spec Kdf.
Import Fips180 (SHA_256).
#[local] Open Scope Z_scope.

(** TS 33.220 clause B.2: the code of HMAC-SHA-256 of
    [FC || P0 || L0 || P1 || L1 || ...]. *)
Definition KDF (key : list Z) (FC : Z) (P : list (list Z)) : list Z :=
  Fips180.hmac SHA_256 key (FC :: concat (map (λ p, p ++ be_bytes 2 (zlen p)) P)).

(** Parameters that an array can hold. *)
Definition param_ok (p : list Z) : Prop := bytes p ∧ p ≠ [] ∧ zlen p < 2 ^ 16.
Definition params_ok (ps : list (list Z)) : Prop := Forall param_ok ps ∧ ps ≠ [] ∧ (length ps ≤ MAX_NUM_OF_KDF_PARAM)%nat.
Definition key_ok (key : list Z) : Prop := bytes key ∧ key ≠ [] ∧ zlen key ≤ 64.

Lemma param_of_take buf n : 0 ≤ n < 2 ^ 16 → n ≤ zlen buf →
  param_of buf n = (Some buf, n) ∧ zlen (take (Z.to_nat n) buf) = n.
Proof. intros Hn Hb. unfold param_of, zlen in *. rewrite u16_small, length_take by done. split; [done|lia]. Qed.

Lemma kdf_string_concat fc ps : kdf_string fc ps = fc :: concat (map (λ p, p ++ be_bytes 2 (zlen p)) ps).
Proof. unfold kdf_string. f_equal. induction ps as [|p ps IH]; [done|]. cbn [mbind list_bind map concat]. by rewrite IH. Qed.
Lemma kdf_string_snoc fc ps p : kdf_string fc (ps ++ [p]) = kdf_string fc ps ++ p ++ be_bytes 2 (zlen p).
Proof. rewrite !kdf_string_concat, map_app, concat_app. cbn. by rewrite app_nil_r. Qed.

(** Read from its end, a string tells its parameters. *)
Lemma kdf_string_inj fc fc' ps ps' :
  Forall param_ok ps → Forall param_ok ps' → kdf_string fc ps = kdf_string fc' ps' → fc = fc' ∧ ps = ps'.
Proof.
  assert (Hlen : ∀ fc ps p, (3 ≤ length (kdf_string fc (ps ++ [p])))%nat).
  { intros. rewrite kdf_string_snoc, !length_app, be_bytes_length. cbn [kdf_string length]. lia. }
  revert ps'. induction ps as [|p ps IH] using rev_ind; intros ps' Hps Hps' E.
  - destruct ps' as [|p' ps' _] using rev_ind; [by injection E as ->|].
    specialize (Hlen fc' ps' p'). rewrite <- E in Hlen. cbn in Hlen. lia.
  - destruct ps' as [|p' ps' _] using rev_ind.
    { specialize (Hlen fc ps p). rewrite E in Hlen. cbn in Hlen. lia. }
    apply Forall_app in Hps as [Hps [Hp _]%Forall_cons]. apply Forall_app in Hps' as [Hps' [Hp' _]%Forall_cons].
    rewrite !kdf_string_snoc, !app_assoc in E. apply app_inj_2 in E as [E El]; [|by rewrite !be_bytes_length].
    assert (Hz : zlen p = zlen p').
    { apply (f_equal be_value) in El. rewrite !be_value_bytes, !Z.mod_small in El; [done|..];
        [destruct Hp' as (_ & _ & ?)|destruct Hp as (_ & _ & ?)]; split; try done; apply zlen_nonneg. }
    apply app_inj_2 in E as [E ->]; [|unfold zlen in Hz; lia]. by destruct (IH ps' Hps Hps' E) as [-> ->].
Qed.

Lemma kdf_params_all ps : Forall param_ok ps → kdf_params (map (λ p, param_of p (zlen p)) ps) = ps.
Proof.
  induction 1 as [|p ps (_ & Hne & Hlt) _ IH]; [done|]. cbn [map kdf_params param_of].
  rewrite u16_small by (split; [apply zlen_nonneg|done]). destruct (Z.eqb_spec (zlen p) 0) as [E|E].
  - destruct p; [done|]. unfold zlen in E. cbn in E. lia.
  - unfold zlen at 1. by rewrite Nat2Z.id, firstn_all, IH.
Qed.

Lemma kdf_string_ok fc ps : is_byte fc → params_ok ps → bytes (kdf_string fc ps) ∧ zlen (kdf_string fc ps) < 2 ^ 21.
Proof.
  intros Hfc (Hps & _ & Hn). unfold MAX_NUM_OF_KDF_PARAM in Hn.
  assert (H : bytes (kdf_string fc ps) ∧ zlen (kdf_string fc ps) ≤ 1 + 65537 * zlen ps).
  { clear Hn. rewrite kdf_string_concat. induction Hps as [|p ps (Hb & _ & Hl) _ [IHb IHl]].
    { split; [constructor; [done|constructor]|done]. }
    cbn [map concat]. apply Forall_cons in IHb as [_ IHb]. split.
    - constructor; [done|]. repeat apply Forall_app_2; [done|apply be_bytes_bytes|done].
    - rewrite !zlen_cons, !zlen_app in *. unfold zlen at 2. rewrite be_bytes_length. lia. }
  destruct H as [? H]. split; [done|]. unfold zlen in *. lia.
Qed.

Lemma hmac_sha256_mac key text :
  bytes key → zlen key ≤ 64 → bytes text → zlen text < 2 ^ 28 →
  ogs_hmac_sha256 key text OGS_SHA256_DIGEST_SIZE = Some (Fips180.hmac SHA_256 key text).
Proof.
  intros Hk Hkl Ht Htl. pose proof (zlen_nonneg key). assert (Hl : 8 * zlen key < 2 ^ 32) by lia.
  unfold ogs_hmac_sha256, hmac.
  assert (Hup : hmac_after SHA_256 key text (hmac_update SHA256 (hmac_init SHA256 key) text)).
  { pose proof (hmac_updates SHA_256 key Hk Hl [] _ [text] (hmac_init_after SHA_256 key Hk Hl)) as H'.
    cbn [concat app foldl] in H'. rewrite app_nil_r in H'. apply H'; [by repeat constructor|].
    rewrite zlen_app, keyed_length by done. change (Fips180.block_bytes SHA_256) with 64. lia. }
  destruct (hmac_final_after SHA_256 key Hk Hl _ _ OGS_SHA256_DIGEST_SIZE Hup) as (c & E & _).
  { change (Fips180.block_bytes SHA_256) with 64. lia. }
  { done. }
  change (code_of SHA_256) with SHA256 in E. rewrite E. cbn [fmap option_fmap option_map fst]. f_equal. apply take_ge.
  unfold Fips180.hmac. cbn zeta. by rewrite (proj1 (hash_size SHA_256 _)).
Qed.

Lemma kdf_common key fc ps :
  key_ok key → 0 < fc < 256 → params_ok ps →
  ogs_kdf_common key fc (map (λ p, param_of p (zlen p)) ps) = Some (KDF key fc ps).
Proof.
  intros (Hk & Hne & Hkl) Hfc Hps. destruct (kdf_string_ok fc ps) as [Hb Hl]; [unfold is_byte; lia|done|].
  destruct Hps as (Hps & Hnil & Hn). unfold ogs_kdf_common.
  replace (_ || _) with false by (destruct key; [done|]; cbn; lia).
  rewrite take_ge by (by rewrite length_map). rewrite kdf_params_all by done.
  destruct ps as [|p ps]; [done|]. rewrite hmac_sha256_mac by (done || lia). unfold KDF. by rewrite kdf_string_concat.
Qed.

(** ** Buffers of fixed lengths *)

Definition octets (n : nat) (l : list Z) : Prop := bytes l ∧ length l = n.

Lemma octets_ok n l : octets n l → (0 < n)%nat → Z.of_nat n < 2 ^ 16 → param_ok l.
Proof. intros [Hb <-] Hn Hl. split; [done|]. split; [by destruct l; [cbn in Hn; lia|]|done]. Qed.
Lemma octets_key n l : octets n l → (0 < n ≤ 64)%nat → key_ok l.
Proof. intros [Hb <-] Hn. split; [done|]. split; [by destruct l; [cbn in Hn; lia|]|unfold zlen; lia]. Qed.
Lemma octets_take n l : octets n l → take n l = l.
Proof. intros [_ <-]. apply firstn_all. Qed.
Lemma octets_byte b : is_byte b → octets 1 [b].
Proof. intros. split; [constructor; [done|constructor]|done]. Qed.
Lemma octets_ck_ik ck ik : octets 16 ck → octets 16 ik → ck_ik ck ik = ck ++ ik ∧ octets 32 (ck ++ ik).
Proof.
  intros Hck Hik. unfold ck_ik, OGS_KEY_LEN. rewrite !octets_take by done. destruct Hck, Hik. split; [done|].
  split; [by apply Forall_app_2|rewrite length_app; lia].
Qed.
Lemma octets_count x : octets 4 (be_bytes 4 x) ∧ octets 4 (le_bytes 4 x).
Proof. split; (split; [auto using be_bytes_bytes, le_bytes_bytes|auto using be_bytes_length, le_bytes_length]). Qed.

(** The parameters are the first octets of the buffers. *)
Lemma kdf_common_of key fc n (l : list (list Z * nat)) :
  octets n key → (0 < n ≤ 64)%nat → 0 < fc < 256 → l ≠ [] → (length l ≤ 16)%nat →
  Forall (λ '(p, m), octets m (take m p) ∧ (0 < m)%nat ∧ Z.of_nat m < 2 ^ 16) l →
  ogs_kdf_common key fc (map (λ '(p, m), param_of p (Z.of_nat m)) l) = Some (KDF key fc (map (λ '(p, m), take m p) l)).
Proof.
  intros Hk Hn Hfc Hne Hl Hps.
  assert (Hok : Forall param_ok (map (λ '(p, m), take m p) l)).
  { apply Forall_map. eapply Forall_impl; [apply Hps|]. intros [p m] (? & ? & ?). by eapply octets_ok. }
  rewrite <- kdf_common; [|by eapply octets_key|done|split; [done|split; [by destruct l|by rewrite length_map]]].
  unfold ogs_kdf_common. rewrite !take_ge by (by rewrite ?length_map). rewrite kdf_params_all by done.
  replace (kdf_params _) with (map (λ '(p, m), take m p) l); [done|].
  clear - Hps. induction Hps as [|[p m] l (_ & Hm & Hl) _ IH]; [done|]. cbn [map kdf_params param_of].
  rewrite u16_small by lia. rewrite (proj2 (Z.eqb_neq _ _)) by lia. by rewrite Nat2Z.id, IH.
Qed.

Definition name_ok (name : list Z) : Prop := param_ok name.
Lemma name_octets name : name_ok name → octets (length name) name ∧ (0 < length name)%nat ∧ Z.of_nat (length name) < 2 ^ 16.
Proof. intros (Hb & Hne & Hl). split; [done|]. split; [by destruct name; [|cbn; lia]|done]. Qed.

#[local] Hint Resolve octets_byte : machine.

(** [derive n l] rewrites a derivation whose key has [n] bytes and whose parameters are [l]. *)
Ltac derive n l :=
  match goal with |- context [ogs_kdf_common ?key ?fc ?ps] =>
    let E := fresh in
    assert (E : ogs_kdf_common key fc ps = Some (KDF key fc (map (λ '(p, m), take m p) l)));
    [apply (kdf_common_of key fc n l); try done; try (cbn [length]; lia);
       repeat (apply Forall_cons; split; [split; [rewrite ?octets_take by auto with machine; auto with machine|split; [lia|done]]|]); try apply Forall_nil_2
    |rewrite E; clear E; cbn [map]; rewrite ?octets_take by auto with machine]
  end.
(** The two halves of a derived key. *)
Lemma kdf_halves key fc ps : take 16 (drop 16 (KDF key fc ps)) = drop 16 (KDF key fc ps).
Proof.
  apply take_ge. unfold KDF, Fips180.hmac. cbn zeta. rewrite length_drop, (proj1 (hash_size SHA_256 _)). cbn. lia.
Qed.

Lemma strsep_last a : 45 ∉ a → strsep a = (a, None).
Proof.
  intros Ha. unfold strsep. destruct (list_find _ a) as [[i x]|] eqn:E; [|done].
  apply list_find_Some in E as (Hi & -> & _). exfalso. by eapply Ha, list_elem_of_lookup_2.
Qed.
Lemma strsep_app a b : 45 ∉ a → strsep (a ++ 45 :: b) = (a, Some b).
Proof.
  intros Ha. unfold strsep. replace (list_find _ (a ++ 45 :: b)) with (Some (length a, 45)).
  - rewrite take_app_length. do 2 f_equal. rewrite drop_app_ge by lia. by replace (S (length a) - length a)%nat with 1%nat by lia.
  - symmetry. apply list_find_Some. split; [by apply list_lookup_middle|]. split; [done|].
    intros j y Hj Hlt ->. rewrite lookup_app_l in Hj by lia. by eapply Ha, list_elem_of_lookup_2.
Qed.
Lemma id_value type value : 45 ∉ type → 45 ∉ value → ogs_id_get_value (type ++ 45 :: value) = Some value.
Proof. intros Ht Hv. unfold ogs_id_get_value. rewrite strsep_app by done. cbn. by rewrite strsep_last. Qed.
Lemma octets_prefix n m l : octets n l → (m ≤ n)%nat → octets m (take m l).
Proof. intros [Hb <-] Hm. split; [by apply Forall_take|]. rewrite length_take. lia. Qed.

(** C18: every key derived from K_ASME or in its derivation for EPS, its function
    code, the order and encoding of its parameters, the part of the result that
    is used, is TS 33.401's, except that four derivations read a count or nonce
    in the order of the machine's memory: what is derived from a count at
    handover, in idle mode and for a NAS token is what the standard derives for
    the count with its octets reversed, while that of K_eNB is right. *)
Theorem eps_keys_are_ts33401 ck ik plmn_id sqn ak kasme count alg id sync message nonce_ue nonce_mme :
  octets 16 ck → octets 16 ik → octets 3 plmn_id → octets 6 sqn → octets 6 ak → octets 32 kasme → octets 32 sync →
  is_byte alg → is_byte id → bytes message → message ≠ [] → zlen message < 2 ^ 28 →
  ogs_auc_kasme ck ik plmn_id sqn ak = Some (KDF (ck ++ ik) 0x10 [plmn_id; xor_bytes sqn ak]) ∧
  ogs_kdf_kenb kasme count = Some (KDF kasme 0x11 [be_bytes 4 count]) ∧
  ogs_kdf_nh_enb kasme sync = Some (KDF kasme 0x12 [sync]) ∧
  ogs_kdf_nas_eps alg id kasme = Some (drop 16 (KDF kasme 0x15 [[alg]; [id]])) ∧
  (let K := KDF kasme 0x16 [le_bytes 4 count] in ogs_kdf_ck_ik_handover count kasme = Some (take 16 K, drop 16 K)) ∧
  ogs_kdf_nas_token count kasme = Some (take 2 (KDF kasme 0x17 [le_bytes 4 count])) ∧
  ogs_kdf_kasme_idle_mobility ck ik nonce_ue nonce_mme
  = Some (KDF (ck ++ ik) 0x19 [le_bytes 4 nonce_ue; le_bytes 4 nonce_mme]) ∧
  (let K := KDF kasme 0x1B [le_bytes 4 count] in ogs_kdf_ck_ik_idle_mobility count kasme = Some (take 16 K, drop 16 K)) ∧
  ogs_kdf_hash_mme message = Some (drop 24 (Fips180.hmac SHA_256 (replicate 32 0) message)).
Proof.
  intros Hck Hik Hplmn Hsqn Hak Hk Hsync Ha Hi Hm Hne Hml.
  destruct (octets_ck_ik ck ik Hck Hik) as [Eck Hckik]. destruct (octets_count count) as [Hb Hl].
  destruct (octets_count nonce_ue) as [_ Hu]. destruct (octets_count nonce_mme) as [_ Hn].
  assert (Hx : octets 6 (xor_bytes sqn ak)).
  { destruct Hsqn as [? E], Hak as [? E']. split; [by apply xor_bytes_bytes|]. by rewrite xor_bytes_length, E, E'. }
  assert (Hb' : le_bytes 4 (bswap 4 count) = be_bytes 4 count) by apply le_bytes_bswap.
  unfold ogs_auc_kasme, ogs_kdf_kenb, ogs_kdf_nh_enb, ogs_kdf_nas_eps, ogs_kdf_ck_ik_handover, ogs_kdf_nas_token,
    ogs_kdf_kasme_idle_mobility, ogs_kdf_ck_ik_idle_mobility, ogs_kdf_hash_mme, OGS_SHA256_DIGEST_SIZE.
  rewrite !Eck, !octets_take, Hb' by done. cbn zeta. split_and!.
  - by derive 32%nat [(plmn_id, 3%nat); (xor_bytes sqn ak, 6%nat)].
  - by derive 32%nat [(be_bytes 4 count, 4%nat)].
  - by derive 32%nat [(sync, 32%nat)].
  - derive 32%nat [([alg], 1%nat); ([id], 1%nat)]. cbn [mbind option_bind]. by rewrite kdf_halves.
  - derive 32%nat [(le_bytes 4 count, 4%nat)]. cbn [mbind option_bind]. by rewrite kdf_halves.
  - by derive 32%nat [(le_bytes 4 count, 4%nat)].
  - by derive 32%nat [(le_bytes 4 nonce_ue, 4%nat); (le_bytes 4 nonce_mme, 4%nat)].
  - derive 32%nat [(le_bytes 4 count, 4%nat)]. cbn [mbind option_bind]. by rewrite kdf_halves.
  - destruct message as [|m0 message]; [done|]. cbn [length Nat.eqb].
    change 32%nat with OGS_SHA256_DIGEST_SIZE at 2.
    rewrite hmac_sha256_mac; [|by apply Forall_replicate|done|done|done]. cbn [mbind option_bind]. f_equal.
    apply take_ge. unfold Fips180.hmac. cbn zeta. rewrite length_drop, (proj1 (hash_size SHA_256 _)). cbn. lia.
Qed.

(** C19: the keys and responses of the 5G system, from the home network's K_AUSF
    and RES* through K_SEAF, K_AMF (for the digits of a SUPI behind its type)
    to the keys of NAS, the gNB and the next hop, and the keys that conceal a
    SUCI, are those of TS 33.501, all of them of HMAC-SHA-256 or SHA-256 as the
    standards define them. *)
Theorem keys_5gs_are_ts33501 ck ik name autn rand xres res_star kausf type value abba kamf count alg id sync z info :
  octets 16 ck → octets 16 ik → name_ok name → octets 16 autn → octets 16 rand → param_ok xres → octets 16 res_star →
  octets 32 kausf → 45 ∉ type → 45 ∉ value → param_ok value → param_ok abba → octets 32 kamf → octets 32 sync →
  is_byte alg → is_byte id → bytes z → bytes info → (length z + length info ≤ 65)%nat →
  ogs_kdf_kausf ck ik name autn = Some (KDF (ck ++ ik) 0x6A [name; take 6 autn]) ∧
  ogs_kdf_xres_star ck ik name rand xres = Some (drop 16 (KDF (ck ++ ik) 0x6B [name; rand; xres])) ∧
  ogs_kdf_hxres_star rand res_star = drop 16 (Fips180.hash SHA_256 (rand ++ res_star)) ∧
  ogs_kdf_kseaf name kausf = Some (KDF kausf 0x6C [name]) ∧
  ogs_kdf_kamf (type ++ 45 :: value) abba kausf = Some (KDF kausf 0x6D [value; abba]) ∧
  ogs_kdf_nas_5gs alg id kamf = Some (drop 16 (KDF kamf 0x69 [[alg]; [id]])) ∧
  ogs_kdf_kgnb_and_kn3iwf kamf count id = Some (KDF kamf 0x6E [be_bytes 4 count; [id]]) ∧
  ogs_kdf_nh_gnb kamf sync = Some (KDF kamf 0x6F [sync]) ∧
  (∃ ek icb mk, ogs_kdf_ansi_x963 z info = Some (ek, icb, mk) ∧ length ek = 16%nat ∧ length icb = 16%nat ∧
    ek ++ icb ++ mk = Fips180.hash SHA_256 (z ++ be_bytes 4 1 ++ info) ++ Fips180.hash SHA_256 (z ++ be_bytes 4 2 ++ info)).
Proof.
  intros Hck Hik Hname Hautn Hrand Hxres Hres Hkausf Ht Hv Hval Habba Hkamf Hsync Ha Hi Hz Hinfo Hzl.
  destruct (octets_ck_ik ck ik Hck Hik) as [Eck Hckik]. destruct (octets_count count) as [Hb _].
  destruct (name_octets name Hname) as (Hno & Hnn & Hnl). destruct (name_octets xres Hxres) as (Hxo & Hxn & Hxl).
  destruct (name_octets value Hval) as (Hvo & Hvn & Hvl). destruct (name_octets abba Habba) as (Hao & Han & Hal).
  assert (Hb' : le_bytes 4 (bswap 4 count) = be_bytes 4 count) by apply le_bytes_bswap.
  pose proof (octets_prefix _ 6 _ Hautn ltac:(lia)) as H6.
  unfold ogs_kdf_kausf, ogs_kdf_xres_star, ogs_kdf_hxres_star, ogs_kdf_kseaf, ogs_kdf_kamf, ogs_kdf_nas_5gs,
    ogs_kdf_kgnb_and_kn3iwf, ogs_kdf_nh_gnb, OGS_SHA256_DIGEST_SIZE, OGS_KEY_LEN.
  rewrite !Eck, !id_value, !(octets_take _ kausf), !(octets_take _ kamf), !(octets_take _ rand), !(octets_take _ res_star), Hb' by done.
  rewrite !option_guard_True by lia. unfold zlen. split_and!.
  - by derive 32%nat [(name, length name); (autn, 6%nat)].
  - derive 32%nat [(name, length name); (rand, 16%nat); (xres, length xres)]. cbn [mbind option_bind]. by rewrite kdf_halves.
  - unfold ogs_sha256. destruct Hrand as [Hrb Hrl], Hres as [Hsb Hsl].
    change SHA256 with (code_of SHA_256). rewrite sha_hash.
    + apply take_ge. rewrite length_drop, (proj1 (hash_size SHA_256 _)). cbn. lia.
    + by apply Forall_app_2.
    + unfold zlen. rewrite length_app, Hrl, Hsl. done.
  - by derive 32%nat [(name, length name)].
  - cbn [mbind option_bind]. by derive 32%nat [(value, length value); (abba, length abba)].
  - derive 32%nat [([alg], 1%nat); ([id], 1%nat)]. cbn [mbind option_bind]. by rewrite kdf_halves.
  - by derive 32%nat [(be_bytes 4 count, 4%nat); ([id], 1%nat)].
  - by derive 32%nat [(sync, 32%nat)].
  - assert (Hx : ∀ k, ogs_sha256 (z ++ be_bytes 4 k ++ info) = Fips180.hash SHA_256 (z ++ be_bytes 4 k ++ info)).
    { intros k. apply (sha_hash SHA_256); [repeat apply Forall_app_2; [done|apply be_bytes_bytes|done]|].
      unfold zlen. rewrite !length_app, be_bytes_length. lia. }
    unfold ogs_kdf_ansi_x963. rewrite (proj2 (Nat.ltb_ge _ _)) by lia. rewrite !le_bytes_bswap, !Hx.
    destruct (hash_size SHA_256 (z ++ be_bytes 4 1 ++ info)) as [Hl _]. change (digest_size _) with 32%nat in Hl.
    do 3 eexists. split; [reflexivity|]. unfold OGS_KEY_LEN. rewrite !length_take, length_drop, Hl. split; [done|]. split; [done|].
    rewrite app_assoc. f_equal. rewrite (take_ge (drop _ _)) by (rewrite length_drop; lia). apply take_drop.
Qed.

(** The derivation function is that of TS 33.220 for up to 16 parameters of
    1 to 65535 octets, and it keeps uses apart: two calls, by any of the
    derivations and with any parameters, hash the same string only if they have
    the same function code, the same number of parameters and the same
    parameters, although nothing marks where a parameter begins. *)
Theorem ogs_kdf_common_separates key fc ps :
  key_ok key → 0 < fc < 256 → params_ok ps →
  ogs_kdf_common key fc (map (λ p, param_of p (zlen p)) ps) = Some (Fips180.hmac SHA_256 key (kdf_string fc ps)) ∧
  ∀ fc' ps', params_ok ps' → kdf_string fc ps = kdf_string fc' ps' → fc = fc' ∧ ps = ps'.
Proof.
  intros Hk Hfc Hps. rewrite kdf_common by done. unfold KDF. rewrite <- kdf_string_concat. split; [done|].
  intros fc' ps' [Hps' _]. destruct Hps as [Hps _]. by apply kdf_string_inj.
Qed.
Example ogs_kdf_common_separates_witness :
  ogs_kdf_common [7] 0x6C [param_of [53; 71] 2] = Some (Fips180.hmac SHA_256 [7] (kdf_string 0x6C [[53; 71]])) ∧
  ∀ fc' ps', params_ok ps' → kdf_string 0x6C [[53; 71]] = kdf_string fc' ps' → 0x6C = fc' ∧ [[53; 71]] = ps'.
Proof.
  apply (ogs_kdf_common_separates [7] 0x6C [[53; 71]]).
  - split; [by apply bytes_by_check|]. done.
  - done.
  - split; [|split; [done|by apply Nat.leb_le]]. constructor; [|constructor]. split; [by apply bytes_by_check|]. done.
Defined.

Example eps_keys_are_ts33401_witness :
  ogs_kdf_kenb (replicate 32 9) 5 = Some (KDF (replicate 32 9) 0x11 [be_bytes 4 5]).
Proof.
  edestruct (eps_keys_are_ts33401 (replicate 16 1) (replicate 16 2) [0; 241; 16] (replicate 6 3) (replicate 6 4) (replicate 32 9) 5 1 2
    (replicate 32 8) [1] 0 0) as (_ & H & _); [..|exact H]; try done; try (by apply bytes_by_check);
    (split; [by apply bytes_by_check|done]).
Defined.
Example keys_5gs_are_ts33501_witness :
  ogs_kdf_kseaf [53] (replicate 32 9) = Some (KDF (replicate 32 9) 0x6C [[53]]).
Proof.
  edestruct (keys_5gs_are_ts33501 (replicate 16 1) (replicate 16 2) [53] (replicate 16 3) (replicate 16 4) [6] (replicate 16 5)
    (replicate 32 9) [105] [57; 57] [0; 0] (replicate 32 7) 5 1 2 (replicate 32 8) [1] [2]) as (_ & _ & _ & H & _); [..|exact H];
    try done; try (by apply bool_decide_unpack); try (by apply bytes_by_check); try (split; [by apply bytes_by_check|done]); try (by apply Nat.leb_le); set_solver.
Defined.
