(* ===== verification/Pkbuf.v ===== *)
(** * Packet buffers (lib/core/ogs-pkbuf.h, lib/core/ogs-pkbuf.c)

    A buffer is a piece of memory from [head] to [end] with a window from
    [data] to [tail] in it.  It is kept here as the three parts of the memory;
    the counts [len], headroom and tailroom are their lengths.  A function
    returns [None] when an assertion of the code fails, which aborts. *)
From S2P Require Import Prelude XactBase Octets.
#[local] Open Scope Z_scope.

Record pkbuf := Pkbuf { pk_before : list Z; pk_data : list Z; pk_after : list Z }.
(** The memory from [head] to [end], and its window of [n] bytes at [b]. *)
Definition pk_memory (p : pkbuf) : list Z := pk_before p ++ pk_data p ++ pk_after p.
Definition pk_window (b n : nat) (m : list Z) : pkbuf := Pkbuf (take b m) (take n (drop b m)) (drop (b + n) m).

Definition ogs_pkbuf_tailroom (p : pkbuf) : nat := length (pk_after p).
Definition ogs_pkbuf_headroom (p : pkbuf) : nat := length (pk_before p).

(** [size] bytes that are cleared, as with talloc. *)
Definition ogs_pkbuf_alloc (size : nat) : pkbuf := Pkbuf [] [] (replicate size 0).
Definition ogs_pkbuf_copy (p : pkbuf) : option pkbuf :=
  if (length (pk_memory p) =? 0)%nat then None
  else Some (pk_window (length (pk_before p)) (length (pk_data p)) (pk_memory p)).
Definition ogs_pkbuf_reserve (len : nat) (p : pkbuf) : pkbuf :=
  pk_window (length (pk_before p) + len) (length (pk_data p)) (pk_memory p).

Definition ogs_pkbuf_put_data (d : list Z) (p : pkbuf) : option pkbuf :=
  if (ogs_pkbuf_tailroom p <? length d)%nat then None
  else Some (Pkbuf (pk_before p) (pk_data p ++ d) (drop (length d) (pk_after p))).
Definition ogs_pkbuf_put_u8 (val : Z) : pkbuf → option pkbuf := ogs_pkbuf_put_data [u8 val].
Definition ogs_pkbuf_put_u16 (val : Z) : pkbuf → option pkbuf := ogs_pkbuf_put_data (le_bytes 2 (bswap 2 val)).
Definition ogs_pkbuf_put_u32 (val : Z) : pkbuf → option pkbuf := ogs_pkbuf_put_data (le_bytes 4 (bswap 4 val)).

Definition ogs_pkbuf_push (len : nat) (p : pkbuf) : option pkbuf :=
  let room := ogs_pkbuf_headroom p in
  if (room <? len)%nat then None
  else Some (Pkbuf (take (room - len) (pk_before p)) (drop (room - len) (pk_before p) ++ pk_data p) (pk_after p)).
(** [None] is here the null pointer that the function returns. *)
Definition ogs_pkbuf_pull (len : nat) (p : pkbuf) : option pkbuf :=
  if (length (pk_data p) <? len)%nat then None
  else Some (Pkbuf (pk_before p ++ take len (pk_data p)) (drop len (pk_data p)) (pk_after p)).
Definition ogs_pkbuf_trim (len : nat) (p : pkbuf) : ogs_rv * pkbuf :=
  if (length (pk_data p) <? len)%nat then (OGS_ERROR, p)
  else (OGS_OK, Pkbuf (pk_before p) (take len (pk_data p)) (drop len (pk_data p) ++ pk_after p)).

(** Writing through the pointers that the functions return: the first bytes of
    the window, and the bytes just before it. *)
Definition pk_write (d : list Z) (p : pkbuf) : pkbuf :=
  Pkbuf (pk_before p) (d ++ drop (length d) (pk_data p)) (pk_after p).
Definition pk_write_before (d : list Z) (p : pkbuf) : pkbuf :=
  Pkbuf (take (length (pk_before p) - length d) (pk_before p) ++ d) (pk_data p) (pk_after p).

(** ** Lemmas *)

Section lemmas.
Implicit Types (p : pkbuf).

Lemma pk_window_memory p : pk_window (length (pk_before p)) (length (pk_data p)) (pk_memory p) = p.
Proof.
  destruct p as [b d a]. unfold pk_window, pk_memory. cbn.
  rewrite take_app_length, drop_app_length, take_app_length. f_equal.
  by rewrite <- drop_drop, !drop_app_length.
Qed.
Lemma push_eq b c d a n : length c = n → ogs_pkbuf_push n (Pkbuf (b ++ c) d a) = Some (Pkbuf b (c ++ d) a).
Proof.
  intros Hc. unfold ogs_pkbuf_push, ogs_pkbuf_headroom. cbn [pk_before pk_data pk_after]. rewrite length_app, Hc.
  destruct (Nat.ltb_spec (length b + n) n); [lia|]. rewrite Nat.add_sub. rewrite take_app_length, drop_app_length. done.
Qed.
Lemma pull_eq b c d a n : length c = n → ogs_pkbuf_pull n (Pkbuf b (c ++ d) a) = Some (Pkbuf (b ++ c) d a).
Proof.
  intros Hc. unfold ogs_pkbuf_pull. cbn [pk_before pk_data pk_after]. rewrite length_app, Hc.
  destruct (Nat.ltb_spec (n + length d) n); [lia|]. rewrite <- Hc. by rewrite take_app_length, drop_app_length.
Qed.
Lemma write_before_eq b c d a e : length e = length c →
  pk_write_before e (Pkbuf (b ++ c) d a) = Pkbuf (b ++ e) d a.
Proof.
  intros He. unfold pk_write_before. cbn. rewrite length_app, He, Nat.add_sub. by rewrite take_app_length.
Qed.
(** The part of the headroom that a push uncovers. *)
Lemma headroom_split p n : (n ≤ ogs_pkbuf_headroom p)%nat → ∃ b c, pk_before p = b ++ c ∧ length c = n ∧
  length b = (ogs_pkbuf_headroom p - n)%nat.
Proof.
  unfold ogs_pkbuf_headroom. intros Hn. exists (take (length (pk_before p) - n) (pk_before p)), (drop (length (pk_before p) - n) (pk_before p)).
  rewrite take_drop, length_take, length_drop. split_and!; [done|lia..].
Qed.
End lemmas.
