(* ===== verification/NasSecurity.v ===== *)
(** * Security of NAS messages (lib/nas/common/security.c, src/mme/nas-security.c,
      src/amf/nas-security.c, tests/common/nas-security.c)

    Ciphering and integrity of a message in a packet buffer, and the functions
    that protect a message and that check and uncover a received one.  A
    function returns [None] when it aborts, or when it would use a code that
    was not computed.  The registers of ZUC are those of a first run; what an
    earlier run leaves in them makes no difference ([zuc_is_specification]). *)
From S2P Require Import Prelude XactBase Octets Words AesModes Zuc Snow Pkbuf.
#[local] Open Scope Z_scope.
#[local] Open Scope c_scope.

Definition OGS_NAS_HEADROOM : nat := 16.
Definition OGS_NAS_SECURITY_UPLINK_DIRECTION : Z := 0.
Definition OGS_NAS_SECURITY_DOWNLINK_DIRECTION : Z := 1.

(** ** lib/nas/common/security.c *)

(** The assertions on the arguments that both functions make. *)
Definition args_ok (bearer direction : Z) (p : pkbuf) : bool :=
  (bearer <=? 0x1f) && ((direction =? 0) || (direction =? 1)) && negb (length (pk_data p) =? 0)%nat.
(** [pkbuf->len << 3]. *)
Definition len_bits (p : pkbuf) : Z := shl32 (zlen (pk_data p)) 3.
(** The first bytes of the vector of EEA2 and EIA2. *)
Definition count_iv (count bearer direction : Z) : list Z :=
  le_bytes 4 (bswap 4 count) ++ [u8 ((bearer << 3) .| (direction << 2))].

(** The code, or [None] when nothing is written to it, and the buffer. *)
Definition ogs_nas_mac_calculate (algorithm_identity : Z) (knas_int : list Z) (count bearer direction : Z) (p : pkbuf) :
    option (option (list Z) * pkbuf) :=
  if negb (args_ok bearer direction p) then None
  else
    match algorithm_identity with
    | 1 => Some (Some (Snow3g.snow_3g_f9 knas_int count (shl32 bearer 27) direction (pk_data p) (len_bits p)), p)
    | 2 =>
        match ogs_pkbuf_push 8 p with
        | None => None
        | Some p =>
            let p := pk_write (count_iv count bearer direction ++ [0; 0; 0]) p in
            let cmac := ogs_aes_cmac_calculate knas_int (pk_data p) in
            match ogs_pkbuf_pull 8 p with
            | None => None
            | Some p => Some (Some (take 4 cmac), p)
            end
        end
    | 3 =>
        let '(mac32, _) := Zuc.zuc_eia3 knas_int count bearer direction (len_bits p) (pk_data p) Zuc.zuc_registers in
        Some (Some (le_bytes 4 (bswap 4 mac32)), p)
    | 0 => Some (None, p)
    | _ => None
    end.

Definition ogs_nas_encrypt (algorithm_identity : Z) (knas_enc : list Z) (count bearer direction : Z) (p : pkbuf) : option pkbuf :=
  if negb (args_ok bearer direction p) then None
  else
    let set d := Pkbuf (pk_before p) d (pk_after p) in
    match algorithm_identity with
    | 1 =>
        let ctx := SnowCore.SNOW_init count bearer direction knas_enc in
        Some (set (fst (SnowCore.SNOW (length (pk_data p)) (pk_data p) ctx)))
    | 2 =>
        match ogs_aes_ctr128_encrypt knas_enc (count_iv count bearer direction ++ replicate 11 0) (pk_data p) with
        | Some (_, _, out) => Some (set out)
        | None => None
        end
    | 3 =>
        Some (set (fst (Zuc.zuc_eea3 knas_enc count bearer direction (len_bits p) (pk_data p) (pk_data p) Zuc.zuc_registers)))
    | 0 => Some p
    | _ => None
    end.

(** ** Contexts *)

(** The bits of a security header type. *)
Record sec_type := SecType { integrity_protected : bool; ciphered : bool; new_security_context : bool; service_request : bool }.
Definition plain_type : sec_type := SecType false false false false.

(** What [mme_ue_t] and [amf_ue_t] keep of the context; [ul_count] is the
    32-bit member of the union. *)
Record nas_ue := NasUe {
  selected_enc_algorithm : Z; selected_int_algorithm : Z;
  knas_enc : list Z; knas_int : list Z;
  dl_count : Z; ul_count : Z; ul_count_accepted : bool;
  security_context_available : bool; mac_failed : bool
}.
(** [ul_count.sqn]. *)
Definition count_sqn (count : Z) : Z := count .& 0xff.

Definition reset_counts (u : nas_ue) : nas_ue :=
  NasUe (selected_enc_algorithm u) (selected_int_algorithm u) (knas_enc u) (knas_int u) 0 0 false
    (security_context_available u) (mac_failed u).
Definition set_mac_failed (u : nas_ue) : nas_ue :=
  NasUe (selected_enc_algorithm u) (selected_int_algorithm u) (knas_enc u) (knas_int u) (dl_count u) (ul_count u)
    (ul_count_accepted u) (security_context_available u) true.
Definition set_ul_count (count : Z) (accepted : bool) (u : nas_ue) : nas_ue :=
  NasUe (selected_enc_algorithm u) (selected_int_algorithm u) (knas_enc u) (knas_int u) (dl_count u) count
    accepted (security_context_available u) (mac_failed u).
Definition next_dl_count (u : nas_ue) : nas_ue :=
  NasUe (selected_enc_algorithm u) (selected_int_algorithm u) (knas_enc u) (knas_int u)
    (u32 (dl_count u + 1) .& 0xffffff) (ul_count u) (ul_count_accepted u) true (mac_failed u).

(** ** Protecting a message *)

(** What the switch over the security header type selects, but for a plain
    message: [integrity_protected], [ciphered] and [new_security_context]. *)
Definition encode_type (security_header_type : Z) : option sec_type :=
  match security_header_type with
  | 1 => Some (SecType true false false false)
  | 2 => Some (SecType true true false false)
  | 3 => Some (SecType true false true false)
  | 4 => Some (SecType true true true false)
  | _ => None
  end.

(** From the encoded message to the protected one: ciphering, the sequence
    number, the code and the header, of which [front] is what comes before the
    code.  [enc] and [int] are the algorithms, 0 when there is none. *)
Definition protect (front : list Z) (enc int : Z) (kenc kint : list Z) (count bearer direction : Z) (t : sec_type) (p : pkbuf) :
    option pkbuf :=
  let ciph := ciphered t && negb (enc =? 0) in
  let integ := integrity_protected t && negb (int =? 0) in
  let sequence_number := count .& 0xff in
  match (if ciph then ogs_nas_encrypt enc kenc count bearer direction p else Some p) with
  | None => None
  | Some p =>
      match ogs_pkbuf_push 1 p with
      | None => None
      | Some p =>
          let p := pk_write [sequence_number] p in
          match (if integ then ogs_nas_mac_calculate int kint count bearer direction p else Some (Some [0; 0; 0; 0], p)) with
          | Some (Some mac, p) =>
              match ogs_pkbuf_push (length front + 4) p with
              | None => None
              | Some p => Some (pk_write (front ++ mac ++ [sequence_number]) p)
              end
          | _ => None
          end
      end
  end.

(** The header of EPS has the type and the protocol discriminator in one byte,
    that of 5GS in two. *)
Definition eps_front (security_header_type protocol_discriminator : Z) : list Z :=
  [((security_header_type .& 0xf) << 4) .| (protocol_discriminator .& 0xf)].
Definition nas_5gs_front (security_header_type extended_protocol_discriminator : Z) : list Z :=
  [u8 extended_protocol_discriminator; u8 security_header_type].

(** What both functions of the network do; [plain] is the result of encoding
    the message.  The result is the context and the new buffer or null. *)
Definition security_encode (front : list Z) (bearer : Z) (u : nas_ue) (security_header_type : Z) (plain : option pkbuf) :
    option (nas_ue * option pkbuf) :=
  if security_header_type =? 0 then Some (u, plain)
  else
    match encode_type security_header_type with
    | None => Some (u, None)
    | Some t =>
        let u := if new_security_context t then reset_counts u else u in
        match plain with
        | None => Some (u, None)
        | Some p =>
            match protect front (selected_enc_algorithm u) (selected_int_algorithm u) (knas_enc u) (knas_int u)
                    (dl_count u) bearer OGS_NAS_SECURITY_DOWNLINK_DIRECTION t p with
            | None => None
            | Some new => Some (next_dl_count u, Some new)
            end
        end
    end.
Definition NAS_SECURITY_BEARER : Z := 0.
Definition nas_eps_security_encode (u : nas_ue) (sht pd : Z) (plain : option pkbuf) : option (nas_ue * option pkbuf) :=
  security_encode (eps_front sht pd) NAS_SECURITY_BEARER u sht plain.
Definition nas_5gs_security_encode (u : nas_ue) (access_type sht epd : Z) (plain : option pkbuf) : option (nas_ue * option pkbuf) :=
  security_encode (nas_5gs_front sht epd) access_type u sht plain.

(** ** Checking and uncovering a message *)

(** The estimate of the count from the last one and the sequence number. *)
Definition estimate (count sequence_number : Z) : Z :=
  let est := count .& 0x00ffff00 in
  let est := if sequence_number <? count_sqn count then u32 (est + 0x100) .& 0x00ffff00 else est in
  est .| sequence_number.

(** The part after the choice of the header type: [hdr] bytes of header are
    before the window. *)
Definition decode_protected (hdr : nat) (bearer : Z) (u : nas_ue) (t : sec_type) (p : pkbuf) : option (ogs_rv * nas_ue * pkbuf) :=
  match ogs_pkbuf_push hdr p with
  | None => None
  | Some p =>
      let h := pk_data p in
      match ogs_pkbuf_pull (hdr - 1) p with
      | None => None
      | Some p =>
          let est := estimate (ul_count u) (nth (hdr - 1) h 0) in
          let checked :=
            if integrity_protected t then
              let original_mac := take 4 (drop (hdr - 5) h) in
              match ogs_nas_mac_calculate (selected_int_algorithm u) (knas_int u) est bearer OGS_NAS_SECURITY_UPLINK_DIRECTION p with
              | Some (Some mac, p) =>
                  let p := pk_write_before original_mac p in
                  if negb (bool_decide (original_mac = mac)) then Some (OGS_OK, set_mac_failed u, p)
                  else if ul_count_accepted u && (est <=? ul_count u) then Some (OGS_ERROR, u, p)
                  else Some (OGS_OK, set_ul_count est true u, p)
              | _ => None
              end
            else Some (OGS_OK, set_ul_count est (ul_count_accepted u) u, p) in
          match checked with
          | Some (OGS_OK, u, p) =>
              match ogs_pkbuf_pull 1 p with
              | None => None
              | Some p =>
                  if ciphered t then
                    if (length (pk_data p) =? 0)%nat then Some (OGS_ERROR, u, p)
                    else
                      match ogs_nas_encrypt (selected_enc_algorithm u) (knas_enc u) est bearer OGS_NAS_SECURITY_UPLINK_DIRECTION p with
                      | None => None
                      | Some p => Some (OGS_OK, u, p)
                      end
                  else Some (OGS_OK, u, p)
              end
          | r => r
          end
      end
  end.

(** The bits of the type that count, given the context. *)
Definition effective_type (u : nas_ue) (t : sec_type) : sec_type :=
  let t := if security_context_available u then t else SecType false false false (service_request t) in
  SecType (integrity_protected t && negb (selected_int_algorithm u =? 0)) (ciphered t && negb (selected_enc_algorithm u =? 0))
    (new_security_context t) (service_request t).
Definition security_decode (hdr : nat) (bearer : Z) (u : nas_ue) (t : sec_type) (p : pkbuf) : option (ogs_rv * nas_ue * pkbuf) :=
  let t := effective_type u t in
  if ciphered t || integrity_protected t then decode_protected hdr bearer u t p
  else Some (OGS_OK, u, p).

(** A service request has five bits of the sequence number and half a code;
    the code is read from the memory after the first two bytes, whether or not
    they belong to the message. *)
Definition service_sqn (count sequence_number : Z) : Z :=
  let high := count_sqn count .& 0xe0 in
  let high := if sequence_number <? count_sqn count .& 0x1f then u8 (high + 0x20) else high in
  u8 (sequence_number + high).
Definition decode_service_request (u : nas_ue) (p : pkbuf) : option (ogs_rv * nas_ue * pkbuf) :=
  if selected_int_algorithm u =? 0 then Some (OGS_ERROR, u, p)
  else
    let m := pk_data p ++ pk_after p in
    let sequence_number := nth 1 m 0 .& 0x1f in
    let est := estimate (ul_count u) (service_sqn (ul_count u) sequence_number) in
    let original_mac := [nth 2 m 0; nth 3 m 0] in
    let '(_, p) := ogs_pkbuf_trim 2 p in
    match ogs_nas_mac_calculate (selected_int_algorithm u) (knas_int u) est NAS_SECURITY_BEARER OGS_NAS_SECURITY_UPLINK_DIRECTION p with
    | Some (Some mac, p) =>
        match ogs_pkbuf_put_data original_mac p with
        | None => None
        | Some p =>
            if negb (bool_decide (drop 2 mac = take 2 (drop 2 (pk_data p)))) then Some (OGS_OK, set_mac_failed u, p)
            else if ul_count_accepted u && (est <=? ul_count u) then Some (OGS_ERROR, u, p)
            else Some (OGS_OK, set_ul_count est true u, p)
        end
    | _ => None
    end.

Definition nas_eps_security_decode (u : nas_ue) (t : sec_type) (p : pkbuf) : option (ogs_rv * nas_ue * pkbuf) :=
  if service_request t then decode_service_request u p else security_decode 6 NAS_SECURITY_BEARER u t p.
Definition nas_5gs_security_decode (access_type : Z) (u : nas_ue) (t : sec_type) (p : pkbuf) : option (ogs_rv * nas_ue * pkbuf) :=
  security_decode 7 access_type u t p.

(** ** The start of [s1ap_send_to_nas] (src/mme/s1ap-path.c) *)

(** The bits for a type of header; [None] for a type that is not known. *)
Definition received_type (security_header_type : Z) : option sec_type :=
  if security_header_type =? 0 then Some plain_type
  else if security_header_type =? 12 then Some (SecType false false false true)
  else encode_type security_header_type.

Inductive nas_received :=
  | NAS_REJECTED                            (* OGS_ERROR before anything is decoded *)
  | NAS_DECODED (r : option (ogs_rv * nas_ue * pkbuf)).

(** From the octets of the message to the result of decoding them, for a UE
    that has a context. *)
Definition s1ap_receive_nas (u : nas_ue) (pdu : list Z) : nas_received :=
  if (length pdu <? 2)%nat then NAS_REJECTED
  else
    match ogs_pkbuf_put_data pdu (ogs_pkbuf_reserve OGS_NAS_HEADROOM (ogs_pkbuf_alloc (OGS_NAS_HEADROOM + length pdu))) with
    | None => NAS_DECODED None
    | Some p =>
        match received_type (nth 0 pdu 0 >> 4) with
        | None => NAS_REJECTED
        | Some t =>
            match (if integrity_protected t then ogs_pkbuf_pull 6 p else Some p) with
            | None => NAS_REJECTED
            | Some p =>
                if (length (pk_data p) <? 2)%nat then NAS_REJECTED
                else NAS_DECODED (nas_eps_security_decode u t p)
            end
        end
    end.

(** ** The other side (tests/common/nas-security.c) *)

(** The uplink of the test UE, of which [ul] is the count. *)
Definition test_nas_security_encode (front : list Z) (bearer : Z) (u : nas_ue) (ul : Z) (sht : Z) (plain : option pkbuf) :
    option (Z * option pkbuf) :=
  if sht =? 0 then Some (ul, plain)
  else
    match encode_type sht with
    | None => Some (ul, None)
    | Some t =>
        let ul := if new_security_context t then 0 else ul in
        match plain with
        | None => Some (ul, None)
        | Some p =>
            match protect front (selected_enc_algorithm u) (selected_int_algorithm u) (knas_enc u) (knas_int u)
                    ul bearer OGS_NAS_SECURITY_UPLINK_DIRECTION t p with
            | None => None
            | Some new => Some (u32 (ul + 1) .& 0xffffff, Some new)
            end
        end
    end.
