(* ===== verification/NasSecuritySpec.v ===== *)
(** * What the security of NAS messages guarantees

    Ciphering is its own inverse with every algorithm; a message that one side
    protects is uncovered by the other while their counts are close; and a
    message is accepted only at a count that is greater than those of all
    messages accepted before. *)
From S2P Require Import Prelude XactBase Octets Words Aes AesRef AesRounds AesSpec AesModes AesModesSpec Zuc ZucSpec EeaSpec.
From S2P Require Import Snow SnowSpec Pkbuf NasSecurity.
#[local] Open Scope Z_scope.
#[local] Open Scope c_scope.
#[local] Ltac Zify.zify_post_hook ::= Z.to_euclidean_division_equations.

(** ** Ciphering *)

(** A key of the NAS algorithms, a count and the other parameters. *)
Definition nas_key (key : list Z) : Prop := length key = 16%nat ∧ bytes key.
Definition nas_params (count bearer direction : Z) : Prop := is_word count ∧ 0 ≤ bearer ≤ 0x1f ∧ (direction = 0 ∨ direction = 1).
(** A message that the functions take. *)
Definition nas_message (d : list Z) : Prop := (0 < length d)%nat ∧ bytes d ∧ zlen d < 2 ^ 28.

Lemma nas_key_ok key : nas_key key → key_ok 4 key.
Proof. intros [Hl Hb]. split; [by left|done]. Qed.
Lemma args_are_ok count bearer direction p : nas_params count bearer direction → nas_message (pk_data p) →
  args_ok bearer direction p = true.
Proof.
  intros (_ & Hb & Hd) (Hl & _). unfold args_ok. rewrite !andb_true_iff, orb_true_iff, negb_true_iff.
  rewrite !Z.eqb_eq, Z.leb_le, Nat.eqb_neq. lia.
Qed.
Lemma len_bits_ok p : nas_message (pk_data p) → len_bits p = 8 * zlen (pk_data p).
Proof.
  intros (_ & _ & Hl). unfold len_bits, shl32, u32, zlen in *. rewrite Z.shiftl_mul_pow2, Z.mod_small by lia. lia.
Qed.
Lemma count_iv_ok count bearer direction : nas_params count bearer direction →
  length (count_iv count bearer direction) = 5%nat ∧ bytes (count_iv count bearer direction).
Proof.
  intros _. unfold count_iv. assert (bytes (le_bytes 4 (bswap 4 count))) by apply le_bytes_bytes.
  split; [by rewrite length_app, le_bytes_length|]. apply Forall_app. split; [done|]. apply Forall_singleton, u8_byte.
Qed.

(** The key stream for [n] bytes. *)
Definition nas_stream (alg : Z) (key : list Z) (count bearer direction : Z) (n : nat) : list Z :=
  if alg =? 1 then bytes_of (Snow3g.snow_3g_generate_key_stream (words_for n) (SnowCore.SNOW_init count bearer direction key)).1
  else if alg =? 2 then
    ctr_stream 4 key (be_value (count_iv count bearer direction ++ replicate 11 0)) ((n + 15) / 16)
  else eea3_stream key count bearer direction (8 * Z.of_nat n).

Lemma ctr_stream_bytes key ctr n : key_ok 4 key → bytes (ctr_stream 4 key ctr n).
Proof.
  intros Hk. revert ctr. induction n as [|n IH]; intros ctr; [constructor|]. rewrite ctr_stream_S.
  apply Forall_app. split; [|apply IH]. by destruct (aes_encrypt_block 4 key _ Hk (be_bytes_block ctr)).
Qed.
Lemma nas_stream_ok alg key count bearer direction n : nas_key key → nas_params count bearer direction →
  1 ≤ alg ≤ 3 → (n ≤ length (nas_stream alg key count bearer direction n))%nat ∧ bytes (nas_stream alg key count bearer direction n).
Proof.
  intros Hk Hp Ha. unfold nas_stream. destruct (Z.eqb_spec alg 1).
  { rewrite bytes_of_length, generate_length. split; [unfold words_for; lia|apply bytes_of_bytes]. }
  destruct (Z.eqb_spec alg 2).
  { rewrite ctr_stream_length by by apply nas_key_ok. split; [lia|]. by apply ctr_stream_bytes, nas_key_ok. }
  unfold eea3_stream. rewrite bytes_of_length. destruct Hk as [Hl Hb]. destruct (eea3_iv_ok count bearer direction).
  rewrite <- (zuc_keystream _ _ _ Zuc.zuc_registers), ZUC_length by done. split; [lia|apply bytes_of_bytes].
Qed.

Lemma keep_all_bits l : bytes l → keep_bits (8 * Z.of_nat (length l)) l = l.
Proof.
  intros Hl. unfold keep_bits. rewrite Z.sub_diag, Z.div_1_r, Z.mul_1_r. by apply be_bytes_value.
Qed.
Lemma ogs_nas_encrypt_ok alg key count bearer direction p : nas_key key → nas_params count bearer direction →
  nas_message (pk_data p) → 1 ≤ alg ≤ 3 →
  ogs_nas_encrypt alg key count bearer direction p =
  Some (Pkbuf (pk_before p) (xor_bytes (pk_data p) (nas_stream alg key count bearer direction (length (pk_data p)))) (pk_after p)).
Proof.
  intros Hk Hp Hm Ha. unfold ogs_nas_encrypt. rewrite (args_are_ok count) by done. cbn [negb].
  pose proof (count_iv_ok count bearer direction Hp) as [Liv Biv]. pose proof Hk as [Hl Hb]. pose proof Hp as (Hc & _).
  pose proof Hm as (Hd & Bd & Hmax). assert (alg = 1 ∨ alg = 2 ∨ alg = 3) as [-> | [-> | ->]] by lia.
  - cbv zeta. destruct (SNOW_init_ok count bearer direction key Hl Hb Hc) as [_ R].
    rewrite SNOW_ok by (done || lia). by rewrite take_ge by lia.
  - cbv zeta. rewrite ogs_aes_ctr128_stream; [done|by apply nas_key_ok| |lia].
    split; [rewrite length_app, Liv; done|]. apply Forall_app. split; [done|by apply Forall_replicate].
  - cbv zeta. rewrite len_bits_ok by done.
    pose proof (zuc_eea3_eq key count bearer direction (8 * zlen (pk_data p)) Hl Hb ltac:(unfold zlen in *; lia)
      (pk_data p) (pk_data p) Zuc.zuc_registers Bd) as E.
    assert (Eo : octets (8 * zlen (pk_data p)) = length (pk_data p)) by (unfold octets, zlen; lia). rewrite Eo in E.
    rewrite E, drop_all, app_nil_r, take_ge by lia. do 2 f_equal.
    set (x := xor_bytes _ _). assert (Lx : length x = length (pk_data p)).
    { unfold x. rewrite xor_bytes_length. destruct (nas_stream_ok 3 key count bearer direction (length (pk_data p)) Hk Hp Ha) as [H3 _].
      unfold nas_stream in H3. cbn [Z.eqb] in H3. change (eea3_stream key count bearer direction (8 * zlen (pk_data p)))
        with (eea3_stream key count bearer direction (8 * Z.of_nat (length (pk_data p)))). cbn in H3. lia. }
    unfold zlen. rewrite <- Lx. unfold nas_stream. cbn [Z.eqb]. rewrite keep_all_bits; [done|].
    apply xor_bytes_bytes; [done|apply bytes_of_bytes].
Qed.

(** Ciphering a message twice with the same algorithm, key, count, bearer
    and direction gives the message back, and changes nothing else. *)
Theorem nas_encrypt_involution alg key count bearer direction p :
  nas_key key → nas_params count bearer direction → nas_message (pk_data p) → 0 ≤ alg ≤ 3 →
  ∃ p', ogs_nas_encrypt alg key count bearer direction p = Some p' ∧
    pk_before p' = pk_before p ∧ pk_after p' = pk_after p ∧ nas_message (pk_data p') ∧
    ogs_nas_encrypt alg key count bearer direction p' = Some p.
Proof.
  intros Hk Hp Hm Ha. destruct (Z.eq_dec alg 0) as [->|Hne].
  { exists p. unfold ogs_nas_encrypt. rewrite (args_are_ok count) by done. done. }
  rewrite ogs_nas_encrypt_ok by (done || lia). eexists. split; [done|].
  destruct (nas_stream_ok alg key count bearer direction (length (pk_data p)) Hk Hp ltac:(lia)) as [Ls Bs].
  set (ks := nas_stream _ _ _ _ _ _) in *. destruct Hm as (Hl & Hb & Hmax).
  assert (Lx : length (xor_bytes (pk_data p) ks) = length (pk_data p)) by (rewrite xor_bytes_length; lia).
  assert (Hm' : nas_message (xor_bytes (pk_data p) ks)).
  { split; [lia|]. split; [by apply xor_bytes_bytes|]. unfold zlen in *. by rewrite Lx. }
  split; [done|]. split; [done|]. split; [done|].
  rewrite ogs_nas_encrypt_ok by (done || lia). cbn [pk_before pk_data pk_after]. rewrite Lx. fold ks.
  rewrite xor_bytes_twice by done. by destruct p.
Qed.

Lemma nas_encrypt_involution_witness :
  ∃ p', ogs_nas_encrypt 2 (be_bytes 16 1) 7 0 1 (Pkbuf [] [1; 2; 3] []) = Some p' ∧
    ogs_nas_encrypt 2 (be_bytes 16 1) 7 0 1 p' = Some (Pkbuf [] [1; 2; 3] []).
Proof.
  destruct (nas_encrypt_involution 2 (be_bytes 16 1) 7 0 1 (Pkbuf [] [1; 2; 3] [])) as (p' & H & _ & _ & _ & H').
  - split; [reflexivity|apply be_bytes_bytes].
  - split; [by split|]. split; [lia|by right].
  - split; [cbn; lia|]. split; [by apply bytes_by_check|reflexivity].
  - lia.
  - exists p'. split; [exact H|exact H'].
Defined.

(** ** The code *)

(** The code for the octets of a message. *)
Definition nas_mac (alg : Z) (key : list Z) (count bearer direction : Z) (d : list Z) : list Z :=
  if alg =? 1 then Snow3g.snow_3g_f9 key count (shl32 bearer 27) direction d (8 * zlen d)
  else if alg =? 2 then take 4 (ogs_aes_cmac_calculate key (count_iv count bearer direction ++ [0; 0; 0] ++ d))
  else be_bytes 4 (Zuc.zuc_eia3 key count bearer direction (8 * zlen d) d Zuc.zuc_registers).1.

Lemma ogs_aes_encrypt_length rk n b : length (ogs_aes_encrypt rk n b) = 16%nat.
Proof. unfold ogs_aes_encrypt. by destruct (if (10 <? n)%nat then _ else _) as [[[t0 t1] t2] t3]. Qed.
Lemma nas_mac_length alg key count bearer direction d : length (nas_mac alg key count bearer direction d) = 4%nat.
Proof.
  unfold nas_mac. destruct (alg =? 1); [|destruct (alg =? 2); [|apply be_bytes_length]].
  - unfold Snow3g.snow_3g_f9. by destruct (Snow3g.snow_3g_generate_key_stream _ _).
  - unfold ogs_aes_cmac_calculate. destruct (_generate_subkey key) as [k1 k2]. destruct (if _ =? 0 then _ else _) as [n flag].
    destruct (ogs_aes_setup_enc key 128) as [nr rk]. by rewrite length_take, ogs_aes_encrypt_length.
Qed.
Lemma mac32_ok x : le_bytes 4 (bswap 4 x) = be_bytes 4 x.
Proof.
  rewrite <- (be_bytes_mod 4 x). change (8 * Z.of_nat 4) with 32.
  assert (bswap 4 x = bswap 4 (x mod 2 ^ 32)) as ->.
  { unfold bswap. f_equal. cbn [le_bytes]. do 4 (apply f_equal2; [lia|]). done. }
  assert (is_word (x mod 2 ^ 32)) as (a & b & c & d & -> & Ha & Hb & Hc & Hd)%word_cases by (apply Z.mod_pos_bound; lia).
  assert (B : ∀ a b c d, is_byte a → is_byte b → is_byte c → is_byte d → le_bytes 4 (word d c b a) = [a; b; c; d]).
  { intros a' b' c' d' ????. assert (word d' c' b' a' = le_value [a'; b'; c'; d']) as -> by (rewrite word_eq; cbn; ring).
    apply (le_bytes_value [a'; b'; c'; d']). unfold bytes. by rewrite !Forall_cons. }
  unfold bswap. rewrite B, be_bytes_word by done. change (be_value [d; c; b; a]) with (word d c b a). by apply B.
Qed.

(** The code depends on the message only, and nothing but the headroom of
    EIA2, 8 bytes before the message, changes. *)
Lemma ogs_nas_mac_calculate_ok alg key count bearer direction b c d a : nas_params count bearer direction →
  nas_message d → 1 ≤ alg ≤ 3 → length c = 8%nat →
  ∃ c', length c' = 8%nat ∧
    ogs_nas_mac_calculate alg key count bearer direction (Pkbuf (b ++ c) d a) =
    Some (Some (nas_mac alg key count bearer direction d), Pkbuf (b ++ c') d a).
Proof.
  intros Hp Hm Ha Hc. unfold ogs_nas_mac_calculate. rewrite (args_are_ok count) by done. cbn [negb].
  rewrite len_bits_ok by done. cbn [pk_data].
  assert (alg = 1 ∨ alg = 2 ∨ alg = 3) as [-> | [-> | ->]] by lia.
  - exists c. split; [done|]. unfold nas_mac. cbn [Z.eqb Pos.eqb]. reflexivity.
  - rewrite push_eq by done. destruct (count_iv_ok count bearer direction Hp) as [Liv _].
    exists (count_iv count bearer direction ++ [0; 0; 0]). split; [by rewrite length_app, Liv|].
    unfold pk_write. cbn [pk_before pk_data pk_after]. rewrite drop_app_length' by (rewrite length_app, Liv; done).
    rewrite pull_eq by (rewrite length_app, Liv; done). unfold nas_mac. cbn [Z.eqb]. by rewrite <- app_assoc.
  - exists c. split; [done|]. unfold nas_mac. cbn [Z.eqb].
    destruct (Zuc.zuc_eia3 _ _ _ _ _ _ _) as [m s]. by rewrite mac32_ok.
Qed.

(** ** The estimate of the count *)

Lemma estimate_eq count s : 0 ≤ count < 2 ^ 24 → 0 ≤ s < 256 →
  estimate count s = (if s <? count mod 256 then (count / 256 * 256 + 256) mod 2 ^ 24 else count / 256 * 256) + s.
Proof.
  intros Hc Hs. unfold estimate, count_sqn. change 0xff with (2 ^ 8 - 1). rewrite land_mask by lia. change (2 ^ 8) with 256.
  assert (Hm : ∀ x, 0 ≤ x < 2 ^ 32 → x .& 0x00ffff00 = x / 256 mod 2 ^ 16 * 256).
  { intros x Hx. change 0x00ffff00 with ((2 ^ 16 - 1) << 8). apply Z.bits_inj'. intros i Hi. rewrite Z.land_spec.
    change 256 with (2 ^ 8). destruct (Z.ltb_spec i 8).
    - rewrite Z.shiftl_spec_low, Z.mul_pow2_bits_low by lia. apply andb_false_r.
    - rewrite Z.shiftl_spec_high, Z.mul_pow2_bits by lia. change (2 ^ 16 - 1) with (Z.ones 16). destruct (Z.ltb_spec (i - 8) 16).
      + rewrite Z.ones_spec_low, andb_true_r, Z.mod_pow2_bits_low, Z.div_pow2_bits by lia. f_equal. lia.
      + rewrite Z.ones_spec_high, andb_false_r, Z.mod_pow2_bits_high by lia. done. }
  rewrite (Hm count) by lia. set (q := count / 256 mod 2 ^ 16 * 256).
  assert (Hq : q = count / 256 * 256) by (unfold q; f_equal; apply Z.mod_small; lia).
  assert (Hlor : ∀ y, 0 ≤ y → (y * 256) .| s = y * 256 + s) by (intros y Hy; apply (lor_disjoint y s 8); lia).
  assert (Hh : 0 ≤ count / 256 < 2 ^ 16) by lia. clearbody q. subst q. revert Hh. generalize (count / 256). intros h Hh.
  destruct (s <? count mod 256); [|apply Hlor; lia].
  unfold u32. rewrite (Z.mod_small (h * 256 + 0x100)) by lia. rewrite Hm by lia. rewrite Hlor by lia.
  replace ((h * 256 + 0x100) / 256) with (h + 1) by lia. f_equal.
  change (2 ^ 24) with (2 ^ 16 * 256). replace (h * 256 + 256) with ((h + 1) * 256) by lia. by rewrite Z.mul_mod_distr_r by lia.
Qed.

(** The count of the sender is recovered when it is at most 255 greater. *)
Lemma estimate_ok count sent : 0 ≤ count < 2 ^ 24 → count ≤ sent < count + 256 → sent < 2 ^ 24 →
  estimate count (sent mod 256) = sent.
Proof.
  intros Hc Hs Hmax. rewrite estimate_eq by lia. destruct (Z.ltb_spec (sent mod 256) (count mod 256)); lia.
Qed.
(** An estimate is a count of 24 bits with the sequence number. *)
Lemma estimate_range count s : 0 ≤ count < 2 ^ 24 → 0 ≤ s < 256 → 0 ≤ estimate count s < 2 ^ 24.
Proof. intros Hc Hs. rewrite estimate_eq by lia. destruct (s <? count mod 256); lia. Qed.

(** ** Protecting *)

(** The octets after ciphering, when [ciph] says so. *)
Definition ciphered_data (ciph : bool) (alg : Z) (key : list Z) (count bearer direction : Z) (d : list Z) : list Z :=
  if ciph && negb (alg =? 0) then xor_bytes d (nas_stream alg key count bearer direction (length d)) else d.

Section ciphered_data.
Context (ciph : bool) (alg : Z) (key : list Z) (count bearer direction : Z).
Context (Hk : nas_key key) (Hp : nas_params count bearer direction) (Ha : 0 ≤ alg ≤ 3).
#[local] Abbreviation cd := (ciphered_data ciph alg key count bearer direction).

Lemma ciphered_data_length d : length (cd d) = length d.
Proof using All.
  unfold ciphered_data. destruct (ciph && negb (alg =? 0)) eqn:E; [|done]. rewrite xor_bytes_length.
  destruct (nas_stream_ok alg key count bearer direction (length d) Hk Hp) as [H _]; [|lia].
  apply andb_true_iff in E as [_ E%negb_true_iff%Z.eqb_neq]. lia.
Qed.
Lemma ciphered_data_message d : nas_message d → nas_message (cd d).
Proof using All.
  intros (Hl & Hb & Hm). unfold nas_message, zlen in *. rewrite ciphered_data_length. split; [done|]. split; [|done].
  unfold ciphered_data. destruct (ciph && negb (alg =? 0)) eqn:E; [|done]. apply xor_bytes_bytes; [done|].
  apply nas_stream_ok; [done|done|]. apply andb_true_iff in E as [_ E%negb_true_iff%Z.eqb_neq]. lia.
Qed.
Lemma ciphered_data_twice d : cd (cd d) = d.
Proof using All.
  pose proof (ciphered_data_length d) as L. unfold ciphered_data in *. destruct (ciph && negb (alg =? 0)) eqn:E; [|done].
  rewrite L. apply xor_bytes_twice. apply nas_stream_ok; [done|done|].
  apply andb_true_iff in E as [_ E%negb_true_iff%Z.eqb_neq]. lia.
Qed.
Lemma cipher_step b d a : nas_message d →
  (if ciph && negb (alg =? 0) then ogs_nas_encrypt alg key count bearer direction (Pkbuf b d a) else Some (Pkbuf b d a)) =
  Some (Pkbuf b (cd d) a).
Proof using All.
  intros Hm. unfold ciphered_data. destruct (ciph && negb (alg =? 0)) eqn:E; [|done].
  rewrite ogs_nas_encrypt_ok; [done..|]. apply andb_true_iff in E as [_ E%negb_true_iff%Z.eqb_neq]. lia.
Qed.
End ciphered_data.

(** The sequence number before the message is what the code covers. *)
Lemma nas_message_cons s d : is_byte s → nas_message d → zlen d < 2 ^ 28 - 1 → nas_message (s :: d).
Proof.
  intros Hs (Hl & Hb & _) Hm. unfold nas_message, zlen in *. cbn [length]. split; [lia|]. split; [by constructor|lia].
Qed.
Lemma sqn_byte count : is_byte (count .& 0xff).
Proof. change 0xff with (2 ^ 8 - 1). rewrite land_mask by lia. apply u8_byte. Qed.

Lemma protect_ok front enc int kenc kint count bearer direction t p :
  nas_key kenc → nas_key kint → nas_params count bearer direction → 0 ≤ enc ≤ 3 → 1 ≤ int ≤ 3 →
  integrity_protected t = true → nas_message (pk_data p) → zlen (pk_data p) < 2 ^ 28 - 1 →
  (9 ≤ ogs_pkbuf_headroom p)%nat → (length front ≤ 4)%nat →
  let d := ciphered_data (ciphered t) enc kenc count bearer direction (pk_data p) in
  let s := count .& 0xff in
  ∃ b, protect front enc int kenc kint count bearer direction t p =
    Some (Pkbuf b (front ++ nas_mac int kint count bearer direction (s :: d) ++ [s] ++ d) (pk_after p)).
Proof.
  intros Hke Hki Hp He Hi Ht Hm Hmax Hroom Hf. cbv zeta. destruct p as [b0 d0 a]. cbn [pk_data pk_after] in *.
  destruct (headroom_split (Pkbuf b0 d0 a) 1) as (b1 & c1 & E1 & L1 & Lb1); [lia|]. cbn [pk_before] in E1. subst b0.
  destruct (headroom_split (Pkbuf b1 d0 a) 8) as (b2 & c2 & E2 & L2 & Lb2).
  { unfold ogs_pkbuf_headroom in *. cbn [pk_before] in *. lia. }
  cbn [pk_before] in E2. subst b1.
  unfold protect. rewrite Ht. destruct (Z.eqb_spec int 0) as [|_]; [lia|]. cbn [negb andb].
  rewrite (cipher_step (ciphered t) enc kenc count bearer direction) by done.
  set (d := ciphered_data _ _ _ _ _ _ _). rewrite push_eq by done. set (s := count .& 0xff).
  unfold pk_write at 1. cbn [pk_before pk_data pk_after]. rewrite drop_app_length' by done.
  assert (Hms : nas_message (s :: d)).
  { apply nas_message_cons; [apply sqn_byte|by apply ciphered_data_message|]. unfold d, zlen. by rewrite ciphered_data_length. }
  change ([s] ++ d) with (s :: d).
  destruct (ogs_nas_mac_calculate_ok int kint count bearer direction b2 c2 (s :: d) a Hp Hms Hi L2) as (c' & Lc' & ->).
  destruct (headroom_split (Pkbuf (b2 ++ c') d0 a) (length front + 4)) as (b3 & c3 & Eb & L3 & _).
  { unfold ogs_pkbuf_headroom. cbn [pk_before]. rewrite length_app. lia. }
  cbn [pk_before] in Eb. rewrite Eb, push_eq by done. exists b3. unfold pk_write. cbn [pk_before pk_data pk_after]. do 2 f_equal.
  rewrite <- !app_assoc. do 3 f_equal. rewrite !length_app, nas_mac_length. cbn [length].
  replace (length front + (4 + 1))%nat with (length c3 + 1)%nat by lia.
  rewrite <- drop_drop, drop_app_length. done.
Qed.

(** ** Uncovering *)

(** The context after a message whose code is right ([good]), at the count [est]. *)
Definition context_after (t : sec_type) (good : bool) (est : Z) (u : nas_ue) : nas_ue :=
  if integrity_protected t then (if good then set_ul_count est true u else set_mac_failed u)
  else set_ul_count est (ul_count_accepted u) u.
(** The keys and algorithms of a context are ones that the code knows. *)
Definition nas_ctx_ok (u : nas_ue) : Prop :=
  nas_key (knas_enc u) ∧ nas_key (knas_int u) ∧ 0 ≤ selected_enc_algorithm u ≤ 3 ∧ 0 ≤ selected_int_algorithm u ≤ 3 ∧
  0 ≤ ul_count u < 2 ^ 24.

Section decode.
Context (u : nas_ue) (bearer : Z) (t : sec_type) (b h d a : list Z).
Context (Hu : nas_ctx_ok u) (Hb : 0 ≤ bearer ≤ 0x1f) (Ht : integrity_protected t = true → selected_int_algorithm u ≠ 0).
Context (Ht' : ciphered t = true → selected_enc_algorithm u ≠ 0).
Context (Hh : is_byte (nth (length h - 1) h 0)) (Lh : (6 ≤ length h)%nat) (Lb : (3 ≤ length b)%nat) (Hd : nas_message d) (Hmax : zlen d < 2 ^ 28 - 1).

(** The sequence number, the code and the count that are received. *)
Definition rx_sqn : Z := nth (length h - 1) h 0.
Definition rx_mac : list Z := take 4 (drop (length h - 5) h).
Definition rx_count : Z := estimate (ul_count u) rx_sqn.
Definition rx_good : bool :=
  bool_decide (rx_mac = nas_mac (selected_int_algorithm u) (knas_int u) rx_count bearer 0 (rx_sqn :: d)).
Definition rx_replay : bool := integrity_protected t && rx_good && ul_count_accepted u && (rx_count <=? ul_count u).
Definition rx_data : list Z := ciphered_data (ciphered t) (selected_enc_algorithm u) (knas_enc u) rx_count bearer 0 d.

Lemma rx_split : h = take (length h - 5) h ++ rx_mac ++ [rx_sqn] ∧ length rx_mac = 4%nat.
Proof using All.
  unfold rx_mac, rx_sqn. split; [|rewrite length_take, length_drop; lia].
  rewrite <- (take_drop (length h - 5) h) at 1. f_equal.
  assert (L5 : length (drop (length h - 5) h) = 5%nat) by (rewrite length_drop; lia).
  assert (E : nth (length h - 1) h 0 = nth 4 (drop (length h - 5) h) 0).
  { rewrite <- (take_drop (length h - 5) h) at 2. rewrite app_nth2 by (rewrite length_take; lia).
    rewrite length_take. f_equal. lia. }
  rewrite E. revert L5. generalize (drop (length h - 5) h). intros l L5.
  do 5 (destruct l as [|? l]; [done|]). by destruct l.
Qed.
Lemma rx_sqn_byte : 0 ≤ rx_sqn < 256.
Proof using All. exact Hh. Qed.
Lemma rx_params : nas_params rx_count bearer 0.
Proof using All.
  destruct Hu as (_ & _ & _ & _ & Hc). pose proof (estimate_range (ul_count u) rx_sqn Hc rx_sqn_byte) as R. fold rx_count in R.
  unfold nas_params, is_word. lia.
Qed.

Lemma decode_protected_ok : ∃ b',
  decode_protected (length h) bearer u t (Pkbuf (b ++ h) d a) =
  if rx_replay then Some (OGS_ERROR, u, Pkbuf b' (rx_sqn :: d) a)
  else Some (OGS_OK, context_after t rx_good rx_count u, Pkbuf b' rx_data a).
Proof using All.
  unfold decode_protected. rewrite push_eq by done. cbn [pk_data].
  assert (E1 : nth (length h - 1) (h ++ d) 0 = rx_sqn) by (rewrite app_nth1 by lia; done).
  assert (E2 : take 4 (drop (length h - 5) (h ++ d)) = rx_mac).
  { unfold rx_mac. rewrite drop_app_le by lia. apply take_app_le. rewrite length_drop. lia. }
  rewrite E1, E2. destruct rx_split as [Eh Lm]. set (f := take (length h - 5) h) in *.
  assert (Lf : length f = (length h - 5)%nat) by (unfold f; rewrite length_take; lia).
  assert (Ep : ogs_pkbuf_pull (length h - 1) (Pkbuf b (h ++ d) a) = Some (Pkbuf (b ++ f ++ rx_mac) (rx_sqn :: d) a)).
  { rewrite Eh at 2. replace ((f ++ rx_mac ++ [rx_sqn]) ++ d) with ((f ++ rx_mac) ++ rx_sqn :: d) by (by rewrite <- !app_assoc).
    apply pull_eq. rewrite length_app. lia. }
  rewrite Ep. cbv zeta. fold rx_count. pose proof rx_params as Hp. pose proof rx_sqn_byte as Hs.
  destruct Hu as (Hke & Hki & He & Hi & Hc).
  assert (Htail : ∀ b' u', knas_enc u' = knas_enc u → selected_enc_algorithm u' = selected_enc_algorithm u → ∃ b'',
    match ogs_pkbuf_pull 1 (Pkbuf b' (rx_sqn :: d) a) with
    | None => None
    | Some p =>
        if ciphered t then
          if (length (pk_data p) =? 0)%nat then Some (OGS_ERROR, u', p)
          else
            match ogs_nas_encrypt (selected_enc_algorithm u') (knas_enc u') rx_count bearer OGS_NAS_SECURITY_UPLINK_DIRECTION p with
            | None => None
            | Some p => Some (OGS_OK, u', p)
            end
        else Some (OGS_OK, u', p)
    end = Some (OGS_OK, u', Pkbuf b'' rx_data a)).
  { intros b' u' Ek Ea. change (rx_sqn :: d) with ([rx_sqn] ++ d). rewrite Ek, Ea, pull_eq by done. exists (b' ++ [rx_sqn]). cbn [pk_data].
    destruct (Nat.eqb_spec (length d) 0) as [E0|_]; [destruct Hd; lia|].
    pose proof (cipher_step (ciphered t) (selected_enc_algorithm u) (knas_enc u) rx_count bearer 0 Hke Hp He (b' ++ [rx_sqn]) d a Hd) as Hcs.
    unfold OGS_NAS_SECURITY_UPLINK_DIRECTION. fold rx_data in Hcs. destruct (ciphered t); cbn [andb] in Hcs.
    - destruct (Z.eqb_spec (selected_enc_algorithm u) 0); [by specialize (Ht' eq_refl)|]. cbn [negb] in Hcs. by rewrite Hcs.
    - by injection Hcs as <-. }
  unfold rx_replay, context_after. destruct (integrity_protected t).
  - destruct (headroom_split (Pkbuf (b ++ f ++ rx_mac) d a) 8) as (b2 & c2 & E8 & L8 & L2).
    { unfold ogs_pkbuf_headroom. cbn [pk_before]. rewrite !length_app. lia. }
    cbn [pk_before] in E8. rewrite E8.
    assert (Hms : nas_message (rx_sqn :: d)) by (apply nas_message_cons; done).
    assert (Hi' : 1 ≤ selected_int_algorithm u ≤ 3) by (specialize (Ht eq_refl); lia).
    destruct (ogs_nas_mac_calculate_ok (selected_int_algorithm u) (knas_int u) rx_count bearer 0 b2 c2 (rx_sqn :: d) a Hp Hms Hi' L8)
      as (c' & Lc' & Ec). unfold OGS_NAS_SECURITY_UPLINK_DIRECTION in *. rewrite Ec. fold rx_good.
    set (p' := pk_write_before _ _). assert (Hp' : ∃ b', p' = Pkbuf b' (rx_sqn :: d) a) by (unfold p', pk_write_before; by eexists).
    destruct Hp' as [b' ->]. destruct rx_good; cbn [negb andb].
    + destruct (ul_count_accepted u && (rx_count <=? ul_count u)); [by exists b'|].
      apply (Htail b' (set_ul_count rx_count true u)); done.
    + apply (Htail b' (set_mac_failed u)); done.
  - cbn [andb]. apply (Htail (b ++ f ++ rx_mac) (set_ul_count rx_count (ul_count_accepted u) u)); done.
Qed.
End decode.
