(* ===== verification/NasExchange.v ===== *)
(** * NAS messages from one side to the other

    From the octets that arrive ([s1ap_receive_nas]) to what the context
    accepts: exact behaviour of the decoders, exchange with the other side,
    the order of the accepted counts, and the messages that abort. *)
From S2P Require Import Prelude XactBase Octets Words AesModes AesModesSpec Zuc Snow Pkbuf NasSecurity NasSecuritySpec.
From Stdlib Require Import Sorted.
#[local] Open Scope Z_scope.
#[local] Open Scope c_scope.
#[local] Ltac Zify.zify_post_hook ::= Z.to_euclidean_division_equations.

(** ** The decoders *)

Lemma effective_algorithms u t :
  (integrity_protected (effective_type u t) = true → selected_int_algorithm u ≠ 0) ∧
  (ciphered (effective_type u t) = true → selected_enc_algorithm u ≠ 0).
Proof.
  unfold effective_type. destruct (security_context_available u); cbn [integrity_protected ciphered andb];
    split; intros H; rewrite ?andb_true_iff, ?negb_true_iff, ?Z.eqb_neq in H; naive_solver.
Qed.
Lemma security_decode_ok u bearer t b h d a : nas_ctx_ok u → 0 ≤ bearer ≤ 0x1f → is_byte (rx_sqn h) → (6 ≤ length h)%nat →
  (3 ≤ length b)%nat → nas_message d → zlen d < 2 ^ 28 - 1 →
  let t' := effective_type u t in
  ∃ b', security_decode (length h) bearer u t (Pkbuf (b ++ h) d a) =
    if ciphered t' || integrity_protected t' then
      if rx_replay u bearer t' h d then Some (OGS_ERROR, u, Pkbuf b' (rx_sqn h :: d) a)
      else Some (OGS_OK, context_after t' (rx_good u bearer h d) (rx_count u h) u, Pkbuf b' (rx_data u bearer t' h d) a)
    else Some (OGS_OK, u, Pkbuf b' d a).
Proof.
  intros Hu Hb Hh Lh Lb Hd Hmax. cbv zeta. destruct (effective_algorithms u t) as [Hi He]. unfold security_decode.
  destruct (ciphered (effective_type u t) || integrity_protected (effective_type u t)); [|by eexists].
  by apply decode_protected_ok.
Qed.

Lemma nas_security_decode_exact_eps u t b h d a :
  nas_ctx_ok u → is_byte (rx_sqn h) → (3 ≤ length b)%nat → nas_message d → zlen d < 2 ^ 28 - 1 → service_request t = false → length h = 6%nat →
  let t' := effective_type u t in
  ∃ b', nas_eps_security_decode u t (Pkbuf (b ++ h) d a) =
    if ciphered t' || integrity_protected t' then
      if rx_replay u 0 t' h d then Some (OGS_ERROR, u, Pkbuf b' (rx_sqn h :: d) a)
      else Some (OGS_OK, context_after t' (rx_good u 0 h d) (rx_count u h) u, Pkbuf b' (rx_data u 0 t' h d) a)
    else Some (OGS_OK, u, Pkbuf b' d a).
Proof.
  intros Hu Hh Lb Hd Hmax Hs Lh. unfold nas_eps_security_decode. rewrite Hs, <- Lh. apply security_decode_ok; done || lia.
Qed.

(** C6: what a decoder does with a protected message, on every branch: with
    the count that it estimates, a message whose code is wrong marks the
    context, one at a count that is not greater than the last accepted one is an
    error that changes nothing, any other sets the count; the data is uncovered
    with that count.  The 6 bytes of the header of EPS and the 7 bytes of that
    of 5GS make no other difference than their number. *)
Theorem nas_security_decode_exact u access_type t b h d a :
  nas_ctx_ok u → 0 ≤ access_type ≤ 0x1f → is_byte (rx_sqn h) → (3 ≤ length b)%nat → nas_message d → zlen d < 2 ^ 28 - 1 →
  service_request t = false →
  let t' := effective_type u t in
  let result bearer b' :=
    if ciphered t' || integrity_protected t' then
      if rx_replay u bearer t' h d then Some (OGS_ERROR, u, Pkbuf b' (rx_sqn h :: d) a)
      else Some (OGS_OK, context_after t' (rx_good u bearer h d) (rx_count u h) u, Pkbuf b' (rx_data u bearer t' h d) a)
    else Some (OGS_OK, u, Pkbuf b' d a) in
  (length h = 6%nat → ∃ b', nas_eps_security_decode u t (Pkbuf (b ++ h) d a) = result 0 b') ∧
  (length h = 7%nat → ∃ b', nas_5gs_security_decode access_type u t (Pkbuf (b ++ h) d a) = result access_type b').
Proof.
  intros Hu Hb Hh Lb Hd Hmax Hs. cbv zeta. split; intros Lh.
  - by apply nas_security_decode_exact_eps.
  - unfold nas_5gs_security_decode. rewrite <- Lh. apply security_decode_ok; done || lia.
Qed.

(** A context whose last accepted message had the count 5. *)
Definition sample_ue : nas_ue := NasUe 2 2 (be_bytes 16 1) (be_bytes 16 2) 0 5 true true false.
Lemma sample_ok : nas_ctx_ok sample_ue.
Proof. repeat split; try (apply be_bytes_bytes); cbn; lia. Qed.

Lemma nas_security_decode_exact_witness :
  let t := SecType true true false false in
  ∃ b', nas_eps_security_decode sample_ue t (Pkbuf (replicate 16 0 ++ [0x27; 1; 2; 3; 4; 6]) [7; 8] []) =
    if ciphered (effective_type sample_ue t) || integrity_protected (effective_type sample_ue t) then
      if rx_replay sample_ue 0 (effective_type sample_ue t) [0x27; 1; 2; 3; 4; 6] [7; 8]
      then Some (OGS_ERROR, sample_ue, Pkbuf b' [6; 7; 8] [])
      else Some (OGS_OK, context_after (effective_type sample_ue t) (rx_good sample_ue 0 [0x27; 1; 2; 3; 4; 6] [7; 8])
                   (rx_count sample_ue [0x27; 1; 2; 3; 4; 6]) sample_ue,
                 Pkbuf b' (rx_data sample_ue 0 (effective_type sample_ue t) [0x27; 1; 2; 3; 4; 6] [7; 8]) [])
    else Some (OGS_OK, sample_ue, Pkbuf b' [7; 8] []).
Proof.
  cbv zeta. refine (proj1 (nas_security_decode_exact sample_ue 0 (SecType true true false false) (replicate 16 0) [0x27; 1; 2; 3; 4; 6] [7; 8] []
    _ _ _ _ _ _ _) _).
  - exact sample_ok.
  - lia.
  - by split.
  - cbn. lia.
  - split; [cbn; lia|]. split; [by apply bytes_by_check|reflexivity].
  - reflexivity.
  - reflexivity.
  - reflexivity.
Defined.

(** ** The start of [s1ap_send_to_nas] *)

Lemma received_buffer pdu : ogs_pkbuf_put_data pdu (ogs_pkbuf_reserve OGS_NAS_HEADROOM (ogs_pkbuf_alloc (OGS_NAS_HEADROOM + length pdu))) =
  Some (Pkbuf (replicate 16 0) pdu []).
Proof.
  unfold ogs_pkbuf_put_data, ogs_pkbuf_reserve, ogs_pkbuf_alloc, pk_memory, pk_window, ogs_pkbuf_tailroom, OGS_NAS_HEADROOM.
  cbn [pk_before pk_data pk_after app length]. rewrite take_0, length_drop, length_replicate. cbn [app].
  replace (16 + length pdu - (0 + 16 + 0))%nat with (length pdu) by lia. rewrite Nat.ltb_irrefl.
  rewrite drop_drop, take_replicate, drop_ge by (rewrite length_replicate; lia). done.
Qed.

(** A context with an algorithm for integrity. *)
Definition secured (u : nas_ue) : Prop := selected_int_algorithm u ≠ 0 ∧ security_context_available u = true.

Lemma received_type_integrity v t : received_type v = Some t → service_request t = true ∨
  (ciphered t = true → integrity_protected t = true).
Proof.
  unfold received_type, encode_type, plain_type. destruct (v =? 0); [intros [= <-]; by right|].
  destruct (v =? 12); [intros [= <-]; by left|].
  destruct v as [|[[]|[[]|[]|]|]|]; try done; intros [= <-]; by right.
Qed.
Lemma bytes_zeros n : bytes (replicate n 0).
Proof. by apply Forall_replicate. Qed.
Lemma service_sqn_byte c s : 0 ≤ service_sqn c s < 256.
Proof. apply u8_byte. Qed.

(** ** Service requests *)

(** The count of a service request, and whether the code in it is right. *)
Definition service_count (u : nas_ue) (pdu : list Z) : Z :=
  estimate (ul_count u) (service_sqn (ul_count u) (nth 1 pdu 0 .& 0x1f)).
Definition service_good (u : nas_ue) (pdu : list Z) : bool :=
  bool_decide (take 2 (drop 2 pdu) =
    drop 2 (nas_mac (selected_int_algorithm u) (knas_int u) (service_count u pdu) 0 0 (take 2 pdu))).

Lemma service_mac_octets pdu : (4 ≤ length pdu)%nat →
  take 2 (drop 2 (take 2 pdu ++ [nth 2 pdu 0; nth 3 pdu 0])) = take 2 (drop 2 pdu).
Proof. intros H. do 4 (destruct pdu as [|? pdu]; [cbn in H; lia|]). done. Qed.
Lemma eps_header_octets pdu : (6 ≤ length pdu)%nat →
  nth 5 pdu 0 = rx_sqn (take 6 pdu) ∧ take 4 (drop 1 pdu) = rx_mac (take 6 pdu) ∧ drop 5 pdu = rx_sqn (take 6 pdu) :: drop 6 pdu.
Proof. intros H. do 6 (destruct pdu as [|? pdu]; [cbn in H; lia|]). done. Qed.

Lemma service_request_exact u pdu :
  nas_ctx_ok u → selected_int_algorithm u ≠ 0 → bytes pdu → (2 ≤ length pdu)%nat → zlen pdu < 2 ^ 28 →
  ∃ p', decode_service_request u (Pkbuf (replicate 16 0) pdu []) =
    if (length pdu <? 4)%nat then None
    else if service_good u pdu then
      if ul_count_accepted u && (service_count u pdu <=? ul_count u) then Some (OGS_ERROR, u, p')
      else Some (OGS_OK, set_ul_count (service_count u pdu) true u, p')
    else Some (OGS_OK, set_mac_failed u, p').
Proof.
  intros Hu Hi0 Bp Lp Hmax. unfold decode_service_request. destruct (Z.eqb_spec (selected_int_algorithm u) 0); [done|].
  cbv zeta. unfold ogs_pkbuf_trim. cbn [pk_before pk_data pk_after]. destruct (Nat.ltb_spec (length pdu) 2); [lia|].
  rewrite app_nil_r. fold (service_count u pdu). set (est := service_count u pdu).
  destruct Hu as (Hke & Hki & He & Hi & Hc).
  assert (Hp : nas_params est NAS_SECURITY_BEARER OGS_NAS_SECURITY_UPLINK_DIRECTION).
  { pose proof (estimate_range (ul_count u) _ Hc (service_sqn_byte (ul_count u) (nth 1 pdu 0 .& 0x1f))) as R.
    fold (service_count u pdu) in R. fold est in R. unfold nas_params, is_word, NAS_SECURITY_BEARER, OGS_NAS_SECURITY_UPLINK_DIRECTION. lia. }
  assert (Hm : nas_message (take 2 pdu)).
  { unfold nas_message, zlen. rewrite length_take. split; [lia|]. split; [by apply Forall_take|lia]. }
  destruct (ogs_nas_mac_calculate_ok (selected_int_algorithm u) (knas_int u) est NAS_SECURITY_BEARER
    OGS_NAS_SECURITY_UPLINK_DIRECTION (replicate 8 0) (replicate 8 0) (take 2 pdu) (drop 2 pdu ++ []) Hp Hm ltac:(lia) eq_refl)
    as (c' & Lc' & Em). change (replicate 8 0 ++ replicate 8 0) with (replicate 16 0) in Em. rewrite Em.
  unfold ogs_pkbuf_put_data, ogs_pkbuf_tailroom. cbn [pk_before pk_data pk_after length].
  rewrite app_nil_r, length_drop. destruct (Nat.ltb_spec (length pdu - 2) 2) as [Hl|Hl].
  { exists (Pkbuf [] [] []). by rewrite (proj2 (Nat.ltb_lt _ _)) by lia. }
  rewrite (proj2 (Nat.ltb_ge _ _)) by lia. unfold service_good. fold est.
  cbn [pk_data]. rewrite service_mac_octets by lia. unfold NAS_SECURITY_BEARER, OGS_NAS_SECURITY_UPLINK_DIRECTION.
  eexists. case_bool_decide as H1; case_bool_decide as H2; cbn [negb]; try congruence; [|reflexivity].
  destruct (ul_count_accepted u && _); reflexivity.
Qed.

(** ** What is accepted *)

(** The count at which the code in a message is that of its octets, for a
    message with a security header: of a service request 2 octets of the code,
    behind the first two; of another, 4 octets from the second one on, for what
    follows them. *)
Definition verified_count (u : nas_ue) (pdu : list Z) : option Z :=
  let type := nth 0 pdu 0 >> 4 in
  if type =? 12 then if service_good u pdu then Some (service_count u pdu) else None
  else if (1 <=? type) && (type <=? 4) then
    let count := estimate (ul_count u) (nth 5 pdu 0) in
    if bool_decide (take 4 (drop 1 pdu) = nas_mac (selected_int_algorithm u) (knas_int u) count 0 0 (drop 5 pdu))
    then Some count else None
  else None.
(** The counts of the messages that are accepted: the result is OGS_OK and the
    code was right.  After an abort there are none. *)
Fixpoint nas_history (u : nas_ue) (pdus : list (list Z)) : list Z :=
  match pdus with
  | [] => []
  | pdu :: pdus =>
      match s1ap_receive_nas u pdu with
      | NAS_REJECTED => nas_history u pdus
      | NAS_DECODED None => []
      | NAS_DECODED (Some (OGS_OK, u', _)) => option_list (verified_count u pdu) ++ nas_history u' pdus
      | NAS_DECODED (Some (_, u', _)) => nas_history u' pdus
      end
  end.

(** Octets that the transport may deliver. *)
Definition pdu_ok (pdu : list Z) : Prop := bytes pdu ∧ zlen pdu < 2 ^ 28 - 1.

(** A message whose code is right is accepted, and its count is the new one,
    exactly if that is above the last accepted count; no other message changes
    the count. *)
Lemma receive_verified u pdu rv u' p' : nas_ctx_ok u → secured u → pdu_ok pdu →
  s1ap_receive_nas u pdu = NAS_DECODED (Some (rv, u', p')) →
  match verified_count u pdu with
  | Some c => 0 ≤ c < 2 ^ 24 ∧
      if ul_count_accepted u && (c <=? ul_count u) then rv = OGS_ERROR ∧ u' = u
      else rv = OGS_OK ∧ u' = set_ul_count c true u
  | None => u' = u ∨ u' = set_mac_failed u
  end.
Proof.
  intros Hu [Hi Hc] [Bp Hmax]. unfold s1ap_receive_nas. destruct (Nat.ltb_spec (length pdu) 2) as [|H2]; [done|].
  rewrite received_buffer. unfold verified_count. set (v := nth 0 pdu 0 >> 4).
  destruct (received_type v) as [t|] eqn:Et; [|done].
  destruct (Z.eqb_spec v 12) as [E12|H12].
  { rewrite E12 in Et. injection Et as <-. cbn [integrity_protected pk_data]. destruct (Nat.ltb_spec (length pdu) 2) as [?|_]; [lia|].
    unfold nas_eps_security_decode. cbn [service_request pk_data]. intros [= H].
    destruct (service_request_exact u pdu Hu Hi Bp H2 ltac:(lia)) as [q E]. cbn [replicate] in E. rewrite E in H.
    destruct (length pdu <? 4)%nat; [done|]. destruct (service_good u pdu); [|injection H as _ <- _; by right].
    split; [apply estimate_range; [apply Hu|apply service_sqn_byte]|].
    destruct (ul_count_accepted u && _); by injection H as <- <- _. }
  assert (Hv : service_request t = false ∧ ((1 <=? v) && (v <=? 4) = integrity_protected t) ∧ (integrity_protected t = false → ciphered t = false)).
  { unfold received_type, encode_type, plain_type in Et. destruct (Z.eqb_spec v 0) as [E|H0]; [rewrite E; by injection Et as <-|].
    rewrite (proj2 (Z.eqb_neq v 12) H12) in Et. destruct v as [|[[]|[[]|[]|]|]|]; try done; injection Et as <-; done. }
  destruct Hv as (Hs & -> & Hct). destruct (integrity_protected t) eqn:Ht.
  2: { cbn [pk_data]. destruct (Nat.ltb_spec (length pdu) 2) as [?|_]; [lia|]. unfold nas_eps_security_decode, security_decode, effective_type.
    rewrite Hs, Hc. cbn [ciphered integrity_protected]. rewrite Ht, (Hct eq_refl). cbn [andb orb].
    intros [= _ <- _]. by left. }
  unfold ogs_pkbuf_pull at 1. cbn [pk_before pk_data pk_after]. destruct (Nat.ltb_spec (length pdu) 6) as [|H6]; [done|]. cbn [pk_data].
  destruct (Nat.ltb_spec (length (drop 6 pdu)) 2) as [|Hd]; [done|]. intros [= H].
  rewrite length_drop in Hd. assert (Lh : length (take 6 pdu) = 6%nat) by (rewrite length_take; lia).
  pose proof (eps_header_octets pdu H6) as Hn.
  assert (Hb : is_byte (rx_sqn (take 6 pdu))) by (apply bytes_nth; by apply Forall_take).
  destruct (nas_security_decode_exact_eps u t (replicate 16 0) (take 6 pdu) (drop 6 pdu) []) as [b' E]; try done.
  - rewrite length_replicate. lia.
  - unfold nas_message, zlen in *. rewrite length_drop. split; [lia|]. split; [by apply Forall_drop|lia].
  - unfold zlen in *. rewrite length_drop. lia.
  - cbn [replicate app] in E. rewrite E in H. assert (Eff : integrity_protected (effective_type u t) = true).
    { unfold effective_type. rewrite Hc. cbn [integrity_protected]. rewrite Ht. by destruct (Z.eqb_spec (selected_int_algorithm u) 0). }
    rewrite Eff, orb_true_r in H. unfold rx_replay in H. rewrite Eff in H. cbn [andb] in H.
    destruct Hn as (Es & Em & Ed). rewrite Es, Em, Ed.
    change (bool_decide _) with (rx_good u 0 (take 6 pdu) (drop 6 pdu)). fold (rx_count u (take 6 pdu)).
    unfold context_after in H. rewrite Eff in H. destruct (rx_good u 0 (take 6 pdu) (drop 6 pdu)); cbn [andb] in H.
    + split; [by apply estimate_range; [apply Hu|]|]. destruct (ul_count_accepted u && _); by injection H as <- <- _.
    + injection H as _ <- _. by right.
Qed.

(** Where the counts start: any, or above the last accepted one. *)
Lemma nas_history_bound u pdus : nas_ctx_ok u → secured u → Forall pdu_ok pdus →
  StronglySorted Z.lt (nas_history u pdus) ∧ (ul_count_accepted u = true → Forall (λ c, ul_count u < c) (nas_history u pdus)).
Proof.
  intros Hu Hs Hp. revert u Hu Hs. induction Hp as [|pdu pdus Hok _ IH]; intros u Hu Hs; cbn [nas_history]; [split; constructor|].
  destruct (s1ap_receive_nas u pdu) as [|[[[rv u'] p']|]] eqn:E; [by apply IH| |split; constructor].
  pose proof (receive_verified u pdu rv u' p' Hu Hs Hok E) as H. destruct (verified_count u pdu) as [c|].
  - destruct H as [Hc H]. destruct (ul_count_accepted u && (c <=? ul_count u)) eqn:Ea; destruct H as [-> ->]; [by apply IH|].
    assert (Hu' : nas_ctx_ok (set_ul_count c true u)).
    { destruct Hu as (K1 & K2 & A1 & A2 & _). exact (conj K1 (conj K2 (conj A1 (conj A2 Hc)))). }
    destruct (IH (set_ul_count c true u) Hu' Hs) as [HS HF]. specialize (HF eq_refl).
    cbn [option_list app ul_count set_ul_count] in *. split; [by constructor|]. intros Ha. rewrite Ha in Ea. cbn [andb] in Ea.
    constructor; [lia|]. revert HF. apply List.Forall_impl. intros; lia.
  - assert (HI : StronglySorted Z.lt (nas_history u' pdus) ∧
      (ul_count_accepted u = true → Forall (λ c, ul_count u < c) (nas_history u' pdus))).
    { destruct H as [-> | ->]; [by apply IH|]. apply (IH (set_mac_failed u)); done. }
    by destruct rv.
Qed.

(** C4: whatever octets arrive - ciphered or not, service requests, with wrong
    codes, repeated or out of order - the messages that the MME accepts in a
    context with an algorithm for integrity, those whose code is right and for
    which the decoder returns OGS_OK, have strictly increasing counts, above
    the last one accepted before: no two messages are accepted at one count,
    and no octets twice at the same count. *)
Theorem nas_no_replay u pdus : nas_ctx_ok u → secured u → Forall pdu_ok pdus →
  StronglySorted Z.lt (nas_history u pdus) ∧ (ul_count_accepted u = true → Forall (λ c, ul_count u < c) (nas_history u pdus)).
Proof. apply nas_history_bound. Qed.

(** A message that is accepted, and then arrives again. *)
Definition sample_pdu : list Z := [39; 124; 210; 128; 23; 9; 148; 68; 135].
Lemma nas_no_replay_witness :
  nas_history sample_ue [[0xc7; 6; 1; 2]; sample_pdu; [0x27; 1; 2; 3; 4; 6; 7; 8]; sample_pdu] = [9] ∧
  StronglySorted Z.lt (nas_history sample_ue [[0xc7; 6; 1; 2]; sample_pdu; [0x27; 1; 2; 3; 4; 6; 7; 8]; sample_pdu]).
Proof.
  split; [vm_compute; reflexivity|]. apply (nas_no_replay sample_ue); [exact sample_ok|split; [discriminate|reflexivity]|].
  repeat (apply Forall_cons_2; [split; [by apply bytes_by_check|reflexivity]|]). apply Forall_nil_2.
Defined.

(** ** The messages that abort *)

(** A service request, of which all octets are there or not. *)
Lemma service_request_ok u pdu : nas_ctx_ok u → bytes pdu → (2 ≤ length pdu)%nat → zlen pdu < 2 ^ 28 →
  decode_service_request u (Pkbuf (replicate 16 0) pdu []) = None ↔
  selected_int_algorithm u ≠ 0 ∧ (length pdu < 4)%nat.
Proof.
  intros Hu Bp Lp Hmax. destruct (decide (selected_int_algorithm u = 0)) as [E0|H0].
  { unfold decode_service_request. rewrite E0. naive_solver. }
  destruct (service_request_exact u pdu Hu H0 Bp Lp Hmax) as [p' ->]. destruct (Nat.ltb_spec (length pdu) 4); [done|].
  split; [|lia]. destruct (service_good u pdu); [|done]. by destruct (ul_count_accepted u && _).
Qed.
Lemma received_type_service v t : received_type v = Some t → service_request t = true ↔ v = 12.
Proof.
  unfold received_type, encode_type, plain_type. destruct (Z.eqb_spec v 0); [intros [= <-]; subst; done|].
  destruct (Z.eqb_spec v 12); [by intros [= <-]|].
  destruct v as [|[[]|[[]|[]|]|]|]; try done; intros [= <-]; by split.
Qed.

(** C7: of all octets that may arrive for a UE with a context, exactly the
    service requests of 2 and 3 octets abort the MME when the context has an
    algorithm for integrity: the buffer has no room for the code that is read
    from behind them. *)
Theorem nas_abort_exactly u pdu : nas_ctx_ok u → bytes pdu → zlen pdu < 2 ^ 28 - 1 →
  s1ap_receive_nas u pdu = NAS_DECODED None ↔
  nth 0 pdu 0 >> 4 = 12 ∧ (2 ≤ length pdu < 4)%nat ∧ selected_int_algorithm u ≠ 0.
Proof.
  intros Hu Bp Hmax. unfold s1ap_receive_nas. destruct (Nat.ltb_spec (length pdu) 2) as [H2|H2]; [split; [done|lia]|].
  rewrite received_buffer. destruct (received_type (nth 0 pdu 0 >> 4)) as [t|] eqn:Et.
  2: { split; [done|]. intros [Hs _]. rewrite Hs in Et. done. }
  pose proof (received_type_service _ _ Et) as Hsv. destruct (service_request t) eqn:Es.
  - assert (E12 : nth 0 pdu 0 >> 4 = 12) by (by apply Hsv). rewrite E12 in Et. injection Et as <-. cbn [integrity_protected pk_data].
    destruct (Nat.ltb_spec (length pdu) 2); [lia|]. unfold nas_eps_security_decode. cbn [service_request].
    pose proof (service_request_ok u pdu Hu Bp H2 ltac:(lia)) as Hsr.
    split; [intros [= Hn]; apply Hsr in Hn; naive_solver lia|]. intros (_ & ? & ?). f_equal. apply Hsr. split; [done|lia].
  - split; [|intros [H _]; apply Hsv in H; done]. intros H. exfalso. revert H.
    assert (Hplain : ∀ b d a, integrity_protected t = false → NAS_DECODED (nas_eps_security_decode u t (Pkbuf b d a)) ≠ NAS_DECODED None).
    { intros b d a Ht. unfold nas_eps_security_decode, security_decode. rewrite Es.
      assert (Hct : ciphered t = false) by (destruct (received_type_integrity _ _ Et) as [?|Hct]; [congruence|];
        destruct (ciphered t); [specialize (Hct eq_refl); congruence|done]).
      assert (ciphered (effective_type u t) || integrity_protected (effective_type u t) = false) as ->; [|done].
      unfold effective_type. destruct (security_context_available u); cbn [ciphered integrity_protected]; by rewrite ?Ht, ?Hct. }
    destruct (integrity_protected t) eqn:Ht.
    + unfold ogs_pkbuf_pull at 1. cbn [pk_before pk_data pk_after]. destruct (Nat.ltb_spec (length pdu) 6); [done|]. cbn [pk_data].
      destruct (Nat.ltb_spec (length (drop 6 pdu)) 2) as [|Hd]; [done|]. intros H'.
      rewrite length_drop in Hd. assert (Lh : length (take 6 pdu) = 6%nat) by (rewrite length_take; lia).
      destruct (nas_security_decode_exact_eps u t (replicate 16 0) (take 6 pdu) (drop 6 pdu) []) as [b' E]; try done.
      * by apply bytes_nth, Forall_take.
      * rewrite length_replicate. lia.
      * unfold nas_message, zlen in *. rewrite length_drop. split; [lia|]. split; [by apply Forall_drop|lia].
      * unfold zlen in *. rewrite length_drop. lia.
      * rewrite E in H'. destruct (_ || _); [|done]. by destruct (rx_replay _ _ _ _ _).
    + cbn [pk_data]. destruct (Nat.ltb_spec (length pdu) 2); [lia|]. by apply Hplain.
Qed.

Lemma nas_abort_exactly_witness : s1ap_receive_nas sample_ue [0xc7; 6] = NAS_DECODED None.
Proof.
  apply (nas_abort_exactly sample_ue [0xc7; 6]); [exact sample_ok|by apply bytes_by_check|reflexivity|].
  split; [reflexivity|]. split; [cbn; lia|discriminate].
Defined.

(** ** Both sides *)

Lemma eps_front_type sht pd : 0 ≤ sht < 16 → nth 0 (eps_front sht pd) 0 >> 4 = sht.
Proof.
  intros Hs. unfold eps_front. cbn [nth]. change 0xf with (2 ^ 4 - 1). rewrite !land_mask by lia.
  rewrite (Z.mod_small sht), Z.shiftl_mul_pow2, lor_disjoint, Z.shiftr_div_pow2 by lia. lia.
Qed.
Lemma encode_type_ok sht : 1 ≤ sht ≤ 4 → ∃ t, encode_type sht = Some t ∧ received_type sht = Some t ∧
  integrity_protected t = true ∧ service_request t = false ∧ new_security_context t = (2 <? sht).
Proof.
  intros Hs. assert (sht = 1 ∨ sht = 2 ∨ sht = 3 ∨ sht = 4) as [-> | [-> | [-> | ->]]] by lia; by eexists.
Qed.
Lemma rx_header f m s : length f = 1%nat → length m = 4%nat →
  length (f ++ m ++ [s]) = 6%nat ∧ rx_sqn (f ++ m ++ [s]) = s ∧ rx_mac (f ++ m ++ [s]) = m.
Proof.
  intros Lf Lm. destruct f as [|x []]; try done. do 4 (destruct m as [|? m]; [done|]). by destruct m.
Qed.

(** The count of the sender, which starts anew with the context. *)
Definition sent_count (sht ul : Z) : Z := if 2 <? sht then 0 else ul.

(** C5: what the other side protects with the same keys, the MME accepts while
    its count is at most 255 behind: it has the message, and the count of the
    sender as the last accepted one - for every algorithm, header type and
    length of message, through the octets on the wire. *)
Theorem nas_uplink_roundtrip u sht pd ul b d a :
  nas_ctx_ok u → secured u → 1 ≤ sht ≤ 4 → nas_message d → (2 ≤ length d)%nat → zlen d < 2 ^ 28 - 7 →
  (9 ≤ length b)%nat →
  let count := sent_count sht ul in
  0 ≤ count < 2 ^ 24 → ul_count u ≤ count < ul_count u + 256 → (ul_count_accepted u = true → ul_count u < count) →
  ∃ b' pdu r,
    test_nas_security_encode (eps_front sht pd) NAS_SECURITY_BEARER u ul sht (Some (Pkbuf b d a)) =
      Some ((count + 1) mod 2 ^ 24, Some (Pkbuf b' pdu a)) ∧
    s1ap_receive_nas u pdu = NAS_DECODED (Some (OGS_OK, set_ul_count count true u, r)) ∧ pk_data r = d.
Proof.
  intros Hu Hsec Hs Hd Ld Hmax Lb. cbv zeta. set (count := sent_count sht ul). intros Hc Hnear Hnew.
  destruct (encode_type_ok sht Hs) as (t & Et & Er & Hi & Hsv & Hn). pose proof Hu as (Hke & Hki & He & Hint & Hcu).
  pose proof Hsec as [Hi0 Hav].
  assert (Hp : nas_params count NAS_SECURITY_BEARER OGS_NAS_SECURITY_UPLINK_DIRECTION).
  { unfold nas_params, is_word, NAS_SECURITY_BEARER, OGS_NAS_SECURITY_UPLINK_DIRECTION. lia. }
  destruct (protect_ok (eps_front sht pd) (selected_enc_algorithm u) (selected_int_algorithm u) (knas_enc u) (knas_int u) count
    NAS_SECURITY_BEARER OGS_NAS_SECURITY_UPLINK_DIRECTION t (Pkbuf b d a) Hke Hki Hp He ltac:(lia) Hi Hd
    ltac:(cbn [pk_data]; lia) Lb ltac:(cbn; lia)) as [b' Ep]. cbn [pk_data pk_after] in Ep.
  set (c := ciphered_data _ _ _ _ _ _ _) in *. set (s := count .& 0xff) in *. set (m := nas_mac _ _ _ _ _ _) in *.
  assert (Lc : length c = length d) by (by apply ciphered_data_length).
  assert (Hcm : nas_message c) by (by apply ciphered_data_message).
  assert (Lm : length m = 4%nat) by apply nas_mac_length.
  destruct (rx_header (eps_front sht pd) m s eq_refl Lm) as (Lh & Es & Em). set (h := eps_front sht pd ++ m ++ [s]) in *.
  assert (Epdu : eps_front sht pd ++ m ++ [s] ++ c = h ++ c) by (unfold h; by rewrite <- !app_assoc). rewrite Epdu in Ep.
  destruct (nas_security_decode_exact_eps u t (replicate 16 0) h c []) as [b'' Ed].
  { done. } { rewrite Es. apply sqn_byte. } { rewrite length_replicate. lia. } { done. }
  { unfold zlen in *. rewrite Lc. lia. } { done. } { done. }
  exists b', (h ++ c), (Pkbuf b'' d []). split; [|split; [|done]].
  - unfold test_nas_security_encode. destruct (Z.eqb_spec sht 0); [lia|]. rewrite Et, Hn.
    change (if 2 <? sht then 0 else ul) with count. rewrite Ep. do 2 f_equal.
    change 0xffffff with (2 ^ 24 - 1). rewrite land_mask by lia. unfold u32. rewrite (Z.mod_small (count + 1) (2 ^ 32)) by lia. done.
  - unfold s1ap_receive_nas. destruct (Nat.ltb_spec (length (h ++ c)) 2); [rewrite length_app in *; lia|].
    rewrite received_buffer. assert (E0 : nth 0 (h ++ c) 0 = nth 0 (eps_front sht pd) 0) by done.
    rewrite E0, eps_front_type, Er, Hi, pull_eq by (done || lia). cbn [pk_data].
    destruct (Nat.ltb_spec (length c) 2); [lia|]. rewrite Ed. f_equal.
    assert (Hx : rx_count u h = count).
    { unfold rx_count. rewrite Es. unfold s. change 0xff with (2 ^ 8 - 1). rewrite land_mask by lia. apply estimate_ok; lia. }
    assert (Eff : integrity_protected (effective_type u t) = true ∧ ciphered (effective_type u t) = ciphered t && negb (selected_enc_algorithm u =? 0)).
    { unfold effective_type. rewrite Hav. cbn [integrity_protected ciphered]. rewrite Hi.
      destruct (Z.eqb_spec (selected_int_algorithm u) 0); done. }
    destruct Eff as [Ei Ec]. rewrite Ei, orb_true_r.
    assert (Hg : rx_good u 0 h c = true).
    { unfold rx_good. rewrite Hx, Es, Em. by apply bool_decide_eq_true_2. }
    assert (Hr : rx_replay u 0 (effective_type u t) h c = false).
    { unfold rx_replay. rewrite Hx. destruct (ul_count_accepted u); [|by rewrite andb_false_r].
      specialize (Hnew eq_refl). rewrite (proj2 (Z.leb_gt _ _)) by lia. apply andb_false_r. }
    rewrite Hr, Hg. unfold context_after. rewrite Ei, Hx. do 2 f_equal.
    unfold rx_data. rewrite Hx, Ec. f_equal. unfold ciphered_data at 1. rewrite <- andb_assoc, andb_diag.
    apply (ciphered_data_twice (ciphered t) (selected_enc_algorithm u) (knas_enc u) count 0); done.
Qed.

Lemma nas_uplink_roundtrip_witness :
  ∃ b' pdu r,
    test_nas_security_encode (eps_front 2 7) NAS_SECURITY_BEARER sample_ue 9 2 (Some (Pkbuf (replicate 16 0) [0x07; 0x43; 1] [])) =
      Some (10, Some (Pkbuf b' pdu [])) ∧
    s1ap_receive_nas sample_ue pdu = NAS_DECODED (Some (OGS_OK, set_ul_count 9 true sample_ue, r)) ∧ pk_data r = [0x07; 0x43; 1].
Proof.
  apply (nas_uplink_roundtrip sample_ue 2 7 9 (replicate 16 0) [0x07; 0x43; 1] []).
  - exact sample_ok.
  - split; [discriminate|reflexivity].
  - lia.
  - split; [cbn; lia|]. split; [by apply bytes_by_check|reflexivity].
  - cbn. lia.
  - reflexivity.
  - cbn. lia.
  - cbn. lia.
  - cbn. lia.
  - intros _. reflexivity.
Defined.
