(* ===== verification/NasCounts.v ===== *)
(** * The context of a UE through a session of EPS NAS *)
From S2P Require Import Prelude XactBase Octets Words Pkbuf NasSecurity NasSecuritySpec NasExchange.
#[local] Open Scope Z_scope.
#[local] Open Scope c_scope.
#[local] Ltac Zify.zify_post_hook ::= Z.to_euclidean_division_equations.

(** What happens to the context: octets that arrive, and a message that is
    sent, with the buffer that its encoding gave. *)
Inductive nas_event :=
  | Uplink (pdu : list Z)
  | Downlink (security_header_type protocol_discriminator : Z) (plain : option pkbuf).
(** The context afterwards; [None] when an assertion fails. *)
Definition nas_event_run (u : nas_ue) (e : nas_event) : option nas_ue :=
  match e with
  | Uplink pdu =>
      match s1ap_receive_nas u pdu with
      | NAS_REJECTED => Some u
      | NAS_DECODED r => (λ '(_, u', _), u') <$> r
      end
  | Downlink sht pd plain => fst <$> nas_eps_security_encode u sht pd plain
  end.
Fixpoint nas_session (u : nas_ue) (es : list nas_event) : option nas_ue :=
  match es with
  | [] => Some u
  | e :: es => u ← nas_event_run u e; nas_session u es
  end.

(** The specification of the downlink count: one more for each protected
    message, in 24 bits, and from zero with a new context. *)
Definition downlink_count (c : Z) (e : nas_event) : Z :=
  match e with
  | Downlink sht _ plain =>
      let c := if bool_decide (sht = 3 ∨ sht = 4) then 0 else c in
      if bool_decide (1 ≤ sht ≤ 4) && bool_decide (is_Some plain) then (c + 1) mod 2 ^ 24 else c
  | Uplink _ => c
  end.

Definition event_typed (e : nas_event) : Prop := match e with Uplink pdu => bytes pdu | Downlink _ _ _ => True end.
(** The context within its types: keys of 16 bytes, known algorithms, counts of 24 bits. *)
Definition nas_typed (u : nas_ue) : Prop := nas_ctx_ok u ∧ 0 ≤ dl_count u < 2 ^ 24.
(** What only a new authentication changes. *)
Definition same_keys (u u' : nas_ue) : Prop :=
  knas_enc u' = knas_enc u ∧ knas_int u' = knas_int u ∧
  selected_enc_algorithm u' = selected_enc_algorithm u ∧ selected_int_algorithm u' = selected_int_algorithm u.

(** ** Sending *)

Lemma encode_type_bits sht t : encode_type sht = Some t → 1 ≤ sht ≤ 4 ∧ new_security_context t = bool_decide (sht = 3 ∨ sht = 4).
Proof.
  unfold encode_type. destruct sht as [|[[]|[[]|[]|]|]|]; try done; intros [= <-]; (split; [lia|]); cbn; symmetry;
    first [apply bool_decide_eq_true_2; lia|apply bool_decide_eq_false_2; lia].
Qed.
Lemma encode_type_none sht : encode_type sht = None → ¬ 1 ≤ sht ≤ 4.
Proof. intros H Hs. destruct (encode_type_ok sht Hs) as (t & E & _). congruence. Qed.

Lemma downlink_step u sht pd plain u' r :
  nas_typed u → nas_eps_security_encode u sht pd plain = Some (u', r) →
  nas_typed u' ∧ same_keys u u' ∧ dl_count u' = downlink_count (dl_count u) (Downlink sht pd plain).
Proof.
  intros [Hu Hd] E. unfold nas_eps_security_encode, security_encode in E. cbn [downlink_count].
  destruct (Z.eqb_spec sht 0) as [->|H0]; [by injection E as <- <-|].
  destruct (encode_type sht) as [t|] eqn:Et.
  2: { injection E as <- <-. apply encode_type_none in Et. split; [done|]. split; [done|].
    rewrite (bool_decide_eq_false_2 (sht = 3 ∨ sht = 4)), (bool_decide_eq_false_2 (1 ≤ sht ≤ 4)) by lia. done. }
  apply encode_type_bits in Et as [Hs Ht]. rewrite Ht in E. rewrite (bool_decide_eq_true_2 (1 ≤ sht ≤ 4)) by done.
  set (c := if bool_decide (sht = 3 ∨ sht = 4) then 0 else dl_count u).
  set (u1 := if bool_decide (sht = 3 ∨ sht = 4) then reset_counts u else u) in E.
  assert (H1 : nas_typed u1 ∧ same_keys u u1 ∧ dl_count u1 = c).
  { subst u1 c. case_bool_decide; [|done]. destruct Hu as (K1 & K2 & A1 & A2 & C1).
    split; [|done]. split; [|done]. exact (conj K1 (conj K2 (conj A1 (conj A2 (conj (Z.le_refl 0) eq_refl))))). }
  destruct H1 as ([Hu1 Hd1] & Hk1 & Hc1). destruct plain as [p|].
  - destruct (protect _ _ _ _ _ _ _ _ _ p) as [new|]; [|done]. injection E as <- <-.
    rewrite bool_decide_eq_true_2 by done. cbn [andb].
    assert (Hn : dl_count (next_dl_count u1) = (c + 1) mod 2 ^ 24).
    { cbn. change 0xffffff with (2 ^ 24 - 1). rewrite land_mask, Hc1 by lia. unfold u32. lia. }
    split; [split; [exact Hu1|rewrite Hn; lia]|]. split; [exact Hk1|exact Hn].
  - injection E as <- <-. rewrite bool_decide_eq_false_2 by (by intros []). done.
Qed.

(** ** Receiving *)

(** The count moves to an estimate or not at all. *)
Definition count_step (u u' : nas_ue) : Prop :=
  u' = u ∨ u' = set_mac_failed u ∨ ∃ s acc, is_byte s ∧ u' = set_ul_count (estimate (ul_count u) s) acc u.

Lemma decode_protected_count hdr bearer u t p rv u' p' :
  bytes (pk_memory p) → decode_protected hdr bearer u t p = Some (rv, u', p') → count_step u u'.
Proof.
  intros Hb. unfold decode_protected. destruct (ogs_pkbuf_push hdr p) as [p1|] eqn:E1; [|done].
  destruct (ogs_pkbuf_pull (hdr - 1) p1) as [p2|]; [|done]. cbv zeta.
  set (s := nth (hdr - 1) (pk_data p1) 0). assert (Hs : is_byte s).
  { apply bytes_nth. unfold ogs_pkbuf_push in E1. destruct (_ <? hdr)%nat; [done|]. injection E1 as <-. cbn [pk_data].
    apply Forall_app in Hb as [Hb0 [Hb1 _]%Forall_app]. by apply Forall_app_2; [apply Forall_drop|]. }
  assert (Hset : ∀ acc, count_step u (set_ul_count (estimate (ul_count u) s) acc u)) by (right; right; eauto).
  set (checked := if integrity_protected t then _ else _).
  assert (Hc : ∀ rv2 u2 p3, checked = Some (rv2, u2, p3) → count_step u u2).
  { intros rv2 u2 p3. subst checked. destruct (integrity_protected t); [|by intros [= <- <- <-]].
    destruct (ogs_nas_mac_calculate _ _ _ _ _ _) as [[[mac|] p4]|]; [|done|done].
    destruct (negb _); [intros [= <- <- <-]; by right; left|].
    destruct (ul_count_accepted u && _); intros [= <- <- <-]; [by left|done]. }
  clearbody checked. destruct checked as [[[[| | | |] u2] p3]|]; try done; specialize (Hc _ _ _ eq_refl);
    try (intros [= <- <- <-]; done).
  destruct (ogs_pkbuf_pull 1 p3) as [p5|]; [|done]. destruct (ciphered t); [|by intros [= <- <- <-]].
  destruct (length (pk_data p5) =? 0)%nat; [by intros [= <- <- <-]|].
  destruct (ogs_nas_encrypt _ _ _ _ _ p5); [|done]. by intros [= <- <- <-].
Qed.
Lemma decode_service_count u p rv u' p' : decode_service_request u p = Some (rv, u', p') → count_step u u'.
Proof.
  unfold decode_service_request. destruct (selected_int_algorithm u =? 0); [intros [= _ <- _]; by left|].
  cbv zeta. set (s := service_sqn _ _). assert (Hs : is_byte s) by apply service_sqn_byte.
  destruct (ogs_pkbuf_trim 2 p) as [_ p1].
  destruct (ogs_nas_mac_calculate _ _ _ _ _ p1) as [[[mac|] p2]|]; [|done|done].
  destruct (ogs_pkbuf_put_data _ p2) as [p3|]; [|done]. destruct (negb _).
  - intros [= _ <- _]. right. by left.
  - destruct (ul_count_accepted u && _); intros [= _ <- _]; [by left|]. right. right. eauto.
Qed.
Lemma receive_count u pdu rv u' p' :
  bytes pdu → s1ap_receive_nas u pdu = NAS_DECODED (Some (rv, u', p')) → count_step u u'.
Proof.
  intros Hb. unfold s1ap_receive_nas. destruct (length pdu <? 2)%nat; [done|]. rewrite received_buffer.
  destruct (received_type _) as [t|]; [|done].
  set (q := if integrity_protected t then _ else _).
  assert (Hq : ∀ p, q = Some p → bytes (pk_memory p)).
  { intros p. subst q. destruct (integrity_protected t).
    2: { intros [= <-]. repeat apply Forall_app_2; [apply (bytes_zeros 16)|done|constructor]. }
    unfold ogs_pkbuf_pull. destruct (_ <? _)%nat; [done|]. intros [= <-].
    refine (Forall_app_2 _ _ _ (Forall_app_2 _ _ _ (bytes_zeros 16) _) (Forall_app_2 _ _ _ _ _)); [by apply Forall_take|by apply Forall_drop|constructor]. }
  clearbody q. destruct q as [p|]; [|done]. specialize (Hq p eq_refl).
  destruct (length (pk_data p) <? 2)%nat; [done|]. intros [= E]. unfold nas_eps_security_decode in E.
  destruct (service_request t); [by eapply decode_service_count|]. unfold security_decode in E.
  destruct (_ || _); [by eapply decode_protected_count|]. injection E as _ <- _. by left.
Qed.
Lemma count_step_typed u u' : nas_typed u → count_step u u' → nas_typed u' ∧ same_keys u u' ∧ dl_count u' = dl_count u.
Proof.
  intros [Hu Hd] [->|[->|(s & acc & Hs & ->)]]; [done|done|]. destruct Hu as (H1 & H2 & H3 & H4 & H5).
  pose proof (estimate_range (ul_count u) s H5 Hs) as R. split; [|done]. split; [|done].
  exact (conj H1 (conj H2 (conj H3 (conj H4 R)))).
Qed.

(** C8: whatever octets arrive and whatever is sent, in any order, while no
    assertion fails: the context of a UE stays within its types - counts of 24
    bits, algorithms that the code knows, keys of 16 octets - the keys and
    algorithms stay those of the authentication, and the downlink count is the
    number of protected messages since the last new context, modulo 2^24 (so
    that a count is used again under the same keys after 2^24 messages, which
    nothing prevents). *)
Theorem nas_context_typed u es u' :
  nas_typed u → Forall event_typed es → nas_session u es = Some u' →
  nas_typed u' ∧ same_keys u u' ∧ dl_count u' = foldl downlink_count (dl_count u) es.
Proof.
  intros Hu Hes. revert u Hu. induction Hes as [|e es He _ IH]; intros u Hu E; [by injection E as <-|].
  cbn [nas_session foldl] in *. destruct (nas_event_run u e) as [u1|] eqn:E1; [|done]. cbn [mbind option_bind] in E.
  assert (H1 : nas_typed u1 ∧ same_keys u u1 ∧ dl_count u1 = downlink_count (dl_count u) e).
  { destruct e as [pdu|sht pd plain]; cbn [nas_event_run] in E1.
    - destruct (s1ap_receive_nas u pdu) as [|[[[rv u2] p]|]] eqn:Er; [by injection E1 as <-| |done].
      injection E1 as <-. apply count_step_typed; [done|]. by eapply receive_count.
    - destruct (nas_eps_security_encode u sht pd plain) as [[u2 r]|] eqn:Er; [|done]. injection E1 as <-.
      by eapply downlink_step. }
  destruct H1 as (H1 & K1 & D1). destruct (IH u1 H1 E) as (H2 & K2 & D2). rewrite <- D1. split; [done|]. split; [|done].
  destruct K1 as (? & ? & ? & ?), K2 as (? & ? & ? & ?). repeat split; congruence.
Qed.
Definition sample_session : list nas_event := [Uplink [0xc7; 6; 1; 2]; Downlink 2 7 (Some (Pkbuf (replicate 16 0) [7; 8] []))].
Lemma nas_context_typed_witness :
  ∃ u', nas_session sample_ue sample_session = Some u' ∧ nas_typed u' ∧ dl_count u' = 1.
Proof.
  assert (Hu : nas_typed sample_ue) by (split; [exact sample_ok|by cbn]).
  assert (Hes : Forall event_typed sample_session) by (constructor; [by apply bytes_by_check|by repeat constructor]).
  assert (Hc : foldl downlink_count (dl_count sample_ue) sample_session = 1) by by vm_compute.
  assert (E : is_Some (nas_session sample_ue sample_session)) by (vm_compute; by eexists).
  destruct E as [u' E]. exists u'. destruct (nas_context_typed _ _ _ Hu Hes E) as (H1 & _ & H2).
  exact (conj E (conj H1 (eq_trans H2 Hc))).
Defined.
