(* ===== verification/OctetSpec.v ===== *)
(** * Information elements as octets: shared lemmas

    The steps of builds whose fields fit, of parses of what was built, and of
    parses of any octets; and what identities, keys and numbers in texts
    mean. *)
From S2P Require Import Prelude XactBase Octets Words.
#[local] Open Scope Z_scope.

(** ** Automation for builds and parses *)

(** Lengths are not negative. *)
Ltac zlen_pos :=
  repeat match goal with
  | |- context [zlen ?l] =>
      lazymatch goal with H : 0 ≤ zlen l |- _ => fail | _ => pose proof (zlen_nonneg l) end
  | H : context [zlen ?l] |- _ =>
      lazymatch goal with H' : 0 ≤ zlen l |- _ => fail | _ => pose proof (zlen_nonneg l) end
  end.
Ltac fits := repeat rewrite zlen_app in *; change (zlen (@nil Z)) with 0 in *; zlen_pos; lia.

Lemma zlen_be_bytes n x : zlen (be_bytes n x) = Z.of_nat n.
Proof. unfold zlen. by rewrite be_bytes_length. Qed.
Lemma le_bytes_byte x : 0 ≤ x < 256 → le_bytes 1 x = [x].
Proof. intros. cbn. by rewrite Z.mod_small. Qed.

(** Steps of a build all of whose fields fit. *)
Ltac build_step :=
  first [rewrite put_ok; [|fits|fits] | rewrite put_when_ok; [|fits|fits]]; cbn [mbind option_bind].

(** An optional field as it is parsed. *)
Definition masked (b : bool) (x : Z) : Z := if b then x else 0.

(** Integers of [n] bytes. *)
Definition int_range (n : nat) (x : Z) : Prop := 0 ≤ x < 2 ^ (8 * Z.of_nat n).

Section steps.
Context {F : Type}.
Implicit Types (f : F) (g : F → F).
Variable octet : list Z.

(** The flags octet. *)
Lemma pwp_flags_at fl rest (k : list Z → P F Z) Q R f :
  octet = [fl] ++ rest → (at_rest octet 1 rest → pwp (k [fl]) Q R f 1) → pwp (field octet return_0 1 ≫= k) Q R f 0.
Proof.
  intros E Hk. apply pwp_bind. eapply (pwp_field_at octet return_0 0 [fl] rest 1); [|done|done].
  rewrite <- E. apply at_start.
Qed.

(** An optional integer field in network order. *)
Lemma pwp_opt_int b n (set : Z → F → F) x s rest (Q : unit → F → Z → Prop) R f :
  at_rest octet s (opt b (be_bytes n x) ++ rest) → 0 ≤ x < 2 ^ (8 * Z.of_nat n) →
  (at_rest octet (s + zlen (opt b (be_bytes n x))) rest →
   Q tt (if b then set x f else f) (s + zlen (opt b (be_bytes n x)))) →
  pwp (p_when b (int_field octet return_0 (Z.of_nat n) (bswap n) set)) Q R f s.
Proof.
  intros Hat Hx HQ. eapply (pwp_opt_at octet b _ (set x)); [exact Hat| |exact HQ].
  intros Hat'. eapply pwp_mono; [by eapply pwp_int_field_at; [|apply zlen_be_bytes]|].
  intros [] f' s' [-> ->]. by rewrite bswap_roundtrip.
Qed.

(** The same when the field was zero before. *)
Lemma pwp_masked_int b n (set : Z → F → F) x s rest (Q : unit → F → Z → Prop) R f :
  at_rest octet s (opt b (be_bytes n x) ++ rest) → 0 ≤ x < 2 ^ (8 * Z.of_nat n) → set 0 f = f →
  (at_rest octet (s + zlen (opt b (be_bytes n x))) rest →
   Q tt (set (masked b x) f) (s + zlen (opt b (be_bytes n x)))) →
  pwp (p_when b (int_field octet return_0 (Z.of_nat n) (bswap n) set)) Q R f s.
Proof.
  intros Hat Hx H0 HQ. eapply pwp_opt_int; [exact Hat|exact Hx|]. destruct b; [exact HQ|].
  cbn [masked] in HQ. by rewrite H0 in HQ.
Qed.

(** The end of a parse. *)
Lemma pwp_finish (h : Z → Z) (Q : Z → F → Z → Prop) R f s :
  Q (h s) f s → pwp (size ← get_size; mret (h size)) Q R f s.
Proof. done. Qed.
(** ... that consumed everything. *)
Lemma at_end s : at_rest octet s [] → s = zlen octet.
Proof. intros (_ & H & _). change (zlen []) with 0 in H. lia. Qed.
End steps.

(** A rate of less than 2^40 kbps at offset [s]. *)
Lemma pwp_rate_at {F} octet s k rest (Q : Z → F → Z → Prop) R f :
  at_rest octet s (be_bytes 5 k ++ rest) → 0 ≤ k < 2 ^ 40 →
  (at_rest octet (s + 5) rest → Q (k * 1000) f (s + 5)) → pwp (parse_rate octet) Q R f s.
Proof.
  intros Hat Hk HQ. unfold parse_rate. apply pwp_bind. eapply pwp_memcpy_at; [exact Hat|done|].
  apply at_next in Hat. specialize (HQ Hat). unfold pwp, mbind, P_bind, advance, mret, P_ret.
  rewrite buffer_to_uint64 by (apply be_bytes_bytes || (rewrite be_bytes_length; lia)).
  rewrite be_value_bytes, (Z.mod_small k) by done. by rewrite Z.mod_small by lia.
Qed.

(** ** Any octets *)

Section any.
Context {F : Type}.
Variable octet : list Z.
Hypothesis octet_bytes : bytes octet.
Implicit Types (f : F).

(** What was consumed at offset [s]. *)
Abbreviation consumed s := (take (Z.to_nat s) octet).

Lemma consumed_next s bs rest : at_rest octet s (bs ++ rest) → consumed (s + zlen bs) = consumed s ++ bs.
Proof.
  intros (H1 & H2 & H3). rewrite zlen_app in H2. unfold zlen in *.
  rewrite <- (take_drop (Z.to_nat s) octet) at 1. rewrite H3. rewrite take_app.
  rewrite length_take_le by lia. replace (Z.to_nat (s + Z.of_nat (length bs)) - Z.to_nat s)%nat with (length bs) by lia.
  rewrite take_app_length. f_equal. rewrite take_take. f_equal. lia.
Qed.

(** An optional integer field of any element. *)
Lemma pwp_any_int b n (set : Z → F → F) (Q : unit → F → Z → Prop) R f s :
  0 ≤ s ≤ zlen octet → set 0 f = f → R 0 f →
  (∀ x s', int_range n x → s' = s + zlen (opt b (be_bytes n x)) → s' ≤ zlen octet →
     consumed s' = consumed s ++ opt b (be_bytes n x) → Q tt (set (masked b x) f) s') →
  pwp (p_when b (int_field octet return_0 (Z.of_nat n) (bswap n) set)) Q R f s.
Proof.
  intros Hs H0 HR HQ. destruct b; cbn [p_when].
  - unfold int_field. apply pwp_bind. eapply pwp_field_split; [done|lia|lia|done|].
    intros bs rest Hat Hn Hb Hle. unfold pwp, assign.
    assert (En : length bs = n) by (unfold zlen in Hn; lia).
    assert (E : be_bytes n (be_value bs) = bs) by (rewrite <- En; by apply be_bytes_value).
    rewrite (bswap_le_value bs n) by done.
    change (be_value bs) with (masked true (be_value bs)). apply HQ; cbn [opt masked]; rewrite ?E.
    + unfold int_range. rewrite <- En. by apply be_value_range.
    + lia.
    + done.
    + rewrite <- Hn. by eapply consumed_next.
  - unfold pwp, mret, P_ret. rewrite <- H0. apply (HQ 0 s); cbn [opt].
    + split; [done|]. apply Z.pow_pos_nonneg; lia.
    + change (zlen []) with 0. lia.
    + lia.
    + by rewrite app_nil_r.
Qed.

(** The flags octet of any element. *)
Lemma pwp_any_flags (k : list Z → P F Z) Q R f :
  R 0 f → (∀ fl, 0 ≤ fl < 256 → 1 ≤ zlen octet → consumed 1 = [fl] → pwp (k [fl]) Q R f 1) →
  pwp (field octet return_0 1 ≫= k) Q R f 0.
Proof.
  intros HR HQ. apply pwp_bind. eapply pwp_field_split; [done|lia|lia|done|].
  intros bs rest Hat Hn Hb Hle. destruct bs as [|fl [|]]; unfold zlen in Hn; cbn in Hn; try lia.
  apply HQ; [by apply Forall_cons in Hb as [? _]|lia|]. by apply (consumed_next 0 [fl] rest).
Qed.
End any.

Lemma opt_masked b n x : opt b (be_bytes n (masked b x)) = opt b (be_bytes n x).
Proof. by destruct b. Qed.
Lemma masked_range b n x : int_range n x → int_range n (masked b x).
Proof. destruct b; [done|]. intros _. split; [done|]. apply Z.pow_pos_nonneg; lia. Qed.

(** A whole element, from the part that was consumed. *)
Lemma consumed_all (octet : list Z) s bs :
  s = zlen octet → take (Z.to_nat s) octet = bs → bs = octet.
Proof. intros -> <-. unfold zlen. by rewrite Nat2Z.id, take_ge. Qed.
Ltac rewrite_consumed :=
  repeat match goal with H : take _ ?o = _ |- context [take _ ?o] => rewrite H end; by rewrite ?app_nil_r, <- ?app_assoc.


(** ** Texts *)

Section texts.
Import Conv.

(** Writing the next octet of an object whose first [pre] are written. *)
Lemma poke_next pre x old post : is_byte x → poke (pre ++ old :: post) (length pre) x = Some (pre ++ x :: post).
Proof.
  intros Hx. unfold poke. rewrite length_app. cbn [length].
  replace (length pre <? length pre + S (length post))%nat with true by (symmetry; apply Nat.ltb_lt; lia).
  rewrite Z.mod_small by exact Hx. by rewrite insert_app_r_alt, Nat.sub_diag by lia.
Qed.
Lemma peek_next (pre : list Z) x post : (pre ++ x :: post) !! length pre = Some x.
Proof. by apply list_lookup_middle. Qed.

(** *** Decimal digits, two in an octet *)

Definition low_digit (b : Z) : Z := 0x30 + Z.land b 0x0f.
Definition high_digit (b : Z) : Z := 0x30 + Z.shiftr (Z.land b 0xf0) 4.
(** The octets as digits; the last may have a filler for its second one. *)
Definition has_filler (bs : list Z) : bool := match last bs with Some b => Z.land b 0xf0 =? 0xf0 | None => false end.
Definition all_digits (bs : list Z) : list Z := concat ((λ b, [low_digit b; high_digit b]) <$> bs).
Definition bcd_text (bs : list Z) : list Z := if has_filler bs then take (length (all_digits bs) - 1) (all_digits bs) else all_digits bs.

Lemma digit_bytes b : is_byte b → is_byte (low_digit b) ∧ is_byte (high_digit b).
Proof.
  intros Hb.
  pose proof (all_bytes_spec (λ b, ((0 <=? low_digit b) && (low_digit b <? 256)) && ((0 <=? high_digit b) && (high_digit b <? 256)))
    ltac:(vm_compute; reflexivity) b Hb) as H. cbn beta in H. unfold is_byte. lia.
Qed.
Lemma nibbles_of b : is_byte b →
  low_nibble (low_digit b - 0x30) = Z.land b 0x0f ∧ Z.lor (Z.land b 0x0f) (high_nibble (high_digit b - 0x30)) = b ∧
  (Z.land b 0xf0 = 0xf0 → Z.lor (Z.land b 0x0f) 0xf0 = b).
Proof.
  intros Hb.
  pose proof (all_bytes_spec (λ b, (low_nibble (low_digit b - 0x30) =? Z.land b 0x0f) &&
      (Z.lor (Z.land b 0x0f) (high_nibble (high_digit b - 0x30)) =? b) &&
      (negb (Z.land b 0xf0 =? 0xf0) || (Z.lor (Z.land b 0x0f) 0xf0 =? b)))
    ltac:(vm_compute; reflexivity) b Hb) as H. cbn beta in H. lia.
Qed.
Lemma low_nibble_byte b : is_byte b → is_byte (Z.land b 0x0f).
Proof. intros Hb. change 0x0f with (2 ^ 4 - 1). rewrite land_mask by lia. unfold is_byte. pose proof (Z.mod_pos_bound b (2 ^ 4)). lia. Qed.

Lemma digits_length bs : length (all_digits bs) = (2 * length bs)%nat.
Proof. induction bs as [|b bs IH]; [done|]. unfold all_digits in *. cbn [fmap list_fmap concat app length]. lia. Qed.
Lemma digits_snoc bs b : all_digits (bs ++ [b]) = all_digits bs ++ [low_digit b; high_digit b].
Proof. unfold all_digits. by rewrite fmap_app, concat_app. Qed.

(** Two elements of a list that is long enough. *)
Lemma two_more (old : list Z) n : length old = S (S n) → ∃ x y rest, old = x :: y :: rest ∧ length rest = n.
Proof. destruct old as [|x [|y old]]; intros [=]; eauto. Qed.

Lemma to_bcd_loop_exact bs : bytes bs → ∀ i pre old post, length pre = (i * 2)%nat → length old = (2 * length bs)%nat →
  to_bcd_loop (length bs) bs i (pre ++ old ++ post) = Some (pre ++ all_digits bs ++ post).
Proof.
  induction 1 as [|b bs Hb Hbs IH]; intros i pre old post Hp Ho; [by destruct old|].
  cbn [length] in Ho. destruct (two_more old (2 * length bs)) as (x & y & rest & -> & Hr); [lia|].
  destruct (digit_bytes b Hb) as [H1 H2]. cbn [to_bcd_loop length app]. rewrite <- Hp, poke_next by done. cbn [mbind option_bind].
  rewrite (cons_middle (0x30 + _)), (app_assoc pre).
  replace (length pre + 1)%nat with (length (pre ++ [low_digit b])) by (rewrite length_app; done).
  fold (low_digit b) (high_digit b). rewrite poke_next by done. cbn [mbind option_bind].
  rewrite (cons_middle (high_digit b)), app_assoc, (IH (S i)); [|rewrite !length_app; cbn; lia|done].
  unfold all_digits. cbn. by rewrite <- !app_assoc.
Qed.

Lemma bcd_loop_pairs bs rest : bytes bs → ∀ i pre old post, length pre = i → length old = length bs →
  bcd_loop low_nibble high_nibble (all_digits bs ++ rest) (i * 2) (pre ++ old ++ post) =
  bcd_loop low_nibble high_nibble rest ((i + length bs) * 2) (pre ++ bs ++ post).
Proof.
  induction 1 as [|b bs Hb Hbs IH]; intros i pre old post Hp Ho.
  { destruct old; [|done]. by rewrite Nat.add_0_r. }
  destruct old as [|x old]; [done|]. injection Ho as Ho. destruct (nibbles_of b Hb) as (H1 & H2 & _).
  unfold all_digits. cbn [fmap list_fmap concat app bcd_loop]. fold (all_digits bs).
  rewrite Nat.odd_mul, andb_false_r, Nat.div_mul, <- Hp, H1, poke_next by (done || by apply low_nibble_byte).
  cbn [mbind option_bind]. replace (Nat.odd (S (length pre * 2))) with true.
  2: { rewrite Nat.odd_succ, Nat.even_mul. by rewrite orb_true_r. }
  replace (S (length pre * 2) / 2)%nat with (length pre).
  2: { rewrite <- (Nat.add_1_l (_ * 2)), Nat.div_add by lia. done. }
  rewrite peek_next. cbn [mbind option_bind]. rewrite H2, poke_next by done. cbn [mbind option_bind].
  rewrite (cons_middle b), app_assoc. replace (S (S (length pre * 2))) with (S (length pre) * 2)%nat by lia.
  rewrite (IH (S (length pre))) by (rewrite ?length_app; cbn; lia || done).
  rewrite <- app_assoc. cbn [app length]. f_equal. lia.
Qed.

Lemma has_filler_snoc bs b : has_filler (bs ++ [b]) = (Z.land b 0xf0 =? 0xf0).
Proof. unfold has_filler. by rewrite last_snoc. Qed.
Lemma bcd_text_length bs : length (bcd_text bs) = (if has_filler bs then 2 * length bs - 1 else 2 * length bs)%nat.
Proof. unfold bcd_text. destruct (has_filler bs); rewrite ?length_take, digits_length; lia. Qed.

Lemma buffer_to_bcd_exact bs out : bytes bs → zlen bs ≤ INT_MAX / 2 →
  ogs_buffer_to_bcd bs (zlen bs) out (zlen out) =
    Some (if zlen out <? zlen (bcd_text bs) + 1 then (false, out)
          else (true, bcd_text bs ++ 0 :: drop (length (bcd_text bs) + 1) out)).
Proof.
  intros Hb Hlen. unfold ogs_buffer_to_bcd. pose proof (zlen_nonneg bs).
  replace ((zlen bs <? 0) || (INT_MAX / 2 <? zlen bs)) with false by (symmetry; lia).
  assert (E : (if 0 <? zlen bs then b ← bs !! Z.to_nat (zlen bs - 1); Some (Z.land b 0xf0 =? 0xf0) else Some false) = Some (has_filler bs)).
  { destruct bs as [|b0 bs0] using rev_ind; [done|]. rewrite has_filler_snoc. unfold zlen. rewrite length_app. cbn [length].
    replace (0 <? _) with true by (symmetry; lia). replace (Z.to_nat _) with (length bs0) by lia. by rewrite peek_next. }
  rewrite E. cbn [mbind option_bind].
  replace (if has_filler bs then zlen bs * 2 - 1 else zlen bs * 2) with (zlen (bcd_text bs)).
  2: { unfold zlen. rewrite bcd_text_length. destruct bs as [|b bs]; [done|]. destruct (has_filler (b :: bs)); cbn [length]; lia. }
  destruct (Z.ltb_spec (zlen out) (zlen (bcd_text bs) + 1)) as [|Hfit]; [done|].
  assert (Hroom : (2 * length bs ≤ length out)%nat).
  { unfold zlen in Hfit. rewrite bcd_text_length in Hfit. destruct (has_filler bs); lia. }
  pose proof (to_bcd_loop_exact bs Hb 0 [] (take (2 * length bs) out) (drop (2 * length bs) out) eq_refl) as Hloop.
  rewrite length_take, !app_nil_l, take_drop in Hloop. 
  assert (Hn : ∀ l : list Z, Z.to_nat (zlen l) = length l) by (intros l; unfold zlen; lia).
  rewrite !Hn, Hloop by lia. cbn [mbind option_bind]. unfold zlen in Hfit.
  assert (Hd : ∃ x, all_digits bs ++ drop (2 * length bs) out = bcd_text bs ++ x :: drop (length (bcd_text bs) + 1) out).
  { unfold bcd_text in *. destruct (has_filler bs) eqn:Ef.
    - destruct bs as [|b bs _] using rev_ind; [done|]. exists (high_digit b).
      rewrite digits_snoc, !length_app, digits_length, length_take in *. cbn [length] in *. rewrite length_app, digits_length in *. cbn [length] in *.
      replace (2 * length bs + 2 - 1)%nat with (length (all_digits bs ++ [low_digit b])) by (rewrite length_app, digits_length; cbn; lia).
      rewrite (cons_middle (low_digit b)), app_assoc, take_app_length, <- !app_assoc. cbn [app].
      do 4 f_equal. rewrite length_app, digits_length. cbn. lia.
    - rewrite digits_length in *. destruct (drop (2 * length bs) out) as [|x rest] eqn:Edrop.
      { apply (f_equal length) in Edrop. rewrite length_drop in Edrop. cbn in Edrop. lia. }
      exists x. do 2 f_equal. rewrite <- drop_drop, Edrop. done. }
  destruct Hd as [x ->]. by rewrite poke_next.
Qed.
Lemma bcd_to_buffer_exact bs out : bytes bs → (length bs ≤ length out)%nat →
  ogs_bcd_to_buffer (bcd_text bs) out = Some (bs ++ drop (length bs) out, length bs).
Proof.
  intros Hb Hout. unfold ogs_bcd_to_buffer, bcd_to.
  rewrite <- (take_drop (length bs) out) at 1. set (post := drop (length bs) out).
  assert (Ho : length (take (length bs) out) = length bs) by (rewrite length_take; lia).
  revert post Ho. generalize (take (length bs) out) as old. intros old post. clearbody post. clear Hout. intros Ho.
  unfold bcd_text. destruct (has_filler bs) eqn:Ef.
  - destruct bs as [|b bs _] using rev_ind; [done|]. rewrite has_filler_snoc in Ef. apply Z.eqb_eq in Ef.
    apply Forall_app in Hb as [Hbs Hb]. apply Forall_cons in Hb as [Hb _]. destruct (nibbles_of b Hb) as (H1 & _ & H3).
    assert (Htext : take (length (all_digits (bs ++ [b])) - 1) (all_digits (bs ++ [b])) = all_digits bs ++ [low_digit b]).
    { rewrite digits_snoc, length_app. cbn [length]. rewrite (cons_middle (low_digit b)), app_assoc.
      apply take_app_length'. rewrite length_app. cbn. lia. }
    rewrite Htext. rewrite !length_app in *. cbn [length] in *.
    destruct old as [|x old _] using rev_ind; [cbn in Ho; lia|].
    rewrite length_app in Ho. cbn [length] in Ho. rewrite <- app_assoc.
    pose proof (bcd_loop_pairs bs [low_digit b] Hbs 0 [] old ([x] ++ post) eq_refl ltac:(lia)) as E. cbn [app Nat.add Nat.mul] in E.
    cbn [app]. rewrite E. clear E. cbn [bcd_loop]. rewrite Nat.odd_mul, andb_false_r, Nat.div_mul, H1 by done.
    rewrite poke_next by (by apply low_nibble_byte). cbn [mbind option_bind].
    rewrite digits_length.
    replace (Nat.odd (2 * length bs + 1)) with true by (rewrite Nat.add_1_r, Nat.odd_succ, Nat.even_mul; done).
    replace ((2 * length bs + 1 + 1) / 2)%nat with (length bs + 1)%nat.
    2: { replace (2 * length bs + 1 + 1)%nat with ((length bs + 1) * 2)%nat by lia. by rewrite Nat.div_mul. }
    replace (length bs + 1 - 1)%nat with (length bs) by lia. rewrite peek_next. cbn [mbind option_bind].
    rewrite (H3 Ef), poke_next by done. cbn [mbind option_bind]. by rewrite <- app_assoc.
  - pose proof (bcd_loop_pairs bs [] Hb 0 [] old post eq_refl Ho) as E.
    cbn [app Nat.add Nat.mul] in E. rewrite app_nil_r in E. rewrite E. cbn [bcd_loop mbind option_bind].
    rewrite digits_length. replace (Nat.odd (2 * length bs)) with false by (rewrite Nat.odd_mul; done).
    replace ((2 * length bs + 1) / 2)%nat with (length bs); [done|].
    rewrite Nat.add_comm, (Nat.mul_comm 2), Nat.div_add by lia. done.
Qed.

(** Identities in octets (IMSI, MSISDN, ...): [ogs_buffer_to_bcd] writes
    their digits and a zero, or, when these do not fit, nothing; and
    [ogs_bcd_to_buffer] makes the same octets of the digits. *)
Theorem ogs_bcd_roundtrip bs out out' : bytes bs → zlen bs ≤ INT_MAX / 2 → (length bs ≤ length out')%nat →
  ogs_buffer_to_bcd bs (zlen bs) out (zlen out) =
    Some (if zlen out <? zlen (bcd_text bs) + 1 then (false, out)
          else (true, bcd_text bs ++ 0 :: drop (length (bcd_text bs) + 1) out)) ∧
  ogs_bcd_to_buffer (bcd_text bs) out' = Some (bs ++ drop (length bs) out', length bs).
Proof.
  intros Hb Hlen Hout. split; [by apply buffer_to_bcd_exact|by apply bcd_to_buffer_exact].
Qed.

(** *** Hexadecimal digits *)

Definition hex_text (bs : list Z) : list Z := concat (hex_digits 2 <$> bs).
(** The octets of pairs of digits. *)
Fixpoint of_pairs (cs : list Z) : list Z :=
  match cs with c :: d :: cs => (hex_of c * 16 + hex_of d) :: of_pairs cs | _ => [] end.

Lemma is_hex_digit c : is_hex c = true → isspace c = false ∧ 0 ≤ hex_of c < 16.
Proof. unfold is_hex, isspace, hex_of, isdigit, islower. intros H. repeat case_match; lia. Qed.
Lemma hex_digits_byte b : is_byte b → of_pairs (hex_digits 2 b) = [b] ∧ forallb is_hex (hex_digits 2 b) = true ∧
  ∃ c d, hex_digits 2 b = [c; d].
Proof.
  intros Hb.
  assert (H : all_bytes (λ b, bool_decide (of_pairs (hex_digits 2 b) = [b]) && forallb is_hex (hex_digits 2 b)) = true)
    by (vm_compute; reflexivity).
  apply (all_bytes_spec _ H) in Hb as Hb'. clear H. rename Hb' into H. apply andb_true_iff in H as [H1 H2].
  split; [by apply bool_decide_eq_true in H1|]. split; [done|]. by eexists _, _.
Qed.
Lemma hex_text_pairs bs : bytes bs → of_pairs (hex_text bs) = bs ∧ forallb is_hex (hex_text bs) = true ∧
  length (hex_text bs) = (2 * length bs)%nat.
Proof.
  induction 1 as [|b bs Hb _ (IH1 & IH2 & IH3)]; [done|]. destruct (hex_digits_byte b Hb) as (H1 & H2 & c & d & E).
  unfold hex_text in *. cbn [fmap list_fmap concat]. rewrite E in *. cbn [app of_pairs forallb length] in *. injection H1 as ->.
  split; [by rewrite IH1|]. split; [|lia]. apply andb_true_iff in H2 as [-> H2]. apply andb_true_iff in H2 as [-> _]. done.
Qed.

Lemma ascii_to_hex_pairs n : ∀ cs out_len pre old post rest, length cs = (2 * n)%nat → forallb is_hex cs = true →
  length old = n → Z.of_nat (length pre + n) ≤ out_len →
  ascii_to_hex_loop (2 * n) (cs ++ rest) out_len (length pre) false (pre ++ old ++ post) =
    Some ((length pre + n)%nat, pre ++ of_pairs cs ++ post).
Proof.
  induction n as [|n IH]; intros cs out_len pre old post rest Hcs Hhex Hold Hlen.
  { destruct cs, old; [|done..]. by rewrite Nat.add_0_r. }
  destruct (two_more cs (2 * n)) as (c & d & cs' & -> & Hcs'); [lia|]. destruct old as [|x old]; [done|].
  cbn in Hhex. apply andb_true_iff in Hhex as [Hc Hhex]. apply andb_true_iff in Hhex as [Hd Hhex].
  apply is_hex_digit in Hc as [Hsc Hc], Hd as [Hsd Hd]. cbn in Hold.
  replace (2 * S n)%nat with (S (S (2 * n))) by lia. cbn [app ascii_to_hex_loop of_pairs].
  replace (Z.of_nat (length pre) <? out_len) with true by (symmetry; lia). rewrite Hsc, Hsd.
  rewrite Z.shiftl_mul_pow2 by lia. change (2 ^ 4) with 16. rewrite poke_next by (unfold is_byte; lia). cbn [mbind option_bind].
  rewrite peek_next. cbn [mbind option_bind]. change (Z.lor (hex_of c * 16) (hex_of d)) with (Z.lor (hex_of c * 2 ^ 4) (hex_of d)).
  rewrite lor_disjoint by lia.
  rewrite poke_next by (unfold is_byte; lia). cbn [mbind option_bind]. change (2 ^ 4) with 16.
  rewrite (cons_middle (hex_of c * 16 + hex_of d)), app_assoc.
  replace (S (length pre)) with (length (pre ++ [hex_of c * 16 + hex_of d])) by (rewrite length_app; cbn; lia).
  rewrite (IH cs') by (try done; rewrite ?length_app; cbn; lia). rewrite length_app, <- app_assoc. cbn. do 2 f_equal. lia.
Qed.

Lemma all_hex_spec n cs : (n ≤ length cs)%nat → all_hex n cs = Some (forallb is_hex (take n cs)).
Proof.
  revert cs. induction n as [|n IH]; intros cs Hn; [done|]. destruct cs as [|c cs]; [cbn in Hn; lia|].
  cbn. destruct (is_hex c); [|done]. cbn in Hn. by rewrite IH by lia.
Qed.

(** Hexadecimal keys of the configuration: [ogs_ascii_to_hex_checked] accepts
    exactly two hexadecimal digits for each octet of the buffer, and otherwise
    changes nothing. *)
Theorem ogs_ascii_to_hex_checked_exact in_ in_len out out_len :
  in_len ≤ zlen in_ → out_len ≤ zlen out →
  ogs_ascii_to_hex_checked (Some in_) in_len (Some out) out_len =
    Some (if (0 <=? out_len) && (out_len <=? INT_MAX / 2) && (in_len =? out_len * 2) && forallb is_hex (take (Z.to_nat in_len) in_)
          then (OGS_OK, Some (of_pairs (take (Z.to_nat in_len) in_) ++ drop (Z.to_nat out_len) out))
          else (OGS_ERROR, Some out)).
Proof.
  intros Hin Hout. unfold ogs_ascii_to_hex_checked.
  destruct ((0 <=? out_len) && (out_len <=? INT_MAX / 2) && (in_len =? out_len * 2)) eqn:E; cbn [andb].
  2: { by replace (_ || _) with true by (symmetry; lia). }
  replace (_ || _) with false by (symmetry; lia). unfold zlen in *. rewrite all_hex_spec by lia. cbn [mbind option_bind].
  destruct (forallb is_hex (take (Z.to_nat in_len) in_)) eqn:Ehex; [|done]. cbn [negb].
  set (n := Z.to_nat out_len).
  assert (Hn : length (take (Z.to_nat in_len) in_) = (2 * n)%nat) by (rewrite length_take; lia).
  pose proof (ascii_to_hex_pairs n _ out_len [] (take n out) (drop n out) (drop (Z.to_nat in_len) in_) Hn Ehex
    ltac:(rewrite length_take; lia) ltac:(cbn; lia)) as H.
  rewrite !take_drop in H. cbn [length app Nat.add] in H. unfold ogs_ascii_to_hex.
  replace (Z.to_nat in_len) with (2 * n)%nat in * by lia. rewrite H. done.
Qed.

Lemma slprintf_two pre x y z rest la c d : zlen pre + 2 < la →
  ogs_slprintf (pre ++ x :: y :: z :: rest) (zlen pre) la [c; d] = Some (zlen pre + 2, pre ++ c :: d :: 0 :: rest).
Proof.
  intros Hl. unfold ogs_slprintf. replace (zlen pre <? la) with true by (symmetry; lia).
  rewrite take_ge by (cbn; lia). unfold write_at. replace (Z.to_nat (zlen pre)) with (length pre) by (unfold zlen; lia).
  replace (_ <=? _)%nat with true by (symmetry; apply Nat.leb_le; cbn [length app]; rewrite length_app; cbn; lia).
  cbn [mbind option_bind]. rewrite take_app_length, drop_app_ge by lia.
  replace (length pre + length ([c; d] ++ [0%Z]) - length pre)%nat with 3%nat by (cbn; lia). done.
Qed.
Lemma hex_to_ascii_loop_exact bs : bytes bs → ∀ pre old last, (2 * length bs ≤ length old)%nat →
  Z.of_nat (length pre + 2 * length bs) < last →
  hex_to_ascii_loop (length bs) bs (zlen pre) last (pre ++ 0 :: old) = Some (pre ++ hex_text bs ++ 0 :: drop (2 * length bs) old).
Proof.
  induction 1 as [|b bs Hb _ IH]; intros pre old la Ho Hl; [done|]. cbn [length] in *.
  destruct (two_more (take 2 old ++ drop 2 old) (length (drop 2 old))) as (x & y & rest & E & Hrest).
  { rewrite take_drop, length_drop. lia. }
  rewrite take_drop in E. subst old. cbn [length drop] in *.
  cbn [hex_to_ascii_loop]. destruct (hex_digits_byte b Hb) as (_ & _ & c & d & Ecd).
  rewrite Ecd, slprintf_two by (unfold zlen; lia). cbn [mbind option_bind].
  change (pre ++ c :: d :: 0 :: rest) with (pre ++ [c; d] ++ 0 :: rest). change (zlen pre + 2) with (zlen pre + zlen [c; d]).
  rewrite app_assoc, <- (zlen_app pre [c; d]).
  rewrite IH by (rewrite ?length_app; cbn [length]; lia).
  unfold hex_text. cbn [fmap list_fmap concat]. rewrite Ecd, <- !app_assoc. cbn [app].
  do 5 f_equal. replace (2 * S (length bs))%nat with (S (S (2 * length bs))) by lia. done.
Qed.

(** Octets in a log or in JSON: with room for two digits for each octet and a
    zero, [ogs_hex_to_ascii] writes the digits, and [ogs_ascii_to_hex_checked]
    makes the octets of them. *)
Theorem ogs_hex_roundtrip bs out out' out_len : bytes bs → 2 * zlen bs < out_len ≤ zlen out → zlen bs ≤ zlen out' → zlen bs ≤ INT_MAX / 2 →
  ogs_hex_to_ascii bs (zlen bs) out out_len = Some (hex_text bs ++ 0 :: drop (2 * length bs + 1) out) ∧
  ogs_ascii_to_hex_checked (Some (hex_text bs)) (2 * zlen bs) (Some out') (zlen bs) =
    Some (OGS_OK, Some (bs ++ drop (length bs) out')).
Proof.
  intros Hb [Hlen Hout] Hout' Hmax. pose proof (zlen_nonneg bs). destruct (hex_text_pairs bs Hb) as (H1 & H2 & H3). split.
  - unfold ogs_hex_to_ascii. destruct out as [|x out]; [unfold zlen in *; cbn in Hout; lia|].
    pose proof (poke_next [] 0 x out ltac:(unfold is_byte; lia)) as Hp. cbn [app length] in Hp. change (poke (x :: out) 0 0 = Some (0 :: out)) in Hp.
    rewrite Hp. cbn [mbind option_bind]. replace (out_len <? zlen bs) with false by (symmetry; lia).
    replace (Z.to_nat (zlen bs)) with (length bs) by (unfold zlen; lia). rewrite zlen_cons in Hout. unfold zlen in *.
    rewrite (hex_to_ascii_loop_exact bs Hb [] out) by (cbn; lia). cbn [app]. by rewrite Nat.add_1_r.
  - rewrite ogs_ascii_to_hex_checked_exact by (unfold zlen in *; lia).
    replace (Z.to_nat (2 * zlen bs)) with (length (hex_text bs)) by (unfold zlen; lia).
    rewrite firstn_all, H1, H2. replace (Z.to_nat (zlen bs)) with (length bs) by (unfold zlen; lia).
    by replace (_ && _) with true by (symmetry; lia).
Qed.

(** *** Numbers *)

Lemma hex_char_digit d : 0 ≤ d < 16 → digit_of (hex_char d) = d ∧ is_hex (hex_char d) = true ∧ (hex_char d = 0x30 → d = 0).
Proof.
  intros Hd. unfold hex_char, digit_of, is_hex, isdigit, islower, tolower. split_and!; repeat case_match; lia.
Qed.
Lemma hex_digits_all n x : forallb is_hex (hex_digits n x) = true.
Proof.
  revert x. induction n as [|n IH]; intros x; [done|]. cbn [hex_digits]. rewrite forallb_app, IH. cbn.
  destruct (hex_char_digit (x mod 16)) as (_ & -> & _); [|done]. apply Z.mod_pos_bound. lia.
Qed.
Lemma digits_value_app acc n x rest : 0 ≤ x < 16 ^ Z.of_nat n →
  digits_value 16 acc (hex_digits n x ++ rest) = digits_value 16 (acc * 16 ^ Z.of_nat n + x) rest.
Proof.
  revert acc x rest. induction n as [|n IH]; intros acc x rest Hx.
  { cbn in *. f_equal. lia. }
  cbn [hex_digits]. rewrite <- app_assoc. rewrite Nat2Z.inj_succ, Z.pow_succ_r in Hx |- * by lia.
  rewrite IH by (split; [apply Z.div_pos; lia|apply Z.div_lt_upper_bound; lia]).
  pose proof (Z.mod_pos_bound x 16 ltac:(lia)) as Hm. destruct (hex_char_digit (x mod 16) Hm) as (H1 & _ & _).
  cbn [app digits_value]. rewrite H1. replace (x mod 16 <? 16) with true by (symmetry; lia). f_equal.
  pose proof (Z.div_mod x 16 ltac:(lia)). ring_simplify. lia.
Qed.

Lemma left_trim_value s : digits_value 16 0 (ogs_left_trimcharacter s 0x30) = digits_value 16 0 s.
Proof.
  induction s as [|c s IH]; [done|]. cbn [ogs_left_trimcharacter]. destruct (Z.eqb_spec c 0x30) as [->|]; [|done].
  by rewrite IH.
Qed.
Lemma left_trim_head s : match ogs_left_trimcharacter s 0x30 with c :: _ => c ≠ 0x30 | [] => True end.
Proof. induction s as [|c s IH]; [done|]. cbn. by destruct (Z.eqb_spec c 0x30). Qed.
Lemma left_trim_hex s : forallb is_hex s = true → forallb is_hex (ogs_left_trimcharacter s 0x30) = true.
Proof.
  induction s as [|c s IH]; [done|]. intros H. cbn [ogs_left_trimcharacter]. destruct (c =? 0x30); [|done].
  cbn in H. apply andb_true_iff in H as [_ H]. auto.
Qed.

Lemma hex_prefix_none c s : c ≠ 0x30 → hex_prefix (c :: s) = None.
Proof. intros Hc. unfold hex_prefix. repeat case_match; simplify_eq; done. Qed.

(** Supported features and the like: what [ogs_uint64_to_string] prints
    without leading zeros, [ogs_uint64_from_string] reads, for every number of
    64 bits - zero, which is printed as the empty text, too. *)
Theorem ogs_uint64_string_roundtrip x : 0 ≤ x < 2 ^ 64 →
  ogs_uint64_from_string (ogs_uint64_to_string x) 16 = (x, NO_ERROR).
Proof.
  intros Hx. unfold ogs_uint64_to_string, ogs_uint64_to_0string, print_hex.
  assert (Hn : Nat.max 16 (num_digits x) = 16%nat).
  { unfold num_digits. destruct (Z.eqb_spec x 0); [done|]. pose proof (Z.log2_lt_pow2 x 64 ltac:(lia)) as [Hl _].
    specialize (Hl ltac:(lia)). pose proof (Z.log2_nonneg x). assert (Z.log2 x / 4 < 16) by (apply Z.div_lt_upper_bound; lia). lia. }
  rewrite Hn. clear Hn.
  pose proof (digits_value_app 0 16 x [] ltac:(cbn; lia)) as Hv. rewrite app_nil_r in Hv. cbn [digits_value] in Hv.
  rewrite <- left_trim_value in Hv. pose proof (left_trim_hex _ (hex_digits_all 16 x)) as Hhex.
  pose proof (left_trim_head (hex_digits 16 x)) as Hhead.
  destruct (ogs_left_trimcharacter (hex_digits 16 x) 0x30) as [|c s]; [injection Hv as Hv; cbn; f_equal; lia|].
  cbn [forallb] in Hhex. apply andb_true_iff in Hhex as [Hc _].
  unfold ogs_uint64_from_string. assert (H2d : (c =? 0x2d) = false) by (revert Hc; unfold is_hex; lia). rewrite H2d.
  destruct (is_hex_digit c Hc) as [Hsp _]. unfold strtoull. cbn [skip_space]. rewrite Hsp, H2d.
  assert (H2b : (c =? 0x2b) = false) by (revert Hc; unfold is_hex; lia). rewrite H2b.
  assert (Hpre : hex_prefix (c :: s) = None) by (apply hex_prefix_none; done). rewrite Hpre.
  change (16 =? 0) with false. cbv iota. assert (Hd : (digit_of c <? 16) = true).
  { revert Hc. unfold is_hex, digit_of, isdigit, islower, tolower. repeat case_match; lia. }
  rewrite Hd, Hv. replace (0 * 16 ^ Z.of_nat 16 + x) with x by lia.
  replace (2 ^ 64 <=? x) with false by (symmetry; lia). by rewrite Z.mod_small.
Qed.
(** A minus sign after white space is not refused. *)
Lemma negative_after_space : ogs_uint64_from_string [0x20; 0x2d; 0x31] 10 = (2 ^ 64 - 1, NO_ERROR).
Proof. reflexivity. Qed.
End texts.
