(* ===== verification/PfcpTypes.v ===== *)
(** * PFCP information elements: lib/pfcp/types.c

    SDF filters, bit rates, volume thresholds and measurements, the threshold
    of dropped downlink traffic and user ids, as they are built into and
    parsed from octets.  Bit fields of a [flags] octet are bits of an integer,
    the last declared one being bit 0. *)
From S2P Require Import Prelude XactBase Octets.
#[local] Open Scope Z_scope.

(** ** SDF filter *)

Record sdf_filter := SdfFilter {
  sf_flags : Z; spare2 : Z; flow_description_len : Z; flow_description : list Z;
  tos_traffic_class : Z; security_parameter_index : Z; flow_label : Z; sdf_filter_id : Z }.
Definition fd (fl : Z) : bool := Z.testbit fl 0.
Definition ttc (fl : Z) : bool := Z.testbit fl 1.
Definition spi (fl : Z) : bool := Z.testbit fl 2.
Definition fl_bit (fl : Z) : bool := Z.testbit fl 3.
Definition bid (fl : Z) : bool := Z.testbit fl 4.

(** [filter->flow_description] is read for [flow_description_len] bytes; three
    bytes of the swapped flow label are copied. *)
Definition ogs_pfcp_build_sdf_filter (f : sdf_filter) (data_len : Z) : option (Z * list Z) :=
  let fl := sf_flags f in
  if data_len =? 0 then None else
  buf ← put data_len (le_bytes 1 fl) [];
  buf ← put data_len (le_bytes 1 (spare2 f)) buf;
  buf ← put_when (fd fl) data_len (le_bytes 2 (bswap 2 (flow_description_len f))) buf;
  desc ← (if fd fl then read_bytes (flow_description f) (flow_description_len f) else Some []);
  buf ← put_when (fd fl) data_len desc buf;
  buf ← put_when (ttc fl) data_len (le_bytes 2 (bswap 2 (tos_traffic_class f))) buf;
  buf ← put_when (spi fl) data_len (le_bytes 4 (bswap 4 (security_parameter_index f))) buf;
  buf ← put_when (fl_bit fl) data_len (take 3 (le_bytes 4 (bswap 4 (flow_label f)))) buf;
  buf ← put_when (bid fl) data_len (le_bytes 4 (bswap 4 (sdf_filter_id f))) buf;
  built buf.

Definition set_sf_flags v f := SdfFilter v (spare2 f) (flow_description_len f) (flow_description f)
  (tos_traffic_class f) (security_parameter_index f) (flow_label f) (sdf_filter_id f).
Definition set_spare2 v f := SdfFilter (sf_flags f) v (flow_description_len f) (flow_description f)
  (tos_traffic_class f) (security_parameter_index f) (flow_label f) (sdf_filter_id f).
Definition set_desc_len v f := SdfFilter (sf_flags f) (spare2 f) v (flow_description f)
  (tos_traffic_class f) (security_parameter_index f) (flow_label f) (sdf_filter_id f).
Definition set_desc v f := SdfFilter (sf_flags f) (spare2 f) (flow_description_len f) v
  (tos_traffic_class f) (security_parameter_index f) (flow_label f) (sdf_filter_id f).
Definition set_tos v f := SdfFilter (sf_flags f) (spare2 f) (flow_description_len f) (flow_description f)
  v (security_parameter_index f) (flow_label f) (sdf_filter_id f).
Definition set_spi v f := SdfFilter (sf_flags f) (spare2 f) (flow_description_len f) (flow_description f)
  (tos_traffic_class f) v (flow_label f) (sdf_filter_id f).
Definition set_label v f := SdfFilter (sf_flags f) (spare2 f) (flow_description_len f) (flow_description f)
  (tos_traffic_class f) (security_parameter_index f) v (sdf_filter_id f).
Definition set_sf_id v f := SdfFilter (sf_flags f) (spare2 f) (flow_description_len f) (flow_description f)
  (tos_traffic_class f) (security_parameter_index f) (flow_label f) v.
Definition sdf_zero : sdf_filter := SdfFilter 0 0 0 [] 0 0 0 0.

(** The description is a pointer into the element; [be32toh] is applied to the
    16-bit [tos_traffic_class] and to the three bytes of the flow label. *)
Definition parse_description (octet : list Z) : P sdf_filter unit :=
  bs ← field octet return_0 2;
  let len := bswap 2 (le_value bs) in
  assign (set_desc_len len);;
  desc ← field octet return_0 len; assign (set_desc desc).

Definition parse_sdf_filter (octet : list Z) : P sdf_filter Z :=
  bs ← field octet return_0 1;
  let fl := le_value bs in
  assign (set_sf_flags fl);;
  int_field octet return_0 1 id set_spare2;;
  p_when (fd fl) (parse_description octet);;
  p_when (ttc fl) (int_field octet return_0 2 (λ v, u16 (bswap 4 v)) set_tos);;
  p_when (spi fl) (int_field octet return_0 4 (bswap 4) set_spi);;
  p_when (fl_bit fl) (int_field octet return_0 3 (bswap 4) set_label);;
  p_when (bid fl) (int_field octet return_0 4 (bswap 4) set_sf_id);;
  size ← get_size; mret (s16 size).
Definition ogs_pfcp_parse_sdf_filter (octet : list Z) : option (Z * sdf_filter) :=
  run_parse (parse_sdf_filter octet) sdf_zero.

(** ** Bit rates *)

Definition OGS_PFCP_BITRATE_LEN : Z := 10.
Record bitrate := Bitrate { uplink : Z; downlink : Z }.
(** Kilobits per second, rounded upwards. *)
Definition to_kbps (bps : Z) : Z := bps / 1000 + (if bps mod 1000 =? 0 then 0 else 1).

Definition ogs_pfcp_build_bitrate (b : bitrate) (data_len : Z) : option (Z * list Z) :=
  if data_len <? OGS_PFCP_BITRATE_LEN then None
  else built (ogs_uint64_to_buffer (to_kbps (uplink b)) 5 ++ ogs_uint64_to_buffer (to_kbps (downlink b)) 5).

Definition parse_bitrate (octet : list Z) : P bitrate Z :=
  (if zlen octet =? OGS_PFCP_BITRATE_LEN then mret tt else p_return 0);;
  ul ← parse_rate octet; assign (λ b, Bitrate ul (downlink b));;
  dl ← parse_rate octet; assign (λ b, Bitrate (uplink b) dl);;
  size ← get_size; mret size.
Definition ogs_pfcp_parse_bitrate (octet : list Z) : option (Z * bitrate) :=
  run_parse (parse_bitrate octet) (Bitrate 0 0).

(** ** Volumes and thresholds

    A flags octet and 64-bit fields that are present when their flag is set;
    building asserts that flags are set and that the whole structure would
    fit, of which [size] bytes are used. *)
Definition be64 (x : Z) : list Z := le_bytes 8 (bswap 8 x).
Definition int64 {F} (octet : list Z) (set : Z → F → F) : P F unit := int_field octet return_0 8 (bswap 8) set.

Record volume := Volume { v_flags : Z; total_volume : Z; uplink_volume : Z; downlink_volume : Z }.
Definition tovol (fl : Z) : bool := Z.testbit fl 0.
Definition ulvol (fl : Z) : bool := Z.testbit fl 1.
Definition dlvol (fl : Z) : bool := Z.testbit fl 2.

Definition ogs_pfcp_build_volume (v : volume) (data_len : Z) : option (Z * list Z) :=
  if (data_len <? 25) || (v_flags v =? 0) then None else
  let fl := v_flags v in
  buf ← put data_len [fl] [];
  buf ← put_when (tovol fl) data_len (be64 (total_volume v)) buf;
  buf ← put_when (ulvol fl) data_len (be64 (uplink_volume v)) buf;
  buf ← put_when (dlvol fl) data_len (be64 (downlink_volume v)) buf;
  built buf.

Definition parse_volume (octet : list Z) : P volume Z :=
  bs ← field octet return_0 1;
  let fl := le_value bs in
  assign (λ v, Volume fl (total_volume v) (uplink_volume v) (downlink_volume v));;
  p_when (tovol fl) (int64 octet (λ x v, Volume (v_flags v) x (uplink_volume v) (downlink_volume v)));;
  p_when (ulvol fl) (int64 octet (λ x v, Volume (v_flags v) (total_volume v) x (downlink_volume v)));;
  p_when (dlvol fl) (int64 octet (λ x v, Volume (v_flags v) (total_volume v) (uplink_volume v) x));;
  size ← get_size; mret size.
Definition ogs_pfcp_parse_volume (octet : list Z) : option (Z * volume) :=
  run_parse (parse_volume octet) (Volume 0 0 0 0).

Record threshold := Threshold { t_flags : Z; downlink_packets : Z; number_of_bytes_of_downlink_data : Z }.
Definition dlpa (fl : Z) : bool := Z.testbit fl 0.
Definition dlby (fl : Z) : bool := Z.testbit fl 1.

Definition ogs_pfcp_build_dropped_dl_traffic_threshold (t : threshold) (data_len : Z) : option (Z * list Z) :=
  if (data_len <? 17) || (t_flags t =? 0) then None else
  let fl := t_flags t in
  buf ← put data_len [fl] [];
  buf ← put_when (dlpa fl) data_len (be64 (downlink_packets t)) buf;
  buf ← put_when (dlby fl) data_len (be64 (number_of_bytes_of_downlink_data t)) buf;
  built buf.

Definition parse_threshold (octet : list Z) : P threshold Z :=
  bs ← field octet return_0 1;
  let fl := le_value bs in
  assign (λ t, Threshold fl (downlink_packets t) (number_of_bytes_of_downlink_data t));;
  p_when (dlpa fl) (int64 octet (λ x t, Threshold (t_flags t) x (number_of_bytes_of_downlink_data t)));;
  p_when (dlby fl) (int64 octet (λ x t, Threshold (t_flags t) (downlink_packets t) x));;
  size ← get_size; mret size.
Definition ogs_pfcp_parse_dropped_dl_traffic_threshold (octet : list Z) : option (Z * threshold) :=
  run_parse (parse_threshold octet) (Threshold 0 0 0).

Record measurement := Measurement {
  m_flags : Z; m_total_volume : Z; m_uplink_volume : Z; m_downlink_volume : Z;
  total_n_packets : Z; uplink_n_packets : Z; downlink_n_packets : Z }.
Definition tonop (fl : Z) : bool := Z.testbit fl 3.
Definition ulnop (fl : Z) : bool := Z.testbit fl 4.
Definition dlnop (fl : Z) : bool := Z.testbit fl 5.

Definition ogs_pfcp_build_volume_measurement (m : measurement) (data_len : Z) : option (Z * list Z) :=
  if (data_len <? 49) || (m_flags m =? 0) then None else
  let fl := m_flags m in
  buf ← put data_len [fl] [];
  buf ← put_when (tovol fl) data_len (be64 (m_total_volume m)) buf;
  buf ← put_when (ulvol fl) data_len (be64 (m_uplink_volume m)) buf;
  buf ← put_when (dlvol fl) data_len (be64 (m_downlink_volume m)) buf;
  buf ← put_when (tonop fl) data_len (be64 (total_n_packets m)) buf;
  buf ← put_when (ulnop fl) data_len (be64 (uplink_n_packets m)) buf;
  buf ← put_when (dlnop fl) data_len (be64 (downlink_n_packets m)) buf;
  built buf.

Definition parse_measurement (octet : list Z) : P measurement Z :=
  bs ← field octet return_0 1;
  let fl := le_value bs in
  assign (λ m, Measurement fl (m_total_volume m) (m_uplink_volume m) (m_downlink_volume m)
    (total_n_packets m) (uplink_n_packets m) (downlink_n_packets m));;
  p_when (tovol fl) (int64 octet (λ x m, Measurement (m_flags m) x (m_uplink_volume m) (m_downlink_volume m)
    (total_n_packets m) (uplink_n_packets m) (downlink_n_packets m)));;
  p_when (ulvol fl) (int64 octet (λ x m, Measurement (m_flags m) (m_total_volume m) x (m_downlink_volume m)
    (total_n_packets m) (uplink_n_packets m) (downlink_n_packets m)));;
  p_when (dlvol fl) (int64 octet (λ x m, Measurement (m_flags m) (m_total_volume m) (m_uplink_volume m) x
    (total_n_packets m) (uplink_n_packets m) (downlink_n_packets m)));;
  p_when (tonop fl) (int64 octet (λ x m, Measurement (m_flags m) (m_total_volume m) (m_uplink_volume m)
    (m_downlink_volume m) x (uplink_n_packets m) (downlink_n_packets m)));;
  p_when (ulnop fl) (int64 octet (λ x m, Measurement (m_flags m) (m_total_volume m) (m_uplink_volume m)
    (m_downlink_volume m) (total_n_packets m) x (downlink_n_packets m)));;
  p_when (dlnop fl) (int64 octet (λ x m, Measurement (m_flags m) (m_total_volume m) (m_uplink_volume m)
    (m_downlink_volume m) (total_n_packets m) (uplink_n_packets m) x));;
  size ← get_size; mret size.
Definition ogs_pfcp_parse_volume_measurement (octet : list Z) : option (Z * measurement) :=
  run_parse (parse_measurement octet) (Measurement 0 0 0 0 0 0 0).

(** ** Usage report trigger and user id *)

(** The three octets of the trigger. *)
Definition ogs_pfcp_parse_usage_report_trigger (u24 : Z) : Z * Z * Z :=
  (Z.land (Z.shiftr u24 16) 0xff, Z.land (Z.shiftr u24 8) 0xff, Z.land u24 0xff).

Record user_id := UserId {
  u_flags : Z; imsi_len : Z; imsi : list Z; imeisv_len : Z; imeisv : list Z; msisdn_len : Z; msisdn : list Z }.
Definition imsif (fl : Z) : bool := Z.testbit fl 0.
Definition imeif (fl : Z) : bool := Z.testbit fl 1.
Definition msisdnf (fl : Z) : bool := Z.testbit fl 2.

(** A length octet and that many bytes of the array. *)
Definition put_id (b : bool) (data_len len : Z) (id buf : list Z) : option (list Z) :=
  buf ← put_when b data_len [len] buf;
  bs ← (if b then read_bytes id len else Some []);
  put_when b data_len bs buf.
Definition ogs_pfcp_build_user_id (u : user_id) (data_len : Z) : option (Z * list Z) :=
  if data_len =? 0 then None else
  let fl := u_flags u in
  buf ← put data_len [fl] [];
  buf ← put_id (imsif fl) data_len (imsi_len u) (imsi u) buf;
  buf ← put_id (imeif fl) data_len (imeisv_len u) (imeisv u) buf;
  buf ← put_id (msisdnf fl) data_len (msisdn_len u) (msisdn u) buf;
  built buf.

(** Simplification leaves the flags alone. *)
Arguments fd : simpl never.
Arguments ttc : simpl never.
Arguments spi : simpl never.
Arguments fl_bit : simpl never.
Arguments bid : simpl never.
Arguments tovol : simpl never.
Arguments ulvol : simpl never.
Arguments dlvol : simpl never.
Arguments dlpa : simpl never.
Arguments dlby : simpl never.
Arguments tonop : simpl never.
Arguments ulnop : simpl never.
Arguments dlnop : simpl never.
Arguments imsif : simpl never.
Arguments imeif : simpl never.
Arguments msisdnf : simpl never.
