(* ===== verification/PfcpTypesSpec.v ===== *)
(** * PFCP information elements: the theorems

    What each build writes, what parsing it yields, and that no parse reads
    outside of its element. *)
From S2P Require Import Prelude XactBase Octets OctetSpec PfcpTypes.
#[local] Open Scope Z_scope.

Lemma be64_bytes x : be64 x = be_bytes 8 x.
Proof. apply le_bytes_bswap. Qed.

(** ** SDF filter *)

Record sdf_wf (f : sdf_filter) : Prop := {
  sw_flags : 0 ≤ sf_flags f < 256; sw_spare : 0 ≤ spare2 f < 256;
  sw_len : 0 ≤ flow_description_len f < 2 ^ 16; sw_desc : zlen (flow_description f) = flow_description_len f;
  sw_tos : 0 ≤ tos_traffic_class f < 2 ^ 16; sw_spi : 0 ≤ security_parameter_index f < 2 ^ 32;
  sw_label : 0 ≤ flow_label f < 2 ^ 32; sw_id : 0 ≤ sdf_filter_id f < 2 ^ 32 }.

Definition sdf_octets (f : sdf_filter) : list Z :=
  let fl := sf_flags f in
  [fl] ++ [spare2 f] ++ opt (fd fl) (be_bytes 2 (flow_description_len f) ++ flow_description f) ++
  opt (ttc fl) (be_bytes 2 (tos_traffic_class f)) ++ opt (spi fl) (be_bytes 4 (security_parameter_index f)) ++
  opt (fl_bit fl) (take 3 (be_bytes 4 (flow_label f))) ++ opt (bid fl) (be_bytes 4 (sdf_filter_id f)).

(** What the two misplaced conversions make of their fields. *)
Lemma tos_lost x : u16 (bswap 4 (le_value (be_bytes 2 x))) = 0.
Proof.
  set (a := (x / 2 ^ 8) mod 256). set (b := x mod 256).
  assert (E : be_bytes 2 x = [a; b]) by (cbn; by rewrite Z.div_1_r). rewrite E.
  assert (0 ≤ a < 256) by (apply Z.mod_pos_bound; lia). assert (0 ≤ b < 256) by (apply Z.mod_pos_bound; lia).
  assert (Hv : le_bytes 4 (le_value [a; b]) = [a; b; 0; 0]).
  { change (le_value [a; b]) with (le_value [a; b; 0; 0]).
    apply (le_bytes_value [a; b; 0; 0]). repeat constructor; unfold is_byte; lia. }
  unfold bswap. rewrite Hv. unfold be_value, u16. cbn [fold_left].
  replace (_ + 0) with ((a * 256 + b) * 2 ^ 16) by (cbn; lia). by apply Z.mod_mul.
Qed.
Lemma label_truncated x : 0 ≤ x < 2 ^ 32 → bswap 4 (le_value (take 3 (be_bytes 4 x))) = x / 256 * 256.
Proof.
  intros Hx. rewrite be_bytes_snoc, take_app_le by (rewrite be_bytes_length; lia).
  rewrite take_ge by (rewrite be_bytes_length; lia).
  assert (Hv : le_bytes 4 (le_value (be_bytes 3 (x / 256))) = be_bytes 3 (x / 256) ++ [0]).
  { assert (E : le_value (be_bytes 3 (x / 256)) = le_value (be_bytes 3 (x / 256) ++ [0])).
    { generalize (be_bytes 3 (x / 256)) as l. induction l as [|a l IH]; cbn; [done|]. by rewrite IH. }
    rewrite E. apply (le_bytes_value (be_bytes 3 (x / 256) ++ [0])). apply Forall_app. split; [apply be_bytes_bytes|].
    by repeat constructor. }
  unfold bswap. rewrite Hv, be_value_app, be_value_bytes, Z.mod_small; [lia|].
  change (8 * Z.of_nat 3) with 24. split; [apply Z.div_pos|apply Z.div_lt_upper_bound]; lia.
Qed.

Lemma description_at octet s f g rest b :
  at_rest octet s (opt b (be_bytes 2 (flow_description_len f) ++ flow_description f) ++ rest) →
  sdf_wf f → ∀ (Q : unit → sdf_filter → Z → Prop) R,
  (∀ s', at_rest octet s' rest →
    Q tt (if b then set_desc (flow_description f) (set_desc_len (flow_description_len f) g) else g) s') →
  pwp (p_when b (parse_description octet)) Q R g s.
Proof.
  intros Hat Hw Q R HQ.
  eapply (pwp_opt_at octet b _ (λ g, set_desc (flow_description f) (set_desc_len (flow_description_len f) g)));
    [exact Hat| |by intros Hn; apply HQ].
  rewrite <- app_assoc. intros Hat'. unfold parse_description. apply pwp_bind.
  eapply pwp_field_at; [exact Hat'|apply zlen_be_bytes|]. intros Hat2. cbn zeta.
  rewrite (bswap_roundtrip 2) by apply Hw. apply pwp_bind. unfold pwp at 1, assign. apply pwp_bind.
  eapply pwp_field_at; [exact Hat2|apply Hw|]. intros Hat3. unfold pwp, assign. split; [done|].
  rewrite zlen_app, zlen_be_bytes, (sw_desc f Hw). lia.
Qed.

Lemma sdf_build_ok f data_len :
  sdf_wf f → zlen (sdf_octets f) ≤ data_len → zlen (sdf_octets f) < 2 ^ 15 →
  ogs_pfcp_build_sdf_filter f data_len = Some (zlen (sdf_octets f), sdf_octets f).
Proof.
  intros Hw Hd Hl. set (fl := sf_flags f).
  unfold ogs_pfcp_build_sdf_filter. fold fl. unfold sdf_octets in *. fold fl in Hd, Hl |- *.
  rewrite (le_bytes_byte fl), (le_bytes_byte (spare2 f)) by apply Hw. rewrite !le_bytes_bswap.
  replace (data_len =? 0) with false by (symmetry; repeat rewrite zlen_app in Hd; change (zlen [_]) with 1 in Hd; zlen_pos; lia).
  assert (Hdesc : opt (fd fl) (be_bytes 2 (flow_description_len f) ++ flow_description f) =
    opt (fd fl) (be_bytes 2 (flow_description_len f)) ++ opt (fd fl) (flow_description f))
    by by destruct (fd fl).
  rewrite Hdesc in *. rewrite <- !app_assoc in *. do 3 build_step.
  assert (Hread : (if fd fl then read_bytes (flow_description f) (flow_description_len f) else Some []) =
    Some (opt (fd fl) (flow_description f))).
  { destruct (fd fl); [|done]. rewrite <- (sw_desc f Hw). cbn. by rewrite <- (app_nil_r (flow_description f)) at 1; rewrite read_bytes_app. }
  rewrite Hread. cbn [mbind option_bind].
  assert (Hopt : opt (fd fl) (opt (fd fl) (flow_description f)) = opt (fd fl) (flow_description f)) by by destruct (fd fl).
  rewrite put_when_ok by (rewrite ?Hopt; fits). rewrite Hopt. cbn [mbind option_bind].
  do 4 build_step. unfold built. rewrite s16_small; [by rewrite <- !app_assoc|]. fits.
Qed.

(** The filter that a parse of [sdf_octets f] yields. *)
Definition sdf_received (f : sdf_filter) : sdf_filter :=
  let fl := sf_flags f in
  SdfFilter fl (spare2 f) (masked (fd fl) (flow_description_len f)) (if fd fl then flow_description f else []) 0
    (masked (spi fl) (security_parameter_index f)) (masked (fl_bit fl) (flow_label f / 256 * 256))
    (masked (bid fl) (sdf_filter_id f)).

Lemma sdf_parse_ok f :
  sdf_wf f → zlen (sdf_octets f) < 2 ^ 15 →
  ogs_pfcp_parse_sdf_filter (sdf_octets f) = Some (zlen (sdf_octets f), sdf_received f).
Proof.
  intros Hw Hl. set (fl := sf_flags f).
  set (octet := sdf_octets f) in *. apply run_parse_eq.
  unfold parse_sdf_filter. eapply pwp_flags_at; [done|]. intros Hat. cbn zeta.
  change (le_value [sf_flags f]) with (fl + 256 * 0). rewrite Z.mul_0_r, Z.add_0_r.
  apply pwp_bind. unfold pwp at 1, assign. apply pwp_bind.
  eapply pwp_mono; [by eapply pwp_int_field_at|]. cbn beta. intros [] f1 s1 [-> ->].
  apply at_next in Hat. change (le_value [spare2 f]) with (spare2 f + 256 * 0). rewrite Z.mul_0_r, Z.add_0_r.
  apply pwp_bind. eapply description_at; [exact Hat|exact Hw|]. intros s2 Hat2.
  apply pwp_bind. eapply (pwp_opt_at octet (ttc fl) _ (set_tos 0)); [exact Hat2| |].
  { intros H. eapply pwp_mono; [eapply pwp_int_field_at; [exact H|done]|].
    cbn beta. intros [] ?? [-> ->]. by rewrite tos_lost. }
  intros Hat3. apply pwp_bind. eapply (pwp_opt_int _ _ 4); [exact Hat3|apply Hw|]. intros Hat4.
  apply pwp_bind. eapply (pwp_opt_at octet (fl_bit fl) _ (set_label (flow_label f / 256 * 256))); [exact Hat4| |].
  { intros H. eapply pwp_mono; [eapply pwp_int_field_at; [exact H|done]|].
    cbn beta. intros [] ?? [-> ->]. by rewrite label_truncated by apply Hw. }
  intros Hat5. rewrite <- (app_nil_r (opt (bid fl) _)) in Hat5.
  apply pwp_bind. eapply (pwp_opt_int _ _ 4); [exact Hat5|apply Hw|]. intros Hat6.
  apply pwp_finish. rewrite (at_end _ _ Hat6), s16_small by (pose proof (zlen_nonneg octet); lia). split; [done|].
  unfold sdf_received. fold fl. by destruct (fd fl), (ttc fl), (spi fl), (fl_bit fl), (bid fl).
Qed.

(** ** Volumes and thresholds *)

Lemma zlen_opt64 b x : zlen (opt b (be_bytes 8 x)) ≤ 8.
Proof. by destruct b. Qed.
Ltac zlen_opts :=
  repeat match goal with
  | |- context [zlen (opt ?b (be_bytes 8 ?x))] =>
      lazymatch goal with H : zlen (opt b (be_bytes 8 x)) ≤ 8 |- _ => fail | _ => pose proof (zlen_opt64 b x) end
  end.
(** The octets of [l] are at most [n]. *)
Ltac bounded := repeat rewrite zlen_app; change (zlen [_]) with 1; change (zlen (@nil Z)) with 0; zlen_opts; lia.
(** Builds whose fields are all optional 64-bit integers; [Hl] bounds them. *)
Ltac build64 :=
  rewrite !be64_bytes;
  rewrite put_ok by (change (zlen [_]) with 1; change (zlen (@nil Z)) with 0; lia); cbn [mbind option_bind];
  repeat build_step; unfold built; rewrite s16_small; [by rewrite ?app_nil_r, <- ?app_assoc|fits].
(** Assignments to a structure that is known. *)
Ltac reduce_struct :=
  lazymatch goal with |- pwp ?m ?Q ?R ?f ?s => let f' := eval cbn -[masked] in f in change (pwp m Q R f' s) end.
(** Parses of the same. *)
Ltac parse64 :=
  let Hat := fresh "Hat" in
  eapply pwp_flags_at; [done|]; intros Hat; cbn zeta; cbn [le_value]; rewrite Z.mul_0_r, Z.add_0_r;
  apply pwp_bind; unfold pwp at 1, assign;
  reduce_struct;
  repeat (apply pwp_bind; eapply (pwp_masked_int _ _ 8); [exact Hat|done|done|]; clear Hat; intros Hat; reduce_struct);
  apply pwp_finish; rewrite (at_end _ _ Hat).


Definition volume_octets (v : volume) : list Z :=
  [v_flags v] ++ opt (tovol (v_flags v)) (be_bytes 8 (total_volume v)) ++
  opt (ulvol (v_flags v)) (be_bytes 8 (uplink_volume v)) ++
  opt (dlvol (v_flags v)) (be_bytes 8 (downlink_volume v)) ++ [].
Definition volume_wf (v : volume) : Prop :=
  0 < v_flags v < 256 ∧ int_range 8 (total_volume v) ∧ int_range 8 (uplink_volume v) ∧ int_range 8 (downlink_volume v).

Lemma volume_build_ok v data_len :
  volume_wf v → 25 ≤ data_len →
  ogs_pfcp_build_volume v data_len = Some (zlen (volume_octets v), volume_octets v).
Proof.
  intros (Hf & _) Hd. unfold ogs_pfcp_build_volume.
  replace (_ || _) with false by (symmetry; lia). cbn zeta.
  assert (Hl : zlen (volume_octets v) ≤ 25) by (unfold volume_octets; bounded).
  unfold volume_octets in *. build64.
Qed.

Lemma volume_parse_ok v :
  volume_wf v →
  ogs_pfcp_parse_volume (volume_octets v) = Some (zlen (volume_octets v),
    Volume (v_flags v) (masked (tovol (v_flags v)) (total_volume v)) (masked (ulvol (v_flags v)) (uplink_volume v))
      (masked (dlvol (v_flags v)) (downlink_volume v))).
Proof.
  intros (Hf & Ht & Hu & Hd). apply run_parse_eq. unfold parse_volume. parse64.
  done.
Qed.

Definition threshold_octets (t : threshold) : list Z :=
  [t_flags t] ++ opt (dlpa (t_flags t)) (be_bytes 8 (downlink_packets t)) ++
  opt (dlby (t_flags t)) (be_bytes 8 (number_of_bytes_of_downlink_data t)) ++ [].
Definition threshold_wf (t : threshold) : Prop :=
  0 < t_flags t < 256 ∧ int_range 8 (downlink_packets t) ∧ int_range 8 (number_of_bytes_of_downlink_data t).

Lemma threshold_build_ok t data_len :
  threshold_wf t → 17 ≤ data_len →
  ogs_pfcp_build_dropped_dl_traffic_threshold t data_len = Some (zlen (threshold_octets t), threshold_octets t).
Proof.
  intros (Hf & _) Hd. unfold ogs_pfcp_build_dropped_dl_traffic_threshold.
  replace (_ || _) with false by (symmetry; lia). cbn zeta.
  assert (Hl : zlen (threshold_octets t) ≤ 17) by (unfold threshold_octets; bounded).
  unfold threshold_octets in *. build64.
Qed.
Lemma threshold_parse_ok t :
  threshold_wf t →
  ogs_pfcp_parse_dropped_dl_traffic_threshold (threshold_octets t) = Some (zlen (threshold_octets t),
    Threshold (t_flags t) (masked (dlpa (t_flags t)) (downlink_packets t))
      (masked (dlby (t_flags t)) (number_of_bytes_of_downlink_data t))).
Proof.
  intros (Hf & Hp & Hb). apply run_parse_eq. unfold parse_threshold. parse64.
  done.
Qed.

Definition measurement_octets (m : measurement) : list Z :=
  let fl := m_flags m in
  [fl] ++ opt (tovol fl) (be_bytes 8 (m_total_volume m)) ++ opt (ulvol fl) (be_bytes 8 (m_uplink_volume m)) ++
  opt (dlvol fl) (be_bytes 8 (m_downlink_volume m)) ++ opt (tonop fl) (be_bytes 8 (total_n_packets m)) ++
  opt (ulnop fl) (be_bytes 8 (uplink_n_packets m)) ++ opt (dlnop fl) (be_bytes 8 (downlink_n_packets m)) ++ [].
Definition measurement_wf (m : measurement) : Prop :=
  0 < m_flags m < 256 ∧ int_range 8 (m_total_volume m) ∧ int_range 8 (m_uplink_volume m) ∧
  int_range 8 (m_downlink_volume m) ∧ int_range 8 (total_n_packets m) ∧ int_range 8 (uplink_n_packets m) ∧
  int_range 8 (downlink_n_packets m).

Lemma measurement_build_ok m data_len :
  measurement_wf m → 49 ≤ data_len →
  ogs_pfcp_build_volume_measurement m data_len = Some (zlen (measurement_octets m), measurement_octets m).
Proof.
  intros (Hf & _) Hd. unfold ogs_pfcp_build_volume_measurement.
  replace (_ || _) with false by (symmetry; lia). cbn zeta.
  assert (Hl : zlen (measurement_octets m) ≤ 49) by (unfold measurement_octets; bounded).
  unfold measurement_octets in *. build64.
Qed.
Definition measurement_received (m : measurement) : measurement :=
  let fl := m_flags m in
  Measurement fl (masked (tovol fl) (m_total_volume m)) (masked (ulvol fl) (m_uplink_volume m))
    (masked (dlvol fl) (m_downlink_volume m)) (masked (tonop fl) (total_n_packets m))
    (masked (ulnop fl) (uplink_n_packets m)) (masked (dlnop fl) (downlink_n_packets m)).
Lemma measurement_parse_ok m :
  measurement_wf m →
  ogs_pfcp_parse_volume_measurement (measurement_octets m) =
    Some (zlen (measurement_octets m), measurement_received m).
Proof.
  intros (Hf & H1 & H2 & H3 & H4 & H5 & H6). apply run_parse_eq. unfold parse_measurement. parse64.
  done.
Qed.

(** ** Bit rates *)

Lemma to_kbps_range b : 0 ≤ b ≤ 1000 * (2 ^ 40 - 1) → 0 ≤ to_kbps b < 2 ^ 40.
Proof.
  intros Hb. unfold to_kbps. pose proof (Z.div_mod b 1000). pose proof (Z.mod_pos_bound b 1000).
  destruct (b mod 1000 =? 0) eqn:E; lia.
Qed.

Lemma bitrate_ok b data_len :
  10 ≤ data_len → 0 ≤ uplink b ≤ 1000 * (2 ^ 40 - 1) → 0 ≤ downlink b ≤ 1000 * (2 ^ 40 - 1) →
  let octet := be_bytes 5 (to_kbps (uplink b)) ++ be_bytes 5 (to_kbps (downlink b)) in
  ogs_pfcp_build_bitrate b data_len = Some (10, octet) ∧
  ogs_pfcp_parse_bitrate octet = Some (10, Bitrate (to_kbps (uplink b) * 1000) (to_kbps (downlink b) * 1000)).
Proof.
  intros Hd Hu Hl octet. split.
  - unfold ogs_pfcp_build_bitrate, OGS_PFCP_BITRATE_LEN. replace (data_len <? 10) with false by (symmetry; lia).
    by rewrite !uint64_to_buffer.
  - apply run_parse_eq. unfold parse_bitrate. apply pwp_bind. unfold pwp at 1. cbn beta.
    assert (Hat : at_rest octet 0 (be_bytes 5 (to_kbps (uplink b)) ++ be_bytes 5 (to_kbps (downlink b)) ++ []))
      by (rewrite app_nil_r; apply at_start).
    change (zlen octet =? OGS_PFCP_BITRATE_LEN) with true. cbn iota.
    apply pwp_bind. eapply pwp_rate_at; [exact Hat|by apply to_kbps_range|]. clear Hat. intros Hat.
    apply pwp_bind. unfold pwp at 1, assign. apply pwp_bind.
    eapply pwp_rate_at; [exact Hat|by apply to_kbps_range|]. clear Hat. intros Hat. done.
Qed.

(** Volumes, thresholds of dropped traffic and volume measurements with
    some flag set are built into their octets in a buffer of the size of the
    structure, and parsing these yields every field whose flag is set; a bit
    rate arrives rounded up to a multiple of 1000 bps, exact in kbps. *)
Theorem ogs_pfcp_volumes_roundtrip v t m b data_len :
  volume_wf v → threshold_wf t → measurement_wf m → 49 ≤ data_len →
  0 ≤ uplink b ≤ 1000 * (2 ^ 40 - 1) → 0 ≤ downlink b ≤ 1000 * (2 ^ 40 - 1) →
  (ogs_pfcp_build_volume v data_len = Some (zlen (volume_octets v), volume_octets v) ∧
   ogs_pfcp_parse_volume (volume_octets v) = Some (zlen (volume_octets v),
     Volume (v_flags v) (masked (tovol (v_flags v)) (total_volume v)) (masked (ulvol (v_flags v)) (uplink_volume v))
       (masked (dlvol (v_flags v)) (downlink_volume v)))) ∧
  (ogs_pfcp_build_dropped_dl_traffic_threshold t data_len = Some (zlen (threshold_octets t), threshold_octets t) ∧
   ogs_pfcp_parse_dropped_dl_traffic_threshold (threshold_octets t) = Some (zlen (threshold_octets t),
     Threshold (t_flags t) (masked (dlpa (t_flags t)) (downlink_packets t))
       (masked (dlby (t_flags t)) (number_of_bytes_of_downlink_data t)))) ∧
  (ogs_pfcp_build_volume_measurement m data_len = Some (zlen (measurement_octets m), measurement_octets m) ∧
   ogs_pfcp_parse_volume_measurement (measurement_octets m) =
     Some (zlen (measurement_octets m), measurement_received m)) ∧
  (∃ octet r, ogs_pfcp_build_bitrate b data_len = Some (10, octet) ∧
    ogs_pfcp_parse_bitrate octet = Some (10, r) ∧
    uplink b ≤ uplink r < uplink b + 1000 ∧ uplink r mod 1000 = 0 ∧
    downlink b ≤ downlink r < downlink b + 1000 ∧ downlink r mod 1000 = 0).
Proof.
  intros Hv Ht Hm Hd Hu Hl. split_and!.
  - apply volume_build_ok; [done|lia].
  - by apply volume_parse_ok.
  - apply threshold_build_ok; [done|lia].
  - by apply threshold_parse_ok.
  - by apply measurement_build_ok.
  - by apply measurement_parse_ok.
  - destruct (bitrate_ok b data_len) as [H1 H2]; [lia|done..|]. eexists _, _. split; [exact H1|]. split; [exact H2|].
    cbn. rewrite !Z.mod_mul by lia. unfold to_kbps.
    pose proof (Z.div_mod (uplink b) 1000). pose proof (Z.mod_pos_bound (uplink b) 1000).
    pose proof (Z.div_mod (downlink b) 1000). pose proof (Z.mod_pos_bound (downlink b) 1000).
    destruct (uplink b mod 1000 =? 0) eqn:E1, (downlink b mod 1000 =? 0) eqn:E2; lia.
Qed.

Lemma ogs_pfcp_volumes_roundtrip_witness :
  let b := Bitrate 1500 2000 in
  ∃ octet r, ogs_pfcp_build_bitrate b 64 = Some (10, octet) ∧ ogs_pfcp_parse_bitrate octet = Some (10, r) ∧
    uplink b ≤ uplink r < uplink b + 1000 ∧ uplink r mod 1000 = 0 ∧
    downlink b ≤ downlink r < downlink b + 1000 ∧ downlink r mod 1000 = 0.
Proof.
  apply (ogs_pfcp_volumes_roundtrip (Volume 3 70000 (2 ^ 40) 0) (Threshold 2 0 9) (Measurement 0x2f 1 2 3 4 5 6)
    (Bitrate 1500 2000) 64); unfold volume_wf, threshold_wf, measurement_wf, int_range; cbn; lia.
Defined.

(** ** Any octets *)

(** Parses of 64-bit fields of any element. *)
Ltac any64 Hb :=
  apply pwp_any_flags; [done|done|]; let fl := fresh "fl" in intros fl ? ? ?; cbn zeta; cbn [le_value];
  rewrite Z.mul_0_r, Z.add_0_r; apply pwp_bind; unfold pwp at 1, assign; reduce_struct;
  repeat (apply pwp_bind; eapply (pwp_any_int _ Hb _ 8); [zlen_pos; lia|done|done|]; intros ? ? ? ? ? ?; reduce_struct);
  apply pwp_finish.

Lemma volume_parse_any octet :
  bytes octet → ∃ rv v, ogs_pfcp_parse_volume octet = Some (rv, v) ∧ 0 ≤ rv ≤ zlen octet ∧
    (rv = zlen octet → 0 < rv → v_flags v ≠ 0 → volume_wf v ∧ volume_octets v = octet).
Proof.
  intros Hb. pose proof (zlen_nonneg octet) as Hz. apply (pwp_run (parse_volume octet)). unfold parse_volume. any64 Hb.
  split; [zlen_pos; lia|]. intros Hrv _ Hfl. cbn [v_flags] in Hfl. split.
  - split; [cbn; lia|]. by split_and!; apply masked_range.
  - unfold volume_octets. cbn [v_flags total_volume uplink_volume downlink_volume].
    rewrite !opt_masked. eapply consumed_all; [exact Hrv|]. rewrite_consumed.
Qed.

Lemma threshold_parse_any octet :
  bytes octet → ∃ rv t, ogs_pfcp_parse_dropped_dl_traffic_threshold octet = Some (rv, t) ∧ 0 ≤ rv ≤ zlen octet ∧
    (rv = zlen octet → 0 < rv → t_flags t ≠ 0 → threshold_wf t ∧ threshold_octets t = octet).
Proof.
  intros Hb. pose proof (zlen_nonneg octet) as Hz. apply (pwp_run (parse_threshold octet)). unfold parse_threshold. any64 Hb.
  split; [zlen_pos; lia|]. intros Hrv _ Hfl. cbn [t_flags] in Hfl. split.
  - split; [cbn; lia|]. by split_and!; apply masked_range.
  - unfold threshold_octets. cbn [t_flags downlink_packets number_of_bytes_of_downlink_data].
    rewrite !opt_masked. eapply consumed_all; [exact Hrv|]. rewrite_consumed.
Qed.
Lemma measurement_parse_any octet :
  bytes octet → ∃ rv m, ogs_pfcp_parse_volume_measurement octet = Some (rv, m) ∧ 0 ≤ rv ≤ zlen octet ∧
    (rv = zlen octet → 0 < rv → m_flags m ≠ 0 → measurement_wf m ∧ measurement_octets m = octet).
Proof.
  intros Hb. pose proof (zlen_nonneg octet) as Hz. apply (pwp_run (parse_measurement octet)).
  unfold parse_measurement. any64 Hb.
  split; [zlen_pos; lia|]. intros Hrv _ Hfl. cbn [m_flags] in Hfl. split.
  - split; [cbn; lia|]. by split_and!; apply masked_range.
  - unfold measurement_octets. cbn [m_flags m_total_volume m_uplink_volume m_downlink_volume total_n_packets
      uplink_n_packets downlink_n_packets].
    rewrite !opt_masked. eapply consumed_all; [exact Hrv|]. rewrite_consumed.
Qed.

Lemma bitrate_parse_any octet :
  ∃ rv b, ogs_pfcp_parse_bitrate octet = Some (rv, b) ∧ (rv = 0 ∨ rv = 10 ∧ zlen octet = 10).
Proof.
  apply (pwp_run (parse_bitrate octet)). unfold parse_bitrate. apply pwp_bind.
  destruct (Z.eqb_spec (zlen octet) OGS_PFCP_BITRATE_LEN) as [Hlen|]; [|by left].
  unfold OGS_PFCP_BITRATE_LEN, zlen in Hlen. do 10 (destruct octet as [|? octet]; [done|]).
  destruct octet; [by right|cbn in Hlen; lia].
Qed.

(** One 16-, 24- or 32-bit field, or none, of any filter. *)
Lemma sdf_field_any octet b n conv set (Q : unit → sdf_filter → Z → Prop) R f s :
  bytes octet → 0 ≤ s ≤ zlen octet → 0 ≤ n → R 0 f →
  (∀ f' s', 0 ≤ s' ≤ zlen octet → Q tt f' s') → (∀ f, R 0 f) →
  pwp (p_when b (int_field octet return_0 n conv set)) Q R f s.
Proof.
  intros Hb Hs Hn HR HQ HR'. apply pwp_when; [|by apply HQ]. intros _.
  apply pwp_int_field; [done|lia|done|done|]. intros v Hv. apply HQ. lia.
Qed.
Lemma sdf_parse_any octet :
  bytes octet → zlen octet < 2 ^ 15 →
  ∃ rv f, ogs_pfcp_parse_sdf_filter octet = Some (rv, f) ∧ 0 ≤ rv ≤ zlen octet.
Proof.
  intros Hb Hl. pose proof (zlen_nonneg octet) as Hz.
  assert (HR : 0 ≤ 0 ≤ zlen octet) by lia.
  apply (pwp_run (parse_sdf_filter octet)). unfold parse_sdf_filter.
  apply pwp_any_flags; [done|exact HR|]. intros fl Hfl H1 _. cbn zeta.
  apply pwp_bind. unfold pwp at 1, assign. apply pwp_bind, pwp_int_field; [done|lia|lia|exact HR|]. intros v Hv.
  apply pwp_bind, pwp_when.
  2: { repeat (apply pwp_bind, sdf_field_any; [done|lia|lia|exact HR| |intros; exact HR]; intros ? ? ?).
       apply pwp_finish. rewrite s16_small; lia. }
  intros _. unfold parse_description. apply pwp_bind, pwp_field; [done|lia|lia|exact HR|]. intros bs Hn Hbs Hle. cbn zeta.
  apply pwp_bind. unfold pwp at 1, assign. unfold zlen in Hn.
  assert (Hlen : 0 ≤ bswap 2 (le_value bs)) by (rewrite bswap_le_value by (done || lia); apply be_value_range; done).
  apply pwp_bind, pwp_field; [done|lia|lia|exact HR|]. intros desc _ _ Hd. unfold pwp at 1, assign.
  repeat (apply pwp_bind, sdf_field_any; [done|lia|lia|exact HR| |intros; exact HR]; intros ? ? ?).
  apply pwp_finish. rewrite s16_small; lia.
Qed.

(** Whatever the octets of an element are, no parse reads outside of them,
    each returns - 0 on an error - at most their length, and volumes,
    thresholds and measurements (with some flag set) of which every octet was
    consumed are built into the very same octets again. *)
Theorem ogs_pfcp_parse_safe octet :
  bytes octet → zlen octet < 2 ^ 15 →
  (∃ rv f, ogs_pfcp_parse_sdf_filter octet = Some (rv, f) ∧ 0 ≤ rv ≤ zlen octet) ∧
  (∃ rv b, ogs_pfcp_parse_bitrate octet = Some (rv, b) ∧ (rv = 0 ∨ rv = 10 ∧ zlen octet = 10)) ∧
  (∃ rv v, ogs_pfcp_parse_volume octet = Some (rv, v) ∧ 0 ≤ rv ≤ zlen octet ∧
    (rv = zlen octet → 0 < rv → v_flags v ≠ 0 → ogs_pfcp_build_volume v 25 = Some (rv, octet))) ∧
  (∃ rv t, ogs_pfcp_parse_dropped_dl_traffic_threshold octet = Some (rv, t) ∧ 0 ≤ rv ≤ zlen octet ∧
    (rv = zlen octet → 0 < rv → t_flags t ≠ 0 →
     ogs_pfcp_build_dropped_dl_traffic_threshold t 17 = Some (rv, octet))) ∧
  (∃ rv m, ogs_pfcp_parse_volume_measurement octet = Some (rv, m) ∧ 0 ≤ rv ≤ zlen octet ∧
    (rv = zlen octet → 0 < rv → m_flags m ≠ 0 → ogs_pfcp_build_volume_measurement m 49 = Some (rv, octet))).
Proof.
  intros Hb Hl. split; [by apply sdf_parse_any|]. split; [apply bitrate_parse_any|]. split_and!.
  - destruct (volume_parse_any octet Hb) as (rv & v & E & Hrv & H). exists rv, v. split; [done|]. split; [done|].
    intros H1 H2 H3. destruct (H H1 H2 H3) as [Hw Ho]. by rewrite volume_build_ok, Ho, <- H1.
  - destruct (threshold_parse_any octet Hb) as (rv & v & E & Hrv & H). exists rv, v. split; [done|]. split; [done|].
    intros H1 H2 H3. destruct (H H1 H2 H3) as [Hw Ho]. by rewrite threshold_build_ok, Ho, <- H1.
  - destruct (measurement_parse_any octet Hb) as (rv & v & E & Hrv & H). exists rv, v. split; [done|]. split; [done|].
    intros H1 H2 H3. destruct (H H1 H2 H3) as [Hw Ho]. by rewrite measurement_build_ok, Ho, <- H1.
Qed.

Lemma ogs_pfcp_parse_safe_witness :
  ∃ rv v, ogs_pfcp_parse_volume [4; 0; 0; 0; 0; 0; 1; 0x11; 0x70] = Some (rv, v) ∧ 0 ≤ rv ≤ 9 ∧
    (rv = 9 → 0 < rv → v_flags v ≠ 0 →
     ogs_pfcp_build_volume v 25 = Some (rv, [4; 0; 0; 0; 0; 0; 1; 0x11; 0x70])).
Proof.
  apply (ogs_pfcp_parse_safe [4; 0; 0; 0; 0; 0; 1; 0x11; 0x70]); [|vm_compute; reflexivity].
  repeat constructor; unfold is_byte; lia.
Defined.

(** A well-formed SDF filter that fits is built into its octets, and
    parsing them yields the fields whose flags are set - except that the type
    of service arrives as 0 (be32toh on a 16-bit field) and the flow label
    without its low eight bits (three of the four swapped bytes are sent). *)
Theorem ogs_pfcp_sdf_filter_roundtrip f data_len :
  sdf_wf f → zlen (sdf_octets f) ≤ data_len → zlen (sdf_octets f) < 2 ^ 15 →
  let fl := sf_flags f in
  ogs_pfcp_build_sdf_filter f data_len = Some (zlen (sdf_octets f), sdf_octets f) ∧
  ogs_pfcp_parse_sdf_filter (sdf_octets f) =
    Some (zlen (sdf_octets f), SdfFilter fl (spare2 f) (masked (fd fl) (flow_description_len f))
      (if fd fl then flow_description f else []) 0 (masked (spi fl) (security_parameter_index f))
      (masked (fl_bit fl) (flow_label f / 256 * 256)) (masked (bid fl) (sdf_filter_id f))).
Proof. intros Hw Hd Hl fl. split; [by apply sdf_build_ok|by apply sdf_parse_ok]. Qed.

Lemma ogs_pfcp_sdf_filter_roundtrip_witness :
  let f := SdfFilter 0x1b 0 2 [97; 98] 0x1234 0 0xabcdef 7 in
  ogs_pfcp_build_sdf_filter f 32 = Some (15, [0x1b; 0; 0; 2; 97; 98; 0x12; 0x34; 0; 0xab; 0xcd; 0; 0; 0; 7]) ∧
  ogs_pfcp_parse_sdf_filter [0x1b; 0; 0; 2; 97; 98; 0x12; 0x34; 0; 0xab; 0xcd; 0; 0; 0; 7] =
    Some (15, SdfFilter 0x1b 0 2 [97; 98] 0 0 0xabcd00 7).
Proof.
  apply (ogs_pfcp_sdf_filter_roundtrip (SdfFilter 0x1b 0 2 [97; 98] 0x1234 0 0xabcdef 7) 32);
    [split; unfold zlen; cbn; lia|vm_compute; discriminate|reflexivity].
Defined.
