(* ===== verification/Rates.v ===== *)
(** * Coded bit rates: lib/nas/common/types.c, lib/gtp/v2/types.c

    The three-octet codes of the APN-AMBR and of the EPS quality of service,
    which get coarser with the rate, their decoder in the GTP layer, and the
    unit and 16-bit value of 5GS. *)
From S2P Require Import Prelude.
#[local] Open Scope Z_scope.
#[local] Open Scope c_scope.

(** ** The three octets of a rate *)

(** The octets that [*br], [*extended] and [*extended2] point to. *)
Record rate := Rate { br : Z; extended : Z; extended2 : Z }.
Definition rate_zero : rate := Rate 0 0 0.

(** Assignments of the octets; what is not assigned keeps its value. *)
Definition set1 (b : Z) (c : rate) : Z * rate := (1, Rate (u8 b) (extended c) (extended2 c)).
Definition set2 (b e : Z) (c : rate) : Z * rate := (2, Rate (u8 b) (u8 e) (extended2 c)).
Definition set3 (b e e2 : Z) (c : rate) : Z * rate := (3, Rate (u8 b) (u8 e) (u8 e2)).

(** The result is [length]. *)
Definition nas_ambr_from_kbps (c : rate) (input : Z) : Z * rate :=
  if input <? 1 then set1 0xff c
  else if (1 <=? input) && (input <=? 63) then set1 input c
  else if (64 <=? input) && (input <=? 568) then set1 ((input - 64) / 8 + 0x40) c
  else if (568 <? input) && (input <? 576) then set1 0x7f c
  else if (576 <=? input) && (input <=? 8640) then set1 ((input - 576) / 64 + 0x80) c
  else if (8640 <? input) && (input <? 8700) then set1 0xfe c
  else if (8700 <=? input) && (input <=? 16000) then set2 0xfe ((input - 8600) / 100) c
  else if (16000 <? input) && (input <? 17 * 1000) then set2 0xfe 0x4a c
  else if (17 * 1000 <=? input) && (input <=? 128 * 1000) then
    set2 0xfe ((input - 16 * 1000) / (1 * 1000) + 0x4a) c
  else if (128 * 1000 <? input) && (input <? 130 * 1000) then set2 0xfe 0xba c
  else if (130 * 1000 <=? input) && (input <=? 256 * 1000) then
    set2 0xfe ((input - 128 * 1000) / (2 * 1000) + 0xba) c
  else if (1 * 256 * 1000 <? input) && (input <? 2 * 256 * 1000) then set2 0xfe 0xfa c
  else if (2 * 256 * 1000 <=? input) && (input <=? 255 * 256 * 1000) then
    set3 0xfe 0xfa ((input - 1 * 256 * 1000) / (256 * 1000)) c
  else if 255 * 256 * 1000 <? input then set3 0xfe 0xfa 0xfe c
  else (0, c).

Definition nas_qos_from_kbps (c : rate) (input : Z) : Z * rate :=
  if input <? 1 then set1 0xff c
  else if (1 <=? input) && (input <=? 63) then set1 input c
  else if (64 <=? input) && (input <=? 568) then set1 ((input - 64) / 8 + 0x40) c
  else if (568 <? input) && (input <? 576) then set1 0x7f c
  else if (576 <=? input) && (input <=? 8640) then set1 ((input - 576) / 64 + 0x80) c
  else if (8640 <? input) && (input <? 8700) then set1 0xfe c
  else if (8700 <=? input) && (input <=? 16000) then set2 0xfe ((input - 8600) / 100) c
  else if (16000 <? input) && (input <? 17 * 1000) then set2 0xfe 0x4a c
  else if (17 * 1000 <=? input) && (input <=? 128 * 1000) then
    set2 0xfe ((input - 16 * 1000) / (1 * 1000) + 0x4a) c
  else if (128 * 1000 <? input) && (input <? 130 * 1000) then set2 0xfe 0xba c
  else if (130 * 1000 <=? input) && (input <=? 256 * 1000) then
    set2 0xfe ((input - 128 * 1000) / (2 * 1000) + 0xba) c
  else if (256 * 1000 <? input) && (input <? 260 * 1000) then set2 0xfe 0xfa c
  else if (260 * 1000 <=? input) && (input <=? 500 * 1000) then
    set3 0xfe 0xfa ((input - 256 * 1000) / (4 * 1000)) c
  else if (500 * 1000 <? input) && (input <? 510 * 1000) then set3 0xfe 0xfa 0x3d c
  else if (510 * 1000 <=? input) && (input <=? 1500 * 1000) then
    set3 0xfe 0xfa ((input - 500 * 1000) / (10 * 1000) + 0x3d) c
  else if (1500 * 1000 <? input) && (input <? 1600 * 1000) then set3 0xfe 0xfa 0xa1 c
  else if (1600 * 1000 <=? input) && (input <=? 10 * 1000 * 1000) then
    set3 0xfe 0xfa ((input - 1500 * 1000) / (100 * 1000) + 0xa1) c
  else if 10 * 1000 * 1000 <? input then set3 0xfe 0xfa 0xf6 c
  else (0, c).

(** The decoder; [None] is its failed assertion. *)
Definition ogs_gtp2_qos_to_kbps (br extended extended2 : Z) : option Z :=
  if (0x01 <=? extended2) && (extended2 <=? 0x3d) then Some (256 * 1000 + extended2 * 4 * 1000)
  else if (0x3e <=? extended2) && (extended2 <=? 0xa1) then Some (500 * 1000 + (extended2 - 0x3d) * 10 * 1000)
  else if (0xa2 <=? extended2) && (extended2 <=? 0xf6) then Some (1500 * 1000 + (extended2 - 0xa1) * 100 * 1000)
  else if 0xf6 <? extended2 then Some (10 * 1000 * 1000)
  else if (0x01 <=? extended) && (extended <=? 0x4a) then Some (8600 + extended * 100)
  else if (0x4b <=? extended) && (extended <=? 0xba) then Some (16 * 1000 + (extended - 0x4a) * 1 * 1000)
  else if (0xbb <=? extended) && (extended <=? 0xfa) then Some (128 * 1000 + (extended - 0xba) * 2 * 1000)
  else if 0xfa <? extended then Some (256 * 1000)
  else if br =? 0xff then Some 0
  else if (0x01 <=? br) && (br <=? 0x3f) then Some br
  else if (0x40 <=? br) && (br <=? 0x7f) then Some (64 + (br - 0x40) * 8)
  else if (0x80 <=? br) && (br <=? 0xfe) then Some (576 + (br - 0x80) * 64)
  else None.

(** ** APN-AMBR and EPS quality of service *)

(** ogs_nas_apn_aggregate_maximum_bit_rate_t *)
Record apn_ambr := ApnAmbr { ambr_length : Z; dl_apn_ambr : rate; ul_apn_ambr : rate }.

(** The rates are passed as [uint32_t]; after the [memset] all octets are 0. *)
Definition apn_ambr_build (dl ul : Z) : apn_ambr :=
  let dl := u32 dl / 1000 in
  let ul := u32 ul / 1000 in
  let '(n1, dl_code) := nas_ambr_from_kbps rate_zero dl in
  let '(n2, ul_code) := nas_ambr_from_kbps rate_zero ul in
  ApnAmbr (u8 (Z.max (Z.max 0 n1) n2 * 2)) dl_code ul_code.

(** ogs_nas_eps_quality_of_service_t *)
Record eps_qos := EpsQos {
  qos_length : Z; qci : Z; ul_mbr : rate; dl_mbr : rate; ul_gbr : rate; dl_gbr : rate }.

(** [if (kbps) length = ogs_max(length, nas_qos_from_kbps(..., kbps));] *)
Definition qos_rate (length kbps : Z) : Z * rate :=
  if kbps =? 0 then (length, rate_zero)
  else let '(n, c) := nas_qos_from_kbps rate_zero kbps in (Z.max length n, c).

Definition eps_qos_build (qci dl_mbr ul_mbr dl_gbr ul_gbr : Z) : eps_qos :=
  let '(len, dl_mbr) := qos_rate 0 (dl_mbr / 1000) in
  let '(len, ul_mbr) := qos_rate len (ul_mbr / 1000) in
  let '(len, dl_gbr) := qos_rate len (dl_gbr / 1000) in
  let '(len, ul_gbr) := qos_rate len (ul_gbr / 1000) in
  EpsQos (u8 (len * 4 + 1)) qci ul_mbr dl_mbr ul_gbr dl_gbr.

(** ** Unit and value *)

Definition OGS_NAS_BR_UNIT_1K : Z := 1.
Definition OGS_NAS_BR_UNIT_256P : Z := 25.
Record nas_bitrate := NasBitrate { unit_ : Z; value : Z }.

(** The loop of [ogs_nas_bitrate_from_uint64]; [n] units are left below
    OGS_NAS_BR_UNIT_256P. *)
Fixpoint unit_loop (n : nat) (unit bitrate : Z) : Z * Z :=
  match n with
  | O => (unit, bitrate)
  | S n => if bitrate <=? 0xffff then (unit, bitrate) else unit_loop n (unit + 1) (bitrate >> 2)
  end.
Definition ogs_nas_bitrate_from_uint64 (bitrate : Z) : option nas_bitrate :=
  if bitrate =? 0 then None
  else
    let '(unit, bitrate) :=
      unit_loop (Z.to_nat (OGS_NAS_BR_UNIT_256P - OGS_NAS_BR_UNIT_1K)) OGS_NAS_BR_UNIT_1K (bitrate / 1000) in
    Some (NasBitrate unit (u16 bitrate)).

Definition ogs_nas_bitrate_unit_is_valid (nas : nas_bitrate) : bool :=
  (OGS_NAS_BR_UNIT_1K <=? unit_ nas) && (unit_ nas <=? OGS_NAS_BR_UNIT_256P).

(** A product of [int]s from the left; signed overflow is undefined. *)
Fixpoint int_product (x : Z) (ks : list Z) : option Z :=
  match ks with
  | [] => Some x
  | k :: ks => if x * k <? 2 ^ 31 then int_product (x * k) ks else None
  end.
Definition K : Z := 1000.
(** The factors of a unit, in the order in which they are written. *)
Definition unit_factors (unit : Z) : list Z :=
  match unit with
  | 1 => [K] | 2 => [4; K] | 3 => [16; K] | 4 => [64; K] | 5 => [256; K]
  | 6 => [K; K] | 7 => [4; K; K] | 8 => [16; K; K] | 9 => [64; K; K] | 10 => [256; K; K]
  | 11 => [K; K; K] | 12 => [4; K; K; K] | 13 => [16; K; K; K] | 14 => [64; K; K; K] | 15 => [256; K; K; K]
  | 16 => [K; K; K; K] | 17 => [4; K; K; K; K] | 18 => [16; K; K; K; K]
  | 19 => [64; K; K; K; K] | 20 => [256; K; K; K; K]
  | 21 => [K; K; K; K; K] | 22 => [4; K; K; K; K; K] | 23 => [16; K; K; K; K; K]
  | 24 => [64; K; K; K; K; K] | 25 => [256; K; K; K; K; K]
  | _ => []
  end.
Definition ogs_nas_bitrate_to_uint64 (nas : nas_bitrate) : option Z :=
  if negb (ogs_nas_bitrate_unit_is_valid nas) then Some 0
  else int_product (value nas) (unit_factors (unit_ nas)).
