(* ===== verification/RatesSpec.v ===== *)
(** * Coded bit rates: the theorems

    What a coded rate stands for: the largest rate that can be coded and is
    not greater, the octets that the length field covers, and how far the 5GS
    units carry. *)
From S2P Require Import Prelude Rates.
#[local] Open Scope Z_scope.
#[local] Open Scope c_scope.

(** Splits on the tests of a chain of [else if]. *)
Ltac chain_in H :=
  repeat lazymatch type of H with
  | (if ?b then _ else _) = _ => let E := fresh "E" in destruct b eqn:E
  end.
(** Linear arithmetic with quotients. *)
Ltac div_lia := Z.div_mod_to_equations; lia.

(** ** EPS quality of service *)

Definition qos_kbps (c : rate) : option Z := ogs_gtp2_qos_to_kbps (br c) (extended c) (extended2 c).

(** Octets that a code of [n] octets has not got are 0. *)
Definition covered (n : Z) (c : rate) : Prop := (n < 3 → extended2 c = 0) ∧ (n < 2 → extended c = 0) ∧ (n < 1 → br c = 0).

(** [kbps] is the largest rate up to [input] that can be coded. *)
Definition qos_floor (input kbps : Z) : Prop :=
  kbps ≤ input ∧ ∀ b e e2 k, ogs_gtp2_qos_to_kbps b e e2 = Some k → k ≤ input → k ≤ kbps.
Definition rate_bytes (c : rate) : Prop := is_byte (br c) ∧ is_byte (extended c) ∧ is_byte (extended2 c).

(** The cases of an equation about the decoder. *)
Ltac decode_in H :=
  unfold ogs_gtp2_qos_to_kbps in H; chain_in H;
  lazymatch type of H with
  | None = Some _ => discriminate H
  | Some _ = None => discriminate H
  | Some _ = Some _ => injection H as <-
  | None = None => clear H
  end; try (exfalso; div_lia).

Lemma qos_from_kbps_ok input :
  0 ≤ input → ∃ n c kbps, nas_qos_from_kbps rate_zero input = (n, c) ∧ qos_kbps c = Some kbps ∧
    qos_floor input kbps ∧ 1 ≤ n ≤ 3 ∧ covered n c ∧ rate_bytes c.
Proof.
  intros Hi. destruct (nas_qos_from_kbps rate_zero input) as [n c] eqn:H. exists n, c.
  unfold nas_qos_from_kbps in H.
  destruct (qos_kbps c) as [kbps|] eqn:D; unfold qos_kbps in D;
    chain_in H; injection H as <- <-; cbn [br extended extended2 rate_zero] in D;
    rewrite ?u8_small in D by div_lia; decode_in D.
  all: eexists; split; [reflexivity|]; split; [reflexivity|]; split;
    [split; [div_lia|intros b e e2 k Hk Hle; decode_in Hk; div_lia]|].
  all: split; [lia|]; split; [split_and!; cbn; lia|split_and!; apply u8_byte || done].
Qed.

(** What the octets of a rate in kbps say; a rate below 1 kbps has none. *)
Lemma qos_rate_ok len kbps :
  0 ≤ kbps → 0 ≤ len ≤ 3 → ∃ n c, qos_rate len kbps = (Z.max len n, c) ∧ 0 ≤ n ≤ 3 ∧ covered n c ∧
    (kbps = 0 → c = rate_zero) ∧ (0 < kbps → ∃ k, qos_kbps c = Some k ∧ qos_floor kbps k).
Proof.
  intros Hk Hl. unfold qos_rate. destruct (Z.eqb_spec kbps 0) as [->|Hne].
  - exists 0, rate_zero. rewrite Z.max_l by lia. by split_and!; try (intros; lia).
  - destruct (qos_from_kbps_ok kbps Hk) as (n & c & k & -> & Hd & Hf & Hn & Hc & _).
    exists n, c. split; [done|]. split; [lia|]. split; [done|]. split; [lia|]. by exists k.
Qed.
Lemma covered_max n m c : covered n c → n ≤ m → covered m c.
Proof. intros (H1 & H2 & H3) Hle. split_and!; intros; [apply H1|apply H2|apply H3]; lia. Qed.

(** The code of an EPS quality of service: every rate of 1 kbps or more is
    coded as the largest rate that can be coded and is not greater, as the
    decoder of the GTP layer reads it, and a lower one as absent; the length
    covers every octet of the four codes that is not 0. *)
Theorem eps_qos_build_floor qci dl_mbr_ ul_mbr_ dl_gbr_ ul_gbr_ :
  0 ≤ dl_mbr_ → 0 ≤ ul_mbr_ → 0 ≤ dl_gbr_ → 0 ≤ ul_gbr_ →
  let q := eps_qos_build qci dl_mbr_ ul_mbr_ dl_gbr_ ul_gbr_ in
  let coded bps c :=
    (bps < 1000 → c = rate_zero) ∧ (1000 ≤ bps → ∃ k, qos_kbps c = Some k ∧ qos_floor (bps / 1000) k) in
  coded dl_mbr_ (dl_mbr q) ∧ coded ul_mbr_ (ul_mbr q) ∧ coded dl_gbr_ (dl_gbr q) ∧ coded ul_gbr_ (ul_gbr q) ∧
  ∃ n, 0 ≤ n ≤ 3 ∧ qos_length q = 4 * n + 1 ∧ Forall (covered n) [dl_mbr q; ul_mbr q; dl_gbr q; ul_gbr q].
Proof.
  intros H1 H2 H3 H4 q coded.
  assert (Hkbps : ∀ bps, 0 ≤ bps → 0 ≤ bps / 1000) by (intros; div_lia).
  assert (Hcoded : ∀ bps c, 0 ≤ bps → (bps / 1000 = 0 → c = rate_zero) →
    (0 < bps / 1000 → ∃ k, qos_kbps c = Some k ∧ qos_floor (bps / 1000) k) → coded bps c).
  { intros bps c Hb A B. split; intros; [apply A|apply B]; div_lia. }
  unfold q, eps_qos_build.
  destruct (qos_rate_ok 0 (dl_mbr_ / 1000)) as (n1 & c1 & -> & Hn1 & Hc1 & Z1 & K1); [auto|lia|].
  destruct (qos_rate_ok (Z.max 0 n1) (ul_mbr_ / 1000)) as (n2 & c2 & -> & Hn2 & Hc2 & Z2 & K2); [auto|lia|].
  destruct (qos_rate_ok (Z.max (Z.max 0 n1) n2) (dl_gbr_ / 1000)) as (n3 & c3 & -> & Hn3 & Hc3 & Z3 & K3); [auto|lia|].
  destruct (qos_rate_ok (Z.max (Z.max (Z.max 0 n1) n2) n3) (ul_gbr_ / 1000)) as (n4 & c4 & -> & Hn4 & Hc4 & Z4 & K4);
    [auto|lia|].
  cbn. do 4 (split; [by apply Hcoded|]).
  exists (Z.max (Z.max (Z.max (Z.max 0 n1) n2) n3) n4). split; [lia|]. rewrite u8_small by lia. split; [lia|].
  repeat (apply Forall_cons; split; [eapply covered_max; [done|lia]|]). done.
Qed.

Lemma eps_qos_build_floor_witness :
  let q := eps_qos_build 1 300000000 0 128000 64500 in
  ∃ n, 0 ≤ n ≤ 3 ∧ qos_length q = 4 * n + 1 ∧ Forall (covered n) [dl_mbr q; ul_mbr q; dl_gbr q; ul_gbr q].
Proof. apply (eps_qos_build_floor 1 300000000 0 128000 64500); lia. Defined.

(** ** APN-AMBR *)

(** What a code stands for, as the comments of [nas_ambr_from_kbps] say. *)
Definition ambr_kbps (c : rate) : Z :=
  (if extended c =? 0 then
     if br c =? 0xff then 0 else if br c <=? 0x3f then br c
     else if br c <=? 0x7f then 64 + (br c - 0x40) * 8 else 576 + (br c - 0x80) * 64
   else if extended c <=? 0x4a then 8600 + extended c * 100
   else if extended c <=? 0xba then 16 * 1000 + (extended c - 0x4a) * 1000
   else 128 * 1000 + (Z.min (extended c) 0xfa - 0xba) * 2 * 1000) + extended2 c * 256 * 1000.
(** The distance of neighbouring codes. *)
Definition ambr_step (kbps : Z) : Z :=
  if kbps <? 64 then 1 else if kbps <? 576 then 8 else if kbps <? 8700 then 64 else if kbps <? 16000 then 100
  else if kbps <? 128000 then 1000 else if kbps <? 256000 then 2000 else 256000.

Lemma ambr_from_kbps_ok input :
  0 ≤ input < 256 * 256 * 1000 → ∃ n c, nas_ambr_from_kbps rate_zero input = (n, c) ∧ 1 ≤ n ≤ 3 ∧ covered n c ∧
    ambr_kbps c ≤ input < ambr_kbps c + ambr_step input.
Proof.
  intros Hi. destruct (nas_ambr_from_kbps rate_zero input) as [n c] eqn:H. exists n, c. split; [done|].
  unfold nas_ambr_from_kbps in H. chain_in H; injection H as <- <-; cbn [extended extended2 br rate_zero].
  all: try (exfalso; lia).
  all: split; [lia|]; split; [split_and!; cbn; lia|].
  all: unfold ambr_kbps; cbn [br extended extended2]; rewrite ?u8_small by div_lia.
  all: unfold ambr_step; repeat case_match; div_lia.
Qed.

(** The code of an APN-AMBR: what is coded is the rate modulo 2^32 bps,
    rounded down to kbps and to the next code, and the length covers the
    octets; so a rate below 2^32 bps is coded within one step, and whatever
    the rate, less than 4294968 kbps are granted. *)
Lemma apn_ambr_build_floor dl ul :
  let a := apn_ambr_build dl ul in
  let coded bps c := ∃ kbps, kbps = bps mod 2 ^ 32 / 1000 ∧ ambr_kbps c ≤ kbps < ambr_kbps c + ambr_step kbps in
  coded dl (dl_apn_ambr a) ∧ coded ul (ul_apn_ambr a) ∧
  ambr_kbps (dl_apn_ambr a) < 4294968 ∧ ambr_kbps (ul_apn_ambr a) < 4294968 ∧
  ∃ n, 1 ≤ n ≤ 3 ∧ ambr_length a = 2 * n ∧ covered n (dl_apn_ambr a) ∧ covered n (ul_apn_ambr a).
Proof.
  intros a coded. unfold a, apn_ambr_build.
  assert (Hr : ∀ x, 0 ≤ u32 x / 1000 < 4294968).
  { intros x. unfold u32. pose proof (Z.mod_pos_bound x (2 ^ 32)). div_lia. }
  destruct (ambr_from_kbps_ok (u32 dl / 1000)) as (n1 & c1 & -> & Hn1 & Hc1 & Hk1); [specialize (Hr dl); lia|].
  destruct (ambr_from_kbps_ok (u32 ul / 1000)) as (n2 & c2 & -> & Hn2 & Hc2 & Hk2); [specialize (Hr ul); lia|].
  pose proof (Hr dl). pose proof (Hr ul). cbn. split; [by eexists|]. split; [by eexists|].
  split; [lia|]. split; [lia|]. exists (Z.max n1 n2). split; [lia|]. rewrite u8_small by lia. split; [lia|].
  split; (eapply covered_max; [done|lia]).
Qed.

(** ** 5GS bit rates *)

Lemma unit_loop_ok n : ∀ u x, 0 ≤ x → ∃ i : nat,
  unit_loop n u x = (u + Z.of_nat i, x / 4 ^ Z.of_nat i) ∧ (i ≤ n)%nat ∧
  (i = n ∨ x / 4 ^ Z.of_nat i ≤ 0xffff) ∧ (i = O ∨ 2 ^ 14 ≤ x / 4 ^ Z.of_nat i).
Proof.
  induction n as [|n IH]; intros u x Hx; cbn [unit_loop].
  - exists O. rewrite Z.add_0_r, Z.div_1_r. auto.
  - destruct (Z.leb_spec x 0xffff).
    { exists O. rewrite Z.add_0_r, Z.div_1_r. split_and!; auto with lia. }
    rewrite Z.shiftr_div_pow2 by lia. change (2 ^ 2) with 4.
    destruct (IH (u + 1) (x / 4)) as (i & -> & Hi & H1 & H2); [div_lia|].
    assert (E : x / 4 / 4 ^ Z.of_nat i = x / 4 ^ Z.of_nat (S i)).
    { rewrite Z.div_div by lia. by rewrite Nat2Z.inj_succ, Z.pow_succ_r by lia. }
    exists (S i). rewrite E in *. split; [f_equal; lia|]. split; [lia|]. split; [destruct H1; auto|]. right.
    destruct H2 as [->|]; [|done]. change (4 ^ Z.of_nat 1) with 4. div_lia.
Qed.

Lemma fold_mul_le ks : ∀ x, 0 ≤ x → Forall (λ k, 1 ≤ k) ks → x ≤ fold_left Z.mul ks x.
Proof.
  induction ks as [|k ks IH]; intros x Hx Hk; cbn; [lia|]. apply Forall_cons in Hk as [Hk Hks].
  etransitivity; [|apply IH; [nia|done]]. nia.
Qed.
Lemma int_product_ok ks : ∀ x, 0 ≤ x < 2 ^ 31 → Forall (λ k, 1 ≤ k) ks →
  int_product x ks = if fold_left Z.mul ks x <? 2 ^ 31 then Some (fold_left Z.mul ks x) else None.
Proof.
  induction ks as [|k ks IH]; intros x Hx Hk; cbn [int_product fold_left].
  - by replace (x <? 2 ^ 31) with true by (symmetry; lia).
  - apply Forall_cons in Hk as [Hk Hks]. destruct (Z.ltb_spec (x * k) (2 ^ 31)) as [Hlt|Hge].
    + apply IH; [nia|done].
    + pose proof (fold_mul_le ks (x * k)) as Hle. rewrite (proj2 (Z.ltb_ge _ _)); [done|].
      etransitivity; [|apply Hle; [nia|done]]. lia.
Qed.

(** The rate in bps that a unit and a value stand for. *)
Definition nominal (nas : nas_bitrate) : Z := fold_left Z.mul (unit_factors (unit_ nas)) (value nas).
Definition factor (unit : Z) : Z := fold_left Z.mul (unit_factors unit) 1.

Lemma fold_mul_scale ks : ∀ x, fold_left Z.mul ks x = x * fold_left Z.mul ks 1.
Proof.
  induction ks as [|k ks IH]; intros x; cbn [fold_left]; [lia|]. rewrite IH, (IH (1 * k)). ring.
Qed.
Lemma factor_ok u :
  1 ≤ u ≤ 25 → Forall (λ k, 1 ≤ k) (unit_factors u) ∧ (u ≤ 5 → factor u = 1000 * 4 ^ (u - 1)) ∧
    (6 ≤ u → 1000 * 1000 ≤ factor u ∧ factor u * 1024 ≤ 1000 * 1000 * 4 ^ (u - 1)).
Proof.
  intros Hu. destruct u as [|p|p]; try lia. do 5 try (destruct p as [p|p|]; try lia).
  all: split; [repeat constructor; unfold K; lia|vm_compute; split; [|split]; intros; congruence || lia].
Qed.

(** A rate becomes a valid unit and a value with 15 to 16 significant bits
    (fewer only in the smallest unit), no greater than the rate; up to the
    unit of 256 kbps the coded rate is exact to one unit, but from the unit of
    1 Mbps on, each of which stands for 1000 and not 1024 of the smaller one,
    it falls short by more than 2 percent.  Decoding yields the coded rate
    when it is below 2^31 bps; for every rate from 2^31 + 64000 bps on the
    product overflows an [int]. *)
Theorem ogs_nas_bitrate_roundtrip b :
  0 < b < 2 ^ 64 → ∃ nas, ogs_nas_bitrate_from_uint64 b = Some nas ∧
    ogs_nas_bitrate_unit_is_valid nas = true ∧ 0 ≤ value nas ≤ 0xffff ∧ (unit_ nas = 1 ∨ 2 ^ 14 ≤ value nas) ∧
    (unit_ nas ≤ 5 → nominal nas ≤ b < nominal nas + 1000 * 4 ^ (unit_ nas - 1)) ∧
    (6 ≤ unit_ nas → nominal nas * 1024 ≤ b * 1000) ∧
    (b < 2 ^ 31 → ogs_nas_bitrate_to_uint64 nas = Some (nominal nas)) ∧
    (2 ^ 31 + 64000 ≤ b → ogs_nas_bitrate_to_uint64 nas = None).
Proof.
  intros Hb. unfold ogs_nas_bitrate_from_uint64. replace (b =? 0) with false by (symmetry; lia).
  destruct (unit_loop_ok 24 1 (b / 1000)) as (i & E & Hi & H1 & H2); [div_lia|].
  change (Z.to_nat (OGS_NAS_BR_UNIT_256P - OGS_NAS_BR_UNIT_1K)) with 24%nat.
  change OGS_NAS_BR_UNIT_1K with 1. rewrite E. set (v := b / 1000 / 4 ^ Z.of_nat i) in *.
  assert (Hv : 0 ≤ v) by (unfold v; apply Z.div_pos; [div_lia|lia]).
  assert (Hp : 0 < 4 ^ Z.of_nat i) by (apply Z.pow_pos_nonneg; lia).
  assert (Hf : v * 4 ^ Z.of_nat i ≤ b / 1000 < (v + 1) * 4 ^ Z.of_nat i).
  { pose proof (Z.div_mod (b / 1000) (4 ^ Z.of_nat i)). pose proof (Z.mod_pos_bound (b / 1000) (4 ^ Z.of_nat i)).
    fold v in H. nia. }
  assert (Hi' : (i < 24)%nat).
  { destruct (decide (i = 24)%nat) as [->|]; [|lia]. change (4 ^ Z.of_nat 24) with (2 ^ 48) in Hf.
    destruct H2; [lia|]. div_lia. }
  assert (Hmax : v ≤ 0xffff) by (destruct H1; lia).
  rewrite u16_small by lia. eexists; split; [reflexivity|].
  assert (Hvalid : ogs_nas_bitrate_unit_is_valid (NasBitrate (1 + Z.of_nat i) v) = true).
  { unfold ogs_nas_bitrate_unit_is_valid, OGS_NAS_BR_UNIT_1K, OGS_NAS_BR_UNIT_256P. cbn [unit_]. lia. }
  destruct (factor_ok (1 + Z.of_nat i)) as (Hks & Hlow & Hhigh); [lia|].
  replace (1 + Z.of_nat i - 1) with (Z.of_nat i) in * by lia.
  split; [done|]. split; [done|]. cbn [unit_ value]. split; [destruct H2; [left|right]; lia|].
  unfold ogs_nas_bitrate_to_uint64, nominal. rewrite Hvalid. cbn [negb unit_ value].
  rewrite int_product_ok by (done || lia). rewrite fold_mul_scale. fold (factor (1 + Z.of_nat i)).
  replace (1 + Z.of_nat i - 1) with (Z.of_nat i) by lia.
  set (P := 4 ^ Z.of_nat i) in *. set (f := factor _) in *.
  assert (Hb' : 1000 * (b / 1000) ≤ b < 1000 * (b / 1000) + 1000) by div_lia.
  assert (HP : (i ≤ 3)%nat ∧ P ≤ 64 ∨ i = 4%nat ∧ P = 256 ∨ (5 ≤ i)%nat ∧ 1024 ≤ P).
  { destruct (decide (i ≤ 3)%nat); [left|destruct (decide (i = 4)%nat) as [->|]; [by right; left|right; right]];
      (split; [lia|]); [change 64 with (4 ^ 3)|change 1024 with (4 ^ 5)]; apply Z.pow_le_mono_r; lia. }
  split; [intros Hu; rewrite Hlow by lia; nia|]. split; [intros Hu; destruct Hhigh; [lia|nia]|].
  split; intros Hlt; case_match; try done; exfalso.
  - destruct HP as [[? ?]|[[? ?]|[? ?]]]; [rewrite Hlow in * by lia; nia..|]. destruct H2; [lia|]. nia.
  - destruct HP as [[? ?]|[[? ?]|[? ?]]]; [rewrite Hlow in * by lia; nia|rewrite Hlow in * by lia; destruct H2; [lia|nia]|].
    destruct Hhigh; [lia|]. destruct H2; [lia|nia].
Qed.

Lemma ogs_nas_bitrate_roundtrip_witness :
  ∃ nas, ogs_nas_bitrate_from_uint64 (2 ^ 32) = Some nas ∧ ogs_nas_bitrate_to_uint64 nas = None.
Proof.
  destruct (ogs_nas_bitrate_roundtrip (2 ^ 32)) as (nas & H1 & _ & _ & _ & _ & _ & _ & H2); [lia|].
  exists nas. split; [done|]. apply H2. lia.
Defined.
