(* ===== verification/Gtp2Types.v ===== *)
(** * GTPv2 information elements: lib/gtp/v2/types.c, lib/ipfw/ogs-ipfw.c

    Qualities of service, traffic flow templates with the packet filters made
    from a rule, user location information and node identifiers. *)
From S2P Require Import Prelude XactBase Octets.
#[local] Open Scope Z_scope.
#[local] Open Scope c_scope.

(** ** Packet filters *)

Definition OGS_MAX_NUM_OF_FLOW_IN_GTP : nat := 15.
Definition OGS_MAX_NUM_OF_PACKET_FILTER_COMPONENT : nat := 16.
Definition OGS_GTP2_MAX_TRAFFIC_FLOW_TEMPLATE : Z := 255.

Definition PROTOCOL_IDENTIFIER_NEXT_HEADER_TYPE : Z := 48.
Definition IPV4_REMOTE_ADDRESS_TYPE : Z := 16.
Definition IPV4_LOCAL_ADDRESS_TYPE : Z := 17.
Definition IPV6_REMOTE_ADDRESS_TYPE : Z := 32.
Definition IPV6_REMOTE_ADDRESS_PREFIX_LENGTH_TYPE : Z := 33.
Definition IPV6_LOCAL_ADDRESS_TYPE : Z := 34.
Definition IPV6_LOCAL_ADDRESS_PREFIX_LENGTH_TYPE : Z := 35.
Definition SINGLE_LOCAL_PORT_TYPE : Z := 64.
Definition LOCAL_PORT_RANGE_TYPE : Z := 65.
Definition SINGLE_REMOTE_PORT_TYPE : Z := 80.
Definition REMOTE_PORT_RANGE_TYPE : Z := 81.

(** A component: its type and the 32 bytes of the union of its values, whose
    members are an offset and a size. *)
Record component := Component { ctype : Z; union_ : list Z }.
Definition member : Type := nat * nat.
Definition proto : member := (0, 1)%nat.
Definition ipv4_addr : member := (0, 4)%nat.
Definition ipv4_mask : member := (4, 4)%nat.
Definition ipv6_addr : member := (0, 16)%nat.
Definition ipv6_prefixlen : member := (16, 1)%nat.
Definition ipv6_mask_addr : member := (0, 16)%nat.
Definition ipv6_mask_mask : member := (16, 16)%nat.
Definition port_low : member := (0, 2)%nat.
Definition port_high : member := (2, 2)%nat.

Definition get_member (m : member) (c : component) : list Z := take m.2 (drop m.1 (union_ c)).
Definition set_member (m : member) (bs : list Z) (c : component) : component :=
  Component (ctype c) (take m.1 (union_ c) ++ bs ++ drop (m.1 + m.2) (union_ c)).
Definition set_ctype (t : Z) (c : component) : component := Component t (union_ c).

(** ogs_pf_content_t, an entry of [tft->pf], and ogs_gtp2_tft_t. *)
Record pf_content := Content { length_ : Z; components : list component; num_of_component : Z }.
Record packet_filter := PacketFilter { pf_flags : Z; precedence : Z; content : pf_content }.
Record tft := Tft { tft_flags : Z; pf : list packet_filter }.

Definition component_zero : component := Component 0 (replicate 32 0).
Definition content_zero : pf_content :=
  Content 0 (replicate OGS_MAX_NUM_OF_PACKET_FILTER_COMPONENT component_zero) 0.
Definition tft_zero : tft := Tft 0 (replicate OGS_MAX_NUM_OF_FLOW_IN_GTP (PacketFilter 0 0 content_zero)).

(** The bit fields [code] and [num_of_packet_filter]. *)
Definition code (fl : Z) : Z := fl >> 5.
Definition num_of_packet_filter (fl : Z) : Z := fl .& 15.
Definition TFT_CODE_IGNORE_THIS_IE : Z := 0.
Definition TFT_CODE_DELETE_EXISTING_TFT : Z := 2.
Definition TFT_CODE_DELETE_PACKET_FILTERS_FROM_EXISTING : Z := 5.
Definition TFT_CODE_NO_TFT_OPERATION : Z := 6.

(** ** Parsing a template *)

(** An assignment below [tft->pf[i]] and below its [content.component[j]]; an
    index outside of the arrays faults. *)
Definition upd_pf (i : nat) (g : packet_filter → packet_filter) : P tft unit := λ t s,
  match pf t !! i with Some p => Go tt (Tft (tft_flags t) (<[i := g p]> (pf t))) s | None => Fault end.
Definition upd_content (i : nat) (g : pf_content → pf_content) : P tft unit :=
  upd_pf i (λ p, PacketFilter (pf_flags p) (precedence p) (g (content p))).
Definition upd_component (i j : nat) (g : component → component) : P tft unit := λ t s,
  match pf t !! i with
  | Some p =>
      match components (content p) !! j with
      | Some c => upd_content i (λ k, Content (length_ k) (<[j := g c]> (components k)) (num_of_component k)) t s
      | None => Fault
      end
  | None => Fault
  end.

Section parse_tft.
Variable octet : list Z.

(** Check, [memcpy] into a member of the union, [len += sizeof(...)]; then
    [be16toh] of the two bytes of a port.  An error returns [size], which is
    where the content begins: the cursor is [size + len]. *)
Definition parse_member (i j : nat) (size : Z) (m : member) : P tft unit :=
  bs ← field octet (λ _, size) (Z.of_nat m.2); upd_component i j (set_member m bs).
Definition parse_port (i j : nat) (size : Z) (m : member) : P tft unit :=
  bs ← field octet (λ _, size) (Z.of_nat m.2); upd_component i j (set_member m (rev bs)).

Definition parse_component (i j : nat) (size : Z) : P tft unit :=
  bs ← field octet (λ _, size) 1;
  let t := le_value bs in
  upd_component i j (set_ctype t);;
  if t =? PROTOCOL_IDENTIFIER_NEXT_HEADER_TYPE then parse_member i j size proto
  else if (t =? IPV4_REMOTE_ADDRESS_TYPE) || (t =? IPV4_LOCAL_ADDRESS_TYPE) then
    parse_member i j size ipv4_addr;; parse_member i j size ipv4_mask
  else if (t =? IPV6_LOCAL_ADDRESS_PREFIX_LENGTH_TYPE) || (t =? IPV6_REMOTE_ADDRESS_PREFIX_LENGTH_TYPE) then
    parse_member i j size ipv6_addr;; parse_member i j size ipv6_prefixlen
  else if (t =? IPV6_LOCAL_ADDRESS_TYPE) || (t =? IPV6_REMOTE_ADDRESS_TYPE) then
    parse_member i j size ipv6_mask_addr;; parse_member i j size ipv6_mask_mask
  else if (t =? SINGLE_LOCAL_PORT_TYPE) || (t =? SINGLE_REMOTE_PORT_TYPE) then
    parse_port i j size port_low
  else if (t =? LOCAL_PORT_RANGE_TYPE) || (t =? REMOTE_PORT_RANGE_TYPE) then
    parse_port i j size port_low;; parse_port i j size port_high
  else p_return (-1).

(** [while (len < content.length)]: [room] is what [comp_max] leaves for [j];
    the result is the last [j]. *)
Fixpoint parse_components (room i j : nat) (size length : Z) : P tft nat :=
  here ← get_size;
  if here - size <? length then
    match room with
    | O => p_return size
    | S room => parse_component i j size;; parse_components room i (S j) size length
    end
  else mret j.

Definition parse_filter (fl : Z) (i : nat) : P tft unit :=
  bs ← field octet return_size 1;
  upd_pf i (λ p, PacketFilter (le_value bs) (precedence p) (content p));;
  if code fl =? TFT_CODE_DELETE_PACKET_FILTERS_FROM_EXISTING then mret tt
  else
    bs ← field octet return_size 1;
    upd_pf i (λ p, PacketFilter (pf_flags p) (le_value bs) (content p));;
    bs ← field octet return_size 1;
    let length := le_value bs in
    upd_content i (λ k, Content length (components k) (num_of_component k));;
    check octet return_size length;;
    size ← get_size;
    j ← parse_components OGS_MAX_NUM_OF_PACKET_FILTER_COMPONENT i 0 size length;
    upd_content i (λ k, Content (length_ k) (components k) (u8 (Z.of_nat j))).

(** [for (i = ...; i < num && i < OGS_MAX_NUM_OF_FLOW_IN_GTP; i++)], [n] turns
    being left. *)
Fixpoint parse_filters (n i : nat) (fl : Z) : P tft unit :=
  match n with O => mret tt | S n => parse_filter fl i;; parse_filters n (S i) fl end.

Definition num_turns (fl : Z) : nat := Nat.min (Z.to_nat (num_of_packet_filter fl)) OGS_MAX_NUM_OF_FLOW_IN_GTP.

Definition parse_tft : P tft Z :=
  bs ← field octet return_size 1;
  let fl := le_value bs in
  assign (λ t, Tft fl (pf t));;
  (if code fl =? TFT_CODE_IGNORE_THIS_IE then size ← get_size; p_return size else mret tt);;
  (if (code fl =? TFT_CODE_NO_TFT_OPERATION) || (code fl =? TFT_CODE_DELETE_EXISTING_TFT) then
     size ← get_size; p_return size
   else mret tt);;
  parse_filters (num_turns fl) 0 fl;;
  size ← get_size; mret (s16 size).
Definition ogs_gtp2_parse_tft : option (Z * tft) := run_parse parse_tft tft_zero.
End parse_tft.

(** ** Building a template *)

(** A build goes on with its buffer, or returns an error; [None] is a failed
    assertion. *)
Inductive step := Next (buf : list Z) | Error (rv : Z).
Definition seq_build (m : option step) (k : list Z → option step) : option step :=
  match m with Some (Next buf) => k buf | r => r end.
Definition put_next (data_len : Z) (bs buf : list Z) : option step :=
  match put data_len bs buf with Some buf => Some (Next buf) | None => None end.

Section build_tft.
Variable data_len : Z.

Definition build_member (c : component) (m : member) (buf : list Z) : option step :=
  put_next data_len (get_member m c) buf.
(** [htobe16] of the two bytes of a port. *)
Definition build_port (c : component) (m : member) (buf : list Z) : option step :=
  put_next data_len (rev (get_member m c)) buf.

Definition build_component (c : component) (buf : list Z) : option step :=
  let t := ctype c in
  seq_build (put_next data_len [t] buf) (λ buf,
  if t =? PROTOCOL_IDENTIFIER_NEXT_HEADER_TYPE then build_member c proto buf
  else if (t =? IPV4_REMOTE_ADDRESS_TYPE) || (t =? IPV4_LOCAL_ADDRESS_TYPE) then
    seq_build (build_member c ipv4_addr buf) (build_member c ipv4_mask)
  else if (t =? IPV6_REMOTE_ADDRESS_PREFIX_LENGTH_TYPE) || (t =? IPV6_LOCAL_ADDRESS_PREFIX_LENGTH_TYPE) then
    seq_build (build_member c ipv6_addr buf) (build_member c ipv6_prefixlen)
  else if (t =? IPV6_REMOTE_ADDRESS_TYPE) || (t =? IPV6_LOCAL_ADDRESS_TYPE) then
    seq_build (build_member c ipv6_mask_addr buf) (build_member c ipv6_mask_mask)
  else if (t =? SINGLE_LOCAL_PORT_TYPE) || (t =? SINGLE_REMOTE_PORT_TYPE) then build_port c port_low buf
  else if (t =? LOCAL_PORT_RANGE_TYPE) || (t =? REMOTE_PORT_RANGE_TYPE) then
    seq_build (build_port c port_low buf) (build_port c port_high)
  else Some (Error (-1))).

(** [for (j = ...; j < num_of_component; j++)], [n] turns being left. *)
Fixpoint build_components (n j : nat) (k : pf_content) (buf : list Z) : option step :=
  match n with
  | O => Some (Next buf)
  | S n =>
      c ← components k !! j;
      seq_build (build_component c buf) (build_components n (S j) k)
  end.

Definition build_filter (fl : Z) (p : packet_filter) (buf : list Z) : option step :=
  seq_build (put_next data_len [pf_flags p] buf) (λ buf,
  if code fl =? TFT_CODE_DELETE_PACKET_FILTERS_FROM_EXISTING then Some (Next buf)
  else
    seq_build (put_next data_len [precedence p] buf) (λ buf,
    seq_build (put_next data_len [length_ (content p)] buf) (λ buf,
    build_components (Z.to_nat (num_of_component (content p))) 0 (content p) buf))).

Fixpoint build_filters (n i : nat) (t : tft) (buf : list Z) : option step :=
  match n with
  | O => Some (Next buf)
  | S n => p ← pf t !! i; seq_build (build_filter (tft_flags t) p buf) (build_filters n (S i) t)
  end.

(** The return value, [octet->len] and the data; [len] is the former value of
    [octet->len], which an early return leaves. *)
Definition ogs_gtp2_build_tft (len : Z) (t : tft) : option (Z * Z * list Z) :=
  let fl := tft_flags t in
  if data_len <? OGS_GTP2_MAX_TRAFFIC_FLOW_TEMPLATE then None
  else if code fl =? TFT_CODE_IGNORE_THIS_IE then None
  else
    buf ← put data_len [fl] [];
    if (code fl =? TFT_CODE_NO_TFT_OPERATION) || (code fl =? TFT_CODE_DELETE_EXISTING_TFT) then
      Some (zlen buf, len, buf)
    else
      match build_filters (num_turns fl) 0 t buf with
      | Some (Next buf) => Some (s16 (zlen buf), u16 (zlen buf), buf)
      | Some (Error rv) => Some (rv, len, buf)
      | None => None
      end.
End build_tft.

(** ** The components of a rule: lib/ipfw/ogs-ipfw.c *)

(** ogs_ipfw_rule_t; addresses and masks are their 16 bytes, ports their
    values. *)
Record ipfw_rule := IpfwRule {
  rproto : Z; ipv4_src : bool; ipv4_dst : bool; ipv6_src : bool; ipv6_dst : bool;
  src_addr : list Z; src_mask : list Z; dst_addr : list Z; dst_mask : list Z;
  src_low : Z; src_high : Z; dst_low : Z; dst_high : Z }.

Definition OGS_FLOW_DOWNLINK_ONLY : Z := 1.
Definition OGS_FLOW_UPLINK_ONLY : Z := 2.
Definition OGS_FLOW_BIDIRECTIONAL : Z := 3.

Definition ogs_ipfw_copy_and_swap (r : ipfw_rule) : ipfw_rule :=
  IpfwRule (rproto r) (ipv4_dst r) (ipv4_src r) (ipv6_dst r) (ipv6_src r)
    (dst_addr r) (dst_mask r) (src_addr r) (src_mask r) (dst_low r) (dst_high r) (src_low r) (src_high r).

(** The state of [ogs_pf_content_from_ipfw_rule]: the components, [j], [len]. *)
Definition filling : Type := list component * nat * Z.
(** [content->component[j]] is assigned, [j++; len += n;]. *)
Definition fill (g : component → component) (n : Z) (st : filling) : option filling :=
  let '(cs, j, len) := st in
  c ← cs !! j; Some (<[j := g c]> cs, S j, len + n).

(** [contigmask] of lib/ipfw/ipfw2.c: the number of leading bits that are set
    in a mask of [len] bits, or -1 if a later one is. *)
Definition mask_bit (p : list Z) (i : nat) : bool := Z.testbit (nth (i / 8) p 0) (7 - Z.of_nat (i mod 8)).
Fixpoint leading_bits (p : list Z) (n i : nat) : nat :=
  match n with O => i | S n => if mask_bit p i then leading_bits p n (S i) else i end.
Definition contigmask (p : list Z) (len : nat) : Z :=
  let i := leading_bits p len 0 in
  if existsb (mask_bit p) (seq (i + 1) (len - (i + 1))) then -1 else Z.of_nat i.

Definition fill_ipv4 (type : Z) (addr mask : list Z) : filling → option filling :=
  fill (λ c, set_member ipv4_mask (take 4 mask) (set_member ipv4_addr (take 4 addr) (set_ctype type c))) 9.
Definition fill_ipv6 (type : Z) (addr mask : list Z) : filling → option filling :=
  fill (λ c, set_member ipv6_prefixlen [u8 (contigmask mask 128)] (set_member ipv6_addr addr (set_ctype type c))) 18.
Definition fill_ipv6_mask (type : Z) (addr mask : list Z) : filling → option filling :=
  fill (λ c, set_member ipv6_mask_mask mask (set_member ipv6_mask_addr addr (set_ctype type c))) 33.
Definition fill_port (single range : Z) (low high : Z) : filling → option filling :=
  if low =? high then fill (λ c, set_member port_low (le_bytes 2 low) (set_ctype single c)) 3
  else fill (λ c, set_member port_high (le_bytes 2 high) (set_member port_low (le_bytes 2 low) (set_ctype range c))) 5.
Definition fill_when (b : bool) (f : filling → option filling) (st : filling) : option filling :=
  if b then f st else Some st.

(** [switch (direction)]; any other direction is fatal. *)
Definition by_direction (direction : Z) (down up : filling → option filling) (st : filling) : option filling :=
  if (direction =? OGS_FLOW_DOWNLINK_ONLY) || (direction =? OGS_FLOW_BIDIRECTIONAL) then down st
  else if direction =? OGS_FLOW_UPLINK_ONLY then up st
  else None.

Definition ogs_pf_content_from_ipfw_rule (direction : Z) (k : pf_content) (r : ipfw_rule)
    (no_ipv4v6_local_addr_in_packet_filter : bool) : option pf_content :=
  let no_local := no_ipv4v6_local_addr_in_packet_filter in
  let switch := by_direction direction in
  let st : filling := (components k, O, 0) in
  st ← fill_when (negb (rproto r =? 0))
    (fill (λ c, set_member proto [rproto r] (set_ctype PROTOCOL_IDENTIFIER_NEXT_HEADER_TYPE c)) 2) st;
  st ← fill_when (ipv4_src r) (switch
    (fill_ipv4 IPV4_REMOTE_ADDRESS_TYPE (src_addr r) (src_mask r))
    (fill_when (negb no_local) (fill_ipv4 IPV4_LOCAL_ADDRESS_TYPE (src_addr r) (src_mask r)))) st;
  st ← fill_when (ipv4_dst r) (switch
    (fill_when (negb no_local) (fill_ipv4 IPV4_LOCAL_ADDRESS_TYPE (dst_addr r) (dst_mask r)))
    (fill_ipv4 IPV4_REMOTE_ADDRESS_TYPE (dst_addr r) (dst_mask r))) st;
  st ← fill_when (ipv6_src r) (switch
    (if no_local then fill_ipv6_mask IPV6_REMOTE_ADDRESS_TYPE (src_addr r) (src_mask r)
     else fill_ipv6 IPV6_REMOTE_ADDRESS_PREFIX_LENGTH_TYPE (src_addr r) (src_mask r))
    (fill_when (negb no_local) (fill_ipv6 IPV6_LOCAL_ADDRESS_PREFIX_LENGTH_TYPE (src_addr r) (src_mask r)))) st;
  st ← fill_when (ipv6_dst r) (switch
    (fill_when (negb no_local) (fill_ipv6 IPV6_LOCAL_ADDRESS_PREFIX_LENGTH_TYPE (dst_addr r) (dst_mask r)))
    (if no_local then fill_ipv6_mask IPV6_REMOTE_ADDRESS_TYPE (dst_addr r) (dst_mask r)
     else fill_ipv6 IPV6_REMOTE_ADDRESS_PREFIX_LENGTH_TYPE (dst_addr r) (dst_mask r))) st;
  st ← fill_when (negb (src_low r =? 0)) (switch
    (fill_port SINGLE_REMOTE_PORT_TYPE REMOTE_PORT_RANGE_TYPE (src_low r) (src_high r))
    (fill_port SINGLE_LOCAL_PORT_TYPE LOCAL_PORT_RANGE_TYPE (src_low r) (src_high r))) st;
  st ← fill_when (negb (dst_low r =? 0)) (switch
    (fill_port SINGLE_LOCAL_PORT_TYPE LOCAL_PORT_RANGE_TYPE (dst_low r) (dst_high r))
    (fill_port SINGLE_REMOTE_PORT_TYPE REMOTE_PORT_RANGE_TYPE (dst_low r) (dst_high r))) st;
  let '(cs, j, len) := st in
  Some (Content (u8 len) cs (u8 (Z.of_nat j))).

(** ** The template of a bearer: src/smf/binding.c *)

(** smf_pf_t: what [encode_traffic_flow_template] reads of it. *)
Record smf_pf := SmfPf { pf_identifier : Z; pf_direction : Z; pf_precedence : Z; pf_rule : ipfw_rule }.

(** Assignments of the bit fields [direction] and [identifier] of the flags. *)
Definition set_identifier (v fl : Z) : Z := (fl .& 0xf0) .| (v .& 15).
Definition set_direction (v fl : Z) : Z := (fl .& 0xcf) .| ((v .& 3) << 4).

(** The loop over [pf_to_add_list] from index [i]; [code] is [tft_operation_code]. *)
Fixpoint encode_filters (op : Z) (no_local : bool) (pfs : list smf_pf) (i : nat) (t : list packet_filter)
    : option (nat * list packet_filter) :=
  match pfs with
  | [] => Some (i, t)
  | f :: pfs =>
      if negb (i <? OGS_MAX_NUM_OF_FLOW_IN_GTP)%nat then None
      else
        p ← t !! i;
        let fl := set_identifier (u8 (pf_identifier f - 1)) (pf_flags p) in
        p ← (if op =? TFT_CODE_DELETE_PACKET_FILTERS_FROM_EXISTING
             then Some (PacketFilter fl (precedence p) (content p))
             else
               k ← ogs_pf_content_from_ipfw_rule (pf_direction f) (content p) (pf_rule f) no_local;
               Some (PacketFilter (set_direction (pf_direction f) fl) (u8 (pf_precedence f - 1)) k));
        encode_filters op no_local pfs (S i) (<[i := p]> t)
  end.
(** The bit fields [code] and [num_of_packet_filter] of the flags. *)
Definition encode_traffic_flow_template (op : Z) (no_local : bool) (pfs : list smf_pf) : option tft :=
  let fl := (op .& 7) << 5 in
  '(i, t) ← (if (op =? TFT_CODE_DELETE_EXISTING_TFT) || (op =? TFT_CODE_NO_TFT_OPERATION)
             then Some (O, pf tft_zero) else encode_filters op no_local pfs 0 (pf tft_zero));
  Some (Tft (fl .| (Z.of_nat i .& 15)) t).
