(* ===== verification/TftSpec.v ===== *)
(** * Traffic flow templates: the theorems

    The octets of a template; that building writes them exactly when they fit
    the buffer, that parsing them yields the template again, that the templates
    of a bearer are of this form, and that parsing any octets is safe. *)
From S2P Require Import Prelude XactBase Octets Gtp2Types.
#[local] Open Scope Z_scope.

(** ** The octets of a template *)

(** The members of the union that a type uses; ports are swapped. *)
Definition layout (t : Z) : option (list (member * bool)) :=
  if t =? PROTOCOL_IDENTIFIER_NEXT_HEADER_TYPE then Some [(proto, false)]
  else if (t =? IPV4_REMOTE_ADDRESS_TYPE) || (t =? IPV4_LOCAL_ADDRESS_TYPE) then
    Some [(ipv4_addr, false); (ipv4_mask, false)]
  else if (t =? IPV6_LOCAL_ADDRESS_PREFIX_LENGTH_TYPE) || (t =? IPV6_REMOTE_ADDRESS_PREFIX_LENGTH_TYPE) then
    Some [(ipv6_addr, false); (ipv6_prefixlen, false)]
  else if (t =? IPV6_LOCAL_ADDRESS_TYPE) || (t =? IPV6_REMOTE_ADDRESS_TYPE) then
    Some [(ipv6_mask_addr, false); (ipv6_mask_mask, false)]
  else if (t =? SINGLE_LOCAL_PORT_TYPE) || (t =? SINGLE_REMOTE_PORT_TYPE) then Some [(port_low, true)]
  else if (t =? LOCAL_PORT_RANGE_TYPE) || (t =? REMOTE_PORT_RANGE_TYPE) then
    Some [(port_low, true); (port_high, true)]
  else None.
Definition layout_of (c : component) : list (member * bool) := default [] (layout (ctype c)).

Definition swap_if (sw : bool) (bs : list Z) : list Z := if sw then rev bs else bs.
Definition members_octets (l : list (member * bool)) (c : component) : list Z :=
  concat ((λ x, swap_if x.2 (get_member x.1 c)) <$> l).
Definition component_octets (c : component) : list Z := ctype c :: members_octets (layout_of c) c.

(** The component that has the members [l] of [c] and is 0 elsewhere. *)
Definition set_members (l : list (member * bool)) (c d : component) : component :=
  fold_left (λ d x, set_member x.1 (get_member x.1 c) d) l d.
Record component_wf (c : component) : Prop := {
  cw_layout : is_Some (layout (ctype c)); cw_type : is_byte (ctype c); cw_size : length (union_ c) = 32%nat;
  cw_zero : set_members (layout_of c) c (set_ctype (ctype c) component_zero) = c }.

Definition content_octets (cs : list component) : list Z := concat (component_octets <$> cs).
(** The contents of a filter: components, then zeros. *)
Definition content_of (cs : list component) : pf_content :=
  Content (zlen (content_octets cs)) (cs ++ replicate (OGS_MAX_NUM_OF_PACKET_FILTER_COMPONENT - length cs) component_zero)
    (zlen cs).
Definition components_wf (cs : list component) : Prop :=
  Forall component_wf cs ∧ (length cs ≤ OGS_MAX_NUM_OF_PACKET_FILTER_COMPONENT)%nat ∧ zlen (content_octets cs) < 256.

(** A filter: its flags, its precedence and its components; of a filter to be
    deleted only the flags are sent. *)
Record filter := Filter { f_flags : Z; f_precedence : Z; f_components : list component }.
Definition to_pf (f : filter) : packet_filter := PacketFilter (f_flags f) (f_precedence f) (content_of (f_components f)).
Definition deletes (fl : Z) : bool := code fl =? TFT_CODE_DELETE_PACKET_FILTERS_FROM_EXISTING.
Definition filter_wf (fl : Z) (f : filter) : Prop :=
  is_byte (f_flags f) ∧ is_byte (f_precedence f) ∧ components_wf (f_components f) ∧
  (deletes fl = true → f_precedence f = 0 ∧ f_components f = []).
Definition filter_octets (fl : Z) (f : filter) : list Z :=
  f_flags f :: if deletes fl then []
    else f_precedence f :: zlen (content_octets (f_components f)) :: content_octets (f_components f).

Definition pf_zero : packet_filter := PacketFilter 0 0 content_zero.
Definition to_tft (fl : Z) (fs : list filter) : tft :=
  Tft fl ((to_pf <$> fs) ++ replicate (OGS_MAX_NUM_OF_FLOW_IN_GTP - length fs) pf_zero).
Definition tft_octets (fl : Z) (fs : list filter) : list Z := fl :: concat (filter_octets fl <$> fs).
(** Templates that carry filters. *)
Definition tft_wf (fl : Z) (fs : list filter) : Prop :=
  is_byte fl ∧ code fl ≠ TFT_CODE_IGNORE_THIS_IE ∧ code fl ≠ TFT_CODE_NO_TFT_OPERATION ∧
  code fl ≠ TFT_CODE_DELETE_EXISTING_TFT ∧ num_turns fl = length fs ∧
  (length fs ≤ OGS_MAX_NUM_OF_FLOW_IN_GTP)%nat ∧ Forall (filter_wf fl) fs.

(** ** Building *)

Section build.
Variable data_len : Z.
Hypothesis data_len_small : data_len < 2 ^ 15.
Abbreviation put_next := (put_next data_len).

Lemma put_next_eq bs buf :
  zlen buf ≤ data_len → put_next bs buf = if zlen buf + zlen bs <=? data_len then Some (Next (buf ++ bs)) else None.
Proof.
  intros Hb. unfold Gtp2Types.put_next, put. replace (zlen buf <? 2 ^ 15) with true by (symmetry; lia). cbn [andb].
  by destruct (zlen buf + zlen bs <=? data_len).
Qed.
Lemma put_next_nil buf : zlen buf ≤ data_len → put_next [] buf = Some (Next buf).
Proof.
  intros Hb. rewrite put_next_eq by done. replace (_ <=? _) with true by (symmetry; unfold zlen in *; cbn; lia).
  by rewrite app_nil_r.
Qed.

(** A sequence of fields is one field. *)
Lemma seq_put a b k buf :
  zlen buf ≤ data_len → (∀ buf', zlen buf' ≤ data_len → k buf' = put_next b buf') →
  seq_build (put_next a buf) k = put_next (a ++ b) buf.
Proof.
  intros Hb Hk. rewrite !put_next_eq, zlen_app by done. pose proof (zlen_nonneg b).
  destruct (Z.leb_spec (zlen buf + zlen a) data_len); cbn [seq_build].
  - rewrite Hk, put_next_eq, zlen_app, app_assoc by (rewrite zlen_app; lia).
    by replace (zlen buf + zlen a + zlen b) with (zlen buf + (zlen a + zlen b)) by lia.
  - by replace (_ <=? _) with false by (symmetry; lia).
Qed.

Lemma build_component_ok c buf :
  component_wf c → zlen buf ≤ data_len → build_component data_len c buf = put_next (component_octets c) buf.
Proof.
  intros [[l Hl] _ _ _] Hb. unfold component_octets, layout_of. rewrite Hl. cbn [default].
  change (?x :: ?y) with ([x] ++ y). unfold build_component. apply seq_put; [done|]. intros buf' Hb'.
  unfold layout in Hl. repeat case_match; simplify_eq; try lia.
  all: unfold members_octets, swap_if, build_member, build_port; cbn; rewrite ?app_nil_r.
  all: first [done|by apply seq_put].
Qed.

Lemma build_components_ok cs n post : ∀ pre buf,
  Forall component_wf cs → zlen buf ≤ data_len →
  build_components data_len (length cs) (length pre) (Content n (pre ++ cs ++ post) 0) buf =
  put_next (content_octets cs) buf.
Proof.
  induction cs as [|c cs IH]; intros pre buf Hcs Hb; cbn [length build_components]; [by rewrite put_next_nil|].
  apply Forall_cons in Hcs as [Hc Hcs]. cbn [components app].
  rewrite list_lookup_middle by done. cbn [mbind option_bind].
  unfold content_octets. cbn [fmap list_fmap concat]. rewrite build_component_ok by done.
  apply seq_put; [done|]. intros buf' Hb'. rewrite <- (IH (pre ++ [c])) by done.
  rewrite length_app, Nat.add_1_r. by rewrite <- app_assoc.
Qed.
Lemma build_components_num n j k num buf :
  build_components data_len n j (Content (length_ k) (components k) num) buf = build_components data_len n j k buf.
Proof.
  revert j buf. induction n as [|n IH]; intros j buf; cbn [build_components components]; [done|].
  destruct (components k !! j) as [c|]; cbn [mbind option_bind]; [|done].
  unfold seq_build. destruct (build_component data_len c buf) as [[]|]; [apply IH|done..].
Qed.

Lemma build_filter_ok fl f buf :
  filter_wf fl f → zlen buf ≤ data_len → build_filter data_len fl (to_pf f) buf = put_next (filter_octets fl f) buf.
Proof.
  intros (_ & _ & (Hcs & Hl & _) & _) Hb. unfold build_filter, filter_octets, deletes.
  change (?x :: ?y) with ([x] ++ y). cbn [pf_flags precedence content to_pf content_of length_ num_of_component].
  apply seq_put; [done|]. intros buf1 Hb1. case_match; [by rewrite put_next_nil|].
  change (?x :: ?y) with ([x] ++ y). apply seq_put; [done|]. intros buf2 Hb2.
  change (?x :: ?y) with ([x] ++ y). apply seq_put; [done|]. intros buf3 Hb3.
  unfold zlen at 1. rewrite Nat2Z.id.
  rewrite <- (build_components_ok _ (zlen (content_octets (f_components f)))
    (replicate (OGS_MAX_NUM_OF_PACKET_FILTER_COMPONENT - length (f_components f)) component_zero) []) by done.
  symmetry. apply (build_components_num _ _ (content_of (f_components f))).
Qed.

Lemma build_filters_ok fl fs post : ∀ pre buf,
  Forall (filter_wf fl) fs → zlen buf ≤ data_len →
  build_filters data_len (length fs) (length pre) (Tft fl (pre ++ (to_pf <$> fs) ++ post)) buf =
  put_next (concat (filter_octets fl <$> fs)) buf.
Proof.
  induction fs as [|f fs IH]; intros pre buf Hfs Hb; cbn [length build_filters]; [by rewrite put_next_nil|].
  apply Forall_cons in Hfs as [Hf Hfs]. cbn [pf fmap list_fmap concat tft_flags app].
  rewrite list_lookup_middle by done. cbn [mbind option_bind].
  rewrite build_filter_ok by done. apply seq_put; [done|]. intros buf' Hb'.
  rewrite <- (IH (pre ++ [to_pf f])) by done. rewrite length_app, Nat.add_1_r. by rewrite <- app_assoc.
Qed.

Lemma build_tft_ok len fl fs :
  tft_wf fl fs → 255 ≤ data_len →
  ogs_gtp2_build_tft data_len len (to_tft fl fs) =
  if zlen (tft_octets fl fs) <=? data_len
  then Some (zlen (tft_octets fl fs), zlen (tft_octets fl fs), tft_octets fl fs) else None.
Proof.
  intros (Hfl & H0 & H6 & H2 & Hn & Hl & Hfs) Hd. unfold ogs_gtp2_build_tft. cbn [tft_flags to_tft].
  unfold OGS_GTP2_MAX_TRAFFIC_FLOW_TEMPLATE. replace (data_len <? 255) with false by (symmetry; lia).
  rewrite (proj2 (Z.eqb_neq _ _) H0), (proj2 (Z.eqb_neq _ _) H6), (proj2 (Z.eqb_neq _ _) H2). cbn [orb].
  rewrite (put_ok data_len [fl] []) by (unfold zlen; cbn; lia). cbn [mbind option_bind].
  rewrite Hn. unfold to_tft, tft_octets.
  pose proof (build_filters_ok fl fs (replicate (OGS_MAX_NUM_OF_FLOW_IN_GTP - length fs) pf_zero) [] [fl] Hfs) as Hbuild.
  cbn [length app] in Hbuild |- *. rewrite Hbuild by (unfold zlen; cbn; lia). clear Hbuild.
  set (bs := concat _). rewrite put_next_eq by (unfold zlen; cbn; lia).
  assert (E : zlen (fl :: bs) = zlen [fl] + zlen bs) by apply (zlen_app [fl]).
  rewrite <- E. destruct (Z.leb_spec (zlen (fl :: bs)) data_len); [|done]. pose proof (zlen_nonneg (fl :: bs)).
  cbn [app]. by rewrite s16_small, u16_small by lia.
Qed.
End build.

(** ** Parsing what was built *)

Lemma insert_middle {A} (pre : list A) x y post : <[length pre := y]> (pre ++ x :: post) = pre ++ y :: post.
Proof. by rewrite insert_app_r_alt, Nat.sub_diag by lia. Qed.

Lemma upd_pf_at fl pre p post g s :
  upd_pf (length pre) g (Tft fl (pre ++ p :: post)) s = Go tt (Tft fl (pre ++ g p :: post)) s.
Proof. unfold upd_pf. cbn [pf tft_flags]. by rewrite list_lookup_middle, insert_middle by done. Qed.
Lemma upd_component_at fl pre a b n cs c ds num post g s :
  upd_component (length pre) (length cs) g
    (Tft fl (pre ++ PacketFilter a b (Content n (cs ++ c :: ds) num) :: post)) s =
  Go tt (Tft fl (pre ++ PacketFilter a b (Content n (cs ++ g c :: ds) num) :: post)) s.
Proof.
  unfold upd_component, upd_content. cbn [pf].
  rewrite list_lookup_middle by done. cbn [content components]. rewrite list_lookup_middle by done.
  rewrite upd_pf_at. cbn [pf_flags precedence content length_ components num_of_component]. by rewrite insert_middle.
Qed.

Lemma layout_fits t l : layout t = Some l → Forall (λ x, x.1.1 + x.1.2 ≤ 32)%nat l.
Proof.
  unfold layout. intros H. repeat case_match; simplify_eq; repeat constructor; cbn; lia.
Qed.
Lemma get_member_length m c : (m.1 + m.2 ≤ length (union_ c))%nat → length (get_member m c) = m.2.
Proof. intros H. unfold get_member. rewrite length_take, length_drop. lia. Qed.
Lemma swap_if_length sw bs : length (swap_if sw bs) = length bs.
Proof. destruct sw; [apply length_rev|done]. Qed.
Lemma swap_if_twice sw bs : swap_if sw (swap_if sw bs) = bs.
Proof. destruct sw; [apply rev_involutive|done]. Qed.

Section parse.
Variable octet : list Z.
Implicit Types (Q : unit → tft → Z → Prop).

(** The switch of [parse_component] follows the layout. *)
Definition parse1 (i j : nat) (size : Z) (x : member * bool) : P tft unit :=
  bs ← field octet (λ _, size) (Z.of_nat x.1.2); upd_component i j (set_member x.1 (swap_if x.2 bs)).
Fixpoint parse_list (i j : nat) (size : Z) (l : list (member * bool)) : P tft unit :=
  match l with [] => mret tt | [x] => parse1 i j size x | x :: l => parse1 i j size x;; parse_list i j size l end.
Definition parse_layout (i j : nat) (size t : Z) : P tft unit :=
  match layout t with Some l => parse_list i j size l | None => p_return (-1) end.

Lemma parse_component_pwp i j size Q R t s :
  pwp (bs ← field octet (λ _, size) 1;
       upd_component i j (set_ctype (le_value bs));; parse_layout i j size (le_value bs)) Q R t s →
  pwp (parse_component octet i j size) Q R t s.
Proof.
  unfold pwp, parse_component, mbind, P_bind. destruct (field octet _ 1 t s) as [bs t' s'|rv t'|]; [|done..].
  destruct (upd_component i j _ t' s') as [[] t'' s''|rv t''|]; [|done..]. cbn zeta.
  unfold parse_layout, layout. repeat match goal with |- context [if ?b then _ else _] => destruct b; [done|] end. done.
Qed.

(** A filter with one component under construction. *)
Definition at_component fl pre a b n cs c ds post : tft :=
  Tft fl (pre ++ PacketFilter a b (Content n (cs ++ c :: ds) 0) :: post).

Lemma parse_list_at fl pre a b n cs c ds post size l : ∀ d s rest Q R,
  Forall (λ x, length (get_member x.1 c) = x.1.2) l → at_rest octet s (members_octets l c ++ rest) →
  (at_rest octet (s + zlen (members_octets l c)) rest →
   Q tt (at_component fl pre a b n cs (set_members l c d) ds post) (s + zlen (members_octets l c))) →
  pwp (parse_list (length pre) (length cs) size l) Q R (at_component fl pre a b n cs d ds post) s.
Proof.
  assert (H1 : ∀ x d s rest Q R, length (get_member x.1 c) = x.1.2 →
    at_rest octet s (swap_if x.2 (get_member x.1 c) ++ rest) →
    (at_rest octet (s + zlen (get_member x.1 c)) rest →
     Q tt (at_component fl pre a b n cs (set_member x.1 (get_member x.1 c) d) ds post) (s + zlen (get_member x.1 c))) →
    pwp (parse1 (length pre) (length cs) size x) Q R (at_component fl pre a b n cs d ds post) s).
  { intros x d s rest Q R Hlen Hat HQ. unfold parse1. apply pwp_bind.
    assert (Hz : zlen (swap_if x.2 (get_member x.1 c)) = zlen (get_member x.1 c)) by (unfold zlen; by rewrite swap_if_length).
    eapply pwp_field_at; [done|rewrite Hz; unfold zlen; by rewrite Hlen|]. intros Hat'.
    replace (Z.of_nat x.1.2) with (zlen (get_member x.1 c)) in * by (unfold zlen; by rewrite Hlen).
    unfold pwp, at_component. rewrite upd_component_at, swap_if_twice. by apply HQ. }
  induction l as [|x l IH]; intros d s rest Q R Hl Hat HQ.
  - unfold members_octets in *. cbn in *. change (zlen []) with 0 in *. rewrite Z.add_0_r in HQ. by apply HQ.
  - apply Forall_cons in Hl as [Hx Hl]. unfold members_octets in *. cbn [fmap list_fmap concat] in *.
    assert (Hz : zlen (swap_if x.2 (get_member x.1 c)) = zlen (get_member x.1 c)) by (unfold zlen; by rewrite swap_if_length).
    rewrite zlen_app, Hz in HQ. rewrite <- app_assoc in Hat.
    destruct l as [|y l]; [|cbn [parse_list]; apply pwp_bind]; (eapply H1; [done|exact Hat|intros Hat']).
    + cbn in *. change (zlen []) with 0 in *. rewrite Z.add_0_r in HQ. by apply HQ.
    + eapply IH; [done|exact Hat'|]. rewrite <- Z.add_assoc. apply HQ.
Qed.

Lemma parse_component_at fl pre a b n cs c ds post size s rest Q R :
  component_wf c → at_rest octet s (component_octets c ++ rest) →
  (at_rest octet (s + zlen (component_octets c)) rest →
   Q tt (at_component fl pre a b n cs c ds post) (s + zlen (component_octets c))) →
  pwp (parse_component octet (length pre) (length cs) size) Q R (at_component fl pre a b n cs component_zero ds post) s.
Proof.
  intros [[l Hl] Ht Hsize Hzero] Hat HQ. apply parse_component_pwp, pwp_bind.
  unfold component_octets, layout_of in *. rewrite Hl in *. cbn [default id] in *.
  eapply (pwp_field_at octet _ s [ctype c]); [exact Hat|done|]. intros Hat'.
  assert (Hv : le_value [ctype c] = ctype c) by (cbn; lia). rewrite Hv.
  apply pwp_bind. unfold pwp at 1, at_component. rewrite upd_component_at.
  unfold parse_layout. rewrite Hl. rewrite zlen_cons, Z.add_assoc in HQ.
  eapply parse_list_at; [|exact Hat'|].
  - eapply Forall_impl; [by eapply layout_fits|]. intros x Hx. apply get_member_length. by rewrite Hsize.
  - change (zlen [ctype c]) with 1 in *. rewrite Hzero. exact HQ.
Qed.

Lemma component_octets_pos c : 0 < zlen (component_octets c).
Proof. unfold component_octets. rewrite zlen_cons. pose proof (zlen_nonneg (members_octets (layout_of c) c)). lia. Qed.

Lemma parse_components_at fl pre a b n post size len cs : ∀ room done_ s rest (Q : nat → tft → Z → Prop) R,
  Forall component_wf cs → (length cs ≤ room)%nat → at_rest octet s (content_octets cs ++ rest) →
  s - size + zlen (content_octets cs) = len →
  (at_rest octet (s + zlen (content_octets cs)) rest →
   Q (length done_ + length cs)%nat
     (Tft fl (pre ++ PacketFilter a b
       (Content n (done_ ++ cs ++ replicate (room - length cs) component_zero) 0) :: post))
     (s + zlen (content_octets cs))) →
  pwp (parse_components octet room (length pre) (length done_) size len) Q R
    (Tft fl (pre ++ PacketFilter a b (Content n (done_ ++ replicate room component_zero) 0) :: post)) s.
Proof.
  induction cs as [|c cs IH]; intros room done_ s rest Q R Hcs Hroom Hat Hlen HQ.
  - destruct room; cbn [parse_components]; apply pwp_bind; unfold pwp at 1, get_size;
      unfold content_octets in *; cbn in *; change (zlen []) with 0 in *;
      replace (s - size <? len) with false by (symmetry; lia); unfold pwp, mret, P_ret;
      rewrite Z.add_0_r, Nat.add_0_r in HQ; by apply HQ.
  - apply Forall_cons in Hcs as [Hc Hcs]. destruct room as [|room]; [cbn in Hroom; lia|].
    cbn [length] in *. cbn [parse_components]. apply pwp_bind. unfold pwp at 1, get_size.
    unfold content_octets in *. cbn [fmap list_fmap concat] in *. fold (content_octets cs) in *.
    change (list_fmap _ _ component_octets cs) with (component_octets <$> cs) in *. fold (content_octets cs) in *.
    rewrite zlen_app in *. pose proof (component_octets_pos c). pose proof (zlen_nonneg (content_octets cs)).
    replace (s - size <? len) with true by (symmetry; lia). apply pwp_bind.
    rewrite <- app_assoc in Hat. cbn [replicate].
    eapply (parse_component_at fl pre a b n done_ c (replicate room component_zero) post); [done|exact Hat|].
    intros Hat'. unfold at_component.
    specialize (IH room (done_ ++ [c]) (s + zlen (component_octets c)) rest Q R Hcs).
    rewrite length_app, Nat.add_1_r, <- !app_assoc in IH. cbn [app] in IH. apply IH; [lia|exact Hat'|lia|].
    intros Hat''. rewrite Z.add_assoc in HQ.
    replace (S (length done_) + length cs)%nat with (length done_ + S (length cs))%nat by lia.
    by apply HQ.
Qed.

Lemma byte_value b : le_value [b] = b.
Proof. cbn. lia. Qed.

(** A byte of the element. *)
Lemma pwp_byte_at {F} e b rest (Q : list Z → F → Z → Prop) R f s :
  at_rest octet s (b :: rest) → (at_rest octet (s + 1) rest → Q [b] f (s + 1)) → pwp (field octet e 1) Q R f s.
Proof. intros Hat HQ. eapply (pwp_field_at octet e s [b] rest); [exact Hat|done|exact HQ]. Qed.

Lemma parse_filter_at fl pre f post s rest (Q : unit → tft → Z → Prop) R :
  filter_wf fl f → at_rest octet s (filter_octets fl f ++ rest) →
  (at_rest octet (s + zlen (filter_octets fl f)) rest →
   Q tt (Tft fl (pre ++ to_pf f :: post)) (s + zlen (filter_octets fl f))) →
  pwp (parse_filter octet fl (length pre)) Q R (Tft fl (pre ++ pf_zero :: post)) s.
Proof.
  destruct f as [ff fp cs]. unfold filter_octets, filter_wf, to_pf. cbn [f_flags f_precedence f_components].
  intros (Hff & Hfp & (Hcs & Hlen & H256) & Hdel) Hat HQ. unfold parse_filter. apply pwp_bind.
  cbn [app] in Hat. eapply pwp_byte_at; [exact Hat|]. clear Hat. intros Hat. rewrite byte_value.
  apply pwp_bind. unfold pwp at 1. rewrite upd_pf_at. rewrite zlen_cons, Z.add_assoc in HQ.
  unfold deletes in *. destruct (code fl =? _) eqn:Ecode.
  { destruct Hdel as [-> ->]; [done|]. unfold pwp, mret, P_ret. change (zlen []) with 0 in HQ. rewrite Z.add_0_r in HQ.
    by apply HQ. }
  apply pwp_bind. cbn [app] in Hat. eapply pwp_byte_at; [exact Hat|]. clear Hat. intros Hat. rewrite byte_value.
  apply pwp_bind. unfold pwp at 1. rewrite upd_pf_at. rewrite zlen_cons, Z.add_assoc in HQ.
  apply pwp_bind. cbn [app] in Hat. eapply pwp_byte_at; [exact Hat|]. clear Hat. intros Hat. rewrite byte_value. cbn zeta.
  apply pwp_bind. unfold pwp at 1, upd_content. rewrite upd_pf_at. rewrite zlen_cons, Z.add_assoc in HQ.
  apply pwp_bind. unfold pwp at 1, check.
  replace (zlen octet <? _) with false by (symmetry; destruct Hat as (_ & Hr & _); rewrite zlen_app in Hr;
    pose proof (zlen_nonneg rest); lia).
  apply pwp_bind. unfold pwp at 1, get_size. apply pwp_bind.
  cbn [pf_zero pf_flags precedence content components num_of_component content_zero].
  eapply (parse_components_at fl pre ff fp _ post _ _ cs _ []); [done|done|exact Hat|lia|]. intros Hat'.
  cbn [app length Nat.add]. unfold pwp, upd_content. rewrite upd_pf_at.
  cbn [pf_flags precedence content length_ components num_of_component].
  rewrite u8_small by (unfold OGS_MAX_NUM_OF_PACKET_FILTER_COMPONENT in Hlen; lia). by apply HQ.
Qed.

Lemma parse_filters_at fl fs : ∀ pre m s rest (Q : unit → tft → Z → Prop) R,
  Forall (filter_wf fl) fs → (length fs ≤ m)%nat → at_rest octet s (concat (filter_octets fl <$> fs) ++ rest) →
  Q tt (Tft fl (pre ++ (to_pf <$> fs) ++ replicate (m - length fs) pf_zero)) (s + zlen (concat (filter_octets fl <$> fs))) →
  pwp (parse_filters octet (length fs) (length pre) fl) Q R (Tft fl (pre ++ replicate m pf_zero)) s.
Proof.
  induction fs as [|f fs IH]; intros pre m s rest Q R Hfs Hm Hat HQ; cbn [length parse_filters].
  - cbn in HQ. rewrite Z.add_0_r, Nat.sub_0_r in HQ. exact HQ.
  - apply Forall_cons in Hfs as [Hf Hfs]. destruct m as [|m]; [cbn in Hm; lia|]. cbn [length] in Hm.
    cbn [fmap list_fmap concat] in *. rewrite <- app_assoc in Hat. rewrite zlen_app, Z.add_assoc in HQ. cbn [replicate].
    apply pwp_bind. eapply parse_filter_at; [done|exact Hat|]. intros Hat'.
    specialize (IH (pre ++ [to_pf f]) m (s + zlen (filter_octets fl f)) rest Q R Hfs).
    rewrite length_app, Nat.add_1_r, <- !app_assoc in IH. apply IH; [lia|exact Hat'|exact HQ].
Qed.
End parse.

Lemma parse_tft_ok fl fs :
  tft_wf fl fs → zlen (tft_octets fl fs) < 2 ^ 15 →
  ogs_gtp2_parse_tft (tft_octets fl fs) = Some (zlen (tft_octets fl fs), to_tft fl fs).
Proof.
  intros (Hfl & H0 & H6 & H2 & Hn & Hl & Hfs) Hsize. apply run_parse_eq. unfold parse_tft. apply pwp_bind.
  set (octet := tft_octets fl fs) in *.
  assert (Hat : at_rest octet 0 (fl :: concat (filter_octets fl <$> fs) ++ [])) by (rewrite app_nil_r; apply at_start).
  eapply pwp_byte_at; [exact Hat|]. clear Hat. intros Hat. rewrite byte_value. cbn zeta.
  apply pwp_bind. unfold pwp at 1, assign. apply pwp_bind. rewrite (proj2 (Z.eqb_neq _ _) H0). unfold pwp at 1, mret, P_ret.
  apply pwp_bind. rewrite (proj2 (Z.eqb_neq _ _) H6), (proj2 (Z.eqb_neq _ _) H2). unfold pwp at 1. cbn [orb].
  apply pwp_bind. rewrite Hn. eapply (parse_filters_at octet fl fs [] _ _ []); [done|exact Hl|exact Hat|].
  apply pwp_bind. unfold pwp at 1, get_size. unfold pwp, mret, P_ret.
  assert (E : 0 + 1 + zlen (concat (filter_octets fl <$> fs)) = zlen octet) by (unfold octet, tft_octets; rewrite zlen_cons; lia).
  rewrite E. rewrite s16_small by (pose proof (zlen_nonneg octet); lia). done.
Qed.

(** ** The filters of a bearer *)

(** What the fields of a rule can hold. *)
Record rule_wf (r : ipfw_rule) : Prop := {
  rw_src : length (src_addr r) = 16%nat; rw_src_mask : length (src_mask r) = 16%nat;
  rw_dst : length (dst_addr r) = 16%nat; rw_dst_mask : length (dst_mask r) = 16%nat }.
Definition direction_ok (d : Z) : Prop :=
  d = OGS_FLOW_DOWNLINK_ONLY ∨ d = OGS_FLOW_UPLINK_ONLY ∨ d = OGS_FLOW_BIDIRECTIONAL.

(** The first [n] steps of filling leave at most [n] components, and zeros. *)
Definition filled (n : nat) (st : filling) : Prop := ∃ cs,
  st = (cs ++ replicate (OGS_MAX_NUM_OF_PACKET_FILTER_COMPONENT - length cs) component_zero, length cs, zlen (content_octets cs)) ∧
  Forall component_wf cs ∧ (length cs ≤ n)%nat ∧ zlen (content_octets cs) ≤ 33 * Z.of_nat n.
Definition fills (f : filling → option filling) : Prop :=
  ∀ n st, (n < OGS_MAX_NUM_OF_PACKET_FILTER_COMPONENT)%nat → filled n st → ∃ st', f st = Some st' ∧ filled (S n) st'.

Lemma content_octets_snoc cs c : content_octets (cs ++ [c]) = content_octets cs ++ component_octets c.
Proof. unfold content_octets. rewrite fmap_app, concat_app. cbn. by rewrite app_nil_r. Qed.

Lemma fills_fill g k :
  component_wf (g component_zero) → zlen (component_octets (g component_zero)) = k → k ≤ 33 → fills (fill g k).
Proof.
  intros Hg Hk H33 n st Hn (cs & -> & Hcs & Hl & Hz). unfold fill.
  destruct (OGS_MAX_NUM_OF_PACKET_FILTER_COMPONENT - length cs)%nat as [|m] eqn:Em; [lia|]. cbn [replicate].
  rewrite list_lookup_middle by done. cbn [mbind option_bind]. rewrite insert_middle.
  eexists; split; [done|]. exists (cs ++ [g component_zero]).
  rewrite content_octets_snoc, zlen_app, length_app, Hk, <- app_assoc. cbn [length app].
  replace (OGS_MAX_NUM_OF_PACKET_FILTER_COMPONENT - (length cs + 1))%nat with m by lia.
  split; [by rewrite Nat.add_1_r|]. split; [by apply Forall_app; auto|]. lia.
Qed.
Lemma filled_S n st : filled n st → filled (S n) st.
Proof. intros (cs & -> & Hcs & Hl & Hz). exists cs. split_and!; [done|done|lia|lia]. Qed.
Lemma fills_when b f : fills f → fills (fill_when b f).
Proof. intros Hf n st Hn Hst. destruct b; [by apply Hf|]. exists st. by eauto using filled_S. Qed.
Lemma fills_switch d down up : direction_ok d → fills down → fills up → fills (by_direction d down up).
Proof. intros [->|[->| ->]] Hd Hu; [exact Hd|exact Hu|exact Hd]. Qed.

(** The 16 bytes of an address. *)
Ltac bytes16 l H := do 16 (destruct l as [|? l]; [discriminate H|]); destruct l; [clear H|discriminate H].

Lemma fills_proto p : fills (fill (λ c,
  set_member proto [p] (set_ctype PROTOCOL_IDENTIFIER_NEXT_HEADER_TYPE c)) 2).
Proof. apply fills_fill; [|done|lia]. split; [by eexists|done|done|reflexivity]. Qed.
Lemma fills_ipv4 type addr mask :
  type = IPV4_REMOTE_ADDRESS_TYPE ∨ type = IPV4_LOCAL_ADDRESS_TYPE → length addr = 16%nat → length mask = 16%nat →
  fills (fill_ipv4 type addr mask).
Proof.
  intros Ht Ha Hm. bytes16 addr Ha. bytes16 mask Hm.
  apply fills_fill; destruct Ht as [->| ->]; [split; [by eexists|done|done|reflexivity]..|done|done|lia|lia].
Qed.
Lemma fills_ipv6 type addr mask :
  type = IPV6_REMOTE_ADDRESS_PREFIX_LENGTH_TYPE ∨ type = IPV6_LOCAL_ADDRESS_PREFIX_LENGTH_TYPE →
  length addr = 16%nat → fills (fill_ipv6 type addr mask).
Proof.
  intros Ht Ha. bytes16 addr Ha. unfold fill_ipv6. generalize (u8 (contigmask mask 128)). intros n.
  apply fills_fill; destruct Ht as [->| ->]; [split; [by eexists|done|done|reflexivity]..|done|done|lia|lia].
Qed.
Lemma fills_ipv6_mask addr mask :
  length addr = 16%nat → length mask = 16%nat → fills (fill_ipv6_mask IPV6_REMOTE_ADDRESS_TYPE addr mask).
Proof.
  intros Ha Hm. bytes16 addr Ha. bytes16 mask Hm.
  apply fills_fill; [split; [by eexists|done|done|reflexivity]|done|lia].
Qed.
Lemma fills_port single range low high :
  single = SINGLE_LOCAL_PORT_TYPE ∨ single = SINGLE_REMOTE_PORT_TYPE →
  range = LOCAL_PORT_RANGE_TYPE ∨ range = REMOTE_PORT_RANGE_TYPE → fills (fill_port single range low high).
Proof.
  intros Hs Hr. unfold fill_port. case_match; apply fills_fill; destruct Hs as [->| ->], Hr as [->| ->];
    try (split; [by eexists|done|done|reflexivity]); try done; lia.
Qed.

Lemma content_from_rule_ok d no_local r :
  rule_wf r → direction_ok d → ∃ cs, ogs_pf_content_from_ipfw_rule d content_zero r no_local = Some (content_of cs) ∧
    components_wf cs.
Proof.
  intros [H1 H2 H3 H4] Hd. unfold ogs_pf_content_from_ipfw_rule.
  assert (H0 : filled 0 (components content_zero, O, 0)).
  { exists []. by split_and!. }
  assert (step : ∀ f (k : filling → option pf_content) n st P, fills f → filled n st → (n < 16)%nat →
    (∀ st', filled (S n) st' → ∃ cs, k st' = Some (content_of cs) ∧ P cs) →
    ∃ cs, (f st ≫= k) = Some (content_of cs) ∧ P cs).
  { intros f k n st P Hf Hst Hn Hk. destruct (Hf n st Hn Hst) as (st' & -> & Hst'). by apply Hk. }
  assert (Hport : ∀ f f', fills f → fills f' → fills (by_direction d f f')) by (intros; by apply fills_switch).
  eapply (step _ _ 0%nat); [|exact H0|lia|].
  { apply fills_when, fills_proto. }
  intros st1 Hst1. eapply (step _ _ 1%nat); [|exact Hst1|lia|].
  { apply fills_when, fills_switch; auto using fills_when, fills_ipv4. }
  intros st2 Hst2. eapply (step _ _ 2%nat); [|exact Hst2|lia|].
  { apply fills_when, fills_switch; auto using fills_when, fills_ipv4. }
  intros st3 Hst3. eapply (step _ _ 3%nat); [|exact Hst3|lia|].
  { apply fills_when, fills_switch; auto using fills_when, fills_ipv6. destruct no_local; auto using fills_ipv6, fills_ipv6_mask. }
  intros st4 Hst4. eapply (step _ _ 4%nat); [|exact Hst4|lia|].
  { apply fills_when, fills_switch; auto using fills_when, fills_ipv6. destruct no_local; auto using fills_ipv6, fills_ipv6_mask. }
  intros st5 Hst5. eapply (step _ _ 5%nat); [|exact Hst5|lia|].
  { apply fills_when, fills_switch; auto using fills_port. }
  intros st6 Hst6. eapply (step _ _ 6%nat); [|exact Hst6|lia|].
  { apply fills_when, fills_switch; auto using fills_port. }
  intros st7 (cs & -> & Hcs & Hl & Hz). exists cs. cbn beta iota.
  assert (Hlen : (length cs ≤ OGS_MAX_NUM_OF_PACKET_FILTER_COMPONENT)%nat) by (unfold OGS_MAX_NUM_OF_PACKET_FILTER_COMPONENT; lia).
  rewrite !u8_small by (pose proof (zlen_nonneg (content_octets cs)); lia). split; [done|]. split_and!; [done|done|lia].
Qed.

(** The filter that is made of a packet filter of the bearer. *)
Definition of_pf (op : Z) (no_local : bool) (s : smf_pf) (f : filter) : Prop :=
  if op =? TFT_CODE_DELETE_PACKET_FILTERS_FROM_EXISTING
  then f = Filter (u8 (pf_identifier s - 1) mod 16) 0 []
  else f_flags f = u8 (pf_identifier s - 1) mod 16 + 16 * pf_direction s ∧ f_precedence f = u8 (pf_precedence s - 1) ∧
    ogs_pf_content_from_ipfw_rule (pf_direction s) content_zero (pf_rule s) no_local = Some (content_of (f_components f)).
Definition smf_pf_wf (s : smf_pf) : Prop := rule_wf (pf_rule s) ∧ direction_ok (pf_direction s).

Lemma set_identifier_zero v : set_identifier v 0 = v mod 16.
Proof. unfold set_identifier. rewrite Z.land_0_l, Z.lor_0_l. apply (land_mask v 4). lia. Qed.
Lemma set_direction_low d x : direction_ok d → 0 ≤ x < 16 → set_direction d x = x + 16 * d.
Proof.
  intros Hd Hx. assert (H : Forall (λ x, set_direction d x = x + 16 * d) (seqZ 0 16)).
  { destruct Hd as [->|[->| ->]]; repeat constructor. }
  rewrite Forall_forall in H. apply H, elem_of_seqZ. lia.
Qed.

Lemma components_wf_nil : components_wf [].
Proof. split; [constructor|]. split; [apply Nat.le_0_l|done]. Qed.

Lemma encode_filters_ok op no_local pfs : ∀ pre m,
  Forall smf_pf_wf pfs → (length pfs ≤ m)%nat → (length pre + m = OGS_MAX_NUM_OF_FLOW_IN_GTP)%nat →
  ∃ fs, encode_filters op no_local pfs (length pre) (pre ++ replicate m pf_zero) =
      Some ((length pre + length pfs)%nat, pre ++ (to_pf <$> fs) ++ replicate (m - length pfs) pf_zero) ∧
    Forall2 (of_pf op no_local) pfs fs ∧ ∀ fl, code fl = op → Forall (filter_wf fl) fs.
Proof.
  induction pfs as [|s pfs IH]; intros pre m Hpfs Hm Hpre; cbn [length encode_filters].
  - exists []. rewrite Nat.add_0_r, Nat.sub_0_r. by split_and!.
  - apply Forall_cons in Hpfs as [[Hr Hd] Hpfs]. destruct m as [|m]; [cbn in Hm; lia|]. cbn [length] in Hm.
    replace (length pre <? _)%nat with true by (symmetry; apply Nat.ltb_lt; lia). cbn [negb replicate].
    rewrite list_lookup_middle by done. cbn [mbind option_bind pf_zero pf_flags precedence content].
    rewrite set_identifier_zero.
    assert (Hid : 0 ≤ u8 (pf_identifier s - 1) mod 16 < 16) by (apply Z.mod_pos_bound; lia).
    assert (Hu8 : is_byte (u8 (pf_precedence s - 1))) by (apply Z.mod_pos_bound; lia).
    destruct (content_from_rule_ok (pf_direction s) no_local (pf_rule s) Hr Hd) as (cs & Ecs & Hcs).
    assert (∃ f, (if op =? TFT_CODE_DELETE_PACKET_FILTERS_FROM_EXISTING
        then Some (PacketFilter (u8 (pf_identifier s - 1) mod 16) 0 content_zero)
        else k ← ogs_pf_content_from_ipfw_rule (pf_direction s) content_zero (pf_rule s) no_local;
          Some (PacketFilter (set_direction (pf_direction s) (u8 (pf_identifier s - 1) mod 16)) (u8 (pf_precedence s - 1)) k))
        = Some (to_pf f) ∧ of_pf op no_local s f ∧ ∀ fl, code fl = op → filter_wf fl f) as (f & -> & Hf & Hwf).
    { unfold of_pf, filter_wf, deletes. destruct (op =? _) eqn:Eop.
      - eexists; split; [|split; [reflexivity|]]; [done|]. intros fl <-.
        split; [unfold is_byte; cbn [f_flags]; lia|]. split; [done|]. split; [apply components_wf_nil|done].
      - exists (Filter (u8 (pf_identifier s - 1) mod 16 + 16 * pf_direction s) (u8 (pf_precedence s - 1)) cs).
        rewrite Ecs, set_direction_low by done. split; [done|]. split; [done|]. intros fl <-. rewrite Eop.
        split; [|by split_and!]. unfold is_byte. cbn [f_flags]. destruct Hd as [->|[->| ->]]; unfold OGS_FLOW_DOWNLINK_ONLY, OGS_FLOW_UPLINK_ONLY, OGS_FLOW_BIDIRECTIONAL; lia. }
    cbn [mbind option_bind]. rewrite insert_middle.
    destruct (IH (pre ++ [to_pf f]) m) as (fs & E & Hfs & Hall); [done|lia|rewrite length_app; cbn; lia|].
    rewrite length_app, Nat.add_1_r, <- !app_assoc in E. cbn [app] in E.
    exists (f :: fs). rewrite E. cbn [fmap list_fmap app].
    split; [by rewrite <- Nat.add_succ_comm|]. split; [by constructor|]. intros fl Hfl. constructor; auto.
Qed.

Lemma code_flags op n : 0 ≤ op < 8 → 0 ≤ n < 16 →
  let fl := Z.lor (Z.shiftl (Z.land op 7) 5) (Z.land n 15) in is_byte fl ∧ code fl = op ∧ num_of_packet_filter fl = n.
Proof.
  intros Hop Hn fl. change 7 with (2 ^ 3 - 1) in fl. change 15 with (2 ^ 4 - 1) in fl.
  assert (E : fl = op * 32 + n).
  { unfold fl. rewrite !land_mask, !Z.mod_small, Z.shiftl_mul_pow2, lor_disjoint by lia. lia. }
  unfold code, num_of_packet_filter, is_byte. rewrite E, Z.shiftr_div_pow2 by lia. change 15 with (2 ^ 4 - 1).
  rewrite land_mask by lia. split_and!; [lia|lia| |]; Z.div_mod_to_equations; lia.
Qed.

Lemma filter_octets_size fl f : filter_wf fl f → zlen (filter_octets fl f) ≤ 258.
Proof.
  intros (_ & _ & (_ & _ & H) & _). unfold filter_octets. rewrite zlen_cons. case_match; [done|]. rewrite !zlen_cons. lia.
Qed.
Lemma tft_octets_size fl fs : tft_wf fl fs → zlen (tft_octets fl fs) < 2 ^ 15.
Proof.
  intros (_ & _ & _ & _ & _ & Hl & Hfs). unfold tft_octets. rewrite zlen_cons.
  assert (H : zlen (concat (filter_octets fl <$> fs)) ≤ 258 * zlen fs).
  { clear Hl. induction Hfs as [|f fs Hf Hfs IH]; cbn [fmap list_fmap concat]; [done|].
    rewrite zlen_app, zlen_cons. apply filter_octets_size in Hf.
    change (list_fmap _ _ (filter_octets fl) fs) with (filter_octets fl <$> fs). lia. }
  unfold zlen in *. unfold OGS_MAX_NUM_OF_FLOW_IN_GTP in Hl. lia.
Qed.

(** C38: The template of a bearer: for any operation that carries filters and
    up to 15 packet filters with well-formed rules, [encode_traffic_flow_template]
    makes a template with one filter for each; building it into a buffer of
    255 bytes, as the SMF does, writes its octets when they fit, and fails an
    assertion when they do not; and the receiver's parse of the octets yields
    the same template. *)
Theorem bearer_template_roundtrip op no_local pfs len :
  0 ≤ op < 8 → op ≠ TFT_CODE_IGNORE_THIS_IE → op ≠ TFT_CODE_NO_TFT_OPERATION → op ≠ TFT_CODE_DELETE_EXISTING_TFT →
  (length pfs ≤ OGS_MAX_NUM_OF_FLOW_IN_GTP)%nat → Forall smf_pf_wf pfs →
  ∃ fl fs, encode_traffic_flow_template op no_local pfs = Some (to_tft fl fs) ∧
    code fl = op ∧ num_of_packet_filter fl = zlen pfs ∧ Forall2 (of_pf op no_local) pfs fs ∧
    let octets := tft_octets fl fs in
    ogs_gtp2_build_tft OGS_GTP2_MAX_TRAFFIC_FLOW_TEMPLATE len (to_tft fl fs) =
      (if zlen octets <=? OGS_GTP2_MAX_TRAFFIC_FLOW_TEMPLATE then Some (zlen octets, zlen octets, octets) else None) ∧
    ogs_gtp2_parse_tft octets = Some (zlen octets, to_tft fl fs).
Proof.
  intros Hop H0 H6 H2 Hl Hpfs.
  destruct (encode_filters_ok op no_local pfs [] OGS_MAX_NUM_OF_FLOW_IN_GTP) as (fs & E & Hf & Hall); [done..|].
  pose proof (Forall2_length _ _ _ Hf) as Hlen.
  destruct (code_flags op (zlen pfs)) as (Hb & Hc & Hn); [done|unfold zlen, OGS_MAX_NUM_OF_FLOW_IN_GTP in *; lia|].
  set (fl := Z.lor _ _) in *.
  assert (Hwf : tft_wf fl fs).
  { unfold tft_wf. rewrite Hc. split_and!; [exact Hb|done..| |lia|by apply Hall]. unfold num_turns. rewrite Hn. unfold zlen. lia. }
  exists fl, fs. split.
  { unfold encode_traffic_flow_template. rewrite (proj2 (Z.eqb_neq _ _) H6), (proj2 (Z.eqb_neq _ _) H2). cbn [orb].
    cbn [length app Nat.add] in E. change (pf tft_zero) with (replicate OGS_MAX_NUM_OF_FLOW_IN_GTP pf_zero).
    rewrite E. cbn [mbind option_bind]. unfold to_tft. by rewrite <- Hlen. }
  split; [done|]. split; [done|]. split; [done|]. split.
  - by apply build_tft_ok.
  - apply parse_tft_ok; [done|]. by apply tft_octets_size.
Qed.

(** A rule for one UDP flow, from a range of ports of an address to a port of
    another one. *)
Definition demo_addr (a b c d : Z) : list Z := [a; b; c; d] ++ replicate 12 0.
Definition demo_rule : ipfw_rule :=
  IpfwRule 17 true true false false (demo_addr 10 45 0 1) (demo_addr 255 255 255 255)
    (demo_addr 10 45 0 2) (demo_addr 255 255 255 255) 4000 4001 5060 5061.
Definition demo_pf (i : Z) : smf_pf := SmfPf i OGS_FLOW_DOWNLINK_ONLY i demo_rule.
Lemma demo_pf_wf i : smf_pf_wf (demo_pf i).
Proof. split; [by split|by left]. Qed.

Lemma bearer_template_roundtrip_witness :
  ∃ fl fs, encode_traffic_flow_template 1 false [demo_pf 1; demo_pf 2] = Some (to_tft fl fs) ∧
    ogs_gtp2_parse_tft (tft_octets fl fs) = Some (zlen (tft_octets fl fs), to_tft fl fs).
Proof.
  destruct (bearer_template_roundtrip 1 false [demo_pf 1; demo_pf 2] 0) as (fl & fs & H1 & _ & _ & _ & _ & H2);
    [lia|done|done|done|unfold OGS_MAX_NUM_OF_FLOW_IN_GTP; cbn; lia|repeat (constructor; [apply demo_pf_wf|]); constructor|].
  exists fl, fs. split; [exact H1|exact H2].
Defined.

(** Eight such flows, which a policy rule can have, do not fit. *)
Lemma eight_filters_abort :
  ∃ t, encode_traffic_flow_template 1 false (demo_pf <$> seqZ 1 8) = Some t ∧
    ogs_gtp2_build_tft OGS_GTP2_MAX_TRAFFIC_FLOW_TEMPLATE 0 t = None.
Proof. eexists. split; [vm_compute; reflexivity|vm_compute; reflexivity]. Qed.

(** ** Any octets *)

(** The sizes of the arrays. *)
Definition filter_shape (p : packet_filter) : Prop :=
  length (components (content p)) = OGS_MAX_NUM_OF_PACKET_FILTER_COMPONENT ∧
  0 ≤ num_of_component (content p) ≤ Z.of_nat OGS_MAX_NUM_OF_PACKET_FILTER_COMPONENT.
Definition tft_shape (t : tft) : Prop := length (pf t) = OGS_MAX_NUM_OF_FLOW_IN_GTP ∧ Forall filter_shape (pf t).

Section any.
Variable octet : list Z.
Hypothesis octet_bytes : bytes octet.
Hypothesis octet_small : zlen octet < 2 ^ 15.

(** Within the element, at [low] or later; and what is returned early. *)
Definition inside (low : Z) (t : tft) (s : Z) : Prop := tft_shape t ∧ 0 ≤ s ∧ low ≤ s ≤ zlen octet.
Definition returned (rv : Z) (t : tft) : Prop := tft_shape t ∧ -1 ≤ rv ≤ zlen octet.

Lemma pwp_upd_pf_any i g low t s :
  (i < OGS_MAX_NUM_OF_FLOW_IN_GTP)%nat → (∀ p, filter_shape p → filter_shape (g p)) → inside low t s →
  pwp (upd_pf i g) (λ _, inside low) returned t s.
Proof.
  intros Hi Hg [[Hlen Hall] Hs]. unfold pwp, upd_pf. destruct (pf t !! i) as [p|] eqn:Hp.
  - split; [|done]. split; cbn [pf]; [by rewrite length_insert|]. apply Forall_insert; [done|].
    apply Hg. by eapply Forall_lookup_1.
  - apply lookup_ge_None in Hp. lia.
Qed.
Lemma pwp_upd_component_any i j g low t s :
  (i < OGS_MAX_NUM_OF_FLOW_IN_GTP)%nat → (j < OGS_MAX_NUM_OF_PACKET_FILTER_COMPONENT)%nat → inside low t s →
  pwp (upd_component i j g) (λ _, inside low) returned t s.
Proof.
  intros Hi Hj Hin. pose proof Hin as [[Hlen Hall] Hs]. unfold pwp, upd_component.
  destruct (pf t !! i) as [p|] eqn:Hp; [|apply lookup_ge_None in Hp; lia].
  assert (Hfp : filter_shape p) by (by eapply Forall_lookup_1). destruct Hfp as [Hc Hn].
  destruct (components (content p) !! j) as [c|] eqn:Hcj; [|apply lookup_ge_None in Hcj; lia].
  assert (Hpwp := pwp_upd_pf_any i (λ q, PacketFilter (pf_flags q) (precedence q)
    (Content (length_ (content q)) (<[j:=g c]> (components (content q))) (num_of_component (content q)))) low t s Hi).
  apply Hpwp; [|by split]. intros q [Hq Hq']. split; cbn [content components num_of_component]; [by rewrite length_insert|done].
Qed.

Lemma parse1_any i j size x low t s :
  (i < OGS_MAX_NUM_OF_FLOW_IN_GTP)%nat → (j < OGS_MAX_NUM_OF_PACKET_FILTER_COMPONENT)%nat →
  0 ≤ size ≤ zlen octet → inside low t s → pwp (parse1 octet i j size x) (λ _, inside low) returned t s.
Proof.
  intros Hi Hj Hsize Hin. pose proof Hin as [Hsh Hs]. unfold parse1.
  apply pwp_bind, pwp_field; [done|lia|lia|split; [done|lia]|].
  intros bs _ _ Hle. apply pwp_upd_component_any; [done..|]. split; [done|lia].
Qed.
Lemma parse_list_any i j size low l : ∀ t s,
  (i < OGS_MAX_NUM_OF_FLOW_IN_GTP)%nat → (j < OGS_MAX_NUM_OF_PACKET_FILTER_COMPONENT)%nat →
  0 ≤ size ≤ zlen octet → inside low t s → pwp (parse_list octet i j size l) (λ _, inside low) returned t s.
Proof.
  induction l as [|x l IH]; intros t s Hi Hj Hsize Hin; [exact Hin|].
  destruct l as [|y l]; [by apply parse1_any|]. cbn [parse_list]. apply pwp_bind.
  eapply pwp_mono; [by apply parse1_any|]. intros [] t' s' Hin'. by apply IH.
Qed.
Lemma parse_component_any i j size low t s :
  (i < OGS_MAX_NUM_OF_FLOW_IN_GTP)%nat → (j < OGS_MAX_NUM_OF_PACKET_FILTER_COMPONENT)%nat →
  0 ≤ size ≤ zlen octet → inside low t s → pwp (parse_component octet i j size) (λ _, inside low) returned t s.
Proof.
  intros Hi Hj Hsize [Hsh Hs]. apply parse_component_pwp.
  apply pwp_bind, pwp_field; [done|lia|lia|split; [done|lia]|].
  intros bs _ _ Hle. apply pwp_bind. eapply pwp_mono; [by apply (pwp_upd_component_any i j _ low); [..|split; [|lia]]|].
  intros [] t' s' [Hsh' Hs']. unfold parse_layout. destruct (layout _) as [l|]; [by apply parse_list_any|].
  split; [done|lia].
Qed.
Lemma parse_components_any i size len room : ∀ j t s,
  (i < OGS_MAX_NUM_OF_FLOW_IN_GTP)%nat → (j + room = OGS_MAX_NUM_OF_PACKET_FILTER_COMPONENT)%nat →
  0 ≤ size ≤ zlen octet → inside size t s →
  pwp (parse_components octet room i j size len)
    (λ j t s, inside size t s ∧ (j ≤ OGS_MAX_NUM_OF_PACKET_FILTER_COMPONENT)%nat) returned t s.
Proof.
  induction room as [|room IH]; intros j t s Hi Hj Hsize Hin; cbn [parse_components];
    apply pwp_bind; unfold pwp at 1, get_size; case_match.
  - destruct Hin. split; [done|lia].
  - split; [done|lia].
  - apply pwp_bind. eapply pwp_mono; [by apply (parse_component_any _ _ _ size); [..|lia| |]|].
    intros [] t' s' Hin'. apply IH; [done|lia|done..].
  - split; [done|lia].
Qed.

Lemma parse_filter_any fl i t s :
  (i < OGS_MAX_NUM_OF_FLOW_IN_GTP)%nat → inside 0 t s → pwp (parse_filter octet fl i) (λ _, inside 0) returned t s.
Proof.
  intros Hi [Hsh Hs]. unfold parse_filter.
  apply pwp_bind, pwp_field; [done|lia|lia|split; [done|unfold return_size; lia]|]. intros bs _ _ Hle.
  apply pwp_bind. eapply pwp_mono; [by apply (pwp_upd_pf_any i _ 0); [done|intros p Hp; exact Hp|split; [done|lia]]|].
  clear t Hsh. intros [] t s' [Hsh Hs']. case_match; [by split|].
  apply pwp_bind, pwp_field; [done|lia|lia|split; [done|unfold return_size; lia]|]. clear bs Hle. intros bs _ _ Hle.
  apply pwp_bind. eapply pwp_mono; [by apply (pwp_upd_pf_any i _ 0); [done|intros p Hp; exact Hp|split; [done|lia]]|].
  clear t Hsh. intros [] t s'' [Hsh Hs''].
  apply pwp_bind, pwp_field; [done|lia|lia|split; [done|unfold return_size; lia]|]. clear bs Hle. intros bs _ _ Hle. cbn zeta.
  apply pwp_bind. eapply pwp_mono; [by apply (pwp_upd_pf_any i _ 0); [done|intros p Hp; exact Hp|split; [done|lia]]|].
  clear t Hsh. intros [] t s3 [Hsh Hs3]. apply pwp_bind. unfold pwp at 1, check.
  destruct (Z.ltb_spec (zlen octet) (s3 + le_value bs)); [split; [done|unfold return_size; lia]|].
  apply pwp_bind. unfold pwp at 1, get_size. apply pwp_bind.
  eapply pwp_mono; [by apply parse_components_any; [done|done|lia|split; [done|lia]]|].
  cbn beta. clear t Hsh. intros j t s4 [[Hsh Hs4] Hj].
  apply pwp_upd_pf_any; [done| |split; [done|lia]].
  intros p [Hp Hp']. split; [done|]. cbn [content num_of_component].
  unfold OGS_MAX_NUM_OF_PACKET_FILTER_COMPONENT in *. rewrite u8_small; lia.
Qed.
Lemma parse_filters_any fl n : ∀ i t s,
  (i + n ≤ OGS_MAX_NUM_OF_FLOW_IN_GTP)%nat → inside 0 t s → pwp (parse_filters octet n i fl) (λ _, inside 0) returned t s.
Proof.
  induction n as [|n IH]; intros i t s Hi Hin; cbn [parse_filters]; [exact Hin|]. apply pwp_bind.
  eapply pwp_mono; [by apply parse_filter_any; [lia|]|]. intros [] t' s' Hin'. apply IH; [lia|done].
Qed.

Lemma parse_tft_any : ∃ rv t, ogs_gtp2_parse_tft octet = Some (rv, t) ∧ tft_shape t ∧ -1 ≤ rv ≤ zlen octet.
Proof.
  pose proof (zlen_nonneg octet) as Hz. apply (pwp_run (parse_tft octet) returned). unfold parse_tft.
  assert (H0 : tft_shape tft_zero) by (split; [done|by repeat constructor]).
  apply pwp_bind, pwp_field; [done|lia|lia|split; [done|unfold return_size; lia]|]. intros bs _ _ Hle. cbn zeta.
  apply pwp_bind. unfold pwp at 1, assign. apply pwp_bind. case_match.
  { apply pwp_bind. unfold pwp at 1, get_size. split; [done|lia]. }
  unfold pwp at 1, mret, P_ret. apply pwp_bind. case_match.
  { apply pwp_bind. unfold pwp at 1, get_size. split; [done|lia]. }
  unfold pwp at 1, mret, P_ret. apply pwp_bind.
  eapply pwp_mono; [apply parse_filters_any; [unfold num_turns; lia|split; [done|lia]]|].
  intros [] t s [Hsh Hs]. apply pwp_bind. unfold pwp at 1, get_size. unfold pwp, mret, P_ret.
  rewrite s16_small by lia. split; [done|lia].
Qed.
End any.

(** A component may pass the end of the contents of its filter: the length of
    the contents bounds where a component begins, the length of the element
    where it ends. *)
Lemma component_crosses_content :
  ∃ t, ogs_gtp2_parse_tft [0x21; 0x10; 0; 1; 48; 17] = Some (6, t) ∧
    (p ← pf t !! 0%nat; Some (length_ (content p), num_of_component (content p))) = Some (1, 1).
Proof. eexists. split; [vm_compute; reflexivity|reflexivity]. Qed.
