(* ===== verification/Gtp2Ies.v ===== *)
(** * GTPv2 information elements: qualities of service, locations, nodes

    The other builds and parses of lib/gtp/v2/types.c: bearer and flow quality
    of service, user location information and node identifiers. *)
From S2P Require Import Prelude XactBase Octets.
#[local] Open Scope Z_scope.
#[local] Open Scope c_scope.

(** ** Quality of service *)

Definition GTP2_BEARER_QOS_LEN : Z := 22.
Definition GTP2_FLOW_QOS_LEN : Z := 21.

Record rates := Rates { ul_mbr : Z; dl_mbr : Z; ul_gbr : Z; dl_gbr : Z }.
Record bearer_qos := BearerQos {
  spare1 : Z; pre_emption_capability : Z; priority_level : Z; spare2 : Z; pre_emption_vulnerability : Z;
  qci : Z; qos_rates : rates }.
Record flow_qos := FlowQos { flow_qci : Z; flow_rates : rates }.

(** The first octet of a bearer's quality of service. *)
Definition pack_arp (q : bearer_qos) : Z :=
  (spare1 q << 7) .| (pre_emption_capability q << 6) .| (priority_level q << 2) .| (spare2 q << 1) .|
  pre_emption_vulnerability q.

(** The four rates are parsed and assigned in this order, and built from
    [rate / 1000]. *)
Section rates.
Context {F : Type}.
Variable octet : list Z.
Variable set_rates : (rates → rates) → F → F.
Definition parse_rates : P F unit :=
  v ← parse_rate octet; assign (set_rates (λ r, Rates v (dl_mbr r) (ul_gbr r) (dl_gbr r)));;
  v ← parse_rate octet; assign (set_rates (λ r, Rates (ul_mbr r) v (ul_gbr r) (dl_gbr r)));;
  v ← parse_rate octet; assign (set_rates (λ r, Rates (ul_mbr r) (dl_mbr r) v (dl_gbr r)));;
  v ← parse_rate octet; assign (set_rates (λ r, Rates (ul_mbr r) (dl_mbr r) (ul_gbr r) v)).
End rates.
Definition build_rates (r : rates) : list Z :=
  ogs_uint64_to_buffer (ul_mbr r / 1000) 5 ++ ogs_uint64_to_buffer (dl_mbr r / 1000) 5 ++
  ogs_uint64_to_buffer (ul_gbr r / 1000) 5 ++ ogs_uint64_to_buffer (dl_gbr r / 1000) 5.

(** Only the bit fields that carry something are copied from the octet. *)
Definition parse_bearer_qos (octet : list Z) : P bearer_qos Z :=
  (if zlen octet =? GTP2_BEARER_QOS_LEN then mret tt else p_return 0);;
  bs ← memcpy octet 1; advance 1;;
  let b := le_value bs in
  assign (λ q, BearerQos (spare1 q) ((b >> 6) .& 1) ((b >> 2) .& 15) (spare2 q) (b .& 1) (qci q) (qos_rates q));;
  bs ← memcpy octet 1; advance 1;;
  assign (λ q, BearerQos (spare1 q) (pre_emption_capability q) (priority_level q) (spare2 q)
    (pre_emption_vulnerability q) (le_value bs) (qos_rates q));;
  parse_rates octet (λ g q, BearerQos (spare1 q) (pre_emption_capability q) (priority_level q) (spare2 q)
    (pre_emption_vulnerability q) (qci q) (g (qos_rates q)));;
  size ← get_size; mret size.
Definition ogs_gtp2_parse_bearer_qos (octet : list Z) : option (Z * bearer_qos) :=
  run_parse (parse_bearer_qos octet) (BearerQos 0 0 0 0 0 0 (Rates 0 0 0 0)).

Definition ogs_gtp2_build_bearer_qos (q : bearer_qos) (data_len : Z) : option (Z * list Z) :=
  if data_len <? GTP2_BEARER_QOS_LEN then None
  else built ([pack_arp q; qci q] ++ build_rates (qos_rates q)).

Definition parse_flow_qos (octet : list Z) : P flow_qos Z :=
  (if zlen octet =? GTP2_FLOW_QOS_LEN then mret tt else p_return 0);;
  bs ← memcpy octet 1; advance 1;;
  assign (λ q, FlowQos (le_value bs) (flow_rates q));;
  parse_rates octet (λ g q, FlowQos (flow_qci q) (g (flow_rates q)));;
  size ← get_size; mret size.
Definition ogs_gtp2_parse_flow_qos (octet : list Z) : option (Z * flow_qos) :=
  run_parse (parse_flow_qos octet) (FlowQos 0 (Rates 0 0 0 0)).

(** Two bytes of the structure are copied, and the second one is overwritten
    by the first rate. *)
Definition write_at (pos : nat) (bs buf : list Z) : list Z := take pos buf ++ bs ++ drop (pos + length bs) buf.
Definition ogs_gtp2_build_flow_qos (q : flow_qos) (data_len : Z) : option (Z * list Z) :=
  if data_len <? GTP2_FLOW_QOS_LEN then None
  else
    let buf := [flow_qci q] ++ take 1 (le_bytes 8 (ul_mbr (flow_rates q))) in
    built (write_at 1 (build_rates (flow_rates q)) buf).

(** ** User location information *)

(** The PLMN id is three octets; the other fields are integers in network
    order: [lac] and [ci], [sac] or [rac]; [tac], [lac] or [enodeb_id];
    [cell_id]. *)
Record area2 := Area2 { plmn2 : list Z; lac2 : Z; code2 : Z }.
Record area1 := Area1 { plmn1 : list Z; code1 : Z }.

Record uli := Uli {
  uli_flags : Z; cgi : area2; sai : area2; rai : area2; tai : area1; e_cgi : area1; lai : area1; enodeb_id : area1 }.
Definition cgi_bit (fl : Z) : bool := Z.testbit fl 0.
Definition sai_bit (fl : Z) : bool := Z.testbit fl 1.
Definition rai_bit (fl : Z) : bool := Z.testbit fl 2.
Definition tai_bit (fl : Z) : bool := Z.testbit fl 3.
Definition e_cgi_bit (fl : Z) : bool := Z.testbit fl 4.
Definition lai_bit (fl : Z) : bool := Z.testbit fl 5.
Definition enodeb_id_bit (fl : Z) : bool := Z.testbit fl 6.

(** [memcpy] of a whole structure, then [be16toh] or [be32toh] of its fields. *)
Definition to_area2 (bs : list Z) : area2 :=
  Area2 (take 3 bs) (bswap 2 (le_value (take 2 (drop 3 bs)))) (bswap 2 (le_value (drop 5 bs))).
Definition to_area1 (n : nat) (bs : list Z) : area1 := Area1 (take 3 bs) (bswap n (le_value (drop 3 bs))).
Definition parse_area2 (octet : list Z) (set : area2 → uli → uli) : P uli unit :=
  bs ← field octet return_0 7; assign (set (to_area2 bs)).
Definition parse_area1 (octet : list Z) (n : nat) (set : area1 → uli → uli) : P uli unit :=
  bs ← field octet return_0 (3 + Z.of_nat n); assign (set (to_area1 n bs)).

Definition parse_uli (octet : list Z) : P uli Z :=
  bs ← field octet return_0 1;
  let fl := le_value bs in
  assign (λ u, Uli fl (cgi u) (sai u) (rai u) (tai u) (e_cgi u) (lai u) (enodeb_id u));;
  p_when (cgi_bit fl) (parse_area2 octet (λ a u,
    Uli (uli_flags u) a (sai u) (rai u) (tai u) (e_cgi u) (lai u) (enodeb_id u)));;
  p_when (sai_bit fl) (parse_area2 octet (λ a u,
    Uli (uli_flags u) (cgi u) a (rai u) (tai u) (e_cgi u) (lai u) (enodeb_id u)));;
  p_when (rai_bit fl) (parse_area2 octet (λ a u,
    Uli (uli_flags u) (cgi u) (sai u) a (tai u) (e_cgi u) (lai u) (enodeb_id u)));;
  p_when (tai_bit fl) (parse_area1 octet 2 (λ a u,
    Uli (uli_flags u) (cgi u) (sai u) (rai u) a (e_cgi u) (lai u) (enodeb_id u)));;
  p_when (e_cgi_bit fl) (parse_area1 octet 4 (λ a u,
    Uli (uli_flags u) (cgi u) (sai u) (rai u) (tai u) a (lai u) (enodeb_id u)));;
  p_when (lai_bit fl) (parse_area1 octet 2 (λ a u,
    Uli (uli_flags u) (cgi u) (sai u) (rai u) (tai u) (e_cgi u) a (enodeb_id u)));;
  p_when (enodeb_id_bit fl) (parse_area1 octet 2 (λ a u,
    Uli (uli_flags u) (cgi u) (sai u) (rai u) (tai u) (e_cgi u) (lai u) a));;
  size ← get_size; mret (s16 size).
Definition area2_zero : area2 := Area2 [0; 0; 0] 0 0.
Definition area1_zero : area1 := Area1 [0; 0; 0] 0.
Definition uli_zero : uli :=
  Uli 0 area2_zero area2_zero area2_zero area1_zero area1_zero area1_zero area1_zero.
Definition ogs_gtp2_parse_uli (octet : list Z) : option (Z * uli) := run_parse (parse_uli octet) uli_zero.

Definition of_area2 (a : area2) : list Z := plmn2 a ++ le_bytes 2 (bswap 2 (lac2 a)) ++ le_bytes 2 (bswap 2 (code2 a)).
Definition of_area1 (n : nat) (a : area1) : list Z := plmn1 a ++ le_bytes n (bswap n (code1 a)).

Definition ogs_gtp2_build_uli (u : uli) (data_len : Z) : option (Z * list Z) :=
  let fl := uli_flags u in
  if data_len =? 0 then None else
  buf ← put data_len [fl] [];
  buf ← put_when (cgi_bit fl) data_len (of_area2 (cgi u)) buf;
  buf ← put_when (sai_bit fl) data_len (of_area2 (sai u)) buf;
  buf ← put_when (rai_bit fl) data_len (of_area2 (rai u)) buf;
  buf ← put_when (tai_bit fl) data_len (of_area1 2 (tai u)) buf;
  buf ← put_when (e_cgi_bit fl) data_len (of_area1 4 (e_cgi u)) buf;
  buf ← put_when (lai_bit fl) data_len (of_area1 2 (lai u)) buf;
  buf ← put_when (enodeb_id_bit fl) data_len (of_area1 2 (enodeb_id u)) buf;
  built buf.

(** ** Node identifier *)

Record node_identifier := NodeIdentifier { name_len : Z; name : list Z; realm_len : Z; realm : list Z }.

(** Names are pointers into the element; an error returns [size]. *)
Definition parse_node_identifier (octet : list Z) : P node_identifier Z :=
  bs ← field octet return_size 1;
  assign (λ n, NodeIdentifier (le_value bs) (name n) (realm_len n) (realm n));;
  bs ← field octet return_size (le_value bs);
  assign (λ n, NodeIdentifier (name_len n) bs (realm_len n) (realm n));;
  bs ← field octet return_size 1;
  assign (λ n, NodeIdentifier (name_len n) (name n) (le_value bs) (realm n));;
  bs ← field octet return_size (le_value bs);
  assign (λ n, NodeIdentifier (name_len n) (name n) (realm_len n) bs);;
  size ← get_size; mret (s16 size).
Definition ogs_gtp2_parse_node_identifier (octet : list Z) : option (Z * node_identifier) :=
  run_parse (parse_node_identifier octet) (NodeIdentifier 0 [] 0 []).

Definition ogs_gtp2_build_node_identifier (n : node_identifier) (data_len : Z) : option (Z * list Z) :=
  if data_len =? 0 then None else
  buf ← put data_len [name_len n] [];
  bs ← read_bytes (name n) (name_len n);
  buf ← put data_len bs buf;
  buf ← put data_len [realm_len n] buf;
  bs ← read_bytes (realm n) (realm_len n);
  buf ← put data_len bs buf;
  built buf.

(** Simplification leaves the flags alone. *)
Arguments cgi_bit : simpl never.
Arguments sai_bit : simpl never.
Arguments rai_bit : simpl never.
Arguments tai_bit : simpl never.
Arguments e_cgi_bit : simpl never.
Arguments lai_bit : simpl never.
Arguments enodeb_id_bit : simpl never.
