(* ===== verification/Gtp2IesSpec.v ===== *)
(** * GTPv2 information elements: the theorems

    What is built is parsed back, and parsing any octets is safe, for the
    elements of Gtp2Ies.v and for traffic flow templates. *)
From S2P Require Import Prelude XactBase Octets OctetSpec Gtp2Types TftSpec Gtp2Ies.
#[local] Open Scope Z_scope.

(** What a build returns that asserts that all of [octets] fit. *)
Definition if_fits (data_len : Z) (octets : list Z) : option (Z * list Z) :=
  if zlen octets <=? data_len then Some (zlen octets, octets) else None.
Lemma if_fits_eq data_len octets built : (zlen octets ≤ data_len → built = Some (zlen octets, octets)) →
  (∀ rv bs, built = Some (rv, bs) → bs = octets ∧ zlen bs ≤ data_len) → built = if_fits data_len octets.
Proof.
  intros Hy Hn. unfold if_fits. destruct (Z.leb_spec (zlen octets) data_len) as [|Hd]; [auto|].
  destruct built as [[rv bs]|]; [|done]. destruct (Hn _ _ eq_refl) as [-> ?]. lia.
Qed.

(** ** Quality of service *)

Definition rate_range (x : Z) : Prop := 0 ≤ x < 1000 * 2 ^ 40.
Definition rates_wf (r : rates) : Prop :=
  rate_range (ul_mbr r) ∧ rate_range (dl_mbr r) ∧ rate_range (ul_gbr r) ∧ rate_range (dl_gbr r).
Record bearer_qos_wf (q : bearer_qos) : Prop := {
  bw_spare1 : 0 ≤ spare1 q < 2; bw_capability : 0 ≤ pre_emption_capability q < 2;
  bw_priority : 0 ≤ priority_level q < 16; bw_spare2 : 0 ≤ spare2 q < 2;
  bw_vulnerability : 0 ≤ pre_emption_vulnerability q < 2; bw_qci : is_byte (qci q); bw_rates : rates_wf (qos_rates q) }.

(** Rates in whole kbps, rounded down. *)
Definition in_kbps (r : rates) : rates :=
  Rates (ul_mbr r / 1000 * 1000) (dl_mbr r / 1000 * 1000) (ul_gbr r / 1000 * 1000) (dl_gbr r / 1000 * 1000).
Definition rates_octets (r : rates) : list Z :=
  be_bytes 5 (ul_mbr r / 1000) ++ be_bytes 5 (dl_mbr r / 1000) ++ be_bytes 5 (ul_gbr r / 1000) ++ be_bytes 5 (dl_gbr r / 1000).

Lemma build_rates_octets r : build_rates r = rates_octets r.
Proof. unfold build_rates. by rewrite !uint64_to_buffer. Qed.
Lemma kbps_range x : rate_range x → 0 ≤ x / 1000 < 2 ^ 40.
Proof. intros H. unfold rate_range in H. Z.div_mod_to_equations. lia. Qed.

(** The four assignments of a parse, one after the other. *)
Definition assigned {F} (set_rates : (rates → rates) → F → F) (k : rates) (f : F) : F :=
  set_rates (λ r, Rates (ul_mbr r) (dl_mbr r) (ul_gbr r) (dl_gbr k))
    (set_rates (λ r, Rates (ul_mbr r) (dl_mbr r) (ul_gbr k) (dl_gbr r))
      (set_rates (λ r, Rates (ul_mbr r) (dl_mbr k) (ul_gbr r) (dl_gbr r))
        (set_rates (λ r, Rates (ul_mbr k) (dl_mbr r) (ul_gbr r) (dl_gbr r)) f))).

Lemma parse_rates_at {F} octet (set_rates : (rates → rates) → F → F) s r rest (Q : unit → F → Z → Prop) R f :
  rates_wf r → at_rest octet s (rates_octets r ++ rest) →
  (at_rest octet (s + 5 + 5 + 5 + 5) rest → Q tt (assigned set_rates (in_kbps r) f) (s + 5 + 5 + 5 + 5)) →
  pwp (parse_rates octet set_rates) Q R f s.
Proof.
  intros (H1 & H2 & H3 & H4) Hat HQ. unfold rates_octets in Hat. rewrite <- !app_assoc in Hat.
  unfold parse_rates.
  do 3 (apply pwp_bind; eapply pwp_rate_at; [exact Hat|by apply kbps_range|]; clear Hat; intros Hat;
    apply pwp_bind; unfold pwp at 1, assign).
  apply pwp_bind. eapply pwp_rate_at; [exact Hat|by apply kbps_range|]. clear Hat. intros Hat. by apply HQ.
Qed.

Lemma arp_octet q : bearer_qos_wf q →
  pack_arp q = 128 * spare1 q + 64 * pre_emption_capability q + 4 * priority_level q + 2 * spare2 q + pre_emption_vulnerability q.
Proof.
  intros [H1 H2 H3 H4 H5 _ _]. unfold pack_arp. rewrite !Z.shiftl_mul_pow2 by lia.
  rewrite lor_disjoint by lia.
  replace (spare1 q * 2 ^ 7 + pre_emption_capability q * 2 ^ 6) with ((spare1 q * 2 + pre_emption_capability q) * 2 ^ 6) by lia.
  rewrite lor_disjoint by lia.
  replace (_ * 2 ^ 6 + priority_level q * 2 ^ 2) with (((spare1 q * 2 + pre_emption_capability q) * 2 ^ 4 + priority_level q) * 2 ^ 2) by lia.
  rewrite lor_disjoint by lia.
  replace (_ * 2 ^ 2 + spare2 q * 2 ^ 1) with ((((spare1 q * 2 + pre_emption_capability q) * 2 ^ 4 + priority_level q) * 2 + spare2 q) * 2 ^ 1) by lia.
  rewrite lor_disjoint by lia. lia.
Qed.
Lemma arp_fields q b :
  bearer_qos_wf q → b = pack_arp q → is_byte b ∧ Z.land (Z.shiftr b 6) 1 = pre_emption_capability q ∧
  Z.land (Z.shiftr b 2) 15 = priority_level q ∧ Z.land b 1 = pre_emption_vulnerability q.
Proof.
  intros Hq ->. rewrite (arp_octet q Hq). destruct Hq as [H1 H2 H3 H4 H5 _ _].
  rewrite !Z.shiftr_div_pow2 by lia. change 15 with (2 ^ 4 - 1). change 1 with (2 ^ 1 - 1).
  rewrite !land_mask by lia. unfold is_byte. split_and!; [lia|lia|..]; Z.div_mod_to_equations; lia.
Qed.

(** The octets of TS 29.274, 8.15 and 8.16. *)
Definition bearer_qos_octets (q : bearer_qos) : list Z :=
  [128 * spare1 q + 64 * pre_emption_capability q + 4 * priority_level q + 2 * spare2 q + pre_emption_vulnerability q; qci q] ++
  rates_octets (qos_rates q).
Definition flow_qos_octets (q : flow_qos) : list Z := [flow_qci q] ++ rates_octets (flow_rates q).
Lemma bearer_qos_roundtrip q data_len :
  bearer_qos_wf q →
  ogs_gtp2_build_bearer_qos q data_len = if_fits data_len (bearer_qos_octets q) ∧
  ogs_gtp2_parse_bearer_qos (bearer_qos_octets q) =
    Some (22, BearerQos 0 (pre_emption_capability q) (priority_level q) 0 (pre_emption_vulnerability q) (qci q)
      (in_kbps (qos_rates q))).
Proof.
  intros Hq. destruct (arp_fields q _ Hq eq_refl) as (_ & E1 & E2 & E3).
  assert (Eo : bearer_qos_octets q = [pack_arp q; qci q] ++ rates_octets (qos_rates q)).
  { unfold bearer_qos_octets. by rewrite (arp_octet q Hq). }
  rewrite Eo. split.
  - unfold ogs_gtp2_build_bearer_qos, if_fits, GTP2_BEARER_QOS_LEN. rewrite build_rates_octets. change (zlen ([_; _] ++ rates_octets _)) with 22.
    by destruct (Z.ltb_spec data_len 22), (Z.leb_spec 22 data_len); try lia.
  - apply run_parse_eq. set (octet := [_; _] ++ _). unfold parse_bearer_qos. apply pwp_bind.
    change (zlen octet =? GTP2_BEARER_QOS_LEN) with true. unfold pwp at 1, mret, P_ret.
    assert (Hat : at_rest octet 0 ([pack_arp q] ++ [qci q] ++ rates_octets (qos_rates q) ++ []))
      by (rewrite app_nil_r; apply at_start).
    apply pwp_bind. eapply pwp_memcpy_at; [exact Hat|done|]. apply pwp_bind. unfold pwp at 1, advance.
    apply at_next in Hat. cbn zeta. rewrite byte_value. apply pwp_bind. unfold pwp at 1, assign.
    apply pwp_bind. eapply pwp_memcpy_at; [exact Hat|done|]. apply pwp_bind. unfold pwp at 1, advance.
    apply at_next in Hat. rewrite byte_value. apply pwp_bind. unfold pwp at 1, assign.
    apply pwp_bind. eapply parse_rates_at; [apply Hq|exact Hat|]. intros _. unfold pwp, get_size. cbn.
    by rewrite E1, E2, E3.
Qed.

Lemma flow_qos_roundtrip q data_len :
  is_byte (flow_qci q) → rates_wf (flow_rates q) →
  ogs_gtp2_build_flow_qos q data_len = if_fits data_len (flow_qos_octets q) ∧
  ogs_gtp2_parse_flow_qos (flow_qos_octets q) = Some (21, FlowQos (flow_qci q) (in_kbps (flow_rates q))).
Proof.
  intros Hq Hr. unfold flow_qos_octets. split.
  - unfold ogs_gtp2_build_flow_qos, if_fits, GTP2_FLOW_QOS_LEN. rewrite build_rates_octets. change (zlen ([_] ++ rates_octets _)) with 21.
    by destruct (Z.ltb_spec data_len 21), (Z.leb_spec 21 data_len); try lia.
  - apply run_parse_eq. set (octet := [_] ++ _). unfold parse_flow_qos. apply pwp_bind.
    change (zlen octet =? GTP2_FLOW_QOS_LEN) with true. unfold pwp at 1, mret, P_ret.
    assert (Hat : at_rest octet 0 ([flow_qci q] ++ rates_octets (flow_rates q) ++ []))
      by (rewrite app_nil_r; apply at_start).
    apply pwp_bind. eapply pwp_memcpy_at; [exact Hat|done|]. apply pwp_bind. unfold pwp at 1, advance.
    apply at_next in Hat. rewrite byte_value. apply pwp_bind. unfold pwp at 1, assign.
    apply pwp_bind. eapply parse_rates_at; [done|exact Hat|]. intros _. done.
Qed.

(** ** User location information *)

Record area2_wf (a : area2) : Prop := {
  a2_plmn : length (plmn2 a) = 3%nat; a2_lac : int_range 2 (lac2 a); a2_code : int_range 2 (code2 a) }.
Record area1_wf (n : nat) (a : area1) : Prop := { a1_plmn : length (plmn1 a) = 3%nat; a1_code : int_range n (code1 a) }.
Definition area2_octets (a : area2) : list Z := plmn2 a ++ be_bytes 2 (lac2 a) ++ be_bytes 2 (code2 a).
Definition area1_octets (n : nat) (a : area1) : list Z := plmn1 a ++ be_bytes n (code1 a).

Lemma of_area2_octets a : of_area2 a = area2_octets a.
Proof. unfold of_area2. by rewrite !le_bytes_bswap. Qed.
Lemma of_area1_octets n a : of_area1 n a = area1_octets n a.
Proof. unfold of_area1. by rewrite le_bytes_bswap. Qed.
Lemma to_area2_octets a : area2_wf a → to_area2 (area2_octets a) = a.
Proof.
  destruct a as [p l c]. intros [Hp Hl Hc]. cbn [plmn2 lac2 code2] in *. unfold to_area2, area2_octets. cbn [plmn2 lac2 code2].
  destruct p as [|z [|z0 [|z1 [|]]]]; try discriminate Hp.
  match goal with |- Area2 ?p _ _ = _ => change p with [z; z0; z1] end.
  change (Area2 [z; z0; z1] (bswap 2 (le_value (be_bytes 2 l))) (bswap 2 (le_value (be_bytes 2 c))) = Area2 [z; z0; z1] l c).
  by rewrite !bswap_roundtrip.
Qed.
Lemma to_area1_octets n a : area1_wf n a → to_area1 n (area1_octets n a) = a.
Proof.
  destruct a as [p c]. intros [Hp Hc]. cbn [plmn1 code1] in *. unfold to_area1, area1_octets. cbn [plmn1 code1].
  rewrite <- Hp, take_app_length, drop_app_length. by rewrite bswap_roundtrip.
Qed.
Lemma area2_octets_to bs : bytes bs → zlen bs = 7 → area2_octets (to_area2 bs) = bs ∧ area2_wf (to_area2 bs).
Proof.
  intros Hb Hn. unfold zlen in Hn. unfold area2_octets, to_area2. cbn [plmn2 lac2 code2].
  assert (H2 : ∀ l : list Z, bytes l → length l = 2%nat →
    be_bytes 2 (bswap 2 (le_value l)) = l ∧ int_range 2 (bswap 2 (le_value l))).
  { intros l Hl Hlen. rewrite bswap_le_value by done. split.
    - rewrite <- Hlen. by apply be_bytes_value.
    - unfold int_range. change (8 * Z.of_nat 2) with 16. pose proof (be_value_range l Hl) as Hr. rewrite Hlen in Hr. exact Hr. }
  destruct (H2 (take 2 (drop 3 bs))) as [E1 R1];
    [by apply Forall_take, Forall_drop|rewrite length_take, length_drop; lia|].
  destruct (H2 (drop 5 bs)) as [E2 R2]; [by apply Forall_drop|rewrite length_drop; lia|].
  split; [|by split; [cbn [plmn2]; rewrite length_take; lia|..]]. rewrite E1, E2.
  rewrite <- (take_drop 3 bs) at 4. f_equal. rewrite <- (take_drop 2 (drop 3 bs)) at 2. by rewrite drop_drop.
Qed.
Lemma area1_octets_to n bs :
  bytes bs → zlen bs = 3 + Z.of_nat n → area1_octets n (to_area1 n bs) = bs ∧ area1_wf n (to_area1 n bs).
Proof.
  intros Hb Hn. unfold zlen in Hn. unfold area1_octets, to_area1. cbn [plmn1 code1].
  assert (Hl : length (drop 3 bs) = n) by (rewrite length_drop; lia).
  assert (Hd : bytes (drop 3 bs)) by by apply Forall_drop. rewrite bswap_le_value by done.
  split; [|split; cbn [plmn1 code1]; [rewrite length_take; lia|]].
  - rewrite <- Hl, be_bytes_value by done. apply take_drop.
  - unfold int_range. pose proof (be_value_range _ Hd) as Hr. by rewrite Hl in Hr.
Qed.

(** An area that is parsed when its flag is set. *)
Definition masked_area {A} (b : bool) (a zero : A) : A := if b then a else zero.

Section areas.
Variable octet : list Z.
Implicit Types (f : uli) (Q : unit → uli → Z → Prop).

Lemma pwp_area2_at b (set : area2 → uli → uli) a s rest Q R f :
  area2_wf a → set area2_zero f = f → at_rest octet s (opt b (area2_octets a) ++ rest) →
  (at_rest octet (s + zlen (opt b (area2_octets a))) rest →
   Q tt (set (masked_area b a area2_zero) f) (s + zlen (opt b (area2_octets a)))) →
  pwp (p_when b (parse_area2 octet set)) Q R f s.
Proof.
  intros Ha H0 Hat HQ. eapply (pwp_opt_at octet b _ (set a)); [exact Hat| |].
  - intros Hat'. unfold parse_area2. apply pwp_bind. eapply pwp_field_at; [exact Hat'| |].
    + unfold area2_octets. rewrite !zlen_app, !zlen_be_bytes. unfold zlen. destruct Ha as [-> _ _]. done.
    + intros _. unfold pwp, assign. rewrite to_area2_octets by done. split; [done|].
      unfold area2_octets. rewrite !zlen_app, !zlen_be_bytes. unfold zlen. destruct Ha as [-> _ _]. done.
  - intros Hat'. specialize (HQ Hat'). destruct b; [done|]. cbn [masked_area] in HQ. by rewrite H0 in HQ.
Qed.
Lemma pwp_area1_at b n (set : area1 → uli → uli) a s rest Q R f :
  area1_wf n a → set area1_zero f = f → at_rest octet s (opt b (area1_octets n a) ++ rest) →
  (at_rest octet (s + zlen (opt b (area1_octets n a))) rest →
   Q tt (set (masked_area b a area1_zero) f) (s + zlen (opt b (area1_octets n a)))) →
  pwp (p_when b (parse_area1 octet n set)) Q R f s.
Proof.
  intros Ha H0 Hat HQ. assert (Hz : zlen (area1_octets n a) = 3 + Z.of_nat n).
  { unfold area1_octets. rewrite zlen_app, zlen_be_bytes. unfold zlen. by destruct Ha as [-> _]. }
  eapply (pwp_opt_at octet b _ (set a)); [exact Hat| |].
  - intros Hat'. unfold parse_area1. apply pwp_bind. eapply pwp_field_at; [exact Hat'|done|].
    intros _. unfold pwp, assign. by rewrite to_area1_octets, Hz.
  - intros Hat'. specialize (HQ Hat'). destruct b; [done|]. cbn [masked_area] in HQ. by rewrite H0 in HQ.
Qed.
End areas.

Record uli_wf (u : uli) : Prop := {
  uw_flags : is_byte (uli_flags u); uw_cgi : area2_wf (cgi u); uw_sai : area2_wf (sai u); uw_rai : area2_wf (rai u);
  uw_tai : area1_wf 2 (tai u); uw_e_cgi : area1_wf 4 (e_cgi u); uw_lai : area1_wf 2 (lai u);
  uw_enodeb_id : area1_wf 2 (enodeb_id u) }.
Definition uli_octets (u : uli) : list Z :=
  let fl := uli_flags u in
  [fl] ++ opt (cgi_bit fl) (area2_octets (cgi u)) ++ opt (sai_bit fl) (area2_octets (sai u)) ++
  opt (rai_bit fl) (area2_octets (rai u)) ++ opt (tai_bit fl) (area1_octets 2 (tai u)) ++
  opt (e_cgi_bit fl) (area1_octets 4 (e_cgi u)) ++ opt (lai_bit fl) (area1_octets 2 (lai u)) ++
  opt (enodeb_id_bit fl) (area1_octets 2 (enodeb_id u)).
(** The information whose flags are set. *)
Definition uli_flagged (u : uli) : uli :=
  let fl := uli_flags u in
  Uli fl (masked_area (cgi_bit fl) (cgi u) area2_zero) (masked_area (sai_bit fl) (sai u) area2_zero)
    (masked_area (rai_bit fl) (rai u) area2_zero) (masked_area (tai_bit fl) (tai u) area1_zero)
    (masked_area (e_cgi_bit fl) (e_cgi u) area1_zero) (masked_area (lai_bit fl) (lai u) area1_zero)
    (masked_area (enodeb_id_bit fl) (enodeb_id u) area1_zero).

Lemma zlen_opt_le b bs n : zlen bs ≤ n → 0 ≤ n → zlen (opt b bs) ≤ n.
Proof. by destruct b. Qed.
Lemma uli_octets_size u : uli_wf u → zlen (uli_octets u) ≤ 44.
Proof.
  intros [_ [H1 _ _] [H2 _ _] [H3 _ _] [H4 _] [H5 _] [H6 _] [H7 _]]. unfold uli_octets. rewrite !zlen_app.
  assert (E2 : ∀ b a, length (plmn2 a) = 3%nat → zlen (opt b (area2_octets a)) ≤ 7).
  { intros b a Ha. apply zlen_opt_le; [|lia]. unfold area2_octets. rewrite !zlen_app, !zlen_be_bytes. unfold zlen. lia. }
  assert (E1 : ∀ b n a, length (plmn1 a) = 3%nat → zlen (opt b (area1_octets n a)) ≤ 3 + Z.of_nat n).
  { intros b n a Ha. apply zlen_opt_le; [|lia]. unfold area1_octets. rewrite !zlen_app, !zlen_be_bytes. unfold zlen. lia. }
  pose proof (E2 (cgi_bit (uli_flags u)) _ H1). pose proof (E2 (sai_bit (uli_flags u)) _ H2).
  pose proof (E2 (rai_bit (uli_flags u)) _ H3). pose proof (E1 (tai_bit (uli_flags u)) 2%nat _ H4).
  pose proof (E1 (e_cgi_bit (uli_flags u)) 4%nat _ H5). pose proof (E1 (lai_bit (uli_flags u)) 2%nat _ H6).
  pose proof (E1 (enodeb_id_bit (uli_flags u)) 2%nat _ H7). change (zlen [uli_flags u]) with 1. lia.
Qed.

Lemma uli_build_ok u data_len :
  uli_wf u → 0 ≤ data_len → ogs_gtp2_build_uli u data_len = if_fits data_len (uli_octets u).
Proof.
  intros Hu Hd. pose proof (uli_octets_size u Hu) as Hs. unfold ogs_gtp2_build_uli.
  rewrite !of_area2_octets, !of_area1_octets. unfold uli_octets in *. set (fl := uli_flags u) in *. cbv zeta in *.
  apply if_fits_eq; [intros Hfit|intros rv bs].
  - pose proof (eq_refl : zlen [fl] = 1). repeat rewrite zlen_app in Hs, Hfit.
    replace (data_len =? 0) with false by (symmetry; fits).
    repeat build_step. unfold built.
    rewrite s16_small by fits. rewrite <- !app_assoc. done.
  - destruct (data_len =? 0); [done|]. intros (b0 & [-> H0]%put_inv & E)%bind_Some.
    do 7 (apply bind_Some in E as (? & [-> ?]%put_when_inv & E); [|done]).
    injection E as <- <-. split; [by rewrite <- !app_assoc|done].
Qed.

(** Assignments to a structure that is known. *)
Ltac reduce_uli :=
  lazymatch goal with |- pwp ?m ?Q ?R ?f ?s => let f' := eval cbn -[masked_area] in f in change (pwp m Q R f' s) end.

Lemma uli_parse_ok u : uli_wf u → ogs_gtp2_parse_uli (uli_octets u) = Some (zlen (uli_octets u), uli_flagged u).
Proof.
  intros Hu. pose proof (uli_octets_size u Hu). apply run_parse_eq. unfold parse_uli. unfold uli_flagged.
  assert (Hat : at_rest (uli_octets u) 0 (uli_octets u ++ [])) by (rewrite app_nil_r; apply at_start).
  remember (uli_octets u) as octet eqn:Eo. rewrite Eo in Hat at 2. unfold uli_octets in Hat.
  rewrite <- !app_assoc in Hat.
  set (fl := uli_flags u) in *. destruct Hu as [Hfl Hcgi Hsai Hrai Htai He Hlai Henb].
  apply pwp_bind. eapply (pwp_field_at octet _ 0 [fl]); [exact Hat|done|]. clear Hat. intros Hat.
  rewrite byte_value. cbn zeta. apply pwp_bind. unfold pwp at 1, assign. reduce_uli.
  do 3 (apply pwp_bind; eapply pwp_area2_at; [|reflexivity|exact Hat|]; [done|]; clear Hat; intros Hat; reduce_uli).
  do 4 (apply pwp_bind; eapply pwp_area1_at; [|reflexivity|exact Hat|]; [done|]; clear Hat; intros Hat; reduce_uli).
  apply pwp_finish. rewrite (at_end _ _ Hat), s16_small by (pose proof (zlen_nonneg octet); lia). done.
Qed.

(** ** Node identifier *)

Record node_identifier_wf (n : node_identifier) : Prop := {
  nw_name_len : zlen (name n) = name_len n; nw_name : name_len n < 256;
  nw_realm_len : zlen (realm n) = realm_len n; nw_realm : realm_len n < 256 }.
Definition node_identifier_octets (n : node_identifier) : list Z :=
  [name_len n] ++ name n ++ [realm_len n] ++ realm n.

Lemma node_identifier_roundtrip n data_len :
  node_identifier_wf n → 0 ≤ data_len →
  let octets := node_identifier_octets n in
  ogs_gtp2_build_node_identifier n data_len = if_fits data_len octets ∧
  ogs_gtp2_parse_node_identifier octets = Some (zlen octets, n).
Proof.
  intros [H1 H2 H3 H4] Hd octets.
  pose proof (zlen_nonneg (name n)). pose proof (zlen_nonneg (realm n)).
  assert (Hz : zlen octets = 2 + zlen (name n) + zlen (realm n)).
  { unfold octets, node_identifier_octets. rewrite !zlen_app. unfold zlen. cbn [length]. lia. }
  split.
  - unfold ogs_gtp2_build_node_identifier.
    assert (H1' : zlen [name_len n] = 1 ∧ zlen [realm_len n] = 1) by done. destruct H1'.
    assert (Hread : ∀ l, read_bytes l (zlen l) = Some l) by (intros l; rewrite <- (app_nil_r l) at 1; apply read_bytes_app).
    apply if_fits_eq; [intros Hfit|intros rv bs].
    + replace (data_len =? 0) with false by (symmetry; lia).
      unfold octets, node_identifier_octets in *. rewrite <- H1, <- H3, !Hread in *. cbn [mbind option_bind].
      repeat build_step. unfold built. rewrite <- !app_assoc. cbn [app].
      rewrite s16_small; [done|]. rewrite !zlen_cons, zlen_app, zlen_cons. lia.
    + destruct (data_len =? 0); [done|]. intros (? & [-> _]%put_inv & E)%bind_Some.
      pose proof (Hread (name n)) as Hname. pose proof (Hread (realm n)) as Hrealm. rewrite H1 in Hname. rewrite H3 in Hrealm. rewrite Hname, Hrealm in E.
      cbn [mbind option_bind] in E. do 3 (apply bind_Some in E as (? & [-> ?]%put_inv & E)).
      injection E as <- <-. split; [by rewrite <- !app_assoc|done].
  - apply run_parse_eq. assert (Hat : at_rest octets 0 ([name_len n] ++ name n ++ [realm_len n] ++ realm n ++ []))
      by (rewrite app_nil_r; apply at_start).
    unfold parse_node_identifier.
    apply pwp_bind. eapply pwp_field_at; [exact Hat|done|]. clear Hat. intros Hat. rewrite byte_value.
    apply pwp_bind. unfold pwp at 1, assign.
    apply pwp_bind. eapply pwp_field_at; [exact Hat|done|]. clear Hat. intros Hat.
    apply pwp_bind. unfold pwp at 1, assign.
    apply pwp_bind. eapply pwp_field_at; [exact Hat|done|]. clear Hat. intros Hat. rewrite byte_value.
    apply pwp_bind. unfold pwp at 1, assign.
    apply pwp_bind. eapply pwp_field_at; [exact Hat|done|]. clear Hat. intros Hat.
    apply pwp_bind. unfold pwp at 1, assign. apply pwp_finish.
    rewrite (at_end _ _ Hat), s16_small by lia. split; [done|]. cbn. by destruct n.
Qed.

(** C39: A bearer's and a flow's quality of service, a user location and a node
    identifier are built into the octets of TS 29.274, into a buffer of any
    size that these fit, however tight; the assertion fails exactly when they
    do not.  What is parsed from them is what was built: the quality of service
    without its spare bits, the areas of the user location whose flags are
    set, the node identifier; but each rate in whole kbps, rounded down.  (The
    chapter 8.15 that the code refers to has fractions rounded upwards, as
    ogs_pfcp_build_bitrate does: a rate below 1 kbps arrives as none.) *)
Theorem ogs_gtp2_ies_roundtrip q w u n data_len :
  bearer_qos_wf q → is_byte (flow_qci w) → rates_wf (flow_rates w) → uli_wf u → node_identifier_wf n → 0 ≤ data_len →
  (ogs_gtp2_build_bearer_qos q data_len = if_fits data_len (bearer_qos_octets q) ∧ zlen (bearer_qos_octets q) = 22 ∧
   ogs_gtp2_parse_bearer_qos (bearer_qos_octets q) = Some (22, BearerQos 0 (pre_emption_capability q) (priority_level q) 0
     (pre_emption_vulnerability q) (qci q) (in_kbps (qos_rates q)))) ∧
  (ogs_gtp2_build_flow_qos w data_len = if_fits data_len (flow_qos_octets w) ∧ zlen (flow_qos_octets w) = 21 ∧
   ogs_gtp2_parse_flow_qos (flow_qos_octets w) = Some (21, FlowQos (flow_qci w) (in_kbps (flow_rates w)))) ∧
  (ogs_gtp2_build_uli u data_len = if_fits data_len (uli_octets u) ∧ zlen (uli_octets u) ≤ 44 ∧
   ogs_gtp2_parse_uli (uli_octets u) = Some (zlen (uli_octets u), uli_flagged u)) ∧
  (ogs_gtp2_build_node_identifier n data_len = if_fits data_len (node_identifier_octets n) ∧
   ogs_gtp2_parse_node_identifier (node_identifier_octets n) = Some (zlen (node_identifier_octets n), n)).
Proof.
  intros Hq Hw Hr Hu Hn Hd. destruct (bearer_qos_roundtrip q data_len Hq), (flow_qos_roundtrip w data_len Hw Hr).
  split_and!; try done; [by apply uli_build_ok|by apply uli_octets_size|by apply uli_parse_ok|by apply node_identifier_roundtrip|by eapply node_identifier_roundtrip].
Qed.

(** Buffers that just hold the elements, and one that is an octet short. *)
Lemma ogs_gtp2_ies_roundtrip_witness :
  let q := BearerQos 0 1 8 0 1 9 (Rates 1500 999 0 64000) in
  let u := Uli 0x18 area2_zero area2_zero area2_zero (Area1 [0x99; 0xf9; 0x07] 1) (Area1 [0x99; 0xf9; 0x07] 0x19b01)
    area1_zero area1_zero in
  ogs_gtp2_build_bearer_qos q 22 = Some (22, [0x61; 9; 0; 0; 0; 0; 1; 0; 0; 0; 0; 0; 0; 0; 0; 0; 0; 0; 0; 0; 0; 64]) ∧
  ogs_gtp2_parse_bearer_qos (bearer_qos_octets q) = Some (22, BearerQos 0 1 8 0 1 9 (Rates 1000 0 0 64000)) ∧
  ogs_gtp2_build_uli u 13 = Some (13, [0x18; 0x99; 0xf9; 0x07; 0; 1; 0x99; 0xf9; 0x07; 0; 1; 0x9b; 0x01]) ∧
  ogs_gtp2_build_uli u 12 = None ∧
  ogs_gtp2_parse_uli [0x18; 0x99; 0xf9; 0x07; 0; 1; 0x99; 0xf9; 0x07; 0; 1; 0x9b; 0x01] = Some (13, u).
Proof.
  intros q u.
  assert (H : ∀ data_len, 0 ≤ data_len → _) by (intros data_len; apply (ogs_gtp2_ies_roundtrip q (FlowQos 9 (Rates 0 0 0 0)) u (NodeIdentifier 1 [97] 1 [98]) data_len);
    [split; cbn; unfold is_byte, rates_wf, rate_range; cbn; lia|unfold is_byte; cbn; lia|unfold rates_wf, rate_range; cbn; lia
    |split; cbn; unfold is_byte; try lia; split; unfold int_range; cbn; lia|split; unfold zlen; cbn; lia]).
  destruct (H 22 ltac:(lia)) as ((Hb & _ & Hp) & _). destruct (H 13 ltac:(lia)) as (_ & _ & (Hu & _ & Hu') & _).
  destruct (H 12 ltac:(lia)) as (_ & _ & (Hu12 & _) & _). rewrite Hb, Hp, Hu, Hu12. split_and!; [by vm_compute|done|by vm_compute|by vm_compute|exact Hu'].
Defined.

(** ** Any octets *)

Lemma area2_zero_wf : area2_wf area2_zero.
Proof. by split. Qed.
Lemma area1_zero_wf n : area1_wf n area1_zero.
Proof. split; [done|]. split; [done|]. apply Z.pow_pos_nonneg; lia. Qed.
Lemma masked_area_wf {A} (P : A → Prop) b a zero : P a → P zero → P (masked_area b a zero).
Proof. by destruct b. Qed.
Lemma opt_masked_area {A} b (enc : A → list Z) a zero : opt b (enc (masked_area b a zero)) = opt b (enc a).
Proof. by destruct b. Qed.

Section any_uli.
Variable octet : list Z.
Hypothesis octet_bytes : bytes octet.
Implicit Types (f : uli) (Q : unit → uli → Z → Prop).
Abbreviation consumed s := (take (Z.to_nat s) octet).

(** A flagged area of any element. *)
Lemma pwp_any_area {A} b len (get : list Z → A) (enc : A → list Z) (wf : A → Prop) zero (set : A → uli → uli) Q R f s :
  0 ≤ len → (∀ bs, bytes bs → zlen bs = len → enc (get bs) = bs ∧ wf (get bs)) → wf zero → set zero f = f →
  0 ≤ s ≤ zlen octet → R 0 f →
  (∀ a s', wf a → s' ≤ zlen octet → 0 ≤ s' → consumed s' = consumed s ++ opt b (enc a) → Q tt (set (masked_area b a zero) f) s') →
  pwp (p_when b (bs ← field octet return_0 len; assign (set (get bs)))) Q R f s.
Proof.
  intros Hlen Henc Hzero H0 Hs HR HQ. destruct b; cbn [p_when].
  - apply pwp_bind. eapply pwp_field_split; [done|lia|done|done|]. intros bs rest Hat Hn Hb Hle.
    destruct (Henc bs Hb Hn) as [He Hw]. apply HQ; [done|lia|lia|]. cbn [opt]. rewrite He, <- Hn. by eapply consumed_next.
  - unfold pwp, mret, P_ret. rewrite <- H0. apply (HQ zero); [done|lia|lia|]. cbn [opt]. by rewrite app_nil_r.
Qed.
Lemma pwp_any_area2 b (set : area2 → uli → uli) Q R f s :
  set area2_zero f = f → 0 ≤ s ≤ zlen octet → R 0 f →
  (∀ a s', area2_wf a → s' ≤ zlen octet → 0 ≤ s' → consumed s' = consumed s ++ opt b (area2_octets a) →
     Q tt (set (masked_area b a area2_zero) f) s') →
  pwp (p_when b (parse_area2 octet set)) Q R f s.
Proof.
  intros. apply (pwp_any_area b 7 to_area2 area2_octets area2_wf area2_zero);
    first [done|lia|apply area2_octets_to|apply area2_zero_wf].
Qed.
Lemma pwp_any_area1 b n (set : area1 → uli → uli) Q R f s :
  set area1_zero f = f → 0 ≤ s ≤ zlen octet → R 0 f →
  (∀ a s', area1_wf n a → s' ≤ zlen octet → 0 ≤ s' → consumed s' = consumed s ++ opt b (area1_octets n a) →
     Q tt (set (masked_area b a area1_zero) f) s') →
  pwp (p_when b (parse_area1 octet n set)) Q R f s.
Proof.
  intros. apply (pwp_any_area b (3 + Z.of_nat n) (to_area1 n) (area1_octets n) (area1_wf n) area1_zero);
    first [done|lia|apply area1_octets_to|apply area1_zero_wf].
Qed.

Hypothesis octet_small : zlen octet < 2 ^ 15.
Lemma uli_parse_any :
  ∃ rv u, ogs_gtp2_parse_uli octet = Some (rv, u) ∧ 0 ≤ rv ≤ zlen octet ∧
    (0 < rv → rv = zlen octet → uli_wf u ∧ uli_octets u = octet).
Proof.
  pose proof (zlen_nonneg octet) as Hz. apply (pwp_run (parse_uli octet)). unfold parse_uli.
  apply pwp_any_flags; [done|split; lia|]. intros fl Hfl H1 C0. cbn zeta. rewrite byte_value.
  apply pwp_bind. unfold pwp at 1, assign at 1. reduce_uli.
  do 3 (apply pwp_bind; eapply pwp_any_area2; [reflexivity|lia|split; lia|]; intros ? ? ? ? ? ?; reduce_uli).
  do 4 (apply pwp_bind; eapply pwp_any_area1; [reflexivity|lia|split; lia|]; intros ? ? ? ? ? ?; reduce_uli).
  apply pwp_finish. rewrite s16_small by lia. split; [lia|]. intros _ Hrv. split.
  - split; cbn [uli_flags cgi sai rai tai e_cgi lai enodeb_id]; [done|..]; apply masked_area_wf; auto using area2_zero_wf, area1_zero_wf.
  - unfold uli_octets. cbn [uli_flags cgi sai rai tai e_cgi lai enodeb_id]. rewrite !opt_masked_area.
    eapply consumed_all; [exact Hrv|]. rewrite_consumed.
Qed.

Lemma rates_parse_any {F} (set_rates : (rates → rates) → F → F) (Q : unit → F → Z → Prop) R (f : F) s :
  0 ≤ s → s + 20 ≤ zlen octet → (∀ f : F, Q tt f (s + 20)) → pwp (parse_rates octet set_rates) Q R f s.
Proof.
  intros Hs Hle HQ. assert (Hrate : ∀ (Q : Z → F → Z → Prop) R (f : F) s, 0 ≤ s → s + 5 ≤ zlen octet →
    (∀ v, Q v f (s + 5)) → pwp (parse_rate octet) Q R f s).
  { clear. intros Q R f s Hs Hle HQ. unfold parse_rate. apply pwp_bind. unfold pwp at 1, memcpy.
    replace (s <? 0) with false by (symmetry; lia). unfold read_bytes.
    replace ((0 <=? 5) && (5 <=? _)) with true; [|rewrite length_drop; unfold zlen in Hle; symmetry; lia].
    apply pwp_bind. unfold pwp at 1, advance. apply HQ. }
  unfold parse_rates. do 3 (apply pwp_bind, Hrate; [lia|lia|]; intros ?; apply pwp_bind; unfold pwp at 1, assign).
  apply pwp_bind, Hrate; [lia|lia|]. intros ?. unfold pwp, assign.
  replace (s + 5 + 5 + 5 + 5) with (s + 20) by lia. apply HQ.
Qed.
Lemma pwp_memcpy_any {F} n (Q : list Z → F → Z → Prop) R (f : F) s :
  0 ≤ s → 0 ≤ n → s + n ≤ zlen octet → (∀ bs, Q bs f s) → pwp (memcpy octet n) Q R f s.
Proof.
  intros Hs Hn Hle HQ. unfold pwp, memcpy. replace (s <? 0) with false by (symmetry; lia). unfold read_bytes.
  replace ((0 <=? n) && (n <=? _)) with true; [apply HQ|]. rewrite length_drop. unfold zlen in Hle. symmetry. lia.
Qed.
Lemma bearer_qos_parse_any : ∃ rv q, ogs_gtp2_parse_bearer_qos octet = Some (rv, q) ∧ (rv = 0 ∨ rv = 22 ∧ zlen octet = 22).
Proof.
  apply (pwp_run (parse_bearer_qos octet)). unfold parse_bearer_qos. apply pwp_bind.
  destruct (Z.eqb_spec (zlen octet) GTP2_BEARER_QOS_LEN) as [E|]; [|by left]. unfold GTP2_BEARER_QOS_LEN in E.
  unfold pwp at 1, mret, P_ret.
  apply pwp_bind, pwp_memcpy_any; [lia..|]. intros bs. apply pwp_bind. unfold pwp at 1, advance. cbn zeta.
  apply pwp_bind. unfold pwp at 1, assign. apply pwp_bind, pwp_memcpy_any; [lia..|]. intros bs'.
  apply pwp_bind. unfold pwp at 1, advance. apply pwp_bind. unfold pwp at 1, assign.
  apply pwp_bind, rates_parse_any; [lia..|]. intros q. unfold pwp, get_size. right. lia.
Qed.
Lemma flow_qos_parse_any : ∃ rv q, ogs_gtp2_parse_flow_qos octet = Some (rv, q) ∧ (rv = 0 ∨ rv = 21 ∧ zlen octet = 21).
Proof.
  apply (pwp_run (parse_flow_qos octet)). unfold parse_flow_qos. apply pwp_bind.
  destruct (Z.eqb_spec (zlen octet) GTP2_FLOW_QOS_LEN) as [E|]; [|by left]. unfold GTP2_FLOW_QOS_LEN in E.
  unfold pwp at 1, mret, P_ret.
  apply pwp_bind, pwp_memcpy_any; [lia..|]. intros bs. apply pwp_bind. unfold pwp at 1, advance.
  apply pwp_bind. unfold pwp at 1, assign.
  apply pwp_bind, rates_parse_any; [lia..|]. intros q. unfold pwp, get_size. right. lia.
Qed.
Lemma le_value_byte bs : bytes bs → zlen bs = 1 → 0 ≤ le_value bs < 256.
Proof.
  intros Hb Hn. destruct bs as [|b [|]]; unfold zlen in Hn; cbn in Hn; try lia. rewrite byte_value.
  by apply Forall_cons in Hb as [? _].
Qed.
Lemma node_identifier_parse_any :
  ∃ rv n, ogs_gtp2_parse_node_identifier octet = Some (rv, n) ∧ 0 ≤ rv ≤ zlen octet.
Proof.
  pose proof (zlen_nonneg octet). apply (pwp_run (parse_node_identifier octet)). unfold parse_node_identifier.
  apply pwp_bind, pwp_field; [done|lia|lia|unfold return_size; lia|]. intros bs Hn Hb Hle.
  apply le_value_byte in Hb; [|done]. apply pwp_bind. unfold pwp at 1, assign.
  apply pwp_bind, pwp_field; [done|lia|lia|unfold return_size; lia|]. intros bs1 _ _ Hle1.
  apply pwp_bind. unfold pwp at 1, assign.
  apply pwp_bind, pwp_field; [done|lia|lia|unfold return_size; lia|]. intros bs' Hn' Hb' Hle2.
  apply le_value_byte in Hb'; [|done]. apply pwp_bind. unfold pwp at 1, assign.
  apply pwp_bind, pwp_field; [done|lia|lia|unfold return_size; lia|]. intros bs3 _ _ Hle3.
  apply pwp_bind. unfold pwp at 1, assign. apply pwp_finish. rewrite s16_small; lia.
Qed.
End any_uli.

(** C40: Whatever the octets of an element are, no parse reads outside of them
    or writes outside of the 15 filters and 16 components of a template, every
    parse returns at most their length, and a user location whose octets were
    all consumed is built into the same octets again. *)
Theorem ogs_gtp2_parse_safe octet :
  bytes octet → zlen octet < 2 ^ 15 →
  (∃ rv t, ogs_gtp2_parse_tft octet = Some (rv, t) ∧ tft_shape t ∧ -1 ≤ rv ≤ zlen octet) ∧
  (∃ rv q, ogs_gtp2_parse_bearer_qos octet = Some (rv, q) ∧ (rv = 0 ∨ rv = 22 ∧ zlen octet = 22)) ∧
  (∃ rv q, ogs_gtp2_parse_flow_qos octet = Some (rv, q) ∧ (rv = 0 ∨ rv = 21 ∧ zlen octet = 21)) ∧
  (∃ rv u, ogs_gtp2_parse_uli octet = Some (rv, u) ∧ 0 ≤ rv ≤ zlen octet ∧
     (0 < rv → rv = zlen octet → ogs_gtp2_build_uli u 44 = Some (rv, octet))) ∧
  (∃ rv n, ogs_gtp2_parse_node_identifier octet = Some (rv, n) ∧ 0 ≤ rv ≤ zlen octet).
Proof.
  intros Hb Hl. split_and!.
  - by apply parse_tft_any.
  - by apply bearer_qos_parse_any.
  - by apply flow_qos_parse_any.
  - destruct (uli_parse_any octet Hb Hl) as (rv & u & E & Hrv & H). exists rv, u. split; [done|]. split; [done|].
    intros H1 H2. destruct (H H1 H2) as [Hw Ho]. pose proof (uli_octets_size u Hw) as H44. rewrite Ho, <- H2 in H44.
    rewrite uli_build_ok, Ho by (done || lia). unfold if_fits. rewrite <- H2. by replace (rv <=? 44) with true by (symmetry; lia).
  - by apply node_identifier_parse_any.
Qed.

Lemma ogs_gtp2_parse_safe_witness :
  ∃ rv u, ogs_gtp2_parse_uli [8; 0x99; 0xf9; 7; 0; 1] = Some (rv, u) ∧ 0 ≤ rv ≤ 6 ∧
     (0 < rv → rv = 6 → ogs_gtp2_build_uli u 44 = Some (rv, [8; 0x99; 0xf9; 7; 0; 1])).
Proof.
  apply (ogs_gtp2_parse_safe [8; 0x99; 0xf9; 7; 0; 1]); [|vm_compute; reflexivity].
  repeat constructor; unfold is_byte; lia.
Defined.
