(* ===== verification/Routes.v ===== *)
(** * Framed routes of the UPF (src/upf/context.c)

    Networks behind a UE.  Each address family has a binary trie over the bits
    of an address, from the most significant bit; a node that ends a prefix
    has the session that the prefix belongs to.  A node is a name in a memory
    of nodes, a pointer to a pointer is a [slot].  A look-up asks the hash of
    the addresses of the UEs before the trie.  What [ogs_ipsubnet] makes of
    the text of a route, or that it fails, is an argument of the operations;
    the function itself is at the end of the file. *)
From S2P Require Import Prelude XactBase Octets.
#[local] Open Scope c_scope.

(** [ogs_ipsubnet_t] with a family of [AF_INET] or [AF_INET6]; the words are
    in the order of the network, as the host reads them. *)
Record ogs_ipsubnet_t := Ipsubnet { family_inet : bool; sub : list Z; mask : list Z }.

(** struct upf_route_trie_node; a session is a name. *)
Record upf_route_trie_node := TrieNode { left : option positive; right : option positive; n_sess : option nat }.

(** The nodes, [self.ipv4_framed_routes] and [self.ipv6_framed_routes]. *)
Record trie_mem := TrieMem { trie_nodes : gmap positive upf_route_trie_node; root4 : option positive; root6 : option positive }.
Definition trie_mem_init : trie_mem := TrieMem ∅ None None.

(** A pointer to a pointer: a variable or a field of a node. *)
Inductive slot := ROOT (inet : bool) | LEFT (n : positive) | RIGHT (n : positive).

Definition tnode_get (n : positive) : M trie_mem upf_route_trie_node := λ s,
  match trie_nodes s !! n with Some x => Some (x, s) | None => None end.
Definition tnode_upd (n : positive) (f : upf_route_trie_node → upf_route_trie_node) : M trie_mem unit :=
  x ← tnode_get n; m_modify (λ s, TrieMem (<[n := f x]> (trie_nodes s)) (root4 s) (root6 s)).
Definition set_sess (n : positive) (v : option nat) : M trie_mem unit := tnode_upd n (λ x, TrieNode (left x) (right x) v).
Definition slot_get (p : slot) : M trie_mem (option positive) :=
  match p with
  | ROOT inet => m_gets (λ s, if inet then root4 s else root6 s)
  | LEFT n => x ← tnode_get n; mret (left x)
  | RIGHT n => x ← tnode_get n; mret (right x)
  end.
Definition slot_set (p : slot) (v : option positive) : M trie_mem unit :=
  match p with
  | ROOT true => m_modify (λ s, TrieMem (trie_nodes s) v (root6 s))
  | ROOT false => m_modify (λ s, TrieMem (trie_nodes s) (root4 s) v)
  | LEFT n => tnode_upd n (λ x, TrieNode v (right x) (n_sess x))
  | RIGHT n => tnode_upd n (λ x, TrieNode (left x) v (n_sess x))
  end.
(** [ogs_calloc] and [ogs_free]. *)
Definition tnode_calloc : M trie_mem positive :=
  s ← m_get;
  let n := fresh (dom (trie_nodes s)) in
  m_modify (λ s, TrieMem (<[n := TrieNode None None None]> (trie_nodes s)) (root4 s) (root6 s));;
  mret n.
Definition tnode_free (n : positive) : M trie_mem unit :=
  _ ← tnode_get n; m_modify (λ s, TrieMem (delete n (trie_nodes s)) (root4 s) (root6 s)).

(** [(1 << bit) & be32toh(ws[part])] for bit [i] of [nbits]. *)
Definition word_bit (ws : list Z) (nbits i : nat) : bool :=
  let part := (i / 32)%nat in
  let bit := ((nbits - i - 1) mod 32)%nat in
  negb ((1 << Z.of_nat bit) .& bswap 4 (nth part ws 0) =? 0)%Z.

Definition OGS_IPV6_128_PREFIX_LEN : nat := 128.
Definition family_bits (inet : bool) : nat := if inet then 32 else OGS_IPV6_128_PREFIX_LEN.

(** ** Adding and removing a route *)

(** The loop from bit [i] on; [turns] are those that are left. *)
Fixpoint add_loop (turns nbits i : nat) (route : ogs_ipsubnet_t) (sess : nat) (trie : slot) : M trie_mem unit :=
  match turns with
  | O => mret tt
  | S turns =>
      p ← slot_get trie;
      n ← match p with
          | Some n => mret n
          | None => n ← tnode_calloc; slot_set trie (Some n);; mret n
          end;
      if (i =? nbits) || negb (word_bit (mask route) nbits i) then set_sess n (Some sess)
      else add_loop turns nbits (S i) route sess (if word_bit (sub route) nbits i then RIGHT n else LEFT n)
  end.
Definition add_framed_route_to_trie (route : ogs_ipsubnet_t) (sess : nat) : M trie_mem unit :=
  let nbits := family_bits (family_inet route) in
  add_loop (S nbits) nbits 0 route sess (ROOT (family_inet route)).

(** The first loop: the slots on the way ([to_free_tries]) and [free_from]. *)
Fixpoint free_descend (turns nbits i : nat) (route : ogs_ipsubnet_t) (trie : slot) (tries : list slot) (free_from : nat) :
    M trie_mem (list slot * nat) :=
  match turns with
  | O => mret (tries, free_from)
  | S turns =>
      p ← slot_get trie;
      match p with
      | None => mret (tries, free_from)
      | Some n =>
          let tries := tries ++ [trie] in
          x ← tnode_get n;
          if (i =? nbits) || negb (word_bit (mask route) nbits i) then
            set_sess n None;;
            mret (tries, if bool_decide (is_Some (left x)) || bool_decide (is_Some (right x)) then i + 1 else free_from)
          else if word_bit (sub route) nbits i then
            free_descend turns nbits (S i) route (RIGHT n) tries
              (if bool_decide (is_Some (left x)) || bool_decide (is_Some (n_sess x)) then i + 1 else free_from)
          else
            free_descend turns nbits (S i) route (LEFT n) tries
              (if bool_decide (is_Some (right x)) || bool_decide (is_Some (n_sess x)) then i + 1 else free_from)
      end
  end.
(** The second loop, over the slots from the last one. *)
Fixpoint free_back (slots : list slot) : M trie_mem unit :=
  match slots with
  | [] => mret tt
  | trie :: slots =>
      p ← slot_get trie;
      n ← m_some p;
      tnode_free n;;
      slot_set trie None;;
      free_back slots
  end.
Definition free_framed_route_from_trie (route : ogs_ipsubnet_t) : M trie_mem unit :=
  let nbits := family_bits (family_inet route) in
  '(tries, free_from) ← free_descend (S nbits) nbits 0 route (ROOT (family_inet route)) [] 0;
  free_back (rev (drop free_from tries)).

(** ** Looking up an address *)

(** The loop of [upf_sess_find_by_ipv4] and [upf_sess_find_by_ipv6]. *)
Fixpoint find_loop (turns nbits i : nat) (addr : list Z) (trie : option positive) (ret : option nat) : M trie_mem (option nat) :=
  match turns with
  | O => mret ret
  | S turns =>
      match trie with
      | None => mret ret
      | Some n =>
          x ← tnode_get n;
          let ret := match n_sess x with Some s => Some s | None => ret end in
          if i =? nbits then mret ret
          else find_loop turns nbits (S i) addr (if word_bit addr nbits i then right x else left x) ret
      end
  end.
Definition find_framed_route (inet : bool) (addr : list Z) : M trie_mem (option nat) :=
  trie ← slot_get (ROOT inet);
  find_loop (S (family_bits inet)) (family_bits inet) 0 addr trie None.

(** [self.ipv4_hash] and [self.ipv6_hash]: the sessions by the addresses of
    their UEs; a UE has a word of IPv4, and the first 64 bits of IPv6. *)
Record ue_hashes := UeHashes { ipv4_hash : gmap Z nat; ipv6_hash : gmap (Z * Z) nat }.
Definition upf_sess_find_by_ipv4 (self : ue_hashes) (addr : Z) : M trie_mem (option nat) :=
  match ipv4_hash self !! addr with
  | Some ret => mret (Some ret)
  | None => find_framed_route true [addr]
  end.
Definition upf_sess_find_by_ipv6 (self : ue_hashes) (addr6 : list Z) : M trie_mem (option nat) :=
  match ipv6_hash self !! (nth 0 addr6 0%Z, nth 1 addr6 0%Z) with
  | Some ret => mret (Some ret)
  | None => find_framed_route false addr6
  end.

(** [free_upf_route_trie_node]; a trie is not deeper than an address. *)
Fixpoint free_upf_route_trie_node (depth : nat) (node : option positive) : M trie_mem unit :=
  match node, depth with
  | None, _ => mret tt
  | Some _, O => m_fail
  | Some n, S depth =>
      x ← tnode_get n;
      free_upf_route_trie_node depth (left x);;
      free_upf_route_trie_node depth (right x);;
      tnode_free n
  end.
Definition route_tries_final : M trie_mem unit :=
  r4 ← slot_get (ROOT true);
  free_upf_route_trie_node (S (family_bits false)) r4;;
  r6 ← slot_get (ROOT false);
  free_upf_route_trie_node (S (family_bits false)) r6.

(** ** The routes of a session *)

Definition OGS_MAX_NUM_OF_FRAMED_ROUTES_IN_PDI : nat := 8.
(** [sess->ipv4_framed_routes]: null or an array, whose entries have no family
    where they are zero. *)
Abbreviation route_array := (option (list (option ogs_ipsubnet_t))).

(** The first loop of the setters over the entries from [i] on: the entries
    that are removed are cleared for IPv4 and remain for IPv6. *)
Fixpoint clear_routes (clear : bool) (routes : list (option ogs_ipsubnet_t)) : M trie_mem (list (option ogs_ipsubnet_t)) :=
  match routes with
  | Some r :: routes =>
      free_framed_route_from_trie r;;
      routes ← clear_routes clear routes;
      mret ((if clear then None else Some r) :: routes)
  | _ => mret routes
  end.
(** The second loop over what the texts parse to; [j] counts the entries. *)
Fixpoint install_routes (sess : nat) (parsed : list (option ogs_ipsubnet_t)) (routes : route_array) (j : nat) :
    M trie_mem (route_array * nat) :=
  match parsed with
  | [] => mret (routes, j)
  | p :: parsed =>
      let array := default (replicate OGS_MAX_NUM_OF_FRAMED_ROUTES_IN_PDI None) routes in
      match p with
      | None => install_routes sess parsed (Some (<[j := None]> array)) j
      | Some r =>
          add_framed_route_to_trie r sess;;
          install_routes sess parsed (Some (<[j := Some r]> array)) (S j)
      end
  end.
Definition set_framed_routes (clear : bool) (sess : nat) (framed_routes : list (option ogs_ipsubnet_t)) (routes : route_array) :
    M trie_mem route_array :=
  routes ← match routes with
           | Some array => array ← clear_routes clear array; mret (Some array)
           | None => mret None
           end;
  '(routes, j) ← install_routes sess (take OGS_MAX_NUM_OF_FRAMED_ROUTES_IN_PDI framed_routes) routes 0;
  mret (if j =? 0 then None else routes).
Definition upf_sess_set_ue_ipv4_framed_routes : nat → list (option ogs_ipsubnet_t) → route_array → M trie_mem route_array :=
  set_framed_routes true.
Definition upf_sess_set_ue_ipv6_framed_routes : nat → list (option ogs_ipsubnet_t) → route_array → M trie_mem route_array :=
  set_framed_routes false.

(** [check_framed_routes] of src/upf/gtp-path.c: a source address of an uplink
    packet against the entries from one on. *)
Fixpoint check_loop (inet : bool) (routes : list (option ogs_ipsubnet_t)) (addr : list Z) : bool :=
  match routes with
  | Some r :: routes =>
      if bool_decide (take (if inet then 1 else 4) (sub r) = take (if inet then 1 else 4) (zip_with Z.land addr (mask r))) then true
      else check_loop inet routes addr
  | _ => false
  end.
Definition check_framed_routes (inet : bool) (routes : route_array) (addr : list Z) : bool :=
  match routes with None => false | Some array => check_loop inet array addr end.

(** 10.1.0.0/16 of session 1 in 10.0.0.0/8 of session 0. *)
Example routes_example :
  let net a b c d := le_value [a; b; c; d] in
  let r8 := Ipsubnet true [net 10 0 0 0; 0; 0; 0]%Z [net 255 0 0 0; 0; 0; 0]%Z in
  let r16 := Ipsubnet true [net 10 1 0 0; 0; 0; 0]%Z [net 255 255 0 0; 0; 0; 0]%Z in
  let find addr := find_framed_route true [addr] in
  option_map fst ((add_framed_route_to_trie r8 0;; add_framed_route_to_trie r16 1;;
    a ← find (net 10 1 2 3)%Z; b ← find (net 10 2 2 3)%Z; c ← find (net 11 2 2 3)%Z;
    free_framed_route_from_trie r8;; d ← find (net 10 2 2 3)%Z; e ← find (net 10 1 2 3)%Z;
    free_framed_route_from_trie r16;; s ← m_gets (λ s, size (trie_nodes s));
    mret (a, b, c, (d, e, s))) trie_mem_init) = Some (Some 1, Some 0, None, (None, Some 1, 0)).
Proof. by vm_compute. Qed.

(** ** ogs_ipsubnet of lib/core/ogs-sockaddr.c

    The text of a route, or of a subnet and of the ends of its ranges in the
    configuration.  [inet_pton] is that of the C library: for each family the
    words of an address, or None; it leaves the destination alone then.  The
    structure is not cleared before: [old] are the words that were in it. *)
Section ipsubnet.
Local Open Scope Z_scope.
Variables inet_pton6 inet_pton4 : list Z → option (list Z).

Definition looks_like_ip (ipstr : list Z) : bool :=
  match ipstr with
  | [] => false
  | _ => existsb (Z.eqb 0x3a) ipstr || forallb (λ c, (c =? 0x2e) || Conv.isdigit c) ipstr
  end.

(** [strtol(str, &endptr, 10)], and whether [*endptr] is the end of the text. *)
Definition strtol10 (str : list Z) : Z * bool :=
  let s := Conv.skip_space str in
  let '(neg, s) := match s with c :: r => if c =? 0x2d then (true, r) else if c =? 0x2b then (false, r) else (false, s) | [] => (false, s) end in
  match s with
  | c :: _ =>
      if Conv.isdigit c then
        let '(v, rest) := Conv.digits_value 10 0 s in
        (Z.max (- 2 ^ 63) (Z.min (2 ^ 63 - 1) (if (neg : bool) then - v else v)), bool_decide (rest = []))
      else (0, false)
  | [] => (0, bool_decide (str = []))
  end.
(** [atoi]: the long as an int. *)
Definition atoi (str : list Z) : Z := (fst (strtol10 str) + 2 ^ 31) mod 2 ^ 32 - 2 ^ 31.

(** [while (isdigit( *t)) ++t;] *)
Fixpoint skip_digits (s : list Z) : list Z * list Z :=
  match s with
  | c :: r => if Conv.isdigit c then let '(digits, rest) := skip_digits r in (c :: digits, rest) else ([], s)
  | [] => ([], [])
  end.
(** The loop over the octets, each of which takes a character at least. *)
Fixpoint parse_network_loop (fuel : nat) (s : list Z) (shift sub mask : Z) : option (Z * Z) :=
  match fuel, s with
  | _, [] => Some (sub, mask)
  | O, _ => None
  | S fuel, _ =>
      let '(digits, rest) := skip_digits s in
      if bool_decide (digits = []) then None
      else
        s ← match rest with c :: r => if c =? 0x2e then Some r else None | [] => Some [] end;
        if shift <? 0 then None
        else
          let octet := atoi digits in
          if (octet <? 0) || (255 <? octet) then None
          else parse_network_loop fuel s (shift - 8) (Z.lor sub (Z.shiftl octet shift)) (Z.lor mask (Z.shiftl 0xff shift))
  end.
Definition parse_network (network : list Z) : option (Z * Z) :=
  if (length network <? 16)%nat then
    '(sub, mask) ← parse_network_loop (length network) network 24 0 0; Some (bswap 4 sub, bswap 4 mask)
  else None.

Definition IN6_IS_ADDR_V4MAPPED (w : list Z) : bool := bool_decide (take 3 w = [0; 0; bswap 4 0xffff]).
(** The family, the words of the address and of the mask. *)
Definition all_ones : list Z := replicate 4 0xffffffff.
Definition parse_ip (old ipstr : list Z) (network_allowed : bool) : option (bool * list Z * list Z) :=
  match inet_pton6 ipstr with
  | Some w => if IN6_IS_ADDR_V4MAPPED w then None else Some (false, w, all_ones)
  | None =>
      match inet_pton4 ipstr with
      | Some w => Some (true, w ++ drop 1 old, all_ones)
      | None =>
          if network_allowed then
            '(s, m) ← parse_network ipstr; Some (true, s :: drop 1 old, m :: drop 1 all_ones)
          else None
      end
  end.

(** The loop [while (bits)]: [cur_bit_value] is an int32_t, which [/= 2] takes
    from the smallest to -1. *)
Fixpoint mask_bits (bits : nat) (cur_bit_value word : Z) : Z :=
  match bits with
  | O => word
  | S bits => mask_bits bits (Z.quot cur_bit_value 2) (Z.lor word (cur_bit_value mod 2 ^ 32))
  end.
(** The loop [while (bits > 32)] over the [n] words that are left. *)
Fixpoint mask_words (n : nat) (bits : Z) : list Z :=
  match n with
  | O => []
  | S n =>
      if 32 <? bits then 0xffffffff :: mask_words n (bits - 32)
      else bswap 4 (mask_bits (Z.to_nat bits) (- 2 ^ 31) 0) :: replicate n 0
  end.

Definition ogs_ipsubnet (old ipstr : list Z) (mask_or_numbits : option (list Z)) : option ogs_ipsubnet_t :=
  if negb (looks_like_ip ipstr) then None
  else
    '(inet, sub, mask) ← parse_ip old ipstr (bool_decide (mask_or_numbits = None));
    mask ← match mask_or_numbits with
      | None => Some mask
      | Some m =>
          let '(bits, at_end) := strtol10 m in
          if (at_end : bool) && (0 <? bits) && (bits <=? (if (inet : bool) then 32 else 128)) then Some (mask_words 4 bits)
          else w ← inet_pton4 m; if inet then Some (w ++ drop 1 mask) else None
      end;
    Some (Ipsubnet inet (zip_with Z.land sub mask) mask).
End ipsubnet.
