(* ===== verification/RouteTrie.v ===== *)
(** * The tries of the UPF as trees

    A trie in the memory of nodes stands for a tree without names.  A tree
    whose nodes have names lies at a slot of the memory; each function of
    Routes.v that changes a trie turns it into the tree that is computed
    here, frees exactly the nodes that it drops, and keeps the rest of the
    memory. *)
From S2P Require Import Prelude XactBase Octets Routes.

(** ** Trees *)

Inductive tree := E | T (l r : tree) (s : option nat).
Definition empty_node (t : tree) : tree * tree * option nat :=
  match t with E => (E, E, None) | T l r s => (l, r, s) end.
(** A node that has neither a session nor children is not kept. *)
Definition node_or_none (l r : tree) (s : option nat) : tree :=
  match l, r, s with E, E, None => E | _, _, _ => T l r s end.

(** The session at the end of a path. *)
Fixpoint t_get (path : list bool) (t : tree) : option nat :=
  match t, path with
  | E, _ => None
  | T _ _ s, [] => s
  | T l r _, b :: path => t_get path (if b then r else l)
  end.
Fixpoint t_add (path : list bool) (s : nat) (t : tree) : tree :=
  let '(l, r, s0) := empty_node t in
  match path with
  | [] => T l r (Some s)
  | true :: path => T l (t_add path s r) s0
  | false :: path => T (t_add path s l) r s0
  end.
Fixpoint t_del (path : list bool) (t : tree) : tree :=
  match t, path with
  | E, _ => E
  | T l r _, [] => node_or_none l r None
  | T l r s, true :: path => node_or_none l (t_del path r) s
  | T l r s, false :: path => node_or_none (t_del path l) r s
  end.
(** The last session on the way. *)
Fixpoint t_find (addr : list bool) (t : tree) (ret : option nat) : option nat :=
  match t with
  | E => ret
  | T l r s =>
      let ret := match s with Some s => Some s | None => ret end in
      match addr with [] => ret | b :: addr => t_find addr (if b then r else l) ret end
  end.
(** Every node leads to a session. *)
Fixpoint tight (t : tree) : Prop :=
  match t with E => True | T l r s => tight l ∧ tight r ∧ node_or_none l r s ≠ E end.
(** No session is deeper than [n]. *)
Fixpoint depth_le (n : nat) (t : tree) {struct t} : Prop :=
  match t, n with E, _ => True | T l r _, S n => depth_le n l ∧ depth_le n r | T _ _ _, O => False end.
Fixpoint t_size (t : tree) : nat := match t with E => 0 | T l r _ => S (t_size l + t_size r) end.

Lemma node_or_none_get l r s path : t_get path (node_or_none l r s) = t_get path (T l r s).
Proof. destruct l, r, s; try done. by destruct path as [|[] [|??]]. Qed.
Lemma t_get_E path : t_get path E = None.
Proof. by destruct path. Qed.
Lemma node_or_none_tight l r s : tight l → tight r → tight (node_or_none l r s).
Proof. intros. by destruct l, r, s. Qed.

Lemma t_get_add path s t q : t_get q (t_add path s t) = if decide (q = path) then Some s else t_get q t.
Proof.
  revert t q. induction path as [|b path IH]; intros t q.
  - destruct t, q as [|[] q]; cbn [t_get t_add empty_node]; rewrite ?t_get_E; repeat case_decide; try done.
  - destruct t as [|l r s0], b, q as [|[] q]; cbn; rewrite ?t_get_E, ?IH, ?t_get_E;
      repeat case_decide; naive_solver.
Qed.
Lemma t_get_del path t q : t_get q (t_del path t) = if decide (q = path) then None else t_get q t.
Proof.
  revert t q. induction path as [|b path IH]; intros [|l r s] q; cbn [t_del]; rewrite ?t_get_E;
    try (by case_decide).
  - rewrite node_or_none_get. destruct q as [|b q]; cbn; [done|]. by rewrite decide_False.
  - destruct b; rewrite node_or_none_get; destruct q as [|[] q]; cbn; rewrite ?IH; repeat case_decide; naive_solver.
Qed.

Lemma t_add_node path s t : t_add path s t ≠ E.
Proof. destruct path as [|[] ?], t; done. Qed.
Lemma node_or_none_child l r s : l ≠ E ∨ r ≠ E → node_or_none l r s ≠ E.
Proof. by destruct l, r, s; intros [|]. Qed.
Lemma t_add_tight path s t : tight t → tight (t_add path s t).
Proof.
  revert t. induction path as [|b path IH]; intros [|l r s0]; cbn; [by intros _|by intros (?&?&?); destruct l, r|..].
  - intros _. destruct b; cbn [tight]; split_and!; try done; try (by apply IH); apply node_or_none_child; auto using t_add_node.
  - intros (Hl & Hr & Hn). destruct b; cbn [tight]; split_and!; try done; try (by apply IH); apply node_or_none_child; auto using t_add_node.
Qed.
Lemma t_del_tight path t : tight t → tight (t_del path t).
Proof.
  revert t. induction path as [|[] path IH]; intros [|l r s]; cbn [t_del tight]; try done;
    intros (?&?&?); apply node_or_none_tight; auto.
Qed.
Lemma node_or_none_depth n l r s : depth_le n l → depth_le n r → depth_le (S n) (node_or_none l r s).
Proof. intros. by destruct l, r, s. Qed.
Lemma depth_mono n m t : n ≤ m → depth_le n t → depth_le m t.
Proof.
  revert n m. induction t as [|l IHl r IHr s]; intros n m Hnm; [done|]. destruct n; [done|]. destruct m; [lia|].
  cbn. intros [??]. split; [by apply (IHl n); [lia|]|by apply (IHr n); [lia|]].
Qed.
Lemma t_add_depth path s t n : length path < n → depth_le n t → depth_le n (t_add path s t).
Proof.
  revert n t. induction path as [|b path IH]; intros [|n] [|l r s0] Hn; cbn in *; try lia; try done;
    destruct b; cbn; try (intros [??]); (split; [..]); try done; apply IH; try done; lia.
Qed.
Lemma t_del_depth path t n : depth_le n t → depth_le n (t_del path t).
Proof.
  revert n t. induction path as [|[] path IH]; intros [|n] [|l r s]; cbn [t_del depth_le]; try done;
    intros [??]; apply node_or_none_depth; auto.
Qed.
(** A tree without sessions has no nodes. *)
Lemma tight_empty t : tight t → (∀ q, t_get q t = None) → t = E.
Proof.
  induction t as [|l IHl r IHr s]; [done|]. intros (Hl & Hr & Hn) Hg. exfalso. apply Hn.
  rewrite (IHl Hl (λ q, Hg (false :: q))), (IHr Hr (λ q, Hg (true :: q))). pose proof (Hg []) as H. cbn in H. by subst.
Qed.

(** *** The longest prefix *)

(** [r] is the session of the longest prefix of [addr] that [get] knows. *)
Definition longest_prefix (get : list bool → option nat) (addr : list bool) (r : option nat) : Prop :=
  match r with
  | Some s => ∃ k, k ≤ length addr ∧ get (take k addr) = Some s ∧ ∀ k', k < k' ≤ length addr → get (take k' addr) = None
  | None => ∀ k, k ≤ length addr → get (take k addr) = None
  end.

Lemma longest_prefix_unique get addr r r' : longest_prefix get addr r → longest_prefix get addr r' → r = r'.
Proof.
  destruct r as [s|], r' as [s'|]; cbn; [|by intros (k & ? & ? & _) HN; specialize (HN k); naive_solver|by intros HN (k & ? & ? & _); specialize (HN k); naive_solver|done].
  intros (k & Hk & Hs & Hmax) (k' & Hk' & Hs' & Hmax'). assert (k = k') as ->; [|congruence].
  destruct (lt_eq_lt_dec k k') as [[?|?]|?]; [|done|].
  - rewrite Hmax in Hs'; [done|lia].
  - rewrite Hmax' in Hs; [done|lia].
Qed.

Lemma t_find_longest addr t ret :
  (∃ r, longest_prefix (λ q, t_get q t) addr r ∧ t_find addr t ret = match r with Some s => Some s | None => ret end).
Proof.
  revert t ret. induction addr as [|b addr IH]; intros [|l r s] ret; cbn [t_find].
  - exists None. split; [|done]. intros k _. apply t_get_E.
  - exists s. split; [|done]. destruct s as [s|]; cbn.
    + exists 0. split_and!; [done|done|lia].
    + intros k ?. by replace k with 0 by lia.
  - exists None. split; [|done]. intros k _. apply t_get_E.
  - destruct (IH (if b then r else l) (match s with Some s => Some s | None => ret end)) as (r' & H & ->).
    destruct r' as [s'|].
    + exists (Some s'). split; [|done]. destruct H as (k & Hk & Hs & Hmax). exists (S k). cbn [length] in *.
      split_and!; [lia|done|]. intros [|k'] ?; [lia|]. apply (Hmax k'). lia.
    + exists s. split; [|by destruct s]. destruct s as [s|]; cbn [longest_prefix].
      * exists 0. split_and!; [lia|done|]. intros [|k'] Hk'; [lia|]. apply (H k'). cbn in Hk'. lia.
      * intros [|k] Hk; [done|]. apply (H k). cbn in Hk. lia.
Qed.
Corollary find_longest addr t : longest_prefix (λ q, t_get q t) addr (t_find addr t None).
Proof. destruct (t_find_longest addr t None) as (r & H & ->). by destruct r. Qed.

(** ** Trees with names *)

Inductive ltree := LE | LT (n : positive) (l r : ltree) (s : option nat).
Fixpoint erase (t : ltree) : tree := match t with LE => E | LT _ l r s => T (erase l) (erase r) s end.
Definition root (t : ltree) : option positive := match t with LE => None | LT n _ _ _ => Some n end.
Fixpoint names (t : ltree) : list positive := match t with LE => [] | LT n l r _ => n :: names l ++ names r end.
Fixpoint holds (h : gmap positive upf_route_trie_node) (t : ltree) : Prop :=
  match t with
  | LE => True
  | LT n l r s => h !! n = Some (TrieNode (root l) (root r) s) ∧ holds h l ∧ holds h r
  end.

Implicit Types (st : trie_mem) (p : slot) (t : ltree).

(** What is in a slot, and writing it. *)
Definition slot_val st p : option (option positive) :=
  match p with
  | ROOT inet => Some (if inet then root4 st else root6 st)
  | LEFT n => left <$> trie_nodes st !! n
  | RIGHT n => right <$> trie_nodes st !! n
  end.
Definition put_slot st p (v : option positive) : trie_mem :=
  match p with
  | ROOT true => TrieMem (trie_nodes st) v (root6 st)
  | ROOT false => TrieMem (trie_nodes st) (root4 st) v
  | LEFT n => TrieMem (alter (λ x, TrieNode v (right x) (n_sess x)) n (trie_nodes st)) (root4 st) (root6 st)
  | RIGHT n => TrieMem (alter (λ x, TrieNode (left x) v (n_sess x)) n (trie_nodes st)) (root4 st) (root6 st)
  end.
Definition owner p : list positive := match p with ROOT _ => [] | LEFT n | RIGHT n => [n] end.
Definition roots st : option positive * option positive := (root4 st, root6 st).

(** [t] is at [p]. *)
Definition at_slot st p t : Prop :=
  slot_val st p = Some (root t) ∧ holds (trie_nodes st) t ∧ NoDup (owner p ++ names t).

(** From [t] at [p] in [st] to [t'] in [st'], with nothing else changed. *)
Record step st p t st' t' : Prop := {
  s_at : at_slot st' p t';
  s_roots : roots st' = roots (put_slot st p (root t'));
  s_frame : ∀ n, n ∉ names t → n ∉ names t' → trie_nodes st' !! n = trie_nodes (put_slot st p (root t')) !! n;
  s_freed : ∀ n, n ∈ names t → n ∉ names t' → trie_nodes st' !! n = None;
  s_fresh : ∀ n, n ∉ names t → n ∈ names t' → trie_nodes st !! n = None }.

Lemma holds_ext h h' t : (∀ n, n ∈ names t → h' !! n = h !! n) → holds h t → holds h' t.
Proof.
  induction t as [|n l IHl r IHr s]; [done|]. cbn. intros He (Hn & Hl & Hr). split_and!.
  - rewrite He; [done|by left].
  - apply IHl; [|done]. intros. apply He. set_solver.
  - apply IHr; [|done]. intros. apply He. set_solver.
Qed.
Lemma holds_dom h t n : holds h t → n ∈ names t → is_Some (h !! n).
Proof.
  induction t as [|m l IHl r IHr s]; cbn; [by intros _ ?%elem_of_nil|]. intros (Hm & Hl & Hr) [->|[?|?]%elem_of_app]%elem_of_cons; eauto.
Qed.

Lemma put_slot_other st p v n : n ∉ owner p → trie_nodes (put_slot st p v) !! n = trie_nodes st !! n.
Proof. destruct p as [[]|m|m]; cbn; [done..| |]; intros Hn; rewrite lookup_alter_ne; set_solver. Qed.
Lemma put_slot_same st p v : slot_val st p = Some v → put_slot st p v = st.
Proof.
  destruct st as [h r4 r6], p as [[]|m|m]; cbn; [by intros [= ->]..| |];
    intros Hv; f_equal; apply map_eq; intros n; destruct (decide (n = m)) as [->|];
    rewrite ?lookup_alter_eq, ?lookup_alter_ne by done; try done;
    destruct (h !! m) as [[]|]; cbn in *; naive_solver.
Qed.
Lemma put_slot_twice st p v v' : put_slot (put_slot st p v) p v' = put_slot st p v'.
Proof.
  destruct st as [h r4 r6], p as [[]|m|m]; cbn; try done; f_equal; apply map_eq; intros n;
    destruct (decide (n = m)) as [->|]; rewrite ?lookup_alter_eq, ?lookup_alter_ne by done; try done;
    by destruct (h !! m) as [[]|].
Qed.
Lemma put_slot_val st p v : is_Some (slot_val st p) → slot_val (put_slot st p v) p = Some v.
Proof.
  destruct st as [h r4 r6], p as [[]|m|m]; cbn; try done; rewrite lookup_alter_eq; destruct (h !! m) as [[]|]; cbn; naive_solver.
Qed.
Lemma roots_put_twice st p v v' : roots (put_slot (put_slot st p v) p v') = roots (put_slot st p v').
Proof. by rewrite put_slot_twice. Qed.

Lemma at_slot_owner st p t n : at_slot st p t → n ∈ owner p → is_Some (trie_nodes st !! n).
Proof. intros (Hv & _ & _). destruct p as [?|m|m]; cbn in *; [set_solver| |]; destruct (trie_nodes st !! m) eqn:E; set_solver. Qed.

(** ** Steps *)

Definition child_slot (b : bool) (n : positive) : slot := if b then RIGHT n else LEFT n.
Definition child (b : bool) (l r : ltree) : ltree := if b then r else l.
Definition with_child (b : bool) (n : positive) (l r : ltree) (s : option nat) (c : ltree) : ltree :=
  if b then LT n l c s else LT n c r s.

Lemma at_child b st p n l r s : at_slot st p (LT n l r s) → at_slot st (child_slot b n) (child b l r).
Proof.
  intros (_ & (Hn & Hl & Hr) & Hnd). names_in Hnd.
  destruct b; split_and!; cbn; rewrite ?Hn; try done; constructor; done.
Qed.

Lemma step_trans st1 st2 st3 p t1 t2 t3 : at_slot st1 p t1 → step st1 p t1 st2 t2 → step st2 p t2 st3 t3 → step st1 p t1 st3 t3.
Proof.
  intros H1 [A2 R2 F2 X2 N2] [A3 R3 F3 X3 N3].
  assert (Hp : ∀ n v v', trie_nodes st2 !! n = trie_nodes (put_slot st1 p v) !! n →
    trie_nodes (put_slot st2 p v') !! n = trie_nodes (put_slot st1 p v') !! n).
  { intros n v v' E. destruct (decide (n ∈ owner p)) as [Ho|Ho]; [|by rewrite put_slot_other in E by done; rewrite !put_slot_other by done].
    rewrite <- (put_slot_twice st1 p v v'). destruct p as [?|m|m]; cbn in *; [set_solver| |];
      apply list_elem_of_singleton in Ho as ->; rewrite !lookup_alter_eq; rewrite !lookup_alter_eq in E; by rewrite E. }
  split; [done|..].
  - rewrite R3. destruct st1 as [h1 a1 b1], st2 as [h2 a2 b2], p as [[]|m|m]; cbn in *; unfold roots in *; cbn in *; congruence.
  - intros n H1' H3'. destruct (decide (n ∈ names t2)) as [H2'|H2'].
    + rewrite X3 by done. rewrite put_slot_other; [by rewrite N2|]. intros Ho.
      destruct (at_slot_owner _ _ _ _ H1 Ho) as [? E]. by rewrite N2 in E.
    + rewrite F3 by done. by eapply Hp, F2.
  - intros n H1' H3'. destruct (decide (n ∈ names t2)); [by apply X3|]. rewrite F3 by done.
    rewrite put_slot_other; [by apply X2|]. destruct H1 as (_ & _ & Hnd). apply NoDup_app in Hnd as (_ & Hd & _).
    intros Ho. by eapply Hd.
  - intros n H1' H3'. destruct (decide (n ∈ names t2)); [by apply N2|].
    pose proof (N3 n) as E. rewrite F2 in E by done. rewrite put_slot_other in E; [by apply E|].
    destruct A3 as (_ & _ & Hnd). apply NoDup_app in Hnd as (_ & Hd & _). intros Ho. by eapply Hd.
Qed.

Lemma step_child b st st' p n l r s c : at_slot st p (LT n l r s) →
  step st (child_slot b n) (child b l r) st' c → step st p (LT n l r s) st' (with_child b n l r s c).
Proof.
  intros Hat [A R F X N]. pose proof Hat as (Hv & (Hn & Hl & Hr) & Hnd).
  assert (Hroot : root (with_child b n l r s c) = Some n) by by destruct b.
  assert (Hc : n ∉ names c).
  { destruct A as (_ & _ & Hnd'). intros Hin. apply NoDup_app in Hnd' as (_ & Hd & _). by eapply (Hd n); [destruct b; left|]. }
  assert (Hold : n ∉ names (child b l r)) by (names_in Hnd; by destruct b).
  assert (Hother : ∀ m, is_Some (trie_nodes st !! m) → m ≠ n → m ∉ names (child b l r) →
    (m ∉ names c) ∧ trie_nodes st' !! m = trie_nodes st !! m).
  { intros m Hm Hmn Hmc. assert (m ∉ names c) by (intros Hin; destruct Hm as [? E]; by rewrite N in E).
    split; [done|]. rewrite F by done. rewrite put_slot_other; [done|]. by destruct b; cbn; set_solver. }
  assert (Hnode : trie_nodes st' !! n = Some (if b then TrieNode (root l) (root c) s else TrieNode (root c) (root r) s)).
  { rewrite F by done. destruct b; cbn; by rewrite lookup_alter_eq, Hn. }
  assert (Hroots : roots st' = roots st) by (rewrite R; by destruct b).
  pose proof (λ m, holds_dom _ _ m Hl) as Dl. pose proof (λ m, holds_dom _ _ m Hr) as Dr.
  pose proof A as (_ & Hhc & Hndc). names_in Hnd.
  split.
  - split_and!.
    + rewrite Hroot. destruct p as [inet|m|m]; cbn in *.
      * rewrite <- Hv. unfold roots in Hroots. destruct inet; congruence.
      * destruct (trie_nodes st !! m) as [y|] eqn:Ey; [|done].
        destruct (Hother m) as [_ E]; [by rewrite Ey|set_solver|destruct b; set_solver|]. by rewrite E, Ey.
      * destruct (trie_nodes st !! m) as [y|] eqn:Ey; [|done].
        destruct (Hother m) as [_ E]; [by rewrite Ey|set_solver|destruct b; set_solver|]. by rewrite E, Ey.
    + destruct b; cbn in *; (split; [done|]); split; try done.
      * eapply holds_ext, Hl. intros m Hm. apply Hother; [by apply Dl|set_solver|names].
      * eapply holds_ext, Hr. intros m Hm. apply Hother; [by apply Dr|set_solver|names].
    + assert (Hdis : ∀ m, m ∈ names c → m ∈ owner p → False).
      { intros m Hmc Hmo. assert (m ∉ names (child b l r)) by (destruct b; set_solver).
        destruct (at_slot_owner _ _ _ _ Hat Hmo) as [? E]. by rewrite N in E. }
      assert (Hdis2 : ∀ m, m ∈ names c → m ∈ names (child (negb b) l r) → False).
      { intros m Hmc Hmo. assert (m ∉ names (child b l r)) by (destruct b; cbn in *; names).
        assert (is_Some (trie_nodes st !! m)) as [? E] by (destruct b; [by apply Dl|by apply Dr]). by rewrite N in E. }
      apply NoDup_app in Hndc as (_ & _ & Hndc).
      destruct b; cbn in *; nodup; try done; try (intros m Hm1 Hm2; by eapply Hdis); try (intros m Hm1 Hm2; by eapply Hdis2).
  - rewrite Hroot, put_slot_same by done. done.
  - intros m Hm1 Hm2. rewrite Hroot, put_slot_same by done.
    assert ((m ∉ names (child b l r)) ∧ (m ∉ names c) ∧ m ≠ n) as (? & ? & ?) by (destruct b; cbn in *; set_solver).
    rewrite F by done. apply put_slot_other. destruct b; cbn; set_solver.
  - intros m Hm1 Hm2. apply X; destruct b; cbn in *; set_solver.
  - intros m Hm1 Hm2. apply N; destruct b; cbn in *; set_solver.
Qed.

Lemma step_set st p n l r s v : at_slot st p (LT n l r s) →
  step st p (LT n l r s) (TrieMem (<[n := TrieNode (root l) (root r) v]> (trie_nodes st)) (root4 st) (root6 st)) (LT n l r v).
Proof.
  intros Hat. pose proof Hat as (Hv & (Hn & Hl & Hr) & Hnd).
  assert (Ho : n ∉ owner p) by (apply NoDup_app in Hnd as (_ & Hd & _); intros Hin; by apply (Hd n Hin); left).
  split; cbn [names].
  - split_and!; [| |done].
    + destruct p as [?|m|m]; cbn in *; [done|..]; by rewrite lookup_insert_ne by set_solver.
    + cbn in Hnd. names_in Hnd. cbn. split; [by rewrite lookup_insert_eq|].
      split; (eapply holds_ext; [|done]); intros m Hm; rewrite lookup_insert_ne; names.
  - by rewrite put_slot_same.
  - intros m Hm _. rewrite put_slot_same by done. cbn. rewrite lookup_insert_ne; set_solver.
  - done.
  - done.
Qed.

Lemma step_alloc st p n : at_slot st p LE → trie_nodes st !! n = None →
  step st p LE (put_slot (TrieMem (<[n := TrieNode None None None]> (trie_nodes st)) (root4 st) (root6 st)) p (Some n)) (LT n LE LE None).
Proof.
  intros Hat Hn. pose proof Hat as (Hv & _ & Hnd).
  assert (Ho : n ∉ owner p) by (intros Hin; destruct (at_slot_owner _ _ _ _ Hat Hin) as [? E]; by rewrite Hn in E).
  assert (Hp : ∀ m, m ≠ n → trie_nodes (put_slot (TrieMem (<[n := TrieNode None None None]> (trie_nodes st)) (root4 st) (root6 st)) p (Some n)) !! m =
    trie_nodes (put_slot st p (Some n)) !! m).
  { intros m Hm. destruct p as [[]|k|k]; cbn; rewrite ?lookup_insert_ne by done; try done;
      (destruct (decide (m = k)) as [->|]; [rewrite !lookup_alter_eq|rewrite !lookup_alter_ne by done]; by rewrite lookup_insert_ne by done). }
  split; cbn [names root].
  - split_and!.
    + apply put_slot_val. destruct p as [?|m|m]; cbn in *; [by eexists|..]; rewrite lookup_insert_ne by set_solver; by rewrite Hv.
    + cbn. rewrite put_slot_other by done. cbn. by rewrite lookup_insert_eq.
    + cbn in *. rewrite app_nil_r in Hnd. apply NoDup_app. split_and!; [done|set_solver|apply NoDup_singleton].
  - by destruct p as [[]|?|?].
  - intros m _ Hm. apply Hp. set_solver.
  - intros m Hm. by apply elem_of_nil in Hm.
  - intros m _ Hm. apply list_elem_of_singleton in Hm as ->. done.
Qed.

Lemma step_free st p n s : at_slot st p (LT n LE LE s) →
  step st p (LT n LE LE s) (put_slot (TrieMem (delete n (trie_nodes st)) (root4 st) (root6 st)) p None) LE.
Proof.
  intros Hat. pose proof Hat as (Hv & (Hn & _) & Hnd).
  assert (Ho : n ∉ owner p) by (apply NoDup_app in Hnd as (_ & Hd & _); intros Hin; by apply (Hd n Hin); left).
  assert (Hp : ∀ m, m ≠ n → trie_nodes (put_slot (TrieMem (delete n (trie_nodes st)) (root4 st) (root6 st)) p None) !! m =
    trie_nodes (put_slot st p None) !! m).
  { intros m Hm. destruct p as [[]|k|k]; cbn; rewrite ?lookup_delete_ne by done; try done;
      (destruct (decide (m = k)) as [->|]; [rewrite !lookup_alter_eq|rewrite !lookup_alter_ne by done]; by rewrite lookup_delete_ne by done). }
  split; cbn [names root app].
  - split_and!; [|done|].
    + apply put_slot_val. destruct p as [?|m|m]; cbn in *; [by eexists|..]; rewrite lookup_delete_ne by set_solver; by rewrite Hv.
    + rewrite app_nil_r. by apply NoDup_app in Hnd as [? _].
  - by destruct p as [[]|?|?].
  - intros m Hm _. apply Hp. set_solver.
  - intros m Hm _. apply list_elem_of_singleton in Hm as ->. rewrite put_slot_other by done. apply lookup_delete_eq.
  - intros m _ Hm. by apply elem_of_nil in Hm.
Qed.

(** ** What the accesses do *)

Lemma slot_get_eq st p v : slot_val st p = Some v → slot_get p st = Some (v, st).
Proof.
  destruct p as [inet|n|n]; cbn; [by intros [= <-]|..]; unfold mbind, M_bind, tnode_get;
    destruct (trie_nodes st !! n) as [x|]; cbn; naive_solver.
Qed.
Lemma slot_set_eq st p v : is_Some (slot_val st p) → slot_set p v st = Some (tt, put_slot st p v).
Proof.
  destruct p as [[]|n|n]; cbn; [done..| |]; unfold tnode_upd, mbind, M_bind, tnode_get;
    (destruct (trie_nodes st !! n) as [x|] eqn:E; [|by intros [? ?]]); intros _; unfold m_modify; do 3 f_equal;
    apply map_eq; intros m; (destruct (decide (m = n)) as [->|];
      [by rewrite lookup_insert_eq, lookup_alter_eq, E|by rewrite lookup_insert_ne, lookup_alter_ne]).
Qed.
Lemma node_get_eq st p n l r s : at_slot st p (LT n l r s) → tnode_get n st = Some (TrieNode (root l) (root r) s, st).
Proof. intros (_ & (Hn & _) & _). unfold tnode_get. by rewrite Hn. Qed.
Lemma set_sess_eq st p n l r s v : at_slot st p (LT n l r s) →
  set_sess n v st = Some (tt, TrieMem (<[n := TrieNode (root l) (root r) v]> (trie_nodes st)) (root4 st) (root6 st)).
Proof. intros Hat. unfold set_sess, tnode_upd. rewrite (bind_step _ _ _ _ _ (node_get_eq _ _ _ _ _ _ Hat)). done. Qed.
Lemma calloc_eq st : ∃ n, trie_nodes st !! n = None ∧
  tnode_calloc st = Some (n, TrieMem (<[n := TrieNode None None None]> (trie_nodes st)) (root4 st) (root6 st)).
Proof.
  unfold tnode_calloc, mbind, M_bind, m_get, m_modify, mret, M_ret. eexists. split; [|reflexivity].
  apply not_elem_of_dom, is_fresh.
Qed.

(** ** Adding *)

(** The path of a route from bit [i] on, and the bits of an address. *)
Fixpoint path_from (route : ogs_ipsubnet_t) (nbits k i : nat) : list bool :=
  match k with
  | O => []
  | S k => if word_bit (mask route) nbits i then word_bit (sub route) nbits i :: path_from route nbits k (S i) else []
  end.
Definition route_path (route : ogs_ipsubnet_t) : list bool :=
  let nbits := family_bits (family_inet route) in path_from route nbits nbits 0.
Definition addr_bits (inet : bool) (addr : list Z) : list bool := word_bit addr (family_bits inet) <$> seq 0 (family_bits inet).

Lemma path_from_length route nbits k i : length (path_from route nbits k i) ≤ k.
Proof. revert i. induction k as [|k IH]; intros i; cbn; [lia|]. case_match; cbn; [|lia]. specialize (IH (S i)). lia. Qed.

Lemma add_node st p t sess : at_slot st p t →
  ∃ n l r s st1, step st p t st1 (LT n l r s) ∧ empty_node (erase t) = (erase l, erase r, s) ∧
    (match root t with
     | Some n => mret n
     | None => n ← tnode_calloc; slot_set p (Some n);; mret n
     end) st = Some (n, st1) ∧ erase (LT n l r sess) = T (erase l) (erase r) sess.
Proof.
  intros Hat. destruct t as [|n l r s].
  - destruct (calloc_eq st) as (n & Hn & E). exists n, LE, LE, None. eexists. split; [by apply step_alloc|].
    split_and!; [done| |done]. cbn [root]. rewrite (bind_step _ _ _ _ _ E).
    rewrite (bind_step _ _ _ tt (put_slot (TrieMem (<[n := TrieNode None None None]> (trie_nodes st)) (root4 st) (root6 st)) p (Some n))); [done|].
    apply slot_set_eq. destruct Hat as (Hv & _ & Hnd). destruct p as [inet|m|m]; cbn in *; [by eexists|..];
      (destruct (trie_nodes st !! m) as [x|] eqn:Em; [|done]); rewrite lookup_insert_ne by congruence; by rewrite Em.
  - exists n, l, r, s, st. split_and!; try done. pose proof Hat as (Hv & _).
    split; try done; rewrite put_slot_same; done.
Qed.

Lemma wp_first {S A B} (m : M S A) (f : A → M S B) Q (s : S) a s' : m s = Some (a, s') → wp (f a) Q s' → wp (m ≫= f) Q s.
Proof. intros E H. apply wp_bind. by eapply wp_eq. Qed.

Lemma add_loop_ok turns nbits i route sess p t st : at_slot st p t → turns = S (nbits - i) → i ≤ nbits →
  wp (add_loop turns nbits i route sess p) (λ _ st', ∃ t', step st p t st' t' ∧
    erase t' = t_add (path_from route nbits (nbits - i) i) sess (erase t)) st.
Proof.
  revert i p t st. induction turns as [|turns IH]; intros i p t st Hat Ht Hi; [done|]. cbn [add_loop].
  eapply wp_first; [apply slot_get_eq, Hat|]. destruct (add_node st p t (Some sess) Hat) as (n & l & r & s & st1 & Hs & He & E & _).
  eapply wp_first; [exact E|]. pose proof (s_at _ _ _ _ _ Hs) as Hat1.
  destruct (decide (i = nbits)) as [->|Hne].
  - rewrite Nat.eqb_refl. cbn [orb]. eapply wp_eq; [by eapply set_sess_eq|]. exists (LT n l r (Some sess)).
    split; [eapply step_trans; [done..|by apply step_set]|]. rewrite Nat.sub_diag. cbn [path_from t_add]. by rewrite He.
  - destruct (Nat.eqb_spec i nbits); [done|]. cbn [orb]. replace (nbits - i) with (S (nbits - S i)) by lia. cbn [path_from].
    destruct (word_bit (mask route) nbits i); cbn [negb].
    + set (b := word_bit (sub route) nbits i).
      replace (if b then RIGHT n else LEFT n) with (child_slot b n) by done.
      eapply wp_mono; [apply (IH (S i) _ (child b l r)); [by eapply at_child|lia|lia]|].
      intros ? st2 (c & Hc & Ec). exists (with_child b n l r s c). split; [eapply step_trans; [done..|by apply step_child]|].
      cbn [t_add]. rewrite He. by destruct b; cbn in *; rewrite Ec.
    + eapply wp_eq; [by eapply set_sess_eq|]. exists (LT n l r (Some sess)).
      split; [eapply step_trans; [done..|by apply step_set]|]. cbn [t_add]. by rewrite He.
Qed.

(** ** Removing *)

Lemma step_refl st p t : at_slot st p t → step st p t st t.
Proof. intros Hat. pose proof Hat as (Hv & _). by split; try rewrite put_slot_same. Qed.

Lemma free_back_app ps ps' Q st : wp (free_back ps) (λ _ st', wp (free_back ps') Q st') st → wp (free_back (ps ++ ps')) Q st.
Proof.
  revert st. induction ps as [|p ps IH]; intros st; [done|]. cbn [free_back app]. unfold wp, mbind, M_bind.
  destruct (slot_get p st) as [[[n|] st1]|]; cbn; try done. destruct (tnode_free n st1) as [[? st2]|]; [|done].
  destruct (slot_set p None st2) as [[? st3]|]; [|done]. apply IH.
Qed.
Lemma free_back_one st p n s : at_slot st p (LT n LE LE s) →
  wp (free_back [p]) (λ _ st', step st p (LT n LE LE s) st' LE) st.
Proof.
  intros Hat. pose proof Hat as (Hv & (Hn & _) & Hnd). pose proof (step_free _ _ _ _ Hat) as Hs.
  cbn [free_back]. eapply wp_first; [by apply slot_get_eq|]. cbn [root]. eapply wp_first; [done|].
  eapply wp_first; [unfold tnode_free, tnode_get, mbind, M_bind; rewrite Hn; reflexivity|].
  eapply wp_first; [apply slot_set_eq|by apply wp_ret].
  assert (Ho : n ∉ owner p) by (apply NoDup_app in Hnd as (_ & Hd & _); intros Hin; by apply (Hd n Hin); left).
  destruct p as [?|m|m]; cbn in *; [by eexists|..]; rewrite lookup_delete_ne by set_solver;
    (destruct (trie_nodes st !! m); [by eexists|done]).
Qed.

(** What is left of the nodes on the way: [f] is [free_from] before and [f']
    after bit [i] was looked at. *)
Definition freed_from (f f' i : nat) (us : list slot) : list slot := rev (drop (if decide (f' = f) then 0 else f' - i) us).
Definition del_post (path : list bool) st p t (f i : nat) (ts : list slot) : list slot * nat → trie_mem → Prop :=
  λ '(ts', f') st1, ∃ us, ts' = ts ++ us ∧
    ((f' = f ∧ t_del path (erase t) = E) ∨ (i < f' ∧ t_del path (erase t) ≠ E)) ∧
    wp (free_back (freed_from f f' i us)) (λ _ st2, ∃ t', step st p t st2 t' ∧ erase t' = t_del path (erase t)) st1.

Lemma del_end st p n l r s f i ts : at_slot st p (LT n l r s) → f ≤ i →
  wp (set_sess n None;; mret (ts ++ [p], if bool_decide (is_Some (root l)) || bool_decide (is_Some (root r)) then i + 1 else f))
    (del_post [] st p (LT n l r s) f i ts) st.
Proof.
  intros Hat Hf. eapply wp_first; [by eapply set_sess_eq|]. apply wp_ret. pose proof (step_set _ _ _ _ _ _ None Hat) as Hs.
  exists [p]. split; [done|]. cbn [erase t_del].
  destruct (bool_decide (is_Some (root l)) || bool_decide (is_Some (root r))) eqn:E.
  - assert (Hn : node_or_none (erase l) (erase r) None = T (erase l) (erase r) None) by (destruct l, r; done).
    rewrite Hn. split; [right; split; [lia|done]|]. unfold freed_from. rewrite decide_False by lia. replace (i + 1 - i) with 1 by lia.
    by exists (LT n l r None).
  - destruct l, r; try done. split; [by left|]. unfold freed_from. rewrite decide_True by done.
    eapply wp_mono; [eapply free_back_one, Hs|]. intros ? st2 H2. exists LE. split; [|done]. by eapply step_trans.
Qed.

Lemma del_node b st p n l r s f i ts path us f' st1 : at_slot st p (LT n l r s) → f ≤ i →
  let c := child b l r in
  let f1 := if bool_decide (is_Some (root (child (negb b) l r))) || bool_decide (is_Some s) then i + 1 else f in
  del_post path st (child_slot b n) c f1 (S i) (ts ++ [p]) ((ts ++ [p]) ++ us, f') st1 →
  del_post (b :: path) st p (LT n l r s) f i ts ((ts ++ [p]) ++ us, f') st1.
Proof.
  intros Hat Hf c f1 (us' & Hus & Hcase & Hw). apply app_inv_head in Hus as <-. exists (p :: us). split; [by rewrite <- app_assoc|].
  set (c2 := t_del path (erase c)) in *.
  assert (Hd : t_del (b :: path) (erase (LT n l r s)) =
    if b then node_or_none (erase l) c2 s else node_or_none c2 (erase r) s) by (by destruct b).
  assert (Hstep : ∀ st2 t', step st (child_slot b n) c st2 t' → erase t' = c2 →
    step st p (LT n l r s) st2 (with_child b n l r s t') ∧ erase (with_child b n l r s t') = if b then T (erase l) c2 s else T c2 (erase r) s).
  { intros st2 t' H2 E2. split; [by apply step_child|]. destruct b; cbn; by rewrite E2. }
  assert (Hkeep : c2 ≠ E ∨ f1 = i + 1 → (if b then node_or_none (erase l) c2 s else node_or_none c2 (erase r) s) =
    if b then T (erase l) c2 s else T c2 (erase r) s).
  { unfold f1. intros [Hc|Hc]; [by destruct b, l, r, s, c2|].
    destruct (bool_decide (is_Some (root _)) || bool_decide (is_Some s)) eqn:Eb; [|lia]. by destruct b, l, r, s, c2. }
  rewrite Hd. destruct (decide (f1 = i + 1)) as [H1|H1].
  - rewrite Hkeep by auto. assert (i < f') by lia.
    split; [right; split; [done|by destruct b]|]. unfold freed_from in *. rewrite (decide_False (P := f' = f)) by lia.
    replace (f' - i) with (S (f' - S i)) by lia. cbn [drop].
    assert ((if decide (f' = f1) then 0 else f' - S i) = f' - S i) as Hx by (case_decide; lia). rewrite Hx in Hw.
    eapply wp_mono; [exact Hw|]. intros ? st2 (t' & H2 & E2). destruct (Hstep _ _ H2 E2). eauto.
  - assert (f1 = f) as Hff by (unfold f1 in *; by destruct (_ || _)). rewrite Hff in *. destruct Hcase as [[-> Hc]|[Hlt Hc]].
    + assert (Hnone : root (child (negb b) l r) = None ∧ s = None).
      { unfold f1 in H1. destruct (root (child (negb b) l r)), s; cbn in *; try done; lia. }
      destruct Hnone as [Hr ->]. assert (child (negb b) l r = LE) as Ho by (by destruct (child (negb b) l r)).
      rewrite Hc. split; [left; split; [done|]; destruct b; cbn in Ho; by rewrite Ho|].
      unfold freed_from in *. rewrite decide_True in Hw |- * by done. cbn [drop rev] in *. apply free_back_app.
      eapply wp_mono; [exact Hw|]. intros ? st2 (t' & H2 & E2). destruct (Hstep _ _ H2 E2) as [H3 _].
      assert (t' = LE) as -> by (rewrite Hc in E2; by destruct t').
      assert (with_child b n l r None LE = LT n LE LE None) as Hwc by (destruct b; cbn in *; by rewrite Ho). rewrite Hwc in H3.
      eapply wp_mono; [eapply free_back_one, (s_at _ _ _ _ _ H3)|]. intros ? st3 H4. exists LE.
      split; [by eapply step_trans|]. destruct b; cbn in *; by rewrite Ho.
    + rewrite Hkeep by auto. split; [right; split; [lia|by destruct b]|]. unfold freed_from in *. rewrite decide_False in Hw |- * by lia.
      replace (f' - i) with (S (f' - S i)) by lia. cbn [drop].
      eapply wp_mono; [exact Hw|]. intros ? st2 (t' & H2 & E2). destruct (Hstep _ _ H2 E2). eauto.
Qed.

Lemma free_descend_ok turns nbits i route p t st ts f : at_slot st p t → turns = S (nbits - i) → i ≤ nbits → f ≤ i →
  wp (free_descend turns nbits i route p ts f) (del_post (path_from route nbits (nbits - i) i) st p t f i ts) st.
Proof.
  revert i p t st ts f. induction turns as [|turns IH]; intros i p t st ts f Hat Ht Hi Hf; [done|]. cbn [free_descend].
  eapply wp_first; [apply slot_get_eq, Hat|]. destruct t as [|n l r s]; cbn [root].
  { apply wp_ret. exists []. split; [by rewrite app_nil_r|]. split; [left; split; [done|by destruct (path_from _ _ _ _)]|].
    unfold freed_from. rewrite drop_nil. exists LE. split; [by apply step_refl|by destruct (path_from _ _ _ _)]. }
  eapply wp_first; [by eapply node_get_eq|]. cbn [left right n_sess].
  destruct (decide (i = nbits)) as [->|Hne].
  { rewrite Nat.eqb_refl, Nat.sub_diag. by apply del_end. }
  destruct (Nat.eqb_spec i nbits); [done|]. cbn [orb]. replace (nbits - i) with (S (nbits - S i)) by lia. cbn [path_from].
  destruct (word_bit (mask route) nbits i); cbn [negb]; [|by apply del_end].
  set (b := word_bit (sub route) nbits i).
  assert (Hgo : ∀ f1, f1 = (if bool_decide (is_Some (root (child (negb b) l r))) || bool_decide (is_Some s) then i + 1 else f) →
    wp (free_descend turns nbits (S i) route (child_slot b n) (ts ++ [p]) f1)
      (del_post (b :: path_from route nbits (nbits - S i) (S i)) st p (LT n l r s) f i ts) st).
  { intros f1 Hf1. eapply wp_mono; [apply (IH (S i) _ (child b l r)); [by eapply at_child|lia|lia|]|].
    - subst f1. case_match; lia.
    - intros [ts' f'] st1 Hp. pose proof Hp as (us & -> & _). eapply del_node; [done..|]. cbv zeta. by rewrite <- Hf1. }
  destruct b; by apply Hgo.
Qed.

Lemma free_framed_route_ok route t st : at_slot st (ROOT (family_inet route)) t →
  wp (free_framed_route_from_trie route) (λ _ st', ∃ t', step st (ROOT (family_inet route)) t st' t' ∧
    erase t' = t_del (route_path route) (erase t)) st.
Proof.
  intros Hat. unfold free_framed_route_from_trie, route_path. cbv zeta. set (nbits := family_bits _). apply wp_bind.
  pose proof (free_descend_ok (S nbits) nbits 0 route _ t st [] 0 Hat ltac:(lia) ltac:(lia) ltac:(lia)) as H.
  rewrite Nat.sub_0_r in H. eapply wp_mono; [exact H|]. clear H. intros [ts f'] st1 (us & -> & Hc & Hw). cbn [app].
  unfold freed_from in Hw. eapply wp_mono; [|intros ? ? H; exact H].
  destruct (decide (f' = 0)) as [->|]; [exact Hw|]. by rewrite Nat.sub_0_r in Hw.
Qed.
Lemma add_framed_route_ok route sess t st : at_slot st (ROOT (family_inet route)) t →
  wp (add_framed_route_to_trie route sess) (λ _ st', ∃ t', step st (ROOT (family_inet route)) t st' t' ∧
    erase t' = t_add (route_path route) sess (erase t)) st.
Proof.
  intros Hat. unfold add_framed_route_to_trie, route_path. cbv zeta. set (nbits := family_bits _).
  pose proof (add_loop_ok (S nbits) nbits 0 route sess _ t st Hat ltac:(lia) ltac:(lia)) as H. by rewrite Nat.sub_0_r in H.
Qed.

(** ** Looking up *)

Lemma find_loop_ok turns nbits i addr p t st ret : at_slot st p t → turns = S (nbits - i) → i ≤ nbits →
  find_loop turns nbits i addr (root t) ret st = Some (t_find (word_bit addr nbits <$> seq i (nbits - i)) (erase t) ret, st).
Proof.
  revert i p t st ret. induction turns as [|turns IH]; intros i p t st ret Hat Ht Hi; [done|]. cbn [find_loop].
  destruct t as [|n l r s]; [by destruct (seq _ _)|]. cbn [root]. rewrite (bind_step _ _ _ _ _ (node_get_eq _ _ _ _ _ _ Hat)).
  cbn [left right n_sess erase]. destruct (Nat.eqb_spec i nbits) as [->|]; [by rewrite Nat.sub_diag|].
  replace (nbits - i) with (S (nbits - S i)) by lia. cbn [seq fmap list_fmap t_find].
  set (b := word_bit addr nbits i). replace (if b then root r else root l) with (root (child b l r)) by (by destruct b).
  rewrite (IH (S i) (child_slot b n)); [by destruct b|by eapply at_child|lia..].
Qed.
Lemma find_framed_route_ok inet addr t st : at_slot st (ROOT inet) t →
  find_framed_route inet addr st = Some (t_find (addr_bits inet addr) (erase t) None, st).
Proof.
  intros Hat. unfold find_framed_route. rewrite (bind_step _ _ _ _ _ (slot_get_eq _ _ _ (proj1 Hat))).
  rewrite (find_loop_ok _ _ _ _ _ _ _ _ Hat) by lia. unfold addr_bits. by rewrite Nat.sub_0_r.
Qed.

(** ** Both tries *)

(** The memory holds two tries and nothing else. *)
Record tries st (t4 t6 : ltree) : Prop := {
  ts_4 : at_slot st (ROOT true) t4;
  ts_6 : at_slot st (ROOT false) t6;
  ts_disj : disj (names t4) (names t6);
  ts_dom : ∀ n, is_Some (trie_nodes st !! n) → n ∈ names t4 ++ names t6 }.

Definition pick {A} (inet : bool) (x4 x6 : A) : A := if inet then x4 else x6.
Lemma tries_init : tries trie_mem_init LE LE.
Proof. split; [..|by intros n [? ?]]; repeat split; try constructor. by intros ? ?%elem_of_nil. Qed.
Lemma tries_at inet st t4 t6 : tries st t4 t6 → at_slot st (ROOT inet) (pick inet t4 t6).
Proof. intros []. by destruct inet. Qed.
Lemma tries_step inet st st' t4 t6 t' : tries st t4 t6 → step st (ROOT inet) (pick inet t4 t6) st' t' →
  tries st' (pick inet t' t4) (pick inet t6 t').
Proof.
  intros [H4 H6 Hd Hdom] [A R F X N].
  assert (Hput : ∀ v, trie_nodes (put_slot st (ROOT inet) v) = trie_nodes st) by (by destruct inet).
  assert (Hold : ∀ n, n ∈ names (pick inet t6 t4) → n ∉ names (pick inet t4 t6)) by (destruct inet; cbn; names).
  assert (Hal : ∀ n, n ∈ names (pick inet t6 t4) → is_Some (trie_nodes st !! n)).
  { intros n. destruct H4 as (_ & Hh4 & _), H6 as (_ & Hh6 & _). destruct inet; by apply holds_dom. }
  assert (Hnew : ∀ n, n ∈ names (pick inet t6 t4) → n ∉ names t').
  { intros n Hn Hn'. destruct (Hal n Hn) as [? E]. rewrite N in E; [done|by apply Hold|done]. }
  assert (Ho : at_slot st' (ROOT (negb inet)) (pick inet t6 t4)).
  { assert (at_slot st (ROOT (negb inet)) (pick inet t6 t4)) as (Hv & Hh & Hnd) by (by destruct inet). split_and!; [| |done].
    - destruct inet, st as [h r4 r6], st' as [h' r4' r6']; cbn in *; unfold roots in R; cbn in R; congruence.
    - eapply holds_ext; [|exact Hh]. intros n Hn. rewrite F by auto. by rewrite Hput. }
  assert (Hdom' : ∀ n, is_Some (trie_nodes st' !! n) → n ∈ names t' ++ names (pick inet t6 t4)).
  { intros n Hn. apply elem_of_app. destruct (decide (n ∈ names t')) as [|H1]; [by left|right].
    destruct (decide (n ∈ names (pick inet t4 t6))) as [H2|H2]; [rewrite X in Hn by done; by destruct Hn|].
    rewrite F, Hput in Hn by done. specialize (Hdom n Hn). destruct inet; cbn in *; apply elem_of_app in Hdom; tauto. }
  destruct inet; cbn in *; split; try done; try (intros n ??; by eapply Hnew).
  intros n Hn. specialize (Hdom' n Hn). apply elem_of_app in Hdom'. apply elem_of_app. tauto.
Qed.
