(* ===== verification/RoutesSpec.v ===== *)
(** * What framed routes guarantee

    The two tries are a table from prefixes to sessions; a look-up finds the
    session of the longest prefix of the address.  As long as no prefix is
    given to two sessions, or through both setters of one, the table is that
    of the routes that each session was given last.  The family of a route is
    that of its text and need not be that of its setter. *)
From S2P Require Import Prelude XactBase Octets Words Routes RouteTrie.

(** ** Prefixes in words and in bits

    The trie walks the bits of an address; the check of a source address masks
    words.  For a network with a prefix mask both mean the same. *)

Section prefixes.
#[local] Open Scope Z_scope.

(** ** Words in the order of the network *)

Lemma be_value_land l k : bytes l → bytes k → length l = length k →
  be_value (zip_with Z.land l k) = Z.land (be_value l) (be_value k).
Proof.
  unfold be_value. intros Hl. assert (H : ∀ a c, 0 ≤ a → 0 ≤ c → ∀ k, bytes k → length l = length k →
    fold_left (λ x b, x * 256 + b) (zip_with Z.land l k) (Z.land a c) =
    Z.land (fold_left (λ x b, x * 256 + b) l a) (fold_left (λ x b, x * 256 + b) k c)); [|intros; by apply (H 0 0)].
  induction Hl as [|b l Hb Hl IH]; intros a c Ha Hc k0 Hk Hlen; [by destruct k0|].
  destruct Hk as [|b' k0 Hb' Hk]; [done|]. cbn [zip_with fold_left]. unfold is_byte in *.
  rewrite <- IH; [|lia..|done|cbn in Hlen; lia]. f_equal. change 256 with (2 ^ 8). by rewrite land_split by lia.
Qed.
Lemma le_bytes_land n x y : le_bytes n (Z.land x y) = zip_with Z.land (le_bytes n x) (le_bytes n y).
Proof.
  revert x y. induction n as [|n IH]; intros x y; [done|]. cbn [le_bytes zip_with]. f_equal.
  - change 256 with (2 ^ 8). rewrite <- !Z.land_ones by lia. change (Z.ones 8) with 255.
    apply Z.bits_inj'. intros i _. rewrite !Z.land_spec. by destruct (Z.testbit x i), (Z.testbit y i), (Z.testbit 255 i).
  - rewrite <- IH. f_equal. change 256 with (2 ^ 8). rewrite <- !Z.shiftr_div_pow2 by lia. apply Z.shiftr_land.
Qed.
Lemma bswap_land n x y : bswap n (Z.land x y) = Z.land (bswap n x) (bswap n y).
Proof. unfold bswap. rewrite le_bytes_land. apply be_value_land; [apply le_bytes_bytes..|by rewrite !le_bytes_length]. Qed.
Lemma word_bit_testbit ws nbits i :
  word_bit ws nbits i = Z.testbit (bswap 4 (nth (i / 32) ws 0)) (Z.of_nat ((nbits - i - 1) mod 32)).
Proof.
  unfold word_bit. set (w := bswap 4 _). set (b := Z.of_nat _).
  destruct (Z.testbit w b) eqn:Eb.
  - destruct (Z.eqb_spec (Z.land (Z.shiftl 1 b) w) 0) as [E|]; [|done]. exfalso.
    apply (f_equal (λ z, Z.testbit z b)) in E. rewrite Z.land_spec, Z.bits_0, Z.shiftl_spec, Z.sub_diag, Eb in E by lia. done.
  - replace (Z.land (Z.shiftl 1 b) w) with 0; [done|]. symmetry. apply Z.bits_inj'. intros j Hj. rewrite Z.bits_0, Z.land_spec.
    destruct (decide (j = b)) as [->|]; [by rewrite Eb, andb_false_r|]. rewrite Z.shiftl_1_l, Z.pow2_bits_false by lia. done.
Qed.

(** A 32-bit word is determined by its bits. *)
Lemma word_bits_eq (x y : list Z) nbits k : (nbits = 32 ∨ nbits = 128)%nat → (32 * k < nbits)%nat →
  0 ≤ nth k x 0 < 2 ^ 32 → 0 ≤ nth k y 0 < 2 ^ 32 →
  (∀ i, (i < nbits)%nat → word_bit x nbits i = word_bit y nbits i) → nth k x 0 = nth k y 0.
Proof.
  intros Hn Hk Hx Hy H. apply bswap_inj; [done..|]. apply Z.bits_inj'. intros j Hj.
  destruct (Z.lt_ge_cases j 32) as [Hj32|Hj32].
  - specialize (H (32 * k + (31 - Z.to_nat j))%nat). rewrite !word_bit_testbit in H.
    assert (Hd : ((32 * k + (31 - Z.to_nat j)) / 32 = k)%nat).
    { rewrite Nat.mul_comm, Nat.div_add_l, (Nat.div_small (31 - _)) by lia. lia. }
    assert (Hm : Z.of_nat ((nbits - (32 * k + (31 - Z.to_nat j)) - 1) mod 32) = j).
    { replace (nbits - (32 * k + (31 - Z.to_nat j)) - 1)%nat with (Z.to_nat j + (nbits / 32 - 1 - k) * 32)%nat.
      - rewrite Nat.Div0.mod_add, Nat.mod_small by lia. lia.
      - destruct Hn as [-> | ->]; [change (32 / 32)%nat with 1%nat|change (128 / 32)%nat with 4%nat]; lia. }
    rewrite Hd, Hm in H. apply H. destruct Hn as [-> | ->]; lia.
  - by rewrite !(λ w, proj2 (proj1 (pow2_range_bits 32 ltac:(lia) _) (bswap_range w)) j Hj32).
Qed.

(** ** Networks *)

(** The mask has [n] ones and then zeros, the other bits of the network are
    zero, and the words are words: what [ogs_ipsubnet] makes of a prefix. *)
Definition words_ok (ws : list Z) : Prop := length ws = 4%nat ∧ Forall is_word ws.
Definition route_ok (r : ogs_ipsubnet_t) : Prop :=
  let nbits := family_bits (family_inet r) in
  words_ok (sub r) ∧ words_ok (mask r) ∧
  ∃ n, (n ≤ nbits)%nat ∧ (∀ i, (i < nbits)%nat → word_bit (mask r) nbits i = bool_decide (i < n)%nat) ∧
    (∀ i, (n ≤ i < nbits)%nat → word_bit (sub r) nbits i = false).
(** The route's prefix is one of the address. *)
Definition route_has (r : ogs_ipsubnet_t) (addr : list Z) : Prop :=
  route_path r `prefix_of` addr_bits (family_inet r) addr.

Lemma family_bits_cases inet : (family_bits inet = 32 ∨ family_bits inet = 128)%nat.
Proof. destruct inet; auto. Qed.
Lemma path_from_bits r nbits n k i : (∀ j, (j < nbits)%nat → word_bit (mask r) nbits j = bool_decide (j < n)%nat) → (n ≤ nbits)%nat →
  (i + k = nbits)%nat → path_from r nbits k i = word_bit (sub r) nbits <$> seq i (n - i).
Proof.
  intros Hm Hn. revert i. induction k as [|k IH]; intros i Hi; cbn [path_from]; [by replace (n - i)%nat with O by lia|].
  rewrite Hm by lia. case_bool_decide.
  - rewrite IH by lia. by replace (n - i)%nat with (S (n - S i)) by lia.
  - by replace (n - i)%nat with O by lia.
Qed.
Lemma word_bit_land x y nbits i : length x = length y →
  word_bit (zip_with Z.land x y) nbits i = word_bit x nbits i && word_bit y nbits i.
Proof.
  intros Hl. rewrite !word_bit_testbit, <- Z.land_spec, <- bswap_land. f_equal. f_equal. rewrite !nth_lookup, lookup_zip_with.
  destruct (decide (i / 32 < length x)%nat) as [H|H].
  - destruct (lookup_lt_is_Some_2 x (i / 32)) as [a ->]; [done|]. destruct (lookup_lt_is_Some_2 y (i / 32)) as [b ->]; [lia|]. done.
  - rewrite !lookup_ge_None_2 by lia. done.
Qed.

Lemma word_check r addr : route_ok r → words_ok addr →
  take (if family_inet r then 1 else 4) (sub r) = take (if family_inet r then 1 else 4) (zip_with Z.land addr (mask r)) ↔ route_has r addr.
Proof.
  intros ((Hsl & Hsw) & (Hml & Hmw) & n & Hn & Hmask & Hhost) [Hal Haw].
  unfold route_has, route_path, addr_bits. cbv zeta. set (nbits := family_bits (family_inet r)) in *.
  rewrite (path_from_bits r nbits n nbits 0) by (done || lia). rewrite Nat.sub_0_r.
  assert (Hand : ∀ i, word_bit (zip_with Z.land addr (mask r)) nbits i = word_bit addr nbits i && word_bit (mask r) nbits i)
    by (intros; apply word_bit_land; lia).
  assert (Hbits : (∀ i, (i < nbits)%nat → word_bit (sub r) nbits i = word_bit (zip_with Z.land addr (mask r)) nbits i) ↔
    ∀ i, (i < n)%nat → word_bit (sub r) nbits i = word_bit addr nbits i).
  { split; intros H i Hi.
    - specialize (H i ltac:(lia)). rewrite Hand, Hmask, bool_decide_eq_true_2, andb_true_r in H by lia. done.
    - rewrite Hand, Hmask by lia. case_bool_decide; [by rewrite H, andb_true_r by lia|]. rewrite andb_false_r. apply Hhost. lia. }
  assert (Hpre : (word_bit (sub r) nbits <$> seq 0 n) `prefix_of` (word_bit addr nbits <$> seq 0 nbits) ↔
    ∀ i, (i < n)%nat → word_bit (sub r) nbits i = word_bit addr nbits i).
  { split.
    - intros [tl E] i Hi. apply (f_equal (.!! i)) in E. rewrite lookup_app_l in E by (rewrite length_fmap, length_seq; lia).
      rewrite !list_lookup_fmap, !lookup_seq_lt in E by lia. cbn in E. congruence.
    - intros H. exists (word_bit addr nbits <$> seq n (nbits - n)). replace nbits with (n + (nbits - n))%nat at 2 by lia.
      rewrite seq_app, fmap_app. f_equal. apply list_fmap_ext. intros i x Hx. apply lookup_seq in Hx as [-> ?]. symmetry. by apply H. }
  rewrite Hpre, <- Hbits. set (zs := zip_with Z.land addr (mask r)).
  assert (Hzl : length zs = 4%nat) by (unfold zs; rewrite length_zip_with; lia).
  assert (Hword : ∀ ws k, Forall is_word ws → 0 ≤ nth k ws 0 < 2 ^ 32).
  { intros ws k Hw. rewrite nth_lookup. destruct (ws !! k) eqn:E; cbn; [exact (Forall_lookup_1 _ _ _ _ Hw E)|lia]. }
  assert (Hzw : Forall is_word zs).
  { apply Forall_lookup_2. intros k z Hz. unfold zs in Hz. apply lookup_zip_with_Some in Hz as (a & b & -> & Ha & Hb).
    apply land_range; [lia|]. exact (Forall_lookup_1 _ _ _ _ Haw Ha). }
  set (w := (if family_inet r then 1 else 4)%nat). assert (Hw : (32 * w = nbits)%nat) by (unfold w, nbits; by destruct (family_inet r)).
  assert (Hw4 : (w ≤ 4)%nat) by (unfold w; destruct (family_inet r); lia).
  split.
  - intros E i Hi. rewrite !word_bit_testbit. do 2 f_equal. assert (i / 32 < w)%nat by (apply Nat.Div0.div_lt_upper_bound; lia).
    apply (f_equal (λ l, nth (i / 32) l 0)) in E. rewrite !nth_lookup, !lookup_take_lt in E by done. by rewrite !nth_lookup.
  - intros H. apply (nth_ext _ _ 0 0); [rewrite !length_take; lia|]. intros k. rewrite length_take. intros Hk.
    rewrite !nth_lookup, !lookup_take_lt by lia. rewrite <- !nth_lookup.
    apply (word_bits_eq _ _ nbits); [apply family_bits_cases|lia|by apply Hword..|done].
Qed.
End prefixes.

(** ** The table *)

Abbreviation route_table := (gmap (bool * list bool) nat).
Implicit Types (st : trie_mem) (r : ogs_ipsubnet_t) (R : route_table) (inet : bool).
Definition route_key (r : ogs_ipsubnet_t) : bool * list bool := (family_inet r, route_path r).

(** The memory holds the tries of [R], and not a node more than they need. *)
Definition routes_ok (st : trie_mem) (R : route_table) : Prop :=
  ∃ t4 t6, tries st t4 t6 ∧ ∀ inet, let t := erase (pick inet t4 t6) in
    tight t ∧ depth_le (S (family_bits inet)) t ∧ ∀ q, R !! (inet, q) = t_get q t.

Lemma routes_ok_init : routes_ok trie_mem_init ∅.
Proof. exists LE, LE. split; [apply tries_init|]. intros []; repeat split; intros q; by rewrite t_get_E. Qed.

(** An operation on one trie, as an operation on the table. *)
Lemma routes_ok_step (st st' : trie_mem) (inet : bool) (t4 t6 t' : ltree) (R R' : route_table) : tries st t4 t6 →
  (∀ i, tight (erase (pick i t4 t6)) ∧ depth_le (S (family_bits i)) (erase (pick i t4 t6)) ∧ ∀ q, R !! (i, q) = t_get q (erase (pick i t4 t6))) →
  step st (ROOT inet) (pick inet t4 t6) st' t' →
  tight (erase t') → depth_le (S (family_bits inet)) (erase t') →
  (∀ q, R' !! (inet, q) = t_get q (erase t')) → (∀ q, R' !! (negb inet, q) = R !! (negb inet, q)) →
  routes_ok st' R'.
Proof.
  intros Ht HR Hs Htt Hd Hi Ho. exists (pick inet t' t4), (pick inet t6 t'). split; [by eapply tries_step|].
  intros i. destruct (decide (i = inet)) as [->|Hne].
  - replace (pick inet (pick inet t' t4) (pick inet t6 t')) with t' by (by destruct inet). by split.
  - assert (i = negb inet) as -> by (by destruct i, inet).
    replace (pick (negb inet) (pick inet t' t4) (pick inet t6 t')) with (pick (negb inet) t4 t6) by (by destruct inet).
    destruct (HR (negb inet)) as (? & ? & ?). split_and!; try done. intros q. by rewrite Ho.
Qed.

Lemma route_path_depth r : length (route_path r) < S (family_bits (family_inet r)).
Proof. unfold route_path. pose proof (path_from_length r (family_bits (family_inet r)) (family_bits (family_inet r)) 0). lia. Qed.

Lemma add_route_ok r sess st R : routes_ok st R →
  wp (add_framed_route_to_trie r sess) (λ _ st', routes_ok st' (<[route_key r := sess]> R)) st.
Proof.
  intros (t4 & t6 & Ht & HR). eapply wp_mono; [by eapply add_framed_route_ok, tries_at|].
  intros ? st' (t' & Hs & E). destruct (HR (family_inet r)) as (Hti & Hde & Hg).
  eapply routes_ok_step; [done..| | | |]; rewrite ?E.
  - by apply t_add_tight.
  - apply t_add_depth; [apply route_path_depth|done].
  - intros q. rewrite t_get_add. unfold route_key. case_decide as Hq; [subst; by rewrite lookup_insert_eq|].
    rewrite lookup_insert_ne by congruence. apply Hg.
  - intros q. rewrite lookup_insert_ne; [done|]. unfold route_key. by destruct (family_inet r).
Qed.
Lemma free_route_ok r st R : routes_ok st R →
  wp (free_framed_route_from_trie r) (λ _ st', routes_ok st' (delete (route_key r) R)) st.
Proof.
  intros (t4 & t6 & Ht & HR). eapply wp_mono; [by eapply free_framed_route_ok, tries_at|].
  intros ? st' (t' & Hs & E). destruct (HR (family_inet r)) as (Hti & Hde & Hg).
  eapply routes_ok_step; [done..| | | |]; rewrite ?E.
  - by apply t_del_tight.
  - by apply t_del_depth.
  - intros q. rewrite t_get_del. unfold route_key. case_decide as Hq; [subst; by rewrite lookup_delete_eq|].
    rewrite lookup_delete_ne by congruence. apply Hg.
  - intros q. rewrite lookup_delete_ne; [done|]. unfold route_key. by destruct (family_inet r).
Qed.
Lemma find_route_ok inet addr st R : routes_ok st R →
  ∃ res, find_framed_route inet addr st = Some (res, st) ∧ longest_prefix (λ q, R !! (inet, q)) (addr_bits inet addr) res.
Proof.
  intros (t4 & t6 & Ht & HR). eexists. split; [by eapply find_framed_route_ok, tries_at|].
  destruct (HR inet) as (_ & _ & Hg). pose proof (find_longest (addr_bits inet addr) (erase (pick inet t4 t6))) as H.
  unfold longest_prefix in *. destruct (t_find _ _ _); [|by intros k Hk; rewrite Hg; apply H].
  destruct H as (k & Hk & Hs & Hmax). exists k. rewrite Hg. split_and!; [done..|]. intros k' Hk'. rewrite Hg. by apply Hmax.
Qed.
(** Without routes there are no nodes. *)
Lemma no_routes_no_nodes st : routes_ok st ∅ → trie_nodes st = ∅.
Proof.
  intros (t4 & t6 & Ht & HR). apply map_eq. intros n. rewrite lookup_empty.
  assert (He : ∀ inet, pick inet t4 t6 = LE).
  { intros inet. destruct (HR inet) as (Hti & _ & Hg). assert (erase (pick inet t4 t6) = E) as He; [|by destruct (pick inet t4 t6)].
    apply tight_empty; [done|]. intros q. by rewrite <- Hg. }
  pose proof (He true). pose proof (He false). cbn in *. subst.
  destruct (trie_nodes st !! n) eqn:En; [|done]. pose proof (ts_dom _ _ _ Ht n ltac:(by rewrite En)) as Hn. by apply elem_of_nil in Hn.
Qed.

(** ** The setters *)

Definition add_all (sess : nat) (rs : list ogs_ipsubnet_t) R : route_table := foldl (λ R r, <[route_key r := sess]> R) R rs.
Definition del_all (rs : list ogs_ipsubnet_t) R : route_table := foldl (λ R r, delete (route_key r) R) R rs.
(** The entries of an array before the first without a family. *)
Fixpoint entries (array : list (option ogs_ipsubnet_t)) : list ogs_ipsubnet_t :=
  match array with Some r :: array => r :: entries array | _ => [] end.
Definition installed (routes : route_array) : list ogs_ipsubnet_t := entries (default [] routes).
(** The routes that a call is given, without those that do not parse. *)
Definition valid_routes (framed_routes : list (option ogs_ipsubnet_t)) : list ogs_ipsubnet_t :=
  omap id (take OGS_MAX_NUM_OF_FRAMED_ROUTES_IN_PDI framed_routes).

Lemma clear_routes_ok clear array st R : routes_ok st R →
  wp (clear_routes clear array) (λ array' st', routes_ok st' (del_all (entries array) R) ∧ length array' = length array) st.
Proof.
  revert st R. induction array as [|[r|] array IH]; intros st R HR; cbn [clear_routes]; [by apply wp_ret| |by apply wp_ret].
  apply wp_bind. eapply wp_mono; [by apply free_route_ok|]. intros ? st1 H1.
  apply wp_bind. eapply wp_mono; [exact (IH _ _ H1)|]. intros array' st2 [H2 Hl]. apply wp_ret. split; [exact H2|]. cbn [length]. by rewrite Hl.
Qed.

(** The first [j] entries of an array of eight. *)
Definition starts_with (rs : list ogs_ipsubnet_t) (routes : route_array) : Prop :=
  match routes with
  | Some array => length array = OGS_MAX_NUM_OF_FRAMED_ROUTES_IN_PDI ∧ take (length rs) array = Some <$> rs
  | None => rs = []
  end.

Lemma entries_take n array rs : take n array = Some <$> rs → rs `prefix_of` entries array.
Proof.
  revert n array. induction rs as [|r rs IH]; intros n array H; [by exists (entries array)|].
  destruct n, array as [|[r'|] array]; cbn in H; try done. injection H as -> H. apply prefix_cons. by eapply IH.
Qed.

Lemma install_routes_ok sess parsed routes rs st R : routes_ok st R → starts_with rs routes →
  length rs + length parsed ≤ OGS_MAX_NUM_OF_FRAMED_ROUTES_IN_PDI →
  wp (install_routes sess parsed routes (length rs)) (λ '(routes', j) st',
    routes_ok st' (add_all sess (omap id parsed) R) ∧ starts_with (rs ++ omap id parsed) routes' ∧ j = length (rs ++ omap id parsed)) st.
Proof.
  revert routes rs st R. induction parsed as [|p parsed IH]; intros routes rs st R HR Hs Hlen; cbn [install_routes].
  { apply wp_ret. by rewrite app_nil_r. }
  cbn [length] in Hlen. set (array := default _ routes).
  assert (Ha : length array = OGS_MAX_NUM_OF_FRAMED_ROUTES_IN_PDI ∧ take (length rs) array = Some <$> rs).
  { unfold array, starts_with in *. destruct routes as [array'|]; [done|]. by subst. }
  destruct Ha as [Ha Ht]. assert (Hnext : ∀ v, starts_with rs (Some (<[length rs := v]> array))).
  { intros v. split; [by rewrite length_insert|]. by rewrite take_insert_ge. }
  destruct p as [r|]; cbn [omap list_omap id].
  - apply wp_bind. eapply wp_mono; [by apply add_route_ok|]. intros ? st1 H1.
    replace (S (length rs)) with (length (rs ++ [r])) by (rewrite length_app; cbn; lia).
    eapply wp_mono; [apply IH; [exact H1| |rewrite length_app; cbn; lia]|].
    + destruct (Hnext (Some r)) as [Hl Hr]. split; [done|]. rewrite length_app. cbn [length].
      rewrite Nat.add_1_r. erewrite take_S_r; [by rewrite Hr, fmap_app|]. apply list_lookup_insert_eq. lia.
    + intros [routes' j] st2 (H2 & H3 & H4). cbn [add_all foldl]. rewrite <- app_assoc in H3, H4. done.
  - apply IH; [done|apply Hnext|lia].
Qed.

Definition array_ok (P : ogs_ipsubnet_t → Prop) (routes : route_array) : Prop :=
  match routes with
  | Some array => length array = OGS_MAX_NUM_OF_FRAMED_ROUTES_IN_PDI ∧ ∀ r, Some r ∈ array → P r
  | None => True
  end.
Lemma entries_in r array : r ∈ entries array → Some r ∈ array.
Proof.
  induction array as [|[r'|] array IH]; cbn; [by intros ?%elem_of_nil| |by intros ?%elem_of_nil].
  intros [->|?]%elem_of_cons; [by left|right; auto].
Qed.
Lemma clear_routes_in clear array st array' st' r :
  clear_routes clear array st = Some (array', st') → Some r ∈ array' → Some r ∈ array.
Proof.
  revert st array' st'. induction array as [|[r'|] array IH]; intros st array' st'; cbn [clear_routes]; [by intros [= <- <-]| |by intros [= <- <-]].
  intros (? & st1 & _ & E)%bind_inv. apply bind_inv in E as (array1 & st2 & E1 & [= <- <-]).
  intros [H|H]%elem_of_cons; [destruct clear; by simplify_eq; left|right; by eapply IH].
Qed.
Lemma install_routes_in sess parsed routes j st routes' j' st' P : array_ok P routes → (∀ r, r ∈ omap id parsed → P r) →
  install_routes sess parsed routes j st = Some ((routes', j'), st') → array_ok P routes'.
Proof.
  revert routes j st. induction parsed as [|p parsed IH]; intros routes j st Ha HP; cbn [install_routes]; [by intros [= <- <- <-]|].
  set (array := default _ routes).
  assert (Ha' : array_ok P (Some array)).
  { unfold array. destruct routes as [a|]; [done|]. split; [done|]. intros r Hr. apply elem_of_replicate_inv in Hr. done. }
  assert (Hins : ∀ v, (∀ r, v = Some r → P r) → array_ok P (Some (<[j := v]> array))).
  { intros v Hv. destruct Ha' as [Hl Hin]. split; [by rewrite length_insert|]. intros r Hr.
    apply list_elem_of_lookup in Hr as [i Hi]. apply list_lookup_insert_Some in Hi as [(-> & Hx & _)|[_ Hi]]; [auto|].
    by apply Hin, (list_elem_of_lookup_2 _ i). }
  destruct p as [r|]; cbn [omap list_omap id] in HP.
  - intros (? & st1 & _ & E)%bind_inv. eapply IH in E; [done| |].
    + apply Hins. intros ? [= <-]. apply HP. by left.
    + intros r' Hr'. apply HP. by right.
  - apply IH; [by apply Hins|done].
Qed.

Lemma set_framed_routes_ok clear sess framed_routes routes P st R : routes_ok st R → array_ok P routes →
  (∀ r, r ∈ valid_routes framed_routes → P r) →
  wp (set_framed_routes clear sess framed_routes routes) (λ routes' st',
    routes_ok st' (add_all sess (valid_routes framed_routes) (del_all (installed routes) R)) ∧
    array_ok P routes' ∧ valid_routes framed_routes `prefix_of` installed routes') st.
Proof.
  intros HR Ha HP. unfold set_framed_routes. apply wp_bind.
  assert (H1 : wp match routes with
     | Some array => array ← clear_routes clear array; mret (Some array)
     | None => mret None
     end (λ routes1 st1, routes_ok st1 (del_all (installed routes) R) ∧ array_ok P routes1) st).
  { destruct routes as [array|]; [|by apply wp_ret]. destruct Ha as [Hl Hin]. apply wp_bind, wp_run.
    destruct (proj1 (wp_run _ _ _) (clear_routes_ok clear array st R HR)) as (array' & st1 & E & H1 & Hl').
    exists array', st1. split; [done|]. apply wp_ret. split; [done|]. split; [congruence|].
    intros r Hr. apply Hin. by eapply clear_routes_in. }
  eapply wp_mono; [exact H1|]. clear H1. intros routes1 st1 [HR1 Ha1]. cbn beta in *. apply wp_bind, wp_run.
  assert (Hs : starts_with [] routes1) by (destruct routes1; [by destruct Ha1|done]).
  destruct (proj1 (wp_run _ _ _) (install_routes_ok sess (take OGS_MAX_NUM_OF_FRAMED_ROUTES_IN_PDI framed_routes) routes1 [] st1 _ HR1 Hs
    ltac:(rewrite length_take; cbn [length]; lia))) as ([routes2 j] & st2 & E & H2 & H3 & ->).
  exists (routes2, length (valid_routes framed_routes)), st2. split; [done|]. apply wp_ret. split; [exact H2|].
  pose proof (install_routes_in _ _ _ _ _ _ _ _ P Ha1 HP E) as Ha2. cbn [app] in *. fold (valid_routes framed_routes) in *.
  destruct (Nat.eqb_spec (length (valid_routes framed_routes)) 0) as [E0|].
  - apply length_zero_iff_nil in E0. rewrite E0. split; [done|apply prefix_nil].
  - split; [done|]. destruct routes2 as [array|]; unfold starts_with in H3; [|by unfold valid_routes in *; rewrite H3 in *].
    destruct H3 as [_ H3]. by eapply entries_take.
Qed.

(** *** What the IPv4 setter leaves in the array: the routes it was given, and
    nothing behind them *)
Definition exact_array (rs : list ogs_ipsubnet_t) (routes : route_array) : Prop :=
  match routes with
  | Some array => length rs ≤ OGS_MAX_NUM_OF_FRAMED_ROUTES_IN_PDI ∧
      array = (Some <$> rs) ++ replicate (OGS_MAX_NUM_OF_FRAMED_ROUTES_IN_PDI - length rs) None
  | None => rs = []
  end.

Lemma clear_routes_exact rs k st array' st' :
  clear_routes true ((Some <$> rs) ++ replicate k None) st = Some (array', st') → array' = replicate (length rs + k) None.
Proof.
  revert st array'. induction rs as [|r rs IH]; intros st array'; cbn [fmap list_fmap app clear_routes].
  - by destruct k; intros [= <- <-].
  - intros (? & st1 & _ & E)%bind_inv. apply bind_inv in E as (array1 & st2 & E1 & [= <- <-]). by rewrite (IH _ _ E1).
Qed.
Lemma install_routes_exact sess parsed routes rs st routes' j' st' : exact_array rs routes →
  length rs + length parsed ≤ OGS_MAX_NUM_OF_FRAMED_ROUTES_IN_PDI →
  install_routes sess parsed routes (length rs) st = Some ((routes', j'), st') →
  exact_array (rs ++ omap id parsed) routes' ∧ j' = length (rs ++ omap id parsed).
Proof.
  revert routes rs st. induction parsed as [|p parsed IH]; intros routes rs st Ha Hlen; cbn [install_routes].
  { intros [= <- <- <-]. by rewrite app_nil_r. }
  cbn [length] in Hlen. set (array := default _ routes).
  assert (Harr : array = (Some <$> rs) ++ replicate (OGS_MAX_NUM_OF_FRAMED_ROUTES_IN_PDI - length rs) None).
  { unfold array, exact_array in *. destruct routes as [array'|]; [by destruct Ha|]. by subst. }
  assert (Hins : ∀ v, <[length rs := v]> array = (Some <$> rs) ++ v :: replicate (OGS_MAX_NUM_OF_FRAMED_ROUTES_IN_PDI - S (length rs)) None).
  { intros v. rewrite Harr, insert_app_r_alt, length_fmap, Nat.sub_diag by (rewrite length_fmap; lia).
    by replace (OGS_MAX_NUM_OF_FRAMED_ROUTES_IN_PDI - length rs) with (S (OGS_MAX_NUM_OF_FRAMED_ROUTES_IN_PDI - S (length rs))) by lia. }
  destruct p as [r|]; cbn [omap list_omap id].
  - intros (? & st1 & _ & E)%bind_inv. rewrite (cons_middle r rs), app_assoc.
    replace (S (length rs)) with (length (rs ++ [r])) in E by (rewrite length_app; cbn; lia).
    eapply IH; [| |exact E]; [|rewrite length_app; cbn; lia].
    split; [rewrite length_app; cbn; lia|]. rewrite Hins, fmap_app, <- app_assoc, length_app. cbn [length]. by rewrite Nat.add_1_r.
  - apply IH; [|lia]. split; [lia|]. rewrite Hins. f_equal.
    by replace (OGS_MAX_NUM_OF_FRAMED_ROUTES_IN_PDI - length rs) with (S (OGS_MAX_NUM_OF_FRAMED_ROUTES_IN_PDI - S (length rs))) by lia.
Qed.
Lemma set_framed_routes_exact sess framed_routes routes rs st routes' st' : exact_array rs routes →
  upf_sess_set_ue_ipv4_framed_routes sess framed_routes routes st = Some (routes', st') → exact_array (valid_routes framed_routes) routes'.
Proof.
  intros Ha. unfold upf_sess_set_ue_ipv4_framed_routes, set_framed_routes.
  intros (routes1 & st1 & E1 & E)%bind_inv. apply bind_inv in E as ([routes2 j] & st2 & E2 & [= <- <-]).
  assert (Ha1 : exact_array [] routes1).
  { destruct routes as [array|]; [|by injection E1 as <- <-]. destruct Ha as [Hl ->].
    apply bind_inv in E1 as (array' & st3 & E3 & [= <- <-]). apply clear_routes_exact in E3 as ->. split; [cbn; lia|]. cbn [fmap list_fmap app length].
    f_equal. lia. }
  pose proof (install_routes_exact sess (take OGS_MAX_NUM_OF_FRAMED_ROUTES_IN_PDI framed_routes) routes1 [] st1 routes2 j st2 Ha1 ltac:(rewrite length_take; cbn [length]; lia) E2) as Ha2.
  cbn [app] in Ha2. fold (valid_routes framed_routes) in Ha2. destruct Ha2 as [Ha2 ->].
  destruct (Nat.eqb_spec (length (valid_routes framed_routes)) 0) as [E0|]; [by apply length_zero_iff_nil in E0|exact Ha2].
Qed.

(** The words that the check of a source address compares for the family of a
    packet; and when a route lets an address pass. *)
Definition passes (inet : bool) (r : ogs_ipsubnet_t) (addr : list Z) : Prop :=
  take (if inet then 1 else 4) (sub r) = take (if inet then 1 else 4) (zip_with Z.land addr (mask r)).
Lemma check_loop_entries inet array addr : check_loop inet array addr = true ↔ ∃ r, r ∈ entries array ∧ passes inet r addr.
Proof.
  induction array as [|[r|] array IH]; cbn [check_loop entries].
  - split; [done|by intros (? & ?%elem_of_nil & _)].
  - case_bool_decide as Hb.
    + split; [|done]. intros _. exists r. split; [by left|exact Hb].
    + rewrite IH. split; intros (r' & Hin & Hp); exists r'; (split; [|done]); [by right|].
      by apply elem_of_cons in Hin as [->|?].
  - split; [done|by intros (? & ?%elem_of_nil & _)].
Qed.
Lemma check_installed inet routes addr : check_framed_routes inet routes addr = true ↔ ∃ r, r ∈ installed routes ∧ passes inet r addr.
Proof. destruct routes; [apply check_loop_entries|]. split; [done|by intros (? & ?%elem_of_nil & _)]. Qed.
Lemma exact_installed rs routes : exact_array rs routes → installed routes = rs.
Proof.
  destruct routes as [array|]; [intros [_ ->]|by intros ->]. unfold installed, default, from_option, id.
  generalize (OGS_MAX_NUM_OF_FRAMED_ROUTES_IN_PDI - length rs). intros k.
  induction rs as [|r rs IH]; cbn; [by destruct k|by rewrite IH].
Qed.

(** ** All sessions *)

(** A call of a setter for a session. *)
Record route_call := RouteCall { c_sess : nat; c_inet : bool; c_routes : list (option ogs_ipsubnet_t) }.
Abbreviation route_arrays := (gmap (nat * bool) (list (option ogs_ipsubnet_t))).
Definition run_call (arrays : route_arrays) (c : route_call) : M trie_mem route_arrays :=
  let key := (c_sess c, c_inet c) in
  routes ← (if c_inet c then upf_sess_set_ue_ipv4_framed_routes else upf_sess_set_ue_ipv6_framed_routes)
    (c_sess c) (c_routes c) (arrays !! key);
  mret (partial_alter (λ _, routes) key arrays).
Fixpoint run_calls (arrays : route_arrays) (cs : list route_call) : M trie_mem route_arrays :=
  match cs with [] => mret arrays | c :: cs => arrays ← run_call arrays c; run_calls arrays cs end.

(** The routes that a session was given last. *)
Definition last_routes (cs : list route_call) (sess : nat) (inet : bool) : list ogs_ipsubnet_t :=
  foldl (λ rs c, if decide (c_sess c = sess ∧ c_inet c = inet) then valid_routes (c_routes c) else rs) [] cs.
(** [own] says which session may be given a prefix, and by which setter. *)
Definition call_ok (own : bool * list bool → nat * bool) (c : route_call) : Prop :=
  ∀ r, r ∈ valid_routes (c_routes c) → own (route_key r) = (c_sess c, c_inet c).
Definition session_of (own : bool * list bool → nat * bool) (cs : list route_call) (inet : bool) (q : list bool) : option nat :=
  let '(s, setter) := own (inet, q) in
  if decide ((inet, q) ∈ route_key <$> last_routes cs s setter) then Some s else None.

Lemma add_all_lookup sess rs R k : add_all sess rs R !! k = if decide (k ∈ route_key <$> rs) then Some sess else R !! k.
Proof.
  revert R. induction rs as [|r rs IH]; intros R; [by rewrite decide_False by apply not_elem_of_nil|].
  cbn [add_all foldl fmap list_fmap]. fold (add_all sess rs). change (foldl _ ?a rs) with (add_all sess rs a). rewrite IH.
  repeat case_decide; try done.
  - exfalso. set_solver.
  - assert (k = route_key r) as -> by set_solver. by rewrite lookup_insert_eq.
  - rewrite lookup_insert_ne; [done|set_solver].
Qed.
Lemma del_all_lookup rs R k : del_all rs R !! k = if decide (k ∈ route_key <$> rs) then None else R !! k.
Proof.
  revert R. induction rs as [|r rs IH]; intros R; [by rewrite decide_False by apply not_elem_of_nil|].
  cbn [del_all foldl fmap list_fmap]. change (foldl _ ?a rs) with (del_all rs a). rewrite IH.
  repeat case_decide; try done.
  - exfalso. set_solver.
  - assert (k = route_key r) as -> by set_solver. by rewrite lookup_delete_eq.
  - rewrite lookup_delete_ne; [done|set_solver].
Qed.

Lemma last_routes_snoc cs c s inet : last_routes (cs ++ [c]) s inet =
  if decide (c_sess c = s ∧ c_inet c = inet) then valid_routes (c_routes c) else last_routes cs s inet.
Proof. unfold last_routes. by rewrite foldl_app. Qed.
Lemma session_of_Some own cs inet q s :
  session_of own cs inet q = Some s ↔ ∃ setter, own (inet, q) = (s, setter) ∧ (inet, q) ∈ route_key <$> last_routes cs s setter.
Proof. unfold session_of. destruct (own (inet, q)) as [s' setter]. case_decide; naive_solver. Qed.

(** The table after [cs]: each array has at least the routes given last. *)
Definition calls_ok (own : bool * list bool → nat * bool) (cs : list route_call) (arrays : route_arrays) (st : trie_mem) : Prop :=
  (∀ s, exact_array (last_routes cs s true) (arrays !! (s, true))) ∧
  ∃ R, routes_ok st R ∧ (∀ inet q s, R !! (inet, q) = Some s ↔ session_of own cs inet q = Some s) ∧
    ∀ s inet, array_ok (λ r, own (route_key r) = (s, inet)) (arrays !! (s, inet)) ∧
      last_routes cs s inet `prefix_of` installed (arrays !! (s, inet)).

Lemma installed_array P routes r : array_ok P routes → r ∈ installed routes → P r.
Proof. destruct routes as [array|]; [intros [_ H] Hr; by apply H, entries_in|by intros _ ?%elem_of_nil]. Qed.
Lemma keys_P (P : ogs_ipsubnet_t → Prop) (rs : list ogs_ipsubnet_t) k : (∀ r, r ∈ rs → P r) → k ∈ route_key <$> rs → ∃ r, k = route_key r ∧ P r.
Proof. intros HP (r & -> & Hr)%list_elem_of_fmap. eauto. Qed.
Lemma keys_prefix (rs rs' : list ogs_ipsubnet_t) k : rs `prefix_of` rs' → k ∈ route_key <$> rs → k ∈ route_key <$> rs'.
Proof. intros [rs'' ->] H. rewrite fmap_app. apply elem_of_app. by left. Qed.

Lemma route_call_ok own cs c arrays st : call_ok own c → calls_ok own cs arrays st →
  wp (run_call arrays c) (calls_ok own (cs ++ [c])) st.
Proof.
  intros Hc (Hex & R & HR & HRs & Ha). unfold run_call. set (P := λ r, own (route_key r) = (c_sess c, c_inet c)).
  destruct (Ha (c_sess c) (c_inet c)) as [Ha0 Hpre]. assert (HcP : ∀ r, r ∈ valid_routes (c_routes c) → P r) by exact Hc.
  assert (H : wp ((if c_inet c then upf_sess_set_ue_ipv4_framed_routes else upf_sess_set_ue_ipv6_framed_routes)
      (c_sess c) (c_routes c) (arrays !! (c_sess c, c_inet c))) (λ routes' st',
    routes_ok st' (add_all (c_sess c) (valid_routes (c_routes c)) (del_all (installed (arrays !! (c_sess c, c_inet c))) R)) ∧
    array_ok P routes' ∧ valid_routes (c_routes c) `prefix_of` installed routes') st).
  { destruct (c_inet c); [unfold upf_sess_set_ue_ipv4_framed_routes|unfold upf_sess_set_ue_ipv6_framed_routes];
      by apply set_framed_routes_ok. }
  apply wp_run in H as (routes' & st' & E & HR' & Ha' & Hp'). apply wp_bind. eapply wp_eq; [exact E|]. apply wp_ret. split.
  { intros s. rewrite last_routes_snoc. destruct (decide (c_sess c = s ∧ c_inet c = true)) as [[<- Hi]|Hne].
    - rewrite Hi in *. rewrite lookup_partial_alter_eq. by eapply set_framed_routes_exact.
    - rewrite lookup_partial_alter_ne by naive_solver. apply Hex. }
  eexists. split; [exact HR'|]. split.
  - intros inet q s. rewrite add_all_lookup, del_all_lookup, session_of_Some.
    pose proof (HRs inet q s) as HRk. rewrite session_of_Some in HRk.
    setoid_rewrite last_routes_snoc.
    destruct (decide ((inet, q) ∈ route_key <$> valid_routes (c_routes c))) as [Hn|Hn].
    { destruct (keys_P P _ _ Hc Hn) as (r & Ek & Ho). unfold P in Ho. rewrite <- Ek in Ho. rewrite Ho.
      split; [intros [= <-]; exists (c_inet c); by rewrite decide_True|by intros (? & [= <- <-] & _)]. }
    destruct (decide ((inet, q) ∈ route_key <$> installed (arrays !! (c_sess c, c_inet c)))) as [Hi|Hi].
    { destruct (keys_P P _ _ (λ r, installed_array P _ r Ha0) Hi) as (r & Ek & Ho). unfold P in Ho. rewrite <- Ek in Ho. rewrite Ho.
      split; [done|]. intros (? & [= <- <-] & Hin). by rewrite decide_True in Hin. }
    rewrite HRk. split; intros (setter & Ho & Hin); exists setter; (split; [exact Ho|]); case_decide as Hs; try done; destruct Hs as [<- <-];
      pose proof (keys_prefix _ _ (inet, q) Hpre); tauto.
  - intros s inet. rewrite last_routes_snoc. destruct (decide (c_sess c = s ∧ c_inet c = inet)) as [[<- <-]|Hne].
    + by rewrite lookup_partial_alter_eq.
    + rewrite lookup_partial_alter_ne by naive_solver. apply Ha.
Qed.
Lemma route_calls_ok own cs0 cs arrays st : Forall (call_ok own) cs → calls_ok own cs0 arrays st →
  wp (run_calls arrays cs) (calls_ok own (cs0 ++ cs)) st.
Proof.
  revert cs0 arrays st. induction cs as [|c cs IH]; intros cs0 arrays st; cbn [run_calls]; [intros _; rewrite app_nil_r; by apply wp_ret|].
  intros [Hc Hcs]%Forall_cons H. apply wp_bind. eapply wp_mono; [by eapply route_call_ok|]. intros arrays' st' H'.
  rewrite (cons_middle c cs0 cs), app_assoc. by apply IH.
Qed.
Lemma calls_ok_init own : calls_ok own [] ∅ trie_mem_init.
Proof.
  split; [intros s; by rewrite lookup_empty|].
  exists ∅. split; [apply routes_ok_init|]. split; [|intros s inet; by rewrite lookup_empty].
  intros inet q s. rewrite lookup_empty, session_of_Some. cbn. split; [done|]. by intros (? & _ & ?%elem_of_nil).
Qed.
Lemma longest_prefix_ext get get' addr res : (∀ q, get q = get' q) → longest_prefix get addr res → longest_prefix get' addr res.
Proof. intros He. unfold longest_prefix. destruct res; setoid_rewrite He; done. Qed.

(** C33: As long as no prefix is given to two sessions, or by both setters of
    one, the setters of the framed routes never touch a node that was freed,
    whatever the families of the routes and their masks are.  After any calls
    a look-up terminates: it finds the session that has the address, or the
    first half of it for IPv6, as the address of its UE, and otherwise the
    session of the longest prefix of the address among the routes that each
    session was given last, by either setter.  When no session has routes, no
    nodes are left.  The check of uplink packets lets a session send from an
    IPv4 address exactly when it agrees with one of the routes that the IPv4
    setter was given last in the bits of the mask, and from an IPv6 address
    when it does so with one of the IPv6 setter; for a route of that family
    with a prefix mask this says that the look-up finds the route. *)
Theorem framed_routes_longest_prefix own cs : Forall (call_ok own) cs →
  ∃ arrays st, run_calls ∅ cs trie_mem_init = Some (arrays, st) ∧
    (∀ self addr, ∃ res, upf_sess_find_by_ipv4 self addr st = Some (res, st) ∧
       match ipv4_hash self !! addr with
       | Some s => res = Some s
       | None => longest_prefix (session_of own cs true) (addr_bits true [addr]) res
       end) ∧
    (∀ self a b c d, ∃ res, upf_sess_find_by_ipv6 self [a; b; c; d] st = Some (res, st) ∧
       match ipv6_hash self !! (a, b) with
       | Some s => res = Some s
       | None => longest_prefix (session_of own cs false) (addr_bits false [a; b; c; d]) res
       end) ∧
    ((∀ s setter, last_routes cs s setter = []) → trie_nodes st = ∅) ∧
    (∀ s addr, check_framed_routes true (arrays !! (s, true)) addr = true ↔ ∃ r, r ∈ last_routes cs s true ∧ passes true r addr) ∧
    (∀ s addr, (∃ r, r ∈ last_routes cs s false ∧ passes false r addr) → check_framed_routes false (arrays !! (s, false)) addr = true) ∧
    (∀ r addr, route_ok r → words_ok addr → passes (family_inet r) r addr ↔ route_has r addr).
Proof.
  intros Hcs. destruct (proj1 (wp_run _ _ _) (route_calls_ok own [] cs ∅ trie_mem_init Hcs (calls_ok_init own)))
    as (arrays & st & E & Hex & R & HR & HRs & Ha). exists arrays, st. split; [exact E|]. cbn [app] in HRs, Hex, Ha.
  assert (Hfind : ∀ inet addr, ∃ res, find_framed_route inet addr st = Some (res, st) ∧
    longest_prefix (session_of own cs inet) (addr_bits inet addr) res).
  { intros inet addr. destruct (find_route_ok inet addr st R HR) as (res & Ef & Hl). exists res. split; [exact Ef|].
    eapply longest_prefix_ext, Hl. intros q. apply option_eq. intros s. apply HRs. }
  split_and!.
  - intros self addr. unfold upf_sess_find_by_ipv4. destruct (ipv4_hash self !! addr); [by eexists|apply Hfind].
  - intros self a b c d. unfold upf_sess_find_by_ipv6. cbn [nth]. destruct (ipv6_hash self !! _); [by eexists|apply Hfind].
  - intros Hnil. apply no_routes_no_nodes. replace (∅ : route_table) with R; [exact HR|]. apply map_eq. intros [inet q].
    rewrite lookup_empty. destruct (R !! (inet, q)) as [s|] eqn:Es; [|done]. apply HRs, session_of_Some in Es as (? & _ & Hin).
    rewrite Hnil in Hin. by apply elem_of_nil in Hin.
  - intros s addr. rewrite check_installed. by rewrite (exact_installed _ _ (Hex s)).
  - intros s addr (r & Hin & Hp). apply check_installed. exists r. split; [|exact Hp]. destruct (Ha s false) as [_ [rs ->]].
    apply elem_of_app. by left.
  - apply word_check.
Qed.

(** ** Two sessions *)

Definition net4 (a b c d len : Z) : ogs_ipsubnet_t :=
  Ipsubnet true [le_value [a; b; c; d]; 0; 0; 0]%Z [bswap 4 (2 ^ 32 - 2 ^ (32 - len)); 0; 0; 0]%Z.
(** 2001:db8:[x]::/48 *)
Definition net6 (x : Z) : ogs_ipsubnet_t :=
  Ipsubnet false [bswap 4 0x20010db8; bswap 4 (x * 65536); 0; 0]%Z [bswap 4 0xffffffff; bswap 4 0xffff0000; 0; 0]%Z.
(** The last one is IPv6 text for the IPv4 setter. *)
Definition example_calls : list route_call :=
  [RouteCall 0 true [Some (net4 10 0 0 0 8); None; Some (net4 192 168 0 0 16)]%Z; RouteCall 1 true [Some (net4 10 1 0 0 16)]%Z;
   RouteCall 0 true [Some (net4 10 0 0 0 8); Some (net6 1)]%Z].
Definition example_own (k : bool * list bool) : nat * bool :=
  (if decide (k = route_key (net4 10 1 0 0 16)%Z) then 1 else 0, true).
(** The UE of session 2 has 10.1.2.3. *)
Definition example_ues : ue_hashes := UeHashes {[ le_value [10; 1; 2; 3]%Z := 2 ]} ∅.

Lemma words_ok_check ws : forallb (λ w, (0 <=? w) && (w <? 2 ^ 32))%Z ws = true → length ws = 4 → words_ok ws.
Proof.
  intros H Hl. split; [done|]. apply Forall_lookup_2. intros k w Hk. apply list_elem_of_lookup_2, list_elem_of_In in Hk.
  rewrite forallb_forall in H. specialize (H w Hk). unfold is_word. lia.
Qed.
Lemma example_route_ok : route_ok (net4 10 1 0 0 16)%Z.
Proof.
  split; [by apply words_ok_check; vm_compute|]. split; [by apply words_ok_check; vm_compute|]. exists 16. change (family_bits _) with 32. split_and!; [lia|..].
  - intros i Hi. do 32 (destruct i as [|i]; [by vm_compute|]). lia.
  - intros i Hi. do 32 (destruct i as [|i]; [first [exfalso; lia | by vm_compute]|]). lia.
Qed.

Lemma framed_routes_longest_prefix_witness :
  Forall (call_ok example_own) example_calls ∧
  (∃ arrays st, run_calls ∅ example_calls trie_mem_init = Some (arrays, st) ∧
    (∃ res, upf_sess_find_by_ipv4 example_ues (le_value [10; 1; 2; 4]%Z) st = Some (res, st) ∧
      longest_prefix (session_of example_own example_calls true) (addr_bits true [le_value [10; 1; 2; 4]]%Z) res) ∧
    check_framed_routes true (arrays !! (1, true)) [le_value [10; 1; 2; 3]; 0; 0; 0]%Z = true) ∧
  option_map fst ((run_calls ∅ example_calls;;
    a ← upf_sess_find_by_ipv4 example_ues (le_value [10; 1; 2; 3])%Z; b ← upf_sess_find_by_ipv4 example_ues (le_value [10; 1; 2; 4])%Z;
    c ← upf_sess_find_by_ipv4 example_ues (le_value [192; 168; 2; 3])%Z; d ← upf_sess_find_by_ipv6 example_ues (sub (net6 1));
    mret (a, b, c, d)) trie_mem_init) = Some (Some 2, Some 1, None, Some 0).
Proof.
  assert (H : Forall (call_ok example_own) example_calls).
  { unfold example_calls. rewrite !Forall_cons, Forall_nil.
    split_and!; try done; intros r Hr; cbn in Hr; rewrite ?elem_of_cons, elem_of_nil in Hr; destruct_or?; subst; try done; by vm_compute. }
  split; [exact H|]. split; [|by vm_compute].
  destruct (framed_routes_longest_prefix example_own example_calls H) as (arrays & st & E & Hf & _ & _ & Hc & _ & Hw). exists arrays, st. split; [exact E|].
  split; [exact (Hf example_ues (le_value [10; 1; 2; 4]%Z))|]. apply Hc. exists (net4 10 1 0 0 16)%Z. split; [by left|].
  apply (Hw (net4 10 1 0 0 16)%Z); [apply example_route_ok|by apply words_ok_check; vm_compute|]. eexists. by vm_compute.
Defined.

(** What the condition of a prefix mask is for: with the mask 255.0.255.0,
    which [ogs_ipsubnet] accepts, the trie takes 10/8 as the route of the
    session, of which the session may send only from 10.x.5.y. *)
Definition holed_mask : ogs_ipsubnet_t := Ipsubnet true [le_value [10; 0; 5; 0]; 0; 0; 0]%Z (le_value [255; 0; 255; 0]%Z :: drop 1 all_ones).
Lemma dotted_mask_with_holes :
  let none := UeHashes ∅ ∅ in
  ogs_ipsubnet (λ _, None) (λ text, if decide (text = [49; 48; 46; 48; 46; 53; 46; 48]%Z) then Some [sub holed_mask !!! 0] else Some [mask holed_mask !!! 0])
    [0; 0; 0; 0]%Z [49; 48; 46; 48; 46; 53; 46; 48]%Z (Some [50; 53; 53; 46; 48; 46; 50; 53; 53; 46; 48]%Z) = Some holed_mask ∧
  option_map fst ((arrays ← run_calls ∅ [RouteCall 0 true [Some holed_mask]]; a ← upf_sess_find_by_ipv4 none (le_value [10; 1; 6; 1])%Z;
    mret (a, check_framed_routes true (arrays !! (0, true)) [le_value [10; 1; 6; 1]; 0; 0; 0]%Z,
      check_framed_routes true (arrays !! (0, true)) [le_value [10; 1; 5; 1]; 0; 0; 0]%Z)) trie_mem_init) = Some (Some 0, false, true).
Proof. by vm_compute. Qed.

(** The IPv6 setter leaves the entries that it removes in the array of the
    session: session 0 had 2001:db8:1::/48 and 2001:db8:2::/48 and gave the
    second one up, but may still send from it; session 1 has it since.  When
    session 0 is given its first one again, the trie loses the route of
    session 1.  With IPv4 it is kept. *)
Lemma ipv6_setter_removes_foreign_route :
  let calls inet a b := [RouteCall 0 inet [Some a; Some b]; RouteCall 0 inet [Some a]; RouteCall 1 inet [Some b]] in
  let find inet a b := option_map fst ((run_calls ∅ (calls inet a b ++ [RouteCall 0 inet [Some a]]);;
    find_framed_route inet (sub b)) trie_mem_init) in
  let sends inet a b := option_map (λ '(arrays, _), check_framed_routes inet (arrays !! (0, inet)) (sub b))
    (run_calls ∅ (calls inet a b) trie_mem_init) in
  find false (net6 1) (net6 2) = Some None ∧ sends false (net6 1) (net6 2) = Some true ∧
  find true (net4 10 1 0 0 16) (net4 10 2 0 0 16) = Some (Some 1) ∧ sends true (net4 10 1 0 0 16) (net4 10 2 0 0 16) = Some false.
Proof. by vm_compute. Qed.
