(* ===== verification/UeIp.v ===== *)
(** * Addresses of UEs (lib/pfcp/context.c)

    Each subnet of SMF and UPF has a pool of addresses that is filled when the
    process starts, from the prefix of the subnet or from the ranges of its
    configuration; sessions take their addresses from it.  The pool is the one
    of Pool.v; its size is changed afterwards to the number of addresses.

    Words are in the order of the network, as a little-endian host reads
    them: the octets of [w] are [le_bytes 4 w], and [htobe32] is [bswap 4].
    What [ogs_ipsubnet] of Routes.v makes of a text, or that it fails, is an
    argument; an address of the database comes as words. *)
From S2P Require Import Prelude KeyTable Pool XactBase Octets Routes.
#[local] Open Scope Z_scope.

Definition OGS_MAX_NUM_OF_DEV : nat := 16.
Definition OGS_MAX_NUM_OF_SUBNET : nat := 16.
Definition OGS_MAX_DNN_LEN : nat := 100.
Definition OGS_MAX_IFNAME_LEN : nat := 32.
Definition OGS_PFCP_CAUSE_NO_RESOURCES_AVAILABLE : Z := 75.
Definition OGS_PFCP_CAUSE_ALL_DYNAMIC_ADDRESS_ARE_OCCUPIED : Z := 79.

Inductive af := AF_UNSPEC | AF_INET | AF_INET6.
#[export] Instance af_eq_dec : EqDecision af.
Proof. solve_decision. Defined.

(** [ogs_pfcp_ue_ip_t]; the subnet is a name. *)
Record ue_ip := UeIp { addr : list Z; ip_subnet : positive; static_ip : bool }.

(** A pointer to an address: a node of the pool of a subnet, or memory of
    [ogs_calloc]. *)
Inductive ue_ptr := IN_POOL (subnet : positive) (n : nat) | ON_HEAP (k : positive).

(** An end of a range: NULL, or a text, as [ogs_ipsubnet] reads it. *)
Abbreviation bound := (option (option ogs_ipsubnet_t)).

Definition UINT32 : Z := 2 ^ 32.
(** [x += htobe32(n)] *)
Definition add_be (w n : Z) : Z := (w + bswap 4 n) mod UINT32.

(** The text that [ogs_cpystrn] leaves in a buffer of [size] > 0 octets. *)
Definition ogs_cpystrn (src : list Z) (size : nat) : list Z := take (size - 1) src.
(** [strcasecmp(a, b) == 0] in the C locale. *)
Definition strcase_eq (a b : list Z) : bool := bool_decide (Conv.tolower <$> a = Conv.tolower <$> b).

Section ue_ip.
Context {T : Type}.

(** [ogs_pfcp_subnet_t]; [s_array] is the array of the pool, whose contents
    are indeterminate (None) until they are written. *)
Record ogs_pfcp_subnet := Subnet {
  s_sub : ogs_ipsubnet_t; s_gw : ogs_ipsubnet_t; s_dnn : list Z; s_range : list (bound * bound);
  s_family : af; s_prefixlen : Z; s_pool : ogs_pool T; s_array : list (option ue_ip); s_dev : list Z }.

(** [self.dev_list], the subnets and [self.subnet_list], the memory of
    [ogs_calloc]. *)
Record ue_ctx := UeCtx {
  dev_list : list (list Z); subnets : gmap positive ogs_pfcp_subnet; subnet_list : list positive;
  heap : gmap positive ue_ip }.
Definition ue_ctx_init : ue_ctx := UeCtx [] ∅ [] ∅.

Definition subnet_get (i : positive) : M ue_ctx ogs_pfcp_subnet := λ c,
  match subnets c !! i with Some s => Some (s, c) | None => None end.
Definition subnet_set (i : positive) (s : ogs_pfcp_subnet) : M ue_ctx unit :=
  m_modify (λ c, UeCtx (dev_list c) (<[i := s]> (subnets c)) (subnet_list c) (heap c)).
Definition set_pool (s : ogs_pfcp_subnet) (p : ogs_pool T) (a : list (option ue_ip)) : ogs_pfcp_subnet :=
  Subnet (s_sub s) (s_gw s) (s_dnn s) (s_range s) (s_family s) (s_prefixlen s) p a (s_dev s).

(** ** The configuration *)

Definition ogs_pfcp_dev_add (ifname : list Z) : M ue_ctx (list Z) :=
  c ← m_get; m_assert (length (dev_list c) <? OGS_MAX_NUM_OF_DEV)%nat;;
  let dev := ogs_cpystrn ifname (OGS_MAX_IFNAME_LEN - 1) in
  m_modify (λ c, UeCtx (dev_list c ++ [dev]) (subnets c) (subnet_list c) (heap c));;
  mret dev.
Definition ogs_pfcp_dev_find_by_ifname (ifname : list Z) (c : ue_ctx) : option (list Z) :=
  snd <$> list_find (λ d, strcase_eq d ifname = true) (dev_list c).

(** [prefix]: when [ipstr] and [mask_or_numbits] are given, what
    [ogs_ipsubnet] makes of the address, of the prefix, and [atoi] of the
    length. *)
Definition zero_ipsubnet : ogs_ipsubnet_t := Ipsubnet false [0; 0; 0; 0] [0; 0; 0; 0].
Definition family_of (ip : ogs_ipsubnet_t) : af := if family_inet ip then AF_INET else AF_INET6.
Definition ogs_pfcp_subnet_add (sess : nat) (hash : T)
    (prefix : option (option ogs_ipsubnet_t * option ogs_ipsubnet_t * Z))
    (gateway : bound) (dnn : option (list Z)) (ifname : list Z) (range : list (bound * bound)) :
    M ue_ctx positive :=
  c ← m_get;
  dev ← match ogs_pfcp_dev_find_by_ifname ifname c with Some dev => mret dev | None => ogs_pfcp_dev_add ifname end;
  m_assert (length (subnet_list c) <? OGS_MAX_NUM_OF_SUBNET)%nat;;
  '(gw, sub, family, prefixlen) ← match prefix with
    | Some (gw, sub, bits) => gw ← m_some gw; sub ← m_some sub; mret (gw, sub, family_of gw, bits mod 256)
    | None => mret (zero_ipsubnet, zero_ipsubnet, AF_UNSPEC, 0)
    end;
  gw ← match gateway with Some gw => m_some gw | None => mret gw end;
  let i := fresh (dom (subnets c)) in
  let dnn := match dnn with Some dnn => ogs_cpystrn dnn OGS_MAX_DNN_LEN | None => [] end in
  subnet_set i (Subnet sub gw dnn range family prefixlen (ogs_pool_init sess hash) (replicate sess None) dev);;
  m_modify (λ c, UeCtx (dev_list c) (subnets c) (subnet_list c ++ [i]) (heap c));;
  mret i.

Definition ogs_pfcp_subnet_remove (i : positive) : M ue_ctx unit :=
  s ← subnet_get i;
  m_modify (λ c, UeCtx (dev_list c) (delete i (subnets c)) (filter (.≠ i) (subnet_list c)) (heap c)).

(** ** Filling the pools *)

Section generate.
Variables (sess : nat) (me : positive) (sub gw : list Z) (nwords lastindex : nat).

(** [memset], [memcpy(ue_ip->addr, start, maxbytes)] and
    [ue_ip->addr[lastindex] += htobe32(inc)]. *)
Definition tried (start : list Z) (inc : Z) : option (list Z) :=
  let a := take nwords start ++ replicate (4 - nwords) 0 in
  w ← a !! lastindex; Some (<[lastindex := add_be w inc]> a).
(** [memcmp(a, b, maxbytes) == 0] *)
Definition same_words (a b : list Z) : bool := bool_decide (take nwords a = take nwords b).

(** The loop [while(poolindex < ogs_app()->pool.sess)]; [inc] is an int. *)
Fixpoint pool_loop (fuel : nat) (start end_ : list Z) (inc : Z) (poolindex : nat) (array : list (option ue_ip)) :
    option (nat * list (option ue_ip)) :=
  match fuel with
  | O => None
  | S fuel =>
      if (poolindex <? sess)%nat then
        if (length array <=? poolindex)%nat || (2 ^ 31 - 1 <=? inc) then None
        else
          a ← tried start inc;
          let inc := inc + 1 in
          let array := <[poolindex := Some (UeIp a me false)]> array in
          if same_words a end_ then Some (poolindex, array)
          else if same_words a sub then pool_loop fuel start end_ inc poolindex array
          else if same_words a gw then pool_loop fuel start end_ inc poolindex array
          else
            let a := if (lastindex =? 1)%nat then alter (λ w, add_be w inc) 3%nat a else a in
            pool_loop fuel start end_ inc (S poolindex) (<[poolindex := Some (UeIp a me false)]> array)
      else Some (poolindex, array)
  end.

Definition range_start (low : bound) : option (list Z) :=
  match low with Some low => Routes.sub <$> low | None => Some sub end.
Definition range_end (broadcast : list Z) (high : bound) : option (list Z) :=
  match high with
  | Some high => alter (λ w, add_be w 1) lastindex <$> (Routes.sub <$> high)
  | None => Some broadcast
  end.

(** A turn needs a place of the pool or one of the two excluded addresses. *)
Fixpoint range_loop (broadcast : list Z) (ranges : list (bound * bound)) (poolindex : nat)
    (array : list (option ue_ip)) : option (nat * list (option ue_ip)) :=
  match ranges with
  | [] => Some (poolindex, array)
  | (low, high) :: ranges =>
      start ← range_start low; end_ ← range_end broadcast high;
      '(poolindex, array) ← pool_loop (sess + 3) start end_ 0 poolindex array;
      range_loop broadcast ranges poolindex array
  end.
End generate.

(** [maxbytes] in words, and [lastindex]. *)
Definition family_words (f : af) : option (nat * nat) :=
  match f with AF_INET => Some (1, 0) | AF_INET6 => Some (2, 1) | AF_UNSPEC => None end%nat.
Definition broadcast_of (ip : ogs_ipsubnet_t) : list Z :=
  zip_with (λ w m, (w + (UINT32 - 1 - m)) mod UINT32) (Routes.sub ip) (mask ip).
Definition ranges_of (s : ogs_pfcp_subnet) : list (bound * bound) :=
  match s_range s with [] => [(None, None)] | ranges => ranges end.
(** [subnet->pool.size = subnet->pool.avail = poolindex] *)
Definition resize (p : ogs_pool T) (n : nat) : ogs_pool T :=
  Pool (head p) (tail p) n n (free p) (ids p) (index p) (id_hash p) (id p).

Definition generate_subnet (sess : nat) (i : positive) : M ue_ctx unit :=
  s ← subnet_get i;
  match family_words (s_family s) with
  | None => mret tt
  | Some (nwords, lastindex) =>
      '(poolindex, array) ← m_some (range_loop sess i (Routes.sub (s_sub s)) (Routes.sub (s_gw s)) nwords lastindex
        (broadcast_of (s_sub s)) (ranges_of s) 0 (s_array s));
      subnet_set i (set_pool s (resize (s_pool s) poolindex) array)
  end.
Fixpoint generate_loop (sess : nat) (l : list positive) : M ue_ctx unit :=
  match l with
  | [] => mret tt
  | i :: l => generate_subnet sess i;; generate_loop sess l
  end.
Definition ogs_pfcp_ue_pool_generate (sess : nat) : M ue_ctx unit :=
  c ← m_get; generate_loop sess (subnet_list c).

(** ** Sessions *)

Definition serves (family : af) (s : ogs_pfcp_subnet) : bool :=
  (bool_decide (s_family s = AF_UNSPEC) || bool_decide (s_family s = family)).
Fixpoint find_loop (ok : ogs_pfcp_subnet → bool) (m : gmap positive ogs_pfcp_subnet) (l : list positive) :
    option (option positive) :=
  match l with
  | [] => Some None
  | i :: l => s ← m !! i; if ok s then Some (Some i) else find_loop ok m l
  end.
Definition ogs_pfcp_find_subnet (family : af) : M ue_ctx (option positive) :=
  m_assert (bool_decide (family ≠ AF_UNSPEC));;
  c ← m_get;
  m_some (find_loop (λ s, serves family s && bool_decide (s_dnn s = []) && negb (avail (s_pool s) =? 0)%nat)
    (subnets c) (subnet_list c)).
Definition ogs_pfcp_find_subnet_by_dnn (family : af) (dnn : list Z) : M ue_ctx (option positive) :=
  m_assert (bool_decide (family ≠ AF_UNSPEC));;
  c ← m_get;
  m_some (find_loop (λ s, serves family s && (bool_decide (s_dnn s = []) || strcase_eq (s_dnn s) dnn)
      && negb (avail (s_pool s) =? 0)%nat)
    (subnets c) (subnet_list c)).

(** An operation of the pool of a subnet. *)
Definition in_pool {A} (i : positive) (m : M (ogs_pool T) A) : M ue_ctx A :=
  s ← subnet_get i; '(a, p) ← m_some (m (s_pool s)); subnet_set i (set_pool s p (s_array s));; mret a.

(** [words]: the address that is asked for, zero for any; [memory]: whether
    [ogs_calloc] has memory.  The result is NULL with a cause, or an address. *)
Definition ogs_pfcp_ue_ip_alloc (family : af) (dnn : option (list Z)) (words : list Z) (memory : bool) :
    M ue_ctx (ue_ptr + Z) :=
  n ← match family with AF_INET => mret 1%nat | AF_INET6 => mret 4%nat | AF_UNSPEC => m_fail end;
  m_assert (n <=? length words)%nat;;
  subnet ← match dnn with
    | Some dnn => ogs_pfcp_find_subnet_by_dnn family dnn
    | None => ogs_pfcp_find_subnet family
    end;
  match subnet with
  | None => mret (inr OGS_PFCP_CAUSE_NO_RESOURCES_AVAILABLE)
  | Some i =>
      if bool_decide (take n words = replicate n 0) then
        node ← in_pool i ogs_pool_alloc;
        mret (match node with Some n => inl (IN_POOL i n) | None => inr OGS_PFCP_CAUSE_NO_RESOURCES_AVAILABLE end)
      else if memory then
        c ← m_get;
        let k := fresh (dom (heap c)) in
        m_modify (λ c, UeCtx (dev_list c) (subnets c) (subnet_list c)
          (<[k := UeIp (take n words ++ replicate (4 - n) 0) i true]> (heap c)));;
        mret (inl (ON_HEAP k))
      else mret (inr OGS_PFCP_CAUSE_ALL_DYNAMIC_ADDRESS_ARE_OCCUPIED)
  end.

(** What a pointer points to. *)
Definition read_ue_ip (p : ue_ptr) (c : ue_ctx) : option ue_ip :=
  match p with
  | IN_POOL i n => s ← subnets c !! i; ip ← s_array s !! n; ip
  | ON_HEAP k => heap c !! k
  end.
Definition ogs_pfcp_ue_ip_free (p : ue_ptr) : M ue_ctx unit :=
  c ← m_get;
  ip ← m_some (read_ue_ip p c);
  match p, static_ip ip with
  | ON_HEAP k, true => m_modify (λ c, UeCtx (dev_list c) (subnets c) (subnet_list c) (delete k (heap c)))
  | IN_POOL i n, false =>
      m_assert (bool_decide (ip_subnet ip = i));;
      in_pool (ip_subnet ip) (ogs_pool_free n)
  | _, _ => m_fail
  end.
End ue_ip.
Arguments ogs_pfcp_subnet : clear implicits.
Arguments ue_ctx : clear implicits.
