(* ===== verification/UeIpSpec.v ===== *)
(** * What the pools of UE addresses guarantee

    Filling a pool ends for every configuration.  For a prefix without ranges,
    and for ranges that do not carry over an octet, the pool has exactly the
    addresses of the configuration; sessions then hold different addresses of
    their subnet, and get none only when all of them are held. *)
From S2P Require Import Prelude KeyTable Pool XactBase Octets Routes UeIp.
From S2P Require RoutesSpec.
#[local] Open Scope Z_scope.

(** ** Addition in the order of the network *)

Lemma bswap_bytes a b c d : is_byte a → is_byte b → is_byte c → is_byte d →
  bswap 4 (a + 256 * (b + 256 * (c + 256 * d))) = d + 256 * (c + 256 * (b + 256 * a)).
Proof.
  unfold is_byte. intros Ha Hb Hc Hd. set (y := d + 256 * (c + 256 * (b + 256 * a))).
  assert (E : le_bytes 4 (a + 256 * (b + 256 * (c + 256 * d))) = [a; b; c; d]).
  { replace (a + 256 * (b + 256 * (c + 256 * d))) with (le_value [a; b; c; d]) by (cbn; lia).
    apply (le_bytes_value [a; b; c; d]). repeat constructor; unfold is_byte; lia. }
  unfold bswap. rewrite E. unfold be_value, y. cbn [fold_left]. lia.
Qed.
Lemma word_bytes x : 0 ≤ x < UINT32 → ∃ a b c d, is_byte a ∧ is_byte b ∧ is_byte c ∧ is_byte d ∧
  x = a + 256 * (b + 256 * (c + 256 * d)).
Proof.
  unfold UINT32, is_byte. intros Hx. exists (x mod 256), (x / 256 mod 256), (x / 256 / 256 mod 256), (x / 256 / 256 / 256).
  Z.to_euclidean_division_equations. lia.
Qed.
Lemma bswap_uint32 x : 0 ≤ bswap 4 x < UINT32.
Proof. apply bswap_range. Qed.
Lemma bswap_involutive x : 0 ≤ x < UINT32 → bswap 4 (bswap 4 x) = x.
Proof.
  intros Hx. destruct (word_bytes x Hx) as (a & b & c & d & ? & ? & ? & ? & ->). by rewrite !bswap_bytes.
Qed.

Lemma add_be_inj w m n : 0 ≤ m < UINT32 → 0 ≤ n < UINT32 → add_be w m = add_be w n → m = n.
Proof.
  intros Hm Hn E. apply bswap_inj; [done..|]. pose proof (bswap_uint32 m). pose proof (bswap_uint32 n).
  unfold add_be in E. unfold UINT32 in *. Z.to_euclidean_division_equations. lia.
Qed.

(** [a] and [b] are added octet by octet: none of the sums carries. *)
Definition octet_at (x i : Z) : Z := x / 256 ^ i mod 256.
Definition nocarry (a b : Z) : Prop := ∀ i, 0 ≤ i < 4 → octet_at a i + octet_at b i < 256.

Lemma octet_of a b c d : is_byte a → is_byte b → is_byte c → is_byte d →
  let x := a + 256 * (b + 256 * (c + 256 * d)) in
  octet_at x 0 = a ∧ octet_at x 1 = b ∧ octet_at x 2 = c ∧ octet_at x 3 = d.
Proof.
  unfold is_byte, octet_at. intros Ha Hb Hc Hd. cbn zeta.
  change (256 ^ 0) with 1. change (256 ^ 1) with 256. change (256 ^ 2) with 65536. change (256 ^ 3) with 16777216.
  Z.to_euclidean_division_equations. lia.
Qed.
Lemma add_be_nocarry v k : 0 ≤ v < UINT32 → 0 ≤ k < UINT32 → nocarry v k → add_be (bswap 4 v) k = bswap 4 (v + k).
Proof.
  intros Hv Hk Hc. destruct (word_bytes v Hv) as (a & b & c & d & Ha & Hb & Hcc & Hd & ->).
  destruct (word_bytes k Hk) as (a' & b' & c' & d' & Ha' & Hb' & Hc' & Hd' & ->).
  destruct (octet_of a b c d) as (E0 & E1 & E2 & E3); [done..|].
  destruct (octet_of a' b' c' d') as (F0 & F1 & F2 & F3); [done..|].
  pose proof (Hc 0 ltac:(lia)) as G0. pose proof (Hc 1 ltac:(lia)) as G1.
  pose proof (Hc 2 ltac:(lia)) as G2. pose proof (Hc 3 ltac:(lia)) as G3.
  rewrite E0, F0 in G0. rewrite E1, F1 in G1. rewrite E2, F2 in G2. rewrite E3, F3 in G3.
  unfold add_be. rewrite !bswap_bytes by done. unfold is_byte, UINT32 in *.
  replace (a + 256 * (b + 256 * (c + 256 * d)) + (a' + 256 * (b' + 256 * (c' + 256 * d'))))
    with ((a + a') + 256 * ((b + b') + 256 * ((c + c') + 256 * (d + d')))) by lia.
  rewrite bswap_bytes by (unfold is_byte; lia). rewrite Z.mod_small; lia.
Qed.

(** Within the host part of a prefix, and within the last octet, nothing carries. *)
Lemma nocarry_aligned v k b : 0 ≤ b ≤ 32 → v mod 2 ^ b = 0 → 0 ≤ v → 0 ≤ k < 2 ^ b → nocarry v k.
Proof.
  intros Hb Hv Hv0 Hk i Hi. unfold octet_at.
  destruct (Z.le_gt_cases b (8 * i)) as [Hbi|Hbi].
  - rewrite (Z.div_small k); [rewrite Z.mod_0_l by lia; pose proof (Z.mod_pos_bound (v / 256 ^ i) 256); lia|].
    split; [lia|]. apply Z.lt_le_trans with (2 ^ b); [lia|]. change 256 with (2 ^ 8).
    rewrite <- Z.pow_mul_r by lia. apply Z.pow_le_mono_r; lia.
  - set (p := 256 ^ i). set (q := 2 ^ (b - 8 * i)).
    assert (Hpq : 2 ^ b = p * q).
    { unfold p, q. change 256 with (2 ^ 8). rewrite <- Z.pow_mul_r, <- Z.pow_add_r by lia. f_equal. lia. }
    assert (Hp : 0 < p) by (apply Z.pow_pos_nonneg; lia). assert (Hq : 0 < q) by (apply Z.pow_pos_nonneg; lia).
    apply Z.mod_divide in Hv as [t ->]; [|lia]. rewrite Hpq, (Z.mul_comm p q), Z.mul_assoc, Z.div_mul by lia.
    assert (Hkp : 0 ≤ k / p < q) by (split; [apply Z.div_pos; lia|apply Z.div_lt_upper_bound; lia]).
    destruct (Z.le_gt_cases 8 (b - 8 * i)).
    + replace (t * q) with (t * 2 ^ (b - 8 * i - 8) * 256).
      2: { change 256 with (2 ^ 8). rewrite <- Z.mul_assoc, <- Z.pow_add_r by lia. unfold q. do 2 f_equal. lia. }
      rewrite Z.mod_mul by lia. pose proof (Z.mod_pos_bound (k / p) 256). lia.
    + assert (H256 : 256 = 2 ^ (8 - (b - 8 * i)) * q).
      { unfold q. rewrite <- Z.pow_add_r by lia. replace (_ + _) with 8 by lia. done. }
      assert (Hr : 0 < 2 ^ (8 - (b - 8 * i))) by (apply Z.pow_pos_nonneg; lia).
      set (r := 2 ^ (8 - (b - 8 * i))) in *. rewrite H256.
      pose proof (Z.mod_pos_bound t r Hr).
      assert (1 * q ≤ r * q) by (apply Z.mul_le_mono_nonneg_r; lia).
      assert (t mod r * q ≤ (r - 1) * q) by (apply Z.mul_le_mono_nonneg_r; lia).
      rewrite Z.mul_mod_distr_r by lia. rewrite (Z.mod_small (k / p)) by lia. lia.
Qed.
Lemma nocarry_last v k : 0 ≤ v → 0 ≤ k → v mod 256 + k < 256 → nocarry v k.
Proof.
  intros Hv Hk H i Hi. unfold octet_at. pose proof (Z.mod_pos_bound v 256 ltac:(lia)).
  assert (Hc : i = 0 ∨ i = 1 ∨ i = 2 ∨ i = 3) by lia.
  destruct Hc as [-> | [-> | [-> | ->]]].
  - change (256 ^ 0) with 1. rewrite !Z.div_1_r, (Z.mod_small k) by lia. lia.
  - rewrite (Z.div_small k), Z.mod_0_l by (change (256 ^ 1) with 256; lia). pose proof (Z.mod_pos_bound (v / 256 ^ 1) 256). lia.
  - rewrite (Z.div_small k), Z.mod_0_l by (change (256 ^ 2) with 65536; lia). pose proof (Z.mod_pos_bound (v / 256 ^ 2) 256). lia.
  - rewrite (Z.div_small k), Z.mod_0_l by (change (256 ^ 3) with 16777216; lia). pose proof (Z.mod_pos_bound (v / 256 ^ 3) 256). lia.
Qed.

(** ** The loop over one range ends *)

Section loop.
Variables (sess : nat) (me : positive) (sub gw : list Z) (nw li : nat).
Hypothesis li_nw : (li < nw ≤ 4)%nat.

Lemma tried_spec start inc : (nw ≤ length start)%nat →
  ∃ w, start !! li = Some w ∧
    tried nw li start inc = Some (<[li := add_be w inc]> (take nw start ++ replicate (4 - nw) 0)).
Proof.
  intros Hs. destruct (lookup_lt_is_Some_2 start li) as [w Hw]; [lia|]. exists w. split; [done|].
  unfold tried. rewrite lookup_app_l by (rewrite length_take; lia). by rewrite lookup_take_lt, Hw by lia.
Qed.
Lemma tried_inj start m n a : (nw ≤ length start)%nat → 0 ≤ m < UINT32 → 0 ≤ n < UINT32 →
  tried nw li start m = Some a → take nw <$> tried nw li start n = Some (take nw a) → m = n.
Proof.
  intros Hs Hm Hn Ea Eb. destruct (tried_spec start m Hs) as (w & Hw & Em).
  destruct (tried_spec start n Hs) as (w' & Hw' & En). assert (w' = w) as -> by congruence. rewrite Em in Ea. injection Ea as <-.
  rewrite En in Eb. cbn in Eb. injection Eb as Eb. apply (f_equal (.!! li)) in Eb.
  assert (Hl : (li < length (take nw start ++ replicate (4 - nw) 0%Z))%nat)
    by (rewrite length_app, length_take, length_replicate; lia).
  rewrite !lookup_take_lt, !list_lookup_insert_eq in Eb by lia. injection Eb as Eb.
  symmetry. by apply add_be_inj in Eb.
Qed.

(** [ex]: the excluded addresses that may still be met. *)
Lemma pool_loop_ends start end_ ex : (nw ≤ length start)%nat →
  ∀ fuel inc poolindex array, (sess ≤ length array)%nat → 0 ≤ inc → inc + Z.of_nat fuel < 2 ^ 31 →
  (sess - poolindex + length ex < fuel)%nat →
  (∀ k a, inc ≤ k < UINT32 → tried nw li start k = Some a →
    take nw a = take nw sub ∨ take nw a = take nw gw → take nw a ∈ ex) →
  ∃ r, pool_loop sess me sub gw nw li fuel start end_ inc poolindex array = Some r.
Proof.
  intros Hs fuel. revert ex. induction fuel as [|fuel IH]; intros ex inc i arr Ha H0 Hf Hl Hex; [lia|].
  cbn [pool_loop]. destruct (Nat.ltb_spec i sess) as [Hi|]; [|by eauto].
  replace (_ || _) with false by (symmetry; apply orb_false_iff; rewrite Nat.leb_gt, Z.leb_gt; lia).
  destruct (tried_spec start inc Hs) as (w & Hw & Ea). set (a := <[li := _]> _) in Ea. rewrite Ea. cbn [mbind option_bind].
  destruct (same_words nw a end_); [by eauto|]. unfold same_words.
  (* an excluded address is met once *)
  assert (Hskip : take nw a = take nw sub ∨ take nw a = take nw gw →
    ∃ r, pool_loop sess me sub gw nw li fuel start end_ (inc + 1) i (<[i := Some (UeIp a me false)]> arr) = Some r).
  { intros Hx. assert (Hin : take nw a ∈ ex) by (apply (Hex inc a); [unfold UINT32; lia|done..]).
    apply list_elem_of_split in Hin as (l1 & l2 & ->). apply (IH (l1 ++ l2)).
    - by rewrite length_insert.
    - lia.
    - lia.
    - rewrite length_app in *. cbn in Hl. lia.
    - intros k b Hk Eb Hb. pose proof (Hex k b ltac:(lia) Eb Hb) as Hin.
      rewrite !elem_of_app, elem_of_cons in *. destruct Hin as [?|[E|?]]; [by left| |by right].
      exfalso. enough (inc = k) by lia. eapply (tried_inj start); [done|unfold UINT32 in *; lia..|exact Ea|].
      rewrite Eb. cbn. by rewrite E. }
  case_bool_decide; [by auto|]. case_bool_decide; [by auto|].
  apply (IH ex); [by rewrite !length_insert|lia|lia|lia|].
  intros k b Hk. apply Hex. lia.
Qed.

Lemma pool_loop_total start end_ poolindex array :
  (nw ≤ length start)%nat → (sess ≤ length array)%nat → Z.of_nat sess < 2 ^ 31 - 3 →
  ∃ r, pool_loop sess me sub gw nw li (sess + 3) start end_ 0 poolindex array = Some r.
Proof.
  intros Hs Ha Hb. apply (pool_loop_ends start end_ [take nw sub; take nw gw] Hs); [done|lia|lia|cbn; lia|].
  intros k a _ _ [->| ->]; set_solver.
Qed.
End loop.

(** ** What a range contributes *)

(** The words that a subnet of a family compares, and the one it counts in. *)
Definition nwords_of (inet : bool) : nat := if inet then 1 else 2.
Definition last_of (inet : bool) : nat := if inet then 0 else 1.

(** The address that is tried for the number [x] of its last compared word,
    and the one that a session gets: of IPv6, a prefix of 64 bits with an
    interface identifier that counts from the start of the range. *)
Definition tried_addr (inet : bool) (w0 x : Z) : list Z :=
  if inet then [bswap 4 x; 0; 0; 0] else [w0; bswap 4 x; 0; 0].
Definition ue_addr (inet : bool) (w0 lo x : Z) : list Z :=
  if inet then [bswap 4 x; 0; 0; 0] else [w0; bswap 4 x; 0; bswap 4 (x - lo + 1)].
(** The network and the gateway are left out. *)
Definition usable (inet : bool) (sub gw a : list Z) : Prop :=
  take (nwords_of inet) a ≠ take (nwords_of inet) sub ∧ take (nwords_of inet) a ≠ take (nwords_of inet) gw.
#[export] Instance usable_dec inet sub gw a : Decision (usable inet sub gw a).
Proof. unfold usable. apply _. Defined.
(** The addresses of the range from [lo] to before [lim], from [x] on. *)
Definition range_addrs (inet : bool) (sub gw : list Z) (w0 lo x lim : Z) : list (list Z) :=
  filter (usable inet sub gw) (ue_addr inet w0 lo <$> seqZ x (lim - x)).

Lemma take_ue_addr inet w0 lo x :
  take (nwords_of inet) (ue_addr inet w0 lo x) = take (nwords_of inet) (tried_addr inet w0 x).
Proof. by destruct inet. Qed.
Lemma tried_addr_inj inet w0 x y : 0 ≤ x < UINT32 → 0 ≤ y < UINT32 →
  take (nwords_of inet) (tried_addr inet w0 x) = take (nwords_of inet) (tried_addr inet w0 y) → x = y.
Proof. intros Hx Hy E. destruct inet; injection E as E; by apply bswap_inj. Qed.

Section contents.
Variables (sess : nat) (me : positive) (inet : bool) (sub gw : list Z) (w0 : Z).
Abbreviation nw := (nwords_of inet).
Abbreviation li := (last_of inet).
Abbreviation entry a := (Some (UeIp a me false)).

Lemma tried_nocarry start lo k : take nw start = take nw (tried_addr inet w0 lo) →
  0 ≤ lo < UINT32 → 0 ≤ k < UINT32 → nocarry lo k →
  tried nw li start k = Some (tried_addr inet w0 (lo + k)).
Proof.
  intros Hs Hlo Hk Hc. unfold tried. rewrite Hs. destruct inet; cbn -[add_be bswap]; by rewrite add_be_nocarry.
Qed.
Lemma final_addr lo k : 0 ≤ k < UINT32 - 1 →
  (if (li =? 1)%nat then alter (λ w, add_be w (k + 1)) 3%nat (tried_addr inet w0 (lo + k)) else tried_addr inet w0 (lo + k)) =
  ue_addr inet w0 lo (lo + k).
Proof.
  intros Hk. destruct inet; [done|]. unfold ue_addr, tried_addr. cbn [last_of Nat.eqb alter list_alter].
  do 4 f_equal. unfold add_be. pose proof (bswap_uint32 (k + 1)). rewrite Z.mod_small by done.
  rewrite Z.add_0_l. f_equal. lia.
Qed.

(** A pool that was filled up to [i] is filled on. *)
Definition filled (i j : nat) (arr arr' : list (option ue_ip)) (l : list (list Z)) : Prop :=
  j = (i + length l)%nat ∧ take j arr' = take i arr ++ ((λ a, entry a) <$> l) ∧ length arr' = length arr.

Lemma pool_loop_contents start end_ lo lim :
  take nw start = take nw (tried_addr inet w0 lo) → take nw end_ = take nw (tried_addr inet w0 lim) →
  0 ≤ lo → lim < UINT32 → (∀ k, 0 ≤ k ≤ lim - lo → nocarry lo k) →
  ∀ fuel inc i j arr arr', 0 ≤ inc ≤ lim - lo →
  pool_loop sess me sub gw nw li fuel start end_ inc i arr = Some (j, arr') →
  filled i j arr arr' (take (sess - i) (range_addrs inet sub gw w0 lo (lo + inc) lim)).
Proof.
  intros Hs He Hlo Hlim Hc fuel. induction fuel as [|fuel IH]; intros inc i j arr arr' Hinc E; [done|].
  cbn [pool_loop] in E. destruct (Nat.ltb_spec i sess) as [Hi|Hi].
  2: { injection E as <- <-. replace (sess - i)%nat with 0%nat by lia. unfold filled. cbn.
       rewrite Nat.add_0_r, app_nil_r. done. }
  destruct (Nat.leb_spec (length arr) i); [done|]. destruct (Z.leb_spec (2 ^ 31 - 1) inc); [done|]. cbn [orb] in E.
  rewrite (tried_nocarry start lo) in E by (done || lia || by apply Hc). cbn [mbind option_bind] in E.
  unfold same_words in E. rewrite He in E. case_bool_decide as Hend.
  { apply tried_addr_inj in Hend; [|lia..]. injection E as <- <-.
    unfold range_addrs. rewrite seqZ_nil by lia. rewrite fmap_nil, filter_nil, take_nil. unfold filled. cbn.
    rewrite Nat.add_0_r, app_nil_r, take_insert_ge, length_insert by lia. done. }
  assert (Hlt : inc < lim - lo).
  { destruct (decide (inc = lim - lo)) as [->|]; [|lia]. exfalso. apply Hend. do 2 f_equal. lia. }
  unfold range_addrs. rewrite seqZ_cons by lia. rewrite fmap_cons, filter_cons.
  replace (Z.succ (lo + inc)) with (lo + (inc + 1)) by lia.
  replace (Z.pred (lim - (lo + inc))) with (lim - (lo + (inc + 1))) by lia.
  fold (range_addrs inet sub gw w0 lo (lo + (inc + 1)) lim).
  pose proof (take_ue_addr inet w0 lo (lo + inc)) as Hu.
  assert (Hskip : ∀ l, filled i j (<[i := entry (tried_addr inet w0 (lo + inc))]> arr) arr' l → filled i j arr arr' l).
  { intros l (H1 & H2 & H3). rewrite take_insert_ge in H2 by lia. rewrite length_insert in H3. done. }
  case_bool_decide as Hsub; [|case_bool_decide as Hgw].
  - rewrite decide_False by (intros [Hx _]; by rewrite Hu in Hx). apply Hskip. apply (IH (inc + 1)); [lia|done].
  - rewrite decide_False by (intros [_ Hx]; by rewrite Hu in Hx). apply Hskip. apply (IH (inc + 1)); [lia|done].
  - rewrite decide_True by (split; by rewrite Hu). rewrite final_addr in E by lia.
    replace (sess - i)%nat with (S (sess - S i)) by lia. cbn [take].
    apply IH in E; [|lia]. destruct E as (H1 & H2 & H3). rewrite !length_insert in H3.
    split; [cbn; lia|]. split; [|done]. rewrite H2. rewrite list_insert_insert_eq.
    rewrite (take_S_r _ i (entry (ue_addr inet w0 lo (lo + inc)))) by (apply list_lookup_insert_eq; lia).
    rewrite take_insert_ge by lia. by rewrite <- app_assoc.
Qed.
End contents.

(** ** The addresses of a configuration *)

Section config.
Context {T : Type}.
Implicit Types s : ogs_pfcp_subnet T.

Definition is_inet s : bool := bool_decide (s_family s = AF_INET).
(** The word that a subnet counts in, as a number. *)
Definition number (inet : bool) (words : list Z) : Z := bswap 4 (default 0 (words !! last_of inet)).
Definition net s : Z := number (is_inet s) (sub (s_sub s)).
Definition block s : Z := UINT32 - number (is_inet s) (mask (s_sub s)).
Definition first_word s : Z := default 0 (sub (s_sub s) !! 0%nat).

(** From the lower end of a range up to its upper end; the prefix itself goes
    up to its last address, which is left out. *)
Definition interval s (r : bound * bound) : Z * Z :=
  (match fst r with Some (Some low) => number (is_inet s) (sub low) | _ => net s end,
   match snd r with Some (Some high) => number (is_inet s) (sub high) + 1 | _ => net s + block s - 1 end).
Definition interval_addrs s (i : Z * Z) : list (list Z) :=
  range_addrs (is_inet s) (sub (s_sub s)) (sub (s_gw s)) (first_word s) (fst i) (fst i) (snd i).
Definition ranges_addrs s (l : list (bound * bound)) : list (list Z) := concat (interval_addrs s <$> (interval s <$> l)).
Definition subnet_addrs (sess : nat) s : list (list Z) := take sess (ranges_addrs s (ranges_of s)).

(** Configurations without a carry over an octet: a range is aligned to a
    power of two that is its size at most, or stays within 256 addresses. *)
Definition plain (i : Z * Z) : Prop :=
  fst i ≤ snd i ∧ ((∃ b, 0 ≤ b ≤ 32 ∧ fst i mod 2 ^ b = 0 ∧ snd i - fst i < 2 ^ b) ∨ fst i mod 256 + (snd i - fst i) < 256).
Definition words_ok (words : list Z) : Prop := length words = 4%nat ∧ Forall (λ w, 0 ≤ w < UINT32) words.
Definition end_ok s (words : list Z) : Prop :=
  words_ok words ∧ (is_inet s = false → words !! 0%nat = Some (first_word s)).
Definition bounds_ok s (r : bound * bound) : Prop :=
  match fst r with None => True | Some None => False | Some (Some low) => end_ok s (sub low) end ∧
  match snd r with None => True | Some None => False
  | Some (Some high) => end_ok s (sub high) ∧ number (is_inet s) (sub high) mod 256 ≠ 255 end.
Fixpoint disjoint_intervals (l : list (Z * Z)) : Prop :=
  match l with
  | [] => True
  | i :: l => Forall (λ k, snd i ≤ fst k ∨ snd k ≤ fst i) l ∧ disjoint_intervals l
  end.

(** A prefix (of 32 to 64 bits for IPv6), with its ranges. *)
Record subnet_wf s : Prop := {
  wf_family : s_family s ≠ AF_UNSPEC;
  wf_sub : words_ok (sub (s_sub s));
  wf_mask : ∃ h, 0 ≤ h ≤ 32 ∧ mask (s_sub s) !! last_of (is_inet s) = Some (bswap 4 (UINT32 - 2 ^ h)) ∧
    net s mod 2 ^ h = 0 ∧ (is_inet s = false → mask (s_sub s) !! 0%nat = Some (UINT32 - 1));
  wf_bounds : Forall (bounds_ok s) (ranges_of s);
  wf_plain : Forall plain (interval s <$> ranges_of s);
  wf_disjoint : disjoint_intervals (interval s <$> ranges_of s) }.

Lemma number_range inet words : 0 ≤ number inet words < UINT32.
Proof. apply bswap_uint32. Qed.
Lemma net_range s : 0 ≤ net s < UINT32.
Proof. apply number_range. Qed.
Lemma low_range s r : 0 ≤ fst (interval s r) < UINT32.
Proof.
  destruct r as [low high]. cbn [interval fst snd].
  destruct low as [[low|]|]; [apply number_range|apply net_range|apply net_range].
Qed.

(** The words of an end of a range. *)
Lemma take_number s words : end_ok s words →
  take (nwords_of (is_inet s)) words =
  take (nwords_of (is_inet s)) (tried_addr (is_inet s) (first_word s) (number (is_inet s) words)).
Proof.
  intros [[Hl Hw] H0]. destruct words as [|w [|w1 [|w2 [|w3 [|]]]]]; try done.
  unfold number. destruct (is_inet s).
  - cbn -[bswap]. apply Forall_cons in Hw as [Hw _]. by rewrite bswap_involutive.
  - cbn -[bswap]. injection (H0 eq_refl) as <-. apply Forall_cons in Hw as [_ Hw]. apply Forall_cons in Hw as [Hw _].
    by rewrite bswap_involutive.
Qed.
Lemma sub_end_ok s : subnet_wf s → end_ok s (sub (s_sub s)).
Proof.
  intros Hwf. split; [apply wf_sub, Hwf|]. intros _. unfold first_word.
  destruct (wf_sub _ Hwf) as [Hl _]. by destruct (sub (s_sub s)).
Qed.

(** The complement of a mask. *)
Lemma mask_complement h : 0 ≤ h ≤ 32 → UINT32 - 1 - bswap 4 (UINT32 - 2 ^ h) = bswap 4 (2 ^ h - 1).
Proof.
  intros Hh.
  assert (H : forallb (λ n, UINT32 - 1 - bswap 4 (UINT32 - 2 ^ Z.of_nat n) =? bswap 4 (2 ^ Z.of_nat n - 1)) (seq 0 33) = true)
    by (vm_compute; reflexivity).
  rewrite forallb_forall in H. specialize (H (Z.to_nat h)). rewrite Z2Nat.id in H by lia.
  apply Z.eqb_eq, H, in_seq. lia.
Qed.
Lemma block_spec s h : 0 ≤ h ≤ 32 → mask (s_sub s) !! last_of (is_inet s) = Some (bswap 4 (UINT32 - 2 ^ h)) →
  block s = 2 ^ h.
Proof.
  intros Hh Hm. unfold block, number. rewrite Hm.
  change (default 0 (Some (bswap 4 (UINT32 - 2 ^ h)))) with (bswap 4 (UINT32 - 2 ^ h)).
  assert (0 < 2 ^ h) by (apply Z.pow_pos_nonneg; lia).
  assert (2 ^ h ≤ 2 ^ 32) by (apply Z.pow_le_mono_r; lia).
  rewrite bswap_involutive by (unfold UINT32; lia). lia.
Qed.
Lemma aligned_end x h : 0 ≤ h ≤ 32 → 0 ≤ x < UINT32 → x mod 2 ^ h = 0 → x + 2 ^ h ≤ UINT32.
Proof.
  unfold UINT32. intros Hh Hx Hm. assert (0 < 2 ^ h) by (apply Z.pow_pos_nonneg; lia).
  assert (E : 2 ^ 32 = 2 ^ (32 - h) * 2 ^ h) by (rewrite <- Z.pow_add_r by lia; f_equal; lia).
  apply Z.mod_divide in Hm as [t ->]; [|lia]. rewrite E in *.
  assert (t < 2 ^ (32 - h)) by (apply (Z.mul_lt_mono_pos_r (2 ^ h)); lia). nia.
Qed.
Lemma broadcast_end s : subnet_wf s →
  take (nwords_of (is_inet s)) (broadcast_of (s_sub s)) =
    take (nwords_of (is_inet s)) (tried_addr (is_inet s) (first_word s) (net s + block s - 1)) ∧
  net s + block s - 1 < UINT32.
Proof.
  intros Hwf. pose proof (wf_mask _ Hwf) as (h & Hh & Hm & Hn & H0).
  rewrite (block_spec s h Hh Hm). pose proof (aligned_end (net s) h Hh (number_range _ _) Hn) as Hend.
  split; [|lia].
  assert (Hadd : add_be (bswap 4 (net s)) (2 ^ h - 1) = bswap 4 (net s + 2 ^ h - 1)).
  { assert (0 < 2 ^ h) by (apply Z.pow_pos_nonneg; lia). pose proof (number_range (is_inet s) (sub (s_sub s))) as Hr.
    fold (net s) in Hr. unfold UINT32 in *. rewrite add_be_nocarry; [f_equal; lia|unfold UINT32; lia..|].
    apply (nocarry_aligned _ _ h); lia. }
  unfold add_be in Hadd. rewrite <- mask_complement in Hadd by done.
  destruct (wf_sub _ Hwf) as [Hl Hw]. revert Hm H0 Hadd. unfold net, number, first_word, broadcast_of.
  destruct (sub (s_sub s)) as [|w [|w1 [|w2 [|w3 [|]]]]]; try done.
  apply Forall_cons in Hw as [Hr0 Hw]. apply Forall_cons in Hw as [Hr1 _].
  destruct (is_inet s); cbn -[bswap UINT32]; intros Hm H0 Hadd.
  - destruct (mask (s_sub s)) as [|m ms]; [done|]. injection Hm as ->. cbn -[bswap UINT32].
    rewrite bswap_involutive in Hadd by done. by rewrite Hadd.
  - specialize (H0 eq_refl). destruct (mask (s_sub s)) as [|m [|m1 ms]]; try done.
    injection Hm as ->. injection H0 as ->. cbn -[bswap UINT32].
    rewrite bswap_involutive in Hadd by done. rewrite Hadd. do 2 f_equal.
    replace (w + (UINT32 - 1 - (UINT32 - 1))) with w by lia. by apply Z.mod_small.
Qed.

(** The end of a range is the address after its upper end. *)
Lemma next_end s words : end_ok s words → number (is_inet s) words mod 256 ≠ 255 →
  take (nwords_of (is_inet s)) (alter (λ w, add_be w 1) (last_of (is_inet s)) words) =
    take (nwords_of (is_inet s)) (tried_addr (is_inet s) (first_word s) (number (is_inet s) words + 1)) ∧
  number (is_inet s) words + 1 < UINT32.
Proof.
  intros He H255. pose proof (number_range (is_inet s) words) as Hr. pose proof (take_number s words He) as Ht.
  assert (Hlt : number (is_inet s) words + 1 < UINT32).
  { assert (number (is_inet s) words ≠ UINT32 - 1) by (intros E; rewrite E in H255; done). lia. }
  split; [|done].
  assert (Hadd : add_be (bswap 4 (number (is_inet s) words)) 1 = bswap 4 (number (is_inet s) words + 1)).
  { apply add_be_nocarry; [lia|unfold UINT32; lia|]. apply nocarry_last; [lia|lia|].
    pose proof (Z.mod_pos_bound (number (is_inet s) words) 256). lia. }
  destruct He as [[Hl Hw] H0]. destruct words as [|w [|w1 [|w2 [|w3 [|]]]]]; try done.
  destruct (is_inet s); cbn -[bswap UINT32 add_be] in *.
  - injection Ht as Ht. rewrite <- Ht in Hadd. by rewrite Hadd.
  - injection Ht as Ht0 Ht. rewrite <- Ht in Hadd. by rewrite Hadd, <- Ht0.
Qed.

Lemma plain_nocarry i k : plain i → 0 ≤ fst i → 0 ≤ k ≤ snd i - fst i → nocarry (fst i) k.
Proof.
  intros [H1 [(b & Hb & Hm & Hl)|Hl]] H0 Hk; [apply (nocarry_aligned _ _ b); lia|apply nocarry_last; lia].
Qed.

(** ** Filling the pool of a subnet *)

Abbreviation run_ranges sess me s :=
  (range_loop sess me (sub (s_sub s)) (sub (s_gw s)) (nwords_of (is_inet s)) (last_of (is_inet s)) (broadcast_of (s_sub s))).

Lemma range_loop_contents sess me s : subnet_wf s → ∀ l i j arr arr',
  Forall (bounds_ok s) l → Forall plain (interval s <$> l) →
  run_ranges sess me s l i arr = Some (j, arr') →
  filled me i j arr arr' (take (sess - i) (ranges_addrs s l)).
Proof.
  intros Hwf l. induction l as [|[low high] l IH]; intros i j arr arr' Hb Hp E.
  { injection E as <- <-. unfold ranges_addrs, filled. cbn. rewrite take_nil, Nat.add_0_r, app_nil_r. done. }
  apply Forall_cons in Hb as [[Hlow Hhigh] Hb]. apply Forall_cons in Hp as [Hp1 Hp]. cbn [fst snd] in Hlow, Hhigh.
  cbn [range_loop] in E.
  destruct (range_start (sub (s_sub s)) low) as [start|] eqn:Es; [|done].
  destruct (range_end (last_of (is_inet s)) (broadcast_of (s_sub s)) high) as [end_|] eqn:Ee; [|done].
  cbn [mbind option_bind] in E.
  destruct (pool_loop _ _ _ _ _ _ _ _ _ _ _ _) as [[i1 arr1]|] eqn:E1 in E; [|done]. cbn [mbind option_bind] in E.
  assert (Hstart : take (nwords_of (is_inet s)) start =
      take (nwords_of (is_inet s)) (tried_addr (is_inet s) (first_word s) (fst (interval s (low, high)))) ∧
      0 ≤ fst (interval s (low, high))).
  { split; [|apply low_range]. destruct low as [[low|]|]; [|done|]; injection Es as <-.
    - by apply take_number.
    - by apply take_number, sub_end_ok. }
  assert (Hend : take (nwords_of (is_inet s)) end_ =
      take (nwords_of (is_inet s)) (tried_addr (is_inet s) (first_word s) (snd (interval s (low, high)))) ∧
      snd (interval s (low, high)) < UINT32).
  { destruct high as [[high|]|]; [|done|injection Ee as <-; by apply broadcast_end].
    injection Ee as <-. cbn [interval snd]. destruct Hhigh as [Hh H255]. by apply next_end. }
  destruct Hstart as [Hs H0], Hend as [He Hlim].
  apply (pool_loop_contents sess me _ _ _ (first_word s) start end_ _ _ Hs He H0 Hlim) in E1.
  2: { intros k Hk. by apply plain_nocarry. }
  2: { destruct Hp1. lia. }
  rewrite Z.add_0_r in E1. destruct E1 as (-> & Ht1 & Hl1).
  apply IH in E as (-> & Ht2 & Hl2); [|done..].
  unfold ranges_addrs. rewrite !fmap_cons. cbn [concat]. rewrite take_app.
  set (l1 := range_addrs _ _ _ _ _ _ _) in *. change (interval_addrs s (interval s (low, high))) with l1.
  assert (Hsub : (sess - i - length l1)%nat = (sess - (i + length (take (sess - i) l1)))%nat ∨
     (sess - i - length l1)%nat = 0%nat ∧ (sess - (i + length (take (sess - i) l1)))%nat = 0%nat)
    by (rewrite length_take; lia).
  fold (ranges_addrs s l).
  replace (take (sess - i - length l1) (ranges_addrs s l))
    with (take (sess - (i + length (take (sess - i) l1))) (ranges_addrs s l)) by (by destruct Hsub as [-> |[-> ->]]).
  split; [rewrite length_app; lia|]. split; [|congruence]. by rewrite fmap_app, Ht2, Ht1, app_assoc.
Qed.

(** It ends for every configuration whose texts are addresses. *)
Definition parsed (b : bound) : Prop := match b with None => True | Some None => False | Some (Some ip) => length (sub ip) = 4%nat end.
Lemma pool_loop_length sess me sub gw nw li fuel start end_ inc i arr j arr' :
  pool_loop sess me sub gw nw li fuel start end_ inc i arr = Some (j, arr') → length arr' = length arr.
Proof.
  revert inc i arr. induction fuel as [|fuel IH]; intros inc i arr E; [done|]. cbn [pool_loop] in E.
  destruct (i <? sess)%nat; [|by injection E as _ <-]. destruct (_ || _); [done|].
  destruct (tried _ _ _ _) as [a|]; [|done]. cbn [mbind option_bind] in E.
  destruct (same_words nw a end_); [injection E as _ <-; apply length_insert|].
  destruct (same_words nw a sub); [|destruct (same_words nw a gw)]; apply IH in E; by rewrite !length_insert in E.
Qed.
Lemma range_loop_total sess me s l i arr : length (sub (s_sub s)) = 4%nat →
  Forall (λ r, parsed (fst r) ∧ parsed (snd r)) l → (sess ≤ length arr)%nat → Z.of_nat sess < 2 ^ 31 - 3 →
  ∃ r, run_ranges sess me s l i arr = Some r.
Proof.
  intros H4 Hl Ha Hb. revert i arr Ha. induction Hl as [|[low high] l [Hlow Hhigh] _ IH]; intros i arr Ha; [by eexists|].
  cbn [range_loop fst snd] in *.
  destruct (range_start (sub (s_sub s)) low) as [start|] eqn:Es; [|by destruct low as [[]|]].
  destruct (range_end (last_of (is_inet s)) (broadcast_of (s_sub s)) high) as [end_|] eqn:Ee; [|by destruct high as [[]|]].
  cbn [mbind option_bind].
  destruct (pool_loop_total sess me (sub (s_sub s)) (sub (s_gw s)) (nwords_of (is_inet s)) (last_of (is_inet s))
    ltac:(destruct (is_inet s); cbn; lia) start end_ i arr) as [[i1 arr1] E1]; [|done|done|].
  { assert (length start = 4%nat) as -> by (destruct low as [[]|]; [|done|]; by injection Es as <-).
    destruct (is_inet s); cbn; lia. }
  rewrite E1. cbn [mbind option_bind]. apply IH. by rewrite (pool_loop_length _ _ _ _ _ _ _ _ _ _ _ _ _ _ E1).
Qed.

(** ** The addresses are different and those of the ranges *)

Lemma elem_of_lists {A} (x : A) ls : x ∈ concat ls ↔ ∃ l, x ∈ l ∧ l ∈ ls.
Proof.
  rewrite list_elem_of_In, in_concat. setoid_rewrite list_elem_of_In. naive_solver.
Qed.
Lemma interval_range s r : subnet_wf s → bounds_ok s r → 0 ≤ fst (interval s r) ∧ snd (interval s r) < UINT32.
Proof.
  intros Hwf [Hlow Hhigh]. split; [apply low_range|]. destruct r as [low high]. cbn [fst snd interval] in *.
  destruct high as [[high|]|]; [|done|by apply broadcast_end]. destruct Hhigh. by apply next_end.
Qed.
Lemma elem_of_interval s i a : a ∈ interval_addrs s i ↔
  usable (is_inet s) (sub (s_sub s)) (sub (s_gw s)) a ∧
  ∃ x, fst i ≤ x < snd i ∧ a = ue_addr (is_inet s) (first_word s) (fst i) x.
Proof.
  unfold interval_addrs, range_addrs. rewrite list_elem_of_filter, list_elem_of_fmap.
  split; (intros [Hu (x & H1 & H2)]; split; [done|]; exists x).
  - apply elem_of_seqZ in H2. split; [lia|done].
  - split; [done|]. apply elem_of_seqZ. lia.
Qed.
Lemma elem_of_subnet_addrs sess s a : a ∈ subnet_addrs sess s →
  usable (is_inet s) (sub (s_sub s)) (sub (s_gw s)) a ∧
  ∃ r x, r ∈ ranges_of s ∧ fst (interval s r) ≤ x < snd (interval s r) ∧
    a = ue_addr (is_inet s) (first_word s) (fst (interval s r)) x.
Proof.
  intros Ha%subseteq_take. unfold ranges_addrs in Ha. apply elem_of_lists in Ha as (l & Ha & Hl).
  apply list_elem_of_fmap in Hl as (i & -> & Hi). apply list_elem_of_fmap in Hi as (r & -> & Hr).
  apply elem_of_interval in Ha as (Hu & x & Hx & ->). split; [done|]. by exists r, x.
Qed.

Lemma interval_nodup s i : 0 ≤ fst i → snd i < UINT32 →
  NoDup (take (nwords_of (is_inet s)) <$> interval_addrs s i).
Proof.
  intros H0 H1. unfold interval_addrs, range_addrs. apply NoDup_fmap_2_strong.
  - intros a b (_ & x & Hx & ->)%elem_of_interval (_ & y & Hy & ->)%elem_of_interval E.
    rewrite !take_ue_addr in E. apply tried_addr_inj in E; [by subst|lia..].
  - apply NoDup_filter, NoDup_fmap_2_strong; [|apply NoDup_seqZ].
    intros x y Hx%elem_of_seqZ Hy%elem_of_seqZ E. apply (f_equal (take (nwords_of (is_inet s)))) in E.
    rewrite !take_ue_addr in E. apply tried_addr_inj in E; [done|lia..].
Qed.
Lemma ranges_nodup s l : Forall (λ i, 0 ≤ fst i ∧ snd i < UINT32) l → disjoint_intervals l →
  NoDup (take (nwords_of (is_inet s)) <$> concat (interval_addrs s <$> l)).
Proof.
  induction l as [|i l IH]; intros Hl Hd; [constructor|]. apply Forall_cons in Hl as [[H0 H1] Hl]. destruct Hd as [Hi Hd].
  cbn [fmap list_fmap concat]. rewrite fmap_app. apply NoDup_app. split; [by apply interval_nodup|]. split; [|by apply IH].
  intros w Hw Hw'. apply list_elem_of_fmap in Hw as (a & -> & Ha). apply list_elem_of_fmap in Hw' as (b & E & Hb).
  apply elem_of_lists in Hb as (m & Hb & Hm). apply list_elem_of_fmap in Hm as (k & -> & Hk).
  apply elem_of_interval in Ha as (_ & x & Hx & ->), Hb as (_ & y & Hy & ->).
  rewrite Forall_forall in Hl, Hi. specialize (Hl _ Hk). specialize (Hi _ Hk).
  rewrite !take_ue_addr in E. apply tried_addr_inj in E; [subst; lia|lia..].
Qed.
Lemma subnet_addrs_nodup sess s : subnet_wf s → NoDup (take (nwords_of (is_inet s)) <$> subnet_addrs sess s).
Proof.
  intros Hwf. unfold subnet_addrs. rewrite fmap_take. eapply sublist_NoDup; [|apply sublist_take].
  apply ranges_nodup; [|apply Hwf]. apply Forall_forall. intros i (r & -> & Hr)%list_elem_of_fmap.
  apply interval_range; [done|]. pose proof (wf_bounds _ Hwf) as Hb. rewrite Forall_forall in Hb. by apply Hb.
Qed.

(** Without ranges: every address of the prefix but the first, the last and
    the gateway, in their order, as far as the pool has room. *)
Lemma prefix_addrs sess s : s_range s = [] → subnet_addrs sess s =
  take sess (filter (usable (is_inet s) (sub (s_sub s)) (sub (s_gw s)))
    (ue_addr (is_inet s) (first_word s) (net s) <$> seqZ (net s) (block s - 1))).
Proof.
  intros E. unfold subnet_addrs, ranges_of, ranges_addrs. rewrite E. cbn. rewrite app_nil_r.
  unfold interval_addrs, range_addrs. cbn [fst snd interval]. do 4 f_equal. lia.
Qed.

(** ** Pools whose size was reduced *)

(** Arrays longer than the size, or no node at all. *)
Definition grow (p : ogs_pool T) (x y : list (option nat)) (z : list Z) : ogs_pool T :=
  Pool (head p) (tail p) (size_ p) (avail p) (free p ++ x) (ids p ++ z) (index p ++ y) (id_hash p) (id p).
Definition ue_pool_ok (p : ogs_pool T) (fs used : list nat) : Prop :=
  (avail p = 0%nat ∧ fs = [] ∧ used = []) ∨ ∃ p0 x y z, p = grow p0 x y z ∧ pool_ok p0 fs used.

Lemma ue_pool_avail p fs used : ue_pool_ok p fs used → avail p = length fs.
Proof. intros [(? & -> & _)|(p0 & x & y & z & -> & [])]; done. Qed.
Lemma ue_pool_nodup p fs used : ue_pool_ok p fs used → NoDup (fs ++ used).
Proof. intros [(? & -> & ->)|(p0 & x & y & z & -> & Hok)]; [constructor|by eapply pool_nodup]. Qed.

Lemma ue_pool_alloc p n fs used : ue_pool_ok p (n :: fs) used →
  ∃ p', ogs_pool_alloc p = Some (Some n, p') ∧ ue_pool_ok p' fs (n :: used).
Proof.
  intros [(_ & E & _)|(p0 & x & y & z & -> & Hok)]; [done|].
  destruct (alloc_ok _ _ _ _ Hok) as (p' & E & Hok' & _). exists (grow p' x y z).
  split; [|right; by exists p', x, y, z]. pose proof (pool_node_lt _ _ _ n Hok ltac:(by left)) as Hn.
  destruct Hok as [Hf Hi _ Hh _ _ _ _ _]. revert E. unfold ogs_pool_alloc, grow, set_index, ogs_pool_index, mbind, M_bind, m_get, m_some, m_modify, mret, M_ret.
  cbn [avail head free index]. destruct (decide _); [|done]. rewrite lookup_app_l by lia.
  destruct (free p0 !! head p0) as [[m|]|]; [|done|done]. intros [= -> <-]. cbn.
  by rewrite !insert_app_l by lia.
Qed.
Lemma ue_pool_free p fs l1 n l2 : ue_pool_ok p fs (l1 ++ n :: l2) →
  ∃ p', ogs_pool_free n p = Some (tt, p') ∧ ue_pool_ok p' (fs ++ [n]) (l1 ++ l2).
Proof.
  intros [(_ & _ & E)|(p0 & x & y & z & -> & Hok)]; [by destruct l1|].
  destruct (free_ok _ _ _ _ _ Hok) as (p' & E & Hok' & _). exists (grow p' x y z).
  split; [|right; by exists p', x, y, z].
  pose proof (pool_node_lt _ _ _ n Hok ltac:(in_list)) as Hn.
  pose proof (pool_length _ _ _ Hok) as Hlen. rewrite length_app in Hlen. cbn in Hlen.
  destruct Hok as [Hf Hi _ Hh _ Ht _ _ _]. revert E. unfold ogs_pool_free, grow, set_index, ogs_pool_index, m_modify.
  assert (tail p0 < size_ p0)%nat by (rewrite Ht; apply Nat.mod_upper_bound; lia).
  cbn. destruct (decide _); intros [= <-]; cbn; [|done]. by rewrite !insert_app_l by lia.
Qed.
Lemma ue_pool_start sess hash k : (k ≤ sess)%nat →
  ue_pool_ok (resize (ogs_pool_init sess hash) k) (seq 0 k) [].
Proof.
  intros Hk. destruct (decide (k = 0%nat)) as [->|]; [by left|]. right.
  exists (ogs_pool_init k hash), (Some <$> seq k (sess - k)), (replicate (sess - k) None), (replicate (sess - k) 0).
  split; [|apply init_ok; lia]. unfold grow, resize, ogs_pool_init. cbn.
  rewrite <- fmap_app, <- !replicate_add, <- seq_app. by replace (k + (sess - k))%nat with sess by lia.
Qed.

(** ** Reachable states *)

(** A process adds its subnets. *)
Inductive configured (sess : nat) : ue_ctx T → Prop :=
  | configured_init : configured sess ue_ctx_init
  | configured_add c hash prefix gateway dnn ifname range i c' :
      configured sess c →
      ogs_pfcp_subnet_add sess hash prefix gateway dnn ifname range c = Some (i, c') →
      (∀ s, subnets c' !! i = Some s → subnet_wf s) →
      configured sess c'.

(** It fills the pools, and sessions come and go; [held]: the addresses that
    sessions have. *)
Inductive ue_reachable (sess : nat) : ue_ctx T → list ue_ptr → Prop :=
  | reach_start c0 c : configured sess c0 → ogs_pfcp_ue_pool_generate sess c0 = Some (tt, c) → ue_reachable sess c []
  | reach_alloc c held family dnn words memory p c' : ue_reachable sess c held →
      ogs_pfcp_ue_ip_alloc family dnn words memory c = Some (inl p, c') → ue_reachable sess c' (p :: held)
  | reach_refused c held family dnn words memory cause c' : ue_reachable sess c held →
      ogs_pfcp_ue_ip_alloc family dnn words memory c = Some (inr cause, c') → ue_reachable sess c' held
  | reach_free c l1 p l2 c' : ue_reachable sess c (l1 ++ p :: l2) →
      ogs_pfcp_ue_ip_free p c = Some (tt, c') → ue_reachable sess c' (l1 ++ l2).

(** A subnet before and after its pool is filled. *)
Definition subnet_new (sess : nat) s : Prop :=
  subnet_wf s ∧ (∃ hash, s_pool s = ogs_pool_init sess hash) ∧ s_array s = replicate sess None.
Record subnet_ok (sess : nat) (held : list ue_ptr) (i : positive) s : Prop := {
  so_wf : subnet_wf s;
  so_array : ∀ n a, subnet_addrs sess s !! n = Some a → s_array s !! n = Some (Some (UeIp a i false));
  so_pool : ∃ fs used, ue_pool_ok (s_pool s) fs used ∧ fs ++ used ≡ₚ seq 0 (length (subnet_addrs sess s)) ∧
    ∀ n, n ∈ used ↔ IN_POOL i n ∈ held }.

Record ctx_ok (ok : positive → ogs_pfcp_subnet T → Prop) (c : ue_ctx T) : Prop := {
  co_nodup : NoDup (subnet_list c);
  co_list : ∀ i, i ∈ subnet_list c ↔ is_Some (subnets c !! i);
  co_subnets : ∀ i s, subnets c !! i = Some s → ok i s }.
Record ue_ok (sess : nat) (c : ue_ctx T) (held : list ue_ptr) : Prop := {
  uo_ctx : ctx_ok (subnet_ok sess held) c;
  uo_held : NoDup held;
  uo_pool : ∀ i n, IN_POOL i n ∈ held → i ∈ subnet_list c;
  uo_heap : ∀ k, ON_HEAP k ∈ held ↔ is_Some (heap c !! k);
  uo_static : ∀ k ip, heap c !! k = Some ip → static_ip ip = true }.

Lemma ctx_ok_add sess c d i s h : ctx_ok (λ _, subnet_new sess) c → subnets c !! i = None → subnet_new sess s →
  ctx_ok (λ _, subnet_new sess) (UeCtx d (<[i := s]> (subnets c)) (subnet_list c ++ [i]) h).
Proof.
  intros [Hn Hl Hs] Hi Hnew. split; cbn.
  - apply NoDup_app. split; [done|]. split; [|apply NoDup_singleton].
    intros k Hk ->%list_elem_of_singleton. apply Hl in Hk as [? Hk]. congruence.
  - intros k. rewrite elem_of_app, list_elem_of_singleton, Hl. destruct (decide (i = k)) as [->|].
    + rewrite lookup_insert_eq. naive_solver.
    + rewrite lookup_insert_ne by done. naive_solver.
  - intros k s' [[<- <-]|[_ Hk]]%lookup_insert_Some; [done|by eapply Hs].
Qed.
Lemma configured_ok sess c : configured sess c → ctx_ok (λ _, subnet_new sess) c ∧ heap c = ∅.
Proof.
  induction 1 as [|c hash prefix gateway dnn ifname range i c' _ IH E Hwf].
  { split; [|done]. split; [constructor| |done]. intros i. cbn. split; [by intros ?%elem_of_nil|by intros [? ?]]. }
  destruct IH as [Hc Hh].
  revert E Hwf. unfold ogs_pfcp_subnet_add, mbind, M_bind, m_get.
  assert (Hdev : ∀ d c1, match ogs_pfcp_dev_find_by_ifname ifname c with Some dev => mret dev | None => ogs_pfcp_dev_add ifname end c = Some (d, c1) →
    subnets c1 = subnets c ∧ subnet_list c1 = subnet_list c ∧ heap c1 = heap c).
  { intros d c1. destruct (ogs_pfcp_dev_find_by_ifname ifname c); [by intros [= <- <-]|].
    unfold ogs_pfcp_dev_add, mbind, M_bind, m_get, m_assert, m_modify, mret, M_ret. destruct (_ <? _)%nat; [|done].
    by intros [= <- <-]. }
  destruct (match ogs_pfcp_dev_find_by_ifname ifname c with Some dev => mret dev | None => ogs_pfcp_dev_add ifname end c) as [[d c1]|]; [|done].
  destruct (Hdev _ _ eq_refl) as (E1 & E2 & E3).
  intros E Hwf. unfold m_assert, m_some, m_modify, subnet_set, mret, M_ret in E.
  destruct (_ <? _)%nat; [|done].
  assert (Hi : subnets c !! fresh (dom (subnets c)) = None) by (apply not_elem_of_dom, is_fresh).
  destruct prefix as [[[[gw|] [sub|]] bits]|]; try done; destruct gateway as [[gw0|]|]; try done; cbn in E;
    injection E as <- <-; cbn in Hwf; rewrite E1, E2, E3; split; try done;
    apply ctx_ok_add; try done; (split; [apply Hwf; by rewrite E1, lookup_insert_eq|by split; [eexists|]]).
Qed.

(** ** Filling *)

Lemma set_pool_wf s p a : subnet_wf s → subnet_wf (set_pool s p a).
Proof. intros []. by split. Qed.
Lemma family_words_wf s : subnet_wf s → family_words (s_family s) = Some (nwords_of (is_inet s), last_of (is_inet s)).
Proof. intros Hwf. pose proof (wf_family _ Hwf). unfold is_inet. by destruct (s_family s). Qed.
Lemma bounds_parsed s r : bounds_ok s r → parsed (fst r) ∧ parsed (snd r).
Proof.
  intros [H1 H2]. split; [destruct (fst r) as [[]|]|destruct (snd r) as [[]|]]; cbn; try done.
  - apply H1.
  - apply H2.
Qed.

Lemma generate_subnet_ok sess i c s : Z.of_nat sess < 2 ^ 31 - 3 → subnets c !! i = Some s → subnet_new sess s →
  ∃ p a, generate_subnet sess i c = Some (tt, UeCtx (dev_list c) (<[i := set_pool s p a]> (subnets c)) (subnet_list c) (heap c)) ∧
    subnet_ok sess [] i (set_pool s p a).
Proof.
  intros Hsess Hi (Hwf & [hash Hp] & Ha).
  destruct (range_loop_total sess i s (ranges_of s) 0 (s_array s)) as [[j arr] E].
  - apply (wf_sub _ Hwf).
  - eapply Forall_impl; [apply (wf_bounds _ Hwf)|]. apply bounds_parsed.
  - by rewrite Ha, length_replicate.
  - done.
  - exists (resize (s_pool s) j), arr. split.
    + unfold generate_subnet, subnet_get, mbind, M_bind. rewrite Hi, (family_words_wf s Hwf), E. done.
    + apply range_loop_contents in E as (-> & Ht & Hl); [|done|apply Hwf|apply Hwf].
      rewrite Nat.sub_0_r in *. fold (subnet_addrs sess s) in *. split.
      * by apply set_pool_wf.
      * intros n a Hn. change (subnet_addrs sess s !! n = Some a) in Hn. cbn. apply lookup_lt_Some in Hn as Hlt.
        rewrite take_0, app_nil_l, Nat.add_0_l in Ht. assert (E : take (length (subnet_addrs sess s)) arr !! n = Some (Some (UeIp a i false)))
          by (rewrite Ht, list_lookup_fmap, Hn; done).
        by rewrite lookup_take_lt in E by lia.
      * exists (seq 0 (length (subnet_addrs sess s))), []. rewrite app_nil_r. split_and!; [|done|].
        -- cbn. rewrite Hp. apply ue_pool_start. unfold subnet_addrs. rewrite length_take. lia.
        -- intros n. split; by intros ?%elem_of_nil.
Qed.

Lemma generate_loop_ok sess todo : Z.of_nat sess < 2 ^ 31 - 3 → ∀ c, NoDup todo →
  (∀ i, i ∈ todo → ∃ s, subnets c !! i = Some s ∧ subnet_new sess s) →
  ∃ c', generate_loop sess todo c = Some (tt, c') ∧ subnet_list c' = subnet_list c ∧ heap c' = heap c ∧
    (∀ i, i ∉ todo → subnets c' !! i = subnets c !! i) ∧
    (∀ i, i ∈ todo → ∃ s, subnets c' !! i = Some s ∧ subnet_ok sess [] i s).
Proof.
  intros Hsess. induction todo as [|i todo IH]; intros c Hn Hnew.
  { exists c. split_and!; try done. by intros i ?%elem_of_nil. }
  apply NoDup_cons in Hn as [Hi Hn]. destruct (Hnew i) as (s & Hs & Hs'); [by left|].
  destruct (generate_subnet_ok sess i c s Hsess Hs Hs') as (p & a & E & Hok).
  set (c1 := UeCtx _ _ _ _) in E. destruct (IH c1) as (c' & E' & H1 & H2 & H3 & H4); [done| |].
  { intros k Hk. destruct (Hnew k) as (t & Ht & Ht'); [by right|]. exists t. split; [|done]. cbn.
    by rewrite lookup_insert_ne by (intros ->; done). }
  exists c'. split; [|split_and!; [done|done| |]].
  - cbn [generate_loop]. unfold mbind, M_bind. by rewrite E.
  - intros k [Hk Hk']%not_elem_of_cons. rewrite H3 by done. cbn. by rewrite lookup_insert_ne.
  - intros k [->|Hk]%elem_of_cons; [|by apply H4]. rewrite H3 by done. cbn. rewrite lookup_insert_eq. eauto.
Qed.

Lemma generate_ok sess c : Z.of_nat sess < 2 ^ 31 - 3 → configured sess c →
  ∃ c', ogs_pfcp_ue_pool_generate sess c = Some (tt, c') ∧ ue_ok sess c' [].
Proof.
  intros Hsess [[Hn Hl Hs] Hh]%configured_ok.
  destruct (generate_loop_ok sess (subnet_list c) Hsess c Hn) as (c' & E & H1 & H2 & H3 & H4).
  { intros i [s Hi]%Hl. exists s. split; [done|]. by eapply Hs. }
  exists c'. split; [done|]. split.
  - split; rewrite ?H1; [done| |].
    + intros i. split.
      * intros (s & E1 & _)%H4. by eexists.
      * intros [s Hi]. destruct (decide (i ∈ subnet_list c)) as [|Hni]; [done|].
        rewrite H3 in Hi by done. apply Hl. by eexists.
    + intros i s Hi. destruct (decide (i ∈ subnet_list c)) as [Hin|Hni].
      * apply H4 in Hin as (s' & E1 & Hok). congruence.
      * rewrite H3 in Hi by done. destruct Hni. apply Hl. by eexists.
  - constructor.
  - by intros i n ?%elem_of_nil.
  - intros k. rewrite H2, Hh. split; [by intros ?%elem_of_nil|by intros [? ?]].
  - intros k ip Hk. by rewrite H2, Hh in Hk.
Qed.

(** ** Sessions *)

(** The subnets that may serve a session. *)
Definition wanted (family : af) (dnn : option (list Z)) s : bool :=
  serves family s && match dnn with
    | None => bool_decide (s_dnn s = [])
    | Some dnn => bool_decide (s_dnn s = []) || strcase_eq (s_dnn s) dnn
    end.
Definition has_free s : bool := negb (avail (s_pool s) =? 0)%nat.
Definition words_of (family : af) : nat := match family with AF_INET => 1 | _ => 4 end.

Lemma find_loop_spec (ok : ogs_pfcp_subnet T → bool) m l : (∀ i, i ∈ l → is_Some (m !! i)) →
  ∃ r, find_loop ok m l = Some r ∧
    match r with
    | Some i => i ∈ l ∧ ∃ s, m !! i = Some s ∧ ok s = true
    | None => ∀ i s, i ∈ l → m !! i = Some s → ok s = false
    end.
Proof.
  induction l as [|i l IH]; intros Hl; [exists None; split; [done|]; by intros i s ?%elem_of_nil|].
  destruct (Hl i) as [s Hs]; [by left|]. cbn. rewrite Hs. cbn. destruct (ok s) eqn:Eok.
  - exists (Some i). split; [done|]. split; [by left|]. by exists s.
  - destruct IH as (r & -> & Hr); [intros k Hk; apply Hl; by right|]. exists r. split; [done|].
    destruct r as [k|].
    + destruct Hr as [Hk Hr]. split; [by right|done].
    + intros k t [->|Hk]%elem_of_cons Ht; [congruence|by eapply Hr].
Qed.
Lemma find_subnet_spec P c family dnn : ctx_ok P c → family ≠ AF_UNSPEC →
  ∃ r, match dnn with Some dnn => ogs_pfcp_find_subnet_by_dnn family dnn | None => ogs_pfcp_find_subnet family end c = Some (r, c) ∧
    match r with
    | Some i => i ∈ subnet_list c ∧ ∃ s, subnets c !! i = Some s ∧ wanted family dnn s = true ∧ has_free s = true
    | None => ∀ i s, i ∈ subnet_list c → subnets c !! i = Some s → wanted family dnn s = true → has_free s = false
    end.
Proof.
  intros [_ Hl _] Hf. destruct (find_loop_spec (λ s, wanted family dnn s && has_free s) (subnets c) (subnet_list c)) as (r & E & Hr).
  { intros i. by rewrite Hl. }
  exists r. split.
  - unfold ogs_pfcp_find_subnet_by_dnn, ogs_pfcp_find_subnet, mbind, M_bind, m_assert, m_get, m_some.
    unfold wanted, has_free in E. destruct dnn; rewrite (bool_decide_eq_true_2 _ Hf); cbn; by rewrite E.
  - destruct r as [i|].
    + destruct Hr as [Hi (s & Hs & [Hw Ha]%andb_true_iff)]. split; [done|]. by exists s.
    + intros i s Hi Hs Hw. specialize (Hr i s Hi Hs). by rewrite Hw in Hr.
Qed.

Lemma subnet_ok_held sess held held' i s : (∀ n, IN_POOL i n ∈ held' ↔ IN_POOL i n ∈ held) →
  subnet_ok sess held i s → subnet_ok sess held' i s.
Proof.
  intros Hh [Hwf Ha (fs & used & Hp & Hperm & Hu)]. split; [done..|]. exists fs, used. split_and!; [done|done|].
  intros n. by rewrite Hu, Hh.
Qed.
Lemma ctx_ok_held sess held held' c d h : (∀ i n, IN_POOL i n ∈ held' ↔ IN_POOL i n ∈ held) →
  ctx_ok (subnet_ok sess held) c → ctx_ok (subnet_ok sess held') (UeCtx d (subnets c) (subnet_list c) h).
Proof. intros Hh [Hn Hl Hs]. split; cbn; [done..|]. intros i s Hi. by eapply subnet_ok_held, Hs. Qed.
Lemma ctx_ok_set sess held held' c d h i s : ctx_ok (subnet_ok sess held) c → i ∈ subnet_list c →
  subnet_ok sess held' i s → (∀ k n, k ≠ i → IN_POOL k n ∈ held' ↔ IN_POOL k n ∈ held) →
  ctx_ok (subnet_ok sess held') (UeCtx d (<[i := s]> (subnets c)) (subnet_list c) h).
Proof.
  intros [Hn Hl Hs] Hi Hok Hh. split; cbn; [done| |].
  - intros k. rewrite Hl. destruct (decide (i = k)) as [->|].
    + rewrite lookup_insert_eq. split; [by eexists|]. intros _. by apply Hl.
    + by rewrite lookup_insert_ne.
  - intros k t [[<- <-]|[Hk Ht]]%lookup_insert_Some; [done|]. eapply subnet_ok_held; [|by eapply Hs].
    intros n. by apply Hh.
Qed.

(** What every node of a pool stands for. *)
Lemma held_lookup sess c held i n : ue_ok sess c held → IN_POOL i n ∈ held →
  ∃ s a, subnets c !! i = Some s ∧ subnet_ok sess held i s ∧ subnet_addrs sess s !! n = Some a ∧
    read_ue_ip (IN_POOL i n) c = Some (UeIp a i false).
Proof.
  intros [[_ Hl Hs] _ Hp _ _] Hin. destruct (proj1 (Hl i) (Hp _ _ Hin)) as [s Hi]. pose proof (Hs _ _ Hi) as Hok.
  destruct Hok as [Hwf Ha (fs & used & Hpool & Hperm & Hu)].
  assert (Hn : n ∈ seq 0 (length (subnet_addrs sess s))).
  { rewrite <- Hperm. apply elem_of_app. right. by apply Hu. }
  apply elem_of_seq in Hn. destruct (lookup_lt_is_Some_2 (subnet_addrs sess s) n) as [a Hna]; [lia|].
  exists s, a. split; [done|]. split; [by eapply Hs|]. split; [done|]. unfold read_ue_ip. rewrite Hi. cbn. by rewrite (Ha _ _ Hna).
Qed.

Lemma free_held sess c l1 p l2 : ue_ok sess c (l1 ++ p :: l2) →
  ∃ c', ogs_pfcp_ue_ip_free p c = Some (tt, c') ∧ ue_ok sess c' (l1 ++ l2).
Proof.
  intros Hok. pose proof (uo_held _ _ _ Hok) as Hnd.
  assert (Hmem : ∀ q, q ∈ l1 ++ l2 ↔ q ∈ l1 ++ p :: l2 ∧ q ≠ p).
  { intros q. apply NoDup_app in Hnd as (_ & H1 & [H2 _]%NoDup_cons). rewrite !elem_of_app, elem_of_cons.
    split; [|naive_solver]. intros Hq. split; [tauto|]. intros ->. destruct Hq as [Hq|Hq]; [|done].
    apply (H1 _ Hq). by left. }
  assert (Hnd' : NoDup (l1 ++ l2)).
  { rewrite <- Permutation_middle in Hnd. by apply NoDup_cons in Hnd as [_ Hnd]. }
  destruct p as [i n|k].
  - destruct (held_lookup sess c _ i n Hok) as (s & a & Hi & Hs & Ha & Hr); [in_list|].
    destruct Hs as [Hwf Harr (fs & used & Hpool & Hperm & Hu)].
    assert (Hn : n ∈ used) by (apply Hu; in_list).
    apply list_elem_of_split in Hn as (u1 & u2 & ->).
    pose proof (ue_pool_nodup _ _ _ Hpool) as Hndu. apply NoDup_app in Hndu as (_ & _ & Hndu).
    destruct (ue_pool_free _ _ _ _ _ Hpool) as (p' & Ep & Hpool').
    eexists. split.
    { unfold ogs_pfcp_ue_ip_free, mbind, M_bind, m_get, m_some, m_assert. rewrite Hr.
      cbn [static_ip ip_subnet]. rewrite bool_decide_eq_true_2 by done.
      unfold in_pool, subnet_get, mbind, M_bind, m_some. rewrite Hi, Ep. done. }
    destruct Hok as [Hctx _ Hp Hh Hst]. split.
    + cbn. eapply ctx_ok_set; [exact Hctx|apply (Hp i n); in_list| |].
      * split; [by apply set_pool_wf|exact Harr|]. exists (fs ++ [n]), (u1 ++ u2). split; [done|]. split.
        -- rewrite <- Hperm. solve_Permutation.
        -- intros m. rewrite Hmem, <- Hu. apply NoDup_app in Hndu as (_ & H1 & [H2 _]%NoDup_cons).
           rewrite !elem_of_app, elem_of_cons. split; [|naive_solver]. intros Hm.
           split; [tauto|]. intros [= ->]. destruct Hm as [Hm|Hm]; [|done]. apply (H1 _ Hm). by left.
      * intros k m Hk. rewrite Hmem. naive_solver.
    + done.
    + intros k m [Hk _]%Hmem. by eapply Hp.
    + intros k. cbn. rewrite Hmem, Hh. naive_solver.
    + done.
  - destruct Hok as [Hctx _ Hp Hh Hst]. destruct (proj1 (Hh k)) as [ip Hk]; [in_list|].
    eexists. split.
    { unfold ogs_pfcp_ue_ip_free, mbind, M_bind, m_get, m_some. cbn [read_ue_ip]. rewrite Hk, (Hst _ _ Hk). done. }
    split.
    + cbn. eapply ctx_ok_held; [|exact Hctx]. intros i n. rewrite Hmem. naive_solver.
    + done.
    + intros i n [Hk' _]%Hmem. by eapply Hp.
    + intros k'. cbn. rewrite Hmem, Hh. destruct (decide (k = k')) as [->|].
      * rewrite lookup_delete_eq. split; [by intros [_ ?]|by intros [? ?]].
      * rewrite lookup_delete_ne by done. naive_solver.
    + intros k' ip' Hk'. cbn in Hk'. apply lookup_delete_Some in Hk' as [_ Hk']. by eapply Hst.
Qed.

(** No free address is left in a subnet. *)
Definition all_held (sess : nat) (c : ue_ctx T) (held : list ue_ptr) (i : positive) s : Prop :=
  subnets c !! i = Some s ∧ ∀ n, (n < length (subnet_addrs sess s))%nat → IN_POOL i n ∈ held.
Lemma has_free_held sess c held i s : subnets c !! i = Some s → subnet_ok sess held i s →
  has_free s = false ↔ all_held sess c held i s.
Proof.
  intros Hi [_ _ (fs & used & Hpool & Hperm & Hu)]. unfold has_free, all_held.
  rewrite (ue_pool_avail _ _ _ Hpool), negb_false_iff, Nat.eqb_eq. split.
  - intros ->%length_zero_iff_nil. split; [done|]. intros n Hn. apply Hu. cbn in Hperm. rewrite Hperm.
    apply elem_of_seq. lia.
  - intros [_ Hall]. destruct fs as [|n fs]; [done|]. exfalso.
    assert (Hn : n ∈ seq 0 (length (subnet_addrs sess s))) by (rewrite <- Hperm; by left).
    apply elem_of_seq in Hn. pose proof (ue_pool_nodup _ _ _ Hpool) as Hnd. apply NoDup_cons in Hnd as [Hnd _].
    apply Hnd, elem_of_app. right. apply Hu, Hall. lia.
Qed.

Lemma alloc_node sess c held i s : ue_ok sess c held → i ∈ subnet_list c → subnets c !! i = Some s → has_free s = true →
  ∃ n c', in_pool i ogs_pool_alloc c = Some (Some n, c') ∧ ue_ok sess c' (IN_POOL i n :: held).
Proof.
  intros [Hctx Hnd Hp Hh Hst] Hi Hs Hfree. pose proof (co_subnets _ _ Hctx _ _ Hs) as [Hwf Harr (fs & used & Hpool & Hperm & Hu)].
  unfold has_free in Hfree. rewrite (ue_pool_avail _ _ _ Hpool) in Hfree. destruct fs as [|n fs]; [done|].
  pose proof (ue_pool_nodup _ _ _ Hpool) as Hndp. apply NoDup_cons in Hndp as [Hn _].
  destruct (ue_pool_alloc _ _ _ _ Hpool) as (p' & Ep & Hpool'). eexists n, _. split.
  { unfold in_pool, subnet_get, mbind, M_bind, m_some. rewrite Hs, Ep. done. }
  split.
  - cbn. eapply ctx_ok_set; [exact Hctx|exact Hi| |].
    + split; [by apply set_pool_wf|exact Harr|]. exists fs, (n :: used). split; [done|]. split.
      * rewrite <- Hperm. solve_Permutation.
      * intros m. rewrite !elem_of_cons, Hu. naive_solver.
    + intros k m Hk. rewrite elem_of_cons. naive_solver.
  - apply NoDup_cons. split; [|done]. intros Hin%Hu. apply Hn, elem_of_app. by right.
  - intros k m [[= -> ->]|Hk]%elem_of_cons; [done|]. by eapply Hp.
  - intros k. cbn. rewrite elem_of_cons, <- Hh. naive_solver.
  - done.
Qed.
Lemma alloc_static sess c held i w : ue_ok sess c held →
  let k := fresh (dom (heap c)) in
  ue_ok sess (UeCtx (dev_list c) (subnets c) (subnet_list c) (<[k := UeIp w i true]> (heap c))) (ON_HEAP k :: held).
Proof.
  intros [Hctx Hnd Hp Hh Hst] k.
  assert (Hk : heap c !! k = None) by (apply not_elem_of_dom, is_fresh). split.
  - eapply ctx_ok_held; [|exact Hctx]. intros j n. rewrite elem_of_cons. naive_solver.
  - apply NoDup_cons. split; [|done]. rewrite Hh, Hk. by intros [? ?].
  - intros j n [[=]|Hj]%elem_of_cons. by eapply Hp.
  - intros k'. cbn. rewrite elem_of_cons, Hh. destruct (decide (k = k')) as [->|].
    + rewrite lookup_insert_eq. split; [by eexists|by left].
    + rewrite lookup_insert_ne by done. naive_solver.
  - intros k' ip Hk'. cbn in Hk'. apply lookup_insert_Some in Hk' as [[<- <-]|[_ Hk']]; [done|]. by eapply Hst.
Qed.

Lemma alloc_held sess c held family dnn words memory : ue_ok sess c held →
  family ≠ AF_UNSPEC → (words_of family ≤ length words)%nat →
  ∃ r c', ogs_pfcp_ue_ip_alloc family dnn words memory c = Some (r, c') ∧
    match r with inl p => ue_ok sess c' (p :: held) | inr _ => c' = c end ∧
    (r = inr OGS_PFCP_CAUSE_NO_RESOURCES_AVAILABLE ↔
      ∀ i s, i ∈ subnet_list c → subnets c !! i = Some s → wanted family dnn s = true → all_held sess c held i s).
Proof.
  intros Hok Hf Hw. pose proof (uo_ctx _ _ _ Hok) as Hctx.
  destruct (find_subnet_spec _ c family dnn Hctx Hf) as (r & E & Hr).
  assert (Ealloc : ogs_pfcp_ue_ip_alloc family dnn words memory c =
    match r with
    | None => Some (inr OGS_PFCP_CAUSE_NO_RESOURCES_AVAILABLE, c)
    | Some i =>
        (if bool_decide (take (words_of family) words = replicate (words_of family) 0) then
          node ← in_pool i ogs_pool_alloc;
          mret (match node with Some n => inl (IN_POOL i n) | None => inr OGS_PFCP_CAUSE_NO_RESOURCES_AVAILABLE end)
        else if memory then
          c ← m_get;
          let k := fresh (dom (heap c)) in
          m_modify (λ c, UeCtx (dev_list c) (subnets c) (subnet_list c)
            (<[k := UeIp (take (words_of family) words ++ replicate (4 - words_of family) 0) i true]> (heap c)));;
          mret (inl (ON_HEAP k))
        else mret (inr OGS_PFCP_CAUSE_ALL_DYNAMIC_ADDRESS_ARE_OCCUPIED)) c
    end).
  { unfold ogs_pfcp_ue_ip_alloc, mbind, M_bind, m_assert in *. apply Nat.leb_le in Hw.
    destruct family; [done|..]; cbn -[in_pool]; cbn in Hw; rewrite Hw, E; by destruct r. }
  rewrite Ealloc. destruct r as [i|].
  - destruct Hr as (Hi & s & Hs & Hwant & Hfree).
    assert (Hnot : ¬ ∀ i s, i ∈ subnet_list c → subnets c !! i = Some s → wanted family dnn s = true → all_held sess c held i s).
    { intros Hall. specialize (Hall i s Hi Hs Hwant). apply (has_free_held sess c held i s) in Hall; [congruence|done|].
      by eapply co_subnets. }
    case_bool_decide.
    + destruct (alloc_node _ _ _ _ _ Hok Hi Hs Hfree) as (n & c' & En & Hok'). unfold mbind, M_bind. rewrite En.
      eexists _, c'. split; [done|]. split; [done|]. by split.
    + destruct memory.
      * eexists (inl (ON_HEAP (fresh (dom (heap c))))), _. unfold mbind, M_bind, m_get, m_modify, mret, M_ret.
        split; [reflexivity|]. split; [exact (alloc_static sess c held i _ Hok)|]. by split.
      * eexists _, _. split; [done|]. split; [done|]. by split.
  - eexists _, _. split; [done|]. split; [done|]. split; [|done]. intros _ i s Hi Hs Hwant.
    apply has_free_held; [done|by eapply co_subnets|by eapply Hr].
Qed.

Lemma alloc_pre family dnn words memory c r : ogs_pfcp_ue_ip_alloc (T:=T) family dnn words memory c = Some r →
  family ≠ AF_UNSPEC ∧ (words_of family ≤ length words)%nat.
Proof.
  unfold ogs_pfcp_ue_ip_alloc, mbind, M_bind, m_assert. destruct family; [done|..]; cbn -[Nat.leb].
  all: destruct (_ <=? _)%nat eqn:E; [|done]; intros _; split; [done|]; by apply Nat.leb_le.
Qed.
Lemma ue_reachable_ok sess c held : Z.of_nat sess < 2 ^ 31 - 3 → ue_reachable sess c held → ue_ok sess c held.
Proof.
  intros Hsess. induction 1 as [c0 c H0 E|c held family dnn words memory p c' _ IH E|c held family dnn words memory cause c' _ IH E|c l1 p l2 c' _ IH E].
  - destruct (generate_ok sess c0 Hsess H0) as (c1 & E1 & Hok). congruence.
  - assert (Hpre : family ≠ AF_UNSPEC ∧ (words_of family ≤ length words)%nat) by (by eapply alloc_pre).
    destruct Hpre as [Hf Hw]. destruct (alloc_held sess c held family dnn words memory IH Hf Hw) as (r & c1 & E1 & Hok & _).
    rewrite E1 in E. injection E as -> ->. done.
  - assert (Hpre : family ≠ AF_UNSPEC ∧ (words_of family ≤ length words)%nat) by (by eapply alloc_pre).
    destruct Hpre as [Hf Hw]. destruct (alloc_held sess c held family dnn words memory IH Hf Hw) as (r & c1 & E1 & Hok & _).
    rewrite E1 in E. injection E as -> ->. by subst.
  - destruct (free_held _ _ _ _ _ IH) as (c1 & E1 & Hok). rewrite E1 in E. by injection E as ->.
Qed.

Lemma held_in_range sess c held i n : ue_ok sess c held → IN_POOL i n ∈ held →
  ∃ s ip r x, subnets c !! i = Some s ∧ read_ue_ip (IN_POOL i n) c = Some ip ∧ r ∈ ranges_of s ∧
    fst (interval s r) ≤ x < snd (interval s r) ∧
    addr ip = ue_addr (is_inet s) (first_word s) (fst (interval s r)) x ∧
    usable (is_inet s) (sub (s_sub s)) (sub (s_gw s)) (addr ip).
Proof.
  intros Hok Hin. destruct (held_lookup _ _ _ _ _ Hok Hin) as (s & a & Hi & Hs & Ha & Hr).
  apply list_elem_of_lookup_2, elem_of_subnet_addrs in Ha as (Hu & r & x & H1 & H2 & ->).
  eexists s, _, r, x. split; [exact Hi|]. split; [exact Hr|]. split; [exact H1|]. split; [exact H2|]. by split.
Qed.
Lemma held_different sess c held i n m s ip ip' : ue_ok sess c held → IN_POOL i n ∈ held → IN_POOL i m ∈ held → n ≠ m →
  subnets c !! i = Some s → read_ue_ip (IN_POOL i n) c = Some ip → read_ue_ip (IN_POOL i m) c = Some ip' →
  take (nwords_of (is_inet s)) (addr ip) ≠ take (nwords_of (is_inet s)) (addr ip').
Proof.
  intros Hok Hn Hm Hne Hi E E' Heq.
  destruct (held_lookup _ _ _ _ _ Hok Hn) as (s1 & a & Hi1 & Hs & Ha & Hr).
  destruct (held_lookup _ _ _ _ _ Hok Hm) as (s2 & b & Hi2 & _ & Hb & Hr').
  simplify_eq. cbn in Heq. apply Hne.
  eapply (proj1 (NoDup_alt _) (subnet_addrs_nodup sess s (so_wf _ _ _ _ Hs))); rewrite list_lookup_fmap.
  - by rewrite Ha.
  - rewrite Hb. cbn. by rewrite Heq.
Qed.

(** Two subnets that have no address in common: of different families, of
    different upper words (IPv6), or with ranges that do not meet. *)
Definition apart s s' : Prop :=
  is_inet s = is_inet s' → (is_inet s = false → first_word s = first_word s') →
  ∀ r r', r ∈ ranges_of s → r' ∈ ranges_of s' →
    snd (interval s r) ≤ fst (interval s' r') ∨ snd (interval s' r') ≤ fst (interval s r).

Lemma held_apart sess c held i n j m s s' ip ip' : ue_ok sess c held → IN_POOL i n ∈ held → IN_POOL j m ∈ held →
  subnets c !! i = Some s → subnets c !! j = Some s' → apart s s' → is_inet s = is_inet s' →
  read_ue_ip (IN_POOL i n) c = Some ip → read_ue_ip (IN_POOL j m) c = Some ip' →
  take (nwords_of (is_inet s)) (addr ip) ≠ take (nwords_of (is_inet s')) (addr ip').
Proof.
  intros Hok Hn Hm Hi Hj Hap Hf E E' Heq.
  destruct (held_in_range _ _ _ _ _ Hok Hn) as (s1 & a & r & x & Hi1 & Hr1 & Hr & Hx & Ha & _).
  destruct (held_in_range _ _ _ _ _ Hok Hm) as (s2 & b & r' & y & Hj1 & Hr2 & Hr' & Hy & Hb & _).
  destruct (held_lookup _ _ _ _ _ Hok Hn) as (s3 & ? & Hi3 & Hs3 & _).
  destruct (held_lookup _ _ _ _ _ Hok Hm) as (s4 & ? & Hj4 & Hs4 & _).
  simplify_eq. pose proof (so_wf _ _ _ _ Hs3) as Hwf. pose proof (so_wf _ _ _ _ Hs4) as Hwf'.
  assert (Hb1 : ∀ s r, subnet_wf s → r ∈ ranges_of s → 0 ≤ fst (interval s r) ∧ snd (interval s r) < UINT32).
  { intros s0 r0 H0 Hin. apply interval_range; [done|]. pose proof (wf_bounds _ H0) as Hb0. rewrite Forall_forall in Hb0. by apply Hb0. }
  pose proof (Hb1 _ _ Hwf Hr) as B1. pose proof (Hb1 _ _ Hwf' Hr') as B2.
  assert (Rx : 0 ≤ x < UINT32) by lia. assert (Ry : 0 ≤ y < UINT32) by lia.
  rewrite Ha, Hb, !take_ue_addr, <- Hf in Heq.
  assert (Exy : x = y ∧ (is_inet s = false → first_word s = first_word s')).
  { destruct (is_inet s); cbn -[bswap] in Heq.
    - injection Heq as Heq. split; [by apply bswap_inj|done].
    - injection Heq as H0 Heq. split; [by apply bswap_inj|by intros _]. }
  destruct Exy as [-> Hw]. destruct (Hap Hf Hw r r' Hr Hr'); lia.
Qed.

(** C14: The addresses of UEs.  For subnets that are configured as [subnet_wf]
    says - a prefix, of IPv6 one of 32 to 64 bits, without ranges, or with
    ranges that have no address in common, do not carry over an octet (they
    are aligned or within 256 addresses) and do not end in 255 - and any
    sequence of sessions that take and give back addresses, of any family and
    network, dynamic or static: the pools are filled, without endless loop;
    taking never fails otherwise than by refusing, which it does for lack of
    addresses exactly when all addresses of all subnets that serve the network
    are held; what is held can be given back; a dynamic address is of a range of
    its subnet, and neither the network nor the gateway; and no two sessions
    hold the same dynamic address (of IPv6: prefix), be they of one subnet or of
    two whose ranges have no address in common.  Nothing makes the subnets of a
    configuration have none: [overlapping_subnets] below. *)
Theorem ue_ip_leases_unique (sess : nat) (c : ue_ctx T) (held : list ue_ptr) :
  Z.of_nat sess < 2 ^ 31 - 3 → ue_reachable sess c held →
  (∀ c0, configured sess c0 → ∃ c1, ogs_pfcp_ue_pool_generate sess c0 = Some (tt, c1)) ∧
  (∀ family dnn words memory, family ≠ AF_UNSPEC → (words_of family ≤ length words)%nat →
    ∃ r c', ogs_pfcp_ue_ip_alloc family dnn words memory c = Some (r, c') ∧
      (r = inr OGS_PFCP_CAUSE_NO_RESOURCES_AVAILABLE ↔
        ∀ i s, i ∈ subnet_list c → subnets c !! i = Some s → wanted family dnn s = true → all_held sess c held i s)) ∧
  NoDup held ∧ (∀ p, p ∈ held → ∃ c', ogs_pfcp_ue_ip_free p c = Some (tt, c')) ∧
  (∀ i n, IN_POOL i n ∈ held → ∃ s ip r x, subnets c !! i = Some s ∧ read_ue_ip (IN_POOL i n) c = Some ip ∧
    r ∈ ranges_of s ∧ fst (interval s r) ≤ x < snd (interval s r) ∧
    addr ip = ue_addr (is_inet s) (first_word s) (fst (interval s r)) x ∧
    usable (is_inet s) (sub (s_sub s)) (sub (s_gw s)) (addr ip)) ∧
  (∀ i n j m s s' ip ip', IN_POOL i n ∈ held → IN_POOL j m ∈ held → (i, n) ≠ (j, m) →
    subnets c !! i = Some s → subnets c !! j = Some s' → (i ≠ j → apart s s') → is_inet s = is_inet s' →
    read_ue_ip (IN_POOL i n) c = Some ip → read_ue_ip (IN_POOL j m) c = Some ip' →
    take (nwords_of (is_inet s)) (addr ip) ≠ take (nwords_of (is_inet s')) (addr ip')).
Proof.
  intros Hsess Hr. pose proof (ue_reachable_ok sess c held Hsess Hr) as Hok. split_and!.
  - intros c0 H0. destruct (generate_ok sess c0 Hsess H0) as (c1 & E & _). by exists c1.
  - intros family dnn words memory Hf Hw.
    destruct (alloc_held sess c held family dnn words memory Hok Hf Hw) as (r & c' & E & _ & Hiff). by exists r, c'.
  - apply Hok.
  - intros p (l1 & l2 & ->)%list_elem_of_split. destruct (free_held _ _ _ _ _ Hok) as (c' & E & _). by exists c'.
  - intros i n. by eapply held_in_range.
  - intros i n j m s s' ip ip' Hn Hm Hne Hi Hj Hap Hf E E'. destruct (decide (i = j)) as [->|Hij].
    + rewrite Hi in Hj. injection Hj as <-. apply (held_different sess c held j n m s ip ip' Hok Hn Hm); try done. congruence.
    + eapply (held_apart sess c held i n j m); try done. by apply Hap.
Qed.
End config.

(** ** Prefixes of the configuration

    What [ogs_ipsubnet] makes of an address and a number of bits is a prefix:
    the mask has the bits, and the address no other. *)
Section prefix.
Variables inet_pton6 inet_pton4 : list Z → option (list Z).
Hypothesis pton6_words : ∀ s w, inet_pton6 s = Some w → length w = 4%nat ∧ Forall (λ x, 0 ≤ x < UINT32) w.
Hypothesis pton4_words : ∀ s w, inet_pton4 s = Some w → length w = 1%nat ∧ Forall (λ x, 0 ≤ x < UINT32) w.

(** The bits of word [i] of a mask of [bits]. *)
Definition word_bits (bits i : Z) : Z := Z.max 0 (Z.min 32 (bits - 32 * i)).
Lemma mask_words_bits bits : 0 < bits ≤ 128 →
  mask_words 4 bits = (λ i, bswap 4 (UINT32 - 2 ^ (32 - word_bits bits i))) <$> [0; 1; 2; 3].
Proof.
  intros Hb.
  assert (H : forallb (λ b, bool_decide (mask_words 4 b = (λ i, bswap 4 (UINT32 - 2 ^ (32 - word_bits b i))) <$> [0; 1; 2; 3])) (seqZ 1 128) = true)
    by (vm_compute; reflexivity).
  rewrite forallb_forall in H. specialize (H bits). apply bool_decide_eq_true in H; [done|].
  apply list_elem_of_In, elem_of_seqZ. lia.
Qed.
Lemma masked_aligned w h : 0 ≤ h ≤ 32 → bswap 4 (Z.land w (bswap 4 (UINT32 - 2 ^ h))) mod 2 ^ h = 0.
Proof.
  intros Hh. assert (0 < 2 ^ h) by (apply Z.pow_pos_nonneg; lia). assert (2 ^ h ≤ 2 ^ 32) by (apply Z.pow_le_mono_r; lia).
  rewrite RoutesSpec.bswap_land, bswap_involutive by (unfold UINT32; lia).
  rewrite <- Z.land_ones by lia. rewrite <- Z.land_assoc. replace (Z.land (UINT32 - 2 ^ h) (Z.ones h)) with 0; [by rewrite Z.land_0_r|].
  rewrite Z.land_ones by lia. unfold UINT32. replace (2 ^ 32) with (2 ^ (32 - h) * 2 ^ h) by (rewrite <- Z.pow_add_r by lia; f_equal; lia).
  symmetry. replace (2 ^ (32 - h) * 2 ^ h - 2 ^ h) with ((2 ^ (32 - h) - 1) * 2 ^ h) by ring. apply Z.mod_mul. lia.
Qed.

Lemma land_uint32 x y : 0 ≤ x < UINT32 → 0 ≤ y → 0 ≤ Z.land x y < UINT32.
Proof.
  intros Hx Hy. split; [apply Z.land_nonneg; lia|]. unfold UINT32 in *.
  destruct (Z.eq_dec (Z.land x y) 0) as [E|Hne]; [lia|].
  assert (x ≠ 0) by (intros ->; by rewrite Z.land_0_l in Hne).
  apply Z.log2_lt_cancel. eapply Z.le_lt_trans; [apply Z.log2_land; lia|]. change (Z.log2 (2 ^ 32)) with 32.
  eapply Z.le_lt_trans; [apply Z.le_min_l|]. apply Z.log2_lt_pow2; lia.
Qed.
Theorem ogs_ipsubnet_is_prefix old ipstr m bits ip :
  words_ok old → strtol10 m = (bits, true) → 0 < bits →
  ogs_ipsubnet inet_pton6 inet_pton4 old ipstr (Some m) = Some ip →
  bits ≤ (if family_inet ip then 32 else 128) →
  words_ok (sub ip) ∧ mask ip = mask_words 4 bits ∧
  ∀ i, (i < 4)%nat → ∃ w, sub ip !! i = Some w ∧ bswap 4 w mod 2 ^ (32 - word_bits bits (Z.of_nat i)) = 0 ∧
    mask ip !! i = Some (bswap 4 (UINT32 - 2 ^ (32 - word_bits bits (Z.of_nat i)))).
Proof.
  intros [Hol How] Hm H0 E Hbits. unfold ogs_ipsubnet in E. destruct (negb _); [done|].
  destruct (parse_ip _ _ _ _ _) as [[[inet w] mk]|] eqn:Ep; [|done]. cbn [mbind option_bind] in E. rewrite Hm in E.
  assert (Hw : length w = 4%nat ∧ Forall (λ x, 0 ≤ x < UINT32) w).
  { unfold parse_ip in Ep. destruct (inet_pton6 ipstr) as [w6|] eqn:E6.
    - destruct (IN6_IS_ADDR_V4MAPPED w6); [done|]. injection Ep as _ <- _. by eapply pton6_words.
    - destruct (inet_pton4 ipstr) as [w4|] eqn:E4; [|done]. injection Ep as _ <- _. destruct (pton4_words _ _ E4) as [H1 H2].
      rewrite length_app, length_drop. split; [lia|]. apply Forall_app. split; [done|]. by apply Forall_drop. }
  assert (Hle : bits ≤ if inet then 32 else 128) by (destruct (_ && _ && _) in E; [by injection E as <-|];
    destruct (inet_pton4 m); [|done]; destruct inet; [|done]; by injection E as <-).
  replace (true && (0 <? bits) && (bits <=? (if inet then 32 else 128))) with true in E by (symmetry; lia).
  assert (H128 : 0 < bits ≤ 128) by (destruct inet; lia). rewrite (mask_words_bits bits H128) in *.
  cbn [mbind option_bind] in E. injection E as <-. cbn [sub mask].
  destruct Hw as [Hl Hw]. destruct w as [|w0 [|w1 [|w2 [|w3 [|]]]]]; try done.
  rewrite !Forall_cons in Hw. destruct Hw as (R0 & R1 & R2 & R3 & _). cbn -[bswap UINT32 word_bits Z.sub].
  split; [|split; [done|]].
  - split; [done|]. repeat constructor; apply land_uint32; try done; apply bswap_uint32.
  - intros i Hi. assert (Hwb : ∀ j, 0 ≤ 32 - word_bits bits j ≤ 32) by (intros j; unfold word_bits; lia).
    destruct i as [|[|[|[|]]]]; [..|lia]; (eexists; split; [done|]; split; [by apply masked_aligned|done]).
Qed.
(** So that the subnets of SMF and UPF are as [subnet_wf] has them. *)
Lemma ipsubnet_wf {T} (s : ogs_pfcp_subnet T) old ipstr m bits :
  words_ok old → strtol10 m = (bits, true) → 0 < bits →
  ogs_ipsubnet inet_pton6 inet_pton4 old ipstr (Some m) = Some (s_sub s) →
  s_family s = family_of (s_sub s) → (if is_inet s then bits ≤ 32 else 32 ≤ bits ≤ 64) →
  words_ok (sub (s_sub s)) ∧
  ∃ h, 0 ≤ h ≤ 32 ∧ mask (s_sub s) !! last_of (is_inet s) = Some (bswap 4 (UINT32 - 2 ^ h)) ∧
    net s mod 2 ^ h = 0 ∧ (is_inet s = false → mask (s_sub s) !! 0%nat = Some (UINT32 - 1)).
Proof.
  intros Hold Hm H0 E Hf Hbits.
  assert (Hinet : is_inet s = family_inet (s_sub s)).
  { unfold is_inet. rewrite Hf. unfold family_of. by destruct (family_inet _). }
  rewrite Hinet in *.
  destruct (ogs_ipsubnet_is_prefix old ipstr m bits _ Hold Hm H0 E) as (Hw & _ & Hi).
  { destruct (family_inet (s_sub s)); lia. }
  split; [done|]. set (l := last_of (family_inet (s_sub s))).
  destruct (Hi l) as (w & H1 & H2 & H3); [unfold l; destruct (family_inet (s_sub s)); cbn; lia|].
  exists (32 - word_bits bits (Z.of_nat l)). split; [unfold word_bits; lia|]. split; [done|]. split.
  - unfold net, number. rewrite Hinet. fold l. by rewrite H1.
  - intros Hv6. rewrite Hv6 in Hbits. destruct (Hi 0%nat) as (_ & _ & _ & H4); [lia|]. rewrite H4.
    replace (32 - word_bits bits (Z.of_nat 0)) with 0 by (unfold word_bits; lia). done.
Qed.
End prefix.

(** ** Examples *)

Definition ipv4 (a b c d : Z) : list Z := [bswap 4 (a * 2 ^ 24 + b * 2 ^ 16 + c * 2 ^ 8 + d); 0; 0; 0].
Definition host4 (a b c d : Z) : ogs_ipsubnet_t := Ipsubnet true (ipv4 a b c d) (replicate 4 (UINT32 - 1)).
(** 10.45.0.0 with [bits] bits, gateway 10.45.0.1. *)
Definition example_subnet (sess : nat) (bits : Z) (ranges : list (bound * bound)) : M (ue_ctx unit) positive :=
  ogs_pfcp_subnet_add sess tt
    (Some (Some (host4 10 45 0 1), Some (Ipsubnet true (ipv4 10 45 0 0) [bswap 4 (UINT32 - 2 ^ (32 - bits)); 0; 0; 0]), bits))
    None None [] ranges.
Definition example_pool (sess : nat) (bits : Z) (ranges : list (bound * bound)) : option (nat * list (option (list Z))) :=
  '(s, c) ← (i ← example_subnet sess bits ranges; ogs_pfcp_ue_pool_generate sess;; subnet_get i) ue_ctx_init;
  Some (avail (s_pool s), (λ o : option ue_ip, addr <$> o) <$> s_array s).

(** A range that starts at 10.45.1.100 also has the addresses before it: the
    carry out of the last octet is lost. *)
Lemma range_loses_carry : ∃ n arr, example_pool 200 16 [(Some (Some (host4 10 45 1 100)), None)] = Some (n, arr) ∧
  n = 200%nat ∧ arr !! 155%nat = Some (Some (ipv4 10 45 1 255)) ∧ arr !! 156%nat = Some (Some (ipv4 10 45 1 0)).
Proof.
  destruct (example_pool 200 16 [(Some (Some (host4 10 45 1 100)), None)]) as [[n arr]|] eqn:E; [|by vm_compute in E].
  exists n, arr. revert E. vm_compute. intros [= <- <-]. done.
Qed.
(** So that disjoint ranges share addresses. *)
Lemma ranges_share_addresses : ∃ n arr, example_pool 260 16
    [(Some (Some (host4 10 45 1 0)), Some (Some (host4 10 45 1 50))); (Some (Some (host4 10 45 1 100)), None)] = Some (n, arr) ∧
  n = 260%nat ∧ arr !! 0%nat = arr !! 207%nat.
Proof.
  destruct (example_pool _ _ _) as [[n arr]|] eqn:E; [|by vm_compute in E].
  exists n, arr. revert E. vm_compute. intros [= <- <-]. done.
Qed.
(** A range up to an address that ends in 255 is empty. *)
Lemma range_to_255_is_empty : fst <$> example_pool 10 16 [(None, Some (Some (host4 10 45 0 255)))] = Some 0%nat.
Proof. vm_compute. reflexivity. Qed.

(** Two networks, a and b, with prefixes of 16 bits, 10.b.0.0 and 10.c.0.0, and a
    session in each. *)
Definition example_dnn (sess : nat) (name a b : Z) : M (ue_ctx unit) positive :=
  ogs_pfcp_subnet_add sess tt
    (Some (Some (host4 a b 0 1), Some (Ipsubnet true (ipv4 a b 0 0) [bswap 4 (UINT32 - 2 ^ 16); 0; 0; 0]), 16))
    None (Some [name]) [] [].
Definition two_networks (b c : Z) : M (ue_ctx unit) (option (list Z) * option (list Z)) :=
  example_dnn 4 97 10 b;; example_dnn 4 98 10 c;; ogs_pfcp_ue_pool_generate 4;;
  p ← ogs_pfcp_ue_ip_alloc AF_INET (Some [97]) [0] true;
  q ← ogs_pfcp_ue_ip_alloc AF_INET (Some [98]) [0] true;
  c ← m_get;
  let leased (r : ue_ptr + Z) := match r with inl p => addr <$> read_ue_ip p c | inr _ => None end in
  mret (leased p, leased q).
(** Two networks with one prefix are accepted; a session of each gets the same
    address. *)
Lemma overlapping_subnets : fst <$> two_networks 45 45 ue_ctx_init = Some (Some (ipv4 10 45 0 2), Some (ipv4 10 45 0 2)).
Proof. vm_compute. reflexivity. Qed.

(** The networks 10.45.0.0/16 and 10.46.0.0/16, in a process for four. *)
Lemma example_wf b (s : ogs_pfcp_subnet unit) : b = 45 ∨ b = 46 →
  s_sub s = Ipsubnet true (ipv4 10 b 0 0) [bswap 4 (UINT32 - 2 ^ 16); 0; 0; 0] → s_family s = AF_INET → s_range s = [] →
  subnet_wf s.
Proof.
  intros Hb Hs Hf Hr. destruct s as [sub gw dnn rg fam pl pool arr dev]. cbn in Hs, Hf, Hr. subst.
  destruct Hb as [-> | ->]; (split;
    [done|split; [done|by repeat constructor]
    |exists 16; split; [lia|]; split; [by vm_compute|]; split; [by vm_compute|done]
    |repeat constructor
    |constructor; [|constructor]; split; [by vm_compute|]; left; exists 16; split; [lia|by vm_compute]
    |by repeat constructor]).
Qed.
(** Three sessions, one of the first network and two of the second. *)
Lemma example_reachable : ∃ c s1 s2, ue_reachable (T:=unit) 4 c [IN_POOL 2 1; IN_POOL 2 0; IN_POOL 1 0] ∧
  subnets c !! 1%positive = Some s1 ∧ subnets c !! 2%positive = Some s2 ∧ is_inet s1 = true ∧ is_inet s2 = true ∧ apart s1 s2 ∧
  addr <$> read_ue_ip (IN_POOL 1 0) c = Some (ipv4 10 45 0 2) ∧ addr <$> read_ue_ip (IN_POOL 2 0) c = Some (ipv4 10 46 0 2).
Proof.
  destruct (example_dnn 4 97 10 45 ue_ctx_init) as [[i c]|] eqn:E; [|by vm_compute in E].
  assert (Hc : configured 4 c).
  { pose proof E as E'. unfold example_dnn in E'. refine (configured_add _ _ _ _ _ _ _ _ _ _ (configured_init _) E' _).
    vm_compute in E. injection E as <- <-. intros s [= <-]. by apply (example_wf 45); [left|..]. }
  destruct (example_dnn 4 98 10 46 c) as [[i' c']|] eqn:E'; [|vm_compute in E; injection E as <- <-; by vm_compute in E'].
  assert (Hc' : configured 4 c').
  { pose proof E' as E''. unfold example_dnn in E''. refine (configured_add _ _ _ _ _ _ _ _ _ _ Hc E'' _).
    vm_compute in E. injection E as <- <-. vm_compute in E'. injection E' as <- <-. intros s [= <-].
    by apply (example_wf 46); [right|..]. }
  clear Hc. vm_compute in E. injection E as <- <-. vm_compute in E'. injection E' as <- <-.
  match type of Hc' with configured _ ?c => destruct (ogs_pfcp_ue_pool_generate 4 c) as [[[] c1]|] eqn:E1 end;
    [|by vm_compute in E1].
  pose proof (reach_start _ _ _ Hc' E1) as H1. vm_compute in E1. injection E1 as <-.
  match type of H1 with ue_reachable _ ?c _ => destruct (ogs_pfcp_ue_ip_alloc AF_INET (Some [97]) [0] true c) as [[r2 c2]|] eqn:E2 end;
    [|by vm_compute in E2].
  destruct r2 as [p|]; [|by vm_compute in E2].
  pose proof (reach_alloc _ _ _ _ _ _ _ _ _ H1 E2) as H2. vm_compute in E2. injection E2 as <- <-.
  match type of H2 with ue_reachable _ ?c _ => destruct (ogs_pfcp_ue_ip_alloc AF_INET (Some [98]) [0] true c) as [[r3 c3]|] eqn:E3 end;
    [|by vm_compute in E3].
  destruct r3 as [p|]; [|by vm_compute in E3].
  pose proof (reach_alloc _ _ _ _ _ _ _ _ _ H2 E3) as H3. vm_compute in E3. injection E3 as <- <-.
  match type of H3 with ue_reachable _ ?c _ => destruct (ogs_pfcp_ue_ip_alloc AF_INET (Some [98]) [0] true c) as [[r4 c4]|] eqn:E4 end;
    [|by vm_compute in E4].
  destruct r4 as [p|]; [|by vm_compute in E4].
  pose proof (reach_alloc _ _ _ _ _ _ _ _ _ H3 E4) as H4. vm_compute in E4. injection E4 as <- <-.
  eexists _, _, _. split; [exact H4|]. split; [by vm_compute|]. split; [by vm_compute|]. split; [done|]. split; [done|]. split.
  - intros _ _ r r' [-> |Hr]%elem_of_cons [-> |Hr']%elem_of_cons; [|by apply elem_of_nil in Hr' || apply elem_of_nil in Hr..].
    left. by vm_compute.
  - by vm_compute.
Qed.

Lemma ue_ip_leases_unique_witness : ∃ c, ue_reachable (T:=unit) 4 c [IN_POOL 2 1; IN_POOL 2 0; IN_POOL 1 0] ∧
  ∀ ip ip' ip'', read_ue_ip (IN_POOL 2 1) c = Some ip → read_ue_ip (IN_POOL 2 0) c = Some ip' →
    read_ue_ip (IN_POOL 1 0) c = Some ip'' →
  take 1 (addr ip) ≠ take 1 (addr ip') ∧ take 1 (addr ip'') ≠ take 1 (addr ip').
Proof.
  destruct example_reachable as (c & s1 & s2 & Hr & Hs1 & Hs2 & F1 & F2 & Hap & _). exists c. split; [exact Hr|].
  destruct (ue_ip_leases_unique 4 c _ ltac:(lia) Hr) as (_ & _ & _ & _ & _ & Hdiff). intros ip ip' ip'' E1 E2 E3.
  pose proof (Hdiff 2%positive 1%nat 2%positive 0%nat s2 s2 ip ip') as D1.
  pose proof (Hdiff 1%positive 0%nat 2%positive 0%nat s1 s2 ip'' ip') as D2. rewrite F1, F2 in D2. rewrite F2 in D1.
  split.
  - apply D1; try done; [left|right; left].
  - apply D2; try done; [right; right; left|right; left].
Defined.
