(* ===== verification/RuleMatch.v ===== *)
(** * Packet filters applied: lib/pfcp/rule-match.c

    The classification of user packets: the headers of an IPv4 or IPv6 packet
    are checked and skipped, and the rules of a PDR are tried in their order.
    A packet is its octets; [None] is a read outside of them (or a failed
    assertion), [Some None] is a refused packet or no rule. *)
From S2P Require Import Prelude XactBase Octets Gtp2Types.
#[local] Open Scope Z_scope.

(** The octet at an offset, and an integer of two octets. *)
Definition byte_at (pkt : list Z) (p : Z) : option Z := if 0 <=? p then pkt !! Z.to_nat p else None.
Definition octets_at (pkt : list Z) (p n : Z) : option (list Z) :=
  if 0 <=? p then read_bytes (drop (Z.to_nat p) pkt) n else None.
Definition be16_at (pkt : list Z) (p : Z) : option Z := bs ← octets_at pkt p 2; Some (bswap 2 (le_value bs)).

Definition IPPROTO_HOPOPTS : Z := 0.
Definition IPPROTO_TCP : Z := 6.
Definition IPPROTO_UDP : Z := 17.
Definition IPPROTO_ROUTING : Z := 43.
Definition IPPROTO_FRAGMENT : Z := 44.
Definition IPPROTO_AH : Z := 51.
Definition IPPROTO_DSTOPTS : Z := 60.
Definition IP6OPT_JUMBO : Z := 0xc2.
(** [sizeof] of struct ip, ip6_hdr, ip6_ext, ip6_hbh, ip6_opt, ip6_frag, tcphdr
    and udphdr. *)
Definition sizeof_ip : Z := 20.
Definition sizeof_ip6_hdr : Z := 40.
Definition sizeof_ip6_ext : Z := 2.
Definition sizeof_ip6_frag : Z := 8.
Definition sizeof_tcphdr : Z := 20.
Definition sizeof_udphdr : Z := 8.

(** ** The headers of an IPv6 packet *)

(** The loop over the options of the hop-by-hop header, for the end of a
    jumbo payload that starts at [p]. *)
Fixpoint jumbo_loop (fuel : nat) (pkt : list Z) (bufend p optend jp : Z) : option (option Z) :=
  match fuel with
  | O => None
  | S fuel =>
      if jp <? optend then
        opt_type ← byte_at pkt jp;
        if opt_type =? 0 then jumbo_loop fuel pkt bufend p optend (jp + 1)
        else if optend - jp <? 2 then Some None
        else
          ip6o_len ← byte_at pkt (jp + 1);
          let opt_len := 2 + ip6o_len in
          if optend - jp <? opt_len then Some None
          else if opt_type =? IP6OPT_JUMBO then
            if negb (ip6o_len =? 4) then Some None
            else
              bs ← octets_at pkt (jp + 2) 4;
              let jp_len := bswap 4 (le_value bs) in
              if jp_len <=? 0xffff then Some None
              else if bufend - p <? jp_len then Some None
              else Some (Some (p + jp_len))
          else jumbo_loop fuel pkt bufend p optend (jp + opt_len)
      else Some None
  end.

(** The headers whose length is in units of eight octets. *)
Definition ext_header (nxt : Z) : bool :=
  existsb (Z.eqb nxt) [IPPROTO_HOPOPTS; IPPROTO_ROUTING; IPPROTO_DSTOPTS; 135; 139; 140; 253; 254].

(** The loop over the extension headers: where the upper layer starts, and
    which it is. *)
Fixpoint ext_loop (fuel : nat) (pkt : list Z) (endp p nxt : Z) : option (option (Z * Z)) :=
  match fuel with
  | O => None
  | S fuel =>
      if p <? endp then
        if ext_header nxt then
          if endp - p <? sizeof_ip6_ext then Some None
          else
            ip6e_len ← byte_at pkt (p + 1);
            let ext_len := Z.shiftl ip6e_len 3 + 8 in
            if endp - p <? ext_len then Some None
            else nxt ← byte_at pkt p; ext_loop fuel pkt endp (p + ext_len) nxt
        else if nxt =? IPPROTO_FRAGMENT then
          if endp - p <? sizeof_ip6_frag then Some None
          else nxt ← byte_at pkt p; ext_loop fuel pkt endp (p + sizeof_ip6_frag) nxt
        else if nxt =? IPPROTO_AH then
          if endp - p <? sizeof_ip6_ext then Some None
          else
            ip6e_len ← byte_at pkt (p + 1);
            let ext_len := Z.shiftl (ip6e_len + 2) 2 in
            if endp - p <? ext_len then Some None
            else nxt ← byte_at pkt p; ext_loop fuel pkt endp (p + ext_len) nxt
        else Some (Some (p, nxt))
      else Some (Some (p, nxt))
  end.

(** The end of the payload. *)
Definition payload_end (pkt : list Z) (buflen nxt : Z) : option (option Z) :=
  let p := sizeof_ip6_hdr in
  ip6_plen ← be16_at pkt 4;
  if ip6_plen =? 0 then
    if negb (nxt =? IPPROTO_HOPOPTS) then Some None
    else if buflen - p <? sizeof_ip6_ext then Some None
    else
      ip6e_len ← byte_at pkt (p + 1);
      let ext_len := Z.shiftl ip6e_len 3 + 8 in
      if buflen - p <? ext_len then Some None
      else jumbo_loop (S (length pkt)) pkt buflen p (p + ext_len) (p + 2)
  else if buflen - p <? ip6_plen then Some None
  else Some (Some (p + ip6_plen)).

(** [*proto], [*hlen] and [*plen]. *)
Definition decode_ipv6_header (pkt : list Z) (buflen : Z) : option (option (Z * Z * Z)) :=
  if buflen <? sizeof_ip6_hdr then Some None
  else
    nxt ← byte_at pkt 6;
    e ← payload_end pkt buflen nxt;
    match e with
    | None => Some None
    | Some endp =>
        r ← ext_loop (S (length pkt)) pkt endp sizeof_ip6_hdr nxt;
        match r with
        | None => Some None
        | Some (p, nxt) => if 0xffff <? p then Some None else Some (Some (nxt, u16 p, endp))
        end
    end.

(** ** Rules *)

(** [src_addr[k] & mask[k]], octet by octet. *)
Definition masked (addr mask : list Z) : list Z := zip_with Z.land addr mask.

(** [low && port < low] and [high && port > high]. *)
Definition port_below (pkt : list Z) (p low : Z) : option bool :=
  if low =? 0 then Some false else port ← be16_at pkt p; Some (port <? low).
Definition port_above (pkt : list Z) (p high : Z) : option bool :=
  if high =? 0 then Some false else port ← be16_at pkt p; Some (high <? port).
(** The four comparisons, the later ones only when the earlier ones fail. *)
Definition port_mismatch (pkt : list Z) (hlen : Z) (r : ipfw_rule) : option bool :=
  c ← port_below pkt hlen (src_low r);
  if (c : bool) then Some true
  else
    c ← port_above pkt hlen (src_high r);
    if (c : bool) then Some true
    else
      c ← port_below pkt (hlen + 2) (dst_low r);
      if (c : bool) then Some true else port_above pkt (hlen + 2) (dst_high r).

(** The loop over the rules: the index of the rule that is returned. *)
Fixpoint rule_loop (pkt src dst : list Z) (addr_len : nat) (proto hlen : Z) (i : nat) (rules : list ipfw_rule) :
    option (option nat) :=
  match rules with
  | [] => Some None
  | r :: rules =>
      let continue := rule_loop pkt src dst addr_len proto hlen (S i) rules in
      if bool_decide (take addr_len (masked src (src_mask r)) = take addr_len (src_addr r)) &&
         bool_decide (take addr_len (masked dst (dst_mask r)) = take addr_len (dst_addr r)) then
        if rproto r =? 0 then Some (Some i)
        else if rproto r =? proto then
          if (rproto r =? IPPROTO_TCP) || (rproto r =? IPPROTO_UDP) then
            c ← port_mismatch pkt hlen r;
            if (c : bool) then continue else Some (Some i)
          else Some (Some i)
        else continue
      else continue
  end.

(** What the first part finds out: source, destination, the length of an
    address, protocol, length of the headers and of the packet. *)
Record ip_info := IpInfo { i_src : list Z; i_dst : list Z; i_alen : nat; i_proto : Z; i_hlen : Z; i_len : Z }.

Definition decode_ipv4 (pkt : list Z) : option (option ip_info) :=
  if zlen pkt <? sizeof_ip then Some None
  else
    b ← byte_at pkt 0;
    let ip_hlen := Z.land b 0xf * 4 in
    ip_len ← be16_at pkt 2;
    if (ip_hlen <? sizeof_ip) || (ip_len <? ip_hlen) then Some None
    else if zlen pkt <? ip_len then Some None
    else
      proto ← byte_at pkt 9;
      src ← octets_at pkt 12 4;
      dst ← octets_at pkt 16 4;
      Some (Some (IpInfo (src ++ replicate 12 0) (dst ++ replicate 12 0) 4 proto ip_hlen ip_len)).
Definition decode_ipv6 (pkt : list Z) : option (option ip_info) :=
  if zlen pkt <? sizeof_ip6_hdr then Some None
  else
    r ← decode_ipv6_header pkt (zlen pkt);
    match r with
    | None => Some None
    | Some (proto, hlen, plen) =>
        src ← octets_at pkt 8 16;
        dst ← octets_at pkt 24 16;
        Some (Some (IpInfo src dst 16 proto hlen plen))
    end.
Definition decode_ip (pkt : list Z) : option (option ip_info) :=
  b ← byte_at pkt 0;
  let ip_v := Z.shiftr b 4 in
  if ip_v =? 4 then decode_ipv4 pkt else if ip_v =? 6 then decode_ipv6 pkt else Some None.

(** The header of the upper layer is complete where ports are read. *)
Definition transport_ok (i : ip_info) : bool :=
  if i_proto i =? IPPROTO_TCP then negb ((i_len i <? i_hlen i) || (i_len i - i_hlen i <? sizeof_tcphdr))
  else if i_proto i =? IPPROTO_UDP then negb ((i_len i <? i_hlen i) || (i_len i - i_hlen i <? sizeof_udphdr))
  else true.

Definition ogs_pfcp_pdr_rule_find_by_packet (rules : list ipfw_rule) (pkt : list Z) : option (option nat) :=
  if zlen pkt =? 0 then None
  else
    d ← decode_ip pkt;
    match d with
    | None => Some None
    | Some i =>
        if transport_ok i then rule_loop pkt (i_src i) (i_dst i) (i_alen i) (i_proto i) (i_hlen i) 0 rules
        else Some None
    end.
