(* ===== verification/RuleMatchSpec.v ===== *)
(** * Which rule a packet meets

    The headers of an IP packet as their standards (RFC 791, 8200, 2675)
    describe them, and the flow that a packet belongs to; the code finds, for
    any octets, the first rule that accepts the flow of the packet. *)
From S2P Require Import Prelude XactBase Octets Gtp2Types RuleMatch.
#[local] Open Scope Z_scope.

(** ** Parts of a packet *)

Definition window (pkt : list Z) (p e : Z) : list Z := take (Z.to_nat (e - p)) (drop (Z.to_nat p) pkt).
Definition octet (i : nat) (l : list Z) : Z := nth i l 0.

Lemma window_length pkt p e : 0 ≤ p ≤ e → e ≤ zlen pkt → zlen (window pkt p e) = e - p.
Proof. intros Hp He. unfold window, zlen in *. rewrite length_take, length_drop. lia. Qed.
Lemma window_drop pkt p k e : 0 ≤ p → 0 ≤ k → drop (Z.to_nat k) (window pkt p e) = window pkt (p + k) e.
Proof.
  intros Hp Hk. unfold window. rewrite skipn_firstn_comm, drop_drop. f_equal; [lia|f_equal; lia].
Qed.
Lemma window_bytes pkt p e : bytes pkt → bytes (window pkt p e).
Proof. intros H. by apply Forall_take, Forall_drop. Qed.
Lemma octet_byte l i : bytes l → is_byte (octet i l).
Proof.
  intros H. unfold octet. rewrite nth_lookup. destruct (l !! i) as [b|] eqn:E; cbn; [by eapply Forall_lookup_1|].
  unfold is_byte. lia.
Qed.
Lemma byte_at_window pkt p i e : 0 ≤ p → 0 ≤ i < e - p → e ≤ zlen pkt →
  byte_at pkt (p + i) = Some (octet (Z.to_nat i) (window pkt p e)).
Proof.
  intros Hp Hi He. unfold byte_at, octet, window, zlen in *. replace (0 <=? p + i) with true by lia.
  rewrite nth_lookup, lookup_take_lt, lookup_drop by lia. replace (Z.to_nat p + Z.to_nat i)%nat with (Z.to_nat (p + i)) by lia.
  destruct (lookup_lt_is_Some_2 pkt (Z.to_nat (p + i))) as [b ->]; [lia|done].
Qed.
Lemma octets_at_window pkt p i n e : 0 ≤ p → 0 ≤ i → 0 ≤ n → p + i + n ≤ e → e ≤ zlen pkt →
  octets_at pkt (p + i) n = Some (take (Z.to_nat n) (drop (Z.to_nat i) (window pkt p e))).
Proof.
  intros Hp Hi Hn He Hl. unfold octets_at, read_bytes. replace (0 <=? p + i) with true by lia.
  rewrite length_drop. unfold zlen in *. replace ((0 <=? n) && _) with true by (symmetry; lia).
  rewrite window_drop by lia. unfold window. by rewrite take_take, Nat.min_l by lia.
Qed.
Lemma window_all pkt : window pkt 0 (zlen pkt) = pkt.
Proof. unfold window, zlen. rewrite Z.sub_0_r, Nat2Z.id, drop_0. by apply take_ge. Qed.
Lemma octets_value (l : list Z) (n : nat) : bytes l → (n ≤ length l)%nat → bswap n (le_value (take n l)) = be_value (take n l).
Proof. intros Hb Hn. apply bswap_le_value; [rewrite length_take; lia|by apply Forall_take]. Qed.

(** ** IPv6 headers *)

Definition extension_headers : list Z :=
  [IPPROTO_HOPOPTS; IPPROTO_ROUTING; IPPROTO_DSTOPTS; 135; 139; 140; 253; 254; IPPROTO_FRAGMENT; IPPROTO_AH].
Definition header_size (nxt : Z) (hdr : list Z) : Z :=
  if decide (nxt = IPPROTO_FRAGMENT) then 8
  else if decide (nxt = IPPROTO_AH) then (octet 1 hdr + 2) * 4
  else (octet 1 hdr + 1) * 8.

(** The payload [pl] of a packet, whose first header is [nxt], has extension
    headers of [h] octets before the upper layer [proto]. *)
Inductive ext_chain : list Z → Z → Z → Z → Prop :=
  | chain_upper pl nxt : pl = [] ∨ nxt ∉ extension_headers → ext_chain pl nxt 0 nxt
  | chain_header pl nxt h proto : nxt ∈ extension_headers → 2 ≤ zlen pl → header_size nxt pl ≤ zlen pl →
      ext_chain (drop (Z.to_nat (header_size nxt pl)) pl) (octet 0 pl) h proto →
      ext_chain pl nxt (header_size nxt pl + h) proto.

(** The first jumbo option among options, after well-formed ones. *)
Inductive jumbo_option : list Z → Z → Prop :=
  | jumbo_pad1 opts n : jumbo_option opts n → jumbo_option (0 :: opts) n
  | jumbo_skip t body opts n : t ≠ 0 → t ≠ IP6OPT_JUMBO → jumbo_option opts n →
      jumbo_option (t :: zlen body :: body ++ opts) n
  | jumbo_here len opts : length len = 4%nat → jumbo_option (IP6OPT_JUMBO :: 4 :: len ++ opts) (be_value len).

(** The end of the payload. *)
Definition payload_to (pkt : list Z) (e : Z) : Prop :=
  let plen := be_value (window pkt 4 6) in
  e ≤ zlen pkt ∧
  (plen ≠ 0 ∧ e = 40 + plen ∨
   plen = 0 ∧ octet 6 pkt = IPPROTO_HOPOPTS ∧ 42 ≤ zlen pkt ∧
   let optend := 40 + (octet 41 pkt + 1) * 8 in
   optend ≤ zlen pkt ∧ 0xffff < e - 40 ∧ jumbo_option (window pkt 42 optend) (e - 40)).

Lemma ext_chain_unique pl nxt h proto h' proto' : ext_chain pl nxt h proto → ext_chain pl nxt h' proto' → h = h' ∧ proto = proto'.
Proof.
  intros H. revert h' proto'. induction H as [pl nxt Hn|pl nxt h proto Hn H2 Hs _ IH]; intros h' proto' H';
    inversion H' as [? ? Hn'|? ? ? ? Hn' H2' Hs' H1']; subst; clear H'.
  - done.
  - exfalso. destruct Hn as [->|?]; [by cbn in H2'|done].
  - exfalso. destruct Hn' as [->|?]; [by cbn in H2|done].
  - destruct (IH _ _ H1') as [-> ->]. done.
Qed.
Lemma jumbo_option_unique opts n n' : jumbo_option opts n → jumbo_option opts n' → n = n'.
Proof.
  intros H. revert n'. induction H as [opts n _ IH|t body opts n Ht Hj _ IH|len opts Hl]; intros n' H'; inversion H'; subst; try done.
  - by apply IH.
  - match goal with E : zlen _ = zlen _, E' : _ ++ _ = _ ++ _ |- _ => apply app_inj_1 in E' as [-> ->]; [|unfold zlen in E; lia] end.
    by apply IH.
  - match goal with E' : _ ++ _ = _ ++ _ |- _ => apply app_inj_1 in E' as [-> ->]; [done|congruence] end.
Qed.
Lemma payload_to_unique pkt e e' : payload_to pkt e → payload_to pkt e' → e = e'.
Proof.
  intros [_ [[? ->]|(? & ? & ? & ? & ? & H)]] [_ [[? ->]|(? & ? & ? & ? & ? & H')]]; try done.
  pose proof (jumbo_option_unique _ _ _ H H'). lia.
Qed.

(** ** The loops *)

Lemma shiftl_ext l : Z.shiftl l 3 + 8 = (l + 1) * 8.
Proof. rewrite Z.shiftl_mul_pow2 by lia. lia. Qed.

(** One turn of the loop over extension headers. *)
Lemma ext_loop_turn fuel pkt e p nxt : 0 ≤ p < e → e ≤ zlen pkt → let w := window pkt p e in
  ext_loop (S fuel) pkt e p nxt =
    if decide (nxt ∈ extension_headers) then
      if (e - p <? 2) || (e - p <? header_size nxt w) then Some None
      else ext_loop fuel pkt e (p + header_size nxt w) (octet 0 w)
    else Some (Some (p, nxt)).
Proof.
  intros Hp He w. cbn [ext_loop]. replace (p <? e) with true by lia.
  assert (H0 : byte_at pkt p = Some (octet 0 w)).
  { replace p with (p + 0) at 1 by lia. by apply (byte_at_window pkt p 0 e); lia. }
  assert (H1 : 2 ≤ e - p → byte_at pkt (p + 1) = Some (octet 1 w)) by (intros; apply (byte_at_window pkt p 1 e); lia).
  assert (Hx : ext_header nxt = bool_decide (nxt ∈ extension_headers ∧ nxt ≠ IPPROTO_FRAGMENT ∧ nxt ≠ IPPROTO_AH)).
  { symmetry. unfold ext_header. destruct (existsb _ _) eqn:E; [apply bool_decide_eq_true|apply bool_decide_eq_false].
    - apply existsb_exists in E as (x & Hx & <-%Z.eqb_eq). apply list_elem_of_In in Hx. unfold extension_headers in *.
      rewrite !elem_of_cons, elem_of_nil in *. unfold IPPROTO_HOPOPTS, IPPROTO_ROUTING, IPPROTO_DSTOPTS, IPPROTO_FRAGMENT, IPPROTO_AH in *. lia.
    - intros (Hin & Hf & Ha). assert (existsb (Z.eqb nxt) [IPPROTO_HOPOPTS; IPPROTO_ROUTING; IPPROTO_DSTOPTS; 135; 139; 140; 253; 254] = true); [|congruence].
      apply existsb_exists. exists nxt. split; [|by apply Z.eqb_refl]. apply list_elem_of_In. unfold extension_headers in Hin.
      rewrite !elem_of_cons, elem_of_nil in *. tauto. }
  assert (Hfin : IPPROTO_FRAGMENT ∈ extension_headers) by (eapply bool_decide_unpack; by vm_compute).
  assert (Hain : IPPROTO_AH ∈ extension_headers) by (eapply bool_decide_unpack; by vm_compute).
  rewrite Hx. unfold header_size, sizeof_ip6_ext, sizeof_ip6_frag.
  destruct (decide (nxt = IPPROTO_FRAGMENT)) as [->|Hf].
  { rewrite bool_decide_eq_false_2 by tauto. rewrite Z.eqb_refl, H0. cbn [mbind option_bind]. rewrite decide_True by done.
    by destruct (e - p <? 8) eqn:E8, (e - p <? 2) eqn:E2; try done; lia. }
  destruct (decide (nxt = IPPROTO_AH)) as [->|Ha].
  { rewrite bool_decide_eq_false_2 by tauto. cbn [Z.eqb]. rewrite Z.eqb_refl. rewrite (decide_True (P := _ ∈ _)) by done.
    cbn. destruct (e - p <? 2) eqn:E2; [done|]. rewrite H1 by lia. cbn. rewrite Z.shiftl_mul_pow2 by lia. change (2 ^ 2) with 4.
    rewrite H0. cbn. done. }
  destruct (decide (nxt ∈ extension_headers)) as [Hin|Hin].
  - rewrite bool_decide_eq_true_2 by done. destruct (e - p <? 2) eqn:E2; [done|]. rewrite H1 by lia. cbn. rewrite shiftl_ext, H0. done.
  - rewrite bool_decide_eq_false_2 by tauto. destruct (Z.eqb_spec nxt IPPROTO_FRAGMENT), (Z.eqb_spec nxt IPPROTO_AH); done.
Qed.

Lemma header_size_pos nxt hdr : bytes hdr → 8 ≤ header_size nxt hdr.
Proof. intros H. pose proof (octet_byte hdr 1 H). unfold header_size, is_byte in *. repeat case_decide; lia. Qed.

Lemma ext_loop_ok fuel pkt e p nxt : bytes pkt → 0 ≤ p ≤ e → e ≤ zlen pkt → e - p < Z.of_nat fuel →
  ∃ r, ext_loop fuel pkt e p nxt = Some r ∧
    match r with
    | Some (p', proto) => p ≤ p' ≤ e ∧ ext_chain (window pkt p e) nxt (p' - p) proto
    | None => ∀ h proto, ¬ ext_chain (window pkt p e) nxt h proto
    end.
Proof.
  intros Hb. revert p nxt. induction fuel as [|fuel IH]; intros p nxt Hp He Hf; [lia|].
  destruct (decide (p = e)) as [->|Hne].
  { exists (Some (e, nxt)). cbn [ext_loop]. rewrite Z.ltb_irrefl. split; [done|]. split; [lia|]. rewrite Z.sub_diag.
    constructor. left. unfold window. by rewrite Z.sub_diag. }
  rewrite ext_loop_turn by lia. set (w := window pkt p e). pose proof (window_bytes pkt p e Hb) as Hw. fold w in Hw.
  pose proof (header_size_pos nxt w Hw). assert (Hl : zlen w = e - p) by (apply window_length; lia).
  destruct (decide (nxt ∈ extension_headers)) as [Hin|Hin].
  2:{ eexists. split; [done|]. cbn. split; [lia|]. rewrite Z.sub_diag. constructor. by right. }
  destruct (_ || _) eqn:Es.
  { eexists. split; [done|]. intros h proto H'. inversion H' as [? ? [Hn|?]|]; subst; try done; [|lia].
    rewrite Hn in Hl. unfold zlen in Hl. cbn in Hl. lia. }
  destruct (IH (p + header_size nxt w) (octet 0 w)) as (r & -> & Hr); [lia..|]. exists r. split; [done|].
  rewrite <- window_drop in Hr by lia. fold w in Hr. destruct r as [[p' proto]|].
  - destruct Hr as [Hp' Hc]. split; [lia|]. replace (p' - p) with (header_size nxt w + (p' - (p + header_size nxt w))) by lia.
    constructor; [done|lia..|done].
  - intros h proto H'. inversion H' as [? ? [Hn|?]|? ? ? ? ? ? ? Hc]; subst; try done; [|by eapply Hr].
    rewrite Hn in Hl. unfold zlen in Hl. cbn in Hl. lia.
Qed.

Lemma window_cons pkt p e : 0 ≤ p < e → e ≤ zlen pkt → window pkt p e = octet 0 (window pkt p e) :: window pkt (p + 1) e.
Proof.
  intros Hp He. pose proof (window_length pkt p e ltac:(lia) He) as Hl. rewrite <- (window_drop pkt p 1 e) by lia.
  destruct (window pkt p e); unfold zlen in *; cbn in *; [lia|done].
Qed.

Lemma jumbo_option_inv t l rest n : t ≠ 0 → jumbo_option (t :: l :: rest) n → l ≤ zlen rest ∧
  (t ≠ IP6OPT_JUMBO ∧ jumbo_option (drop (Z.to_nat l) rest) n ∨ t = IP6OPT_JUMBO ∧ l = 4 ∧ n = be_value (take 4 rest)).
Proof.
  intros Ht H. inversion H as [|? body opts|len opts Hlen]; subst; [done|..]; unfold zlen; rewrite length_app.
  - split; [lia|]. left. split; [done|]. by rewrite Nat2Z.id, drop_app_length.
  - split; [lia|]. right. split_and!; try done. by rewrite <- Hlen, take_app_length.
Qed.
Lemma jumbo_option_step t l rest n : t ≠ 0 → t ≠ IP6OPT_JUMBO → 0 ≤ l ≤ zlen rest →
  jumbo_option (drop (Z.to_nat l) rest) n → jumbo_option (t :: l :: rest) n.
Proof.
  intros Ht Hj Hl H. rewrite <- (take_drop (Z.to_nat l) rest). replace l with (zlen (take (Z.to_nat l) rest)) at 1.
  - by constructor.
  - unfold zlen in *. rewrite length_take. lia.
Qed.

Lemma jumbo_loop_ok fuel pkt bufend p e jp : bytes pkt → 0 ≤ p → 0 ≤ jp ≤ e → e ≤ zlen pkt → bufend = zlen pkt → e - jp < Z.of_nat fuel →
  ∃ r, jumbo_loop fuel pkt bufend p e jp = Some r ∧
    match r with
    | Some q => q ≤ bufend ∧ 0xffff < q - p ∧ jumbo_option (window pkt jp e) (q - p)
    | None => ∀ n, jumbo_option (window pkt jp e) n → n ≤ 0xffff ∨ bufend < p + n
    end.
Proof.
  intros Hb Hp0 Hjp He Hbe. revert jp Hjp. induction fuel as [|fuel IH]; intros jp Hjp Hf; [lia|]. cbn [jumbo_loop].
  set (w := window pkt jp e). pose proof (window_bytes pkt jp e Hb) as Hw. fold w in Hw.
  assert (Hl : zlen w = e - jp) by (apply window_length; lia).
  destruct (Z.ltb_spec jp e) as [Hlt|Hge].
  2:{ eexists. split; [done|]. intros n Hn. exfalso. assert (w = []) as E by (destruct w; [done|unfold zlen in Hl; cbn in Hl; lia]).
      rewrite E in Hn. inversion Hn. }
  replace (byte_at pkt jp) with (Some (octet 0 w)).
  2:{ symmetry. replace jp with (jp + 0) by lia. apply (byte_at_window pkt jp 0 e); lia. }
  cbn [mbind option_bind]. pose proof (window_cons pkt jp e ltac:(lia) He) as Hc. fold w in Hc.
  destruct (Z.eqb_spec (octet 0 w) 0) as [E0|E0].
  { destruct (IH (jp + 1)) as (r & -> & Hr); [lia..|]. exists r. split; [done|]. rewrite Hc, E0. destruct r as [q|].
    - destruct Hr as (? & ? & ?). split_and!; [done..|]. by constructor.
    - intros n Hn. inversion Hn; subst; try done. by apply Hr. }
  destruct (Z.ltb_spec (e - jp) 2) as [H2|H2].
  { eexists. split; [done|]. intros n Hn. exfalso. assert (window pkt (jp + 1) e = []) as E1.
    { unfold window. by replace (Z.to_nat (e - (jp + 1))) with O by lia. }
    rewrite E1 in Hc. rewrite Hc in Hn. inversion Hn; subst; try done. }
  rewrite (byte_at_window pkt jp 1 e) by lia. fold w. cbn [mbind option_bind]. change (Z.to_nat 1) with 1%nat. set (l := octet 1 w). cbv zeta.
  assert (Hl1 : is_byte l) by by apply octet_byte. unfold is_byte in Hl1.
  pose proof (window_cons pkt (jp + 1) e ltac:(lia) He) as Hc1. replace (jp + 1 + 1) with (jp + 2) in Hc1 by lia.
  assert (Hol : octet 0 (window pkt (jp + 1) e) = l) by (unfold l; rewrite Hc; done). rewrite Hol in Hc1. rewrite Hc1 in Hc.
  assert (Hl2 : zlen (window pkt (jp + 2) e) = e - (jp + 2)) by (apply window_length; lia).
  destruct (Z.ltb_spec (e - jp) (2 + l)) as [Hs|Hs].
  { eexists. split; [done|]. intros n Hn. rewrite Hc in Hn. apply jumbo_option_inv in Hn as [Hn _]; [lia|done]. }
  destruct (Z.eqb_spec (octet 0 w) IP6OPT_JUMBO) as [Ej|Ej].
  - destruct (Z.eqb_spec l 4) as [E4|E4]; cbn [negb].
    2:{ eexists. split; [done|]. intros n Hn. rewrite Hc in Hn. apply jumbo_option_inv in Hn as [_ [[? _]|(_ & ? & _)]]; done. }
    rewrite (octets_at_window pkt jp 2 4 e) by lia. fold w. cbn [mbind option_bind].
    replace (drop (Z.to_nat 2) w) with (window pkt (jp + 2) e) by (unfold w; rewrite window_drop by lia; done).
    set (opts := window pkt (jp + 2) e) in *. rewrite octets_value by first [by apply window_bytes | unfold zlen in Hl2; lia].
    change (Z.to_nat 4) with 4%nat. rewrite Ej, E4 in Hc.
    assert (Hn : ∀ n, jumbo_option w n ↔ n = be_value (take 4 opts)).
    { intros n. rewrite Hc. split.
      - intros Hn. apply jumbo_option_inv in Hn as [_ [[? _]|(_ & _ & ?)]]; done.
      - intros ->. rewrite <- (take_drop 4 opts) at 1. constructor. rewrite length_take. unfold zlen in Hl2. lia. }
    set (n := be_value (take 4 opts)) in *. destruct (Z.leb_spec n 0xffff) as [Hn1|Hn1].
    { eexists. split; [done|]. intros n' ->%Hn. lia. }
    destruct (Z.ltb_spec (bufend - p) n) as [Hn2|Hn2].
    { eexists. split; [done|]. intros n' ->%Hn. lia. }
    eexists. split; [done|]. cbn beta iota. replace (p + n - p) with n by lia. split_and!; [lia|lia|by apply Hn].
  - destruct (IH (jp + (2 + l))) as (r & -> & Hr); [lia..|]. exists r. split; [done|]. rewrite Hc.
    replace (window pkt (jp + (2 + l)) e) with (drop (Z.to_nat l) (window pkt (jp + 2) e)) in Hr by (rewrite window_drop by lia; f_equal; lia).
    destruct r as [q|].
    + destruct Hr as (? & ? & ?). split_and!; [done..|]. by apply jumbo_option_step; [..|lia|].
    + intros n Hn. apply Hr. by apply jumbo_option_inv in Hn as [_ [[_ ?]|[? _]]].
Qed.

(** ** Packets and their flows *)

(** The octets are a packet from a source to a destination, whose [upper] layer
    is [proto]. *)
Inductive ip_packet (pkt : list Z) : list Z → list Z → Z → list Z → Prop :=
  | ipv4_packet hlen len : octet 0 pkt / 16 = 4 → 20 ≤ zlen pkt →
      hlen = octet 0 pkt mod 16 * 4 → len = be_value (window pkt 2 4) → 20 ≤ hlen ≤ len → len ≤ zlen pkt →
      ip_packet pkt (window pkt 12 16) (window pkt 16 20) (octet 9 pkt) (window pkt hlen len)
  | ipv6_packet h e proto : octet 0 pkt / 16 = 6 → 40 ≤ zlen pkt →
      payload_to pkt e → ext_chain (window pkt 40 e) (octet 6 pkt) h proto → 40 + h ≤ 0xffff →
      ip_packet pkt (window pkt 8 24) (window pkt 24 40) proto (window pkt (40 + h) e).

Record flow := Flow { f_src : list Z; f_dst : list Z; f_proto : Z; f_ports : option (Z * Z) }.
Inductive ports_of (proto : Z) (upper : list Z) : option (Z * Z) → Prop :=
  | ports_tcp : proto = IPPROTO_TCP → 20 ≤ zlen upper →
      ports_of proto upper (Some (be_value (take 2 upper), be_value (take 2 (drop 2 upper))))
  | ports_udp : proto = IPPROTO_UDP → 8 ≤ zlen upper →
      ports_of proto upper (Some (be_value (take 2 upper), be_value (take 2 (drop 2 upper))))
  | no_ports : proto ≠ IPPROTO_TCP → proto ≠ IPPROTO_UDP → ports_of proto upper None.
(** The flow that the octets describe when what follows the headers of the
    packet is taken for the header of the upper layer. *)
Definition apparent_flow (pkt : list Z) (f : flow) : Prop :=
  ∃ upper, ip_packet pkt (f_src f) (f_dst f) (f_proto f) upper ∧ ports_of (f_proto f) upper (f_ports f).

(** Behind the headers of a fragment that is not the first one of its packet,
    the one with the offset 0, is data of the packet (RFC 791, 3.2; RFC 8200,
    4.5).  In IPv6 the offset is in the Fragment header of the chain. *)
Inductive later_chain : list Z → Z → Prop :=
  | later_here pl : 8 ≤ zlen pl → be_value (take 2 (drop 2 pl)) / 8 ≠ 0 → later_chain pl IPPROTO_FRAGMENT
  | later_next pl nxt : nxt ∈ extension_headers → 2 ≤ zlen pl → header_size nxt pl ≤ zlen pl →
      later_chain (drop (Z.to_nat (header_size nxt pl)) pl) (octet 0 pl) → later_chain pl nxt.
Inductive later_fragment (pkt : list Z) : Prop :=
  | ipv4_later : octet 0 pkt / 16 = 4 → be_value (window pkt 6 8) mod 2 ^ 13 ≠ 0 → later_fragment pkt
  | ipv6_later e : octet 0 pkt / 16 = 6 → payload_to pkt e → later_chain (window pkt 40 e) (octet 6 pkt) → later_fragment pkt.
(** The flow of a packet that is whole, or the first fragment. *)
Definition flow_of (pkt : list Z) (f : flow) : Prop := apparent_flow pkt f ∧ ¬ later_fragment pkt.

(** The address is in the network. *)
Definition in_net (addr net mask : list Z) : Prop :=
  ∀ i, (i < length addr)%nat → Z.land (octet i addr) (octet i mask) = octet i net.
(** Zero stands for an open end. *)
Definition in_range (port low high : Z) : Prop := (low = 0 ∨ low ≤ port) ∧ (high = 0 ∨ port ≤ high).
Definition rule_accepts (f : flow) (r : ipfw_rule) : Prop :=
  in_net (f_src f) (src_addr r) (src_mask r) ∧ in_net (f_dst f) (dst_addr r) (dst_mask r) ∧
  (rproto r = 0 ∨ rproto r = f_proto f ∧
    match f_ports f with
    | Some (sport, dport) => in_range sport (src_low r) (src_high r) ∧ in_range dport (dst_low r) (dst_high r)
    | None => True
    end).
Definition rule_ok (r : ipfw_rule) : Prop :=
  length (src_addr r) = 16%nat ∧ length (src_mask r) = 16%nat ∧ length (dst_addr r) = 16%nat ∧ length (dst_mask r) = 16%nat.

Lemma ip_packet_unique pkt src dst proto upper src' dst' proto' upper' :
  ip_packet pkt src dst proto upper → ip_packet pkt src' dst' proto' upper' →
  src = src' ∧ dst = dst' ∧ proto = proto' ∧ upper = upper'.
Proof.
  intros H H'. inversion H as [? ? V|? e ? V ? Hp Hc]; inversion H' as [? ? V'|? e' ? V' ? Hp' Hc']; subst; try (exfalso; lia); try done.
  pose proof (payload_to_unique _ _ _ Hp Hp') as ->. by destruct (ext_chain_unique _ _ _ _ _ _ Hc Hc') as [-> ->].
Qed.
Lemma apparent_flow_unique pkt f f' : apparent_flow pkt f → apparent_flow pkt f' → f = f'.
Proof.
  intros (u & Hp & Ho) (u' & Hp' & Ho'). destruct f as [s d p o], f' as [s' d' p' o']; cbn in *.
  destruct (ip_packet_unique _ _ _ _ _ _ _ _ _ Hp Hp') as (-> & -> & -> & ->). f_equal.
  inversion Ho; inversion Ho'; subst; done.
Qed.

(** ** Decoding *)

Lemma whole pkt i : 0 ≤ i < zlen pkt → byte_at pkt i = Some (octet (Z.to_nat i) pkt).
Proof. intros Hi. pose proof (byte_at_window pkt 0 i (zlen pkt)) as H. rewrite window_all in H. apply H; lia. Qed.
Lemma octets_whole pkt i n j : 0 ≤ i → 0 ≤ n → j = i + n → j ≤ zlen pkt → octets_at pkt i n = Some (window pkt i j).
Proof.
  intros Hi Hn -> Hj. pose proof (octets_at_window pkt 0 i n (zlen pkt)) as H. rewrite window_all in H.
  replace (0 + i) with i in H by lia. rewrite H by lia. unfold window. do 2 f_equal. lia.
Qed.
Lemma be16_whole pkt i : bytes pkt → 0 ≤ i → i + 2 ≤ zlen pkt → be16_at pkt i = Some (be_value (window pkt i (i + 2))).
Proof.
  intros Hb Hi Hj. unfold be16_at. pose proof (octets_whole pkt i 2 (i + 2)) as H.
  pose proof (window_length pkt i (i + 2) ltac:(lia) Hj). unfold zlen in *.
  rewrite H by lia. cbn [mbind option_bind]. rewrite bswap_le_value; [done|lia|by apply window_bytes].
Qed.

Lemma payload_end_ok pkt : bytes pkt → 40 ≤ zlen pkt → ∃ r, payload_end pkt (zlen pkt) (octet 6 pkt) = Some r ∧
  match r with Some e => 40 ≤ e ∧ payload_to pkt e | None => ∀ e, ¬ payload_to pkt e end.
Proof.
  intros Hb Hl. unfold payload_end. rewrite be16_whole by (done || lia). cbn [mbind option_bind]. cbv zeta.
  change (4 + 2) with 6. change sizeof_ip6_hdr with 40. change sizeof_ip6_ext with 2.
  unfold payload_to. cbv zeta. set (plen := be_value (window pkt 4 6)).
  assert (0 ≤ plen) by (pose proof (be_value_range (window pkt 4 6) (window_bytes _ _ _ Hb)); unfold plen; lia).
  destruct (Z.eqb_spec plen 0) as [E0|E0].
  2:{ destruct (Z.ltb_spec (zlen pkt - 40) plen) as [H1|H1]; eexists; (split; [done|]); cbn beta iota.
      - intros e (He & [[_ ->]|[? _]]); lia.
      - split; [lia|]. split; [lia|]. by left. }
  destruct (Z.eqb_spec (octet 6 pkt) IPPROTO_HOPOPTS) as [En|En]; cbn [negb].
  2:{ eexists. split; [done|]. intros e (_ & [[? _]|(_ & ? & _)]); done. }
  destruct (Z.ltb_spec (zlen pkt - 40) 2) as [H2|H2].
  { eexists. split; [done|]. intros e (_ & [[? _]|(_ & _ & ? & _)]); [done|lia]. }
  rewrite whole by lia. cbn [mbind option_bind]. change (Z.to_nat (40 + 1)) with 41%nat. rewrite shiftl_ext.
  pose proof (octet_byte pkt 41 Hb) as H41. unfold is_byte in H41. set (k := (octet 41 pkt + 1) * 8) in *. assert (8 ≤ k) by lia.
  destruct (Z.ltb_spec (zlen pkt - 40) k) as [Hk|Hk].
  { eexists. split; [done|]. intros e (_ & [[? _]|(_ & _ & _ & ? & _)]); [done|lia]. }
  destruct (jumbo_loop_ok (S (length pkt)) pkt (zlen pkt) 40 (40 + k) 42) as (r & Er & Hr); [done|lia..| |].
  { unfold zlen in *. lia. }
  exists r. split; [exact Er|]. destruct r as [e|].
  - destruct Hr as (? & ? & ?). split; [lia|]. split; [done|]. right. split_and!; try done; lia.
  - intros e (He & [[? _]|(_ & _ & _ & _ & Hf & Hj)]); [done|]. apply Hr in Hj. lia.
Qed.

Lemma decode_ipv4_ok pkt : bytes pkt → octet 0 pkt / 16 = 4 → ∃ r, decode_ipv4 pkt = Some r ∧
  match r with
  | Some i => (∃ hlen len, i = IpInfo (window pkt 12 16 ++ replicate 12 0) (window pkt 16 20 ++ replicate 12 0) 4 (octet 9 pkt) hlen len ∧
      20 ≤ zlen pkt ∧ hlen = octet 0 pkt mod 16 * 4 ∧ len = be_value (window pkt 2 4) ∧ 20 ≤ hlen ≤ len ∧ len ≤ zlen pkt)
  | None => ∀ s d p u, ¬ ip_packet pkt s d p u
  end.
Proof.
  intros Hb Hv. unfold decode_ipv4. change sizeof_ip with 20.
  assert (Hno : (20 ≤ zlen pkt → ¬ (20 ≤ octet 0 pkt mod 16 * 4 ≤ be_value (window pkt 2 4) ∧ be_value (window pkt 2 4) ≤ zlen pkt)) →
    ∀ s d p u, ¬ ip_packet pkt s d p u).
  { intros Hn s d p u H. inversion H; subst; [|lia]. by apply Hn. }
  destruct (Z.ltb_spec (zlen pkt) 20) as [Hl|Hl]; [exists None; split; [done|]; cbn beta iota; apply Hno; lia|].
  rewrite (whole pkt 0) by lia. cbn [mbind option_bind]. rewrite be16_whole by (done || lia). cbn [mbind option_bind]. cbv zeta.
  change (Z.to_nat 0) with 0%nat. change 0xf with (2 ^ 4 - 1). rewrite land_mask by lia. change (2 ^ 4) with 16. change (2 + 2) with 4.
  destruct (_ || _) eqn:E1; [exists None; split; [done|]; cbn beta iota; apply Hno; lia|].
  destruct (Z.ltb_spec (zlen pkt) (be_value (window pkt 2 4))) as [E2|E2]; [exists None; split; [done|]; cbn beta iota; apply Hno; lia|].
  rewrite (whole pkt 9) by lia. cbn [mbind option_bind]. rewrite (octets_whole pkt 12 4 16) by lia. cbn [mbind option_bind].
  rewrite (octets_whole pkt 16 4 20) by lia. cbn [mbind option_bind].
  eexists. split; [done|]. do 2 eexists. split; [done|]. lia.
Qed.
Lemma decode_ipv6_ok pkt : bytes pkt → octet 0 pkt / 16 = 6 → ∃ r, decode_ipv6 pkt = Some r ∧
  match r with
  | Some i => (∃ h e proto, i = IpInfo (window pkt 8 24) (window pkt 24 40) 16 proto (40 + h) e ∧
      40 ≤ zlen pkt ∧ payload_to pkt e ∧ ext_chain (window pkt 40 e) (octet 6 pkt) h proto ∧ 0 ≤ h ∧ 40 + h ≤ e ∧ 40 + h ≤ 0xffff)
  | None => ∀ s d p u, ¬ ip_packet pkt s d p u
  end.
Proof.
  intros Hb Hv. unfold decode_ipv6, decode_ipv6_header. change sizeof_ip6_hdr with 40.
  destruct (Z.ltb_spec (zlen pkt) 40) as [Hl|Hl].
  { eexists. split; [done|]. intros s d p u H. inversion H; subst; lia. }
  rewrite (whole pkt 6) by lia. cbn [mbind option_bind]. change (Z.to_nat 6) with 6%nat.
  destruct (payload_end_ok pkt Hb Hl) as (re & -> & He). cbn [mbind option_bind]. destruct re as [e|].
  2:{ eexists. split; [done|]. intros s d p u H. inversion H; subst; [lia|]. by eapply He. }
  destruct He as [He Hp]. pose proof Hp as [Hle _].
  destruct (ext_loop_ok (S (length pkt)) pkt e 40 (octet 6 pkt)) as (rx & -> & Hx); [done|lia|done|unfold zlen in *; lia|].
  cbn [mbind option_bind]. destruct rx as [[p proto]|].
  2:{ eexists. split; [done|]. intros s d p u H. inversion H as [|? e']; subst; [lia|].
      rewrite (payload_to_unique pkt e e') in Hx by done. by eapply Hx. }
  destruct Hx as [Hpe Hx]. destruct (Z.ltb_spec 0xffff p) as [Hbig|Hbig]; cbn [mbind option_bind].
  { eexists. split; [done|]. intros s d q u H. inversion H as [|h e' ? ? ? Hp' Hc]; subst; [lia|].
    rewrite (payload_to_unique pkt e e' Hp Hp') in Hx. destruct (ext_chain_unique _ _ _ _ _ _ Hx Hc). lia. }
  rewrite (octets_whole pkt 8 16 24) by lia. cbn [mbind option_bind]. rewrite (octets_whole pkt 24 16 40) by lia. cbn [mbind option_bind].
  eexists. split; [done|]. exists (p - 40), e, proto. unfold u16. rewrite Z.mod_small by lia.
  replace (40 + (p - 40)) with p by lia. split_and!; try done; lia.
Qed.

Lemma window_nat pkt p e : 0 ≤ p ≤ e → e ≤ zlen pkt → length (window pkt p e) = Z.to_nat (e - p).
Proof. intros. pose proof (window_length pkt p e). unfold zlen in *. lia. Qed.

Lemma decode_ip_ok pkt : bytes pkt → 0 < zlen pkt → ∃ r, decode_ip pkt = Some r ∧
  match r with
  | Some i => ip_packet pkt (take (i_alen i) (i_src i)) (take (i_alen i) (i_dst i)) (i_proto i) (window pkt (i_hlen i) (i_len i)) ∧
      0 ≤ i_hlen i ≤ i_len i ∧ i_len i ≤ zlen pkt ∧ length (i_src i) = 16%nat ∧ length (i_dst i) = 16%nat ∧ (i_alen i ≤ 16)%nat
  | None => ∀ s d p u, ¬ ip_packet pkt s d p u
  end.
Proof.
  intros Hb Hl. unfold decode_ip. rewrite (whole pkt 0) by lia. cbn [mbind option_bind]. change (Z.to_nat 0) with 0%nat.
  rewrite Z.shiftr_div_pow2 by lia. change (2 ^ 4) with 16.
  destruct (Z.eqb_spec (octet 0 pkt / 16) 4) as [E4|E4]; [|destruct (Z.eqb_spec (octet 0 pkt / 16) 6) as [E6|E6]].
  - destruct (decode_ipv4_ok pkt Hb E4) as (r & -> & Hr). exists r. split; [done|]. destruct r as [i|]; [|done].
    destruct Hr as (hlen & len & -> & H20 & Hh & Hlen & Hhl & Hll). cbn [i_src i_dst i_alen i_proto i_hlen i_len].
    rewrite !take_app_length' by (rewrite window_nat by lia; done).
    rewrite !length_app, !length_replicate, !window_nat by lia. split_and!; try done; try lia. by constructor.
  - destruct (decode_ipv6_ok pkt Hb E6) as (r & -> & Hr). exists r. split; [done|]. destruct r as [i|]; [|done].
    destruct Hr as (h & e & proto & -> & H40 & Hp & Hc & Hh & Hhe & Hf). cbn [i_src i_dst i_alen i_proto i_hlen i_len].
    pose proof Hp as [Hle _]. rewrite !take_ge by (rewrite window_nat by lia; done). rewrite !window_nat by lia.
    split_and!; try done; try lia. by constructor.
  - eexists. split; [done|]. intros s d p u H. inversion H; subst; done.
Qed.

(** ** Rules *)

Lemma masked_in_net addr mask net n : length addr = 16%nat → length mask = 16%nat → length net = 16%nat → (n ≤ 16)%nat →
  take n (masked addr mask) = take n net ↔ in_net (take n addr) net mask.
Proof.
  intros Ha Hm Hn H16. unfold in_net, octet. rewrite length_take, Nat.min_l by lia.
  assert (Hz : ∀ i, (i < n)%nat → nth i (take n (masked addr mask)) 0 = Z.land (nth i (take n addr) 0) (nth i mask 0)).
  { intros i Hi. unfold masked. rewrite !nth_lookup, !lookup_take_lt, lookup_zip_with by done.
    destruct (lookup_lt_is_Some_2 addr i) as [x ->]; [lia|]. destruct (lookup_lt_is_Some_2 mask i) as [y ->]; [lia|]. done. }
  assert (Hl : length (masked addr mask) = 16%nat) by (unfold masked; rewrite length_zip_with; lia).
  split.
  - intros E i Hi. rewrite <- Hz, E, !nth_lookup, lookup_take_lt by done. done.
  - intros H. apply (nth_ext _ _ 0 0); [rewrite !length_take; lia|]. intros i. rewrite length_take, Hl, Nat.min_l by lia. intros Hi.
    rewrite Hz, H, !nth_lookup, lookup_take_lt by done. done.
Qed.

Lemma be16_upper pkt hlen len i n : bytes pkt → 0 ≤ hlen → 0 ≤ i → i + 2 ≤ n → n ≤ zlen (window pkt hlen len) → len ≤ zlen pkt →
  be16_at pkt (hlen + i) = Some (be_value (take 2 (drop (Z.to_nat i) (window pkt hlen len)))).
Proof.
  intros Hb Hh Hi Hn Hu Hl. assert (hlen + n ≤ len).
  { unfold zlen, window in Hu. rewrite length_take in Hu. destruct (decide (len < hlen)); [|lia].
    replace (Z.to_nat (len - hlen)) with O in Hu by lia. lia. }
  rewrite be16_whole by (done || lia). rewrite window_drop by lia. do 2 f_equal. unfold window. rewrite take_take. f_equal. lia.
Qed.

Lemma port_mismatch_ok pkt hlen r sport dport : be16_at pkt hlen = Some sport → be16_at pkt (hlen + 2) = Some dport →
  port_mismatch pkt hlen r = Some (negb (bool_decide (in_range sport (src_low r) (src_high r) ∧ in_range dport (dst_low r) (dst_high r)))).
Proof.
  intros Hs Hd. unfold port_mismatch, port_below, port_above. rewrite Hs, Hd. unfold in_range. cbn [mbind option_bind].
  assert (Hb : ∀ p low, (if low =? 0 then Some false else Some (p <? low)) = Some (negb (bool_decide (low = 0 ∨ low ≤ p)))).
  { intros p low. destruct (Z.eqb_spec low 0); [by rewrite bool_decide_eq_true_2 by auto|].
    destruct (Z.ltb_spec p low); [rewrite bool_decide_eq_false_2 by lia|rewrite bool_decide_eq_true_2 by lia]; done. }
  assert (Ha : ∀ p high, (if high =? 0 then Some false else Some (high <? p)) = Some (negb (bool_decide (high = 0 ∨ p ≤ high)))).
  { intros p high. destruct (Z.eqb_spec high 0); [by rewrite bool_decide_eq_true_2 by auto|].
    destruct (Z.ltb_spec high p); [rewrite bool_decide_eq_false_2 by lia|rewrite bool_decide_eq_true_2 by lia]; done. }
  rewrite !Hb, !Ha. cbn [mbind option_bind]. rewrite !bool_decide_and.
  by repeat destruct (bool_decide (_ ∨ _)).
Qed.

(** The first rule that accepts a flow. *)
Definition first_accepting (f : flow) (rules : list ipfw_rule) (res : option nat) : Prop :=
  match res with
  | Some j => (∃ r, rules !! j = Some r ∧ rule_accepts f r) ∧ ∀ j' r', (j' < j)%nat → rules !! j' = Some r' → ¬ rule_accepts f r'
  | None => ∀ r, r ∈ rules → ¬ rule_accepts f r
  end.
Lemma first_here f r rules : rule_accepts f r → first_accepting f (r :: rules) (Some O).
Proof. intros H. split; [by exists r|]. intros j' r' ?. lia. Qed.
Lemma first_later f r rules res : ¬ rule_accepts f r → first_accepting f rules res → first_accepting f (r :: rules) (S <$> res).
Proof.
  intros Hr. destruct res as [j|]; cbn.
  - intros [H Hm]. split; [done|]. intros [|j'] r' Hj; cbn; [by intros [= <-]|]. apply Hm. lia.
  - intros H r' [->|?]%elem_of_cons; auto.
Qed.

Lemma rule_loop_ok pkt i upper o rules k : bytes pkt → Forall rule_ok rules →
  length (i_src i) = 16%nat → length (i_dst i) = 16%nat → (i_alen i ≤ 16)%nat →
  0 ≤ i_hlen i → i_len i ≤ zlen pkt → upper = window pkt (i_hlen i) (i_len i) → ports_of (i_proto i) upper o →
  ∃ res, rule_loop pkt (i_src i) (i_dst i) (i_alen i) (i_proto i) (i_hlen i) k rules = Some ((λ j, k + j)%nat <$> res) ∧
    first_accepting (Flow (take (i_alen i) (i_src i)) (take (i_alen i) (i_dst i)) (i_proto i) o) rules res.
Proof.
  intros Hb Hok Hsl Hdl Hal Hh Hlen Hup Ho. revert k. induction Hok as [|r rules (Ha1 & Hm1 & Ha2 & Hm2) _ IH]; intros k; cbn [rule_loop].
  { exists None. split; [done|]. by intros ? ?%elem_of_nil. }
  destruct (IH (S k)) as (res & Eres & Hres). rewrite Eres. set (f := Flow _ _ _ _) in *.
  assert (Hcont : ¬ rule_accepts f r → ∃ res', Some ((λ j, S k + j)%nat <$> res) = Some ((λ j, k + j)%nat <$> res') ∧ first_accepting f (r :: rules) res').
  { intros Hr. exists (S <$> res). split; [|by apply first_later]. destruct res as [j|]; cbn; [|done]. do 2 f_equal. lia. }
  assert (Hhere : rule_accepts f r → ∃ res', Some (Some k) = Some ((λ j, k + j)%nat <$> res') ∧ first_accepting f (r :: rules) res').
  { intros Hr. exists (Some O). split; [cbn; do 2 f_equal; lia|by apply first_here]. }
  rewrite <- bool_decide_and. unfold rule_accepts in *.
  case_bool_decide as Hn; rewrite !masked_in_net in Hn by done; [|apply Hcont; unfold f; cbn [f_src f_dst]; tauto].
  destruct (Z.eqb_spec (rproto r) 0) as [E0|E0]; [apply Hhere; tauto|].
  destruct (Z.eqb_spec (rproto r) (i_proto i)) as [Ep|Ep]; [|apply Hcont; cbn [f_proto f]; tauto].
  assert (Hport : f_proto f = i_proto i ∧ f_ports f = o) by done. destruct Hport as [Hfp Hfo]. rewrite Hfp, Hfo in *.
  assert (Hp : ∀ n, 4 ≤ n → n ≤ zlen upper → be16_at pkt (i_hlen i) = Some (be_value (take 2 upper)) ∧
    be16_at pkt (i_hlen i + 2) = Some (be_value (take 2 (drop 2 upper)))).
  { intros n H4 Hu. subst upper. split; [|by apply (be16_upper pkt _ _ 2 n); lia || done].
    pose proof (be16_upper pkt (i_hlen i) (i_len i) 0 n Hb Hh ltac:(lia) ltac:(lia) Hu Hlen) as H. by rewrite Z.add_0_r in H. }
  destruct Ho as [Ht H20|Ht H8|Ht1 Ht2].
  - rewrite Ep, Ht, Z.eqb_refl. cbn [orb]. destruct (Hp 20) as [H1 H2]; [lia|done|].
    rewrite (port_mismatch_ok _ _ _ _ _ H1 H2). cbn [mbind option_bind]. case_bool_decide; cbn [negb]; [apply Hhere|apply Hcont]; tauto.
  - rewrite Ep, Ht, Z.eqb_refl, orb_true_r. destruct (Hp 8) as [H1 H2]; [lia|done|].
    rewrite (port_mismatch_ok _ _ _ _ _ H1 H2). cbn [mbind option_bind]. case_bool_decide; cbn [negb]; [apply Hhere|apply Hcont]; tauto.
  - replace ((rproto r =? IPPROTO_TCP) || _) with false by lia. apply Hhere. tauto.
Qed.

Lemma transport_ok_ports pkt i : 0 ≤ i_hlen i ≤ i_len i → i_len i ≤ zlen pkt →
  transport_ok i = true ↔ ∃ o, ports_of (i_proto i) (window pkt (i_hlen i) (i_len i)) o.
Proof.
  intros Hh Hl. unfold transport_ok. change sizeof_tcphdr with 20. change sizeof_udphdr with 8.
  pose proof (window_length pkt (i_hlen i) (i_len i) ltac:(lia) Hl) as Hu.
  destruct (Z.eqb_spec (i_proto i) IPPROTO_TCP) as [Et|Et]; [|destruct (Z.eqb_spec (i_proto i) IPPROTO_UDP) as [Eu|Eu]].
  - split; [intros; eexists; apply ports_tcp; lia|]. intros [o H]. inversion H; try done; unfold IPPROTO_TCP, IPPROTO_UDP in *; lia.
  - split; [intros; eexists; apply ports_udp; lia|]. intros [o H]. inversion H; try done; unfold IPPROTO_TCP, IPPROTO_UDP in *; lia.
  - split; [intros _; eexists; by apply no_ports|done].
Qed.

(** C20: Whatever the octets of a packet, ogs_pfcp_pdr_rule_find_by_packet reads
    none outside of it and its loops over options and extension headers end;
    it returns the first rule of the PDR that accepts the packet's flow - the
    addresses, the protocol of the upper layer and its ports as RFC 791, 8200
    (with chains of extension headers) and 2675 (jumbo payloads) define them for
    a packet that is whole or a first fragment - and none when the octets are no
    packet or no rule accepts it.  For a later fragment, which has no header of
    the upper layer, it does not follow them: it ignores the offset and goes by
    the octets of data behind the headers as if they were that header
    ([apparent_flow]).  There is at most one flow either way. *)
Theorem rule_find_by_packet_exact (rules : list ipfw_rule) (pkt : list Z) :
  Forall rule_ok rules → bytes pkt → pkt ≠ [] →
  ∃ res, ogs_pfcp_pdr_rule_find_by_packet rules pkt = Some res ∧
    (∀ f, flow_of pkt f → first_accepting f rules res) ∧
    (later_fragment pkt → ∀ f, apparent_flow pkt f → first_accepting f rules res) ∧
    ((∀ f, ¬ apparent_flow pkt f) → res = None) ∧
    (∀ f f', apparent_flow pkt f → apparent_flow pkt f' → f = f').
Proof.
  intros Hr Hb Hne. unfold ogs_pfcp_pdr_rule_find_by_packet. assert (0 < zlen pkt) by (destruct pkt; [done|unfold zlen; cbn; lia]).
  destruct (Z.eqb_spec (zlen pkt) 0); [lia|]. destruct (decode_ip_ok pkt Hb) as (d & -> & Hd); [lia|]. cbn [mbind option_bind].
  pose proof (apparent_flow_unique pkt) as Hun.
  assert (Hall : ∀ res, (∀ f, apparent_flow pkt f → first_accepting f rules res) →
    ((∀ f, ¬ apparent_flow pkt f) → res = None) →
    (∀ f, flow_of pkt f → first_accepting f rules res) ∧
    (later_fragment pkt → ∀ f, apparent_flow pkt f → first_accepting f rules res) ∧
    ((∀ f, ¬ apparent_flow pkt f) → res = None) ∧
    (∀ f f', apparent_flow pkt f → apparent_flow pkt f' → f = f')).
  { intros res H1 H2. split_and!; auto. intros f [Hf _]. auto. }
  destruct d as [i|].
  2: { exists None. split; [done|]. apply Hall; [|done]. intros f (u & Hp & _). by destruct (Hd _ _ _ _ Hp). }
  destruct Hd as (Hp & Hh & Hl & Hsl & Hdl & Hal). pose proof (transport_ok_ports pkt i Hh Hl) as Ht.
  destruct (transport_ok i).
  - destruct (proj1 Ht eq_refl) as [o Ho].
    destruct (rule_loop_ok pkt i _ o rules 0 Hb Hr Hsl Hdl Hal (proj1 Hh) Hl eq_refl Ho) as (res & -> & Hres).
    assert (Hf : apparent_flow pkt (Flow (take (i_alen i) (i_src i)) (take (i_alen i) (i_dst i)) (i_proto i) o)) by (by eexists).
    exists res. split; [by destruct res|]. apply Hall; [|intros Hno; by destruct (Hno _ Hf)].
    intros f Hf'. by rewrite (Hun _ _ Hf' Hf).
  - exists None. split; [done|]. apply Hall; [|done]. intros f (u & Hp' & Ho). exfalso.
    destruct (ip_packet_unique _ _ _ _ _ _ _ _ _ Hp Hp') as (_ & _ & Ep & Eu). rewrite <- Ep, <- Eu in Ho.
    assert (false = true) by (apply Ht; by eexists). done.
Qed.

(** UDP from 10.45.0.2 port 5000 to 192.0.2.1 port 53, and from 2001:db8::1 to
    2001:db8::2 behind a hop-by-hop header of eight octets. *)
Definition packet4 : list Z :=
  [0x45; 0; 0; 28; 0; 0; 0; 0; 64; 17; 0; 0; 10; 45; 0; 2; 192; 0; 2; 1] ++ [19; 136; 0; 53; 0; 8; 0; 0].
Definition packet6 : list Z :=
  [0x60; 0; 0; 0; 0; 16; 0; 64; 32; 1; 13; 184] ++ replicate 11 0 ++ [1; 32; 1; 13; 184] ++ replicate 11 0 ++ [2] ++
  [17; 0; 1; 4; 0; 0; 0; 0] ++ [19; 136; 0; 53; 0; 8; 0; 0].
Definition rule_tcp : ipfw_rule :=
  IpfwRule 6 false false false false (replicate 16 0) (replicate 16 0) (replicate 16 0) (replicate 16 0) 0 0 0 0.
Definition rule_dns4 : ipfw_rule :=
  IpfwRule 17 true false false false ([10; 45] ++ replicate 14 0) ([255; 255] ++ replicate 14 0)
    (replicate 16 0) (replicate 16 0) 0 0 53 53.
Definition rule_any : ipfw_rule :=
  IpfwRule 0 false false false false (replicate 16 0) (replicate 16 0) (replicate 16 0) (replicate 16 0) 0 0 0 0.

(** The last 8 octets of a UDP packet of 1488, in a fragment of their own: the
    sender chose them so that they pass for the ports of DNS. *)
Definition fragment4 : list Z :=
  [0x45; 0; 0; 28; 0; 1; 0; 185; 64; 17; 0; 0; 10; 45; 0; 2; 192; 0; 2; 1] ++ [19; 136; 0; 53; 0; 8; 0; 0].
Lemma later_fragment_by_data : later_fragment fragment4 ∧
  ogs_pfcp_pdr_rule_find_by_packet [rule_tcp; rule_dns4] fragment4 = Some (Some 1%nat).
Proof. split; [|by vm_compute]. apply ipv4_later; by vm_compute. Qed.

Lemma rule_find_by_packet_exact_witness :
  (∃ res, ogs_pfcp_pdr_rule_find_by_packet [rule_tcp; rule_dns4; rule_any] packet6 = Some res ∧
    (∀ f, flow_of packet6 f → first_accepting f [rule_tcp; rule_dns4; rule_any] res)) ∧
  (∃ f, flow_of packet4 f) ∧
  ogs_pfcp_pdr_rule_find_by_packet [rule_tcp; rule_dns4; rule_any] packet4 = Some (Some 1%nat) ∧
  ogs_pfcp_pdr_rule_find_by_packet [rule_tcp; rule_dns4; rule_any] packet6 = Some (Some 2%nat) ∧
  ogs_pfcp_pdr_rule_find_by_packet [rule_any] (take 27 packet4) = Some None.
Proof.
  split; [|split; [|by vm_compute]].
  2: { exists (Flow [10; 45; 0; 2] [192; 0; 2; 1] 17 (Some (5000, 53))). split.
    - eexists. split; [apply (ipv4_packet packet4 20 28); by vm_compute|by apply ports_udp].
    - intros [_ H|e H _ _]; [by vm_compute in H|by vm_compute in H]. }
  destruct (rule_find_by_packet_exact [rule_tcp; rule_dns4; rule_any] packet6) as (res & E & Hf & _).
  - repeat constructor.
  - unfold packet6, bytes. repeat (apply Forall_app; split); try apply Forall_replicate; repeat constructor; unfold is_byte; lia.
  - done.
  - eauto.
Defined.
