(* ===== verification/GtpU.v ===== *)
(** * The header of GTP-U (lib/gtp/util.c, lib/gtp/v2/build.c)

    User packets travel between the functions of the user plane behind a
    header with the tunnel's identifier and extension headers, which carry
    the flow of the packet, a UDP port or a PDCP number. *)
From S2P Require Import Prelude XactBase Octets Pkbuf Gtp2Types RuleMatch.
#[local] Open Scope Z_scope.

Definition OGS_GTPV1U_HEADER_LEN : Z := 8.
Definition OGS_GTPV1U_EXTENSION_HEADER_LEN : Z := 4.
Definition OGS_GTPU_FLAGS_V : Z := 0x20.
Definition OGS_GTPU_FLAGS_PT : Z := 0x10.
Definition OGS_GTPU_FLAGS_E : Z := 0x04.
Definition OGS_GTPU_FLAGS_S : Z := 0x02.
Definition OGS_GTPU_FLAGS_PN : Z := 0x01.
Definition OGS_GTPU_MSGTYPE_ERR_IND : Z := 26.
Definition OGS_GTP2_EXTENSION_HEADER_TYPE_UDP_PORT : Z := 0x40.
Definition OGS_GTP2_EXTENSION_HEADER_TYPE_PDU_SESSION_CONTAINER : Z := 0x85.
Definition OGS_GTP2_EXTENSION_HEADER_TYPE_PDCP_NUMBER : Z := 0xc0.
Definition OGS_GTP2_EXTENSION_HEADER_PDU_TYPE_DL_PDU_SESSION_INFORMATION : Z := 0.
Definition OGS_GTP2_EXTENSION_HEADER_PDU_TYPE_UL_PDU_SESSION_INFORMATION : Z := 1.
Definition OGS_GTP2_MAX_EXTENSION_HEADER_LEN : Z := 4.
Definition OGS_GTP2_NUM_OF_EXTENSION_HEADER : nat := 8.

(** ogs_gtp2_header_desc_t; [udp] and [pdcp_number] are None without their
    presence. *)
Record ogs_gtp2_header_desc := HeaderDesc {
  type : Z; flags : Z; teid : Z;
  qos_flow_identifier : Z; pdu_type : Z; udp : option Z; pdcp_number : option Z }.

(** ** Parsing *)

(** What an extension header of four octets, of a type and with two octets of
    content, sets. *)
Definition take_ext (t c0 c1 : Z) (d : ogs_gtp2_header_desc) : ogs_gtp2_header_desc :=
  if t =? OGS_GTP2_EXTENSION_HEADER_TYPE_PDU_SESSION_CONTAINER then
    let pt := Z.shiftr c0 4 in
    HeaderDesc (type d) (flags d) (teid d)
      (if pt =? OGS_GTP2_EXTENSION_HEADER_PDU_TYPE_UL_PDU_SESSION_INFORMATION then Z.land c1 0x3f else qos_flow_identifier d)
      pt (udp d) (pdcp_number d)
  else if t =? OGS_GTP2_EXTENSION_HEADER_TYPE_UDP_PORT then
    HeaderDesc (type d) (flags d) (teid d) (qos_flow_identifier d) (pdu_type d) (Some (bswap 2 (le_value [c0; c1]))) (pdcp_number d)
  else if t =? OGS_GTP2_EXTENSION_HEADER_TYPE_PDCP_NUMBER then
    HeaderDesc (type d) (flags d) (teid d) (qos_flow_identifier d) (pdu_type d) (udp d) (Some (bswap 2 (le_value [c0; c1])))
  else d.

(** The loop over the extension headers in the memory [mem] from the packet's
    first octet on; [pklen] is the length of the packet, [turns] is what is
    left of the limit. *)
Fixpoint gtpu_ext_loop (turns : nat) (mem : list Z) (pklen len : Z) (d : ogs_gtp2_header_desc) : option (Z * ogs_gtp2_header_desc) :=
  t ← byte_at mem (len - 1);
  match turns with
  | O => Some (-1, d)
  | S turns =>
      if t =? 0 then Some (len, d)
      else
        l ← byte_at mem len;
        let len' := u16 (len + l * 4) in
        if l =? 0 then Some (-1, d)
        else if OGS_GTP2_MAX_EXTENSION_HEADER_LEN <? l * 4 then Some (-1, d)
        else if pklen <? len' then Some (-1, d)
        else
          hdr ← octets_at mem (len - 1) (l * 4);
          c0 ← hdr !! 2%nat; c1 ← hdr !! 3%nat;
          gtpu_ext_loop turns mem pklen len' (take_ext t c0 c1 d)
  end.

(** With a descriptor, as every caller gives one. *)
Definition ogs_gtpu_parse_header (mem : list Z) (pklen : Z) : option (Z * ogs_gtp2_header_desc) :=
  fl ← byte_at mem 0;
  ty ← byte_at mem 1;
  bs ← octets_at mem 4 4;
  let d := HeaderDesc ty fl (bswap 4 (le_value bs)) 0 0 None None in
  if pklen <? OGS_GTPV1U_HEADER_LEN then Some (-1, d)
  else if negb (Z.land fl OGS_GTPU_FLAGS_E =? 0) then
    let len := OGS_GTPV1U_HEADER_LEN + OGS_GTPV1U_EXTENSION_HEADER_LEN in
    if pklen <? len then Some (-1, d)
    else
      '(len, d) ← gtpu_ext_loop OGS_GTP2_NUM_OF_EXTENSION_HEADER mem pklen len d;
      if pklen <? len then Some (-1, d) else Some (len, d)
  else
    let len := if negb (Z.land fl (Z.lor OGS_GTPU_FLAGS_S OGS_GTPU_FLAGS_PN) =? 0)
               then OGS_GTPV1U_HEADER_LEN + 4 else OGS_GTPV1U_HEADER_LEN in
    if pklen <? len then Some (-1, d) else Some (len, d).

(** ** Building *)

(** The array of extension headers is its octets, four for each: type, length
    and content. *)
Definition ext_at (array : list Z) (i k : nat) : Z := nth (4 * i + k) array 0.
Definition put_at (off : nat) (bs data : list Z) : option (list Z) :=
  if (off + length bs <=? length data)%nat then Some (take off data ++ bs ++ drop (off + length bs) data) else None.

Fixpoint gtp_hlen_loop (turns i : nat) (array : list Z) (gtp_hlen : Z) : Z :=
  match turns with
  | O => gtp_hlen
  | S turns =>
      if ext_at array i 1 =? 0 then gtp_hlen
      else gtp_hlen_loop turns (S i) array (u8 (gtp_hlen + ext_at array i 1 * 4))
  end.
Fixpoint fill_ext_loop (turns i : nat) (array : list Z) (gtp_hlen : Z) (off : nat) (data : list Z) : option (list Z) :=
  match turns with
  | O => Some data
  | S turns =>
      if negb (ext_at array i 1 =? 0) && (Z.of_nat off <? gtp_hlen) then
        let len := ext_at array i 1 * 4 in
        c ← octets_at array (Z.of_nat (4 * i + 1)) (len - 1);
        data ← put_at off c data;
        let next := if (i + 1 <? OGS_GTP2_NUM_OF_EXTENSION_HEADER)%nat && negb (ext_at array (i + 1) 1 =? 0)
                    then ext_at array (i + 1) 0 else 0 in
        data ← put_at (off + Z.to_nat len - 1) [next] data;
        fill_ext_loop turns (S i) array gtp_hlen (off + Z.to_nat len) data
      else Some data
  end.

Definition ogs_gtp2_fill_header (hflags htype : Z) (array : list Z) (p : pkbuf) : option pkbuf :=
  let flags := Z.lor hflags (Z.lor OGS_GTPU_FLAGS_V OGS_GTPU_FLAGS_PT) in
  let flags := if negb (ext_at array 0 0 =? 0) && negb (ext_at array 0 1 =? 0) then Z.lor flags OGS_GTPU_FLAGS_E else flags in
  let e := negb (Z.land flags OGS_GTPU_FLAGS_E =? 0) in
  let gtp_hlen :=
    if e then gtp_hlen_loop OGS_GTP2_NUM_OF_EXTENSION_HEADER 0 array (OGS_GTPV1U_HEADER_LEN + OGS_GTPV1U_EXTENSION_HEADER_LEN)
    else if negb (Z.land flags (Z.lor OGS_GTPU_FLAGS_S OGS_GTPU_FLAGS_PN) =? 0)
    then OGS_GTPV1U_HEADER_LEN + OGS_GTPV1U_EXTENSION_HEADER_LEN else OGS_GTPV1U_HEADER_LEN in
  p ← ogs_pkbuf_push (Z.to_nat gtp_hlen) p;
  data ← put_at 0 (replicate (Z.to_nat gtp_hlen) 0) (pk_data p);
  data ← put_at 0 [flags; htype] data;
  data ← put_at 2 (le_bytes 2 (bswap 2 (u16 (zlen data - OGS_GTPV1U_HEADER_LEN)))) data;
  data ← (if e then
            data ← put_at 11 [ext_at array 0 0] data;
            fill_ext_loop OGS_GTP2_NUM_OF_EXTENSION_HEADER 0 array gtp_hlen 12 data
          else Some data);
  Some (Pkbuf (pk_before p) data (pk_after p)).

(** The octets of an extension header; [pdu_type] and [qos_flow_identifier] are
    fields of 4 and 6 bits. *)
Definition ext_entries (d : ogs_gtp2_header_desc) : list (list Z) :=
  (if qos_flow_identifier d =? 0 then [] else
     [[OGS_GTP2_EXTENSION_HEADER_TYPE_PDU_SESSION_CONTAINER; 1; Z.shiftl (Z.land (pdu_type d) 0xf) 4; Z.land (qos_flow_identifier d) 0x3f]]) ++
  match udp d with Some port => [[OGS_GTP2_EXTENSION_HEADER_TYPE_UDP_PORT; 1] ++ le_bytes 2 (bswap 2 port)] | None => [] end ++
  match pdcp_number d with Some n => [[OGS_GTP2_EXTENSION_HEADER_TYPE_PDCP_NUMBER; 1] ++ le_bytes 2 (bswap 2 n)] | None => [] end.
Definition ext_array (es : list (list Z)) : list Z :=
  concat es ++ replicate (4 * (OGS_GTP2_NUM_OF_EXTENSION_HEADER - length es)) 0.
Definition ogs_gtp2_encapsulate_header (d : ogs_gtp2_header_desc) (p : pkbuf) : option pkbuf :=
  ogs_gtp2_fill_header (flags d) (type d) (ext_array (ext_entries d)) p.

(** [ogs_gtp_send_with_teid] up to the datagram that it sends. *)
Definition gtp_datagram (t : Z) (p : pkbuf) : option (list Z) := put_at 4 (le_bytes 4 (bswap 4 t)) (pk_data p).

(** [ogs_gtp1_send_error_indication] from the message on that was built. *)
Definition error_indication_header (qfi : Z) (p : pkbuf) : option pkbuf :=
  ogs_gtp2_fill_header (Z.lor OGS_GTPU_FLAGS_S OGS_GTPU_FLAGS_E) OGS_GTPU_MSGTYPE_ERR_IND
    (ext_array ((if qfi =? 0 then [] else
       [[OGS_GTP2_EXTENSION_HEADER_TYPE_PDU_SESSION_CONTAINER; 1;
         Z.shiftl OGS_GTP2_EXTENSION_HEADER_PDU_TYPE_DL_PDU_SESSION_INFORMATION 4; Z.land qfi 0x3f]]) ++
       [[OGS_GTP2_EXTENSION_HEADER_TYPE_UDP_PORT; 1; 0; 0]])) p.

(** A packet of flow 9 in tunnel 0x01020304, and back. *)
Example gtpu_example :
  let d := HeaderDesc 255 0 0 9 1 None None in
  (p ← ogs_gtp2_encapsulate_header d (Pkbuf (replicate 32 170) [69; 0] [7]);
   dg ← gtp_datagram 0x01020304 p;
   '(n, d') ← ogs_gtpu_parse_header (dg ++ [7]) (zlen dg);
   Some (dg, n, qos_flow_identifier d', teid d')) =
  Some ([0x34; 255; 0; 10; 1; 2; 3; 4; 0; 0; 0; 0x85; 1; 16; 9; 0; 69; 0], 16, 9, 0x01020304).
Proof. by vm_compute. Qed.
