(* ===== verification/GtpUSpec.v ===== *)
(** * What the header of GTP-U says

    The headers of TS 29.281, with extension headers of four octets: parsing
    any octets finds out exactly them, whatever lies in the memory behind the
    packet, and what one function of the user plane builds, another parses. *)
From S2P Require Import Prelude XactBase Octets Pkbuf Gtp2Types RuleMatch RuleMatchSpec GtpU.
#[local] Open Scope Z_scope.

(** ** Headers *)

(** Octets from the type of an extension header on, and the headers' types and
    contents. *)
Inductive ext_headers : list Z → list (Z * Z * Z) → Prop :=
  | no_more rest : ext_headers (0 :: rest) []
  | one_more t c0 c1 rest es : t ≠ 0 → ext_headers rest es → ext_headers (t :: 1 :: c0 :: c1 :: rest) ((t, c0, c1) :: es).
(** What the last extension header of type [t] says that says something. *)
Definition told (t : Z) (f : Z → Z → option Z) (es : list (Z * Z * Z)) : option Z :=
  last (omap (λ '(t', c0, c1), if t' =? t then f c0 c1 else None) es).
(** What a header says.  A PDU session container has its PDU type in the four
    upper bits of its first octet; with PDU type 1, of the uplink, the flow is
    in the six lower bits of the second one (TS 38.415).  UDP ports and PDCP
    numbers are two octets, the first one the more significant (TS 29.281). *)
Definition says (es : list (Z * Z * Z)) (ty fl : Z) (tid : list Z) : ogs_gtp2_header_desc :=
  HeaderDesc ty fl (be_value tid)
    (default 0 (told 0x85 (λ c0 c1, if c0 / 16 =? 1 then Some (c1 mod 64) else None) es))
    (default 0 (told 0x85 (λ c0 _, Some (c0 / 16)) es))
    (told 0x40 (λ c0 c1, Some (256 * c0 + c1)) es)
    (told 0xc0 (λ c0 c1, Some (256 * c0 + c1)) es).
Abbreviation plain := (says []).

(** The packet has a header of [n] octets that says [d]; at most seven extension
    headers are allowed. *)
Inductive gtpu_packet : list Z → Z → ogs_gtp2_header_desc → Prop :=
  | gtpu_short fl ty l tid rest : length l = 2%nat → length tid = 4%nat → Z.land fl 7 = 0 →
      gtpu_packet ([fl; ty] ++ l ++ tid ++ rest) 8 (plain ty fl tid)
  | gtpu_optional fl ty l tid rest : length l = 2%nat → length tid = 4%nat → Z.land fl 4 = 0 → Z.land fl 3 ≠ 0 →
      (4 ≤ length rest)%nat → gtpu_packet ([fl; ty] ++ l ++ tid ++ rest) 12 (plain ty fl tid)
  | gtpu_extended fl ty l tid sn rest es : length l = 2%nat → length tid = 4%nat → Z.land fl 4 ≠ 0 →
      length sn = 3%nat → ext_headers rest es → (length es < 8)%nat →
      gtpu_packet ([fl; ty] ++ l ++ tid ++ sn ++ rest) (12 + 4 * zlen es) (says es ty fl tid).

Lemma ext_headers_length w es : ext_headers w es → (4 * length es + 1 ≤ length w)%nat.
Proof. induction 1; cbn [length]; lia. Qed.
Lemma ext_headers_bytes w es : ext_headers w es → bytes w → Forall (λ '(t, c0, c1), is_byte t ∧ is_byte c0 ∧ is_byte c1) es.
Proof.
  induction 1 as [|t c0 c1 rest es _ _ IH]; intros Hb; [constructor|].
  apply Forall_cons in Hb as [Ht [_ [H0 [H1 Hr]%Forall_cons]%Forall_cons]%Forall_cons]. constructor; [done|by apply IH].
Qed.
Lemma ext_headers_unique w es es' : ext_headers w es → ext_headers w es' → es = es'.
Proof.
  intros H. revert es'. induction H as [|? ? ? ? ? ? _ IH]; intros es' H'; inversion H'; subst; try done. f_equal. auto.
Qed.

(** What [take_ext] collects. *)
Definition with_exts (es : list (Z * Z * Z)) (d : ogs_gtp2_header_desc) : ogs_gtp2_header_desc :=
  foldl (λ d '(t, c0, c1), take_ext t c0 c1 d) d es.
Lemma with_exts_snoc es t c0 c1 d : with_exts (es ++ [(t, c0, c1)]) d = take_ext t c0 c1 (with_exts es d).
Proof. unfold with_exts. by rewrite foldl_app. Qed.
Lemma told_snoc t f es t' c0 c1 : told t f (es ++ [(t', c0, c1)]) =
  match (if t' =? t then f c0 c1 else None) with Some x => Some x | None => told t f es end.
Proof.
  unfold told. rewrite omap_app. cbn. destruct (if t' =? t then _ else _); [by rewrite last_snoc|by rewrite app_nil_r].
Qed.
Lemma with_exts_says es ty fl tid : Forall (λ '(t, c0, c1), is_byte t ∧ is_byte c0 ∧ is_byte c1) es →
  with_exts es (plain ty fl tid) = says es ty fl tid.
Proof.
  induction es as [|[[t c0] c1] es IH] using rev_ind; [done|]. intros [Hes (_ & H0 & H1)%Forall_singleton]%Forall_app.
  rewrite with_exts_snoc, IH by done.
  unfold says. rewrite !told_snoc.
  assert (Hv : bswap 2 (le_value [c0; c1]) = 256 * c0 + c1).
  { rewrite bswap_le_value; [unfold be_value; cbn [fold_left]; lia|done|by repeat (constructor; [done|])]. }
  unfold take_ext. rewrite Hv. change 0x3f with (2 ^ 6 - 1). rewrite land_mask, Z.shiftr_div_pow2 by lia.
  change (2 ^ 6) with 64. change (2 ^ 4) with 16. unfold OGS_GTP2_EXTENSION_HEADER_TYPE_PDU_SESSION_CONTAINER,
    OGS_GTP2_EXTENSION_HEADER_TYPE_UDP_PORT, OGS_GTP2_EXTENSION_HEADER_TYPE_PDCP_NUMBER, OGS_GTP2_EXTENSION_HEADER_PDU_TYPE_UL_PDU_SESSION_INFORMATION.
  destruct (Z.eqb_spec t 0x85) as [->|]; [cbn -[Z.div Z.modulo Z.eqb]; by destruct (c0 / 16 =? 1)|].
  destruct (Z.eqb_spec t 0x40) as [->|]; [done|]. by destruct (Z.eqb_spec t 0xc0) as [->|].
Qed.

Lemma octet_app i (l k : list Z) : (i < length l)%nat → octet i (l ++ k) = octet i l.
Proof. intros. unfold octet. by rewrite app_nth1. Qed.

(** ** Parsing *)

Lemma window_lt mem p e i : 0 ≤ p → 0 ≤ i < e - p → octet (Z.to_nat i) (window mem p e) = octet (Z.to_nat (p + i)) mem.
Proof.
  intros Hp Hi. unfold octet, window. rewrite !nth_lookup, lookup_take_lt, lookup_drop by lia. do 2 f_equal. lia.
Qed.
Lemma ext_loop_window turns mem pklen len d : bytes mem → pklen < zlen mem → 12 ≤ len ≤ pklen → len + 4 * Z.of_nat turns ≤ 44 →
  let w := window mem (len - 1) pklen in
  (∀ es, ext_headers w es → (length es < turns)%nat →
     gtpu_ext_loop turns mem pklen len d = Some (len + 4 * zlen es, with_exts es d)) ∧
  ((∀ es, ext_headers w es → (turns ≤ length es)%nat) → ∃ d', gtpu_ext_loop turns mem pklen len d = Some (-1, d')).
Proof.
  intros Hb Hm. revert len d. induction turns as [|turns IH]; intros len d Hlen H44 w.
  all: assert (Hw : w = octet 0 w :: window mem len pklen)
    by (unfold w at 1; rewrite window_cons by lia; fold w; do 2 f_equal; lia).
  all: assert (Ht : byte_at mem (len - 1) = Some (octet 0 w))
    by (replace (len - 1) with (len - 1 + 0) at 1 by lia; apply (byte_at_window mem (len - 1) 0 pklen); lia).
  { split; [intros; lia|]. intros _. cbn [gtpu_ext_loop]. rewrite Ht. by exists d. }
  cbn [gtpu_ext_loop]. rewrite Ht. cbn [mbind option_bind].
  destruct (Z.eqb_spec (octet 0 w) 0) as [E0|E0].
  { rewrite Hw, E0. split; [|intros H; specialize (H [] (no_more _)); cbn in H; lia].
    intros es Hes _. inversion Hes; subst; [|done]. unfold zlen. cbn. do 2 f_equal. lia. }
  assert (Hb1 : byte_at mem len = Some (octet (Z.to_nat len) mem)).
  { pose proof (byte_at_window mem 0 len (zlen mem)) as H. rewrite window_all in H. apply H; lia. }
  rewrite Hb1. cbn [mbind option_bind]. set (l := octet (Z.to_nat len) mem).
  assert (Hl : is_byte l) by by apply octet_byte. unfold is_byte in Hl.
  cbv zeta. unfold u16. rewrite Z.mod_small by lia. change OGS_GTP2_MAX_EXTENSION_HEADER_LEN with 4.
  assert (Hwl : len < pklen → window mem len pklen = l :: window mem (len + 1) pklen).
  { intros. rewrite window_cons by lia. f_equal. pose proof (window_lt mem len pklen 0) as H'. rewrite Z.add_0_r in H'. apply H'; lia. }
  assert (Hinv : ∀ es, ext_headers w es → l = 1 ∧ len + 4 ≤ pklen).
  { intros es Hes. assert (zlen w = pklen - (len - 1)) as Hzl by (apply window_length; lia).
    pose proof (ext_headers_length _ _ Hes). unfold zlen in Hzl. rewrite Hw in Hes. inversion Hes as [|t c0 c1 rest es' _ Hr]; subst; [done|].
    cbn [length] in *. match goal with E : _ = window mem len pklen |- _ => rewrite Hwl in E by lia; injection E as E _ end. lia. }
  destruct (Z.eqb_spec l 0); [split; [intros es Hes; apply Hinv in Hes; lia|by eexists]|].
  destruct (Z.ltb_spec 4 (l * 4)); [split; [intros es Hes; apply Hinv in Hes; lia|by eexists]|].
  assert (l = 1) as El by lia. rewrite El in *. change (1 * 4) with 4.
  destruct (Z.ltb_spec pklen (len + 4)); [split; [intros es Hes; apply Hinv in Hes; lia|by eexists]|].
  set (c0 := octet 0 (window mem (len + 1) pklen)). set (c1 := octet 0 (window mem (len + 2) pklen)).
  assert (Hw4 : w = octet 0 w :: 1 :: c0 :: c1 :: window mem (len + 3) pklen).
  { rewrite Hw at 1. rewrite Hwl by lia. rewrite (window_cons mem (len + 1)) by lia. fold c0. replace (len + 1 + 1) with (len + 2) by lia.
    rewrite (window_cons mem (len + 2)) by lia. fold c1. by replace (len + 2 + 1) with (len + 3) by lia. }
  replace (octets_at mem (len - 1) 4) with (Some [octet 0 w; 1; c0; c1]).
  2:{ pose proof (octets_at_window mem (len - 1) 0 4 pklen) as H4. rewrite Z.add_0_r in H4. rewrite H4 by lia. fold w. by rewrite Hw4. }
  cbn [mbind option_bind lookup list_lookup]. destruct (IH (len + 4) (take_ext (octet 0 w) c0 c1 d)) as [IH1 IH2]; [lia..|].
  replace (len + 4 - 1) with (len + 3) in IH1, IH2 by lia. split.
  - intros es Hes Hn. rewrite Hw4 in Hes. inversion Hes as [|? ? ? ? es' _ Hr]; subst; [done|]. cbn [length] in Hn.
    rewrite (IH1 es' Hr) by lia. unfold zlen. cbn [length with_exts foldl]. do 2 f_equal. lia.
  - intros Hno. apply IH2. intros es Hes. specialize (Hno ((octet 0 w, c0, c1) :: es)). cbn [length] in Hno.
    apply le_S_n, Hno. rewrite Hw4 at 1. by constructor.
Qed.

Lemma land_7 fl : Z.land fl 7 = 0 ↔ Z.land fl 4 = 0 ∧ Z.land fl 3 = 0.
Proof. change 7 with (Z.lor 4 3). rewrite Z.land_lor_distr_r. apply Z.lor_eq_0_iff. Qed.

(** The same by offsets. *)
Lemma gtpu_packet_offsets pkt n d : gtpu_packet pkt n d ↔
  8 ≤ zlen pkt ∧ let fl := octet 0 pkt in let d0 := plain (octet 1 pkt) fl (window pkt 4 8) in
  (Z.land fl 4 = 0 ∧ Z.land fl 3 = 0 ∧ n = 8 ∧ d = d0 ∨
   Z.land fl 4 = 0 ∧ Z.land fl 3 ≠ 0 ∧ 12 ≤ zlen pkt ∧ n = 12 ∧ d = d0 ∨
   Z.land fl 4 ≠ 0 ∧ ∃ es, ext_headers (drop 11 pkt) es ∧ (length es < 8)%nat ∧ n = 12 + 4 * zlen es ∧ d = says es (octet 1 pkt) fl (window pkt 4 8)).
Proof.
  assert (Hw : ∀ fl ty (l tid rest : list Z), length l = 2%nat → length tid = 4%nat →
    octet 0 ([fl; ty] ++ l ++ tid ++ rest) = fl ∧ octet 1 ([fl; ty] ++ l ++ tid ++ rest) = ty ∧
    window ([fl; ty] ++ l ++ tid ++ rest) 4 8 = tid ∧ zlen ([fl; ty] ++ l ++ tid ++ rest) = 8 + zlen rest ∧
    drop 8 ([fl; ty] ++ l ++ tid ++ rest) = rest).
  { intros fl ty l tid rest Hl Ht. destruct l as [|? [|? [|]]], tid as [|? [|? [|? [|? [|]]]]]; try done.
    split_and!; try done. unfold zlen. cbn [length app]. lia. }
  cbv zeta. split.
  - intros H. inversion H as [fl ty l tid rest Hl Ht H7|fl ty l tid rest Hl Ht H4 H3 Hr|fl ty l tid sn rest es Hl Ht H4 Hsn Hx Hes]; subst.
    + destruct (Hw fl ty l tid rest Hl Ht) as (-> & -> & -> & -> & _). apply land_7 in H7 as [? ?]. split; [unfold zlen; lia|]. auto.
    + destruct (Hw fl ty l tid rest Hl Ht) as (-> & -> & -> & -> & _). split; [unfold zlen; lia|].
      right. left. split_and!; try done. unfold zlen. lia.
    + destruct (Hw fl ty l tid (sn ++ rest) Hl Ht) as (-> & -> & -> & -> & Hd). split; [unfold zlen; lia|].
      right. right. split; [done|]. exists es. split_and!; try done. replace 11%nat with (8 + 3)%nat by done.
      rewrite <- drop_drop, Hd, <- Hsn, drop_app_length. done.
  - intros [H8 H].
    assert (Hp : pkt = [octet 0 pkt; octet 1 pkt] ++ window pkt 2 4 ++ window pkt 4 8 ++ drop 8 pkt).
    { unfold window. cbn. do 9 (destruct pkt as [|? pkt]; [done || (unfold zlen in H8; cbn in H8; lia)|try done]). }
    pose proof (window_nat pkt 2 4 ltac:(lia) ltac:(lia)) as Hl. pose proof (window_nat pkt 4 8 ltac:(lia) ltac:(lia)) as Ht.
    destruct H as [(H4 & H3 & -> & ->)|[(H4 & H3 & H12 & -> & ->)|(H4 & es & Hx & Hes & -> & ->)]]; rewrite Hp at 1.
    + apply gtpu_short; [done..|]. by apply land_7.
    + apply gtpu_optional; try done. rewrite length_drop. unfold zlen in H12. lia.
    + rewrite <- (take_drop 3 (drop 8 pkt)), drop_drop. apply gtpu_extended; try done. rewrite length_take, length_drop.
      pose proof (ext_headers_length _ _ Hx) as Hxl. rewrite length_drop in Hxl. lia.
Qed.

(** Whether there is a header can be read off. *)
Lemma ext_headers_dec k w : (length w ≤ k)%nat → (∃ es, ext_headers w es) ∨ (∀ es, ¬ ext_headers w es).
Proof.
  revert w. induction k as [|k IH]; intros [|t w] Hk; cbn in Hk; try lia; try (right; intros es H; by inversion H).
  destruct (decide (t = 0)) as [->|Ht]; [left; eexists; constructor|].
  destruct w as [|l [|c0 [|c1 w]]]; try (right; intros es H; by inversion H).
  destruct (decide (l = 1)) as [->|Hl]; [|right; intros es H; by inversion H]. cbn in Hk.
  destruct (IH w) as [[es H]|H]; [lia|left; eexists; by constructor|]. right. intros es H'. inversion H'; subst; [done|]. by eapply H.
Qed.
Lemma gtpu_packet_dec pkt : (∃ n d, gtpu_packet pkt n d) ∨ (∀ n d, ¬ gtpu_packet pkt n d).
Proof.
  setoid_rewrite gtpu_packet_offsets. cbv zeta. set (d0 := says [] _ _ _).
  destruct (decide (8 ≤ zlen pkt)); [|right; naive_solver].
  destruct (decide (Z.land (octet 0 pkt) 4 = 0)); [destruct (decide (Z.land (octet 0 pkt) 3 = 0))|].
  - left. exists 8, d0. naive_solver.
  - destruct (decide (12 ≤ zlen pkt)); [left; exists 12, d0; naive_solver|right; naive_solver].
  - destruct (ext_headers_dec _ (drop 11 pkt) (le_n _)) as [[es Hx]|Hno]; [|right; naive_solver].
    destruct (decide (length es < 8)%nat); [left; do 2 eexists; split; [done|]; right; right; split; [done|]; by exists es|].
    right. intros n' d' (_ & [?|[?|(_ & es' & Hx' & ? & _)]]); [naive_solver..|]. by rewrite (ext_headers_unique _ _ _ Hx Hx') in *.
Qed.

Lemma parse_header_ok (pkt room : list Z) : bytes (pkt ++ room) → room ≠ [] → 8 ≤ zlen (pkt ++ room) →
  (∀ n d, gtpu_packet pkt n d → 8 ≤ n ≤ zlen pkt ∧ ogs_gtpu_parse_header (pkt ++ room) (zlen pkt) = Some (n, d)) ∧
  ((∀ n d, ¬ gtpu_packet pkt n d) → ∃ d, ogs_gtpu_parse_header (pkt ++ room) (zlen pkt) = Some (-1, d)).
Proof.
  intros Hb Hr H8. set (mem := pkt ++ room) in *.
  assert (Hm : zlen pkt < zlen mem) by (unfold mem, zlen; rewrite length_app; destruct room; [done|cbn; lia]).
  unfold ogs_gtpu_parse_header. rewrite (whole mem 0), (whole mem 1), (octets_whole mem 4 4 8) by lia. cbn [mbind option_bind].
  change (Z.to_nat 0) with 0%nat. change (Z.to_nat 1) with 1%nat. cbv zeta. setoid_rewrite gtpu_packet_offsets. cbv zeta.
  change OGS_GTPV1U_HEADER_LEN with 8. change OGS_GTPV1U_EXTENSION_HEADER_LEN with 4. change OGS_GTPU_FLAGS_E with 4.
  change (Z.lor OGS_GTPU_FLAGS_S OGS_GTPU_FLAGS_PN) with 3. change (8 + 4) with 12.
  destruct (Z.ltb_spec (zlen pkt) 8) as [Hlt|Hge]; [split; [intros n d [? _]; lia|by eexists]|].
  assert (Ho : ∀ i, (i < 8)%nat → octet i mem = octet i pkt) by (intros; apply octet_app; unfold zlen in *; lia).
  assert (Hwin : ∀ p, 0 ≤ p → window mem p (zlen pkt) = drop (Z.to_nat p) pkt).
  { intros p Hp. unfold window, mem. destruct (decide (zlen pkt < p)).
    - replace (Z.to_nat (zlen pkt - p)) with O by lia. symmetry. apply drop_ge. unfold zlen in *. lia.
    - unfold zlen in *. rewrite drop_app_le, take_app_length' by (rewrite ?length_drop; lia). done. }
  assert (Htid : bswap 4 (le_value (window mem 4 8)) = be_value (window pkt 4 8)).
  { rewrite bswap_le_value; [|rewrite window_nat by lia; done|by apply window_bytes]. f_equal. unfold window, mem.
    rewrite drop_app_le, take_app_le by (rewrite ?length_drop; unfold zlen in *; lia). done. }
  rewrite !Ho, Htid by lia. set (fl := octet 0 pkt). set (tid := window pkt 4 8). set (ty := octet 1 pkt). set (d0 := HeaderDesc _ _ _ _ _ _ _).
  destruct (Z.eqb_spec (Z.land fl 4) 0) as [E4|E4]; cbn [negb].
  - destruct (Z.eqb_spec (Z.land fl 3) 0) as [E3|E3]; cbn [negb].
    + replace (zlen pkt <? 8) with false by lia. split; [|intros H; by destruct (H 8 d0); auto 10].
      intros n d (_ & [(_ & _ & -> & ->)|[(_ & ? & _)|(? & _)]]); [|done..]. split; [lia|done].
    + destruct (Z.ltb_spec (zlen pkt) 12) as [H12|H12].
      * split; [|by eexists]. intros n d (_ & [(_ & ? & _)|[(_ & _ & ? & _)|(? & _)]]); [done|lia|done].
      * split; [|intros H; by destruct (H 12 d0); auto 10].
        intros n d (_ & [(_ & ? & _)|[(_ & _ & _ & -> & ->)|(? & _)]]); [done| |done]. split; [lia|done].
  - destruct (Z.ltb_spec (zlen pkt) 12) as [H12|H12].
    { split; [|by eexists]. intros n d (_ & [(? & _)|[(? & _)|(_ & es & Hx & _)]]); [done..|].
      apply ext_headers_length in Hx. rewrite length_drop in Hx. unfold zlen in *. lia. }
    destruct (ext_loop_window 8 mem (zlen pkt) 12 d0 Hb Hm ltac:(lia) ltac:(lia)) as [Hy Hn].
    change (12 - 1) with 11 in Hy, Hn. rewrite Hwin in Hy, Hn by lia. change (Z.to_nat 11) with 11%nat in Hy, Hn.
    change OGS_GTP2_NUM_OF_EXTENSION_HEADER with 8%nat. split.
    all: assert (Hsays : ∀ es, ext_headers (drop 11 pkt) es → says es ty fl tid = with_exts es d0)
      by (intros es Hx; symmetry; apply with_exts_says; eapply ext_headers_bytes; [exact Hx|by apply Forall_drop; apply Forall_app in Hb as [? _]]).
    + intros n d (_ & [(? & _)|[(? & _)|(_ & es & Hx & Hes & -> & ->)]]); [done..|]. rewrite Hsays, (Hy es Hx Hes) by done. cbn [mbind option_bind].
      apply ext_headers_length in Hx. rewrite length_drop in Hx. destruct (Z.ltb_spec (zlen pkt) (12 + 4 * zlen es)); unfold zlen in *; [lia|].
      split; [lia|done].
    + intros H. destruct Hn as [d' ->].
      * intros es Hx. destruct (decide (length es < 8)%nat); [|lia]. exfalso. apply (H (12 + 4 * zlen es) (says es ty fl tid)).
        split; [lia|]. right. right. split; [done|]. by exists es.
      * cbn [mbind option_bind]. replace (zlen pkt <? -1) with false by lia. by eexists.
Qed.

(** C37: Whatever the octets of a packet and of the memory behind it,
    ogs_gtpu_parse_header ends without a read beyond the buffer, and its
    result depends on the packet alone: when the packet has a header of TS
    29.281 whose at most seven extension headers have four octets each, the
    length of the header, its type, flags and tunnel, and of the last extension
    headers the PDU type, the flow of the uplink in six bits, the UDP port and
    the PDCP number, with the more significant octet first; and an error
    otherwise.  A packet has at most one header, and it lies in the packet. *)
Theorem ogs_gtpu_parse_header_exact (pkt room : list Z) : bytes (pkt ++ room) → room ≠ [] → 8 ≤ zlen (pkt ++ room) →
  ∃ rv d, ogs_gtpu_parse_header (pkt ++ room) (zlen pkt) = Some (rv, d) ∧
    (∀ n d', gtpu_packet pkt n d' → rv = n ∧ d = d' ∧ 8 ≤ n ≤ zlen pkt) ∧
    ((∀ n d', ¬ gtpu_packet pkt n d') → rv = -1).
Proof.
  intros Hb Hr H8. destruct (parse_header_ok pkt room Hb Hr H8) as [Hy Hn].
  destruct (gtpu_packet_dec pkt) as [(n & d & Hp)|Hno].
  - destruct (Hy n d Hp) as [Hlen E]. exists n, d. split_and!; [exact E| |intros Hno; by apply Hno in Hp].
    intros n' d' Hp'. destruct (Hy n' d' Hp') as [Hlen' E']. rewrite E in E'. by simplify_eq.
  - destruct (Hn Hno) as [d E]. exists (-1), d. split_and!; [exact E|intros n d' Hp; by apply Hno in Hp|done].
Qed.

(** ** Building *)

Definition entry (e : Z * Z * Z) : list Z := let '(t, c0, c1) := e in [t; 1; c0; c1].
(** From the first type on: each header names the type of the next one. *)
Fixpoint ext_octets (es : list (Z * Z * Z)) : list Z :=
  match es with [] => [0] | (t, c0, c1) :: es => t :: 1 :: c0 :: c1 :: ext_octets es end.

Lemma ext_octets_headers es data : Forall (λ '(t, c0, c1), t ≠ 0) es → ext_headers (ext_octets es ++ data) es.
Proof. induction 1 as [|[[t c0] c1] es Ht _ IH]; cbn; by constructor. Qed.
Lemma ext_octets_length es : zlen (ext_octets es) = 1 + 4 * zlen es.
Proof. induction es as [|[[t c0] c1] es IH]; [done|]. unfold zlen in *. cbn [ext_octets length]. lia. Qed.

Lemma put_at_eq (a b c bs : list Z) off : length a = off → length bs = length b → put_at off bs (a ++ b ++ c) = Some (a ++ bs ++ c).
Proof.
  intros <- Hb. unfold put_at. rewrite !length_app. destruct (Nat.leb_spec (length a + length bs) (length a + (length b + length c))); [|lia].
  rewrite take_app_length, <- drop_drop, drop_app_length, Hb, drop_app_length. done.
Qed.
(** Up to three extension headers, as many as there are kinds of them. *)
Lemma hlen_entries es : (length es ≤ 3)%nat → gtp_hlen_loop 8 0 (ext_array (entry <$> es)) 12 = 12 + 4 * zlen es.
Proof. intros H. destruct es as [|[[? ?] ?] [|[[? ?] ?] [|[[? ?] ?] [|? es]]]]; [reflexivity..|cbn in H; lia]. Qed.
Lemma fill_entries es (h data : list Z) t0 : (length es ≤ 3)%nat → es ≠ [] → length h = 11%nat → Forall (λ '(t, c0, c1), t ≠ 0) es →
  fill_ext_loop 8 0 (ext_array (entry <$> es)) (12 + 4 * zlen es) 12 (h ++ [t0] ++ replicate (4 * length es) 0 ++ data) =
  Some (h ++ [t0] ++ tail (ext_octets es) ++ data).
Proof.
  intros H Hne Hh _. do 12 (destruct h as [|? h]; try done).
  destruct es as [|[[? ?] ?] [|[[? ?] ?] [|[[? ?] ?] [|? es]]]]; [done|reflexivity..|cbn in H; lia].
Qed.

(** What the flags of a built header are. *)
Definition sent_flags (fl : Z) (ext : bool) : Z := Z.lor (Z.lor fl 0x30) (if ext then 4 else 0).
Lemma sent_flags_ext fl : Z.land (sent_flags fl true) 4 ≠ 0.
Proof.
  unfold sent_flags. rewrite Z.land_lor_distr_l. intros H. apply Z.lor_eq_0_iff in H as [_ H]. done.
Qed.

Lemma fill_header_ok hfl ht es p : (length es ≤ 3)%nat → es ≠ [] → Forall (λ '(t, c0, c1), t ≠ 0) es →
  (12 + 4 * length es ≤ ogs_pkbuf_headroom p)%nat →
  ∃ b, ogs_gtp2_fill_header hfl ht (ext_array (entry <$> es)) p = Some (Pkbuf b
    ([sent_flags hfl true; ht] ++ be_bytes 2 (u16 (4 + 4 * zlen es + zlen (pk_data p))) ++ replicate 4 0 ++ replicate 3 0 ++ ext_octets es ++ pk_data p)
    (pk_after p)).
Proof.
  intros Hn Hne Ht Hroom. unfold ogs_gtp2_fill_header.
  assert (H0 : ext_at (ext_array (entry <$> es)) 0 0 = default 0 (head (ext_octets es)) ∧ ext_at (ext_array (entry <$> es)) 0 0 ≠ 0 ∧
    ext_at (ext_array (entry <$> es)) 0 1 = 1).
  { destruct es as [|[[t c0] c1] es]; [done|]. apply Forall_cons in Ht as [Ht _]. done. }
  destruct H0 as (H0 & H0' & H1). rewrite H1. destruct (Z.eqb_spec (ext_at (ext_array (entry <$> es)) 0 0) 0) as [|_]; [done|].
  cbn [negb andb Z.eqb]. change (Z.lor OGS_GTPU_FLAGS_V OGS_GTPU_FLAGS_PT) with 0x30. change OGS_GTPU_FLAGS_E with 4.
  fold (sent_flags hfl true). destruct (Z.eqb_spec (Z.land (sent_flags hfl true) 4) 0) as [E|_]; [by apply sent_flags_ext in E|].
  cbn [negb]. change OGS_GTP2_NUM_OF_EXTENSION_HEADER with 8%nat. change (OGS_GTPV1U_HEADER_LEN + OGS_GTPV1U_EXTENSION_HEADER_LEN) with 12.
  change OGS_GTPV1U_HEADER_LEN with 8. rewrite hlen_entries by done.
  set (n := length es). replace (Z.to_nat (12 + 4 * zlen es)) with (12 + 4 * n)%nat by (unfold zlen, n; lia).
  destruct (headroom_split p _ Hroom) as (b & c & Eb & Hc & _). exists b. destruct p as [pb pd pa]. cbn [pk_before pk_data pk_after] in *. subst pb.
  rewrite push_eq by done. cbn [mbind option_bind pk_data pk_before pk_after].
  pose proof (put_at_eq [] c pd (replicate (12 + 4 * n) 0) 0 eq_refl) as E1. cbn [app] in E1. rewrite E1 by (rewrite length_replicate; done).
  cbn [mbind option_bind]. clear E1.
  assert (Hz : replicate (12 + 4 * n) 0 ++ pd = [] ++ [0; 0] ++ [0; 0] ++ replicate 7 0 ++ [0] ++ replicate (4 * n) 0 ++ pd) by done.
  rewrite Hz. rewrite (put_at_eq [] [0; 0]) by done. cbn [mbind option_bind]. rewrite app_nil_l.
  rewrite (put_at_eq [sent_flags hfl true; ht] [0; 0]) by (rewrite ?le_bytes_length; done). cbn [mbind option_bind].
  rewrite le_bytes_bswap.
  assert (Hlen : zlen ([sent_flags hfl true; ht] ++ [0; 0] ++ replicate 7 0 ++ [0] ++ replicate (4 * n) 0 ++ pd) - 8 = 4 + 4 * zlen es + zlen pd).
  { unfold zlen. rewrite !length_app, !length_replicate. cbn [length]. fold n. lia. }
  rewrite Hlen. set (l2 := be_bytes 2 _). assert (Hl2 : length l2 = 2%nat) by apply be_bytes_length. clearbody l2.
  set (t0 := ext_at _ 0 0) in *. set (h := [sent_flags hfl true; ht] ++ l2 ++ replicate 7 0).
  assert (Hh : length h = 11%nat) by (unfold h; rewrite !length_app, Hl2; done).
  replace ([sent_flags hfl true; ht] ++ l2 ++ replicate 7 0 ++ [0] ++ replicate (4 * n) 0 ++ pd) with (h ++ [0] ++ replicate (4 * n) 0 ++ pd)
    by (unfold h; by rewrite <- !app_assoc).
  rewrite (put_at_eq h [0] _ [t0]) by done. cbn [mbind option_bind]. unfold n. rewrite fill_entries by done. cbn [mbind option_bind].
  do 2 f_equal. unfold h. rewrite <- !app_assoc. do 2 f_equal. change (replicate 7 0) with (replicate 4 0 ++ replicate 3 0). rewrite <- app_assoc.
  do 2 f_equal. rewrite H0. destruct es as [|[[t c0] c1] es]; done.
Qed.

Definition optional_octets (fl : Z) : nat := if decide (Z.land fl 7 = 0) then 0 else 4.
Lemma fill_header_plain hfl ht p : (12 ≤ ogs_pkbuf_headroom p)%nat →
  ∃ b, ogs_gtp2_fill_header hfl ht (ext_array []) p = Some (Pkbuf b
    ([sent_flags hfl false; ht] ++ be_bytes 2 (u16 (Z.of_nat (optional_octets hfl) + zlen (pk_data p))) ++ replicate 4 0 ++
       replicate (optional_octets hfl) 0 ++ pk_data p) (pk_after p)).
Proof.
  intros Hroom. unfold ogs_gtp2_fill_header. change (ext_at (ext_array []) 0 0) with 0. cbn [Z.eqb negb andb].
  change (Z.lor OGS_GTPU_FLAGS_V OGS_GTPU_FLAGS_PT) with 0x30. change OGS_GTPU_FLAGS_E with 4.
  change (Z.lor OGS_GTPU_FLAGS_S OGS_GTPU_FLAGS_PN) with 3.
  assert (Hfl : Z.lor hfl 0x30 = sent_flags hfl false) by (unfold sent_flags; by rewrite Z.lor_0_r). rewrite Hfl.
  change (gtp_hlen_loop _ _ _ _) with 12. change (OGS_GTPV1U_HEADER_LEN + OGS_GTPV1U_EXTENSION_HEADER_LEN) with 12. change OGS_GTPV1U_HEADER_LEN with 8.
  assert (H7 : optional_octets hfl = if Z.land (sent_flags hfl false) 4 =? 0 then if Z.land (sent_flags hfl false) 3 =? 0 then 0%nat else 4%nat else 4%nat).
  { unfold optional_octets, sent_flags. rewrite Z.lor_0_r, !Z.land_lor_distr_l. change (Z.land 0x30 _) with 0. rewrite !Z.lor_0_r.
    pose proof (land_7 hfl). destruct (decide _); destruct (Z.eqb_spec (Z.land hfl 4) 0), (Z.eqb_spec (Z.land hfl 3) 0); tauto. }
  set (e := negb (Z.land (sent_flags hfl false) 4 =? 0)). set (k := optional_octets hfl) in *.
  replace (Z.to_nat (if e then 12 else _)) with (8 + k)%nat.
  2:{ unfold e. rewrite H7. destruct (Z.land _ 4 =? 0); cbn [negb]; [|done]. by destruct (Z.land _ 3 =? 0). }
  assert (Hk : (k ≤ 4)%nat) by (rewrite H7; repeat case_match; lia).
  assert (Hke : e = true → k = 4%nat) by (unfold e; rewrite H7; by destruct (Z.land _ 4 =? 0)).
  destruct (headroom_split p (8 + k)) as (b & c & Eb & Hc & _); [lia|]. exists b. destruct p as [pb pd pa]. cbn [pk_before pk_data pk_after] in *. subst pb.
  rewrite push_eq by done. cbn [mbind option_bind pk_data pk_before pk_after].
  pose proof (put_at_eq [] c pd (replicate (8 + k) 0) 0 eq_refl) as E1. cbn [app] in E1. rewrite E1 by (rewrite length_replicate; done).
  cbn [mbind option_bind]. clear E1.
  assert (Hz : replicate (8 + k) 0 ++ pd = [] ++ [0; 0] ++ [0; 0] ++ replicate 4 0 ++ replicate k 0 ++ pd) by done.
  rewrite Hz. rewrite (put_at_eq [] [0; 0]) by done. cbn [mbind option_bind]. rewrite app_nil_l.
  rewrite (put_at_eq [sent_flags hfl false; ht] [0; 0]) by (rewrite ?le_bytes_length; done). cbn [mbind option_bind]. rewrite le_bytes_bswap.
  assert (Hlen : zlen ([sent_flags hfl false; ht] ++ [0; 0] ++ replicate 4 0 ++ replicate k 0 ++ pd) - 8 = Z.of_nat k + zlen pd).
  { unfold zlen. rewrite !length_app, !length_replicate. cbn [length]. lia. }
  rewrite Hlen. set (l2 := be_bytes 2 _). assert (Hl2 : length l2 = 2%nat) by apply be_bytes_length. clearbody l2.
  destruct e; [|done]. rewrite Hke by done. change (ext_at (ext_array []) 0 0) with 0.
  set (h := [sent_flags hfl false; ht] ++ l2 ++ replicate 7 0). assert (Hh : length h = 11%nat) by (unfold h; rewrite !length_app, Hl2; done).
  replace ([sent_flags hfl false; ht] ++ l2 ++ replicate 4 0 ++ replicate 4 0 ++ pd) with (h ++ [0] ++ pd) by (unfold h; by rewrite <- !app_assoc).
  rewrite (put_at_eq h [0] pd [0] 11) by done. cbn [mbind option_bind]. done.
Qed.

(** The extension headers of a description, and what arrives of it: a flow only
    as that of an uplink packet. *)
Definition exts_of (d : ogs_gtp2_header_desc) : list (Z * Z * Z) :=
  (if qos_flow_identifier d =? 0 then [] else [(0x85, Z.shiftl (Z.land (pdu_type d) 0xf) 4, Z.land (qos_flow_identifier d) 0x3f)]) ++
  match udp d with Some port => [(0x40, port / 256 mod 256, port mod 256)] | None => [] end ++
  match pdcp_number d with Some n => [(0xc0, n / 256 mod 256, n mod 256)] | None => [] end.
Definition received (d : ogs_gtp2_header_desc) (t : Z) : ogs_gtp2_header_desc :=
  HeaderDesc (type d) (sent_flags (flags d) (bool_decide (exts_of d ≠ []))) t
    (if pdu_type d =? 1 then qos_flow_identifier d else 0) (if qos_flow_identifier d =? 0 then 0 else pdu_type d) (udp d) (pdcp_number d).
Definition port_ok (o : option Z) : Prop := from_option (λ x, 0 ≤ x < 2 ^ 16) True o.
Definition desc_ok (d : ogs_gtp2_header_desc) : Prop :=
  is_byte (type d) ∧ is_byte (flags d) ∧ 0 ≤ qos_flow_identifier d < 64 ∧ 0 ≤ pdu_type d < 16 ∧ port_ok (udp d) ∧ port_ok (pdcp_number d).

Lemma exts_of_entries d : ext_entries d = entry <$> exts_of d ∧ (length (exts_of d) ≤ 3)%nat ∧ Forall (λ '(t, c0, c1), t ≠ 0) (exts_of d).
Proof.
  unfold ext_entries, exts_of. rewrite !fmap_app. split; [|split].
  - assert (H2 : ∀ x, le_bytes 2 (bswap 2 x) = [x / 256 mod 256; x mod 256]).
    { intros x. rewrite le_bytes_bswap. change (be_bytes 2 x) with [x / 256 mod 256; x / 1 mod 256]. by rewrite Z.div_1_r. }
    f_equal; [by destruct (_ =? 0)|]. f_equal; [destruct (udp d)|destruct (pdcp_number d)]; rewrite ?H2; done.
  - by destruct (_ =? 0), (udp d), (pdcp_number d); cbn; lia.
  - destruct (_ =? 0), (udp d), (pdcp_number d); repeat constructor; done.
Qed.
Lemma exts_of_received d t : desc_ok d →
  with_exts (exts_of d) (HeaderDesc (type d) (sent_flags (flags d) (bool_decide (exts_of d ≠ []))) t 0 0 None None) = received d t.
Proof.
  intros (_ & _ & Hq & Hp & Hu & Hn). unfold received. set (fl := sent_flags _ _). clearbody fl. unfold exts_of.
  assert (Hb : ∀ x, 0 ≤ x < 2 ^ 16 → bswap 2 (le_value [x / 256 mod 256; x mod 256]) = x).
  { intros x Hx. pose proof (bswap_roundtrip 2 x Hx) as H. change (be_bytes 2 x) with [x / 256 mod 256; x / 1 mod 256] in H.
    by rewrite Z.div_1_r in H. }
  unfold with_exts. rewrite !foldl_app.
  match goal with |- context [foldl ?f ?a (if ?c then [] else ?e)] => set (d1 := foldl f a (if c then [] else e)) end.
  assert (E1 : d1 = HeaderDesc (type d) fl t (if pdu_type d =? 1 then qos_flow_identifier d else 0) (if qos_flow_identifier d =? 0 then 0 else pdu_type d) None None).
  { unfold d1. destruct (Z.eqb_spec (qos_flow_identifier d) 0) as [E|E]; cbn [foldl].
    - rewrite E. by destruct (_ =? 1).
    - unfold take_ext. cbn [Z.eqb Pos.eqb OGS_GTP2_EXTENSION_HEADER_TYPE_PDU_SESSION_CONTAINER].
      rewrite Z.shiftr_shiftl_l, Z.sub_diag, Z.shiftl_0_r by lia. change 0x3f with (2 ^ 6 - 1). change 0xf with (2 ^ 4 - 1).
      rewrite !land_mask by lia. change (2 ^ 6) with 64. change (2 ^ 4) with 16. rewrite (Z.mod_small (pdu_type d)), Z.mod_mod, Z.mod_small by lia. done. }
  rewrite E1. clear d1 E1. destruct (udp d) as [x|], (pdcp_number d) as [y|]; cbn [foldl app]; unfold take_ext;
    cbn -[bswap le_value Z.modulo Z.div]; cbn in Hu, Hn; rewrite ?Hb by done; done.
Qed.

Lemma octets_eq (x : list Z) t : length x = 4%nat → x = be_bytes 4 t → 0 ≤ t < 2 ^ 32 → be_value x = t.
Proof. intros _ -> Ht. rewrite be_value_bytes. by apply Z.mod_small. Qed.

Lemma or_byte x y : is_byte x → is_byte y → is_byte (Z.lor x y).
Proof.
  unfold is_byte. intros Hx Hy. pose proof (Z.lor_nonneg x y). split; [lia|]. change 256 with (2 ^ 8).
  destruct (decide (Z.lor x y = 0)) as [->|]; [done|]. apply Z.log2_lt_pow2; [lia|]. rewrite Z.log2_lor by lia.
  apply Z.max_lub_lt; (destruct (decide (x = 0)) as [->|], (decide (y = 0)) as [->|]; cbn; try lia; apply Z.log2_lt_pow2; lia).
Qed.
Lemma sent_flags_byte fl b : is_byte fl → is_byte (sent_flags fl b).
Proof. intros. unfold sent_flags. by apply or_byte; [apply or_byte|destruct b]. Qed.
Lemma sent_flags_land fl m : m = 3 ∨ m = 4 ∨ m = 7 → Z.land (sent_flags fl false) m = Z.land fl m.
Proof.
  intros Hm. unfold sent_flags. rewrite Z.lor_0_r, Z.land_lor_distr_l. by destruct Hm as [->|[->| ->]]; change (Z.land 0x30 _) with 0; rewrite Z.lor_0_r.
Qed.
Lemma exts_of_bytes d : Forall (λ '(t, c0, c1), is_byte t ∧ is_byte c0 ∧ is_byte c1) (exts_of d).
Proof.
  assert (Hm : ∀ x, is_byte (x mod 256)) by (intros; apply Z.mod_pos_bound; lia).
  unfold exts_of. apply Forall_app. split; [|apply Forall_app; split].
  - destruct (_ =? 0); [constructor|]. apply Forall_singleton. change 0xf with (2 ^ 4 - 1). change 0x3f with (2 ^ 6 - 1).
    rewrite !land_mask, Z.shiftl_mul_pow2 by lia. change (2 ^ 4) with 16. change (2 ^ 6) with 64. unfold is_byte.
    pose proof (Z.mod_pos_bound (pdu_type d) 16 eq_refl). pose proof (Z.mod_pos_bound (qos_flow_identifier d) 64 eq_refl). lia.
  - destruct (udp d); [|constructor]. apply Forall_singleton. split_and!; [unfold is_byte; lia|apply Hm..].
  - destruct (pdcp_number d); [|constructor]. apply Forall_singleton. split_and!; [unfold is_byte; lia|apply Hm..].
Qed.
Lemma ext_octets_bytes es : Forall (λ '(t, c0, c1), is_byte t ∧ is_byte c0 ∧ is_byte c1) es → bytes (ext_octets es).
Proof.
  induction 1 as [|[[t c0] c1] es (? & ? & ?) _ IH]; cbn [ext_octets].
  - apply Forall_singleton. unfold is_byte. lia.
  - apply Forall_cons; split; [done|]. apply Forall_cons; split; [unfold is_byte; lia|]. by repeat (apply Forall_cons; split).
Qed.

Lemma two_bytes x y : is_byte x → is_byte y → bytes [x; y].
Proof. intros. by repeat (apply Forall_cons; split). Qed.

(** The datagram that is built: a header that says what is received. *)
Lemma built_header d t p : desc_ok d → 0 ≤ t < 2 ^ 32 → bytes (pk_data p) → (24 ≤ ogs_pkbuf_headroom p)%nat →
  ∃ b h len, ogs_gtp2_encapsulate_header d p = Some (Pkbuf b (take 4 h ++ replicate 4 0 ++ drop 8 h ++ pk_data p) (pk_after p)) ∧
    (8 ≤ length h)%nat ∧ take 4 (drop 4 h) = be_bytes 4 t ∧ len = zlen h ∧ bytes h ∧
    take 2 (drop 2 h) = be_bytes 2 (u16 (zlen (h ++ pk_data p) - 8)) ∧ gtpu_packet (h ++ pk_data p) len (received d t).
Proof.
  intros Hd Ht Hpb Hroom. pose proof Hd as (Hty & Hfl & _). unfold ogs_gtp2_encapsulate_header.
  destruct (exts_of_entries d) as (-> & Hn & Hnz). pose proof (exts_of_received d t Hd) as Hrec. pose proof (exts_of_bytes d) as Heb.
  set (es := exts_of d) in *. pose proof (be_bytes_length 4 t) as Hl4. pose proof (be_bytes_bytes 4 t) as Hb4.
  destruct (decide (es = [])) as [Ees|Hes].
  - rewrite Ees in *. change (entry <$> []) with (@nil (list Z)).
    destruct (fill_header_plain (flags d) (type d) p) as [b ->]; [lia|]. set (k := optional_octets (flags d)).
    set (l2 := be_bytes 2 _). assert (Hl2 : length l2 = 2%nat) by apply be_bytes_length. assert (Hb2 : bytes l2) by apply be_bytes_bytes.
    set (fl := sent_flags (flags d) false) in *. rewrite bool_decide_eq_false_2 in Hrec by tauto. fold fl in Hrec.
    exists b, ([fl; type d] ++ l2 ++ be_bytes 4 t ++ replicate k 0), (8 + Z.of_nat k).
    destruct l2 as [|x1 [|x2 [|]]] eqn:El2; try done. split_and!.
    + cbn [app take drop]. rewrite (drop_app_length' (be_bytes 4 t)) by (by rewrite Hl4). done.
    + rewrite !length_app, Hl4. cbn. lia.
    + cbn [app drop]. by rewrite drop_0, take_app_length' by (by rewrite Hl4).
    + unfold zlen. rewrite !length_app, Hl4, length_replicate. cbn [length]. lia.
    + repeat apply Forall_app_2; try done; [by apply two_bytes; [apply sent_flags_byte|]|apply Forall_replicate; unfold is_byte; lia].
    + cbn [app drop take]. rewrite take_0, <- El2. unfold l2. do 2 f_equal. unfold zlen. cbn [length]. rewrite !length_app, length_replicate, Hl4. fold k. lia.
    + rewrite <- !app_assoc. unfold k, optional_octets. case_decide as H7; [|destruct (decide (Z.land (flags d) 4 = 0)) as [H4|H4]].
      * change (8 + Z.of_nat 0) with 8. change (replicate 0 0 ++ pk_data p) with (pk_data p). replace (received d t) with (plain (type d) fl (be_bytes 4 t)).
        { apply gtpu_short; [done..|]. unfold fl. by rewrite sent_flags_land by auto. }
        unfold says. rewrite (octets_eq _ t) by done. by rewrite <- Hrec.
      * change (8 + Z.of_nat 4) with 12. replace (received d t) with (plain (type d) fl (be_bytes 4 t)).
        { apply gtpu_optional; [done..| | |]; [unfold fl; by rewrite sent_flags_land by auto| |rewrite length_app; cbn; lia].
          unfold fl. rewrite sent_flags_land by auto. intros H3. by apply H7, land_7. }
        unfold says. rewrite (octets_eq _ t) by done. by rewrite <- Hrec.
      * change (8 + Z.of_nat 4) with (12 + 4 * zlen (@nil (Z * Z * Z))). replace (received d t) with (plain (type d) fl (be_bytes 4 t)).
        { change (replicate 4 0 ++ pk_data p) with (replicate 3 0 ++ 0 :: pk_data p). apply gtpu_extended; try done; [|constructor|cbn; lia].
          unfold fl. by rewrite sent_flags_land by auto. }
        unfold says. rewrite (octets_eq _ t) by done. by rewrite <- Hrec.
  - destruct (fill_header_ok (flags d) (type d) es p Hn Hes Hnz) as [b ->]; [lia|].
    set (l2 := be_bytes 2 _). assert (Hl2 : length l2 = 2%nat) by apply be_bytes_length. assert (Hb2 : bytes l2) by apply be_bytes_bytes.
    set (fl := sent_flags (flags d) true) in *. rewrite bool_decide_eq_true_2 in Hrec by done. fold fl in Hrec.
    exists b, ([fl; type d] ++ l2 ++ be_bytes 4 t ++ replicate 3 0 ++ ext_octets es), (12 + 4 * zlen es).
    pose proof (ext_octets_length es) as Hxl. destruct l2 as [|x1 [|x2 [|]]] eqn:El2; try done. split_and!.
    + cbn [app take drop]. rewrite (drop_app_length' (be_bytes 4 t)) by (by rewrite Hl4). by rewrite <- !app_assoc.
    + rewrite !length_app, Hl4. cbn. lia.
    + cbn [app drop]. by rewrite drop_0, take_app_length' by (by rewrite Hl4).
    + unfold zlen in *. rewrite !length_app, Hl4, length_replicate. cbn [length]. lia.
    + repeat apply Forall_app_2; try done; [by apply two_bytes; [apply sent_flags_byte|]|apply Forall_replicate; unfold is_byte; lia|by apply ext_octets_bytes].
    + cbn [app drop take]. rewrite take_0, <- El2. unfold l2. do 2 f_equal. unfold zlen in *. cbn [length]. rewrite !length_app, length_replicate, Hl4. lia.
    + rewrite <- !app_assoc. replace (received d t) with (says es (type d) fl (be_bytes 4 t))
        by (rewrite <- with_exts_says by done; unfold says; cbn [told omap list_omap last default from_option]; by rewrite (octets_eq _ t) by done).
      apply (gtpu_extended fl (type d) [x1; x2]); try done; [apply sent_flags_ext|by apply ext_octets_headers|lia].
Qed.

(** What one side wraps, the other side unwraps: the header fits the headroom,
    says its length, and tells tunnel, flow, UDP port and PDCP number; behind
    it is the packet.  A flow arrives only with uplink packets. *)
Theorem gtpu_roundtrip d t p : desc_ok d → 0 ≤ t < 2 ^ 32 → bytes (pk_data p) → (24 ≤ ogs_pkbuf_headroom p)%nat →
  bytes (pk_after p) → pk_after p ≠ [] → zlen (pk_data p) < 65000 →
  ∃ p' dg n, ogs_gtp2_encapsulate_header d p = Some p' ∧ gtp_datagram t p' = Some dg ∧ be_value (window dg 2 4) = zlen dg - 8 ∧
    ogs_gtpu_parse_header (dg ++ pk_after p) (zlen dg) = Some (n, received d t) ∧ drop (Z.to_nat n) dg = pk_data p.
Proof.
  intros Hd Ht Hpb Hroom Hab Hane Hsize. destruct (built_header d t p Hd Ht Hpb Hroom) as (b & h & n & E & Hh & H48 & -> & Hhb & H24 & Hp).
  exists (Pkbuf b (take 4 h ++ replicate 4 0 ++ drop 8 h ++ pk_data p) (pk_after p)), (h ++ pk_data p), (zlen h). split; [exact E|].
  assert (Hsplit : h = take 4 h ++ be_bytes 4 t ++ drop 8 h).
  { rewrite <- H48, <- (take_drop 4 h) at 1. f_equal. rewrite <- (take_drop 4 (drop 4 h)) at 1. by rewrite drop_drop. }
  split_and!.
  - unfold gtp_datagram. cbn [pk_data]. rewrite le_bytes_bswap, (put_at_eq (take 4 h) (replicate 4 0)) by (rewrite ?length_take, ?be_bytes_length; done || lia).
    f_equal. rewrite Hsplit at 3. by rewrite <- !app_assoc.
  - assert (Hw : window (h ++ pk_data p) 2 4 = take 2 (drop 2 h)).
    { unfold window. change (Z.to_nat 2) with 2%nat. change (Z.to_nat (4 - 2)) with 2%nat.
      by rewrite drop_app_le, take_app_le by (rewrite ?length_drop; lia). }
    rewrite Hw, H24, be_value_bytes. unfold u16. change (2 ^ (8 * Z.of_nat 2)) with 65536.
    destruct (gtpu_packet_offsets (h ++ pk_data p) (zlen h) (received d t)) as [H _]. destruct (H Hp) as [_ H']. cbv zeta in H'.
    assert (zlen h ≤ 40).
    { destruct H' as [(_ & _ & -> & _)|[(_ & _ & _ & -> & _)|(_ & es & _ & He & -> & _)]]; unfold zlen; lia. }
    change (2 ^ 16) with 65536. unfold zlen in *. rewrite length_app in *. rewrite Z.mod_mod, Z.mod_small by lia. done.
  - apply parse_header_ok; [|done| |exact Hp].
    + by repeat apply Forall_app_2.
    + unfold zlen. rewrite !length_app. lia.
  - unfold zlen. by rewrite Nat2Z.id, drop_app_length.
Qed.

(** A packet of flow 41 in tunnel 7 with the UDP port 4660 and a PDCP number,
    and one that ends in the middle of an extension header. *)
Definition gpdu : list Z := [0x34; 255; 0; 17; 0; 0; 0; 7; 0; 0; 0; 0x85; 1; 16; 169; 0x40; 1; 0x12; 0x34; 0xc0; 1; 2; 9; 0; 0x45].
Lemma ogs_gtpu_parse_header_exact_witness :
  ogs_gtpu_parse_header (gpdu ++ [0]) (zlen gpdu) = Some (24, HeaderDesc 255 0x34 7 41 1 (Some 4660) (Some 521)) ∧
  ∃ d, ogs_gtpu_parse_header (take 15 gpdu ++ [1]) 15 = Some (-1, d).
Proof.
  assert (Hb : ∀ n x, is_byte x → bytes (take n gpdu ++ [x])).
  { intros n x Hx. apply Forall_app_2; [|by repeat constructor; apply Hx]. apply Forall_take. unfold gpdu.
    repeat (apply Forall_cons; split; [unfold is_byte; lia|]). constructor. }
  split.
  - pose proof (Hb 25%nat 0 ltac:(unfold is_byte; lia)) as H. change (take 25 gpdu) with gpdu in H.
    destruct (ogs_gtpu_parse_header_exact gpdu [0] H) as (rv & d & -> & Hy & _); [done..|].
    destruct (Hy 24 (HeaderDesc 255 0x34 7 41 1 (Some 4660) (Some 521))) as (-> & -> & _); [|done].
    apply (gtpu_extended 0x34 255 [0; 17] [0; 0; 0; 7] [0; 0; 0] [0x85; 1; 16; 169; 0x40; 1; 0x12; 0x34; 0xc0; 1; 2; 9; 0; 0x45]
      [(0x85, 16, 169); (0x40, 0x12, 0x34); (0xc0, 2, 9)]); try done; [|cbn; lia].
    repeat (constructor; [done|]). constructor.
  - destruct (ogs_gtpu_parse_header_exact (take 15 gpdu) [1] (Hb 15%nat 1 ltac:(unfold is_byte; lia))) as (rv & d & E & _ & Hn); [done..|].
    change (zlen (take 15 gpdu)) with 15 in E. rewrite Hn in E; [by exists d|].
    intros n d' [_ [(H & _)|[(H & _)|(_ & es & Hx & _)]]]%gtpu_packet_offsets; [done..|].
    cbn in Hx. inversion Hx as [|? ? ? ? ? _ Hx']; subst. inversion Hx'.
Defined.
