(* ===== verification/XactInv.v ===== *)
(** * Transactions: the invariant a layer keeps

    Every live transaction is in exactly the list of its peer and originator,
    satisfies a predicate of the layer, and no slot or timer is lost. *)
From S2P Require Import Prelude Pool XactBase.
#[local] Open Scope Z_scope.

Lemma filter_notin (id : Z) (l : list Z) : id ∉ l → filter (.≠ id) l = l.
Proof.
  induction l as [|y l IH]; [done|]. intros [??]%not_elem_of_cons.
  rewrite filter_cons_True by naive_solver. by rewrite IH.
Qed.

Lemma filter_iff_in {A} (P1 P2 : A → Prop) `{∀ a, Decision (P1 a)} `{∀ a, Decision (P2 a)} (l : list A) :
  (∀ a, a ∈ l → P1 a ↔ P2 a) → filter P1 l = filter P2 l.
Proof.
  induction l as [|a l IH]; intros Hl; [done|]. rewrite !filter_cons, IH by (intros; apply Hl; by right).
  apply decide_ext. apply Hl. by left.
Qed.

Lemma list_of_upd o o' f n : list_of o (list_upd o' f n) = if decide (o = o') then f (list_of o n) else list_of o n.
Proof. by destruct o, o'. Qed.
Lemma list_upd_upd o f g n : list_upd o f (list_upd o g n) = list_upd o (λ l, f (g l)) n.
Proof. by destruct o. Qed.
Lemma list_upd_id o f n : f (list_of o n) = list_of o n → list_upd o f n = n.
Proof. destruct o, n; cbn; by intros ->. Qed.

Section inv.
Context {X C : Type}.
Abbreviation world := (XactBase.world X C).
Implicit Types (x : X) (w : world).
(** The originator, the peer, the history and the number of timers of a
    transaction, and what the layer promises of each. *)
Context (org : X → originator) (peer : X → nat) (hist : X → list (Z * option (list Z)))
  (timers : X → nat) (ok : X → Prop).

(** The timers of all transactions. *)
Definition timers_of (m : gmap Z X) : nat := map_fold (λ _ x n, (timers x + n)%nat) 0%nat m.

Lemma timers_of_insert m id x : m !! id = None → timers_of (<[id := x]> m) = (timers x + timers_of m)%nat.
Proof. intros H. unfold timers_of. rewrite map_fold_insert_L; [done| |done]. intros. lia. Qed.
Lemma timers_of_delete m id x : m !! id = Some x → timers_of m = (timers x + timers_of (delete id m))%nat.
Proof. intros H. unfold timers_of. rewrite (map_fold_delete_L _ _ id x m); [done| |done]. intros. lia. Qed.
Lemma timers_of_replace m id x x' : m !! id = Some x → timers x' = timers x → timers_of (<[id := x']> m) = timers_of m.
Proof.
  intros H Ht. rewrite <- insert_delete_eq, timers_of_insert, Ht by apply lookup_delete_eq.
  by rewrite (timers_of_delete m id x).
Qed.

(** [P] slots and [T] timers in total. *)
Record world_ok (P T : nat) w : Prop := {
  wo_xact : ∀ id x, xacts w !! id = Some x → ok x;
  wo_node : ∀ id x, xacts w !! id = Some x →
    ∃ n, nodes w !! peer x = Some n ∧ id ∈ list_of (org x) n;
  wo_list : ∀ k n o id, nodes w !! k = Some n → id ∈ list_of o n →
    ∃ x, xacts w !! id = Some x ∧ org x = o ∧ peer x = k;
  wo_nodup : ∀ k n o, nodes w !! k = Some n → NoDup (list_of o n);
  wo_range : ∀ id, is_Some (xacts w !! id) → OGS_MIN_POOL_ID ≤ id ≤ OGS_MAX_POOL_ID;
  wo_next : 0 ≤ pool_id w ≤ OGS_MAX_POOL_ID;
  wo_pool : (pool_avail w + size (xacts w) = P)%nat;
  wo_timers : (timers_avail w + timers_of (xacts w) = T)%nat }.

(** The next id of the pool is not in use: the contract of the pool. *)
Definition next_id w : Z := OGS_NEXT_ID (pool_id w) 1 OGS_MAX_POOL_ID.
Definition fresh w : Prop := xacts w !! next_id w = None.

Lemma world_next_id_range P T w : world_ok P T w → OGS_MIN_POOL_ID ≤ next_id w ≤ OGS_MAX_POOL_ID.
Proof.
  intros Hok. pose proof (wo_next _ _ _ Hok).
  unfold next_id, OGS_NEXT_ID, OGS_MIN_POOL_ID, OGS_MAX_POOL_ID in *. case_match; lia.
Qed.
Lemma fresh_notin P T w k n o id :
  world_ok P T w → xacts w !! id = None → nodes w !! k = Some n → id ∉ list_of o n.
Proof. intros Hok Hid Hk Hin. destruct (wo_list _ _ _ Hok _ _ _ _ Hk Hin) as (? & ? & _). congruence. Qed.
Lemma in_range P T w id : world_ok P T w → is_Some (xacts w !! id) →
  (OGS_MIN_POOL_ID <=? id) && (id <=? OGS_MAX_POOL_ID) = true.
Proof. intros Hok Hid. pose proof (wo_range _ _ _ Hok _ Hid). lia. Qed.

Lemma world_init_ok P T g ns :
  map_Forall (λ _ n, n = Node [] []) ns → world_ok P T (World ∅ 0 P g ns T []).
Proof.
  intros Hns. split; cbn; try done.
  - intros k n o id Hn%Hns. subst n. intros Hin. destruct o; by apply elem_of_nil in Hin.
  - intros k n o Hn%Hns. subst n. destruct o; constructor.
  - by intros id [??].
Qed.

(** ** Primitive steps *)

Lemma wp_xact_get id x (Q : X → world → Prop) w : xacts w !! id = Some x → Q x w → wp (xact_get id) Q w.
Proof. intros Hx HQ. unfold wp, xact_get. by rewrite Hx. Qed.
Lemma wp_xact_upd id f x (Q : unit → world → Prop) w :
  xacts w !! id = Some x → Q tt (set_xacts (insert id (f x)) w) → wp (xact_upd id f) Q w.
Proof. intros Hx HQ. unfold wp, xact_upd. by rewrite Hx. Qed.
Lemma wp_get {A} (f : world → M world A) (Q : A → world → Prop) w : wp (f w) Q w → wp (w ← m_get; f w) Q w.
Proof. done. Qed.
Lemma wp_timer_add_some t (Q : option tm → world → Prop) w :
  timers_avail w = S t → Q (Some Idle) (set_timers (λ _, t) w) → wp timer_add Q w.
Proof. intros Ht HQ. unfold wp, timer_add. by rewrite Ht. Qed.
Lemma wp_timer_add_none (Q : option tm → world → Prop) w :
  timers_avail w = 0%nat → Q None w → wp timer_add Q w.
Proof. intros Ht HQ. unfold wp, timer_add. by rewrite Ht. Qed.

(** ** Deletion *)

(** The world after the deletion of [x]. *)
Definition deleted (id : Z) x (n : node_t) w : world :=
  World (delete id (xacts w)) (pool_id w) (S (pool_avail w)) (g_xact_id w)
    (<[peer x := list_upd (org x) (filter (.≠ id)) n]> (nodes w)) (timers x + timers_avail w)
    (log w ++ (Freed <$> option_pkts (hist x))).
(** [w'] is [w] without transaction [id], which is [x] at the end. *)
Definition removed (id : Z) x w w' : Prop :=
  ∃ n, nodes w !! peer x = Some n ∧ w' = deleted id x n w.

Lemma deleted_ok P T id x n w :
  world_ok P T w → xacts w !! id = Some x → nodes w !! peer x = Some n →
  world_ok P T (deleted id x n w).
Proof.
  intros [Hx Hno Hli Hnd Hr Hne Hp Ht] Hid Hn.
  assert (Hsz : size (delete id (xacts w)) = pred (size (xacts w))) by by rewrite map_size_delete, Hid.
  assert (size (xacts w) ≠ 0)%nat.
  { intros E. apply map_size_empty_iff in E. rewrite E in Hid. done. }
  split; cbn; try done.
  - intros id' x' [_ H']%lookup_delete_Some. by eapply Hx.
  - intros id' x' [Hne' H']%lookup_delete_Some. destruct (Hno _ _ H') as (n' & Hn' & Hin).
    destruct (decide (peer x' = peer x)) as [E|E].
    + rewrite E, lookup_insert_eq. eexists. split; [done|]. rewrite list_of_upd.
      rewrite E in Hn'. simplify_eq. case_decide; [|done]. by apply list_elem_of_filter.
    + rewrite lookup_insert_ne by done. by exists n'.
  - intros k n' o id' Hk Hin. assert (Hin' : ∃ n0, nodes w !! k = Some n0 ∧ id' ∈ list_of o n0 ∧
      (k = peer x → o = org x → id' ≠ id)).
    { apply lookup_insert_Some in Hk as [[<- <-]|[Hkne Hk]].
      - exists n. rewrite list_of_upd in Hin. case_decide; [|naive_solver].
        apply list_elem_of_filter in Hin. naive_solver.
      - exists n'. naive_solver. }
    destruct Hin' as (n0 & Hn0 & Hin' & Hne'). destruct (Hli _ _ _ _ Hn0 Hin') as (x' & Hx' & <- & <-).
    exists x'. split; [|done]. apply lookup_delete_Some. split; [|done]. intros <-. simplify_eq. by apply Hne'.
  - intros k n' o Hk. apply lookup_insert_Some in Hk as [[<- <-]|[_ Hk]]; [|by eapply Hnd].
    rewrite list_of_upd. case_decide; [apply NoDup_filter|]; by eapply Hnd.
  - intros id' [x' [_ H']%lookup_delete_Some]. by apply Hr; eexists.
  - rewrite Hsz. lia.
  - rewrite (timers_of_delete _ _ _ Hid) in Ht. lia.
Qed.

Lemma removed_ok P T id x w w' :
  world_ok P T w → xacts w !! id = Some x → removed id x w w' → world_ok P T w'.
Proof. intros Hok Hx (n & Hn & ->). by apply deleted_ok. Qed.

(** ** A transaction that moves on *)

Definition put (id : Z) x (es : list (event C)) w : world :=
  World (<[id := x]> (xacts w)) (pool_id w) (pool_avail w) (g_xact_id w) (nodes w) (timers_avail w) (log w ++ es).

Lemma put_put id x x' es es' w : put id x' es' (put id x es w) = put id x' (es ++ es') w.
Proof. unfold put. cbn. by rewrite insert_insert_eq, app_assoc. Qed.
Lemma put_same id x w : xacts w !! id = Some x → put id x [] w = w.
Proof. intros Hx. unfold put. rewrite insert_id, app_nil_r by done. by destruct w. Qed.
Lemma put_at id x es w : xacts (put id x es w) !! id = Some x.
Proof. apply lookup_insert_eq. Qed.

Lemma wp_put {A} id x (m : M world A) (Q : A → world → Prop) w :
  xacts w !! id = Some x → wp m Q (put id x [] w) → wp m Q w.
Proof. intros Hx. by rewrite put_same. Qed.
Lemma wp_upd_put id f x es (Q : unit → world → Prop) w :
  Q tt (put id (f x) es w) → wp (xact_upd id f) Q (put id x es w).
Proof.
  intros HQ. eapply wp_xact_upd; [apply put_at|].
  unfold set_xacts, put in *. cbn. by rewrite insert_insert_eq.
Qed.
Lemma wp_get_put id x es (Q : X → world → Prop) w :
  Q x (put id x es w) → wp (xact_get id) Q (put id x es w).
Proof. intros HQ. eapply wp_xact_get; [apply put_at|done]. Qed.
Lemma wp_emit_put id x es es' (Q : unit → world → Prop) w :
  Q tt (put id x (es ++ es') w) → wp (emit es') Q (put id x es w).
Proof. intros HQ. unfold emit. apply wp_modify. unfold put in *. cbn. by rewrite <- app_assoc. Qed.

Lemma world_put_ok P T id x x' es w :
  world_ok P T w → xacts w !! id = Some x → ok x' → org x' = org x → peer x' = peer x →
  timers x' = timers x → world_ok P T (put id x' es w).
Proof.
  intros [Hx Hno Hli Hnd Hr Hne Hp Ht] Hid Hok Ho Hk Hts.
  assert (Hsz : size (<[id := x']> (xacts w)) = size (xacts w)) by (by rewrite map_size_insert, Hid).
  split; cbn; try done.
  - intros id' y [[<- <-]|[_ H']]%lookup_insert_Some; [done|by eapply Hx].
  - intros id' y [[<- <-]|[_ H']]%lookup_insert_Some; [|by apply Hno]. rewrite Ho, Hk. by apply Hno.
  - intros k n o id' Hn Hin. destruct (Hli _ _ _ _ Hn Hin) as (y & Hy & <- & <-).
    destruct (decide (id' = id)) as [->|Hne'].
    + rewrite lookup_insert_eq. simplify_eq. by exists x'.
    + rewrite lookup_insert_ne by done. by exists y.
  - intros id' [y [[<- _]|[_ H']]%lookup_insert_Some]; apply Hr; by eexists.
  - by rewrite Hsz.
  - by rewrite (timers_of_replace _ _ x).
Qed.

(** ** Creation *)

(** The world after a creation: with the new transaction, or as it was. *)
Definition created (id : Z) x (n : node_t) (g : Z) w : world :=
  World (<[id := x]> (xacts w)) id (pool_avail w - 1) g
    (<[peer x := list_upd (org x) (λ l, l ++ [id]) n]> (nodes w)) (timers_avail w - timers x) (log w).
Definition not_created (id g : Z) w : world :=
  World (xacts w) id (pool_avail w) g (nodes w) (timers_avail w) (log w).

Lemma created_at id x n g w : xacts (created id x n g w) !! id = Some x.
Proof. apply lookup_insert_eq. Qed.

Lemma created_ok P T id x n g w :
  world_ok P T w → xacts w !! id = None → OGS_MIN_POOL_ID ≤ id ≤ OGS_MAX_POOL_ID →
  nodes w !! peer x = Some n → ok x → (1 ≤ pool_avail w)%nat → (timers x ≤ timers_avail w)%nat →
  world_ok P T (created id x n g w).
Proof.
  intros Hw Hid Hrange Hn Hok H1 H3. pose proof (λ k n o, fresh_notin P T w k n o id Hw Hid) as Hnew.
  destruct Hw as [Hx Hno Hli Hnd Hr Hne Hp Ht].
  assert (Hsz : size (<[id := x]> (xacts w)) = S (size (xacts w))) by by rewrite map_size_insert, Hid.
  split; cbn; try done.
  - intros id' y [[<- <-]|[_ H']]%lookup_insert_Some; [done|by eapply Hx].
  - intros id' y [[<- <-]|[Hne' H']]%lookup_insert_Some.
    + rewrite lookup_insert_eq. eexists. split; [done|]. rewrite list_of_upd, decide_True by done. in_list.
    + destruct (Hno _ _ H') as (n' & Hn' & Hin). destruct (decide (peer y = peer x)) as [E|E].
      * rewrite E, lookup_insert_eq. eexists. split; [done|]. rewrite E in Hn'. simplify_eq.
        rewrite list_of_upd. case_decide; [by apply elem_of_app; left|done].
      * rewrite lookup_insert_ne by done. by exists n'.
  - intros k n' o id' Hk Hin.
    assert (Hin' : (∃ n0, nodes w !! k = Some n0 ∧ id' ∈ list_of o n0) ∨ (k = peer x ∧ o = org x ∧ id' = id)).
    { apply lookup_insert_Some in Hk as [[<- <-]|[Hkne Hk]]; [|left; by exists n'].
      rewrite list_of_upd in Hin. case_decide; [|left; by exists n].
      apply elem_of_app in Hin as [Hin|Hin%list_elem_of_singleton]; [left; by exists n|by right]. }
    destruct Hin' as [(n0 & Hn0 & Hin')|(-> & -> & ->)].
    + destruct (Hli _ _ _ _ Hn0 Hin') as (y & Hy & <- & <-). exists y.
      rewrite lookup_insert_ne by congruence. done.
    + rewrite lookup_insert_eq. by exists x.
  - intros k n' o Hk. apply lookup_insert_Some in Hk as [[<- <-]|[_ Hk]]; [|by eapply Hnd].
    rewrite list_of_upd. case_decide; [|by eapply Hnd]. apply NoDup_app. split_and!; [by eapply Hnd| |by apply NoDup_singleton].
    intros y Hy Hy'%list_elem_of_singleton. subst. by eapply Hnew.
  - intros id' [y [[<- _]|[_ H']]%lookup_insert_Some]; [done|]. apply Hr. by eexists.
  - unfold OGS_MIN_POOL_ID in Hrange. lia.
  - rewrite Hsz. lia.
  - rewrite timers_of_insert by done. lia.
Qed.

Lemma not_created_ok P T id g w :
  world_ok P T w → 0 ≤ id ≤ OGS_MAX_POOL_ID → world_ok P T (not_created id g w).
Proof. intros [] ?. by split. Qed.

(** After the deletion of a transaction created from [w], [w] is back, but
    for the counters and the log. *)
Lemma removed_created P T id x x' n g es w w' :
  world_ok P T w → nodes w !! peer x = Some n → xacts w !! id = None →
  (1 ≤ pool_avail w)%nat → (timers x ≤ timers_avail w)%nat →
  timers x' = timers x → peer x' = peer x → org x' = org x →
  removed id x' (put id x' es (created id x n g w)) w' →
  w' = World (xacts w) id (pool_avail w) g (nodes w) (timers_avail w)
         (log w ++ es ++ (Freed <$> option_pkts (hist x'))).
Proof.
  intros Hok Hn Hid H1 H3 Ht Hk Ho (n' & Hn' & ->). cbn in Hn'. rewrite Hk, lookup_insert_eq in Hn'.
  injection Hn' as <-. unfold deleted, put, created. cbn.
  rewrite Ht, Hk, Ho, delete_insert_eq, delete_insert_id by done.
  rewrite insert_insert_eq, app_assoc. f_equal; try lia.
  apply insert_id. rewrite Hn, list_upd_upd. f_equal. symmetry. apply list_upd_id.
  rewrite filter_app, filter_cons_False, app_nil_r by naive_solver.
  apply filter_notin. by eapply fresh_notin.
Qed.
(** A state during the creation of transaction [id]: it is linked, and [t]
    timers are left. *)
Definition draft (id : Z) x (n : node_t) (g : Z) (t : nat) w : world :=
  World (<[id := x]> (xacts w)) id (pool_avail w - 1) g
    (<[peer x := list_upd (org x) (λ l, l ++ [id]) n]> (nodes w)) t (log w).

Lemma wp_upd_draft id x n g t f (Q : unit → world → Prop) w :
  peer (f x) = peer x → org (f x) = org x →
  Q tt (draft id (f x) n g t w) → wp (xact_upd id f) Q (draft id x n g t w).
Proof.
  intros Hk Ho HQ. eapply wp_xact_upd; [apply lookup_insert_eq|].
  unfold set_xacts, draft in *. cbn. by rewrite insert_insert_eq, <- Hk, <- Ho.
Qed.

Lemma draft_removed P T id x n g t w w' :
  world_ok P T w → nodes w !! peer x = Some n → xacts w !! id = None → (1 ≤ pool_avail w)%nat →
  (timers x + t = timers_avail w)%nat → option_pkts (hist x) = [] →
  removed id x (draft id x n g t w) w' → w' = not_created id g w.
Proof.
  intros Hok Hn Hid H1 Ht Hp (n' & Hn' & ->). cbn in Hn'. rewrite lookup_insert_eq in Hn'. injection Hn' as <-.
  unfold deleted, draft, not_created. cbn. rewrite Hp, app_nil_r, Ht, delete_insert_id by done.
  rewrite insert_insert_eq. f_equal; try lia.
  apply insert_id. rewrite Hn, list_upd_upd. f_equal. symmetry. apply list_upd_id.
  rewrite filter_app, filter_cons_False, app_nil_r by naive_solver.
  apply filter_notin. by eapply fresh_notin.
Qed.

(** [ogs_pool_id_calloc] and the link into the list of the peer. *)
Lemma wp_alloc {A} x n (f : option Z → M world A) (Q : A → world → Prop) w :
  fresh w → nodes w !! peer x = Some n → (pool_avail w = 0%nat → wp (f None) Q w) →
  ((1 ≤ pool_avail w)%nat →
   wp (f (Some (next_id w))) Q
     (World (<[next_id w := x]> (xacts w)) (next_id w) (pool_avail w - 1) (g_xact_id w) (nodes w) (timers_avail w) (log w))) →
  wp (id ← pool_alloc x; f id) Q w.
Proof.
  intros Hf Hn H0 H1. apply wp_bind. unfold wp at 1, pool_alloc. destruct (pool_avail w) as [|P'] eqn:EP; [by apply H0|].
  fold (next_id w). unfold fresh in Hf. rewrite Hf. replace P' with (S P' - 1)%nat by lia. apply H1. lia.
Qed.
Lemma wp_list_link o k x n g {A} (f : M world A) (Q : A → world → Prop) w id g' :
  org x = o → peer x = k → nodes w !! k = Some n →
  wp f Q (draft id x n g (timers_avail w) w) →
  wp (ogs_list_of o k (λ l, l ++ [id]);; f) Q
    (set_counter g (World (<[id := x]> (xacts w)) id (pool_avail w - 1) g' (nodes w) (timers_avail w) (log w))).
Proof.
  intros <- <- Hn HQ. apply wp_bind. unfold wp at 1, ogs_list_of. cbn. by rewrite Hn.
Qed.
End inv.

Arguments wo_xact {X C org peer timers ok P T w}.
Arguments wo_node {X C org peer timers ok P T w}.
Arguments wo_list {X C org peer timers ok P T w}.
Arguments wo_nodup {X C org peer timers ok P T w}.
Arguments wo_range {X C org peer timers ok P T w}.
Arguments world_next_id_range {X C org peer timers ok} P T w.
Arguments fresh_notin {X C org peer timers ok} P T w k n o id.
Arguments in_range {X C org peer timers ok} P T w id.
Arguments deleted_ok {X C org peer hist timers ok} P T id x n w.
Arguments removed_ok {X C org peer hist timers ok} P T id x w w'.
Arguments world_put_ok {X C org peer timers ok} P T id x x' es w.
Arguments created_ok {X C org peer timers ok} P T id x n g w.
Arguments not_created_ok {X C org peer timers ok} P T id g w.
Arguments removed_created {X C org peer hist timers ok} P T id x x' n g es w w'.
Arguments draft_removed {X C org peer hist timers ok} P T id x n g t w w'.
