(* ===== verification/PfcpXact.v ===== *)
(** * PFCP transactions: lib/pfcp/xact.c

    Request/response transactions between the control plane and the user
    plane: numbering, retransmission, detection of duplicates and clean-up. *)
From S2P Require Import Prelude Pool XactBase.
#[local] Open Scope Z_scope.

Definition PFCP_MIN_XACT_ID : Z := 1.
Definition PFCP_MAX_XACT_ID : Z := 0x800000.

(** Message types of lib/pfcp/message.h. *)
Definition OGS_PFCP_HEARTBEAT_REQUEST_TYPE : Z := 1.
Definition OGS_PFCP_HEARTBEAT_RESPONSE_TYPE : Z := 2.
Definition OGS_PFCP_ASSOCIATION_SETUP_REQUEST_TYPE : Z := 5.
Definition OGS_PFCP_ASSOCIATION_SETUP_RESPONSE_TYPE : Z := 6.
Definition OGS_PFCP_ASSOCIATION_UPDATE_REQUEST_TYPE : Z := 7.
Definition OGS_PFCP_ASSOCIATION_UPDATE_RESPONSE_TYPE : Z := 8.
Definition OGS_PFCP_ASSOCIATION_RELEASE_REQUEST_TYPE : Z := 9.
Definition OGS_PFCP_ASSOCIATION_RELEASE_RESPONSE_TYPE : Z := 10.
Definition OGS_PFCP_VERSION_NOT_SUPPORTED_RESPONSE_TYPE : Z := 11.
Definition OGS_PFCP_SESSION_ESTABLISHMENT_REQUEST_TYPE : Z := 50.
Definition OGS_PFCP_SESSION_ESTABLISHMENT_RESPONSE_TYPE : Z := 51.
Definition OGS_PFCP_SESSION_MODIFICATION_REQUEST_TYPE : Z := 52.
Definition OGS_PFCP_SESSION_MODIFICATION_RESPONSE_TYPE : Z := 53.
Definition OGS_PFCP_SESSION_DELETION_REQUEST_TYPE : Z := 54.
Definition OGS_PFCP_SESSION_DELETION_RESPONSE_TYPE : Z := 55.
Definition OGS_PFCP_SESSION_REPORT_REQUEST_TYPE : Z := 56.
Definition OGS_PFCP_SESSION_REPORT_RESPONSE_TYPE : Z := 57.

Definition request_types : list Z :=
  [OGS_PFCP_HEARTBEAT_REQUEST_TYPE; OGS_PFCP_ASSOCIATION_SETUP_REQUEST_TYPE;
   OGS_PFCP_ASSOCIATION_UPDATE_REQUEST_TYPE; OGS_PFCP_ASSOCIATION_RELEASE_REQUEST_TYPE;
   OGS_PFCP_SESSION_ESTABLISHMENT_REQUEST_TYPE; OGS_PFCP_SESSION_MODIFICATION_REQUEST_TYPE;
   OGS_PFCP_SESSION_DELETION_REQUEST_TYPE; OGS_PFCP_SESSION_REPORT_REQUEST_TYPE].
Definition response_types : list Z :=
  [OGS_PFCP_HEARTBEAT_RESPONSE_TYPE; OGS_PFCP_ASSOCIATION_SETUP_RESPONSE_TYPE;
   OGS_PFCP_ASSOCIATION_UPDATE_RESPONSE_TYPE; OGS_PFCP_ASSOCIATION_RELEASE_RESPONSE_TYPE;
   OGS_PFCP_VERSION_NOT_SUPPORTED_RESPONSE_TYPE; OGS_PFCP_SESSION_ESTABLISHMENT_RESPONSE_TYPE;
   OGS_PFCP_SESSION_MODIFICATION_RESPONSE_TYPE; OGS_PFCP_SESSION_DELETION_RESPONSE_TYPE;
   OGS_PFCP_SESSION_REPORT_RESPONSE_TYPE].

Definition ogs_pfcp_xact_get_stage (type : Z) : stage_t :=
  if decide (type ∈ request_types) then INITIAL_STAGE
  else if decide (type ∈ response_types) then FINAL_STAGE
  else UNKNOWN_STAGE.

(** ** The header (ogs_pfcp_header_t) *)

Definition OGS_PFCP_HEADER_LEN : Z := 16.
Definition OGS_PFCP_SEID_LEN : Z := 8.

(** OGS_PFCP_XID_TO_SQN and OGS_PFCP_SQN_TO_XID, between an id and the bytes
    of the field. *)
Definition OGS_PFCP_XID_TO_SQN (xid : Z) : list Z := be_bytes 4 (u32 (Z.shiftl xid 8)).
Definition OGS_PFCP_SQN_TO_XID (sqn : list Z) : Z := Z.shiftr (be_value sqn) 8.

(** The header that [ogs_pfcp_xact_update_tx] pushes in front of a payload. *)
Definition pfcp_header (type seid xid : Z) (payload : Z) : list Z :=
  if OGS_PFCP_SESSION_ESTABLISHMENT_REQUEST_TYPE <=? type then
    [0x21; type] ++ be_bytes 2 (OGS_PFCP_HEADER_LEN + payload - 4) ++ be_bytes 8 seid ++
      OGS_PFCP_XID_TO_SQN xid
  else
    [0x20; type] ++ be_bytes 2 (OGS_PFCP_HEADER_LEN - OGS_PFCP_SEID_LEN + payload - 4) ++
      OGS_PFCP_XID_TO_SQN xid.

(** The head of [ogs_pfcp_parse_msg] in lib/pfcp/message.c: type, SEID, sqn
    and the payload left. *)
Definition pfcp_parse_header (pkt : list Z) : option (Z * Z * list Z * list Z) :=
  flags ← pkt !! 0%nat;
  let presence := Z.testbit flags 0 in
  let size := if presence then OGS_PFCP_HEADER_LEN else OGS_PFCP_HEADER_LEN - OGS_PFCP_SEID_LEN in
  if zlen pkt <? size then None
  else
    type ← pkt !! 1%nat;
    let payload := drop (Z.to_nat size) pkt in
    if presence then Some (type, be_value (take 8 (drop 4 pkt)), take 4 (drop 12 pkt), payload)
    else Some (type, 0, take 4 (drop 4 pkt), payload).

Section xact.
(** [C]: a callback with its data. *)
Context {C : Type}.

(** Durations and counts of ogs_local_conf()->time.message.pfcp. *)
Record pfcp_conf := Conf {
  n1_response_rcount : Z; t1_response_duration : Z;
  n1_holding_rcount : Z; t1_holding_duration : Z }.
Variable conf : pfcp_conf.

(** struct ogs_pfcp_xact_s: the fields of the transaction layer.  Timers are
    NULL (None) until allocated; [seq] has three entries. *)
Record xact := Xact {
  org : originator; xid : Z; xnode : nat; xcb : option C;
  step : nat; seq : list (Z * option (list Z));
  tm_response : option tm; response_rcount : Z;
  tm_holding : option tm; holding_rcount : Z;
  tm_delayed_commit : option tm }.

Abbreviation world := (XactBase.world xact C).

Definition timer_count (x : xact) : nat :=
  some_timers [tm_response x; tm_holding x; tm_delayed_commit x].

Definition ogs_pfcp_xact_delete (id : Z) : M world ogs_rv :=
  x ← xact_get id;
  emit (Freed <$> option_pkts (seq x));;
  m_modify (set_timers (Nat.add (timer_count x)));;
  ogs_list_of (org x) (xnode x) (filter (.≠ id));;
  pool_free id;;
  mret OGS_OK.

(** ** Creation *)

(** The three timers; a failure deletes the transaction. *)
Definition xact_timers (id : Z) : M world (option Z) :=
  t ← timer_add;
  xact_upd id (λ x, Xact (org x) (xid x) (xnode x) (xcb x) (step x) (seq x) t (response_rcount x)
    (tm_holding x) (holding_rcount x) (tm_delayed_commit x));;
  match t with
  | None => ogs_pfcp_xact_delete id;; mret None
  | Some _ =>
    xact_upd id (λ x, Xact (org x) (xid x) (xnode x) (xcb x) (step x) (seq x) (tm_response x)
      (n1_response_rcount conf) (tm_holding x) (holding_rcount x) (tm_delayed_commit x));;
    t ← timer_add;
    xact_upd id (λ x, Xact (org x) (xid x) (xnode x) (xcb x) (step x) (seq x) (tm_response x)
      (response_rcount x) t (holding_rcount x) (tm_delayed_commit x));;
    match t with
    | None => ogs_pfcp_xact_delete id;; mret None
    | Some _ =>
      xact_upd id (λ x, Xact (org x) (xid x) (xnode x) (xcb x) (step x) (seq x) (tm_response x)
        (response_rcount x) (tm_holding x) (n1_holding_rcount conf) (tm_delayed_commit x));;
      t ← timer_add;
      xact_upd id (λ x, Xact (org x) (xid x) (xnode x) (xcb x) (step x) (seq x) (tm_response x)
        (response_rcount x) (tm_holding x) (holding_rcount x) t);;
      match t with
      | None => ogs_pfcp_xact_delete id;; mret None
      | Some _ => mret (Some id)
      end
    end
  end.

(** [calloc]ed transaction: every field that is not given is zero. *)
Definition new_xact (o : originator) (xid : Z) (node : nat) (cb : option C) : xact :=
  Xact o xid node cb 0 (replicate 3 (0, None)) None 0 None 0 None.

Definition ogs_pfcp_xact_local_create (node : nat) (cb : option C) : M world (option Z) :=
  w ← m_get;
  let x := OGS_NEXT_ID (g_xact_id w) PFCP_MIN_XACT_ID PFCP_MAX_XACT_ID in
  id ← pool_alloc (new_xact LOCAL_ORIGINATOR x node cb);
  match id with
  | None => mret None
  | Some id =>
      m_modify (set_counter x);;
      ogs_list_of LOCAL_ORIGINATOR node (λ l, l ++ [id]);;
      xact_timers id
  end.

Definition ogs_pfcp_xact_remote_create (node : nat) (sqn : list Z) : M world (option Z) :=
  id ← pool_alloc (new_xact REMOTE_ORIGINATOR (OGS_PFCP_SQN_TO_XID sqn) node None);
  match id with
  | None => mret None
  | Some id =>
      ogs_list_of REMOTE_ORIGINATOR node (λ l, l ++ [id]);;
      xact_timers id
  end.

(** The loops of [ogs_pfcp_xact_delete_all] over a copy of the links. *)
Fixpoint delete_each (ids : list Z) : M world unit :=
  match ids with
  | [] => mret tt
  | id :: ids => ogs_pfcp_xact_delete id;; delete_each ids
  end.

Definition ogs_pfcp_xact_delete_all (node : nat) : M world unit :=
  w ← m_get; n ← m_some (nodes w !! node);
  delete_each (local_list n);;
  w ← m_get; n ← m_some (nodes w !! node);
  delete_each (remote_list n).

(** ** Sending and receiving *)

(** [xact->seq[i]] and [xact->seq[xact->step] = ...]: out of bounds fails. *)
Definition seq_get (x : xact) (i : nat) : M world (Z * option (list Z)) := m_some (seq x !! i).
Definition seq_last (x : xact) : M world (Z * option (list Z)) :=
  match step x with O => m_fail | S i => seq_get x i end.
Definition seq_step (id : Z) (f : Z * option (list Z) → Z * option (list Z)) : M world unit :=
  x ← xact_get id;
  old ← seq_get x (step x);
  xact_upd id (λ x, Xact (org x) (xid x) (xnode x) (xcb x) (S (step x)) (<[step x := f old]> (seq x))
    (tm_response x) (response_rcount x) (tm_holding x) (holding_rcount x) (tm_delayed_commit x)).

(** [if (xact->tm_x) ogs_timer_start(xact->tm_x, duration)] and [.._stop]. *)
Definition start_response (id : Z) : M world unit :=
  xact_upd id (λ x, Xact (org x) (xid x) (xnode x) (xcb x) (step x) (seq x)
    ((λ _, Armed (t1_response_duration conf)) <$> tm_response x) (response_rcount x)
    (tm_holding x) (holding_rcount x) (tm_delayed_commit x)).
Definition stop_response (id : Z) : M world unit :=
  xact_upd id (λ x, Xact (org x) (xid x) (xnode x) (xcb x) (step x) (seq x)
    ((λ _, Idle) <$> tm_response x) (response_rcount x)
    (tm_holding x) (holding_rcount x) (tm_delayed_commit x)).
Definition start_holding (id : Z) : M world unit :=
  xact_upd id (λ x, Xact (org x) (xid x) (xnode x) (xcb x) (step x) (seq x) (tm_response x)
    (response_rcount x) ((λ _, Armed (t1_holding_duration conf)) <$> tm_holding x)
    (holding_rcount x) (tm_delayed_commit x)).

(** The checks of [ogs_pfcp_xact_update_tx]: None aborts. *)
Definition tx_allowed (x : xact) (type : Z) : option bool :=
  match org x, ogs_pfcp_xact_get_stage type with
  | LOCAL_ORIGINATOR, INITIAL_STAGE => Some (step x =? 0)%nat
  | LOCAL_ORIGINATOR, INTERMEDIATE_STAGE => Some false
  | LOCAL_ORIGINATOR, FINAL_STAGE => Some (step x =? 2)%nat
  | LOCAL_ORIGINATOR, UNKNOWN_STAGE => None
  | REMOTE_ORIGINATOR, INITIAL_STAGE => Some false
  | REMOTE_ORIGINATOR, (INTERMEDIATE_STAGE | FINAL_STAGE) => Some (step x =? 1)%nat
  | REMOTE_ORIGINATOR, UNKNOWN_STAGE => Some false
  end.

Definition ogs_pfcp_xact_update_tx (id : Z) (type seid : Z) (pkbuf : list Z) : M world ogs_rv :=
  x ← xact_get id;
  ok ← m_some (tx_allowed x type);
  if negb ok then emit [Freed pkbuf];; mret OGS_ERROR
  else
    seq_step id (λ _, (type, Some (pfcp_header type seid (xid x) (zlen pkbuf) ++ pkbuf)));;
    mret OGS_OK.

(** A duplicate of the message of step [prev]: the reply is sent again. *)
Definition rx_duplicate (id : Z) (x : xact) (prev : nat) : M world ogs_rv :=
  if negb ((step x =? S prev) || (step x =? S (S prev)))%nat then mret OGS_ERROR
  else
    reply ← seq_get x (S prev);
    match snd reply with
    | Some pkt => start_holding id;; emit [Sent (xnode x) pkt]
    | None => mret tt
    end;;
    mret OGS_RETRY.

Definition ogs_pfcp_xact_update_rx (id : Z) (type : Z) : M world ogs_rv :=
  let accept :=
    stop_response id;;
    seq_step id (λ s, (type, snd s));;
    mret OGS_OK in
  x ← xact_get id;
  match org x, ogs_pfcp_xact_get_stage type with
  | LOCAL_ORIGINATOR, INTERMEDIATE_STAGE =>
      s ← seq_get x 1;
      if fst s =? type then rx_duplicate id x 1
      else if negb (step x =? 1)%nat then mret OGS_ERROR
      else start_holding id;; accept
  | LOCAL_ORIGINATOR, FINAL_STAGE =>
      if negb (step x =? 1)%nat then mret OGS_ERROR else accept
  | REMOTE_ORIGINATOR, INITIAL_STAGE =>
      s ← seq_get x 0;
      if fst s =? type then rx_duplicate id x 0
      else if negb (step x =? 0)%nat then mret OGS_ERROR
      else start_holding id;; accept
  | REMOTE_ORIGINATOR, FINAL_STAGE =>
      if negb (step x =? 2)%nat then mret OGS_ERROR else accept
  | _, _ => mret OGS_ERROR
  end.

(** What [ogs_pfcp_xact_commit] decides before it sends. *)
Inductive commit_action := Fail | Finish | Send (start : bool).
Definition commit_check (o : originator) (stage : stage_t) (step : nat) : commit_action :=
  match o, stage with
  | LOCAL_ORIGINATOR, INITIAL_STAGE => if (step =? 1)%nat then Send true else Fail
  | LOCAL_ORIGINATOR, FINAL_STAGE =>
      if negb ((step =? 2) || (step =? 3))%nat then Fail
      else if (step =? 2)%nat then Finish else Send false
  | REMOTE_ORIGINATOR, INTERMEDIATE_STAGE => if (step =? 2)%nat then Send true else Fail
  | REMOTE_ORIGINATOR, FINAL_STAGE =>
      if negb ((step =? 2) || (step =? 3))%nat then Fail
      else if (step =? 3)%nat then Finish else Send false
  | _, _ => Fail
  end.

(** [pkbuf = xact->seq[xact->step-1].pkbuf; ogs_assert(pkbuf); sendto]. *)
Definition send_last (id : Z) : M world unit :=
  x ← xact_get id;
  last ← seq_last x;
  pkt ← m_some (snd last);
  emit [Sent (xnode x) pkt].

Definition ogs_pfcp_xact_commit (id : Z) : M world ogs_rv :=
  x ← xact_get id;
  last ← seq_last x;
  match commit_check (org x) (ogs_pfcp_xact_get_stage (fst last)) (step x) with
  | Fail => ogs_pfcp_xact_delete id;; mret OGS_ERROR
  | Finish => ogs_pfcp_xact_delete id;; mret OGS_OK
  | Send start =>
      m_when start (start_response id);;
      send_last id;;
      mret OGS_OK
  end.

Definition ogs_pfcp_xact_delayed_commit (id : Z) (duration : Z) : M world unit :=
  m_assert (negb (duration =? 0));;
  x ← xact_get id;
  _ ← m_some (tm_delayed_commit x);
  xact_upd id (λ x, Xact (org x) (xid x) (xnode x) (xcb x) (step x) (seq x) (tm_response x)
    (response_rcount x) (tm_holding x) (holding_rcount x) (Some (Armed duration))).

(** ** Expiry

    [ogs_timer_mgr_expire] stops the timer before it runs the callback, which
    gets the id of the transaction. *)
Definition stop_holding (id : Z) : M world unit :=
  xact_upd id (λ x, Xact (org x) (xid x) (xnode x) (xcb x) (step x) (seq x) (tm_response x)
    (response_rcount x) ((λ _, Idle) <$> tm_holding x) (holding_rcount x) (tm_delayed_commit x)).
Definition stop_delayed (id : Z) : M world unit :=
  xact_upd id (λ x, Xact (org x) (xid x) (xnode x) (xcb x) (step x) (seq x) (tm_response x)
    (response_rcount x) (tm_holding x) (holding_rcount x) ((λ _, Idle) <$> tm_delayed_commit x)).

Definition set_response_rcount (n : Z) (x : xact) : xact :=
  Xact (org x) (xid x) (xnode x) (xcb x) (step x) (seq x) (tm_response x) n
    (tm_holding x) (holding_rcount x) (tm_delayed_commit x).
Definition set_holding_rcount (n : Z) (x : xact) : xact :=
  Xact (org x) (xid x) (xnode x) (xcb x) (step x) (seq x) (tm_response x) (response_rcount x)
    (tm_holding x) n (tm_delayed_commit x).

Definition response_timeout (id : Z) : M world unit :=
  m_assert ((OGS_MIN_POOL_ID <=? id) && (id <=? OGS_MAX_POOL_ID));;
  w ← m_get;
  match xacts w !! id with
  | None => mret tt
  | Some x =>
      _ ← seq_last x;
      xact_upd id (set_response_rcount (u8 (response_rcount x - 1)));;
      if 0 <? u8 (response_rcount x - 1) then start_response id;; send_last id
      else
        emit (match xcb x with Some c => [Called id c] | None => [] end);;
        ogs_pfcp_xact_delete id;;
        mret tt
  end.

Definition holding_timeout (id : Z) : M world unit :=
  m_assert ((OGS_MIN_POOL_ID <=? id) && (id <=? OGS_MAX_POOL_ID));;
  w ← m_get;
  match xacts w !! id with
  | None => mret tt
  | Some x =>
      _ ← seq_last x;
      xact_upd id (set_holding_rcount (u8 (holding_rcount x - 1)));;
      if 0 <? u8 (holding_rcount x - 1) then start_holding id
      else ogs_pfcp_xact_delete id;; mret tt
  end.

Definition delayed_commit_timeout (id : Z) : M world unit :=
  m_assert ((OGS_MIN_POOL_ID <=? id) && (id <=? OGS_MAX_POOL_ID));;
  w ← m_get;
  match xacts w !! id with
  | None => mret tt
  | Some x => _ ← seq_last x; ogs_pfcp_xact_commit id;; mret tt
  end.

(** ** Receiving from the network *)

(** The first transaction of a list with the given transaction id. *)
Fixpoint find_xid (ids : list Z) (x : Z) : M world (option Z) :=
  match ids with
  | [] => mret None
  | id :: ids => new ← xact_get id; if xid new =? x then mret (Some id) else find_xid ids x
  end.

(** The value is the return code and the transaction for [*xact]. *)
Definition ogs_pfcp_xact_receive (node : nat) (type : Z) (sqn : list Z)
    : M world (ogs_rv * option Z) :=
  w ← m_get;
  n ← m_some (nodes w !! node);
  let xid := OGS_PFCP_SQN_TO_XID sqn in
  list ← m_some
    match ogs_pfcp_xact_get_stage type with
    | INITIAL_STAGE => Some (Some (remote_list n))
    | INTERMEDIATE_STAGE | FINAL_STAGE => Some (Some (local_list n))
    | UNKNOWN_STAGE => Some None
    end;
  match list with
  | None => mret (OGS_ERROR, None)
  | Some list =>
      new ← find_xid list xid;
      new ← (match new with
             | Some id => mret (Some id)
             | None => ogs_pfcp_xact_remote_create node sqn
             end);
      match new with
      | None => mret (OGS_ERROR, None)
      | Some id =>
          rv ← ogs_pfcp_xact_update_rx id type;
          match rv with
          | OGS_ERROR => ogs_pfcp_xact_delete id;; mret (OGS_ERROR, None)
          | OGS_RETRY => mret (OGS_RETRY, None)
          | _ => mret (rv, Some id)
          end
      end
  end.
End xact.
