(* ===== verification/PfcpInv.v ===== *)
(** * PFCP transactions: the invariant

    What holds of every PFCP transaction - three timers and a message history
    that agrees with its step - over the invariant of XactInv.v, and the
    creation and deletion of transactions. *)
From S2P Require Import Prelude Pool XactBase XactInv PfcpXact.
#[local] Open Scope Z_scope.

Section inv.
Context {C : Type}.
Implicit Types (x : xact (C:=C)).
Variable conf : pfcp_conf.

(** The history of a transaction at a step. *)
Definition is_stage (s : stage_t) (type : Z) : Prop := ogs_pfcp_xact_get_stage type = s.
Definition history (o : originator) (step : nat) (seq : list (Z * option (list Z))) : Prop :=
  match o, step with
  | _, O => seq = [(0, None); (0, None); (0, None)]
  | LOCAL_ORIGINATOR, 1%nat => ∃ t p, is_stage INITIAL_STAGE t ∧ seq = [(t, Some p); (0, None); (0, None)]
  | LOCAL_ORIGINATOR, 2%nat => ∃ t p t', is_stage INITIAL_STAGE t ∧ is_stage FINAL_STAGE t' ∧
      seq = [(t, Some p); (t', None); (0, None)]
  | LOCAL_ORIGINATOR, 3%nat => ∃ t p t' t'' p'', is_stage INITIAL_STAGE t ∧ is_stage FINAL_STAGE t' ∧
      is_stage FINAL_STAGE t'' ∧ seq = [(t, Some p); (t', None); (t'', Some p'')]
  | REMOTE_ORIGINATOR, 1%nat => ∃ t, is_stage INITIAL_STAGE t ∧ seq = [(t, None); (0, None); (0, None)]
  | REMOTE_ORIGINATOR, 2%nat => ∃ t t' p', is_stage INITIAL_STAGE t ∧ is_stage FINAL_STAGE t' ∧
      seq = [(t, None); (t', Some p'); (0, None)]
  | _, _ => False
  end.

(** The response timer only runs while a request of ours is unanswered. *)
Record xact_ok x : Prop := {
  xo_history : history (org x) (step x) (seq x);
  xo_timers : is_Some (tm_response x) ∧ is_Some (tm_holding x) ∧ is_Some (tm_delayed_commit x);
  xo_response : ∀ d, tm_response x = Some (Armed d) → org x = LOCAL_ORIGINATOR ∧ step x = 1%nat;
  xo_holding : ∀ d, tm_holding x = Some (Armed d) → org x = REMOTE_ORIGINATOR ∧ step x ≠ 0%nat;
  xo_delayed : ∀ d, tm_delayed_commit x = Some (Armed d) → step x ≠ 0%nat }.

Lemma three_timers x : xact_ok x → timer_count x = 3%nat.
Proof.
  intros [_ ([? E1] & [? E2] & [? E3]) _ _ _]. unfold timer_count. rewrite E1, E2, E3. done.
Qed.
Lemma pfcp_history_length x : xact_ok x → length (seq x) = 3%nat.
Proof.
  intros [H _ _ _ _]. destruct x as [o xi k cb st sq tr rr th rh td]. cbn in *.
  destruct o, st as [|[|[|[|st]]]]; cbn in H; naive_solver.
Qed.
End inv.

Abbreviation world_ok := (XactInv.world_ok org xnode timer_count xact_ok).
Abbreviation deleted := (XactInv.deleted org xnode seq timer_count).
Abbreviation removed := (XactInv.removed org xnode seq timer_count).
Abbreviation created := (XactInv.created org xnode timer_count).

Section create.
Context {C : Type}.
Abbreviation world := (XactBase.world (xact (C:=C)) C).
Implicit Types (x : xact (C:=C)) (w : world).
Variable conf : pfcp_conf.

(** ** Deletion *)

Lemma pfcp_delete_run id x n w :
  xacts w !! id = Some x → nodes w !! xnode x = Some n →
  ogs_pfcp_xact_delete id w = Some (OGS_OK, deleted id x n w).
Proof.
  intros Hx Hn. unfold ogs_pfcp_xact_delete, xact_get, emit, m_modify, ogs_list_of, mbind, M_bind.
  rewrite Hx. cbn. by rewrite Hn.
Qed.

Lemma pfcp_wp_remove P T id x {A} (a : A) (Q : A → world → Prop) w :
  world_ok P T w → xacts w !! id = Some x →
  (∀ w', world_ok P T w' → removed id x w w' → Q a w') →
  wp (ogs_pfcp_xact_delete id;; mret a) Q w.
Proof.
  intros Hok Hx HQ. destruct (wo_node Hok _ _ Hx) as (n & Hn & _).
  apply wp_bind. eapply wp_eq; [by apply pfcp_delete_run|].
  apply wp_ret, HQ; [by apply deleted_ok|by exists n].
Qed.

(** A transaction of a consistent world is replaced by another state of it. *)
Lemma pfcp_xact_put_ok P T id x x' es w :
  world_ok P T w → xacts w !! id = Some x → xact_ok x' → org x' = org x → xnode x' = xnode x →
  world_ok P T (put id x' es w).
Proof.
  intros Hok Hx Hx' Ho Hk. eapply world_put_ok; try done.
  rewrite !three_timers; [done| |done]. by eapply (wo_xact Hok).
Qed.

(** ** Creation *)

(** A fresh transaction with its timers. *)
Definition ready_xact (o : originator) (t : Z) (k : nat) (cb : option C) : xact :=
  Xact o t k cb 0 (replicate 3 (0, None)) (Some Idle) (n1_response_rcount conf)
    (Some Idle) (n1_holding_rcount conf) (Some Idle).

Lemma pfcp_ready_ok o t k cb : xact_ok (ready_xact o t k cb).
Proof. split; cbn; try done; by destruct o. Qed.

Abbreviation draft := (XactInv.draft org xnode).

Lemma pfcp_wp_delete_draft P T id x n g t (Q : option Z → world → Prop) w :
  world_ok P T w → nodes w !! xnode x = Some n → xacts w !! id = None → (1 ≤ pool_avail w)%nat →
  (timer_count x + t = timers_avail w)%nat → option_pkts (seq x) = [] →
  Q None (not_created id g w) → wp (ogs_pfcp_xact_delete id;; mret None) Q (draft id x n g t w).
Proof.
  intros Hok Hn Hid H1 Ht Hp HQ. apply wp_bind. eapply wp_eq.
  { apply pfcp_delete_run; apply lookup_insert_eq. }
  apply wp_ret. erewrite <- draft_removed in HQ; [exact HQ|done..|].
  eexists. split; [apply lookup_insert_eq|done].
Qed.

Ltac upd_step := apply wp_bind; apply wp_upd_draft; [done|done|]; cbn.
Ltac timer_step t := eapply (wp_timer_add_some t); [done|];
  match goal with |- context [set_timers _ (XactInv.draft _ _ ?id ?x ?n ?g _ ?w)] =>
    change (set_timers _ _) with (draft id x n g t w) end.

(** The timers of a new transaction; on failure it is deleted again. *)
Lemma xact_timers_ok P T id o t k cb n g w (Q : option Z → world → Prop) :
  world_ok P T w → nodes w !! k = Some n → xacts w !! id = None → (1 ≤ pool_avail w)%nat →
  ((3 ≤ timers_avail w)%nat → Q (Some id) (created id (ready_xact o t k cb) n g w)) →
  ((timers_avail w < 3)%nat → Q None (not_created id g w)) →
  wp (xact_timers conf id) Q (draft id (new_xact o t k cb) n g (timers_avail w) w).
Proof.
  intros Hok Hn Hid H1 H3 Hlt. unfold xact_timers, XactInv.created in *.
  assert (Hdel : ∀ x T', xnode x = k → option_pkts (seq x) = [] → (timers_avail w < 3)%nat →
    timers_avail w = (timer_count x + T')%nat →
    wp (ogs_pfcp_xact_delete id;; mret None) Q (draft id x n g T' w)).
  { intros x T' Hk Hp Hl HT. eapply pfcp_wp_delete_draft; try done; [by rewrite Hk|by apply Hlt]. }
  apply wp_bind. destruct (timers_avail w) as [|T1] eqn:E1.
  { apply wp_timer_add_none; [done|]. upd_step. apply Hdel; try done; cbn; lia. }
  timer_step T1. upd_step. upd_step. apply wp_bind. destruct T1 as [|T2].
  { apply wp_timer_add_none; [done|]. upd_step. apply Hdel; try done; cbn; lia. }
  timer_step T2. upd_step. upd_step. apply wp_bind. destruct T2 as [|T3].
  { apply wp_timer_add_none; [done|]. upd_step. apply Hdel; try done; cbn; lia. }
  timer_step T3. upd_step. apply wp_ret. cbn in H3. rewrite Nat.sub_0_r in H3. apply H3. lia.
Qed.

(** What a creation leaves behind: [g] is the new transaction counter. *)
Definition create_result o (t : Z) (k : nat) (cb : option C) n (g : Z) w (r : option Z) w' : Prop :=
  if decide (pool_avail w = 0%nat) then r = None ∧ w' = w
  else if decide (timers_avail w < 3)%nat then r = None ∧ w' = not_created (next_id w) g w
  else r = Some (next_id w) ∧ w' = created (next_id w) (ready_xact o t k cb) n g w.

Lemma pfcp_create_ok P T o t k cb g g' n w :
  world_ok P T w → fresh w → nodes w !! k = Some n → (1 ≤ pool_avail w)%nat →
  wp (ogs_list_of o k (λ l, l ++ [next_id w]);; xact_timers conf (next_id w))
    (λ r w', world_ok P T w' ∧ create_result o t k cb n g w r w')
    (set_counter g (World (<[next_id w := new_xact o t k cb]> (xacts w)) (next_id w) (pool_avail w - 1) g'
       (nodes w) (timers_avail w) (log w))).
Proof.
  intros Hok Hf Hn H1. unfold create_result. pose proof (world_next_id_range P T w Hok) as Hr.
  eapply (wp_list_link org xnode); [done|done|done|]. eapply xact_timers_ok; try done; intros H3.
  - rewrite !decide_False by lia. split; [|done].
    apply created_ok; try done. apply pfcp_ready_ok.
  - rewrite decide_False, decide_True by lia. split; [|done].
    apply not_created_ok; [done|]. unfold OGS_MIN_POOL_ID in Hr. lia.
Qed.

Lemma create_full P T o t k cb n g w :
  world_ok P T w → pool_avail w = 0%nat → world_ok P T w ∧ create_result o t k cb n g w None w.
Proof. intros Hok H0. split; [done|]. unfold create_result. by rewrite decide_True. Qed.

Lemma local_create_ok P T k cb w n :
  world_ok P T w → fresh w → nodes w !! k = Some n →
  let t := OGS_NEXT_ID (g_xact_id w) PFCP_MIN_XACT_ID PFCP_MAX_XACT_ID in
  wp (ogs_pfcp_xact_local_create conf k cb) (λ r w',
    world_ok P T w' ∧ create_result LOCAL_ORIGINATOR t k cb n t w r w') w.
Proof.
  intros Hok Hf Hn t. unfold ogs_pfcp_xact_local_create. apply wp_get.
  eapply (wp_alloc xnode); [done|done|intros H0; by apply create_full|].
  intros H1. apply wp_bind, wp_modify. by apply pfcp_create_ok.
Qed.

Lemma pfcp_remote_create_ok P T k sqn w n :
  world_ok P T w → fresh w → nodes w !! k = Some n →
  wp (ogs_pfcp_xact_remote_create conf k sqn) (λ r w',
    world_ok P T w' ∧
    create_result REMOTE_ORIGINATOR (OGS_PFCP_SQN_TO_XID sqn) k None n (g_xact_id w) w r w') w.
Proof.
  intros Hok Hf Hn. unfold ogs_pfcp_xact_remote_create.
  eapply (wp_alloc xnode); [done|done|intros H0; by apply create_full|].
  intros H1. by apply (pfcp_create_ok P T _ _ _ _ _ (g_xact_id w)).
Qed.
End create.
