(* ===== verification/PfcpOps.v ===== *)
(** * PFCP transactions: what each operation does

    One lemma per operation of lib/pfcp/xact.c over worlds that satisfy the
    invariant: the value, the events and the next state on every branch. *)
From S2P Require Import Prelude Pool XactBase XactInv PfcpXact PfcpInv.
#[local] Open Scope Z_scope.

Section ops.
Context {C : Type}.
Abbreviation world := (XactBase.world (xact (C:=C)) C).
Implicit Types (x : xact (C:=C)) (w : world).
Variable conf : pfcp_conf.

(** Transitions of a transaction. *)
Definition stepped x (s : Z * option (list Z)) : xact :=
  Xact (org x) (xid x) (xnode x) (xcb x) (S (step x)) (<[step x := s]> (seq x)) (tm_response x)
    (response_rcount x) (tm_holding x) (holding_rcount x) (tm_delayed_commit x).
Definition with_response (t : tm) x : xact :=
  Xact (org x) (xid x) (xnode x) (xcb x) (step x) (seq x) (Some t) (response_rcount x)
    (tm_holding x) (holding_rcount x) (tm_delayed_commit x).
Definition with_holding (t : tm) x : xact :=
  Xact (org x) (xid x) (xnode x) (xcb x) (step x) (seq x) (tm_response x) (response_rcount x)
    (Some t) (holding_rcount x) (tm_delayed_commit x).
Definition with_delayed (t : tm) x : xact :=
  Xact (org x) (xid x) (xnode x) (xcb x) (step x) (seq x) (tm_response x) (response_rcount x)
    (tm_holding x) (holding_rcount x) (Some t).

Lemma wp_start_response id x es (Q : unit → world → Prop) w :
  is_Some (tm_response x) → Q tt (put id (with_response (Armed (t1_response_duration conf)) x) es w) →
  wp (start_response conf id) Q (put id x es w).
Proof. intros [t Ht] HQ. unfold start_response. apply wp_upd_put. by rewrite Ht. Qed.
Lemma wp_stop_response id x es (Q : unit → world → Prop) w :
  is_Some (tm_response x) → Q tt (put id (with_response Idle x) es w) →
  wp (stop_response id) Q (put id x es w).
Proof. intros [t Ht] HQ. unfold stop_response. apply wp_upd_put. by rewrite Ht. Qed.
Lemma wp_start_holding id x es (Q : unit → world → Prop) w :
  is_Some (tm_holding x) → Q tt (put id (with_holding (Armed (t1_holding_duration conf)) x) es w) →
  wp (start_holding conf id) Q (put id x es w).
Proof. intros [t Ht] HQ. unfold start_holding. apply wp_upd_put. by rewrite Ht. Qed.

Lemma pfcp_wp_seq_step id f x old es (Q : unit → world → Prop) w :
  seq x !! step x = Some old → Q tt (put id (stepped x (f old)) es w) →
  wp (seq_step id f) Q (put id x es w).
Proof.
  intros Hs HQ. unfold seq_step. apply wp_bind, wp_get_put, wp_bind. unfold seq_get. rewrite Hs.
  apply wp_some. by apply wp_upd_put.
Qed.

(** ** Sending *)

Definition tx_next x (type seid : Z) (pkt : list Z) : xact :=
  stepped x (type, Some (pfcp_header type seid (xid x) (zlen pkt) ++ pkt)).

Lemma tx_next_ok x type seid pkt :
  xact_ok x → tx_allowed x type = Some true → xact_ok (tx_next x type seid pkt).
Proof.
  intros Hx Ht. pose proof Hx as [Hh Htm Hr Hho Hde]. unfold tx_allowed in Ht.
  assert (Hs : ogs_pfcp_xact_get_stage type = INITIAL_STAGE ∨ ogs_pfcp_xact_get_stage type = FINAL_STAGE).
  { unfold ogs_pfcp_xact_get_stage in *. repeat case_decide; destruct (org x); naive_solver. }
  split; cbn; [|done| | |done].
  - unfold is_stage in *. destruct x as [o xi k cb st sq tr rr th rh td]; cbn in *.
    destruct o, Hs as [Hs|Hs]; rewrite Hs in Ht; try done; injection Ht as Ht%Nat.eqb_eq; subst;
      cbn in *; unfold is_stage in *; naive_solver.
  - intros d Hd. destruct (Hr d Hd) as [Ho He]. rewrite Ho, He in *. destruct Hs as [Hs|Hs]; by rewrite Hs in Ht.
  - intros d Hd. destruct (Hho d Hd) as [Ho He]. done.
Qed.

Lemma update_tx_ok P T id x type seid pkt w :
  world_ok P T w → xacts w !! id = Some x →
  (org x = LOCAL_ORIGINATOR → ogs_pfcp_xact_get_stage type ≠ UNKNOWN_STAGE) →
  wp (ogs_pfcp_xact_update_tx id type seid pkt) (λ rv w',
    world_ok P T w' ∧
    match tx_allowed x type with
    | Some true => rv = OGS_OK ∧ w' = put id (tx_next x type seid pkt) [] w
    | _ => rv = OGS_ERROR ∧ w' = put id x [Freed pkt] w
    end) w.
Proof.
  intros Hok Hx Hu. pose proof (wo_xact Hok _ _ Hx) as Hxo. unfold ogs_pfcp_xact_update_tx.
  apply (wp_put id x _ _ w Hx), wp_bind, wp_get_put.
  assert (Ht : is_Some (tx_allowed x type)).
  { unfold tx_allowed. destruct (org x), (ogs_pfcp_xact_get_stage type); try by eexists. by destruct Hu. }
  destruct Ht as [b Ht]. rewrite Ht. apply wp_bind, wp_some. destruct b; cbn [negb].
  - pose proof (pfcp_history_length _ Hxo) as Hlen.
    assert (Hst : (step x < 3)%nat).
    { unfold tx_allowed in Ht. destruct (org x), (ogs_pfcp_xact_get_stage type); try done;
        injection Ht as Ht%Nat.eqb_eq; lia. }
    destruct (lookup_lt_is_Some_2 (seq x) (step x)) as [old Hold]; [lia|].
    apply wp_bind. eapply pfcp_wp_seq_step; [done|]. apply wp_ret. split; [|done].
    eapply pfcp_xact_put_ok; try done. by apply tx_next_ok.
  - apply wp_bind, wp_emit_put, wp_ret. split; [|done]. by eapply pfcp_xact_put_ok.
Qed.

(** ** Receiving *)

Inductive rx_kind := RxAccept | RxDuplicate (reply : option (list Z)) | RxError.
(** What [ogs_pfcp_xact_update_rx] makes of a message of a known stage. *)
Definition rx_class x (type : Z) : rx_kind :=
  match org x, ogs_pfcp_xact_get_stage type with
  | LOCAL_ORIGINATOR, FINAL_STAGE => if (step x =? 1)%nat then RxAccept else RxError
  | REMOTE_ORIGINATOR, INITIAL_STAGE =>
      match step x with
      | O => RxAccept
      | _ => if default 0 (fst <$> seq x !! 0%nat) =? type
             then RxDuplicate (seq x !! 1%nat ≫= snd) else RxError
      end
  | _, _ => RxError
  end.

Definition rx_next x (type : Z) : xact :=
  let x := match org x with REMOTE_ORIGINATOR => with_holding (Armed (t1_holding_duration conf)) x | _ => x end in
  stepped (with_response Idle x) (type, None).

Lemma pfcp_rx_next_ok x type : xact_ok x → rx_class x type = RxAccept → xact_ok (rx_next x type).
Proof.
  intros Hx Hc. pose proof Hx as [Hh Htm Hr Hho Hde]. unfold rx_class in Hc. unfold rx_next.
  destruct x as [o xi k cb st sq tr rr th rh td]. cbn in *.
  destruct o, (ogs_pfcp_xact_get_stage type) eqn:Es; try done.
  - destruct (st =? 1)%nat eqn:E1; [|done]. apply Nat.eqb_eq in E1. subst st. cbn in Hh.
    destruct Hh as (t & p & Ht & ->). split; cbn; [|naive_solver|done| |done].
    + by exists t, p, type.
    + intros d Hd. destruct (Hho d Hd) as [? _]. done.
  - destruct st as [|st]; [|destruct (_ =? type); done]. cbn in Hh. subst sq.
    split; cbn; [|naive_solver|done|done|done]. by exists type.
Qed.

Lemma not_intermediate type : ogs_pfcp_xact_get_stage type ≠ INTERMEDIATE_STAGE.
Proof. unfold ogs_pfcp_xact_get_stage. by repeat case_decide. Qed.

Lemma initial_nonzero type : ogs_pfcp_xact_get_stage type = INITIAL_STAGE → type ≠ 0.
Proof. intros H ->. done. Qed.

Lemma dup_ok x : xact_ok x → org x = REMOTE_ORIGINATOR → step x ≠ 0%nat →
  xact_ok (with_holding (Armed (t1_holding_duration conf)) x).
Proof. intros [Hh Htm Hr Hho Hde] Ho Hs. split; cbn; try done. naive_solver. Qed.

Lemma pfcp_update_rx_ok P T id x type w :
  world_ok P T w → xacts w !! id = Some x →
  (org x = REMOTE_ORIGINATOR → ogs_pfcp_xact_get_stage type = FINAL_STAGE → step x = 0%nat) →
  wp (ogs_pfcp_xact_update_rx conf id type) (λ rv w',
    world_ok P T w' ∧
    match rx_class x type with
    | RxAccept => rv = OGS_OK ∧ w' = put id (rx_next x type) [] w
    | RxDuplicate (Some pkt) => rv = OGS_RETRY ∧
        w' = put id (with_holding (Armed (t1_holding_duration conf)) x) [Sent (xnode x) pkt] w
    | RxDuplicate None => rv = OGS_RETRY ∧ w' = w
    | RxError => rv = OGS_ERROR ∧ w' = w
    end) w.
Proof.
  intros Hok Hx Hf. pose proof (wo_xact Hok _ _ Hx) as Hxo.
  unfold ogs_pfcp_xact_update_rx. apply (wp_put id x _ _ w Hx), wp_bind, wp_get_put.
  pose proof (pfcp_rx_next_ok x type Hxo) as Hnext. unfold rx_class in *. unfold rx_next in *.
  pose proof (xo_history _ Hxo) as Hh.
  destruct (org x) eqn:Eo, (ogs_pfcp_xact_get_stage type) eqn:Es;
    try (apply wp_ret; by rewrite (put_same id x w Hx)); try by destruct (not_intermediate type).
  - (* our request is answered *)
    destruct (step x =? 1)%nat eqn:E1; cbn [negb]; [|apply wp_ret; by rewrite (put_same id x w Hx)].
    apply Nat.eqb_eq in E1. rewrite E1 in Hh. cbn in Hh. destruct Hh as (t & p & Ht & Hs).
    apply wp_bind, wp_stop_response; [apply Hxo|]. apply wp_bind. eapply pfcp_wp_seq_step.
    { cbn. by rewrite Hs, E1. }
    apply wp_ret. split; [|done]. eapply pfcp_xact_put_ok; try done. by apply Hnext.
  - (* a request of the peer *)
    destruct (step x) as [|st] eqn:E1; cbn in Hh.
    + apply wp_bind. unfold seq_get at 1. rewrite Hh. cbn [lookup list_lookup]. apply wp_some.
      cbn [fst]. replace (0 =? type) with false by (symmetry; apply Z.eqb_neq, not_eq_sym; by apply initial_nonzero).
      cbn [negb Nat.eqb]. apply wp_bind, wp_start_holding; [apply Hxo|].
      apply wp_bind, wp_stop_response; [apply Hxo|].
      apply wp_bind. eapply pfcp_wp_seq_step.
      { cbn. by rewrite Hh, E1. }
      apply wp_ret. split; [|done]. eapply pfcp_xact_put_ok; try done. by apply Hnext.
    + assert (Hd : xact_ok (with_holding (Armed (t1_holding_duration conf)) x)) by (apply dup_ok; congruence).
      assert (Hdup : ∀ t r, seq x !! 0%nat = Some (t, None) → seq x !! 1%nat = Some r →
        (S st = 1 ∨ S st = 2)%nat →
        wp (s ← seq_get x 0;
          if fst s =? type then rx_duplicate conf id x 0
          else if negb (S st =? 0)%nat then mret OGS_ERROR
          else start_holding conf id;; stop_response id;; seq_step id (λ s, (type, snd s));; mret OGS_OK)
        (λ rv w', world_ok P T w' ∧
          match (if t =? type then RxDuplicate (snd r) else RxError) with
          | RxAccept => rv = OGS_OK ∧ w' = put id (stepped (with_response Idle (with_holding (Armed (t1_holding_duration conf)) x)) (type, None)) [] w
          | RxDuplicate (Some pkt) => rv = OGS_RETRY ∧
              w' = put id (with_holding (Armed (t1_holding_duration conf)) x) [Sent (xnode x) pkt] w
          | RxDuplicate None => rv = OGS_RETRY ∧ w' = w
          | RxError => rv = OGS_ERROR ∧ w' = w
          end) (put id x [] w)).
      { intros t r H0 H1 Hst. unfold seq_get at 1. rewrite H0. apply wp_bind, wp_some. cbn [fst].
        destruct (t =? type) eqn:Et; [|cbn [negb Nat.eqb]; apply wp_ret; by rewrite (put_same id x w Hx)].
        unfold rx_duplicate. rewrite E1.
        replace (negb _) with false by (destruct Hst as [-> | ->]; done).
        apply wp_bind. unfold seq_get. rewrite H1. apply wp_some. apply wp_bind.
        destruct (snd r) as [pkt|].
        - apply wp_bind, wp_start_holding; [apply Hxo|]. apply wp_emit_put, wp_ret.
          split; [|done]. by eapply pfcp_xact_put_ok.
        - apply wp_ret, wp_ret. by rewrite (put_same id x w Hx). }
      destruct st as [|[|st]]; cbn in Hh; [| |done].
      * destruct Hh as (t & Ht & Hs). eapply wp_mono; [apply (Hdup t (0, None)); rewrite ?Hs; [done|done|lia]|].
        intros rv w'. by rewrite Hs.
      * destruct Hh as (t & t' & p' & Ht & Ht' & Hs). eapply wp_mono; [apply (Hdup t (t', Some p')); rewrite ?Hs; [done|done|lia]|].
        intros rv w'. by rewrite Hs.
  - rewrite Hf by done. cbn [negb Nat.eqb]. apply wp_ret. by rewrite (put_same id x w Hx).
Qed.

(** ** Committing *)

(** What a commit does, by originator and step. *)
Definition commit_class x : commit_action :=
  match org x, step x with
  | LOCAL_ORIGINATOR, 1%nat => Send true
  | LOCAL_ORIGINATOR, 2%nat => Finish
  | LOCAL_ORIGINATOR, 3%nat | REMOTE_ORIGINATOR, 2%nat => Send false
  | _, _ => Fail
  end.
Definition last_pkt x : option (list Z) :=
  match step x with O => None | S i => seq x !! i ≫= snd end.

Lemma history_last x : xact_ok x → step x ≠ 0%nat →
  ∃ t, seq x !! pred (step x) = Some (t, last_pkt x) ∧
    commit_check (org x) (ogs_pfcp_xact_get_stage t) (step x) = commit_class x ∧
    (commit_class x = Fail ∨ commit_class x = Finish ∨ ∃ b pkt, commit_class x = Send b ∧ last_pkt x = Some pkt).
Proof.
  intros [Hh _ _ _ _] Hs. unfold last_pkt, commit_class, is_stage in *.
  destruct x as [o xi k cb st sq tr rr th rh td]. cbn in *.
  destruct o, st as [|[|[|[|st]]]]; cbn in Hh; try done; unfold is_stage in Hh;
    repeat match type of Hh with ex _ => destruct Hh as [? Hh] end; destruct_and?; subst sq; cbn;
    eexists; (split; [done|]); unfold commit_check;
    repeat match goal with H : ogs_pfcp_xact_get_stage _ = _ |- _ => rewrite H; clear H end; cbn; naive_solver.
Qed.

Lemma with_response_ok x t :
  xact_ok x → (∀ d, t = Armed d → org x = LOCAL_ORIGINATOR ∧ step x = 1%nat) → xact_ok (with_response t x).
Proof. intros [] Ht. split; cbn; try done; naive_solver. Qed.

Lemma pfcp_wp_send_last id x pkt es (Q : unit → world → Prop) w :
  last_pkt x = Some pkt → Q tt (put id x (es ++ [Sent (xnode x) pkt]) w) →
  wp (send_last id) Q (put id x es w).
Proof.
  unfold last_pkt. intros Hl HQ. unfold send_last. apply wp_bind, wp_get_put, wp_bind. unfold seq_last.
  destruct (step x) as [|i]; [done|]. unfold seq_get.
  destruct (seq x !! i) as [[t o]|] eqn:E; [|done]. cbn in Hl. subst o.
  apply wp_some, wp_bind, wp_some. by apply wp_emit_put.
Qed.

Lemma pfcp_commit_ok P T id x w :
  world_ok P T w → xacts w !! id = Some x → step x ≠ 0%nat →
  wp (ogs_pfcp_xact_commit conf id) (λ rv w',
    world_ok P T w' ∧
    match commit_class x with
    | Fail => rv = OGS_ERROR ∧ removed id x w w'
    | Finish => rv = OGS_OK ∧ removed id x w w'
    | Send start => rv = OGS_OK ∧ ∃ pkt, last_pkt x = Some pkt ∧
        w' = put id (if start then with_response (Armed (t1_response_duration conf)) x else x)
               [Sent (xnode x) pkt] w
    end) w.
Proof.
  intros Hok Hx Hs. pose proof (wo_xact Hok _ _ Hx) as Hxo.
  destruct (history_last x Hxo Hs) as (t & Hl & Hc & Hcase). unfold ogs_pfcp_xact_commit.
  apply wp_bind. eapply wp_xact_get; [done|]. apply wp_bind. unfold seq_last, seq_get.
  destruct (step x) as [|i] eqn:Ei; [done|]. cbn in Hl. rewrite Hl. apply wp_some. cbn [fst]. rewrite Hc.
  destruct Hcase as [-> | [-> | (b & pkt & Hb & Hp)]].
  - by eapply pfcp_wp_remove.
  - by eapply pfcp_wp_remove.
  - rewrite Hb. apply (wp_put id x _ _ w Hx), wp_bind.
    assert (Hsend : ∀ x', seq x' = seq x → step x' = step x → xnode x' = xnode x → org x' = org x → xact_ok x' →
      wp (send_last id;; mret OGS_OK) (λ rv w', world_ok P T w' ∧ rv = OGS_OK ∧
        ∃ pkt, last_pkt x = Some pkt ∧ w' = put id x' [Sent (xnode x) pkt] w) (put id x' [] w)).
    { intros x' E1 E2 E3 E4 Hx'. apply wp_bind. eapply pfcp_wp_send_last.
      { unfold last_pkt in *. rewrite E1, E2. done. }
      rewrite E3. apply wp_ret. split; [by eapply pfcp_xact_put_ok|]. eauto. }
    destruct b; cbn.
    + apply wp_start_response; [apply Hxo|]. apply Hsend; try done. apply with_response_ok; [done|].
      intros _ _. unfold commit_class in Hb. rewrite Ei in Hb.
      destruct (org x), i as [|[|[|i]]]; done.
    + apply wp_ret, Hsend; done.
Qed.

(** ** Expiry: the timer manager stops the timer and runs the callback *)

Definition fire_response (id : Z) : M world unit := stop_response id;; response_timeout conf id.
Definition fire_holding (id : Z) : M world unit := stop_holding id;; holding_timeout conf id.
Definition fire_delayed (id : Z) : M world unit := stop_delayed id;; delayed_commit_timeout conf id.

Lemma pfcp_set_response_rcount_ok x r : xact_ok x → xact_ok (set_response_rcount r x).
Proof. by intros []. Qed.
Lemma pfcp_set_holding_rcount_ok x r : xact_ok x → xact_ok (set_holding_rcount r x).
Proof. by intros []. Qed.
Lemma pfcp_idle_response_ok x : xact_ok x → xact_ok (with_response Idle x).
Proof. intros H. by apply with_response_ok. Qed.
Lemma with_holding_ok x t :
  xact_ok x → (∀ d, t = Armed d → org x = REMOTE_ORIGINATOR ∧ step x ≠ 0%nat) → xact_ok (with_holding t x).
Proof. intros [] Ht. split; cbn; try done; naive_solver. Qed.
Lemma with_delayed_ok x t :
  xact_ok x → (∀ d, t = Armed d → step x ≠ 0%nat) → xact_ok (with_delayed t x).
Proof. intros [? (?&?&?) ???] Ht. split; cbn; try done. naive_solver. Qed.

Lemma pfcp_wp_seq_last x s (Q : Z * option (list Z) → world → Prop) w :
  step x ≠ 0%nat → seq x !! pred (step x) = Some s → Q s w → wp (seq_last x) Q w.
Proof. intros H0 Hs HQ. unfold seq_last, seq_get. destruct (step x); [done|]. cbn in Hs. by rewrite Hs. Qed.

(** The event of the callback, if there is one. *)
Definition called (id : Z) x : list (event C) :=
  match xcb x with Some c => [Called id c] | None => [] end.

(** The response timer of an unanswered request: sent again while the count
    lasts; then the owner is told and the transaction is gone. *)
Lemma pfcp_fire_response_ok P T id x d w :
  world_ok P T w → xacts w !! id = Some x → tm_response x = Some (Armed d) →
  let r := u8 (response_rcount x - 1) in
  wp (fire_response id) (λ _ w',
    world_ok P T w' ∧
    if 0 <? r then ∃ pkt, last_pkt x = Some pkt ∧
      w' = put id (set_response_rcount r (with_response (Armed (t1_response_duration conf)) x))
             [Sent (xnode x) pkt] w
    else removed id (set_response_rcount r (with_response Idle x))
           (put id (set_response_rcount r (with_response Idle x)) (called id x) w) w') w.
Proof.
  intros Hok Hx Hd r. pose proof (wo_xact Hok _ _ Hx) as Hxo.
  destruct (xo_response _ Hxo _ Hd) as [Ho Hs]. destruct (history_last x Hxo ltac:(lia)) as (t & Hl & _ & Hcase).
  assert (Hp : ∃ pkt, last_pkt x = Some pkt).
  { unfold commit_class in Hcase. rewrite Ho, Hs in Hcase. naive_solver. }
  destruct Hp as [pkt Hp]. unfold fire_response. apply (wp_put id x _ _ w Hx), wp_bind, wp_stop_response; [by apply Hxo|].
  unfold response_timeout. apply wp_bind, wp_assert; [by eapply in_range|]. apply wp_bind. unfold m_get.
  eapply wp_eq; [done|]. cbn [put xacts]. rewrite lookup_insert_eq.
  apply wp_bind. eapply pfcp_wp_seq_last; [cbn; lia|apply Hl|].
  apply wp_bind, wp_upd_put. cbn [with_response response_rcount]. fold r. destruct (0 <? r).
  - apply wp_bind, wp_start_response; [by eexists|]. eapply (pfcp_wp_send_last _ _ pkt); [|cbn; split].
    + done.
    + eapply pfcp_xact_put_ok; try done. apply with_response_ok; [|done]. apply pfcp_set_response_rcount_ok, pfcp_idle_response_ok, Hxo.
    + by exists pkt.
  - apply wp_bind, wp_emit_put. set (x' := set_response_rcount r (with_response Idle x)).
    eapply pfcp_wp_remove.
    + eapply (pfcp_xact_put_ok P T id x x'); try done. apply pfcp_set_response_rcount_ok, pfcp_idle_response_ok, Hxo.
    + apply lookup_insert_eq.
    + intros w' Hok' Hr. split; [done|]. done.
Qed.

(** The holding timer keeps an answered transaction for duplicates. *)
Lemma pfcp_fire_holding_ok P T id x d w :
  world_ok P T w → xacts w !! id = Some x → tm_holding x = Some (Armed d) →
  let r := u8 (holding_rcount x - 1) in
  wp (fire_holding id) (λ _ w',
    world_ok P T w' ∧
    if 0 <? r then w' = put id (set_holding_rcount r (with_holding (Armed (t1_holding_duration conf)) x)) [] w
    else removed id (set_holding_rcount r (with_holding Idle x))
           (put id (set_holding_rcount r (with_holding Idle x)) [] w) w') w.
Proof.
  intros Hok Hx Hd r. pose proof (wo_xact Hok _ _ Hx) as Hxo.
  destruct (xo_holding _ Hxo _ Hd) as [Ho Hs]. destruct (history_last x Hxo Hs) as (t & Hl & _ & _).
  unfold fire_holding, stop_holding. apply (wp_put id x _ _ w Hx), wp_bind, wp_upd_put. rewrite Hd.
  fold (with_holding Idle x). unfold holding_timeout.
  apply wp_bind, wp_assert; [by eapply in_range|]. apply wp_bind. unfold m_get.
  eapply wp_eq; [done|]. cbn [put xacts]. rewrite lookup_insert_eq.
  apply wp_bind. eapply pfcp_wp_seq_last; [done|apply Hl|].
  apply wp_bind, wp_upd_put. cbn [with_holding holding_rcount]. fold r. destruct (0 <? r).
  - apply wp_start_holding; [by eexists|]. split; [|done]. eapply pfcp_xact_put_ok; try done.
    apply with_holding_ok; [|done]. by apply pfcp_set_holding_rcount_ok, with_holding_ok.
  - set (x' := set_holding_rcount r (with_holding Idle x)). eapply pfcp_wp_remove.
    + eapply (pfcp_xact_put_ok P T id x x'); try done. by apply pfcp_set_holding_rcount_ok, with_holding_ok.
    + apply lookup_insert_eq.
    + done.
Qed.

(** The delayed commit commits. *)
Lemma fire_delayed_ok P T id x w :
  world_ok P T w → xacts w !! id = Some x → step x ≠ 0%nat →
  let x' := with_delayed Idle x in
  wp (fire_delayed id) (λ _ w',
    world_ok P T w' ∧
    match commit_class x with
    | Fail | Finish => removed id x' (put id x' [] w) w'
    | Send start => ∃ pkt, last_pkt x = Some pkt ∧
        w' = put id (if start then with_response (Armed (t1_response_duration conf)) x' else x')
               [Sent (xnode x) pkt] w
    end) w.
Proof.
  intros Hok Hx Hs x'. pose proof (wo_xact Hok _ _ Hx) as Hxo.
  unfold fire_delayed, stop_delayed. apply (wp_put id x _ _ w Hx), wp_bind, wp_upd_put.
  destruct (proj2 (proj2 (xo_timers _ Hxo))) as [t Ht]. rewrite Ht. change (Xact _ _ _ _ _ _ _ _ _ _ _) with x'.
  assert (Hok' : world_ok P T (put id x' [] w)) by (eapply pfcp_xact_put_ok; try done; by apply with_delayed_ok).
  assert (Hx' : xacts (put id x' [] w) !! id = Some x') by apply lookup_insert_eq.
  unfold delayed_commit_timeout. apply wp_bind, wp_assert; [by eapply in_range|]. apply wp_bind. unfold m_get.
  eapply wp_eq; [done|]. rewrite Hx'. destruct (history_last x Hxo Hs) as (t' & Hl & _).
  apply wp_bind. eapply pfcp_wp_seq_last; [done|apply Hl|]. apply wp_bind.
  eapply wp_mono; [by eapply pfcp_commit_ok|]. intros rv w' [H1 H2]. apply wp_ret. split; [done|].
  change (commit_class x') with (commit_class x) in H2. destruct (commit_class x); [apply H2|apply H2|].
  destruct H2 as (_ & pkt & Hp & ->). exists pkt. split; [done|]. destruct start; by rewrite put_put.
Qed.

Lemma delayed_commit_ok P T id x d w :
  world_ok P T w → xacts w !! id = Some x → d ≠ 0 → step x ≠ 0%nat →
  wp (ogs_pfcp_xact_delayed_commit id d) (λ _ w',
    world_ok P T w' ∧ w' = put id (with_delayed (Armed d) x) [] w) w.
Proof.
  intros Hok Hx Hd Hs. pose proof (wo_xact Hok _ _ Hx) as Hxo.
  destruct (proj2 (proj2 (xo_timers _ Hxo))) as [t Ht].
  unfold ogs_pfcp_xact_delayed_commit. apply wp_bind, wp_assert; [lia|]. apply (wp_put id x _ _ w Hx), wp_bind, wp_get_put.
  rewrite Ht. apply wp_bind, wp_some, wp_upd_put. split; [|done]. eapply pfcp_xact_put_ok; try done. by apply with_delayed_ok.
Qed.

(** ** Receiving from the network *)

(** The first transaction of a list with a transaction id. *)
Definition xid_in w (ids : list Z) (t : Z) : option Z :=
  hd_error (filter (λ id, xid <$> xacts w !! id = Some t) ids).

Lemma pfcp_find_xid_ok w ids t :
  (∀ id, id ∈ ids → is_Some (xacts w !! id)) → find_xid ids t w = Some (xid_in w ids t, w).
Proof.
  unfold xid_in. induction ids as [|id ids IH]; intros Hin; [done|].
  destruct (Hin id ltac:(left)) as [x Hx]. cbn [find_xid]. unfold mbind, M_bind, xact_get. rewrite Hx.
  destruct (xid x =? t) eqn:E.
  - rewrite filter_cons_True; [done|]. rewrite Hx. cbn. f_equal. lia.
  - rewrite filter_cons_False; [|rewrite Hx; cbn; intros [= ?]; lia]. apply IH. intros. apply Hin. by right.
Qed.

Lemma pfcp_xid_in_Some w ids t id :
  xid_in w ids t = Some id → id ∈ ids ∧ ∃ x, xacts w !! id = Some x ∧ xid x = t.
Proof.
  unfold xid_in. intros H. assert (Hin : id ∈ filter (λ id, xid <$> xacts w !! id = Some t) ids).
  { destruct (filter _ ids); [done|]. injection H as ->. by left. }
  apply list_elem_of_filter in Hin as [Hx Hin]. split; [done|].
  destruct (xacts w !! id) as [x|]; [|done]. injection Hx as Hx. by exists x.
Qed.

(** What is created and deleted again, whatever happened in between. *)
Lemma xact_removed_created P T id x x' n g es w w' :
  world_ok P T w → nodes w !! xnode x = Some n → xacts w !! id = None →
  (1 ≤ pool_avail w)%nat → (3 ≤ timers_avail w)%nat →
  xact_ok x → xact_ok x' → xnode x' = xnode x → org x' = org x →
  removed id x' (put id x' es (created id x n g w)) w' →
  w' = World (xacts w) id (pool_avail w) g (nodes w) (timers_avail w)
         (log w ++ es ++ (Freed <$> option_pkts (seq x'))).
Proof.
  intros Hok Hn Hid H1 H3 Hx Hx' Hk Ho Hr. by eapply removed_created in Hr; rewrite ?three_timers.
Qed.

(** A created transaction that is deleted again leaves only the used id. *)
Lemma deleted_created P T id x n g w w' :
  world_ok P T w → nodes w !! xnode x = Some n → xacts w !! id = None → option_pkts (seq x) = [] →
  xact_ok x → (1 ≤ pool_avail w)%nat → (3 ≤ timers_avail w)%nat →
  removed id x (created id x n g w) w' → w' = not_created id g w.
Proof.
  intros Hok Hn Hid Hp Hxo H1 H3 Hr.
  rewrite <- (put_same id x (created id x n g w)) in Hr by apply lookup_insert_eq.
  erewrite (xact_removed_created P T id x x n g [] w w'); try done. unfold not_created. by rewrite Hp, app_nil_r.
Qed.

(** The end of [ogs_pfcp_xact_receive], for the transaction it has found. *)
Definition rx_result (id : Z) x (type : Z) w (r : ogs_rv * option Z) w' : Prop :=
  match rx_class x type with
  | RxAccept => r = (OGS_OK, Some id) ∧ w' = put id (rx_next x type) [] w
  | RxDuplicate (Some pkt) => r = (OGS_RETRY, None) ∧
      w' = put id (with_holding (Armed (t1_holding_duration conf)) x) [Sent (xnode x) pkt] w
  | RxDuplicate None => r = (OGS_RETRY, None) ∧ w' = w
  | RxError => r = (OGS_ERROR, None) ∧ removed id x w w'
  end.

Lemma pfcp_rx_result_ok P T id x type w :
  world_ok P T w → xacts w !! id = Some x →
  (org x = REMOTE_ORIGINATOR → ogs_pfcp_xact_get_stage type = FINAL_STAGE → step x = 0%nat) →
  wp (rv ← ogs_pfcp_xact_update_rx conf id type;
      match rv with
      | OGS_ERROR => ogs_pfcp_xact_delete id;; mret (OGS_ERROR, None)
      | OGS_RETRY => mret (OGS_RETRY, None)
      | _ => mret (rv, Some id)
      end) (λ r w', world_ok P T w' ∧ rx_result id x type w r w') w.
Proof.
  intros Hok Hx Hf. unfold rx_result. apply wp_bind. eapply wp_mono; [by eapply pfcp_update_rx_ok|].
  intros rv w1 [Hok1 H]. destruct (rx_class x type) as [|[pkt|]|].
  1-3: destruct H as [-> ->]; by apply wp_ret.
  destruct H as [-> ->]. by eapply pfcp_wp_remove.
Qed.

(** The whole of [ogs_pfcp_xact_receive], by the stage of the message and the
    transaction it finds in list [l]. *)
Definition receive_result (k : nat) (type : Z) (sqn : list Z) n w (r : ogs_rv * option Z) w' : Prop :=
  let t := OGS_PFCP_SQN_TO_XID sqn in
  let found l other :=
    match xid_in w l t with
    | Some id => ∃ x, xacts w !! id = Some x ∧ rx_result id x type w r w'
    | None => ∃ r1 w1, create_result conf REMOTE_ORIGINATOR t k None n (g_xact_id w) w r1 w1 ∧
        match r1 with Some id => other id w1 | None => r = (OGS_ERROR, None) ∧ w' = w1 end
    end in
  match ogs_pfcp_xact_get_stage type with
  | INITIAL_STAGE => found (remote_list n) (λ id w1,
      r = (OGS_OK, Some id) ∧
      w' = put id (rx_next (ready_xact conf REMOTE_ORIGINATOR t k None) type) [] w1)
  | FINAL_STAGE => found (local_list n) (λ id w1,
      r = (OGS_ERROR, None) ∧ w' = not_created id (g_xact_id w) w)
  | _ => r = (OGS_ERROR, None) ∧ w' = w
  end.

Lemma receive_new P T k type sqn n w id w1 (r : ogs_rv * option Z) w' :
  world_ok P T w → fresh w → nodes w !! k = Some n →
  create_result conf REMOTE_ORIGINATOR (OGS_PFCP_SQN_TO_XID sqn) k None n (g_xact_id w) w (Some id) w1 →
  let x := ready_xact conf REMOTE_ORIGINATOR (OGS_PFCP_SQN_TO_XID sqn) k None in
  rx_result id x type w1 r w' →
  xacts w1 !! id = Some x ∧
  match ogs_pfcp_xact_get_stage type with
  | INITIAL_STAGE => r = (OGS_OK, Some id) ∧ w' = put id (rx_next x type) [] w1
  | _ => r = (OGS_ERROR, None) ∧ w' = not_created id (g_xact_id w) w
  end.
Proof.
  intros Hok Hf Hn Hc x. unfold create_result in Hc. repeat case_decide; destruct Hc as [[= ->] ->].
  split; [apply lookup_insert_eq|]. unfold rx_result, rx_class in *. cbn [x org ready_xact step] in *.
  assert (Hdel : r = (OGS_ERROR, None) ∧ removed (next_id w) x (created (next_id w) x n (g_xact_id w) w) w' →
    r = (OGS_ERROR, None) ∧ w' = not_created (next_id w) (g_xact_id w) w).
  { intros [-> Hr]. split; [done|]. eapply (deleted_created P T _ x n); [done|exact Hn|exact Hf|reflexivity|apply pfcp_ready_ok|lia|lia|exact Hr]. }
  destruct (ogs_pfcp_xact_get_stage type); auto.
Qed.

(** The list in which a message is looked up. *)
Definition rx_list (type : Z) n : list Z :=
  match ogs_pfcp_xact_get_stage type with INITIAL_STAGE => remote_list n | _ => local_list n end.

(** The lookup in list [o] of node [k] and what follows it. *)
Lemma receive_in P T k type sqn n w o (Q : ogs_rv * option Z → world → Prop) :
  let t := OGS_PFCP_SQN_TO_XID sqn in
  world_ok P T w → nodes w !! k = Some n →
  (xid_in w (list_of o n) t = None → fresh w) →
  (o = REMOTE_ORIGINATOR → ogs_pfcp_xact_get_stage type ≠ FINAL_STAGE) →
  (∀ id x, xid_in w (list_of o n) t = Some id → xacts w !! id = Some x →
     ∀ r w', world_ok P T w' ∧ rx_result id x type w r w' → Q r w') →
  (xid_in w (list_of o n) t = None → ∀ r1 w1, world_ok P T w1 →
     create_result conf REMOTE_ORIGINATOR t k None n (g_xact_id w) w r1 w1 →
     match r1 with
     | Some id => ∀ r w', world_ok P T w' →
         rx_result id (ready_xact conf REMOTE_ORIGINATOR t k None) type w1 r w' → Q r w'
     | None => Q (OGS_ERROR, None) w1
     end) →
  wp (new ← find_xid (list_of o n) t;
    new ← (match new with Some id => mret (Some id) | None => ogs_pfcp_xact_remote_create conf k sqn end);
    match new with
    | None => mret (OGS_ERROR, None)
    | Some id =>
        rv ← ogs_pfcp_xact_update_rx conf id type;
        match rv with
        | OGS_ERROR => ogs_pfcp_xact_delete id;; mret (OGS_ERROR, None)
        | OGS_RETRY => mret (OGS_RETRY, None)
        | _ => mret (rv, Some id)
        end
    end) Q w.
Proof.
  intros t Hok Hn Hfr Hs HSome HNone. apply wp_bind. eapply wp_eq.
  { apply pfcp_find_xid_ok. intros id Hid. destruct (wo_list Hok _ _ _ _ Hn Hid) as (x & Hx & _). by exists x. }
  destruct (xid_in w _ _) as [id|] eqn:E.
  - destruct (pfcp_xid_in_Some _ _ _ _ E) as [Hin (x & Hx & _)].
    destruct (wo_list Hok _ _ _ _ Hn Hin) as (x' & Hx' & Ho & _). simplify_eq.
    apply wp_bind, wp_ret. eapply wp_mono; [eapply pfcp_rx_result_ok; [done|done|naive_solver]|]. by eapply HSome.
  - apply wp_bind. eapply wp_mono; [apply pfcp_remote_create_ok; [done|by apply Hfr|done]|]. intros r1 w1 [Hok1 Hc].
    specialize (HNone eq_refl r1 w1 Hok1 Hc). destruct r1 as [id|]; [|by apply wp_ret].
    eapply wp_mono; [eapply (pfcp_rx_result_ok P T id (ready_xact conf REMOTE_ORIGINATOR t k None));
      [done| |done]|naive_solver].
    unfold create_result in Hc. repeat case_decide; destruct Hc as [[= ->] ->]. apply lookup_insert_eq.
Qed.

Lemma pfcp_receive_ok P T k type sqn n w :
  world_ok P T w → nodes w !! k = Some n →
  (xid_in w (rx_list type n) (OGS_PFCP_SQN_TO_XID sqn) = None → fresh w) →
  wp (ogs_pfcp_xact_receive conf k type sqn) (λ r w',
    world_ok P T w' ∧ receive_result k type sqn n w r w') w.
Proof.
  intros Hok Hn Hf. unfold ogs_pfcp_xact_receive, receive_result. unfold rx_list in Hf.
  apply wp_bind. unfold m_get. eapply wp_eq; [done|]. rewrite Hn. apply wp_bind, wp_some.
  pose proof (λ id w1 r w', receive_new P T k type sqn n w id w1 r w' Hok) as Hnew.
  destruct (ogs_pfcp_xact_get_stage type) eqn:Es; try by destruct (not_intermediate type).
  { apply wp_bind, wp_some, wp_ret. done. }
  1: apply wp_bind, wp_some, (receive_in P T k type sqn n w REMOTE_ORIGINATOR); [done..|congruence| |]; cbn [list_of].
  3: apply wp_bind, wp_some, (receive_in P T k type sqn n w LOCAL_ORIGINATOR); [done..| |]; cbn [list_of].
  1,3: intros id x -> Hx r w' [H1 H2]; split; [done|by exists x].
  all: intros E r1 w1 Hok1 Hc; specialize (Hf E); rewrite E;
    (destruct r1 as [id|]; [|split; [done|by exists None, w1]]); intros r w' Hok' Hr; split; [done|];
    exists (Some id), w1; split; [done|]; exact (proj2 (Hnew id w1 r w' Hf Hn Hc Hr)).
Qed.

(** ** Deletion of everything a node has *)

(** [w'] is [w] without the transactions of [l], a list of node [k]. *)
Definition cleared o (k : nat) n w w' : Prop :=
  nodes w' = <[k := list_upd o (λ _, []) n]> (nodes w) ∧
  (∀ id, xacts w' !! id = if decide (id ∈ list_of o n) then None else xacts w !! id).

Lemma pfcp_delete_each_ok P T o k l n w :
  world_ok P T w → nodes w !! k = Some n → list_of o n = l →
  wp (delete_each l) (λ _ w', world_ok P T w' ∧ cleared o k n w w') w.
Proof.
  revert n w. induction l as [|id l IH]; intros n w Hok Hn Hl.
  { apply wp_ret. split; [done|]. split.
    - rewrite insert_id; [done|]. rewrite Hn. f_equal. destruct o, n; cbn in *; by subst.
    - intros id. rewrite Hl, decide_False by apply not_elem_of_nil. done. }
  pose proof (wo_nodup Hok _ _ o Hn) as Hnd. rewrite Hl in Hnd. apply NoDup_cons in Hnd as [Hid _].
  destruct (wo_list Hok k n o id Hn) as (x & Hx & Ho & Hk); [rewrite Hl; by left|]. subst k o.
  cbn [delete_each]. apply wp_bind. eapply wp_eq; [by apply (pfcp_delete_run _ x n)|].
  set (n2 := list_upd (org x) (filter (.≠ id)) n).
  assert (Hl2 : list_of (org x) n2 = l).
  { unfold n2. rewrite list_of_upd, decide_True by done. rewrite Hl.
    rewrite filter_cons_False by naive_solver. by apply filter_notin. }
  eapply wp_mono; [apply (IH n2); [by apply deleted_ok|cbn; by rewrite lookup_insert_eq|done]|].
  intros _ w' [Hok' [Hno' Hxs']]. split; [done|]. rewrite Hl2 in Hxs'. split.
  - rewrite Hno'. cbn. rewrite insert_insert_eq. unfold n2. by rewrite list_upd_upd.
  - intros id'. rewrite Hxs', Hl. cbn. destruct (decide (id' = id)) as [->|Hne].
    + rewrite lookup_delete_eq, (decide_True (P := id ∈ id :: l)) by left. by case_decide.
    + rewrite lookup_delete_ne by done. apply decide_ext. rewrite elem_of_cons. naive_solver.
Qed.

Lemma pfcp_delete_all_ok P T k n w :
  world_ok P T w → nodes w !! k = Some n →
  wp (ogs_pfcp_xact_delete_all k) (λ _ w',
    world_ok P T w' ∧ nodes w' = <[k := Node [] []]> (nodes w) ∧
    (∀ id, xacts w' !! id = if decide (xnode <$> xacts w !! id = Some k) then None else xacts w !! id)) w.
Proof.
  intros Hok Hn. unfold ogs_pfcp_xact_delete_all. apply wp_bind. unfold m_get. eapply wp_eq; [done|].
  rewrite Hn. apply wp_bind, wp_some, wp_bind. eapply wp_mono; [by apply (pfcp_delete_each_ok P T LOCAL_ORIGINATOR k)|].
  intros _ w1 [Hok1 [Hn1 Hx1]]. apply wp_bind. eapply wp_eq; [done|].
  assert (Hk : nodes w1 !! k = Some (Node [] (remote_list n))) by by rewrite Hn1, lookup_insert_eq.
  rewrite Hk. apply wp_bind, wp_some. eapply wp_mono; [by apply (pfcp_delete_each_ok P T REMOTE_ORIGINATOR k)|].
  intros _ w' [Hok' [Hn' Hx']]. split; [done|]. split.
  - rewrite Hn', Hn1. by rewrite insert_insert_eq.
  - intros id. rewrite Hx', Hx1. cbn [list_of remote_list local_list].
    assert (Hiff : xnode <$> xacts w !! id = Some k ↔ id ∈ remote_list n ∨ id ∈ local_list n).
    { split.
      - destruct (xacts w !! id) as [x|] eqn:Hx; [|done]. intros [= <-].
        destruct (wo_node Hok _ _ Hx) as (n' & Hn0 & Hin). simplify_eq. destruct (org x); auto.
      - intros [Hin|Hin]; [destruct (wo_list Hok k n REMOTE_ORIGINATOR id Hn Hin) as (x & Hx & _ & <-)
          |destruct (wo_list Hok k n LOCAL_ORIGINATOR id Hn Hin) as (x & Hx & _ & <-)]; by rewrite Hx. }
    repeat case_decide; tauto.
Qed.
End ops.
