(* ===== verification/PfcpSpec.v ===== *)
(** * PFCP transactions: the theorems

    Safety of every sequence of operations, the complete exchanges of a
    client and of a server with retransmissions, and the header. *)
From S2P Require Import Prelude Pool XactBase XactInv PfcpXact PfcpInv PfcpOps.
#[local] Open Scope Z_scope.

(** ** The header *)

(** A list of known length, element by element. *)
Ltac destruct_length l :=
  repeat (destruct l as [|? l]; [discriminate|]; try (destruct l; [|discriminate])).

Lemma sqn_length t : length (OGS_PFCP_XID_TO_SQN t) = 4%nat.
Proof. apply be_bytes_length. Qed.
Lemma sqn_xid t : 0 ≤ t < 2 ^ 24 → OGS_PFCP_SQN_TO_XID (OGS_PFCP_XID_TO_SQN t) = t.
Proof.
  intros Ht. unfold OGS_PFCP_SQN_TO_XID, OGS_PFCP_XID_TO_SQN. rewrite be_value_bytes.
  unfold u32. rewrite Z.shiftl_mul_pow2, Z.shiftr_div_pow2 by lia.
  rewrite (Z.mod_small (t * 2 ^ 8)) by lia. rewrite Z.mod_small by lia. by apply Z.div_mul.
Qed.

(** The peer reads from a packet what the sender put into its header: type,
    SEID (0 for the node messages, whose header has none), sequence number and
    payload; and the length field counts the bytes after the first four. *)
Lemma pfcp_header_parsed type seid xid payload :
  0 ≤ type < 256 → 0 ≤ seid < 2 ^ 64 → 0 ≤ xid < 2 ^ 24 → zlen payload + 12 < 2 ^ 16 →
  let pkt := pfcp_header type seid xid (zlen payload) ++ payload in
  pfcp_parse_header pkt =
    Some (type, if OGS_PFCP_SESSION_ESTABLISHMENT_REQUEST_TYPE <=? type then seid else 0,
          OGS_PFCP_XID_TO_SQN xid, payload) ∧
  OGS_PFCP_SQN_TO_XID (OGS_PFCP_XID_TO_SQN xid) = xid ∧
  be_value (take 2 (drop 2 pkt)) = zlen pkt - 4.
Proof.
  intros Ht Hs Hx Hp pkt. unfold pkt, pfcp_header. rewrite (sqn_xid xid Hx).
  pose proof (sqn_length xid) as L4. revert L4. generalize (OGS_PFCP_XID_TO_SQN xid) as sq. intros sq L4.
  destruct_length sq. unfold pfcp_parse_header, OGS_PFCP_HEADER_LEN, OGS_PFCP_SEID_LEN in *.
  destruct (OGS_PFCP_SESSION_ESTABLISHMENT_REQUEST_TYPE <=? type).
  - pose proof (be_value_bytes 2 (16 + zlen payload - 4)) as V2. pose proof (be_bytes_length 2 (16 + zlen payload - 4)) as L2.
    revert V2 L2. generalize (be_bytes 2 (16 + zlen payload - 4)) as l2. intros l2 V2 L2. destruct_length l2.
    pose proof (be_value_bytes 8 seid) as V8. pose proof (be_bytes_length 8 seid) as L8.
    revert V8 L8. generalize (be_bytes 8 seid) as l8. intros l8 V8 L8. destruct_length l8.
    cbn [app lookup list_lookup mbind option_bind]. change (Z.testbit 33 0) with true. cbn iota.
    rewrite !zlen_cons. pose proof (zlen_nonneg payload).
    replace (_ <? 16) with false by (symmetry; lia). change (Z.to_nat 16) with 16%nat. cbn [take drop].
    rewrite V8, V2, !Z.mod_small by lia. split; [done|]. split; [done|lia].
  - pose proof (be_value_bytes 2 (16 - 8 + zlen payload - 4)) as V2.
    pose proof (be_bytes_length 2 (16 - 8 + zlen payload - 4)) as L2.
    revert V2 L2. generalize (be_bytes 2 (16 - 8 + zlen payload - 4)) as l2. intros l2 V2 L2. destruct_length l2.
    cbn [app lookup list_lookup mbind option_bind]. change (Z.testbit 32 0) with false. cbn iota.
    rewrite !zlen_cons. pose proof (zlen_nonneg payload).
    replace (_ <? 16 - 8) with false by (symmetry; lia). change (Z.to_nat (16 - 8)) with 8%nat. cbn [take drop].
    rewrite V2, !Z.mod_small by lia. split; [done|]. split; [done|lia].
Qed.

Section spec.
Context {C : Type}.
Abbreviation world := (XactBase.world (xact (C:=C)) C).
Implicit Types (x : xact (C:=C)) (w : world).
Variable conf : pfcp_conf.

(** ** Sequences of operations *)

(** The operations of the layer, as its users and its timers run them. *)
Inductive action :=
  | LocalCreate (k : nat) (cb : option C)
  | UpdateTx (id type seid : Z) (pkt : list Z)
  | Commit (id : Z)
  | DelayedCommit (id d : Z)
  | Receive (k : nat) (type : Z) (sqn : list Z)
  | ResponseExpiry (id : Z)
  | HoldingExpiry (id : Z)
  | DelayedExpiry (id : Z)
  | Delete (id : Z)
  | DeleteAll (k : nat).

Definition run (a : action) : M world unit :=
  match a with
  | LocalCreate k cb => ogs_pfcp_xact_local_create conf k cb;; mret tt
  | UpdateTx id type seid pkt => ogs_pfcp_xact_update_tx id type seid pkt;; mret tt
  | Commit id => ogs_pfcp_xact_commit conf id;; mret tt
  | DelayedCommit id d => ogs_pfcp_xact_delayed_commit id d
  | Receive k type sqn => ogs_pfcp_xact_receive conf k type sqn;; mret tt
  | ResponseExpiry id => fire_response conf id
  | HoldingExpiry id => fire_holding conf id
  | DelayedExpiry id => fire_delayed conf id
  | Delete id => ogs_pfcp_xact_delete id;; mret tt
  | DeleteAll k => ogs_pfcp_xact_delete_all k
  end.

(** What the layer requires of its callers: transactions and nodes that
    exist, a known message type for a request, something to commit; a timer
    expires only when it is armed. *)
Definition allowed w (a : action) : Prop :=
  match a with
  | LocalCreate k _ | Receive k _ _ => fresh w ∧ is_Some (nodes w !! k)
  | UpdateTx id type _ _ => ∃ x, xacts w !! id = Some x ∧
      (org x = LOCAL_ORIGINATOR → ogs_pfcp_xact_get_stage type ≠ UNKNOWN_STAGE)
  | Commit id => ∃ x, xacts w !! id = Some x ∧ step x ≠ 0%nat
  | DelayedCommit id d => d ≠ 0 ∧ ∃ x, xacts w !! id = Some x ∧ step x ≠ 0%nat
  | ResponseExpiry id => ∃ x d, xacts w !! id = Some x ∧ tm_response x = Some (Armed d)
  | HoldingExpiry id => ∃ x d, xacts w !! id = Some x ∧ tm_holding x = Some (Armed d)
  | DelayedExpiry id => ∃ x d, xacts w !! id = Some x ∧ tm_delayed_commit x = Some (Armed d)
  | Delete id => is_Some (xacts w !! id)
  | DeleteAll k => is_Some (nodes w !! k)
  end.

(** States reached from empty nodes with [P] transactions and [T] timers. *)
Inductive reachable (P T : nat) : world → Prop :=
  | reachable_init g ns :
      map_Forall (λ _ n, n = Node [] []) ns → reachable P T (World ∅ 0 P g ns T [])
  | reachable_step w a w' :
      reachable P T w → allowed w a → run a w = Some (tt, w') → reachable P T w'.

Lemma run_ok P T a w : world_ok P T w → allowed w a → wp (run a) (λ _ w', world_ok P T w') w.
Proof.
  intros Hok. destruct a; cbn [run allowed].
  - intros [Hf [n Hn]]. apply wp_bind. eapply wp_mono; [by eapply local_create_ok|]. intros ?? [? _]. by apply wp_ret.
  - intros (x & Hx & Ht). apply wp_bind. eapply wp_mono; [by eapply update_tx_ok|]. intros ?? [? _]. by apply wp_ret.
  - intros (x & Hx & Hs). apply wp_bind. eapply wp_mono; [by eapply pfcp_commit_ok|]. intros ?? [? _]. by apply wp_ret.
  - intros (Hd & x & Hx & Hs). eapply wp_mono; [by eapply delayed_commit_ok|]. by intros ?? [? _].
  - intros [Hf [n Hn]]. apply wp_bind. eapply wp_mono; [by eapply pfcp_receive_ok|]. intros ?? [? _]. by apply wp_ret.
  - intros (x & d & Hx & Hd). eapply wp_mono; [by eapply pfcp_fire_response_ok|]. by intros ?? [? _].
  - intros (x & d & Hx & Hd). eapply wp_mono; [by eapply pfcp_fire_holding_ok|]. by intros ?? [? _].
  - intros (x & d & Hx & Hd). eapply wp_mono; [eapply fire_delayed_ok; [done|done|]|].
    + by eapply xo_delayed; [eapply wo_xact|].
    + by intros ?? [? _].
  - intros [x Hx]. by eapply pfcp_wp_remove.
  - intros [n Hn]. eapply wp_mono; [by eapply pfcp_delete_all_ok|]. by intros ?? [? _].
Qed.

(** C32: in every state that operations and expiries reach, the invariant
    holds - every transaction is in exactly the list of its node and
    originator, has its three timers and a history that agrees with its step,
    and free plus used slots and timers are constant - and no allowed
    operation aborts: none reads [seq] out of bounds, dereferences NULL or a
    freed transaction, or fails an assertion. *)
Theorem pfcp_xact_safe P T w :
  reachable P T w → world_ok P T w ∧ (∀ a, allowed w a → is_Some (run a w)).
Proof.
  intros Hr. assert (Hok : world_ok P T w).
  { induction Hr as [g ns Hns|w a w' Hr IH Ha Hrun]; [by apply world_init_ok|].
    pose proof (run_ok P T a w IH Ha) as H. unfold wp in H. by rewrite Hrun in H. }
  split; [done|]. intros a Ha. pose proof (run_ok P T a w Hok Ha) as H. unfold wp in H.
  destruct (run a w) as [[[] w']|]; [by eexists|done].
Qed.

(** ** Complete exchanges *)

(** The transaction created last is found when no older one has its id. *)
Lemma pfcp_xid_in_created w id x o n g k t es x' :
  xnode x = k → org x = o → xid x' = t → id ∉ list_of o n → xid_in w (list_of o n) t = None →
  xid_in (put id x' es (created id x n g w)) (list_of o n ++ [id]) t = Some id.
Proof.
  intros <- <- Ht Hid H. unfold xid_in in *. rewrite filter_app.
  assert (E : filter (λ id0, xid <$> xacts (put id x' es (created id x n g w)) !! id0 = Some t) (list_of (org x) n) =
              filter (λ id0, xid <$> xacts w !! id0 = Some t) (list_of (org x) n)).
  { apply filter_iff_in. intros id' Hin. cbn. by rewrite !lookup_insert_ne by (intros ->; done). }
  rewrite E. destruct (filter _ (list_of (org x) n)); [|done].
  rewrite app_nil_l, filter_cons_True; [done|]. cbn [put xacts]. rewrite lookup_insert_eq. cbn. by rewrite Ht.
Qed.

(** A client: a request of node [k] is sent and answered. *)
Definition client_exchange (k : nat) (cb : option C) (type seid : Z) (pkt : list Z) (rtype : Z) :
    M world (Z * ogs_rv * ogs_rv * (ogs_rv * option Z) * ogs_rv) :=
  id ← ogs_pfcp_xact_local_create conf k cb;
  id ← m_some id;
  tx ← ogs_pfcp_xact_update_tx id type seid pkt;
  c1 ← ogs_pfcp_xact_commit conf id;
  x ← xact_get id;
  rx ← ogs_pfcp_xact_receive conf k rtype (OGS_PFCP_XID_TO_SQN (xid x));
  c2 ← ogs_pfcp_xact_commit conf id;
  mret (id, tx, c1, rx, c2).

(** A client's exchange from any consistent state: the request is sent
    once under the next transaction id, the answer is accepted, and the final
    commit frees everything: transactions, lists, slots and timers are as
    before. *)
Theorem pfcp_client_exchange P T w k cb type seid pkt rtype n :
  let t := OGS_NEXT_ID (g_xact_id w) PFCP_MIN_XACT_ID PFCP_MAX_XACT_ID in
  let m := pfcp_header type seid t (zlen pkt) ++ pkt in
  world_ok P T w → fresh w → nodes w !! k = Some n →
  (1 ≤ pool_avail w)%nat → (3 ≤ timers_avail w)%nat → 0 ≤ g_xact_id w ≤ PFCP_MAX_XACT_ID →
  xid_in w (local_list n) t = None →
  ogs_pfcp_xact_get_stage type = INITIAL_STAGE → ogs_pfcp_xact_get_stage rtype = FINAL_STAGE →
  client_exchange k cb type seid pkt rtype w =
    Some ((next_id w, OGS_OK, OGS_OK, (OGS_OK, Some (next_id w)), OGS_OK),
          World (xacts w) (next_id w) (pool_avail w) t (nodes w) (timers_avail w)
            (log w ++ [Sent k m; Freed m])).
Proof.
  intros t m Hok Hf Hn H1 H3 Hg Ht Hi Hr.
  assert (Hrange : 0 ≤ t < 2 ^ 24).
  { unfold t, OGS_NEXT_ID, PFCP_MIN_XACT_ID, PFCP_MAX_XACT_ID in *. case_match; lia. }
  enough (Hwp : wp (client_exchange k cb type seid pkt rtype) (λ r w',
    r = (next_id w, OGS_OK, OGS_OK, (OGS_OK, Some (next_id w)), OGS_OK) ∧
    w' = World (xacts w) (next_id w) (pool_avail w) t (nodes w) (timers_avail w) (log w ++ [Sent k m; Freed m])) w).
  { unfold wp in Hwp. destruct (client_exchange _ _ _ _ _ _ w) as [[r w']|]; [|done]. by destruct Hwp as [-> ->]. }
  unfold client_exchange. apply wp_bind. eapply wp_mono; [by eapply local_create_ok|].
  intros r w1 [Hok1 Hc]. unfold create_result in Hc. rewrite !decide_False in Hc by lia. destruct Hc as [-> ->].
  apply wp_bind, wp_some. set (id := next_id w) in *. set (x := ready_xact conf LOCAL_ORIGINATOR t k cb) in *.
  fold t. set (w1 := created id x n t w) in *.
  apply wp_bind. eapply wp_mono; [apply (update_tx_ok P T id x type seid pkt w1); [done|apply created_at|by rewrite Hi]|].
  intros tx w2 [Hok2 H2]. replace (tx_allowed _ type) with (Some true) in H2
    by (unfold tx_allowed; cbn; by rewrite Hi).
  destruct H2 as [-> ->]. set (x2 := tx_next x type seid pkt) in *.
  assert (Hx2 : ∀ x es, xacts (put id x es w1) !! id = Some x) by (intros; apply lookup_insert_eq).
  apply wp_bind. eapply wp_mono; [by eapply pfcp_commit_ok|]. intros c1 w3 [Hok3 H3'].
  change (commit_class x2) with (Send true) in H3'. destruct H3' as (-> & m' & Hm' & ->).
  assert (m' = m) as -> by by injection Hm' as <-. rewrite put_put in *.
  apply wp_bind. eapply wp_xact_get; [apply Hx2|]. change (xid _) with t.
  set (x3 := with_response _ x2) in *.
  assert (Hnotin : id ∉ list_of LOCAL_ORIGINATOR n).
  { intros Hin. destruct (wo_list Hok k n LOCAL_ORIGINATOR id Hn Hin) as (? & ? & _). unfold fresh, id, next_id in *. congruence. }
  assert (Hfind : xid_in (put id x3 ([] ++ [Sent (xnode x2) m]) w1) (local_list n ++ [id]) t = Some id)
    by by apply (pfcp_xid_in_created w id x LOCAL_ORIGINATOR n t k t).
  apply wp_bind. eapply wp_mono.
  { apply (pfcp_receive_ok conf P T k rtype _ (Node (local_list n ++ [id]) (remote_list n))); [done|apply lookup_insert_eq|].
    unfold rx_list. rewrite Hr, sqn_xid by done. cbn [local_list]. by rewrite Hfind. }
  intros rx w4 [Hok4 H4]. unfold receive_result in H4. rewrite Hr, sqn_xid in H4 by done. cbn [local_list] in H4.
  rewrite Hfind in H4. destruct H4 as (x3' & Hx3' & H4). rewrite Hx2 in Hx3'. injection Hx3' as <-.
  unfold rx_result in H4. replace (rx_class x3 rtype) with RxAccept in H4 by (unfold rx_class; cbn; by rewrite Hr).
  destruct H4 as [-> ->]. rewrite put_put in *.
  apply wp_bind. eapply wp_mono; [by eapply pfcp_commit_ok|]. intros c2 w5 [Hok5 H5].
  change (commit_class _) with Finish in H5. destruct H5 as [-> H5]. apply wp_ret. split; [done|].
  assert (Hx4 : xact_ok (rx_next conf x3 rtype)) by (eapply (wo_xact Hok4), Hx2).
  by rewrite (xact_removed_created P T id x _ n t _ w w5 Hok Hn Hf H1 H3 (pfcp_ready_ok conf _ _ _ _) Hx4 eq_refl eq_refl H5).
Qed.

(** ** Repetition of expiries and duplicates *)

(** The holding timer of [x] runs out [r] times, from any state in which [x]
    was created. *)
Lemma holding_expiries P T id x x' n g es w r :
  world_ok P T w → nodes w !! xnode x = Some n → xacts w !! id = None →
  (1 ≤ pool_avail w)%nat → (3 ≤ timers_avail w)%nat →
  xact_ok x → world_ok P T (put id x' es (created id x n g w)) →
  xnode x' = xnode x → org x' = org x → (∃ d, tm_holding x' = Some (Armed d)) →
  holding_rcount x' = Z.of_nat (S r) → Z.of_nat (S r) < 256 →
  wp (m_repeat (S r) (fire_holding conf id)) (λ _ w',
    w' = World (xacts w) id (pool_avail w) g (nodes w) (timers_avail w)
           (log w ++ es ++ (Freed <$> option_pkts (seq x')))) (put id x' es (created id x n g w)).
Proof.
  intros Hok Hn Hid H1 H3 Hxok Hok1 Hk Ho Hh Hr Hlt.
  set (I := λ (i : nat) w', match i with
    | O => w' = World (xacts w) id (pool_avail w) g (nodes w) (timers_avail w) (log w ++ es ++ (Freed <$> option_pkts (seq x')))
    | S _ => ∃ y, w' = put id y es (created id x n g w) ∧ world_ok P T w' ∧ xnode y = xnode x ∧ org y = org x ∧
        (∃ d, tm_holding y = Some (Armed d)) ∧ holding_rcount y = Z.of_nat i ∧ seq y = seq x'
    end).
  change (wp (m_repeat (S r) (fire_holding conf id)) (λ _ w', I O w') (put id x' es (created id x n g w))).
  apply wp_repeat; [by exists x'|].
  intros i w1 Hi (y & -> & Hoky & Hky & Hoy & (d & Hd) & Hry & Hs).
  assert (Hy : xacts (put id y es (created id x n g w)) !! id = Some y) by apply lookup_insert_eq.
  eapply wp_mono; [by eapply pfcp_fire_holding_ok|]. cbn beta zeta. intros _ w2 [Hok2 H2].
  replace (u8 (holding_rcount y - 1)) with (Z.of_nat i) in H2 by (rewrite Hry, u8_small; lia).
  destruct i as [|i]; cbn [I].
  - change (0 <? Z.of_nat 0) with false in H2. cbn iota in H2. rewrite put_put, app_nil_r in H2.
    set (y' := set_holding_rcount (Z.of_nat 0) (with_holding Idle y)) in *.
    assert (Hoky' : xact_ok y') by (apply pfcp_set_holding_rcount_ok, with_holding_ok; [exact (wo_xact Hoky _ _ Hy)|done]).
    rewrite (xact_removed_created P T id x y' n g es w w2 Hok Hn Hid H1 H3 Hxok Hoky' Hky Hoy H2).
    change (seq y') with (seq y). by rewrite Hs.
  - replace (0 <? Z.of_nat (S i)) with true in H2 by (symmetry; lia). rewrite put_put, app_nil_r in H2.
    eexists. split; [done|]. split; [done|]. split; [done|]. split; [done|]. split; [by eexists|]. done.
Qed.

(** ** A server: a request of node [k] is answered; [d] copies of it follow *)
Definition server_exchange (k : nat) (type : Z) (sqn : list Z) (rtype seid : Z) (pkt : list Z) (d : nat) :
    M world (Z * ogs_rv * ogs_rv) :=
  rx ← ogs_pfcp_xact_receive conf k type sqn;
  id ← m_some (snd rx);
  tx ← ogs_pfcp_xact_update_tx id rtype seid pkt;
  c ← ogs_pfcp_xact_commit conf id;
  m_repeat d (rx ← ogs_pfcp_xact_receive conf k type sqn;
              m_assert (bool_decide (rx = (OGS_RETRY, None))));;
  m_repeat (Z.to_nat (n1_holding_rcount conf)) (fire_holding conf id);;
  mret (id, tx, c).

Lemma duplicates P T k type sqn n id x m d w w1 es :
  w1 = put id x es w → world_ok P T w1 → nodes w !! k = Some n → xnode x = k →
  ogs_pfcp_xact_get_stage type = INITIAL_STAGE →
  (∀ es, xid_in (put id x es w) (remote_list n) (OGS_PFCP_SQN_TO_XID sqn) = Some id) →
  rx_class x type = RxDuplicate (Some m) →
  with_holding (Armed (t1_holding_duration conf)) x = x →
  wp (m_repeat d (rx ← ogs_pfcp_xact_receive conf k type sqn;
              m_assert (bool_decide (rx = (OGS_RETRY, None)))))
    (λ _ w', world_ok P T w' ∧ w' = put id x (es ++ replicate d (Sent k m)) w) w1.
Proof.
  intros -> Hok Hn Hk Hi Hx Hdup Hsame.
  set (I := λ (i : nat) w', world_ok P T w' ∧ w' = put id x (es ++ replicate (d - i) (Sent k m)) w).
  eapply wp_mono; [apply (wp_repeat _ d I)|]; unfold I.
  - rewrite Nat.sub_diag, app_nil_r. done.
  - intros i w1 Hi' [Hok1 ->]. apply wp_bind. eapply wp_mono.
    { eapply pfcp_receive_ok; [done|done|]. unfold rx_list. by rewrite Hi, Hx. }
    cbn beta. intros r w2 [Hok2 H2]. unfold receive_result in H2. rewrite Hi, Hx in H2.
    destruct H2 as (x0 & Hx0 & H2). cbn in Hx0. rewrite lookup_insert_eq in Hx0. injection Hx0 as <-.
    unfold rx_result in H2. rewrite Hdup in H2. destruct H2 as [-> ->]. apply wp_assert; [done|]. split; [done|].
    rewrite Hsame, Hk, put_put. f_equal. rewrite <- app_assoc. f_equal.
    replace (d - i)%nat with (S (d - S i))%nat by lia. by rewrite replicate_S_end.
  - intros ? w2. by rewrite Nat.sub_0_r.
Qed.

(** A server's exchange from any consistent state: a request is answered;
    each of [d] further copies of it is reported as [OGS_RETRY] and answered
    with the same stored bytes, without a second transaction; when the holding
    timer has run out as often as configured the transaction is gone and
    every resource is back. *)
Theorem pfcp_server_exchange P T w k type sqn rtype seid pkt d n :
  let t := OGS_PFCP_SQN_TO_XID sqn in
  let m := pfcp_header rtype seid t (zlen pkt) ++ pkt in
  world_ok P T w → fresh w → nodes w !! k = Some n →
  (1 ≤ pool_avail w)%nat → (3 ≤ timers_avail w)%nat → 1 ≤ n1_holding_rcount conf < 256 →
  xid_in w (remote_list n) t = None →
  ogs_pfcp_xact_get_stage type = INITIAL_STAGE → ogs_pfcp_xact_get_stage rtype = FINAL_STAGE →
  server_exchange k type sqn rtype seid pkt d w =
    Some ((next_id w, OGS_OK, OGS_OK),
          World (xacts w) (next_id w) (pool_avail w) (g_xact_id w) (nodes w) (timers_avail w)
            (log w ++ replicate (S d) (Sent k m) ++ [Freed m])).
Proof.
  intros t m Hok Hf Hn H1 H3 Hrc Ht Hi Hr.
  enough (Hwp : wp (server_exchange k type sqn rtype seid pkt d) (λ r w',
    r = (next_id w, OGS_OK, OGS_OK) ∧
    w' = World (xacts w) (next_id w) (pool_avail w) (g_xact_id w) (nodes w) (timers_avail w)
           (log w ++ replicate (S d) (Sent k m) ++ [Freed m])) w).
  { unfold wp in Hwp. destruct (server_exchange _ _ _ _ _ _ _ w) as [[r w']|]; [|done]. by destruct Hwp as [-> ->]. }
  unfold server_exchange. apply wp_bind. eapply wp_mono; [by eapply pfcp_receive_ok|]. cbn beta.
  intros r w1 [Hok1 H]. unfold receive_result in H. rewrite Hi in H. fold t in H. rewrite Ht in H.
  destruct H as (r1 & w0 & Hc & H). unfold create_result in Hc. rewrite !decide_False in Hc by lia.
  destruct Hc as [-> ->]. destruct H as [-> ->].
  set (id := next_id w) in *. set (x := ready_xact conf REMOTE_ORIGINATOR t k None) in *.
  set (w0 := created id x n (g_xact_id w) w) in *. set (x1 := rx_next conf x type) in *.
  assert (Hx : ∀ x es, xacts (put id x es w0) !! id = Some x) by (intros; apply lookup_insert_eq).
  cbn [snd]. apply wp_bind, wp_some, wp_bind.
  eapply wp_mono; [apply (update_tx_ok P T id x1 rtype seid pkt); [done|apply Hx|by rewrite Hr]|]. cbn beta.
  replace (tx_allowed x1 rtype) with (Some true) by (unfold tx_allowed; cbn; by rewrite Hr).
  intros tx w2 (Hok2 & -> & ->). rewrite put_put in *. cbn [app] in *. set (x2 := tx_next x1 rtype seid pkt) in *.
  apply wp_bind. eapply wp_mono; [by eapply pfcp_commit_ok|]. cbn beta. intros c w3 [Hok3 H].
  change (commit_class x2) with (Send false) in H. destruct H as (-> & m' & Hm' & ->).
  assert (m' = m) as -> by by injection Hm' as <-. rewrite put_put in *. change (xnode x2) with k in *. cbn [app] in *.
  assert (Hnotin : id ∉ list_of REMOTE_ORIGINATOR n).
  { intros Hin. destruct (wo_list Hok k n REMOTE_ORIGINATOR id Hn Hin) as (? & ? & _).
    unfold fresh, id, next_id in *. congruence. }
  apply wp_bind. eapply wp_mono.
  { apply (duplicates P T k type sqn (Node (local_list n) (remote_list n ++ [id])) id x2 m d w0 _ [Sent k m]); try done.
    - apply lookup_insert_eq.
    - intros es. by apply (pfcp_xid_in_created w id x REMOTE_ORIGINATOR n _ k).
    - unfold rx_class. cbn. by rewrite Hi, Z.eqb_refl. }
  cbn beta. intros _ w4 [Hok4 ->].
  apply wp_bind. destruct (Z.to_nat (n1_holding_rcount conf)) as [|r] eqn:Er; [lia|].
  eapply wp_mono; [eapply (holding_expiries P T id x x2 n (g_xact_id w) _ w r); try done; try apply pfcp_ready_ok|].
  - by eexists.
  - cbn. lia.
  - lia.
  - intros ? w5 ->. apply wp_ret. split; [done|]. by rewrite <- !app_assoc.
Qed.

(** The response timer of [x] runs out [r] times. *)
Lemma response_expiries P T id x x' n g es w r m :
  world_ok P T w → nodes w !! xnode x = Some n → xacts w !! id = None →
  (1 ≤ pool_avail w)%nat → (3 ≤ timers_avail w)%nat →
  xact_ok x → world_ok P T (put id x' es (created id x n g w)) →
  xnode x' = xnode x → org x' = org x → (∃ d, tm_response x' = Some (Armed d)) →
  response_rcount x' = Z.of_nat (S r) → Z.of_nat (S r) < 256 → last_pkt x' = Some m →
  wp (m_repeat (S r) (fire_response conf id)) (λ _ w',
    w' = World (xacts w) id (pool_avail w) g (nodes w) (timers_avail w)
           (log w ++ es ++ replicate r (Sent (xnode x) m) ++ called id x' ++ (Freed <$> option_pkts (seq x'))))
    (put id x' es (created id x n g w)).
Proof.
  intros Hok Hn Hid H1 H3 Hxok Hok1 Hk Ho Hh Hr Hlt Hm.
  set (I := λ (i : nat) w', match i with
    | O => w' = World (xacts w) id (pool_avail w) g (nodes w) (timers_avail w)
        (log w ++ es ++ replicate r (Sent (xnode x) m) ++ called id x' ++ (Freed <$> option_pkts (seq x')))
    | S i => ∃ y, w' = put id y (es ++ replicate (r - i) (Sent (xnode x) m)) (created id x n g w) ∧
        world_ok P T w' ∧ xnode y = xnode x ∧ org y = org x ∧ (∃ d, tm_response y = Some (Armed d)) ∧
        response_rcount y = Z.of_nat (S i) ∧ seq y = seq x' ∧ step y = step x' ∧ xcb y = xcb x'
    end).
  change (wp (m_repeat (S r) (fire_response conf id)) (λ _ w', I O w') (put id x' es (created id x n g w))).
  apply wp_repeat; [exists x'; by rewrite Nat.sub_diag, app_nil_r|].
  intros i w1 Hi (y & -> & Hoky & Hky & Hoy & (d & Hd) & Hry & Hs & Hst & Hcb).
  set (es1 := es ++ _) in *.
  assert (Hy : xacts (put id y es1 (created id x n g w)) !! id = Some y) by apply lookup_insert_eq.
  assert (Hmy : last_pkt y = Some m) by (unfold last_pkt in *; by rewrite Hst, Hs).
  eapply wp_mono; [by eapply pfcp_fire_response_ok|]. cbn beta zeta. intros _ w2 [Hok2 H2].
  replace (u8 (response_rcount y - 1)) with (Z.of_nat i) in H2 by (rewrite Hry, u8_small; lia).
  destruct i as [|i]; cbn [I].
  - change (0 <? Z.of_nat 0) with false in H2. cbn iota in H2. rewrite put_put in H2.
    set (y' := set_response_rcount (Z.of_nat 0) (with_response Idle y)) in *.
    assert (Hoky' : xact_ok y') by (apply pfcp_set_response_rcount_ok, pfcp_idle_response_ok; exact (wo_xact Hoky _ _ Hy)).
    rewrite (xact_removed_created P T id x y' n g _ w w2 Hok Hn Hid H1 H3 Hxok Hoky' Hky Hoy H2).
    change (seq y') with (seq y). rewrite Hs. unfold es1, called. rewrite Hcb, Nat.sub_0_r. f_equal.
    by rewrite <- !app_assoc.
  - replace (0 <? Z.of_nat (S i)) with true in H2 by (symmetry; lia). destruct H2 as (m' & Hm' & ->).
    rewrite Hmy in Hm'. injection Hm' as <-. rewrite put_put in *.
    exists (set_response_rcount (Z.of_nat (S i)) (with_response (Armed (t1_response_duration conf)) y)).
    split; [|split; [done|split; [done|split; [done|split; [by exists (t1_response_duration conf)|done]]]]].
    unfold es1. rewrite Hky, <- app_assoc. repeat f_equal.
    replace (r - i)%nat with (S (r - S i))%nat by lia. by rewrite replicate_S_end.
Qed.

(** ** A client whose peer does not answer *)
Definition client_unanswered (k : nat) (cb : option C) (type seid : Z) (pkt : list Z) : M world Z :=
  id ← ogs_pfcp_xact_local_create conf k cb;
  id ← m_some id;
  ogs_pfcp_xact_update_tx id type seid pkt;;
  ogs_pfcp_xact_commit conf id;;
  m_repeat (Z.to_nat (n1_response_rcount conf)) (fire_response conf id);;
  mret id.

(** A request nobody answers is sent exactly [n1_response_rcount] times
    in all; then the owner's callback runs once, the transaction is deleted
    and every resource is back. *)
Theorem pfcp_client_unanswered P T w k cb type seid pkt n :
  let t := OGS_NEXT_ID (g_xact_id w) PFCP_MIN_XACT_ID PFCP_MAX_XACT_ID in
  let m := pfcp_header type seid t (zlen pkt) ++ pkt in
  world_ok P T w → fresh w → nodes w !! k = Some n →
  (1 ≤ pool_avail w)%nat → (3 ≤ timers_avail w)%nat → 1 ≤ n1_response_rcount conf < 256 →
  ogs_pfcp_xact_get_stage type = INITIAL_STAGE →
  client_unanswered k cb type seid pkt w =
    Some (next_id w,
          World (xacts w) (next_id w) (pool_avail w) t (nodes w) (timers_avail w)
            (log w ++ replicate (Z.to_nat (n1_response_rcount conf)) (Sent k m) ++
             match cb with Some c => [Called (next_id w) c] | None => [] end ++ [Freed m])).
Proof.
  intros t m Hok Hf Hn H1 H3 Hrc Hi.
  enough (Hwp : wp (client_unanswered k cb type seid pkt) (λ r w', r = next_id w ∧
    w' = World (xacts w) (next_id w) (pool_avail w) t (nodes w) (timers_avail w)
           (log w ++ replicate (Z.to_nat (n1_response_rcount conf)) (Sent k m) ++
             match cb with Some c => [Called (next_id w) c] | None => [] end ++ [Freed m])) w).
  { unfold wp in Hwp. destruct (client_unanswered _ _ _ _ _ w) as [[r w']|]; [|done]. by destruct Hwp as [-> ->]. }
  unfold client_unanswered. apply wp_bind. eapply wp_mono; [by eapply local_create_ok|].
  intros r w1 [Hok1 Hc]. unfold create_result in Hc. rewrite !decide_False in Hc by lia. destruct Hc as [-> ->].
  apply wp_bind, wp_some. set (id := next_id w) in *. set (x := ready_xact conf LOCAL_ORIGINATOR t k cb) in *.
  fold t. set (w1 := created id x n t w) in *.
  apply wp_bind. eapply wp_mono; [apply (update_tx_ok P T id x type seid pkt w1); [done|apply created_at|by rewrite Hi]|].
  cbn beta. replace (tx_allowed x type) with (Some true) by (unfold tx_allowed; cbn; by rewrite Hi).
  intros ? w2 (Hok2 & _ & ->). set (x2 := tx_next x type seid pkt) in *.
  assert (Hx2 : ∀ x es, xacts (put id x es w1) !! id = Some x) by (intros; apply lookup_insert_eq).
  apply wp_bind. eapply wp_mono; [by eapply pfcp_commit_ok|]. intros ? w3 [Hok3 H3'].
  change (commit_class x2) with (Send true) in H3'. destruct H3' as (_ & m' & Hm' & ->).
  assert (m' = m) as -> by by injection Hm' as <-. rewrite put_put in *. set (x3 := with_response _ x2) in *.
  apply wp_bind. destruct (Z.to_nat (n1_response_rcount conf)) as [|r] eqn:Er; [lia|].
  eapply wp_mono; [eapply (response_expiries P T id x x3 n t _ w r m); try done; try apply pfcp_ready_ok|].
  - by eexists.
  - cbn. lia.
  - lia.
  - intros ? w5 ->. by apply wp_ret.
Qed.

(** C34: what [ogs_pfcp_xact_receive] does with any message on every branch: an
    unknown type is an error that changes nothing; a request or response that
    belongs to a transaction of its list is accepted, recognised as a
    duplicate (and its stored reply sent again) or an error that deletes the
    transaction; a new request creates a transaction; a response without
    transaction is an error that leaves only a used id. *)
Theorem pfcp_receive_correct P T k type sqn n w :
  world_ok P T w → nodes w !! k = Some n →
  (xid_in w (rx_list type n) (OGS_PFCP_SQN_TO_XID sqn) = None → fresh w) →
  ∃ r w', ogs_pfcp_xact_receive conf k type sqn w = Some (r, w') ∧
    world_ok P T w' ∧ receive_result conf k type sqn n w r w'.
Proof. intros Hok Hn Hf. apply (proj1 (wp_run _ _ _)). by apply pfcp_receive_ok. Qed.
End spec.

(** ** Concrete runs *)

Definition conf0 : pfcp_conf := Conf 3 2500 4 10000.
Definition world0 : XactBase.world (xact (C:=nat)) nat := World ∅ 0 4 0 {[0%nat := Node [] []]} 12 [].
Lemma world0_ok : world_ok 4 12 world0.
Proof. apply world_init_ok. by apply map_Forall_singleton. Qed.

(** A world with one request under way. *)
Definition world1 : XactBase.world (xact (C:=nat)) nat :=
  match run conf0 (LocalCreate 0 (Some 7%nat)) world0 with Some (_, w) => w | None => world0 end.

Lemma pfcp_xact_safe_witness :
  ∃ w, run conf0 (LocalCreate 0 (Some 7%nat)) world0 = Some (tt, w) ∧
    world_ok 4 12 w ∧ is_Some (run conf0 (UpdateTx 1 1 0 [9]) w).
Proof.
  exists world1. split; [by vm_compute|].
  assert (Hr : reachable conf0 4 12 world1).
  { eapply (reachable_step conf0 4 12 world0 (LocalCreate 0 (Some 7%nat))).
    - apply reachable_init. by apply map_Forall_singleton.
    - split; [by vm_compute|]. by eexists.
    - by vm_compute. }
  destruct (pfcp_xact_safe conf0 4 12 world1 Hr) as [H1 H2]. split; [done|]. apply H2.
  eexists. split; [by vm_compute|]. done.
Defined.

Lemma pfcp_client_exchange_witness :
  client_exchange conf0 0 (Some 7%nat) 5 0 [9; 9] 6 world0 =
    Some ((1, OGS_OK, OGS_OK, (OGS_OK, Some 1), OGS_OK),
      World ∅ 1 4 1 {[0%nat := Node [] []]} 12
        [Sent 0 [32; 5; 0; 6; 0; 0; 1; 0; 9; 9]; Freed [32; 5; 0; 6; 0; 0; 1; 0; 9; 9]]).
Proof.
  exact (pfcp_client_exchange conf0 4 12 world0 0 (Some 7%nat) 5 0 [9; 9] 6 (Node [] [])
    world0_ok eq_refl eq_refl ltac:(cbn; lia) ltac:(cbn; lia) ltac:(done) eq_refl eq_refl eq_refl).
Defined.

Lemma pfcp_server_exchange_witness :
  server_exchange conf0 0 1 [0; 0; 7; 0] 2 0 [9] 2 world0 =
    Some ((1, OGS_OK, OGS_OK), World ∅ 1 4 0 {[0%nat := Node [] []]} 12
      (replicate 3 (Sent 0 [32; 2; 0; 5; 0; 0; 7; 0; 9]) ++ [Freed [32; 2; 0; 5; 0; 0; 7; 0; 9]])).
Proof.
  exact (pfcp_server_exchange conf0 4 12 world0 0 1 [0; 0; 7; 0] 2 0 [9] 2 (Node [] [])
    world0_ok eq_refl eq_refl ltac:(cbn; lia) ltac:(cbn; lia) ltac:(done) eq_refl eq_refl eq_refl).
Defined.

Lemma pfcp_client_unanswered_witness :
  client_unanswered conf0 0 (Some 7%nat) 50 5 [] world0 =
    Some (1, World ∅ 1 4 1 {[0%nat := Node [] []]} 12
      (replicate 3 (Sent 0 [33; 50; 0; 12; 0; 0; 0; 0; 0; 0; 0; 5; 0; 0; 1; 0]) ++
       [Called 1 7%nat; Freed [33; 50; 0; 12; 0; 0; 0; 0; 0; 0; 0; 5; 0; 0; 1; 0]])).
Proof.
  exact (pfcp_client_unanswered conf0 4 12 world0 0 (Some 7%nat) 50 5 [] (Node [] [])
    world0_ok eq_refl eq_refl ltac:(cbn; lia) ltac:(cbn; lia) ltac:(done) eq_refl).
Defined.

Lemma pfcp_receive_correct_witness :
  ∃ r w', ogs_pfcp_xact_receive conf0 0 2 [0; 0; 7; 0] world0 = Some (r, w') ∧ r = (OGS_ERROR, None).
Proof.
  destruct (pfcp_receive_correct conf0 4 12 0 2 [0; 0; 7; 0] (Node [] []) world0 world0_ok eq_refl)
    as (r & w' & E & _ & H).
  - by vm_compute.
  - exists r, w'. split; [done|]. destruct H as (r1 & w1 & Hc & H). unfold create_result in Hc. cbn in Hc.
    destruct Hc as [-> ->]. apply H.
Defined.
