(* ===== verification/PfcpExpiry.v ===== *)
(** * PFCP transactions when only time passes

    The timers are all that moves a transaction on which nothing is received
    and nothing done.  Each expiry lowers a measure of the state, so that time
    alone brings the layer to rest. *)
From S2P Require Import Prelude Pool XactBase XactInv PfcpXact PfcpInv PfcpOps PfcpSpec.
From stdpp Require Import relations.
#[local] Open Scope Z_scope.

Section expiry.
Context {C : Type} (conf : pfcp_conf).
Abbreviation xact := (PfcpXact.xact (C:=C)).
Abbreviation world := (XactBase.world xact C).
Implicit Types (x : xact) (w : world).

(** The expiry of an armed timer, whichever it is. *)
Definition is_expiry (a : action (C:=C)) : Prop :=
  match a with ResponseExpiry _ | HoldingExpiry _ | DelayedExpiry _ => True | _ => False end.
Definition expires w w' : Prop := ∃ a, is_expiry a ∧ allowed w a ∧ run conf a w = Some (tt, w').

Definition armed (t : option tm) : bool := match t with Some (Armed _) => true | _ => false end.
(** A transaction that waits for an answer or for duplicates. *)
Definition waits x : Prop := armed (tm_response x) = true ∨ armed (tm_holding x) = true.
Definition quiet w : Prop :=
  map_Forall (λ _ x, armed (tm_response x) = false ∧ armed (tm_holding x) = false ∧ armed (tm_delayed_commit x) = false) (xacts w).

(** How often a counter of 8 bits that is decremented first goes round. *)
Definition rounds (r : Z) : nat := if u8 r =? 0 then 256 else Z.to_nat (u8 r).
Definition when (b : bool) (n : nat) : nat := if b then n else 0%nat.
Definition remaining x : nat :=
  when (armed (tm_response x)) (rounds (response_rcount x)) + when (armed (tm_holding x)) (rounds (holding_rcount x))
  + when (armed (tm_delayed_commit x)) 257.
Definition measure w : nat := timers_of remaining (xacts w).

Lemma rounds_range r : (1 ≤ rounds r ≤ 256)%nat.
Proof. unfold rounds, u8. destruct (Z.eqb_spec (r mod 2 ^ 8) 0); [lia|]. pose proof (Z.mod_pos_bound r (2 ^ 8)). lia. Qed.
Lemma rounds_decrease r : 0 < u8 (r - 1) → (rounds (u8 (r - 1)) < rounds r)%nat.
Proof.
  intros H. unfold rounds in *. assert (E : u8 (u8 (r - 1)) = u8 (r - 1)) by (apply Z.mod_mod; lia).
  rewrite E, (proj2 (Z.eqb_neq _ 0)) by lia. unfold u8 in *. destruct (Z.eqb_spec (r mod 2 ^ 8) 0) as [E0|E0].
  - pose proof (Z.mod_pos_bound (r - 1) (2 ^ 8)). lia.
  - pose proof (Z.mod_pos_bound r (2 ^ 8) ltac:(lia)). rewrite Zminus_mod, (Z.mod_small 1), Z.mod_small by lia. lia.
Qed.

Lemma armed_spec t : armed t = true ↔ ∃ d, t = Some (Armed d).
Proof. destruct t as [[|d]|]; cbn; naive_solver. Qed.

Lemma measure_put id x x' es w :
  xacts w !! id = Some x → (remaining x' < remaining x)%nat → (measure (put id x' es w) < measure w)%nat.
Proof.
  intros Hx Hlt. unfold measure. cbn [put xacts]. rewrite <- insert_delete_eq, timers_of_insert by apply lookup_delete_eq.
  rewrite (timers_of_delete _ (xacts w) id x) by done. lia.
Qed.
Lemma measure_removed id x x' es w w' :
  xacts w !! id = Some x → (0 < remaining x)%nat → removed id x' (put id x' es w) w' → (measure w' < measure w)%nat.
Proof.
  intros Hx Hpos (n & _ & ->). unfold measure. cbn [XactInv.deleted put xacts]. rewrite delete_insert_eq.
  rewrite (timers_of_delete _ (xacts w) id x) by done. lia.
Qed.

(** What an expiry does to the measure and to every transaction. *)
Definition moves_on w w' : Prop :=
  (measure w' < measure w)%nat ∧
  (∀ id, xacts w !! id = None → xacts w' !! id = None) ∧
  (∀ id x, xacts w !! id = Some x → waits x → xacts w' !! id = None ∨ ∃ x', xacts w' !! id = Some x' ∧ waits x').

Lemma put_moves_on id x x' es w :
  xacts w !! id = Some x → (remaining x' < remaining x)%nat → (waits x → waits x') → moves_on w (put id x' es w).
Proof.
  intros Hx Hlt Hw. split; [by eapply measure_put|]. cbn [put xacts]. split.
  - intros i Hi. rewrite lookup_insert_ne; [done|]. intros <-. congruence.
  - intros i y Hi Hy. right. destruct (decide (id = i)) as [<-|Hne].
    + rewrite lookup_insert_eq. simplify_eq. eauto.
    + rewrite lookup_insert_ne by done. eauto.
Qed.
Lemma removed_moves_on id x x' es w w' :
  xacts w !! id = Some x → (0 < remaining x)%nat → removed id x' (put id x' es w) w' → moves_on w w'.
Proof.
  intros Hx Hpos Hr. split; [by eapply measure_removed|]. destruct Hr as (n & _ & ->). cbn [XactInv.deleted put xacts].
  rewrite delete_insert_eq. split.
  - intros i Hi. destruct (decide (id = i)) as [<-|Hne]; [apply lookup_delete_eq|by rewrite lookup_delete_ne].
  - intros i y Hi Hy. destruct (decide (id = i)) as [<-|Hne]; [left; apply lookup_delete_eq|].
    right. rewrite lookup_delete_ne by done. eauto.
Qed.

Lemma expiry_moves_on P T a w :
  world_ok P T w → is_expiry a → allowed w a → wp (run conf a) (λ _ w', world_ok P T w' ∧ moves_on w w') w.
Proof.
  intros Hok. destruct a as [| | | | |id|id|id| |]; try done; intros _ (x & d & Hx & Hd); cbn [run];
    (assert (Ha : armed (Some (Armed d)) = true) by done); pose proof (rounds_range (response_rcount x)).
  - eapply wp_mono; [by eapply pfcp_fire_response_ok|]. intros _ w' [Hok' H']. split; [done|].
    destruct (Z.ltb_spec 0 (u8 (response_rcount x - 1))) as [Hr|Hr].
    + destruct H' as (pkt & _ & ->). eapply put_moves_on; [done| |by left].
      unfold remaining. cbn. rewrite Hd. cbn. pose proof (rounds_decrease _ Hr). lia.
    + eapply removed_moves_on; [done| |done]. unfold remaining. rewrite Hd. cbn. lia.
  - eapply wp_mono; [by eapply pfcp_fire_holding_ok|]. intros _ w' [Hok' H']. split; [done|].
    pose proof (rounds_range (holding_rcount x)). destruct (Z.ltb_spec 0 (u8 (holding_rcount x - 1))) as [Hr|Hr].
    + subst w'. eapply put_moves_on; [done| |by right].
      unfold remaining. cbn. rewrite Hd. cbn. pose proof (rounds_decrease _ Hr). lia.
    + eapply removed_moves_on; [done| |done]. unfold remaining. rewrite Hd. cbn. lia.
  - eapply wp_mono; [eapply fire_delayed_ok; [done|done|]|].
    { by eapply xo_delayed; [eapply wo_xact|]. }
    intros _ w' [Hok' H']. split; [done|].
    assert (Hpos : (257 ≤ remaining x)%nat) by (unfold remaining; rewrite Hd; cbn; lia).
    destruct (commit_class x) as [| |start]; [by eapply removed_moves_on; [done|lia|]..|].
    destruct H' as (pkt & _ & ->). eapply put_moves_on; [done| |].
    + unfold remaining in *. destruct start; cbn in *; rewrite Hd in *; cbn in *; lia.
    + unfold waits. destruct start; cbn; [by left|done].
Qed.

Lemma expires_ok P T w w' : world_ok P T w → expires w w' → world_ok P T w' ∧ moves_on w w'.
Proof.
  intros Hok (a & He & Ha & Hrun). pose proof (expiry_moves_on P T a w Hok He Ha) as H. unfold wp in H. by rewrite Hrun in H.
Qed.
Lemma quiet_or_expires P T w : world_ok P T w → quiet w ∨ ∃ w', expires w w'.
Proof.
  intros Hok. destruct (decide (map_Forall (λ _ x, armed (tm_response x) = false ∧ armed (tm_holding x) = false ∧
    armed (tm_delayed_commit x) = false) (xacts w))) as [Hq|Hq]; [by left|]. right.
  apply map_not_Forall in Hq as (id & x & Hx & Hn); [|apply _].
  assert (Ha : ∃ a, is_expiry a ∧ allowed w a).
  { destruct (armed (tm_response x)) eqn:E1; [|destruct (armed (tm_holding x)) eqn:E2; [|destruct (armed (tm_delayed_commit x)) eqn:E3]].
    - apply armed_spec in E1 as [d E1]. exists (ResponseExpiry id). split; [done|]. cbn. eauto.
    - apply armed_spec in E2 as [d E2]. exists (HoldingExpiry id). split; [done|]. cbn. eauto.
    - apply armed_spec in E3 as [d E3]. exists (DelayedExpiry id). split; [done|]. cbn. eauto.
    - by destruct Hn. }
  destruct Ha as (a & He & Ha). pose proof (expiry_moves_on P T a w Hok He Ha) as H. unfold wp in H.
  destruct (run conf a w) as [[[] w']|] eqn:E; [|done]. by exists w', a.
Qed.

(** C9: when nothing is received and no operation is called, the transaction
    layer comes to rest: from a consistent state no more expiries can follow one
    another than [measure] counts, in whatever order the timers run; in every
    state on the way either nothing is armed or a next expiry does not abort; and
    at rest every transaction that was waiting for an answer or for duplicates
    has been deleted. *)
Theorem pfcp_expiries_terminate P T w :
  world_ok P T w →
  (∀ n w', nsteps expires n w w' → (n ≤ measure w)%nat) ∧
  (∀ w', rtc expires w w' → world_ok P T w' ∧ (quiet w' ∨ ∃ w'', expires w' w'') ∧
    (quiet w' → ∀ id x, xacts w !! id = Some x → waits x → xacts w' !! id = None)).
Proof.
  intros Hok. split.
  - intros n w' Hn. revert Hok. induction Hn as [w|n w1 w2 w3 Hs _ IH]; intros Hok; [lia|].
    destruct (expires_ok P T _ _ Hok Hs) as [Hok' [Hm _]]. specialize (IH Hok'). lia.
  - intros w' Hr. assert (H : world_ok P T w' ∧ (∀ id, xacts w !! id = None → xacts w' !! id = None) ∧
      (∀ id x, xacts w !! id = Some x → waits x → xacts w' !! id = None ∨ ∃ x', xacts w' !! id = Some x' ∧ waits x')).
    { revert Hok. induction Hr as [w|w1 w2 w3 Hs _ IH]; intros Hok; [split_and!; [done|done|by eauto]|].
      destruct (expires_ok P T _ _ Hok Hs) as [Hok' (_ & Hn & Hw)]. destruct (IH Hok') as (Hok3 & Hn3 & Hw3).
      split_and!; [done|by auto|]. intros id x Hx Hwx. destruct (Hw id x Hx Hwx) as [E|(x' & E & Hx')]; eauto. }
    destruct H as (Hok' & _ & Hw). split; [done|]. split; [by eapply quiet_or_expires|].
    intros Hq id x Hx Hwx. destruct (Hw id x Hx Hwx) as [E|(x' & E & Hx')]; [done|].
    destruct (Hq id x' E) as (E1 & E2 & _). destruct Hx'; congruence.
Qed.
End expiry.

(** A world in which one request waits for its answer. *)
Definition run_from (w : XactBase.world (xact (C:=nat)) nat) (a : action) : XactBase.world (xact (C:=nat)) nat :=
  match run conf0 a w with Some (_, w') => w' | None => w end.
Definition waiting_world : XactBase.world (xact (C:=nat)) nat :=
  run_from (run_from world1 (UpdateTx 1 1 0 [9])) (Commit 1).
Lemma waiting_world_ok : world_ok 4 12 waiting_world.
Proof.
  assert (Hstep : ∀ w a, world_ok 4 12 w → allowed w a → world_ok 4 12 (run_from w a)).
  { intros w a Hok Ha. pose proof (run_ok conf0 4 12 a w Hok Ha) as H. unfold wp, run_from in *. by destruct (run conf0 a w) as [[[] ?]|]. }
  apply Hstep; [apply Hstep; [apply (Hstep world0 (LocalCreate 0 (Some 7%nat))); [apply world0_ok|]|]|].
  - split; [by vm_compute|]. by eexists.
  - eexists. split; [by vm_compute|]. done.
  - eexists. split; [by vm_compute|]. done.
Qed.

(** It takes three expiries. *)
Example waiting_world_ends :
  measure waiting_world = 3%nat ∧
  xacts (run_from (run_from (run_from waiting_world (ResponseExpiry 1)) (ResponseExpiry 1)) (ResponseExpiry 1)) = ∅.
Proof. by vm_compute. Qed.

Lemma pfcp_expiries_terminate_witness :
  (∀ n w', nsteps (expires conf0) n waiting_world w' → (n ≤ 3)%nat) ∧
  (∀ w', rtc (expires conf0) waiting_world w' → quiet w' → xacts w' !! 1 = None).
Proof.
  destruct (pfcp_expiries_terminate conf0 4 12 waiting_world waiting_world_ok) as [H1 H2]. split; [exact H1|].
  intros w' Hr Hq. destruct (H2 w' Hr) as (_ & _ & H).
  destruct (xacts waiting_world !! 1) as [x|] eqn:E; [|by vm_compute in E]. apply (H Hq 1 x E).
  left. vm_compute in E. by injection E as <-.
Defined.
