(* ===== verification/PfcpNet.v ===== *)
(** * Two PFCP endpoints and the network between them

    The control plane and the user plane, each with the transaction layer of
    PfcpXact.v, the senders and the receiver of lib/pfcp/path.c and the checks
    that a message passes before it reaches the layer (pfcp_recv_cb), over UDP:
    a datagram that was sent may arrive any number of times, in any order, or
    never.  Both sides send requests and answer them.  Beside the system, the
    automaton of one exchange, which says what the owners of the two layers
    may observe. *)
From S2P Require Import Prelude Pool XactBase XactInv PfcpXact PfcpOps.
#[local] Open Scope Z_scope.

(** ** Datagrams: [ogs_pfcp_recvfrom] *)

Definition OGS_MAX_SDU_LEN : Z := 32768.
Definition MIN_PFCP_HEADER_LENGTH : Z := 12.
Definition OGS_PFCP_VERSION : Z := 1.

(** NULL, with the answer to a message of another version; or the packet. *)
Inductive datagram := Dropped (answer : option (list Z)) | Received (pkt : list Z).

(** The header of a Version Not Supported Response, with the octets that
    follow the length of the message. *)
Definition version_response (pkt : list Z) : list Z :=
  [Z.shiftl OGS_PFCP_VERSION 5; OGS_PFCP_VERSION_NOT_SUPPORTED_RESPONSE_TYPE] ++ be_bytes 2 4 ++
    take 4 (drop 4 pkt).

(** The datagram is cut to the buffer of [OGS_MAX_SDU_LEN] bytes. *)
Definition ogs_pfcp_recvfrom (bytes : list Z) : datagram :=
  let pkt := take (Z.to_nat OGS_MAX_SDU_LEN) bytes in
  let size := zlen pkt in
  if size <=? 0 then Dropped None
  else if size <? MIN_PFCP_HEADER_LENGTH then Dropped None
  else if negb (Z.shiftr (default 0 (pkt !! 0%nat)) 5 =? OGS_PFCP_VERSION) then
    Dropped (Some (version_response pkt))
  else if negb (size =? be_value (take 2 (drop 2 pkt)) + 4) then Dropped None
  else Received pkt.

(** ** What the owner admits: [pfcp_recv_cb] of src/upf/pfcp-path.c, which the
    control plane has as well *)

(** The messages that [ogs_pfcp_parse_msg] has a description of their payload
    for: all but the Version Not Supported Response, the Session Deletion
    Request and what it does not know. *)
Definition described : list Z :=
  [1; 2; 3; 4; 5; 6; 7; 8; 9; 10; 12; 13; 14; 15; 16; 17; 50; 51; 52; 53; 55; 56; 57].

Inductive node_id_requirement := NODE_ID_NONE | NODE_ID_OPTIONAL | NODE_ID_MANDATORY.
Inductive pfcp_status :=
  | STATUS_SUCCESS (node_id : list Z) | STATUS_NODE_ID_NONE | STATUS_NODE_ID_OPTIONAL_ABSENT
  | ERROR_SEMANTIC_INCORRECT_MESSAGE | ERROR_NODE_ID_NOT_PRESENT | ERROR_UNKNOWN_MESSAGE.

(** The switch of [ogs_pfcp_extract_node_id] over the types of messages. *)
Definition node_id_required (type : Z) : option node_id_requirement :=
  if bool_decide (type ∈ [3; 4; 52]) then Some NODE_ID_OPTIONAL
  else if bool_decide (type ∈ [5; 6; 7; 8; 9; 10; 12; 13; 14; 15; 16; 17; 50; 51]) then Some NODE_ID_MANDATORY
  else if bool_decide (type ∈ [1; 2; 11; 53; 54; 55; 56; 57]) then Some NODE_ID_NONE
  else None.

(** [node_id]: the value of the Node ID of the message, where it has one; it is
    copied into a zeroed structure, whose first octet ends with the type:
    IPv4, IPv6 or FQDN. *)
Definition ogs_pfcp_extract_node_id (type : Z) (node_id : option (list Z)) : pfcp_status :=
  match node_id_required type, node_id with
  | None, _ => ERROR_UNKNOWN_MESSAGE
  | Some NODE_ID_NONE, _ => STATUS_NODE_ID_NONE
  | Some NODE_ID_OPTIONAL, None => STATUS_NODE_ID_OPTIONAL_ABSENT
  | Some NODE_ID_MANDATORY, None => ERROR_NODE_ID_NOT_PRESENT
  | Some _, Some data =>
      if Z.land (default 0 (data !! 0%nat)) 15 <=? 2 then STATUS_SUCCESS data
      else ERROR_SEMANTIC_INCORRECT_MESSAGE
  end.

Section admission.
(** [ogs_tlv_parse_msg] with the tables that are generated into message.c, by
    the type of the message: an error, or the value of the Node ID among the
    elements of the payload, if there is one. *)
Variable tlv_parse_msg : Z → list Z → option (option (list Z)).

(** Type, sequence number and Node ID of the message. *)
Definition ogs_pfcp_parse_msg (pkt : list Z) : option (Z * list Z * option (list Z)) :=
  h ← pfcp_parse_header pkt;
  let '(type, _, sqn, payload) := (h : Z * Z * list Z * list Z) in
  match payload with
  | [] => Some (type, sqn, None)
  | _ =>
      if bool_decide (type ∈ described) then
        node_id ← tlv_parse_msg type payload; Some (type, sqn, node_id)
      else None
  end.

(** The event that is queued, by type and sequence number, or nothing.  The
    node is found: the datagram comes from the address of the peer, under the
    Node ID of the peer if it has one ([own_node_id] below). *)
Definition pfcp_recv_cb (pkt : list Z) : option (Z * list Z) :=
  message ← ogs_pfcp_parse_msg pkt;
  let '(type, sqn, node_id) := (message : Z * list Z * option (list Z)) in
  match ogs_pfcp_extract_node_id type node_id with
  | STATUS_SUCCESS _ | STATUS_NODE_ID_NONE | STATUS_NODE_ID_OPTIONAL_ABSENT => Some (type, sqn)
  | _ => None
  end.
Definition admitted (pkt : list Z) : Prop := is_Some (pfcp_recv_cb pkt).
End admission.

Section net.
(** [C]: a callback with its data. *)
Context {C : Type}.
Variable conf : pfcp_conf.
Variable tlv_parse_msg : Z → list Z → option (option (list Z)).
(** The Node ID of each side. *)
Variable own_id : bool → list Z.
Abbreviation world := (XactBase.world (xact (C:=C)) C).

(** ** The senders of path.c

    [build] is the payload that the builder of the message returned, or NULL. *)
Definition send_request (k : nat) (cb : option C) (type seid : Z) (build : option (list Z)) : M world ogs_rv :=
  xact ← ogs_pfcp_xact_local_create conf k cb;
  match xact with
  | None => mret OGS_ERROR
  | Some id =>
      match build with
      | None => mret OGS_ERROR
      | Some pkbuf =>
          rv ← ogs_pfcp_xact_update_tx id type seid pkbuf;
          match rv with OGS_OK => ogs_pfcp_xact_commit conf id | _ => mret OGS_ERROR end
      end
  end.
Definition send_response (id type seid : Z) (build : option (list Z)) : M world ogs_rv :=
  match build with
  | None => mret OGS_ERROR
  | Some pkbuf =>
      rv ← ogs_pfcp_xact_update_tx id type seid pkbuf;
      match rv with OGS_OK => ogs_pfcp_xact_commit conf id | _ => mret OGS_ERROR end
  end.

Definition ogs_pfcp_send_heartbeat_request (k : nat) (cb : option C) (build : option (list Z)) : M world ogs_rv :=
  send_request k cb OGS_PFCP_HEARTBEAT_REQUEST_TYPE 0 build.
(** The transaction is deleted at once, so that a copy of the request reaches
    the handler again. *)
Definition ogs_pfcp_send_heartbeat_response (id : Z) (build : option (list Z)) : M world ogs_rv :=
  match build with
  | None => mret OGS_ERROR
  | Some pkbuf =>
      rv ← ogs_pfcp_xact_update_tx id OGS_PFCP_HEARTBEAT_RESPONSE_TYPE 0 pkbuf;
      match rv with
      | OGS_OK =>
          rv ← ogs_pfcp_xact_commit conf id;
          ogs_pfcp_xact_delete id;;
          mret rv
      | _ => mret OGS_ERROR
      end
  end.
Definition ogs_pfcp_cp_send_association_setup_request (k : nat) (cb : option C) (build : option (list Z)) : M world ogs_rv :=
  send_request k cb OGS_PFCP_ASSOCIATION_SETUP_REQUEST_TYPE 0 build.
Definition ogs_pfcp_cp_send_association_setup_response (id : Z) (build : option (list Z)) : M world ogs_rv :=
  send_response id OGS_PFCP_ASSOCIATION_SETUP_RESPONSE_TYPE 0 build.
Definition ogs_pfcp_up_send_association_setup_request (k : nat) (cb : option C) (build : option (list Z)) : M world ogs_rv :=
  send_request k cb OGS_PFCP_ASSOCIATION_SETUP_REQUEST_TYPE 0 build.
Definition ogs_pfcp_up_send_association_setup_response (id : Z) (build : option (list Z)) : M world ogs_rv :=
  send_response id OGS_PFCP_ASSOCIATION_SETUP_RESPONSE_TYPE 0 build.

(** ** What the owner of a layer does and sees *)

(** Requests and responses, datagrams that arrive, timers that expire.  The
    peer is node 0. *)
Inductive input :=
  | HeartbeatRequest (cb : option C) (payload : list Z)
  | Request (cb : option C) (type seid : Z) (payload : list Z)
  | HeartbeatResponse (id : Z) (payload : list Z)
  | Respond (id type seid : Z) (payload : list Z)
  | Datagram (bytes : list Z)
  | ResponseTimer (id : Z)
  | HoldingTimer (id : Z).

(** An observation of the exchange with some transaction id. *)
Inductive obs :=
  | Asked (request : list Z)      (** a new request was sent *)
  | Handed (request : list Z)     (** a request reached the handler *)
  | Replied (reply : list Z)      (** the handler's reply was sent *)
  | Forgot                        (** the answering side dropped the transaction *)
  | Answered (reply : list Z)     (** a reply reached the handler *)
  | GaveUp.                       (** the requesting side dropped the transaction *)
Abbreviation label := (Z * obs)%type.

(** The packet sent last. *)
Definition just_sent (w : world) : list Z :=
  default [] (last (omap (λ e, match e with Sent _ p => Some p | _ => None end) (log w))).

Definition asking (send : M world ogs_rv) : M world (list label) :=
  rv ← send;
  w ← m_get;
  mret match rv with OGS_OK => [(g_xact_id w, Asked (just_sent w))] | _ => [] end.

(** The owner looks its transaction up by id; one that is gone is ignored. *)
Definition replying (id : Z) (send : M world ogs_rv) : M world (list label) :=
  w ← m_get;
  match xacts w !! id with
  | None => mret []
  | Some x =>
      rv ← send;
      w ← m_get;
      mret match rv with
           | OGS_OK => (xid x, Replied (just_sent w)) ::
               match xacts w !! id with None => [(xid x, Forgot)] | Some _ => [] end
           | _ => []
           end
  end.

(** Reception: [pfcp_recv_cb], then what the event loops do with the event it
    queued (src/upf/upf-sm.c, src/smf/smf-sm.c): an accepted message is
    dispatched to the state machine of the node; the handler of a response
    commits the transaction, as those of all answers to one's own requests do. *)
Definition receiving (bytes : list Z) : M world (list label) :=
  match ogs_pfcp_recvfrom bytes with
  | Dropped None => mret []
  | Dropped (Some rsp) => emit [Sent 0 rsp];; mret []
  | Received pkt =>
      match pfcp_recv_cb tlv_parse_msg pkt with
      | None => mret []
      | Some (type, sqn) =>
          rx ← ogs_pfcp_xact_receive conf 0 type sqn;
          match rx with
          | (OGS_OK, Some id) =>
              x ← xact_get id;
              match org x with
              | REMOTE_ORIGINATOR => mret [(xid x, Handed pkt)]
              | LOCAL_ORIGINATOR => ogs_pfcp_xact_commit conf id;; mret [(xid x, Answered pkt)]
              end
          | _ => mret []
          end
      end
  end.

Definition expiring (id : Z) (fire : M world unit) (o : obs) : M world (list label) :=
  x ← xact_get id;
  fire;;
  w ← m_get;
  mret match xacts w !! id with None => [(xid x, o)] | Some _ => [] end.

Definition act (i : input) : M world (list label) :=
  match i with
  | HeartbeatRequest cb payload => asking (ogs_pfcp_send_heartbeat_request 0 cb (Some payload))
  | Request cb type seid payload => asking (send_request 0 cb type seid (Some payload))
  | HeartbeatResponse id payload => replying id (ogs_pfcp_send_heartbeat_response id (Some payload))
  | Respond id type seid payload => replying id (send_response id type seid (Some payload))
  | Datagram bytes => receiving bytes
  | ResponseTimer id => expiring id (fire_response conf id) GaveUp
  | HoldingTimer id => expiring id (fire_holding conf id) Forgot
  end.

(** ** The system *)

(** The two sides: [false] and [true]. *)
Definition sys : Type := bool → world.
Definition at_side (s : bool) (w : world) (σ : sys) : sys := λ s', if Bool.eqb s' s then w else σ s'.

(** A message whose fields and length are in range. *)
Definition sendable (type seid : Z) (payload : list Z) : Prop :=
  0 ≤ type < 256 ∧ 0 ≤ seid < 2 ^ 64 ∧ zlen payload + 16 ≤ OGS_MAX_SDU_LEN ∧
  MIN_PFCP_HEADER_LENGTH ≤ zlen (pfcp_header type seid 0 (zlen payload) ++ payload).

(** The Node ID in a payload is that of the sender, as the builders write it. *)
Definition own_node_id (s : bool) (type : Z) (payload : list Z) : Prop :=
  ∀ node_id, tlv_parse_msg type payload = Some (Some node_id) → node_id = own_id s.

(** Requests have the type of a request and an id that was not used before
    (the counter has not wrapped around); datagrams are those that the other
    side sent; a timer expires when it is armed; a transaction is created
    under an id of the pool that is free. *)
Definition enabled (σ : sys) (s : bool) (i : input) : Prop :=
  let w := σ s in
  let request type seid payload :=
    own_node_id s type payload ∧ fresh w ∧ g_xact_id w < PFCP_MAX_XACT_ID ∧ ogs_pfcp_xact_get_stage type = INITIAL_STAGE ∧
    sendable type seid payload in
  match i with
  | HeartbeatRequest _ payload => request OGS_PFCP_HEARTBEAT_REQUEST_TYPE 0 payload
  | Request _ type seid payload => request type seid payload
  | HeartbeatResponse _ payload => own_node_id s OGS_PFCP_HEARTBEAT_RESPONSE_TYPE payload ∧ sendable OGS_PFCP_HEARTBEAT_RESPONSE_TYPE 0 payload
  | Respond _ type seid payload =>
      own_node_id s type payload ∧ ogs_pfcp_xact_get_stage type = FINAL_STAGE ∧ sendable type seid payload
  | Datagram bytes => Sent 0 bytes ∈ log (σ (negb s)) ∧ fresh w
  | ResponseTimer id => ∃ x d, xacts w !! id = Some x ∧ tm_response x = Some (Armed d)
  | HoldingTimer id => ∃ x d, xacts w !! id = Some x ∧ tm_holding x = Some (Armed d)
  end.

(** A run with its trace. *)
Inductive net_run (σ0 : sys) : list (bool * label) → sys → Prop :=
  | net_start : net_run σ0 [] σ0
  | net_step tr σ s i os w :
      net_run σ0 tr σ → enabled σ s i → act i (σ s) = Some (os, w) →
      net_run σ0 (tr ++ (pair s <$> os)) (at_side s w σ).

(** The inputs of some steps, with the trace they add and where they lead. *)
Inductive net_steps (σ : sys) : list (bool * input) → list (bool * label) → sys → Prop :=
  | steps_none : net_steps σ [] [] σ
  | steps_one ins tr σ' s i os w :
      net_steps σ ins tr σ' → enabled σ' s i → act i (σ' s) = Some (os, w) →
      net_steps σ (ins ++ [(s, i)]) (tr ++ (pair s <$> os)) (at_side s w σ').

(** [P] transactions and [T] timers on each side, and no peer but the other. *)
Definition net_init (P T : nat) : sys := λ _, World ∅ 0 P 0 {[0%nat := Node [] []]} T [].
End net.

(** ** The automaton of an exchange *)

(** [server]: nothing; a request in the handler; a request with its reply.
    [replies]: whatever was replied so far. *)
Record exch := Exch {
  request : list Z; waiting : bool; server : option (option (list Z)); replies : list (list Z) }.

Definition accept (o : obs) (e : option exch) : option exch :=
  match o, e with
  | Asked m, None => Some (Exch m true None [])
  | Handed m, Some (Exch q wt None rs) =>
      if decide (m = q) then Some (Exch q wt (Some None) rs) else None
  | Replied r, Some (Exch q wt (Some None) rs) => Some (Exch q wt (Some (Some r)) (r :: rs))
  | Forgot, Some (Exch q wt (Some _) rs) => Some (Exch q wt None rs)
  | Answered r, Some (Exch q true sv rs) =>
      if decide (r ∈ rs) then Some (Exch q false sv rs) else None
  | GaveUp, Some (Exch q true sv rs) => Some (Exch q false sv rs)
  | _, _ => None
  end.

(** The side that opened the exchange an observation belongs to. *)
Definition opener (s : bool) (o : obs) : bool :=
  match o with Handed _ | Replied _ | Forgot => negb s | _ => s end.

(** The exchanges, by opener and transaction id. *)
Abbreviation exchanges := (gmap (bool * Z) exch).
Definition follow (m : exchanges) (l : bool * (Z * obs)) : option exchanges :=
  let '(s, (t, o)) := l in
  e ← accept o (m !! (opener s o, t)); Some (<[(opener s o, t) := e]> m).
Fixpoint follows (m : exchanges) (tr : list (bool * (Z * obs))) : option exchanges :=
  match tr with [] => Some m | l :: tr => m ← follow m l; follows m tr end.
