(* ===== verification/PfcpNetInv.v ===== *)
(** * Two PFCP endpoints: a simulation by the automaton of an exchange

    What one side of the system of PfcpNet.v and the exchanges it takes part
    in have to do with each other, and that every input preserves it. *)
From S2P Require Import Prelude Pool XactBase XactInv PfcpXact PfcpInv PfcpOps PfcpSpec PfcpNet.
#[local] Open Scope Z_scope.

(** ** Messages *)

(** The type and the transaction id that the receiver reads. *)
Definition kind (p : list Z) : option (Z * Z) :=
  match ogs_pfcp_recvfrom p with
  | Received p =>
      match pfcp_parse_header p with
      | Some (type, _, sqn, _) => Some (type, OGS_PFCP_SQN_TO_XID sqn)
      | None => None
      end
  | Dropped _ => None
  end.
Definition carries (st : stage_t) (p : list Z) (t : Z) : Prop :=
  ∃ type, kind p = Some (type, t) ∧ ogs_pfcp_xact_get_stage type = st.

(** A datagram that the receiver does not cut. *)
Definition whole (p : list Z) : Prop := take (Z.to_nat OGS_MAX_SDU_LEN) p = p.

Lemma carries_stage st st' p t t' : carries st p t → carries st' p t' → st = st' ∧ t = t'.
Proof. intros (ty & K & <-) (ty' & K' & <-). rewrite K in K'. by simplify_eq. Qed.

Lemma header_zlen type seid t n :
  zlen (pfcp_header type seid t n) = if OGS_PFCP_SESSION_ESTABLISHMENT_REQUEST_TYPE <=? type then 16 else 8.
Proof.
  unfold pfcp_header, OGS_PFCP_XID_TO_SQN, zlen.
  case_match; rewrite !length_app, !be_bytes_length; reflexivity.
Qed.

Lemma whole_sent type seid t pl :
  sendable type seid pl → whole (pfcp_header type seid t (zlen pl) ++ pl).
Proof.
  intros (_ & _ & Hmax & _). apply take_ge.
  pose proof (header_zlen type seid t (zlen pl)) as H. unfold OGS_MAX_SDU_LEN, zlen in *. rewrite length_app.
  case_match; lia.
Qed.

Lemma received_sent type seid t pl :
  sendable type seid pl → 0 ≤ t < 2 ^ 24 →
  ogs_pfcp_recvfrom (pfcp_header type seid t (zlen pl) ++ pl) = Received (pfcp_header type seid t (zlen pl) ++ pl).
Proof.
  intros Hp Ht. pose proof (whole_sent type seid t pl Hp) as Hw. revert Hw. destruct Hp as (Hty & Hs & Hmax & Hmin).
  set (p := pfcp_header type seid t (zlen pl) ++ pl).
  assert (Hlen : zlen p = zlen (pfcp_header type seid 0 (zlen pl) ++ pl)).
  { unfold p. rewrite !zlen_app, !header_zlen. done. }
  intros Hw. unfold OGS_MAX_SDU_LEN in Hmax. unfold ogs_pfcp_recvfrom. rewrite Hw.
  destruct (pfcp_header_parsed type seid t pl Hty Hs Ht ltac:(lia)) as (_ & _ & Hb). fold p in Hb. cbn zeta in Hb.
  rewrite Hb. unfold MIN_PFCP_HEADER_LENGTH in *.
  replace (zlen p <=? 0) with false by lia. replace (zlen p <? 12) with false by lia.
  replace (negb (Z.shiftr (default 0 (p !! 0%nat)) 5 =? OGS_PFCP_VERSION)) with false.
  2: { unfold p, pfcp_header. by case_match. }
  by replace (zlen p =? zlen p - 4 + 4) with true by lia.
Qed.

Lemma kind_sent type seid t pl :
  sendable type seid pl → 0 ≤ t < 2 ^ 24 → kind (pfcp_header type seid t (zlen pl) ++ pl) = Some (type, t).
Proof.
  intros Hp Ht. unfold kind. rewrite received_sent by done. destruct Hp as (Hty & Hs & Hmax & _).
  unfold OGS_MAX_SDU_LEN in Hmax.
  destruct (pfcp_header_parsed type seid t pl Hty Hs Ht ltac:(lia)) as (-> & -> & _). done.
Qed.

(** What was queued has a header. *)
Lemma recv_cb_header tlv p type sqn :
  pfcp_recv_cb tlv p = Some (type, sqn) → ∃ seid pl, pfcp_parse_header p = Some (type, seid, sqn, pl).
Proof.
  unfold pfcp_recv_cb, ogs_pfcp_parse_msg. destruct (pfcp_parse_header p) as [[[[ty seid] sq] pl]|]; [|done]. cbn.
  intros H. exists seid, pl. destruct pl as [|z l]; cbn in H.
  - destruct (ogs_pfcp_extract_node_id ty None); cbn in H; by simplify_eq.
  - case_bool_decide; [|done]. destruct (tlv ty (z :: l)) as [nid|]; [|done]. cbn in H.
    destruct (ogs_pfcp_extract_node_id ty nid); cbn in H; by simplify_eq.
Qed.

Section net.
Context {C : Type}.
Abbreviation world := (XactBase.world (xact (C:=C)) C).
Implicit Types (x : xact (C:=C)) (w : world) (m : exchanges).
Variable conf : pfcp_conf.

Lemma just_sent_last w es k p fr :
  log w = es ++ [Sent k p] ++ (Freed <$> fr) → just_sent w = p.
Proof.
  intros H. unfold just_sent. rewrite H, !omap_app.
  assert (E : ∀ l, omap (λ e : event C, match e with Sent _ p => Some p | _ => None end) (Freed <$> l) = []).
  { induction l; done. }
  rewrite E, app_nil_r. cbn. by rewrite last_snoc.
Qed.

(** What the exchange of a transaction depends on. *)
Definition core x : originator * Z * nat * list (Z * option (list Z)) := (org x, xid x, step x, seq x).
Definition reply x : option (list Z) := seq x !! 1%nat ≫= snd.

(** ** The senders *)

Lemma send_request_ok P T w k cb type seid pl n :
  let t := OGS_NEXT_ID (g_xact_id w) PFCP_MIN_XACT_ID PFCP_MAX_XACT_ID in
  let m := pfcp_header type seid t (zlen pl) ++ pl in
  world_ok P T w → fresh w → nodes w !! k = Some n → ogs_pfcp_xact_get_stage type = INITIAL_STAGE →
  wp (send_request conf k cb type seid (Some pl)) (λ rv w', world_ok P T w' ∧
    match rv with
    | OGS_OK => ∃ x x', w' = put (next_id w) x' [Sent k m] (created (next_id w) x n t w) ∧ xnode x = k ∧
        org x = LOCAL_ORIGINATOR ∧ core x' = (LOCAL_ORIGINATOR, t, 1%nat, [(type, Some m); (0, None); (0, None)])
    | _ => w' = w ∨ w' = not_created (next_id w) t w
    end) w.
Proof.
  intros t m Hok Hf Hn Hi. unfold send_request. apply wp_bind. eapply wp_mono; [by eapply local_create_ok|].
  cbn beta. intros r w1 [Hok1 Hc]. fold t in Hc. unfold create_result in Hc. case_decide; [|case_decide].
  1, 2: destruct Hc as [-> ->]; apply wp_ret; auto.
  destruct Hc as [-> ->]. set (id := next_id w) in *. set (x := ready_xact conf LOCAL_ORIGINATOR t k cb) in *.
  apply wp_bind. eapply wp_mono; [apply (update_tx_ok P T id x type seid pl); [done|apply created_at|by rewrite Hi]|].
  cbn beta. replace (tx_allowed x type) with (Some true) by (unfold tx_allowed; cbn; by rewrite Hi).
  intros ? w2 (Hok2 & -> & ->). set (x2 := tx_next x type seid pl) in *.
  assert (Hx2 : xacts (put id x2 [] (created id x n t w)) !! id = Some x2) by apply lookup_insert_eq.
  eapply wp_mono; [by eapply pfcp_commit_ok|]. cbn beta. intros ? w3 [Hok3 H3].
  change (commit_class x2) with (Send true) in H3. destruct H3 as (-> & m' & Hm' & ->).
  split; [done|]. assert (m' = m) as -> by by injection Hm' as <-. rewrite put_put. by exists x, (with_response (Armed (t1_response_duration conf)) x2).
Qed.

(** A reply: of a remote transaction that has none yet, or nothing. *)
Definition replied x (type seid : Z) (pl : list Z) (id : Z) w w' : Prop :=
  let m := pfcp_header type seid (xid x) (zlen pl) ++ pl in
  org x = REMOTE_ORIGINATOR ∧ step x = 1%nat ∧ ∃ x',
    core x' = (REMOTE_ORIGINATOR, xid x, 2%nat, <[1%nat := (type, Some m)]> (seq x)) ∧ xnode x' = xnode x ∧
    w' = put id x' [Sent (xnode x) m] w.

Lemma respond_ok P T w id x type seid pl (m : M world ogs_rv) (Q : ogs_rv → world → Prop) :
  world_ok P T w → xacts w !! id = Some x → (org x = LOCAL_ORIGINATOR → step x = 1%nat) →
  ogs_pfcp_xact_get_stage type = FINAL_STAGE →
  (world_ok P T (put id x [Freed pl] w) → (org x = REMOTE_ORIGINATOR → step x ≠ 1%nat) →
    Q OGS_ERROR (put id x [Freed pl] w)) →
  (∀ w1, wp (ogs_pfcp_xact_commit conf id) (λ rv w', rv = OGS_OK ∧ world_ok P T w' ∧ replied x type seid pl id w w') w1 →
    wp m Q w1) →
  wp (rv ← ogs_pfcp_xact_update_tx id type seid pl; match rv with OGS_OK => m | _ => mret OGS_ERROR end) Q w.
Proof.
  intros Hok Hx Hl Hf Herr Hm. apply wp_bind.
  eapply wp_mono; [apply (update_tx_ok P T id x type seid pl); [done|done|by rewrite Hf]|]. cbn beta.
  intros rv w1 [Hok1 H]. unfold tx_allowed in H. rewrite Hf in H.
  destruct (org x) eqn:Eo; [rewrite Hl in H by done|destruct (step x =? 1)%nat eqn:E1]; cbn in H.
  1, 3: destruct H as [-> ->]; apply wp_ret, Herr; [done|first [done|intros _; by apply Nat.eqb_neq]].
  destruct H as [-> ->]. apply Nat.eqb_eq in E1. set (x2 := tx_next x type seid pl) in *. apply Hm.
  assert (Hx2 : xacts (put id x2 [] w) !! id = Some x2) by apply lookup_insert_eq.
  eapply wp_mono; [eapply pfcp_commit_ok; [done|done|cbn; lia]|]. cbn beta. intros rv w2 [Hok2 H2].
  assert (Hc : commit_class x2 = Send false) by (unfold commit_class; cbn; by rewrite Eo, E1).
  rewrite Hc in H2. destruct H2 as (-> & m' & Hm' & ->). split; [done|]. rewrite put_put in *. split; [done|]. cbn [app].
  assert (Hlen : length (seq x) = 3%nat) by (eapply pfcp_history_length, (wo_xact Hok), Hx).
  unfold last_pkt in Hm'. cbn in Hm'. rewrite E1, list_lookup_insert_eq in Hm' by lia. cbn in Hm'. injection Hm' as <-.
  split; [done|]. split; [done|]. exists x2. unfold core. cbn. by rewrite E1, Eo.
Qed.

Lemma send_response_ok P T w id x type seid pl :
  world_ok P T w → xacts w !! id = Some x → (org x = LOCAL_ORIGINATOR → step x = 1%nat) →
  ogs_pfcp_xact_get_stage type = FINAL_STAGE →
  wp (send_response conf id type seid (Some pl)) (λ rv w', world_ok P T w' ∧
    match rv with
    | OGS_OK => replied x type seid pl id w w'
    | _ => w' = put id x [Freed pl] w ∧ (org x = REMOTE_ORIGINATOR → step x ≠ 1%nat)
    end) w.
Proof.
  intros Hok Hx Hl Hf. eapply respond_ok; [done..|]. intros w1 H. eapply wp_mono; [exact H|].
  by intros ? w' (-> & ? & ?).
Qed.

Lemma replied_at P T w id x type seid pl w' :
  world_ok P T w → xacts w !! id = Some x → replied x type seid pl id w w' →
  ∃ x', xacts w' !! id = Some x' ∧ xid x' = xid x ∧ org x' = REMOTE_ORIGINATOR.
Proof.
  intros Hok Hx (_ & _ & x' & Hc & _ & ->). exists x'. cbn. rewrite lookup_insert_eq. unfold core in Hc. by simplify_eq.
Qed.

Lemma heartbeat_response_ok P T w id x pl :
  world_ok P T w → xacts w !! id = Some x → (org x = LOCAL_ORIGINATOR → step x = 1%nat) →
  wp (ogs_pfcp_send_heartbeat_response conf id (Some pl)) (λ rv w', world_ok P T w' ∧
    match rv with
    | OGS_OK => ∃ w1 x1, replied x OGS_PFCP_HEARTBEAT_RESPONSE_TYPE 0 pl id w w1 ∧ world_ok P T w1 ∧
        xacts w1 !! id = Some x1 ∧ removed id x1 w1 w'
    | _ => w' = put id x [Freed pl] w
    end) w.
Proof.
  intros Hok Hx Hl. eapply respond_ok; [done..|]. intros w1 H. apply wp_bind.
  eapply wp_mono; [exact H|]. cbn beta. intros ? w2 (-> & Hok2 & Hr).
  destruct (replied_at _ _ _ _ _ _ _ _ _ Hok Hx Hr) as (x1 & Hx1 & _).
  eapply pfcp_wp_remove; [done..|]. intros w3 Hok3 H3. split; [done|]. by exists w2, x1.
Qed.

(** ** The relation between a side and the exchanges *)

(** Requests of a side [w], which opens the exchanges of [c]. *)
Record client_ok (c : bool) m w : Prop := {
  cl_counter : 0 ≤ g_xact_id w ≤ PFCP_MAX_XACT_ID;
  cl_known : ∀ t e, m !! (c, t) = Some e → 0 < t ≤ g_xact_id w ∧ carries INITIAL_STAGE (request e) t;
  cl_sent : ∀ p t, Sent 0 p ∈ log w → carries INITIAL_STAGE p t → ∃ e, m !! (c, t) = Some e ∧ request e = p;
  cl_whole : ∀ p, Sent 0 p ∈ log w → whole p;
  cl_live : ∀ id x, xacts w !! id = Some x → org x = LOCAL_ORIGINATOR →
    ∃ e ty, m !! (c, xid x) = Some e ∧ waiting e = true ∧ Sent 0 (request e) ∈ log w ∧
      step x = 1%nat ∧ seq x = [(ty, Some (request e)); (0, None); (0, None)];
  cl_unique : ∀ id id' x x', xacts w !! id = Some x → xacts w !! id' = Some x' →
    org x = LOCAL_ORIGINATOR → org x' = LOCAL_ORIGINATOR → xid x = xid x' → id = id' }.

(** Replies of a side [w] to the exchanges that [c] opens. *)
Record server_ok (c : bool) m w : Prop := {
  sv_replies : ∀ t e r, m !! (c, t) = Some e → r ∈ replies e → carries FINAL_STAGE r t;
  sv_sent : ∀ p t, Sent 0 p ∈ log w → carries FINAL_STAGE p t → ∃ e, m !! (c, t) = Some e ∧ p ∈ replies e;
  sv_live : ∀ id x, xacts w !! id = Some x → org x = REMOTE_ORIGINATOR →
    ∃ e ty, m !! (c, xid x) = Some e ∧ server e = Some (reply x) ∧ step x ≠ 0%nat ∧
      kind (request e) = Some (ty, xid x) ∧ fst <$> seq x !! 0%nat = Some ty ∧
      (∀ r, reply x = Some r → Sent 0 r ∈ log w ∧ carries FINAL_STAGE r (xid x)) ∧
      (step x = 1%nat ↔ reply x = None);
  sv_held : ∀ t e, m !! (c, t) = Some e → server e ≠ None →
    ∃ id x, xacts w !! id = Some x ∧ org x = REMOTE_ORIGINATOR ∧ xid x = t;
  sv_unique : ∀ id id' x x', xacts w !! id = Some x → xacts w !! id' = Some x' →
    org x = REMOTE_ORIGINATOR → org x' = REMOTE_ORIGINATOR → xid x = xid x' → id = id' }.

Definition side_ok (P T : nat) (s : bool) m w : Prop :=
  world_ok P T w ∧ dom (nodes w) = {[0%nat]} ∧ client_ok s m w ∧ server_ok (negb s) m w.

(** The transactions of an originator in [w'] are those of [w]. *)
Definition within (o : originator) w' w : Prop :=
  ∀ id x, xacts w' !! id = Some x → org x = o → ∃ x0, xacts w !! id = Some x0 ∧ core x0 = core x.

(** No packet of a stage is new. *)
Definition no_new (st : stage_t) w' w : Prop :=
  log w ⊆ log w' ∧ ∀ p, Sent 0 p ∈ log w' → Sent 0 p ∈ log w ∨ whole p ∧ ∀ t, ¬ carries st p t.

Lemma no_new_carries st w' w p t : no_new st w' w → Sent 0 p ∈ log w' → carries st p t → Sent 0 p ∈ log w.
Proof. intros [_ H] Hp Hc. destruct (H p Hp) as [|[_ Hn]]; [done|]. by destruct (Hn t). Qed.

Lemma core_eq x x' : core x = core x' → org x = org x' ∧ xid x = xid x' ∧ step x = step x' ∧ seq x = seq x'.
Proof. unfold core. by intros [= -> -> -> ->]. Qed.

Lemma client_frame c m w w' :
  client_ok c m w → within LOCAL_ORIGINATOR w' w → no_new INITIAL_STAGE w' w →
  g_xact_id w ≤ g_xact_id w' ≤ PFCP_MAX_XACT_ID → client_ok c m w'.
Proof.
  intros [Hc Hk Hs Hwh Hl Hu] Hw Hn Hg. split.
  - lia.
  - intros t e He. destruct (Hk t e He). split; [lia|done].
  - intros p t Hp Hi. apply Hs; [|done]. by eapply no_new_carries.
  - intros p Hp. destruct (proj2 Hn p Hp) as [?|[? _]]; auto.
  - intros id x Hx Ho. destruct (Hw id x Hx Ho) as (x0 & Hx0 & (E1 & E2 & E3 & E4)%core_eq).
    rewrite <- E2, <- E3, <- E4. destruct (Hl id x0 Hx0) as (e & ty & ? & ? & ? & ?); [congruence|].
    exists e, ty. split; [done|]. split; [done|]. split; [by apply Hn|done].
  - intros id id' x x' Hx Hx' Ho Ho' E.
    destruct (Hw id x Hx Ho) as (x0 & Hx0 & (E1 & E2 & _)%core_eq), (Hw id' x' Hx' Ho') as (x0' & Hx0' & (E1' & E2' & _)%core_eq).
    eapply (Hu id id' x0 x0'); congruence.
Qed.

Lemma server_frame c m w w' :
  server_ok c m w → within REMOTE_ORIGINATOR w' w → within REMOTE_ORIGINATOR w w' → no_new FINAL_STAGE w' w →
  server_ok c m w'.
Proof.
  intros [Hr Hs Hl Hh Hu] Hw Hw' Hn. split.
  - done.
  - intros p t Hp Hi. apply Hs; [|done]. by eapply no_new_carries.
  - intros id x Hx Ho. destruct (Hw id x Hx Ho) as (x0 & Hx0 & (E1 & E2 & E3 & E4)%core_eq).
    unfold reply. rewrite <- E2, <- E3, <- E4. destruct (Hl id x0 Hx0) as (e & ty & ? & ? & ? & ? & ? & H & ?); [congruence|].
    exists e, ty. split_and!; try done. intros r Hrep. destruct (H r Hrep). split; [by apply Hn|done].
  - intros t e He Hne. destruct (Hh t e He Hne) as (id & x & Hx & Ho & Hxt).
    destruct (Hw' id x Hx Ho) as (x0 & Hx0 & (E1 & E2 & _)%core_eq). exists id, x0. by rewrite E1, E2.
  - intros id id' x x' Hx Hx' Ho Ho' E.
    destruct (Hw id x Hx Ho) as (x0 & Hx0 & (E1 & E2 & _)%core_eq), (Hw id' x' Hx' Ho') as (x0' & Hx0' & (E1' & E2' & _)%core_eq).
    eapply (Hu id id' x0 x0'); congruence.
Qed.

(** Only the exchanges that [c] opens matter. *)
Lemma client_ext c m m' w : (∀ t, m' !! (c, t) = m !! (c, t)) → client_ok c m w → client_ok c m' w.
Proof.
  intros E [Hc Hk Hs Hwh Hl Hu]. split; [done|..|done].
  - intros t e. rewrite E. apply Hk.
  - intros p t. rewrite E. apply Hs.
  - done.
  - intros id x Hx Ho. destruct (Hl id x Hx Ho) as (e & ty & He & ?). exists e, ty. by rewrite E.
Qed.
Lemma server_ext c m m' w : (∀ t, m' !! (c, t) = m !! (c, t)) → server_ok c m w → server_ok c m' w.
Proof.
  intros E [Hr Hs Hl Hh Hu]. split; [..|done].
  - intros t e r. rewrite E. apply Hr.
  - intros p t. rewrite E. apply Hs.
  - intros id x Hx Ho. destruct (Hl id x Hx Ho) as (e & ty & He & ?). exists e, ty. by rewrite E.
  - intros t e. rewrite E. apply Hh.
Qed.
Lemma other_key (c : bool) (k : bool * Z) e m t : k.1 ≠ c → <[k := e]> m !! (c, t) = m !! (c, t).
Proof. intros H. apply lookup_insert_ne. intros ->. by apply H. Qed.

(** An exchange of [c] moves on and this side is not concerned. *)
Lemma exch_lookup c t t' e' m e0 :
  <[(c, t) := e']> m !! (c, t') = Some e0 → t' = t ∧ e0 = e' ∨ t' ≠ t ∧ m !! (c, t') = Some e0.
Proof. intros [[[= <-] <-]|[Hne H]]%lookup_insert_Some; [by left|right; naive_solver]. Qed.
Lemma exch_moved (F : exch → Prop) c t t' e e' m :
  m !! (c, t) = Some e → (F e → F e') → (∃ e0, m !! (c, t') = Some e0 ∧ F e0) →
  ∃ e0, <[(c, t) := e']> m !! (c, t') = Some e0 ∧ F e0.
Proof.
  intros He HF (e0 & He0 & H). destruct (decide (t' = t)) as [->|Hne].
  - rewrite lookup_insert_eq. exists e'. split; [done|]. apply HF. congruence.
  - rewrite lookup_insert_ne by congruence. by exists e0.
Qed.

Lemma client_same c t e e' m w :
  m !! (c, t) = Some e → request e' = request e → waiting e' = waiting e →
  client_ok c m w → client_ok c (<[(c, t) := e']> m) w.
Proof.
  intros He Hq Hw [Hc Hk Hs Hwh Hl Hu]. split; [done|..|done].
  - intros t' e0 [[-> ->]|[_ H]]%exch_lookup; [rewrite Hq|]; eauto.
  - intros p t' Hp Hi. eapply exch_moved; [done| |by eapply Hs]. congruence.
  - done.
  - intros id x Hx Ho. destruct (Hl id x Hx Ho) as (e0 & ty & He0 & H).
    destruct (exch_moved (λ e0, waiting e0 = true ∧ Sent 0 (request e0) ∈ log w ∧ step x = 1%nat ∧
      seq x = [(ty, Some (request e0)); (0, None); (0, None)]) c t (xid x) e e' m He) as (e1 & He1 & H1); [by rewrite Hq, Hw|by exists e0|].
    by exists e1, ty.
Qed.

Lemma server_same c t e e' m w :
  m !! (c, t) = Some e → request e' = request e → server e' = server e → replies e' = replies e →
  server_ok c m w → server_ok c (<[(c, t) := e']> m) w.
Proof.
  intros He Hq Hsv Hrs [Hr Hs Hl Hh Hu]. split; [..|done].
  - intros t' e0 r [[-> ->]|[_ H]]%exch_lookup; [rewrite Hrs|]; eauto.
  - intros p t' Hp Hi. eapply exch_moved; [done| |by eapply Hs]. cbn beta. congruence.
  - intros id x Hx Ho. destruct (Hl id x Hx Ho) as (e0 & ty & He0 & H).
    destruct (decide (xid x = t)) as [Ht|Ht].
    + exists e', ty. rewrite Ht, lookup_insert_eq, Hsv, Hq, <- Ht. split; [done|]. rewrite Ht, He in He0. by simplify_eq.
    + exists e0, ty. rewrite lookup_insert_ne by congruence. done.
  - intros t' e0 [[-> ->]|[_ H]]%exch_lookup; [rewrite Hsv|]; eauto.
Qed.

Lemma server_fresh c t q m w :
  m !! (c, t) = None → server_ok c m w → server_ok c (<[(c, t) := Exch q true None []]> m) w.
Proof.
  intros He [Hr Hs Hl Hh Hu].
  assert (Hmono : ∀ t' e0, m !! (c, t') = Some e0 → <[(c, t) := Exch q true None []]> m !! (c, t') = Some e0).
  { intros t' e0 H. rewrite lookup_insert_ne; [done|]. congruence. }
  split; [..|done].
  - intros t' e0 r [[-> ->]|[_ H]]%exch_lookup; [by intros ?%elem_of_nil|eauto].
  - intros p t' Hp Hi. destruct (Hs p t' Hp Hi) as (e0 & H & ?). exists e0. auto.
  - intros id x Hx Ho. destruct (Hl id x Hx Ho) as (e0 & ty & He0 & H). exists e0, ty. auto.
  - intros t' e0 [[-> ->]|[_ H]]%exch_lookup; [done|eauto].
Qed.

(** What one side observes does not disturb the other. *)
Lemma other_follow P T s m l m' w :
  side_ok P T (negb s) m w → follow m (s, l) = Some m' → side_ok P T (negb s) m' w.
Proof.
  destruct l as [t o]. unfold side_ok. rewrite negb_involutive. intros (Hok & Hd & Hc & Hs). unfold follow.
  destruct (accept o (m !! (opener s o, t))) as [e'|] eqn:Ea; [|done]. cbn. intros [= <-].
  split; [done|]. split; [done|]. assert (Hne : ∀ b, negb b ≠ b) by by intros [].
  destruct o; cbn [opener] in *; destruct (m !! _) as [[q wt sv rs]|] eqn:Ee; cbn in Ea; try done; repeat case_match; simplify_eq;
    (split;
     [first [by eapply client_same|by eapply client_ext; [|done]; intros; apply other_key; cbn; auto using not_eq_sym]
     |first [by eapply server_same|by apply server_fresh|by eapply server_ext; [|done]; intros; apply other_key; cbn; auto using not_eq_sym]]).
Qed.

(** ** Changes of a world *)

Definition quiet (es : list (event C)) : Prop := ∀ k p, Sent k p ∉ es.
Lemma quiet_freed ps : quiet (Freed <$> ps).
Proof. intros k p (y & H & _)%list_elem_of_fmap. done. Qed.
Lemma quiet_app es es' : quiet es → quiet es' → quiet (es ++ es').
Proof. intros H H' k p [?|?]%elem_of_app; [by eapply H|by eapply H']. Qed.

Lemma no_new_app st w w' es :
  log w' = log w ++ es → (∀ p, Sent 0 p ∈ es → Sent 0 p ∈ log w ∨ whole p ∧ ∀ t, ¬ carries st p t) → no_new st w' w.
Proof.
  intros E H. unfold no_new. rewrite E. split; [set_solver|].
  intros p [?|?]%elem_of_app; auto.
Qed.
Lemma no_new_quiet st w w' es : log w' = log w ++ es → quiet es → no_new st w' w.
Proof. intros E Hq. apply (no_new_app st w w' es E). intros p Hp. by destruct (Hq 0%nat p). Qed.

Lemma within_insert o w w' id x :
  xacts w' = <[id := x]> (xacts w) → org x ≠ o → within o w' w.
Proof. intros E Ho id' x'. rewrite E. intros [[<- <-]|[_ H]]%lookup_insert_Some Ho'; [done|by exists x']. Qed.
Lemma insert_within o w w' id x :
  xacts w' = <[id := x]> (xacts w) → (∀ x0, xacts w !! id = Some x0 → org x0 ≠ o) → within o w w'.
Proof.
  intros E Ho id' x' H Ho'. rewrite E. destruct (decide (id' = id)) as [->|Hne]; [by destruct (Ho x' H)|].
  exists x'. by rewrite lookup_insert_ne.
Qed.
Lemma within_core o w w' id x x' :
  xacts w !! id = Some x → core x' = core x → xacts w' = <[id := x']> (xacts w) → within o w' w ∧ within o w w'.
Proof.
  intros Hx Hc E. unfold within. rewrite E. split; intros id' y.
  - intros [[<- <-]|[_ H]]%lookup_insert_Some _; [by exists x|by exists y].
  - intros H _. destruct (decide (id' = id)) as [->|Hne].
    + exists x'. rewrite lookup_insert_eq. split; [done|congruence].
    + exists y. by rewrite lookup_insert_ne.
Qed.
Lemma within_delete o w w' id : xacts w' = delete id (xacts w) → within o w' w.
Proof. intros E id' x. rewrite E. intros [_ H]%lookup_delete_Some _. by exists x. Qed.
Lemma delete_within o w w' id x :
  xacts w' = delete id (xacts w) → xacts w !! id = Some x → org x ≠ o → within o w w'.
Proof. intros E Hx Ho id' x' H Ho'. exists x'. rewrite E, lookup_delete_ne; [done|]. congruence. Qed.
Lemma within_eq o w w' : xacts w' = xacts w → within o w' w ∧ within o w w'.
Proof. unfold within. intros ->. split; eauto. Qed.

(** A transaction is deleted, whatever was done to it before. *)
Definition dropped (id : Z) x w w' : Prop :=
  ∃ x' es, org x' = org x ∧ xnode x' = xnode x ∧ quiet es ∧ removed id x' (put id x' es w) w'.

Lemma dropped_spec P T id x w w' :
  world_ok P T w → xacts w !! id = Some x → dropped id x w w' →
  xacts w' = delete id (xacts w) ∧ dom (nodes w') = dom (nodes w) ∧ g_xact_id w' = g_xact_id w ∧
  ∃ es, log w' = log w ++ es ∧ quiet es.
Proof.
  intros Hok Hx (x' & es & Ho & Hk & Hq & n & Hn & ->). cbn in *. split_and!; [|by apply dom_insert_lookup_L|done|].
  - apply delete_insert_eq.
  - eexists. rewrite <- app_assoc. split; [done|]. apply quiet_app; [done|apply quiet_freed].
Qed.

(** ** One side moves *)

Section moves.
Context (P T : nat) (s : bool).

Lemma own_silent m w w' :
  side_ok P T s m w → world_ok P T w' → dom (nodes w') = dom (nodes w) →
  (∀ o, within o w' w ∧ within o w w') → (∀ st, no_new st w' w) →
  g_xact_id w ≤ g_xact_id w' ≤ PFCP_MAX_XACT_ID → side_ok P T s m w'.
Proof.
  intros (Hok & Hd & Hc & Hs) Hok' Hn Hw Hl Hg. split; [done|]. split; [congruence|].
  split; [eapply client_frame|eapply server_frame]; try done; apply Hw.
Qed.

(** The requesting side drops its transaction. *)
Lemma own_dropped_local m w w' id x e :
  side_ok P T s m w → world_ok P T w' → xacts w !! id = Some x → org x = LOCAL_ORIGINATOR → dropped id x w w' →
  m !! (s, xid x) = Some e →
  side_ok P T s (<[(s, xid x) := Exch (request e) false (server e) (replies e)]> m) w'.
Proof.
  intros (Hok & Hd & Hc & Hs) Hok' Hx Ho Hdr He.
  destruct (dropped_spec _ _ _ _ _ _ Hok Hx Hdr) as (Exs & Hn & Hg & es & El & Hq).
  split; [done|]. split; [congruence|].
  assert (Hc' : client_ok s m w').
  { eapply client_frame; [done|by eapply within_delete|by eapply no_new_quiet|]. rewrite Hg. pose proof (cl_counter _ _ _ Hc). lia. }
  split.
  - destruct Hc' as [Hcc Hk Hse Hwh Hl Hu]. split; [done|..|done].
    + intros t e0 [[-> ->]|[_ H]]%exch_lookup; [|eauto]. by apply (Hk (xid x) e).
    + intros p t Hp Hi. eapply exch_moved; [done| |by eapply Hse]. done.
    + done.
    + intros id' x' Hx' Ho'. destruct (Hl id' x' Hx' Ho') as (e0 & ty & He0 & H).
      exists e0, ty. rewrite lookup_insert_ne; [done|]. intros [= E].
      rewrite Exs in Hx'. apply lookup_delete_Some in Hx' as [Hne Hx']. apply Hne. by eapply (cl_unique _ _ _ Hc).
  - eapply server_ext; [intros t; apply other_key; cbn; by destruct s|].
    eapply server_frame; [done|by eapply within_delete|eapply delete_within; [done..|congruence]|by eapply no_new_quiet].
Qed.

(** The answering side drops its transaction. *)
Lemma own_dropped_remote m w w' id x :
  side_ok P T s m w → world_ok P T w' → xacts w !! id = Some x → org x = REMOTE_ORIGINATOR → dropped id x w w' →
  ∃ e', accept Forgot (m !! (negb s, xid x)) = Some e' ∧ side_ok P T s (<[(negb s, xid x) := e']> m) w'.
Proof.
  intros (Hok & Hd & Hc & Hs) Hok' Hx Ho Hdr.
  destruct (dropped_spec _ _ _ _ _ _ Hok Hx Hdr) as (Exs & Hn & Hg & es & El & Hq).
  destruct (sv_live _ _ _ Hs id x Hx Ho) as (e & ty & He & Hsv & _).
  exists (Exch (request e) (waiting e) None (replies e)). split; [rewrite He; destruct e; cbn in *; by rewrite Hsv|].
  split; [done|]. split; [congruence|]. split.
  - eapply client_ext; [intros t; apply other_key; cbn; by destruct s|].
    eapply client_frame; [done|by eapply within_delete|by eapply no_new_quiet|]. rewrite Hg. pose proof (cl_counter _ _ _ Hc). lia.
  - destruct Hs as [Hr Hse Hl Hh Hu].
    assert (Hsub : ∀ p, Sent 0 p ∈ log w' ↔ Sent 0 p ∈ log w).
    { intros p. rewrite El, elem_of_app. split; [|by left]. intros [?|?]; [done|]. by destruct (Hq 0%nat p). }
    assert (Hother : ∀ id' x', xacts w' !! id' = Some x' → org x' = REMOTE_ORIGINATOR → xacts w !! id' = Some x' ∧ xid x' ≠ xid x).
    { intros id' x'. rewrite Exs. intros [Hne Hx']%lookup_delete_Some Ho'. split; [done|]. intros E. by apply Hne, (Hu _ _ x x'). }
    split.
    + intros t e0 r [[-> ->]|[_ H]]%exch_lookup; eauto.
    + intros p t Hp Hi. eapply exch_moved; [done| |eapply Hse; [by apply Hsub|done]]. done.
    + intros id' x' Hx' Ho'. destruct (Hother id' x' Hx' Ho') as [Hx0 Hne]. destruct (Hl id' x' Hx0 Ho') as (e0 & ty0 & He0 & H).
      exists e0, ty0. rewrite lookup_insert_ne by congruence. destruct H as (? & ? & ? & ? & H & ?). split_and!; try done.
      intros r Hrep. rewrite Hsub. by apply H.
    + intros t e0 [[-> ->]|[Hne H]]%exch_lookup; [done|]. intros Hsome. destruct (Hh t e0 H Hsome) as (id' & x' & Hx' & Ho' & Ht).
      exists id', x'. rewrite Exs, lookup_delete_ne; [done|]. congruence.
    + intros id1 id2 x1 x2 Hx1 Hx2 Ho1 Ho2. eapply Hu; try done; by apply Hother.
Qed.

(** A request is sent under the next id. *)
Lemma own_asked m w w' id x' t ty q :
  side_ok P T s m w → world_ok P T w' → dom (nodes w') = dom (nodes w) → xacts w !! id = None →
  xacts w' = <[id := x']> (xacts w) → log w' = log w ++ [Sent 0 q] → g_xact_id w' = t →
  t = g_xact_id w + 1 → t ≤ PFCP_MAX_XACT_ID → carries INITIAL_STAGE q t → whole q →
  core x' = (LOCAL_ORIGINATOR, t, 1%nat, [(ty, Some q); (0, None); (0, None)]) →
  m !! (s, t) = None ∧ side_ok P T s (<[(s, t) := Exch q true None []]> m) w'.
Proof.
  intros (Hok & Hd & Hc & Hs) Hok' Hn Hid Exs El Hg Ht Hmax Hq Hwq [= Ho Hxt Hst Hseq].
  assert (Hnone : m !! (s, t) = None).
  { destruct (m !! (s, t)) as [e|] eqn:E; [|done]. destruct (cl_known _ _ _ Hc t e E). lia. }
  split; [done|]. split; [done|]. split; [congruence|]. split.
  - destruct Hc as [Hcc Hk Hse Hwh Hl Hu].
    assert (Hmono : ∀ t' e0, m !! (s, t') = Some e0 → <[(s, t) := Exch q true None []]> m !! (s, t') = Some e0).
    { intros t' e0 H. rewrite lookup_insert_ne; [done|]. congruence. }
    assert (Hlive : ∀ id0 x0, xacts w !! id0 = Some x0 → org x0 = LOCAL_ORIGINATOR → xid x0 ≠ t).
    { intros id0 x0 Hx0 Ho0 E. destruct (Hl id0 x0 Hx0 Ho0) as (e & _ & He & _). congruence. }
    split; [lia|..].
    + intros t' e0 [[-> ->]|[_ H]]%exch_lookup; [split; [lia|done]|]. destruct (Hk _ _ H). split; [lia|done].
    + intros p t' Hp Hi. rewrite El in Hp. apply elem_of_app in Hp as [Hp|Hp%list_elem_of_singleton].
      * destruct (Hse p t' Hp Hi) as (e0 & H & ?). exists e0. auto.
      * injection Hp as ->. destruct (carries_stage _ _ _ _ _ Hq Hi) as [_ <-]. exists (Exch q true None []).
        by rewrite lookup_insert_eq.
    + intros p Hp. rewrite El in Hp. apply elem_of_app in Hp as [Hp|Hp%list_elem_of_singleton]; [auto|congruence].
    + intros id0 x0 Hx0 Ho0. rewrite Exs in Hx0. apply lookup_insert_Some in Hx0 as [[<- <-]|[_ Hx0]].
      * exists (Exch q true None []), ty. rewrite Hxt, lookup_insert_eq, El. split_and!; try done. cbn. in_list.
      * destruct (Hl id0 x0 Hx0 Ho0) as (e0 & ty0 & He0 & ? & ? & ?). exists e0, ty0. rewrite El.
        split; [by apply Hmono|]. split; [done|]. split; [apply elem_of_app; by left|done].
    + intros id1 id2 x1 x2. rewrite Exs. intros [[<- <-]|[_ H1]]%lookup_insert_Some [[<- <-]|[_ H2]]%lookup_insert_Some Ho1 Ho2 E; try done.
      * destruct (Hlive id2 x2 H2 Ho2). by rewrite <- E.
      * destruct (Hlive id1 x1 H1 Ho1). by rewrite E.
      * by eapply Hu.
  - eapply server_ext; [intros t'; apply other_key; cbn; by destruct s|].
    eapply server_frame; [done|eapply within_insert; [done|congruence]|eapply insert_within; [done|congruence]|].
    eapply no_new_app; [done|]. intros p Hp%list_elem_of_singleton. injection Hp as ->. right. split; [done|].
    intros t' Hf. by destruct (carries_stage _ _ _ _ _ Hq Hf).
Qed.

(** A new request reaches the handler. *)
Lemma own_handed m w w' id x' t ty e :
  side_ok P T s m w → world_ok P T w' → dom (nodes w') = dom (nodes w) → xacts w !! id = None →
  xacts w' = <[id := x']> (xacts w) → log w' = log w → g_xact_id w' = g_xact_id w →
  m !! (negb s, t) = Some e → kind (request e) = Some (ty, t) →
  (∀ id0 x0, xacts w !! id0 = Some x0 → org x0 = REMOTE_ORIGINATOR → xid x0 ≠ t) →
  core x' = (REMOTE_ORIGINATOR, t, 1%nat, [(ty, None); (0, None); (0, None)]) →
  ∃ e', accept (Handed (request e)) (Some e) = Some e' ∧ side_ok P T s (<[(negb s, t) := e']> m) w'.
Proof.
  intros (Hok & Hd & Hc & Hs) Hok' Hn Hid Exs El Hg He Hk Hno [= Ho Hxt Hst Hseq].
  assert (Hsv : server e = None).
  { destruct (server e) as [sv|] eqn:E; [|done]. destruct (sv_held _ _ _ Hs t e He) as (id0 & x0 & H0 & H1 & H2); [congruence|].
    by destruct (Hno id0 x0). }
  exists (Exch (request e) (waiting e) (Some None) (replies e)). split.
  { destruct e. cbn in *. rewrite Hsv. by rewrite decide_True. }
  split; [done|]. split; [congruence|]. split.
  - eapply client_ext; [intros t'; apply other_key; cbn; by destruct s|].
    eapply client_frame; [done|eapply within_insert; [done|congruence]|eapply (no_new_quiet _ _ _ []); [by rewrite app_nil_r|by intros ?? ?%elem_of_nil]|].
    rewrite Hg. pose proof (cl_counter _ _ _ Hc). lia.
  - destruct Hs as [Hr Hse Hl Hh Hu]. split.
    + intros t' e0 r [[-> ->]|[_ H]]%exch_lookup; eauto.
    + rewrite El. intros p t' Hp Hi. eapply exch_moved; [done| |by eapply Hse]. done.
    + intros id0 x0. rewrite Exs. intros [[<- <-]|[_ Hx0]]%lookup_insert_Some Ho0.
      * eexists _, ty. rewrite Hxt, lookup_insert_eq. unfold reply. rewrite Hst, Hseq. by split_and!.
      * destruct (Hl id0 x0 Hx0 Ho0) as (e0 & ty0 & He0 & H). exists e0, ty0. rewrite El, lookup_insert_ne; [done|].
        intros [= E]. by eapply Hno.
    + intros t' e0 [[-> ->]|[Hne H]]%exch_lookup.
      * intros _. exists id, x'. by rewrite Exs, lookup_insert_eq.
      * intros Hsome. destruct (Hh t' e0 H Hsome) as (id0 & x0 & Hx0 & Ho0 & Ht0). exists id0, x0.
        rewrite Exs, lookup_insert_ne; [done|]. congruence.
    + intros id1 id2 x1 x2. rewrite Exs. intros [[<- <-]|[_ H1]]%lookup_insert_Some [[<- <-]|[_ H2]]%lookup_insert_Some Ho1 Ho2 E; try done.
      * destruct (Hno id2 x2 H2 Ho2). by rewrite <- E.
      * destruct (Hno id1 x1 H1 Ho1). by rewrite E.
      * by eapply Hu.
Qed.

(** The handler's reply is sent. *)
Lemma own_replied m w w' id x type seid pl :
  let r := pfcp_header type seid (xid x) (zlen pl) ++ pl in
  side_ok P T s m w → world_ok P T w' → xacts w !! id = Some x → xnode x = 0%nat →
  replied x type seid pl id w w' → carries FINAL_STAGE r (xid x) → whole r →
  ∃ e', accept (Replied r) (m !! (negb s, xid x)) = Some e' ∧ side_ok P T s (<[(negb s, xid x) := e']> m) w'.
Proof.
  intros r (Hok & Hd & Hc & Hs) Hok' Hx Hnode (Ho & Hst & x' & [= Ho' Hxt Hst' Hseq] & Hk' & ->) Hf Hwr. fold r.
  fold r in Hok', Hseq. rewrite Hnode in *. set (w' := put id x' _ w) in *.
  destruct (sv_live _ _ _ Hs id x Hx Ho) as (e & ty & He & Hsv & _ & Hty & Hs0 & _ & Hrep). apply Hrep in Hst. rewrite Hst in Hsv.
  assert (Hlen : length (seq x) = 3%nat) by (eapply pfcp_history_length, (wo_xact Hok), Hx).
  assert (Hrep' : reply x' = Some r) by (unfold reply; by rewrite Hseq, list_lookup_insert_eq by lia).
  assert (Exs : xacts w' = <[id := x']> (xacts w)) by done.
  assert (El : log w' = log w ++ [Sent 0 r]) by done.
  exists (Exch (request e) (waiting e) (Some (Some r)) (r :: replies e)). split.
  { rewrite He. destruct e. cbn in *. by rewrite Hsv. }
  split; [done|]. split; [done|]. split.
  - eapply client_ext; [intros t'; apply other_key; cbn; by destruct s|].
    eapply client_frame; [done|eapply within_insert; [done|congruence]| |].
    + eapply no_new_app; [done|]. intros p Hp%list_elem_of_singleton. injection Hp as ->. right. split; [done|].
      intros t' Hi. by destruct (carries_stage _ _ _ _ _ Hf Hi).
    + change (g_xact_id w') with (g_xact_id w). pose proof (cl_counter _ _ _ Hc). lia.
  - destruct Hs as [Hr Hse Hl Hh Hu]. split.
    + intros t' e0 p [[-> ->]|[_ H]]%exch_lookup; [|eauto]. cbn. intros [->|Hp]%elem_of_cons; [done|eauto].
    + rewrite El. intros p t' [Hp|Hp%list_elem_of_singleton]%elem_of_app Hi.
      * eapply exch_moved; [done| |by eapply Hse]. cbn. intros ?. by right.
      * injection Hp as ->. destruct (carries_stage _ _ _ _ _ Hf Hi) as [_ <-]. eexists. rewrite lookup_insert_eq.
        split; [done|]. by left.
    + intros id0 x0. rewrite Exs. intros [[<- <-]|[Hne Hx0]]%lookup_insert_Some Ho0.
      * eexists _, ty. rewrite Hxt, lookup_insert_eq, Hst', Hrep'. split_and!; try done.
        -- by rewrite Hseq, list_lookup_insert_ne.
        -- intros ? [= <-]. rewrite El. split; [|done]. in_list.
      * destruct (Hl id0 x0 Hx0 Ho0) as (e0 & ty0 & He0 & ? & ? & ? & ? & H & ?). exists e0, ty0. rewrite lookup_insert_ne.
        -- split_and!; try done. intros p Hp. rewrite El. destruct (H p Hp). split; [|done]. apply elem_of_app. by left.
        -- intros [= E]. by apply Hne, (Hu _ _ x x0).
    + intros t' e0 [[-> ->]|[Hne H]]%exch_lookup.
      * intros _. exists id, x'. by rewrite Exs, lookup_insert_eq.
      * intros Hsome. destruct (Hh t' e0 H Hsome) as (id0 & x0 & Hx0 & Ho0 & Ht0). exists id0, x0.
        rewrite Exs, lookup_insert_ne; [done|]. congruence.
    + intros id1 id2 x1 x2. rewrite Exs. intros [[<- <-]|[_ H1]]%lookup_insert_Some [[<- <-]|[_ H2]]%lookup_insert_Some Ho1 Ho2 E; try done.
      * apply (Hu id id2 x x2); try done. by rewrite <- E.
      * apply (Hu id1 id x1 x); try done. by rewrite E.
      * by eapply Hu.
Qed.

(** ** What an input does to a side *)

(** The observations of this side are accepted. *)
Definition accepted m (os : list (Z * obs)) w' : Prop :=
  ∃ m', follows m (pair s <$> os) = Some m' ∧ side_ok P T s m' w'.

Lemma accepted_none m w' : side_ok P T s m w' → accepted m [] w'.
Proof. intros H. by exists m. Qed.
Lemma accepted_one m t o e' w' :
  accept o (m !! (opener s o, t)) = Some e' → side_ok P T s (<[(opener s o, t) := e']> m) w' → accepted m [(t, o)] w'.
Proof. intros Ha H. eexists. split; [|done]. cbn. by rewrite Ha. Qed.

Lemma peer_node m w : side_ok P T s m w → ∃ n, nodes w !! 0%nat = Some n.
Proof. intros (_ & Hd & _). apply elem_of_dom. rewrite Hd. set_solver. Qed.
Lemma xnode_peer m w id x : side_ok P T s m w → xacts w !! id = Some x → xnode x = 0%nat.
Proof.
  intros (Hok & Hd & _) Hx. destruct (wo_node Hok id x Hx) as (n & Hn & _).
  apply elem_of_dom_2 in Hn. rewrite Hd in Hn. set_solver.
Qed.

Lemma not_created_side m w id g :
  side_ok P T s m w → world_ok P T (not_created id g w) → g_xact_id w ≤ g ≤ PFCP_MAX_XACT_ID →
  side_ok P T s m (not_created id g w).
Proof.
  intros Hs Hok Hg. eapply own_silent; try done.
  - intros o. by apply within_eq.
  - intros st. eapply (no_new_quiet _ _ _ []); [by rewrite app_nil_r|by intros ?? ?%elem_of_nil].
Qed.
Lemma freed_side m w id x p :
  side_ok P T s m w → world_ok P T (put id x [Freed p] w) → xacts w !! id = Some x →
  side_ok P T s m (put id x [Freed p] w).
Proof.
  intros Hs Hok Hx. eapply own_silent; try done.
  - intros o. by eapply within_core.
  - intros st. eapply (no_new_quiet _ _ _ [Freed p]); [done|]. by apply (quiet_freed [p]).
  - cbn. destruct Hs as (_ & _ & Hc & _). pose proof (cl_counter _ _ _ Hc). lia.
Qed.

Lemma asking_ok m w cb type seid pl :
  side_ok P T s m w → fresh w → g_xact_id w < PFCP_MAX_XACT_ID →
  ogs_pfcp_xact_get_stage type = INITIAL_STAGE → sendable type seid pl →
  wp (asking (send_request conf 0 cb type seid (Some pl))) (accepted m) w.
Proof.
  intros Hs Hf Hmax Hi Hp. destruct (peer_node _ _ Hs) as [n Hn]. unfold asking. apply wp_bind.
  eapply wp_mono; [eapply send_request_ok; [apply Hs|done..]|]. cbn beta.
  assert (Hc : 0 ≤ g_xact_id w ≤ PFCP_MAX_XACT_ID) by (destruct Hs as (_ & _ & Hc & _); apply (cl_counter _ _ _ Hc)).
  assert (Ht : OGS_NEXT_ID (g_xact_id w) PFCP_MIN_XACT_ID PFCP_MAX_XACT_ID = g_xact_id w + 1).
  { unfold OGS_NEXT_ID. by replace (g_xact_id w =? PFCP_MAX_XACT_ID) with false by lia. }
  rewrite Ht. set (t := g_xact_id w + 1) in *. intros rv w' [Hok' H]. apply wp_get, wp_ret.
  unfold PFCP_MAX_XACT_ID in *.
  destruct rv.
  2,3,4,5: apply accepted_none; destruct H as [->| ->]; [done|]; apply not_created_side; [done|done|unfold PFCP_MAX_XACT_ID; lia].
  destruct H as (x & x' & E & Hk & Ho & Hcore). set (q := pfcp_header type seid t (zlen pl) ++ pl) in *.
  assert (El : log w' = log w ++ [Sent 0 q]) by by rewrite E.
  assert (Eg : g_xact_id w' = t) by by rewrite E.
  assert (Hd' : dom (nodes w') = dom (nodes w)).
  { rewrite E. cbn. apply dom_insert_lookup_L. rewrite Hk. by exists n. }
  destruct (own_asked m w w' (next_id w) x' t type q Hs Hok' Hd' Hf) as [Hnone Hs']; try done.
  - rewrite E. apply insert_insert_eq.
  - unfold PFCP_MAX_XACT_ID. lia.
  - exists type. split; [apply kind_sent; [done|lia]|done].
  - by apply whole_sent.
  - rewrite (just_sent_last w' (log w) 0 q []), Eg by by rewrite app_nil_r.
    eapply accepted_one; cbn [opener]; [by rewrite Hnone|done].
Qed.

Lemma replied_sent w w' id x type seid pl :
  let r := pfcp_header type seid (xid x) (zlen pl) ++ pl in
  replied x type seid pl id w w' → just_sent w' = r.
Proof.
  intros r (_ & _ & x' & _ & _ & ->). eapply (just_sent_last _ (log w) (xnode x) r []). done.
Qed.

Lemma local_step m w id x : side_ok P T s m w → xacts w !! id = Some x → org x = LOCAL_ORIGINATOR → step x = 1%nat.
Proof. intros (_ & _ & Hc & _) Hx Ho. by destruct (cl_live _ _ _ Hc id x Hx Ho) as (e & ty & _ & _ & _ & ? & _). Qed.

Lemma xid_range m w id x : side_ok P T s m w → (∃ wo, side_ok P T (negb s) m wo) → xacts w !! id = Some x → 0 ≤ xid x < 2 ^ 24.
Proof.
  intros (_ & _ & Hc & Hs) (wo & Ho & _ & Hco & _) Hx. destruct (org x) eqn:E.
  - destruct (cl_live _ _ _ Hc id x Hx E) as (e & ty & He & _). destruct (cl_known _ _ _ Hc _ _ He).
    pose proof (cl_counter _ _ _ Hc). unfold PFCP_MAX_XACT_ID in *. lia.
  - destruct (sv_live _ _ _ Hs id x Hx E) as (e & ty & He & _). destruct (cl_known _ _ _ Hco _ _ He).
    pose proof (cl_counter _ _ _ Hco). unfold PFCP_MAX_XACT_ID in *. lia.
Qed.

(** The end of a reply: whether the transaction is there afterwards. *)
Lemma replied_accepted m w w' id x type seid pl :
  let r := pfcp_header type seid (xid x) (zlen pl) ++ pl in
  side_ok P T s m w → (∃ wo, side_ok P T (negb s) m wo) → world_ok P T w' → xacts w !! id = Some x →
  ogs_pfcp_xact_get_stage type = FINAL_STAGE → sendable type seid pl → replied x type seid pl id w w' →
  ∃ e', accept (Replied r) (m !! (negb s, xid x)) = Some e' ∧ side_ok P T s (<[(negb s, xid x) := e']> m) w'.
Proof.
  intros r Hs Ho Hok' Hx Hf Hp Hr. eapply own_replied; try done; [by eapply xnode_peer| |by apply whole_sent].
  exists type. split; [|done]. apply kind_sent; [done|]. by eapply xid_range.
Qed.

Lemma responding_ok m w id type seid pl :
  side_ok P T s m w → (∃ wo, side_ok P T (negb s) m wo) →
  ogs_pfcp_xact_get_stage type = FINAL_STAGE → sendable type seid pl →
  wp (replying id (send_response conf id type seid (Some pl))) (λ os w', accepted m os w' ∧
    ∀ x, xacts w !! id = Some x → org x = REMOTE_ORIGINATOR → step x = 1%nat →
      os = [(xid x, Replied (pfcp_header type seid (xid x) (zlen pl) ++ pl))]) w.
Proof.
  intros Hs Ho Hf Hp. unfold replying. apply wp_get. destruct (xacts w !! id) as [x|] eqn:Hx; [|by apply wp_ret; split; [apply accepted_none|]].
  apply wp_bind. eapply wp_mono; [eapply send_response_ok; [apply Hs|done| |done]; by eapply local_step|].
  cbn beta. intros rv w' [Hok' H]. apply wp_get, wp_ret. destruct rv.
  2,3,4,5: destruct H as [-> Hn]; (split; [by apply accepted_none, freed_side|naive_solver]).
  destruct (replied_accepted m w w' id x type seid pl Hs Ho Hok' Hx Hf Hp H) as (e' & Ha & Hs').
  rewrite (replied_sent _ _ _ _ _ _ _ H). destruct (replied_at _ _ _ _ _ _ _ _ _ (proj1 Hs) Hx H) as (x' & Hx' & _). rewrite Hx'.
  split; [by eapply accepted_one|]. intros ? [= <-] _ _. done.
Qed.

Lemma heartbeat_ok m w id pl :
  side_ok P T s m w → (∃ wo, side_ok P T (negb s) m wo) → sendable OGS_PFCP_HEARTBEAT_RESPONSE_TYPE 0 pl →
  wp (replying id (ogs_pfcp_send_heartbeat_response conf id (Some pl))) (accepted m) w.
Proof.
  intros Hs Ho Hp. unfold replying. apply wp_get. destruct (xacts w !! id) as [x|] eqn:Hx; [|by apply wp_ret, accepted_none].
  apply wp_bind. eapply wp_mono; [eapply heartbeat_response_ok; [apply Hs|done|]; by eapply local_step|].
  cbn beta. intros rv w' [Hok' H]. apply wp_get, wp_ret. destruct rv.
  2,3,4,5: subst w'; by apply accepted_none, freed_side.
  destruct H as (w1 & x1 & Hr & Hok1 & Hx1 & Hrm).
  destruct (replied_accepted m w w1 id x OGS_PFCP_HEARTBEAT_RESPONSE_TYPE 0 pl Hs Ho Hok1 Hx eq_refl Hp Hr) as (e' & Ha & Hs').
  destruct (replied_at _ _ _ _ _ _ _ _ _ (proj1 Hs) Hx Hr) as (x1' & Hx1' & Ht & Hor). rewrite Hx1 in Hx1'. injection Hx1' as <-.
  assert (Hd : dropped id x1 w1 w').
  { exists x1, []. split_and!; [done|done|by intros ?? ?%elem_of_nil|]. by rewrite put_same. }
  destruct (own_dropped_remote _ _ w' id x1 Hs' Hok' Hx1 Hor Hd) as (e2 & Ha2 & Hs2). rewrite Ht in *.
  rewrite (proj1 (dropped_spec _ _ _ _ _ _ Hok1 Hx1 Hd)), lookup_delete_eq.
  assert (just_sent w' = pfcp_header OGS_PFCP_HEARTBEAT_RESPONSE_TYPE 0 (xid x) (zlen pl) ++ pl) as ->.
  { destruct Hr as (_ & _ & x' & _ & _ & ->). destruct Hrm as (n & _ & ->). cbn.
    eapply (just_sent_last _ (log w) (xnode x) _ (option_pkts (seq x1))). cbn. by rewrite <- app_assoc. }
  exists (<[(negb s, xid x) := e2]> (<[(negb s, xid x) := e']> m)). split; [|done].
  cbn [fmap list_fmap follows]. unfold follow. cbn [opener]. rewrite Ha. cbn [mbind option_bind]. by rewrite Ha2.
Qed.

(** ** Datagrams *)

Lemma response_short p :
  (length (version_response p) ≤ 8)%nat ∧ kind (version_response p) = None ∧ whole (version_response p).
Proof.
  assert (Hl : (length (version_response p) ≤ 8)%nat).
  { unfold version_response. rewrite !length_app, length_take, be_bytes_length. cbn [length]. lia. }
  assert (Hw : whole (version_response p)) by (apply take_ge; etrans; [exact Hl|unfold OGS_MAX_SDU_LEN; lia]).
  split; [done|]. split; [|done]. unfold kind, ogs_pfcp_recvfrom. rewrite Hw.
  replace (zlen (version_response p) <? MIN_PFCP_HEADER_LENGTH) with true by (unfold MIN_PFCP_HEADER_LENGTH, zlen; lia).
  by destruct (_ <=? 0).
Qed.

Lemma recvfrom_cases p :
  whole p → ogs_pfcp_recvfrom p = Dropped None ∨ ogs_pfcp_recvfrom p = Dropped (Some (version_response p)) ∨
    ogs_pfcp_recvfrom p = Received p.
Proof. unfold ogs_pfcp_recvfrom. intros ->. repeat case_match; auto. Qed.

Lemma xid_in_None w ids t id x : xid_in w ids t = None → id ∈ ids → xacts w !! id = Some x → xid x ≠ t.
Proof.
  unfold xid_in. intros H Hin Hx Ht. assert (Hf : id ∈ filter (λ id, xid <$> xacts w !! id = Some t) ids).
  { apply list_elem_of_filter. split; [|done]. rewrite Hx. cbn. by rewrite Ht. }
  destruct (filter _ ids); [by apply elem_of_nil in Hf|done].
Qed.

(** The lookup among the transactions of an originator. *)
Lemma find_live m w n o t :
  side_ok P T s m w → nodes w !! 0%nat = Some n →
  match xid_in w (list_of o n) t with
  | Some id => ∃ x, xacts w !! id = Some x ∧ org x = o ∧ xid x = t
  | None => ∀ id x, xacts w !! id = Some x → org x = o → xid x ≠ t
  end.
Proof.
  intros Hs Hn. destruct (xid_in w _ t) as [id|] eqn:E.
  - destruct (pfcp_xid_in_Some _ _ _ _ E) as [Hin (x & Hx & Ht)].
    destruct (wo_list (proj1 Hs) _ _ _ _ Hn Hin) as (x' & Hx' & Ho & _). exists x. by simplify_eq.
  - intros id x Hx Ho. eapply xid_in_None; [done| |done]. destruct (wo_node (proj1 Hs) id x Hx) as (n' & Hn' & Hin).
    rewrite (xnode_peer _ _ _ _ Hs Hx) in Hn'. by simplify_eq.
Qed.

(** No transaction could be created for the message. *)
Lemma create_side m w w' o t k cb n :
  side_ok P T s m w → world_ok P T w' → create_result conf o t k cb n (g_xact_id w) w None w' → side_ok P T s m w'.
Proof.
  intros Hs Hok' Hc. unfold create_result in Hc. repeat case_decide; destruct Hc as [[=] ->]; [done|].
  apply not_created_side; [done..|]. destruct Hs as (_ & _ & Hc & _). pose proof (cl_counter _ _ _ Hc). lia.
Qed.

(** A request: handed over once, then answered from the stored reply. *)
Lemma receive_request m w wo n type sqn p :
  let t := OGS_PFCP_SQN_TO_XID sqn in
  side_ok P T s m w → side_ok P T (negb s) m wo → Sent 0 p ∈ log wo → fresh w → nodes w !! 0%nat = Some n →
  kind p = Some (type, t) → ogs_pfcp_xact_get_stage type = INITIAL_STAGE →
  wp (ogs_pfcp_xact_receive conf 0 type sqn) (λ r w', world_ok P T w' ∧
    match r with
    | (OGS_OK, Some id) => ∃ x e', xacts w' !! id = Some x ∧ org x = REMOTE_ORIGINATOR ∧ xid x = t ∧
        accept (Handed p) (m !! (negb s, t)) = Some e' ∧ server e' ≠ None ∧ side_ok P T s (<[(negb s, t) := e']> m) w'
    | _ => side_ok P T s m w' ∧
        ((1 ≤ pool_avail w)%nat → (3 ≤ timers_avail w)%nat → ∃ e, m !! (negb s, t) = Some e ∧ server e ≠ None)
    end) w.
Proof.
  intros t Hs Ho Hp Hf Hn Hk Hi. eapply wp_mono; [apply (pfcp_receive_ok conf P T); [apply Hs|exact Hn|done]|].
  cbn beta. intros r w' [Hok' H]. split; [done|]. unfold receive_result in H. rewrite Hi in H. fold t in H.
  destruct Ho as (_ & _ & Hco & _). destruct (cl_sent _ _ _ Hco p t Hp) as (e & He & Hq); [by exists type|].
  pose proof (find_live m w n REMOTE_ORIGINATOR t Hs Hn) as Hl. cbn [list_of] in Hl.
  destruct (xid_in w (remote_list n) t) as [id|].
  - destruct Hl as (x & Hx & Hor & Ht). destruct H as (x' & Hx' & H). rewrite Hx in Hx'. injection Hx' as <-.
    pose proof Hs as (Hok & _ & _ & Hsv). destruct (sv_live _ _ _ Hsv id x Hx Hor) as (e0 & ty & He0 & Hse & Hst & Hty & Hs0 & Hrep & _).
    rewrite Ht, He in He0. injection He0 as <-. rewrite Hq, Hk in Hty. injection Hty as -> ->.
    assert (Hcl : rx_class x ty = RxDuplicate (reply x)).
    { unfold rx_class. rewrite Hor, Hi. destruct (step x); [done|]. rewrite Hs0. cbn. by rewrite Z.eqb_refl. }
    unfold rx_result in H. rewrite Hcl in H. destruct (reply x) as [rp|]; destruct H as [-> ->].
    2: { split; [done|]. intros _ _. exists e. by rewrite Hse. }
    split; [|intros _ _; exists e; by rewrite Hse]. destruct (Hrep rp eq_refl) as [Hsent _].
    rewrite (xnode_peer _ _ _ _ Hs Hx) in *.
    eapply own_silent; [done|done|done| | |].
    + intros o. eapply (within_core o w _ id x); [done| |reflexivity]. done.
    + intros st. eapply no_new_app; [done|]. intros q Hq'%list_elem_of_singleton. injection Hq' as ->. by left.
    + cbn. destruct Hs as (_ & _ & Hc & _). pose proof (cl_counter _ _ _ Hc). lia.
  - destruct H as (r1 & w1 & Hc & H). destruct r1 as [id|].
    2: { destruct H as [-> ->]. split; [by eapply create_side|]. intros H1 H3. unfold create_result in Hc.
         rewrite !decide_False in Hc by lia. by destruct Hc. }
    destruct H as [-> ->]. unfold create_result in Hc. repeat case_decide; destruct Hc as [[= ->] ->].
    set (x := rx_next conf (ready_xact conf REMOTE_ORIGINATOR t 0 None) type) in *.
    destruct (own_handed m w (put (next_id w) x [] (created (next_id w) (ready_xact conf REMOTE_ORIGINATOR t 0 None) n (g_xact_id w) w))
      (next_id w) x t type e Hs Hok') as (e' & Ha & Hs').
    + cbn. apply dom_insert_lookup_L. by exists n.
    + done.
    + cbn. apply insert_insert_eq.
    + cbn. by rewrite app_nil_r.
    + done.
    + done.
    + by rewrite Hq.
    + done.
    + done.
    + exists x, e'. rewrite He, <- Hq. split_and!; try done; [apply lookup_insert_eq|].
      destruct e. cbn in Ha. repeat case_match; by simplify_eq.
Qed.

(** A reply is accepted by the transaction that waits for it, or nothing
    happens. *)
Lemma receive_reply m w n type sqn :
  let t := OGS_PFCP_SQN_TO_XID sqn in
  side_ok P T s m w → fresh w → nodes w !! 0%nat = Some n → ogs_pfcp_xact_get_stage type = FINAL_STAGE →
  wp (ogs_pfcp_xact_receive conf 0 type sqn) (λ r w', world_ok P T w' ∧
    match r with
    | (OGS_OK, Some id) => ∃ x x', xacts w !! id = Some x ∧ org x = LOCAL_ORIGINATOR ∧ xid x = t ∧
        w' = put id x' [] w ∧ org x' = org x ∧ xid x' = t ∧ xnode x' = xnode x ∧ step x' = 2%nat
    | _ => side_ok P T s m w' ∧ ∀ id x, xacts w !! id = Some x → org x = LOCAL_ORIGINATOR → xid x ≠ t
    end) w.
Proof.
  intros t Hs Hf Hn Hi. eapply wp_mono; [apply (pfcp_receive_ok conf P T); [apply Hs|exact Hn|done]|].
  cbn beta. intros r w' [Hok' H]. split; [done|]. unfold receive_result in H. rewrite Hi in H. fold t in H.
  pose proof (find_live m w n LOCAL_ORIGINATOR t Hs Hn) as Hl. cbn [list_of] in Hl.
  destruct (xid_in w (local_list n) t) as [id|].
  - destruct Hl as (x & Hx & Hor & Ht). destruct H as (x' & Hx' & H). rewrite Hx in Hx'. injection Hx' as <-.
    pose proof (local_step _ _ _ _ Hs Hx Hor) as Hst. unfold rx_result, rx_class in H. rewrite Hor, Hi, Hst in H. cbn in H.
    destruct H as [-> ->]. exists x, (rx_next conf x type). split; [done|]. split; [done|]. split; [done|]. split; [done|].
    unfold rx_next. rewrite Hor. cbn. by rewrite Hst.
  - destruct H as (r1 & w1 & Hc & H). destruct r1 as [id|]; destruct H as [-> ->]; (split; [|done]).
    + apply not_created_side; [done..|]. destruct Hs as (_ & _ & Hc' & _). pose proof (cl_counter _ _ _ Hc'). lia.
    + by eapply create_side.
Qed.

(** What a datagram does: a request that can be served is served afterwards,
    a reply that is waited for is handed over. *)
Definition received m w p (os : list (Z * obs)) w' : Prop :=
  accepted m os w' ∧
  (∀ t, carries INITIAL_STAGE p t → (1 ≤ pool_avail w)%nat → (3 ≤ timers_avail w)%nat →
    ∃ m' e, follows m (pair s <$> os) = Some m' ∧ m' !! (negb s, t) = Some e ∧ server e ≠ None) ∧
  (∀ t id x, carries FINAL_STAGE p t → xacts w !! id = Some x → org x = LOCAL_ORIGINATOR → xid x = t →
    os = [(t, Answered p)]).

Lemma received_none m w p w' :
  (∀ t, ¬ carries INITIAL_STAGE p t ∧ ¬ carries FINAL_STAGE p t) → side_ok P T s m w' → received m w p [] w'.
Proof. intros Hno Hs. split; [by apply accepted_none|]. split; intros t; intros; exfalso; by destruct (Hno t). Qed.

Lemma received_request m w p t r w' :
  carries INITIAL_STAGE p t →
  match r with
  | (OGS_OK, Some id) => ∃ x e', xacts w' !! id = Some x ∧ org x = REMOTE_ORIGINATOR ∧ xid x = t ∧
      accept (Handed p) (m !! (negb s, t)) = Some e' ∧ server e' ≠ None ∧ side_ok P T s (<[(negb s, t) := e']> m) w'
  | _ => side_ok P T s m w' ∧
      ((1 ≤ pool_avail w)%nat → (3 ≤ timers_avail w)%nat → ∃ e, m !! (negb s, t) = Some e ∧ server e ≠ None)
  end →
  wp (match r with
      | (OGS_OK, Some id) =>
          x ← xact_get id;
          match org x with
          | REMOTE_ORIGINATOR => mret [(xid x, Handed p)]
          | LOCAL_ORIGINATOR => ogs_pfcp_xact_commit conf id;; mret [(xid x, Answered p)]
          end
      | _ => mret []
      end) (received m w p) w'.
Proof.
  intros Hi H.
  assert (Hin : ∀ t', carries INITIAL_STAGE p t' → t' = t) by (intros t' H'; by destruct (carries_stage _ _ _ _ _ Hi H')).
  assert (Hnf : ∀ t', ¬ carries FINAL_STAGE p t') by (intros t' H'; by destruct (carries_stage _ _ _ _ _ Hi H')).
  assert (Hrest : side_ok P T s m w' ∧ ((1 ≤ pool_avail w)%nat → (3 ≤ timers_avail w)%nat →
      ∃ e, m !! (negb s, t) = Some e ∧ server e ≠ None) → received m w p [] w').
  { intros [Hs' Hserved]. split; [by apply accepted_none|]. split; [|intros t' id x Hf; by destruct (Hnf t')].
    intros t' ->%Hin H1 H3. exists m. destruct (Hserved H1 H3) as (e & ? & ?). by exists e. }
  destruct r as [[] [id|]]; try by apply wp_ret, Hrest.
  destruct H as (x & e' & Hx & Ho & Ht & Ha & Hsv & Hs'). apply wp_bind. eapply wp_xact_get; [done|]. rewrite Ho, Ht.
  apply wp_ret. split; [by eapply accepted_one|]. split; [|intros t' id' x' Hf; by destruct (Hnf t')].
  intros t' ->%Hin _ _. exists (<[(negb s, t) := e']> m), e'. rewrite lookup_insert_eq. split; [|done].
  cbn [fmap list_fmap follows]. unfold follow. cbn [opener]. by rewrite Ha.
Qed.

Lemma received_reply m w p t e r w' :
  side_ok P T s m w → world_ok P T w' → carries FINAL_STAGE p t → m !! (s, t) = Some e → p ∈ replies e →
  match r with
  | (OGS_OK, Some id) => ∃ x x', xacts w !! id = Some x ∧ org x = LOCAL_ORIGINATOR ∧ xid x = t ∧
      w' = put id x' [] w ∧ org x' = org x ∧ xid x' = t ∧ xnode x' = xnode x ∧ step x' = 2%nat
  | _ => side_ok P T s m w' ∧ ∀ id x, xacts w !! id = Some x → org x = LOCAL_ORIGINATOR → xid x ≠ t
  end →
  wp (match r with
      | (OGS_OK, Some id) =>
          x ← xact_get id;
          match org x with
          | REMOTE_ORIGINATOR => mret [(xid x, Handed p)]
          | LOCAL_ORIGINATOR => ogs_pfcp_xact_commit conf id;; mret [(xid x, Answered p)]
          end
      | _ => mret []
      end) (received m w p) w'.
Proof.
  intros Hs Hok' Hf He Hp H.
  assert (Hfi : ∀ t', carries FINAL_STAGE p t' → t' = t) by (intros t' H'; by destruct (carries_stage _ _ _ _ _ Hf H')).
  assert (Hni : ∀ t', ¬ carries INITIAL_STAGE p t') by (intros t' H'; by destruct (carries_stage _ _ _ _ _ Hf H')).
  assert (Hrest : side_ok P T s m w' ∧ (∀ id x, xacts w !! id = Some x → org x = LOCAL_ORIGINATOR → xid x ≠ t) →
    received m w p [] w').
  { intros [Hs' Hno]. split; [by apply accepted_none|]. split; [intros t' Hi; by destruct (Hni t')|].
    intros t' id x ->%Hfi Hx Ho Ht. by destruct (Hno id x). }
  destruct r as [[] [id|]]; try by apply wp_ret, Hrest.
  destruct H as (x & x' & Hx & Ho & Ht & -> & Ho' & Ht' & Hk' & Hst').
  assert (Hx' : xacts (put id x' [] w) !! id = Some x') by apply lookup_insert_eq.
  apply wp_bind. eapply wp_xact_get; [done|]. rewrite Ho', Ho, Ht'.
  apply wp_bind. eapply wp_mono; [eapply pfcp_commit_ok; [done|done|by rewrite Hst']|]. cbn beta. intros rv w2 [Hok2 H2].
  assert (Hc : commit_class x' = Finish) by (unfold commit_class; by rewrite Ho', Ho, Hst'). rewrite Hc in H2.
  destruct H2 as [-> H2]. apply wp_ret. assert (Hwt : waiting e = true).
  { destruct Hs as (_ & _ & Hcl & _). destruct (cl_live _ _ _ Hcl id x Hx Ho) as (e0 & ty & He0 & ? & _). congruence. }
  split; [|split; [intros t' Hi; by destruct (Hni t')|by intros t' ? ? ->%Hfi]].
  eapply (accepted_one m t _ (Exch (request e) false (server e) (replies e))); cbn [opener].
  - rewrite He. destruct e. cbn in *. subst. by rewrite decide_True.
  - rewrite <- Ht in *. eapply own_dropped_local; try done. exists x', []. by split_and!; [..|intros ?? ?%elem_of_nil|].
Qed.

Lemma receiving_ok (tlv : Z → list Z → option (option (list Z))) m w wo p :
  side_ok P T s m w → side_ok P T (negb s) m wo → Sent 0 p ∈ log wo → fresh w →
  wp (receiving conf tlv p) (λ os w', accepted m os w' ∧ (admitted tlv p → received m w p os w')) w.
Proof.
  intros Hs Ho Hp Hf. destruct (peer_node _ _ Hs) as [n Hn]. pose proof Ho as (_ & _ & Hco & Hso).
  pose proof (cl_whole _ _ _ Hco p Hp) as Hw. rewrite negb_involutive in Hso.
  assert (Hnot : kind p = None → ∀ t, ¬ carries INITIAL_STAGE p t ∧ ¬ carries FINAL_STAGE p t).
  { intros K t. split; intros (ty & K' & _); congruence. }
  assert (Hall : ∀ os w', received m w p os w' → accepted m os w' ∧ (admitted tlv p → received m w p os w')).
  { intros os w' H. split; [apply H|done]. }
  unfold receiving. destruct (recvfrom_cases p Hw) as [E|[E|E]]; rewrite E.
  - apply wp_ret, Hall, received_none; [|done]. apply Hnot. unfold kind. by rewrite E.
  - apply wp_bind. unfold emit. apply wp_modify, wp_ret, Hall, received_none; [apply Hnot; unfold kind; by rewrite E|].
    eapply own_silent; try done.
    + destruct (proj1 Hs). by split.
    + intros o. by apply within_eq.
    + intros st. eapply no_new_app; [done|]. intros q Hq%list_elem_of_singleton. injection Hq as ->. right.
      destruct (response_short p) as (_ & K & Hwh). split; [done|]. intros t (ty & K' & _). congruence.
    + cbn. destruct Hs as (_ & _ & Hc & _). pose proof (cl_counter _ _ _ Hc). lia.
  - destruct (pfcp_recv_cb tlv p) as [[type sqn]|] eqn:Eq.
    2: { apply wp_ret. split; [by apply accepted_none|]. intros [? Hq]. congruence. }
    destruct (recv_cb_header _ _ _ _ Eq) as (seid & pl & Eh). eapply wp_mono; [|exact Hall].
    assert (Hk : kind p = Some (type, OGS_PFCP_SQN_TO_XID sqn)) by (unfold kind; by rewrite E, Eh).
    apply wp_bind. destruct (ogs_pfcp_xact_get_stage type) eqn:Est; [| |by destruct (not_intermediate type)|].
    + eapply wp_mono; [apply (pfcp_receive_ok conf P T); [apply Hs|exact Hn|done]|]. cbn beta. intros r w' [_ H].
      unfold receive_result in H. rewrite Est in H. destruct H as [-> ->]. apply wp_ret, received_none; [|done].
      intros t. split; intros (ty & K & Hst); congruence.
    + eapply wp_mono; [by eapply receive_request|]. cbn beta. intros r w' [_ H].
      eapply received_request; [|exact H]. by exists type.
    + eapply wp_mono; [by eapply receive_reply|]. cbn beta. intros r w' [Hok' H].
      assert (Hf' : carries FINAL_STAGE p (OGS_PFCP_SQN_TO_XID sqn)) by by exists type.
      destruct (sv_sent _ _ _ Hso p _ Hp Hf') as (e & He & Hr). by eapply received_reply.
Qed.

(** ** Timers *)

Lemma response_timer_ok m w id x d :
  side_ok P T s m w → xacts w !! id = Some x → tm_response x = Some (Armed d) →
  wp (expiring id (fire_response conf id) GaveUp) (accepted m) w.
Proof.
  intros Hs Hx Hd. pose proof (xo_response _ (wo_xact (proj1 Hs) _ _ Hx) _ Hd) as [Ho Hst].
  unfold expiring. apply wp_bind. eapply wp_xact_get; [done|]. apply wp_bind.
  eapply wp_mono; [eapply pfcp_fire_response_ok; [apply Hs|done|done]|]. cbn beta zeta. intros _ w' [Hok' H].
  apply wp_get, wp_ret. pose proof Hs as (_ & _ & Hc & _). pose proof (cl_counter _ _ _ Hc) as Hg.
  destruct (cl_live _ _ _ Hc id x Hx Ho) as (e & ty & He & Hwt & Hsent & _ & Hseq). destruct (0 <? _).
  - destruct H as (pkt & Hpkt & ->). set (x' := set_response_rcount _ _) in *.
    assert (pkt = request e) as -> by (unfold last_pkt in Hpkt; rewrite Hst, Hseq in Hpkt; by injection Hpkt).
    rewrite (xnode_peer _ _ _ _ Hs Hx) in *. cbn [put xacts]. rewrite lookup_insert_eq. apply accepted_none.
    eapply own_silent; [done|done|done| | |cbn; lia].
    + intros o. by eapply (within_core o w _ id x); [done| |reflexivity].
    + intros st. eapply no_new_app; [done|]. intros q Hq%list_elem_of_singleton. injection Hq as ->. by left.
  - assert (Hdr : dropped id x w w').
    { eexists _, (called id x). split_and!; [..|exact H]; [done|done|]. unfold called. destruct (xcb x); intros ?? Hin; set_solver. }
    rewrite (proj1 (dropped_spec _ _ _ _ _ _ (proj1 Hs) Hx Hdr)), lookup_delete_eq.
    eapply (accepted_one m _ _ (Exch (request e) false (server e) (replies e))); cbn [opener]; [|by eapply own_dropped_local].
    rewrite He. destruct e. cbn in *. by subst.
Qed.

Lemma holding_timer_ok m w id x d :
  side_ok P T s m w → xacts w !! id = Some x → tm_holding x = Some (Armed d) →
  wp (expiring id (fire_holding conf id) Forgot) (accepted m) w.
Proof.
  intros Hs Hx Hd. pose proof (xo_holding _ (wo_xact (proj1 Hs) _ _ Hx) _ Hd) as [Ho Hst].
  unfold expiring. apply wp_bind. eapply wp_xact_get; [done|]. apply wp_bind.
  eapply wp_mono; [eapply pfcp_fire_holding_ok; [apply Hs|done|done]|]. cbn beta zeta. intros _ w' [Hok' H].
  apply wp_get, wp_ret. pose proof Hs as (_ & _ & Hc & _). pose proof (cl_counter _ _ _ Hc) as Hg. destruct (0 <? _).
  - subst w'. cbn [put xacts]. rewrite lookup_insert_eq. apply accepted_none.
    eapply own_silent; [done|done|done| | |cbn; lia].
    + intros o. by eapply (within_core o w _ id x); [done| |reflexivity].
    + intros st. eapply (no_new_quiet _ _ _ []); [done|by intros ?? ?%elem_of_nil].
  - assert (Hdr : dropped id x w w').
    { eexists _, []. split_and!; [..|exact H]; [done|done|by intros ?? ?%elem_of_nil]. }
    rewrite (proj1 (dropped_spec _ _ _ _ _ _ (proj1 Hs) Hx Hdr)), lookup_delete_eq.
    destruct (own_dropped_remote _ _ _ _ _ Hs Hok' Hx Ho Hdr) as (e' & Ha & Hs'). by eapply accepted_one.
Qed.
End moves.
End net.
