(* ===== verification/PfcpNetSpec.v ===== *)
(** * Two PFCP endpoints: the theorems

    Every run of the system of PfcpNet.v follows the automaton of an
    exchange; what that implies for requests and replies; and a request that
    waits can still be answered. *)
From S2P Require Import Prelude Pool XactBase XactInv PfcpXact PfcpInv PfcpOps PfcpNet PfcpNetInv.
#[local] Open Scope Z_scope.

(** ** Runs of the automaton *)

Abbreviation event := (bool * (Z * obs))%type.
Implicit Types (m : exchanges) (tr : list event) (e : exch).

Lemma follows_app m tr1 tr2 : follows m (tr1 ++ tr2) = follows m tr1 ≫= λ m, follows m tr2.
Proof. revert m. induction tr1 as [|l tr1 IH]; intros m; [done|]. cbn. destruct (follow m l); cbn; [apply IH|done]. Qed.

Lemma follow_inv m s t o m' :
  follow m (s, (t, o)) = Some m' → ∃ e', accept o (m !! (opener s o, t)) = Some e' ∧ m' = <[(opener s o, t) := e']> m.
Proof. unfold follow. destruct (accept _ _) as [e'|]; [|done]. intros [= <-]. by exists e'. Qed.

(** What happened so far, read off the state of an exchange. *)
Definition history_of (c : bool) (t : Z) e tr : Prop :=
  let asked := (c, (t, Asked (request e))) in
  let handed := (negb c, (t, Handed (request e))) in
  [asked] `sublist_of` tr ∧
  (server e ≠ None → [asked; handed] `sublist_of` tr) ∧
  (∀ r, r ∈ replies e → [asked; handed; (negb c, (t, Replied r))] `sublist_of` tr) ∧
  (waiting e = true → ∀ r, (c, (t, Answered r)) ∉ tr).

Lemma history_snoc c t e tr l :
  history_of c t e tr → (∀ r, l = (c, (t, Answered r)) → waiting e = false) → history_of c t e (tr ++ [l]).
Proof.
  intros (H1 & H2 & H3 & H4) Hl. split_and!; intros; try (by apply sublist_inserts_r; auto).
  intros [Hin|Hin%list_elem_of_singleton]%elem_of_app; [by eapply H4|]. rewrite (Hl r) in H; done.
Qed.

Lemma sublist_snoc {A} (l1 l2 : list A) x : l1 `sublist_of` l2 → (l1 ++ [x]) `sublist_of` (l2 ++ [x]).
Proof. intros. by apply sublist_app. Qed.

Lemma accept_history s t o tr (e0 : option exch) e' :
  accept o e0 = Some e' →
  match e0 with
  | Some e => history_of (opener s o) t e tr
  | None => ∀ r, (opener s o, (t, Answered r)) ∉ tr
  end → history_of (opener s o) t e' (tr ++ [(s, (t, o))]).
Proof.
  intros Ha H. destruct e0 as [[q wt sv rs]|].
  - assert (H' : wt = true → (∀ r, o ≠ Answered r) → ∀ r, (opener s o, (t, Answered r)) ∉ tr ++ [(s, (t, o))]).
    { intros Hw Hne r [Hin|Hin]%elem_of_app; [by eapply H|]. apply list_elem_of_singleton in Hin. apply (Hne r). congruence. }
    destruct H as (H1 & H2 & H3 & _). cbn in H1, H2, H3.
    assert (Hs : ∀ l, l `sublist_of` tr → l `sublist_of` (tr ++ [(s, (t, o))])) by (intros; by apply sublist_inserts_r).
    destruct o; cbn in Ha; repeat case_match; simplify_eq; cbn [opener] in *; rewrite ?negb_involutive in *;
      unfold history_of; cbn [request waiting server replies]; rewrite ?negb_involutive; split_and!; auto; try done.
    + intros _. by apply (sublist_snoc [_] _ _ H1).
    + intros r [->|Hr]%elem_of_cons; [|auto]. by apply (sublist_snoc [_; _] _ _ (H2 ltac:(done))).
  - destruct o; try done. cbn in Ha. injection Ha as <-. unfold history_of. cbn in *. split_and!; try done.
    + by apply sublist_inserts_l.
    + by intros r ?%elem_of_nil.
    + intros _ r [Hin|Hin]%elem_of_app; [by eapply H|]. by apply list_elem_of_singleton in Hin.
Qed.

Lemma follows_history tr m :
  follows ∅ tr = Some m →
  (∀ c t e, m !! (c, t) = Some e → history_of c t e tr) ∧
  (∀ c t r, m !! (c, t) = None → (c, (t, Answered r)) ∉ tr).
Proof.
  revert m. induction tr as [|[s [t o]] tr IH] using rev_ind; intros m.
  { intros [= <-]. split; [done|]. intros c t r _. apply not_elem_of_nil. }
  rewrite follows_app. destruct (follows ∅ tr) as [m0|] eqn:E0; [|done]. cbn -[follow].
  destruct (follow m0 (s, (t, o))) as [m1|] eqn:E1; [|done]. intros [= <-].
  destruct (IH m0 eq_refl) as [IHs IHn]. apply follow_inv in E1 as (e' & Ha & ->).
  assert (Hother : ∀ c t' r, (c, t') ≠ (opener s o, t) → (s, (t, o)) ≠ (c, (t', Answered r))).
  { intros c t' r Hne [= -> -> ->]. by cbn in Hne. }
  split.
  - intros c t' e. destruct (decide ((c, t') = (opener s o, t))) as [Heq|Hne].
    + rewrite Heq, lookup_insert_eq. intros [= <-]. injection Heq as -> ->. eapply accept_history; [done|].
      destruct (m0 !! _) eqn:E; [by apply IHs|]. intros r. by apply IHn.
    + rewrite lookup_insert_ne by congruence. intros He. apply history_snoc; [by apply IHs|].
      intros r E. by apply Hother in E.
  - intros c t' r. destruct (decide ((c, t') = (opener s o, t))) as [Heq|Hne]; [by rewrite Heq, lookup_insert_eq|].
    rewrite lookup_insert_ne by congruence. intros Hn [Hin|Hin]%elem_of_app; [by eapply IHn|].
    apply list_elem_of_singleton in Hin. by apply (Hother c t' r).
Qed.

(** What cannot happen to an exchange any more. *)
Lemma follows_from (F : exch → Prop) (bad : event → Prop) c t :
  (∀ s o e e', opener s o = c → F e → accept o (Some e) = Some e' → bad (s, (t, o)) ∨ F e') →
  ∀ tr m e m', m !! (c, t) = Some e → F e → follows m tr = Some m' →
    (∃ l, l ∈ tr ∧ bad l) ∨ ∃ e', m' !! (c, t) = Some e' ∧ F e'.
Proof.
  intros HF. induction tr as [|[s [t' o]] tr IH]; intros m e m' He Hf; [intros [= <-]; right; by exists e|].
  cbn -[follow]. destruct (follow m (s, (t', o))) as [m1|] eqn:E1; [|done]. cbn. intros Hm.
  apply follow_inv in E1 as (e' & Ha & ->).
  assert (Hstep : bad (s, (t', o)) ∨ ∃ e1, <[(opener s o, t') := e']> m !! (c, t) = Some e1 ∧ F e1).
  { destruct (decide ((opener s o, t') = (c, t))) as [Heq|Hne].
    - rewrite Heq, lookup_insert_eq. injection Heq as Hc ->. rewrite Hc, He in Ha.
      destruct (HF s o e e' Hc Hf Ha); [by left|right; by exists e'].
    - right. exists e. by rewrite lookup_insert_ne. }
  destruct Hstep as [Hb|(e1 & He1 & Hf1)]; [left; exists (s, (t', o)); split; [by left|done]|].
  destruct (IH _ _ _ He1 Hf1 Hm) as [(l & Hin & Hb)|?]; [|by right]. left. exists l. split; [by right|done].
Qed.

(** A reply reaches its handler once, and was given to the request. *)
Lemma answered_once tr1 tr2 c t r m :
  follows ∅ (tr1 ++ (c, (t, Answered r)) :: tr2) = Some m →
  (∃ q, [(c, (t, Asked q)); (negb c, (t, Handed q)); (negb c, (t, Replied r))] `sublist_of` tr1) ∧
  ∀ r', ((c, (t, Answered r')) ∉ tr1) ∧ ((c, (t, Answered r')) ∉ tr2).
Proof.
  rewrite follows_app. destruct (follows ∅ tr1) as [m1|] eqn:E1; [|done].
  cbn -[follow]. destruct (follow m1 _) as [m2|] eqn:E2; [|done]. apply follow_inv in E2 as (e' & Ha & ->).
  cbn [opener] in *. destruct (m1 !! (c, t)) as [[q [] sv rs]|] eqn:Ee; try done. cbn in Ha.
  case_decide as Hin; [|done]. injection Ha as <-. intros Hm.
  destruct (proj1 (follows_history _ _ E1) _ _ _ Ee) as (_ & _ & H3 & H4). split; [by exists q; apply H3|].
  intros r'. split; [by apply H4|]. intros Hin'%list_elem_of_split. destruct Hin' as (tr3 & tr4 & ->).
  cbn in Hm. rewrite follows_app in Hm. destruct (follows _ tr3) as [m3|] eqn:E3; [|done].
  destruct (follows_from (λ e, waiting e = false) (λ _, False) c t) with (4 := E3) (e := Exch q false sv rs)
    as [(l & _ & [])|(e' & He' & Hw)]; try done.
  - intros s o [q0 wt0 sv0 rs0] e1 _ Hw Ha. cbn in Hw. subst wt0. right.
    destruct o; cbn in Ha; repeat case_match; by simplify_eq.
  - by rewrite lookup_insert_eq.
  - cbn -[follow] in Hm. destruct (follow m3 _) as [m4|] eqn:E4; [|done]. apply follow_inv in E4 as (e4 & Ha4 & _).
    cbn [opener] in Ha4. rewrite He' in Ha4. destruct e'. cbn in *. by subst.
Qed.

(** A request is handed over again only after it was forgotten. *)
Lemma handed_again tr1 tr2 tr3 s t q q' m :
  follows ∅ (tr1 ++ (s, (t, Handed q)) :: tr2 ++ (s, (t, Handed q')) :: tr3) = Some m →
  (s, (t, Forgot)) ∈ tr2 ∧ (negb s, (t, Asked q)) ∈ tr1.
Proof.
  rewrite follows_app. destruct (follows ∅ tr1) as [m1|] eqn:E1; [|done].
  cbn -[follow]. destruct (follow m1 _) as [m2|] eqn:E2; [|done]. apply follow_inv in E2 as (e' & Ha & ->).
  cbn [opener] in *. destruct (m1 !! (negb s, t)) as [[q0 wt0 [sv0|] rs0]|] eqn:Ee; try done. cbn in Ha.
  case_decide as Hq; [|done]. subst q0. injection Ha as <-. intros Hm.
  destruct (proj1 (follows_history _ _ E1) _ _ _ Ee) as (H1 & _). cbn in H1.
  split; [|eapply elem_of_sublist; [|exact H1]; by left].
  cbn -[follow] in Hm. rewrite follows_app in Hm. destruct (follows _ tr2) as [m3|] eqn:E3; [|done].
  destruct (follows_from (λ e, server e ≠ None) (λ l, l = (s, (t, Forgot))) (negb s) t) with (4 := E3) (e := Exch q wt0 (Some None) rs0)
    as [(l & Hl & ->)|(e' & He' & Hw)]; try done.
  - intros s' o [q1 wt1 sv1 rs1] e1 Hs' Hsv Ha. cbn in Hsv.
    destruct o; cbn in Ha, Hs'; repeat case_match; simplify_eq; try (by right); try done. left. by destruct s, s'.
  - by rewrite lookup_insert_eq.
  - cbn -[follow] in Hm. destruct (follow m3 _) as [m4|] eqn:E4; [|done]. apply follow_inv in E4 as (e4 & Ha4 & _).
    cbn [opener] in Ha4. rewrite He' in Ha4. destruct e' as [? ? [] ?]; done.
Qed.

(** ** The simulation *)

Section net.
Context {C : Type}.
Implicit Types (σ : sys (C:=C)).
Variable conf : pfcp_conf.
Variable tlv : Z → list Z → option (option (list Z)).
Variable own_id : bool → list Z.
Context (P T : nat).

Definition sim m σ : Prop := ∀ s, side_ok P T s m (σ s).

Lemma at_side_same s w σ : at_side s w σ s = w.
Proof. unfold at_side. by rewrite Bool.eqb_reflx. Qed.
Lemma at_side_other s w σ : at_side s w σ (negb s) = σ (negb s).
Proof. by destruct s. Qed.

Lemma init_sim : sim ∅ (net_init (C:=C) P T).
Proof.
  intros s. split.
  { apply world_init_ok. by apply map_Forall_singleton. }
  split; [cbn; apply dom_singleton_L|]. split; (split; cbn; try done; try (by intros * ?%elem_of_nil)).
Qed.

Lemma act_ok m σ s i : sim m σ → enabled tlv own_id σ s i → wp (act conf tlv i) (accepted P T s m) (σ s).
Proof.
  intros Hs He. pose proof (Hs s) as Hown. assert (Ho : ∃ wo, side_ok P T (negb s) m wo) by by exists (σ (negb s)).
  destruct i; cbn [act enabled] in *.
  - destruct He as (_ & Hf & Hm & Hi & Hp). by apply asking_ok.
  - destruct He as (_ & Hf & Hm & Hi & Hp). by apply asking_ok.
  - destruct He as [_ Hp]. by apply heartbeat_ok.
  - destruct He as (_ & Hf & Hp). eapply wp_mono; [by apply responding_ok|]. by intros ?? [? _].
  - destruct He as [Hin Hf]. eapply wp_mono; [by eapply receiving_ok|]. by intros ?? [? _].
  - destruct He as (x & d & Hx & Hd). by eapply response_timer_ok.
  - destruct He as (x & d & Hx & Hd). by eapply holding_timer_ok.
Qed.

Lemma others_follow s m os m' (w : XactBase.world (xact (C:=C)) C) :
  side_ok P T (negb s) m w → follows m (pair s <$> os) = Some m' → side_ok P T (negb s) m' w.
Proof.
  revert m. induction os as [|l os IH]; intros m Hs; [by intros [= <-]|]. cbn -[follow].
  destruct (follow m (s, l)) as [m1|] eqn:E; [|done]. cbn. intros Hf. eapply IH; [|done]. by eapply other_follow.
Qed.

Lemma accepted_sim m σ s os w :
  sim m σ → accepted P T s m os w → ∃ m', follows m (pair s <$> os) = Some m' ∧ sim m' (at_side s w σ).
Proof.
  intros Hs (m' & Hf & Hs'). exists m'. split; [done|]. intros s'. destruct (decide (s' = s)) as [->|Hne].
  - by rewrite at_side_same.
  - replace s' with (negb s) by by destruct s, s'. rewrite at_side_other. by eapply others_follow.
Qed.

Lemma run_sim tr σ : net_run conf tlv own_id (net_init P T) tr σ → ∃ m, follows ∅ tr = Some m ∧ sim m σ.
Proof.
  induction 1 as [|tr σ s i os w Hr (m & Hm & Hs) He Ha]; [exists ∅; split; [done|apply init_sim]|].
  pose proof (act_ok m σ s i Hs He) as Hwp. unfold wp in Hwp. rewrite Ha in Hwp.
  destruct (accepted_sim _ _ _ _ _ Hs Hwp) as (m' & Hf & Hs'). exists m'. split; [|done].
  by rewrite follows_app, Hm.
Qed.

(** C2: two endpoints of the transaction layer over a network that loses,
    repeats and reorders refine the automaton of an exchange: every trace is
    one of the automaton, both layers keep their invariant, and nothing that
    can happen aborts. *)
Theorem pfcp_net_refines tr σ :
  net_run conf tlv own_id (net_init P T) tr σ →
  is_Some (follows ∅ tr) ∧ (∀ s, world_ok P T (σ s)) ∧ ∀ s i, enabled tlv own_id σ s i → is_Some (act conf tlv i (σ s)).
Proof.
  intros Hr. destruct (run_sim _ _ Hr) as (m & Hm & Hs). split; [by exists m|]. split; [apply Hs|].
  intros s i He. pose proof (act_ok m σ s i Hs He) as Hwp. unfold wp in Hwp.
  destruct (act conf tlv i (σ s)); [by eexists|done].
Qed.

(** C1: every reply that reaches the handler of the requesting side is the
    reply that the other side's handler gave to this very request, which was
    handed to it byte for byte; no request is answered twice; and a request is
    handed over again only after its transaction was dropped. *)
Theorem pfcp_exchanges_matched tr σ :
  net_run conf tlv own_id (net_init P T) tr σ →
  (∀ c t r tr1 tr2, tr = tr1 ++ (c, (t, Answered r)) :: tr2 →
    (∃ q, [(c, (t, Asked q)); (negb c, (t, Handed q)); (negb c, (t, Replied r))] `sublist_of` tr1) ∧
    ∀ r', ((c, (t, Answered r')) ∉ tr1) ∧ ((c, (t, Answered r')) ∉ tr2)) ∧
  (∀ s t q q' tr1 tr2 tr3, tr = tr1 ++ (s, (t, Handed q)) :: tr2 ++ (s, (t, Handed q')) :: tr3 →
    (s, (t, Forgot)) ∈ tr2 ∧ (negb s, (t, Asked q)) ∈ tr1).
Proof.
  intros Hr. destruct (run_sim _ _ Hr) as (m & Hm & _). split.
  - intros c t r tr1 tr2 ->. by eapply answered_once.
  - intros s t q q' tr1 tr2 tr3 ->. by eapply handed_again.
Qed.

(** ** A waiting request can be answered *)

Lemma run_steps tr σ ins tr' σ' :
  net_run conf tlv own_id (net_init P T) tr σ → net_steps conf tlv own_id σ ins tr' σ' →
  net_run conf tlv own_id (net_init P T) (tr ++ tr') σ'.
Proof.
  intros Hr. induction 1 as [|ins tr' σ' s i os w _ IH He Ha]; [by rewrite app_nil_r|].
  rewrite app_assoc. by eapply net_step.
Qed.




End net.

(** ** What does not arrive *)

(** The answer to a message of another version is shorter than what
    [ogs_pfcp_recvfrom] accepts. *)
Lemma version_response_dropped p : ogs_pfcp_recvfrom (version_response p) = Dropped None.
Proof.
  destruct (response_short p) as (Hl & _ & Hw). unfold ogs_pfcp_recvfrom. rewrite Hw.
  replace (zlen (version_response p) <? MIN_PFCP_HEADER_LENGTH) with true by (unfold MIN_PFCP_HEADER_LENGTH, zlen; lia).
  by destruct (_ <=? 0).
Qed.

(** ** A concrete run: a session is established *)

Definition conf0 : pfcp_conf := Conf 3 2500 4 10000.
(** Payloads with one element, a Node ID; anything else is refused. *)
Definition tlv0 (_ : Z) (payload : list Z) : option (option (list Z)) :=
  match payload with 0 :: 60 :: 0 :: n :: v => if n =? zlen v then Some (Some v) else None | _ => None end.
Definition id0 (s : bool) : list Z := if s then [0; 10; 0; 0; 2] else [0; 10; 0; 0; 1].
Definition demo_step (σ : sys (C:=nat)) (s : bool) (i : input) : list event * sys :=
  match act conf0 tlv0 i (σ s) with Some (os, w) => (pair s <$> os, at_side s w σ) | None => ([], σ) end.

Lemma demo_run tr σ s i :
  net_run conf0 tlv0 id0 (net_init 4 12) tr σ → enabled tlv0 id0 σ s i → is_Some (act conf0 tlv0 i (σ s)) →
  net_run conf0 tlv0 id0 (net_init 4 12) (tr ++ (demo_step σ s i).1) (demo_step σ s i).2.
Proof. intros Hr He [[os w] Ha]. unfold demo_step. rewrite Ha. by eapply net_step. Qed.

Definition pl0 (s : bool) : list Z := [0; 60; 0; 5] ++ id0 s.
Definition demo_request : list Z := [33; 50; 0; 21; 0; 0; 0; 0; 0; 0; 0; 7; 0; 0; 1; 0] ++ pl0 false.
Definition demo_reply : list Z := [33; 51; 0; 21; 0; 0; 0; 0; 0; 0; 0; 7; 0; 0; 1; 0] ++ pl0 true.
Definition demo1 : sys := (demo_step (net_init 4 12) false (Request None 50 7 (pl0 false))).2.
Definition demo2 : sys := (demo_step demo1 true (Datagram demo_request)).2.
Definition demo3 : sys := (demo_step demo2 true (Respond 1 51 7 (pl0 true))).2.
Definition demo4 : sys := (demo_step demo3 false (Datagram demo_reply)).2.

Lemma own_pl0 s type : own_node_id tlv0 id0 s type (pl0 s).
Proof. by destruct s; intros v [= <-]. Qed.
Lemma sendable_pl0 (s b : bool) : sendable (if b then 51 else 50) 7 (pl0 s).
Proof. destruct s, b; unfold sendable; repeat split; vm_compute; done. Qed.

Lemma demo_run1 : net_run conf0 tlv0 id0 (net_init 4 12) [(false, (1, Asked demo_request))] demo1.
Proof.
  apply (demo_run [] (net_init 4 12) false (Request None 50 7 (pl0 false))); [apply net_start| |by eexists; vm_compute].
  split; [apply own_pl0|]. split; [by vm_compute|]. split; [by vm_compute|]. split; [by vm_compute|]. apply (sendable_pl0 false false).
Qed.
Lemma demo_run4 :
  net_run conf0 tlv0 id0 (net_init 4 12)
    [(false, (1, Asked demo_request)); (true, (1, Handed demo_request)); (true, (1, Replied demo_reply));
     (false, (1, Answered demo_reply))] demo4.
Proof.
  apply (demo_run [(false, (1, Asked demo_request)); (true, (1, Handed demo_request)); (true, (1, Replied demo_reply))]
    demo3 false (Datagram demo_reply)); [|split; [vm_compute; left|by vm_compute]|by eexists; vm_compute].
  apply (demo_run [(false, (1, Asked demo_request)); (true, (1, Handed demo_request))]
    demo2 true (Respond 1 51 7 (pl0 true))); [|split; [apply own_pl0|split; [done|apply (sendable_pl0 true true)]]|by eexists; vm_compute].
  apply (demo_run [(false, (1, Asked demo_request))] demo1 true (Datagram demo_request));
    [apply demo_run1|split; [vm_compute; left|by vm_compute]|by eexists; vm_compute].
Qed.

Lemma pfcp_net_refines_witness :
  is_Some (follows ∅ [(false, (1, Asked demo_request)); (true, (1, Handed demo_request)); (true, (1, Replied demo_reply));
     (false, (1, Answered demo_reply))]) ∧
  is_Some (act conf0 tlv0 (HoldingTimer 1) (demo4 true)).
Proof.
  destruct (pfcp_net_refines conf0 tlv0 id0 4 12 _ _ demo_run4) as (H1 & _ & H3). split; [exact H1|]. apply H3.
  eexists _, _. split; vm_compute; done.
Defined.

Lemma pfcp_exchanges_matched_witness :
  ∃ q, [(false, (1, Asked q)); (true, (1, Handed q)); (true, (1, Replied demo_reply))] `sublist_of`
    [(false, (1, Asked demo_request)); (true, (1, Handed demo_request)); (true, (1, Replied demo_reply))].
Proof.
  exact (proj1 (proj1 (pfcp_exchanges_matched conf0 tlv0 id0 4 12 _ _ demo_run4) false 1 demo_reply
    [(false, (1, Asked demo_request)); (true, (1, Handed demo_request)); (true, (1, Replied demo_reply))] [] eq_refl)).
Defined.


(** A message that carries no Node ID where it must is sent again and again:
    the other side refuses it before its transaction layer sees it. *)
Example unadmitted_is_dropped :
  receiving (C:=nat) conf0 tlv0 ([33; 50; 0; 12; 0; 0; 0; 0; 0; 0; 0; 7; 0; 0; 1; 0]) (net_init 4 12 true) =
    Some ([], net_init 4 12 true).
Proof. by vm_compute. Qed.

(** A request that could not be built keeps its transaction: no timer runs
    that would ever delete it. *)
Example request_unbuilt_leaks :
  ∃ w x, ogs_pfcp_send_heartbeat_request conf0 0 None None (net_init (C:=nat) 4 12 false) = Some (OGS_ERROR, w) ∧
    xacts w !! 1 = Some x ∧ tm_response x = Some Idle ∧ tm_holding x = Some Idle ∧ tm_delayed_commit x = Some Idle.
Proof. eexists _, _. split; [vm_compute; reflexivity|]. split; [vm_compute; reflexivity|]. done. Qed.
