(* ===== verification/GtpTypes.v ===== *)
(** * GTP message types and the stage of a message

    The control-plane message types of lib/gtp/v1/message.h and
    lib/gtp/v2/message.h that open, continue or close a transaction, and
    [ogs_gtp1_xact_get_stage] and [ogs_gtp2_xact_get_stage] of
    lib/gtp/xact.c. *)
From S2P Require Import Prelude XactBase.
#[local] Open Scope Z_scope.

Definition OGS_GTP1_ECHO_REQUEST_TYPE : Z := 1.
Definition OGS_GTP1_NODE_ALIVE_REQUEST_TYPE : Z := 4.
Definition OGS_GTP1_REDIRECTION_REQUEST_TYPE : Z := 6.
Definition OGS_GTP1_CREATE_PDP_CONTEXT_REQUEST_TYPE : Z := 16.
Definition OGS_GTP1_UPDATE_PDP_CONTEXT_REQUEST_TYPE : Z := 18.
Definition OGS_GTP1_DELETE_PDP_CONTEXT_REQUEST_TYPE : Z := 20.
Definition OGS_GTP1_INITIATE_PDP_CONTEXT_ACTIVATION_REQUEST_TYPE : Z := 22.
Definition OGS_GTP1_PDU_NOTIFICATION_REQUEST_TYPE : Z := 27.
Definition OGS_GTP1_PDU_NOTIFICATION_REJECT_REQUEST_TYPE : Z := 29.
Definition OGS_GTP1_SEND_ROUTEING_INFORMATION_FOR_GPRS_REQUEST_TYPE : Z := 32.
Definition OGS_GTP1_FAILURE_REPORT_REQUEST_TYPE : Z := 34.
Definition OGS_GTP1_NOTE_MS_GPRS_PRESENT_REQUEST_TYPE : Z := 36.
Definition OGS_GTP1_IDENTIFICATION_REQUEST_TYPE : Z := 48.
Definition OGS_GTP1_SGSN_CONTEXT_REQUEST_TYPE : Z := 50.
Definition OGS_GTP1_FORWARD_RELOCATION_REQUEST_TYPE : Z := 53.
Definition OGS_GTP1_RELOCATION_CANCEL_REQUEST_TYPE : Z := 56.
Definition OGS_GTP1_UE_REGISTRATION_QUERY_REQUEST_TYPE : Z := 61.
Definition OGS_GTP1_RAN_INFORMATION_RELAY_TYPE : Z := 70.
Definition OGS_GTP1_SGSN_CONTEXT_RESPONSE_TYPE : Z := 51.
Definition OGS_GTP1_ECHO_RESPONSE_TYPE : Z := 2.
Definition OGS_GTP1_NODE_ALIVE_RESPONSE_TYPE : Z := 5.
Definition OGS_GTP1_REDIRECTION_RESPONSE_TYPE : Z := 7.
Definition OGS_GTP1_CREATE_PDP_CONTEXT_RESPONSE_TYPE : Z := 17.
Definition OGS_GTP1_UPDATE_PDP_CONTEXT_RESPONSE_TYPE : Z := 19.
Definition OGS_GTP1_DELETE_PDP_CONTEXT_RESPONSE_TYPE : Z := 21.
Definition OGS_GTP1_INITIATE_PDP_CONTEXT_ACTIVATION_RESPONSE_TYPE : Z := 23.
Definition OGS_GTP1_PDU_NOTIFICATION_RESPONSE_TYPE : Z := 28.
Definition OGS_GTP1_PDU_NOTIFICATION_REJECT_RESPONSE_TYPE : Z := 30.
Definition OGS_GTP1_SEND_ROUTEING_INFORMATION_FOR_GPRS_RESPONSE_TYPE : Z := 33.
Definition OGS_GTP1_FAILURE_REPORT_RESPONSE_TYPE : Z := 35.
Definition OGS_GTP1_NOTE_MS_GPRS_PRESENT_RESPONSE_TYPE : Z := 37.
Definition OGS_GTP1_IDENTIFICATION_RESPONSE_TYPE : Z := 49.
Definition OGS_GTP1_SGSN_CONTEXT_ACKNOWLEDGE_TYPE : Z := 52.
Definition OGS_GTP1_FORWARD_RELOCATION_RESPONSE_TYPE : Z := 54.
Definition OGS_GTP1_RELOCATION_CANCEL_RESPONSE_TYPE : Z := 57.
Definition OGS_GTP1_UE_REGISTRATION_QUERY_RESPONSE_TYPE : Z := 62.

Definition gtp1_initial_types : list Z :=
  [OGS_GTP1_ECHO_REQUEST_TYPE; OGS_GTP1_NODE_ALIVE_REQUEST_TYPE;
   OGS_GTP1_REDIRECTION_REQUEST_TYPE; OGS_GTP1_CREATE_PDP_CONTEXT_REQUEST_TYPE;
   OGS_GTP1_UPDATE_PDP_CONTEXT_REQUEST_TYPE; OGS_GTP1_DELETE_PDP_CONTEXT_REQUEST_TYPE;
   OGS_GTP1_INITIATE_PDP_CONTEXT_ACTIVATION_REQUEST_TYPE;
   OGS_GTP1_PDU_NOTIFICATION_REQUEST_TYPE; OGS_GTP1_PDU_NOTIFICATION_REJECT_REQUEST_TYPE;
   OGS_GTP1_SEND_ROUTEING_INFORMATION_FOR_GPRS_REQUEST_TYPE;
   OGS_GTP1_FAILURE_REPORT_REQUEST_TYPE; OGS_GTP1_NOTE_MS_GPRS_PRESENT_REQUEST_TYPE;
   OGS_GTP1_IDENTIFICATION_REQUEST_TYPE; OGS_GTP1_SGSN_CONTEXT_REQUEST_TYPE;
   OGS_GTP1_FORWARD_RELOCATION_REQUEST_TYPE; OGS_GTP1_RELOCATION_CANCEL_REQUEST_TYPE;
   OGS_GTP1_UE_REGISTRATION_QUERY_REQUEST_TYPE; OGS_GTP1_RAN_INFORMATION_RELAY_TYPE].
Definition gtp1_intermediate_types : list Z :=
  [OGS_GTP1_SGSN_CONTEXT_RESPONSE_TYPE].
Definition gtp1_final_types : list Z :=
  [OGS_GTP1_ECHO_RESPONSE_TYPE; OGS_GTP1_NODE_ALIVE_RESPONSE_TYPE;
   OGS_GTP1_REDIRECTION_RESPONSE_TYPE; OGS_GTP1_CREATE_PDP_CONTEXT_RESPONSE_TYPE;
   OGS_GTP1_UPDATE_PDP_CONTEXT_RESPONSE_TYPE; OGS_GTP1_DELETE_PDP_CONTEXT_RESPONSE_TYPE;
   OGS_GTP1_INITIATE_PDP_CONTEXT_ACTIVATION_RESPONSE_TYPE;
   OGS_GTP1_PDU_NOTIFICATION_RESPONSE_TYPE; OGS_GTP1_PDU_NOTIFICATION_REJECT_RESPONSE_TYPE;
   OGS_GTP1_SEND_ROUTEING_INFORMATION_FOR_GPRS_RESPONSE_TYPE;
   OGS_GTP1_FAILURE_REPORT_RESPONSE_TYPE; OGS_GTP1_NOTE_MS_GPRS_PRESENT_RESPONSE_TYPE;
   OGS_GTP1_IDENTIFICATION_RESPONSE_TYPE; OGS_GTP1_SGSN_CONTEXT_ACKNOWLEDGE_TYPE;
   OGS_GTP1_FORWARD_RELOCATION_RESPONSE_TYPE; OGS_GTP1_RELOCATION_CANCEL_RESPONSE_TYPE;
   OGS_GTP1_UE_REGISTRATION_QUERY_RESPONSE_TYPE].

Definition OGS_GTP2_ECHO_REQUEST_TYPE : Z := 1.
Definition OGS_GTP2_CREATE_SESSION_REQUEST_TYPE : Z := 32.
Definition OGS_GTP2_MODIFY_BEARER_REQUEST_TYPE : Z := 34.
Definition OGS_GTP2_DELETE_SESSION_REQUEST_TYPE : Z := 36.
Definition OGS_GTP2_CHANGE_NOTIFICATION_REQUEST_TYPE : Z := 38.
Definition OGS_GTP2_REMOTE_UE_REPORT_NOTIFICATION_TYPE : Z := 40.
Definition OGS_GTP2_MODIFY_BEARER_COMMAND_TYPE : Z := 64.
Definition OGS_GTP2_DELETE_BEARER_COMMAND_TYPE : Z := 66.
Definition OGS_GTP2_BEARER_RESOURCE_COMMAND_TYPE : Z := 68.
Definition OGS_GTP2_TRACE_SESSION_ACTIVATION_TYPE : Z := 71.
Definition OGS_GTP2_TRACE_SESSION_DEACTIVATION_TYPE : Z := 72.
Definition OGS_GTP2_STOP_PAGING_INDICATION_TYPE : Z := 73.
Definition OGS_GTP2_DELETE_PDN_CONNECTION_SET_REQUEST_TYPE : Z := 101.
Definition OGS_GTP2_PGW_DOWNLINK_TRIGGERING_NOTIFICATION_TYPE : Z := 103.
Definition OGS_GTP2_CREATE_FORWARDING_TUNNEL_REQUEST_TYPE : Z := 160.
Definition OGS_GTP2_SUSPEND_NOTIFICATION_TYPE : Z := 162.
Definition OGS_GTP2_RESUME_NOTIFICATION_TYPE : Z := 164.
Definition OGS_GTP2_CREATE_INDIRECT_DATA_FORWARDING_TUNNEL_REQUEST_TYPE : Z := 166.
Definition OGS_GTP2_DELETE_INDIRECT_DATA_FORWARDING_TUNNEL_REQUEST_TYPE : Z := 168.
Definition OGS_GTP2_RELEASE_ACCESS_BEARERS_REQUEST_TYPE : Z := 170.
Definition OGS_GTP2_DOWNLINK_DATA_NOTIFICATION_TYPE : Z := 176.
Definition OGS_GTP2_PGW_RESTART_NOTIFICATION_TYPE : Z := 179.
Definition OGS_GTP2_UPDATE_PDN_CONNECTION_SET_REQUEST_TYPE : Z := 200.
Definition OGS_GTP2_MODIFY_ACCESS_BEARERS_REQUEST_TYPE : Z := 211.
Definition OGS_GTP2_CREATE_BEARER_REQUEST_TYPE : Z := 95.
Definition OGS_GTP2_UPDATE_BEARER_REQUEST_TYPE : Z := 97.
Definition OGS_GTP2_DELETE_BEARER_REQUEST_TYPE : Z := 99.
Definition OGS_GTP2_ECHO_RESPONSE_TYPE : Z := 2.
Definition OGS_GTP2_VERSION_NOT_SUPPORTED_INDICATION_TYPE : Z := 3.
Definition OGS_GTP2_CREATE_SESSION_RESPONSE_TYPE : Z := 33.
Definition OGS_GTP2_MODIFY_BEARER_RESPONSE_TYPE : Z := 35.
Definition OGS_GTP2_DELETE_SESSION_RESPONSE_TYPE : Z := 37.
Definition OGS_GTP2_CHANGE_NOTIFICATION_RESPONSE_TYPE : Z := 39.
Definition OGS_GTP2_REMOTE_UE_REPORT_ACKNOWLEDGE_TYPE : Z := 41.
Definition OGS_GTP2_MODIFY_BEARER_FAILURE_INDICATION_TYPE : Z := 65.
Definition OGS_GTP2_DELETE_BEARER_FAILURE_INDICATION_TYPE : Z := 67.
Definition OGS_GTP2_BEARER_RESOURCE_FAILURE_INDICATION_TYPE : Z := 69.
Definition OGS_GTP2_DOWNLINK_DATA_NOTIFICATION_FAILURE_INDICATION_TYPE : Z := 70.
Definition OGS_GTP2_CREATE_BEARER_RESPONSE_TYPE : Z := 96.
Definition OGS_GTP2_UPDATE_BEARER_RESPONSE_TYPE : Z := 98.
Definition OGS_GTP2_DELETE_BEARER_RESPONSE_TYPE : Z := 100.
Definition OGS_GTP2_DELETE_PDN_CONNECTION_SET_RESPONSE_TYPE : Z := 102.
Definition OGS_GTP2_PGW_DOWNLINK_TRIGGERING_ACKNOWLEDGE_TYPE : Z := 104.
Definition OGS_GTP2_CREATE_FORWARDING_TUNNEL_RESPONSE_TYPE : Z := 161.
Definition OGS_GTP2_SUSPEND_ACKNOWLEDGE_TYPE : Z := 163.
Definition OGS_GTP2_RESUME_ACKNOWLEDGE_TYPE : Z := 165.
Definition OGS_GTP2_CREATE_INDIRECT_DATA_FORWARDING_TUNNEL_RESPONSE_TYPE : Z := 167.
Definition OGS_GTP2_DELETE_INDIRECT_DATA_FORWARDING_TUNNEL_RESPONSE_TYPE : Z := 169.
Definition OGS_GTP2_RELEASE_ACCESS_BEARERS_RESPONSE_TYPE : Z := 171.
Definition OGS_GTP2_DOWNLINK_DATA_NOTIFICATION_ACKNOWLEDGE_TYPE : Z := 177.
Definition OGS_GTP2_PGW_RESTART_NOTIFICATION_ACKNOWLEDGE_TYPE : Z := 180.
Definition OGS_GTP2_UPDATE_PDN_CONNECTION_SET_RESPONSE_TYPE : Z := 201.
Definition OGS_GTP2_MODIFY_ACCESS_BEARERS_RESPONSE_TYPE : Z := 212.

Definition gtp2_initial_types : list Z :=
  [OGS_GTP2_ECHO_REQUEST_TYPE; OGS_GTP2_CREATE_SESSION_REQUEST_TYPE;
   OGS_GTP2_MODIFY_BEARER_REQUEST_TYPE; OGS_GTP2_DELETE_SESSION_REQUEST_TYPE;
   OGS_GTP2_CHANGE_NOTIFICATION_REQUEST_TYPE; OGS_GTP2_REMOTE_UE_REPORT_NOTIFICATION_TYPE;
   OGS_GTP2_MODIFY_BEARER_COMMAND_TYPE; OGS_GTP2_DELETE_BEARER_COMMAND_TYPE;
   OGS_GTP2_BEARER_RESOURCE_COMMAND_TYPE; OGS_GTP2_TRACE_SESSION_ACTIVATION_TYPE;
   OGS_GTP2_TRACE_SESSION_DEACTIVATION_TYPE; OGS_GTP2_STOP_PAGING_INDICATION_TYPE;
   OGS_GTP2_DELETE_PDN_CONNECTION_SET_REQUEST_TYPE;
   OGS_GTP2_PGW_DOWNLINK_TRIGGERING_NOTIFICATION_TYPE;
   OGS_GTP2_CREATE_FORWARDING_TUNNEL_REQUEST_TYPE; OGS_GTP2_SUSPEND_NOTIFICATION_TYPE;
   OGS_GTP2_RESUME_NOTIFICATION_TYPE;
   OGS_GTP2_CREATE_INDIRECT_DATA_FORWARDING_TUNNEL_REQUEST_TYPE;
   OGS_GTP2_DELETE_INDIRECT_DATA_FORWARDING_TUNNEL_REQUEST_TYPE;
   OGS_GTP2_RELEASE_ACCESS_BEARERS_REQUEST_TYPE; OGS_GTP2_DOWNLINK_DATA_NOTIFICATION_TYPE;
   OGS_GTP2_PGW_RESTART_NOTIFICATION_TYPE; OGS_GTP2_UPDATE_PDN_CONNECTION_SET_REQUEST_TYPE;
   OGS_GTP2_MODIFY_ACCESS_BEARERS_REQUEST_TYPE].
Definition gtp2_bearer_request_types : list Z :=
  [OGS_GTP2_CREATE_BEARER_REQUEST_TYPE; OGS_GTP2_UPDATE_BEARER_REQUEST_TYPE;
   OGS_GTP2_DELETE_BEARER_REQUEST_TYPE].
Definition gtp2_final_types : list Z :=
  [OGS_GTP2_ECHO_RESPONSE_TYPE; OGS_GTP2_VERSION_NOT_SUPPORTED_INDICATION_TYPE;
   OGS_GTP2_CREATE_SESSION_RESPONSE_TYPE; OGS_GTP2_MODIFY_BEARER_RESPONSE_TYPE;
   OGS_GTP2_DELETE_SESSION_RESPONSE_TYPE; OGS_GTP2_CHANGE_NOTIFICATION_RESPONSE_TYPE;
   OGS_GTP2_REMOTE_UE_REPORT_ACKNOWLEDGE_TYPE; OGS_GTP2_MODIFY_BEARER_FAILURE_INDICATION_TYPE;
   OGS_GTP2_DELETE_BEARER_FAILURE_INDICATION_TYPE;
   OGS_GTP2_BEARER_RESOURCE_FAILURE_INDICATION_TYPE;
   OGS_GTP2_DOWNLINK_DATA_NOTIFICATION_FAILURE_INDICATION_TYPE;
   OGS_GTP2_CREATE_BEARER_RESPONSE_TYPE; OGS_GTP2_UPDATE_BEARER_RESPONSE_TYPE;
   OGS_GTP2_DELETE_BEARER_RESPONSE_TYPE; OGS_GTP2_DELETE_PDN_CONNECTION_SET_RESPONSE_TYPE;
   OGS_GTP2_PGW_DOWNLINK_TRIGGERING_ACKNOWLEDGE_TYPE;
   OGS_GTP2_CREATE_FORWARDING_TUNNEL_RESPONSE_TYPE; OGS_GTP2_SUSPEND_ACKNOWLEDGE_TYPE;
   OGS_GTP2_RESUME_ACKNOWLEDGE_TYPE;
   OGS_GTP2_CREATE_INDIRECT_DATA_FORWARDING_TUNNEL_RESPONSE_TYPE;
   OGS_GTP2_DELETE_INDIRECT_DATA_FORWARDING_TUNNEL_RESPONSE_TYPE;
   OGS_GTP2_RELEASE_ACCESS_BEARERS_RESPONSE_TYPE;
   OGS_GTP2_DOWNLINK_DATA_NOTIFICATION_ACKNOWLEDGE_TYPE;
   OGS_GTP2_PGW_RESTART_NOTIFICATION_ACKNOWLEDGE_TYPE;
   OGS_GTP2_UPDATE_PDN_CONNECTION_SET_RESPONSE_TYPE;
   OGS_GTP2_MODIFY_ACCESS_BEARERS_RESPONSE_TYPE].

Definition OGS_GTP_MIN_XACT_ID : Z := 1.
Definition OGS_GTP_CMD_XACT_ID : Z := 0x800000.
Definition OGS_GTP1_MIN_XACT_ID : Z := 0.
Definition OGS_GTP1_MAX_XACT_ID : Z := 65535.

Definition ogs_gtp1_xact_get_stage (type xid : Z) : stage_t :=
  if decide (type ∈ gtp1_initial_types) then INITIAL_STAGE
  else if decide (type ∈ gtp1_intermediate_types) then INTERMEDIATE_STAGE
  else if decide (type ∈ gtp1_final_types) then FINAL_STAGE
  else UNKNOWN_STAGE.

(** A bearer request with a command's id is the answer to the command. *)
Definition ogs_gtp2_xact_get_stage (type xid : Z) : stage_t :=
  if decide (type ∈ gtp2_initial_types) then INITIAL_STAGE
  else if decide (type ∈ gtp2_bearer_request_types) then
    if negb (Z.land xid OGS_GTP_CMD_XACT_ID =? 0) then INTERMEDIATE_STAGE else INITIAL_STAGE
  else if decide (type ∈ gtp2_final_types) then FINAL_STAGE
  else UNKNOWN_STAGE.
