(* ===== verification/GtpXact.v ===== *)
(** * GTP transactions: lib/gtp/xact.c

    Transactions of the GTPv1-C and GTPv2-C control planes.  Both versions
    share the pool, the counter of transaction ids and the lists of a peer;
    a transaction has up to three steps (a GTPv2 command is answered by a
    request that is answered in turn), and a transaction can be associated
    with another one. *)
From S2P Require Import Prelude Pool XactBase GtpTypes.
#[local] Open Scope Z_scope.

(** ** Headers *)

Definition OGS_GTPV1C_HEADER_LEN : Z := 12.
Definition OGS_GTPV2C_HEADER_LEN : Z := 12.
Definition OGS_GTP2_TEID_LEN : Z := 4.

(** Sequence numbers as the bytes of the field. *)
Definition OGS_GTP1_XID_TO_SQN (xid : Z) : list Z := be_bytes 2 (u16 xid).
Definition OGS_GTP1_SQN_TO_XID (sqn : list Z) : Z := be_value sqn.
Definition OGS_GTP2_XID_TO_SQN (xid : Z) : list Z := be_bytes 4 (u32 (Z.shiftl xid 8)).
Definition OGS_GTP2_SQN_TO_XID (sqn : list Z) : Z := Z.shiftr (be_value sqn) 8.

(** The headers that the two [update_tx] push in front of a payload: version
    1 has flags version, PT and S, no N-PDU number and no extension. *)
Definition gtp1_header (type teid xid : Z) (payload : Z) : list Z :=
  [0x32; type] ++ be_bytes 2 (OGS_GTPV1C_HEADER_LEN + payload - 8) ++ be_bytes 4 teid ++
    OGS_GTP1_XID_TO_SQN xid ++ [0; 0].
Definition gtp2_header (type teid xid : Z) (payload : Z) : list Z :=
  if OGS_GTP2_VERSION_NOT_SUPPORTED_INDICATION_TYPE <? type then
    [0x48; type] ++ be_bytes 2 (OGS_GTPV2C_HEADER_LEN + payload - 4) ++ be_bytes 4 teid ++
      OGS_GTP2_XID_TO_SQN xid
  else
    [0x40; type] ++ be_bytes 2 (OGS_GTPV2C_HEADER_LEN - OGS_GTP2_TEID_LEN + payload - 4) ++
      OGS_GTP2_XID_TO_SQN xid.

Section xact.
(** [C]: a callback with its data. *)
Context {C : Type}.

(** Durations and counts of ogs_local_conf()->time.message.gtp. *)
Record gtp_conf := Conf {
  n3_response_rcount : Z; t3_response_duration : Z;
  n3_holding_rcount : Z; t3_holding_duration : Z }.
Variable conf : gtp_conf.

(** struct ogs_gtp_xact_s: the fields of the transaction layer.  Timers are
    NULL (None) until allocated; [seq] has three entries. *)
Record xact := Xact {
  gtp_version : Z; org : originator; xid : Z; gnode : nat; xcb : option C;
  step : nat; seq : list (Z * option (list Z));
  tm_response : option tm; response_rcount : Z;
  tm_holding : option tm; holding_rcount : Z;
  tm_peer : option tm; peer_cb : option C; assoc_xact_id : Z }.

Abbreviation world := (XactBase.world xact C).

(** Assignments to the fields of a transaction. *)
Definition set_history (st : nat) (sq : list (Z * option (list Z))) (x : xact) : xact :=
  Xact (gtp_version x) (org x) (xid x) (gnode x) (xcb x) st sq (tm_response x) (response_rcount x)
    (tm_holding x) (holding_rcount x) (tm_peer x) (peer_cb x) (assoc_xact_id x).
Definition set_response (t : option tm) (x : xact) : xact :=
  Xact (gtp_version x) (org x) (xid x) (gnode x) (xcb x) (step x) (seq x) t (response_rcount x)
    (tm_holding x) (holding_rcount x) (tm_peer x) (peer_cb x) (assoc_xact_id x).
Definition set_response_rcount (n : Z) (x : xact) : xact :=
  Xact (gtp_version x) (org x) (xid x) (gnode x) (xcb x) (step x) (seq x) (tm_response x) n
    (tm_holding x) (holding_rcount x) (tm_peer x) (peer_cb x) (assoc_xact_id x).
Definition set_holding (t : option tm) (x : xact) : xact :=
  Xact (gtp_version x) (org x) (xid x) (gnode x) (xcb x) (step x) (seq x) (tm_response x)
    (response_rcount x) t (holding_rcount x) (tm_peer x) (peer_cb x) (assoc_xact_id x).
Definition set_holding_rcount (n : Z) (x : xact) : xact :=
  Xact (gtp_version x) (org x) (xid x) (gnode x) (xcb x) (step x) (seq x) (tm_response x)
    (response_rcount x) (tm_holding x) n (tm_peer x) (peer_cb x) (assoc_xact_id x).
Definition set_peer (t : option tm) (x : xact) : xact :=
  Xact (gtp_version x) (org x) (xid x) (gnode x) (xcb x) (step x) (seq x) (tm_response x)
    (response_rcount x) (tm_holding x) (holding_rcount x) t (peer_cb x) (assoc_xact_id x).
Definition set_peer_cb (cb : option C) (x : xact) : xact :=
  Xact (gtp_version x) (org x) (xid x) (gnode x) (xcb x) (step x) (seq x) (tm_response x)
    (response_rcount x) (tm_holding x) (holding_rcount x) (tm_peer x) cb (assoc_xact_id x).
Definition set_assoc (id : Z) (x : xact) : xact :=
  Xact (gtp_version x) (org x) (xid x) (gnode x) (xcb x) (step x) (seq x) (tm_response x)
    (response_rcount x) (tm_holding x) (holding_rcount x) (tm_peer x) (peer_cb x) id.

(** ** Association and deletion *)

Definition ogs_gtp_xact_associate (id1 id2 : Z) : M world unit :=
  x1 ← xact_get id1; x2 ← xact_get id2;
  m_assert (assoc_xact_id x1 =? OGS_INVALID_POOL_ID);;
  m_assert (assoc_xact_id x2 =? OGS_INVALID_POOL_ID);;
  xact_upd id1 (set_assoc id2);;
  xact_upd id2 (set_assoc id1).

Definition ogs_gtp_xact_deassociate (id1 id2 : Z) : M world unit :=
  x1 ← xact_get id1; x2 ← xact_get id2;
  m_assert (negb (assoc_xact_id x1 =? OGS_INVALID_POOL_ID));;
  m_assert (negb (assoc_xact_id x2 =? OGS_INVALID_POOL_ID));;
  xact_upd id1 (set_assoc OGS_INVALID_POOL_ID);;
  xact_upd id2 (set_assoc OGS_INVALID_POOL_ID).

Definition timer_count (x : xact) : nat := some_timers [tm_response x; tm_holding x; tm_peer x].

Definition ogs_gtp_xact_delete (id : Z) : M world ogs_rv :=
  x ← xact_get id;
  emit (Freed <$> option_pkts (seq x));;
  m_modify (set_timers (Nat.add (timer_count x)));;
  w ← m_get;
  match xacts w !! assoc_xact_id x with
  | Some _ => ogs_gtp_xact_deassociate id (assoc_xact_id x)
  | None => mret tt
  end;;
  ogs_list_of (org x) (gnode x) (filter (.≠ id));;
  pool_free id;;
  mret OGS_OK.

(** The loops of [ogs_gtp_xact_delete_all] over a copy of the links. *)
Fixpoint delete_each (ids : list Z) : M world unit :=
  match ids with
  | [] => mret tt
  | id :: ids => ogs_gtp_xact_delete id;; delete_each ids
  end.

Definition ogs_gtp_xact_delete_all (node : nat) : M world unit :=
  w ← m_get; n ← m_some (nodes w !! node);
  delete_each (local_list n);;
  w ← m_get; n ← m_some (nodes w !! node);
  delete_each (remote_list n).

(** ** Sending *)

Definition ogs_gtp_xact_get_stage (version type xid : Z) : stage_t :=
  if version =? 1 then ogs_gtp1_xact_get_stage type xid else ogs_gtp2_xact_get_stage type xid.

(** [xact->seq[i]] and [xact->seq[xact->step] = ...]: out of bounds fails. *)
Definition seq_get (x : xact) (i : nat) : M world (Z * option (list Z)) := m_some (seq x !! i).
Definition seq_last (x : xact) : M world (Z * option (list Z)) :=
  match step x with O => m_fail | S i => seq_get x i end.
Definition seq_step (id : Z) (f : Z * option (list Z) → Z * option (list Z)) : M world unit :=
  x ← xact_get id;
  old ← seq_get x (step x);
  xact_upd id (λ x, set_history (S (step x)) (<[step x := f old]> (seq x)) x).

(** The checks of [ogs_gtp1_xact_update_tx] and [ogs_gtp_xact_update_tx],
    which differ in the steps of a final message: None aborts. *)
Definition tx_allowed (final_ok : nat → bool) (x : xact) (stage : stage_t) : option bool :=
  match org x, stage with
  | LOCAL_ORIGINATOR, INITIAL_STAGE => Some (step x =? 0)%nat
  | LOCAL_ORIGINATOR, INTERMEDIATE_STAGE => Some false
  | LOCAL_ORIGINATOR, FINAL_STAGE => Some (final_ok (step x))
  | LOCAL_ORIGINATOR, UNKNOWN_STAGE => None
  | REMOTE_ORIGINATOR, INITIAL_STAGE => Some false
  | REMOTE_ORIGINATOR, (INTERMEDIATE_STAGE | FINAL_STAGE) => Some (step x =? 1)%nat
  | REMOTE_ORIGINATOR, UNKNOWN_STAGE => Some false
  end.

Definition ogs_gtp1_xact_update_tx (id : Z) (type teid : Z) (pkbuf : list Z) : M world ogs_rv :=
  x ← xact_get id;
  ok ← m_some (tx_allowed (λ s, (s =? 2) || (s =? 3))%nat x (ogs_gtp1_xact_get_stage type (xid x)));
  if negb ok then emit [Freed pkbuf];; mret OGS_ERROR
  else
    seq_step id (λ _, (type, Some (gtp1_header type teid (xid x) (zlen pkbuf) ++ pkbuf)));;
    mret OGS_OK.

Definition ogs_gtp_xact_update_tx (id : Z) (type teid : Z) (pkbuf : list Z) : M world ogs_rv :=
  x ← xact_get id;
  ok ← m_some (tx_allowed (λ s, s =? 2)%nat x (ogs_gtp2_xact_get_stage type (xid x)));
  if negb ok then emit [Freed pkbuf];; mret OGS_ERROR
  else
    seq_step id (λ _, (type, Some (gtp2_header type teid (xid x) (zlen pkbuf) ++ pkbuf)));;
    mret OGS_OK.

(** ** Creation *)

(** [calloc]ed transaction: every field that is not given is zero. *)
Definition new_xact (version : Z) (o : originator) (xid : Z) (node : nat) (cb : option C) : xact :=
  Xact version o xid node cb 0 (replicate 3 (0, None)) None 0 None 0 None None OGS_INVALID_POOL_ID.

(** A new timer in a field; a failure deletes the transaction. *)
Definition xact_timer (id : Z) (set : option tm → xact → xact) (k : M world (option Z)) : M world (option Z) :=
  t ← timer_add;
  xact_upd id (set t);;
  match t with
  | None => ogs_gtp_xact_delete id;; mret None
  | Some _ => k
  end.
Definition response_timer (id : Z) (k : M world (option Z)) : M world (option Z) :=
  xact_timer id set_response (xact_upd id (set_response_rcount (n3_response_rcount conf));; k).
Definition holding_timer (id : Z) (k : M world (option Z)) : M world (option Z) :=
  xact_timer id set_holding (xact_upd id (set_holding_rcount (n3_holding_rcount conf));; k).

(** The end of the local creations. *)
Definition update_or_delete (id : Z) (update : M world ogs_rv) : M world (option Z) :=
  rv ← update;
  if decide (rv = OGS_OK) then mret (Some id) else ogs_gtp_xact_delete id;; mret None.

Definition ogs_gtp1_xact_local_create (node : nat) (type teid : Z) (pkbuf : list Z) (cb : option C)
    : M world (option Z) :=
  w ← m_get;
  let x := OGS_NEXT_ID (g_xact_id w) OGS_GTP1_MIN_XACT_ID OGS_GTP1_MAX_XACT_ID in
  id ← pool_alloc (new_xact 1 LOCAL_ORIGINATOR x node cb);
  match id with
  | None => mret None
  | Some id =>
      m_modify (set_counter x);;
      ogs_list_of LOCAL_ORIGINATOR node (λ l, l ++ [id]);;
      let rest := holding_timer id (update_or_delete id (ogs_gtp1_xact_update_tx id type teid pkbuf)) in
      if negb (type =? OGS_GTP1_RAN_INFORMATION_RELAY_TYPE) then response_timer id rest else rest
  end.

(** The id of a command has its most significant bit set. *)
Definition command_types : list Z :=
  [OGS_GTP2_MODIFY_BEARER_COMMAND_TYPE; OGS_GTP2_DELETE_BEARER_COMMAND_TYPE;
   OGS_GTP2_BEARER_RESOURCE_COMMAND_TYPE].

Definition ogs_gtp_xact_local_create (node : nat) (type teid : Z) (pkbuf : list Z) (cb : option C)
    : M world (option Z) :=
  w ← m_get;
  let g := OGS_NEXT_ID (g_xact_id w) OGS_GTP_MIN_XACT_ID OGS_GTP_CMD_XACT_ID in
  let x := if decide (type ∈ command_types) then Z.lor g OGS_GTP_CMD_XACT_ID else g in
  id ← pool_alloc (new_xact 2 LOCAL_ORIGINATOR x node cb);
  match id with
  | None => mret None
  | Some id =>
      m_modify (set_counter g);;
      ogs_list_of LOCAL_ORIGINATOR node (λ l, l ++ [id]);;
      response_timer id (holding_timer id (xact_timer id set_peer
        (update_or_delete id (ogs_gtp_xact_update_tx id type teid pkbuf))))
  end.

Definition OGS_GTP_SQN_TO_XID (version : Z) (sqn : list Z) : Z :=
  if version =? 1 then OGS_GTP1_SQN_TO_XID sqn else OGS_GTP2_SQN_TO_XID sqn.

Definition ogs_gtp_xact_remote_create (node : nat) (version : Z) (sqn : list Z) : M world (option Z) :=
  id ← pool_alloc (new_xact version REMOTE_ORIGINATOR (OGS_GTP_SQN_TO_XID version sqn) node None);
  match id with
  | None => mret None
  | Some id =>
      ogs_list_of REMOTE_ORIGINATOR node (λ l, l ++ [id]);;
      response_timer id (holding_timer id (xact_timer id set_peer (mret (Some id))))
  end.

(** ** Receiving *)

(** [if (xact->tm_x) ogs_timer_start(xact->tm_x, duration)] and [.._stop]. *)
Definition start_response (id : Z) : M world unit :=
  xact_upd id (λ x, set_response ((λ _, Armed (t3_response_duration conf)) <$> tm_response x) x).
Definition stop_response (id : Z) : M world unit :=
  xact_upd id (λ x, set_response ((λ _, Idle) <$> tm_response x) x).
Definition start_holding (id : Z) : M world unit :=
  xact_upd id (λ x, set_holding ((λ _, Armed (t3_holding_duration conf)) <$> tm_holding x) x).
Definition stop_holding (id : Z) : M world unit :=
  xact_upd id (λ x, set_holding ((λ _, Idle) <$> tm_holding x) x).
Definition stop_peer (id : Z) : M world unit :=
  xact_upd id (λ x, set_peer ((λ _, Idle) <$> tm_peer x) x).

(** A duplicate of the message of step [prev]: the reply is sent again. *)
Definition rx_duplicate (id : Z) (x : xact) (prev : nat) : M world ogs_rv :=
  if negb ((step x =? S prev) || (step x =? S (S prev)))%nat then mret OGS_ERROR
  else
    reply ← seq_get x (S prev);
    match snd reply with
    | Some pkt => start_holding id;; emit [Sent (gnode x) pkt]
    | None => mret tt
    end;;
    mret OGS_RETRY.

Definition ogs_gtp_xact_update_rx (id : Z) (type : Z) : M world ogs_rv :=
  let accept :=
    stop_response id;;
    seq_step id (λ s, (type, snd s));;
    mret OGS_OK in
  x ← xact_get id;
  match org x, ogs_gtp_xact_get_stage (gtp_version x) type (xid x) with
  | LOCAL_ORIGINATOR, INTERMEDIATE_STAGE =>
      s ← seq_get x 1;
      if fst s =? type then rx_duplicate id x 1
      else if negb (step x =? 1)%nat then mret OGS_ERROR
      else start_holding id;; accept
  | LOCAL_ORIGINATOR, FINAL_STAGE =>
      if negb (step x =? 1)%nat then mret OGS_ERROR else accept
  | REMOTE_ORIGINATOR, INITIAL_STAGE =>
      s ← seq_get x 0;
      if fst s =? type then rx_duplicate id x 0
      else if negb (step x =? 0)%nat then mret OGS_ERROR
      else start_holding id;; accept
  | REMOTE_ORIGINATOR, FINAL_STAGE =>
      if negb (step x =? 2)%nat then mret OGS_ERROR else accept
  | _, _ => mret OGS_ERROR
  end.

(** What [ogs_gtp_xact_commit] decides before it sends. *)
Inductive commit_action := Fail | Finish | Keep | Send (start : bool).
Definition commit_check (o : originator) (stage : stage_t) (step : nat) : commit_action :=
  match o, stage with
  | LOCAL_ORIGINATOR, INITIAL_STAGE => if (step =? 1)%nat then Send true else Fail
  | LOCAL_ORIGINATOR, INTERMEDIATE_STAGE => if (step =? 2)%nat then Keep else Fail
  | LOCAL_ORIGINATOR, FINAL_STAGE =>
      if negb ((step =? 2) || (step =? 3))%nat then Fail
      else if (step =? 2)%nat then Finish else Send false
  | REMOTE_ORIGINATOR, INTERMEDIATE_STAGE => if (step =? 2)%nat then Send true else Fail
  | REMOTE_ORIGINATOR, FINAL_STAGE =>
      if negb ((step =? 2) || (step =? 3))%nat then Fail
      else if (step =? 3)%nat then Finish else Send false
  | _, _ => Fail
  end.

(** [pkbuf = xact->seq[xact->step-1].pkbuf; ogs_assert(pkbuf); sendto]. *)
Definition send_last (id : Z) : M world unit :=
  x ← xact_get id;
  last ← seq_last x;
  pkt ← m_some (snd last);
  emit [Sent (gnode x) pkt].

Definition ogs_gtp_xact_commit (id : Z) : M world ogs_rv :=
  x ← xact_get id;
  last ← seq_last x;
  match commit_check (org x) (ogs_gtp_xact_get_stage (gtp_version x) (fst last) (xid x)) (step x) with
  | Fail => ogs_gtp_xact_delete id;; mret OGS_ERROR
  | Finish => ogs_gtp_xact_delete id;; mret OGS_OK
  | Keep => mret OGS_OK
  | Send start =>
      m_when start (start_response id);;
      send_last id;;
      mret OGS_OK
  end.

(** ** Expiry: the callbacks of the timers get the id of the transaction *)

Definition response_timeout (id : Z) : M world unit :=
  m_assert ((OGS_MIN_POOL_ID <=? id) && (id <=? OGS_MAX_POOL_ID));;
  w ← m_get;
  match xacts w !! id with
  | None => mret tt
  | Some x =>
      _ ← seq_last x;
      xact_upd id (set_response_rcount (u8 (response_rcount x - 1)));;
      if 0 <? u8 (response_rcount x - 1) then start_response id;; send_last id
      else
        emit (match xcb x with Some c => [Called id c] | None => [] end);;
        ogs_gtp_xact_delete id;;
        mret tt
  end.

Definition holding_timeout (id : Z) : M world unit :=
  m_assert ((OGS_MIN_POOL_ID <=? id) && (id <=? OGS_MAX_POOL_ID));;
  w ← m_get;
  match xacts w !! id with
  | None => mret tt
  | Some x =>
      _ ← seq_last x;
      xact_upd id (set_holding_rcount (u8 (holding_rcount x - 1)));;
      if 0 <? u8 (holding_rcount x - 1) then start_holding id
      else ogs_gtp_xact_delete id;; mret tt
  end.

Definition peer_timeout (id : Z) : M world unit :=
  m_assert ((OGS_MIN_POOL_ID <=? id) && (id <=? OGS_MAX_POOL_ID));;
  w ← m_get;
  match xacts w !! id with
  | None => mret tt
  | Some x =>
      _ ← seq_last x;
      emit (match peer_cb x with Some c => [Called id c] | None => [] end)
  end.

(** ** Receiving from the network *)

(** The first transaction of a list with the given version and id. *)
Fixpoint find_xid (ids : list Z) (version x : Z) : M world (option Z) :=
  match ids with
  | [] => mret None
  | id :: ids =>
      new ← xact_get id;
      if (gtp_version new =? version) && (xid new =? x) then mret (Some id) else find_xid ids version x
  end.

(** The list that a message belongs to: None for an unknown message. *)
Definition gtp1_rx_originator (type xid : Z) : option originator :=
  match ogs_gtp1_xact_get_stage type xid with
  | INITIAL_STAGE => Some REMOTE_ORIGINATOR
  | INTERMEDIATE_STAGE => Some LOCAL_ORIGINATOR
  | FINAL_STAGE =>
      if type =? OGS_GTP1_SGSN_CONTEXT_ACKNOWLEDGE_TYPE then Some REMOTE_ORIGINATOR
      else Some LOCAL_ORIGINATOR
  | UNKNOWN_STAGE => None
  end.
Definition failure_types : list Z :=
  [OGS_GTP2_MODIFY_BEARER_FAILURE_INDICATION_TYPE; OGS_GTP2_DELETE_BEARER_FAILURE_INDICATION_TYPE;
   OGS_GTP2_BEARER_RESOURCE_FAILURE_INDICATION_TYPE].
Definition gtp2_rx_originator (type xid : Z) : option originator :=
  match ogs_gtp2_xact_get_stage type xid with
  | INITIAL_STAGE => Some REMOTE_ORIGINATOR
  | INTERMEDIATE_STAGE => Some LOCAL_ORIGINATOR
  | FINAL_STAGE =>
      if negb (Z.land xid OGS_GTP_CMD_XACT_ID =? 0) then
        if decide (type ∈ failure_types) then Some LOCAL_ORIGINATOR else Some REMOTE_ORIGINATOR
      else Some LOCAL_ORIGINATOR
  | UNKNOWN_STAGE => None
  end.

(** The common end of the two [receive]: the value is the return code and the
    transaction for [*xact]. *)
Definition xact_receive (node : nat) (version type : Z) (sqn : list Z) (o : option originator)
    : M world (ogs_rv * option Z) :=
  w ← m_get;
  n ← m_some (nodes w !! node);
  match o with
  | None => mret (OGS_ERROR, None)
  | Some o =>
      new ← find_xid (list_of o n) version (OGS_GTP_SQN_TO_XID version sqn);
      new ← (match new with
             | Some id => mret (Some id)
             | None => ogs_gtp_xact_remote_create node version sqn
             end);
      match new with
      | None => mret (OGS_ERROR, None)
      | Some id =>
          rv ← ogs_gtp_xact_update_rx id type;
          match rv with
          | OGS_ERROR => ogs_gtp_xact_delete id;; mret (OGS_ERROR, None)
          | OGS_RETRY => mret (OGS_RETRY, None)
          | _ => mret (rv, Some id)
          end
      end
  end.

(** [s]: the header has a sequence number. *)
Definition ogs_gtp1_xact_receive (node : nat) (s : bool) (type : Z) (sqn : list Z)
    : M world (ogs_rv * option Z) :=
  if negb s then mret (OGS_ERROR, None)
  else xact_receive node 1 type sqn (gtp1_rx_originator type (OGS_GTP1_SQN_TO_XID sqn)).
Definition ogs_gtp_xact_receive (node : nat) (type : Z) (sqn : list Z) : M world (ogs_rv * option Z) :=
  xact_receive node 2 type sqn (gtp2_rx_originator type (OGS_GTP2_SQN_TO_XID sqn)).
End xact.
