(* ===== verification/GtpInv.v ===== *)
(** * GTP transactions: the invariant

    What holds of every GTP transaction - a message history that agrees with
    its version, id and step, and timers that run only when their callbacks
    can be served - and that associations are mutual, over the invariant of
    XactInv.v; deletion with its deassociation, and creation. *)
From S2P Require Import Prelude Pool XactBase XactInv GtpTypes GtpXact.
#[local] Open Scope Z_scope.

(** Takes a fact [∃ .., .. ∧ .. = ..] about a history apart. *)
Ltac split_history H :=
  repeat lazymatch type of H with
         | ex _ => destruct H as [? H]
         | _ ∧ _ => destruct H as [? H]
         end.

Section inv.
Context {C : Type}.
Implicit Types (x : xact (C:=C)).

(** The stage of a message in a transaction. *)
Definition stage_in x (type : Z) : stage_t := ogs_gtp_xact_get_stage (gtp_version x) type (xid x).

(** The history of a transaction at its step. *)
Definition history x : Prop :=
  let has s t := stage_in x t = s in
  let reply t := has INTERMEDIATE_STAGE t ∨ has FINAL_STAGE t in
  match org x, step x with
  | _, O => seq x = [(0, None); (0, None); (0, None)]
  | LOCAL_ORIGINATOR, 1%nat => ∃ t p, has INITIAL_STAGE t ∧ seq x = [(t, Some p); (0, None); (0, None)]
  | LOCAL_ORIGINATOR, 2%nat => ∃ t p t', has INITIAL_STAGE t ∧ reply t' ∧
      seq x = [(t, Some p); (t', None); (0, None)]
  | LOCAL_ORIGINATOR, 3%nat => ∃ t p t' t'' p'', has INITIAL_STAGE t ∧ reply t' ∧ has FINAL_STAGE t'' ∧
      seq x = [(t, Some p); (t', None); (t'', Some p'')]
  | REMOTE_ORIGINATOR, 1%nat => ∃ t, has INITIAL_STAGE t ∧ seq x = [(t, None); (0, None); (0, None)]
  | REMOTE_ORIGINATOR, 2%nat => ∃ t t' p', has INITIAL_STAGE t ∧ reply t' ∧
      seq x = [(t, None); (t', Some p'); (0, None)]
  | REMOTE_ORIGINATOR, 3%nat => ∃ t t' p' t'', has INITIAL_STAGE t ∧ reply t' ∧ has FINAL_STAGE t'' ∧
      seq x = [(t, None); (t', Some p'); (t'', None)]
  | _, _ => False
  end.

(** The response timer runs while a message of ours is unanswered; the other
    timers only after the first message. *)
Record xact_ok x : Prop := {
  xo_history : history x;
  xo_response : ∀ d, tm_response x = Some (Armed d) →
    (org x = LOCAL_ORIGINATOR ∧ step x = 1%nat) ∨ (org x = REMOTE_ORIGINATOR ∧ step x = 2%nat);
  xo_holding : ∀ d, tm_holding x = Some (Armed d) → step x ≠ 0%nat;
  xo_peer : ∀ d, tm_peer x = Some (Armed d) → step x ≠ 0%nat }.

Lemma history_length x : xact_ok x → length (seq x) = 3%nat.
Proof.
  intros [H _ _ _]. unfold history in H. cbv zeta in H. destruct (org x), (step x) as [|[|[|[|?]]]]; try done;
    split_history H; by rewrite H.
Qed.

(** Setting a timer or the association keeps the rest. *)
Lemma timer_count_response f x : timer_count (set_response (f <$> tm_response x) x) = timer_count x.
Proof. unfold timer_count, some_timers. cbn. by destruct (tm_response x), (tm_holding x), (tm_peer x). Qed.
Lemma timer_count_holding f x : timer_count (set_holding (f <$> tm_holding x) x) = timer_count x.
Proof. unfold timer_count, some_timers. cbn. by destruct (tm_response x), (tm_holding x), (tm_peer x). Qed.
Lemma timer_count_peer f x : timer_count (set_peer (f <$> tm_peer x) x) = timer_count x.
Proof. unfold timer_count, some_timers. cbn. by destruct (tm_response x), (tm_holding x), (tm_peer x). Qed.

Lemma set_assoc_ok i x : xact_ok x → xact_ok (set_assoc i x).
Proof. by intros []. Qed.
Lemma set_response_rcount_ok n x : xact_ok x → xact_ok (set_response_rcount n x).
Proof. by intros []. Qed.
Lemma set_holding_rcount_ok n x : xact_ok x → xact_ok (set_holding_rcount n x).
Proof. by intros []. Qed.
Lemma set_response_ok t x :
  xact_ok x → (∀ d, t = Some (Armed d) →
    (org x = LOCAL_ORIGINATOR ∧ step x = 1%nat) ∨ (org x = REMOTE_ORIGINATOR ∧ step x = 2%nat)) →
  xact_ok (set_response t x).
Proof. intros [] Ht. by split. Qed.
Lemma set_holding_ok t x : xact_ok x → (∀ d, t = Some (Armed d) → step x ≠ 0%nat) → xact_ok (set_holding t x).
Proof. intros [] Ht. by split. Qed.
Lemma set_peer_ok t x : xact_ok x → (∀ d, t = Some (Armed d) → step x ≠ 0%nat) → xact_ok (set_peer t x).
Proof. intros [] Ht. by split. Qed.
Lemma idle_response_ok x : xact_ok x → xact_ok (set_response ((λ _, Idle) <$> tm_response x) x).
Proof. intros H. apply set_response_ok; [done|]. by destruct (tm_response x). Qed.
End inv.

Abbreviation table_ok := (XactInv.world_ok org gnode timer_count xact_ok).
Abbreviation deleted := (XactInv.deleted org gnode seq timer_count).
Abbreviation created := (XactInv.created org gnode timer_count).
Abbreviation draft := (XactInv.draft org gnode).

Section world.
Context {C : Type}.
Abbreviation world := (XactBase.world (xact (C:=C)) C).
Implicit Types (x : xact (C:=C)) (w : world).
Variable conf : gtp_conf.

(** Associations are mutual. *)
Definition assoc_ok (m : gmap Z xact) : Prop :=
  ∀ i x, m !! i = Some x → assoc_xact_id x ≠ OGS_INVALID_POOL_ID →
    assoc_xact_id x ≠ i ∧ ∃ y, m !! assoc_xact_id x = Some y ∧ assoc_xact_id y = i.

Record world_ok (P T : nat) w : Prop := {
  wo_table : table_ok P T w;
  wo_assoc : assoc_ok (xacts w) }.

Lemma no_invalid P T w : table_ok P T w → xacts w !! OGS_INVALID_POOL_ID = None.
Proof.
  intros Hok. apply eq_None_not_Some. intros Hid. pose proof (wo_range Hok _ Hid) as Hr.
  unfold OGS_MIN_POOL_ID, OGS_INVALID_POOL_ID in *. lia.
Qed.

(** ** Deletion *)

(** The world in which the partner of [x] has lost its association. *)
Definition unlinked x w : world := set_xacts (alter (set_assoc OGS_INVALID_POOL_ID) (assoc_xact_id x)) w.
Definition removed (id : Z) x w w' : Prop :=
  ∃ n, nodes w !! gnode x = Some n ∧ w' = deleted id x n (unlinked x w).

Lemma alter_none (f : xact → xact) (m : gmap Z (xact (C:=C))) i : m !! i = None → alter f i m = m.
Proof.
  intros Hi. apply map_eq. intros j. destruct (decide (j = i)) as [->|Hj].
  - by rewrite lookup_alter_eq, Hi.
  - by rewrite lookup_alter_ne.
Qed.

Lemma unlinked_ok P T id x w :
  world_ok P T w → xacts w !! id = Some x →
  table_ok P T (unlinked x w) ∧ xacts (unlinked x w) !! id = Some x.
Proof.
  intros [Ht Ha] Hx. unfold unlinked. destruct (xacts w !! assoc_xact_id x) as [y|] eqn:Hy.
  - assert (Hne : assoc_xact_id x ≠ id).
    { apply Ha; [done|]. intros E. rewrite E, (no_invalid P T w Ht) in Hy. done. }
    split; [|cbn; by rewrite lookup_alter_ne].
    replace (set_xacts _ w) with (put (assoc_xact_id x) (set_assoc OGS_INVALID_POOL_ID y) [] w).
    + eapply world_put_ok; try done. by apply set_assoc_ok, (wo_xact Ht _ _ Hy).
    + unfold put, set_xacts. rewrite app_nil_r. f_equal. apply map_eq. intros j.
      destruct (decide (j = assoc_xact_id x)) as [->|Hj].
      * by rewrite lookup_insert_eq, lookup_alter_eq, Hy.
      * by rewrite lookup_insert_ne, lookup_alter_ne.
  - unfold set_xacts. rewrite alter_none by done. by destruct w.
Qed.

Lemma deassociate_run i j x y w :
  xacts w !! i = Some x → xacts w !! j = Some y → j ≠ i →
  assoc_xact_id x ≠ OGS_INVALID_POOL_ID → assoc_xact_id y ≠ OGS_INVALID_POOL_ID →
  ogs_gtp_xact_deassociate i j w = Some (tt, set_xacts (λ m,
    <[j := set_assoc OGS_INVALID_POOL_ID y]> (<[i := set_assoc OGS_INVALID_POOL_ID x]> m)) w).
Proof.
  intros Hx Hy Hne Hax Hay. unfold ogs_gtp_xact_deassociate, xact_get, xact_upd, m_assert.
  erewrite bind_step by by rewrite Hx. erewrite bind_step by by rewrite Hy.
  rewrite !(proj2 (Z.eqb_neq _ _)) by done. do 2 erewrite bind_step by reflexivity.
  erewrite bind_step by by rewrite Hx. cbn. by rewrite lookup_insert_ne, Hy.
Qed.

(** The deletion of a transaction without partner. *)
Lemma delete_run_alone id x n w :
  xacts w !! id = Some x → xacts w !! assoc_xact_id x = None → nodes w !! gnode x = Some n →
  ogs_gtp_xact_delete id w = Some (OGS_OK, deleted id x n w).
Proof.
  intros Hx Ha Hn. unfold ogs_gtp_xact_delete, xact_get, emit, m_modify, ogs_list_of, pool_free, m_get, mbind, M_bind.
  rewrite Hx. cbn -[timer_count]. rewrite Ha. cbn -[timer_count]. by rewrite Hn.
Qed.

Ltac same_xacts :=
  match goal with |- ?f (World ?a _ _ _ _ _ _) = Some (_, World ?b _ _ _ _ _ _) => enough (a = b) as -> by done end.

Lemma delete_run P T id x n w :
  world_ok P T w → xacts w !! id = Some x → nodes w !! gnode x = Some n →
  ogs_gtp_xact_delete id w = Some (OGS_OK, deleted id x n (unlinked x w)).
Proof.
  intros [Ht Ha] Hx Hn. unfold ogs_gtp_xact_delete, xact_get, emit, m_modify, ogs_list_of, pool_free, m_get, mbind, M_bind.
  rewrite Hx. cbn -[timer_count]. unfold XactInv.deleted, unlinked. cbn -[timer_count].
  destruct (xacts w !! assoc_xact_id x) as [y|] eqn:Hy.
  - assert (H0 : assoc_xact_id x ≠ OGS_INVALID_POOL_ID).
    { intros E. rewrite E, (no_invalid P T w Ht) in Hy. done. }
    destruct (Ha _ _ Hx H0) as (Hne & y' & Hy' & Hay). rewrite Hy in Hy'. injection Hy' as <-.
    erewrite (deassociate_run id (assoc_xact_id x) x y); [|done..|].
    2: { rewrite Hay. intros ->. by rewrite (no_invalid P T w Ht) in Hx. }
    cbn -[timer_count]. rewrite Hn.
    cbn -[timer_count]. same_xacts. apply map_eq. intros j.
    destruct (decide (j = id)) as [->|Hj]; [by rewrite !lookup_delete_eq|]. rewrite !lookup_delete_ne by done.
    destruct (decide (j = assoc_xact_id x)) as [->|Hja].
    + by rewrite lookup_insert_eq, lookup_alter_eq, Hy.
    + by rewrite !lookup_insert_ne, lookup_alter_ne.
  - cbn -[timer_count]. rewrite Hn. cbn -[timer_count]. same_xacts. f_equal. symmetry. by apply alter_none.
Qed.

Lemma assoc_removed P T id x w :
  world_ok P T w → xacts w !! id = Some x → assoc_ok (delete id (xacts (unlinked x w))).
Proof.
  intros [Ht Ha] Hx i y [Hne Hy]%lookup_delete_Some Hay. cbn in Hy.
  apply lookup_alter_Some in Hy as [(<- & y0 & Hy & ->)|(Hia & Hy)]; [done|].
  destruct (Ha _ _ Hy Hay) as (Hneq & z & Hz & Haz). split; [done|]. exists z. split; [|done].
  apply lookup_delete_Some. split.
  - intros E. rewrite <- E, Hx in Hz. injection Hz as <-. congruence.
  - cbn. rewrite lookup_alter_ne; [done|]. intros E. rewrite <- E in Hz.
    assert (H0 : assoc_xact_id x ≠ OGS_INVALID_POOL_ID).
    { intros E0. by rewrite E0, (no_invalid P T w Ht) in Hz. }
    destruct (Ha _ _ Hx H0) as (_ & z' & Hz' & Haz'). simplify_eq.
Qed.

Lemma wp_delete P T id x (Q : ogs_rv → world → Prop) w :
  world_ok P T w → xacts w !! id = Some x →
  (∀ w', world_ok P T w' → removed id x w w' → Q OGS_OK w') →
  wp (ogs_gtp_xact_delete id) Q w.
Proof.
  intros Hok Hx HQ. destruct (wo_node (wo_table _ _ _ Hok) _ _ Hx) as (n & Hn & _).
  destruct (unlinked_ok P T id x w Hok Hx) as [Ht1 Hx1].
  eapply wp_eq; [by eapply delete_run|]. apply HQ; [|by exists n]. split.
  - by apply deleted_ok.
  - by eapply assoc_removed.
Qed.
Lemma wp_remove P T id x {A} (a : A) (Q : A → world → Prop) w :
  world_ok P T w → xacts w !! id = Some x →
  (∀ w', world_ok P T w' → removed id x w w' → Q a w') →
  wp (ogs_gtp_xact_delete id;; mret a) Q w.
Proof. intros Hok Hx HQ. apply wp_bind. eapply wp_delete; [done..|]. intros w' H1 H2. apply wp_ret. by apply HQ. Qed.

(** A transaction of a consistent world is replaced by another state of it. *)
Lemma xact_put_ok P T id x x' es w :
  world_ok P T w → xacts w !! id = Some x → xact_ok x' → org x' = org x → gnode x' = gnode x →
  timer_count x' = timer_count x → assoc_xact_id x' = assoc_xact_id x → world_ok P T (put id x' es w).
Proof.
  intros [Ht Ha] Hx Hx' Ho Hk Hc Hax. split; [by eapply world_put_ok|].
  assert (Hl : ∀ i y, xacts (put id x' es w) !! i = Some y → ∃ y0, xacts w !! i = Some y0 ∧ assoc_xact_id y = assoc_xact_id y0).
  { intros i y Hy. cbn in Hy. apply lookup_insert_Some in Hy as [[<- <-]|[_ Hy]]; eauto. }
  intros i y Hy Hay. destruct (Hl _ _ Hy) as (y0 & Hy0 & E). rewrite E in *.
  destruct (Ha _ _ Hy0 Hay) as (Hne & z & Hz & Haz). split; [done|].
  destruct (decide (assoc_xact_id y0 = id)) as [E'|Hj].
  - rewrite E' in *. exists x'. rewrite Hx in Hz. injection Hz as ->. split; [apply put_at|congruence].
  - exists z. cbn. by rewrite lookup_insert_ne.
Qed.
(** ** Creation *)

(** A fresh transaction with its timers. *)
Definition ready_xact (version : Z) o (t : Z) (k : nat) (cb : option C) (response peer : bool) : xact :=
  Xact version o t k cb 0 (replicate 3 (0, None))
    (if response then Some Idle else None) (if response then n3_response_rcount conf else 0)
    (Some Idle) (n3_holding_rcount conf)
    (if peer then Some Idle else None) None OGS_INVALID_POOL_ID.

Lemma ready_ok version o t k cb r p : xact_ok (ready_xact version o t k cb r p).
Proof. split; cbn; try done; [by destruct o|by destruct r|by destruct p]. Qed.

(** A transaction on which nothing has happened. *)
Record blank o (k : nat) x : Prop := {
  bl_org : org x = o; bl_node : gnode x = k;
  bl_seq : seq x = replicate 3 (0, None); bl_assoc : assoc_xact_id x = OGS_INVALID_POOL_ID }.

Lemma wp_delete_draft P T id x o k n g t (Q : option Z → world → Prop) w :
  world_ok P T w → nodes w !! k = Some n → xacts w !! id = None → id ≠ OGS_INVALID_POOL_ID →
  (1 ≤ pool_avail w)%nat → blank o k x → (timer_count x + t = timers_avail w)%nat →
  Q None (not_created id g w) → wp (ogs_gtp_xact_delete id;; mret None) Q (draft id x n g t w).
Proof.
  intros [Ht Ha] Hn Hid H0 H1 [Ho Hk Hs Hax] Hc HQ. rewrite <- Hk in Hn. apply wp_bind. eapply wp_eq.
  { apply delete_run_alone; [apply lookup_insert_eq| |apply lookup_insert_eq]. cbn.
    rewrite Hax, lookup_insert_ne by done. by eapply no_invalid. }
  apply wp_ret. erewrite <- draft_removed in HQ; [exact HQ|done..| |].
  - cbn. by rewrite Hs.
  - eexists. split; [apply lookup_insert_eq|done].
Qed.

Lemma wp_xact_timer P T id set x o k n g t kont (Q : option Z → world → Prop) w :
  world_ok P T w → nodes w !! k = Some n → xacts w !! id = None → id ≠ OGS_INVALID_POOL_ID →
  (1 ≤ pool_avail w)%nat → blank o k x → (∀ t, blank o k (set t x)) →
  (timer_count (set None x) + t = timers_avail w)%nat →
  (t = 0%nat → Q None (not_created id g w)) →
  (∀ t', t = S t' → wp kont Q (draft id (set (Some Idle) x) n g t' w)) →
  wp (xact_timer id set kont) Q (draft id x n g t w).
Proof.
  intros Hok Hn Hid H0 H1 Hb Hbs Hc HN HS. unfold xact_timer. apply wp_bind. destruct t as [|t].
  - apply wp_timer_add_none; [done|]. apply wp_bind, wp_upd_draft.
    + by rewrite (bl_node _ _ _ (Hbs None)), (bl_node _ _ _ Hb).
    + by rewrite (bl_org _ _ _ (Hbs None)), (bl_org _ _ _ Hb).
    + eapply wp_delete_draft; try done. by apply HN.
  - eapply (wp_timer_add_some t); [done|]. change (set_timers _ _) with (draft id x n g t w).
    apply wp_bind, wp_upd_draft.
    + by rewrite (bl_node _ _ _ (Hbs (Some Idle))), (bl_node _ _ _ Hb).
    + by rewrite (bl_org _ _ _ (Hbs (Some Idle))), (bl_org _ _ _ Hb).
    + by apply HS.
Qed.

Lemma invalid_ne P T w : table_ok P T w → next_id w ≠ OGS_INVALID_POOL_ID.
Proof.
  intros Ht. pose proof (world_next_id_range P T w Ht). unfold OGS_MIN_POOL_ID, OGS_INVALID_POOL_ID in *. lia.
Qed.

(** The three runs of timers: how many are needed, and the transaction that
    has them. *)
Section timers.
Variables (P T : nat) (w : world) (id : Z) (version : Z) (o : originator) (t : Z) (k : nat) (cb : option C).
Variables (n : node_t) (g : Z) (kont : M world (option Z)) (Q : option Z → world → Prop).
Hypotheses (Hok : world_ok P T w) (Hn : nodes w !! k = Some n) (Hid : xacts w !! id = None)
  (H0 : id ≠ OGS_INVALID_POOL_ID) (H1 : (1 ≤ pool_avail w)%nat).

Ltac timer := eapply wp_xact_timer; [done..|split; done|done|cbn; lia| |].
Ltac count := match goal with |- context [timer_count ?x] => let c := eval vm_compute in (timer_count x) in change (timer_count x) with c end.
Ltac upd := apply wp_bind, wp_upd_draft; [done|done|].

Lemma timers_without_response :
  let x := ready_xact version o t k cb false false in
  ((timers_avail w < 1)%nat → Q None (not_created id g w)) →
  ((1 ≤ timers_avail w)%nat → wp kont Q (created id x n g w)) →
  wp (holding_timer conf id kont) Q (draft id (new_xact version o t k cb) n g (timers_avail w) w).
Proof.
  intros x HN HS. timer; [intros E; apply HN; lia|]. intros t1 E1. upd.
  assert (E : created id x n g w = draft id x n g t1 w) by (unfold XactInv.created, XactInv.draft; f_equal; count; lia).
  change (wp kont Q (draft id x n g t1 w)). rewrite <- E. apply HS. lia.
Qed.

Lemma timers_without_peer :
  let x := ready_xact version o t k cb true false in
  ((timers_avail w < 2)%nat → Q None (not_created id g w)) →
  ((2 ≤ timers_avail w)%nat → wp kont Q (created id x n g w)) →
  wp (response_timer conf id (holding_timer conf id kont)) Q
    (draft id (new_xact version o t k cb) n g (timers_avail w) w).
Proof.
  intros x HN HS. timer; [intros E; apply HN; lia|]. intros t1 E1. upd.
  timer; [intros E; apply HN; lia|]. intros t2 E2. upd.
  assert (E : created id x n g w = draft id x n g t2 w) by (unfold XactInv.created, XactInv.draft; f_equal; count; lia).
  change (wp kont Q (draft id x n g t2 w)). rewrite <- E. apply HS. lia.
Qed.

Lemma timers_all :
  let x := ready_xact version o t k cb true true in
  ((timers_avail w < 3)%nat → Q None (not_created id g w)) →
  ((3 ≤ timers_avail w)%nat → wp kont Q (created id x n g w)) →
  wp (response_timer conf id (holding_timer conf id (xact_timer id set_peer kont))) Q
    (draft id (new_xact version o t k cb) n g (timers_avail w) w).
Proof.
  intros x HN HS. timer; [intros E; apply HN; lia|]. intros t1 E1. upd.
  timer; [intros E; apply HN; lia|]. intros t2 E2. upd.
  timer; [intros E; apply HN; lia|]. intros t3 E3.
  assert (E : created id x n g w = draft id x n g t3 w) by (unfold XactInv.created, XactInv.draft; f_equal; count; lia).
  change (wp kont Q (draft id x n g t3 w)). rewrite <- E. apply HS. lia.
Qed.
End timers.
End world.
