(* ===== verification/GtpOps.v ===== *)
(** * GTP transactions: what each operation does

    One lemma per operation of lib/gtp/xact.c over worlds that satisfy the
    invariant: the value, the events and the next state on every branch. *)
From S2P Require Import Prelude Pool XactBase XactInv GtpTypes GtpXact GtpInv.
#[local] Open Scope Z_scope.

Section ops.
Context {C : Type}.
Abbreviation world := (XactBase.world (xact (C:=C)) C).
Implicit Types (x : xact (C:=C)) (w : world).
Variable conf : gtp_conf.

(** A transaction with one more message in its history. *)
Definition stepped x (s : Z * option (list Z)) : xact :=
  set_history (S (step x)) (<[step x := s]> (seq x)) x.

Lemma wp_seq_step id f x old es (Q : unit → world → Prop) w :
  seq x !! step x = Some old → Q tt (put id (stepped x (f old)) es w) →
  wp (seq_step id f) Q (put id x es w).
Proof.
  intros Hs HQ. unfold seq_step. apply wp_bind, wp_get_put, wp_bind. unfold seq_get. rewrite Hs.
  apply wp_some. by apply wp_upd_put.
Qed.
Lemma wp_seq_last x s (Q : Z * option (list Z) → world → Prop) w :
  step x ≠ 0%nat → seq x !! pred (step x) = Some s → Q s w → wp (seq_last x) Q w.
Proof. intros H0 Hs HQ. unfold seq_last, seq_get. destruct (step x); [done|]. cbn in Hs. by rewrite Hs. Qed.
Lemma last_message x : xact_ok x → step x ≠ 0%nat → ∃ s, seq x !! pred (step x) = Some s.
Proof.
  intros Hx Hs. apply lookup_lt_is_Some_2. rewrite history_length by done.
  pose proof (xo_history _ Hx) as Hh. unfold history in Hh. destruct (org x), (step x) as [|[|[|[|?]]]]; cbn; try lia; done.
Qed.

(** A state of a transaction that is still that transaction. *)
Definition same_xact x x' : Prop :=
  org x' = org x ∧ gnode x' = gnode x ∧ timer_count x' = timer_count x ∧ assoc_xact_id x' = assoc_xact_id x.

Lemma moved_ok P T id x x' es w :
  world_ok P T w → xacts w !! id = Some x → same_xact x x' → xact_ok x' → world_ok P T (put id x' es w).
Proof. intros Hok Hx (H1 & H2 & H3 & H4) Hx'. by eapply xact_put_ok. Qed.
Lemma log_ok P T id x es w : world_ok P T w → xacts w !! id = Some x → world_ok P T (put id x es w).
Proof. intros Hok Hx. eapply moved_ok; try done. by eapply (wo_xact (wo_table _ _ _ Hok)). Qed.

(** ** Sending *)

(** What a transaction may send: the steps of [final_ok] that lie within the
    history. *)
Definition tx_valid (final_ok : nat → bool) x (type : Z) : Prop :=
  org x = LOCAL_ORIGINATOR →
    stage_in x type ≠ UNKNOWN_STAGE ∧
    (stage_in x type = FINAL_STAGE → final_ok (step x) = true → step x = 2%nat).

Lemma stepped_tx_ok F x type m :
  xact_ok x → tx_valid F x type → tx_allowed F x (stage_in x type) = Some true →
  xact_ok (stepped x (type, Some m)).
Proof.
  intros Hx Hv Ht. pose proof Hx as [Hh Hr Hho Hp]. unfold tx_allowed in Ht.
  assert (Hstep : (org x = LOCAL_ORIGINATOR ∧ stage_in x type = INITIAL_STAGE ∧ step x = 0%nat) ∨
    (org x = LOCAL_ORIGINATOR ∧ stage_in x type = FINAL_STAGE ∧ step x = 2%nat) ∨
    (org x = REMOTE_ORIGINATOR ∧ (stage_in x type = INTERMEDIATE_STAGE ∨ stage_in x type = FINAL_STAGE) ∧ step x = 1%nat)).
  { destruct (org x) eqn:Eo, (stage_in x type) eqn:Es; try done; injection Ht as Ht.
    - left. apply Nat.eqb_eq in Ht. done.
    - right. left. destruct (Hv Eo) as [_ H2]. by rewrite (H2 Es Ht).
    - right. right. apply Nat.eqb_eq in Ht. auto.
    - right. right. apply Nat.eqb_eq in Ht. auto. }
  clear Ht Hv. unfold history in Hh. cbv zeta in Hh.
  destruct Hstep as [(Eo & Es & E)|[(Eo & Es & E)|(Eo & Es & E)]]; rewrite Eo, E in Hh; split_history Hh;
    (split; [unfold history, stepped; cbn -[insert]; rewrite Eo, E; cbn -[insert]; rewrite Hh; cbn; repeat eexists; first [eassumption|exact Es|done]| | |]);
    cbn; rewrite ?E; intros d Hd; try done.
  - destruct (Hr d Hd) as [[_ ?]|[? _]]; congruence.
  - destruct (Hr d Hd) as [[_ ?]|[? _]]; congruence.
  - destruct (Hr d Hd) as [[? _]|[_ ?]]; congruence.
Qed.

(** The body of the two [update_tx]. *)
Lemma update_tx_body P T id x F stage type m pkt w :
  world_ok P T w → xacts w !! id = Some x → stage = stage_in x type → tx_valid F x type →
  wp (ok ← m_some (tx_allowed F x stage);
      if negb ok then emit [Freed pkt];; mret OGS_ERROR
      else seq_step id (λ _, (type, Some m));; mret OGS_OK) (λ rv w',
    world_ok P T w' ∧
    match tx_allowed F x stage with
    | Some true => rv = OGS_OK ∧ w' = put id (stepped x (type, Some m)) [] w
    | _ => rv = OGS_ERROR ∧ w' = put id x [Freed pkt] w
    end) w.
Proof.
  intros Hok Hx -> Hv. pose proof (wo_xact (wo_table _ _ _ Hok) _ _ Hx) as Hxo.
  pose proof (λ m, stepped_tx_ok F x type m Hxo Hv) as Hnext.
  destruct (tx_allowed F x (stage_in x type)) as [b|] eqn:Ht.
  2: { unfold tx_allowed in Ht. destruct (org x) eqn:Eo, (stage_in x type) eqn:Es; try done.
       by destruct (proj1 (Hv Eo)). }
  apply wp_bind, wp_some. apply (wp_put id x _ _ w Hx). destruct b; cbn [negb].
  - assert (Hs : (step x < 3)%nat).
    { unfold tx_allowed in Ht. destruct (org x) eqn:Eo, (stage_in x type) eqn:Es; try done;
        injection Ht as Ht; try (apply Nat.eqb_eq in Ht; lia).
      rewrite (proj2 (Hv Eo) Es Ht). lia. }
    destruct (lookup_lt_is_Some_2 (seq x) (step x)) as [old Hold]; [by rewrite history_length|].
    apply wp_bind. eapply wp_seq_step; [done|]. apply wp_ret. split; [|done].
    eapply moved_ok; [done..|]. by apply Hnext.
  - apply wp_bind, wp_emit_put, wp_ret. split; [|done]. by eapply log_ok.
Qed.

Definition final1 (s : nat) : bool := ((s =? 2) || (s =? 3))%nat.
Definition final2 (s : nat) : bool := (s =? 2)%nat.

Lemma update_tx1_ok P T id x type teid pkt w :
  world_ok P T w → xacts w !! id = Some x → gtp_version x = 1 → tx_valid final1 x type →
  wp (ogs_gtp1_xact_update_tx id type teid pkt) (λ rv w',
    world_ok P T w' ∧
    match tx_allowed final1 x (stage_in x type) with
    | Some true => rv = OGS_OK ∧
        w' = put id (stepped x (type, Some (gtp1_header type teid (xid x) (zlen pkt) ++ pkt))) [] w
    | _ => rv = OGS_ERROR ∧ w' = put id x [Freed pkt] w
    end) w.
Proof.
  intros Hok Hx Hver Hv. unfold ogs_gtp1_xact_update_tx. apply wp_bind. eapply wp_xact_get; [done|].
  assert (E : stage_in x type = ogs_gtp1_xact_get_stage type (xid x)).
  { unfold stage_in, ogs_gtp_xact_get_stage. by rewrite Hver. }
  rewrite E. by apply (update_tx_body P T id x final1).
Qed.
Lemma update_tx2_ok P T id x type teid pkt w :
  world_ok P T w → xacts w !! id = Some x → gtp_version x = 2 → tx_valid final2 x type →
  wp (ogs_gtp_xact_update_tx id type teid pkt) (λ rv w',
    world_ok P T w' ∧
    match tx_allowed final2 x (stage_in x type) with
    | Some true => rv = OGS_OK ∧
        w' = put id (stepped x (type, Some (gtp2_header type teid (xid x) (zlen pkt) ++ pkt))) [] w
    | _ => rv = OGS_ERROR ∧ w' = put id x [Freed pkt] w
    end) w.
Proof.
  intros Hok Hx Hver Hv. unfold ogs_gtp_xact_update_tx. apply wp_bind. eapply wp_xact_get; [done|].
  assert (E : stage_in x type = ogs_gtp2_xact_get_stage type (xid x)).
  { unfold stage_in, ogs_gtp_xact_get_stage. by rewrite Hver. }
  rewrite E. by apply (update_tx_body P T id x final2).
Qed.

(** ** Receiving *)

Inductive rx_kind := RxAccept (hold : bool) | RxDuplicate (reply : option (list Z)) | RxError.

(** What [ogs_gtp_xact_update_rx] makes of a message. *)
Definition rx_class x (type : Z) : rx_kind :=
  match org x, stage_in x type, step x with
  | LOCAL_ORIGINATOR, INTERMEDIATE_STAGE, 1%nat => RxAccept true
  | LOCAL_ORIGINATOR, INTERMEDIATE_STAGE, (2 | 3)%nat =>
      if default 0 (fst <$> seq x !! 1%nat) =? type then RxDuplicate (seq x !! 2%nat ≫= snd) else RxError
  | LOCAL_ORIGINATOR, FINAL_STAGE, 1%nat => RxAccept false
  | REMOTE_ORIGINATOR, INITIAL_STAGE, O => RxAccept true
  | REMOTE_ORIGINATOR, INITIAL_STAGE, (1 | 2)%nat =>
      if default 0 (fst <$> seq x !! 0%nat) =? type then RxDuplicate (seq x !! 1%nat ≫= snd) else RxError
  | REMOTE_ORIGINATOR, FINAL_STAGE, 2%nat => RxAccept false
  | _, _, _ => RxError
  end.

Definition held x : xact := set_holding ((λ _, Armed (t3_holding_duration conf)) <$> tm_holding x) x.
Definition quiet x : xact := set_response ((λ _, Idle) <$> tm_response x) x.
Definition rx_next x (type : Z) (hold : bool) : xact :=
  stepped (quiet (if hold then held x else x)) (type, None).

Lemma held_ok x : xact_ok x → step x ≠ 0%nat → xact_ok (held x).
Proof. intros H Hs. by apply set_holding_ok. Qed.
Lemma same_held x : same_xact x (held x).
Proof. split; [done|]. split; [done|]. split; [apply timer_count_holding|done]. Qed.
Lemma same_rx_next x type hold : same_xact x (rx_next x type hold).
Proof.
  split; [by destruct hold|]. split; [by destruct hold|]. split; [|by destruct hold].
  unfold rx_next, stepped. change (timer_count (set_history _ _ ?y)) with (timer_count y).
  unfold quiet. rewrite timer_count_response. destruct hold; [apply timer_count_holding|done].
Qed.

Lemma nonzero_stage x type : stage_in x type ≠ UNKNOWN_STAGE → type ≠ 0.
Proof. intros H ->. apply H. unfold stage_in, ogs_gtp_xact_get_stage. by destruct (gtp_version x =? 1). Qed.

Lemma rx_next_ok x type hold : xact_ok x → rx_class x type = RxAccept hold → xact_ok (rx_next x type hold).
Proof.
  intros Hx Hc. pose proof Hx as [Hh Hr Hho Hp]. unfold rx_class in Hc.
  assert (Hstep : (org x = LOCAL_ORIGINATOR ∧ (stage_in x type = INTERMEDIATE_STAGE ∨ stage_in x type = FINAL_STAGE) ∧ step x = 1%nat) ∨
    (org x = REMOTE_ORIGINATOR ∧ stage_in x type = INITIAL_STAGE ∧ step x = 0%nat) ∨
    (org x = REMOTE_ORIGINATOR ∧ stage_in x type = FINAL_STAGE ∧ step x = 2%nat)).
  { destruct (org x), (stage_in x type), (step x) as [|[|[|[|?]]]]; try done; try (by destruct (_ =? type)); auto. }
  assert (Hidle : ∀ d, tm_response (rx_next x type hold) ≠ Some (Armed d)).
  { intros d. unfold rx_next. destruct hold; cbn; by destruct (tm_response x). }
  clear Hc Hr. unfold history in Hh. cbv zeta in Hh.
  destruct Hstep as [(Eo & Es & E)|[(Eo & Es & E)|(Eo & Es & E)]]; rewrite Eo, E in Hh; split_history Hh;
    (split; [unfold history, rx_next, stepped; destruct hold; cbn -[insert]; rewrite Eo, E; cbn -[insert]; rewrite Hh; cbn;
        repeat eexists; first [eassumption|exact Es|done]| | |]);
    intros d Hd; try (by destruct (Hidle d)); destruct hold; done.
Qed.

Lemma wp_accept P T id x y type w :
  world_ok P T w → xacts w !! id = Some x → same_xact x y → xact_ok (stepped (quiet y) (type, None)) →
  seq y !! step y = Some (0, None) →
  wp (stop_response id;; seq_step id (λ s, (type, snd s));; mret OGS_OK)
    (λ rv w', world_ok P T w' ∧ rv = OGS_OK ∧ w' = put id (stepped (quiet y) (type, None)) [] w) (put id y [] w).
Proof.
  intros Hok Hx (H1 & H2 & H3 & H4) Hy Hs. apply wp_bind. apply wp_upd_put. fold (quiet y).
  apply wp_bind. eapply wp_seq_step; [exact Hs|]. apply wp_ret. split; [|done].
  eapply moved_ok; [done|done| |done]. split; [done|]. split; [done|]. split; [|done].
  change (timer_count (stepped _ _)) with (timer_count (quiet y)). unfold quiet. by rewrite timer_count_response.
Qed.

Lemma wp_duplicate P T id x prev s w :
  world_ok P T w → xacts w !! id = Some x → seq x !! S prev = Some s →
  step x = S prev ∨ step x = S (S prev) →
  wp (rx_duplicate conf id x prev) (λ rv w', world_ok P T w' ∧ rv = OGS_RETRY ∧
    w' = match snd s with Some pkt => put id (held x) [Sent (gnode x) pkt] w | None => w end) (put id x [] w).
Proof.
  intros Hok Hx Hs Hst. pose proof (wo_xact (wo_table _ _ _ Hok) _ _ Hx) as Hxo. unfold rx_duplicate.
  replace (negb _) with false by (symmetry; apply negb_false_iff, orb_true_iff; rewrite !Nat.eqb_eq; naive_solver).
  apply wp_bind. unfold seq_get. rewrite Hs. apply wp_some, wp_bind. destruct (snd s) as [pkt|].
  - apply wp_bind, wp_upd_put. apply wp_emit_put, wp_ret. split; [|done].
    eapply moved_ok; [done|done|apply same_held|]. apply held_ok; [done|]. destruct Hst; lia.
  - apply wp_ret, wp_ret. by rewrite (put_same id x w Hx).
Qed.

Definition rx_after id x (type : Z) w (rv : ogs_rv) w' : Prop :=
  match rx_class x type with
  | RxAccept hold => rv = OGS_OK ∧ w' = put id (rx_next x type hold) [] w
  | RxDuplicate reply => rv = OGS_RETRY ∧
      w' = match reply with Some pkt => put id (held x) [Sent (gnode x) pkt] w | None => w end
  | RxError => rv = OGS_ERROR ∧ w' = w
  end.

Lemma update_rx_ok P T id x type w :
  world_ok P T w → xacts w !! id = Some x →
  wp (ogs_gtp_xact_update_rx conf id type) (λ rv w', world_ok P T w' ∧ rx_after id x type w rv w') w.
Proof.
  intros Hok Hx. pose proof (wo_xact (wo_table _ _ _ Hok) _ _ Hx) as Hxo.
  pose proof (rx_next_ok x type) as Hnext. pose proof (xo_history _ Hxo) as Hh. pose proof (put_same id x w Hx) as Hsame.
  unfold ogs_gtp_xact_update_rx. apply (wp_put id x _ _ w Hx), wp_bind, wp_get_put.
  fold (stage_in x type). unfold rx_after. unfold rx_class in *. unfold history in Hh. cbv zeta in Hh.
  pose proof (nonzero_stage x type) as Hnz.
  assert (Hz : stage_in x type ≠ UNKNOWN_STAGE → (0 =? type) = false) by (intros H; apply Z.eqb_neq, not_eq_sym, Hnz, H).
  assert (Hget : ∀ i s (f : Z * option (list Z) → M world ogs_rv) Q,
    seq x !! i = Some s → wp (f s) Q (put id x [] w) → wp (s ← seq_get x i; f s) Q (put id x [] w)).
  { intros i s f Q Hs HQ. apply wp_bind. unfold seq_get. rewrite Hs. by apply wp_some. }
  assert (Herr : ∀ rv0 : ogs_rv, wp (mret rv0) (λ rv w', world_ok P T w' ∧ rv = rv0 ∧ w' = w) (put id x [] w)).
  { intros rv0. apply wp_ret. by rewrite Hsame. }
  assert (Hacc : ∀ hold, rx_class x type = RxAccept hold → seq x !! step x = Some (0, None) →
    wp (m_when hold (start_holding conf id);; stop_response id;; seq_step id (λ s, (type, snd s));; mret OGS_OK)
      (λ rv w', world_ok P T w' ∧ rv = OGS_OK ∧ w' = put id (rx_next x type hold) [] w) (put id x [] w)).
  { intros hold Hc Hs. specialize (Hnext hold Hxo Hc). apply wp_bind. destruct hold; cbn [m_when].
    - apply wp_upd_put. fold (held x). by apply (wp_accept P T id x (held x)); [| |apply same_held|..].
    - apply wp_ret. by apply (wp_accept P T id x x). }
  assert (Hdup : ∀ prev t s, seq x !! S prev = Some s → step x = S prev ∨ step x = S (S prev) →
    wp (if t =? type then rx_duplicate conf id x prev else mret OGS_ERROR)
      (λ rv w', world_ok P T w' ∧
        match (if t =? type then RxDuplicate (snd s) else RxError) with
        | RxAccept hold => rv = OGS_OK ∧ w' = put id (rx_next x type hold) [] w
        | RxDuplicate reply => rv = OGS_RETRY ∧
            w' = match reply with Some pkt => put id (held x) [Sent (gnode x) pkt] w | None => w end
        | RxError => rv = OGS_ERROR ∧ w' = w
        end) (put id x [] w)).
  { intros prev t s Hs Hst. destruct (t =? type); [by apply (wp_duplicate P T)|]. apply Herr. }
  unfold rx_class in Hacc.
  destruct (org x) eqn:Eo, (stage_in x type) eqn:Es; try (by apply Herr).
  all: destruct (step x) as [|[|[|[|st]]]] eqn:E; try done; cbn [Nat.eqb negb orb] in *; try (by apply Herr).
  - split_history Hh. eapply Hget; [by rewrite Hh|]. cbn [fst]. rewrite Hz by done. apply Herr.
  - split_history Hh. eapply Hget; [by rewrite Hh|]. cbn [fst]. rewrite Hz by done.
    apply (Hacc true); [done|by rewrite Hh].
  - split_history Hh. eapply Hget; [by rewrite Hh|]. rewrite Hh. apply Hdup; [by rewrite Hh|by auto].
  - split_history Hh. eapply Hget; [by rewrite Hh|]. rewrite Hh. apply Hdup; [by rewrite Hh|by auto].
  - split_history Hh. apply (Hacc false); [done|by rewrite Hh].
  - eapply Hget; [by rewrite Hh|]. cbn [fst]. rewrite Hz by done.
    apply (Hacc true); [done|by rewrite Hh].
  - split_history Hh. eapply Hget; [by rewrite Hh|]. rewrite Hh. apply Hdup; [by rewrite Hh|by auto].
  - split_history Hh. eapply Hget; [by rewrite Hh|]. rewrite Hh. apply Hdup; [by rewrite Hh|by auto].
  - split_history Hh. eapply Hget; [by rewrite Hh|]. cbn [fst].
    lazymatch goal with |- context [if ?b then _ else _] => destruct b end; [unfold rx_duplicate; rewrite E|]; apply Herr.
  - split_history Hh. apply (Hacc false); [done|by rewrite Hh].
Qed.

(** ** Committing *)

Definition last_pkt x : option (list Z) :=
  match step x with O => None | S i => seq x !! i ≫= snd end.
Definition last_type x : Z := default 0 (fst <$> seq x !! pred (step x)).
Definition commit_class x : commit_action := commit_check (org x) (stage_in x (last_type x)) (step x).
Definition waiting x : xact := set_response ((λ _, Armed (t3_response_duration conf)) <$> tm_response x) x.

Lemma same_waiting x : same_xact x (waiting x).
Proof. split; [done|]. split; [done|]. split; [apply timer_count_response|done]. Qed.

Lemma commit_class_inv x : xact_ok x →
  match commit_class x with
  | Send start => is_Some (last_pkt x) ∧ (start = true → xact_ok (waiting x))
  | _ => True
  end.
Proof.
  intros Hx. pose proof (xo_history _ Hx) as Hh. unfold history in Hh. cbv zeta in Hh.
  unfold commit_class, commit_check, last_type, last_pkt.
  assert (Hw : (org x = LOCAL_ORIGINATOR ∧ step x = 1%nat) ∨ (org x = REMOTE_ORIGINATOR ∧ step x = 2%nat) →
    xact_ok (waiting x)) by (intros ?; by apply set_response_ok).
  destruct (org x) eqn:Eo, (step x) as [|[|[|[|st]]]] eqn:E; try done; split_history Hh; rewrite Hh; cbn;
    try (rewrite Hh in *; cbn in *);
    repeat match goal with |- context [stage_in x ?t] => destruct (stage_in x t) eqn:?; try done end;
    try (split; [by eexists|by auto]);
    intuition congruence.
Qed.

Lemma wp_send_last id x pkt es (Q : unit → world → Prop) w :
  last_pkt x = Some pkt → Q tt (put id x (es ++ [Sent (gnode x) pkt]) w) →
  wp (send_last id) Q (put id x es w).
Proof.
  unfold last_pkt. intros Hl HQ. unfold send_last. apply wp_bind, wp_get_put, wp_bind. unfold seq_last.
  destruct (step x) as [|i]; [done|]. unfold seq_get.
  destruct (seq x !! i) as [[t o]|] eqn:E; [|done]. cbn in Hl. subst o.
  apply wp_some, wp_bind, wp_some. by apply wp_emit_put.
Qed.

Lemma commit_ok P T id x w :
  world_ok P T w → xacts w !! id = Some x → step x ≠ 0%nat →
  wp (ogs_gtp_xact_commit conf id) (λ rv w',
    world_ok P T w' ∧
    match commit_class x with
    | Fail => rv = OGS_ERROR ∧ removed id x w w'
    | Finish => rv = OGS_OK ∧ removed id x w w'
    | Keep => rv = OGS_OK ∧ w' = w
    | Send start => rv = OGS_OK ∧ ∃ pkt, last_pkt x = Some pkt ∧
        w' = put id (if start then waiting x else x) [Sent (gnode x) pkt] w
    end) w.
Proof.
  intros Hok Hx Hs. pose proof (wo_xact (wo_table _ _ _ Hok) _ _ Hx) as Hxo.
  destruct (last_message x Hxo Hs) as [s Hl]. pose proof (commit_class_inv x Hxo) as Hc.
  unfold ogs_gtp_xact_commit. apply wp_bind. eapply wp_xact_get; [done|]. apply wp_bind.
  eapply wp_seq_last; [done|done|]. fold (stage_in x (fst s)).
  assert (E : commit_check (org x) (stage_in x (fst s)) (step x) = commit_class x).
  { unfold commit_class, last_type. by rewrite Hl. }
  rewrite E. destruct (commit_class x) as [| | |start].
  - by eapply wp_remove.
  - by eapply wp_remove.
  - apply wp_ret. done.
  - destruct Hc as [[pkt Hp] Hw]. apply (wp_put id x _ _ w Hx), wp_bind. destruct start; cbn [m_when].
    + apply wp_upd_put. fold (waiting x). apply wp_bind. eapply (wp_send_last _ (waiting x)); [exact Hp|].
      apply wp_ret. split; [eapply moved_ok; [done|done|apply same_waiting|by apply Hw]|]. eauto.
    + apply wp_ret, wp_bind. eapply wp_send_last; [exact Hp|]. apply wp_ret. split; [by eapply log_ok|]. eauto.
Qed.

(** ** Expiry: the timer manager stops the timer and runs the callback *)

Definition fire_response (id : Z) : M world unit := stop_response id;; response_timeout conf id.
Definition fire_holding (id : Z) : M world unit := stop_holding id;; holding_timeout conf id.
Definition fire_peer (id : Z) : M world unit := stop_peer id;; peer_timeout id.

Lemma wp_find {A} id x es w (f : world → M world A) (Q : A → world → Prop) P T :
  world_ok P T w → is_Some (xacts w !! id) →
  wp (f (put id x es w)) Q (put id x es w) →
  wp (m_assert ((OGS_MIN_POOL_ID <=? id) && (id <=? OGS_MAX_POOL_ID));; w ← m_get; f w) Q (put id x es w).
Proof. intros Hok Hx HQ. apply wp_bind, wp_assert; [by eapply in_range; [apply wo_table|]|]. by apply wp_get. Qed.

Lemma same_quiet x : same_xact x (quiet x).
Proof. split; [done|]. split; [done|]. split; [apply timer_count_response|done]. Qed.
Definition unheld x : xact := set_holding ((λ _, Idle) <$> tm_holding x) x.
Lemma same_unheld x : same_xact x (unheld x).
Proof. split; [done|]. split; [done|]. split; [apply timer_count_holding|done]. Qed.
Lemma unheld_ok x : xact_ok x → xact_ok (unheld x).
Proof. intros H. apply set_holding_ok; [done|]. by destruct (tm_holding x). Qed.
Definition unpeered x : xact := set_peer ((λ _, Idle) <$> tm_peer x) x.
Lemma same_unpeered x : same_xact x (unpeered x).
Proof. split; [done|]. split; [done|]. split; [apply timer_count_peer|done]. Qed.
Lemma unpeered_ok x : xact_ok x → xact_ok (unpeered x).
Proof. intros H. apply set_peer_ok; [done|]. by destruct (tm_peer x). Qed.
Lemma same_trans x y z : same_xact x y → same_xact y z → same_xact x z.
Proof. unfold same_xact. intros (?&?&?&?) (?&?&?&?). repeat split; congruence. Qed.

(** A message that waits for an answer can be sent again. *)
Lemma armed_pkt x d : xact_ok x → tm_response x = Some (Armed d) → step x ≠ 0%nat ∧ is_Some (last_pkt x).
Proof.
  intros Hx Hd. pose proof (xo_history _ Hx) as Hh. unfold history in Hh. cbv zeta in Hh. unfold last_pkt.
  destruct (xo_response _ Hx _ Hd) as [[Eo E]|[Eo E]]; rewrite Eo, E in *; split_history Hh; rewrite Hh; cbn; eauto.
Qed.

Lemma fire_response_ok P T id x d w :
  world_ok P T w → xacts w !! id = Some x → tm_response x = Some (Armed d) →
  let r := u8 (response_rcount x - 1) in
  let y := set_response_rcount r (quiet x) in
  wp (fire_response id) (λ _ w',
    world_ok P T w' ∧
    if 0 <? r then ∃ pkt, last_pkt x = Some pkt ∧ w' = put id (waiting y) [Sent (gnode x) pkt] w
    else removed id y (put id y (match xcb x with Some c => [Called id c] | None => [] end) w) w') w.
Proof.
  intros Hok Hx Hd r y. pose proof (wo_xact (wo_table _ _ _ Hok) _ _ Hx) as Hxo.
  destruct (armed_pkt x d Hxo Hd) as [Hs [pkt Hp]]. destruct (last_message x Hxo Hs) as [s Hl].
  assert (Hsy : same_xact x y) by (eapply same_trans; [apply same_quiet|done]).
  assert (Hy : xact_ok y) by (apply set_response_rcount_ok, idle_response_ok, Hxo).
  assert (Hwy : xact_ok (waiting y)).
  { apply set_response_ok; [done|]. intros _ _. by apply (xo_response _ Hxo _ Hd). }
  unfold fire_response. apply (wp_put id x _ _ w Hx), wp_bind, wp_upd_put. fold (quiet x).
  unfold response_timeout. eapply (wp_find id (quiet x)); [done|by eexists|]. cbn beta. rewrite put_at.
  apply wp_bind. eapply wp_seq_last; [done|exact Hl|]. apply wp_bind, wp_upd_put.
  change (response_rcount (quiet x)) with (response_rcount x). fold r y. destruct (0 <? r).
  - apply wp_bind, wp_upd_put. fold (waiting y). eapply (wp_send_last _ (waiting y)); [exact Hp|].
    split; [|by exists pkt]. eapply moved_ok; [done|done| |done]. eapply same_trans; [done|apply same_waiting].
  - apply wp_bind, wp_emit_put. eapply (wp_remove P T).
    + by apply (moved_ok P T id x y).
    + apply put_at.
    + done.
Qed.

Lemma fire_holding_ok P T id x d w :
  world_ok P T w → xacts w !! id = Some x → tm_holding x = Some (Armed d) →
  let r := u8 (holding_rcount x - 1) in
  let y := set_holding_rcount r (unheld x) in
  wp (fire_holding id) (λ _ w',
    world_ok P T w' ∧
    if 0 <? r then w' = put id (held y) [] w else removed id y (put id y [] w) w') w.
Proof.
  intros Hok Hx Hd r y. pose proof (wo_xact (wo_table _ _ _ Hok) _ _ Hx) as Hxo.
  pose proof (xo_holding _ Hxo _ Hd) as Hs. destruct (last_message x Hxo Hs) as [s Hl].
  assert (Hsy : same_xact x y) by (eapply same_trans; [apply same_unheld|done]).
  assert (Hy : xact_ok y) by (apply set_holding_rcount_ok, unheld_ok, Hxo).
  unfold fire_holding. apply (wp_put id x _ _ w Hx), wp_bind, wp_upd_put. fold (unheld x).
  unfold holding_timeout. eapply (wp_find id (unheld x)); [done|by eexists|]. cbn beta. rewrite put_at.
  apply wp_bind. eapply wp_seq_last; [done|exact Hl|]. apply wp_bind, wp_upd_put.
  change (holding_rcount (unheld x)) with (holding_rcount x). fold r y. destruct (0 <? r).
  - apply wp_upd_put. fold (held y). split; [|done].
    eapply moved_ok; [done|done|eapply same_trans; [done|apply same_held]|by apply held_ok].
  - eapply (wp_remove P T).
    + by apply (moved_ok P T id x y).
    + apply put_at.
    + done.
Qed.

Lemma fire_peer_ok P T id x d w :
  world_ok P T w → xacts w !! id = Some x → tm_peer x = Some (Armed d) →
  wp (fire_peer id) (λ _ w',
    world_ok P T w' ∧
    w' = put id (unpeered x) (match peer_cb x with Some c => [Called id c] | None => [] end) w) w.
Proof.
  intros Hok Hx Hd. pose proof (wo_xact (wo_table _ _ _ Hok) _ _ Hx) as Hxo.
  pose proof (xo_peer _ Hxo _ Hd) as Hs. destruct (last_message x Hxo Hs) as [s Hl].
  unfold fire_peer. apply (wp_put id x _ _ w Hx), wp_bind, wp_upd_put. fold (unpeered x).
  unfold peer_timeout. eapply (wp_find id (unpeered x)); [done|by eexists|]. cbn beta. rewrite put_at.
  apply wp_bind. eapply wp_seq_last; [done|exact Hl|]. apply wp_emit_put. split; [|done].
  eapply moved_ok; [done|done|apply same_unpeered|by apply unpeered_ok].
Qed.

(** ** Creation *)

Lemma gtp_created_ok P T id x n g w :
  world_ok P T w → nodes w !! gnode x = Some n → xacts w !! id = None → OGS_MIN_POOL_ID ≤ id ≤ OGS_MAX_POOL_ID →
  (1 ≤ pool_avail w)%nat → (timer_count x ≤ timers_avail w)%nat → xact_ok x →
  assoc_xact_id x = OGS_INVALID_POOL_ID → world_ok P T (created id x n g w).
Proof.
  intros [Ht Ha] Hn Hid Hr H1 H3 Hxo Hax. split; [by apply created_ok|]. intros i y Hy Hay. cbn in Hy.
  apply lookup_insert_Some in Hy as [[<- <-]|[Hne Hy]]; [done|].
  destruct (Ha _ _ Hy Hay) as (Hne' & z & Hz & Haz). split; [done|]. exists z. split; [|done]. cbn.
  rewrite lookup_insert_ne; [done|]. intros E. rewrite <- E, Hid in Hz. done.
Qed.

(** What is created and deleted again, if it has no partner. *)
Lemma gtp_removed_created P T id x x' n g es w w' :
  world_ok P T w → world_ok P T (put id x' es (created id x n g w)) →
  nodes w !! gnode x = Some n → xacts w !! id = None →
  (1 ≤ pool_avail w)%nat → (timer_count x ≤ timers_avail w)%nat →
  same_xact x x' → assoc_xact_id x = OGS_INVALID_POOL_ID →
  removed id x' (put id x' es (created id x n g w)) w' →
  w' = World (xacts w) id (pool_avail w) g (nodes w) (timers_avail w)
         (log w ++ es ++ (Freed <$> option_pkts (seq x'))).
Proof.
  intros Hok Hok1 Hn Hid H1 H3 (Ho & Hk & Hc & Ha) Hax (n' & Hn' & ->).
  set (w1 := put id x' es (created id x n g w)) in *.
  assert (E : unlinked x' w1 = w1).
  { unfold unlinked, set_xacts. rewrite alter_none; [by destruct w1|]. rewrite Ha, Hax.
    eapply no_invalid. apply Hok1. }
  rewrite E. apply (removed_created P T id x x' n g es w _ (wo_table _ _ _ Hok)); try done. by exists n'.
Qed.

(** The end of a local creation, from the transaction with its timers. *)
Definition local_result F x type pkt m n g id w (r : option Z) w' : Prop :=
  if decide (tx_allowed F x (stage_in x type) = Some true)
  then r = Some id ∧ w' = put id (stepped x (type, Some m)) [] (created id x n g w)
  else r = None ∧ w' = World (xacts w) id (pool_avail w) g (nodes w) (timers_avail w) (log w ++ [Freed pkt]).

Lemma update_or_delete_ok P T id x n g F update type pkt m w :
  world_ok P T w → nodes w !! gnode x = Some n → xacts w !! id = None → OGS_MIN_POOL_ID ≤ id ≤ OGS_MAX_POOL_ID →
  (1 ≤ pool_avail w)%nat → (timer_count x ≤ timers_avail w)%nat → xact_ok x →
  assoc_xact_id x = OGS_INVALID_POOL_ID → seq x = replicate 3 (0, None) →
  (world_ok P T (created id x n g w) → wp update (λ rv w', world_ok P T w' ∧
     match tx_allowed F x (stage_in x type) with
     | Some true => rv = OGS_OK ∧ w' = put id (stepped x (type, Some m)) [] (created id x n g w)
     | _ => rv = OGS_ERROR ∧ w' = put id x [Freed pkt] (created id x n g w)
     end) (created id x n g w)) →
  wp (update_or_delete id update) (λ r w', world_ok P T w' ∧ local_result F x type pkt m n g id w r w')
    (created id x n g w).
Proof.
  intros Hok Hn Hid Hr H1 H3 Hxo Hax Hs Hup.
  assert (Hok1 : world_ok P T (created id x n g w)) by by apply gtp_created_ok.
  unfold update_or_delete, local_result. apply wp_bind. eapply wp_mono; [by apply Hup|]. cbn beta.
  intros rv w1 [Hok2 HR]. destruct (decide (tx_allowed F x (stage_in x type) = Some true)) as [E|E].
  - rewrite E in HR. destruct HR as [-> ->]. rewrite decide_True by done. by apply wp_ret.
  - assert (HR' : rv = OGS_ERROR ∧ w1 = put id x [Freed pkt] (created id x n g w)).
    { destruct (tx_allowed F x (stage_in x type)) as [[]|]; done. }
    destruct HR' as [-> ->]. rewrite decide_False by done. eapply (wp_remove P T); [done|apply put_at|].
    intros w' Hok' Hrm. split; [done|]. split; [done|].
    rewrite (gtp_removed_created P T id x x n g _ w w' Hok Hok2 Hn Hid H1 H3 ltac:(done) Hax Hrm). by rewrite Hs.
Qed.

(** The ways a creation can end: no slot, not enough timers, or [done]. *)
Definition create_result (need : nat) (g : Z) (created_with : Z → option Z → world → Prop) w (r : option Z) w' : Prop :=
  if decide (pool_avail w = 0%nat) then r = None ∧ w' = w
  else if decide (timers_avail w < need)%nat then r = None ∧ w' = not_created (next_id w) g w
  else created_with (next_id w) r w'.

(** The id of a new local transaction of each version. *)
Definition xid1 w : Z := OGS_NEXT_ID (g_xact_id w) OGS_GTP1_MIN_XACT_ID OGS_GTP1_MAX_XACT_ID.
Definition counter2 w : Z := OGS_NEXT_ID (g_xact_id w) OGS_GTP_MIN_XACT_ID OGS_GTP_CMD_XACT_ID.
Definition xid2 (type : Z) w : Z :=
  if decide (type ∈ command_types) then Z.lor (counter2 w) OGS_GTP_CMD_XACT_ID else counter2 w.
Definition ready1 (k : nat) (type : Z) (cb : option C) w : xact :=
  ready_xact conf 1 LOCAL_ORIGINATOR (xid1 w) k cb (negb (type =? OGS_GTP1_RAN_INFORMATION_RELAY_TYPE)) false.
Definition ready2 (k : nat) (type : Z) (cb : option C) w : xact :=
  ready_xact conf 2 LOCAL_ORIGINATOR (xid2 type w) k cb true true.

Lemma blank_tx_valid F x type :
  step x = 0%nat → F 0%nat = false → (stage_in x type ≠ UNKNOWN_STAGE) → tx_valid F x type.
Proof. intros Hs HF Hu Ho. split; [done|]. rewrite Hs, HF. done. Qed.

Lemma create_failed need g f P T w :
  world_ok P T w →
  (pool_avail w = 0%nat → world_ok P T w ∧ create_result need g f w None w) ∧
  ((1 ≤ pool_avail w)%nat → (timers_avail w < need)%nat →
   world_ok P T (not_created (next_id w) g w) ∧ create_result need g f w None (not_created (next_id w) g w)) ∧
  ((1 ≤ pool_avail w)%nat → (need ≤ timers_avail w)%nat →
   ∀ r w', create_result need g f w r w' = f (next_id w) r w').
Proof.
  intros [Ht Ha]. unfold create_result. pose proof (world_next_id_range P T w Ht) as Hr. split; [|split].
  - intros H. rewrite decide_True by done. done.
  - intros H1 H3. rewrite decide_False, decide_True by lia. split; [|done].
    split; [|done]. apply not_created_ok; [done|]. unfold OGS_MIN_POOL_ID in Hr. lia.
  - intros H1 H3 r w'. by rewrite !decide_False by lia.
Qed.

Lemma local_create1_ok P T k type teid pkt cb w n :
  world_ok P T w → fresh w → nodes w !! k = Some n → ogs_gtp1_xact_get_stage type (xid1 w) ≠ UNKNOWN_STAGE →
  let x := ready1 k type cb w in
  let m := gtp1_header type teid (xid1 w) (zlen pkt) ++ pkt in
  wp (ogs_gtp1_xact_local_create conf k type teid pkt cb) (λ r w', world_ok P T w' ∧
    create_result (timer_count x) (xid1 w)
      (λ id, local_result final1 x type pkt m n (xid1 w) id w) w r w') w.
Proof.
  intros Hok Hf Hn Hu x m. unfold ogs_gtp1_xact_local_create. apply wp_get. fold (xid1 w).
  destruct (create_failed (timer_count x) (xid1 w) (λ id, local_result final1 x type pkt m n (xid1 w) id w) P T w Hok)
    as (F0 & F1 & F2).
  eapply (wp_alloc gnode); [done|done|intros H0; by apply F0|]. intros H1.
  apply wp_bind, wp_modify. eapply (wp_list_link org gnode); [done..|].
  assert (Htail : x = ready1 k type cb w → (timer_count x ≤ timers_avail w)%nat →
    wp (update_or_delete (next_id w) (ogs_gtp1_xact_update_tx (next_id w) type teid pkt))
      (λ r w', world_ok P T w' ∧ create_result (timer_count x) (xid1 w)
        (λ id, local_result final1 x type pkt m n (xid1 w) id w) w r w') (created (next_id w) x n (xid1 w) w)).
  { intros _ H3. eapply wp_mono; [eapply (update_or_delete_ok P T (next_id w) x n (xid1 w) final1 _ type pkt m); try done|].
    - eapply world_next_id_range, Hok.
    - apply ready_ok.
    - intros Hok1. apply update_tx1_ok; [done|apply created_at|done|]. by apply blank_tx_valid.
    - cbn beta. intros r w' [H4 H5]. split; [done|]. by rewrite F2. }
  pose proof (invalid_ne P T w (wo_table _ _ _ Hok)) as Hne.
  assert (Ec : timer_count x = if type =? OGS_GTP1_RAN_INFORMATION_RELAY_TYPE then 1%nat else 2%nat).
  { unfold x, ready1. by destruct (type =? _). }
  revert Htail F1. rewrite Ec. unfold x, ready1 in *. destruct (type =? OGS_GTP1_RAN_INFORMATION_RELAY_TYPE) eqn:Et;
    cbn [negb] in *; intros Htail F1.
  - eapply (timers_without_response conf P T); try done; [by apply F1|by apply Htail].
  - eapply (timers_without_peer conf P T); try done; [by apply F1|by apply Htail].
Qed.

Lemma local_create2_ok P T k type teid pkt cb w n :
  world_ok P T w → fresh w → nodes w !! k = Some n → ogs_gtp2_xact_get_stage type (xid2 type w) ≠ UNKNOWN_STAGE →
  let x := ready2 k type cb w in
  let m := gtp2_header type teid (xid2 type w) (zlen pkt) ++ pkt in
  wp (ogs_gtp_xact_local_create conf k type teid pkt cb) (λ r w', world_ok P T w' ∧
    create_result 3 (counter2 w) (λ id, local_result final2 x type pkt m n (counter2 w) id w) w r w') w.
Proof.
  intros Hok Hf Hn Hu x m. unfold ogs_gtp_xact_local_create. apply wp_get. fold (counter2 w). fold (xid2 type w).
  destruct (create_failed 3 (counter2 w) (λ id, local_result final2 x type pkt m n (counter2 w) id w) P T w Hok)
    as (F0 & F1 & F2).
  eapply (wp_alloc gnode); [done|done|intros H0; by apply F0|]. intros H1.
  apply wp_bind, wp_modify. eapply (wp_list_link org gnode); [done..|].
  pose proof (invalid_ne P T w (wo_table _ _ _ Hok)) as Hne.
  eapply (timers_all conf P T); try done; [by apply F1|]. intros H3. fold x.
  eapply wp_mono; [eapply (update_or_delete_ok P T (next_id w) x n (counter2 w) final2 _ type pkt m); try done|].
  - eapply world_next_id_range, Hok.
  - intros Hok1. apply update_tx2_ok; [done|apply created_at|done|]. by apply blank_tx_valid.
  - cbn beta. intros r w' [H4 H5]. split; [done|]. by rewrite F2.
Qed.

Definition ready_remote (version : Z) (sqn : list Z) (k : nat) : xact (C:=C) :=
  ready_xact conf version REMOTE_ORIGINATOR (OGS_GTP_SQN_TO_XID version sqn) k None true true.

Lemma remote_create_ok P T k version sqn w n :
  world_ok P T w → fresh w → nodes w !! k = Some n →
  wp (ogs_gtp_xact_remote_create conf k version sqn) (λ r w', world_ok P T w' ∧
    create_result 3 (g_xact_id w) (λ id r w', r = Some id ∧
      w' = created id (ready_remote version sqn k) n (g_xact_id w) w) w r w') w.
Proof.
  intros Hok Hf Hn. unfold ogs_gtp_xact_remote_create.
  destruct (create_failed 3 (g_xact_id w) (λ id r w', r = Some id ∧
      w' = created id (ready_remote version sqn k) n (g_xact_id w) w) P T w Hok) as (F0 & F1 & F2).
  eapply (wp_alloc gnode); [done|done|intros H0; by apply F0|]. intros H1.
  eapply (wp_list_link org gnode _ _ _ _ (g_xact_id w) _ _ w (next_id w) (g_xact_id w)); [done..|].
  pose proof (invalid_ne P T w (wo_table _ _ _ Hok)) as Hne.
  eapply (timers_all conf P T); try done; [by apply F1|]. intros H3. apply wp_ret.
  split; [|by rewrite F2]. apply gtp_created_ok; try done. by eapply world_next_id_range, Hok.
Qed.

(** ** Receiving from the network *)

(** The first transaction of a list with a version and an id. *)
Definition xid_in w (ids : list Z) (version t : Z) : option Z :=
  hd_error (filter (λ id, (λ x, (gtp_version x, xid x)) <$> xacts w !! id = Some (version, t)) ids).

Lemma find_xid_ok w ids version t :
  (∀ id, id ∈ ids → is_Some (xacts w !! id)) → find_xid ids version t w = Some (xid_in w ids version t, w).
Proof.
  unfold xid_in. induction ids as [|id ids IH]; intros Hin; [done|].
  destruct (Hin id ltac:(left)) as [x Hx]. cbn [find_xid]. unfold mbind, M_bind, xact_get. rewrite Hx.
  destruct ((gtp_version x =? version) && (xid x =? t)) eqn:E.
  - rewrite filter_cons_True; [done|]. rewrite Hx. cbn. f_equal. f_equal; lia.
  - rewrite filter_cons_False; [|rewrite Hx; cbn; intros [= ? ?]; lia]. apply IH. intros. apply Hin. by right.
Qed.

Lemma xid_in_Some w ids version t id :
  xid_in w ids version t = Some id →
  id ∈ ids ∧ ∃ x, xacts w !! id = Some x ∧ gtp_version x = version ∧ xid x = t.
Proof.
  unfold xid_in. intros H.
  assert (Hin : id ∈ filter (λ id, (λ x, (gtp_version x, xid x)) <$> xacts w !! id = Some (version, t)) ids).
  { destruct (filter _ ids); [done|]. injection H as ->. by left. }
  apply list_elem_of_filter in Hin as [Hx Hin]. split; [done|].
  destruct (xacts w !! id) as [x|]; [|done]. injection Hx as H1 H2. by exists x.
Qed.

(** The end of the two [receive], for the transaction they have found. *)
Definition rx_result (id : Z) x (type : Z) w (r : ogs_rv * option Z) w' : Prop :=
  match rx_class x type with
  | RxAccept hold => r = (OGS_OK, Some id) ∧ w' = put id (rx_next x type hold) [] w
  | RxDuplicate reply => r = (OGS_RETRY, None) ∧
      w' = match reply with Some pkt => put id (held x) [Sent (gnode x) pkt] w | None => w end
  | RxError => r = (OGS_ERROR, None) ∧ removed id x w w'
  end.

Lemma rx_result_ok P T id x type w :
  world_ok P T w → xacts w !! id = Some x →
  wp (rv ← ogs_gtp_xact_update_rx conf id type;
      match rv with
      | OGS_ERROR => ogs_gtp_xact_delete id;; mret (OGS_ERROR, None)
      | OGS_RETRY => mret (OGS_RETRY, None)
      | _ => mret (rv, Some id)
      end) (λ r w', world_ok P T w' ∧ rx_result id x type w r w') w.
Proof.
  intros Hok Hx. unfold rx_result. apply wp_bind. eapply wp_mono; [by eapply update_rx_ok|].
  unfold rx_after. intros rv w1 [Hok1 H]. destruct (rx_class x type).
  1-2: destruct H as [-> ->]; by apply wp_ret.
  destruct H as [-> ->]. by eapply wp_remove.
Qed.

(** A message for list [o]: its transaction moves, or one is created. *)
Definition receive_result (k : nat) (version type : Z) (sqn : list Z) (o : option originator) n w
    (r : ogs_rv * option Z) w' : Prop :=
  match o with
  | None => r = (OGS_ERROR, None) ∧ w' = w
  | Some o =>
      match xid_in w (list_of o n) version (OGS_GTP_SQN_TO_XID version sqn) with
      | Some id => ∃ x, xacts w !! id = Some x ∧ rx_result id x type w r w'
      | None => ∃ r1 w1, create_result 3 (g_xact_id w) (λ id r w', r = Some id ∧
            w' = created id (ready_remote version sqn k) n (g_xact_id w) w) w r1 w1 ∧
          match r1 with
          | Some id => rx_result id (ready_remote version sqn k) type w1 r w'
          | None => r = (OGS_ERROR, None) ∧ w' = w1
          end
      end
  end.

Lemma xact_receive_ok P T k version type sqn o n w :
  world_ok P T w → nodes w !! k = Some n → fresh w →
  wp (xact_receive conf k version type sqn o) (λ r w', world_ok P T w' ∧
    receive_result k version type sqn o n w r w') w.
Proof.
  intros Hok Hn Hf. unfold xact_receive, receive_result. apply wp_get. rewrite Hn. apply wp_bind, wp_some.
  destruct o as [o|]; [|by apply wp_ret]. apply wp_bind. eapply wp_eq.
  { apply find_xid_ok. intros id Hid.
    destruct (wo_list (wo_table _ _ _ Hok) _ _ _ _ Hn Hid) as (x & Hx & _). by exists x. }
  destruct (xid_in _ _ _ _) as [id|] eqn:E; apply wp_bind.
  - destruct (xid_in_Some _ _ _ _ _ E) as (_ & x & Hx & _). apply wp_ret.
    eapply wp_mono; [by eapply rx_result_ok|]. cbn beta. intros r w' [H1 H2]. split; [done|by exists x].
  - eapply wp_mono; [by apply remote_create_ok|]. cbn beta. intros r1 w1 [Hok1 Hc]. destruct r1 as [id|].
    + assert (Hx : xacts w1 !! id = Some (ready_remote version sqn k)).
      { unfold create_result in Hc. repeat case_decide; destruct Hc as [[= <-] ->]. apply created_at. }
      eapply wp_mono; [by eapply rx_result_ok|]. cbn beta. intros r w' [H1 H2]. split; [done|by exists (Some id), w1].
    + apply wp_ret. split; [done|by exists None, w1].
Qed.

(** ** Association *)

Lemma table_put_ok P T id x y w :
  table_ok P T w → xacts w !! id = Some x → same_xact x (set_assoc (assoc_xact_id x) y) → xact_ok y →
  table_ok P T (put id y [] w).
Proof. intros Hok Hx (H1 & H2 & H3 & _) Hy. by eapply world_put_ok. Qed.

(** Two transactions get each other, or nobody, as partner. *)
Lemma pair_ok P T i j x y a b w :
  world_ok P T w → xacts w !! i = Some x → xacts w !! j = Some y → i ≠ j →
  (a = j ∧ b = i ∨ a = OGS_INVALID_POOL_ID ∧ b = OGS_INVALID_POOL_ID) →
  (∀ k z, xacts w !! k = Some z → k ≠ i → k ≠ j → assoc_xact_id z ≠ i ∧ assoc_xact_id z ≠ j) →
  world_ok P T (put j (set_assoc b y) [] (put i (set_assoc a x) [] w)).
Proof.
  intros [Ht Ha] Hx Hy Hne Hab Hother. split.
  - eapply (table_put_ok P T j y); [|cbn; by rewrite lookup_insert_ne|done|by apply set_assoc_ok, (wo_xact Ht _ _ Hy)].
    eapply (table_put_ok P T i x); [done|done|done|by apply set_assoc_ok, (wo_xact Ht _ _ Hx)].
  - intros k z Hk Haz. cbn in Hk.
    apply lookup_insert_Some in Hk as [[<- <-]|[Hkj Hk]]; [|apply lookup_insert_Some in Hk as [[<- <-]|[Hki Hk]]].
    + destruct Hab as [[-> ->]|[-> ->]]; [|done]. cbn in *. split; [done|].
      exists (set_assoc j x). by rewrite lookup_insert_ne, lookup_insert_eq.
    + destruct Hab as [[-> ->]|[-> ->]]; [|done]. cbn in *. split; [done|].
      exists (set_assoc i y). by rewrite lookup_insert_eq.
    + destruct (Ha _ _ Hk Haz) as (H1 & z' & Hz' & H2). split; [done|].
      destruct (Hother _ _ Hk ltac:(done) ltac:(done)). exists z'. cbn. by rewrite !lookup_insert_ne.
Qed.

Lemma associate_ok P T i j x y w :
  world_ok P T w → xacts w !! i = Some x → xacts w !! j = Some y → i ≠ j →
  assoc_xact_id x = OGS_INVALID_POOL_ID → assoc_xact_id y = OGS_INVALID_POOL_ID →
  wp (ogs_gtp_xact_associate i j) (λ _ w', world_ok P T w' ∧
    w' = put j (set_assoc i y) [] (put i (set_assoc j x) [] w)) w.
Proof.
  intros Hok Hx Hy Hne Hax Hay. unfold ogs_gtp_xact_associate.
  apply wp_bind. eapply wp_xact_get; [done|]. apply wp_bind. eapply wp_xact_get; [done|].
  rewrite Hax, Hay. apply wp_bind, wp_assert; [done|]. apply wp_bind, wp_assert; [done|].
  apply wp_bind. apply (wp_put i x _ _ w Hx), wp_upd_put.
  eapply wp_xact_upd; [cbn; by rewrite lookup_insert_ne|]. split; [|unfold set_xacts, put; cbn; by rewrite !app_nil_r].
  enough (E : set_xacts (<[j:=set_assoc i y]>) (put i (set_assoc j x) [] w) = put j (set_assoc i y) [] (put i (set_assoc j x) [] w)).
  { rewrite E. eapply pair_ok; [done..|by left|]. intros k z Hz Hki Hkj.
    assert (Hno : ∀ l u, xacts w !! l = Some u → assoc_xact_id u = OGS_INVALID_POOL_ID → assoc_xact_id z ≠ l).
    { intros l u Hu Hau E'. destruct (wo_assoc _ _ _ Hok k z Hz) as (_ & u' & Hu' & Hau').
      - intros E0. rewrite E0 in E'. subst l. by rewrite (no_invalid P T w (wo_table _ _ _ Hok)) in Hu.
      - rewrite E', Hu in Hu'. injection Hu' as <-. rewrite Hau in Hau'. subst k.
        by rewrite (no_invalid P T w (wo_table _ _ _ Hok)) in Hz. }
    split; by eapply Hno. }
  unfold set_xacts, put. cbn. by rewrite !app_nil_r.
Qed.

Lemma deassociate_ok P T i x w :
  world_ok P T w → xacts w !! i = Some x → assoc_xact_id x ≠ OGS_INVALID_POOL_ID →
  wp (ogs_gtp_xact_deassociate i (assoc_xact_id x)) (λ _ w', world_ok P T w' ∧
    ∃ y, xacts w !! assoc_xact_id x = Some y ∧
      w' = put (assoc_xact_id x) (set_assoc OGS_INVALID_POOL_ID y) [] (put i (set_assoc OGS_INVALID_POOL_ID x) [] w)) w.
Proof.
  intros Hok Hx Hax. destruct (wo_assoc _ _ _ Hok i x Hx Hax) as (Hne & y & Hy & Hay).
  assert (Hi : i ≠ OGS_INVALID_POOL_ID).
  { intros ->. by rewrite (no_invalid P T w (wo_table _ _ _ Hok)) in Hx. }
  eapply wp_eq; [apply (deassociate_run i (assoc_xact_id x) x y); [done..|by rewrite Hay]|].
  enough (E : set_xacts (λ m, <[assoc_xact_id x:=set_assoc OGS_INVALID_POOL_ID y]> (<[i:=set_assoc OGS_INVALID_POOL_ID x]> m)) w =
    put (assoc_xact_id x) (set_assoc OGS_INVALID_POOL_ID y) [] (put i (set_assoc OGS_INVALID_POOL_ID x) [] w)).
  { rewrite E. split; [|by exists y]. eapply pair_ok; [done..|by right|]. intros k z Hz Hki Hkj. split; intros E'.
    - destruct (wo_assoc _ _ _ Hok k z Hz) as (_ & u & Hu & Hau); [by rewrite E'|]. rewrite E' in Hu. simplify_eq.
    - destruct (wo_assoc _ _ _ Hok k z Hz) as (_ & u & Hu & Hau); [by rewrite E'|]. rewrite E' in Hu. simplify_eq. }
  unfold set_xacts, put. cbn. by rewrite !app_nil_r.
Qed.

(** A timer that the owner of a transaction starts for its peer. *)
Lemma start_peer_ok P T id x d cb w :
  world_ok P T w → xacts w !! id = Some x → step x ≠ 0%nat →
  world_ok P T (put id (set_peer_cb cb (set_peer ((λ _, Armed d) <$> tm_peer x) x)) [] w).
Proof.
  intros Hok Hx Hs. eapply (moved_ok P T id x); [done|done| |].
  - split; [done|]. split; [done|]. split; [|done].
    change (timer_count (set_peer_cb cb ?y)) with (timer_count y). apply timer_count_peer.
  - pose proof (set_peer_ok ((λ _, Armed d) <$> tm_peer x) x (wo_xact (wo_table _ _ _ Hok) _ _ Hx) ltac:(done)) as [].
    by split.
Qed.

(** ** Deletion of everything a peer has *)

Lemma removed_keys P T id x w w' :
  world_ok P T w → xacts w !! id = Some x → removed id x w w' →
  ∀ j, is_Some (xacts w' !! j) ↔ is_Some (xacts w !! j) ∧ j ≠ id.
Proof.
  intros Hok Hx (n & Hn & ->) j. cbn. destruct (decide (j = id)) as [->|Hj].
  - rewrite lookup_delete_eq, is_Some_alt. naive_solver.
  - rewrite lookup_delete_ne by done.
    destruct (decide (j = assoc_xact_id x)) as [->|Hja].
    + rewrite lookup_alter_eq, fmap_is_Some. tauto.
    + rewrite lookup_alter_ne by done. tauto.
Qed.

Lemma delete_each_ok P T o k l n w :
  world_ok P T w → nodes w !! k = Some n → list_of o n = l →
  wp (delete_each l) (λ _ w', world_ok P T w' ∧
    nodes w' = <[k := list_upd o (λ _, []) n]> (nodes w) ∧
    (∀ id, is_Some (xacts w' !! id) ↔ is_Some (xacts w !! id) ∧ id ∉ l)) w.
Proof.
  revert n w. induction l as [|id l IH]; intros n w Hok Hn Hl.
  { apply wp_ret. split; [done|]. split.
    - rewrite insert_id; [done|]. rewrite Hn. f_equal. symmetry. by apply list_upd_id.
    - intros id. pose proof (not_elem_of_nil id). tauto. }
  pose proof (wo_nodup (wo_table _ _ _ Hok) _ _ o Hn) as Hnd. rewrite Hl in Hnd. apply NoDup_cons in Hnd as [Hid _].
  destruct (wo_list (wo_table _ _ _ Hok) k n o id Hn) as (x & Hx & Ho & Hk); [rewrite Hl; by left|]. subst k o.
  cbn [delete_each]. apply wp_bind. eapply wp_delete; [done..|]. intros w1 Hok1 Hrm.
  pose proof (removed_keys P T id x w w1 Hok Hx Hrm) as Hkeys. destruct Hrm as (n' & Hn' & ->).
  rewrite Hn in Hn'. injection Hn' as <-.
  set (n2 := list_upd (org x) (filter (.≠ id)) n).
  assert (Hl2 : list_of (org x) n2 = l).
  { unfold n2. rewrite list_of_upd, decide_True by done. rewrite Hl.
    rewrite filter_cons_False by naive_solver. by apply filter_notin. }
  eapply wp_mono; [apply (IH n2); [done|cbn; by rewrite lookup_insert_eq|done]|].
  intros ? w' (Hok' & Hno' & Hxs'). split; [done|]. split.
  - rewrite Hno'. cbn. rewrite insert_insert_eq. unfold n2. by rewrite list_upd_upd.
  - intros id'. rewrite Hxs', Hkeys, elem_of_cons. tauto.
Qed.

Lemma delete_all_ok P T k n w :
  world_ok P T w → nodes w !! k = Some n →
  wp (ogs_gtp_xact_delete_all k) (λ _ w',
    world_ok P T w' ∧ nodes w' = <[k := Node [] []]> (nodes w) ∧
    (∀ id, is_Some (xacts w' !! id) ↔ is_Some (xacts w !! id) ∧ gnode <$> xacts w !! id ≠ Some k)) w.
Proof.
  intros Hok Hn. unfold ogs_gtp_xact_delete_all. apply wp_get.
  rewrite Hn. apply wp_bind, wp_some, wp_bind. eapply wp_mono; [by apply (delete_each_ok P T LOCAL_ORIGINATOR k)|].
  intros ? w1 (Hok1 & Hn1 & Hx1). apply wp_get.
  assert (Hk : nodes w1 !! k = Some (Node [] (remote_list n))) by by rewrite Hn1, lookup_insert_eq.
  rewrite Hk. apply wp_bind, wp_some. eapply wp_mono; [by apply (delete_each_ok P T REMOTE_ORIGINATOR k)|].
  intros ? w' (Hok' & Hn' & Hx'). split; [done|]. split.
  - rewrite Hn', Hn1. by rewrite insert_insert_eq.
  - intros id. rewrite Hx', Hx1. cbn [list_of remote_list local_list]. split.
    + intros [[[x Hx] H1] H2]. split; [by eexists|]. rewrite Hx. intros [= <-].
      destruct (wo_node (wo_table _ _ _ Hok) _ _ Hx) as (n' & Hn0 & Hin). simplify_eq. by destruct (org x).
    + intros [Hx H1]. split_and!; [done| |]; intros Hin.
      * destruct (wo_list (wo_table _ _ _ Hok) k n LOCAL_ORIGINATOR id Hn Hin) as (x & E & _ & <-). by rewrite E in H1.
      * destruct (wo_list (wo_table _ _ _ Hok) k n REMOTE_ORIGINATOR id Hn Hin) as (x & E & _ & <-). by rewrite E in H1.
Qed.
End ops.
