(* ===== verification/GtpSpec.v ===== *)
(** * GTP transactions: the theorems

    Safety of every sequence of operations, what creation and reception do on
    every branch, and the sequence numbers of the two versions with the ids
    that do not survive them. *)
From S2P Require Import Prelude Pool XactBase XactInv GtpTypes GtpXact GtpInv GtpOps.
#[local] Open Scope Z_scope.

(** ** Sequence numbers *)

Lemma sqn2_xid t : 0 ≤ t < 2 ^ 24 → OGS_GTP2_SQN_TO_XID (OGS_GTP2_XID_TO_SQN t) = t.
Proof.
  intros Ht. unfold OGS_GTP2_SQN_TO_XID, OGS_GTP2_XID_TO_SQN. rewrite be_value_bytes.
  unfold u32. rewrite Z.shiftl_mul_pow2, Z.shiftr_div_pow2 by lia.
  rewrite (Z.mod_small (t * 2 ^ 8)) by lia. rewrite Z.mod_small by lia. by apply Z.div_mul.
Qed.
Lemma sqn1_xid t : OGS_GTP1_SQN_TO_XID (OGS_GTP1_XID_TO_SQN t) = t mod 2 ^ 16.
Proof.
  unfold OGS_GTP1_SQN_TO_XID, OGS_GTP1_XID_TO_SQN, u16. rewrite be_value_bytes.
  change (8 * Z.of_nat 2) with 16. rewrite Z.mod_mod; lia.
Qed.

Section spec.
Context {C : Type}.
Abbreviation world := (XactBase.world (xact (C:=C)) C).
Implicit Types (x : xact (C:=C)) (w : world).
Variable conf : gtp_conf.

(** ** Sequences of operations *)

(** The operations of the layer, as its users and its timers run them. *)
Inductive action :=
  | LocalCreate1 (k : nat) (type teid : Z) (pkt : list Z) (cb : option C)
  | LocalCreate2 (k : nat) (type teid : Z) (pkt : list Z) (cb : option C)
  | UpdateTx1 (id type teid : Z) (pkt : list Z)
  | UpdateTx2 (id type teid : Z) (pkt : list Z)
  | Commit (id : Z)
  | Receive1 (k : nat) (s : bool) (type : Z) (sqn : list Z)
  | Receive2 (k : nat) (type : Z) (sqn : list Z)
  | Associate (id1 id2 : Z)
  | Deassociate (id1 id2 : Z)
  | StartPeer (id d : Z) (cb : option C)
  | ResponseExpiry (id : Z)
  | HoldingExpiry (id : Z)
  | PeerExpiry (id : Z)
  | DeleteAll (k : nat).

Definition run (a : action) : M world unit :=
  match a with
  | LocalCreate1 k type teid pkt cb => ogs_gtp1_xact_local_create conf k type teid pkt cb;; mret tt
  | LocalCreate2 k type teid pkt cb => ogs_gtp_xact_local_create conf k type teid pkt cb;; mret tt
  | UpdateTx1 id type teid pkt => ogs_gtp1_xact_update_tx id type teid pkt;; mret tt
  | UpdateTx2 id type teid pkt => ogs_gtp_xact_update_tx id type teid pkt;; mret tt
  | Commit id => ogs_gtp_xact_commit conf id;; mret tt
  | Receive1 k s type sqn => ogs_gtp1_xact_receive conf k s type sqn;; mret tt
  | Receive2 k type sqn => ogs_gtp_xact_receive conf k type sqn;; mret tt
  | Associate id1 id2 => ogs_gtp_xact_associate id1 id2
  | Deassociate id1 id2 => ogs_gtp_xact_deassociate id1 id2
  | StartPeer id d cb => xact_upd id (λ x, set_peer_cb cb (set_peer ((λ _, Armed d) <$> tm_peer x) x))
  | ResponseExpiry id => fire_response conf id
  | HoldingExpiry id => fire_holding conf id
  | PeerExpiry id => fire_peer id
  | DeleteAll k => ogs_gtp_xact_delete_all k
  end.

(** What the layer requires of its callers: transactions and peers that
    exist, the update of the transaction's own version with a known type
    (and, for version 1, no final message after the third step), something
    to commit, partners that have none or have each other; a timer expires
    only when it is armed. *)
Definition allowed w (a : action) : Prop :=
  match a with
  | LocalCreate1 k type _ _ _ => fresh w ∧ is_Some (nodes w !! k) ∧
      ogs_gtp1_xact_get_stage type (xid1 w) ≠ UNKNOWN_STAGE
  | LocalCreate2 k type _ _ _ => fresh w ∧ is_Some (nodes w !! k) ∧
      ogs_gtp2_xact_get_stage type (xid2 type w) ≠ UNKNOWN_STAGE
  | UpdateTx1 id type _ _ => ∃ x, xacts w !! id = Some x ∧ gtp_version x = 1 ∧
      (org x = LOCAL_ORIGINATOR → stage_in x type ≠ UNKNOWN_STAGE ∧ step x ≠ 3%nat)
  | UpdateTx2 id type _ _ => ∃ x, xacts w !! id = Some x ∧ gtp_version x = 2 ∧
      (org x = LOCAL_ORIGINATOR → stage_in x type ≠ UNKNOWN_STAGE)
  | Commit id | StartPeer id _ _ => ∃ x, xacts w !! id = Some x ∧ step x ≠ 0%nat
  | Receive1 k _ _ _ | Receive2 k _ _ => fresh w ∧ is_Some (nodes w !! k)
  | Associate i j => i ≠ j ∧ ∃ x y, xacts w !! i = Some x ∧ xacts w !! j = Some y ∧
      assoc_xact_id x = OGS_INVALID_POOL_ID ∧ assoc_xact_id y = OGS_INVALID_POOL_ID
  | Deassociate i j => ∃ x, xacts w !! i = Some x ∧ assoc_xact_id x = j ∧ j ≠ OGS_INVALID_POOL_ID
  | ResponseExpiry id => ∃ x d, xacts w !! id = Some x ∧ tm_response x = Some (Armed d)
  | HoldingExpiry id => ∃ x d, xacts w !! id = Some x ∧ tm_holding x = Some (Armed d)
  | PeerExpiry id => ∃ x d, xacts w !! id = Some x ∧ tm_peer x = Some (Armed d)
  | DeleteAll k => is_Some (nodes w !! k)
  end.

(** States reached from empty peers with [P] transactions and [T] timers. *)
Inductive reachable (P T : nat) : world → Prop :=
  | reachable_init g ns :
      map_Forall (λ _ n, n = Node [] []) ns → reachable P T (World ∅ 0 P g ns T [])
  | reachable_step w a w' :
      reachable P T w → allowed w a → run a w = Some (tt, w') → reachable P T w'.

Lemma wp_drop {A} (m : M world A) (R : A → world → Prop) P T w :
  wp m (λ r w', world_ok P T w' ∧ R r w') w → wp (m;; mret tt) (λ _ w', world_ok P T w') w.
Proof. intros H. apply wp_bind. eapply wp_mono; [exact H|]. intros ?? [? _]. by apply wp_ret. Qed.
Lemma wp_keep (m : M world unit) (R : unit → world → Prop) P T w :
  wp m (λ r w', world_ok P T w' ∧ R r w') w → wp m (λ _ w', world_ok P T w') w.
Proof. intros H. eapply wp_mono; [exact H|]. by intros ?? [? _]. Qed.

Lemma gtp_run_ok P T a w : world_ok P T w → allowed w a → wp (run a) (λ _ w', world_ok P T w') w.
Proof.
  intros Hok. destruct a; cbn [run allowed].
  - intros (Hf & [n Hn] & Hu). eapply wp_drop. by apply local_create1_ok.
  - intros (Hf & [n Hn] & Hu). eapply wp_drop. by apply local_create2_ok.
  - intros (x & Hx & Hv & Ht). eapply wp_drop. apply update_tx1_ok; [done..|]. intros Ho.
    destruct (Ht Ho) as [H1 H2]. split; [done|]. unfold final1. intros _ Hs. lia.
  - intros (x & Hx & Hv & Ht). eapply wp_drop. apply update_tx2_ok; [done..|]. intros Ho.
    split; [by apply Ht|]. unfold final2. intros _ Hs. lia.
  - intros (x & Hx & Hs). eapply wp_drop. by eapply commit_ok.
  - intros [Hf [n Hn]]. unfold ogs_gtp1_xact_receive. destruct s; cbn [negb].
    + eapply wp_drop. by eapply xact_receive_ok.
    + by apply wp_bind, wp_ret, wp_ret.
  - intros [Hf [n Hn]]. eapply wp_drop. by eapply xact_receive_ok.
  - intros (Hne & x & y & Hx & Hy & Hax & Hay). eapply wp_keep. by eapply associate_ok.
  - intros (x & Hx & <- & Hax). eapply wp_keep. by eapply deassociate_ok.
  - intros (x & Hx & Hs). apply (wp_put id x _ _ w Hx), wp_upd_put. by apply start_peer_ok.
  - intros (x & d & Hx & Hd). eapply wp_keep. by eapply fire_response_ok.
  - intros (x & d & Hx & Hd). eapply wp_keep. by eapply fire_holding_ok.
  - intros (x & d & Hx & Hd). eapply wp_keep. by eapply fire_peer_ok.
  - intros [n Hn]. eapply wp_keep. by eapply delete_all_ok.
Qed.

Lemma gtp_reachable_ok P T w : reachable P T w → world_ok P T w.
Proof.
  induction 1 as [g ns Hns|w a w' Hr IH Ha Hrun].
  - split; [by apply world_init_ok|]. intros i x Hx. done.
  - pose proof (gtp_run_ok P T a w IH Ha) as H. unfold wp in H. by rewrite Hrun in H.
Qed.

(** C35: in every state that operations and expiries of both versions reach,
    the invariant holds - lists, slots and timers as for PFCP, histories of
    up to three steps that agree with version, id and step, and associations
    that are mutual - and no allowed operation aborts: none reads [seq] out of
    bounds, dereferences NULL or a deleted partner, or fails an assertion. *)
Theorem gtp_xact_safe P T w :
  reachable P T w → world_ok P T w ∧ (∀ a, allowed w a → is_Some (run a w)).
Proof.
  intros Hok%gtp_reachable_ok. split; [done|]. intros a Ha. pose proof (gtp_run_ok P T a w Hok Ha) as H. unfold wp in H.
  destruct (run a w) as [[[] w']|]; [by eexists|done].
Qed.

(** What the two local creations do: without a slot nothing; without
    enough timers (two or one for version 1, three for version 2) the new
    transaction is deleted again, and the packet is neither kept nor freed;
    a request is stored as the first step of a transaction under the next id
    - of a command with its most significant bit set - in the list of the
    peer; any other known type is refused and the packet freed. *)
Theorem gtp_local_create_correct P T k type teid pkt cb w n :
  world_ok P T w → fresh w → nodes w !! k = Some n →
  (ogs_gtp1_xact_get_stage type (xid1 w) ≠ UNKNOWN_STAGE →
   let x := ready1 conf k type cb w in
   ∃ r w', ogs_gtp1_xact_local_create conf k type teid pkt cb w = Some (r, w') ∧ world_ok P T w' ∧
     create_result (if type =? OGS_GTP1_RAN_INFORMATION_RELAY_TYPE then 1 else 2) (xid1 w)
       (λ id, local_result final1 x type pkt (gtp1_header type teid (xid1 w) (zlen pkt) ++ pkt) n (xid1 w) id w)
       w r w') ∧
  (ogs_gtp2_xact_get_stage type (xid2 type w) ≠ UNKNOWN_STAGE →
   let x := ready2 conf k type cb w in
   ∃ r w', ogs_gtp_xact_local_create conf k type teid pkt cb w = Some (r, w') ∧ world_ok P T w' ∧
     create_result 3 (counter2 w)
       (λ id, local_result final2 x type pkt (gtp2_header type teid (xid2 type w) (zlen pkt) ++ pkt) n (counter2 w) id w)
       w r w').
Proof.
  intros Hok Hf Hn. split; intros Hu x; apply (proj1 (wp_run _ _ _)).
  - eapply wp_mono; [by eapply local_create1_ok|]. cbn beta zeta. intros r w' [H1 H2]. split; [done|].
    assert (E : timer_count x = if type =? OGS_GTP1_RAN_INFORMATION_RELAY_TYPE then 1%nat else 2%nat).
    { unfold x, ready1. by destruct (type =? _). }
    fold x in H2. by rewrite E in H2.
  - by eapply local_create2_ok.
Qed.

(** Who opened the transaction of a message, from the types and the mark of a
    command: the peer's requests, the acknowledge of an SGSN context and the
    replies to the requests that commands triggered belong to the peer. *)
Lemma gtp1_rx_originator_spec type t :
  gtp1_rx_originator type t =
    if decide (type ∈ gtp1_initial_types ∨ type = OGS_GTP1_SGSN_CONTEXT_ACKNOWLEDGE_TYPE) then Some REMOTE_ORIGINATOR
    else if decide (type ∈ gtp1_intermediate_types ++ gtp1_final_types) then Some LOCAL_ORIGINATOR else None.
Proof.
  unfold gtp1_rx_originator, ogs_gtp1_xact_get_stage. destruct (decide (type ∈ gtp1_initial_types)) as [Hi|Hi].
  - by rewrite decide_True by auto.
  - destruct (decide (type ∈ gtp1_intermediate_types)) as [Hm|Hm].
    + rewrite decide_False, decide_True; [done|apply elem_of_app; auto|]. intros [?| ->]; [done|].
      by apply (bool_decide_pack _) in Hm.
    + destruct (decide (type ∈ gtp1_final_types)) as [Hf|Hf].
      * destruct (Z.eqb_spec type OGS_GTP1_SGSN_CONTEXT_ACKNOWLEDGE_TYPE); [by rewrite decide_True by auto|].
        rewrite decide_False, decide_True; [done|apply elem_of_app; auto|by intros [?|?]].
      * rewrite !decide_False; [done|rewrite elem_of_app; tauto|]. intros [?| ->]; [done|]. by apply Hf, (bool_decide_unpack _).
Qed.
Lemma gtp2_rx_originator_spec type t :
  let command := negb (Z.land t OGS_GTP_CMD_XACT_ID =? 0) in
  gtp2_rx_originator type t =
    if decide (type ∈ gtp2_initial_types) then Some REMOTE_ORIGINATOR
    else if decide (type ∈ gtp2_bearer_request_types) then
      Some (if command then LOCAL_ORIGINATOR else REMOTE_ORIGINATOR)
    else if decide (type ∈ gtp2_final_types) then
      Some (if command && bool_decide (type ∉ failure_types) then REMOTE_ORIGINATOR else LOCAL_ORIGINATOR)
    else None.
Proof.
  intros command. unfold gtp2_rx_originator, ogs_gtp2_xact_get_stage. fold command.
  repeat case_decide; destruct command; cbn; try done; by case_bool_decide.
Qed.

(** C36: what the two receptions do with any message: without sequence
    number, or of unknown type, it is refused and nothing changes; otherwise
    the list of who opened its transaction - which [gtp1_rx_originator] and
    [gtp2_rx_originator] find: the peer for an initial message, for the
    acknowledge of an SGSN context, and for a reply, other than a failure
    indication, under a command's id - has the transaction, and the message
    is accepted, a duplicate, or an error that deletes the transaction; or a
    new transaction is created for it. *)
Theorem gtp_receive_correct P T k s type sqn n w :
  world_ok P T w → nodes w !! k = Some n → fresh w →
  (∃ r w', ogs_gtp1_xact_receive conf k s type sqn w = Some (r, w') ∧ world_ok P T w' ∧
    let opener :=
      if decide (type ∈ gtp1_initial_types ∨ type = OGS_GTP1_SGSN_CONTEXT_ACKNOWLEDGE_TYPE) then Some REMOTE_ORIGINATOR
      else if decide (type ∈ gtp1_intermediate_types ++ gtp1_final_types) then Some LOCAL_ORIGINATOR else None in
    if s then receive_result conf k 1 type sqn opener n w r w' else r = (OGS_ERROR, None) ∧ w' = w) ∧
  (∃ r w', ogs_gtp_xact_receive conf k type sqn w = Some (r, w') ∧ world_ok P T w' ∧
    let command := negb (Z.land (OGS_GTP2_SQN_TO_XID sqn) OGS_GTP_CMD_XACT_ID =? 0) in
    let opener :=
      if decide (type ∈ gtp2_initial_types) then Some REMOTE_ORIGINATOR
      else if decide (type ∈ gtp2_bearer_request_types) then
        Some (if command then LOCAL_ORIGINATOR else REMOTE_ORIGINATOR)
      else if decide (type ∈ gtp2_final_types) then
        Some (if command && bool_decide (type ∉ failure_types) then REMOTE_ORIGINATOR else LOCAL_ORIGINATOR)
      else None in
    receive_result conf k 2 type sqn opener n w r w').
Proof.
  intros Hok Hn Hf. split; apply (proj1 (wp_run _ _ _)).
  - cbn zeta. rewrite <- (gtp1_rx_originator_spec type (OGS_GTP1_SQN_TO_XID sqn)).
    unfold ogs_gtp1_xact_receive. destruct s; cbn [negb]; [by apply xact_receive_ok|by apply wp_ret].
  - cbn zeta. rewrite <- gtp2_rx_originator_spec. by apply xact_receive_ok.
Qed.

(** The ids of version 2 and their sequence numbers are in bijection, and
    the id of a command is told from the id of a request by its most
    significant bit as long as the shared counter stays below it; the ids of
    version 1 survive their 16-bit sequence numbers exactly while that same
    counter, which version 2 advances too, has not passed 65535. *)
Theorem gtp_sqn_roundtrip w type :
  0 ≤ g_xact_id w ≤ OGS_GTP_CMD_XACT_ID →
  0 < xid2 type w < 2 ^ 24 ∧ OGS_GTP2_SQN_TO_XID (OGS_GTP2_XID_TO_SQN (xid2 type w)) = xid2 type w ∧
  (g_xact_id w < OGS_GTP_CMD_XACT_ID - 1 →
   (Z.testbit (xid2 type w) 23 = true ↔ type ∈ command_types)) ∧
  (OGS_GTP1_SQN_TO_XID (OGS_GTP1_XID_TO_SQN (xid1 w)) = xid1 w ↔ g_xact_id w ≤ OGS_GTP1_MAX_XACT_ID).
Proof.
  intros Hg. unfold OGS_GTP_CMD_XACT_ID in Hg.
  assert (Hc : 0 < counter2 w ≤ 0x800000).
  { unfold counter2, OGS_NEXT_ID, OGS_GTP_MIN_XACT_ID, OGS_GTP_CMD_XACT_ID. case_match; lia. }
  assert (Hbit : ∀ g, Z.testbit (Z.lor g 0x800000) 23 = true).
  { intros g. rewrite Z.lor_spec. by rewrite orb_true_r. }
  assert (Hx : 0 < xid2 type w < 2 ^ 24).
  { unfold xid2. case_decide; [|lia]. unfold OGS_GTP_CMD_XACT_ID. split.
    - assert (Z.lor (counter2 w) 0x800000 ≠ 0) by (intros E; by specialize (Hbit (counter2 w)); rewrite E in Hbit).
      assert (0 ≤ Z.lor (counter2 w) 0x800000) by (apply Z.lor_nonneg; lia). lia.
    - apply Z.log2_lt_pow2; [|rewrite Z.log2_lor by lia].
      + assert (Z.lor (counter2 w) 0x800000 ≠ 0) by (intros E; by specialize (Hbit (counter2 w)); rewrite E in Hbit).
        assert (0 ≤ Z.lor (counter2 w) 0x800000) by (apply Z.lor_nonneg; lia). lia.
      + apply Z.max_lub_lt; [|done]. apply Z.log2_lt_pow2; lia. }
  split; [done|]. split; [apply sqn2_xid; lia|]. split.
  - intros Hlt. unfold xid2. case_decide as Ht; [split; [done|intros _; apply Hbit]|]. split; [|done].
    intros Hb. assert (Hs : counter2 w < 2 ^ 23).
    { unfold counter2, OGS_NEXT_ID, OGS_GTP_MIN_XACT_ID, OGS_GTP_CMD_XACT_ID in *. case_match; lia. }
    rewrite Z.bits_above_log2 in Hb; [done|lia|]. apply Z.log2_lt_pow2; lia.
  - rewrite sqn1_xid. unfold xid1, OGS_NEXT_ID, OGS_GTP1_MIN_XACT_ID, OGS_GTP1_MAX_XACT_ID.
    change (2 ^ 16) with 65536. case_match; [split; [lia|done]|]. split.
    + intros E. pose proof (Z.mod_pos_bound (g_xact_id w + 1) 65536). lia.
    + intros E. apply Z.mod_small. lia.
Qed.

(** ** Where the ids fail *)

Lemma next_id_ne id : OGS_NEXT_ID id 1 OGS_MAX_POOL_ID ≠ id.
Proof. unfold OGS_NEXT_ID, OGS_MAX_POOL_ID. case_match; lia. Qed.

(** A transaction outside of a list does not matter to a lookup in it. *)
Lemma xid_in_other w w' ids v t id :
  id ∉ ids → (∀ j, j ≠ id → xacts w' !! j = xacts w !! j) → xid_in w' ids v t = xid_in w ids v t.
Proof.
  intros Hid Hw. unfold xid_in. f_equal. apply filter_iff_in. intros j Hj. rewrite Hw; [done|]. by intros ->.
Qed.

(** A reply that has no transaction is refused, whatever it takes to find out. *)
Lemma refused_reply P T k type sqn o n w (Q : ogs_rv * option Z → world → Prop) :
  world_ok P T w → nodes w !! k = Some n → fresh w →
  gtp2_rx_originator type (OGS_GTP2_SQN_TO_XID sqn) = Some o →
  ogs_gtp2_xact_get_stage type (OGS_GTP2_SQN_TO_XID sqn) = FINAL_STAGE →
  xid_in w (list_of o n) 2 (OGS_GTP2_SQN_TO_XID sqn) = None →
  (∀ w', (∀ j x, xacts w !! j = Some x → xacts w' !! j = Some x) → Q (OGS_ERROR, None) w') →
  wp (ogs_gtp_xact_receive conf k type sqn) Q w.
Proof.
  intros Hok Hn Hf Ho Hs Hx HQ. eapply wp_mono; [by eapply xact_receive_ok|]. cbn beta.
  intros r w' [Hok' H]. unfold receive_result in H. rewrite Ho in H. cbn [OGS_GTP_SQN_TO_XID Z.eqb] in H.
  change (OGS_GTP_SQN_TO_XID 2 sqn) with (OGS_GTP2_SQN_TO_XID sqn) in H. rewrite Hx in H.
  destruct H as (r1 & w1 & Hc & H). unfold create_result in Hc.
  case_decide; [destruct Hc as [-> ->]; destruct H as [-> ->]; by apply HQ|].
  case_decide; [destruct Hc as [-> ->]; destruct H as [-> ->]; by apply HQ|].
  destruct Hc as [-> ->]. unfold rx_result in H.
  replace (rx_class (ready_remote conf 2 sqn k) type) with RxError in H.
  2: { unfold rx_class, stage_in. cbn. change (OGS_GTP_SQN_TO_XID 2 sqn) with (OGS_GTP2_SQN_TO_XID sqn). by rewrite Hs. }
  destruct H as [-> (n' & _ & ->)]. apply HQ. intros j x Hj. unfold fresh in Hf. cbn.
  assert (Hne : j ≠ next_id w) by congruence. rewrite lookup_delete_ne by done.
  rewrite lookup_alter_ne, lookup_insert_ne by done || (intros <-; by rewrite (no_invalid P T w (wo_table _ _ _ Hok)) in Hj).
  done.
Qed.

(** The counter of version 2 reaches the value whose most significant bit
    marks commands: a session request created when it stands one below is sent
    under a command's id, and the peer's answer, which copies the sequence
    number, is looked up among the peer's own transactions and refused; the
    request stays unanswered. *)
Theorem gtp2_wrapped_id_refused P T w k teid pkt cb n :
  world_ok P T w → fresh w → xacts w !! OGS_NEXT_ID (next_id w) 1 OGS_MAX_POOL_ID = None →
  nodes w !! k = Some n → (1 ≤ pool_avail w)%nat → (3 ≤ timers_avail w)%nat →
  g_xact_id w = OGS_GTP_CMD_XACT_ID - 1 →
  xid_in w (remote_list n) 2 OGS_GTP_CMD_XACT_ID = None →
  ∃ r w',
    (id ← ogs_gtp_xact_local_create conf k OGS_GTP2_CREATE_SESSION_REQUEST_TYPE teid pkt cb;
     id ← m_some id;
     ogs_gtp_xact_commit conf id;;
     x ← xact_get id;
     ogs_gtp_xact_receive conf k OGS_GTP2_CREATE_SESSION_RESPONSE_TYPE (OGS_GTP2_XID_TO_SQN (xid x))) w = Some (r, w') ∧
    r = (OGS_ERROR, None) ∧
    ∃ x, xacts w' !! next_id w = Some x ∧ xid x = OGS_GTP_CMD_XACT_ID ∧ step x = 1%nat ∧
      is_Some (tm_response x).
Proof.
  intros Hok Hf Hf2 Hn H1 H3 Hg Hr. apply (proj1 (wp_run _ _ _)).
  assert (Hc : counter2 w = OGS_GTP_CMD_XACT_ID) by (unfold counter2; by rewrite Hg).
  assert (Hx2 : xid2 OGS_GTP2_CREATE_SESSION_REQUEST_TYPE w = OGS_GTP_CMD_XACT_ID) by (unfold xid2; by rewrite Hc).
  apply wp_bind. eapply wp_mono; [eapply local_create2_ok; [done..|by rewrite Hx2]|]. cbn beta zeta.
  intros r w1 [Hok1 H]. unfold create_result in H. rewrite !decide_False in H by lia.
  set (x := ready2 conf k OGS_GTP2_CREATE_SESSION_REQUEST_TYPE cb w) in *.
  assert (Hs : stage_in x OGS_GTP2_CREATE_SESSION_REQUEST_TYPE = INITIAL_STAGE) by (unfold stage_in; cbn; by rewrite Hx2).
  unfold local_result in H. rewrite decide_True in H by (unfold tx_allowed; by rewrite Hs).
  destruct H as [-> ->]. rewrite Hc in *. set (id := next_id w) in *.
  set (x1 := stepped _ _) in *. set (w0 := created id x n OGS_GTP_CMD_XACT_ID w) in *.
  apply wp_bind, wp_some, wp_bind. eapply wp_mono; [by eapply commit_ok; [|apply put_at|]|]. cbn beta.
  intros c w2 [Hok2 H].
  assert (Hcc : commit_class x1 = Send true) by (unfold commit_class, last_type, stage_in; cbn; by rewrite Hx2).
  rewrite Hcc in H. destruct H as (_ & m & _ & ->). rewrite put_put in *. set (x2 := waiting conf x1) in *.
  apply wp_bind. eapply wp_xact_get; [apply put_at|]. change (xid x2) with (xid2 OGS_GTP2_CREATE_SESSION_REQUEST_TYPE w).
  rewrite Hx2.
  assert (Hnotin : id ∉ list_of REMOTE_ORIGINATOR n) by (eapply fresh_notin; [apply (wo_table _ _ _ Hok)|done|done]).
  eapply (refused_reply P T k _ _ REMOTE_ORIGINATOR (Node (local_list n ++ [id]) (remote_list n))); try done.
  - apply lookup_insert_eq.
  - unfold fresh, next_id. cbn. rewrite !lookup_insert_ne by (apply not_eq_sym, next_id_ne). done.
  - change (OGS_GTP2_SQN_TO_XID (OGS_GTP2_XID_TO_SQN OGS_GTP_CMD_XACT_ID)) with OGS_GTP_CMD_XACT_ID.
    rewrite <- Hr. apply (xid_in_other w _ _ _ _ id); [done|]. intros j Hj. cbn. by rewrite !lookup_insert_ne.
  - intros w' Hw. split; [done|]. exists x2. split; [by apply Hw, put_at|]. split; [exact Hx2|]. split; [done|]. by eexists.
Qed.

(** A local transaction of version 1 that has sent its final message (its
    third step) lets a further final message pass its check and stores it
    behind the end of [seq]; version 2 refuses it. *)
Lemma gtp1_final_overrun P T w id x type teid pkt :
  world_ok P T w → xacts w !! id = Some x → org x = LOCAL_ORIGINATOR → step x = 3%nat →
  (ogs_gtp1_xact_get_stage type (xid x) = FINAL_STAGE →
   tx_allowed final1 x FINAL_STAGE = Some true ∧ seq x !! step x = None ∧
   ogs_gtp1_xact_update_tx id type teid pkt w = None) ∧
  (ogs_gtp2_xact_get_stage type (xid x) = FINAL_STAGE →
   ogs_gtp_xact_update_tx id type teid pkt w = Some (OGS_ERROR, put id x [Freed pkt] w)).
Proof.
  intros Hok Hx Ho Hs. pose proof (wo_xact (wo_table _ _ _ Hok) _ _ Hx) as Hxo.
  assert (Hnone : seq x !! step x = None) by (apply lookup_ge_None_2; rewrite history_length, Hs by done; lia).
  split; intros Ht.
  - assert (Hta : tx_allowed final1 x FINAL_STAGE = Some true) by (unfold tx_allowed; by rewrite Ho, Hs).
    split; [done|]. split; [done|]. unfold ogs_gtp1_xact_update_tx.
    erewrite bind_step by (unfold xact_get; by rewrite Hx). rewrite Ht. fold final1.
    erewrite bind_step by (unfold m_some; by rewrite Hta). cbn [negb].
    unfold seq_step, mbind, M_bind, xact_get. rewrite Hx. unfold seq_get. by rewrite Hnone.
  - unfold ogs_gtp_xact_update_tx. erewrite bind_step by (unfold xact_get; by rewrite Hx). rewrite Ht. fold final2.
    erewrite bind_step by (unfold m_some, tx_allowed; by rewrite Ho, Hs). cbn.
    unfold put. rewrite insert_id by done. by destruct w.
Qed.
End spec.

(** ** Concrete runs *)

Abbreviation nworld := (XactBase.world (xact (C:=nat)) nat).
Definition gtp_conf0 : gtp_conf := Conf 3 3000 3 10000.
(** One peer, four transactions and twelve timers; the counter stands at [g]. *)
Definition peer_world (g : Z) : nworld := World ∅ 0 4 g {[0%nat := Node [] []]} 12 [].
Lemma peer_world_reachable g : reachable gtp_conf0 4 12 (peer_world g).
Proof. apply reachable_init. by apply map_Forall_singleton. Qed.
Lemma peer_world_ok g : world_ok 4 12 (peer_world g).
Proof.
  split; [apply world_init_ok; by apply map_Forall_singleton|]. intros i x Hx. done.
Qed.

(** Runs of several operations. *)
Fixpoint run_all (acts : list (action (C:=nat))) : M nworld unit :=
  match acts with
  | [] => mret tt
  | a :: acts => run gtp_conf0 a;; run_all acts
  end.
Definition world_after (acts : list (action (C:=nat))) (w : nworld) : nworld :=
  match run_all acts w with Some (_, w') => w' | None => w end.

(** An SGSN context exchange after its acknowledge: three steps. *)
Definition sgsn_exchange : list (action (C:=nat)) :=
  [LocalCreate1 0 OGS_GTP1_SGSN_CONTEXT_REQUEST_TYPE 0 [1] None; Commit 1;
   Receive1 0 true OGS_GTP1_SGSN_CONTEXT_RESPONSE_TYPE [0; 1];
   UpdateTx1 1 OGS_GTP1_SGSN_CONTEXT_ACKNOWLEDGE_TYPE 0 [2]].
Definition sgsn_world : nworld := Eval vm_compute in world_after sgsn_exchange (peer_world 0).

Lemma sgsn_world_reachable : reachable gtp_conf0 4 12 sgsn_world.
Proof.
  pose proof (peer_world_reachable 0) as H0.
  eapply reachable_step; [eapply reachable_step; [eapply reachable_step; [eapply reachable_step; [exact H0|..]|..]|..]|..].
  - instantiate (1 := LocalCreate1 0 OGS_GTP1_SGSN_CONTEXT_REQUEST_TYPE 0 [1] None).
    split; [by vm_compute|]. split; [by eexists|done].
  - by vm_compute.
  - instantiate (1 := Commit 1). eexists. split; [by vm_compute|done].
  - by vm_compute.
  - instantiate (1 := Receive1 0 true OGS_GTP1_SGSN_CONTEXT_RESPONSE_TYPE [0; 1]).
    split; [by vm_compute|]. eexists. by vm_compute.
  - by vm_compute.
  - instantiate (1 := UpdateTx1 1 OGS_GTP1_SGSN_CONTEXT_ACKNOWLEDGE_TYPE 0 [2]).
    eexists. split; [by vm_compute|]. split; [done|]. done.
  - by vm_compute.
Qed.

Lemma gtp_xact_safe_witness : world_ok 4 12 sgsn_world ∧ is_Some (run gtp_conf0 (Commit 1) sgsn_world).
Proof.
  destruct (gtp_xact_safe gtp_conf0 4 12 sgsn_world sgsn_world_reachable) as [H1 H2].
  split; [exact H1|]. apply H2. eexists. split; [by vm_compute|done].
Defined.

Lemma gtp_local_create_correct_witness :
  ∃ r w', ogs_gtp_xact_local_create gtp_conf0 0 OGS_GTP2_CREATE_SESSION_REQUEST_TYPE 7 [9] (Some 5%nat) (peer_world 0)
    = Some (r, w') ∧ world_ok 4 12 w' ∧ r = Some 1.
Proof.
  destruct (gtp_local_create_correct gtp_conf0 4 12 0 OGS_GTP2_CREATE_SESSION_REQUEST_TYPE 7 [9] (Some 5%nat)
    (peer_world 0) (Node [] []) (peer_world_ok 0) eq_refl eq_refl) as [_ H].
  destruct (H ltac:(done)) as (r & w' & E & Hok & _). exists r, w'. split; [exact E|]. split; [exact Hok|].
  vm_compute in E. by injection E as <- _.
Defined.

Lemma gtp_receive_correct_witness :
  ∃ r w', ogs_gtp_xact_receive gtp_conf0 0 OGS_GTP2_ECHO_REQUEST_TYPE [0; 0; 7; 0] (peer_world 0) = Some (r, w') ∧
    world_ok 4 12 w' ∧ r = (OGS_OK, Some 1).
Proof.
  destruct (gtp_receive_correct gtp_conf0 4 12 0 true OGS_GTP2_ECHO_REQUEST_TYPE [0; 0; 7; 0] (Node [] [])
    (peer_world 0) (peer_world_ok 0) eq_refl eq_refl) as [_ (r & w' & E & Hok & _)].
  exists r, w'. split; [exact E|]. split; [exact Hok|]. vm_compute in E. by injection E as <- _.
Defined.

Lemma gtp_sqn_roundtrip_witness :
  OGS_GTP1_SQN_TO_XID (OGS_GTP1_XID_TO_SQN (xid1 (peer_world 65536))) ≠ xid1 (peer_world 65536).
Proof.
  destruct (gtp_sqn_roundtrip (peer_world 65536) OGS_GTP2_ECHO_REQUEST_TYPE) as (_ & _ & _ & H); [done|].
  intros E. apply H in E. by vm_compute in E.
Defined.

Lemma gtp2_wrapped_id_refused_witness :
  ∃ r w',
    (id ← ogs_gtp_xact_local_create gtp_conf0 0 OGS_GTP2_CREATE_SESSION_REQUEST_TYPE 7 [9] None;
     id ← m_some id;
     ogs_gtp_xact_commit gtp_conf0 id;;
     x ← xact_get id;
     ogs_gtp_xact_receive gtp_conf0 0 OGS_GTP2_CREATE_SESSION_RESPONSE_TYPE (OGS_GTP2_XID_TO_SQN (xid x)))
      (peer_world 0x7fffff) = Some (r, w') ∧
    r = (OGS_ERROR, None) ∧
    ∃ x, xacts w' !! 1 = Some x ∧ xid x = OGS_GTP_CMD_XACT_ID ∧ step x = 1%nat ∧ is_Some (tm_response x).
Proof.
  exact (gtp2_wrapped_id_refused gtp_conf0 4 12 (peer_world 0x7fffff) 0 7 [9] None (Node [] [])
    (peer_world_ok _) eq_refl eq_refl eq_refl ltac:(cbn; lia) ltac:(cbn; lia) eq_refl eq_refl).
Defined.

Example gtp1_final_overrun_run :
  ogs_gtp1_xact_update_tx 1 OGS_GTP1_SGSN_CONTEXT_ACKNOWLEDGE_TYPE 0 [2] sgsn_world = None.
Proof.
  destruct (xacts sgsn_world !! 1) as [x|] eqn:Hx; [|by vm_compute in Hx].
  assert (Hs : org x = LOCAL_ORIGINATOR ∧ step x = 3%nat ∧ xid x = 1) by (vm_compute in Hx; by injection Hx as <-).
  destruct Hs as (Ho & Hs & Hi).
  destruct (gtp1_final_overrun 4 12 sgsn_world 1 x OGS_GTP1_SGSN_CONTEXT_ACKNOWLEDGE_TYPE 0 [2]
    (gtp_reachable_ok gtp_conf0 4 12 sgsn_world sgsn_world_reachable) Hx Ho Hs) as [H _].
  apply H. by rewrite Hi.
Defined.
